(* ===== verification/_CoqProject ===== *)
-Q . S2P
Prelude.v
Params.v
Strings.v
BlockDev.v
Sleeplock.v
Ring.v
Bio.v
Tx.v
Log.v
LogStack.v
Fs.v
FsFile.v
Dinode.v
Dir.v
Icache.v
FsTrunc.v
Ialloc.v
DirSpec.v
DirLink.v
FsOp.v
FsStack.v
Spinlock.v
Kalloc.v
Vm.v
VmSpace.v
VmKernel.v
VmUser.v
Pipe.v
File.v
FileIO.v
Proc.v
ProcFork.v
UserInit.v
Wakeup.v
Syscall.v
SysArg.v
Exec.v
Sysfile.v
Trapc.v
Usys.v
Ulib.v
Printf.v
Grep.v
Utils.v
Umalloc.v
Sh.v
Forks.v
ShRun.v
Posix.v
Split.v
Merge.v
Mystrings.v
Procs.v
Pipeline.v
Launch.v
Sigchld.v
Semana1.v
Phys.v
Ide.v
Boot.v
Mp.v
Seg.v
Apic.v
Console.v
Kbd.v
Terminal.v
Start.v
Main.v
X86.v
Asm.v
AsmBoot.v
Mkfs.v
Image.v
MkfsImage.v
MkfsKernel.v
KernelBoot.v
