(* ===== verification/Prelude.v ===== *)
(** * A verification development for the xv6 kernel and its user programs

    The repository has two parts.  src/xv6 is the xv6 teaching kernel for the
    x86, with its user programs; src/syscalls holds a course's exercises, C
    programs for Linux.  This library models both as Rocq functions and step
    relations, and proves what they are meant to do.

    ** Conventions

    Integers are [Z]; the wrap-around of a width is written out with [u8],
    [u16], [u32] and [s32].  Bytes are numbers, strings and blocks are lists of
    them.  A pointer into an array or a table is an index.  Kernel code is in
    the monad [M S A] of this file, a function from a state to a [result]: a
    value and a state ([Ok]), a call of panic ([Panic]), a process that sleeps
    ([Blocked]), behaviour that C leaves undefined ([Undef]), or not enough fuel
    ([NoFuel]).  User programs are in [U S A] (Usys.v), which adds the call of
    exit.  A theorem that says [Ok] therefore says that the code returns, does
    not panic, and reads and writes inside its arrays.  Concurrent code is cut
    into pieces that run with a lock held; a relation or a list of events puts
    the pieces of several processors in every order.

    Fuel: a loop without a structural measure takes a number of rounds.  Where
    the code has a bound, the definition gives it (the length of a queue, a
    buffer, a line, a path); where the bound depends on the environment (the
    length of a file, the time a disk stays busy), it is an argument, and the
    theorems say how much is enough.

    ** The kernel

    - Params.v: the constants of param.h, fs.h, mmu.h, memlayout.h and others.
    - Strings.v: string.c.
    - Disk: BlockDev.v is the interface of the buffer cache as a class of
      operations and a class of laws; Sleeplock.v (sleeplock.c), Ring.v (doubly
      linked lists) and Bio.v (bio.c on memide.c) implement it.  Ide.v is ide.c.
    - Log: Tx.v is the interface of a transaction; Log.v (log.c) implements it
      over any block device, and LogStack.v puts it on Bio.v and adds power
      failures.
    - File system: Fs.v (fs.c over any transaction), FsFile.v (contents of
      files), Dinode.v (inodes as bytes), Icache.v (the inode cache), FsTrunc.v
      (freeing a file), Ialloc.v (a new inode), Dir.v (directories, paths),
      DirSpec.v and DirLink.v (what is found and what is added), FsOp.v (an operation
      as a transaction of its own), FsStack.v (all of it on the log and the buffer
      cache).
    - Memory: Kalloc.v (kalloc.c) and Vm.v (vm.c), both on physical memory as
      bytes; VmSpace.v, VmKernel.v and VmUser.v account for every page of an
      address space; Seg.v has the segment descriptors.
    - Processes: Spinlock.v (spinlock.c), Proc.v (proc.c), ProcFork.v (fork and
      wait with the memory), UserInit.v (the first process and the scheduler),
      Wakeup.v (sleep and wakeup under all interleavings), Exec.v (exec.c).
    - Files and system calls: Pipe.v (pipe.c), File.v (file.c), FileIO.v (reading and
      writing open files), Syscall.v (syscall.c), SysArg.v (what the fetching of
      arguments checks), Sysfile.v (sysfile.c), Trapc.v (trap.c, sysproc.c and the
      table of system calls).
    - Devices: Console.v (console.c, uart.c), Kbd.v (kbd.c), Terminal.v (the
      two together with the readers), Mp.v (mp.c), Apic.v (lapic.c, ioapic.c,
      picirq.c).
    - The start: Phys.v is physical memory, Boot.v is bootmain.c, Start.v the
      parts of main.c for the devices and the other processors, Main.v is main
      itself with all its calls.
    - Assembly: X86.v is the processor, its registers and instructions; Asm.v has
      trapasm.S, vectors.pl, swtch.S, usys.S and initcode.S, AsmBoot.v has
      bootasm.S, entry.S and entryother.S.
    - mkfs: Mkfs.v is mkfs.c; Image.v, MkfsImage.v and MkfsKernel.v prove what is
      in the image, and KernelBoot.v starts the kernel's file system on it.

    ** The user programs of xv6

    Usys.v states what a program may expect of read, write, open and close as a
    class, with an implementation for examples; the programs are proved against
    the class.  Ulib.v (ulib.c), Printf.v (printf.c), Umalloc.v (umalloc.c),
    Grep.v (grep.c), Utils.v (cat, wc, echo, ls, ln, rm, kill, mkdir), Sh.v (the
    parser of sh.c).  Forks.v is a model of programs that fork, in every
    interleaving of their processes; ShRun.v runs the commands of sh.c on it, and
    init.c and zombie.c.

    ** The exercises

    Posix.v has what they use of the C library (getopt, malloc, buffers with
    uninitialised bytes) and a small Linux to run them on.  Split.v, Merge.v and
    Mystrings.v are split_files.c, merge_files.c and mystrings.c.  Procs.v is a
    model of fork, exec, wait, pipe and dup2, on which Pipeline.v
    (merge_mystrings_split.c, both versions) and Launch.v (openimg.c, openpdf.c,
    shell_ls_redir.c, shell_ytdl_pipe_ffmpeg.c) run.  Sigchld.v is the signal
    handling of openpdf.SIGCHLD.c as a step relation, and Semana1.v the exercises
    of the first week with cat_mem_vir.c.

    ** What is proved

    - Crash safety: a power failure between any two disk writes of a commit
      leaves all of the transaction or none of it, for the log on the real
      buffer cache.
    - The file system: readi and writei are exactly reading and writing of a
      byte sequence, balloc and bfree keep the bitmap exact; the inode cache
      agrees with the disk and counts its references; namex follows the tree of
      directories, dirlink adds a name, ialloc an inode, and the last iput
      frees exactly what the file owned.  filewrite of any length and fileread do
      the same through an open file, piece by piece in transactions.
    - From mkfs to read: the image that mkfs writes is well formed, and the
      kernel that boots on it finds every file and reads back its bytes.
    - Refinements: the disk driver serves a queue of requests, the pipe is a
      first-in first-out channel, the console is a line discipline, each under
      every interleaving; no wakeup of a sleep lock is lost.
    - Locks: mutual exclusion, and that release never panics.
    - Memory: the page allocator, page tables and copying to user memory, and
      the user's malloc and free with their invariant.  The operations on
      address spaces lose no page and give none out twice, also when memory
      runs out half way.
    - Processes: allocation with fresh pids, fork with a copy of the memory,
      exit, wait, kill, growproc in all its cases, the scheduler.  The arguments of
      a system call are read only inside the memory of the process.
    - The start: from the boot sector through bootmain, entry and main to the
      first turn of the scheduler, with the other processors.
    - Assembly: an interrupt saves and restores every register of a program,
      swtch returns to where it was called, a new process reaches user mode, a
      system call returns its result.
    - The shell: in every interleaving, and whatever calls fail, a program that it
      starts is one of the line it has read last, with the arguments and descriptors
      that the line says; and every program of a line can be started.
    - Programs: the parser of the shell inverts printing and always ends; grep
      matches exactly the language of its expressions; printf and atoi, the
      keyboard and its text, split_files and merge_files are round trips; wc,
      mystrings, openimg and the pipeline do what they say.
    - Defects are proved too, as lemmas about the same definitions: among others
      kill_zero, growproc_correct (a shrink to nothing), uva2ka_null, units_wrap, grep_short_read,
      ide_read_error, mystrings_overflow, pipeline2_no_end, dirlink_self,
      mpinit_hangs and signal_lost_before_pause.

    ** Bounds

    The loops that wait for a device have their rounds as an argument: waitdisk in
    Boot.v and idewait in Ide.v, the delivery of an interrupt and the clock in
    Apic.v, the keyboard controller in AsmBoot.v, the start of another processor
    in Start.v; the theorems ask for more rounds than the device is busy.  mpinit
    takes one round more than the table has entries.  The loops of the shell
    and of init that never end (sh_loop, init_loop) take any number of rounds, and
    the theorems hold for each of them.

    ** Not modelled

    - usertests.c, forktest.c, stressfs.c: tests.
    - kernel.ld, the Makefile and the scripts: where the linker puts the
      sections is a parameter (the end of the kernel and of its text).
    - The drafts of the exercises: openimg.c, openimgv2.c and openimgv3.c of week
      2, the first two versions of merge_files.c of week 3;
      Tarea3-v3/merge_files.c and cat_mem_din.c do not compile.
    - Caches, the translation buffer and the reordering of memory accesses: memory
      is sequentially consistent.  Interrupts inside a critical section are
      excluded by the interrupt flag, which Spinlock.v models. *)

From stdpp Require Export base list gmap strings.
From Stdlib Require Export ZArith Lia.

#[global] Open Scope Z_scope.

(** [lia] on goals with [/] and [mod]. *)
Ltac Zify.zify_post_hook ::= Z.to_euclidean_division_equations.

(** ** Outcomes of kernel code

    A kernel function is run by one process on one CPU.  It can return, call
    [panic], go to sleep on a channel ([sleep] in proc.c), or do something the
    C language leaves undefined (an array access out of bounds, say).  The
    state is explicit.  A loop that is not structural runs on fuel; running
    out of it is an outcome of its own, so that a theorem that says [Ok] also
    says that the loop ends. *)

Inductive result (S A : Type) : Type :=
| Ok (a : A) (s : S)
| Panic (msg : string)
| Blocked (chan : Z) (s : S)
| Undef
| NoFuel.
Arguments Ok {S A} a s.
Arguments Panic {S A} msg.
Arguments Blocked {S A} chan s.
Arguments Undef {S A}.
Arguments NoFuel {S A}.

Definition M (S A : Type) : Type := S → result S A.

#[global] Instance M_ret {S} : MRet (M S) := λ A a s, Ok a s.

#[global] Instance M_bind {S} : MBind (M S) := λ A B k m s,
  match m s with
  | Ok a s' => k a s'
  | Panic msg => Panic msg
  | Blocked c s' => Blocked c s'
  | Undef => Undef
  | NoFuel => NoFuel
  end.

Section primitives.
Context {S : Type}.

Definition get : M S S := λ s, Ok s s.
Definition gets {A} (f : S → A) : M S A := λ s, Ok (f s) s.
Definition put (s : S) : M S unit := λ _, Ok tt s.
Definition modify (f : S → S) : M S unit := λ s, Ok tt (f s).
Definition panic {A} (msg : string) : M S A := λ _, Panic msg.
Definition undef {A} : M S A := λ _, Undef.
Definition block {A} (chan : Z) : M S A := λ s, Blocked chan s.
Definition no_fuel {A} : M S A := λ _, NoFuel.

(** An array access; out of bounds it is undefined behaviour. *)
Definition lift_opt {A} (o : option A) : M S A :=
  match o with Some a => mret a | None => undef end.

(** [for (i = lo; i < lo + n; i++) body], where the body can leave the loop
    with a value ([return] or [break]). *)
Fixpoint for_range {R} (n : nat) (lo : Z) (body : Z → M S (option R))
  : M S (option R) :=
  match n with
  | O => mret None
  | Datatypes.S n' =>
      r ← body lo;
      match r with
      | Some v => mret (Some v)
      | None => for_range n' (lo + 1) body
      end
  end.

(** The same loop when the body never leaves it. *)
Fixpoint for_each (n : nat) (lo : Z) (body : Z → M S unit) : M S unit :=
  match n with
  | O => mret tt
  | Datatypes.S n' => body lo;; for_each n' (lo + 1) body
  end.
End primitives.

(** Run code of a component on the part of the state that holds it. *)
Definition zoom {S T A} (pr : S → option T) (up : T → S → S) (m : M T A) : M S A :=
  λ s,
  match pr s with
  | None => Undef
  | Some t =>
      match m t with
      | Ok a t' => Ok a (up t' s)
      | Panic msg => Panic msg
      | Blocked c t' => Blocked c (up t' s)
      | Undef => Undef
      | NoFuel => NoFuel
      end
  end.

(** ** Machine integers

    [uint] is 32 bits wide and wraps; [int] is 32 bits in two's complement;
    [short] is 16 bits in two's complement; [uchar] is a byte. *)

Definition u32 (x : Z) : Z := x mod 4294967296.
Definition u16 (x : Z) : Z := x mod 65536.
Definition u8 (x : Z) : Z := x mod 256.
Definition s32 (x : Z) : Z :=
  let y := u32 x in if y <? 2147483648 then y else y - 4294967296.
Definition s16 (x : Z) : Z :=
  let y := u16 x in if y <? 32768 then y else y - 65536.

(** ** Byte buffers

    A buffer is a list of bytes, each a [Z] in [0, 256).  [slice] reads a
    range, [splice] overwrites one; multi-byte fields are little-endian, as on
    the x86. *)

Definition slice {A} (off n : nat) (l : list A) : list A := take n (drop off l).
Definition splice {A} (off : nat) (bs l : list A) : list A :=
  take off l ++ bs ++ drop (off + length bs) l.

Fixpoint le_bytes (n : nat) (v : Z) : list Z :=
  match n with
  | O => []
  | S n' => v mod 256 :: le_bytes n' (v / 256)
  end.

Fixpoint le_val (bs : list Z) : Z :=
  match bs with
  | [] => 0
  | b :: bs' => b + 256 * le_val bs'
  end.

Definition get32 (l : list Z) (off : nat) : Z := le_val (slice off 4 l).
Definition put32 (l : list Z) (off : nat) (v : Z) : list Z := splice off (le_bytes 4 v) l.
Definition get16 (l : list Z) (off : nat) : Z := le_val (slice off 2 l).
Definition put16 (l : list Z) (off : nat) (v : Z) : list Z := splice off (le_bytes 2 v) l.

Definition is_byte (b : Z) : Prop := 0 ≤ b < 256.
Definition bytes (l : list Z) : Prop := Forall is_byte l.

(** ** Rewriting lemmas for the monad *)

Lemma bind_ok {S A B} (m : M S A) (k : A → M S B) s a s' :
  m s = Ok a s' → (m ≫= k) s = k a s'.
Proof. intros H. unfold mbind, M_bind. by rewrite H. Qed.

Lemma bind_panic {S A B} (m : M S A) (k : A → M S B) s msg :
  m s = Panic msg → (m ≫= k) s = Panic msg.
Proof. intros H. unfold mbind, M_bind. by rewrite H. Qed.

Lemma bind_inv_ok {S A B} (m : M S A) (k : A → M S B) s b s2 :
  (m ≫= k) s = Ok b s2 → ∃ a s1, m s = Ok a s1 ∧ k a s1 = Ok b s2.
Proof.
  unfold mbind, M_bind. destruct (m s) as [a s1| | | |] eqn:E; try done. eauto.
Qed.

Lemma zoom_ok {S T A} (pr : S → option T) up (m : M T A) s t a t' :
  pr s = Some t → m t = Ok a t' → zoom pr up m s = Ok a (up t' s).
Proof. intros H1 H2. unfold zoom. by rewrite H1, H2. Qed.

Lemma bind_ret_l {S A B} (a : A) (k : A → M S B) s : (mret a ≫= k) s = k a s.
Proof. reflexivity. Qed.

Lemma bind_gets {S A B} (f : S → A) (k : A → M S B) s : (gets f ≫= k) s = k (f s) s.
Proof. reflexivity. Qed.

Lemma bind_modify {S B} (f : S → S) (k : unit → M S B) s :
  (modify f ≫= k) s = k tt (f s).
Proof. reflexivity. Qed.

Lemma bind_assoc {S A B C} (m : M S A) (k : A → M S B) (k' : B → M S C) s :
  ((m ≫= k) ≫= k') s = (m ≫= λ a, k a ≫= k') s.
Proof. unfold mbind, M_bind. by destruct (m s). Qed.

Lemma for_each_0 {S} lo (body : Z → M S unit) s : for_each 0 lo body s = Ok tt s.
Proof. reflexivity. Qed.

Lemma for_each_S {S} n lo (body : Z → M S unit) s s' :
  body lo s = Ok tt s' →
  for_each (Datatypes.S n) lo body s = for_each n (lo + 1) body s'.
Proof. intros H. simpl. by rewrite (bind_ok _ _ _ _ _ H). Qed.

(** A loop invariant rule: an invariant that every iteration preserves while
    returning holds, with the loop returning, at the end. *)
Lemma for_each_inv {S} (I : Z → S → Prop) (body : Z → M S unit) n lo s :
  I lo s →
  (∀ i s1, lo ≤ i < lo + Z.of_nat n → I i s1 →
     ∃ s2, body i s1 = Ok tt s2 ∧ I (i + 1) s2) →
  ∃ s', for_each n lo body s = Ok tt s' ∧ I (lo + Z.of_nat n) s'.
Proof.
  revert lo s. induction n as [|n IH]; intros lo s HI Hstep.
  - exists s. split; [done|]. by rewrite Z.add_0_r.
  - destruct (Hstep lo s) as (s2 & Hb & HI2); [lia|done|].
    destruct (IH (lo + 1) s2 HI2) as (s3 & Hf & HI3).
    { intros i s1 Hi. apply Hstep. lia. }
    exists s3. split.
    + by rewrite (for_each_S _ _ _ _ _ Hb).
    + by replace (lo + Z.of_nat (Datatypes.S n)) with (lo + 1 + Z.of_nat n) by lia.
Qed.

(** The rule for a loop that can be left: every round either goes on with the
    invariant or leaves with a result that satisfies [Q]. *)
Lemma for_range_inv {S R} (I : Z → S → Prop) (Q : R → S → Prop) body n lo s :
  I lo s →
  (∀ i s1, lo ≤ i < lo + Z.of_nat n → I i s1 →
     (∃ s2, body i s1 = Ok None s2 ∧ I (i + 1) s2) ∨
     (∃ r s2, body i s1 = Ok (Some r) s2 ∧ Q r s2)) →
  ∃ r s', for_range n lo body s = Ok r s' ∧
    match r with Some r => Q r s' | None => I (lo + Z.of_nat n) s' end.
Proof.
  revert lo s. induction n as [|n IH]; intros lo s HI Hstep.
  - exists None, s. split; [done|]. by rewrite Z.add_0_r.
  - simpl. destruct (Hstep lo s) as [(s2 & Hb & HI2)|(r & s2 & Hb & HQ)]; [lia|done| |].
    + rewrite (bind_ok _ _ _ _ _ Hb).
      destruct (IH (lo + 1) s2 HI2) as (r & s3 & Hf & Hr).
      { intros i s1 Hi. apply Hstep. lia. }
      exists r, s3. split; [done|]. destruct r; [done|].
      by replace (lo + Z.of_nat (Datatypes.S n)) with (lo + 1 + Z.of_nat n) by lia.
    + rewrite (bind_ok _ _ _ _ _ Hb). by exists (Some r), s2.
Qed.

(** ** Slices and splices *)

Section slices.
Context {A : Type}.
Implicit Types l bs : list A.

Lemma length_slice off n l : (off + n ≤ length l)%nat → length (slice off n l) = n.
Proof. unfold slice. intros. rewrite length_take, length_drop. lia. Qed.

Lemma length_splice off bs l :
  (off + length bs ≤ length l)%nat → length (splice off bs l) = length l.
Proof.
  unfold splice. intros. rewrite !length_app, length_take, length_drop. lia.
Qed.

Lemma slice_splice_eq off bs l :
  (off ≤ length l)%nat → slice off (length bs) (splice off bs l) = bs.
Proof.
  intros H. unfold slice, splice.
  rewrite drop_app_length' by (rewrite length_take; lia).
  by rewrite take_app_length.
Qed.

Lemma lookup_splice_lt off bs l i :
  (i < off)%nat → (off ≤ length l)%nat → splice off bs l !! i = l !! i.
Proof.
  intros H H2. unfold splice. rewrite lookup_app_l by (rewrite length_take; lia).
  by rewrite lookup_take_lt.
Qed.

Lemma lookup_splice_in off bs l i :
  (off ≤ i < off + length bs)%nat → (off ≤ length l)%nat →
  splice off bs l !! i = bs !! (i - off)%nat.
Proof.
  intros H H2. unfold splice.
  rewrite lookup_app_r by (rewrite length_take; lia).
  rewrite length_take, Nat.min_l by lia. by rewrite lookup_app_l by lia.
Qed.

Lemma lookup_splice_ge off bs l i :
  (off + length bs ≤ i)%nat → (off ≤ length l)%nat →
  splice off bs l !! i = l !! i.
Proof.
  intros H H2. unfold splice.
  rewrite lookup_app_r by (rewrite length_take; lia).
  rewrite length_take, Nat.min_l by lia.
  rewrite lookup_app_r by lia. rewrite lookup_drop. f_equal. lia.
Qed.

Lemma lookup_slice off n l i :
  (i < n)%nat → slice off n l !! i = l !! (off + i)%nat.
Proof. intros H. unfold slice. by rewrite lookup_take_lt, lookup_drop by lia. Qed.

Lemma slice_splice_ne off n off' bs l :
  (off' + n ≤ off ∨ off + length bs ≤ off')%nat → (off ≤ length l)%nat →
  slice off' n (splice off bs l) = slice off' n l.
Proof.
  intros H H2. apply list_eq. intros i.
  destruct (decide (i < n)%nat) as [Hi|Hi].
  - rewrite !lookup_slice by lia. destruct H.
    + by rewrite lookup_splice_lt by lia.
    + by rewrite lookup_splice_ge by lia.
  - unfold slice. rewrite !lookup_take_ge by lia. done.
Qed.

Lemma splice_all off bs l :
  off = 0%nat → length bs = length l → splice off bs l = bs.
Proof.
  intros -> H. unfold splice. rewrite take_0, drop_ge by lia. simpl.
  by rewrite app_nil_r.
Qed.

Lemma slice_all n l : length l = n → slice 0 n l = l.
Proof. intros <-. unfold slice. by rewrite drop_0, firstn_all. Qed.
End slices.

(** ** Prefixes of lists *)

Lemma elem_of_take_weaken {A} (x : A) n l : x ∈ take n l → x ∈ l.
Proof. rewrite elem_of_take. intros (i & Hi & _). by eapply list_elem_of_lookup_2. Qed.

Lemma filter_iff_in {A} (P Q : A → Prop) `{!∀ x, Decision (P x), !∀ x, Decision (Q x)} (l : list A) :
  (∀ x, x ∈ l → P x ↔ Q x) → filter P l = filter Q l.
Proof.
  induction l as [|x l IH]; intros HPQ; [done|]. rewrite !filter_cons.
  rewrite IH by (intros y Hy; apply HPQ; by right). destruct (HPQ x) as [HP HQ]; [by left|].
  destruct (decide (P x)), (decide (Q x)); tauto || done.
Qed.

Lemma NoDup_take_notin {A} (l : list A) i x :
  NoDup l → l !! i = Some x → x ∉ take i l.
Proof.
  intros Hnd Hi Hin. apply elem_of_take in Hin as (j & Hj & Hlt).
  pose proof (NoDup_lookup _ _ _ _ Hnd Hi Hj). lia.
Qed.

(** ** Little-endian fields *)

Lemma length_le_bytes n v : length (le_bytes n v) = n.
Proof. revert v. induction n as [|n IH]; intros v; simpl; [done|]. by rewrite IH. Qed.

Lemma le_bytes_bytes n v : bytes (le_bytes n v).
Proof.
  revert v. induction n as [|n IH]; intros v; simpl; constructor; [|apply IH].
  unfold is_byte. apply Z.mod_pos_bound. lia.
Qed.

Lemma le_val_bytes n v : le_val (le_bytes n v) = v mod (256 ^ Z.of_nat n).
Proof.
  revert v. induction n as [|n IH]; intros v; simpl.
  - by rewrite Z.mod_1_r.
  - rewrite IH. rewrite Nat2Z.inj_succ, Z.pow_succ_r by lia.
    rewrite Z.rem_mul_r; [lia|lia|]. apply Z.pow_pos_nonneg; lia.
Qed.

Lemma le_val_bound l : bytes l → 0 ≤ le_val l < 256 ^ Z.of_nat (length l).
Proof.
  induction 1 as [|b l Hb Hl IH]; simpl; [lia|].
  rewrite Nat2Z.inj_succ, Z.pow_succ_r by lia. unfold is_byte in Hb. nia.
Qed.

Lemma get32_put32_eq l off v :
  (off ≤ length l)%nat → get32 (put32 l off v) off = u32 v.
Proof.
  intros H. unfold get32, put32.
  replace 4%nat with (length (le_bytes 4 v)) by apply length_le_bytes.
  rewrite slice_splice_eq by done. rewrite length_le_bytes, le_val_bytes. done.
Qed.

Lemma get32_put32_ne l off off' v :
  (off' + 4 ≤ off ∨ off + 4 ≤ off')%nat → (off ≤ length l)%nat →
  get32 (put32 l off v) off' = get32 l off'.
Proof.
  intros H H2. unfold get32, put32. f_equal. apply slice_splice_ne; [|done].
  rewrite length_le_bytes. lia.
Qed.

Lemma get16_put16_eq l off v :
  (off ≤ length l)%nat → get16 (put16 l off v) off = u16 v.
Proof.
  intros H. unfold get16, put16.
  replace 2%nat with (length (le_bytes 2 v)) by apply length_le_bytes.
  rewrite slice_splice_eq by done. rewrite length_le_bytes, le_val_bytes. done.
Qed.

Lemma length_put32 l off v : (off + 4 ≤ length l)%nat → length (put32 l off v) = length l.
Proof. intros. unfold put32. apply length_splice. by rewrite length_le_bytes. Qed.

Lemma length_put16 l off v : (off + 2 ≤ length l)%nat → length (put16 l off v) = length l.
Proof. intros. unfold put16. apply length_splice. by rewrite length_le_bytes. Qed.

(** ** Arithmetic at machine width *)

Lemma u32_small x : 0 ≤ x < 4294967296 → u32 x = x.
Proof. intros. unfold u32. by apply Z.mod_small. Qed.

Lemma s32_small x : -2147483648 ≤ x < 2147483648 → s32 x = x.
Proof.
  intros H. unfold s32, u32. destruct (decide (0 ≤ x)).
  - rewrite Z.mod_small by lia. by rewrite (proj2 (Z.ltb_lt _ _)) by lia.
  - replace (x mod 4294967296) with (x + 4294967296) by (apply Z.mod_unique with (-1); lia).
    rewrite (proj2 (Z.ltb_ge _ _)) by lia. lia.
Qed.

Lemma u32_bound x : 0 ≤ u32 x < 4294967296.
Proof. unfold u32. apply Z.mod_pos_bound. lia. Qed.

Lemma s16_small x : -32768 ≤ x < 32768 → s16 x = x.
Proof.
  intros H. unfold s16, u16. destruct (decide (0 ≤ x)).
  - rewrite Z.mod_small by lia. by destruct (Z.ltb_spec x 32768); [|lia].
  - replace (x mod 65536) with (x + 65536).
    + destruct (Z.ltb_spec (x + 65536) 32768); lia.
    + apply Z.mod_unique with (-1); lia.
Qed.

Create HintDb xv6 discriminated.
#[export] Hint Resolve length_le_bytes le_bytes_bytes u32_bound : xv6.
Create Rewrite HintDb lens.
#[export] Hint Rewrite @length_insert @length_take @length_drop @length_app
  @length_le_bytes @length_replicate : lens.

(** ** Tactics *)

(** Run the monad by one step whose result is known. *)
Ltac mstep H := rewrite (bind_ok _ _ _ _ _ H); cbn beta.

(** Split boolean comparisons of the source into arithmetic facts. *)
Ltac zbool :=
  repeat match goal with
  | |- context [?a <? ?b] => destruct (Z.ltb_spec a b)
  | |- context [?a <=? ?b] => destruct (Z.leb_spec a b)
  | |- context [?a =? ?b] => destruct (Z.eqb_spec a b)
  end.

Ltac zbool_in H :=
  repeat match type of H with
  | context [?a <? ?b] => destruct (Z.ltb_spec a b)
  | context [?a <=? ?b] => destruct (Z.leb_spec a b)
  | context [?a =? ?b] => destruct (Z.eqb_spec a b)
  end.
