(* ===== verification/Params.v ===== *)
(** * Kernel parameters and layout constants

    The constants of param.h, memlayout.h, mmu.h, fs.h, stat.h, fcntl.h and
    buf.h, with the values the headers give them.  A [#define] that takes
    arguments is a function. *)

From S2P Require Import Prelude.

(** ** param.h *)

Definition NPROC : Z := 64.
Definition KSTACKSIZE : Z := 4096.
Definition NCPU : Z := 8.
Definition NOFILE : Z := 16.
Definition NFILE : Z := 100.
Definition NINODE : Z := 50.
Definition NDEV : Z := 10.
Definition ROOTDEV : Z := 1.
Definition MAXARG : Z := 32.
Definition MAXOPBLOCKS : Z := 10.
Definition LOGSIZE : Z := MAXOPBLOCKS * 3.
Definition NBUF : Z := MAXOPBLOCKS * 3.
Definition FSSIZE : Z := 1000.

(** ** fs.h *)

Definition ROOTINO : Z := 1.
Definition BSIZE : Z := 512.
Definition NDIRECT : Z := 12.
Definition NINDIRECT : Z := BSIZE / 4.
Definition MAXFILE : Z := NDIRECT + NINDIRECT.
Definition DIRSIZ : Z := 14.
(** [sizeof(struct dinode)]: four shorts, the size, thirteen addresses. *)
Definition DINODESZ : Z := 64.
(** [sizeof(struct dirent)]: a ushort and DIRSIZ bytes. *)
Definition DIRENTSZ : Z := 16.
Definition IPB : Z := BSIZE / DINODESZ.
Definition BPB : Z := BSIZE * 8.

Record superblock : Type := {
  sb_size : Z;
  sb_nblocks : Z;
  sb_ninodes : Z;
  sb_nlog : Z;
  sb_logstart : Z;
  sb_inodestart : Z;
  sb_bmapstart : Z }.

Definition IBLOCK (i : Z) (sb : superblock) : Z := i / IPB + sb_inodestart sb.
Definition BBLOCK (b : Z) (sb : superblock) : Z := b / BPB + sb_bmapstart sb.

(** ** stat.h, fcntl.h, buf.h *)

Definition T_DIR : Z := 1.
Definition T_FILE : Z := 2.
Definition T_DEV : Z := 3.

Record stat : Type := mkstat { st_type : Z; st_dev : Z; st_ino : Z; st_nlink : Z; st_size : Z }.

Definition O_RDONLY : Z := 0x000.
Definition O_WRONLY : Z := 0x001.
Definition O_RDWR : Z := 0x002.
Definition O_CREATE : Z := 0x200.

Definition B_VALID : Z := 0x2.
Definition B_DIRTY : Z := 0x4.

(** ** memlayout.h and mmu.h *)

Definition EXTMEM : Z := 0x100000.
Definition PHYSTOP : Z := 0xE000000.
Definition DEVSPACE : Z := 0xFE000000.
Definition KERNBASE : Z := 0x80000000.
Definition KERNLINK : Z := KERNBASE + EXTMEM.
Definition V2P (a : Z) : Z := u32 (a - KERNBASE).
Definition P2V (a : Z) : Z := u32 (a + KERNBASE).

Definition PGSIZE : Z := 4096.
Definition NPDENTRIES : Z := 1024.
Definition NPTENTRIES : Z := 1024.
Definition PTXSHIFT : Z := 12.
Definition PDXSHIFT : Z := 22.
Definition PDX (va : Z) : Z := Z.land (Z.shiftr va PDXSHIFT) 0x3FF.
Definition PTX (va : Z) : Z := Z.land (Z.shiftr va PTXSHIFT) 0x3FF.
Definition PGADDR (d t o : Z) : Z :=
  u32 (Z.lor (Z.lor (Z.shiftl d PDXSHIFT) (Z.shiftl t PTXSHIFT)) o).
Definition PGROUNDUP (sz : Z) : Z := Z.land (u32 (sz + PGSIZE - 1)) (Z.lnot (PGSIZE - 1)).
Definition PGROUNDDOWN (a : Z) : Z := Z.land a (Z.lnot (PGSIZE - 1)).

Definition PTE_P : Z := 0x001.
Definition PTE_W : Z := 0x002.
Definition PTE_U : Z := 0x004.
Definition PTE_PS : Z := 0x080.
Definition PTE_ADDR (pte : Z) : Z := Z.land pte (Z.lnot 0xFFF).
Definition PTE_FLAGS (pte : Z) : Z := Z.land pte 0xFFF.

(** ** Facts about the address macros *)

Lemma PGROUNDDOWN_spec a : PGROUNDDOWN a = a - a mod 4096.
Proof.
  unfold PGROUNDDOWN, PGSIZE.
  change (4096 - 1) with (Z.ones 12).
  rewrite <- Z.ldiff_land, Z.ldiff_ones_r by lia.
  rewrite Z.shiftr_div_pow2, Z.shiftl_mul_pow2 by lia.
  change (2 ^ 12) with 4096.
  pose proof (Z.div_mod a 4096). lia.
Qed.

Lemma PGROUNDUP_spec a :
  0 ≤ a ≤ 4294963200 → PGROUNDUP a = (a + 4095) / 4096 * 4096.
Proof.
  intros H. unfold PGROUNDUP. fold (PGROUNDDOWN (u32 (a + PGSIZE - 1))).
  rewrite PGROUNDDOWN_spec. unfold PGSIZE.
  replace (a + 4096 - 1) with (a + 4095) by lia.
  rewrite u32_small by lia. lia.
Qed.

Lemma PTE_ADDR_spec pte : PTE_ADDR pte = pte - pte mod 4096.
Proof. apply PGROUNDDOWN_spec. Qed.

Lemma PTE_FLAGS_spec pte : PTE_FLAGS pte = pte mod 4096.
Proof. unfold PTE_FLAGS. change 0xFFF with (Z.ones 12). by rewrite Z.land_ones. Qed.

Lemma PDX_spec va : PDX va = va / 4194304 mod 1024.
Proof.
  unfold PDX, PDXSHIFT. change 0x3FF with (Z.ones 10).
  by rewrite Z.land_ones, Z.shiftr_div_pow2.
Qed.

Lemma PTX_spec va : PTX va = va / 4096 mod 1024.
Proof.
  unfold PTX, PTXSHIFT. change 0x3FF with (Z.ones 10).
  by rewrite Z.land_ones, Z.shiftr_div_pow2.
Qed.
