(* ===== verification/Strings.v ===== *)
(** * Kernel string functions: string.c

    The memory functions work on a memory, a list of bytes indexed by address;
    an access outside it is [None].  The string functions take the bytes from
    a pointer on, NUL included; running off the end of that list is [None]
    too.  A destination buffer is the list of its bytes before and after. *)

From S2P Require Import Prelude Params.

(** ** memset, memcmp, memmove *)

(** [rep stosb] and [rep stosl]. *)
Definition stosb (mem : list Z) (dst : nat) (c : Z) (n : nat) : option (list Z) :=
  guard (dst + n ≤ length mem)%nat;;
  Some (splice dst (replicate n (u8 c)) mem).
Definition stosl (mem : list Z) (dst : nat) (w : Z) (n : nat) : option (list Z) :=
  guard (dst + 4 * n ≤ length mem)%nat;;
  Some (splice dst (concat (replicate n (le_bytes 4 w))) mem).

Definition memset (mem : list Z) (dst : nat) (c : Z) (n : nat) : option (list Z) :=
  if (Z.of_nat dst mod 4 =? 0) && (Z.of_nat n mod 4 =? 0) then
    let c := Z.land c 0xFF in
    stosl mem dst (Z.lor (Z.lor (Z.lor (Z.shiftl c 24) (Z.shiftl c 16)) (Z.shiftl c 8)) c) (n / 4)
  else stosb mem dst c n.

Fixpoint memcmp (s1 s2 : list Z) (n : nat) {struct n} : option Z :=
  match n with
  | O => Some 0
  | S n' =>
      match s1, s2 with
      | a :: s1', b :: s2' => if a =? b then memcmp s1' s2' n' else Some (a - b)
      | _, _ => None
      end
  end.

Definition load (mem : list Z) (a : nat) : option Z := mem !! a.
Definition store (mem : list Z) (a : nat) (x : Z) : option (list Z) :=
  guard (a < length mem)%nat;; Some (<[a := x]> mem).

(** [while(n-- > 0) *d++ = *s++] *)
Fixpoint copy_up (n : nat) (d s : nat) (mem : list Z) : option (list Z) :=
  match n with
  | O => Some mem
  | S n' => x ← load mem s; mem ← store mem d x; copy_up n' (S d) (S s) mem
  end.

(** [while(n-- > 0) *--d = *--s] *)
Fixpoint copy_down (n : nat) (d s : nat) (mem : list Z) : option (list Z) :=
  match n with
  | O => Some mem
  | S n' =>
      guard (0 < d ∧ 0 < s)%nat;;
      x ← load mem (s - 1); mem ← store mem (d - 1) x; copy_down n' (d - 1) (s - 1) mem
  end.

Definition memmove (mem : list Z) (dst src : nat) (n : nat) : option (list Z) :=
  if bool_decide (src < dst)%nat && bool_decide (dst < src + n)%nat
  then copy_down n (dst + n) (src + n) mem
  else copy_up n dst src mem.

Definition memcpy (mem : list Z) (dst src : nat) (n : nat) : option (list Z) :=
  memmove mem dst src n.

(** ** Strings *)

Fixpoint strncmp (p q : list Z) (n : nat) {struct n} : option Z :=
  match n with
  | O => Some 0
  | S n' =>
      match p, q with
      | a :: p', b :: q' =>
          if negb (a =? 0) && (a =? b) then strncmp p' q' n' else Some (a - b)
      | _, _ => None
      end
  end.

(** [strncpy(s, t, n)]: the [n] bytes it writes to [s].  The first loop copies
    until a NUL has been copied or [n] bytes have; the second pads. *)
Fixpoint strncpy (t : list Z) (n : nat) {struct n} : option (list Z) :=
  match n with
  | O => Some []
  | S n' =>
      match t with
      | [] => None
      | c :: t' => if c =? 0 then Some (0 :: replicate n' 0) else cons c <$> strncpy t' n'
      end
  end.

(** [safestrcpy(s, t, n)]: the bytes it writes; [n] counts down to one. *)
Fixpoint safestrcpy_loop (t : list Z) (n : nat) {struct n} : option (list Z) :=
  match n with
  | O => Some [0]
  | S n' =>
      match t with
      | [] => None
      | c :: t' => if c =? 0 then Some [0; 0] else cons c <$> safestrcpy_loop t' n'
      end
  end.

Definition safestrcpy (t : list Z) (n : Z) : option (list Z) :=
  if n <=? 0 then Some [] else safestrcpy_loop t (Z.to_nat (n - 1)).

Fixpoint strlen (s : list Z) : option Z :=
  match s with
  | [] => None
  | c :: s' => if c =? 0 then Some 0 else (λ n, n + 1) <$> strlen s'
  end.

(** A C string: bytes other than NUL, then the NUL. *)
Definition cstr (s : list Z) : list Z := s ++ [0].
Definition no_nul (s : list Z) : Prop := Forall (λ c, c ≠ 0) s.

(** ** The memory functions *)

Lemma splice_insert_head {A} d (x : A) l mem :
  (d < length mem)%nat → splice (S d) l (<[d := x]> mem) = splice d (x :: l) mem.
Proof.
  intros Hd. unfold splice. simpl.
  rewrite (take_S_r _ _ x) by (by apply list_lookup_insert_eq).
  rewrite take_insert_ge, drop_insert_lt by lia. rewrite <- app_assoc. simpl.
  do 3 f_equal. f_equal. lia.
Qed.

Lemma splice_insert_last {A} d (x : A) l mem :
  (d + length l < length mem)%nat → splice d l (<[(d + length l)%nat := x]> mem) = splice d (l ++ [x]) mem.
Proof.
  intros Hd. unfold splice. rewrite take_insert_ge by lia. f_equal. rewrite <- app_assoc. f_equal.
  rewrite length_app. simpl. rewrite (drop_S _ x) by (by apply list_lookup_insert_eq).
  rewrite drop_insert_lt by lia. simpl. do 2 f_equal. lia.
Qed.

Lemma slice_S {A} s n (mem : list A) x :
  mem !! s = Some x → slice s (S n) mem = x :: slice (S s) n mem.
Proof. intros H. unfold slice. by rewrite (drop_S _ _ _ H). Qed.

Lemma slice_insert_out {A} s n d (x : A) mem :
  (d < s ∨ s + n ≤ d)%nat → slice s n (<[d := x]> mem) = slice s n mem.
Proof.
  intros H. unfold slice. destruct H.
  - by rewrite drop_insert_lt by lia.
  - rewrite drop_insert_ge by lia. by rewrite take_insert_ge by lia.
Qed.

Lemma store_in mem a x : (a < length mem)%nat → store mem a x = Some (<[a := x]> mem).
Proof. intros H. unfold store. by rewrite option_guard_True. Qed.

Lemma copy_up_ok n d s mem :
  (d ≤ s ∨ s + n ≤ d)%nat → (s + n ≤ length mem)%nat → (d + n ≤ length mem)%nat →
  copy_up n d s mem = Some (splice d (slice s n mem) mem).
Proof.
  revert d s mem. induction n as [|n IH]; intros d s mem Ho Hs Hd.
  - simpl. unfold splice, slice. simpl. by rewrite Nat.add_0_r, take_drop.
  - destruct (lookup_lt_is_Some_2 mem s) as [x Hx]; [lia|]. simpl. unfold load. rewrite Hx. simpl.
    rewrite store_in by lia. simpl. rewrite IH; rewrite ?length_insert; try lia.
    rewrite slice_insert_out by lia. rewrite splice_insert_head by lia.
    by rewrite (slice_S _ _ _ _ Hx).
Qed.

Lemma copy_down_ok n d s mem :
  (s < d)%nat → (s + n ≤ length mem)%nat → (d + n ≤ length mem)%nat →
  copy_down n (d + n) (s + n) mem = Some (splice d (slice s n mem) mem).
Proof.
  revert mem. induction n as [|n IH]; intros mem Ho Hs Hd.
  - simpl. unfold splice, slice. simpl. by rewrite Nat.add_0_r, take_drop.
  - destruct (lookup_lt_is_Some_2 mem (s + n)) as [x Hx]; [lia|].
    simpl. rewrite option_guard_True by lia. unfold load.
    replace (s + S n - 1)%nat with (s + n)%nat by lia. replace (d + S n - 1)%nat with (d + n)%nat by lia.
    simpl. rewrite Hx. simpl. rewrite store_in by lia. simpl.
    rewrite IH; rewrite ?length_insert; try lia. rewrite slice_insert_out by lia. f_equal.
    assert (Hl : length (slice s n mem) = n) by (apply length_slice; lia).
    rewrite <- Hl at 2. rewrite splice_insert_last by lia. f_equal.
    unfold slice. rewrite (take_S_r _ _ x); [done|]. by rewrite lookup_drop.
Qed.

Lemma memmove_ok mem dst src n :
  (src + n ≤ length mem)%nat → (dst + n ≤ length mem)%nat →
  memmove mem dst src n = Some (splice dst (slice src n mem) mem).
Proof.
  intros Hs Hd. unfold memmove. destruct (bool_decide_reflect (src < dst)%nat); simpl.
  - destruct (bool_decide_reflect (dst < src + n)%nat); simpl.
    + by apply copy_down_ok.
    + apply copy_up_ok; lia.
  - apply copy_up_ok; lia.
Qed.

Lemma memset_word c : let b := Z.land c 0xFF in
  le_bytes 4 (Z.lor (Z.lor (Z.lor (Z.shiftl b 24) (Z.shiftl b 16)) (Z.shiftl b 8)) b)
  = replicate 4 (u8 c).
Proof.
  simpl. set (b := Z.land c 255).
  assert (Hb : 0 ≤ b < 256 ∧ b = u8 c).
  { unfold b, u8. change 255 with (Z.ones 8). rewrite Z.land_ones by lia.
    split; [apply Z.mod_pos_bound; lia|done]. }
  destruct Hb as [Hb <-].
  assert (Hall : forallb (λ b, bool_decide
    (le_bytes 4 (Z.lor (Z.lor (Z.lor (Z.shiftl b 24) (Z.shiftl b 16)) (Z.shiftl b 8)) b) = replicate 4 b))
    (seqZ 0 256) = true) by (vm_compute; reflexivity).
  rewrite forallb_forall in Hall. specialize (Hall b).
  rewrite <- list_elem_of_In, elem_of_seqZ, bool_decide_eq_true in Hall. apply Hall. lia.
Qed.

Lemma concat_replicate {A} (n k : nat) (x : A) :
  concat (replicate n (replicate k x)) = replicate (k * n) x.
Proof.
  induction n as [|n IH]; simpl; [by rewrite Nat.mul_0_r|].
  rewrite IH, <- replicate_add. f_equal. lia.
Qed.

Lemma memset_ok mem dst c n :
  (dst + n ≤ length mem)%nat → memset mem dst c n = Some (splice dst (replicate n (u8 c)) mem).
Proof.
  intros Hn. unfold memset.
  destruct ((Z.of_nat dst mod 4 =? 0) && (Z.of_nat n mod 4 =? 0)) eqn:E.
  - apply andb_true_iff in E as [_ E]. apply Z.eqb_eq in E.
    assert (4 * (n / 4) = n)%nat as Hdiv.
    { apply Nat2Z.inj. rewrite Nat2Z.inj_mul, Nat2Z.inj_div. lia. }
    unfold stosl. rewrite option_guard_True by lia. rewrite memset_word, concat_replicate, Hdiv. done.
  - unfold stosb. by rewrite option_guard_True.
Qed.

(** ** Names: the bytes before the first NUL, at most [n] of them *)

Fixpoint cname (n : nat) (l : list Z) : list Z :=
  match n, l with
  | S n', c :: l' => if c =? 0 then [] else c :: cname n' l'
  | _, _ => []
  end.

(** Reading the name does not run off the end. *)
Fixpoint readable (n : nat) (l : list Z) : Prop :=
  match n with
  | O => True
  | S n' => match l with [] => False | c :: l' => c = 0 ∨ readable n' l' end
  end.

Lemma strncmp_ok n p q : readable n p → readable n q →
  ∃ r, strncmp p q n = Some r ∧ (r = 0 ↔ cname n p = cname n q).
Proof.
  revert p q. induction n as [|n IH]; intros p q Hp Hq; [by exists 0; split; [|split]|].
  destruct p as [|a p]; [done|]. destruct q as [|b q]; [done|]. simpl in *.
  destruct (Z.eqb_spec a 0) as [->|Ha]; simpl.
  - exists (0 - b). split; [done|]. destruct (Z.eqb_spec b 0) as [->|Hb]; [done|].
    split; [intros; lia|done].
  - destruct (Z.eqb_spec a b) as [->|Hab].
    + destruct (IH p q) as (r & E & Hr); [tauto|tauto|]. exists r. split; [done|].
      rewrite (proj2 (Z.eqb_neq b 0) Ha), Hr. split; [by intros ->|by intros [= ->]].
    + exists (a - b). split; [done|]. destruct (Z.eqb_spec b 0); split; try done; intros; try lia.
      simplify_eq.
Qed.

Lemma cname_cstr n s : no_nul s → cname n (cstr s) = take n s.
Proof.
  revert s. induction n as [|n IH]; intros s Hs; [done|].
  destruct s as [|c s]; [done|]. apply Forall_cons in Hs as [Hc Hs]. unfold cstr. simpl.
  rewrite (proj2 (Z.eqb_neq c 0) Hc). f_equal. by apply IH.
Qed.

Lemma readable_cstr n s : readable n (cstr s).
Proof.
  revert s. induction n as [|n IH]; intros s; [done|].
  destruct s as [|c s]; [by left|]. right. apply IH.
Qed.

Lemma readable_length n l : (n ≤ length l)%nat → readable n l.
Proof.
  revert l. induction n as [|n IH]; intros l Hl; [done|]. destruct l as [|c l]; simpl in *; [lia|].
  right. apply IH. lia.
Qed.

Lemma cname_replicate0 n k : cname n (replicate k 0) = [].
Proof. by destruct n, k. Qed.

Lemma strncpy_ok n s : no_nul s →
  ∃ l, strncpy (cstr s) n = Some l ∧ length l = n ∧ cname n l = take n s ∧ (bytes s → bytes l).
Proof.
  revert s. induction n as [|n IH]; intros s Hs; [exists []; split_and!; try done; intros; constructor|].
  destruct s as [|c s].
  - exists (0 :: replicate n 0). split_and!; [done|by simpl; rewrite length_replicate|done|].
    intros _. constructor; [by unfold is_byte|]. by apply Forall_replicate.
  - apply Forall_cons in Hs as [Hc Hs]. destruct (IH s Hs) as (l & E & Hl & Hn & Hb).
    exists (c :: l). unfold cstr in *. simpl. rewrite (proj2 (Z.eqb_neq c 0) Hc), E. simpl.
    split_and!; [done|by f_equal|by f_equal|]. intros [? ?]%Forall_cons. apply Forall_cons. split; [done|by apply Hb].
Qed.

Lemma safestrcpy_loop_ok n s : no_nul s →
  ∃ l, safestrcpy_loop (cstr s) n = Some l ∧ (length l ≤ S n)%nat ∧
       cname (length l) l = take n s ∧ (∃ l', l = take n s ++ 0 :: l').
Proof.
  revert s. induction n as [|n IH]; intros s Hs; [exists [0]; split_and!; eauto|].
  destruct s as [|c s].
  - exists [0; 0]. split_and!; simpl; eauto; lia.
  - apply Forall_cons in Hs as [Hc Hs]. destruct (IH s Hs) as (l & E & Hl & Hn & l' & ->).
    eexists. unfold cstr in *. simpl. rewrite (proj2 (Z.eqb_neq c 0) Hc), E.
    split_and!; [done|simpl in *; lia| |by exists l']. simpl. rewrite (proj2 (Z.eqb_neq c 0) Hc).
    by f_equal.
Qed.

Lemma strlen_ok s t : no_nul s → strlen (s ++ 0 :: t) = Some (Z.of_nat (length s)).
Proof.
  induction s as [|c s IH]; intros Hs; [done|]. apply Forall_cons in Hs as [Hc Hs].
  simpl. rewrite (proj2 (Z.eqb_neq c 0) Hc), IH by done. simpl. f_equal. lia.
Qed.
