(* ===== verification/BlockDev.v ===== *)
(** * The block device interface between the buffer cache and its clients

    log.c and fs.c use the cache through [bread], [bwrite], [brelse], the data
    and the block number of a buffer they hold, and the B_DIRTY flag that pins
    a buffer.  [BlockOps] is that list of operations; [BlockSpec] says what they
    do to a view of the device: the contents every block has for its readers,
    the contents on the disk, the buffers the caller holds, the pinned blocks
    and the writes the disk has received.  The clients are proved against
    [BlockSpec]; Bio.v proves that bio.c satisfies it. *)

From S2P Require Import Prelude Params.

Record bview : Type := mkv {
  v_cont : list (list Z);          (* block contents, as a reader sees them *)
  v_disk : list (list Z);          (* block contents on the disk *)
  v_held : gmap nat Z;             (* buffers held by the caller, their block *)
  v_pins : gset Z;                 (* blocks with B_DIRTY set *)
  v_hist : list (Z * list Z) }.    (* disk writes so far *)

(** ** What the operations do to the view *)

Definition view_hold (h : nat) (n : Z) (v : bview) : bview :=
  mkv (v_cont v) (v_disk v) (<[h := n]> (v_held v)) (v_pins v) (v_hist v).
Definition view_drop (h : nat) (v : bview) : bview :=
  mkv (v_cont v) (v_disk v) (delete h (v_held v)) (v_pins v) (v_hist v).
Definition view_set (n : Z) (d : list Z) (v : bview) : bview :=
  mkv (<[Z.to_nat n := d]> (v_cont v)) (v_disk v) (v_held v) (v_pins v) (v_hist v).
Definition view_pin (n : Z) (v : bview) : bview :=
  mkv (v_cont v) (v_disk v) (v_held v) ({[n]} ∪ v_pins v) (v_hist v).
Definition view_flush (n : Z) (d : list Z) (v : bview) : bview :=
  mkv (v_cont v) (<[Z.to_nat n := d]> (v_disk v)) (v_held v) (v_pins v ∖ {[n]})
      (v_hist v ++ [(n, d)]).

Definition in_disk (v : bview) (n : Z) : Prop := 0 ≤ n < Z.of_nat (length (v_disk v)).

Record view_wf (v : bview) : Prop := {
  wf_len : length (v_cont v) = length (v_disk v);
  wf_cont : Forall (λ d, length d = Z.to_nat BSIZE) (v_cont v);
  wf_disk : Forall (λ d, length d = Z.to_nat BSIZE) (v_disk v);
  wf_pins : ∀ n, n ∈ v_pins v → in_disk v n;
  wf_held : ∀ h n, v_held v !! h = Some n → in_disk v n;
  wf_inj : ∀ h h' n, v_held v !! h = Some n → v_held v !! h' = Some n → h = h';
  wf_clean : ∀ n, n ∉ v_pins v → (∀ h, v_held v !! h ≠ Some n) → 0 ≤ n →
    v_cont v !! Z.to_nat n = v_disk v !! Z.to_nat n }.

(** There is a buffer to spare for a block that is not cached. *)
Definition has_room (v : bview) : Prop :=
  (size (v_held v) + size (v_pins v) < Z.to_nat NBUF)%nat.

Class BlockOps (S : Type) : Type := {
  bread : Z → Z → M S nat;
  bwrite : nat → M S unit;
  brelse : nat → M S unit;
  buf_data : nat → M S (list Z);
  buf_set : nat → list Z → M S unit;
  buf_blockno : nat → M S Z;
  buf_pin : nat → M S unit }.

(** ** readsb, fs.c

    The file system and the log both read the superblock, each through its
    own interface to the blocks. *)

Definition sb_of_bytes (d : list Z) : superblock := {|
  sb_size := get32 d 0;
  sb_nblocks := get32 d 4;
  sb_ninodes := get32 d 8;
  sb_nlog := get32 d 12;
  sb_logstart := get32 d 16;
  sb_inodestart := get32 d 20;
  sb_bmapstart := get32 d 24 |}.

Definition readsb {S} (bread : Z → Z → M S nat) (data : nat → M S (list Z))
    (brelse : nat → M S unit) (dev : Z) : M S superblock :=
  bp ← bread dev 1;
  d ← data bp;
  brelse bp;;
  mret (sb_of_bytes d).

Class BlockSpec (S : Type) `{BlockOps S} : Type := {
  brepr : S → bview → Prop;
  brepr_wf s v : brepr s v → view_wf v;
  bread_spec s v n :
    brepr s v → in_disk v n → (∀ h, v_held v !! h ≠ Some n) →
    n ∈ v_pins v ∨ has_room v →
    ∃ h s', bread ROOTDEV n s = Ok h s' ∧ v_held v !! h = None ∧
            brepr s' (view_hold h n v);
  buf_data_spec s v h n :
    brepr s v → v_held v !! h = Some n →
    ∃ d, buf_data h s = Ok d s ∧ v_cont v !! Z.to_nat n = Some d;
  buf_blockno_spec s v h n :
    brepr s v → v_held v !! h = Some n → buf_blockno h s = Ok n s;
  buf_set_spec s v h n d :
    brepr s v → v_held v !! h = Some n → length d = Z.to_nat BSIZE →
    ∃ s', buf_set h d s = Ok tt s' ∧ brepr s' (view_set n d v);
  buf_pin_spec s v h n :
    brepr s v → v_held v !! h = Some n →
    ∃ s', buf_pin h s = Ok tt s' ∧ brepr s' (view_pin n v);
  bwrite_spec s v h n d :
    brepr s v → v_held v !! h = Some n → v_cont v !! Z.to_nat n = Some d →
    ∃ s', bwrite h s = Ok tt s' ∧ brepr s' (view_flush n d v);
  brelse_spec s v h n :
    brepr s v → v_held v !! h = Some n →
    n ∈ v_pins v ∨ v_cont v !! Z.to_nat n = v_disk v !! Z.to_nat n →
    ∃ s', brelse h s = Ok tt s' ∧ brepr s' (view_drop h v) }.

(** ** Facts about views *)

Lemma view_drop_hold h n v : v_held v !! h = None → view_drop h (view_hold h n v) = v.
Proof.
  destruct v as [c d h' p hs]. unfold view_drop, view_hold. simpl. intros E.
  by rewrite delete_insert_id.
Qed.

Lemma view_held_hold h n v : v_held (view_hold h n v) !! h = Some n.
Proof. simpl. by rewrite lookup_insert_eq. Qed.

Lemma wf_cont_lookup v n : view_wf v → in_disk v n →
  ∃ d, v_cont v !! Z.to_nat n = Some d ∧ length d = Z.to_nat BSIZE.
Proof.
  intros W Hn. destruct (lookup_lt_is_Some_2 (v_cont v) (Z.to_nat n)) as [d Hd].
  { rewrite (wf_len _ W). unfold in_disk in Hn. lia. }
  exists d. split; [done|].
  pose proof (wf_cont _ W) as HF. rewrite Forall_lookup in HF. eauto.
Qed.

(** The operations keep a view well formed. *)

Lemma view_hold_wf h n v :
  view_wf v → in_disk v n → (∀ h', v_held v !! h' ≠ Some n) → v_held v !! h = None →
  view_wf (view_hold h n v).
Proof.
  intros W Hn Hf Hh. split; simpl; try apply W.
  - intros h' n'. rewrite lookup_insert_Some. intros [[_ <-]|[_ H]]; [done|exact (wf_held _ W _ _ H)].
  - intros h1 h2 n'. rewrite !lookup_insert_Some.
    intros [[-> ->]|[? H1]] [[-> E]|[? H2]]; subst; try done.
    + by destruct (Hf h2).
    + by destruct (Hf h1).
    + by eapply (wf_inj _ W).
  - intros n' Hp Hh' H0. apply (wf_clean _ W); [done| |done].
    intros h' E. apply (Hh' h'). rewrite lookup_insert_ne; [done|]. congruence.
Qed.

Lemma view_set_wf h n d v :
  view_wf v → v_held v !! h = Some n → length d = Z.to_nat BSIZE →
  view_wf (view_set n d v).
Proof.
  intros W Hh Hd. split; simpl; try apply W.
  - rewrite length_insert. apply W.
  - apply Forall_insert; [apply W|done].
  - intros n' Hp Hh' H0. rewrite list_lookup_insert_ne.
    + by apply (wf_clean _ W).
    + intros E. apply (Hh' h). rewrite Hh. f_equal.
      pose proof (wf_held _ W _ _ Hh) as Hd'. unfold in_disk in Hd'. lia.
Qed.

Lemma view_pin_wf h n v : view_wf v → v_held v !! h = Some n → view_wf (view_pin n v).
Proof.
  intros W Hh. split; simpl; try apply W.
  - intros n'. rewrite elem_of_union, elem_of_singleton.
    intros [->|H]; [exact (wf_held _ W _ _ Hh)|exact (wf_pins _ W _ H)].
  - intros n' Hp. apply (wf_clean _ W). set_solver.
Qed.

Lemma view_flush_wf h n d v :
  view_wf v → v_held v !! h = Some n → v_cont v !! Z.to_nat n = Some d →
  view_wf (view_flush n d v).
Proof.
  intros W Hh Hd. split; simpl; try apply W; unfold in_disk; simpl;
    rewrite ?length_insert; try apply W.
  - apply Forall_insert; [apply W|]. pose proof (wf_cont _ W) as HF.
    rewrite Forall_lookup in HF. eauto.
  - intros n' Hn. apply (wf_pins _ W). set_solver.
  - intros n' Hp Hh' H0. assert (n' ≠ n) as Hne by (intros ->; by destruct (Hh' h)).
    rewrite list_lookup_insert_ne.
    + apply (wf_clean _ W); [set_solver|done|done].
    + pose proof (wf_held _ W _ _ Hh) as Hd'. unfold in_disk in Hd'. lia.
Qed.

Lemma view_drop_wf h n v :
  view_wf v → v_held v !! h = Some n →
  n ∈ v_pins v ∨ v_cont v !! Z.to_nat n = v_disk v !! Z.to_nat n →
  view_wf (view_drop h v).
Proof.
  intros W Hh Hc. split; simpl; try apply W.
  - intros h' n' H. apply lookup_delete_Some in H as [_ H]. exact (wf_held _ W _ _ H).
  - intros h1 h2 n' H1 H2. apply lookup_delete_Some in H1 as [_ H1].
    apply lookup_delete_Some in H2 as [_ H2]. by eapply (wf_inj _ W).
  - intros n' Hp Hh' H0. destruct (decide (n' = n)) as [->|Hne].
    + destruct Hc; done.
    + apply (wf_clean _ W); [done| |done]. intros h' E.
      apply (Hh' h'). rewrite lookup_delete_ne; [done|]. congruence.
Qed.

#[export] Hint Resolve view_hold_wf view_set_wf view_pin_wf view_flush_wf view_drop_wf : xv6.

(** ** Sequences of block writes

    [awrites] applies writes to the contents of a disk; [vwrites] is their
    effect on a view, each write setting the block and flushing it. *)

Definition awrite (d : list (list Z)) (w : Z * list Z) : list (list Z) :=
  <[Z.to_nat w.1 := w.2]> d.
Definition awrites (d : list (list Z)) (ws : list (Z * list Z)) : list (list Z) :=
  foldl awrite d ws.
Definition vwrite (v : bview) (w : Z * list Z) : bview :=
  view_flush w.1 w.2 (view_set w.1 w.2 v).
Definition vwrites (v : bview) (ws : list (Z * list Z)) : bview := foldl vwrite v ws.

Lemma vwrites_app v ws ws' : vwrites v (ws ++ ws') = vwrites (vwrites v ws) ws'.
Proof. apply foldl_app. Qed.

Lemma awrites_app d ws ws' : awrites d (ws ++ ws') = awrites (awrites d ws) ws'.
Proof. apply foldl_app. Qed.

Lemma vwrites_fields v ws :
  v_cont (vwrites v ws) = awrites (v_cont v) ws ∧
  v_disk (vwrites v ws) = awrites (v_disk v) ws ∧
  v_held (vwrites v ws) = v_held v ∧
  v_pins (vwrites v ws) = v_pins v ∖ list_to_set ws.*1 ∧
  v_hist (vwrites v ws) = v_hist v ++ ws.
Proof.
  revert v. induction ws as [|w ws IH]; intros v.
  - simpl. rewrite app_nil_r. split_and!; try done. set_solver.
  - unfold vwrites, awrites in *. simpl. destruct (IH (vwrite v w)) as (-> & -> & -> & -> & ->).
    destruct w as [n d]. unfold vwrite, view_flush, view_set, awrite; simpl. split_and!; try done.
    + set_solver.
    + by rewrite <- app_assoc.
Qed.

Lemma length_awrites d ws : length (awrites d ws) = length d.
Proof.
  revert d. induction ws as [|w ws IH]; intros d; [done|]. unfold awrites in *. simpl.
  rewrite IH. apply length_insert.
Qed.

Lemma awrites_notin d ws n :
  0 ≤ n → Forall (λ w, 0 ≤ w.1) ws → n ∉ ws.*1 →
  awrites d ws !! Z.to_nat n = d !! Z.to_nat n.
Proof.
  intros Hn. revert d. induction ws as [|w ws IH]; intros d HF Hni; [done|].
  apply Forall_cons in HF as [Hw HF]. rewrite fmap_cons, not_elem_of_cons in Hni.
  destruct Hni as [Hne Hni]. unfold awrites in *. simpl. rewrite IH by done.
  apply list_lookup_insert_ne. lia.
Qed.

Lemma awrites_in d ws n x :
  0 ≤ n < Z.of_nat (length d) → Forall (λ w, 0 ≤ w.1) ws → NoDup ws.*1 →
  (n, x) ∈ ws → awrites d ws !! Z.to_nat n = Some x.
Proof.
  intros Hn. revert d Hn. induction ws as [|w ws IH]; intros d Hn HF Hnd Hin.
  - by apply not_elem_of_nil in Hin.
  - apply Forall_cons in HF as [Hw HF]. rewrite fmap_cons, NoDup_cons in Hnd.
    destruct Hnd as [Hni Hnd]. apply elem_of_cons in Hin as [<-|Hin].
    + unfold awrites. simpl. fold (awrites (awrite d (n, x)) ws).
      rewrite awrites_notin by done. unfold awrite. simpl.
      apply list_lookup_insert_eq. lia.
    + unfold awrites. simpl. apply IH; try done. unfold awrite. by rewrite length_insert.
Qed.
