(* ===== verification/Sleeplock.v ===== *)
(** * Sleep locks: sleeplock.c, as the running process sees them

    [struct sleeplock] is the flag and the pid of the holder; its [name] is
    for debugging only.  [sl_asleep] has the processes that sleep on the lock:
    [sleep(lk, ...)] adds the running one, [wakeup(lk)] makes all of them runnable.
    The functions are run by the process with pid [me].
    [acquiresleep] on a lock that is taken sleeps on the lock's address and
    returns in that process only after it has taken the lock itself. *)

From S2P Require Import Prelude Params.

Record sleeplock : Type := mksl {
  sl_lk : bool;       (* the spin lock that protects the record is held *)
  sl_locked : Z;
  sl_pid : Z;
  sl_asleep : list Z }.

(** Spin locks, in the view of the one CPU that runs the code: [acquire] on a
    lock this CPU holds panics, and so does [release] of one it does not. *)
Definition acquire {S} (held : S → bool) (set : bool → S → S) : M S unit :=
  λ s, if held s then Panic "acquire" else Ok tt (set true s).
Definition release {S} (held : S → bool) (set : bool → S → S) : M S unit :=
  λ s, if held s then Ok tt (set false s) else Panic "release".

Definition set_sl_lk (b : bool) (lk : sleeplock) : sleeplock :=
  mksl b (sl_locked lk) (sl_pid lk) (sl_asleep lk).
Definition set_sl_locked (l : Z) (lk : sleeplock) : sleeplock :=
  mksl (sl_lk lk) l (sl_pid lk) (sl_asleep lk).
Definition set_sl_pid (p : Z) (lk : sleeplock) : sleeplock :=
  mksl (sl_lk lk) (sl_locked lk) p (sl_asleep lk).
Definition set_sl_asleep (l : list Z) (lk : sleeplock) : sleeplock :=
  mksl (sl_lk lk) (sl_locked lk) (sl_pid lk) l.

Section sleeplock.
(** The pid of the running process, and the address of the lock. *)
Context (me : Z) (addr : Z).

Definition initsleeplock : sleeplock := mksl false 0 0 [].

Definition acquiresleep : M sleeplock unit :=
  acquire sl_lk set_sl_lk;;
  l ← gets sl_locked;
  (if l =? 0 then mret tt
   else (* sleep(lk, &lk->lk) gives the spin lock back *)
     modify (λ lk, set_sl_asleep (me :: sl_asleep lk) lk);;
     modify (set_sl_lk false);; block addr);;
  modify (set_sl_locked 1);;
  modify (set_sl_pid me);;
  release sl_lk set_sl_lk.

Definition releasesleep : M sleeplock unit :=
  acquire sl_lk set_sl_lk;;
  modify (set_sl_locked 0);;
  modify (set_sl_pid 0);;
  modify (set_sl_asleep []);;       (* wakeup(lk) *)
  release sl_lk set_sl_lk.

Definition holdingsleep : M sleeplock bool :=
  acquire sl_lk set_sl_lk;;
  r ← gets (λ lk, negb (sl_locked lk =? 0) && (sl_pid lk =? me));
  release sl_lk set_sl_lk;;
  mret r.

Lemma acquiresleep_free lk :
  sl_lk lk = false → sl_locked lk = 0 →
  acquiresleep lk = Ok tt (mksl false 1 me (sl_asleep lk)).
Proof. destruct lk; simpl. intros -> ->. reflexivity. Qed.

Lemma acquiresleep_alone lk :
  sl_lk lk = false → sl_locked lk = 0 → sl_asleep lk = [] →
  acquiresleep lk = Ok tt (mksl false 1 me []).
Proof. intros H1 H2 <-. by apply acquiresleep_free. Qed.

Lemma acquiresleep_taken lk :
  sl_lk lk = false → sl_locked lk ≠ 0 → acquiresleep lk = Blocked addr (set_sl_asleep (me :: sl_asleep lk) lk).
Proof.
  destruct lk as [b l p w]; simpl. intros -> H.
  unfold acquiresleep, acquire, mbind, M_bind, gets, modify. simpl.
  destruct (Z.eqb_spec l 0); [done|]. reflexivity.
Qed.

Lemma releasesleep_ok lk :
  sl_lk lk = false → releasesleep lk = Ok tt (mksl false 0 0 []).
Proof. destruct lk; simpl. intros ->. reflexivity. Qed.

Lemma holdingsleep_ok lk :
  sl_lk lk = false →
  holdingsleep lk = Ok (negb (sl_locked lk =? 0) && (sl_pid lk =? me)) lk.
Proof. destruct lk; simpl. intros ->. reflexivity. Qed.
End sleeplock.
