(* ===== verification/Ring.v ===== *)
(** * Circular doubly-linked lists

    The LRU list of bio.c is a ring of buffers through [prev] and [next] with
    a head that is not an element.  This file relates the two pointer fields
    to the list of the elements and gives the effect of unlinking an element
    and of linking one after the head; the scans over the list are searches
    through its elements. *)

From S2P Require Import Prelude.

(** [f] maps every element of the list to the one after it. *)
Fixpoint chain (f : nat → nat) (l : list nat) : Prop :=
  match l with
  | a :: (b :: _) as t => f a = b ∧ chain f t
  | _ => True
  end.

Definition fset (f : nat → nat) (p q : nat) : nat → nat :=
  λ x, if decide (x = p) then q else f x.

(** The elements of the ring with head [h] are [l], in [next] order. *)
Definition ring (h : nat) (nx pv : nat → nat) (l : list nat) : Prop :=
  chain nx (h :: l ++ [h]) ∧ chain pv (h :: reverse l ++ [h]) ∧ NoDup (h :: l).

Lemma fset_eq f p q : fset f p q p = q.
Proof. unfold fset. by rewrite decide_True. Qed.

Lemma fset_ne f p q x : x ≠ p → fset f p q x = f x.
Proof. intros. unfold fset. by rewrite decide_False. Qed.

Lemma chain_cons f a b t : chain f (a :: b :: t) ↔ f a = b ∧ chain f (b :: t).
Proof. done. Qed.

Lemma chain_app f k a t : chain f (k ++ a :: t) ↔ chain f (k ++ [a]) ∧ chain f (a :: t).
Proof.
  induction k as [|x k IH]; simpl; [tauto|].
  destruct k as [|y k]; simpl in *; tauto.
Qed.

(** The last element has no successor in the chain: updating it is free. *)
Lemma chain_fset f l p q : p ∉ removelast l → chain f l → chain (fset f p q) l.
Proof.
  induction l as [|a l IH]; [done|]. intros Hp Hc.
  destruct l as [|b l]; [done|]. destruct Hc as [H1 H2].
  change (removelast (a :: b :: l)) with (a :: removelast (b :: l)) in Hp.
  split; [|apply IH; set_solver].
  rewrite fset_ne by set_solver. done.
Qed.

Lemma chain_fset_last f k a q : a ∉ k → chain f (k ++ [a]) → chain (fset f a q) (k ++ [a]).
Proof. intros. apply chain_fset; [|done]. by rewrite removelast_last. Qed.

Lemma chain_remove f k a p b m :
  a ∉ k → a ∉ removelast (b :: m) →
  chain f (k ++ a :: p :: b :: m) →
  f p = b ∧ chain (fset f a b) (k ++ a :: b :: m).
Proof.
  intros Hk Hm H. apply chain_app in H as [H1 H2].
  apply chain_cons in H2 as [_ H2]. apply chain_cons in H2 as [H2 H3].
  split; [done|]. apply chain_app. split; [by apply chain_fset_last|].
  apply chain_cons. split; [apply fset_eq|]. by apply chain_fset.
Qed.

Lemma chain_insert f k a b p m :
  a ∉ k → p ∉ k ++ a :: removelast (b :: m) → a ∉ removelast (b :: m) →
  chain f (k ++ a :: b :: m) → chain (fset (fset f p b) a p) (k ++ a :: p :: b :: m).
Proof.
  intros Ha Hp Hm H. apply chain_app in H as [H1 H2].
  apply chain_cons in H2 as [H2 H3].
  apply chain_app. split.
  - apply chain_fset_last; [done|]. apply chain_fset; [|done].
    rewrite removelast_last. set_solver.
  - apply chain_cons. rewrite fset_eq. split; [done|]. apply chain_cons. split.
    { rewrite fset_ne by set_solver. apply fset_eq. }
    apply chain_fset; [done|]. apply chain_fset; [set_solver|done].
Qed.

(** The element before and the one after a position of the ring. *)
Definition lastd (h : nat) (l : list nat) : nat := List.last l h.
Definition firstd (h : nat) (l : list nat) : nat := List.hd h l.

Lemma lastd_snoc h l a : lastd h (l ++ [a]) = a.
Proof. apply last_last. Qed.

Lemma lastd_reverse h l : lastd h (reverse l) = firstd h l.
Proof. destruct l as [|a l]; [done|]. rewrite reverse_cons. apply lastd_snoc. Qed.

Lemma firstd_reverse h l : firstd h (reverse l) = lastd h l.
Proof. by rewrite <- lastd_reverse, reverse_involutive. Qed.

Lemma lastd_split h l : ∃ k, h :: l = k ++ [lastd h l].
Proof.
  destruct l as [|x l _] using rev_ind; [by exists []|].
  exists (h :: l). by rewrite lastd_snoc.
Qed.

Lemma firstd_split h l : ∃ m, l ++ [h] = firstd h l :: m ∧ removelast (l ++ [h]) = l.
Proof. rewrite removelast_last. destruct l as [|a l]; simpl; eauto. Qed.

(** One direction of the ring, when an element is taken out or put in. *)
Lemma half_remove h f l1 p l2 :
  NoDup (h :: l1 ++ p :: l2) → chain f (h :: l1 ++ p :: l2 ++ [h]) →
  f p = firstd h l2 ∧
  chain (fset f (lastd h l1) (firstd h l2)) (h :: l1 ++ l2 ++ [h]).
Proof.
  intros Hnd H.
  destruct (lastd_split h l1) as [k Ek]. destruct (firstd_split h l2) as (m & Em & Er).
  change (h :: l1 ++ p :: l2) with ((h :: l1) ++ p :: l2) in Hnd.
  change (h :: l1 ++ p :: l2 ++ [h]) with ((h :: l1) ++ p :: l2 ++ [h]) in H.
  change (h :: l1 ++ l2 ++ [h]) with ((h :: l1) ++ l2 ++ [h]).
  rewrite Ek in H, Hnd |- *. rewrite Em in H |- *. rewrite <- app_assoc in H, Hnd |- *.
  simpl in *. apply NoDup_app in Hnd as (_ & Hk & Hnd).
  apply NoDup_cons in Hnd as [Ha Hnd].
  apply chain_remove in H as [H1 H2]; [done| |].
  - intros Hin. by apply (Hk _ Hin); left.
  - rewrite <- Em, Er. set_solver.
Qed.

Lemma half_insert h f l1 p l2 :
  NoDup (h :: l1 ++ l2) → p ∉ h :: l1 ++ l2 → chain f (h :: l1 ++ l2 ++ [h]) →
  chain (fset (fset f p (firstd h l2)) (lastd h l1) p) (h :: l1 ++ p :: l2 ++ [h]).
Proof.
  intros Hnd Hp H.
  destruct (lastd_split h l1) as [k Ek]. destruct (firstd_split h l2) as (m & Em & Er).
  change (h :: l1 ++ l2) with ((h :: l1) ++ l2) in Hnd, Hp.
  change (h :: l1 ++ l2 ++ [h]) with ((h :: l1) ++ l2 ++ [h]) in H.
  change (h :: l1 ++ p :: l2 ++ [h]) with ((h :: l1) ++ p :: l2 ++ [h]).
  rewrite Ek in H, Hnd, Hp |- *. rewrite Em in H |- *.
  rewrite <- app_assoc in H, Hnd, Hp |- *.
  simpl in *. apply NoDup_app in Hnd as (_ & Hk & Hnd).
  apply NoDup_cons in Hnd as [Ha Hnd].
  apply chain_insert; [| | |done].
  - intros Hin. by apply (Hk _ Hin); left.
  - rewrite <- Em, Er. set_solver.
  - rewrite <- Em, Er. set_solver.
Qed.

Lemma reverse_mid (l1 l2 : list nat) p :
  reverse (l1 ++ p :: l2) = reverse l2 ++ p :: reverse l1.
Proof. rewrite reverse_app, reverse_cons, <- app_assoc. done. Qed.

Lemma NoDup_ring_reverse (h : nat) l : NoDup (h :: l) → NoDup (h :: reverse l).
Proof. by rewrite reverse_Permutation. Qed.

Lemma ring_neighbours h nx pv l1 p l2 :
  ring h nx pv (l1 ++ p :: l2) → nx p = firstd h l2 ∧ pv p = lastd h l1.
Proof.
  intros (Hn & Hp & Hnd). pose proof (NoDup_ring_reverse _ _ Hnd) as Hndr.
  rewrite reverse_mid in Hp, Hndr. rewrite <- !app_assoc in Hn, Hp. simpl in *.
  apply half_remove in Hn as [En _]; [|done]. apply half_remove in Hp as [Ep _]; [|done].
  by rewrite <- firstd_reverse.
Qed.

Lemma ring_first h nx pv l : ring h nx pv l → nx h = firstd h l.
Proof.
  intros (Hn & _ & _). destruct (firstd_split h l) as (m & Em & _).
  rewrite Em in Hn. by apply chain_cons in Hn as [? _].
Qed.

Lemma firstd_elem h l : firstd h l = h ∨ firstd h l ∈ l.
Proof. destruct l; [by left|right; left]. Qed.

Lemma lastd_elem h l : lastd h l = h ∨ lastd h l ∈ l.
Proof.
  rewrite <- firstd_reverse. destruct (firstd_elem h (reverse l)) as [H|H]; [by left|].
  right. by rewrite elem_of_reverse in H.
Qed.

(** [p->next->prev = p->prev; p->prev->next = p->next]. *)
Lemma ring_remove h nx pv l1 p l2 :
  ring h nx pv (l1 ++ p :: l2) →
  ring h (fset nx (pv p) (nx p)) (fset pv (nx p) (pv p)) (l1 ++ l2).
Proof.
  intros (Hn & Hp & Hnd).
  pose proof (NoDup_ring_reverse _ _ Hnd) as Hndr.
  rewrite reverse_mid in Hp, Hndr.
  rewrite <- !app_assoc in Hn, Hp. simpl in *.
  apply half_remove in Hn as [En Hn]; [|done].
  apply half_remove in Hp as [Ep Hp]; [|done].
  rewrite firstd_reverse in Ep, Hp. rewrite lastd_reverse in Hp.
  rewrite En, Ep. split_and!.
  - rewrite <- app_assoc. done.
  - rewrite reverse_app, <- app_assoc. done.
  - eapply sublist_NoDup; [exact Hnd|].
    apply sublist_skip, sublist_app; [done|]. by apply sublist_cons.
Qed.

(** [p->next = h->next; p->prev = h; h->next->prev = p; h->next = p]. *)
Lemma ring_insert h nx pv p l :
  ring h nx pv l → p ∉ h :: l →
  ring h (fset (fset nx p (nx h)) h p) (fset (fset pv p h) (nx h) p) (p :: l).
Proof.
  intros (Hn & Hp & Hnd) Hin.
  assert (En : nx h = firstd h l).
  { destruct (firstd_split h l) as (m & Em & _). simpl in Hn. rewrite Em in Hn.
    by apply chain_cons in Hn as [? _]. }
  rewrite En. split_and!.
  - by apply (half_insert h nx [] p l).
  - rewrite reverse_cons, <- app_assoc. simpl.
    rewrite <- (lastd_reverse h l).
    apply (half_insert h pv (reverse l) p []).
    + rewrite app_nil_r. by apply NoDup_ring_reverse.
    + rewrite app_nil_r. rewrite elem_of_cons, elem_of_reverse.
      by rewrite elem_of_cons in Hin.
    + done.
  - apply NoDup_cons in Hnd as [H1 H2]. rewrite elem_of_cons in Hin.
    rewrite !NoDup_cons, elem_of_cons. naive_solver.
Qed.

Lemma ring_empty h nx pv : nx h = h → pv h = h → ring h nx pv [].
Proof.
  intros H1 H2. split_and!; [by split|by split|apply NoDup_singleton].
Qed.

Lemma chain_ext f g l : (∀ x, g x = f x) → chain f l → chain g l.
Proof.
  intros E. induction l as [|a [|b l] IH]; [done|done|].
  intros [H1 H2]. split; [by rewrite E|auto].
Qed.

Lemma ring_ext h f g f' g' l :
  (∀ x, f' x = f x) → (∀ x, g' x = g x) → ring h f g l → ring h f' g' l.
Proof.
  intros E1 E2 (H1 & H2 & H3).
  split_and!; [by eapply chain_ext|by eapply chain_ext|done].
Qed.

Lemma chain_tail f a l : chain f (a :: l) → chain f l.
Proof. destruct l; [done|]. by intros [_ ?]. Qed.

Lemma ring_forward h f g l : ring h f g l → chain f (l ++ [h]).
Proof. intros (H & _ & _). by eapply chain_tail. Qed.

Lemma ring_backward h f g l : ring h f g l → chain g (reverse l ++ [h]).
Proof. intros (_ & H & _). by eapply chain_tail. Qed.
