(* ===== verification/Bio.v ===== *)
(** * The buffer cache: bio.c over the memory disk of memide.c

    [struct buf] objects live in an array of NBUF + 1 entries: entries
    [0 .. NBUF-1] are [bcache.buf], entry NBUF is [bcache.head].  A pointer to
    a buffer is an index, and the LRU list is the [prev]/[next] pointers, as in
    the source.  The disk is the array of blocks that memide.c keeps in memory;
    the list of block writes it received is recorded (a ghost), so that a crash
    after any of them can be described.

    The second half proves that the cache implements the block device interface
    [BlockSpec]: reading a block gives the contents last written to it, until
    the buffer is released a buffer is in one place only, and a dirty buffer is
    never evicted. *)

From S2P Require Import Prelude Params BlockDev Sleeplock Ring.

Record buf : Type := mkbuf {
  b_flags : Z;
  b_dev : Z;
  b_blockno : Z;
  b_lock : sleeplock;
  b_refcnt : Z;
  b_prev : nat;
  b_next : nat;
  b_data : list Z }.

Record bstate : Type := mkb {
  bc_lock : bool;                    (* bcache.lock *)
  bc_buf : list buf;                 (* bcache.buf and, last, bcache.head *)
  memdisk : list (list Z);           (* memide.c: the blocks of the disk *)
  hist : list (Z * list Z) }.        (* ghost: the block writes so far *)

Definition HEAD : nat := Z.to_nat NBUF.

Definition set_flags (f : Z) (b : buf) : buf :=
  mkbuf f (b_dev b) (b_blockno b) (b_lock b) (b_refcnt b) (b_prev b) (b_next b) (b_data b).
Definition set_lock (l : sleeplock) (b : buf) : buf :=
  mkbuf (b_flags b) (b_dev b) (b_blockno b) l (b_refcnt b) (b_prev b) (b_next b) (b_data b).
Definition set_refcnt (r : Z) (b : buf) : buf :=
  mkbuf (b_flags b) (b_dev b) (b_blockno b) (b_lock b) r (b_prev b) (b_next b) (b_data b).
Definition set_prev (p : nat) (b : buf) : buf :=
  mkbuf (b_flags b) (b_dev b) (b_blockno b) (b_lock b) (b_refcnt b) p (b_next b) (b_data b).
Definition set_next (n : nat) (b : buf) : buf :=
  mkbuf (b_flags b) (b_dev b) (b_blockno b) (b_lock b) (b_refcnt b) (b_prev b) n (b_data b).
Definition set_data (d : list Z) (b : buf) : buf :=
  mkbuf (b_flags b) (b_dev b) (b_blockno b) (b_lock b) (b_refcnt b) (b_prev b) (b_next b) d.
Definition set_id (dev blockno : Z) (b : buf) : buf :=
  mkbuf (b_flags b) dev blockno (b_lock b) (b_refcnt b) (b_prev b) (b_next b) (b_data b).

Definition set_bc_lock (l : bool) (s : bstate) : bstate :=
  mkb l (bc_buf s) (memdisk s) (hist s).
Definition set_bufs (l : list buf) (s : bstate) : bstate :=
  mkb (bc_lock s) l (memdisk s) (hist s).

(** [*p] and [p->field = ...]. *)
Definition ptr (p : nat) : M bstate buf := b ← gets (λ s, bc_buf s !! p); lift_opt b.
Definition upd (p : nat) (f : buf → buf) : M bstate unit :=
  b ← ptr p; modify (λ s, set_bufs (<[p := f b]> (bc_buf s)) s).

(** Run a sleep-lock operation on [p->lock]. *)
Definition on_lock {A} (p : nat) (m : M sleeplock A) : M bstate A :=
  zoom (λ s, b_lock <$> bc_buf s !! p)
       (λ l s, match bc_buf s !! p with
               | Some b => set_bufs (<[p := set_lock l b]> (bc_buf s)) s
               | None => s
               end) m.

Definition flag_clear (x m : Z) : bool := Z.land x m =? 0.

(** ** binit *)

Definition buf0 : buf := mkbuf 0 0 0 (mksl false 0 0 []) 0 0 0 (replicate (Z.to_nat BSIZE) 0).

Definition binit : M bstate unit :=
  modify (set_bc_lock false);;
  upd HEAD (set_prev HEAD);;
  upd HEAD (set_next HEAD);;
  for_each (Z.to_nat NBUF) 0 (λ i,
    let b := Z.to_nat i in
    h ← ptr HEAD;
    upd b (set_next (b_next h));;
    upd b (set_prev HEAD);;
    upd b (set_lock initsleeplock);;
    h ← ptr HEAD;
    upd (b_next h) (set_prev b);;
    upd HEAD (set_next b)).

Section bio.
(** The pid of the running process. *)
Context (me : Z).

(** ** iderw, memide.c *)

Definition iderw (p : nat) : M bstate unit :=
  h ← on_lock p (holdingsleep me);
  if negb h then panic "iderw: buf not locked" else
  b ← ptr p;
  if Z.land (b_flags b) (Z.lor B_VALID B_DIRTY) =? B_VALID
  then panic "iderw: nothing to do" else
  if negb (b_dev b =? 1) then panic "iderw: request not for disk 1" else
  disksize ← gets (λ s, Z.of_nat (length (memdisk s)));
  if disksize <=? b_blockno b then panic "iderw: block out of range" else
  let n := Z.to_nat (b_blockno b) in
  (if negb (flag_clear (b_flags b) B_DIRTY) then
     upd p (λ b, set_flags (Z.land (b_flags b) (Z.lnot B_DIRTY)) b);;
     modify (λ s, mkb (bc_lock s) (bc_buf s) (<[n := b_data b]> (memdisk s))
                      (hist s ++ [(b_blockno b, b_data b)]))
   else
     d ← gets (λ s, memdisk s !! n);
     d ← lift_opt d;
     upd p (set_data d));;
  upd p (λ b, set_flags (Z.lor (b_flags b) B_VALID) b).

(** ** bget: the two scans, then the sleep lock *)

Fixpoint bget_cached (fuel : nat) (p : nat) (dev blockno : Z) : M bstate (option nat) :=
  match fuel with
  | O => no_fuel
  | S fuel =>
      if decide (p = HEAD) then mret None else
      b ← ptr p;
      if (b_dev b =? dev) && (b_blockno b =? blockno) then mret (Some p)
      else bget_cached fuel (b_next b) dev blockno
  end.

Fixpoint bget_unused (fuel : nat) (p : nat) : M bstate (option nat) :=
  match fuel with
  | O => no_fuel
  | S fuel =>
      if decide (p = HEAD) then mret None else
      b ← ptr p;
      if (b_refcnt b =? 0) && flag_clear (b_flags b) B_DIRTY then mret (Some p)
      else bget_unused fuel (b_prev b)
  end.

Definition bget (dev blockno : Z) : M bstate nat :=
  acquire bc_lock set_bc_lock;;
  h ← ptr HEAD;
  r ← bget_cached (S HEAD) (b_next h) dev blockno;
  match r with
  | Some p =>
      upd p (λ b, set_refcnt (u32 (b_refcnt b + 1)) b);;
      release bc_lock set_bc_lock;;
      on_lock p (acquiresleep me (Z.of_nat p));;
      mret p
  | None =>
      h ← ptr HEAD;
      r ← bget_unused (S HEAD) (b_prev h);
      match r with
      | Some p =>
          upd p (set_id dev blockno);;
          upd p (set_flags 0);;
          upd p (set_refcnt 1);;
          release bc_lock set_bc_lock;;
          on_lock p (acquiresleep me (Z.of_nat p));;
          mret p
      | None => panic "bget: no buffers"
      end
  end.

Definition bread (dev blockno : Z) : M bstate nat :=
  p ← bget dev blockno;
  b ← ptr p;
  (if flag_clear (b_flags b) B_VALID then iderw p else mret tt);;
  mret p.

Definition bwrite (p : nat) : M bstate unit :=
  h ← on_lock p (holdingsleep me);
  if negb h then panic "bwrite" else
  upd p (λ b, set_flags (Z.lor (b_flags b) B_DIRTY) b);;
  iderw p.

Definition brelse (p : nat) : M bstate unit :=
  h ← on_lock p (holdingsleep me);
  if negb h then panic "brelse" else
  on_lock p releasesleep;;
  acquire bc_lock set_bc_lock;;
  upd p (λ b, set_refcnt (u32 (b_refcnt b - 1)) b);;
  b ← ptr p;
  (if b_refcnt b =? 0 then
     upd (b_next b) (set_prev (b_prev b));;
     b ← ptr p;
     upd (b_prev b) (set_next (b_next b));;
     h ← ptr HEAD;
     upd p (set_next (b_next h));;
     upd p (set_prev HEAD);;
     h ← ptr HEAD;
     upd (b_next h) (set_prev p);;
     upd HEAD (set_next p)
   else mret tt);;
  release bc_lock set_bc_lock.
End bio.

(** ** Field accesses by the clients *)

Definition buf_data (p : nat) : M bstate (list Z) := b ← ptr p; mret (b_data b).
Definition buf_set (p : nat) (d : list Z) : M bstate unit := upd p (set_data d).
Definition buf_blockno (p : nat) : M bstate Z := b ← ptr p; mret (b_blockno b).
Definition buf_pin (p : nat) : M bstate unit :=
  upd p (λ b, set_flags (Z.lor (b_flags b) B_DIRTY) b).

(** ** Running the primitives on a state whose entry [p] is known *)

Section steps.
Context (p : nat) (b : buf) (lk : bool) (bs : list buf)
  (dk : list (list Z)) (hs : list (Z * list Z)).
Context (Hp : (p < length bs)%nat).

Lemma ptr_at : ptr p (mkb lk (<[p:=b]> bs) dk hs) = Ok b (mkb lk (<[p:=b]> bs) dk hs).
Proof. unfold ptr, gets, mbind, M_bind. simpl. by rewrite list_lookup_insert_eq. Qed.

Lemma upd_at f :
  upd p f (mkb lk (<[p:=b]> bs) dk hs) = Ok tt (mkb lk (<[p:=f b]> bs) dk hs).
Proof.
  unfold upd. rewrite (bind_ok _ _ _ _ _ ptr_at). unfold modify, set_bufs. simpl.
  by rewrite list_insert_insert_eq.
Qed.

Lemma on_lock_at {A} (m : M sleeplock A) a l :
  m (b_lock b) = Ok a l →
  on_lock p m (mkb lk (<[p:=b]> bs) dk hs)
  = Ok a (mkb lk (<[p:=set_lock l b]> bs) dk hs).
Proof.
  intros H. unfold on_lock, zoom. simpl. rewrite list_lookup_insert_eq by done. simpl.
  rewrite H. unfold set_bufs. simpl.
  by rewrite list_insert_insert_eq.
Qed.
End steps.

Lemma acquire_at bs dk hs :
  acquire bc_lock set_bc_lock (mkb false bs dk hs) = Ok tt (mkb true bs dk hs).
Proof. reflexivity. Qed.

Lemma release_at bs dk hs :
  release bc_lock set_bc_lock (mkb true bs dk hs) = Ok tt (mkb false bs dk hs).
Proof. reflexivity. Qed.

(** ** The disk driver on a held buffer *)

Section driver.
Context (me : Z) (p : nat) (b : buf) (lk : bool) (bs : list buf)
  (dk : list (list Z)) (hs : list (Z * list Z)).
Context (Hp : (p < length bs)%nat) (Hlk : b_lock b = mksl false 1 me []).

Lemma holding_at :
  on_lock p (holdingsleep me) (mkb lk (<[p:=b]> bs) dk hs)
  = Ok true (mkb lk (<[p:=b]> bs) dk hs).
Proof.
  replace (<[p:=b]> bs) with (<[p:=set_lock (b_lock b) b]> bs) at 2 by (by destruct b).
  apply on_lock_at; [done|]. rewrite Hlk, holdingsleep_ok by done. simpl.
  by rewrite Z.eqb_refl.
Qed.

Context (Hdev : b_dev b = 1) (Hn : 0 ≤ b_blockno b < Z.of_nat (length dk)).

Lemma iderw_write :
  flag_clear (b_flags b) B_DIRTY = false →
  iderw me p (mkb lk (<[p:=b]> bs) dk hs)
  = Ok tt (mkb lk (<[p:=set_flags (Z.lor (Z.land (b_flags b) (Z.lnot B_DIRTY)) B_VALID) b]> bs)
             (<[Z.to_nat (b_blockno b) := b_data b]> dk) (hs ++ [(b_blockno b, b_data b)])).
Proof.
  intros Hf. unfold iderw. rewrite (bind_ok _ _ _ _ _ holding_at). cbn [negb].
  rewrite (bind_ok _ _ _ _ _ (ptr_at _ _ _ _ _ _ Hp)).
  destruct (Z.eqb_spec (Z.land (b_flags b) (Z.lor B_VALID B_DIRTY)) B_VALID) as [E|_].
  { unfold flag_clear in Hf. apply Z.eqb_neq in Hf. destruct Hf.
    change B_DIRTY with (Z.land (Z.lor B_VALID B_DIRTY) B_DIRTY).
    by rewrite Z.land_assoc, E. }
  rewrite Hdev. cbn [Z.eqb negb Pos.eqb].
  rewrite bind_gets. cbn [memdisk].
  destruct (Z.leb_spec (Z.of_nat (length dk)) (b_blockno b)); [lia|].
  rewrite Hf. cbn [negb].
  rewrite bind_assoc. rewrite (bind_ok _ _ _ _ _ (upd_at _ _ _ _ _ _ Hp _)).
  rewrite bind_modify. cbn [bc_lock bc_buf memdisk hist].
  by rewrite upd_at.
Qed.

Lemma iderw_read d :
  b_flags b = 0 → dk !! Z.to_nat (b_blockno b) = Some d →
  iderw me p (mkb lk (<[p:=b]> bs) dk hs)
  = Ok tt (mkb lk (<[p:=set_flags B_VALID (set_data d b)]> bs) dk hs).
Proof.
  intros Hf Hd. unfold iderw. rewrite (bind_ok _ _ _ _ _ holding_at). cbn [negb].
  rewrite (bind_ok _ _ _ _ _ (ptr_at _ _ _ _ _ _ Hp)). rewrite Hf, Hdev. simpl.
  rewrite bind_gets. cbn [memdisk].
  destruct (Z.leb_spec (Z.of_nat (length dk)) (b_blockno b)); [lia|].
  rewrite bind_assoc. rewrite bind_gets. cbn [memdisk]. rewrite Hd.
  cbn [lift_opt]. rewrite bind_assoc, bind_ret_l.
  rewrite (bind_ok _ _ _ _ _ (upd_at _ _ _ _ _ _ Hp _)).
  rewrite upd_at by done. simpl. by rewrite Hf.
Qed.
End driver.

(** ** The pointers as a ring *)

Definition nxf (bs : list buf) (p : nat) : nat := default 0%nat (b_next <$> bs !! p).
Definition pvf (bs : list buf) (p : nat) : nat := default 0%nat (b_prev <$> bs !! p).

Lemma nxf_insert bs p b x :
  (p < length bs)%nat → nxf (<[p:=b]> bs) x = fset (nxf bs) p (b_next b) x.
Proof.
  intros H. unfold nxf, fset. case_decide; subst.
  - by rewrite list_lookup_insert_eq.
  - by rewrite list_lookup_insert_ne.
Qed.

Lemma pvf_insert bs p b x :
  (p < length bs)%nat → pvf (<[p:=b]> bs) x = fset (pvf bs) p (b_prev b) x.
Proof.
  intros H. unfold pvf, fset. case_decide; subst.
  - by rewrite list_lookup_insert_eq.
  - by rewrite list_lookup_insert_ne.
Qed.

(** An update of an entry that keeps its pointers keeps the ring. *)
Lemma ring_keep bs p b b' l :
  bs !! p = Some b → b_next b' = b_next b → b_prev b' = b_prev b →
  ring HEAD (nxf bs) (pvf bs) l →
  ring HEAD (nxf (<[p:=b']> bs)) (pvf (<[p:=b']> bs)) l.
Proof.
  intros Hb Hn Hp. pose proof (lookup_lt_Some _ _ _ Hb).
  apply ring_ext; intros x; [rewrite nxf_insert by done|rewrite pvf_insert by done];
    unfold fset, nxf, pvf; case_decide; subst; rewrite ?Hb; simpl; congruence.
Qed.

(** ** The scans *)

Fixpoint scan (P : buf → bool) (bs : list buf) (l : list nat) : option nat :=
  match l with
  | [] => None
  | p :: l' =>
      match bs !! p with
      | Some b => if P b then Some p else scan P bs l'
      | None => None
      end
  end.

Definition is_block (dev n : Z) (b : buf) : bool := (b_dev b =? dev) && (b_blockno b =? n).
Definition is_unused (b : buf) : bool := (b_refcnt b =? 0) && flag_clear (b_flags b) B_DIRTY.

Lemma scan_Some P bs l p :
  scan P bs l = Some p → p ∈ l ∧ ∃ b, bs !! p = Some b ∧ P b = true.
Proof.
  induction l as [|x l IH]; simpl; [done|].
  destruct (bs !! x) as [b|] eqn:E; [|done]. destruct (P b) eqn:EP.
  - intros [= <-]. split; [left|eauto].
  - intros H. destruct (IH H) as [? ?]. split; [by right|done].
Qed.

Lemma scan_None P bs l :
  scan P bs l = None → Forall (λ p, (p < length bs)%nat) l →
  ∀ p b, p ∈ l → bs !! p = Some b → P b = false.
Proof.
  induction l as [|x l IH]; simpl; intros H HF p b Hp Hb; [by apply not_elem_of_nil in Hp|].
  apply Forall_cons in HF as [Hx HF].
  destruct (lookup_lt_is_Some_2 _ _ Hx) as [bx Ex]. rewrite Ex in H.
  destruct (P bx) eqn:EP; [done|].
  apply elem_of_cons in Hp as [->|Hp]; [congruence|eauto].
Qed.

Section scans.
Context (s : bstate) (l : list nat).
Context (Hh : HEAD ∉ l) (Hl : Forall (λ p, (p < length (bc_buf s))%nat) l).

Lemma bget_cached_scan dev n fuel :
  chain (nxf (bc_buf s)) (l ++ [HEAD]) → (length l < fuel)%nat →
  bget_cached fuel (firstd HEAD l) dev n s
  = Ok (scan (is_block dev n) (bc_buf s) l) s.
Proof.
  revert fuel. induction l as [|p l' IH]; intros [|fuel] Hc Hf; simpl in *; try lia.
  - done.
  - apply Forall_cons in Hl as [Hp Hl']. destruct (lookup_lt_is_Some_2 _ _ Hp) as [b Hb].
    rewrite decide_False by set_solver. unfold ptr, gets, mbind, M_bind. simpl.
    rewrite Hb. simpl. fold (is_block dev n b). destruct (is_block dev n b); [done|].
    destruct (firstd_split HEAD l') as (m & Em & _). rewrite Em in Hc.
    destruct Hc as [Hn Hc]. unfold nxf in Hn. rewrite Hb in Hn. simpl in Hn.
    rewrite Hn. rewrite <- Em in Hc.
    apply IH; [set_solver|done|done|lia].
Qed.

Lemma bget_unused_scan fuel :
  chain (pvf (bc_buf s)) (l ++ [HEAD]) → (length l < fuel)%nat →
  bget_unused fuel (firstd HEAD l) s = Ok (scan is_unused (bc_buf s) l) s.
Proof.
  revert fuel. induction l as [|p l' IH]; intros [|fuel] Hc Hf; simpl in *; try lia.
  - done.
  - apply Forall_cons in Hl as [Hp Hl']. destruct (lookup_lt_is_Some_2 _ _ Hp) as [b Hb].
    rewrite decide_False by set_solver. unfold ptr, gets, mbind, M_bind. simpl.
    rewrite Hb. simpl. fold (is_unused b). destruct (is_unused b); [done|].
    destruct (firstd_split HEAD l') as (m & Em & _). rewrite Em in Hc.
    destruct Hc as [Hn Hc]. unfold pvf in Hn. rewrite Hb in Hn. simpl in Hn.
    rewrite Hn. rewrite <- Em in Hc.
    apply IH; [set_solver|done|done|lia].
Qed.
End scans.

(** ** The view a cache state stands for *)

Section refinement.
Context (me : Z).

Definition buf_ok (v : bview) (i : nat) (b : buf) : Prop :=
  match v_held v !! i with
  | Some n => b_lock b = mksl false 1 me [] ∧ b_refcnt b = 1 ∧
              b_dev b = ROOTDEV ∧ b_blockno b = n
  | None => sl_lk (b_lock b) = false ∧ sl_locked (b_lock b) = 0 ∧ sl_asleep (b_lock b) = [] ∧ b_refcnt b = 0
  end ∧
  (b_dev b ≠ ROOTDEV → b_flags b = 0) ∧
  (b_dev b = ROOTDEV →
     in_disk v (b_blockno b) ∧
     v_cont v !! Z.to_nat (b_blockno b) = Some (b_data b) ∧
     b_flags b = if decide (b_blockno b ∈ v_pins v) then Z.lor B_VALID B_DIRTY else B_VALID).

Record brep (s : bstate) (v : bview) : Prop := {
  br_lock : bc_lock s = false;
  br_len : length (bc_buf s) = S HEAD;
  br_ring : ∃ l, ring HEAD (nxf (bc_buf s)) (pvf (bc_buf s)) l ∧ l ≡ₚ seq 0 HEAD;
  br_disk : memdisk s = v_disk v;
  br_hist : hist s = v_hist v;
  br_wf : view_wf v;
  br_buf : ∀ i b, (i < HEAD)%nat → bc_buf s !! i = Some b → buf_ok v i b;
  br_uniq : ∀ i j bi bj, (i < HEAD)%nat → (j < HEAD)%nat →
    bc_buf s !! i = Some bi → bc_buf s !! j = Some bj →
    b_dev bi = ROOTDEV → b_dev bj = ROOTDEV → b_blockno bi = b_blockno bj → i = j;
  br_pins : ∀ n, n ∈ v_pins v → ∃ i b, (i < HEAD)%nat ∧ bc_buf s !! i = Some b ∧
    b_dev b = ROOTDEV ∧ b_blockno b = n;
  br_held : ∀ h n, v_held v !! h = Some n → (h < HEAD)%nat }.

(** Replacing entry [i] and the view, with everything else untouched. *)
Lemma brep_replace s v i b b' v' :
  brep s v → (i < HEAD)%nat → bc_buf s !! i = Some b →
  b_next b' = b_next b → b_prev b' = b_prev b →
  view_wf v' → buf_ok v' i b' →
  (∀ j bj, j ≠ i → (j < HEAD)%nat → bc_buf s !! j = Some bj →
     buf_ok v j bj → buf_ok v' j bj) →
  (∀ j bj, j ≠ i → (j < HEAD)%nat → bc_buf s !! j = Some bj →
     b_dev bj = ROOTDEV → b_dev b' = ROOTDEV → b_blockno bj ≠ b_blockno b') →
  (∀ n, n ∈ v_pins v' → (b_dev b' = ROOTDEV ∧ b_blockno b' = n) ∨
     n ∈ v_pins v ∧ (b_dev b = ROOTDEV → b_blockno b ≠ n)) →
  (∀ h n, v_held v' !! h = Some n → (h < HEAD)%nat) →
  brep (mkb false (<[i := b']> (bc_buf s)) (v_disk v') (v_hist v')) v'.
Proof.
  intros R Hi Hb Hn Hp W' Hok Hoth Hu Hpin Hheld.
  pose proof (lookup_lt_Some _ _ _ Hb) as Hlen.
  split; simpl; try done.
  - rewrite length_insert. apply R.
  - destruct (br_ring _ _ R) as (l & Hr & Hl). exists l. split; [|done].
    by eapply ring_keep.
  - intros j bj Hj. destruct (decide (j = i)) as [->|Hne].
    + rewrite list_lookup_insert_eq by done. by intros [= <-].
    + rewrite list_lookup_insert_ne by done. intros Hbj.
      eapply Hoth; eauto. by eapply br_buf.
  - intros j k bj bk Hj Hk Hbj Hbk Hd Hd' E.
    destruct (decide (j = i)) as [->|Hji], (decide (k = i)) as [->|Hki]; [done| | |].
    + rewrite list_lookup_insert_eq in Hbj by done. simplify_eq.
      rewrite list_lookup_insert_ne in Hbk by done. by destruct (Hu k bk).
    + rewrite list_lookup_insert_eq in Hbk by done. simplify_eq.
      rewrite list_lookup_insert_ne in Hbj by done. by destruct (Hu j bj).
    + rewrite list_lookup_insert_ne in Hbj, Hbk by done. by eapply (br_uniq _ _ R).
  - intros n Hn'. destruct (Hpin n Hn') as [[? ?]|[H1 H2]].
    + exists i, b'. by rewrite list_lookup_insert_eq.
    + destruct (br_pins _ _ R n H1) as (j & bj & Hj & Hbj & Hdj & Enj).
      exists j, bj. split; [done|]. rewrite list_lookup_insert_ne; [done|].
      intros <-. rewrite Hbj in Hb. simplify_eq. by apply H2.
Qed.

Lemma brep_lookup s v i : brep s v → (i < HEAD)%nat → ∃ b, bc_buf s !! i = Some b.
Proof. intros R Hi. apply lookup_lt_is_Some_2. rewrite (br_len _ _ R). lia. Qed.

(** The entry of a held buffer. *)
Lemma brep_held s v h n :
  brep s v → v_held v !! h = Some n →
  ∃ b, (h < HEAD)%nat ∧ bc_buf s !! h = Some b ∧ buf_ok v h b ∧
    b_lock b = mksl false 1 me [] ∧ b_refcnt b = 1 ∧ b_dev b = ROOTDEV ∧ b_blockno b = n ∧
    in_disk v n ∧ v_cont v !! Z.to_nat n = Some (b_data b) ∧
    b_flags b = (if decide (n ∈ v_pins v) then Z.lor B_VALID B_DIRTY else B_VALID).
Proof.
  intros R Hh. pose proof (br_held _ _ R _ _ Hh) as Hlt.
  destruct (brep_lookup s v h R Hlt) as [b Hb]. exists b.
  pose proof (br_buf _ _ R _ _ Hlt Hb) as Hok. pose proof Hok as (H1 & H2 & H3).
  rewrite Hh in H1. destruct H1 as (? & ? & ? & <-). destruct H3 as (? & ? & ?); [done|].
  done.
Qed.

(** A state in the form the step lemmas use. *)
Lemma brep_run {A} (m : M bstate A) s v i b r :
  brep s v → bc_buf s !! i = Some b →
  m (mkb false (<[i := b]> (bc_buf s)) (v_disk v) (v_hist v)) = r → m s = r.
Proof.
  intros R Hb <-. f_equal. rewrite list_insert_id by done.
  rewrite <- (br_disk _ _ R), <- (br_hist _ _ R), <- (br_lock _ _ R). by destruct s.
Qed.

Lemma buf_data_ok s v h n :
  brep s v → v_held v !! h = Some n →
  ∃ d, buf_data h s = Ok d s ∧ v_cont v !! Z.to_nat n = Some d.
Proof.
  intros R Hh. destruct (brep_held _ _ _ _ R Hh) as (b & _ & Hb & _ & _ & _ & _ & _ & _ & Hc & _).
  exists (b_data b). split; [|done].
  unfold buf_data, ptr, gets, mbind, M_bind. simpl. by rewrite Hb.
Qed.

Lemma buf_blockno_ok s v h n :
  brep s v → v_held v !! h = Some n → buf_blockno h s = Ok n s.
Proof.
  intros R Hh. destruct (brep_held _ _ _ _ R Hh) as (b & _ & Hb & _ & _ & _ & _ & <- & _).
  unfold buf_blockno, ptr, gets, mbind, M_bind. simpl. by rewrite Hb.
Qed.

(** Another buffer is about another block than a held one. *)
Lemma brep_other s v h n j bj :
  brep s v → v_held v !! h = Some n → j ≠ h → (j < HEAD)%nat →
  bc_buf s !! j = Some bj → b_dev bj = ROOTDEV → b_blockno bj ≠ n.
Proof.
  intros R Hh Hne Hj Hbj Hd E.
  destruct (brep_held _ _ _ _ R Hh) as (b & Hlt & Hb & _ & _ & _ & Hdb & Hn & _).
  apply Hne. eapply (br_uniq _ _ R); eauto. congruence.
Qed.

Lemma buf_set_ok s v h n d :
  brep s v → v_held v !! h = Some n → length d = Z.to_nat BSIZE →
  ∃ s', buf_set h d s = Ok tt s' ∧ brep s' (view_set n d v).
Proof.
  intros R Hh Hd.
  destruct (brep_held _ _ _ _ R Hh)
    as (b & Hlt & Hb & Hok & Hlk & Hrc & Hdev & Hbn & Hin & Hc & Hfl).
  eexists. split.
  - apply (brep_run _ _ _ _ _ _ R Hb). unfold buf_set. apply upd_at.
    rewrite (br_len _ _ R). lia.
  - apply (brep_replace s v h b (set_data d b) (view_set n d v)); try done.
    + eapply view_set_wf; eauto. apply R.
    + unfold buf_ok. simpl. rewrite Hh. split; [done|]. split; [done|]. intros _.
      rewrite Hbn. split; [done|]. split; [|done].
      rewrite list_lookup_insert_eq; [done|].
      rewrite (wf_len _ (br_wf _ _ R)). unfold in_disk in Hin. lia.
    + intros j bj Hne Hj Hbj (H1 & H2 & H3). split; [done|]. split; [done|].
      intros Hdj. destruct (H3 Hdj) as (H4 & H5 & H6). split; [done|]. split; [|done].
      simpl. rewrite list_lookup_insert_ne; [done|].
      pose proof (brep_other _ _ _ _ _ _ R Hh Hne Hj Hbj Hdj).
      unfold in_disk in *. lia.
    + intros j bj Hne Hj Hbj Hdj _. simpl. rewrite Hbn. by eapply brep_other.
    + intros n' Hn'. simpl. destruct (decide (n' = n)) as [->|Hne]; [by left|].
      right. split; [done|]. congruence.
    + apply R.
Qed.

Lemma buf_pin_ok s v h n :
  brep s v → v_held v !! h = Some n →
  ∃ s', buf_pin h s = Ok tt s' ∧ brep s' (view_pin n v).
Proof.
  intros R Hh.
  destruct (brep_held _ _ _ _ R Hh)
    as (b & Hlt & Hb & Hok & Hlk & Hrc & Hdev & Hbn & Hin & Hc & Hfl).
  eexists. split.
  - apply (brep_run _ _ _ _ _ _ R Hb). unfold buf_pin. apply upd_at.
    rewrite (br_len _ _ R). lia.
  - apply (brep_replace s v h b (set_flags (Z.lor (b_flags b) B_DIRTY) b) (view_pin n v));
      try done.
    + eapply view_pin_wf; eauto. apply R.
    + unfold buf_ok. simpl. rewrite Hh. split; [done|]. split; [done|]. intros _.
      rewrite Hbn. split; [done|]. split; [done|].
      rewrite (decide_True (P := n ∈ _)) by set_solver. rewrite Hfl. by case_decide.
    + intros j bj Hne Hj Hbj (H1 & H2 & H3). split; [done|]. split; [done|].
      intros Hdj. destruct (H3 Hdj) as (H4 & H5 & H6). split; [done|]. split; [done|].
      pose proof (brep_other _ _ _ _ _ _ R Hh Hne Hj Hbj Hdj).
      simpl. rewrite H6. repeat case_decide; set_solver.
    + intros j bj Hne Hj Hbj Hdj _. simpl. rewrite Hbn. by eapply brep_other.
    + intros n' Hn'. simpl in *. destruct (decide (n' = n)) as [->|Hne]; [by left|].
      right. split; [set_solver|]. congruence.
    + apply R.
Qed.

Lemma bwrite_ok s v h n d :
  brep s v → v_held v !! h = Some n → v_cont v !! Z.to_nat n = Some d →
  ∃ s', bwrite me h s = Ok tt s' ∧ brep s' (view_flush n d v).
Proof.
  intros R Hh Hd.
  destruct (brep_held _ _ _ _ R Hh)
    as (b & Hlt & Hb & Hok & Hlk & Hrc & Hdev & Hbn & Hin & Hc & Hfl).
  assert (Hlen : (h < length (bc_buf s))%nat) by (rewrite (br_len _ _ R); lia).
  rewrite Hd in Hc. injection Hc as ->.
  eexists. split.
  - apply (brep_run _ _ _ _ _ _ R Hb). unfold bwrite.
    rewrite (bind_ok _ _ _ _ _ (holding_at me h b _ _ _ _ Hlen Hlk)). cbn [negb].
    rewrite (bind_ok _ _ _ _ _ (upd_at _ _ _ _ _ _ Hlen _)).
    apply iderw_write; simpl; try done.
    + rewrite Hbn. apply Hin.
    + rewrite Hfl. by case_decide.
  - simpl. rewrite Hbn. replace (Z.lor _ B_VALID) with B_VALID.
    2: { rewrite Hfl. by case_decide. }
    apply (brep_replace s v h b (set_flags B_VALID b) (view_flush n (b_data b) v)); try done.
    + eapply view_flush_wf; eauto. apply R.
    + unfold buf_ok. simpl. rewrite Hh. split; [done|]. split; [done|]. intros _.
      unfold in_disk. simpl. rewrite length_insert, Hbn. split; [done|]. split; [done|].
      rewrite decide_False by set_solver. done.
    + intros j bj Hne Hj Hbj (H1 & H2 & H3). split; [done|]. split; [done|].
      intros Hdj. destruct (H3 Hdj) as (H4 & H5 & H6).
      unfold in_disk. simpl. rewrite length_insert. split; [done|]. split; [done|].
      pose proof (brep_other _ _ _ _ _ _ R Hh Hne Hj Hbj Hdj).
      rewrite H6. repeat case_decide; set_solver.
    + intros j bj Hne Hj Hbj Hdj _. simpl. rewrite Hbn. by eapply brep_other.
    + intros n' Hn'. simpl in *. right. split; [set_solver|]. set_solver.
    + apply R.
Qed.

(** ** bread *)

Lemma brep_scan s v :
  brep s v → ∃ l, ring HEAD (nxf (bc_buf s)) (pvf (bc_buf s)) l ∧
    (∀ p, p ∈ l ↔ (p < HEAD)%nat) ∧ length l = HEAD ∧ HEAD ∉ l ∧
    Forall (λ p, (p < length (bc_buf s))%nat) l.
Proof.
  intros R. destruct (br_ring _ _ R) as (l & Hr & Hl). exists l.
  assert (Hin : ∀ p, p ∈ l ↔ (p < HEAD)%nat).
  { intros p. rewrite Hl, elem_of_seq. lia. }
  split_and!; [done|done| | |].
  - by rewrite Hl, length_seq.
  - rewrite Hin. lia.
  - apply Forall_forall. intros p Hp. apply Hin in Hp. rewrite (br_len _ _ R). lia.
Qed.

Section bget_runs.
Context (s : bstate) (v : bview) (l : list nat) (n : Z).
Context (R : brep s v) (Hr : ring HEAD (nxf (bc_buf s)) (pvf (bc_buf s)) l)
  (Hll : length l = HEAD) (Hh : HEAD ∉ l)
  (Hl : Forall (λ p, (p < length (bc_buf s))%nat) l).

Lemma head_lookup :
  ∃ hb, bc_buf s !! HEAD = Some hb ∧ b_next hb = firstd HEAD l ∧
        b_prev hb = firstd HEAD (reverse l).
Proof.
  destruct (lookup_lt_is_Some_2 (bc_buf s) HEAD) as [hb Hhb].
  { rewrite (br_len _ _ R). lia. }
  exists hb. split; [done|]. destruct Hr as (Hn & Hp & _).
  destruct (firstd_split HEAD l) as (m & Em & _).
  destruct (firstd_split HEAD (reverse l)) as (m' & Em' & _).
  rewrite Em in Hn. rewrite Em' in Hp.
  apply chain_cons in Hn as [Hn _]. apply chain_cons in Hp as [Hp _].
  unfold nxf, pvf in *. rewrite Hhb in *. done.
Qed.

Let s1 := set_bc_lock true s.

Lemma bget_scan :
  bget me ROOTDEV n s =
  match scan (is_block ROOTDEV n) (bc_buf s) l with
  | Some p =>
      (upd p (λ b, set_refcnt (u32 (b_refcnt b + 1)) b);;
       release bc_lock set_bc_lock;;
       on_lock p (acquiresleep me (Z.of_nat p));; mret p) s1
  | None =>
      match scan is_unused (bc_buf s) (reverse l) with
      | Some p =>
          (upd p (set_id ROOTDEV n);; upd p (set_flags 0);; upd p (set_refcnt 1);;
           release bc_lock set_bc_lock;;
           on_lock p (acquiresleep me (Z.of_nat p));; mret p) s1
      | None => Panic "bget: no buffers"
      end
  end.
Proof.
  destruct head_lookup as (hb & Hhb & Hnx & Hpv).
  assert (Hptr : ptr HEAD s1 = Ok hb s1).
  { unfold ptr, gets, mbind, M_bind. simpl. by rewrite Hhb. }
  unfold bget.
  assert (Ha : acquire bc_lock set_bc_lock s = Ok tt s1).
  { unfold acquire. by rewrite (br_lock _ _ R). }
  rewrite (bind_ok _ _ _ _ _ Ha), (bind_ok _ _ _ _ _ Hptr), Hnx.
  assert (Hc : bget_cached (S HEAD) (firstd HEAD l) ROOTDEV n s1
               = Ok (scan (is_block ROOTDEV n) (bc_buf s) l) s1).
  { apply (bget_cached_scan s1 l); try done; [by eapply ring_forward|lia]. }
  rewrite (bind_ok _ _ _ _ _ Hc).
  destruct (scan (is_block ROOTDEV n) (bc_buf s) l) as [p|]; [done|].
  rewrite (bind_ok _ _ _ _ _ Hptr), Hpv.
  assert (Hu : bget_unused (S HEAD) (firstd HEAD (reverse l)) s1
               = Ok (scan is_unused (bc_buf s) (reverse l)) s1).
  { apply (bget_unused_scan s1 (reverse l)).
    - by rewrite elem_of_reverse.
    - by apply Forall_reverse.
    - by eapply ring_backward.
    - rewrite length_reverse. lia. }
  rewrite (bind_ok _ _ _ _ _ Hu). by destruct (scan is_unused _ _).
Qed.
End bget_runs.

(** A buffer can be recycled when fewer than NBUF are held or pinned. *)
Lemma unused_exists s v l :
  brep s v → (∀ p, p ∈ l ↔ (p < HEAD)%nat) → length l = HEAD → NoDup l → has_room v →
  Forall (λ p, (p < length (bc_buf s))%nat) l →
  ∃ p, scan is_unused (bc_buf s) (reverse l) = Some p.
Proof.
  intros R Hin Hlen Hnd Hroom Hl.
  destruct (scan is_unused (bc_buf s) (reverse l)) as [p|] eqn:E; [by eauto|]. exfalso.
  assert (Hall : ∀ p b, (p < HEAD)%nat → bc_buf s !! p = Some b → is_unused b = false).
  { intros p b Hp Hb. eapply (scan_None _ _ _ E); [by apply Forall_reverse| |done].
    by rewrite elem_of_reverse, Hin. }
  (* every buffer is held or is the buffer of a pinned block *)
  pose (num p := default 0 (b_blockno <$> bc_buf s !! p)).
  pose (lh := filter (λ p, is_Some (v_held v !! p)) l).
  pose (lp := filter (λ p, ¬ is_Some (v_held v !! p)) l).
  assert (Hh : (length lh ≤ size (v_held v))%nat).
  { rewrite <- size_dom. rewrite <- (size_list_to_set (C := gset nat) lh).
    2: { by apply NoDup_filter. }
    apply subseteq_size. intros p. rewrite elem_of_list_to_set, elem_of_dom.
    unfold lh. rewrite list_elem_of_filter. tauto. }
  assert (Hpin : ∀ p, p ∈ lp → ∃ b, (p < HEAD)%nat ∧ bc_buf s !! p = Some b ∧
            b_dev b = ROOTDEV ∧ b_blockno b ∈ v_pins v).
  { intros p. unfold lp. rewrite list_elem_of_filter, Hin. intros [Hnh Hp].
    destruct (brep_lookup _ _ _ R Hp) as [b Hb]. exists b.
    destruct (br_buf _ _ R _ _ Hp Hb) as (H1 & H2 & H3).
    destruct (v_held v !! p) eqn:Ev; [by destruct Hnh; eauto|].
    destruct H1 as (_ & _ & _ & Hrc). specialize (Hall _ _ Hp Hb).
    unfold is_unused in Hall. rewrite Hrc in Hall. simpl in Hall.
    destruct (decide (b_dev b = ROOTDEV)) as [Hd|Hd].
    - split_and!; try done. destruct (H3 Hd) as (_ & _ & Hf).
      case_decide; [done|]. by rewrite Hf in Hall.
    - by rewrite (H2 Hd) in Hall. }
  assert (Hp : (length lp ≤ size (v_pins v))%nat).
  { rewrite <- (length_fmap num). rewrite <- (size_list_to_set (C := gset Z) (num <$> lp)).
    - apply subseteq_size. intros n. rewrite elem_of_list_to_set, list_elem_of_fmap.
      intros (p & -> & Hp'). destruct (Hpin p Hp') as (b & _ & Hb & _ & Hb').
      unfold num. by rewrite Hb.
    - apply NoDup_fmap_2_strong; [|by apply NoDup_filter].
      intros p q Hp' Hq'. destruct (Hpin p Hp') as (b & Hlt & Hb & Hd & _).
      destruct (Hpin q Hq') as (b' & Hlt' & Hb' & Hd' & _).
      unfold num. rewrite Hb, Hb'. simpl. intros En. by eapply (br_uniq _ _ R). }
  assert (length lh + length lp = length l)%nat as Hsum.
  { unfold lh, lp. rewrite <- length_app. apply Permutation_length.
    apply filter_app_complement. }
  unfold has_room, HEAD in *. lia.
Qed.

Lemma locked_form s v i b :
  brep s v → bc_buf s !! i = Some b →
  set_bc_lock true s = mkb true (<[i := b]> (bc_buf s)) (v_disk v) (v_hist v).
Proof.
  intros R Hb. rewrite list_insert_id by done.
  by rewrite <- (br_disk _ _ R), <- (br_hist _ _ R).
Qed.

(** The block is cached: its buffer is taken as it is. *)
Lemma bread_hit s v l n i :
  brep s v → in_disk v n → (∀ h, v_held v !! h ≠ Some n) →
  scan (is_block ROOTDEV n) (bc_buf s) l = Some i → (∀ p, p ∈ l ↔ (p < HEAD)%nat) →
  bget me ROOTDEV n s =
    (upd i (λ b, set_refcnt (u32 (b_refcnt b + 1)) b);;
     release bc_lock set_bc_lock;;
     on_lock i (acquiresleep me (Z.of_nat i));; mret i) (set_bc_lock true s) →
  ∃ s', bread me ROOTDEV n s = Ok i s' ∧ v_held v !! i = None ∧ brep s' (view_hold i n v).
Proof.
  intros R Hn Hnh E Hin Hbg.
  apply scan_Some in E as (Hi & b & Hb & HP). apply Hin in Hi.
  apply andb_prop in HP as [Hd%Z.eqb_eq Hbn%Z.eqb_eq].
  assert (Hlen : (i < length (bc_buf s))%nat) by (rewrite (br_len _ _ R); lia).
  destruct (br_buf _ _ R _ _ Hi Hb) as (H1 & _ & H3).
  destruct (H3 Hd) as (Hrng & Hc & Hf). clear H3.
  destruct (v_held v !! i) as [n'|] eqn:Ei.
  { destruct H1 as (_ & _ & _ & En). exfalso. apply (Hnh i). congruence. }
  destruct H1 as (Hlk & Hld & Has & Hrc).
  pose (b' := set_lock (mksl false 1 me []) (set_refcnt 1 b)).
  exists (mkb false (<[i := b']> (bc_buf s)) (v_disk v) (v_hist v)). split; [|split; [done|]].
  - unfold bread.
    assert (Hg : bget me ROOTDEV n s
                 = Ok i (mkb false (<[i := b']> (bc_buf s)) (v_disk v) (v_hist v))).
    { rewrite Hbg, (locked_form _ _ _ _ R Hb).
      rewrite (bind_ok _ _ _ _ _ (upd_at _ _ _ _ _ _ Hlen _)).
      rewrite (bind_ok _ _ _ _ _ (release_at _ _ _)), Hrc.
      erewrite bind_ok; [reflexivity|].
      apply on_lock_at; [done|]. simpl. by apply acquiresleep_alone. }
    rewrite (bind_ok _ _ _ _ _ Hg), (bind_ok _ _ _ _ _ (ptr_at _ _ _ _ _ _ Hlen)).
    replace (flag_clear (b_flags b') B_VALID) with false; [done|].
    simpl. rewrite Hf. by case_decide.
  - apply (brep_replace s v i b b' (view_hold i n v)); try done.
    + eapply view_hold_wf; eauto. apply R.
    + unfold buf_ok. simpl. rewrite lookup_insert_eq. done.
    + intros j bj Hne Hj Hbj (G1 & G2 & G3). unfold buf_ok. simpl.
      rewrite lookup_insert_ne by done. done.
    + intros j bj Hne Hj Hbj Hdj _ Eb. apply Hne. by eapply (br_uniq _ _ R).
    + intros n' Hn'. simpl. destruct (decide (n' = n)) as [->|Hne]; [by left|].
      right. split; [done|]. congruence.
    + intros h' n'. simpl. rewrite lookup_insert_Some.
      intros [[<- _]|[_ H]]; [done|by eapply (br_held _ _ R)].
Qed.

(** The block is not cached: an unused buffer is recycled and the block is
    read from the disk. *)
Lemma bread_miss s v l n i :
  brep s v → in_disk v n → (∀ h, v_held v !! h ≠ Some n) →
  scan (is_block ROOTDEV n) (bc_buf s) l = None → (∀ p, p ∈ l ↔ (p < HEAD)%nat) →
  Forall (λ p, (p < length (bc_buf s))%nat) l →
  scan is_unused (bc_buf s) (reverse l) = Some i →
  bget me ROOTDEV n s =
    (upd i (set_id ROOTDEV n);; upd i (set_flags 0);; upd i (set_refcnt 1);;
     release bc_lock set_bc_lock;;
     on_lock i (acquiresleep me (Z.of_nat i));; mret i) (set_bc_lock true s) →
  ∃ s', bread me ROOTDEV n s = Ok i s' ∧ v_held v !! i = None ∧ brep s' (view_hold i n v).
Proof.
  intros R Hn Hnh Eno Hin Hl E Hbg.
  assert (Hno : ∀ p b, (p < HEAD)%nat → bc_buf s !! p = Some b → b_dev b = ROOTDEV →
                 b_blockno b ≠ n).
  { intros p b Hp Hb Hd Hbn. apply Hin in Hp.
    pose proof (scan_None _ _ _ Eno Hl p b Hp Hb) as Hf.
    unfold is_block in Hf. rewrite Hd, Hbn, !Z.eqb_refl in Hf. done. }
  apply scan_Some in E as (Hi & b & Hb & HP). rewrite elem_of_reverse in Hi. apply Hin in Hi.
  apply andb_prop in HP as [Hrc%Z.eqb_eq Hcl].
  assert (Hlen : (i < length (bc_buf s))%nat) by (rewrite (br_len _ _ R); lia).
  destruct (br_buf _ _ R _ _ Hi Hb) as (H1 & H2 & H3).
  destruct (v_held v !! i) as [n'|] eqn:Ei; [destruct H1 as (_ & H1 & _); lia|].
  destruct H1 as (Hlk & Hld & Has & _).
  assert (Hpn : b_dev b = ROOTDEV → b_blockno b ∉ v_pins v).
  { intros Hd Hp. destruct (H3 Hd) as (_ & _ & Hf). rewrite decide_True in Hf by done.
    by rewrite Hf in Hcl. }
  assert (Hnp : n ∉ v_pins v).
  { intros Hp. destruct (br_pins _ _ R _ Hp) as (j & bj & Hj & Hbj & Hdj & Enj).
    by destruct (Hno j bj). }
  assert (Hcd : v_cont v !! Z.to_nat n = v_disk v !! Z.to_nat n).
  { apply (wf_clean _ (br_wf _ _ R)); [done|done|]. unfold in_disk in Hn. lia. }
  destruct (wf_cont_lookup v n (br_wf _ _ R) Hn) as (d & Hd & _).
  pose (b1 := set_lock (mksl false 1 me []) (set_refcnt 1 (set_flags 0 (set_id ROOTDEV n b)))).
  pose (b2 := set_flags B_VALID (set_data d b1)).
  exists (mkb false (<[i := b2]> (bc_buf s)) (v_disk v) (v_hist v)). split; [|split; [done|]].
  - unfold bread.
    assert (Hg : bget me ROOTDEV n s
                 = Ok i (mkb false (<[i := b1]> (bc_buf s)) (v_disk v) (v_hist v))).
    { rewrite Hbg, (locked_form _ _ _ _ R Hb).
      rewrite !(bind_ok _ _ _ _ _ (upd_at _ _ _ _ _ _ Hlen _)).
      rewrite (bind_ok _ _ _ _ _ (release_at _ _ _)).
      erewrite bind_ok; [reflexivity|].
      apply on_lock_at; [done|]. simpl. by apply acquiresleep_alone. }
    rewrite (bind_ok _ _ _ _ _ Hg), (bind_ok _ _ _ _ _ (ptr_at _ _ _ _ _ _ Hlen)). simpl.
    assert (Hrd : iderw me i (mkb false (<[i := b1]> (bc_buf s)) (v_disk v) (v_hist v))
                  = Ok tt (mkb false (<[i := b2]> (bc_buf s)) (v_disk v) (v_hist v))).
    { apply iderw_read; try done. simpl. congruence. }
    by rewrite (bind_ok _ _ _ _ _ Hrd).
  - apply (brep_replace s v i b b2 (view_hold i n v)); try done.
    + eapply view_hold_wf; eauto. apply R.
    + unfold buf_ok. simpl. rewrite lookup_insert_eq. split; [done|]. split; [done|].
      intros _. split; [done|]. split; [done|]. by rewrite decide_False.
    + intros j bj Hne Hj Hbj (G1 & G2 & G3). unfold buf_ok. simpl.
      rewrite lookup_insert_ne by done. done.
    + intros j bj Hne Hj Hbj Hdj _. simpl. by eapply Hno.
    + intros n' Hn'. simpl in *. right. split; [done|]. intros Hd' <-. by apply Hpn.
    + intros h' n'. simpl. rewrite lookup_insert_Some.
      intros [[<- _]|[_ H]]; [done|by eapply (br_held _ _ R)].
Qed.

Lemma bread_ok s v n :
  brep s v → in_disk v n → (∀ h, v_held v !! h ≠ Some n) →
  n ∈ v_pins v ∨ has_room v →
  ∃ h s', bread me ROOTDEV n s = Ok h s' ∧ v_held v !! h = None ∧
          brep s' (view_hold h n v).
Proof.
  intros R Hn Hnh Hroom.
  destruct (brep_scan _ _ R) as (l & Hr & Hin & Hlen & Hh & Hl).
  pose proof (bget_scan s v l n R Hr Hlen Hh Hl) as Hbg.
  destruct (scan (is_block ROOTDEV n) (bc_buf s) l) as [i|] eqn:E.
  { exists i. by eapply bread_hit. }
  destruct Hroom as [Hp|Hroom].
  { destruct (br_pins _ _ R _ Hp) as (j & bj & Hj & Hbj & Hdj & Enj).
    apply Hin in Hj. pose proof (scan_None _ _ _ E Hl j bj Hj Hbj) as Hf.
    unfold is_block in Hf. rewrite Hdj, Enj, !Z.eqb_refl in Hf. discriminate Hf. }
  assert (Hnd : NoDup l) by (destruct Hr as (_ & _ & Hnd); by apply NoDup_cons in Hnd as [_ ?]).
  destruct (unused_exists s v l R Hin Hlen Hnd Hroom Hl) as [i Ei].
  rewrite Ei in Hbg. exists i. by eapply bread_miss.
Qed.

(** ** brelse: the buffer goes to the front of the LRU list *)

(** Two arrays that differ in their pointers only. *)
Definition same_bufs (bs bs' : list buf) : Prop :=
  length bs' = length bs ∧
  ∀ i c, bs !! i = Some c → ∃ nx pv, bs' !! i = Some (set_next nx (set_prev pv c)).

Lemma same_bufs_trans bs1 bs2 bs3 :
  same_bufs bs1 bs2 → same_bufs bs2 bs3 → same_bufs bs1 bs3.
Proof.
  intros [L1 H1] [L2 H2]. split; [congruence|]. intros i c Hc.
  destruct (H1 _ _ Hc) as (nx & pv & E). destruct (H2 _ _ E) as (nx' & pv' & E').
  exists nx', pv'. by rewrite E'.
Qed.

Lemma same_bufs_insert bs p b b' :
  bs !! p = Some b → (∃ nx pv, b' = set_next nx (set_prev pv b)) →
  same_bufs bs (<[p := b']> bs).
Proof.
  intros Hb (nx & pv & ->). split; [by rewrite length_insert|]. intros i c Hc.
  destruct (decide (i = p)) as [->|Hne].
  - rewrite list_lookup_insert_eq by (by eapply lookup_lt_Some). simplify_eq. eauto.
  - rewrite list_lookup_insert_ne by done. exists (b_next c), (b_prev c).
    rewrite Hc. by destruct c.
Qed.

Lemma ptr_in lk bs dk hs p :
  (p < length bs)%nat →
  ∃ b, ptr p (mkb lk bs dk hs) = Ok b (mkb lk bs dk hs) ∧
       b_next b = nxf bs p ∧ b_prev b = pvf bs p.
Proof.
  intros Hp. destruct (lookup_lt_is_Some_2 _ _ Hp) as [b Hb]. exists b.
  unfold ptr, gets, mbind, M_bind, nxf, pvf. simpl. by rewrite Hb.
Qed.

Lemma upd_next lk bs dk hs p q :
  (p < length bs)%nat →
  ∃ bs', upd p (set_next q) (mkb lk bs dk hs) = Ok tt (mkb lk bs' dk hs) ∧
    same_bufs bs bs' ∧ (∀ x, nxf bs' x = fset (nxf bs) p q x) ∧ (∀ x, pvf bs' x = pvf bs x).
Proof.
  intros Hp. destruct (lookup_lt_is_Some_2 _ _ Hp) as [b Hb].
  exists (<[p := set_next q b]> bs). split_and!.
  - unfold upd, ptr, gets, mbind, M_bind, modify. simpl. by rewrite Hb.
  - apply (same_bufs_insert _ _ _ _ Hb). exists q, (b_prev b). by destruct b.
  - intros x. by rewrite nxf_insert.
  - intros x. rewrite pvf_insert by done. unfold fset. case_decide; [|done].
    subst. unfold pvf. by rewrite Hb.
Qed.

Lemma upd_prev lk bs dk hs p q :
  (p < length bs)%nat →
  ∃ bs', upd p (set_prev q) (mkb lk bs dk hs) = Ok tt (mkb lk bs' dk hs) ∧
    same_bufs bs bs' ∧ (∀ x, nxf bs' x = nxf bs x) ∧ (∀ x, pvf bs' x = fset (pvf bs) p q x).
Proof.
  intros Hp. destruct (lookup_lt_is_Some_2 _ _ Hp) as [b Hb].
  exists (<[p := set_prev q b]> bs). split_and!.
  - unfold upd, ptr, gets, mbind, M_bind, modify. simpl. by rewrite Hb.
  - apply (same_bufs_insert _ _ _ _ Hb). exists (b_next b), q. by destruct b.
  - intros x. rewrite nxf_insert by done. unfold fset. case_decide; [|done].
    subst. unfold nxf. by rewrite Hb.
  - intros x. by rewrite pvf_insert.
Qed.

Lemma fset_ext f g p q x : (∀ x, f x = g x) → fset f p q x = fset g p q x.
Proof. intros E. unfold fset. by rewrite E. Qed.

(** Linking [p] in after the head. *)
Lemma insert_run lk bs dk hs p l :
  length bs = S HEAD → (p < HEAD)%nat → ring HEAD (nxf bs) (pvf bs) l → p ∉ l →
  Forall (λ q, (q < HEAD)%nat) l →
  ∃ bs',
    (h ← ptr HEAD;
     upd p (set_next (b_next h));;
     upd p (set_prev HEAD);;
     h ← ptr HEAD;
     upd (b_next h) (set_prev p);;
     upd HEAD (set_next p)) (mkb lk bs dk hs) = Ok tt (mkb lk bs' dk hs) ∧
    same_bufs bs bs' ∧ ring HEAD (nxf bs') (pvf bs') (p :: l).
Proof.
  intros Hlen Hp Hr Hpl HF. pose proof (ring_first _ _ _ _ Hr) as Hfirst.
  assert (Hin : (nxf bs HEAD < S HEAD)%nat).
  { rewrite Hfirst. destruct (firstd_elem HEAD l) as [->|Hl]; [lia|].
    rewrite Forall_forall in HF. specialize (HF _ Hl). lia. }
  destruct (ptr_in lk bs dk hs HEAD) as (h & Eh & Hhn & _); [lia|].
  destruct (upd_next lk bs dk hs p (b_next h)) as (b1 & E1 & S1 & N1 & P1); [lia|].
  destruct (upd_prev lk b1 dk hs p HEAD) as (b2 & E2 & S2 & N2 & P2).
  { destruct S1 as [-> _]. lia. }
  pose proof (same_bufs_trans _ _ _ S1 S2) as S12.
  destruct (ptr_in lk b2 dk hs HEAD) as (h' & Eh' & Hhn' & _).
  { destruct S12 as [-> _]. lia. }
  assert (Hn2 : b_next h' = nxf bs HEAD).
  { rewrite Hhn', N2, N1, fset_ne by lia. done. }
  destruct (upd_prev lk b2 dk hs (b_next h') p) as (b3 & E3 & S3 & N3 & P3).
  { destruct S12 as [-> _]. lia. }
  pose proof (same_bufs_trans _ _ _ S12 S3) as S13.
  destruct (upd_next lk b3 dk hs HEAD p) as (b4 & E4 & S4 & N4 & P4).
  { destruct S13 as [-> _]. lia. }
  exists b4. split_and!.
  - by rewrite (bind_ok _ _ _ _ _ Eh), (bind_ok _ _ _ _ _ E1), (bind_ok _ _ _ _ _ E2),
      (bind_ok _ _ _ _ _ Eh'), (bind_ok _ _ _ _ _ E3).
  - by eapply same_bufs_trans.
  - eapply ring_ext; [| |apply (ring_insert HEAD (nxf bs) (pvf bs) p l Hr)].
    + intros x. rewrite N4. apply fset_ext. intros y. by rewrite N3, N2, N1, Hhn.
    + intros x. rewrite P4, P3, Hn2. apply fset_ext. intros y. rewrite P2.
      apply fset_ext. apply P1.
    + rewrite elem_of_cons. intros [->|?]; [lia|done].
Qed.

(** Unlinking [p] from where it is. *)
Lemma remove_run lk bs dk hs p b l1 l2 :
  length bs = S HEAD → (p < HEAD)%nat → bs !! p = Some b →
  ring HEAD (nxf bs) (pvf bs) (l1 ++ p :: l2) →
  Forall (λ q, (q < HEAD)%nat) (l1 ++ p :: l2) →
  ∃ bs',
    (upd (b_next b) (set_prev (b_prev b));;
     b ← ptr p;
     upd (b_prev b) (set_next (b_next b))) (mkb lk bs dk hs) = Ok tt (mkb lk bs' dk hs) ∧
    same_bufs bs bs' ∧ ring HEAD (nxf bs') (pvf bs') (l1 ++ l2).
Proof.
  intros Hlen Hp Hb Hr HF. pose proof (ring_neighbours _ _ _ _ _ _ Hr) as [En Ep].
  assert (Hnd : NoDup (HEAD :: l1 ++ p :: l2)) by apply Hr.
  apply NoDup_cons in Hnd as [Hh Hnd]. apply NoDup_app in Hnd as (_ & _ & Hnd).
  apply NoDup_cons in Hnd as [Hp2 _]. rewrite Forall_forall in HF.
  assert (Hbn : b_next b = nxf bs p) by (unfold nxf; by rewrite Hb).
  assert (Hbp : b_prev b = pvf bs p) by (unfold pvf; by rewrite Hb).
  assert (H1 : (nxf bs p < S HEAD)%nat).
  { rewrite En. destruct (firstd_elem HEAD l2) as [->|Hl]; [lia|].
    assert (firstd HEAD l2 ∈ l1 ++ p :: l2) as Hin by set_solver.
    specialize (HF _ Hin). lia. }
  assert (H2 : (pvf bs p < S HEAD)%nat).
  { rewrite Ep. destruct (lastd_elem HEAD l1) as [->|Hl]; [lia|].
    assert (lastd HEAD l1 ∈ l1 ++ p :: l2) as Hin by set_solver.
    specialize (HF _ Hin). lia. }
  assert (Hne : p ≠ nxf bs p).
  { rewrite En. intros E. destruct (firstd_elem HEAD l2) as [E'|Hl]; [lia|].
    rewrite <- E in Hl. done. }
  destruct (upd_prev lk bs dk hs (b_next b) (b_prev b)) as (b1 & E1 & S1 & N1 & P1); [lia|].
  destruct (ptr_in lk b1 dk hs p) as (c & Ec & Hcn & Hcp).
  { destruct S1 as [-> _]. lia. }
  assert (Hcp' : b_prev c = pvf bs p) by (rewrite Hcp, P1, fset_ne; congruence).
  destruct (upd_next lk b1 dk hs (b_prev c) (b_next c)) as (b2 & E2 & S2 & N2 & P2).
  { destruct S1 as [-> _]. lia. }
  exists b2. split_and!.
  - by rewrite (bind_ok _ _ _ _ _ E1), (bind_ok _ _ _ _ _ Ec).
  - by eapply same_bufs_trans.
  - eapply ring_ext; [| |apply (ring_remove HEAD (nxf bs) (pvf bs) l1 p l2 Hr)].
    + intros x. rewrite N2, Hcp', Hcn, N1. apply fset_ext. apply N1.
    + intros x. by rewrite P2, P1, Hbn, Hbp.
Qed.

Lemma same_bufs_back bs bs' i c' :
  same_bufs bs bs' → bs' !! i = Some c' →
  ∃ c nx pv, bs !! i = Some c ∧ c' = set_next nx (set_prev pv c).
Proof.
  intros [L H] Hc'. destruct (lookup_lt_is_Some_2 bs i) as [c Hc].
  { rewrite <- L. by eapply lookup_lt_Some. }
  destruct (H _ _ Hc) as (nx & pv & E). exists c, nx, pv. split; congruence.
Qed.

(** The view does not depend on the order of the LRU list. *)
Lemma brep_relink bs bs' dk hs v l :
  brep (mkb false bs dk hs) v → same_bufs bs bs' →
  ring HEAD (nxf bs') (pvf bs') l → l ≡ₚ seq 0 HEAD →
  brep (mkb false bs' dk hs) v.
Proof.
  intros R Hs Hr Hl. split; simpl; try apply R.
  - destruct Hs as [-> _]. apply (br_len _ _ R).
  - eauto.
  - intros i c' Hi Hc'. destruct (same_bufs_back _ _ _ _ Hs Hc') as (c & nx & pv & Hc & ->).
    apply (br_buf _ _ R _ _ Hi Hc).
  - intros i j ci cj Hi Hj Hci Hcj.
    destruct (same_bufs_back _ _ _ _ Hs Hci) as (c & nx & pv & Hc & ->).
    destruct (same_bufs_back _ _ _ _ Hs Hcj) as (d & nx' & pv' & Hd & ->).
    apply (br_uniq _ _ R _ _ _ _ Hi Hj Hc Hd).
  - intros n Hn. destruct (br_pins _ _ R _ Hn) as (i & c & Hi & Hc & Hd & E).
    destruct Hs as [_ Hs]. destruct (Hs _ _ Hc) as (nx & pv & Hc'). eauto 10.
Qed.

(** The two halves of the relinking code. *)
Lemma relink_split {A} p b (k : M bstate A) s :
  (upd (b_next b) (set_prev (b_prev b));;
   b ← ptr p; upd (b_prev b) (set_next (b_next b));; k) s
  = ((upd (b_next b) (set_prev (b_prev b));;
      b ← ptr p; upd (b_prev b) (set_next (b_next b)));; k) s.
Proof.
  rewrite bind_assoc. unfold mbind, M_bind. destruct (upd _ _ s) as [[] s1| | | |]; try done.
  by destruct (ptr p s1).
Qed.

(** A released buffer, before it is relinked. *)
Lemma brep_drop s v h n b :
  brep s v → v_held v !! h = Some n →
  n ∈ v_pins v ∨ v_cont v !! Z.to_nat n = v_disk v !! Z.to_nat n →
  bc_buf s !! h = Some b →
  brep (mkb false (<[h := set_refcnt 0 (set_lock (mksl false 0 0 []) b)]> (bc_buf s))
            (v_disk v) (v_hist v)) (view_drop h v).
Proof.
  intros R Hh Hc Hb.
  destruct (brep_held _ _ _ _ R Hh)
    as (b' & Hlt & Hb' & Hok & Hlk & Hrc & Hdev & Hbn & Hin & Hct & Hfl).
  rewrite Hb in Hb'. injection Hb' as <-.
  apply (brep_replace s v h b _ (view_drop h v)); try done.
  - eapply view_drop_wf; eauto. apply R.
  - unfold buf_ok. simpl. rewrite lookup_delete_eq. split; [done|]. split; [done|].
    intros _. by rewrite Hbn.
  - intros j bj Hne Hj Hbj. unfold buf_ok. simpl. by rewrite lookup_delete_ne.
  - intros j bj Hne Hj Hbj Hdj _. simpl. rewrite Hbn. by eapply brep_other.
  - intros n' Hn'. simpl in *. destruct (decide (n' = n)) as [->|Hne]; [by left|].
    right. split; [done|]. congruence.
  - intros h' n'. simpl. intros H. apply lookup_delete_Some in H as [_ H].
    by eapply (br_held _ _ R).
Qed.

Lemma brelse_ok s v h n :
  brep s v → v_held v !! h = Some n →
  n ∈ v_pins v ∨ v_cont v !! Z.to_nat n = v_disk v !! Z.to_nat n →
  ∃ s', brelse me h s = Ok tt s' ∧ brep s' (view_drop h v).
Proof.
  intros R Hh Hc.
  destruct (brep_held _ _ _ _ R Hh)
    as (b & Hlt & Hb & _ & Hlk & Hrc & _).
  assert (Hlen : (h < length (bc_buf s))%nat) by (rewrite (br_len _ _ R); lia).
  pose proof (brep_drop _ _ _ _ _ R Hh Hc Hb) as R1.
  set (b1 := set_refcnt 0 (set_lock (mksl false 0 0 []) b)) in *.
  set (bs1 := <[h := b1]> (bc_buf s)) in *.
  assert (Hb1 : bs1 !! h = Some b1) by (by apply list_lookup_insert_eq).
  assert (Hlen1 : length bs1 = S HEAD) by (unfold bs1; rewrite length_insert; apply R).
  destruct (br_ring _ _ R1) as (l & Hr & Hl). simpl in Hr.
  assert (HF : Forall (λ q, (q < HEAD)%nat) l).
  { apply Forall_forall. intros q. rewrite Hl, elem_of_seq. lia. }
  assert (Hin : h ∈ l) by (rewrite Hl, elem_of_seq; lia).
  apply list_elem_of_split in Hin as (l1 & l2 & ->).
  destruct (remove_run true bs1 (v_disk v) (v_hist v) h b1 l1 l2 Hlen1 Hlt Hb1 Hr HF)
    as (bs2 & E2 & S2 & Hr2).
  assert (Hnd : NoDup (l1 ++ h :: l2)) by (rewrite Hl; apply NoDup_seq).
  destruct (insert_run true bs2 (v_disk v) (v_hist v) h (l1 ++ l2)) as (bs3 & E3 & S3 & Hr3).
  { destruct S2 as [-> _]. done. }
  { done. }
  { done. }
  { apply NoDup_app in Hnd as (_ & H1 & H2). apply NoDup_cons in H2 as [H2 _]. set_solver. }
  { apply Forall_app in HF as [? HF]. apply Forall_cons in HF as [_ ?]. by apply Forall_app. }
  exists (mkb false bs3 (v_disk v) (v_hist v)). split.
  - apply (brep_run _ _ _ _ _ _ R Hb). unfold brelse.
    rewrite (bind_ok _ _ _ _ _ (holding_at me h b _ _ _ _ Hlen Hlk)). cbn [negb].
    erewrite bind_ok; [|apply on_lock_at; [done|apply releasesleep_ok; by rewrite Hlk]].
    rewrite (bind_ok _ _ _ _ _ (acquire_at _ _ _)).
    rewrite (bind_ok _ _ _ _ _ (upd_at _ _ _ _ _ _ Hlen _)). simpl. rewrite Hrc.
    change (set_refcnt (u32 (1 - 1)) _) with b1.
    rewrite (bind_ok _ _ _ _ _ (ptr_at _ _ _ _ _ _ Hlen)). simpl. fold bs1.
    change (b_next b) with (b_next b1). change (b_prev b) with (b_prev b1).
    erewrite bind_ok; [apply release_at|].
    rewrite relink_split. rewrite (bind_ok _ _ _ _ _ E2). exact E3.
  - eapply brep_relink; [exact R1|by eapply same_bufs_trans|exact Hr3|].
    rewrite Permutation_middle. exact Hl.
Qed.
End refinement.

(** ** bio.c implements the block device interface *)

#[export] Instance bio_ops (me : Z) : BlockOps bstate := {|
  BlockDev.bread := bread me;
  BlockDev.bwrite := bwrite me;
  BlockDev.brelse := brelse me;
  BlockDev.buf_data := buf_data;
  BlockDev.buf_set := buf_set;
  BlockDev.buf_blockno := buf_blockno;
  BlockDev.buf_pin := buf_pin |}.

#[export] Instance bio_spec (me : Z) : @BlockSpec bstate (bio_ops me) :=
  @Build_BlockSpec bstate (bio_ops me) (brep me) (br_wf me) (bread_ok me) (buf_data_ok me)
    (buf_blockno_ok me) (buf_set_ok me) (buf_pin_ok me) (bwrite_ok me) (brelse_ok me).

(** ** The state binit leaves *)

Definition bstart (dk : list (list Z)) : bstate := mkb false (replicate (S HEAD) buf0) dk [].

Definition fresh_buf (b : buf) : bool :=
  (b_dev b =? 0) && (b_flags b =? 0) && (b_refcnt b =? 0) &&
  (sl_locked (b_lock b) =? 0) && negb (sl_lk (b_lock b)) && bool_decide (sl_asleep (b_lock b) = []).

Definition binit_bufs (dk : list (list Z)) : list buf :=
  match binit (bstart dk) with Ok _ s => bc_buf s | _ => [] end.

Lemma binit_runs dk : binit (bstart dk) = Ok tt (mkb false (binit_bufs dk) dk []).
Proof. vm_compute. reflexivity. Qed.

Lemma binit_fresh dk : forallb fresh_buf (binit_bufs dk) = true.
Proof. vm_compute. reflexivity. Qed.

Lemma binit_ring dk :
  ring HEAD (nxf (binit_bufs dk)) (pvf (binit_bufs dk)) (reverse (seq 0 HEAD)).
Proof.
  split_and!.
  - vm_compute. repeat split.
  - vm_compute. repeat split.
  - apply (bool_decide_unpack _). vm_compute. exact I.
Qed.

Lemma binit_ok me dk :
  Forall (λ d, length d = Z.to_nat BSIZE) dk →
  ∃ s, binit (bstart dk) = Ok tt s ∧ brep me s (mkv dk dk ∅ ∅ []).
Proof.
  intros HF. exists (mkb false (binit_bufs dk) dk []). split; [apply binit_runs|].
  pose proof (binit_fresh dk) as Hfresh. pose proof (binit_ring dk) as Hr.
  assert (Hlen : length (binit_bufs dk) = S HEAD) by (vm_compute; reflexivity).
  revert Hfresh Hr Hlen. generalize (binit_bufs dk) as bs. intros bs Hfresh Hr Hlen.
  assert (Hb : ∀ i b, bs !! i = Some b → b_dev b = 0 ∧ b_flags b = 0 ∧ b_refcnt b = 0 ∧
             sl_locked (b_lock b) = 0 ∧ sl_lk (b_lock b) = false ∧ sl_asleep (b_lock b) = []).
  { intros i b Hi. rewrite forallb_forall in Hfresh.
    specialize (Hfresh b). rewrite <- list_elem_of_In in Hfresh.
    apply list_elem_of_lookup_2, Hfresh in Hi. unfold fresh_buf in Hi.
    rewrite !andb_true_iff, !Z.eqb_eq, negb_true_iff, bool_decide_eq_true in Hi. tauto. }
  split; simpl; try done.
  - exists (reverse (seq 0 HEAD)). split; [done|]. apply reverse_Permutation.
  - intros i b Hi Hb'. destruct (Hb _ _ Hb') as (Hd & Hf & Hrc & Hl & Hk & Ha).
    unfold buf_ok. simpl. by rewrite Hd.
  - intros i j bi bj _ _ Hbi _ Hd. destruct (Hb _ _ Hbi) as (E' & _). rewrite E' in Hd. done.
Qed.
