(* ===== verification/Tx.v ===== *)
(** * The transaction interface between the log and the file system

    fs.c reads and writes blocks inside a transaction: [begin_op] opens it,
    [log_write] replaces [bwrite], and [end_op] closes it.  [TxOps] lists the
    operations the file system uses; [TxSpec] says what they do to the view of
    BlockDev.v, where a block with an uncommitted update is one of the pinned
    blocks.  A transaction can pin [tx_max] blocks and touch the home blocks
    only, never those of the log itself.  The second part holds the two
    access patterns of fs.c (read a block, update a block), proved once from
    the interface. *)

From S2P Require Import Prelude Params BlockDev.

Class TxOps (T : Type) : Type := {
  tx_bread : Z → Z → M T nat;
  tx_brelse : nat → M T unit;
  tx_data : nat → M T (list Z);
  tx_set : nat → list Z → M T unit;
  tx_log_write : nat → M T unit;
  tx_begin_op : M T unit;
  tx_end_op : M T unit }.

Class TxSpec (T : Type) `{TxOps T} : Type := {
  tx_home : Z → Prop;                  (* blocks outside the log *)
  tx_max : nat;                        (* blocks a transaction can log *)
  trepr : T → bview → Z → Prop;        (* view, and operations outstanding *)
  trepr_wf s v o : trepr s v o → view_wf v;
  trepr_pins s v o : trepr s v o → (size (v_pins v) ≤ tx_max < Z.to_nat NBUF)%nat;
  trepr_home s v o n : trepr s v o → n ∈ v_pins v → tx_home n;
  tx_bread_spec s v o n :
    trepr s v o → in_disk v n → tx_home n → (∀ h, v_held v !! h ≠ Some n) →
    n ∈ v_pins v ∨ has_room v →
    ∃ h s', tx_bread ROOTDEV n s = Ok h s' ∧ v_held v !! h = None ∧
            trepr s' (view_hold h n v) o;
  tx_data_spec s v o h n :
    trepr s v o → v_held v !! h = Some n →
    ∃ d, tx_data h s = Ok d s ∧ v_cont v !! Z.to_nat n = Some d;
  tx_set_spec s v o h n d :
    trepr s v o → v_held v !! h = Some n → length d = Z.to_nat BSIZE →
    ∃ s', tx_set h d s = Ok tt s' ∧ trepr s' (view_set n d v) o;
  tx_brelse_spec s v o h n :
    trepr s v o → v_held v !! h = Some n →
    n ∈ v_pins v ∨ v_cont v !! Z.to_nat n = v_disk v !! Z.to_nat n →
    ∃ s', tx_brelse h s = Ok tt s' ∧ trepr s' (view_drop h v) o;
  tx_log_write_spec s v o h n :
    trepr s v o → v_held v !! h = Some n → 1 ≤ o → (size (v_pins v) < tx_max)%nat →
    ∃ s', tx_log_write h s = Ok tt s' ∧ trepr s' (view_pin n v) o;
  tx_begin_op_spec s v o :
    trepr s v o → Z.of_nat (size (v_pins v)) + (o + 1) * MAXOPBLOCKS ≤ LOGSIZE →
    ∃ s', tx_begin_op s = Ok tt s' ∧ trepr s' v (o + 1);
  tx_end_op_spec s v :
    trepr s v 1 → v_held v = ∅ →
    ∃ s' v', tx_end_op s = Ok tt s' ∧ trepr s' v' 0 ∧ v_held v' = ∅ ∧ v_pins v' = ∅ ∧
      length (v_disk v') = length (v_disk v) ∧
      ∀ n, 0 ≤ n → tx_home n →
        v_cont v' !! Z.to_nat n = v_cont v !! Z.to_nat n ∧
        v_disk v' !! Z.to_nat n = v_cont v !! Z.to_nat n }.

(** ** The access patterns of fs.c *)

Section patterns.
Context {T : Type} `{TxSpec T}.
Implicit Types (v : bview) (s : T) (d : list Z).

(** The view after a logged update of block [n]. *)
Definition view_upd (n : Z) (d : list Z) (v : bview) : bview := view_pin n (view_set n d v).

(** A block that no buffer of the caller holds can be released unchanged. *)
Lemma tx_release s v o h n :
  trepr s (view_hold h n v) o → view_wf v → 0 ≤ n → v_held v !! h = None →
  (∀ h', v_held v !! h' ≠ Some n) →
  ∃ s', tx_brelse h s = Ok tt s' ∧ trepr s' v o.
Proof.
  intros R W Hn Hh Hno. destruct (tx_brelse_spec _ _ _ h n R) as (s' & E & R').
  - apply view_held_hold.
  - simpl. destruct (decide (n ∈ v_pins v)); [by left|right]. by apply (wf_clean _ W).
  - exists s'. by rewrite view_drop_hold in R'.
Qed.

(** Holding [h], an update and its log entry, then the release. *)
Lemma view_upd_drop h n d v : v_held v !! h = None →
  view_drop h (view_upd n d (view_hold h n v)) = view_upd n d v.
Proof.
  intros Hh. destruct v. unfold view_drop, view_upd, view_pin, view_set, view_hold. simpl in *.
  by rewrite delete_insert_id.
Qed.

Lemma tx_update s v o h n d :
  trepr s (view_hold h n v) o → v_held v !! h = None → length d = Z.to_nat BSIZE →
  1 ≤ o → (size (v_pins v) < tx_max)%nat →
  ∃ s', (tx_set h d;; tx_log_write h;; tx_brelse h) s = Ok tt s' ∧ trepr s' (view_upd n d v) o.
Proof.
  intros R Hh Hd Ho Hsz. pose proof (view_held_hold h n v) as Hh1.
  destruct (tx_set_spec _ _ _ h n d R Hh1 Hd) as (s1 & E1 & R1).
  destruct (tx_log_write_spec _ _ _ h n R1) as (s2 & E2 & R2); try done.
  destruct (tx_brelse_spec _ _ _ h n R2) as (s3 & E3 & R3); [done|left; set_solver|].
  exists s3. split; [by mstep E1; mstep E2|]. by rewrite <- view_upd_drop with (h := h).
Qed.
End patterns.
