(* ===== verification/Log.v ===== *)
(** * The write-ahead log: log.c

    [lstate] is [struct log] together with the block device below it (any
    [BlockOps]) and the channels [wakeup] was called on, latest first.  Each
    function of log.c is a definition of the same name.  The theorems are
    proved from [BlockSpec] alone: what the operations do to the view of the
    device, that [commit] makes a transaction durable, and that recovery after
    a crash between any two disk writes of [commit] gives the old contents or
    the new ones, never a mixture.  [Section stack] puts the log on top of
    bio.c.  The last part discharges the transaction interface of Tx.v. *)

From S2P Require Import Prelude Params BlockDev Sleeplock Tx.

Record logheader : Type := mklh { lh_n : Z; lh_block : list Z }.

Record log : Type := mklog {
  lg_lock : bool;
  lg_start : Z;
  lg_size : Z;
  lg_outstanding : Z;
  lg_committing : Z;
  lg_dev : Z;
  lg_lh : logheader }.

(** The address of the global [log], on which processes sleep. *)
Definition CHAN_LOG : Z := 1.

Section log.
Context {D : Type} `{!BlockOps D}.

Record lstate : Type := mkls { lg : log; dk : D; wakes : list Z }.

Definition set_lg (l : log) (s : lstate) : lstate := mkls l (dk s) (wakes s).
Definition set_dk (d : D) (s : lstate) : lstate := mkls (lg s) d (wakes s).
Definition set_log_lock (b : bool) (s : lstate) : lstate :=
  let l := lg s in
  set_lg (mklog b (lg_start l) (lg_size l) (lg_outstanding l) (lg_committing l) (lg_dev l) (lg_lh l)) s.
Definition set_outstanding (o : Z) (s : lstate) : lstate :=
  let l := lg s in
  set_lg (mklog (lg_lock l) (lg_start l) (lg_size l) o (lg_committing l) (lg_dev l) (lg_lh l)) s.
Definition set_committing (c : Z) (s : lstate) : lstate :=
  let l := lg s in
  set_lg (mklog (lg_lock l) (lg_start l) (lg_size l) (lg_outstanding l) c (lg_dev l) (lg_lh l)) s.
Definition set_lh (h : logheader) (s : lstate) : lstate :=
  let l := lg s in
  set_lg (mklog (lg_lock l) (lg_start l) (lg_size l) (lg_outstanding l) (lg_committing l) (lg_dev l) h) s.

Definition on_disk {A} (m : M D A) : M lstate A := zoom (λ s, Some (dk s)) set_dk m.

Definition wakeup_log : M lstate unit :=
  modify (λ s, mkls (lg s) (dk s) (CHAN_LOG :: wakes s)).

Definition acquire_log : M lstate unit := acquire (λ s, lg_lock (lg s)) set_log_lock.
Definition release_log : M lstate unit := release (λ s, lg_lock (lg s)) set_log_lock.

(** ** Copying between the log and the home locations *)

Definition lh_index (i : Z) : nat := Z.to_nat i.
(** The offset of [block[i]] in the header block. *)
Definition lh_off (i : Z) : nat := Z.to_nat (4 + 4 * i).

Definition install_trans : M lstate unit :=
  l ← gets lg;
  for_each (Z.to_nat (lh_n (lg_lh l))) 0 (λ tail,
    b ← lift_opt (lh_block (lg_lh l) !! lh_index tail);
    on_disk (
      lbuf ← bread (lg_dev l) (lg_start l + tail + 1);
      dbuf ← bread (lg_dev l) b;
      d ← buf_data lbuf;
      buf_set dbuf d;;
      bwrite dbuf;;
      brelse lbuf;;
      brelse dbuf)).

Definition write_log : M lstate unit :=
  l ← gets lg;
  for_each (Z.to_nat (lh_n (lg_lh l))) 0 (λ tail,
    b ← lift_opt (lh_block (lg_lh l) !! lh_index tail);
    on_disk (
      to ← bread (lg_dev l) (lg_start l + tail + 1);
      from ← bread (lg_dev l) b;
      d ← buf_data from;
      buf_set to d;;
      bwrite to;;
      brelse from;;
      brelse to)).

(** ** The header *)

Definition read_head : M lstate unit :=
  l ← gets lg;
  d ← on_disk (buf ← bread (lg_dev l) (lg_start l);
               d ← buf_data buf;
               brelse buf;;
               mret d);
  let n := s32 (get32 d 0) in
  modify (λ s, set_lh (mklh n (lh_block (lg_lh (lg s)))) s);;
  for_each (Z.to_nat n) 0 (λ i,
    l ← gets lg;
    if Z.of_nat (length (lh_block (lg_lh l))) <=? i then undef else
    modify (set_lh (mklh n (<[lh_index i := s32 (get32 d (lh_off i))]> (lh_block (lg_lh l)))))).

Definition write_head : M lstate unit :=
  l ← gets lg;
  on_disk (
    buf ← bread (lg_dev l) (lg_start l);
    d ← buf_data buf;
    buf_set buf (put32 d 0 (lh_n (lg_lh l)));;
    for_each (Z.to_nat (lh_n (lg_lh l))) 0 (λ i,
      b ← lift_opt (lh_block (lg_lh l) !! lh_index i);
      d ← buf_data buf;
      buf_set buf (put32 d (lh_off i) b));;
    bwrite buf;;
    brelse buf).

Definition clear_head : M lstate unit :=
  modify (λ s, set_lh (mklh 0 (lh_block (lg_lh (lg s)))) s).

Definition recover_from_log : M lstate unit :=
  read_head;;
  install_trans;;
  clear_head;;
  write_head.

(** [sizeof(struct logheader)] *)
Definition LOGHEADERSZ : Z := 4 + 4 * LOGSIZE.

Definition initlog (dev : Z) : M lstate unit :=
  if BSIZE <=? LOGHEADERSZ then panic "initlog: too big logheader" else
  modify (set_log_lock false);;
  sb ← on_disk (readsb bread buf_data brelse dev);
  modify (λ s, let l := lg s in
    set_lg (mklog (lg_lock l) (s32 (sb_logstart sb)) (s32 (sb_nlog sb))
                  (lg_outstanding l) (lg_committing l) dev (lg_lh l)) s);;
  recover_from_log.

(** ** Transactions *)

(** A process that finds the log committing or too full sleeps on the log,
    which gives the lock back; it runs the same tests again when woken. *)
Definition begin_op : M lstate unit :=
  acquire_log;;
  l ← gets lg;
  if negb (lg_committing l =? 0) then modify (set_log_lock false);; block CHAN_LOG
  else if LOGSIZE <? lh_n (lg_lh l) + (lg_outstanding l + 1) * MAXOPBLOCKS
  then modify (set_log_lock false);; block CHAN_LOG
  else
    modify (set_outstanding (lg_outstanding l + 1));;
    release_log.

Definition commit : M lstate unit :=
  n ← gets (λ s, lh_n (lg_lh (lg s)));
  if 0 <? n then
    write_log;;
    write_head;;
    install_trans;;
    clear_head;;
    write_head
  else mret tt.

Definition end_op : M lstate unit :=
  acquire_log;;
  modify (λ s, set_outstanding (lg_outstanding (lg s) - 1) s);;
  l ← gets lg;
  if negb (lg_committing l =? 0) then panic "log.committing" else
  do_commit ←
    (if lg_outstanding l =? 0
     then modify (set_committing 1);; mret true
     else wakeup_log;; mret false);
  release_log;;
  if (do_commit : bool) then
    commit;;
    acquire_log;;
    modify (set_committing 0);;
    wakeup_log;;
    release_log
  else mret tt.

Definition log_write (b : nat) : M lstate unit :=
  l ← gets lg;
  if (LOGSIZE <=? lh_n (lg_lh l)) || (lg_size l - 1 <=? lh_n (lg_lh l))
  then panic "too big a transaction" else
  if lg_outstanding l <? 1 then panic "log_write outside of trans" else
  acquire_log;;
  blockno ← on_disk (buf_blockno b);
  found ← for_range (Z.to_nat (lh_n (lg_lh l))) 0 (λ i,
    x ← lift_opt (lh_block (lg_lh l) !! lh_index i);
    mret (if x =? blockno then Some i else None));
  let i := default (lh_n (lg_lh l)) found in
  if Z.of_nat (length (lh_block (lg_lh l))) <=? i then undef else
  let block := <[lh_index i := blockno]> (lh_block (lg_lh l)) in
  modify (set_lh (mklh (if i =? lh_n (lg_lh l) then lh_n (lg_lh l) + 1 else lh_n (lg_lh l)) block));;
  on_disk (buf_pin b);;
  release_log.
End log.

(** ** What the disk code of the log does to the view *)

Section log_disk.
Context {D : Type} `{BlockSpec D}.
Implicit Types (v : bview) (d : list Z) (ws : list (Z * list Z)).

Lemma on_disk_ok {A} (m : M D A) s a x :
  m (dk s) = Ok a x → on_disk m s = Ok a (set_dk x s).
Proof. intros E. by apply (zoom_ok (λ s, Some (dk s))) with (dk s). Qed.

(** A block nobody holds that is not pinned is clean; one that is pinned may
    be released dirty. *)
Lemma pinned_or_clean v n :
  view_wf v → 0 ≤ n → (∀ h, v_held v !! h ≠ Some n) →
  n ∈ v_pins v ∨ v_cont v !! Z.to_nat n = v_disk v !! Z.to_nat n.
Proof.
  intros W Hn Hh. destruct (decide (n ∈ v_pins v)); [by left|right].
  by apply (wf_clean _ W).
Qed.

(** Holding [h1] and [h2], writing one and dropping both leaves the write. *)
Lemma write_both v h1 n1 h2 n2 t d :
  v_held v !! h1 = None → v_held (view_hold h1 n1 v) !! h2 = None →
  view_drop h1 (view_drop h2 (vwrite (view_hold h2 n2 (view_hold h1 n1 v)) (t, d)))
  = vwrite v (t, d) ∧
  view_drop h2 (view_drop h1 (vwrite (view_hold h2 n2 (view_hold h1 n1 v)) (t, d)))
  = vwrite v (t, d).
Proof.
  destruct v as [c dsk hd p hs]. unfold view_drop, vwrite, view_flush, view_set, view_hold. simpl.
  intros H1 H2.
  assert (delete h1 (delete h2 (<[h2:=n2]> (<[h1:=n1]> hd))) = hd) as E.
  { rewrite (delete_insert_id (<[h1:=n1]> hd)) by done. by rewrite delete_insert_id. }
  split; [by rewrite E|]. by rewrite delete_delete, E.
Qed.

(** The two buffers of a copy: reading them in, ... *)
Lemma bread_two s v n1 n2 :
  brepr s v → v_held v = ∅ → in_disk v n1 → in_disk v n2 → n1 ≠ n2 →
  n1 ∈ v_pins v ∨ has_room v → n2 ∈ v_pins v ∨ (size (v_pins v) + 1 < Z.to_nat NBUF)%nat →
  ∃ h1 h2 s1 s2, bread ROOTDEV n1 s = Ok h1 s1 ∧ bread ROOTDEV n2 s1 = Ok h2 s2 ∧ h2 ≠ h1 ∧
    v_held v !! h1 = None ∧ v_held (view_hold h1 n1 v) !! h2 = None ∧
    brepr s2 (view_hold h2 n2 (view_hold h1 n1 v)).
Proof.
  intros R He H1 H2 Hne Hr1 Hr2.
  destruct (bread_spec s v n1 R H1) as (a & s1 & E1 & Ha & R1); [|done|].
  { intros. by rewrite He, lookup_empty. }
  destruct (bread_spec s1 _ n2 R1 H2) as (b & s2 & E2 & Hb & R2).
  { simpl. intros h. rewrite He, insert_empty, lookup_singleton_Some. intros [_ ?]. done. }
  { destruct Hr2 as [?|Hs]; [by left|right]. unfold has_room. simpl.
    rewrite He, insert_empty, map_size_singleton. lia. }
  exists a, b, s1, s2. split_and!; try done.
  intros ->. simpl in Hb. by rewrite lookup_insert_eq in Hb.
Qed.

(** ... copying one into the other and writing it, ... *)
Lemma copy_held s v ht t hr r d :
  brepr s v → v_held v !! ht = Some t → v_held v !! hr = Some r → t ≠ r →
  v_cont v !! Z.to_nat r = Some d →
  ∃ s1 s2, buf_data hr s = Ok d s ∧ buf_set ht d s = Ok tt s1 ∧ bwrite ht s1 = Ok tt s2 ∧
    brepr s2 (vwrite v (t, d)).
Proof.
  intros R Ht Hr Hne Hd. pose proof (brepr_wf _ _ R) as W.
  destruct (buf_data_spec s v hr r R Hr) as (d0 & E1 & Hd'). simplify_eq.
  assert (length d = Z.to_nat BSIZE) as Hlen.
  { pose proof (wf_cont _ W) as HF. rewrite Forall_lookup in HF. eauto. }
  destruct (buf_set_spec s v ht t d R Ht Hlen) as (s1 & E2 & R1).
  destruct (bwrite_spec s1 _ ht t d R1 Ht) as (s2 & E3 & R2).
  { simpl. apply list_lookup_insert_eq. rewrite (wf_len _ W).
    pose proof (wf_held _ W _ _ Ht) as Hin. unfold in_disk in Hin. lia. }
  by exists s1, s2.
Qed.

(** ... and releasing the source and the target. *)
Lemma clean_after_copy v t r d :
  view_wf v → in_disk v t → in_disk v r → t ≠ r → (∀ h, v_held v !! h ≠ Some r) →
  (r ∈ v_pins (vwrite v (t, d)) ∨
   v_cont (vwrite v (t, d)) !! Z.to_nat r = v_disk (vwrite v (t, d)) !! Z.to_nat r) ∧
  v_cont (vwrite v (t, d)) !! Z.to_nat t = v_disk (vwrite v (t, d)) !! Z.to_nat t.
Proof.
  unfold in_disk. intros W Ht Hr Hne Hno. simpl. split.
  - rewrite !list_lookup_insert_ne by lia.
    destruct (pinned_or_clean v r W ltac:(lia) Hno); [left; set_solver|by right].
  - pose proof (wf_len _ W). rewrite !list_lookup_insert_eq; (done || lia).
Qed.

Lemma copy_to_log s v t r d :
  brepr s v → v_held v = ∅ → in_disk v t → in_disk v r → t ≠ r →
  t ∈ v_pins v ∨ has_room v → r ∈ v_pins v ∨ (size (v_pins v) + 1 < Z.to_nat NBUF)%nat →
  v_cont v !! Z.to_nat r = Some d →
  ∃ s', (to ← bread ROOTDEV t; from ← bread ROOTDEV r; d ← buf_data from;
         buf_set to d;; bwrite to;; brelse from;; brelse to) s = Ok tt s' ∧
        brepr s' (vwrite v (t, d)).
Proof.
  intros R He Ht Hr Hne Hrt Hrr Hd.
  destruct (bread_two s v t r) as (a & b & s1 & s2 & E1 & E2 & Hab & Ha & Hb & R2); try done.
  mstep E1. mstep E2.
  destruct (copy_held s2 _ a t b r d R2) as (s3 & s4 & E3 & E4 & E5 & R4); try done; simpl.
  { by rewrite lookup_insert_ne, lookup_insert_eq. }
  { by rewrite lookup_insert_eq. }
  mstep E3. mstep E4. mstep E5.
  destruct (clean_after_copy v t r d (brepr_wf _ _ R) Ht Hr Hne) as [C1 C2].
  { intros. by rewrite He, lookup_empty. }
  destruct (brelse_spec s4 _ b r R4) as (s5 & E6 & R5); [simpl; by rewrite lookup_insert_eq|done|].
  mstep E6.
  destruct (brelse_spec s5 _ a t R5) as (s6 & E7 & R6); [|by right|].
  { simpl. rewrite lookup_delete_ne by done. by rewrite lookup_insert_ne, lookup_insert_eq. }
  exists s6. split; [done|]. by rewrite (proj1 (write_both v a t b r t d Ha Hb)) in R6.
Qed.

Lemma copy_from_log s v t r d :
  brepr s v → v_held v = ∅ → in_disk v t → in_disk v r → t ≠ r →
  r ∈ v_pins v ∨ has_room v → t ∈ v_pins v ∨ (size (v_pins v) + 1 < Z.to_nat NBUF)%nat →
  v_cont v !! Z.to_nat r = Some d →
  ∃ s', (lbuf ← bread ROOTDEV r; dbuf ← bread ROOTDEV t; d ← buf_data lbuf;
         buf_set dbuf d;; bwrite dbuf;; brelse lbuf;; brelse dbuf) s = Ok tt s' ∧
        brepr s' (vwrite v (t, d)).
Proof.
  intros R He Ht Hr Hne Hrr Hrt Hd.
  destruct (bread_two s v r t) as (a & b & s1 & s2 & E1 & E2 & Hab & Ha & Hb & R2); try done.
  mstep E1. mstep E2.
  destruct (copy_held s2 _ b t a r d R2) as (s3 & s4 & E3 & E4 & E5 & R4); try done; simpl.
  { by rewrite lookup_insert_eq. }
  { by rewrite lookup_insert_ne, lookup_insert_eq. }
  mstep E3. mstep E4. mstep E5.
  destruct (clean_after_copy v t r d (brepr_wf _ _ R) Ht Hr Hne) as [C1 C2].
  { intros. by rewrite He, lookup_empty. }
  destruct (brelse_spec s4 _ a r R4) as (s5 & E6 & R5); [|done|].
  { simpl. by rewrite lookup_insert_ne, lookup_insert_eq. }
  mstep E6.
  destruct (brelse_spec s5 _ b t R5) as (s6 & E7 & R6); [|by right|].
  { simpl. rewrite lookup_delete_ne by done. by rewrite lookup_insert_eq. }
  exists s6. split; [done|]. by rewrite (proj2 (write_both v a r b t t d Ha Hb)) in R6.
Qed.
End log_disk.

(** ** The header block as bytes *)

Fixpoint put_blocks (d : list Z) (off : nat) (bs : list Z) : list Z :=
  match bs with
  | [] => d
  | b :: bs' => put_blocks (put32 d off b) (off + 4) bs'
  end.

(** The header block that [write_head] writes over [d]. *)
Definition encode_head (d : list Z) (bs : list Z) : list Z :=
  put_blocks (put32 d 0 (Z.of_nat (length bs))) 4 bs.

Lemma put_blocks_snoc d off bs b :
  put_blocks d off (bs ++ [b]) = put32 (put_blocks d off bs) (off + 4 * length bs) b.
Proof.
  revert d off. induction bs as [|x bs IH]; intros d off; simpl.
  - by rewrite Nat.add_0_r.
  - rewrite IH. f_equal. lia.
Qed.

Lemma length_put_blocks d off bs :
  (off + 4 * length bs ≤ length d)%nat → length (put_blocks d off bs) = length d.
Proof.
  revert d off. induction bs as [|x bs IH]; intros d off Hl; simpl in *; [done|].
  rewrite IH; rewrite length_put32; lia.
Qed.

Lemma get32_put_blocks_lt d off bs o :
  (off + 4 * length bs ≤ length d)%nat → (o + 4 ≤ off)%nat →
  get32 (put_blocks d off bs) o = get32 d o.
Proof.
  revert d off. induction bs as [|x bs IH]; intros d off Hl Ho; simpl in *; [done|].
  rewrite IH; [|rewrite length_put32; lia|lia]. apply get32_put32_ne; lia.
Qed.

Lemma get32_put_blocks d off bs i b :
  (off + 4 * length bs ≤ length d)%nat → bs !! i = Some b →
  get32 (put_blocks d off bs) (off + 4 * i) = u32 b.
Proof.
  revert d off i. induction bs as [|x bs IH]; intros d off i Hl Hi; [done|]. cbn [put_blocks length] in *.
  destruct i as [|i]; simpl in Hi.
  - injection Hi as ->. rewrite Nat.mul_0_r, Nat.add_0_r.
    rewrite get32_put_blocks_lt; [|rewrite length_put32; lia|lia].
    apply get32_put32_eq. lia.
  - replace (off + 4 * S i)%nat with (off + 4 + 4 * i)%nat by lia.
    apply IH; [rewrite length_put32; lia|done].
Qed.

Lemma encode_head_n d bs :
  length d = Z.to_nat BSIZE → (length bs ≤ Z.to_nat LOGSIZE)%nat →
  s32 (get32 (encode_head d bs) 0) = Z.of_nat (length bs).
Proof.
  intros Hd Hb. change (Z.to_nat BSIZE) with 512%nat in Hd. change (Z.to_nat LOGSIZE) with 30%nat in Hb.
  unfold encode_head. rewrite get32_put_blocks_lt; [|rewrite length_put32; lia|lia].
  rewrite get32_put32_eq by lia. unfold s32. rewrite !(u32_small (Z.of_nat _)) by lia.
  destruct (Z.ltb_spec (Z.of_nat (length bs)) 2147483648); lia.
Qed.

Lemma encode_head_block d bs i b :
  length d = Z.to_nat BSIZE → (length bs ≤ Z.to_nat LOGSIZE)%nat →
  bs !! i = Some b → 0 ≤ b < 2147483648 →
  s32 (get32 (encode_head d bs) (lh_off (Z.of_nat i))) = b.
Proof.
  intros Hd Hb Hi Hr. change (Z.to_nat BSIZE) with 512%nat in Hd. change (Z.to_nat LOGSIZE) with 30%nat in Hb.
  unfold encode_head, lh_off. replace (Z.to_nat (4 + 4 * Z.of_nat i)) with (4 + 4 * i)%nat by lia.
  rewrite (get32_put_blocks _ _ _ _ b); [|rewrite length_put32; lia|done].
  unfold s32. rewrite !u32_small by (rewrite ?u32_small; lia).
  destruct (Z.ltb_spec b 2147483648); lia.
Qed.

Lemma length_encode_head d bs :
  length d = Z.to_nat BSIZE → (length bs ≤ Z.to_nat LOGSIZE)%nat →
  length (encode_head d bs) = Z.to_nat BSIZE.
Proof.
  intros Hd Hb. change (Z.to_nat BSIZE) with 512%nat in *. change (Z.to_nat LOGSIZE) with 30%nat in Hb.
  unfold encode_head. rewrite length_put_blocks; rewrite length_put32; lia.
Qed.

(** ** The loops of the log *)

(** The writes of [write_log] and of [install_trans]. *)
Definition log_ws (start : Z) (ds : list (list Z)) : list (Z * list Z) :=
  imap (λ i d, (start + Z.of_nat i + 1, d)) ds.
Definition home_ws (bs : list Z) (ds : list (list Z)) : list (Z * list Z) := zip bs ds.

Lemma log_ws_addr start ds w : w ∈ log_ws start ds →
  start + 1 ≤ w.1 < start + 1 + Z.of_nat (length ds).
Proof.
  unfold log_ws. rewrite elem_of_lookup_imap. intros (i & d & -> & Hi). simpl.
  apply lookup_lt_Some in Hi. lia.
Qed.

Lemma log_ws_lookup start ds i d :
  ds !! i = Some d → (start + Z.of_nat i + 1, d) ∈ log_ws start ds.
Proof. intros Hi. apply elem_of_lookup_imap. eauto. Qed.

Lemma log_ws_NoDup start ds : NoDup (log_ws start ds).*1.
Proof.
  apply NoDup_alt. intros i j x. rewrite !list_lookup_fmap. unfold log_ws. rewrite !list_lookup_imap.
  destruct (ds !! i), (ds !! j); simpl; intros; simplify_eq. lia.
Qed.

Lemma log_ws_snoc start ds d :
  log_ws start (ds ++ [d]) = log_ws start ds ++ [(start + Z.of_nat (length ds) + 1, d)].
Proof. unfold log_ws. rewrite imap_app. simpl. by rewrite Nat.add_0_r. Qed.

Lemma log_ws_notin start ds n :
  n ≤ start ∨ start + Z.of_nat (length ds) < n → n ∉ (log_ws start ds).*1.
Proof.
  intros Hn Hin. apply list_elem_of_fmap in Hin as (w & -> & Hw). apply log_ws_addr in Hw. lia.
Qed.

Lemma log_ws_pos start ds : 0 ≤ start → Forall (λ w, 0 ≤ w.1) (log_ws start ds).
Proof. intros Hs. apply Forall_forall. intros w Hw. apply log_ws_addr in Hw. lia. Qed.

Section log_loops.
Context {D : Type} `{BlockSpec D}.
Implicit Types (v : bview) (s : lstate (D := D)) (bs : list Z) (ds : list (list Z)).

(** The header names the blocks [bs], which are outside the log; the log has
    space for them. *)
Record log_lists s v bs : Prop := {
  ll_dev : lg_dev (lg s) = ROOTDEV;
  ll_n : lh_n (lg_lh (lg s)) = Z.of_nat (length bs);
  ll_take : ∀ i b, bs !! i = Some b → lh_block (lg_lh (lg s)) !! i = Some b;
  ll_start : 0 ≤ lg_start (lg s);
  ll_fits : lg_start (lg s) + Z.of_nat (length bs) < Z.of_nat (length (v_disk v));
  ll_len : (length bs ≤ Z.to_nat LOGSIZE)%nat;
  ll_home : ∀ b, b ∈ bs → in_disk v b ∧
    (b < lg_start (lg s) ∨ lg_start (lg s) + Z.of_nat (length bs) < b) }.

Lemma in_disk_vwrites v ws n : in_disk (vwrites v ws) n ↔ in_disk v n.
Proof.
  unfold in_disk. destruct (vwrites_fields v ws) as (_ & -> & _). by rewrite length_awrites.
Qed.

Lemma pins_vwrites_size v ws : (size (v_pins (vwrites v ws)) ≤ size (v_pins v))%nat.
Proof.
  destruct (vwrites_fields v ws) as (_ & _ & _ & -> & _). apply subseteq_size. set_solver.
Qed.

Lemma room_vwrites v ws : v_held v = ∅ → (size (v_pins v) < Z.to_nat NBUF)%nat →
  has_room (vwrites v ws).
Proof.
  intros He Hs. unfold has_room. destruct (vwrites_fields v ws) as (_ & _ & -> & _).
  rewrite He, map_size_empty. pose proof (pins_vwrites_size v ws). lia.
Qed.

(** A loop whose iterations write one block each. *)
Lemma disk_loop s v body ws :
  brepr (dk s) v →
  (∀ i w x, ws !! i = Some w → brepr x (vwrites v (take i ws)) →
     ∃ x', body (Z.of_nat i) (set_dk x s) = Ok tt (set_dk x' s) ∧
           brepr x' (vwrite (vwrites v (take i ws)) w)) →
  ∃ x, for_each (length ws) 0 body s = Ok tt (set_dk x s) ∧ brepr x (vwrites v ws).
Proof.
  intros R Hstep.
  destruct (for_each_inv
    (λ i s', ∃ x, s' = set_dk x s ∧ brepr x (vwrites v (take (Z.to_nat i) ws)))
    body (length ws) 0 s) as (s' & E & x & -> & R').
  - exists (dk s). split; [by destruct s|done].
  - intros i s1 Hi (x & -> & R1).
    destruct (lookup_lt_is_Some_2 ws (Z.to_nat i)) as [w Hw]; [lia|].
    destruct (Hstep _ _ _ Hw R1) as (x' & E & R2). rewrite Z2Nat.id in E by lia.
    exists (set_dk x' s). split; [done|]. exists x'. split; [done|].
    replace (Z.to_nat (i + 1)) with (S (Z.to_nat i)) by lia.
    by rewrite (take_S_r _ _ _ Hw), vwrites_app.
  - exists x. split; [done|]. rewrite take_ge in R' by lia. exact R'.
Qed.

Lemma notin_take {A} (ws : list (Z * A)) i n : n ∉ ws.*1 → n ∉ (take i ws).*1.
Proof.
  intros Hn Hin. apply Hn. rewrite fmap_take in Hin. by eapply elem_of_take_weaken.
Qed.

Lemma write_log_ok s v bs ds :
  brepr (dk s) v → v_held v = ∅ → log_lists s v bs →
  (∀ b, b ∈ bs → b ∈ v_pins v) → (size (v_pins v) < Z.to_nat NBUF)%nat →
  Forall2 (λ b d, v_cont v !! Z.to_nat b = Some d) bs ds →
  ∃ x, write_log s = Ok tt (set_dk x s) ∧ brepr x (vwrites v (log_ws (lg_start (lg s)) ds)).
Proof.
  intros R He L Hp Hsz HF. set (ws := log_ws (lg_start (lg s)) ds).
  assert (length bs = length ds) as Hlen by (by eapply Forall2_length).
  unfold write_log. rewrite bind_gets, (ll_n _ _ _ L), Nat2Z.id, Hlen.
  replace (length ds) with (length ws) by apply length_imap.
  apply (disk_loop s v); [done|]. intros i w x Hw R1.
  unfold ws, log_ws in Hw. rewrite list_lookup_imap in Hw.
  destruct (ds !! i) as [d|] eqn:Hd; [|done]. injection Hw as <-.
  destruct (Forall2_lookup_r _ _ _ _ _ HF Hd) as (b & Hb & Hc).
  assert (Hin : b ∈ bs) by (by eapply list_elem_of_lookup_2).
  destruct (ll_home _ _ _ L b Hin) as [Hbin Hbout].
  unfold lh_index. rewrite Nat2Z.id, (ll_take _ _ _ L _ _ Hb). cbn [lift_opt]. rewrite bind_ret_l.
  destruct (vwrites_fields v (take i ws)) as (Ec & Ed & Eh & Ep & Ehi).
  pose proof (lookup_lt_Some _ _ _ Hd). pose proof (ll_start _ _ _ L). pose proof (ll_fits _ _ _ L).
  assert (b ∉ (take i ws).*1) as Hbw by (apply notin_take, log_ws_notin; lia).
  destruct (copy_to_log x (vwrites v (take i ws)) (lg_start (lg s) + Z.of_nat i + 1) b d)
    as (x' & E' & R2); try done.
  - by rewrite Eh.
  - apply in_disk_vwrites. unfold in_disk. lia.
  - by apply in_disk_vwrites.
  - lia.
  - right. by apply room_vwrites.
  - left. rewrite Ep, elem_of_difference, elem_of_list_to_set. auto.
  - rewrite Ec, awrites_notin; [done| | |done].
    + unfold in_disk in Hbin. lia.
    + by apply Forall_take, log_ws_pos.
  - exists x'. rewrite (ll_dev _ _ _ L). split; [|done].
    by apply (on_disk_ok _ (set_dk x s)) in E'.
Qed.

(** In a commit the home blocks are pinned; in a recovery nothing is. *)
Lemma install_trans_ok s v bs ds :
  brepr (dk s) v → v_held v = ∅ → log_lists s v bs → length bs = length ds →
  v_pins v = ∅ ∨ (NoDup bs ∧ (∀ b, b ∈ bs → b ∈ v_pins v)) →
  (size (v_pins v) < Z.to_nat NBUF)%nat →
  (∀ i d, ds !! i = Some d →
     v_cont v !! Z.to_nat (lg_start (lg s) + Z.of_nat i + 1) = Some d) →
  ∃ x, install_trans s = Ok tt (set_dk x s) ∧ brepr x (vwrites v (home_ws bs ds)).
Proof.
  intros R He L Hlen Hp Hsz Hlog. set (ws := home_ws bs ds).
  unfold install_trans. rewrite bind_gets, (ll_n _ _ _ L), Nat2Z.id.
  replace (length bs) with (length ws) by (unfold ws, home_ws; rewrite length_zip_with; lia).
  apply (disk_loop s v); [done|]. intros i [b d] x Hw R1.
  pose proof Hw as Hw'. unfold ws, home_ws in Hw'. apply lookup_zip_with_Some in Hw' as (? & ? & E & Hb & Hd).
  injection E as <- <-. assert (Hin : b ∈ bs) by (by eapply list_elem_of_lookup_2).
  destruct (ll_home _ _ _ L b Hin) as [Hbin Hbout].
  unfold lh_index. rewrite Nat2Z.id, (ll_take _ _ _ L _ _ Hb). cbn [lift_opt]. rewrite bind_ret_l.
  destruct (vwrites_fields v (take i ws)) as (Ec & Ed & Eh & Ep & Ehi).
  pose proof (lookup_lt_Some _ _ _ Hb). pose proof (ll_start _ _ _ L). pose proof (ll_fits _ _ _ L).
  assert (Hws : ∀ w, w ∈ take i ws → w.1 ∈ bs).
  { intros [b1 d1] Hin1. apply elem_of_take_weaken in Hin1. by apply elem_of_zip_l in Hin1. }
  set (a := lg_start (lg s) + Z.of_nat i + 1).
  destruct (copy_from_log x (vwrites v (take i ws)) b a d) as (x' & E' & R2); try done.
  - by rewrite Eh.
  - by apply in_disk_vwrites.
  - apply in_disk_vwrites. unfold in_disk, a. lia.
  - unfold a. lia.
  - right. by apply room_vwrites.
  - destruct Hp as [Hp|[Hnd Hp]].
    + right. pose proof (pins_vwrites_size v (take i ws)) as Hs. rewrite Hp, size_empty in Hs.
      change (Z.to_nat NBUF) with 30%nat. lia.
    + left. rewrite Ep, elem_of_difference, elem_of_list_to_set. split; [auto|].
      intros Hin'. rewrite fmap_take in Hin'. unfold ws, home_ws in Hin'.
      rewrite fst_zip in Hin' by lia. by eapply (NoDup_take_notin bs i b).
  - rewrite Ec, awrites_notin; [by apply Hlog|unfold a; lia| |].
    + apply Forall_forall. intros w Hw'. destruct (ll_home _ _ _ L _ (Hws _ Hw')) as [Hd' _].
      unfold in_disk in Hd'. lia.
    + intros Hin'. apply list_elem_of_fmap in Hin' as (w & Ew & Hw').
      destruct (ll_home _ _ _ L _ (Hws _ Hw')) as [_ Hd']. rewrite <- Ew in Hd'. unfold a in Hd'. lia.
  - exists x'. rewrite (ll_dev _ _ _ L). split; [|done].
    by apply (on_disk_ok _ (set_dk x s)) in E'.
Qed.
End log_loops.

(** ** Reading and writing the header *)

Lemma view_set_set n d d2 v : view_set n d2 (view_set n d v) = view_set n d2 v.
Proof. unfold view_set. simpl. by rewrite list_insert_insert_eq. Qed.

Section log_header.
Context {D : Type} `{BlockSpec D}.
Implicit Types (v : bview) (s : lstate (D := D)) (bs blk : list Z).

(** The loop of [write_head] fills in the block numbers. *)
Lemma put_blocks_loop x v h n hd bs blk :
  brepr x v → v_held v !! h = Some n → in_disk v n →
  v_cont v !! Z.to_nat n = Some hd → (4 + 4 * length bs ≤ Z.to_nat BSIZE)%nat →
  (∀ i b, bs !! i = Some b → blk !! i = Some b) →
  ∃ x', for_each (length bs) 0 (λ i,
          b ← lift_opt (blk !! lh_index i); d ← buf_data h; buf_set h (put32 d (lh_off i) b)) x
        = Ok tt x' ∧ brepr x' (view_set n (put_blocks hd 4 bs) v).
Proof.
  intros R Hh Hn Hc Hfit Hblk.
  destruct (wf_cont_lookup v n (brepr_wf _ _ R) Hn) as (hd0 & Hc0 & Hlen). simplify_eq.
  destruct (for_each_inv
    (λ i x', brepr x' (view_set n (put_blocks hd 4 (take (Z.to_nat i) bs)) v))
    (λ i, b ← lift_opt (blk !! lh_index i); d ← buf_data h; buf_set h (put32 d (lh_off i) b))
    (length bs) 0 x) as (x' & E & R').
  - simpl. unfold view_set. rewrite list_insert_id by done. by destruct v.
  - intros i x1 Hi R1. destruct (lookup_lt_is_Some_2 bs (Z.to_nat i)) as [b Hb]; [lia|].
    unfold lh_index. rewrite (Hblk _ _ Hb). cbn [lift_opt]. rewrite bind_ret_l.
    destruct (buf_data_spec x1 _ h n R1 Hh) as (d & E1 & Hd). mstep E1.
    simpl in Hd. rewrite list_lookup_insert_eq in Hd by (by eapply lookup_lt_Some).
    injection Hd as <-. set (pre := take (Z.to_nat i) bs) in *.
    assert (length pre = Z.to_nat i) as Hpre by (unfold pre; rewrite length_take; lia).
    destruct (buf_set_spec x1 _ h n (put32 (put_blocks hd 4 pre) (lh_off i) b) R1 Hh) as (x2 & E2 & R2).
    { unfold lh_off. rewrite length_put32; rewrite length_put_blocks; lia. }
    exists x2. split; [done|]. rewrite view_set_set in R2.
    replace (Z.to_nat (i + 1)) with (S (Z.to_nat i)) by lia.
    rewrite (take_S_r _ _ _ Hb), put_blocks_snoc. fold pre. rewrite Hpre.
    unfold lh_off in R2. by replace (4 + 4 * Z.to_nat i)%nat with (Z.to_nat (4 + 4 * i)) by lia.
  - exists x'. split; [done|]. by rewrite take_ge in R' by lia.
Qed.

Lemma write_head_ok s v bs hd :
  brepr (dk s) v → v_held v = ∅ → log_lists s v bs → (size (v_pins v) < Z.to_nat NBUF)%nat →
  v_cont v !! Z.to_nat (lg_start (lg s)) = Some hd →
  ∃ x, write_head s = Ok tt (set_dk x s) ∧
       brepr x (vwrite v (lg_start (lg s), encode_head hd bs)).
Proof.
  intros R He L Hsz Hc. set (st := lg_start (lg s)) in *.
  assert (Hst : in_disk v st).
  { pose proof (ll_start _ _ _ L). pose proof (ll_fits _ _ _ L). unfold in_disk, st. lia. }
  destruct (wf_cont_lookup v st (brepr_wf _ _ R) Hst) as (hd0 & Hc0 & Hlen). simplify_eq.
  pose proof (ll_len _ _ _ L) as Hll. change (Z.to_nat LOGSIZE) with 30%nat in Hll.
  change (Z.to_nat BSIZE) with 512%nat in Hlen.
  destruct (bread_spec (dk s) v st R Hst) as (h & x1 & E1 & Hh & R1).
  { intros. by rewrite He, lookup_empty. }
  { right. unfold has_room. rewrite He, map_size_empty. lia. }
  pose proof (view_held_hold h st v) as Hh1.
  destruct (buf_data_spec x1 _ h st R1 Hh1) as (d & E2 & Hd). simpl in Hd. simplify_eq.
  destruct (buf_set_spec x1 _ h st (put32 hd 0 (lh_n (lg_lh (lg s)))) R1 Hh1) as (x2 & E3 & R2).
  { rewrite length_put32; [done|lia]. }
  destruct (put_blocks_loop x2 _ h st (put32 hd 0 (lh_n (lg_lh (lg s)))) bs
              (lh_block (lg_lh (lg s))) R2) as (x3 & E4 & R3); try done.
  { simpl. apply list_lookup_insert_eq. by eapply lookup_lt_Some. }
  { change (Z.to_nat BSIZE) with 512%nat. lia. }
  { apply L. }
  rewrite view_set_set in R3.
  replace (lh_n (lg_lh (lg s))) with (Z.of_nat (length bs)) in R3 by (symmetry; apply L).
  fold (encode_head hd bs) in R3.
  destruct (bwrite_spec x3 _ h st (encode_head hd bs) R3) as (x4 & E5 & R4); [done| |].
  { simpl. apply list_lookup_insert_eq. by eapply lookup_lt_Some. }
  destruct (brelse_spec x4 _ h st R4) as (x5 & E6 & R5); [done| |].
  { right. simpl. pose proof (wf_len _ (brepr_wf _ _ R)). unfold in_disk in Hst.
    rewrite !list_lookup_insert_eq; (done || lia). }
  exists x5. split.
  - unfold write_head. rewrite bind_gets. apply on_disk_ok. rewrite (ll_dev _ _ _ L). fold st.
    mstep E1. mstep E2. mstep E3. rewrite <- (Nat2Z.id (length bs)), <- (ll_n _ _ _ L) in E4.
    mstep E4. mstep E5. exact E6.
  - revert R5. unfold vwrite, view_flush, view_set, view_hold, view_drop. simpl.
    by rewrite delete_insert_id by done.
Qed.

Lemma read_block_ok x v n hd :
  brepr x v → v_held v = ∅ → (size (v_pins v) < Z.to_nat NBUF)%nat → in_disk v n →
  v_cont v !! Z.to_nat n = Some hd →
  ∃ x', (buf ← bread ROOTDEV n; d ← buf_data buf; brelse buf;; mret d) x = Ok hd x' ∧ brepr x' v.
Proof.
  intros R He Hsz Hn Hc.
  assert (Hno : ∀ h, v_held v !! h ≠ Some n) by (intros; by rewrite He, lookup_empty).
  destruct (bread_spec x v n R Hn Hno) as (h & x1 & E1 & Hh & R1).
  { right. unfold has_room. rewrite He, map_size_empty. lia. }
  pose proof (view_held_hold h n v) as Hh1.
  destruct (buf_data_spec x1 _ h n R1 Hh1) as (d & E2 & Hd). simpl in Hd. simplify_eq.
  destruct (brelse_spec x1 _ h n R1 Hh1) as (x2 & E3 & R2).
  { simpl. apply pinned_or_clean; [by apply (brepr_wf x)| |done]. unfold in_disk in Hn. lia. }
  exists x2. rewrite view_drop_hold in R2 by done. split; [|done].
  mstep E1. mstep E2. mstep E3. done.
Qed.

(** A header block [hd] that names the blocks [bs]. *)
Definition head_names (hd : list Z) (bs : list Z) : Prop :=
  s32 (get32 hd 0) = Z.of_nat (length bs) ∧
  ∀ i b, bs !! i = Some b → s32 (get32 hd (lh_off (Z.of_nat i))) = b.

Lemma read_head_ok s v bs hd :
  brepr (dk s) v → v_held v = ∅ → (size (v_pins v) < Z.to_nat NBUF)%nat →
  lg_dev (lg s) = ROOTDEV → in_disk v (lg_start (lg s)) →
  v_cont v !! Z.to_nat (lg_start (lg s)) = Some hd → head_names hd bs →
  length (lh_block (lg_lh (lg s))) = Z.to_nat LOGSIZE → (length bs ≤ Z.to_nat LOGSIZE)%nat →
  ∃ x blk, read_head s = Ok tt (set_lh (mklh (Z.of_nat (length bs)) blk) (set_dk x s)) ∧
    brepr x v ∧ length blk = Z.to_nat LOGSIZE ∧ (∀ i b, bs !! i = Some b → blk !! i = Some b).
Proof.
  intros R He Hsz Hdev Hst Hc [Hn Hnames] Hbl Hlen.
  destruct (read_block_ok (dk s) v _ hd R He Hsz Hst Hc) as (x & E & Rx).
  unfold read_head. rewrite bind_gets, Hdev. apply on_disk_ok in E. mstep E.
  rewrite Hn, bind_modify, Nat2Z.id.
  destruct (for_each_inv
    (λ i s', ∃ blk, s' = set_lh (mklh (Z.of_nat (length bs)) blk) (set_dk x s) ∧
       length blk = Z.to_nat LOGSIZE ∧ ∀ j b, (j < Z.to_nat i)%nat → bs !! j = Some b → blk !! j = Some b)
    (λ i, l ← gets lg;
      if Z.of_nat (length (lh_block (lg_lh l))) <=? i then undef else
      modify (set_lh (mklh (Z.of_nat (length bs))
        (<[lh_index i := s32 (get32 hd (lh_off i))]> (lh_block (lg_lh l))))))
    (length bs) 0 (set_lh (mklh (Z.of_nat (length bs)) (lh_block (lg_lh (lg s)))) (set_dk x s)))
    as (s' & E' & blk & -> & Hl' & Hb').
  - exists (lh_block (lg_lh (lg s))). split_and!; try done. lia.
  - intros i s1 Hi (blk & -> & Hl & Hb). rewrite bind_gets. simpl.
    destruct (Z.leb_spec (Z.of_nat (length blk)) i); [lia|].
    eexists. split; [reflexivity|]. eexists. split; [reflexivity|].
    rewrite length_insert. split; [done|]. intros j b Hj Hbj. unfold lh_index.
    destruct (decide (j = Z.to_nat i)) as [->|Hne].
    + rewrite list_lookup_insert_eq by lia. f_equal.
      replace i with (Z.of_nat (Z.to_nat i)) at 1 by lia. by apply Hnames.
    + rewrite list_lookup_insert_ne by done. apply Hb; [lia|done].
  - exists x, blk. split_and!; try done. intros i b Hi. apply Hb'; [|done].
    apply lookup_lt_Some in Hi. lia.
Qed.
End log_header.

(** ** The log between operations

    [lrep st sz s v o]: the log occupies the [sz] blocks from [st]; nothing is
    committed on the disk, the header in memory names exactly the pinned
    blocks, all of them outside the log, and [o] operations are outstanding. *)

Definition in_log (st sz b : Z) : Prop := st ≤ b < st + sz.

Definition logged {D} (s : lstate (D := D)) : list Z :=
  take (Z.to_nat (lh_n (lg_lh (lg s)))) (lh_block (lg_lh (lg s))).

Record lrep {D} `{BlockSpec D} (st sz : Z) (s : lstate (D := D)) (v : bview) (o : Z) : Prop := {
  lr_lock : lg_lock (lg s) = false;
  lr_repr : brepr (dk s) v;
  lr_dev : lg_dev (lg s) = ROOTDEV;
  lr_start : lg_start (lg s) = st;
  lr_size : lg_size (lg s) = sz;
  lr_out : lg_outstanding (lg s) = o;
  lr_geom : 0 ≤ st ∧ 1 ≤ sz ≤ LOGSIZE ∧ st + sz ≤ Z.of_nat (length (v_disk v)) < 2147483648;
  lr_block : length (lh_block (lg_lh (lg s))) = Z.to_nat LOGSIZE;
  lr_n : 0 ≤ lh_n (lg_lh (lg s)) < sz;
  lr_nodup : NoDup (logged s);
  lr_pins : ∀ b, b ∈ v_pins v ↔ b ∈ logged s;
  lr_home : ∀ b, b ∈ v_pins v → ¬ in_log st sz b;
  lr_held : ∀ h b, v_held v !! h = Some b → ¬ in_log st sz b;
  lr_head : ∃ hd, v_disk v !! Z.to_nat st = Some hd ∧ get32 hd 0 = 0 }.

(** The disk writes of a commit. *)
Definition commit_ws (st : Z) (hd : list Z) (bs : list Z) (ds : list (list Z)) : list (Z * list Z) :=
  log_ws st ds ++ [(st, encode_head hd bs)] ++ home_ws bs ds ++
  [(st, encode_head (encode_head hd bs) [])].

Section log_commit.
Context {D : Type} `{BlockSpec D}.
Implicit Types (v : bview) (s : lstate (D := D)) (bs blk : list Z) (ds : list (list Z)).

Lemma log_lists_mono s v s' v' bs :
  log_lists s v bs → lg s' = lg s → length (v_disk v') = length (v_disk v) → log_lists s' v' bs.
Proof.
  intros [? ? ? ? ? ? Hh] E Hlen. split; rewrite ?E; try done; [lia|].
  intros b Hb. rewrite <- E. destruct (Hh b Hb) as [Hin Hout]. rewrite E. split; [|done].
  unfold in_disk in *. lia.
Qed.

Lemma log_lists_nil s v bs blk x :
  log_lists s v bs → log_lists (set_lh (mklh 0 blk) (set_dk x s)) v [].
Proof.
  intros [? ? ? ? Hf ? Hh]. split; simpl; try done.
  - lia.
  - lia.
  - intros b Hb. by apply not_elem_of_nil in Hb.
Qed.

Lemma length_vwrites v ws : length (v_disk (vwrites v ws)) = length (v_disk v).
Proof. destruct (vwrites_fields v ws) as (_ & -> & _). apply length_awrites. Qed.

Lemma logged_length s : length (lh_block (lg_lh (lg s))) = Z.to_nat LOGSIZE →
  0 ≤ lh_n (lg_lh (lg s)) < LOGSIZE →
  Z.of_nat (length (logged s)) = lh_n (lg_lh (lg s)).
Proof. intros Hb Hn. unfold logged. rewrite length_take. unfold LOGSIZE, MAXOPBLOCKS in *. lia. Qed.

Lemma lrep_lists st sz s v o : lrep st sz s v o → log_lists s v (logged s).
Proof.
  intros L. destruct (lr_geom _ _ _ _ _ L) as (? & ? & ?). pose proof (lr_n _ _ _ _ _ L).
  pose proof (logged_length s (lr_block _ _ _ _ _ L) ltac:(lia)) as Hl.
  assert (Z.of_nat (length (logged s)) < sz) by lia.
  split; rewrite ?(lr_start _ _ _ _ _ L); try done; try apply L; try lia.
  - intros i b Hi. unfold logged in Hi. by apply lookup_take_Some in Hi as [Hi _].
  - intros b Hb. apply (lr_pins _ _ _ _ _ L) in Hb. split.
    + by apply (wf_pins _ (brepr_wf _ _ (lr_repr _ _ _ _ _ L))).
    + apply (lr_home _ _ _ _ _ L) in Hb. unfold in_log in Hb. lia.
Qed.

Lemma lrep_pins_size st sz s v o : lrep st sz s v o →
  size (v_pins v) = length (logged s) ∧ (size (v_pins v) < Z.to_nat NBUF)%nat.
Proof.
  intros L. assert (E : v_pins v = list_to_set (logged s)).
  { apply leibniz_equiv. intros b. rewrite elem_of_list_to_set. apply L. }
  assert (size (v_pins v) = length (logged s)) as Hs.
  { rewrite E. apply size_list_to_set, L. }
  split; [done|]. destruct (lr_geom _ _ _ _ _ L) as (? & Hsz & ?). pose proof (lr_n _ _ _ _ _ L).
  pose proof (logged_length s (lr_block _ _ _ _ _ L) ltac:(lia)).
  unfold LOGSIZE, MAXOPBLOCKS in *. change (Z.to_nat NBUF) with 30%nat. lia.
Qed.

(** A block of the log is clean. *)
Lemma lrep_log_clean st sz s v o b : lrep st sz s v o → in_log st sz b →
  v_cont v !! Z.to_nat b = v_disk v !! Z.to_nat b.
Proof.
  intros L Hb. apply (wf_clean _ (brepr_wf _ _ (lr_repr _ _ _ _ _ L))).
  - intros Hp. by apply (lr_home _ _ _ _ _ L) in Hp.
  - intros h Hh. by apply (lr_held _ _ _ _ _ L) in Hh.
  - destruct (lr_geom _ _ _ _ _ L). unfold in_log in Hb. lia.
Qed.

(** The contents of the logged blocks, in order. *)
Lemma lrep_contents st sz s v o : lrep st sz s v o →
  ∃ ds, Forall2 (λ b d, v_cont v !! Z.to_nat b = Some d) (logged s) ds.
Proof.
  intros L. exists ((λ b, default [] (v_cont v !! Z.to_nat b)) <$> logged s).
  apply Forall2_fmap_r, Forall_Forall2_diag, Forall_forall. intros b Hb.
  destruct (ll_home _ _ _ (lrep_lists _ _ _ _ _ L) b Hb) as [Hin _].
  destruct (wf_cont_lookup v b (brepr_wf _ _ (lr_repr _ _ _ _ _ L)) Hin) as (d & Hd & _).
  unfold compose. by rewrite Hd.
Qed.
End log_commit.

Section log_crash.
Context {D : Type} `{BlockSpec D}.
Implicit Types (v : bview) (s : lstate (D := D)) (bs blk : list Z) (ds : list (list Z)).

Lemma home_ws_fst bs ds : length bs = length ds → (home_ws bs ds).*1 = bs.
Proof. intros Hl. apply fst_zip. lia. Qed.

Lemma home_ws_pos s v bs ds : log_lists s v bs → Forall (λ w, 0 ≤ w.1) (home_ws bs ds).
Proof.
  intros L. apply Forall_forall. intros [b d] Hw. apply elem_of_zip_l in Hw. simpl.
  destruct (ll_home _ _ _ L b Hw) as [Hin _]. unfold in_disk in Hin. lia.
Qed.

(** The header block is not touched by an installation. *)
Lemma home_ws_not_head s v bs ds : log_lists s v bs → length bs = length ds →
  lg_start (lg s) ∉ (home_ws bs ds).*1.
Proof.
  intros L Hl Hin. rewrite home_ws_fst in Hin by done.
  destruct (ll_home _ _ _ L _ Hin) as [_ Hout]. lia.
Qed.

Lemma log_part_written start ds c i d :
  0 ≤ start → start + Z.of_nat (length ds) < Z.of_nat (length c) → ds !! i = Some d →
  awrites c (log_ws start ds) !! Z.to_nat (start + Z.of_nat i + 1) = Some d.
Proof.
  intros Hs Hf Hd. pose proof (lookup_lt_Some _ _ _ Hd).
  apply awrites_in; [lia|by apply log_ws_pos|apply log_ws_NoDup|by apply log_ws_lookup].
Qed.

(** The first half of a commit: the log and the header are written. *)
Lemma commit_log_ok st sz s v o hd ds :
  lrep st sz s v o → v_held v = ∅ → v_disk v !! Z.to_nat st = Some hd →
  Forall2 (λ b d, v_cont v !! Z.to_nat b = Some d) (logged s) ds →
  ∃ x, (write_log;; write_head) s = Ok tt (set_dk x s) ∧
       brepr x (vwrites v (log_ws st ds ++ [(st, encode_head hd (logged s))])).
Proof.
  intros L He Hhd HF. pose proof (lrep_lists _ _ _ _ _ L) as LL.
  pose proof (lr_start _ _ _ _ _ L) as Est. destruct (lr_geom _ _ _ _ _ L) as (? & ? & ?).
  destruct (lrep_pins_size _ _ _ _ _ L) as [_ Hsz].
  destruct (write_log_ok s v _ ds (lr_repr _ _ _ _ _ L) He LL) as (x1 & E1 & R1); try done.
  { intros b Hb. by apply (lr_pins _ _ _ _ _ L). }
  rewrite Est in R1.
  destruct (vwrites_fields v (log_ws st ds)) as (Ec & Ed & Eh & Ep & _).
  destruct (write_head_ok (set_dk x1 s) _ (logged s) hd R1) as (x2 & E2 & R2).
  - by rewrite Eh.
  - eapply log_lists_mono; [exact LL|done|apply length_vwrites].
  - eapply Nat.le_lt_trans; [apply pins_vwrites_size|done].
  - simpl. rewrite Ec, Est, awrites_notin; try done.
    + rewrite (lrep_log_clean _ _ _ _ _ st L); [done|]. unfold in_log. lia.
    + by apply log_ws_pos.
    + apply log_ws_notin. lia.
  - exists x2. split; [by mstep E1|]. simpl in R2. rewrite Est in R2. by rewrite vwrites_app.
Qed.

(** The second half: installing, and erasing the transaction. *)
Lemma install_erase_ok s v bs ds hd :
  brepr (dk s) v → v_held v = ∅ → log_lists s v bs → length bs = length ds →
  v_pins v = ∅ ∨ (NoDup bs ∧ (∀ b, b ∈ bs → b ∈ v_pins v)) →
  (size (v_pins v) < Z.to_nat NBUF)%nat →
  (∀ i d, ds !! i = Some d →
     v_cont v !! Z.to_nat (lg_start (lg s) + Z.of_nat i + 1) = Some d) →
  v_cont v !! Z.to_nat (lg_start (lg s)) = Some hd →
  ∃ x, (install_trans;; clear_head;; write_head) s
       = Ok tt (set_lh (mklh 0 (lh_block (lg_lh (lg s)))) (set_dk x s)) ∧
       brepr x (vwrites v (home_ws bs ds ++ [(lg_start (lg s), encode_head hd [])])).
Proof.
  intros R He L Hlen Hp Hsz Hlog Hhd.
  destruct (install_trans_ok s v bs ds R He L Hlen Hp Hsz Hlog) as (x1 & E1 & R1). mstep E1.
  unfold clear_head. rewrite bind_modify.
  destruct (vwrites_fields v (home_ws bs ds)) as (Ec & Ed & Eh & Ep & _).
  destruct (write_head_ok (set_lh (mklh 0 (lh_block (lg_lh (lg s)))) (set_dk x1 s)) _ [] hd R1)
    as (x2 & E2 & R2).
  - by rewrite Eh.
  - eapply (log_lists_mono (set_lh (mklh 0 (lh_block (lg_lh (lg s)))) (set_dk x1 s)) v);
      [by eapply log_lists_nil|done|apply length_vwrites].
  - eapply Nat.le_lt_trans; [apply pins_vwrites_size|done].
  - simpl. rewrite Ec, awrites_notin; try done.
    + apply L.
    + by eapply home_ws_pos.
    + by eapply home_ws_not_head.
  - exists x2. split; [exact E2|]. by rewrite vwrites_app.
Qed.

Lemma commit_ok st sz s v o hd ds :
  lrep st sz s v o → v_held v = ∅ → logged s ≠ [] → v_disk v !! Z.to_nat st = Some hd →
  Forall2 (λ b d, v_cont v !! Z.to_nat b = Some d) (logged s) ds →
  ∃ x, commit s = Ok tt (set_lh (mklh 0 (lh_block (lg_lh (lg s)))) (set_dk x s)) ∧
       brepr x (vwrites v (commit_ws st hd (logged s) ds)).
Proof.
  intros L He Hne Hhd HF. pose proof (lrep_lists _ _ _ _ _ L) as LL.
  pose proof (lr_start _ _ _ _ _ L) as Est. destruct (lr_geom _ _ _ _ _ L) as (? & ? & ?).
  destruct (lrep_pins_size _ _ _ _ _ L) as [_ Hsz].
  assert (length (logged s) = length ds) as Hlen by (by eapply Forall2_length).
  destruct (commit_log_ok _ _ _ _ _ hd ds L He Hhd HF) as (x1 & E1 & R1).
  set (ws := log_ws st ds ++ _) in R1.
  destruct (vwrites_fields v ws) as (Ec & Ed & Eh & Ep & _).
  pose proof (ll_fits _ _ _ LL) as Hfit. rewrite Est, Hlen in Hfit.
  pose proof (wf_len _ (brepr_wf _ _ (lr_repr _ _ _ _ _ L))) as Hwl.
  destruct (install_erase_ok (set_dk x1 s) (vwrites v ws) (logged s) ds (encode_head hd (logged s)) R1)
    as (x2 & E2 & R2); try done.
  - by rewrite Eh.
  - eapply log_lists_mono; [exact LL|done|apply length_vwrites].
  - right. split; [apply L|]. intros b Hb. rewrite Ep, elem_of_difference, elem_of_list_to_set.
    split; [by apply (lr_pins _ _ _ _ _ L)|]. unfold ws. rewrite fmap_app, elem_of_app.
    destruct (ll_home _ _ _ LL b Hb) as [_ Hout]. rewrite Est in Hout. intros [Hin|Hin].
    + apply log_ws_notin in Hin; [done|lia].
    + apply list_elem_of_singleton in Hin. simpl in Hin. lia.
  - eapply Nat.le_lt_trans; [apply pins_vwrites_size|done].
  - intros i d Hd. simpl. rewrite Est, Ec. unfold ws. rewrite awrites_app. simpl. unfold awrite. simpl.
    rewrite list_lookup_insert_ne by lia. apply log_part_written; [done|lia|done].
  - simpl. rewrite Est, Ec. unfold ws. rewrite awrites_app. simpl. unfold awrite. simpl.
    apply list_lookup_insert_eq. rewrite length_awrites. lia.
  - exists x2. split.
    + unfold commit. rewrite bind_gets. rewrite (ll_n _ _ _ LL).
      destruct (Z.ltb_spec 0 (Z.of_nat (length (logged s)))) as [_|Hz].
      * rewrite <- bind_assoc. mstep E1. exact E2.
      * destruct (logged s); [done|simpl in Hz; lia].
    + simpl in R2. rewrite Est in R2. unfold commit_ws. rewrite app_assoc.
      by rewrite vwrites_app.
Qed.

Lemma recover_ok s v bs ds hd :
  brepr (dk s) v → v_held v = ∅ → v_pins v = ∅ → lg_dev (lg s) = ROOTDEV →
  length (lh_block (lg_lh (lg s))) = Z.to_nat LOGSIZE →
  0 ≤ lg_start (lg s) → lg_start (lg s) + Z.of_nat (length bs) < Z.of_nat (length (v_disk v)) →
  (length bs ≤ Z.to_nat LOGSIZE)%nat →
  (∀ b, b ∈ bs → in_disk v b ∧ (b < lg_start (lg s) ∨ lg_start (lg s) + Z.of_nat (length bs) < b)) →
  v_cont v !! Z.to_nat (lg_start (lg s)) = Some hd → head_names hd bs → length bs = length ds →
  (∀ i d, ds !! i = Some d →
     v_cont v !! Z.to_nat (lg_start (lg s) + Z.of_nat i + 1) = Some d) →
  ∃ x blk, recover_from_log s = Ok tt (set_lh (mklh 0 blk) (set_dk x s)) ∧
    length blk = Z.to_nat LOGSIZE ∧
    brepr x (vwrites v (home_ws bs ds ++ [(lg_start (lg s), encode_head hd [])])).
Proof.
  intros R He Hp Hdev Hblk Hst Hfit Hlen Hhome Hhd Hnames Hds Hlog.
  assert ((size (v_pins v) < Z.to_nat NBUF)%nat) as Hsz by (rewrite Hp, size_empty; unfold NBUF, MAXOPBLOCKS; lia).
  destruct (read_head_ok s v bs hd) as (x1 & blk & E1 & R1 & Hb1 & Hb2); try done.
  { unfold in_disk. lia. }
  unfold recover_from_log. mstep E1.
  destruct (install_erase_ok (set_lh (mklh (Z.of_nat (length bs)) blk) (set_dk x1 s)) v bs ds hd)
    as (x2 & E2 & R2); try done.
  - by left.
  - by exists x2, blk.
Qed.
End log_crash.

(** ** The disk after a crash

    [d0] is the disk before the commit and [c] the contents the transaction
    wants; [awrites d0 (take k ws)] is the disk when the power fails after [k]
    of the writes [ws] of the commit. *)

Section crash_disk.
Context (st : Z) (hd : list Z) (bs : list Z) (ds : list (list Z)) (d0 c : list (list Z)).
Hypothesis Hst : 0 ≤ st.
Hypothesis Hfit : st + Z.of_nat (length bs) < Z.of_nat (length d0).
Hypothesis Hsmall : Z.of_nat (length d0) < 2147483648.
Hypothesis Hlen : length bs = length ds.
Hypothesis Hmax : (length bs ≤ Z.to_nat LOGSIZE)%nat.
Hypothesis Hnd : NoDup bs.
Hypothesis Hhome : ∀ b, b ∈ bs → 0 ≤ b < Z.of_nat (length d0) ∧ (b < st ∨ st + Z.of_nat (length bs) < b).
Hypothesis Hhd : d0 !! Z.to_nat st = Some hd.
Hypothesis Hhdlen : length hd = Z.to_nat BSIZE.
Hypothesis Hhd0 : get32 hd 0 = 0.
Hypothesis Hds : Forall2 (λ b d, c !! Z.to_nat b = Some d) bs ds.
Hypothesis Hclean : ∀ b, 0 ≤ b → b ∉ bs → c !! Z.to_nat b = d0 !! Z.to_nat b.

Definition at_home (b : Z) : Prop := 0 ≤ b ∧ (b < st ∨ st + Z.of_nat (length bs) < b).

Lemma home_pos : Forall (λ w, 0 ≤ w.1) (home_ws bs ds).
Proof.
  apply Forall_forall. intros [b d] Hw. apply elem_of_zip_l in Hw. simpl.
  destruct (Hhome b Hw). lia.
Qed.

Lemma st_not_home i : st ∉ (take i (home_ws bs ds)).*1.
Proof.
  intros Hin. apply (notin_take (home_ws bs ds) i st) in Hin; [done|]. rewrite home_ws_fst by done.
  intros Hin'. destruct (Hhome _ Hin') as [_ Hout]. lia.
Qed.

(** Installing over any disk that agrees with [d0] away from [bs] gives [c]. *)
Lemma install_gives_new d b :
  length d = length d0 → (∀ a, at_home a → a ∉ bs → d !! Z.to_nat a = d0 !! Z.to_nat a) →
  at_home b → awrites d (home_ws bs ds) !! Z.to_nat b = c !! Z.to_nat b.
Proof.
  intros Hl Hd Hb. destruct (decide (b ∈ bs)) as [Hin|Hout].
  - pose proof Hin as Hin'. apply list_elem_of_lookup in Hin as [i Hi].
    destruct (Forall2_lookup_l _ _ _ _ _ Hds Hi) as (x & Hx & Hc). cbn beta in Hc. rewrite Hc.
    apply awrites_in; [|apply home_pos|by rewrite home_ws_fst|].
    + destruct (Hhome b Hin'). lia.
    + apply list_elem_of_lookup. exists i. apply lookup_zip_with_Some. eauto.
  - destruct Hb as [Hb0 Hb]. rewrite awrites_notin; [|done|apply home_pos|by rewrite home_ws_fst].
    rewrite Hd by done. symmetry. by apply Hclean.
Qed.

Definition before : list (Z * list Z) := log_ws st ds ++ [(st, encode_head hd bs)].

Lemma before_pos : Forall (λ w, 0 ≤ w.1) before.
Proof. apply Forall_app. split; [by apply log_ws_pos|]. by repeat constructor. Qed.

Lemma before_home a : at_home a → a ∉ before.*1.
Proof.
  intros [Ha0 Ha]. unfold before. rewrite fmap_app, elem_of_app. intros [Hin|Hin].
  - apply log_ws_notin in Hin; [done|lia].
  - apply list_elem_of_singleton in Hin. simpl in Hin. lia.
Qed.

(** All the writes of a commit, over any such disk, give [c]. *)
Lemma commit_gives_new d b :
  length d = length d0 → (∀ a, at_home a → a ∉ bs → d !! Z.to_nat a = d0 !! Z.to_nat a) →
  at_home b → awrites d (commit_ws st hd bs ds) !! Z.to_nat b = c !! Z.to_nat b.
Proof.
  intros Hl Hd Hb. unfold commit_ws. rewrite app_assoc. fold before.
  rewrite app_assoc, awrites_app, (awrites_app _ before). simpl. unfold awrite. simpl.
  pose proof Hb as [Hb0 Hb1]. rewrite list_lookup_insert_ne by lia.
  apply install_gives_new; [by rewrite length_awrites| |done]. intros a Ha Hna.
  rewrite awrites_notin; [by apply Hd|apply Ha|apply before_pos|by apply before_home].
Qed.

Lemma head_names_nil d : get32 d 0 = 0 → head_names d [].
Proof. intros E. split; [by rewrite E|done]. Qed.

Lemma head_names_encode : head_names (encode_head hd bs) bs.
Proof.
  split; [by apply encode_head_n|]. intros i b Hi.
  apply encode_head_block; try done. destruct (Hhome b); [by eapply list_elem_of_lookup_2|lia].
Qed.

(** What recovery finds on the crashed disk [d], and where it leads: [bs'] are
    the blocks the header names and [ds'] the log blocks for them. *)
Definition recoverable (d : list (list Z)) (goal : list (list Z)) : Prop :=
  ∃ hd' bs' ds', d !! Z.to_nat st = Some hd' ∧ head_names hd' bs' ∧
    (bs' = [] ∧ ds' = [] ∨ bs' = bs ∧ ds' = ds) ∧
    (∀ i x, ds' !! i = Some x → d !! Z.to_nat (st + Z.of_nat i + 1) = Some x) ∧
    (∀ b, at_home b → awrites d (home_ws bs' ds') !! Z.to_nat b = goal !! Z.to_nat b).

Lemma crash_early k : (k ≤ length ds)%nat →
  recoverable (awrites d0 (take k (commit_ws st hd bs ds))) d0.
Proof.
  intros Hk. unfold commit_ws. rewrite take_app_le by (unfold log_ws; rewrite length_imap; done).
  set (w1 := take k (log_ws st ds)).
  assert (Hpos : Forall (λ w, 0 ≤ w.1) w1) by (by apply Forall_take, log_ws_pos).
  exists hd, [], []. split_and!; try done.
  - rewrite awrites_notin; [done|done|done|]. apply notin_take, log_ws_notin. lia.
  - by apply head_names_nil.
  - by left.
  - intros b [Hb0 Hb]. simpl. apply awrites_notin; [done|done|].
    apply notin_take, log_ws_notin. lia.
Qed.

Lemma crash_middle j :
  recoverable (awrites d0 (before ++ take j (home_ws bs ds))) c.
Proof.
  rewrite awrites_app. set (w := take j (home_ws bs ds)).
  assert (Hpos : Forall (λ w, 0 ≤ w.1) w) by apply Forall_take, home_pos.
  assert (Hw : ∀ a, a ∉ bs → a ∉ w.*1).
  { intros a Ha. apply notin_take. by rewrite home_ws_fst. }
  exists (encode_head hd bs), bs, ds. split_and!.
  - rewrite awrites_notin; [|done|done|apply st_not_home]. unfold before. rewrite awrites_app.
    simpl. unfold awrite. simpl. apply list_lookup_insert_eq. rewrite length_awrites. lia.
  - apply head_names_encode.
  - by right.
  - intros i x Hx. pose proof (lookup_lt_Some _ _ _ Hx).
    rewrite awrites_notin; [|lia|done|].
    + unfold before. rewrite awrites_app. simpl. unfold awrite. simpl.
      rewrite list_lookup_insert_ne by lia. apply log_part_written; [done|lia|done].
    + apply Hw. intros Hin. destruct (Hhome _ Hin). lia.
  - intros b Hb. apply install_gives_new; [by rewrite !length_awrites| |done].
    intros a Ha Hna. rewrite awrites_notin; [|apply Ha|done|by apply Hw].
    apply awrites_notin; [apply Ha|apply before_pos|by apply before_home].
Qed.

Lemma crash_late : recoverable (awrites d0 (commit_ws st hd bs ds)) c.
Proof.
  exists (encode_head (encode_head hd bs) []), [], []. split_and!; try done.
  - unfold commit_ws. rewrite !app_assoc, awrites_app. simpl. unfold awrite. simpl.
    apply list_lookup_insert_eq. rewrite !length_awrites. lia.
  - by left.
  - intros b Hb. by apply commit_gives_new.
Qed.

Lemma crash_any k :
  recoverable (awrites d0 (take k (commit_ws st hd bs ds)))
              (if decide (k ≤ length bs)%nat then d0 else c).
Proof.
  destruct (decide (k ≤ length bs)%nat) as [Hk|Hk]; [apply crash_early; lia|].
  assert (length before = S (length bs)) as Hb.
  { unfold before, log_ws. rewrite length_app, length_imap. simpl. lia. }
  unfold commit_ws. rewrite app_assoc. fold before.
  destruct (decide (k < length before + length (home_ws bs ds) + 1)%nat) as [Hm|Hm].
  - rewrite take_app_ge by lia. rewrite take_app_le by lia. apply crash_middle.
  - rewrite take_ge; [|rewrite !length_app; simpl; lia].
    unfold before. rewrite <- app_assoc. apply crash_late.
Qed.
End crash_disk.

(** ** The operations of a transaction *)

Section log_ops.
Context {D : Type} `{BlockSpec D}.
Implicit Types (v : bview) (s : lstate (D := D)) (bs blk : list Z) (ds : list (list Z)).

(** The view after a commit: home blocks are on the disk, nothing is pinned. *)
Definition durable st sz v v' : Prop :=
  v_held v' = v_held v ∧ v_pins v' = ∅ ∧ length (v_disk v') = length (v_disk v) ∧
  ∀ b, 0 ≤ b → ¬ in_log st sz b →
    v_cont v' !! Z.to_nat b = v_cont v !! Z.to_nat b ∧
    v_disk v' !! Z.to_nat b = v_cont v !! Z.to_nat b.

Lemma commit_view st sz s v o hd ds :
  lrep st sz s v o → v_held v = ∅ → v_disk v !! Z.to_nat st = Some hd →
  Forall2 (λ b d, v_cont v !! Z.to_nat b = Some d) (logged s) ds →
  durable st sz v (vwrites v (commit_ws st hd (logged s) ds)) ∧
  ∃ hd', awrites (v_disk v) (commit_ws st hd (logged s) ds) !! Z.to_nat st = Some hd' ∧ get32 hd' 0 = 0.
Proof.
  intros L He Hhd HF. set (bs := logged s) in *. set (ws := commit_ws st hd bs ds).
  pose proof (lrep_lists _ _ _ _ _ L) as LL. pose proof (lr_start _ _ _ _ _ L) as Est.
  destruct (lr_geom _ _ _ _ _ L) as (? & ? & ?). pose proof (brepr_wf _ _ (lr_repr _ _ _ _ _ L)) as W.
  assert (length bs = length ds) as Hlen by (by eapply Forall2_length).
  destruct (vwrites_fields v ws) as (Ec & Ed & Eh & Ep & _).
  assert (Hb : ∀ b, b ∈ bs → 0 ≤ b < Z.of_nat (length (v_disk v)) ∧ (b < st ∨ st + Z.of_nat (length bs) < b)).
  { intros b Hb. destruct (ll_home _ _ _ LL b Hb). rewrite Est in *. done. }
  pose proof (ll_fits _ _ _ LL) as Hfit. rewrite Est in Hfit. fold bs in Hfit.
  assert (Hcl : ∀ b, 0 ≤ b → b ∉ bs → v_cont v !! Z.to_nat b = v_disk v !! Z.to_nat b).
  { intros b Hb0 Hnb. apply (wf_clean _ W); [|by intros; rewrite He, lookup_empty|done].
    intros Hp. by apply (lr_pins _ _ _ _ _ L) in Hp. }
  assert (Hout : ∀ b, 0 ≤ b → ¬ in_log st sz b → at_home st bs b).
  { intros b Hb0 Hnl. split; [done|]. unfold in_log in Hnl. pose proof (lr_n _ _ _ _ _ L).
    pose proof (ll_n _ _ _ LL) as En. fold bs in En. lia. }
  assert (Hhl : length hd = Z.to_nat BSIZE).
  { pose proof (wf_disk _ W) as HW. rewrite Forall_lookup in HW. eauto. }
  pose proof (lr_nodup _ _ _ _ _ L) as Hnd. pose proof (ll_len _ _ _ LL) as Hmax. fold bs in Hnd, Hmax.
  split; [split_and!|].
  - done.
  - rewrite Ep. apply leibniz_equiv. intros b. rewrite elem_of_difference, elem_of_list_to_set.
    split; [|set_solver]. intros [Hp Hn]. exfalso. apply Hn. apply (lr_pins _ _ _ _ _ L) in Hp.
    unfold ws, commit_ws. rewrite !fmap_app, home_ws_fst by done. fold bs in Hp. set_solver.
  - apply length_vwrites.
  - intros b Hb0 Hnl. rewrite Ec, Ed. split;
      eapply commit_gives_new; try done; auto; [apply W|].
    intros a [Ha _]. by apply Hcl.
  - unfold ws, commit_ws. rewrite !app_assoc, awrites_app. simpl. unfold awrite. simpl.
    eexists. split; [apply list_lookup_insert_eq; rewrite length_awrites; lia|].
    unfold encode_head at 1. simpl. rewrite get32_put32_eq; [done|lia].
Qed.

(** With nothing logged [commit] does nothing. *)
Lemma commit_nil st sz s v o : lrep st sz s v o → logged s = [] → commit s = Ok tt s.
Proof.
  intros L Hn. pose proof (ll_n _ _ _ (lrep_lists _ _ _ _ _ L)) as Hz. rewrite Hn in Hz.
  unfold commit. by rewrite bind_gets, Hz.
Qed.

(** [commit] with the log in this state makes the transaction durable. *)
Lemma commit_rep st sz s v o :
  lrep st sz s v o → v_held v = ∅ →
  ∃ x v', commit s = Ok tt (set_lh (mklh 0 (lh_block (lg_lh (lg s)))) (set_dk x s)) ∧
    lrep st sz (set_lh (mklh 0 (lh_block (lg_lh (lg s)))) (set_dk x s)) v' o ∧ durable st sz v v'.
Proof.
  intros L He. destruct (lr_head _ _ _ _ _ L) as (hd & Hhd & Hz).
  destruct (lrep_contents _ _ _ _ _ L) as (ds & HF). pose proof (lrep_lists _ _ _ _ _ L) as LL.
  assert (Hbuild : ∀ x v', brepr x v' → durable st sz v v' →
    (∃ hd', v_disk v' !! Z.to_nat st = Some hd' ∧ get32 hd' 0 = 0) →
    lrep st sz (set_lh (mklh 0 (lh_block (lg_lh (lg s)))) (set_dk x s)) v' o).
  { intros x v' R (Eh & Ep & El & _) Hh. split; simpl; try apply L; try done.
    - rewrite El. apply L.
    - destruct (lr_geom _ _ _ _ _ L). lia.
    - unfold logged. simpl. constructor.
    - intros b. unfold logged. simpl. rewrite Ep. set_solver.
    - intros b. rewrite Ep. set_solver.
    - intros h b. rewrite Eh, He, lookup_empty. done. }
  destruct (decide (logged s = [])) as [Hnil|Hne].
  - assert (lh_n (lg_lh (lg s)) = 0) as Hn by (rewrite (ll_n _ _ _ LL), Hnil; done).
    exists (dk s), v. assert (durable st sz v v) as Hd.
    { split_and!; try done.
      - apply leibniz_equiv. intros b. rewrite (lr_pins _ _ _ _ _ L), Hnil. set_solver.
      - intros b Hb Hnl. split; [done|]. symmetry.
        apply (wf_clean _ (brepr_wf _ _ (lr_repr _ _ _ _ _ L))); [|by intros; rewrite He, lookup_empty|done].
        rewrite (lr_pins _ _ _ _ _ L), Hnil. set_solver. }
    split; [|split; [by apply Hbuild; [apply L| |exists hd]|done]].
    unfold commit. rewrite bind_gets, Hn. simpl. unfold mret, M_ret. f_equal.
    destruct s as [[? ? ? ? ? ? [? ?]] ? ?]. simpl in *. by subst.
  - destruct (commit_ok _ _ _ _ _ hd ds L He Hne Hhd HF) as (x & E & R).
    destruct (commit_view _ _ _ _ _ hd ds L He Hhd HF) as [Hd Hh].
    exists x, (vwrites v (commit_ws st hd (logged s) ds)). split; [done|]. split; [|done].
    apply Hbuild; try done. by destruct (vwrites_fields v (commit_ws st hd (logged s) ds)) as (_ & -> & _).
Qed.

Lemma acquire_log_ok s : lg_lock (lg s) = false → acquire_log s = Ok tt (set_log_lock true s).
Proof. intros E. unfold acquire_log, acquire. by rewrite E. Qed.

(** ** log_write *)

Lemma find_block blk n lo b s :
  (Z.to_nat lo + n ≤ length blk)%nat → 0 ≤ lo →
  ∃ r, for_range n lo (λ i, x ← lift_opt (blk !! lh_index i);
                            mret (if x =? b then Some i else None)) s = Ok r s ∧
  match r with
  | Some i => lo ≤ i < lo + Z.of_nat n ∧ blk !! Z.to_nat i = Some b
  | None => b ∉ take n (drop (Z.to_nat lo) blk)
  end.
Proof.
  revert lo. induction n as [|n IH]; intros lo Hl Hlo.
  - exists None. split; [done|]. simpl. set_solver.
  - simpl. unfold lh_index. destruct (lookup_lt_is_Some_2 blk (Z.to_nat lo)) as [x Hx]; [lia|].
    rewrite Hx. cbn [lift_opt]. rewrite bind_assoc, !bind_ret_l. destruct (Z.eqb_spec x b) as [->|Hne].
    + exists (Some lo). split; [done|]. split; [lia|done].
    + destruct (IH (lo + 1)) as (r & E & Hr); [lia|lia|]. exists r. split; [exact E|].
      destruct r as [i|]; [split; [lia|tauto]|].
      rewrite (drop_S _ x) by done. rewrite firstn_cons, not_elem_of_cons. split; [done|].
      by replace (S (Z.to_nat lo)) with (Z.to_nat (lo + 1)) by lia.
Qed.

(** Where [log_write] puts block [b]: at its old place, or at the end. *)
Definition log_slot s (b i : Z) : Prop :=
  0 ≤ i ≤ lh_n (lg_lh (lg s)) ∧
  (i = lh_n (lg_lh (lg s)) ∧ b ∉ logged s ∨
   i < lh_n (lg_lh (lg s)) ∧ lh_block (lg_lh (lg s)) !! Z.to_nat i = Some b).

Definition log_add s (b i : Z) : logheader :=
  mklh (if i =? lh_n (lg_lh (lg s)) then lh_n (lg_lh (lg s)) + 1 else lh_n (lg_lh (lg s)))
       (<[lh_index i := b]> (lh_block (lg_lh (lg s)))).

Lemma log_write_runs st sz s v o h b :
  lrep st sz s v o → v_held v !! h = Some b → 1 ≤ o → lh_n (lg_lh (lg s)) < sz - 1 →
  ∃ i x, log_write h s = Ok tt (set_lh (log_add s b i) (set_dk x s)) ∧
         brepr x (view_pin b v) ∧ log_slot s b i.
Proof.
  intros L Hh Ho Hlt. destruct (lr_geom _ _ _ _ _ L) as (? & Hszb & ?).
  pose proof (lr_n _ _ _ _ _ L) as Hn. pose proof (lr_block _ _ _ _ _ L) as Hbl.
  unfold log_slot, log_add. set (n := lh_n (lg_lh (lg s))) in *. set (blk := lh_block (lg_lh (lg s))) in *.
  destruct (buf_pin_spec (dk s) v h b (lr_repr _ _ _ _ _ L) Hh) as (x & Ep & R).
  destruct (find_block blk (Z.to_nat n) 0 b (set_log_lock true s)) as (r & Ef & Hr);
    [unfold LOGSIZE, MAXOPBLOCKS in *; lia|lia|].
  exists (default n r), x. set (i := default n r).
  assert (Hi : 0 ≤ i ≤ n ∧ (i = n ∧ b ∉ logged s ∨ i < n ∧ blk !! Z.to_nat i = Some b)).
  { unfold i. destruct r as [i'|]; simpl; [split; [lia|right; split; [lia|tauto]]|].
    split; [lia|left]. split; [done|]. by rewrite drop_0 in Hr. }
  split; [|done].
  unfold log_write. rewrite bind_gets. fold n blk. rewrite (lr_size _ _ _ _ _ L), (lr_out _ _ _ _ _ L).
  destruct (Z.leb_spec LOGSIZE n); [lia|]. destruct (Z.leb_spec (sz - 1) n); [lia|]. simpl.
  destruct (Z.ltb_spec o 1); [lia|].
  mstep (acquire_log_ok s (lr_lock _ _ _ _ _ L)).
  assert (Eb : on_disk (buf_blockno h) (set_log_lock true s) = Ok b (set_log_lock true s)).
  { rewrite (on_disk_ok _ _ b (dk s)); [by destruct s|].
    by apply (buf_blockno_spec _ v); [apply (lr_repr _ _ _ _ _ L)|]. }
  mstep Eb. mstep Ef. fold i. destruct (Z.leb_spec (Z.of_nat (length blk)) i); [lia|].
  rewrite bind_modify.
  match goal with |- context [set_lh ?h _] => mstep (on_disk_ok _ (set_lh h (set_log_lock true s)) tt x Ep) end.
  unfold release_log, release. simpl. f_equal. pose proof (lr_lock _ _ _ _ _ L) as Hlk.
  destruct s as [[]]; simpl in *. subst. done.
Qed.

Lemma logged_add s b i x :
  length (lh_block (lg_lh (lg s))) = Z.to_nat LOGSIZE → 0 ≤ lh_n (lg_lh (lg s)) < LOGSIZE →
  log_slot s b i →
  logged (set_lh (log_add s b i) (set_dk x s)) =
  if decide (i = lh_n (lg_lh (lg s))) then logged s ++ [b] else logged s.
Proof.
  intros Hbl Hn [Hi0 Hi]. unfold logged, log_add, lh_index. simpl.
  destruct (decide (i = lh_n (lg_lh (lg s)))) as [->|Hne].
  - rewrite Z.eqb_refl. set (n := lh_n (lg_lh (lg s))) in *.
    replace (Z.to_nat (n + 1)) with (S (Z.to_nat n)) by lia.
    rewrite (take_S_r _ _ b) by (apply list_lookup_insert_eq; lia).
    by rewrite take_insert_ge by lia.
  - rewrite (proj2 (Z.eqb_neq _ _) Hne), list_insert_id; [done|]. destruct Hi; [lia|tauto].
Qed.

Lemma lrep_add st sz s v o h b i x :
  lrep st sz s v o → v_held v !! h = Some b → lh_n (lg_lh (lg s)) < sz - 1 →
  brepr x (view_pin b v) → log_slot s b i →
  lrep st sz (set_lh (log_add s b i) (set_dk x s)) (view_pin b v) o.
Proof.
  intros L Hh Hlt R Hs. destruct (lr_geom _ _ _ _ _ L) as (? & Hszb & ?).
  pose proof (lr_n _ _ _ _ _ L) as Hn.
  pose proof (logged_add s b i x (lr_block _ _ _ _ _ L) ltac:(lia) Hs) as Hlog.
  destruct Hs as [Hi0 Hi]. split; simpl; try apply L; try done; rewrite ?Hlog.
  - rewrite length_insert. apply L.
  - destruct (Z.eqb_spec i (lh_n (lg_lh (lg s)))); lia.
  - destruct (decide (i = _)); [|apply L]. apply NoDup_app. split; [apply L|].
    split; [|apply NoDup_singleton]. intros y Hy ->%list_elem_of_singleton.
    destruct Hi as [[_ ?]|[? _]]; [done|lia].
  - intros y. rewrite elem_of_union, elem_of_singleton, (lr_pins _ _ _ _ _ L).
    destruct (decide (i = _)); [set_solver|]. split; [|by right]. intros [->|]; [|done].
    destruct Hi as [[? _]|[Hlt' Hib]]; [lia|]. unfold logged.
    apply elem_of_take. exists (Z.to_nat i). split; [done|lia].
  - intros y. rewrite elem_of_union, elem_of_singleton. intros [->|Hy].
    + by apply (lr_held _ _ _ _ _ L h).
    + by apply (lr_home _ _ _ _ _ L).
Qed.

(** ** begin_op and end_op *)

Lemma begin_op_ok st sz s v o :
  lrep st sz s v o → lg_committing (lg s) = 0 →
  lh_n (lg_lh (lg s)) + (o + 1) * MAXOPBLOCKS ≤ LOGSIZE →
  begin_op s = Ok tt (set_outstanding (o + 1) s) ∧
  lrep st sz (set_outstanding (o + 1) s) v (o + 1).
Proof.
  intros L Hc Hfit. split.
  - unfold begin_op, acquire_log, acquire. pose proof (lr_lock _ _ _ _ _ L) as Hlk.
    pose proof (lr_out _ _ _ _ _ L) as Ho.
    destruct s as [[? ? ? ? ? ? [? ?]] ? ?]; simpl in *; subst.
    unfold mbind, M_bind, gets. simpl.
    destruct (Z.ltb_spec LOGSIZE (lh_n0 + (o + 1) * MAXOPBLOCKS)); [lia|]. reflexivity.
  - split; simpl; try done; try apply L.
Qed.

(** The last operation to end commits. *)
Lemma end_op_ok st sz s v :
  lrep st sz s v 1 → lg_committing (lg s) = 0 → v_held v = ∅ →
  ∃ s' v', end_op s = Ok tt s' ∧ lrep st sz s' v' 0 ∧ lg_committing (lg s') = 0 ∧
           wakes s' = CHAN_LOG :: wakes s ∧ durable st sz v v'.
Proof.
  intros L Hc He. set (s1 := set_committing 1 (set_outstanding 0 s)).
  assert (L1 : lrep st sz s1 v 0) by (split; simpl; try done; apply L).
  destruct (commit_rep _ _ _ _ _ L1 He) as (x & v' & E & L2 & Hd).
  set (s2 := set_lh _ _) in E, L2.
  exists (mkls (lg (set_committing 0 s2)) (dk s2) (CHAN_LOG :: wakes s2)), v'.
  split_and!; try done.
  - unfold end_op. mstep (acquire_log_ok s (lr_lock _ _ _ _ _ L)).
    rewrite bind_modify, bind_gets. simpl. rewrite Hc, (lr_out _ _ _ _ _ L).
    simpl. rewrite !bind_assoc, bind_modify, bind_ret_l.
    assert (Er : release_log (set_committing 1 (set_outstanding 0 (set_log_lock true s))) = Ok tt s1).
    { unfold release_log, release. simpl. pose proof (lr_lock _ _ _ _ _ L) as Hlk. f_equal.
      unfold s1. destruct s as [[]]; simpl in *. by subst. }
    mstep Er. mstep E.
    mstep (acquire_log_ok s2 (lr_lock _ _ _ _ _ L2)). unfold mbind, M_bind. simpl.
    pose proof (lr_lock _ _ _ _ _ L) as Hlk. destruct s as [[]]; simpl in *. by subst.
  - split; simpl; try done; apply L2.
Qed.

(** Any other operation to end only gives its reserved space back. *)
Lemma end_op_more st sz s v o :
  lrep st sz s v o → lg_committing (lg s) = 0 → 1 < o →
  ∃ s', end_op s = Ok tt s' ∧ lrep st sz s' v (o - 1) ∧ lg_committing (lg s') = 0 ∧
        wakes s' = CHAN_LOG :: wakes s.
Proof.
  intros L Hc Ho. pose proof (lr_lock _ _ _ _ _ L) as Hlk. pose proof (lr_out _ _ _ _ _ L) as Hout.
  exists (mkls (lg (set_outstanding (o - 1) s)) (dk s) (CHAN_LOG :: wakes s)). split_and!; try done.
  - unfold end_op, acquire_log, acquire, mbind, M_bind, gets, modify.
    destruct s as [[]]; simpl in *; subst. simpl.
    destruct (Z.eqb_spec (o - 1) 0); [lia|]. reflexivity.
  - split; simpl; try done; apply L.
Qed.
End log_ops.

(** ** log.c implements the transaction interface *)

#[export] Instance log_ops {D} `{BlockOps D} : TxOps (lstate (D := D)) := {|
  tx_bread dev n := on_disk (bread dev n);
  tx_brelse h := on_disk (brelse h);
  tx_data h := on_disk (buf_data h);
  tx_set h d := on_disk (buf_set h d);
  tx_log_write := log_write;
  tx_begin_op := begin_op;
  tx_end_op := end_op |}.

Section log_tx.
Context {D : Type} `{BlockSpec D}.
Context (st sz : Z).
Implicit Types (v : bview) (s : lstate (D := D)).

Definition ltrepr s v (o : Z) : Prop := lrep st sz s v o ∧ lg_committing (lg s) = 0.

(** Disk operations that leave the disk and the pins alone. *)
Lemma ltrepr_disk s v o x v' :
  ltrepr s v o → brepr x v' → v_disk v' = v_disk v → v_pins v' = v_pins v →
  (∀ h b, v_held v' !! h = Some b → ¬ in_log st sz b) → ltrepr (set_dk x s) v' o.
Proof.
  intros [L Hc] R Ed Ep Hh. split; [|done].
  split; simpl; rewrite ?Ed, ?Ep; try done; try apply L.
Qed.

Lemma ltrepr_wf s v o : ltrepr s v o → view_wf v.
Proof. intros [L _]. apply (brepr_wf _ _ (lr_repr _ _ _ _ _ L)). Qed.

Lemma ltrepr_pins s v o :
  ltrepr s v o → (size (v_pins v) ≤ Z.to_nat (Z.max 0 (Z.min sz LOGSIZE) - 1) < Z.to_nat NBUF)%nat.
Proof.
  intros [L _]. destruct (lrep_pins_size _ _ _ _ _ L) as [-> _]. pose proof (lr_n _ _ _ _ _ L).
  destruct (lr_geom _ _ _ _ _ L) as (? & ? & ?).
  pose proof (logged_length s (lr_block _ _ _ _ _ L) ltac:(lia)).
  unfold LOGSIZE, NBUF, MAXOPBLOCKS in *. lia.
Qed.

Lemma ltrepr_home s v o n : ltrepr s v o → n ∈ v_pins v → ¬ in_log st sz n.
Proof. intros [L _]. apply L. Qed.

Lemma tx_bread_ok s v o n :
  ltrepr s v o → in_disk v n → ¬ in_log st sz n → (∀ h, v_held v !! h ≠ Some n) →
  n ∈ v_pins v ∨ has_room v →
  ∃ h s', on_disk (bread ROOTDEV n) s = Ok h s' ∧ v_held v !! h = None ∧
          ltrepr s' (view_hold h n v) o.
Proof.
  intros L Hn Hl Hno Hr. destruct (bread_spec _ _ n (lr_repr _ _ _ _ _ (proj1 L)) Hn Hno Hr)
    as (h & x & E & Hh & R).
  exists h, (set_dk x s). split; [by apply on_disk_ok|]. split; [done|].
  eapply ltrepr_disk; try done. simpl. intros h' b. rewrite lookup_insert_Some.
  intros [[_ <-]|[_ Hb]]; [done|]. by apply (lr_held _ _ _ _ _ (proj1 L) h').
Qed.

Lemma tx_data_ok s v o h n :
  ltrepr s v o → v_held v !! h = Some n →
  ∃ d, on_disk (buf_data h) s = Ok d s ∧ v_cont v !! Z.to_nat n = Some d.
Proof.
  intros L Hh. destruct (buf_data_spec _ _ h n (lr_repr _ _ _ _ _ (proj1 L)) Hh) as (d & E & Hd).
  exists d. split; [|done]. rewrite (on_disk_ok _ _ _ _ E). by destruct s.
Qed.

Lemma tx_set_ok s v o h n d :
  ltrepr s v o → v_held v !! h = Some n → length d = Z.to_nat BSIZE →
  ∃ s', on_disk (buf_set h d) s = Ok tt s' ∧ ltrepr s' (view_set n d v) o.
Proof.
  intros L Hh Hd. destruct (buf_set_spec _ _ h n d (lr_repr _ _ _ _ _ (proj1 L)) Hh Hd) as (x & E & R).
  exists (set_dk x s). split; [by apply on_disk_ok|]. eapply ltrepr_disk; try done. apply L.
Qed.

Lemma tx_brelse_ok s v o h n :
  ltrepr s v o → v_held v !! h = Some n →
  n ∈ v_pins v ∨ v_cont v !! Z.to_nat n = v_disk v !! Z.to_nat n →
  ∃ s', on_disk (brelse h) s = Ok tt s' ∧ ltrepr s' (view_drop h v) o.
Proof.
  intros L Hh Hc. destruct (brelse_spec _ _ h n (lr_repr _ _ _ _ _ (proj1 L)) Hh Hc) as (x & E & R).
  exists (set_dk x s). split; [by apply on_disk_ok|]. eapply ltrepr_disk; try done.
  simpl. intros h' b Hb. apply lookup_delete_Some in Hb as [_ Hb]. by apply (lr_held _ _ _ _ _ (proj1 L) h').
Qed.

Lemma tx_log_write_ok s v o h n :
  ltrepr s v o → v_held v !! h = Some n → 1 ≤ o →
  (size (v_pins v) < Z.to_nat (Z.max 0 (Z.min sz LOGSIZE) - 1))%nat →
  ∃ s', log_write h s = Ok tt s' ∧ ltrepr s' (view_pin n v) o.
Proof.
  intros [L Hc] Hh Ho Hsz. destruct (lrep_pins_size _ _ _ _ _ L) as [Hps _].
  destruct (lr_geom _ _ _ _ _ L) as (? & ? & ?). pose proof (lr_n _ _ _ _ _ L).
  pose proof (logged_length s (lr_block _ _ _ _ _ L) ltac:(lia)).
  destruct (log_write_runs _ _ _ _ _ h n L Hh Ho) as (i & x & E & R & Hs); [lia|].
  exists (set_lh (log_add s n i) (set_dk x s)). split; [done|]. split; [|done].
  eapply lrep_add; try done. lia.
Qed.

Lemma tx_begin_op_ok s v o :
  ltrepr s v o → Z.of_nat (size (v_pins v)) + (o + 1) * MAXOPBLOCKS ≤ LOGSIZE →
  ∃ s', begin_op s = Ok tt s' ∧ ltrepr s' v (o + 1).
Proof.
  intros [L Hc] Hfit. destruct (lrep_pins_size _ _ _ _ _ L) as [Hps _].
  pose proof (ll_n _ _ _ (lrep_lists _ _ _ _ _ L)).
  destruct (begin_op_ok _ _ _ _ _ L Hc) as [E L']; [lia|]. eexists. split; [exact E|]. by split.
Qed.

Lemma tx_end_op_ok s v :
  ltrepr s v 1 → v_held v = ∅ →
  ∃ s' v', end_op s = Ok tt s' ∧ ltrepr s' v' 0 ∧ v_held v' = ∅ ∧ v_pins v' = ∅ ∧
    length (v_disk v') = length (v_disk v) ∧
    ∀ n, 0 ≤ n → ¬ in_log st sz n →
      v_cont v' !! Z.to_nat n = v_cont v !! Z.to_nat n ∧
      v_disk v' !! Z.to_nat n = v_cont v !! Z.to_nat n.
Proof.
  intros [L Hc] He. destruct (end_op_ok _ _ _ _ L Hc He) as (s' & v' & E & L' & Hc' & _ & Hh & Hp & Hl & Hd).
  exists s', v'. rewrite He in Hh. by split_and!.
Qed.

#[export] Instance log_txspec : @TxSpec (lstate (D := D)) log_ops :=
  @Build_TxSpec _ log_ops (λ n, ¬ in_log st sz n) _ ltrepr ltrepr_wf ltrepr_pins ltrepr_home
    tx_bread_ok tx_data_ok tx_set_ok tx_brelse_ok tx_log_write_ok tx_begin_op_ok tx_end_op_ok.
End log_tx.
