(* ===== verification/LogStack.v ===== *)
(** * The log on top of the buffer cache: power failures and reboots

    Log.v is proved for any block device; here the device is bio.c over the
    memory disk of memide.c.  [boot] is what the kernel does to the disk when
    it starts: [binit] on a zeroed cache, then [initlog] on a zeroed [log].
    The main theorem follows the disk through a power failure at an arbitrary
    point of [commit]. *)

From S2P Require Import Prelude Params BlockDev Sleeplock Tx Bio Log.

(** The global [log], all zero before [initlog]. *)
Definition log0 : log := mklog false 0 0 0 0 0 (mklh 0 (replicate (Z.to_nat LOGSIZE) 0)).

Definition boot (me : Z) (dk : list (list Z)) : result (lstate (D := bstate)) unit :=
  match binit (bstart dk) with
  | Ok _ b => @initlog bstate (bio_ops me) ROOTDEV (mkls log0 b [])
  | Panic msg => Panic msg
  | Blocked c b => Blocked c (mkls log0 b [])
  | Undef => Undef
  | NoFuel => NoFuel
  end.

Section initlog.
Context {D : Type} `{BlockSpec D}.
Implicit Types (v : bview) (s : lstate (D := D)) (bs : list Z) (ds : list (list Z)).

(** The superblock says where the log is. *)
Definition sb_log (d : list (list Z)) (st sz : Z) : Prop :=
  ∃ b1, d !! 1%nat = Some b1 ∧
    sb_logstart (sb_of_bytes b1) = st ∧ sb_nlog (sb_of_bytes b1) = sz.

Lemma readsb_ok x v b1 :
  brepr x v → v_held v = ∅ → v_pins v = ∅ → v_cont v !! 1%nat = Some b1 →
  ∃ x', readsb BlockDev.bread BlockDev.buf_data BlockDev.brelse ROOTDEV x = Ok (sb_of_bytes b1) x' ∧ brepr x' v.
Proof.
  intros R He Hp Hb. destruct (read_block_ok x v 1 b1 R He) as (x' & E & R'); try done.
  - rewrite Hp, size_empty. unfold NBUF, MAXOPBLOCKS. lia.
  - apply lookup_lt_Some in Hb. rewrite (wf_len _ (brepr_wf _ _ R)) in Hb. unfold in_disk. lia.
  - exists x'. split; [|done]. unfold readsb. apply bind_inv_ok in E as (h & x1 & E1 & E). mstep E1.
    apply bind_inv_ok in E as (d & x2 & E2 & E). mstep E2.
    apply bind_inv_ok in E as ([] & x3 & E3 & E). mstep E3.
    injection E as -> ->. done.
Qed.

(** A start of the log on a clean device whose disk is as [crash_any] says. *)
Lemma initlog_ok s v st sz bs ds goal :
  brepr (dk s) v → v_cont v = v_disk v → v_held v = ∅ → v_pins v = ∅ →
  length (lh_block (lg_lh (lg s))) = Z.to_nat LOGSIZE →
  lg_outstanding (lg s) = 0 → lg_committing (lg s) = 0 →
  sb_log (v_disk v) st sz → 0 ≤ st → 1 ≤ sz ≤ LOGSIZE →
  st + sz ≤ Z.of_nat (length (v_disk v)) < 2147483648 →
  Z.of_nat (length bs) < sz → length bs = length ds →
  (∀ b, b ∈ bs → in_disk v b ∧ ¬ in_log st sz b) →
  recoverable st bs ds (v_disk v) goal →
  ∃ s' v', initlog ROOTDEV s = Ok tt s' ∧ lrep st sz s' v' 0 ∧ lg_committing (lg s') = 0 ∧
    v_held v' = ∅ ∧ v_pins v' = ∅ ∧ length (v_disk v') = length (v_disk v) ∧
    ∀ b, 0 ≤ b → ¬ in_log st sz b → v_disk v' !! Z.to_nat b = goal !! Z.to_nat b.
Proof.
  intros R Ecd He Hp Hblk Ho Hcm (b1 & Hb1 & Est & Esz) Hst Hsz Hgeo Hlen Hl Hhome
    (hd' & bs' & ds' & Hhd & Hnm & Hcase & Hlog & Hgoal).
  assert (Hbs' : length bs' = length ds' ∧ (length bs' ≤ length bs)%nat ∧ (∀ b, b ∈ bs' → b ∈ bs)).
  { destruct Hcase as [[-> ->]|[-> ->]]; [|done]. simpl. split_and!; [done|lia|]. set_solver. }
  destruct Hbs' as (Hl' & Hle & Hin).
  destruct (readsb_ok (dk s) v b1 R He Hp) as (x1 & E1 & R1); [by rewrite Ecd|].
  set (s1 := mkls (mklog false st sz 0 0 ROOTDEV (lg_lh (lg s))) x1 (wakes s)).
  destruct (recover_ok s1 v bs' ds' hd' R1 He Hp) as (x2 & blk & E2 & Hblk2 & R2); try done; simpl.
  - lia.
  - unfold LOGSIZE, MAXOPBLOCKS in *. lia.
  - intros b Hb. destruct (Hhome b (Hin b Hb)) as [Hd Hnl]. split; [done|]. unfold in_log in Hnl. lia.
  - by rewrite Ecd.
  - rewrite Ecd. done.
  - set (ws := home_ws bs' ds' ++ _) in R2. exists (set_lh (mklh 0 blk) (set_dk x2 s1)), (vwrites v ws).
    destruct (vwrites_fields v ws) as (Ec & Ed & Eh & Ep & _). rewrite Hp in Ep. rewrite He in Eh.
    assert (Hpe : v_pins (vwrites v ws) = ∅) by (rewrite Ep; set_solver).
    split_and!; try done.
    + unfold initlog. change (BSIZE <=? LOGHEADERSZ) with false. cbv iota. rewrite bind_modify.
      mstep (on_disk_ok _ (set_log_lock false s) _ x1 E1). rewrite bind_modify.
      rewrite Est, Esz, !s32_small by (unfold LOGSIZE, MAXOPBLOCKS in *; lia). rewrite <- E2. f_equal.
      unfold s1, set_lg. simpl. by rewrite Ho, Hcm.
    + split; simpl; rewrite ?Hpe, ?Eh; try done.
      * rewrite length_vwrites. lia.
      * lia.
      * constructor.
      * intros b. unfold logged. simpl. set_solver.
      * rewrite Ed. unfold ws. rewrite awrites_app. simpl. unfold awrite. simpl.
        eexists. split; [apply list_lookup_insert_eq; rewrite length_awrites; lia|].
        unfold encode_head. simpl. rewrite get32_put32_eq; [done|lia].
    + by rewrite length_vwrites.
    + intros b Hb Hnl. rewrite Ed. unfold ws. rewrite awrites_app. simpl. unfold awrite. simpl.
      unfold in_log in Hnl. rewrite list_lookup_insert_ne by lia. apply Hgoal. split; [done|]. lia.
Qed.
End initlog.

(** ** Power failures *)

Section crash.
Context (me st sz : Z).
Implicit Types (v : bview) (s : lstate (D := bstate)).

Notation lrepb := (@lrep bstate (bio_ops me) (bio_spec me) st sz).
Notation commitb := (@commit bstate (bio_ops me)).

(** What a restart from disk [d] must give: the log is idle again and every
    block outside it has the contents of [goal], in the cache and on the disk. *)
Definition restarts_to (d goal : list (list Z)) : Prop :=
  ∃ s3 v3, boot me d = Ok tt s3 ∧ lrepb s3 v3 0 ∧ lg_committing (lg s3) = 0 ∧
    v_held v3 = ∅ ∧ v_pins v3 = ∅ ∧
    ∀ b, 0 ≤ b → ¬ in_log st sz b →
      memdisk (dk s3) !! Z.to_nat b = goal !! Z.to_nat b ∧
      v_cont v3 !! Z.to_nat b = goal !! Z.to_nat b.

Lemma boot_ok d bs ds goal :
  Forall (λ x, length x = Z.to_nat BSIZE) d → sb_log d st sz → 0 ≤ st → 1 ≤ sz ≤ LOGSIZE →
  st + sz ≤ Z.of_nat (length d) < 2147483648 →
  Z.of_nat (length bs) < sz → length bs = length ds →
  (∀ b, b ∈ bs → 0 ≤ b < Z.of_nat (length d) ∧ ¬ in_log st sz b) →
  recoverable st bs ds d goal → restarts_to d goal.
Proof.
  intros HF Hsb Hst Hsz Hgeo Hlen Hl Hhome Hrec.
  destruct (binit_ok me d HF) as (b & Eb & Rb).
  destruct (@initlog_ok bstate (bio_ops me) (bio_spec me) (mkls log0 b []) _ st sz bs ds goal Rb)
    as (s3 & v3 & E & L & Hcm & Hh & Hp & _ & Hg); try assumption; try reflexivity.
  exists s3, v3. unfold boot. rewrite Eb. split_and!; try assumption.
  intros a Ha Hnl. pose proof (lr_repr _ _ _ _ _ L) as R3.
  rewrite (br_disk _ _ _ R3 : memdisk (dk s3) = v_disk v3). split; [by apply Hg|].
  rewrite <- (Hg a Ha Hnl). apply (wf_clean _ (br_wf _ _ _ R3)); [by rewrite Hp| |done].
  intros h. by rewrite Hh, lookup_empty.
Qed.

Lemma Forall_awrites d ws (P : list Z → Prop) :
  Forall P d → Forall (λ w, P w.2) ws → Forall P (awrites d ws).
Proof.
  revert d. induction ws as [|w ws IH]; intros d Hd Hws; [done|].
  apply Forall_cons in Hws as [Hw Hws]. unfold awrites. simpl. apply IH; [|done].
  by apply Forall_insert.
Qed.

(** Every block a commit writes is a whole block. *)
Lemma commit_ws_whole hd bs ds :
  length hd = Z.to_nat BSIZE → (length bs ≤ Z.to_nat LOGSIZE)%nat →
  Forall (λ x, length x = Z.to_nat BSIZE) ds →
  Forall (λ w, length w.2 = Z.to_nat BSIZE) (commit_ws st hd bs ds).
Proof.
  intros Hh Hb Hd. rewrite Forall_lookup in Hd.
  assert (length (encode_head hd bs) = Z.to_nat BSIZE) by (by apply length_encode_head).
  unfold commit_ws. rewrite !Forall_app, !Forall_singleton. split_and!; cbn [snd]; try done.
  - apply Forall_forall. intros w Hw. apply elem_of_lookup_imap in Hw as (i & x & -> & Hx). eauto.
  - apply Forall_forall. intros [b x] Hw. apply elem_of_zip_r, list_elem_of_lookup in Hw as [i Hi]. eauto.
  - by apply length_encode_head; [|simpl; lia].
Qed.

(** The superblock is outside the log and not part of the transaction, so no
    write of the commit touches it. *)
Lemma sb_log_awrites d s v o hd ds k :
  lrepb s v o → length (logged s) = length ds → ¬ in_log st sz 1 → 1 ∉ v_pins v →
  sb_log d st sz → sb_log (awrites d (take k (commit_ws st hd (logged s) ds))) st sz.
Proof.
  intros L Hlen H1 Hp (b1 & Hb1 & E). exists b1. split; [|done].
  change 1%nat with (Z.to_nat 1). pose proof (lrep_lists _ _ _ _ _ L) as LL.
  destruct (lr_geom _ _ _ _ _ L) as (? & ? & ?). pose proof (lr_n _ _ _ _ _ L).
  pose proof (ll_n _ _ _ LL). unfold in_log in H1. rewrite awrites_notin; [done|lia| |].
  - apply Forall_take. unfold commit_ws. rewrite !Forall_app, !Forall_singleton. split_and!; simpl; try lia.
    + apply log_ws_pos. lia.
    + by eapply home_ws_pos.
  - apply notin_take. unfold commit_ws. rewrite !fmap_app, home_ws_fst, !elem_of_app by done.
    rewrite (lr_pins _ _ _ _ _ L) in Hp. intros [Hin|[Hin|[Hin|Hin]]].
    + apply log_ws_notin in Hin; [done|lia].
    + apply list_elem_of_singleton in Hin. simpl in Hin. lia.
    + done.
    + apply list_elem_of_singleton in Hin. simpl in Hin. lia.
Qed.

(** A restart with nothing committed and nothing logged. *)
Lemma restart_idle s v o goal :
  lrepb s v o → v_held v = ∅ → sb_log (v_disk v) st sz → logged s = [] →
  goal = v_disk v ∨ goal = v_cont v → restarts_to (v_disk v) goal.
Proof.
  intros L He Hsb Hn Hg. destruct (lr_head _ _ _ _ _ L) as (hd & Hhd & Hz).
  pose proof (brepr_wf _ _ (lr_repr _ _ _ _ _ L)) as W. destruct (lr_geom _ _ _ _ _ L) as (? & ? & ?).
  apply (boot_ok _ [] []); try done; try apply W; [simpl; lia| |].
  - intros b Hb. by apply not_elem_of_nil in Hb.
  - exists hd, [], []. split_and!; try done.
    + by apply head_names_nil.
    + by left.
    + intros b [Hb _]. simpl. destruct Hg as [-> | ->]; [done|]. symmetry. apply (wf_clean _ W); [| |done].
      * rewrite (lr_pins _ _ _ _ _ L), Hn. apply not_elem_of_nil.
      * intros h. by rewrite He, lookup_empty.
Qed.

(** A restart after [k] of the writes of a commit. *)
Lemma restart_crashed s v o hd ds k :
  lrepb s v o → v_held v = ∅ → sb_log (v_disk v) st sz → ¬ in_log st sz 1 → 1 ∉ v_pins v →
  v_disk v !! Z.to_nat st = Some hd → get32 hd 0 = 0 →
  Forall2 (λ b d, v_cont v !! Z.to_nat b = Some d) (logged s) ds →
  restarts_to (awrites (v_disk v) (take k (commit_ws st hd (logged s) ds)))
    (if decide (k ≤ length (logged s))%nat then v_disk v else v_cont v).
Proof.
  intros L He Hsb H1 Hp Hhd Hz HF. destruct (lr_geom _ _ _ _ _ L) as (? & ? & ?).
  pose proof (brepr_wf _ _ (lr_repr _ _ _ _ _ L)) as W. pose proof (lrep_lists _ _ _ _ _ L) as LL.
  pose proof (lr_start _ _ _ _ _ L) as Est. pose proof (lr_n _ _ _ _ _ L) as Hn.
  assert (Hl : length (logged s) = length ds) by (by eapply Forall2_length).
  pose proof (ll_n _ _ _ LL) as En. rewrite En in Hn.
  assert (Hhl : length hd = Z.to_nat BSIZE).
  { pose proof (wf_disk _ W) as HW. rewrite Forall_lookup in HW. eauto. }
  assert (Hhome : ∀ b, b ∈ logged s → 0 ≤ b < Z.of_nat (length (v_disk v)) ∧ ¬ in_log st sz b).
  { intros b Hb. split; [apply (ll_home _ _ _ LL b Hb)|].
    by apply (lr_home _ _ _ _ _ L), (lr_pins _ _ _ _ _ L). }
  apply (boot_ok _ (logged s) ds); try done; rewrite ?length_awrites; try done; try lia.
  - apply Forall_awrites; [apply W|]. apply Forall_take, commit_ws_whole; [done|apply LL|].
    apply Forall_lookup. intros i d Hd. destruct (Forall2_lookup_r _ _ _ _ _ HF Hd) as (b & _ & Hb).
    pose proof (wf_cont _ W) as HW. rewrite Forall_lookup in HW. eauto.
  - by eapply sb_log_awrites.
  - apply crash_any; try done; try lia; try apply L; try apply LL.
    + intros b Hb. destruct (Hhome b Hb) as [? Hnl]. unfold in_log in Hnl. split; [done|lia].
    + intros b Hb Hnb. apply (wf_clean _ W); [by rewrite (lr_pins _ _ _ _ _ L)| |done].
      intros h. by rewrite He, lookup_empty.
Qed.

(** C1: a commit is atomic with respect to power failures.  From a log between
    operations with no buffer held, [commit] returns; call [ws] the block
    writes it makes.  If the power fails after any number [k] of them, the
    kernel started on that disk boots, recovers the log and leaves every block
    outside the log with its contents from before the transaction when the
    header had not been written ([k] at most the number of logged blocks), and
    with all the contents of the transaction otherwise. *)
Theorem commit_crash_safe s v o :
  lrepb s v o → v_held v = ∅ → sb_log (v_disk v) st sz → ¬ in_log st sz 1 → 1 ∉ v_pins v →
  ∃ s' ws, commitb s = Ok tt s' ∧ hist (dk s') = hist (dk s) ++ ws ∧
    memdisk (dk s') = awrites (memdisk (dk s)) ws ∧
    ∀ k, restarts_to (awrites (memdisk (dk s)) (take k ws))
           (if decide (k ≤ length (logged s))%nat then memdisk (dk s) else v_cont v).
Proof.
  intros L He Hsb H1 Hp. destruct (lr_head _ _ _ _ _ L) as (hd & Hhd & Hz).
  destruct (lrep_contents _ _ _ _ _ L) as (ds & HF). pose proof (lrep_lists _ _ _ _ _ L) as LL.
  pose proof (brepr_wf _ _ (lr_repr _ _ _ _ _ L)) as W. pose proof (lr_repr _ _ _ _ _ L) as R.
  rewrite (br_disk _ _ _ R : memdisk (dk s) = v_disk v), (br_hist _ _ _ R : hist (dk s) = v_hist v).
  assert (Hl : length (logged s) = length ds) by (by eapply Forall2_length).
  destruct (decide (logged s = [])) as [Hn|Hn].
  - exists s, []. rewrite (commit_nil _ _ _ _ _ L Hn), app_nil_r. simpl.
    rewrite (br_disk _ _ _ R : memdisk (dk s) = v_disk v), (br_hist _ _ _ R : hist (dk s) = v_hist v).
    split_and!; try done. intros k. rewrite take_nil. eapply restart_idle; try done.
    destruct (decide _); [by left|by right].
  - destruct (commit_ok _ _ _ _ _ hd ds L He Hn Hhd HF) as (x & E & R').
    exists (set_lh (mklh 0 (lh_block (lg_lh (lg s)))) (set_dk x s)), (commit_ws st hd (logged s) ds).
    destruct (vwrites_fields v (commit_ws st hd (logged s) ds)) as (_ & Ed & _ & _ & Eh).
    cbn [dk set_lh set_lg set_dk].
    rewrite (br_disk _ _ _ R' : memdisk x = v_disk _), (br_hist _ _ _ R' : hist x = v_hist _), Ed, Eh.
    split_and!; try done. intros k. by eapply restart_crashed.
Qed.
End crash.

(** ** A small disk with a transaction of one block *)

Definition blank : list Z := replicate (Z.to_nat BSIZE) 0.
(** Boot block, superblock (log of two blocks at block 2), the log, and block 4. *)
Definition disk5 : list (list Z) :=
  [blank; put32 (put32 blank 12 2) 16 2; blank; blank; blank].

Lemma disk5_boots me : restarts_to me 2 2 disk5 disk5.
Proof.
  apply (boot_ok me 2 2 disk5 [] []); try (unfold LOGSIZE, MAXOPBLOCKS; simpl; lia); try done.
  - by repeat constructor.
  - eexists. split; [reflexivity|]. by vm_compute.
  - intros b Hb. by apply not_elem_of_nil in Hb.
  - exists blank, [], []. split_and!; try done; by left.
Qed.

Lemma disk5_transaction me :
  ∃ s v, @lrep bstate (bio_ops me) (bio_spec me) 2 2 s v 1 ∧ v_held v = ∅ ∧
    sb_log (v_disk v) 2 2 ∧ v_pins v = {[4]} ∧ v_cont v !! 4%nat = Some (put32 blank 0 7).
Proof.
  destruct (disk5_boots me) as (s0 & v0 & _ & L0 & Hc & He & Hp & Hd).
  pose proof (conj L0 Hc : @ltrepr bstate (bio_ops me) (bio_spec me) 2 2 s0 v0 0) as T0.
  assert (Hdisk : ∀ b, 0 ≤ b → ¬ in_log 2 2 b → v_disk v0 !! Z.to_nat b = disk5 !! Z.to_nat b).
  { intros b Hb Hnl. rewrite <- (proj1 (Hd b Hb Hnl)).
    by rewrite (br_disk _ _ _ (lr_repr _ _ _ _ _ L0) : memdisk (dk s0) = v_disk v0). }
  assert (H4 : v_disk v0 !! Z.to_nat 4 = Some blank) by (rewrite Hdisk; unfold in_log; (done || lia)).
  destruct (tx_begin_op_ok 2 2 _ _ _ T0) as (s1 & _ & T1).
  { rewrite Hp, size_empty. unfold LOGSIZE, MAXOPBLOCKS. lia. }
  destruct (tx_bread_ok 2 2 _ _ _ 4 T1) as (h & s2 & _ & Hh & T2).
  { apply lookup_lt_Some in H4. unfold in_disk. lia. }
  { unfold in_log. lia. }
  { intros. by rewrite He, lookup_empty. }
  { right. unfold has_room. rewrite He, Hp, size_empty, map_size_empty. unfold NBUF, MAXOPBLOCKS. lia. }
  destruct (tx_set_ok 2 2 _ _ _ h 4 (put32 blank 0 7) T2) as (s3 & _ & T3); [apply view_held_hold|done|].
  destruct (tx_log_write_ok 2 2 _ _ _ h 4 T3) as (s4 & _ & T4); [apply view_held_hold|lia| |].
  { simpl. rewrite Hp, size_empty. unfold LOGSIZE, MAXOPBLOCKS. lia. }
  destruct (tx_brelse_ok 2 2 _ _ _ h 4 T4) as (s5 & _ & T5); [apply view_held_hold|left; set_solver|].
  exists s5. eexists. split; [apply T5|]. simpl. rewrite He, Hp. split_and!.
  - by rewrite insert_empty, delete_singleton_eq.
  - exists (put32 (put32 blank 12 2) 16 2). split; [|by vm_compute].
    change 1%nat with (Z.to_nat 1). rewrite Hdisk; unfold in_log; (done || lia).
  - set_solver.
  - apply list_lookup_insert_eq. apply lookup_lt_Some in H4.
    rewrite (wf_len _ (ltrepr_wf _ _ _ _ _ T0)). lia.
Qed.

Lemma commit_crash_safe_witness :
  ∃ s v, @lrep bstate (bio_ops 1) (bio_spec 1) 2 2 s v 1 ∧ v_pins v = {[4]} ∧
  ∃ s' ws, @commit bstate (bio_ops 1) s = Ok tt s' ∧ hist (dk s') = hist (dk s) ++ ws ∧
    memdisk (dk s') = awrites (memdisk (dk s)) ws ∧
    ∀ k, restarts_to 1 2 2 (awrites (memdisk (dk s)) (take k ws))
           (if decide (k ≤ length (logged s))%nat then memdisk (dk s) else v_cont v).
Proof.
  destruct (disk5_transaction 1) as (s & v & L & He & Hsb & Hp & _).
  exists s, v. split; [exact L|]. split; [exact Hp|].
  apply (commit_crash_safe 1 2 2 s v 1 L He Hsb).
  - unfold in_log. lia.
  - rewrite Hp. set_solver.
Defined.
