(* ===== verification/Fs.v ===== *)
(** * The file system: fs.c

    [fsstate] is the superblock and the inode cache of fs.c together with the
    transaction layer below it (any [TxOps]).  A pointer to an inode is its
    index in [icache.inode]; a null pointer is [None].  The process that runs
    the code has pid [me] and current directory [cwd]; the device switch
    [devsw] is a parameter, since the table is filled by the drivers.
    Each function of fs.c is a definition of the same name. *)

From S2P Require Import Prelude Params Strings BlockDev Sleeplock Tx.

Record inode : Type := mkinode {
  i_dev : Z;
  i_inum : Z;
  i_ref : Z;
  i_lock : sleeplock;
  i_valid : Z;
  i_type : Z;
  i_major : Z;
  i_minor : Z;
  i_nlink : Z;
  i_size : Z;
  i_addrs : list Z }.

Definition inode0 : inode :=
  mkinode 0 0 0 (mksl false 0 0 []) 0 0 0 0 0 0 (replicate (Z.to_nat (NDIRECT + 1)) 0).

Definition set_iref (r : Z) (i : inode) : inode :=
  mkinode (i_dev i) (i_inum i) r (i_lock i) (i_valid i) (i_type i) (i_major i) (i_minor i)
          (i_nlink i) (i_size i) (i_addrs i).
Definition set_ilock (l : sleeplock) (i : inode) : inode :=
  mkinode (i_dev i) (i_inum i) (i_ref i) l (i_valid i) (i_type i) (i_major i) (i_minor i)
          (i_nlink i) (i_size i) (i_addrs i).
Definition set_ivalid (x : Z) (i : inode) : inode :=
  mkinode (i_dev i) (i_inum i) (i_ref i) (i_lock i) x (i_type i) (i_major i) (i_minor i)
          (i_nlink i) (i_size i) (i_addrs i).
Definition set_itype (t : Z) (i : inode) : inode :=
  mkinode (i_dev i) (i_inum i) (i_ref i) (i_lock i) (i_valid i) t (i_major i) (i_minor i)
          (i_nlink i) (i_size i) (i_addrs i).
Definition set_idevno (ma mi : Z) (i : inode) : inode :=
  mkinode (i_dev i) (i_inum i) (i_ref i) (i_lock i) (i_valid i) (i_type i) ma mi
          (i_nlink i) (i_size i) (i_addrs i).
Definition set_inlink (n : Z) (i : inode) : inode :=
  mkinode (i_dev i) (i_inum i) (i_ref i) (i_lock i) (i_valid i) (i_type i) (i_major i) (i_minor i)
          n (i_size i) (i_addrs i).
Definition set_isize (n : Z) (i : inode) : inode :=
  mkinode (i_dev i) (i_inum i) (i_ref i) (i_lock i) (i_valid i) (i_type i) (i_major i) (i_minor i)
          (i_nlink i) n (i_addrs i).
Definition set_iaddrs (a : list Z) (i : inode) : inode :=
  mkinode (i_dev i) (i_inum i) (i_ref i) (i_lock i) (i_valid i) (i_type i) (i_major i) (i_minor i)
          (i_nlink i) (i_size i) a.

(** ** struct dinode as bytes

    type, major, minor and nlink (shorts) at 0, 2, 4 and 6, size at 8, the
    NDIRECT+1 addresses from 12. *)

Definition d_off (inum : Z) : nat := Z.to_nat (inum mod IPB * DINODESZ).
Definition d_type (d : list Z) (o : nat) : Z := s16 (get16 d o).

Definition get_addrs (d : list Z) (o : nat) : list Z :=
  (λ k, get32 d (o + 12 + 4 * k)) <$> seq 0 (Z.to_nat (NDIRECT + 1)).

Fixpoint put_addrs (d : list Z) (o : nat) (a : list Z) : list Z :=
  match a with
  | [] => d
  | x :: a' => put_addrs (put32 d o x) (o + 4) a'
  end.

Definition dinode_put (d : list Z) (o : nat) (i : inode) : list Z :=
  let d := put16 d o (i_type i) in
  let d := put16 d (o + 2) (i_major i) in
  let d := put16 d (o + 4) (i_minor i) in
  let d := put16 d (o + 6) (i_nlink i) in
  let d := put32 d (o + 8) (i_size i) in
  put_addrs d (o + 12) (i_addrs i).

Definition dinode_get (d : list Z) (o : nat) (i : inode) : inode :=
  mkinode (i_dev i) (i_inum i) (i_ref i) (i_lock i) (i_valid i)
          (d_type d o) (s16 (get16 d (o + 2))) (s16 (get16 d (o + 4))) (s16 (get16 d (o + 6)))
          (get32 d (o + 8)) (get_addrs d o).

(** ** Bits of the free map *)

Definition byte_at (d : list Z) (i : Z) : Z := default 0 (d !! Z.to_nat i).
Definition bit_mask (bi : Z) : Z := Z.shiftl 1 (bi mod 8).
Definition bit_set (d : list Z) (bi : Z) : list Z :=
  <[Z.to_nat (bi / 8) := Z.lor (byte_at d (bi / 8)) (bit_mask bi)]> d.
Definition bit_clear (d : list Z) (bi : Z) : list Z :=
  <[Z.to_nat (bi / 8) := Z.land (byte_at d (bi / 8)) (Z.lnot (bit_mask bi))]> d.
Definition bit_test (d : list Z) (bi : Z) : bool :=
  negb (Z.land (byte_at d (bi / 8)) (bit_mask bi) =? 0).

(** The channel of an inode's sleep lock. *)
Definition CHAN_INODE (ip : nat) : Z := 100 + Z.of_nat ip.

Section fs.
Context {T : Type} `{!TxOps T}.
Context (me : Z).

Record fsstate : Type := mkfs {
  fs_sb : superblock;
  ic_lock : bool;
  ic_inode : list inode;
  fs_tx : T }.

Definition set_sb (x : superblock) (s : fsstate) : fsstate := mkfs x (ic_lock s) (ic_inode s) (fs_tx s).
Definition set_ic_lock (b : bool) (s : fsstate) : fsstate := mkfs (fs_sb s) b (ic_inode s) (fs_tx s).
Definition set_inodes (l : list inode) (s : fsstate) : fsstate := mkfs (fs_sb s) (ic_lock s) l (fs_tx s).
Definition set_tx (t : T) (s : fsstate) : fsstate := mkfs (fs_sb s) (ic_lock s) (ic_inode s) t.

(** The device functions of the driver with a given major number. *)
Record device : Type := {
  dev_read : nat → Z → M fsstate (Z * list Z);
  dev_write : nat → list Z → Z → M fsstate Z }.
Context (devsw : Z → option device).

Definition on_tx {A} (m : M T A) : M fsstate A := zoom (λ s, Some (fs_tx s)) set_tx m.

Definition acquire_icache : M fsstate unit := acquire ic_lock set_ic_lock.
Definition release_icache : M fsstate unit := release ic_lock set_ic_lock.

(** Reading and writing the fields of an inode through a pointer. *)
Definition iptr (ip : nat) : M fsstate inode := s ← get; lift_opt (ic_inode s !! ip).
Definition iset (ip : nat) (f : inode → inode) : M fsstate unit :=
  i ← iptr ip; modify (λ s, set_inodes (<[ip := f i]> (ic_inode s)) s).

Definition on_ilock {A} (ip : nat) (m : M sleeplock A) : M fsstate A :=
  zoom (λ s, i_lock <$> ic_inode s !! ip)
       (λ l s, set_inodes (alter (set_ilock l) ip (ic_inode s)) s) m.

(** ** Blocks *)

Definition bzero (dev bno : Z) : M fsstate unit :=
  bp ← on_tx (tx_bread dev bno);
  on_tx (tx_set bp (replicate (Z.to_nat BSIZE) 0));;
  on_tx (tx_log_write bp);;
  on_tx (tx_brelse bp).

(** The bodies of the two loops of [balloc]: bit [bi] of the free map block
    in buffer [bp], whose first bit is for block [b], ... *)
Definition balloc_bit (dev : Z) (bp : nat) (b bi : Z) : M fsstate (option Z) :=
  d ← on_tx (tx_data bp);
  if negb (bit_test d bi) then
    on_tx (tx_set bp (bit_set d bi));;
    on_tx (tx_log_write bp);;
    on_tx (tx_brelse bp);;
    bzero dev (b + bi);;
    mret (Some (b + bi))
  else mret None.

(** ... and the [k]th block of the free map. *)
Definition balloc_block (dev : Z) (k : Z) : M fsstate (option Z) :=
  sb ← gets fs_sb;
  let b := k * BPB in
  bp ← on_tx (tx_bread dev (BBLOCK b sb));
  r ← for_range (Z.to_nat (Z.min BPB (sb_size sb - b))) 0 (balloc_bit dev bp b);
  match r with
  | Some x => mret (Some x)
  | None => on_tx (tx_brelse bp);; mret None
  end.

Definition balloc (dev : Z) : M fsstate Z :=
  sb ← gets fs_sb;
  r ← for_range (Z.to_nat ((sb_size sb + BPB - 1) / BPB)) 0 (balloc_block dev);
  match r with
  | Some b => mret b
  | None => panic "balloc: out of blocks"
  end.

Definition readsb_fs (dev : Z) : M fsstate unit :=
  sb ← on_tx (readsb tx_bread tx_data tx_brelse dev);
  modify (set_sb sb).

Definition bfree (dev b : Z) : M fsstate unit :=
  readsb_fs dev;;
  sb ← gets fs_sb;
  bp ← on_tx (tx_bread dev (BBLOCK b sb));
  let bi := b mod BPB in
  d ← on_tx (tx_data bp);
  if negb (bit_test d bi) then panic "freeing free block" else
  on_tx (tx_set bp (bit_clear d bi));;
  on_tx (tx_log_write bp);;
  on_tx (tx_brelse bp).

(** ** The inode cache *)

Definition iinit (dev : Z) : M fsstate unit :=
  modify (set_ic_lock false);;
  for_each (Z.to_nat NINODE) 0 (λ i, iset (Z.to_nat i) (set_ilock initsleeplock));;
  readsb_fs dev.

(** The scan of [iget]: the cached entry, or the first free one. *)
Fixpoint iget_scan (dev inum : Z) (l : list inode) (ip : nat) (empty : option nat) : nat + option nat :=
  match l with
  | [] => inr empty
  | i :: l' =>
      if (0 <? i_ref i) && (i_dev i =? dev) && (i_inum i =? inum) then inl ip
      else iget_scan dev inum l' (S ip)
             (match empty with
              | None => if i_ref i =? 0 then Some ip else None
              | Some e => Some e
              end)
  end.

Definition iget (dev inum : Z) : M fsstate nat :=
  acquire_icache;;
  s ← get;
  match iget_scan dev inum (ic_inode s) 0 None with
  | inl ip =>
      iset ip (λ i, set_iref (i_ref i + 1) i);;
      release_icache;;
      mret ip
  | inr None => panic "iget: no inodes"
  | inr (Some ip) =>
      iset ip (λ i, mkinode dev inum 1 (i_lock i) 0 (i_type i) (i_major i) (i_minor i)
                            (i_nlink i) (i_size i) (i_addrs i));;
      release_icache;;
      mret ip
  end.

Definition ialloc (dev type : Z) : M fsstate nat :=
  sb ← gets fs_sb;
  r ← for_range (Z.to_nat (sb_ninodes sb - 1)) 1 (λ inum,
    bp ← on_tx (tx_bread dev (IBLOCK inum sb));
    d ← on_tx (tx_data bp);
    if d_type d (d_off inum) =? 0 then
      let d := splice (d_off inum) (replicate (Z.to_nat DINODESZ) 0) d in
      on_tx (tx_set bp (put16 d (d_off inum) type));;
      on_tx (tx_log_write bp);;
      on_tx (tx_brelse bp);;
      ip ← iget dev inum;
      mret (Some ip)
    else on_tx (tx_brelse bp);; mret None);
  match r with
  | Some ip => mret ip
  | None => panic "ialloc: no inodes"
  end.

Definition iupdate (ip : nat) : M fsstate unit :=
  sb ← gets fs_sb;
  i ← iptr ip;
  bp ← on_tx (tx_bread (i_dev i) (IBLOCK (i_inum i) sb));
  d ← on_tx (tx_data bp);
  on_tx (tx_set bp (dinode_put d (d_off (i_inum i)) i));;
  on_tx (tx_log_write bp);;
  on_tx (tx_brelse bp).

Definition idup (ip : nat) : M fsstate nat :=
  acquire_icache;;
  iset ip (λ i, set_iref (i_ref i + 1) i);;
  release_icache;;
  mret ip.

Definition ilock (p : option nat) : M fsstate unit :=
  match p with
  | None => panic "ilock"
  | Some ip =>
      i ← iptr ip;
      if i_ref i <? 1 then panic "ilock" else
      on_ilock ip (acquiresleep me (CHAN_INODE ip));;
      i ← iptr ip;
      if i_valid i =? 0 then
        sb ← gets fs_sb;
        bp ← on_tx (tx_bread (i_dev i) (IBLOCK (i_inum i) sb));
        d ← on_tx (tx_data bp);
        iset ip (dinode_get d (d_off (i_inum i)));;
        on_tx (tx_brelse bp);;
        iset ip (set_ivalid 1);;
        i ← iptr ip;
        if i_type i =? 0 then panic "ilock: no type" else mret tt
      else mret tt
  end.

Definition iunlock (p : option nat) : M fsstate unit :=
  match p with
  | None => panic "iunlock"
  | Some ip =>
      h ← on_ilock ip (holdingsleep me);
      i ← iptr ip;
      if negb h || (i_ref i <? 1) then panic "iunlock" else
      on_ilock ip releasesleep
  end.

(** ** Inode content *)

Definition bmap (ip : nat) (bn : Z) : M fsstate Z :=
  i ← iptr ip;
  if bn <? NDIRECT then
    addr ← lift_opt (i_addrs i !! Z.to_nat bn);
    if addr =? 0 then
      addr ← balloc (i_dev i);
      iset ip (λ i, set_iaddrs (<[Z.to_nat bn := addr]> (i_addrs i)) i);;
      mret addr
    else mret addr
  else
    let bn := bn - NDIRECT in
    if bn <? NINDIRECT then
      addr ← lift_opt (i_addrs i !! Z.to_nat NDIRECT);
      addr ←
        (if addr =? 0 then
           addr ← balloc (i_dev i);
           iset ip (λ i, set_iaddrs (<[Z.to_nat NDIRECT := addr]> (i_addrs i)) i);;
           mret addr
         else mret addr);
      bp ← on_tx (tx_bread (i_dev i) addr);
      a ← on_tx (tx_data bp);
      let addr := get32 a (Z.to_nat (4 * bn)) in
      addr ←
        (if addr =? 0 then
           addr ← balloc (i_dev i);
           a ← on_tx (tx_data bp);
           on_tx (tx_set bp (put32 a (Z.to_nat (4 * bn)) addr));;
           on_tx (tx_log_write bp);;
           mret addr
         else mret addr);
      on_tx (tx_brelse bp);;
      mret addr
    else panic "bmap: out of range".

Definition itrunc (ip : nat) : M fsstate unit :=
  for_each (Z.to_nat NDIRECT) 0 (λ k,
    i ← iptr ip;
    a ← lift_opt (i_addrs i !! Z.to_nat k);
    if negb (a =? 0) then
      bfree (i_dev i) a;;
      iset ip (λ i, set_iaddrs (<[Z.to_nat k := 0]> (i_addrs i)) i)
    else mret tt);;
  i ← iptr ip;
  a ← lift_opt (i_addrs i !! Z.to_nat NDIRECT);
  (if negb (a =? 0) then
     bp ← on_tx (tx_bread (i_dev i) a);
     for_each (Z.to_nat NINDIRECT) 0 (λ j,
       d ← on_tx (tx_data bp);
       let b := get32 d (Z.to_nat (4 * j)) in
       if negb (b =? 0) then bfree (i_dev i) b else mret tt);;
     on_tx (tx_brelse bp);;
     bfree (i_dev i) a;;
     iset ip (λ i, set_iaddrs (<[Z.to_nat NDIRECT := 0]> (i_addrs i)) i)
   else mret tt);;
  iset ip (set_isize 0);;
  iupdate ip.

Definition iput (ip : nat) : M fsstate unit :=
  on_ilock ip (acquiresleep me (CHAN_INODE ip));;
  i ← iptr ip;
  (if negb (i_valid i =? 0) && (i_nlink i =? 0) then
     acquire_icache;;
     r ← (i ← iptr ip; mret (i_ref i));
     release_icache;;
     if r =? 1 then
       itrunc ip;;
       iset ip (set_itype 0);;
       iupdate ip;;
       iset ip (set_ivalid 0)
     else mret tt
   else mret tt);;
  on_ilock ip releasesleep;;
  acquire_icache;;
  iset ip (λ i, set_iref (i_ref i - 1) i);;
  release_icache.

Definition iunlockput (p : option nat) : M fsstate unit :=
  iunlock p;;
  match p with
  | Some ip => iput ip
  | None => undef
  end.

Definition stati (ip : nat) : M fsstate stat :=
  i ← iptr ip;
  mret (mkstat (i_type i) (i_dev i) (i_inum i) (i_nlink i) (i_size i)).

(** The loop of [readi]: [n] bytes are still wanted from [off]; the result is
    what has been copied to [dst].  Each round copies at least one byte, so
    [n] rounds are enough. *)
Fixpoint readi_loop (fuel : nat) (ip : nat) (off n : Z) : M fsstate (list Z) :=
  if n =? 0 then mret [] else
  match fuel with
  | O => no_fuel
  | S fuel' =>
      a ← bmap ip (off / BSIZE);
      i ← iptr ip;
      bp ← on_tx (tx_bread (i_dev i) a);
      let m := Z.min n (BSIZE - off mod BSIZE) in
      d ← on_tx (tx_data bp);
      on_tx (tx_brelse bp);;
      rest ← readi_loop fuel' ip (off + m) (n - m);
      mret (slice (Z.to_nat (off mod BSIZE)) (Z.to_nat m) d ++ rest)
  end.

(** [readi] returns its result and the bytes it stores at [dst]. *)
Definition readi (ip : nat) (off n : Z) : M fsstate (Z * list Z) :=
  i ← iptr ip;
  if i_type i =? T_DEV then
    if (i_major i <? 0) || (NDEV <=? i_major i) then mret (-1, []) else
    match devsw (i_major i) with
    | None => mret (-1, [])
    | Some dv => dev_read dv ip n
    end
  else
  if (i_size i <? off) || (u32 (off + n) <? off) then mret (-1, []) else
  let n := if i_size i <? off + n then i_size i - off else n in
  bs ← readi_loop (Z.to_nat n) ip off n;
  mret (n, bs).

(** The loop of [writei]: the bytes [src] go to [off]; the result is the
    offset after them. *)
Fixpoint writei_loop (fuel : nat) (ip : nat) (src : list Z) (off : Z) : M fsstate Z :=
  match src with
  | [] => mret off
  | _ :: _ =>
      match fuel with
      | O => no_fuel
      | S fuel' =>
          a ← bmap ip (off / BSIZE);
          i ← iptr ip;
          bp ← on_tx (tx_bread (i_dev i) a);
          let m := Z.to_nat (Z.min (Z.of_nat (length src)) (BSIZE - off mod BSIZE)) in
          d ← on_tx (tx_data bp);
          on_tx (tx_set bp (splice (Z.to_nat (off mod BSIZE)) (take m src) d));;
          on_tx (tx_log_write bp);;
          on_tx (tx_brelse bp);;
          writei_loop fuel' ip (drop m src) (off + Z.of_nat m)
      end
  end.

Definition writei (ip : nat) (src : list Z) (off n : Z) : M fsstate Z :=
  i ← iptr ip;
  if i_type i =? T_DEV then
    if (i_major i <? 0) || (NDEV <=? i_major i) then mret (-1) else
    match devsw (i_major i) with
    | None => mret (-1)
    | Some dv => dev_write dv ip src n
    end
  else
  if (i_size i <? off) || (u32 (off + n) <? off) then mret (-1) else
  if MAXFILE * BSIZE <? off + n then mret (-1) else
  if (length src <? Z.to_nat n)%nat then undef else
  off' ← writei_loop (Z.to_nat n) ip (take (Z.to_nat n) src) off;
  i ← iptr ip;
  (if (0 <? n) && (i_size i <? off') then
     iset ip (set_isize off');;
     iupdate ip
   else mret tt);;
  mret n.
End fs.

(** ** What the block functions do to the view *)

Definition blk (v : bview) (n : Z) : list Z := default [] (v_cont v !! Z.to_nat n).

(** Block [b] is in use according to the free map. *)
Definition used (sb : superblock) (v : bview) (b : Z) : bool :=
  bit_test (blk v (BBLOCK b sb)) (b mod BPB).

(** The caller holds no buffer of block [n]. *)
Definition not_held (v : bview) (n : Z) : Prop := ∀ h, v_held v !! h ≠ Some n.

(** [k] more blocks can be read at a time. *)
Definition room (k : nat) (v : bview) : Prop :=
  (size (v_held v) + size (v_pins v) + k ≤ Z.to_nat NBUF)%nat.

Section fs_blocks.
Context {T : Type} `{TxSpec T}.
Implicit Types (v : bview) (s : fsstate (T := T)) (d : list Z).

Lemma on_tx_ok {A} (m : M T A) s a t : m (fs_tx s) = Ok a t → on_tx m s = Ok a (set_tx t s).
Proof. intros E. by apply (zoom_ok (λ s, Some (fs_tx s))) with (fs_tx s). Qed.

Lemma set_tx_set_tx t t' s : set_tx t' (set_tx t s) = set_tx t' s.
Proof. done. Qed.

Lemma set_tx_id s : set_tx (fs_tx s) s = s.
Proof. by destruct s. Qed.

Lemma blk_lookup v n d : v_cont v !! Z.to_nat n = Some d → blk v n = d.
Proof. intros E. unfold blk. by rewrite E. Qed.

Lemma blk_length v n : view_wf v → in_disk v n → length (blk v n) = Z.to_nat BSIZE.
Proof. intros W Hn. destruct (wf_cont_lookup v n W Hn) as (d & Hd & Hl). by rewrite (blk_lookup _ _ _ Hd). Qed.

Lemma lookup_blk v n : view_wf v → in_disk v n → v_cont v !! Z.to_nat n = Some (blk v n).
Proof. intros W Hn. destruct (wf_cont_lookup v n W Hn) as (d & Hd & Hl). by rewrite (blk_lookup _ _ _ Hd). Qed.

(** Reading block [n] in, with its data at hand. *)
Lemma fs_bread s v o n :
  trepr (fs_tx s) v o → in_disk v n → tx_home n → not_held v n → room 1 v →
  ∃ h t, on_tx (tx_bread ROOTDEV n) s = Ok h (set_tx t s) ∧
    on_tx (tx_data h) (set_tx t s) = Ok (blk v n) (set_tx t s) ∧
    v_held v !! h = None ∧ trepr t (view_hold h n v) o.
Proof.
  intros R Hn Hh Hno Hr. destruct (tx_bread_spec _ _ _ n R Hn Hh Hno) as (h & t & E & Hf & R').
  { right. unfold has_room, room in *. lia. }
  exists h, t. split; [by apply on_tx_ok|]. split; [|done].
  destruct (tx_data_spec _ _ _ h n R') as (d & E2 & Hd); [apply view_held_hold|].
  rewrite (on_tx_ok _ _ _ _ (E2 : tx_data h (fs_tx (set_tx t s)) = _)). simpl in Hd.
  by rewrite (blk_lookup _ _ _ Hd).
Qed.

(** Releasing it unchanged. *)
Lemma fs_brelse s t v o h n :
  trepr t (view_hold h n v) o → view_wf v → in_disk v n → v_held v !! h = None → not_held v n →
  ∃ t', on_tx (tx_brelse h) (set_tx t s) = Ok tt (set_tx t' s) ∧ trepr t' v o.
Proof.
  intros R W Hn Hh Hno. unfold in_disk in Hn.
  destruct (tx_release t v o h n R W) as (t' & E & R'); try done; [lia|].
  exists t'. split; [|done]. by rewrite (on_tx_ok _ (set_tx t s) _ _ E).
Qed.

(** Storing new data, logging and releasing. *)
Lemma fs_update s t v o h n d :
  trepr t (view_hold h n v) o → v_held v !! h = None → length d = Z.to_nat BSIZE →
  1 ≤ o → (size (v_pins v) < tx_max)%nat →
  ∃ t1 t2 t3, on_tx (tx_set h d) (set_tx t s) = Ok tt (set_tx t1 s) ∧
    on_tx (tx_log_write h) (set_tx t1 s) = Ok tt (set_tx t2 s) ∧
    on_tx (tx_brelse h) (set_tx t2 s) = Ok tt (set_tx t3 s) ∧ trepr t3 (view_upd n d v) o.
Proof.
  intros R Hh Hd Ho Hsz. destruct (tx_update t v o h n d R Hh Hd Ho Hsz) as (t3 & E & R').
  apply bind_inv_ok in E as ([] & t1 & E1 & E). apply bind_inv_ok in E as ([] & t2 & E2 & E3).
  exists t1, t2, t3. split_and!; [| | |done].
  - by rewrite (on_tx_ok _ (set_tx t s) _ _ E1).
  - by rewrite (on_tx_ok _ (set_tx t1 s) _ _ E2).
  - by rewrite (on_tx_ok _ (set_tx t2 s) _ _ E3).
Qed.

Lemma blk_upd_eq n d v : in_disk v n → view_wf v → blk (view_upd n d v) n = d.
Proof.
  intros Hn W. unfold blk. simpl. rewrite list_lookup_insert_eq; [done|].
  rewrite (wf_len _ W). unfold in_disk in Hn. lia.
Qed.

Lemma blk_upd_ne n m d v : 0 ≤ n → 0 ≤ m → n ≠ m → blk (view_upd n d v) m = blk v m.
Proof. intros. unfold blk. simpl. rewrite list_lookup_insert_ne; [done|lia]. Qed.

Lemma in_disk_upd n d v m : in_disk (view_upd n d v) m ↔ in_disk v m.
Proof. done. Qed.

Lemma size_pins_upd n d v : (size (v_pins (view_upd n d v)) ≤ S (size (v_pins v)))%nat.
Proof.
  simpl. rewrite (size_union_alt {[n]} (v_pins v)), size_singleton.
  pose proof (subseteq_size (v_pins v ∖ {[n]}) (v_pins v) ltac:(set_solver)). lia.
Qed.

(** ** bzero *)

Lemma bzero_ok s v o n :
  trepr (fs_tx s) v o → in_disk v n → tx_home n → not_held v n → room 1 v →
  1 ≤ o → (size (v_pins v) < tx_max)%nat →
  ∃ t, bzero ROOTDEV n s = Ok tt (set_tx t s) ∧
       trepr t (view_upd n (replicate (Z.to_nat BSIZE) 0) v) o.
Proof.
  intros R Hn Hh Hno Hr Ho Hsz. destruct (fs_bread s v o n R Hn Hh Hno Hr) as (h & t & E & _ & Hf & R1).
  destruct (fs_update s t v o h n (replicate (Z.to_nat BSIZE) 0) R1 Hf) as (t1 & t2 & t3 & E1 & E2 & E3 & R2);
    try done.
  exists t3. split; [|done]. unfold bzero. mstep E. mstep E1. mstep E2. exact E3.
Qed.
End fs_blocks.

(** ** Bits of the free map *)

Lemma bit_test_spec d bi : bit_test d bi = Z.testbit (byte_at d (bi / 8)) (bi mod 8).
Proof.
  unfold bit_test, bit_mask. set (x := byte_at d (bi / 8)). set (k := bi mod 8).
  assert (Hk : 0 ≤ k) by (unfold k; apply Z.mod_pos_bound; lia).
  rewrite Z.shiftl_1_l. destruct (Z.testbit x k) eqn:E.
  - destruct (Z.eqb_spec (Z.land x (2 ^ k)) 0) as [H0|]; [|done].
    assert (Z.testbit (Z.land x (2 ^ k)) k = true) as Ht.
    { rewrite Z.land_spec, E, Z.pow2_bits_true; done. }
    by rewrite H0, Z.testbit_0_l in Ht.
  - destruct (Z.eqb_spec (Z.land x (2 ^ k)) 0) as [|Hn]; [done|]. exfalso. apply Hn.
    apply Z.bits_inj'. intros n Hn'. rewrite Z.land_spec, Z.testbit_0_l.
    destruct (decide (n = k)) as [->|Hne]; [by rewrite E|].
    by rewrite Z.pow2_bits_false, andb_false_r by done.
Qed.

Lemma byte_at_insert d i j x : 0 ≤ i → 0 ≤ j → (Z.to_nat i < length d)%nat →
  byte_at (<[Z.to_nat i := x]> d) j = if decide (i = j) then x else byte_at d j.
Proof.
  intros Hi Hj Hl. unfold byte_at. destruct (decide (i = j)) as [->|Hne].
  - by rewrite list_lookup_insert_eq.
  - by rewrite list_lookup_insert_ne by lia.
Qed.

Lemma bit_mask_testbit bi k : 0 ≤ k → Z.testbit (bit_mask bi) k = bool_decide (k = bi mod 8).
Proof.
  intros Hk. unfold bit_mask. pose proof (Z.mod_pos_bound bi 8 ltac:(lia)).
  rewrite Z.shiftl_1_l. destruct (bool_decide_reflect (k = bi mod 8)) as [->|Hne].
  - by rewrite Z.pow2_bits_true by lia.
  - by rewrite Z.pow2_bits_false by done.
Qed.

Lemma bit_test_set d bi bj : 0 ≤ bi → 0 ≤ bj → (Z.to_nat (bi / 8) < length d)%nat →
  bit_test (bit_set d bi) bj = bool_decide (bj = bi) || bit_test d bj.
Proof.
  intros Hi Hj Hl. rewrite !bit_test_spec. unfold bit_set.
  rewrite byte_at_insert by lia.
  destruct (decide (bi / 8 = bj / 8)) as [He|Hne].
  - rewrite Z.lor_spec, bit_mask_testbit by lia. rewrite He.
    destruct (bool_decide_reflect (bj mod 8 = bi mod 8)), (bool_decide_reflect (bj = bi));
      try lia; by destruct (Z.testbit (byte_at d (bj / 8)) (bj mod 8)).
  - by rewrite bool_decide_false by (intros ->; lia).
Qed.

Lemma bit_test_clear d bi bj : 0 ≤ bi → 0 ≤ bj → (Z.to_nat (bi / 8) < length d)%nat →
  bit_test (bit_clear d bi) bj = negb (bool_decide (bj = bi)) && bit_test d bj.
Proof.
  intros Hi Hj Hl. rewrite !bit_test_spec. unfold bit_clear.
  rewrite byte_at_insert by lia.
  destruct (decide (bi / 8 = bj / 8)) as [He|Hne].
  - rewrite Z.land_spec, Z.lnot_spec, bit_mask_testbit by lia. rewrite He.
    destruct (bool_decide_reflect (bj mod 8 = bi mod 8)), (bool_decide_reflect (bj = bi));
      try lia; by destruct (Z.testbit (byte_at d (bj / 8)) (bj mod 8)).
  - by rewrite bool_decide_false by (intros ->; lia).
Qed.

Lemma length_bit_set d bi : length (bit_set d bi) = length d.
Proof. apply length_insert. Qed.
Lemma length_bit_clear d bi : length (bit_clear d bi) = length d.
Proof. apply length_insert. Qed.

(** ** The layout of the disk

    Boot block, superblock, log, inode blocks, free map, data blocks. *)

Definition datastart (sb : superblock) : Z := sb_bmapstart sb + sb_size sb / BPB + 1.

Record geom {T} `{TxSpec T} (sb : superblock) (len : Z) : Prop := {
  g_size : 0 < sb_size sb ≤ len ∧ len < 4294967296;
  g_istart : 2 ≤ sb_inodestart sb ≤ sb_bmapstart sb;
  g_inodes : 0 ≤ sb_ninodes sb ∧
    ∀ i, 0 ≤ i < sb_ninodes sb → IBLOCK i sb < sb_bmapstart sb;
  g_data : datastart sb ≤ sb_size sb;
  g_sb_home : tx_home 1;
  g_home : ∀ n, sb_inodestart sb ≤ n < sb_size sb → tx_home n }.

(** Everything before the data blocks is marked as in use. *)
Definition meta_used (sb : superblock) (v : bview) : Prop :=
  ∀ b, 0 ≤ b < datastart sb → used sb v b = true.

(** The caller holds only data blocks that are in use. *)
Definition held_used (sb : superblock) (v : bview) : Prop :=
  ∀ h n, v_held v !! h = Some n → datastart sb ≤ n ∧ used sb v n = true.

Section layout.
Context {T : Type} `{TxSpec T}.
Implicit Types (v : bview) (s : fsstate (T := T)) (sb : superblock).

Lemma BBLOCK_range sb len b : geom sb len → 0 ≤ b < sb_size sb →
  sb_bmapstart sb ≤ BBLOCK b sb < datastart sb.
Proof.
  intros G Hb. unfold BBLOCK, datastart. pose proof (g_istart _ _ G).
  assert (0 ≤ b / BPB ≤ sb_size sb / BPB).
  { split; [apply Z.div_pos; unfold BPB, BSIZE; lia|apply Z.div_le_mono; unfold BPB, BSIZE; lia]. }
  lia.
Qed.

Lemma geom_in_disk sb v n : geom sb (Z.of_nat (length (v_disk v))) → 0 ≤ n < sb_size sb → in_disk v n.
Proof. intros G Hn. pose proof (g_size _ _ G). unfold in_disk. lia. Qed.

Lemma BBLOCK_ok sb v b : geom sb (Z.of_nat (length (v_disk v))) → 0 ≤ b < sb_size sb →
  in_disk v (BBLOCK b sb) ∧ tx_home (BBLOCK b sb) ∧ 0 ≤ BBLOCK b sb < datastart sb.
Proof.
  intros G Hb. pose proof (BBLOCK_range _ _ _ G Hb). pose proof (g_data _ _ G). pose proof (g_istart _ _ G).
  split_and!; [eapply geom_in_disk; [done|lia]| |lia|lia]. eapply (g_home _ _ G); lia.
Qed.

Lemma IBLOCK_ok sb v i : geom sb (Z.of_nat (length (v_disk v))) → 0 ≤ i < sb_ninodes sb →
  in_disk v (IBLOCK i sb) ∧ tx_home (IBLOCK i sb) ∧ 0 ≤ IBLOCK i sb < datastart sb.
Proof.
  intros G Hi. destruct (g_inodes _ _ G) as [_ Hb]. specialize (Hb i Hi).
  pose proof (g_data _ _ G). pose proof (g_istart _ _ G).
  assert (sb_inodestart sb ≤ IBLOCK i sb).
  { unfold IBLOCK. pose proof (Z.div_pos i IPB ltac:(lia) ltac:(done)). lia. }
  assert (0 ≤ sb_size sb / BPB).
  { pose proof (g_size _ _ G). apply Z.div_pos; unfold BPB, BSIZE; lia. }
  unfold datastart in *. split_and!; try lia; [eapply geom_in_disk; [done|lia]|].
  eapply (g_home _ _ G); lia.
Qed.

(** A block of metadata is not held. *)
Lemma meta_not_held sb v n : held_used sb v → n < datastart sb → not_held v n.
Proof. intros Hh Hn h E. destruct (Hh h n E). lia. Qed.

Lemma free_not_held sb v n : held_used sb v → used sb v n = false → not_held v n.
Proof. intros Hh Hn h E. destruct (Hh h n E). congruence. Qed.

(** The view after block [b] has been allocated, or freed. *)
Definition alloc_view sb b v : bview :=
  view_upd b (replicate (Z.to_nat BSIZE) 0)
    (view_upd (BBLOCK b sb) (bit_set (blk v (BBLOCK b sb)) (b mod BPB)) v).
Definition free_view sb b v : bview :=
  view_upd (BBLOCK b sb) (bit_clear (blk v (BBLOCK b sb)) (b mod BPB)) v.

Lemma bit_index b : 0 ≤ b mod BPB ∧ (Z.to_nat (b mod BPB / 8) < Z.to_nat BSIZE)%nat.
Proof. unfold BPB, BSIZE. lia. Qed.

Lemma BBLOCK_eq sb b b' : BBLOCK b sb = BBLOCK b' sb → b mod BPB = b' mod BPB → b = b'.
Proof. unfold BBLOCK, BPB, BSIZE. lia. Qed.

(** Changing bit [b] of the free map changes [used] at [b] only. *)
Lemma used_set_bit sb v b b' :
  view_wf v → geom sb (Z.of_nat (length (v_disk v))) → 0 ≤ b < sb_size sb → 0 ≤ b' < sb_size sb →
  used sb (view_upd (BBLOCK b sb) (bit_set (blk v (BBLOCK b sb)) (b mod BPB)) v) b'
  = bool_decide (b' = b) || used sb v b'.
Proof.
  intros W G Hb Hb'. destruct (BBLOCK_ok _ _ _ G Hb) as (Hd & _ & Hp).
  destruct (BBLOCK_ok _ _ _ G Hb') as (_ & _ & Hp'). unfold used.
  destruct (decide (BBLOCK b sb = BBLOCK b' sb)) as [He|Hne].
  - rewrite <- He, blk_upd_eq by done. destruct (bit_index b), (bit_index b').
    rewrite bit_test_set; [|done|done|by rewrite blk_length by done].
    f_equal. apply bool_decide_ext. split; [|by intros ->]. intros Hm. by eapply BBLOCK_eq.
  - rewrite blk_upd_ne by lia. rewrite bool_decide_false; [done|]. intros ->. done.
Qed.

Lemma used_clear_bit sb v b b' :
  view_wf v → geom sb (Z.of_nat (length (v_disk v))) → 0 ≤ b < sb_size sb → 0 ≤ b' < sb_size sb →
  used sb (free_view sb b v) b' = negb (bool_decide (b' = b)) && used sb v b'.
Proof.
  intros W G Hb Hb'. destruct (BBLOCK_ok _ _ _ G Hb) as (Hd & _ & Hp).
  destruct (BBLOCK_ok _ _ _ G Hb') as (_ & _ & Hp'). unfold used, free_view.
  destruct (decide (BBLOCK b sb = BBLOCK b' sb)) as [He|Hne].
  - rewrite <- He, blk_upd_eq by done. destruct (bit_index b), (bit_index b').
    rewrite bit_test_clear; [|done|done|by rewrite blk_length by done].
    do 2 f_equal. apply bool_decide_ext. split; [|by intros ->]. intros Hm. by eapply BBLOCK_eq.
  - rewrite blk_upd_ne by lia. rewrite bool_decide_false; [done|]. intros ->. done.
Qed.

(** An update outside the free map does not change [used]. *)
Lemma used_upd_other sb v n d b :
  geom sb (Z.of_nat (length (v_disk v))) → 0 ≤ b < sb_size sb →
  0 ≤ n → ¬ (sb_bmapstart sb ≤ n < datastart sb) →
  used sb (view_upd n d v) b = used sb v b.
Proof.
  intros G Hb Hn Hout. unfold used. pose proof (BBLOCK_range _ _ _ G Hb). pose proof (g_istart _ _ G).
  rewrite blk_upd_ne by lia. done.
Qed.

Lemma used_alloc sb v b b' :
  view_wf v → geom sb (Z.of_nat (length (v_disk v))) →
  datastart sb ≤ b < sb_size sb → 0 ≤ b' < sb_size sb →
  used sb (alloc_view sb b v) b' = bool_decide (b' = b) || used sb v b'.
Proof.
  intros W G Hb Hb'. pose proof (g_istart _ _ G). unfold alloc_view.
  assert (0 ≤ b) by (destruct (BBLOCK_ok _ _ _ G Hb') as (_ & _ & ?); lia).
  rewrite used_upd_other; try done; [|lia]. apply used_set_bit; try done; lia.
Qed.

(** A data block other than [b] keeps its contents when [b] is allocated; [b] is zeroed. *)
Lemma blk_alloc_ne sb v b n :
  geom sb (Z.of_nat (length (v_disk v))) → 0 ≤ b < sb_size sb → 0 ≤ n →
  n ≠ b → n ≠ BBLOCK b sb → blk (alloc_view sb b v) n = blk v n.
Proof.
  intros G Hb Hn H1 H2. destruct (BBLOCK_ok _ _ _ G Hb) as (_ & _ & ?). unfold alloc_view.
  rewrite !blk_upd_ne by lia. done.
Qed.
End layout.

Section block_alloc.
Context {T : Type} `{TxSpec T}.
Implicit Types (v : bview) (s : fsstate (T := T)) (sb : superblock).

(** What a call that logs up to [k] blocks needs of the transaction. *)
Definition budget (k : nat) v (o : Z) : Prop :=
  1 ≤ o ∧ (size (v_pins v) + k ≤ tx_max)%nat ∧ room (S k) v.

Lemma budget_upd k n d v o : budget (S k) v o → budget k (view_upd n d v) o.
Proof.
  intros (Ho & Hp & Hr). pose proof (size_pins_upd n d v).
  unfold budget, room in *. simpl in *. lia.
Qed.

Lemma budget_log k v o : budget (S k) v o → 1 ≤ o ∧ (size (v_pins v) < tx_max)%nat ∧ room 1 v.
Proof. unfold budget, room. lia. Qed.

Lemma budget_weaken k k' v o : (k' ≤ k)%nat → budget k v o → budget k' v o.
Proof. unfold budget, room. lia. Qed.

Lemma block_split k bi : 0 ≤ bi < BPB → (k * BPB + bi) / BPB = k ∧ (k * BPB + bi) mod BPB = bi.
Proof. unfold BPB, BSIZE. lia. Qed.

(** The blocks from [lo] up to [hi] are all in use. *)
Definition all_used sb v (lo hi : Z) : Prop :=
  ∀ b, lo ≤ b < hi → b < sb_size sb → used sb v b = true.

(** What the allocator needs: a consistent free map and space in the log. *)
Record alloc_ok s v o : Prop := {
  ao_geom : geom (fs_sb s) (Z.of_nat (length (v_disk v)));
  ao_meta : meta_used (fs_sb s) v;
  ao_held : held_used (fs_sb s) v;
  ao_budget : budget 2 v o }.

(** Block [b] was the first free block, and the code started in [s] has
    allocated it. *)
Definition allocated s v o (b : Z) (s' : fsstate (T := T)) : Prop :=
  datastart (fs_sb s) ≤ b < sb_size (fs_sb s) ∧ used (fs_sb s) v b = false ∧
  all_used (fs_sb s) v 0 b ∧
  ∃ t, s' = set_tx t s ∧ trepr t (alloc_view (fs_sb s) b v) o.

(** A free bit: the block is marked, logged and zeroed. *)
Lemma balloc_bit_free s t v o h b0 bi :
  let sb := fs_sb s in
  alloc_ok s v o → trepr t (view_hold h (BBLOCK (b0 + bi) sb) v) o → view_wf v →
  v_held v !! h = None → (b0 + bi) mod BPB = bi → 0 ≤ b0 + bi < sb_size sb →
  used sb v (b0 + bi) = false →
  ∃ t', balloc_bit ROOTDEV h b0 bi (set_tx t s) = Ok (Some (b0 + bi)) (set_tx t' s) ∧
        trepr t' (alloc_view sb (b0 + bi) v) o.
Proof.
  intros sb [G Hm Hh Hbud] R W Hf Emod Hb Hfree. fold sb in G, Hm, Hh. set (b := b0 + bi) in *.
  destruct (budget_log 1 v o Hbud) as (Ho & Hp & Hr).
  destruct (BBLOCK_ok sb v b G Hb) as (Hin & Hhome & Hrange).
  destruct (tx_data_spec _ _ _ h (BBLOCK b sb) R) as (d & E1 & Hd); [apply view_held_hold|]. simpl in Hd.
  apply blk_lookup in Hd. unfold balloc_bit.
  mstep (on_tx_ok _ (set_tx t s) _ _ E1). rewrite <- Hd, set_tx_set_tx.
  unfold used in Hfree. rewrite Emod in Hfree. rewrite Hfree. simpl.
  destruct (fs_update s t v o h _ (bit_set (blk v (BBLOCK b sb)) bi) R Hf)
    as (t1 & t2 & t3 & E2 & E3 & E4 & R3); try done.
  { rewrite length_bit_set. by apply blk_length. }
  mstep E2. mstep E3. mstep E4. set (v1 := view_upd _ _ v) in R3.
  assert (Hdata : datastart sb ≤ b).
  { destruct (decide (datastart sb ≤ b)); [done|]. unfold meta_used in Hm.
    specialize (Hm b ltac:(lia)). unfold used in Hm. rewrite Emod in Hm. congruence. }
  destruct (bzero_ok (set_tx t3 s) v1 o b) as (t4 & E5 & R4); try done.
  - unfold v1. apply in_disk_upd. by eapply geom_in_disk.
  - apply (g_home _ _ G). pose proof (g_istart _ _ G). unfold datastart in Hdata.
    pose proof (Z.div_pos (sb_size sb) BPB ltac:(lia) ltac:(done)). lia.
  - eapply (free_not_held sb v); [done|]. unfold used. by rewrite Emod.
  - by apply (budget_log 0 v1 o), budget_upd.
  - by apply (budget_log 0 v1 o), budget_upd.
  - fold b. mstep E5. exists t4. split; [done|]. unfold alloc_view. by rewrite Emod.
Qed.

(** One block of the free map. *)
Lemma balloc_block_ok s t v o k :
  let sb := fs_sb s in
  alloc_ok s v o → trepr t v o → 0 ≤ k → k * BPB < sb_size sb →
  all_used sb v 0 (k * BPB) →
  (∃ s', balloc_block ROOTDEV k (set_tx t s) = Ok None s' ∧
     (∃ t', s' = set_tx t' s ∧ trepr t' v o) ∧ all_used sb v 0 ((k + 1) * BPB)) ∨
  (∃ b s', balloc_block ROOTDEV k (set_tx t s) = Ok (Some b) s' ∧ allocated s v o b s').
Proof.
  intros sb A R Hk Hb0 Hall. pose proof A as [G Hm Hh Hbud]. fold sb in G, Hm, Hh. pose proof (trepr_wf _ _ _ R) as W.
  set (b0 := k * BPB) in *. destruct (budget_log 1 v o Hbud) as (Ho & Hp & Hr).
  assert (Hb00 : 0 ≤ b0 < sb_size sb) by (unfold b0, BPB, BSIZE in *; lia).
  destruct (BBLOCK_ok sb v b0 G Hb00) as (Hin & Hhome & Hrange).
  pose proof (meta_not_held sb v _ Hh (proj2 Hrange)) as Hno.
  destruct (fs_bread (set_tx t s) v o (BBLOCK b0 sb) R Hin Hhome Hno Hr) as (h & t1 & E1 & E2 & Hf & R1).
  rewrite !set_tx_set_tx in E1, E2. unfold balloc_block. rewrite bind_gets. fold sb b0.
  change (fs_sb (set_tx t s)) with sb. mstep E1.
  assert (Hu : ∀ bi, 0 ≤ bi < BPB → (b0 + bi) mod BPB = bi ∧ BBLOCK (b0 + bi) sb = BBLOCK b0 sb).
  { intros bi Hbi. destruct (block_split k bi Hbi) as [E3 E4].
    destruct (block_split k 0 ltac:(unfold BPB, BSIZE; lia)) as [E5 _].
    unfold BBLOCK, b0. rewrite Z.add_0_r in E5. by rewrite E3, E4, E5. }
  destruct (for_range_inv
    (λ bi s', s' = set_tx t1 s ∧ all_used sb v 0 (b0 + bi)) (allocated s v o)
    (balloc_bit ROOTDEV h b0) (Z.to_nat (Z.min BPB (sb_size sb - b0))) 0 (set_tx t1 s))
    as (r & s' & E & Hres).
  - split; [done|]. by rewrite Z.add_0_r.
  - intros bi s1 Hbi [-> Hpre]. assert (0 ≤ bi < BPB ∧ b0 + bi < sb_size sb) as [Hbi1 Hbi2] by lia.
    destruct (Hu bi Hbi1) as [Em Eb]. destruct (used sb v (b0 + bi)) eqn:Eu.
    + left. exists (set_tx t1 s). unfold balloc_bit. mstep E2. unfold used in Eu. rewrite Em, Eb in Eu.
      rewrite Eu. split; [done|]. split; [done|]. intros b Hb Hbs.
      destruct (decide (b = b0 + bi)) as [->|]; [|apply Hpre; lia]. unfold used. by rewrite Em, Eb.
    + right. exists (b0 + bi). destruct (balloc_bit_free s t1 v o h b0 bi A) as (t' & E' & R'); try done.
      * fold sb. by rewrite Eb.
      * fold sb. lia.
      * eexists. split; [exact E'|]. split; [|by split_and!; eauto]. split; [|done].
        destruct (decide (datastart sb ≤ b0 + bi)); [done|]. rewrite Hm in Eu; [done|lia].
  - mstep E. destruct r as [b|]; [right; by exists b, s'|]. destruct Hres as [-> Hall']. left.
    destruct (fs_brelse s t1 v o h _ R1 W Hin Hf Hno) as (t2 & E3 & R2). mstep E3.
    eexists. split; [done|]. split; [by exists t2|]. intros b Hb Hbs. apply Hall'; [|done].
    unfold b0 in *. lia.
Qed.

(** [balloc] returns the first free block, marked and zeroed. *)
Lemma balloc_ok s v o :
  alloc_ok s v o → trepr (fs_tx s) v o →
  (∃ b, 0 ≤ b < sb_size (fs_sb s) ∧ used (fs_sb s) v b = false) →
  ∃ b s', balloc ROOTDEV s = Ok b s' ∧ allocated s v o b s'.
Proof.
  intros A R (b0 & Hb0 & Hfree). set (sb := fs_sb s) in *.
  destruct (for_range_inv
    (λ k s', (∃ t', s' = set_tx t' s ∧ trepr t' v o) ∧ all_used sb v 0 (k * BPB)) (allocated s v o)
    (balloc_block ROOTDEV) (Z.to_nat ((sb_size sb + BPB - 1) / BPB)) 0 s) as (r & s' & E & Hres).
  - split; [exists (fs_tx s); by rewrite set_tx_id|]. intros b Hb. lia.
  - intros k s1 Hk [(t & -> & Rt) Hall]. apply balloc_block_ok; try done; [lia|].
    fold sb. unfold BPB, BSIZE in *. lia.
  - unfold balloc. rewrite bind_gets. fold sb. mstep E. destruct r as [b|]; [by exists b, s'|].
    destruct Hres as [_ Hall]. rewrite Hall in Hfree; [done| |lia]. unfold BPB, BSIZE in *. lia.
Qed.

(** With no free block it panics. *)
Lemma balloc_full s v o :
  alloc_ok s v o → trepr (fs_tx s) v o → all_used (fs_sb s) v 0 (sb_size (fs_sb s)) →
  balloc ROOTDEV s = Panic "balloc: out of blocks".
Proof.
  intros A R Hfull. set (sb := fs_sb s) in *.
  destruct (for_range_inv
    (λ k s', (∃ t', s' = set_tx t' s ∧ trepr t' v o) ∧ all_used sb v 0 (k * BPB)) (allocated s v o)
    (balloc_block ROOTDEV) (Z.to_nat ((sb_size sb + BPB - 1) / BPB)) 0 s) as (r & s' & E & Hres).
  - split; [exists (fs_tx s); by rewrite set_tx_id|]. intros b Hb. lia.
  - intros k s1 Hk [(t & -> & Rt) Hall]. apply balloc_block_ok; try done; [lia|].
    fold sb. unfold BPB, BSIZE in *. lia.
  - unfold balloc. rewrite bind_gets. fold sb. mstep E. destruct r as [b|]; [|done].
    destruct Hres as (Hb & Hf & _). fold sb in Hb, Hf. rewrite Hfull in Hf; [done| |lia].
    pose proof (g_istart _ _ (ao_geom _ _ _ A)). pose proof (g_size _ _ (ao_geom _ _ _ A)) as Hs.
    fold sb in H1, Hs. unfold datastart in Hb. pose proof (Z.div_pos (sb_size sb) BPB ltac:(lia) ltac:(done)). lia.
Qed.

(** ** bfree *)

Lemma readsb_fs_ok s v o :
  trepr (fs_tx s) v o → in_disk v 1 → tx_home 1 → not_held v 1 → room 1 v →
  ∃ t, readsb_fs ROOTDEV s = Ok tt (set_sb (sb_of_bytes (blk v 1)) (set_tx t s)) ∧ trepr t v o.
Proof.
  intros R Hin Hh Hno Hr. destruct (tx_bread_spec _ _ _ 1 R Hin Hh Hno) as (h & t & E1 & Hf & R1).
  { right. unfold has_room, room in *. lia. }
  destruct (tx_data_spec _ _ _ h 1 R1) as (d & E2 & Hd); [apply view_held_hold|]. simpl in Hd.
  destruct (tx_release t v o h 1 R1 (trepr_wf _ _ _ R)) as (t2 & E3 & R2); try done.
  exists t2. split; [|done]. unfold readsb_fs.
  assert (E : readsb tx_bread tx_data tx_brelse ROOTDEV (fs_tx s) = Ok (sb_of_bytes d) t2).
  { unfold readsb. mstep E1. mstep E2. mstep E3. done. }
  mstep (on_tx_ok _ _ _ _ E). by rewrite (blk_lookup v 1 d Hd).
Qed.

Lemma bfree_reads s v o b :
  geom (fs_sb s) (Z.of_nat (length (v_disk v))) → held_used (fs_sb s) v → room 1 v →
  sb_of_bytes (blk v 1) = fs_sb s → trepr (fs_tx s) v o → 0 ≤ b < sb_size (fs_sb s) →
  ∃ t h t1, readsb_fs ROOTDEV s = Ok tt (set_tx t s) ∧
    on_tx (tx_bread ROOTDEV (BBLOCK b (fs_sb s))) (set_tx t s) = Ok h (set_tx t1 s) ∧
    on_tx (tx_data h) (set_tx t1 s) = Ok (blk v (BBLOCK b (fs_sb s))) (set_tx t1 s) ∧
    v_held v !! h = None ∧ trepr t1 (view_hold h (BBLOCK b (fs_sb s)) v) o.
Proof.
  intros G Hh Hr Esb R Hb. pose proof (g_size _ _ G). pose proof (g_istart _ _ G).
  assert (0 ≤ sb_size (fs_sb s) / BPB) by (apply Z.div_pos; [lia|done]).
  assert (1 < datastart (fs_sb s)) by (unfold datastart; lia). pose proof (g_data _ _ G).
  destruct (readsb_fs_ok s v o R) as (t & E & R1).
  - eapply geom_in_disk; [done|lia].
  - apply G.
  - by eapply meta_not_held.
  - done.
  - destruct (BBLOCK_ok _ _ _ G Hb) as (Hin & Hhome & Hrange).
    destruct (fs_bread (set_tx t s) v o _ R1 Hin Hhome (meta_not_held _ _ _ Hh (proj2 Hrange)) Hr)
      as (h & t1 & E1 & E2 & Hf & R2).
    exists t, h, t1. rewrite Esb in E. by split_and!.
Qed.

(** Freeing a block in use clears its bit; freeing a free block panics. *)
Lemma bfree_ok s v o b :
  geom (fs_sb s) (Z.of_nat (length (v_disk v))) → held_used (fs_sb s) v → budget 1 v o →
  sb_of_bytes (blk v 1) = fs_sb s → trepr (fs_tx s) v o → 0 ≤ b < sb_size (fs_sb s) →
  used (fs_sb s) v b = true →
  ∃ t, bfree ROOTDEV b s = Ok tt (set_tx t s) ∧ trepr t (free_view (fs_sb s) b v) o.
Proof.
  intros G Hh Hbud Esb R Hb Hu. destruct (budget_log 0 v o Hbud) as (Ho & Hp & Hr).
  destruct (bfree_reads s v o b G Hh Hr Esb R Hb) as (t & h & t1 & E1 & E2 & E3 & Hf & R1).
  destruct (BBLOCK_ok _ _ _ G Hb) as (Hin & _). unfold bfree. mstep E1. rewrite bind_gets.
  change (fs_sb (set_tx t s)) with (fs_sb s). mstep E2. mstep E3. unfold used in Hu. rewrite Hu. simpl.
  destruct (fs_update s t1 v o h _ (bit_clear (blk v (BBLOCK b (fs_sb s))) (b mod BPB)) R1 Hf)
    as (t2 & t3 & t4 & E4 & E5 & E6 & R4); try done.
  { rewrite length_bit_clear. apply blk_length; [|done]. by apply (trepr_wf _ _ _ R). }
  mstep E4. mstep E5. by exists t4.
Qed.

Lemma bfree_free s v o b :
  geom (fs_sb s) (Z.of_nat (length (v_disk v))) → held_used (fs_sb s) v → room 1 v →
  sb_of_bytes (blk v 1) = fs_sb s → trepr (fs_tx s) v o → 0 ≤ b < sb_size (fs_sb s) →
  used (fs_sb s) v b = false → bfree ROOTDEV b s = Panic "freeing free block".
Proof.
  intros G Hh Hr Esb R Hb Hu.
  destruct (bfree_reads s v o b G Hh Hr Esb R Hb) as (t & h & t1 & E1 & E2 & E3 & Hf & R1).
  unfold bfree. mstep E1. rewrite bind_gets. change (fs_sb (set_tx t s)) with (fs_sb s).
  mstep E2. mstep E3. unfold used in Hu. by rewrite Hu.
Qed.
End block_alloc.
