(* ===== verification/FsFile.v ===== *)
(** * The contents of files: bmap, readi and writei of fs.c

    [faddr] and [fbyte] say which block holds a byte of a file and what that
    byte is, from the inode and the view of the blocks.  The theorems say that
    [readi] returns those bytes, that [writei] changes the ones it is asked to
    change and no other byte of this or of any other file, allocating blocks
    as needed, and that the blocks of a file stay distinct and in use. *)

From S2P Require Import Prelude Params Strings BlockDev Sleeplock Tx Fs.

(** ** The blocks of a file *)

Definition iaddr (i : inode) (k : Z) : Z := default 0 (i_addrs i !! Z.to_nat k).

(** The address of block [bn] of inode [i], 0 when there is none. *)
Definition faddr (v : bview) (i : inode) (bn : Z) : Z :=
  if bn <? NDIRECT then iaddr i bn
  else if iaddr i NDIRECT =? 0 then 0
  else get32 (blk v (iaddr i NDIRECT)) (Z.to_nat (4 * (bn - NDIRECT))).

Definition in_file (bn : Z) : Prop := 0 ≤ bn < MAXFILE.

(** A data block that is in use. *)
Definition good (sb : superblock) (v : bview) (a : Z) : Prop :=
  datastart sb ≤ a < sb_size sb ∧ used sb v a = true.

(** The blocks of the inode are data blocks in use, no two of them the same. *)
Record ifile (sb : superblock) (v : bview) (i : inode) : Prop := {
  if_dev : i_dev i = ROOTDEV;
  if_len : length (i_addrs i) = Z.to_nat (NDIRECT + 1);
  if_ind : iaddr i NDIRECT = 0 ∨ good sb v (iaddr i NDIRECT);
  if_map : ∀ bn, in_file bn → faddr v i bn = 0 ∨ good sb v (faddr v i bn);
  if_inj : ∀ bn bn', in_file bn → in_file bn' → bn ≠ bn' → faddr v i bn ≠ 0 →
    faddr v i bn ≠ faddr v i bn';
  if_sep : ∀ bn, in_file bn → faddr v i bn ≠ 0 → faddr v i bn ≠ iaddr i NDIRECT }.

(** Byte [k] of the file. *)
Definition fbyte (v : bview) (i : inode) (k : Z) : Z :=
  byte_at (blk v (faddr v i (k / BSIZE))) (k mod BSIZE).
Definition fbytes (v : bview) (i : inode) (off n : Z) : list Z := fbyte v i <$> seqZ off n.

(** Every block up to the size of the file has been allocated. *)
Definition no_holes (v : bview) (i : inode) : Prop :=
  ∀ bn, 0 ≤ bn → bn * BSIZE < i_size i → faddr v i bn ≠ 0.

(** The state with inode [ip] replaced. *)
Definition upd_ino {T} (ip : nat) (i : inode) (s : fsstate (T := T)) : fsstate :=
  set_inodes (<[ip := i]> (ic_inode s)) s.

Section bmap.
Context {T : Type} `{TxSpec T}.
Implicit Types (v : bview) (s : fsstate (T := T)) (sb : superblock) (i : inode).

Lemma iptr_ok s ip i : ic_inode s !! ip = Some i → iptr ip s = Ok i s.
Proof. intros E. unfold iptr, get, mbind, M_bind. by rewrite E. Qed.

Lemma iset_ok s ip i f : ic_inode s !! ip = Some i → iset ip f s = Ok tt (upd_ino ip (f i) s).
Proof. intros E. unfold iset. by mstep (iptr_ok _ _ _ E). Qed.

Lemma upd_ino_lookup s ip i i' : ic_inode s !! ip = Some i → ic_inode (upd_ino ip i' s) !! ip = Some i'.
Proof. intros E. simpl. apply list_lookup_insert_eq. by eapply lookup_lt_Some. Qed.

Lemma datastart_pos sb len : geom sb len → 2 < datastart sb.
Proof.
  intros G. pose proof (g_istart _ _ G). pose proof (g_size _ _ G).
  pose proof (Z.div_pos (sb_size sb) BPB ltac:(lia) ltac:(done)). unfold datastart. lia.
Qed.

Lemma good_disk sb v a : geom sb (Z.of_nat (length (v_disk v))) → good sb v a →
  in_disk v a ∧ tx_home a ∧ 0 < a.
Proof.
  intros G [Ha _]. pose proof (datastart_pos _ _ G). pose proof (g_istart _ _ G).
  split_and!; [eapply geom_in_disk; [done|lia]| |lia]. apply (g_home _ _ G).
  unfold datastart in Ha. pose proof (g_size _ _ G).
  pose proof (Z.div_pos (sb_size sb) BPB ltac:(lia) ltac:(done)). lia.
Qed.

(** The address of an indirect block entry. *)
Lemma faddr_indirect v i bn : NDIRECT ≤ bn → iaddr i NDIRECT ≠ 0 →
  faddr v i bn = get32 (blk v (iaddr i NDIRECT)) (Z.to_nat (4 * (bn - NDIRECT))).
Proof.
  intros Hbn Hn. unfold faddr. destruct (Z.ltb_spec bn NDIRECT); [lia|].
  by destruct (Z.eqb_spec (iaddr i NDIRECT) 0).
Qed.

(** Reading the address of a block that is there: nothing changes. *)
Lemma bmap_lookup s v o ip i bn :
  let sb := fs_sb s in
  trepr (fs_tx s) v o → geom sb (Z.of_nat (length (v_disk v))) → ic_inode s !! ip = Some i →
  ifile sb v i → in_file bn → faddr v i bn ≠ 0 → v_held v = ∅ → room 1 v →
  ∃ t, bmap ip bn s = Ok (faddr v i bn) (set_tx t s) ∧ trepr t v o.
Proof.
  intros sb R G Hi F Hbn Hne He Hr. unfold bmap. mstep (iptr_ok _ _ _ Hi).
  pose proof (if_len _ _ _ F) as Hlen. unfold in_file, MAXFILE in Hbn.
  destruct (Z.ltb_spec bn NDIRECT) as [Hd|Hd].
  - unfold faddr in *. rewrite (proj2 (Z.ltb_lt _ _) Hd) in *. unfold iaddr in *.
    destruct (lookup_lt_is_Some_2 (i_addrs i) (Z.to_nat bn)) as [a Ha].
    { rewrite Hlen. unfold NDIRECT in *. lia. }
    rewrite Ha in *. simpl in *. rewrite bind_ret_l, (proj2 (Z.eqb_neq _ _) Hne).
    exists (fs_tx s). by rewrite set_tx_id.
  - destruct (Z.ltb_spec (bn - NDIRECT) NINDIRECT); [|lia].
    assert (Hind : iaddr i NDIRECT ≠ 0).
    { intros E0. apply Hne. unfold faddr. rewrite (proj2 (Z.ltb_ge _ _) Hd), E0. done. }
    rewrite faddr_indirect in * by done. destruct (if_ind _ _ _ F) as [?|Hg]; [done|].
    unfold iaddr in Hind. destruct (lookup_lt_is_Some_2 (i_addrs i) (Z.to_nat NDIRECT)) as [a Ha].
    { rewrite Hlen. unfold NDIRECT. lia. }
    unfold iaddr in Hg, Hne |- *. rewrite Ha in *. simpl in *. rewrite bind_ret_l, (proj2 (Z.eqb_neq _ _) Hind).
    rewrite bind_ret_l, (if_dev _ _ _ F). destruct (good_disk _ _ _ G Hg) as (Hin & Hh & Hpos).
    assert (Hno : not_held v a) by (intros h; by rewrite He, lookup_empty).
    destruct (fs_bread s v o a R Hin Hh Hno Hr) as (h & t & E1 & E2 & Hf & R1).
    mstep E1. mstep E2. rewrite (proj2 (Z.eqb_neq _ _) Hne), bind_ret_l.
    destruct (fs_brelse s t v o h a R1 (trepr_wf _ _ _ R) Hin Hf Hno) as (t2 & E3 & R2).
    mstep E3. by exists t2.
Qed.
End bmap.

(** ** readi *)

Section readi.
Context {T : Type} `{TxSpec T}.
Context (devsw : Z → option (device (T := T))).
Implicit Types (v : bview) (s : fsstate (T := T)) (sb : superblock) (i : inode).

Lemma fbytes_app v i off m n : 0 ≤ m ≤ n →
  fbytes v i off n = fbytes v i off m ++ fbytes v i (off + m) (n - m).
Proof.
  intros Hm. unfold fbytes. rewrite <- fmap_app, <- seqZ_app by lia. do 2 f_equal. lia.
Qed.

Lemma fbytes_block v i off m :
  0 ≤ off → 0 ≤ m → off mod BSIZE + m ≤ BSIZE →
  length (blk v (faddr v i (off / BSIZE))) = Z.to_nat BSIZE →
  slice (Z.to_nat (off mod BSIZE)) (Z.to_nat m) (blk v (faddr v i (off / BSIZE))) = fbytes v i off m.
Proof.
  intros Ho Hm Hb Hl. set (d := blk v (faddr v i (off / BSIZE))) in *.
  assert (0 ≤ off mod BSIZE) by (apply Z.mod_pos_bound; done).
  assert (Hls : length (slice (Z.to_nat (off mod BSIZE)) (Z.to_nat m) d) = Z.to_nat m).
  { apply length_slice. lia. }
  apply list_eq. intros k. unfold fbytes. rewrite list_lookup_fmap.
  destruct (decide (k < Z.to_nat m)%nat) as [Hk|Hk].
  - rewrite lookup_slice by done. rewrite lookup_seqZ_lt by lia. simpl. unfold fbyte.
    assert (E1 : (off + Z.of_nat k) / BSIZE = off / BSIZE) by (unfold BSIZE in *; lia).
    assert (E2 : (off + Z.of_nat k) mod BSIZE = off mod BSIZE + Z.of_nat k) by (unfold BSIZE in *; lia).
    rewrite E1, E2. fold d. unfold byte_at.
    replace (Z.to_nat (off mod BSIZE + Z.of_nat k)) with (Z.to_nat (off mod BSIZE) + k)%nat by lia.
    destruct (lookup_lt_is_Some_2 d (Z.to_nat (off mod BSIZE) + k)) as [x Hx]; [lia|]. by rewrite Hx.
  - rewrite lookup_ge_None_2 by lia. by rewrite lookup_seqZ_ge by lia.
Qed.

(** One block of a file, read in and released. *)
Lemma read_block_of_file s v o a :
  let sb := fs_sb s in
  trepr (fs_tx s) v o → geom sb (Z.of_nat (length (v_disk v))) → good sb v a → v_held v = ∅ → room 1 v →
  ∃ h t t2, on_tx (tx_bread ROOTDEV a) s = Ok h (set_tx t s) ∧
    on_tx (tx_data h) (set_tx t s) = Ok (blk v a) (set_tx t s) ∧
    on_tx (tx_brelse h) (set_tx t s) = Ok tt (set_tx t2 s) ∧ trepr t2 v o ∧
    length (blk v a) = Z.to_nat BSIZE.
Proof.
  intros sb R G Hg He Hr. destruct (good_disk _ _ _ G Hg) as (Hin & Hh & _).
  assert (Hno : not_held v a) by (intros h; by rewrite He, lookup_empty).
  destruct (fs_bread s v o a R Hin Hh Hno Hr) as (h & t & E1 & E2 & Hf & R1).
  destruct (fs_brelse s t v o h a R1 (trepr_wf _ _ _ R) Hin Hf Hno) as (t2 & E3 & R2).
  exists h, t, t2. split_and!; try done. apply blk_length; [|done]. by apply (trepr_wf _ _ _ R).
Qed.

Lemma readi_loop_ok fuel s v o ip i off n :
  let sb := fs_sb s in
  trepr (fs_tx s) v o → geom sb (Z.of_nat (length (v_disk v))) → ic_inode s !! ip = Some i →
  ifile sb v i → no_holes v i → v_held v = ∅ → room 1 v →
  0 ≤ off → 0 ≤ n ≤ Z.of_nat fuel → off + n ≤ i_size i ≤ MAXFILE * BSIZE →
  ∃ t, readi_loop fuel ip off n s = Ok (fbytes v i off n) (set_tx t s) ∧ trepr t v o.
Proof.
  revert s off n. induction fuel as [|fuel IH]; intros s off n sb R G Hi F Hnh He Hr Ho Hn Hsz.
  - assert (n = 0) as -> by lia. simpl. exists (fs_tx s). by rewrite set_tx_id.
  - simpl. destruct (Z.eqb_spec n 0) as [->|Hn0]; [exists (fs_tx s); by rewrite set_tx_id|].
    assert (Hbn : in_file (off / BSIZE)) by (unfold in_file, BSIZE in *; lia).
    assert (Ha : faddr v i (off / BSIZE) ≠ 0) by (apply Hnh; unfold BSIZE in *; lia).
    destruct (bmap_lookup s v o ip i _ R G Hi F Hbn Ha He Hr) as (t & E1 & R1). mstep E1.
    mstep (iptr_ok (set_tx t s) ip i Hi). rewrite (if_dev _ _ _ F).
    destruct (if_map _ _ _ F _ Hbn) as [?|Hg]; [done|].
    destruct (read_block_of_file (set_tx t s) v o _ R1 G Hg He Hr) as (h & t1 & t2 & E2 & E3 & E4 & R2 & Hl).
    mstep E2. mstep E3. mstep E4. rewrite set_tx_set_tx.
    set (m := Z.min n (BSIZE - off mod BSIZE)).
    assert (Hm : 0 < m ≤ n ∧ off mod BSIZE + m ≤ BSIZE).
    { unfold m. pose proof (Z.mod_pos_bound off BSIZE ltac:(done)). lia. }
    destruct (IH (set_tx t2 s) (off + m) (n - m)) as (t3 & E5 & R3); try done; try lia.
    mstep E5. exists t3. split; [|done]. unfold mret, M_ret. rewrite set_tx_set_tx. f_equal.
    rewrite (fbytes_block v i off m) by (done || lia). symmetry. apply fbytes_app. lia.
Qed.

(** [readi] on a file returns the bytes of the file from [off], up to its end. *)
Lemma readi_ok s v o ip i off n :
  let sb := fs_sb s in
  trepr (fs_tx s) v o → geom sb (Z.of_nat (length (v_disk v))) → ic_inode s !! ip = Some i →
  ifile sb v i → no_holes v i → v_held v = ∅ → room 1 v → i_type i ≠ T_DEV →
  0 ≤ off ≤ i_size i → 0 ≤ n → off + n < 4294967296 → i_size i ≤ MAXFILE * BSIZE →
  ∃ t, readi devsw ip off n s
       = Ok (Z.min n (i_size i - off), fbytes v i off (Z.min n (i_size i - off))) (set_tx t s) ∧
       trepr t v o.
Proof.
  intros sb R G Hi F Hnh He Hr Ht Ho Hn Hov Hsz. unfold readi. mstep (iptr_ok _ _ _ Hi).
  rewrite (proj2 (Z.eqb_neq _ _) Ht).
  destruct (Z.ltb_spec (i_size i) off); [lia|]. rewrite u32_small by lia.
  destruct (Z.ltb_spec (off + n) off); [lia|]. simpl.
  set (n' := if i_size i <? off + n then i_size i - off else n).
  assert (n' = Z.min n (i_size i - off)) as En.
  { unfold n'. destruct (Z.ltb_spec (i_size i) (off + n)); lia. }
  destruct (readi_loop_ok (Z.to_nat n') s v o ip i off n') as (t & E & R'); try done; try lia.
  mstep E. exists t. by rewrite En.
Qed.

(** It fails when [off] is past the end or the range wraps around. *)
Lemma readi_bad s ip i off n :
  ic_inode s !! ip = Some i → i_type i ≠ T_DEV →
  i_size i < off ∨ u32 (off + n) < off → readi devsw ip off n s = Ok (-1, []) s.
Proof.
  intros Hi Ht Hbad. unfold readi. mstep (iptr_ok _ _ _ Hi). rewrite (proj2 (Z.eqb_neq _ _) Ht).
  destruct (Z.ltb_spec (i_size i) off); [done|]. by destruct (Z.ltb_spec (u32 (off + n)) off); [|lia].
Qed.
End readi.

(** ** Allocation seen from the files *)

Definition nfree (sb : superblock) (v : bview) : nat :=
  length (filter (λ b, used sb v b = false) (seqZ 0 (sb_size sb))).

Lemma filter_one_less {A} `{EqDecision A} (P Q : A → Prop) `{!∀ x, Decision (P x), !∀ x, Decision (Q x)} l b :
  NoDup l → b ∈ l → P b → ¬ Q b → (∀ x, x ∈ l → x ≠ b → P x ↔ Q x) →
  length (filter P l) = S (length (filter Q l)).
Proof.
  intros Hnd Hin HP HQ Hpq.
  assert (Hsame : ∀ l' : list A, b ∉ l' → (∀ x, x ∈ l' → x ∈ l) → filter P l' = filter Q l').
  { intros l' Hb Hs. induction l' as [|x l' IH]; [done|]. rewrite not_elem_of_cons in Hb.
    destruct Hb as [Hbx Hb]. rewrite !filter_cons. rewrite IH; [|done|intros y Hy; apply Hs; set_solver].
    destruct (Hpq x) as [Hp Hq]; [apply Hs; set_solver|done|].
    destruct (decide (P x)), (decide (Q x)); tauto || done. }
  apply list_elem_of_split in Hin as (l1 & l2 & ->). apply NoDup_app in Hnd as (Hn1 & Hn2 & Hn3).
  apply NoDup_cons in Hn3 as [Hn3 _]. rewrite !filter_app, !filter_cons, !length_app.
  rewrite (decide_True (P := P b)) by done. rewrite (decide_False (P := Q b)) by done. simpl.
  rewrite (Hsame l1), (Hsame l2); [lia|done|set_solver| |set_solver].
  intros Hb. apply (Hn2 b Hb). set_solver.
Qed.

Lemma nfree_ext sb v v' :
  (∀ b, 0 ≤ b < sb_size sb → used sb v b = used sb v' b) → nfree sb v = nfree sb v'.
Proof.
  intros Hu. unfold nfree. assert (Hs : ∀ b, b ∈ seqZ 0 (sb_size sb) → used sb v b = used sb v' b).
  { intros b Hb. apply elem_of_seqZ in Hb. apply Hu. lia. }
  clear Hu. induction (seqZ 0 (sb_size sb)) as [|x l IH]; [done|]. rewrite !filter_cons.
  rewrite (Hs x) by set_solver. destruct (decide _); simpl; rewrite IH; set_solver.
Qed.

Section alloc_files.
Context {T : Type} `{TxSpec T}.
Implicit Types (v : bview) (s : fsstate (T := T)) (sb : superblock) (i : inode).

Lemma nfree_pos sb v : (0 < nfree sb v)%nat → ∃ b, 0 ≤ b < sb_size sb ∧ used sb v b = false.
Proof.
  unfold nfree. intros Hp. destruct (filter _ _) as [|b l] eqn:E; [simpl in Hp; lia|].
  assert (Hb : b ∈ filter (λ b, used sb v b = false) (seqZ 0 (sb_size sb))) by (rewrite E; set_solver).
  apply list_elem_of_filter in Hb as [Hu Hb]. apply elem_of_seqZ in Hb. exists b. split; [lia|done].
Qed.

(** A block that is free, as [balloc] finds it. *)
Definition fresh sb v b : Prop := datastart sb ≤ b < sb_size sb ∧ used sb v b = false.

Definition zeros : list Z := replicate (Z.to_nat BSIZE) 0.

Section fresh.
Context (sb : superblock) (v : bview) (b : Z).
Context (W : view_wf v) (G : geom sb (Z.of_nat (length (v_disk v)))) (Hb : fresh sb v b).
Let v' := alloc_view sb b v.

Lemma fresh_range : 0 ≤ b < sb_size sb.
Proof. destruct Hb as [? _]. pose proof (datastart_pos _ _ G). lia. Qed.

Lemma alloc_used b' : 0 ≤ b' < sb_size sb → used sb v' b' = bool_decide (b' = b) || used sb v b'.
Proof. intros. apply used_alloc; try done. apply Hb. Qed.

Lemma alloc_good a : good sb v a → good sb v' a ∧ a ≠ b ∧ blk v' a = blk v a.
Proof.
  intros [Ha Hu]. pose proof (datastart_pos _ _ G). pose proof fresh_range as Hr.
  destruct (BBLOCK_ok _ _ _ G Hr) as (_ & _ & Hbb).
  assert (a ≠ b) as Hne by (intros ->; destruct Hb; congruence). split_and!; [|done|].
  - split; [done|]. rewrite alloc_used by lia. by rewrite Hu, orb_true_r.
  - apply blk_alloc_ne; try done; lia.
Qed.

Lemma alloc_new : good sb v' b ∧ blk v' b = zeros ∧ ¬ good sb v b.
Proof.
  pose proof fresh_range as Hr. split_and!.
  - split; [apply Hb|]. rewrite alloc_used by done. by rewrite bool_decide_true.
  - unfold v', alloc_view. unfold blk. simpl. rewrite list_lookup_insert_eq; [done|].
    rewrite length_insert, (wf_len _ W). pose proof (g_size _ _ G). lia.
  - intros [_ Hu]. destruct Hb; congruence.
Qed.

Lemma alloc_meta : meta_used sb v → meta_used sb v'.
Proof.
  intros Hm a Ha. pose proof (g_data _ _ G). rewrite alloc_used by lia.
  by rewrite (Hm a Ha), orb_true_r.
Qed.

Lemma alloc_blk_meta n : 0 ≤ n < sb_bmapstart sb → blk v' n = blk v n.
Proof.
  intros Hn. pose proof fresh_range as Hr. pose proof (BBLOCK_range _ _ _ G Hr).
  apply blk_alloc_ne; try done; [lia| |lia]. destruct Hb as [? _]. unfold datastart in *.
  pose proof (Z.div_pos (sb_size sb) BPB ltac:(lia) ltac:(done)). lia.
Qed.

Lemma alloc_nfree : nfree sb v = S (nfree sb v').
Proof.
  pose proof fresh_range as Hr. apply filter_one_less with b.
  - apply NoDup_seqZ.
  - apply elem_of_seqZ. lia.
  - apply Hb.
  - rewrite alloc_used by done. by rewrite bool_decide_true.
  - intros x Hx Hne. apply elem_of_seqZ in Hx. rewrite alloc_used by lia. by rewrite bool_decide_false.
Qed.

Lemma alloc_pins : (size (v_pins v') ≤ size (v_pins v) + 2)%nat.
Proof.
  unfold v', alloc_view. etrans; [apply size_pins_upd|].
  pose proof (size_pins_upd (BBLOCK b sb) (bit_set (blk v (BBLOCK b sb)) (b mod BPB)) v). lia.
Qed.

Lemma alloc_faddr i bn : ifile sb v i → faddr v' i bn = faddr v i bn.
Proof.
  intros F. unfold faddr. destruct (bn <? NDIRECT); [done|].
  destruct (Z.eqb_spec (iaddr i NDIRECT) 0) as [|Hne]; [done|].
  destruct (if_ind _ _ _ F) as [?|Hg]; [done|]. by rewrite (proj2 (proj2 (alloc_good _ Hg))).
Qed.

Lemma alloc_ifile i : ifile sb v i → ifile sb v' i.
Proof.
  intros F. split; try apply F.
  - destruct (if_ind _ _ _ F) as [?|Hg]; [by left|right]. by apply alloc_good.
  - intros bn Hbn. rewrite alloc_faddr by done.
    destruct (if_map _ _ _ F bn Hbn) as [?|Hg]; [by left|right]. by apply alloc_good.
  - intros bn bn'. rewrite !alloc_faddr by done. apply F.
  - intros bn. rewrite alloc_faddr by done. apply F.
Qed.

(** The fresh block is none of the blocks of a file. *)
Lemma fresh_not_in i : ifile sb v i →
  b ≠ iaddr i NDIRECT ∧ ∀ bn, in_file bn → faddr v i bn ≠ b.
Proof.
  intros F. pose proof (datastart_pos _ _ G). destruct Hb as [Hb1 Hb2]. split.
  - intros E. destruct (if_ind _ _ _ F) as [|[_ ?]]; [lia|congruence].
  - intros bn Hbn E. destruct (if_map _ _ _ F bn Hbn) as [|[_ ?]]; [lia|congruence].
Qed.
End fresh.

(** [balloc] when there is a free block, with what follows for the files. *)
Lemma balloc_fresh s v o :
  alloc_ok s v o → trepr (fs_tx s) v o → (0 < nfree (fs_sb s) v)%nat →
  ∃ b t, balloc ROOTDEV s = Ok b (set_tx t s) ∧ fresh (fs_sb s) v b ∧
         trepr t (alloc_view (fs_sb s) b v) o.
Proof.
  intros A R Hf. apply nfree_pos in Hf. destruct (balloc_ok s v o A R Hf) as (b & s' & E & Hb & Hu & _ & t & -> & R').
  by exists b, t.
Qed.
End alloc_files.

(** ** Files that grow

    [grows sb nf np v i v' i']: the file has been extended.  Its blocks keep
    their addresses and their contents, a block it has now and had not before
    is a zeroed block that was free, no block of another file has changed;
    at most [nf] blocks have been allocated and at most [np] more logged. *)

Record grows (sb : superblock) (nf np : nat) (v : bview) (i : inode) (v' : bview) (i' : inode) : Prop := {
  gr_file : ifile sb v' i';
  gr_meta : meta_used sb v';
  gr_len : length (v_disk v') = length (v_disk v);
  gr_held : v_held v' = v_held v;
  gr_ino : i' = set_iaddrs (i_addrs i') i;
  gr_frame : ∀ n, good sb v n → good sb v' n ∧ (n ≠ iaddr i NDIRECT → blk v' n = blk v n);
  gr_mblk : ∀ n, 0 ≤ n < sb_bmapstart sb → blk v' n = blk v n;
  gr_keep : ∀ bn, in_file bn → faddr v i bn ≠ 0 → faddr v' i' bn = faddr v i bn;
  gr_zero : ∀ bn, in_file bn → faddr v i bn = 0 → faddr v' i' bn ≠ 0 →
    blk v' (faddr v' i' bn) = zeros ∧ ¬ good sb v (faddr v' i' bn);
  gr_ind : iaddr i NDIRECT ≠ 0 → iaddr i' NDIRECT = iaddr i NDIRECT;
  gr_indnew : iaddr i NDIRECT = 0 → iaddr i' NDIRECT ≠ 0 → ¬ good sb v (iaddr i' NDIRECT);
  gr_free : (nfree sb v ≤ nfree sb v' + nf)%nat;
  gr_pins : (size (v_pins v') ≤ size (v_pins v) + np)%nat }.

Lemma set_iaddrs_id i : set_iaddrs (i_addrs i) i = i.
Proof. by destruct i. Qed.

Lemma grows_refl sb v i nf np : ifile sb v i → meta_used sb v → grows sb nf np v i v i.
Proof. intros F Hm. split; try done; try lia. by destruct i. Qed.

Lemma grows_trans sb nf1 np1 nf2 np2 v i v1 i1 v2 i2 :
  grows sb nf1 np1 v i v1 i1 → grows sb nf2 np2 v1 i1 v2 i2 →
  grows sb (nf1 + nf2) (np1 + np2) v i v2 i2.
Proof.
  intros A B.
  assert (Hind : ∀ n, good sb v n → n ≠ iaddr i NDIRECT → iaddr i1 NDIRECT ≠ 0 → n ≠ iaddr i1 NDIRECT).
  { intros n Hg Hn H1 ->. destruct (decide (iaddr i NDIRECT = 0)) as [E|E].
    - by apply (gr_indnew _ _ _ _ _ _ _ A).
    - by rewrite (gr_ind _ _ _ _ _ _ _ A) in Hn. }
  assert (Hgood0 : ∀ n, good sb v n → n ≠ iaddr i NDIRECT → n ≠ iaddr i1 NDIRECT).
  { intros n Hg Hn. destruct (decide (iaddr i1 NDIRECT = 0)) as [E|E]; [|by apply Hind].
    rewrite E. intros ->. destruct (decide (iaddr i NDIRECT = 0)) as [E'|E']; [congruence|].
    rewrite (gr_ind _ _ _ _ _ _ _ A) in E; congruence. }
  split; try apply B.
  - rewrite (gr_len _ _ _ _ _ _ _ B). apply A.
  - rewrite (gr_held _ _ _ _ _ _ _ B). apply A.
  - rewrite (gr_ino _ _ _ _ _ _ _ B) at 1. rewrite (gr_ino _ _ _ _ _ _ _ A) at 1. done.
  - intros n Hg. destruct (gr_frame _ _ _ _ _ _ _ A n Hg) as [Hg1 E1].
    destruct (gr_frame _ _ _ _ _ _ _ B n Hg1) as [Hg2 E2]. split; [done|]. intros Hn.
    rewrite E2 by (by apply Hgood0). by apply E1.
  - intros n Hn. rewrite (gr_mblk _ _ _ _ _ _ _ B n Hn). by apply (gr_mblk _ _ _ _ _ _ _ A).
  - intros bn Hbn Hne. pose proof (gr_keep _ _ _ _ _ _ _ A bn Hbn Hne) as E.
    rewrite <- E. apply (gr_keep _ _ _ _ _ _ _ B); [done|]. by rewrite E.
  - intros bn Hbn H0 Hne. destruct (decide (faddr v1 i1 bn = 0)) as [E|E].
    + destruct (gr_zero _ _ _ _ _ _ _ B bn Hbn E Hne) as [Hz Hg]. split; [done|].
      intros Hg'. apply Hg. by apply (gr_frame _ _ _ _ _ _ _ A).
    + destruct (gr_zero _ _ _ _ _ _ _ A bn Hbn H0 E) as [Hz Hg].
      pose proof (gr_keep _ _ _ _ _ _ _ B bn Hbn E) as Ek. rewrite Ek. split; [|done].
      destruct (if_map _ _ _ (gr_file _ _ _ _ _ _ _ A) bn Hbn) as [?|Hg1]; [done|].
      rewrite (proj2 (gr_frame _ _ _ _ _ _ _ B _ Hg1)); [done|].
      by apply (if_sep _ _ _ (gr_file _ _ _ _ _ _ _ A)).
  - intros Hne. rewrite (gr_ind _ _ _ _ _ _ _ B); [by apply (gr_ind _ _ _ _ _ _ _ A)|]. by rewrite (gr_ind _ _ _ _ _ _ _ A).
  - intros H0 Hne. destruct (decide (iaddr i1 NDIRECT = 0)) as [E|E].
    + intros Hg. apply (gr_indnew _ _ _ _ _ _ _ B E Hne). by apply (gr_frame _ _ _ _ _ _ _ A).
    + rewrite (gr_ind _ _ _ _ _ _ _ B E). by apply (gr_indnew _ _ _ _ _ _ _ A).
  - pose proof (gr_free _ _ _ _ _ _ _ A). pose proof (gr_free _ _ _ _ _ _ _ B). lia.
  - pose proof (gr_pins _ _ _ _ _ _ _ A). pose proof (gr_pins _ _ _ _ _ _ _ B). lia.
Qed.

Lemma grows_weaken sb nf np nf' np' v i v' i' :
  grows sb nf np v i v' i' → (nf ≤ nf')%nat → (np ≤ np')%nat → grows sb nf' np' v i v' i'.
Proof. intros A Hf Hp. destruct A. split; try done; lia. Qed.

(** ** Setting one pointer of the inode *)

Definition set_ptr (k b : Z) (i : inode) : inode := set_iaddrs (<[Z.to_nat k := b]> (i_addrs i)) i.

Lemma iaddr_set_ptr i k b j : length (i_addrs i) = Z.to_nat (NDIRECT + 1) → 0 ≤ k ≤ NDIRECT → 0 ≤ j →
  iaddr (set_ptr k b i) j = if decide (j = k) then b else iaddr i j.
Proof.
  intros Hl Hk Hj. unfold iaddr, set_ptr. simpl. destruct (decide (j = k)) as [->|Hne].
  - rewrite list_lookup_insert_eq; [done|lia].
  - rewrite list_lookup_insert_ne; [done|lia].
Qed.

Lemma get32_zeros off : get32 zeros off = 0.
Proof.
  unfold get32, slice, zeros. rewrite drop_replicate, take_replicate.
  generalize (4 `min` (Z.to_nat BSIZE - off))%nat. induction n as [|n IH]; simpl; [done|]. lia.
Qed.

Section growing.
Context {T : Type} `{TxSpec T}.
Context (sb : superblock) (v : bview) (i : inode) (b : Z).
Context (W : view_wf v) (G : geom sb (Z.of_nat (length (v_disk v)))) (Hm : meta_used sb v).
Context (F : ifile sb v i) (Hb : fresh sb v b).
Let v' := alloc_view sb b v.

Lemma in_file_split bn : in_file bn → bn < NDIRECT ∨ NDIRECT ≤ bn ∧ (Z.to_nat (4 * (bn - NDIRECT)) + 4 ≤ Z.to_nat BSIZE)%nat.
Proof. unfold in_file, MAXFILE, NINDIRECT, NDIRECT, BSIZE. lia. Qed.

(** What holds of any way to use the fresh block. *)
Lemma fresh_frame n : good sb v n → good sb v' n ∧ blk v' n = blk v n.
Proof. intros Hg. destruct (alloc_good sb v b W G Hb n Hg) as (? & _ & ?). done. Qed.

Lemma fresh_nonzero : b ≠ 0.
Proof. pose proof (datastart_pos _ _ G). destruct Hb. lia. Qed.

(** A direct pointer. *)
Lemma grow_direct bn : 0 ≤ bn < NDIRECT → iaddr i bn = 0 →
  grows sb 1 2 v i v' (set_ptr bn b i) ∧ faddr v' (set_ptr bn b i) bn = b.
Proof.
  intros Hbn Hz0. pose proof (if_len _ _ _ F) as Hl. set (i' := set_ptr bn b i).
  assert (Hia : ∀ j, 0 ≤ j → iaddr i' j = if decide (j = bn) then b else iaddr i j).
  { intros j Hj. apply iaddr_set_ptr; [done|lia|done]. }
  assert (HiN : iaddr i' NDIRECT = iaddr i NDIRECT).
  { rewrite Hia by done. rewrite decide_False; [done|lia]. }
  assert (Hf : ∀ j, in_file j → faddr v' i' j = if decide (j = bn) then b else faddr v i j).
  { intros j Hj. rewrite <- (alloc_faddr sb v b W G Hb i j F). unfold faddr.
    destruct (Z.ltb_spec j NDIRECT); [rewrite Hia by apply Hj; by destruct (decide (j = bn))|].
    rewrite HiN, decide_False by lia. done. }
  destruct (fresh_not_in sb v b G Hb i F) as [Hbi Hbf].
  destruct (alloc_new sb v b W G Hb) as (Hgb & Hzb & Hnb). fold v' in Hgb, Hzb. pose proof fresh_nonzero as Hb0.
  assert (Hin : in_file bn) by (unfold in_file, MAXFILE, NINDIRECT, NDIRECT, BSIZE in *; lia).
  split; [|rewrite Hf by done; by rewrite decide_True].
  pose proof (alloc_ifile sb v b W G Hb i F) as F'.
  split; try done; try rewrite HiN; try done.
  - split; try apply F; try rewrite HiN.
    + simpl. by rewrite length_insert.
    + apply F'.
    + intros j Hj. rewrite Hf by done. destruct (decide (j = bn)); [by right|].
      rewrite <- (alloc_faddr sb v b W G Hb i j F). by apply F'.
    + intros j k Hj Hk Hjk. rewrite !Hf by done.
      destruct (decide (j = bn)), (decide (k = bn)); try lia.
      * intros _. by apply not_eq_sym, Hbf.
      * intros _. by apply Hbf.
      * by apply F.
    + intros j Hj. rewrite Hf by done. destruct (decide (j = bn)); [done|by apply F].
  - by apply (alloc_meta sb v b W G Hb).
  - intros n Hg. split; [by apply fresh_frame|]. intros _. by apply fresh_frame.
  - intros n Hn. by apply (alloc_blk_meta sb v b G Hb).
  - intros j Hj Hne. rewrite Hf by done. destruct (decide (j = bn)) as [->|]; [|done].
    unfold faddr in Hne. rewrite (proj2 (Z.ltb_lt bn NDIRECT)) in Hne by lia. done.
  - intros j Hj Hz. rewrite Hf by done. destruct (decide (j = bn)); [done|]. congruence.
  - rewrite (alloc_nfree sb v b W G Hb). fold v'. lia.
  - apply (alloc_pins sb v b).
Qed.

(** The pointer to the indirect block. *)
Lemma grow_indptr : iaddr i NDIRECT = 0 →
  grows sb 1 2 v i v' (set_ptr NDIRECT b i) ∧ iaddr (set_ptr NDIRECT b i) NDIRECT = b.
Proof.
  intros Hz0. pose proof (if_len _ _ _ F) as Hl. set (i' := set_ptr NDIRECT b i).
  assert (Hia : ∀ j, 0 ≤ j → iaddr i' j = if decide (j = NDIRECT) then b else iaddr i j).
  { intros j Hj. apply iaddr_set_ptr; done. }
  assert (HiN : iaddr i' NDIRECT = b) by (rewrite Hia by done; by rewrite decide_True).
  destruct (fresh_not_in sb v b G Hb i F) as [Hbi Hbf].
  destruct (alloc_new sb v b W G Hb) as (Hgb & Hzb & Hnb). fold v' in Hgb, Hzb. pose proof fresh_nonzero as Hb0.
  assert (Hf : ∀ j, in_file j → faddr v' i' j = faddr v i j).
  { intros j Hj. unfold faddr. destruct (Z.ltb_spec j NDIRECT).
    - rewrite Hia by apply Hj. by rewrite decide_False by lia.
    - rewrite HiN, Hz0, (proj2 (Z.eqb_neq b 0) Hb0), Hzb. apply get32_zeros. }
  split; [|done]. pose proof (alloc_ifile sb v b W G Hb i F) as F'.
  split; try done; try rewrite HiN; try done.
  - split; try apply F; rewrite ?HiN.
    + simpl. by rewrite length_insert.
    + by right.
    + intros j Hj. rewrite Hf by done.
      rewrite <- (alloc_faddr sb v b W G Hb i j F). by apply F'.
    + intros j k Hj Hk Hjk. rewrite !Hf by done. by apply F.
    + intros j Hj _. rewrite Hf by done. by apply Hbf.
  - by apply (alloc_meta sb v b W G Hb).
  - intros n Hg. split; [by apply fresh_frame|]. intros _. by apply fresh_frame.
  - intros n Hn. by apply (alloc_blk_meta sb v b G Hb).
  - intros j Hj Hne. by apply Hf.
  - intros j Hj Hz. rewrite Hf by done. congruence.
  - rewrite (alloc_nfree sb v b W G Hb). fold v'. lia.
  - apply (alloc_pins sb v b).
Qed.

(** An entry of the indirect block. *)
Let ind := iaddr i NDIRECT.
Definition entry_view (bn : Z) : bview :=
  view_upd ind (put32 (blk v' ind) (Z.to_nat (4 * (bn - NDIRECT))) b) v'.

Lemma grow_entry bn : in_file bn → NDIRECT ≤ bn → ind ≠ 0 → faddr v i bn = 0 →
  b < 4294967296 →
  grows sb 1 3 v i (entry_view bn) i ∧ faddr (entry_view bn) i bn = b.
Proof.
  intros Hbn Hge Hind Hz0 Hb32. set (off := Z.to_nat (4 * (bn - NDIRECT))). set (v2 := entry_view bn).
  destruct (if_ind _ _ _ F) as [?|Hgi]; [done|]. fold ind in Hgi.
  destruct (fresh_frame _ Hgi) as [Hgi' Eind]. destruct (good_disk _ _ _ G Hgi) as (Hind_d & _ & Hind_p).
  destruct (fresh_not_in sb v b G Hb i F) as [Hbi Hbf]. fold ind in Hbi.
  destruct (alloc_new sb v b W G Hb) as (Hgb & Hzb & Hnb). fold v' in Hgb, Hzb. pose proof fresh_nonzero as Hb0.
  pose proof (blk_length v ind W Hind_d) as Hlen.
  destruct (in_file_split bn Hbn) as [?|[_ Hoff]]; [lia|]. fold off in Hoff.
  assert (Hbi2 : blk v2 ind = put32 (blk v ind) off b).
  { unfold v2, entry_view. unfold blk at 1. simpl. rewrite list_lookup_insert_eq.
    - simpl. by rewrite Eind.
    - rewrite !length_insert, (wf_len _ W). unfold in_disk in Hind_d. lia. }
  assert (Hbo : ∀ n, 0 ≤ n → n ≠ ind → blk v2 n = blk v' n).
  { intros n Hn Hne. unfold v2, entry_view. apply blk_upd_ne; lia || done. }
  assert (Hu : ∀ n, 0 ≤ n < sb_size sb → used sb v2 n = used sb v' n).
  { intros n Hn. unfold v2, entry_view. apply used_upd_other; [done|done|lia|].
    destruct Hgi as [? _]. lia. }
  assert (Hgood : ∀ n, good sb v' n → good sb v2 n).
  { intros n [Hn Hun]. split; [done|]. pose proof (datastart_pos _ _ G). rewrite Hu by lia. done. }
  assert (Hf : ∀ j, in_file j → faddr v2 i j = if decide (j = bn) then b else faddr v i j).
  { intros j Hj. unfold faddr. destruct (Z.ltb_spec j NDIRECT); [by rewrite decide_False by lia|].
    fold ind. rewrite (proj2 (Z.eqb_neq ind 0) Hind), Hbi2. destruct (decide (j = bn)) as [->|Hne].
    - rewrite get32_put32_eq by lia. apply u32_small. destruct Hb. pose proof (datastart_pos _ _ G). lia.
    - rewrite get32_put32_ne; [done|unfold off; lia|lia]. }
  split; [|rewrite Hf by done; by rewrite decide_True]. pose proof (alloc_ifile sb v b W G Hb i F) as F'.
  split; try done.
  - split; try apply F; fold ind.
    + right. by apply Hgood.
    + intros j Hj. rewrite Hf by done. destruct (decide (j = bn)); [right; by apply Hgood|].
      destruct (if_map _ _ _ F j Hj) as [?|Hg]; [by left|right]. by apply Hgood, fresh_frame.
    + intros j k Hj Hk Hjk. rewrite !Hf by done.
      destruct (decide (j = bn)), (decide (k = bn)); try lia.
      * intros _. by apply not_eq_sym, Hbf.
      * intros _. by apply Hbf.
      * by apply F.
    + intros j Hj. rewrite Hf by done. destruct (decide (j = bn)); [done|by apply F].
  - intros n Hn. pose proof (g_data _ _ G). rewrite Hu by lia. by apply (alloc_meta sb v b W G Hb).
  - by rewrite set_iaddrs_id.
  - intros n Hg. destruct (fresh_frame n Hg) as [Hg' En]. split; [by apply Hgood|]. intros Hne.
    rewrite Hbo; [done| |done]. destruct (good_disk _ _ _ G Hg) as (_ & _ & ?). lia.
  - intros n Hn. rewrite Hbo; [by apply (alloc_blk_meta sb v b G Hb)|lia|].
    destruct Hgi as [Hr _]. unfold datastart in Hr. pose proof (g_size _ _ G).
    pose proof (Z.div_pos (sb_size sb) BPB ltac:(lia) ltac:(done)). lia.
  - intros j Hj Hne. rewrite Hf by done. destruct (decide (j = bn)) as [->|]; done.
  - intros j Hj Hz. rewrite Hf by done. destruct (decide (j = bn)); [|congruence]. intros _.
    split; [|done]. rewrite Hbo; [done| |done]. apply (fresh_range sb v b G Hb).
  - rewrite (alloc_nfree sb v b W G Hb). fold v'.
    rewrite (nfree_ext sb v2 v' Hu). lia.
  - unfold v2, entry_view. pose proof (alloc_pins sb v b) as Hpn. fold v' in Hpn.
    pose proof (size_pins_upd ind (put32 (blk v' ind) (Z.to_nat (4 * (bn - NDIRECT))) b) v'). lia.
Qed.
End growing.

(** ** bmap *)

Section bmap_alloc.
Context {T : Type} `{TxSpec T}.
Implicit Types (v : bview) (s : fsstate (T := T)) (sb : superblock) (i : inode).

(** What the functions on files assume: the inode is cached, its blocks and
    the free map are consistent, nothing is held. *)
Record fsok s v o (ip : nat) i : Prop := {
  fo_rep : trepr (fs_tx s) v o;
  fo_geom : geom (fs_sb s) (Z.of_nat (length (v_disk v)));
  fo_meta : meta_used (fs_sb s) v;
  fo_ino : ic_inode s !! ip = Some i;
  fo_file : ifile (fs_sb s) v i;
  fo_held : v_held v = ∅ }.

Lemma fo_wf s v o ip i : fsok s v o ip i → view_wf v.
Proof. intros Fo. apply (trepr_wf _ _ _ (fo_rep _ _ _ _ _ Fo)). Qed.

Lemma held_used_empty sb v : v_held v = ∅ → held_used sb v.
Proof. intros He h n. by rewrite He, lookup_empty. Qed.

Lemma fsok_grows s v o ip i t nf np v' i' :
  fsok s v o ip i → trepr t v' o → grows (fs_sb s) nf np v i v' i' →
  fsok (set_tx t (upd_ino ip i' s)) v' o ip i'.
Proof.
  intros Fo R Gr. split; simpl; try done.
  - rewrite (gr_len _ _ _ _ _ _ _ Gr). apply Fo.
  - apply Gr.
  - apply list_lookup_insert_eq. eapply lookup_lt_Some, (fo_ino _ _ _ _ _ Fo).
  - apply Gr.
  - rewrite (gr_held _ _ _ _ _ _ _ Gr). apply Fo.
Qed.

Lemma upd_ino_id s ip i : ic_inode s !! ip = Some i → upd_ino ip i s = s.
Proof. intros E. unfold upd_ino, set_inodes. rewrite list_insert_id by done. by destruct s. Qed.

Lemma upd_ino_upd s ip i i' : upd_ino ip i' (upd_ino ip i s) = upd_ino ip i' s.
Proof. unfold upd_ino, set_inodes. simpl. by rewrite list_insert_insert_eq. Qed.

Lemma upd_ino_tx s ip i i' t t' :
  set_tx t' (upd_ino ip i' (set_tx t (upd_ino ip i s))) = set_tx t' (upd_ino ip i' s).
Proof. unfold upd_ino, set_inodes, set_tx. simpl. by rewrite list_insert_insert_eq. Qed.

(** [balloc] for inode [ip], and the new address stored in slot [k]. *)
Lemma balloc_ptr s v o ip i k :
  fsok s v o ip i → budget 2 v o → (0 < nfree (fs_sb s) v)%nat →
  ∃ b t, fresh (fs_sb s) v b ∧
    (addr ← balloc (i_dev i);
     iset ip (λ i, set_iaddrs (<[Z.to_nat k := addr]> (i_addrs i)) i);; mret addr) s
    = Ok b (set_tx t (upd_ino ip (set_ptr k b i) s)) ∧
    trepr t (alloc_view (fs_sb s) b v) o.
Proof.
  intros Fo Hbud Hf. rewrite (if_dev _ _ _ (fo_file _ _ _ _ _ Fo)).
  destruct (balloc_fresh s v o) as (b & t & E & Hb & R); [|apply Fo|done|].
  { split; try apply Fo; [|done]. by apply held_used_empty, Fo. }
  exists b, t. split; [done|]. split; [|done]. mstep E.
  mstep (iset_ok (set_tx t s) ip i (λ i, set_iaddrs (<[Z.to_nat k := b]> (i_addrs i)) i)
           (fo_ino _ _ _ _ _ Fo)). done.
Qed.

Lemma budget_grows sb k np nf v i v' i' o :
  budget (np + k) v o → grows sb nf np v i v' i' → budget k v' o.
Proof.
  intros (Ho & Hp & Hr) Gr. pose proof (gr_pins _ _ _ _ _ _ _ Gr).
  unfold budget, room in *. rewrite (gr_held _ _ _ _ _ _ _ Gr). lia.
Qed.

Lemma budget_hold k h n v o : v_held v !! h = None → budget (S k) v o → budget k (view_hold h n v) o.
Proof.
  intros Hh (Ho & Hp & Hr). unfold budget, room in *. simpl. rewrite map_size_insert_None by done. lia.
Qed.

(** The second half of [bmap]: the entry of the indirect block [ind]. *)
Lemma bmap_entry s v o ip i bn :
  fsok s v o ip i → in_file bn → NDIRECT ≤ bn → iaddr i NDIRECT ≠ 0 →
  budget 4 v o → (0 < nfree (fs_sb s) v)%nat →
  ∃ a t v', (bp ← on_tx (tx_bread (i_dev i) (iaddr i NDIRECT));
     a ← on_tx (tx_data bp);
     let addr := get32 a (Z.to_nat (4 * (bn - NDIRECT))) in
     addr ←
       (if addr =? 0 then
          addr ← balloc (i_dev i);
          a ← on_tx (tx_data bp);
          on_tx (tx_set bp (put32 a (Z.to_nat (4 * (bn - NDIRECT))) addr));;
          on_tx (tx_log_write bp);;
          mret addr
        else mret addr);
     on_tx (tx_brelse bp);;
     mret addr) s = Ok a (set_tx t s) ∧
    trepr t v' o ∧ grows (fs_sb s) 1 3 v i v' i ∧ faddr v' i bn = a ∧ a ≠ 0.
Proof.
  intros Fo Hbn Hge Hind Hbud Hfree. set (sb := fs_sb s). set (ind := iaddr i NDIRECT).
  set (off := Z.to_nat (4 * (bn - NDIRECT))). pose proof (fo_wf _ _ _ _ _ Fo) as W.
  pose proof (fo_file _ _ _ _ _ Fo) as F. pose proof (fo_geom _ _ _ _ _ Fo) as G. fold sb in F, G.
  destruct (if_ind _ _ _ F) as [?|Hg]; [done|]. destruct (good_disk _ _ _ G Hg) as (Hin & Hh & Hpos).
  assert (Hno : not_held v ind) by (intros h; by rewrite (fo_held _ _ _ _ _ Fo), lookup_empty).
  destruct (fs_bread s v o ind (fo_rep _ _ _ _ _ Fo) Hin Hh Hno) as (h & t & E1 & E2 & Hf & R1).
  { unfold budget, room in *. lia. }
  rewrite (if_dev _ _ _ F). mstep E1. mstep E2. cbv zeta.
  pose proof (faddr_indirect v i bn Hge Hind) as Efa. fold ind off in Efa. rewrite <- Efa.
  destruct (Z.eqb_spec (faddr v i bn) 0) as [Hz|Hnz].
  - rewrite !bind_assoc. destruct (balloc_fresh (set_tx t s) (view_hold h ind v) o) as (b & t2 & E3 & Hb & R2).
    + split; simpl; try apply Fo.
      * intros h' n'. simpl. rewrite (fo_held _ _ _ _ _ Fo), insert_empty, lookup_singleton_Some.
        intros [_ <-]. destruct Hg as [Hg1 Hu]. split; [exact (proj1 Hg1)|exact Hu].
      * apply budget_hold; [done|]. by eapply budget_weaken; [|done]; lia.
    + done.
    + exact Hfree.
    + mstep E3. rewrite !bind_assoc, set_tx_set_tx.
      set (v1 := alloc_view sb b v). change (alloc_view _ b (view_hold h ind v)) with (view_hold h ind v1) in R2.
      change (fresh sb v b) in Hb. pose proof (alloc_good sb v b W G Hb ind Hg) as (_ & _ & Eb).
      destruct (tx_data_spec _ _ _ h ind R2 (view_held_hold _ _ _)) as (d & E4 & Hd). simpl in Hd.
      apply (blk_lookup v1) in Hd. fold v1 in Eb. rewrite Eb in Hd. subst d.
      mstep (on_tx_ok _ (set_tx t2 s) _ _ E4). rewrite !bind_assoc, set_tx_set_tx.
      assert (Hwf1 : view_wf (view_hold h ind v1)) by (by eapply trepr_wf).
      destruct (fs_update s t2 v1 o h ind (put32 (blk v ind) off b) R2) as (t3 & t4 & t5 & E5 & E6 & E7 & R5).
      * done.
      * rewrite length_put32; rewrite blk_length by done; [done|].
        destruct (in_file_split bn Hbn) as [?|[_ ?]]; [lia|done].
      * apply Hbud.
      * pose proof (alloc_pins sb v b). fold v1 in H1. destruct Hbud as (_ & ? & _). lia.
      * mstep E5. rewrite !bind_assoc. mstep E6. rewrite bind_ret_l. mstep E7.
        destruct (grow_entry sb v i b W G (fo_meta _ _ _ _ _ Fo) F Hb bn Hbn Hge Hind Hz) as [Gr Ea].
        { destruct Hb. pose proof (g_size _ _ G). lia. }
        exists b, t5, (entry_view sb v i b bn). split_and!; try done.
        -- unfold entry_view. fold ind v1 off. by rewrite Eb.
        -- apply (fresh_nonzero sb v b G Hb).
  - rewrite bind_ret_l. destruct (fs_brelse s t v o h ind R1 W Hin Hf Hno) as (t2 & E3 & R2).
    mstep E3. exists (faddr v i bn), t2, v. split_and!; try done.
    apply grows_refl; [done|apply Fo].
Qed.

Lemma bmap_ok s v o ip i bn :
  fsok s v o ip i → in_file bn → budget 6 v o → (2 ≤ nfree (fs_sb s) v)%nat →
  ∃ a t v' i', bmap ip bn s = Ok a (set_tx t (upd_ino ip i' s)) ∧ trepr t v' o ∧
    grows (fs_sb s) 2 5 v i v' i' ∧ faddr v' i' bn = a ∧ a ≠ 0 ∧ (faddr v i bn ≠ 0 → i' = i).
Proof.
  intros Fo Hbn Hbud Hfree. pose proof (fo_file _ _ _ _ _ Fo) as F. pose proof (fo_geom _ _ _ _ _ Fo) as G.
  pose proof (fo_wf _ _ _ _ _ Fo) as W. pose proof (fo_meta _ _ _ _ _ Fo) as Hm.
  pose proof (fo_ino _ _ _ _ _ Fo) as Hi. set (sb := fs_sb s) in *.
  assert (Hbud2 : budget 2 v o) by (by eapply budget_weaken; [|done]; lia).
  unfold bmap. mstep (iptr_ok _ _ _ Hi). pose proof (if_len _ _ _ F) as Hlen.
  assert (Hl : ∀ k, 0 ≤ k ≤ NDIRECT → i_addrs i !! Z.to_nat k = Some (iaddr i k)).
  { intros k Hk. unfold iaddr. destruct (lookup_lt_is_Some_2 (i_addrs i) (Z.to_nat k)) as [a ->]; [lia|done]. }
  destruct (Z.ltb_spec bn NDIRECT) as [Hd|Hd].
  - rewrite Hl by (unfold in_file in Hbn; lia). cbn [lift_opt]. rewrite bind_ret_l.
    assert (Hfa : faddr v i bn = iaddr i bn) by (unfold faddr; by rewrite (proj2 (Z.ltb_lt _ _) Hd)).
    destruct (Z.eqb_spec (iaddr i bn) 0) as [Hz|Hnz].
    + destruct (balloc_ptr s v o ip i bn Fo Hbud2) as (b & t & Hb & E & R); [fold sb; lia|].
      destruct (grow_direct sb v i b W G Hm F Hb bn) as [Gr Ea]; [unfold in_file in Hbn; lia|done|].
      rewrite E. exists b, t, (alloc_view sb b v), (set_ptr bn b i). split_and!; try done.
      * by eapply grows_weaken; [done|lia|lia].
      * apply (fresh_nonzero sb v b G Hb).
      * by rewrite Hfa.
    + exists (iaddr i bn), (fs_tx s), v, i. rewrite (upd_ino_id _ _ _ Hi), set_tx_id.
      split_and!; try done; [apply Fo|by apply grows_refl].
  - destruct (Z.ltb_spec (bn - NDIRECT) NINDIRECT); [|unfold in_file, MAXFILE in Hbn; lia].
    rewrite Hl by done. cbn [lift_opt]. rewrite bind_ret_l.
    destruct (Z.eqb_spec (iaddr i NDIRECT) 0) as [Hz|Hnz].
    + destruct (balloc_ptr s v o ip i NDIRECT Fo Hbud2) as (b & t & Hb & E & R); [fold sb; lia|].
      destruct (grow_indptr sb v i b W G Hm F Hb Hz) as [Gr Ea]. mstep E.
      pose proof (fsok_grows _ _ _ _ _ _ _ _ _ _ Fo R Gr) as Fo1.
      destruct (bmap_entry _ _ _ _ _ bn Fo1 Hbn Hd) as (a & t2 & v2 & E2 & R2 & Gr2 & Ea2 & Hne).
      * rewrite Ea. apply (fresh_nonzero sb v b G Hb).
      * by apply (budget_grows sb 4 2 1 v i _ (set_ptr NDIRECT b i)).
      * simpl. pose proof (gr_free _ _ _ _ _ _ _ Gr). fold sb. lia.
      * rewrite Ea in E2. cbn [i_dev set_ptr set_iaddrs] in E2.
        exists a, t2, v2, (set_ptr NDIRECT b i). split_and!; try done.
        -- by apply (grows_trans sb 1 2 1 3) with (alloc_view sb b v) (set_ptr NDIRECT b i).
        -- intros Hne0. destruct Hne0. unfold faddr. by rewrite (proj2 (Z.ltb_ge _ _) Hd), Hz.
    + rewrite bind_ret_l. destruct (bmap_entry s v o ip i bn Fo Hbn Hd Hnz) as (a & t2 & v2 & E2 & R2 & Gr2 & Ea2 & Hne).
      * apply (budget_weaken 6); [lia|done].
      * fold sb. lia.
      * exists a, t2, v2, i. rewrite (upd_ino_id _ _ _ Hi). split_and!; try done.
        by eapply grows_weaken; [done|lia|lia].
Qed.
End bmap_alloc.

(** ** Writing to a file

    [wrote sb nf np v i v' i' off src]: the bytes [src] are now in the file at
    [off]; every other byte of the file that was there is the same, and so is
    every block in use that is not a block of this file. *)

Record wrote (sb : superblock) (nf np : nat) (v : bview) (i : inode) (v' : bview) (i' : inode)
    (off : Z) (src : list Z) : Prop := {
  wr_file : ifile sb v' i';
  wr_meta : meta_used sb v';
  wr_len : length (v_disk v') = length (v_disk v);
  wr_held : v_held v' = v_held v;
  wr_ino : i' = set_iaddrs (i_addrs i') i;
  wr_good : ∀ n, good sb v n → good sb v' n;
  wr_frame : ∀ n, good sb v n → n ≠ iaddr i NDIRECT → (∀ bn, in_file bn → faddr v i bn ≠ n) →
    blk v' n = blk v n;
  wr_mblk : ∀ n, 0 ≤ n < sb_bmapstart sb → blk v' n = blk v n;
  wr_keep : ∀ bn, in_file bn → faddr v i bn ≠ 0 → faddr v' i' bn = faddr v i bn;
  wr_new : ∀ bn, in_file bn → faddr v i bn = 0 → faddr v' i' bn ≠ 0 → ¬ good sb v (faddr v' i' bn);
  wr_ind : iaddr i NDIRECT ≠ 0 → iaddr i' NDIRECT = iaddr i NDIRECT;
  wr_indnew : iaddr i NDIRECT = 0 → iaddr i' NDIRECT ≠ 0 → ¬ good sb v (iaddr i' NDIRECT);
  wr_there : ∀ k, off ≤ k < off + Z.of_nat (length src) → faddr v' i' (k / BSIZE) ≠ 0;
  wr_bytes : ∀ k x, src !! k = Some x → fbyte v' i' (off + Z.of_nat k) = x;
  wr_others : ∀ k, 0 ≤ k < MAXFILE * BSIZE → ¬ (off ≤ k < off + Z.of_nat (length src)) →
    faddr v i (k / BSIZE) ≠ 0 → fbyte v' i' k = fbyte v i k;
  wr_same : (∀ k, off ≤ k < off + Z.of_nat (length src) → faddr v i (k / BSIZE) ≠ 0) → i' = i;
  wr_free : (nfree sb v ≤ nfree sb v' + nf)%nat;
  wr_pins : (size (v_pins v') ≤ size (v_pins v) + np)%nat }.

Lemma in_file_byte k : 0 ≤ k < MAXFILE * BSIZE → in_file (k / BSIZE).
Proof. unfold in_file, BSIZE. lia. Qed.

Lemma wrote_nil sb v i off : ifile sb v i → meta_used sb v → wrote sb 0 0 v i v i off [].
Proof.
  intros F Hm. split; try done; try lia.
  - by rewrite set_iaddrs_id.
  - simpl. intros. lia.
Qed.

Lemma wrote_app sb nf1 np1 nf2 np2 v i v1 i1 v2 i2 off src1 src2 :
  0 ≤ off → off + Z.of_nat (length src1 + length src2) ≤ MAXFILE * BSIZE →
  wrote sb nf1 np1 v i v1 i1 off src1 →
  wrote sb nf2 np2 v1 i1 v2 i2 (off + Z.of_nat (length src1)) src2 →
  wrote sb (nf1 + nf2) (np1 + np2) v i v2 i2 off (src1 ++ src2).
Proof.
  intros Ho Hmax A B.
  assert (Hk : ∀ bn, in_file bn → faddr v i bn ≠ 0 → faddr v1 i1 bn ≠ 0).
  { intros bn Hbn Hne. by rewrite (wr_keep _ _ _ _ _ _ _ _ _ A bn Hbn Hne). }
  split; try apply B.
  - rewrite (wr_len _ _ _ _ _ _ _ _ _ B). apply A.
  - rewrite (wr_held _ _ _ _ _ _ _ _ _ B). apply A.
  - rewrite (wr_ino _ _ _ _ _ _ _ _ _ B) at 1. by rewrite (wr_ino _ _ _ _ _ _ _ _ _ A) at 1.
  - intros n Hg. by apply (wr_good _ _ _ _ _ _ _ _ _ B), (wr_good _ _ _ _ _ _ _ _ _ A).
  - intros n Hg Hn Hnf. rewrite <- (wr_frame _ _ _ _ _ _ _ _ _ A n Hg Hn Hnf).
    apply (wr_frame _ _ _ _ _ _ _ _ _ B).
    + by apply (wr_good _ _ _ _ _ _ _ _ _ A).
    + destruct (decide (iaddr i NDIRECT = 0)) as [E|E]; [|by rewrite (wr_ind _ _ _ _ _ _ _ _ _ A)].
      destruct (decide (iaddr i1 NDIRECT = 0)) as [E1|E1]; [congruence|].
      intros ->. by apply (wr_indnew _ _ _ _ _ _ _ _ _ A).
    + intros bn Hbn E. destruct (decide (faddr v i bn = 0)) as [E0|E0].
      * destruct (decide (faddr v1 i1 bn = 0)) as [E1|E1]; [apply (Hnf bn Hbn); congruence|].
        apply (wr_new _ _ _ _ _ _ _ _ _ A bn Hbn E0 E1). by rewrite E.
      * apply (Hnf bn Hbn). by rewrite <- (wr_keep _ _ _ _ _ _ _ _ _ A bn Hbn E0).
  - intros n Hn. rewrite (wr_mblk _ _ _ _ _ _ _ _ _ B n Hn). by apply (wr_mblk _ _ _ _ _ _ _ _ _ A).
  - intros bn Hbn Hne. rewrite (wr_keep _ _ _ _ _ _ _ _ _ B) by auto.
    by apply (wr_keep _ _ _ _ _ _ _ _ _ A).
  - intros bn Hbn E0 Hne. destruct (decide (faddr v1 i1 bn = 0)) as [E1|E1].
    + intros Hg. apply (wr_new _ _ _ _ _ _ _ _ _ B bn Hbn E1 Hne). by apply (wr_good _ _ _ _ _ _ _ _ _ A).
    + rewrite (wr_keep _ _ _ _ _ _ _ _ _ B bn Hbn E1). by apply (wr_new _ _ _ _ _ _ _ _ _ A).
  - intros Hne. rewrite (wr_ind _ _ _ _ _ _ _ _ _ B); [by apply (wr_ind _ _ _ _ _ _ _ _ _ A)|].
    by rewrite (wr_ind _ _ _ _ _ _ _ _ _ A).
  - intros E0 Hne. destruct (decide (iaddr i1 NDIRECT = 0)) as [E1|E1].
    + intros Hg. apply (wr_indnew _ _ _ _ _ _ _ _ _ B E1 Hne). by apply (wr_good _ _ _ _ _ _ _ _ _ A).
    + rewrite (wr_ind _ _ _ _ _ _ _ _ _ B E1). by apply (wr_indnew _ _ _ _ _ _ _ _ _ A).
  - intros k Hr. rewrite length_app in Hr.
    destruct (decide (k < off + Z.of_nat (length src1))) as [Hlt|Hge].
    + assert (in_file (k / BSIZE)) by (apply in_file_byte; lia).
      assert (faddr v1 i1 (k / BSIZE) ≠ 0) by (apply (wr_there _ _ _ _ _ _ _ _ _ A); lia).
      by rewrite (wr_keep _ _ _ _ _ _ _ _ _ B).
    + apply (wr_there _ _ _ _ _ _ _ _ _ B). lia.
  - intros k x Hx. apply lookup_app_Some in Hx as [Hx|[Hge Hx]].
    + rewrite <- (wr_bytes _ _ _ _ _ _ _ _ _ A k x Hx). pose proof (lookup_lt_Some _ _ _ Hx).
      apply (wr_others _ _ _ _ _ _ _ _ _ B); [lia|lia|]. apply (wr_there _ _ _ _ _ _ _ _ _ A). lia.
    + rewrite <- (wr_bytes _ _ _ _ _ _ _ _ _ B _ x Hx). f_equal. lia.
  - intros k Hr Hout Hne. rewrite length_app in Hout.
    rewrite (wr_others _ _ _ _ _ _ _ _ _ B); [|done|lia|by apply Hk; [apply in_file_byte|]].
    apply (wr_others _ _ _ _ _ _ _ _ _ A); [done|lia|done].
  - intros Hall. rewrite length_app in Hall. rewrite (wr_same _ _ _ _ _ _ _ _ _ B).
    + apply (wr_same _ _ _ _ _ _ _ _ _ A). intros k Hr. apply Hall. lia.
    + intros k Hr. apply Hk; [apply in_file_byte; lia|]. apply Hall. lia.
  - pose proof (wr_free _ _ _ _ _ _ _ _ _ A). pose proof (wr_free _ _ _ _ _ _ _ _ _ B). lia.
  - pose proof (wr_pins _ _ _ _ _ _ _ _ _ A). pose proof (wr_pins _ _ _ _ _ _ _ _ _ B). lia.
Qed.

Section write_one.
Context {T : Type} `{TxSpec T}.
Context (sb : superblock) (v : bview) (i : inode) (v1 : bview) (i1 : inode) (off : Z) (src : list Z).
Context (W : view_wf v1) (G : geom sb (Z.of_nat (length (v_disk v)))) (Gr : grows sb 2 5 v i v1 i1).
Context (Hoff : 0 ≤ off) (Hfit : off mod BSIZE + Z.of_nat (length src) ≤ BSIZE)
        (Hmax : off + Z.of_nat (length src) ≤ MAXFILE * BSIZE) (Hsrc : src ≠ []).
Let bn := off / BSIZE.
Let a := faddr v1 i1 bn.
Let v2 := view_upd a (splice (Z.to_nat (off mod BSIZE)) src (blk v1 a)) v1.
Context (Ha : a ≠ 0) (Hsame : faddr v i bn ≠ 0 → i1 = i).

Lemma wo_in_file : in_file bn.
Proof. apply in_file_byte. destruct src; [done|simpl in *; lia]. Qed.

Lemma wo_geom1 : geom sb (Z.of_nat (length (v_disk v1))).
Proof. rewrite (gr_len _ _ _ _ _ _ _ Gr). exact G. Qed.

Lemma wo_good : good sb v1 a ∧ in_disk v1 a ∧ 0 < a.
Proof.
  destruct (if_map _ _ _ (gr_file _ _ _ _ _ _ _ Gr) bn wo_in_file) as [?|Hg]; [done|].
  destruct (good_disk _ _ _ wo_geom1 Hg) as (? & _ & ?). done.
Qed.

Lemma wo_blk_ne n : 0 ≤ n → n ≠ a → blk v2 n = blk v1 n.
Proof. intros Hn Hne. destruct wo_good as (_ & _ & ?). apply blk_upd_ne; done || lia. Qed.

Lemma wo_used n : 0 ≤ n < sb_size sb → used sb v2 n = used sb v1 n.
Proof.
  intros Hn. destruct wo_good as ([? _] & _ & ?).
  apply used_upd_other; [apply wo_geom1|done|lia|lia].
Qed.

Lemma wo_goods n : good sb v1 n ↔ good sb v2 n.
Proof.
  pose proof (datastart_pos _ _ G). unfold good.
  split; intros [? Hu]; (split; [done|]); rewrite wo_used in * by lia; done.
Qed.

Lemma wo_faddr k : in_file k → faddr v2 i1 k = faddr v1 i1 k.
Proof.
  intros Hk. unfold faddr. destruct (k <? NDIRECT); [done|].
  destruct (Z.eqb_spec (iaddr i1 NDIRECT) 0) as [|Hne]; [done|].
  rewrite wo_blk_ne; [done| |].
  - destruct (if_ind _ _ _ (gr_file _ _ _ _ _ _ _ Gr)) as [?|Hg]; [done|].
    destruct (good_disk _ _ _ wo_geom1 Hg) as (_ & _ & ?). lia.
  - intros E. by apply (if_sep _ _ _ (gr_file _ _ _ _ _ _ _ Gr) bn wo_in_file).
Qed.

Lemma wo_file : ifile sb v2 i1.
Proof.
  pose proof (gr_file _ _ _ _ _ _ _ Gr) as F. split; try apply F.
  - destruct (if_ind _ _ _ F) as [?|Hg]; [by left|right]. by apply wo_goods.
  - intros k Hk. rewrite wo_faddr by done.
    destruct (if_map _ _ _ F k Hk) as [?|Hg]; [by left|right]. by apply wo_goods.
  - intros k k' Hk Hk'. rewrite !wo_faddr by done. by apply F.
  - intros k Hk. rewrite wo_faddr by done. by apply F.
Qed.

(** Bytes of the block that was written. *)
Lemma wo_byte k : k / BSIZE = bn → 0 ≤ k →
  fbyte v2 i1 k = if decide (off ≤ k < off + Z.of_nat (length src))
                  then default 0 (src !! Z.to_nat (k - off)) else fbyte v1 i1 k.
Proof.
  intros Hk Hk0. unfold fbyte. rewrite Hk, (wo_faddr bn wo_in_file). fold a.
  destruct wo_good as (_ & Hd & _). unfold v2 at 1. rewrite blk_upd_eq by done.
  pose proof (blk_length v1 a W Hd) as Hl. unfold byte_at.
  pose proof (Z.mod_pos_bound off BSIZE ltac:(done)). pose proof (Z.mod_pos_bound k BSIZE ltac:(done)).
  assert (Hrel : k - off = k mod BSIZE - off mod BSIZE).
  { pose proof (Z.div_mod k BSIZE ltac:(done)). pose proof (Z.div_mod off BSIZE ltac:(done)).
    fold bn in H4. rewrite Hk in H3. lia. }
  destruct (decide (off ≤ k < off + Z.of_nat (length src))) as [Hin|Hout].
  - rewrite lookup_splice_in by lia. do 2 f_equal. lia.
  - destruct (decide (k < off)).
    + by rewrite lookup_splice_lt by lia.
    + by rewrite lookup_splice_ge by lia.
Qed.

(** Bytes of the other blocks of the file. *)
Lemma wo_byte_ne k : k / BSIZE ≠ bn → 0 ≤ k < MAXFILE * BSIZE →
  faddr v1 i1 (k / BSIZE) ≠ 0 → fbyte v2 i1 k = fbyte v1 i1 k.
Proof.
  intros Hk Hr Hne. pose proof (in_file_byte k Hr) as Hin. unfold fbyte. rewrite wo_faddr by done.
  rewrite wo_blk_ne; [done| |].
  - destruct (if_map _ _ _ (gr_file _ _ _ _ _ _ _ Gr) _ Hin) as [?|Hg]; [done|].
    destruct (good_disk _ _ _ wo_geom1 Hg) as (_ & _ & ?). lia.
  - apply (if_inj _ _ _ (gr_file _ _ _ _ _ _ _ Gr)); try done. apply wo_in_file.
Qed.

(** A block that was there before [bmap] has kept its bytes. *)
Lemma grow_byte k : 0 ≤ k < MAXFILE * BSIZE → ifile sb v i → faddr v i (k / BSIZE) ≠ 0 →
  fbyte v1 i1 k = fbyte v i k.
Proof.
  intros Hr F Hne. pose proof (in_file_byte k Hr) as Hin. unfold fbyte.
  rewrite (gr_keep _ _ _ _ _ _ _ Gr) by done. f_equal.
  destruct (if_map _ _ _ F _ Hin) as [?|Hg]; [done|].
  apply (gr_frame _ _ _ _ _ _ _ Gr _ Hg). by apply (if_sep _ _ _ F).
Qed.

Lemma write_one : ifile sb v i → wrote sb 2 6 v i v2 i1 off src.
Proof.
  intros F. pose proof wo_in_file as Hbn. destruct wo_good as (Hga & Hda & Hpa).
  assert (Hblock : ∀ k, off ≤ k < off + Z.of_nat (length src) → k / BSIZE = bn).
  { intros k Hk. unfold bn. unfold BSIZE in *. lia. }
  split; try apply Gr.
  - apply wo_file.
  - intros n Hn. pose proof (g_data _ _ G). rewrite wo_used by lia. by apply Gr.
  - intros n Hg. apply wo_goods. by apply (gr_frame _ _ _ _ _ _ _ Gr).
  - intros n Hg Hn Hnf. destruct (good_disk _ _ _ G Hg) as (_ & _ & ?).
    rewrite wo_blk_ne; [by apply (gr_frame _ _ _ _ _ _ _ Gr)|lia|]. intros ->.
    destruct (decide (faddr v i bn = 0)) as [E|E].
    + by apply (proj2 (gr_zero _ _ _ _ _ _ _ Gr bn Hbn E Ha)).
    + apply (Hnf bn Hbn). symmetry. by apply (gr_keep _ _ _ _ _ _ _ Gr).
  - intros n Hn. rewrite wo_blk_ne; [by apply (gr_mblk _ _ _ _ _ _ _ Gr)|lia|].
    destruct Hga as [Hr _]. unfold datastart in Hr. pose proof (g_size _ _ G).
    pose proof (Z.div_pos (sb_size sb) BPB ltac:(lia) ltac:(done)). lia.
  - intros k Hk Hne. rewrite wo_faddr by done. by apply (gr_keep _ _ _ _ _ _ _ Gr).
  - intros k Hk E0 Hne. rewrite wo_faddr in * by done.
    by apply (proj2 (gr_zero _ _ _ _ _ _ _ Gr k Hk E0 Hne)).
  - intros k Hk. rewrite (Hblock k Hk), wo_faddr by done. done.
  - intros k x Hx. pose proof (lookup_lt_Some _ _ _ Hx).
    rewrite wo_byte; [|apply Hblock; lia|lia]. rewrite decide_True by lia.
    replace (Z.to_nat (off + Z.of_nat k - off)) with k by lia. by rewrite Hx.
  - intros k Hr Hout Hne. rewrite <- (grow_byte k Hr F Hne).
    destruct (decide (k / BSIZE = bn)) as [E|E].
    + rewrite wo_byte by (done || lia). by rewrite decide_False.
    + apply wo_byte_ne; try done. by rewrite (gr_keep _ _ _ _ _ _ _ Gr) by (done || by apply in_file_byte).
  - intros Hall. apply Hsame, (Hall off). destruct src; [done|simpl; lia].
  - rewrite (nfree_ext sb v2 v1 wo_used). apply Gr.
  - pose proof (gr_pins _ _ _ _ _ _ _ Gr). unfold v2.
    pose proof (size_pins_upd a (splice (Z.to_nat (off mod BSIZE)) src (blk v1 a)) v1). lia.
Qed.
End write_one.

(** ** iupdate *)

Section iupdate.
Context {T : Type} `{TxSpec T}.
Implicit Types (v : bview) (s : fsstate (T := T)) (sb : superblock) (i : inode).

Lemma length_put_addrs d o a : (o + 4 * length a ≤ length d)%nat → length (put_addrs d o a) = length d.
Proof.
  revert d o. induction a as [|x a IH]; intros d o Hl; [done|]. cbn [put_addrs length] in *.
  rewrite IH; rewrite length_put32; lia.
Qed.

Lemma length_dinode_put d o i :
  length (i_addrs i) = Z.to_nat (NDIRECT + 1) → (o + Z.to_nat DINODESZ ≤ length d)%nat →
  length (dinode_put d o i) = length d.
Proof.
  intros Ha Ho. change (Z.to_nat (NDIRECT + 1)) with 13%nat in Ha. change (Z.to_nat DINODESZ) with 64%nat in Ho.
  unfold dinode_put. set (d1 := put16 d o _). set (d2 := put16 d1 _ _). set (d3 := put16 d2 _ _).
  set (d4 := put16 d3 _ _). set (d5 := put32 d4 _ _).
  assert (length d1 = length d) by (apply length_put16; lia).
  assert (length d2 = length d1) by (apply length_put16; lia).
  assert (length d3 = length d2) by (apply length_put16; lia).
  assert (length d4 = length d3) by (apply length_put16; lia).
  assert (length d5 = length d4) by (apply length_put32; lia).
  rewrite length_put_addrs; lia.
Qed.

Lemma d_off_bound inum : (d_off inum + Z.to_nat DINODESZ ≤ Z.to_nat BSIZE)%nat.
Proof. unfold d_off. change IPB with 8. unfold DINODESZ, BSIZE. lia. Qed.

(** The view after [iupdate]. *)
Definition inode_view sb (i : inode) v : bview :=
  view_upd (IBLOCK (i_inum i) sb) (dinode_put (blk v (IBLOCK (i_inum i) sb)) (d_off (i_inum i)) i) v.

Lemma iupdate_ok s v o ip i :
  trepr (fs_tx s) v o → geom (fs_sb s) (Z.of_nat (length (v_disk v))) → held_used (fs_sb s) v →
  ic_inode s !! ip = Some i → i_dev i = ROOTDEV → length (i_addrs i) = Z.to_nat (NDIRECT + 1) →
  0 ≤ i_inum i < sb_ninodes (fs_sb s) → budget 1 v o →
  ∃ t, iupdate ip s = Ok tt (set_tx t s) ∧ trepr t (inode_view (fs_sb s) i v) o.
Proof.
  intros R G Hh Hi Hdev Hlen Hin Hbud. destruct (budget_log 0 v o Hbud) as (Ho & Hp & Hr).
  destruct (IBLOCK_ok _ _ _ G Hin) as (Hd & Hhome & Hrange).
  destruct (fs_bread s v o _ R Hd Hhome (meta_not_held _ _ _ Hh (proj2 Hrange)) Hr)
    as (h & t & E1 & E2 & Hf & R1).
  unfold iupdate. rewrite bind_gets. mstep (iptr_ok _ _ _ Hi). rewrite Hdev. mstep E1. mstep E2.
  destruct (fs_update s t v o h _ (dinode_put (blk v (IBLOCK (i_inum i) (fs_sb s))) (d_off (i_inum i)) i) R1 Hf)
    as (t1 & t2 & t3 & E3 & E4 & E5 & R3); try done.
  { pose proof (blk_length v _ (trepr_wf _ _ _ R) Hd) as Hl. pose proof (d_off_bound (i_inum i)).
    rewrite length_dinode_put; [done|done|]. rewrite Hl. lia. }
  mstep E3. mstep E4. by exists t3.
Qed.

(** An update of a metadata block leaves the files alone. *)
Lemma meta_upd_file sb v n d i :
  geom sb (Z.of_nat (length (v_disk v))) → 0 ≤ n < sb_bmapstart sb → ifile sb v i →
  ifile sb (view_upd n d v) i ∧
  (∀ bn, in_file bn → faddr (view_upd n d v) i bn = faddr v i bn) ∧
  (∀ k, 0 ≤ k < MAXFILE * BSIZE → faddr v i (k / BSIZE) ≠ 0 → fbyte (view_upd n d v) i k = fbyte v i k) ∧
  (∀ a, good sb v a → good sb (view_upd n d v) a ∧ blk (view_upd n d v) a = blk v a) ∧
  (meta_used sb v → meta_used sb (view_upd n d v)) ∧
  nfree sb (view_upd n d v) = nfree sb v.
Proof.
  intros G Hn F. set (v' := view_upd n d v). pose proof (datastart_pos _ _ G). pose proof (g_data _ _ G).
  pose proof (g_size _ _ G). pose proof (Z.div_pos (sb_size sb) BPB ltac:(lia) ltac:(done)).
  assert (Hds : sb_bmapstart sb < datastart sb) by (unfold datastart; lia).
  assert (Hu : ∀ b, 0 ≤ b < sb_size sb → used sb v' b = used sb v b).
  { intros b Hb. apply used_upd_other; try done; lia. }
  assert (Hg : ∀ a, good sb v a → good sb v' a ∧ blk v' a = blk v a).
  { intros a [Ha Hua]. split; [split; [done|]; rewrite Hu by lia; done|]. apply blk_upd_ne; lia. }
  assert (Hfa : ∀ bn, in_file bn → faddr v' i bn = faddr v i bn).
  { intros bn Hbn. unfold faddr. destruct (bn <? NDIRECT); [done|].
    destruct (Z.eqb_spec (iaddr i NDIRECT) 0); [done|].
    destruct (if_ind _ _ _ F) as [?|Hgi]; [done|]. by rewrite (proj2 (Hg _ Hgi)). }
  split_and!; try done.
  - split; try apply F.
    + destruct (if_ind _ _ _ F) as [?|Hgi]; [by left|right]. by apply Hg.
    + intros bn Hbn. rewrite Hfa by done. destruct (if_map _ _ _ F bn Hbn) as [?|Hgi]; [by left|right].
      by apply Hg.
    + intros bn bn' Hbn Hbn'. rewrite !Hfa by done. by apply F.
    + intros bn Hbn. rewrite Hfa by done. by apply F.
  - intros k Hk Hne. unfold fbyte. rewrite Hfa by (by apply in_file_byte). f_equal.
    destruct (if_map _ _ _ F _ (in_file_byte k Hk)) as [?|Hgk]; [done|]. by apply Hg.
  - intros Hm b Hb. rewrite Hu by lia. by apply Hm.
  - by apply nfree_ext.
Qed.
End iupdate.

(** ** writei *)

Section writei.
Context {T : Type} `{TxSpec T}.
Context (devsw : Z → option (device (T := T))).
Implicit Types (v : bview) (s : fsstate (T := T)) (sb : superblock) (i : inode).

(** How many blocks the bytes from [off] to [off + n] touch. *)
Definition nblks (off n : Z) : Z :=
  if n =? 0 then 0 else (off + n + BSIZE - 1) / BSIZE - off / BSIZE.

(** What [writei_loop] does, as a relation. *)
Definition writes_ok s v o ip i off src s' : Prop :=
  ∃ t v' i' nf np, s' = set_tx t (upd_ino ip i' s) ∧ trepr t v' o ∧
    wrote (fs_sb s) nf np v i v' i' off src ∧
    Z.of_nat np ≤ 6 * nblks off (Z.of_nat (length src)) ∧
    Z.of_nat nf ≤ 2 * nblks off (Z.of_nat (length src)).

Lemma fsok_wrote s v o ip i t nf np v' i' off src :
  fsok s v o ip i → trepr t v' o → wrote (fs_sb s) nf np v i v' i' off src →
  fsok (set_tx t (upd_ino ip i' s)) v' o ip i'.
Proof.
  intros Fo R Wr. split; simpl; try done.
  - rewrite (wr_len _ _ _ _ _ _ _ _ _ Wr). apply Fo.
  - apply Wr.
  - apply list_lookup_insert_eq. eapply lookup_lt_Some, (fo_ino _ _ _ _ _ Fo).
  - apply Wr.
  - rewrite (wr_held _ _ _ _ _ _ _ _ _ Wr). apply Fo.
Qed.

(** One round of the loop. *)
Lemma writei_round s v o ip i off src :
  fsok s v o ip i → 0 ≤ off → src ≠ [] → off mod BSIZE + Z.of_nat (length src) ≤ BSIZE →
  off + Z.of_nat (length src) ≤ MAXFILE * BSIZE → budget 6 v o → (2 ≤ nfree (fs_sb s) v)%nat →
  ∃ a t v1 i1, bmap ip (off / BSIZE) s = Ok a (set_tx t (upd_ino ip i1 s)) ∧
    i_dev i1 = ROOTDEV ∧
    ∃ h t1 d t2 t3 t4,
      let s1 := upd_ino ip i1 s in
      on_tx (tx_bread ROOTDEV a) (set_tx t s1) = Ok h (set_tx t1 s1) ∧
      on_tx (tx_data h) (set_tx t1 s1) = Ok d (set_tx t1 s1) ∧
      on_tx (tx_set h (splice (Z.to_nat (off mod BSIZE)) src d)) (set_tx t1 s1) = Ok tt (set_tx t2 s1) ∧
      on_tx (tx_log_write h) (set_tx t2 s1) = Ok tt (set_tx t3 s1) ∧
      on_tx (tx_brelse h) (set_tx t3 s1) = Ok tt (set_tx t4 s1) ∧
      ∃ v2, trepr t4 v2 o ∧ wrote (fs_sb s) 2 6 v i v2 i1 off src.
Proof.
  intros Fo Ho Hne Hfit Hmax Hbud Hfree. set (sb := fs_sb s).
  assert (Hlen : (0 < length src)%nat) by (destruct src; [done|simpl; lia]).
  assert (Hbn : in_file (off / BSIZE)) by (apply in_file_byte; lia).
  destruct (bmap_ok s v o ip i _ Fo Hbn Hbud Hfree) as (a & t & v1 & i1 & E & R & Gr & Ea & Ha & Hsame).
  pose proof (fsok_grows _ _ _ _ _ _ _ _ _ _ Fo R Gr) as Fo1. fold sb in Gr.
  exists a, t, v1, i1. split; [done|]. split; [apply (if_dev _ _ _ (fo_file _ _ _ _ _ Fo1))|].
  pose proof (gr_file _ _ _ _ _ _ _ Gr) as F1. pose proof (fo_geom _ _ _ _ _ Fo1) as G1.
  destruct (if_map _ _ _ F1 _ Hbn) as [?|Hg]; [congruence|]. rewrite Ea in Hg.
  destruct (good_disk _ _ _ G1 Hg) as (Hin & Hh & Hpos).
  assert (Hno : not_held v1 a) by (intros h; by rewrite (fo_held _ _ _ _ _ Fo1), lookup_empty).
  assert (Hbud1 : budget 1 v1 o) by (by apply (budget_grows sb 1 5 2 v i v1 i1)).
  destruct (budget_log 0 v1 o Hbud1) as (Ho1 & Hp1 & Hr1).
  destruct (fs_bread (set_tx t (upd_ino ip i1 s)) v1 o a R Hin Hh Hno Hr1) as (h & t1 & E1 & E2 & Hf & R1).
  pose proof (blk_length v1 a (fo_wf _ _ _ _ _ Fo1) Hin) as Hl1.
  pose proof (Z.mod_pos_bound off BSIZE ltac:(done)).
  destruct (fs_update (upd_ino ip i1 s) t1 v1 o h a (splice (Z.to_nat (off mod BSIZE)) src (blk v1 a)) R1 Hf)
    as (t2 & t3 & t4 & E3 & E4 & E5 & R4); try done.
  { rewrite length_splice; [done|]. rewrite Hl1. lia. }
  exists h, t1, (blk v1 a), t2, t3, t4. cbv zeta. rewrite !set_tx_set_tx in E1, E2. split_and!; try done.
  eexists. split; [exact R4|]. subst a.
  apply (write_one sb v i v1 i1 off src); try done.
  - apply (fo_wf _ _ _ _ _ Fo1).
  - apply Fo.
  - apply Fo.
Qed.

Lemma nblks_pos off n : 0 ≤ off → 0 ≤ n → 0 ≤ nblks off n.
Proof. unfold nblks, BSIZE. intros. destruct (Z.eqb_spec n 0); lia. Qed.

Lemma nblks_first off n m : 0 ≤ off → 0 < n → m = Z.min n (BSIZE - off mod BSIZE) →
  0 < m ≤ n ∧ off mod BSIZE + m ≤ BSIZE ∧ nblks off n = 1 + nblks (off + m) (n - m).
Proof.
  unfold nblks, BSIZE. intros Ho Hn ->.
  destruct (Z.eqb_spec n 0); [lia|].
  destruct (Z.min_spec n (512 - off mod 512)) as [[? ->]|[? ->]].
  - rewrite Z.sub_diag. simpl. lia.
  - destruct (Z.eqb_spec (n - (512 - off mod 512)) 0); lia.
Qed.

Lemma writes_nil s v o ip i off : fsok s v o ip i → 0 ≤ off → writes_ok s v o ip i off [] s.
Proof.
  intros Fo Ho. exists (fs_tx s), v, i, 0%nat, 0%nat.
  rewrite (upd_ino_id _ _ _ (fo_ino _ _ _ _ _ Fo)), set_tx_id. change (Z.of_nat (length [])) with 0.
  pose proof (nblks_pos off 0 Ho ltac:(lia)). split_and!; try done; try lia; [apply Fo|].
  apply wrote_nil; apply Fo.
Qed.

Lemma budget_wrote sb k np nf v i v' i' off src o :
  budget (np + k) v o → wrote sb nf np v i v' i' off src → budget k v' o.
Proof.
  intros (Ho & Hp & Hr) Wr. pose proof (wr_pins _ _ _ _ _ _ _ _ _ Wr).
  unfold budget, room in *. rewrite (wr_held _ _ _ _ _ _ _ _ _ Wr). lia.
Qed.

Lemma writei_loop_ok fuel s v o ip i off src :
  fsok s v o ip i → 0 ≤ off → off + Z.of_nat (length src) ≤ MAXFILE * BSIZE →
  (length src ≤ fuel)%nat →
  budget (Z.to_nat (6 * nblks off (Z.of_nat (length src)))) v o →
  2 * nblks off (Z.of_nat (length src)) ≤ Z.of_nat (nfree (fs_sb s) v) →
  ∃ s', writei_loop fuel ip src off s = Ok (off + Z.of_nat (length src)) s' ∧
        writes_ok s v o ip i off src s'.
Proof.
  revert s v i off src. induction fuel as [|fuel IH]; intros s v i off src Fo Ho Hmax Hfuel Hbud Hfree.
  - destruct src; [|simpl in *; lia]. exists s. simpl. split; [by rewrite Z.add_0_r|]. by apply writes_nil.
  - destruct src as [|x src0].
    { exists s. simpl. split; [by rewrite Z.add_0_r|]. by apply writes_nil. }
    cbn [writei_loop]. set (src := x :: src0) in *. set (n := Z.of_nat (length src)) in *.
    assert (Hn : 0 < n) by (unfold n, src; simpl; lia).
    destruct (nblks_first off n (Z.min n (BSIZE - off mod BSIZE)) Ho Hn eq_refl) as (Hm & Hmb & Hcase).
    set (mz := Z.min n (BSIZE - off mod BSIZE)) in *. set (m := Z.to_nat mz).
    assert (Hlm : length (take m src) = m) by (rewrite length_take; unfold n in Hm; lia).
    assert (Hn1 : 1 ≤ nblks off n) by (pose proof (nblks_pos (off + mz) (n - mz) ltac:(lia) ltac:(lia)); lia).
    destruct (writei_round s v o ip i off (take m src) Fo Ho)
      as (a & t & v1 & i1 & E & Hdev & h & t1 & d & t2 & t3 & t4 & E1 & E2 & E3 & E4 & E5 & v2 & R2 & Wr).
    { intros Hz. rewrite Hz in Hlm. simpl in Hlm. lia. }
    { lia. }
    { lia. }
    { apply (budget_weaken (Z.to_nat (6 * nblks off n))); [lia|done]. }
    { lia. }
    mstep E. mstep (iptr_ok (set_tx t (upd_ino ip i1 s)) ip i1 (upd_ino_lookup _ _ _ _ (fo_ino _ _ _ _ _ Fo))).
    rewrite Hdev. mstep E1. mstep E2. mstep E3. mstep E4. mstep E5.
    pose proof (fsok_wrote _ _ _ _ _ _ _ _ _ _ _ _ Fo R2 Wr) as Fo2.
    pose proof (wr_free _ _ _ _ _ _ _ _ _ Wr) as Hwf.
    assert (Hld : Z.of_nat (length (drop m src)) = n - mz) by (rewrite length_drop; unfold n; lia).
    replace (off + Z.of_nat m) with (off + mz) by lia.
    destruct (IH (set_tx t4 (upd_ino ip i1 s)) v2 i1 (off + mz) (drop m src) Fo2) as (s' & E6 & W2).
    + lia.
    + lia.
    + rewrite length_drop. unfold src in *. simpl in *. lia.
    + rewrite Hld. apply (budget_wrote (fs_sb s) _ 6 2 v i v2 i1 off (take m src)); [|done].
      apply (budget_weaken (Z.to_nat (6 * nblks off n))); [lia|done].
    + rewrite Hld. simpl fs_sb. lia.
    + rewrite E6, Hld. replace (off + mz + (n - mz)) with (off + n) by lia.
      exists s'. split; [done|]. destruct W2 as (t5 & v5 & i5 & nf & np & -> & R5 & Wr5 & Hnp & Hnf).
      exists t5, v5, i5, (2 + nf)%nat, (6 + np)%nat. split_and!; try done.
      * apply upd_ino_tx.
      * rewrite <- (take_drop m src).
        apply wrote_app with v2 i1; [done| |done|].
        -- rewrite Hlm, length_drop. lia.
        -- rewrite Hlm. by replace (off + Z.of_nat m) with (off + mz) by lia.
      * fold n. rewrite Hld in Hnp. lia.
      * fold n. rewrite Hld in Hnf. lia.
Qed.
(** ** The contents of a file as a list of bytes *)

Definition contents v i : list Z := fbytes v i 0 (i_size i).

(** Block map and bytes do not depend on the size. *)
Lemma set_isize_file sb v i n : ifile sb v (set_isize n i) ↔ ifile sb v i.
Proof. split; intros []; by split. Qed.

(** What a caller of [writei] can rely on. *)
Record written s v o ip i off src (s' : fsstate (T := T)) v' i' : Prop := {
  wn_ok : fsok s' v' o ip i';
  wn_state : ∃ t, s' = set_tx t (upd_ino ip i' s);
  wn_len : length (v_disk v') = length (v_disk v);
  wn_size : i_size i' = Z.max (i_size i) (off + Z.of_nat (length src));
  wn_meta : i_type i' = i_type i ∧ i_inum i' = i_inum i ∧ i_nlink i' = i_nlink i ∧
            i_ref i' = i_ref i ∧ i_lock i' = i_lock i ∧ i_valid i' = i_valid i ∧ i_dev i' = i_dev i ∧
            i_major i' = i_major i ∧ i_minor i' = i_minor i;
  wn_holes : no_holes v' i';
  wn_contents : contents v' i' = splice (Z.to_nat off) src (contents v i);
  wn_disk : (i' = i ∧ ∀ n, 0 ≤ n < sb_bmapstart (fs_sb s) → blk v' n = blk v n) ∨
    (∀ n, 0 ≤ n < sb_bmapstart (fs_sb s) → blk v' n =
       if decide (n = IBLOCK (i_inum i) (fs_sb s)) then dinode_put (blk v n) (d_off (i_inum i)) i' else blk v n);
  wn_frame : ∀ n, good (fs_sb s) v n → n ≠ iaddr i NDIRECT → (∀ bn, in_file bn → faddr v i bn ≠ n) →
    good (fs_sb s) v' n ∧ blk v' n = blk v n;
  wn_new : ∀ n, good (fs_sb s) v n → n ≠ iaddr i NDIRECT → (∀ bn, in_file bn → faddr v i bn ≠ n) →
    n ≠ iaddr i' NDIRECT ∧ ∀ bn, in_file bn → faddr v' i' bn ≠ n;
  wn_free : Z.of_nat (nfree (fs_sb s) v) ≤ Z.of_nat (nfree (fs_sb s) v') + 2 * nblks off (Z.of_nat (length src)) }.

Lemma length_contents v i : 0 ≤ i_size i → length (contents v i) = Z.to_nat (i_size i).
Proof. intros. unfold contents, fbytes. by rewrite length_fmap, length_seqZ. Qed.

Lemma lookup_contents v i k : 0 ≤ k < i_size i → contents v i !! Z.to_nat k = Some (fbyte v i k).
Proof.
  intros Hk. unfold contents, fbytes. rewrite list_lookup_fmap, lookup_seqZ_lt by lia. simpl. do 2 f_equal. lia.
Qed.

Lemma contents_splice v i v' i' off src :
  0 ≤ off ≤ i_size i → i_size i' = Z.max (i_size i) (off + Z.of_nat (length src)) →
  (∀ k x, src !! k = Some x → fbyte v' i' (off + Z.of_nat k) = x) →
  (∀ k, 0 ≤ k < i_size i → ¬ (off ≤ k < off + Z.of_nat (length src)) → fbyte v' i' k = fbyte v i k) →
  contents v' i' = splice (Z.to_nat off) src (contents v i).
Proof.
  intros Ho Hsz Hin Hout. pose proof (length_contents v i ltac:(lia)) as Hl.
  apply list_eq. intros k. destruct (decide (Z.of_nat k < i_size i')) as [Hk|Hk].
  - rewrite <- (Nat2Z.id k) at 1. rewrite lookup_contents by lia.
    destruct (decide (off ≤ Z.of_nat k < off + Z.of_nat (length src))) as [Hr|Hr].
    + rewrite lookup_splice_in by lia.
      destruct (lookup_lt_is_Some_2 src (k - Z.to_nat off)) as [x Hx]; [lia|]. rewrite Hx. f_equal.
      rewrite <- (Hin _ _ Hx). f_equal. lia.
    + rewrite Hout by lia. rewrite <- (lookup_contents v i) by lia. rewrite Nat2Z.id.
      destruct (decide (k < Z.to_nat off)%nat).
      * by rewrite lookup_splice_lt by lia.
      * by rewrite lookup_splice_ge by lia.
  - rewrite !lookup_ge_None_2; [done| |rewrite length_contents; lia].
    unfold splice. rewrite !length_app, length_take, length_drop. lia.
Qed.

Lemma no_holes_wrote sb nf np v i v' i' off src :
  0 ≤ off ≤ i_size i → i_size i ≤ MAXFILE * BSIZE → off + Z.of_nat (length src) ≤ MAXFILE * BSIZE →
  no_holes v i → wrote sb nf np v i v' i' off src →
  ∀ bn, 0 ≤ bn → bn * BSIZE < Z.max (i_size i) (off + Z.of_nat (length src)) → faddr v' i' bn ≠ 0.
Proof.
  intros Ho Hs1 Hs2 Hnh Wr bn Hbn Hlt.
  destruct (decide (bn * BSIZE < i_size i)) as [Hin|Hout].
  - assert (in_file bn) by (unfold in_file, BSIZE in *; lia).
    rewrite (wr_keep _ _ _ _ _ _ _ _ _ Wr); [|done|]; by apply Hnh.
  - pose proof (wr_there _ _ _ _ _ _ _ _ _ Wr (bn * BSIZE)) as Hth.
    rewrite Z.div_mul in Hth by done. apply Hth. lia.
Qed.

(** The guards of [writei] pass and its loop runs. *)
Lemma writei_runs s ip i off src s1 :
  let n := Z.of_nat (length src) in
  ic_inode s !! ip = Some i → i_type i ≠ T_DEV → 0 ≤ off ≤ i_size i → off + n ≤ MAXFILE * BSIZE →
  writei_loop (Z.to_nat n) ip src off s = Ok (off + n) s1 →
  writei devsw ip src off n s =
  (i ← iptr ip;
   (if (0 <? n) && (i_size i <? off + n) then iset ip (set_isize (off + n));; iupdate ip else mret tt);;
   mret n) s1.
Proof.
  intros n Hi Ht Ho Hs E. unfold writei. mstep (iptr_ok _ _ _ Hi). rewrite (proj2 (Z.eqb_neq _ _) Ht).
  assert (MAXFILE * BSIZE < 4294967296) by done.
  destruct (Z.ltb_spec (i_size i) off); [lia|]. rewrite u32_small by lia.
  destruct (Z.ltb_spec (off + n) off); [lia|]. cbn [orb].
  destruct (Z.ltb_spec (MAXFILE * BSIZE) (off + n)); [lia|].
  destruct (Nat.ltb_spec (length src) (Z.to_nat n)); [lia|].
  rewrite take_ge by lia. by mstep E.
Qed.

(** The blocks that the file has got were free. *)
Lemma wrote_new sb nf np v i v' i' off src n : geom sb (Z.of_nat (length (v_disk v))) → wrote sb nf np v i v' i' off src → good sb v n →
  n ≠ iaddr i NDIRECT → (∀ bn, in_file bn → faddr v i bn ≠ n) → n ≠ iaddr i' NDIRECT ∧ ∀ bn, in_file bn → faddr v' i' bn ≠ n.
Proof.
  intros G Wr Hg Hi Hf. destruct (good_disk _ _ _ G Hg) as (_ & _ & Hn). split.
  - destruct (decide (iaddr i NDIRECT = 0)) as [Hz|Hz]; [|by rewrite (wr_ind _ _ _ _ _ _ _ _ _ Wr Hz)].
    destruct (decide (iaddr i' NDIRECT = 0)) as [Hz'|Hz']; [lia|]. intros ->. by apply (wr_indnew _ _ _ _ _ _ _ _ _ Wr Hz Hz').
  - intros bn Hb. destruct (decide (faddr v i bn = 0)) as [Hz|Hz]; [|rewrite (wr_keep _ _ _ _ _ _ _ _ _ Wr _ Hb Hz); by apply Hf].
    destruct (decide (faddr v' i' bn = 0)) as [Hz'|Hz']; [lia|]. intros <-. by apply (wr_new _ _ _ _ _ _ _ _ _ Wr bn Hb Hz Hz').
Qed.

(** The loop did not go past the end of the file. *)
Lemma written_same s v o ip i off src t nf np v1 i1 :
  fsok s v o ip i → no_holes v i → 0 ≤ off → off + Z.of_nat (length src) ≤ i_size i ≤ MAXFILE * BSIZE →
  trepr t v1 o → wrote (fs_sb s) nf np v i v1 i1 off src → Z.of_nat nf ≤ 2 * nblks off (Z.of_nat (length src)) →
  written s v o ip i off src (set_tx t (upd_ino ip i1 s)) v1 i1.
Proof.
  intros Fo Hnh Ho Hs R Wr Hfr. pose proof (wr_ino _ _ _ _ _ _ _ _ _ Wr) as Ei.
  assert (Hsz : i_size i1 = i_size i) by (by rewrite Ei).
  split; [by eapply fsok_wrote|by exists t|apply Wr|lia|by rewrite Ei| | | | | |pose proof (wr_free _ _ _ _ _ _ _ _ _ Wr); lia].
  - intros bn Hbn Hlt. rewrite Hsz in Hlt. eapply (no_holes_wrote (fs_sb s)); try done; lia.
  - apply contents_splice; [lia|lia|apply Wr|]. intros k Hk Hout.
    apply (wr_others _ _ _ _ _ _ _ _ _ Wr); [lia|done|]. apply Hnh; unfold BSIZE in *; lia.
  - left. split; [|apply Wr]. apply (wr_same _ _ _ _ _ _ _ _ _ Wr). intros k Hk. apply Hnh; unfold BSIZE in *; lia.
  - intros m Hg Hm Hnf. split; [by apply (wr_good _ _ _ _ _ _ _ _ _ Wr)|by apply (wr_frame _ _ _ _ _ _ _ _ _ Wr)].
  - intros m Hg. by apply (wrote_new _ _ _ _ _ _ _ _ _ _ (fo_geom _ _ _ _ _ Fo) Wr).
Qed.

(** It did: the new size goes to the inode and to the disk. *)
Lemma written_grown s v o ip i off src t nf np v1 i1 :
  let n := Z.of_nat (length src) in
  let i2 := set_isize (off + n) i1 in
  fsok s v o ip i → no_holes v i → 0 ≤ i_inum i < sb_ninodes (fs_sb s) →
  0 ≤ off ≤ i_size i → i_size i < off + n ≤ MAXFILE * BSIZE →
  trepr t v1 o → wrote (fs_sb s) nf np v i v1 i1 off src → Z.of_nat nf ≤ 2 * nblks off n → budget 1 v1 o →
  ∃ t2, iupdate ip (upd_ino ip i2 (set_tx t (upd_ino ip i1 s))) = Ok tt (set_tx t2 (upd_ino ip i2 s)) ∧
    written s v o ip i off src (set_tx t2 (upd_ino ip i2 s)) (inode_view (fs_sb s) i2 v1) i2.
Proof.
  intros n i2 Fo Hnh Hinum Ho Hs R Wr Hfr Hbud. pose proof (wr_ino _ _ _ _ _ _ _ _ _ Wr) as Ei.
  pose proof (fsok_wrote _ _ _ _ _ _ _ _ _ _ _ _ Fo R Wr) as Fo1. set (sb := fs_sb s) in *.
  pose proof (fo_geom _ _ _ _ _ Fo1) as G1. change (fs_sb (set_tx t (upd_ino ip i1 s))) with sb in G1.
  assert (Hn2 : i_inum i2 = i_inum i) by (unfold i2; by rewrite Ei).
  pose proof (wr_file _ _ _ _ _ _ _ _ _ Wr) as F1. assert (F2 : ifile sb v1 i2) by (by apply set_isize_file).
  destruct (iupdate_ok (upd_ino ip i2 (set_tx t (upd_ino ip i1 s))) v1 o ip i2) as (t2 & E2 & R2); try done.
  { apply held_used_empty, (fo_held _ _ _ _ _ Fo1). }
  { eapply upd_ino_lookup, (fo_ino _ _ _ _ _ Fo1). }
  { apply F2. }
  { apply F2. }
  { by rewrite Hn2. }
  change (fs_sb _) with sb in R2. exists t2. split; [rewrite E2; f_equal; apply upd_ino_tx|].
  destruct (g_inodes _ _ G1) as [_ Hib]. specialize (Hib _ Hinum). rewrite <- Hn2 in Hib, Hinum.
  destruct (IBLOCK_ok _ _ _ G1 Hinum) as (_ & _ & Hpos).
  destruct (meta_upd_file sb v1 (IBLOCK (i_inum i2) sb)
    (dinode_put (blk v1 (IBLOCK (i_inum i2) sb)) (d_off (i_inum i2)) i2) i2 G1 ltac:(lia) F2)
    as (F3 & Hfa & Hfb & Hg & Hm & Hnf2). fold (inode_view sb i2 v1) in F3, Hfa, Hfb, Hg, Hm, Hnf2.
  assert (Hnh1 : ∀ bn, 0 ≤ bn → bn * BSIZE < off + n → faddr v1 i2 bn ≠ 0).
  { intros bn Hbn Hlt. change (faddr v1 i2 bn) with (faddr v1 i1 bn).
    apply (no_holes_wrote sb nf np v i v1 i1 off src); try done; fold n; lia. }
  split.
  - split; simpl; try done.
    + apply Hm, Wr.
    + rewrite list_lookup_insert_eq; [done|]. eapply lookup_lt_Some, (fo_ino _ _ _ _ _ Fo).
    + rewrite (wr_held _ _ _ _ _ _ _ _ _ Wr). apply Fo.
  - by exists t2.
  - apply Wr.
  - unfold i2. simpl. fold n. lia.
  - unfold i2. simpl. by rewrite Ei.
  - intros bn Hbn Hlt. simpl in Hlt. rewrite Hfa; [by apply Hnh1|]. unfold in_file, BSIZE in *. lia.
  - apply contents_splice; [lia|simpl; fold n; lia| |].
    + intros k x Hx. rewrite <- (wr_bytes _ _ _ _ _ _ _ _ _ Wr k x Hx). pose proof (lookup_lt_Some _ _ _ Hx).
      apply (Hfb (off + Z.of_nat k)); [lia|]. apply Hnh1; unfold BSIZE in *; lia.
    + intros k Hk Hout. assert (Hne : faddr v i (k / BSIZE) ≠ 0) by (apply Hnh; unfold BSIZE in *; lia).
      rewrite Hfb; [|lia|apply Hnh1; unfold BSIZE in *; lia].
      apply (wr_others _ _ _ _ _ _ _ _ _ Wr); [lia|done|done].
  - right. fold sb. intros m Hmr. unfold inode_view. rewrite Hn2. rewrite Hn2 in Hpos. destruct (decide (m = IBLOCK (i_inum i) sb)) as [->|Hne].
    + rewrite blk_upd_eq by (rewrite <- ?Hn2; (apply (IBLOCK_ok _ _ _ G1 Hinum) || by eapply trepr_wf)).
      rewrite (wr_mblk _ _ _ _ _ _ _ _ _ Wr _ Hmr). reflexivity.
    + rewrite blk_upd_ne by lia. by apply (wr_mblk _ _ _ _ _ _ _ _ _ Wr).
  - intros m Hgm Hm1 Hnf. destruct (Hg m) as [Hg2 Eb]; [by apply (wr_good _ _ _ _ _ _ _ _ _ Wr)|].
    split; [done|]. rewrite Eb. by apply (wr_frame _ _ _ _ _ _ _ _ _ Wr).
  - intros m Hgm Hm1 Hnf. destruct (wrote_new _ _ _ _ _ _ _ _ _ _ (fo_geom _ _ _ _ _ Fo) Wr Hgm Hm1 Hnf) as [N1 N2].
    split; [done|]. intros bn Hb. rewrite Hfa by done. by apply N2.
  - fold sb n. rewrite Hnf2. pose proof (wr_free _ _ _ _ _ _ _ _ _ Wr). lia.
Qed.

Lemma writei_ok s v o ip i off src :
  fsok s v o ip i → no_holes v i → i_type i ≠ T_DEV → 0 ≤ i_inum i < sb_ninodes (fs_sb s) →
  0 ≤ off ≤ i_size i → i_size i ≤ MAXFILE * BSIZE →
  off + Z.of_nat (length src) ≤ MAXFILE * BSIZE →
  budget (Z.to_nat (6 * nblks off (Z.of_nat (length src)) + 1)) v o →
  2 * nblks off (Z.of_nat (length src)) ≤ Z.of_nat (nfree (fs_sb s) v) →
  ∃ s' v' i', writei devsw ip src off (Z.of_nat (length src)) s = Ok (Z.of_nat (length src)) s' ∧
    written s v o ip i off src s' v' i'.
Proof.
  intros Fo Hnh Ht Hinum Ho Hs1 Hs2 Hbud Hfree. set (n := Z.of_nat (length src)) in *.
  pose proof (nblks_pos off n ltac:(lia) ltac:(lia)).
  destruct (writei_loop_ok (Z.to_nat n) s v o ip i off src Fo) as (s1 & E & t & v1 & i1 & nf & np & -> & R & Wr & Hnp & Hnf).
  { lia. }
  { done. }
  { lia. }
  { eapply budget_weaken; [|exact Hbud]. fold n. lia. }
  { done. }
  fold n in E, Hnp, Hnf. pose proof (fsok_wrote _ _ _ _ _ _ _ _ _ _ _ _ Fo R Wr) as Fo1.
  assert (Hsz1 : i_size i1 = i_size i) by (by rewrite (wr_ino _ _ _ _ _ _ _ _ _ Wr)).
  pose proof (writei_runs s ip i off src _ (fo_ino _ _ _ _ _ Fo) Ht Ho Hs2 E) as Er. fold n in Er. rewrite Er.
  mstep (iptr_ok _ _ _ (fo_ino _ _ _ _ _ Fo1)). rewrite Hsz1.
  destruct ((0 <? n) && (i_size i <? off + n)) eqn:Hc.
  - apply andb_true_iff in Hc as [_ Hc]. apply Z.ltb_lt in Hc. rewrite bind_assoc.
    mstep (iset_ok _ _ _ (set_isize (off + n)) (fo_ino _ _ _ _ _ Fo1)).
    destruct (written_grown s v o ip i off src t nf np v1 i1 Fo Hnh Hinum Ho ltac:(fold n; lia) R Wr Hnf)
      as (t2 & E2 & Wn).
    { eapply budget_wrote; [|exact Wr]. eapply budget_weaken; [|exact Hbud]. lia. }
    mstep E2. eexists _, _, _. split; [reflexivity|exact Wn].
  - rewrite bind_ret_l. eexists _, _, _. split; [reflexivity|].
    eapply written_same; try done; [lia|]. fold n.
    apply andb_false_iff in Hc as [Hc|Hc]; apply Z.ltb_ge in Hc; lia.
Qed.

(** The guards of [writei]. *)
Lemma writei_bad s ip i src off n :
  ic_inode s !! ip = Some i → i_type i ≠ T_DEV →
  i_size i < off ∨ u32 (off + n) < off ∨ MAXFILE * BSIZE < off + n →
  writei devsw ip src off n s = Ok (-1) s.
Proof.
  intros Hi Ht Hbad. unfold writei. mstep (iptr_ok _ _ _ Hi). rewrite (proj2 (Z.eqb_neq _ _) Ht).
  destruct (Z.ltb_spec (i_size i) off); [done|]. destruct (Z.ltb_spec (u32 (off + n)) off); [done|].
  by destruct (Z.ltb_spec (MAXFILE * BSIZE) (off + n)); [|lia].
Qed.
End writei.

(** ** The theorems on files and blocks *)

Section file_theorems.
Context {T : Type} `{TxSpec T}.
Context (devsw : Z → option (device (T := T))).
Implicit Types (v : bview) (s : fsstate (T := T)) (i : inode).

Lemma trepr_room t v o : trepr t v o → v_held v = ∅ → room 1 v.
Proof.
  intros R He. pose proof (trepr_pins _ _ _ R). unfold room. rewrite He, map_size_empty. lia.
Qed.

Lemma fbytes_contents v i off n : 0 ≤ off → 0 ≤ n → off + n ≤ i_size i →
  fbytes v i off n = slice (Z.to_nat off) (Z.to_nat n) (contents v i).
Proof.
  intros Ho Hn Hs. unfold contents. rewrite (fbytes_app devsw v i 0 off (i_size i)) by lia.
  rewrite (fbytes_app devsw v i (0 + off) n (i_size i - off)) by lia. unfold slice.
  rewrite drop_app_length' by (unfold fbytes; rewrite length_fmap, length_seqZ; lia).
  rewrite take_app_length' by (unfold fbytes; rewrite length_fmap, length_seqZ; lia). done.
Qed.

(** C7: [writei] inside a transaction with room and free blocks returns the
    number of bytes it was given; the contents of the file become the old ones
    with the bytes put in at the offset (growing the file as needed), and the
    blocks of every other file keep their contents. *)
Theorem writei_correct s v o ip i off src :
  fsok s v o ip i → no_holes v i → i_type i ≠ T_DEV → 0 ≤ i_inum i < sb_ninodes (fs_sb s) →
  0 ≤ off ≤ i_size i → i_size i ≤ MAXFILE * BSIZE →
  off + Z.of_nat (length src) ≤ MAXFILE * BSIZE →
  budget (Z.to_nat (6 * nblks off (Z.of_nat (length src)) + 1)) v o →
  2 * nblks off (Z.of_nat (length src)) ≤ Z.of_nat (nfree (fs_sb s) v) →
  ∃ s' v' i', writei devsw ip src off (Z.of_nat (length src)) s = Ok (Z.of_nat (length src)) s'
    ∧ fsok s' v' o ip i' ∧ no_holes v' i'
    ∧ i_size i' = Z.max (i_size i) (off + Z.of_nat (length src))
    ∧ contents v' i' = splice (Z.to_nat off) src (contents v i)
    ∧ ∀ j, ifile (fs_sb s) v j →
        (∀ b b', in_file b → in_file b' → faddr v j b ≠ 0 → faddr v j b ≠ faddr v i b') →
        (∀ b, in_file b → faddr v j b ≠ 0 → faddr v j b ≠ iaddr i NDIRECT) →
        ∀ b, in_file b → faddr v j b ≠ 0 → blk v' (faddr v j b) = blk v (faddr v j b).
Proof.
  intros Fo Hnh Ht Hin Ho Hs1 Hs2 Hbud Hfree.
  destruct (writei_ok devsw s v o ip i off src Fo Hnh Ht Hin Ho Hs1 Hs2 Hbud Hfree)
    as (s' & v' & i' & E & [W1 _ _ W2 _ W3 W4 _ W5 _ _]).
  exists s', v', i'. split_and!; try done. intros j Fj Hd1 Hd2 b Hb Hne.
  destruct (if_map _ _ _ Fj b Hb) as [?|Hg]; [done|].
  apply (W5 _ Hg); [by apply Hd2|]. intros bn Hbn E'. by apply (Hd1 b bn Hb Hbn Hne).
Qed.

(** C8: what [writei] has written, [readi] reads back. *)
Theorem write_read_back s v o ip i off src :
  fsok s v o ip i → no_holes v i → i_type i ≠ T_DEV → 0 ≤ i_inum i < sb_ninodes (fs_sb s) →
  0 ≤ off ≤ i_size i → i_size i ≤ MAXFILE * BSIZE →
  off + Z.of_nat (length src) ≤ MAXFILE * BSIZE →
  budget (Z.to_nat (6 * nblks off (Z.of_nat (length src)) + 1)) v o →
  2 * nblks off (Z.of_nat (length src)) ≤ Z.of_nat (nfree (fs_sb s) v) →
  ∃ s' t, writei devsw ip src off (Z.of_nat (length src)) s = Ok (Z.of_nat (length src)) s'
    ∧ readi devsw ip off (Z.of_nat (length src)) s' = Ok (Z.of_nat (length src), src) (set_tx t s').
Proof.
  intros Fo Hnh Ht Hin Ho Hs1 Hs2 Hbud Hfree.
  destruct (writei_ok devsw s v o ip i off src Fo Hnh Ht Hin Ho Hs1 Hs2 Hbud Hfree)
    as (s' & v' & i' & E & [[R G M I F He] _ _ W2 (Ht' & _) W3 W4 _ _]).
  destruct (readi_ok devsw s' v' o ip i' off (Z.of_nat (length src))) as (t & E' & _);
    rewrite ?W2, ?Ht'; try done; try lia.
  { by eapply trepr_room. }
  { assert (MAXFILE * BSIZE = 71680) by done. lia. }
  exists s', t. split; [done|]. rewrite E', W2.
  rewrite (Z.min_l (Z.of_nat (length src))) by lia. do 2 f_equal.
  rewrite fbytes_contents by lia. rewrite W4, Nat2Z.id.
  apply slice_splice_eq. rewrite length_contents by lia. lia.
Qed.

(** C9: [readi] of a regular file returns the bytes of the file from the
    offset on, cut at the end of the file, and changes nothing on the disk. *)
Theorem readi_correct s v o ip i off n :
  fsok s v o ip i → no_holes v i → i_type i ≠ T_DEV →
  0 ≤ off ≤ i_size i → 0 ≤ n → off + n < 4294967296 → i_size i ≤ MAXFILE * BSIZE →
  ∃ t, readi devsw ip off n s
       = Ok (Z.min n (i_size i - off),
             slice (Z.to_nat off) (Z.to_nat (Z.min n (i_size i - off))) (contents v i)) (set_tx t s)
    ∧ trepr t v o.
Proof.
  intros [R G M I F He] Hnh Ht Ho Hn Hov Hsz.
  destruct (readi_ok devsw s v o ip i off n) as (t & E & R'); try done; [by eapply trepr_room|].
  exists t. split; [|done]. rewrite E. by rewrite fbytes_contents by lia.
Qed.

End file_theorems.

Section block_theorems.
Context {T : Type} `{TxSpec T}.
Implicit Types (v : bview) (s : fsstate (T := T)).

(** [balloc] returns a data block that was free: it is now in use and
    zeroed, every other block is in use exactly if it was, and no block in use
    has changed its contents. *)
Theorem balloc_correct s v o :
  alloc_ok s v o → trepr (fs_tx s) v o →
  (∃ b, 0 ≤ b < sb_size (fs_sb s) ∧ used (fs_sb s) v b = false) →
  ∃ b t v', balloc ROOTDEV s = Ok b (set_tx t s) ∧ trepr t v' o
    ∧ datastart (fs_sb s) ≤ b < sb_size (fs_sb s) ∧ used (fs_sb s) v b = false
    ∧ blk v' b = replicate (Z.to_nat BSIZE) 0
    ∧ (∀ b', 0 ≤ b' < sb_size (fs_sb s) →
         used (fs_sb s) v' b' = bool_decide (b' = b) || used (fs_sb s) v b')
    ∧ (∀ a, good (fs_sb s) v a → blk v' a = blk v a).
Proof.
  intros A R Hex. destruct (balloc_ok s v o A R Hex) as (b & s' & E & (Hb & Hu & _ & t & -> & R')).
  pose proof (trepr_wf _ _ _ R) as W. pose proof (ao_geom _ _ _ A) as G.
  assert (Hf : fresh (fs_sb s) v b) by done.
  exists b, t, (alloc_view (fs_sb s) b v). split_and!; try done; try lia.
  - by apply alloc_new.
  - intros b' Hb'. by apply alloc_used.
  - intros a Ha. by apply alloc_good.
Qed.

(** [bfree] of a block in use marks it free and leaves the marks of all
    others; of a block that is already free it panics. *)
Theorem bfree_correct s v o b :
  geom (fs_sb s) (Z.of_nat (length (v_disk v))) → held_used (fs_sb s) v → budget 1 v o →
  sb_of_bytes (blk v 1) = fs_sb s → trepr (fs_tx s) v o → 0 ≤ b < sb_size (fs_sb s) →
  if used (fs_sb s) v b then
    ∃ t v', bfree ROOTDEV b s = Ok tt (set_tx t s) ∧ trepr t v' o ∧
      ∀ b', 0 ≤ b' < sb_size (fs_sb s) →
        used (fs_sb s) v' b' = negb (bool_decide (b' = b)) && used (fs_sb s) v b'
  else bfree ROOTDEV b s = Panic "freeing free block".
Proof.
  intros G Hh Hbud Esb R Hb. destruct (used (fs_sb s) v b) eqn:Hu.
  - destruct (bfree_ok s v o b G Hh Hbud Esb R Hb Hu) as (t & E & R').
    exists t, (free_view (fs_sb s) b v). split_and!; try done. intros b' Hb'.
    apply used_clear_bit; try done. apply (trepr_wf _ _ _ R).
  - eapply bfree_free; try done. destruct Hbud as (_ & _ & Hr). unfold room in *. lia.
Qed.
End block_theorems.
