(* ===== verification/Dinode.v ===== *)
(** * struct dinode as bytes

    What [dinode_put] stores in a block [dinode_get] reads back, and the other
    inodes of the block, and the bytes around them, stay as they were. *)

From S2P Require Import Prelude Params BlockDev Sleeplock Fs FsFile.

Lemma slice_put32 d o x o' n : (o' + n ≤ o ∨ o + 4 ≤ o')%nat → (o ≤ length d)%nat →
  slice o' n (put32 d o x) = slice o' n d.
Proof. intros H Hl. unfold put32. apply slice_splice_ne; [|done]. rewrite length_le_bytes. lia. Qed.

Lemma slice_put16 d o x o' n : (o' + n ≤ o ∨ o + 2 ≤ o')%nat → (o ≤ length d)%nat →
  slice o' n (put16 d o x) = slice o' n d.
Proof. intros H Hl. unfold put16. apply slice_splice_ne; [|done]. rewrite length_le_bytes. lia. Qed.

Lemma slice_put_addrs a : ∀ d o o' n, (o' + n ≤ o ∨ o + 4 * length a ≤ o')%nat → (o + 4 * length a ≤ length d)%nat →
  slice o' n (put_addrs d o a) = slice o' n d.
Proof.
  induction a as [|x a IH]; intros d o o' n H Hl; [done|]. cbn [put_addrs length] in *.
  rewrite IH; [|lia|rewrite length_put32; lia]. apply slice_put32; lia.
Qed.

Lemma get32_put_addrs a : ∀ d o k x, a !! k = Some x → (o + 4 * length a ≤ length d)%nat →
  get32 (put_addrs d o a) (o + 4 * k) = u32 x.
Proof.
  induction a as [|y a IH]; intros d o k x Hk Hl; [done|]. cbn [put_addrs length] in *.
  destruct k as [|k].
  - injection Hk as ->. unfold get32. rewrite slice_put_addrs by (rewrite ?length_put32; lia).
    rewrite Nat.add_0_r. apply (get32_put32_eq d o x). lia.
  - replace (o + 4 * S k)%nat with (o + 4 + 4 * k)%nat by lia. apply IH; [done|]. rewrite length_put32; lia.
Qed.

(** The length of a buffer after stores into it. *)
Ltac buf_len := repeat first [lia | rewrite length_put32 | rewrite length_put16].

Lemma s16_u16 x : s16 (u16 x) = s16 x.
Proof. unfold s16, u16. by rewrite Z.mod_mod. Qed.

(** The values a [struct dinode] can hold. *)
Record din_range (i : inode) : Prop := {
  dr_short : ∀ x, x ∈ [i_type i; i_major i; i_minor i; i_nlink i] → -32768 ≤ x < 32768;
  dr_size : 0 ≤ i_size i < 4294967296;
  dr_len : length (i_addrs i) = 13%nat;
  dr_addr : Forall (λ a, 0 ≤ a < 4294967296) (i_addrs i) }.

(** The fields of [i] that are stored on the disk, in the entry [j]. *)
Definition stored (i j : inode) : inode :=
  mkinode (i_dev j) (i_inum j) (i_ref j) (i_lock j) (i_valid j)
          (i_type i) (i_major i) (i_minor i) (i_nlink i) (i_size i) (i_addrs i).

Lemma stored_id i : stored i i = i.
Proof. by destruct i. Qed.

(** The bytes around the structure do not change. *)
Lemma slice_dinode_put d o i o' n : length (i_addrs i) = 13%nat → (o + 64 ≤ length d)%nat →
  (o' + n ≤ o ∨ o + 64 ≤ o')%nat → slice o' n (dinode_put d o i) = slice o' n d.
Proof.
  intros Ha Hl H. unfold dinode_put. cbv zeta.
  rewrite slice_put_addrs, slice_put32, !slice_put16; rewrite ?Ha; try done; buf_len.
Qed.

(** What was stored is read back. *)
Lemma dinode_get_put d o i j : din_range i → (o + 64 ≤ length d)%nat → dinode_get (dinode_put d o i) o j = stored i j.
Proof.
  intros [Hs Hz Ha Hb] Hl. unfold dinode_put, dinode_get, d_type. cbv zeta.
  set (d1 := put16 d o _). set (d2 := put16 d1 _ _). set (d3 := put16 d2 _ _).
  set (d4 := put16 d3 _ _). set (d5 := put32 d4 _ _).
  assert (L1 : length d1 = length d) by (apply length_put16; lia).
  assert (L2 : length d2 = length d) by (rewrite <- L1; apply length_put16; lia).
  assert (L3 : length d3 = length d) by (rewrite <- L2; apply length_put16; lia).
  assert (L4 : length d4 = length d) by (rewrite <- L3; apply length_put16; lia).
  assert (L5 : length d5 = length d) by (rewrite <- L4; apply length_put32; lia).
  assert (E : ∀ o' n, (o' + n ≤ o + 12)%nat → slice o' n (put_addrs d5 (o + 12) (i_addrs i)) = slice o' n d5)
    by (intros; apply slice_put_addrs; lia).
  assert (S5 : ∀ o' n, (o' + n ≤ o + 8)%nat → slice o' n d5 = slice o' n d4) by (intros; apply slice_put32; lia).
  assert (S4 : ∀ o' n, (o' + n ≤ o + 6)%nat → slice o' n d4 = slice o' n d3) by (intros; apply slice_put16; lia).
  assert (S3 : ∀ o' n, (o' + n ≤ o + 4)%nat → slice o' n d3 = slice o' n d2) by (intros; apply slice_put16; lia).
  assert (S2 : ∀ o' n, (o' + n ≤ o + 2)%nat → slice o' n d2 = slice o' n d1) by (intros; apply slice_put16; lia).
  assert (F0 : get16 (put_addrs d5 (o + 12) (i_addrs i)) o = u16 (i_type i)).
  { unfold get16. rewrite E, S5, S4, S3, S2 by lia. apply (get16_put16_eq d). lia. }
  assert (F2 : get16 (put_addrs d5 (o + 12) (i_addrs i)) (o + 2) = u16 (i_major i)).
  { unfold get16. rewrite E, S5, S4, S3 by lia. apply (get16_put16_eq d1). lia. }
  assert (F4 : get16 (put_addrs d5 (o + 12) (i_addrs i)) (o + 4) = u16 (i_minor i)).
  { unfold get16. rewrite E, S5, S4 by lia. apply (get16_put16_eq d2). lia. }
  assert (F6 : get16 (put_addrs d5 (o + 12) (i_addrs i)) (o + 6) = u16 (i_nlink i)).
  { unfold get16. rewrite E, S5 by lia. apply (get16_put16_eq d3). lia. }
  assert (F8 : get32 (put_addrs d5 (o + 12) (i_addrs i)) (o + 8) = i_size i).
  { unfold get32. rewrite E by lia. etrans; [apply (get32_put32_eq d4); lia|]. by apply u32_small. }
  assert (FA : get_addrs (put_addrs d5 (o + 12) (i_addrs i)) o = i_addrs i).
  { apply list_eq. intros k. unfold get_addrs. change (Z.to_nat (NDIRECT + 1)) with 13%nat.
    rewrite list_lookup_fmap. destruct (decide (k < 13)%nat) as [Hk|Hk].
    - rewrite lookup_seq_lt by done. cbn [fmap option_fmap option_map]. rewrite Nat.add_0_l. destruct (lookup_lt_is_Some_2 (i_addrs i) k ltac:(lia)) as [x Hx].
      rewrite Hx, (get32_put_addrs _ _ _ _ x) by (done || lia). f_equal. apply u32_small.
      by apply (Forall_lookup_1 _ _ _ _ Hb Hx).
    - rewrite lookup_seq_ge, lookup_ge_None_2 by lia. done. }
  rewrite F0, F2, F4, F6, F8, FA, !s16_u16, !s16_small by (apply Hs; set_solver). done.
Qed.

(** A structure elsewhere in the block is not changed. *)
Lemma dinode_get_other d o o' i j : length (i_addrs i) = 13%nat → (o + 64 ≤ length d)%nat →
  (o' + 64 ≤ o ∨ o + 64 ≤ o')%nat → dinode_get (dinode_put d o i) o' j = dinode_get d o' j.
Proof.
  intros Ha Hl H. unfold dinode_get, d_type, get16, get32. rewrite !slice_dinode_put by (done || lia). f_equal.
  unfold get_addrs. apply list_fmap_ext. intros k x Hx. apply lookup_seq in Hx as [-> Hx].
  unfold get32. rewrite slice_dinode_put by (done || (change (Z.to_nat (NDIRECT + 1)) with 13%nat in Hx; lia)). done.
Qed.
