(* ===== verification/Dir.v ===== *)
(** * Directories and path names: the second half of fs.c

    A directory is a file of 16-byte entries, an inode number and a name of
    DIRSIZ bytes padded with NULs.  A path is the list of its bytes before the
    NUL, so that reading a NUL is the test for the empty list.  [name]
    is the caller's buffer of DIRSIZ bytes, returned as [skipelem] leaves it. *)

From S2P Require Import Prelude Params Strings BlockDev Sleeplock Tx Fs.

Definition SLASH : Z := 47.

(** ** skipelem *)

Definition deref (p : list Z) : Z := default 0 (head p).

(** The loops that skip slashes. *)
Fixpoint skip_slashes (path : list Z) : list Z :=
  match path with
  | c :: path' => if c =? SLASH then skip_slashes path' else path
  | [] => []
  end.

(** The loop that passes one element: the bytes passed, and the rest. *)
Fixpoint skip_elem (path : list Z) : list Z * list Z :=
  match path with
  | c :: path' =>
      if c =? SLASH then ([], path)
      else let '(e, r) := skip_elem path' in (c :: e, r)
  | [] => ([], [])
  end.

Definition skipelem (path name : list Z) : option (list Z * list Z) :=
  let path := skip_slashes path in
  match path with
  | [] => None
  | _ :: _ =>
      let '(s, path) := skip_elem path in
      let name :=
        if DIRSIZ <=? Z.of_nat (length s) then splice 0 (take (Z.to_nat DIRSIZ) s) name
        else splice 0 (s ++ [0]) name in
      Some (skip_slashes path, name)
  end.

(** ** struct dirent *)

Definition de_inum (de : list Z) : Z := get16 de 0.
Definition de_name (de : list Z) : list Z := slice 2 (Z.to_nat DIRSIZ) de.
Definition mkdirent (inum : Z) (name : list Z) : list Z := le_bytes 2 inum ++ name.

Definition namecmp (s t : list Z) : option Z := strncmp s t (Z.to_nat DIRSIZ).

Section dir.
Context {T : Type} `{!TxOps T}.
Context (me : Z) (devsw : Z → option (device (T := T))).
Notation M := (M (fsstate (T := T))).

(** How many entries there are to look at in a directory of [size] bytes. *)
Definition dirents (size : Z) : nat := Z.to_nat ((size + DIRENTSZ - 1) / DIRENTSZ).

(** [dirlookup] returns the inode and the offset it stores at [poff]. *)
Definition dirlookup (dp : nat) (name : list Z) : M (option (nat * Z)) :=
  i ← iptr dp;
  if negb (i_type i =? T_DIR) then panic "dirlookup not DIR" else
  for_range (dirents (i_size i)) 0 (λ k,
    let off := k * DIRENTSZ in
    '(r, de) ← readi devsw dp off DIRENTSZ;
    if negb (r =? DIRENTSZ) then panic "dirlookup read" else
    if de_inum de =? 0 then mret None else
    c ← lift_opt (namecmp name (de_name de));
    if c =? 0 then
      i ← iptr dp;
      ip ← iget (i_dev i) (de_inum de);
      mret (Some (ip, off))
    else mret None).

Definition dirlink (dp : nat) (name : list Z) (inum : Z) : M Z :=
  f ← dirlookup dp name;
  match f with
  | Some (ip, _) => iput me ip;; mret (-1)
  | None =>
      i ← iptr dp;
      free ← for_range (dirents (i_size i)) 0 (λ k,
        '(r, de) ← readi devsw dp (k * DIRENTSZ) DIRENTSZ;
        if negb (r =? DIRENTSZ) then panic "dirlink read" else
        if de_inum de =? 0 then mret (Some (k * DIRENTSZ)) else mret None);
      let off := default (Z.of_nat (dirents (i_size i)) * DIRENTSZ) free in
      nm ← lift_opt (strncpy name (Z.to_nat DIRSIZ));
      w ← writei devsw dp (mkdirent inum nm) off DIRENTSZ;
      if negb (w =? DIRENTSZ) then panic "dirlink" else
      mret 0
  end.

(** ** Paths *)

(** The loop of [namex].  Each round takes at least one byte off the path, so
    one round more than its length is enough. *)
Fixpoint namex_loop (fuel : nat) (ip : nat) (path : list Z) (nameiparent : bool) (name : list Z)
  : M (option nat * list Z) :=
  match fuel with
  | O => no_fuel
  | S fuel' =>
      match skipelem path name with
      | None =>
          if nameiparent then iput me ip;; mret (None, name) else mret (Some ip, name)
      | Some (path, name) =>
          ilock me (Some ip);;
          i ← iptr ip;
          if negb (i_type i =? T_DIR) then
            iunlockput me (Some ip);; mret (None, name)
          else if nameiparent && (deref path =? 0) then
            iunlock me (Some ip);; mret (Some ip, name)
          else
            next ← dirlookup ip name;
            match next with
            | None => iunlockput me (Some ip);; mret (None, name)
            | Some (next, _) =>
                iunlockput me (Some ip);;
                namex_loop fuel' next path nameiparent name
            end
      end
  end.

Definition namex (cwd : nat) (path : list Z) (nameiparent : bool) (name : list Z)
  : M (option nat * list Z) :=
  ip ← (if deref path =? SLASH then iget ROOTDEV ROOTINO else idup cwd);
  namex_loop (S (length path)) ip path nameiparent name.

Definition namei (cwd : nat) (path name : list Z) : M (option nat) :=
  '(ip, _) ← namex cwd path false name;
  mret ip.

Definition nameiparent (cwd : nat) (path name : list Z) : M (option nat * list Z) :=
  namex cwd path true name.
End dir.
