(* ===== verification/Icache.v ===== *)
(** * The inode cache: iget, idup, ilock, iunlock and iput of fs.c

    [icok] is the invariant of the cache: an inode has at most one entry in use,
    the entries in use are for inodes of the disk, and an entry that is valid
    and not locked agrees with the disk.  [refs] abstracts the cache to the
    number of references to each inode; every operation is specified by what
    it does to [refs], and to the one entry it returns or is given. *)

From S2P Require Import Prelude Params Strings BlockDev Sleeplock Tx Fs FsFile.

(** ** References *)

(** How many references an entry counts for inode [n]. *)
Definition ref1 (n : Z) (i : inode) : Z := if i_inum i =? n then i_ref i else 0.
Definition refs (l : list inode) (n : Z) : Z := foldr (λ i acc, ref1 n i + acc) 0 l.

(** The entries that are not in use, and the inodes of those that are. *)
Definition nfreei (l : list inode) : nat := length (filter (λ i, i_ref i = 0) l).
Definition live (l : list inode) : list Z := i_inum <$> filter (λ i, 0 < i_ref i) l.

Lemma refs_insert l ip i i' n : l !! ip = Some i → refs (<[ip := i']> l) n = refs l n - ref1 n i + ref1 n i'.
Proof.
  revert ip. induction l as [|j l IH]; intros [|ip] H; try done; simpl in *.
  - injection H as ->. lia.
  - rewrite (IH _ H). lia.
Qed.

Lemma refs_nonneg l n : (∀ i, i ∈ l → 0 ≤ i_ref i) → 0 ≤ refs l n.
Proof.
  induction l as [|j l IH]; intros H; simpl; [lia|]. pose proof (H j ltac:(left)).
  assert (0 ≤ refs l n) by (apply IH; intros i Hi; apply H; by right).
  unfold ref1. case_match; lia.
Qed.

(** No two entries in use are for the same inode. *)
Definition uniq (l : list inode) : Prop :=
  ∀ ip ip' i i', l !! ip = Some i → l !! ip' = Some i' → 0 < i_ref i → 0 < i_ref i' →
    i_inum i = i_inum i' → ip = ip'.

Lemma uniq_tail j l : uniq (j :: l) → uniq l.
Proof. intros H ip ip' i i' E E' H1 H2 H3. pose proof (H (S ip) (S ip') i i' E E' H1 H2 H3). lia. Qed.

Lemma live_elem l n : n ∈ live l ↔ ∃ ip i, l !! ip = Some i ∧ 0 < i_ref i ∧ i_inum i = n.
Proof.
  unfold live. rewrite list_elem_of_fmap. split.
  - intros (i & -> & [Hr Hi]%list_elem_of_filter). apply list_elem_of_lookup in Hi as [ip Hip]. eauto.
  - intros (ip & i & Hip & Hr & <-). exists i. split; [done|]. apply list_elem_of_filter. split; [done|].
    by eapply list_elem_of_lookup_2.
Qed.

Lemma live_NoDup l : uniq l → NoDup (live l).
Proof.
  induction l as [|j l IH]; intros H; [constructor|]. specialize (IH (uniq_tail _ _ H)).
  unfold live. rewrite filter_cons. destruct (decide (0 < i_ref j)) as [Hj|]; [|done].
  simpl. constructor; [|done]. intros (ip & i & Hip & Hr & Hn)%live_elem.
  by pose proof (H 0%nat (S ip) j i eq_refl Hip Hj Hr (eq_sym Hn)).
Qed.

Lemma live_refs l n : (∀ i, i ∈ l → 0 ≤ i_ref i) → n ∈ live l ↔ 0 < refs l n.
Proof.
  induction l as [|j l IH]; intros H; simpl; [split; [by intros ?%not_elem_of_nil|lia]|].
  assert (Hl : ∀ i, i ∈ l → 0 ≤ i_ref i) by (intros i Hi; apply H; by right).
  specialize (IH Hl). pose proof (refs_nonneg l n Hl). pose proof (H j ltac:(left)).
  unfold live. rewrite filter_cons. unfold ref1. destruct (Z.eqb_spec (i_inum j) n) as [E|E].
  - destruct (decide (0 < i_ref j)); simpl.
    + split; [lia|]. intros _. rewrite <- E. left.
    + fold (live l). rewrite IH. lia.
  - destruct (decide (0 < i_ref j)); simpl; fold (live l); [rewrite elem_of_cons|]; rewrite IH; naive_solver lia.
Qed.

Lemma free_live l : (∀ i, i ∈ l → 0 ≤ i_ref i) → (nfreei l + length (live l))%nat = length l.
Proof.
  unfold nfreei, live. rewrite length_fmap.
  induction l as [|j l IH]; intros H; [done|]. rewrite !filter_cons. pose proof (H j ltac:(left)).
  assert (Hl : ∀ i, i ∈ l → 0 ≤ i_ref i) by (intros i Hi; apply H; by right). specialize (IH Hl).
  destruct (decide (i_ref j = 0)), (decide (0 < i_ref j)); simpl; lia.
Qed.

(** A cache that has references to one more inode has at most one entry less. *)
Lemma nfreei_more l l' n : uniq l → uniq l' → (∀ i, i ∈ l → 0 ≤ i_ref i) → (∀ i, i ∈ l' → 0 ≤ i_ref i) →
  length l' = length l → (∀ m, m ≠ n → refs l' m = refs l m) → (nfreei l ≤ S (nfreei l'))%nat.
Proof.
  intros U U' P P' Hl Hr. pose proof (free_live l P). pose proof (free_live l' P').
  assert (length (live l') ≤ S (length (live l)))%nat; [|lia].
  change (S (length (live l))) with (length (n :: live l)). apply submseteq_length, NoDup_submseteq; [by apply live_NoDup|].
  intros m Hm. apply live_refs in Hm; [|done]. destruct (decide (m = n)) as [->|Hne]; [left|right].
  apply live_refs; [done|]. by rewrite <- Hr.
Qed.

(** ** The invariant *)

(** Inode [n] as it is on the disk, read into the entry [i]. *)
Definition read_in (sb : superblock) (v : bview) (n : Z) (i : inode) : inode :=
  dinode_get (blk v (IBLOCK n sb)) (d_off n) i.

Record entry_ok (sb : superblock) (v : bview) (i : inode) : Prop := {
  eo_lk : sl_lk (i_lock i) = false;
  eo_ref : 0 ≤ i_ref i;
  eo_valid : i_valid i = 0 ∨ i_valid i = 1;
  eo_dev : 0 < i_ref i → i_dev i = ROOTDEV ∧ 0 ≤ i_inum i < sb_ninodes sb;
  eo_disk : 0 < i_ref i → i_valid i = 1 → sl_locked (i_lock i) = 0 → read_in sb v (i_inum i) i = i;
  eo_free : i_ref i = 0 → sl_locked (i_lock i) = 0;
  eo_asleep : sl_locked (i_lock i) = 0 → sl_asleep (i_lock i) = [] }.

(** What is read does not depend on the rest of the entry. *)
Lemma read_in_ref sb v n i r : read_in sb v n (set_iref r i) = set_iref r (read_in sb v n i).
Proof. done. Qed.
Lemma read_in_lock sb v n i l : read_in sb v n (set_ilock l i) = set_ilock l (read_in sb v n i).
Proof. done. Qed.

(** An entry of the cache given to inode [n], as [iget] does it. *)
Definition recycled (n : Z) (i : inode) : inode :=
  mkinode ROOTDEV n 1 (i_lock i) 0 (i_type i) (i_major i) (i_minor i) (i_nlink i) (i_size i) (i_addrs i).

Section icache.
Context {T : Type} `{TxSpec T}.
Context (me : Z).
Implicit Types (v : bview) (s : fsstate (T := T)) (sb : superblock) (i : inode).

Record icok s v o : Prop := {
  ic_rep : trepr (fs_tx s) v o;
  ic_geom : geom (fs_sb s) (Z.of_nat (length (v_disk v)));
  ic_held : v_held v = ∅;
  ic_free : ic_lock s = false;
  ic_ent : ∀ ip i, ic_inode s !! ip = Some i → entry_ok (fs_sb s) v i;
  ic_uniq : uniq (ic_inode s) }.

Lemma ic_nonneg s v o : icok s v o → ∀ i, i ∈ ic_inode s → 0 ≤ i_ref i.
Proof. intros I i [ip Hip]%list_elem_of_lookup. apply (ic_ent _ _ _ I _ _ Hip). Qed.

Lemma free_room t v o : trepr t v o → v_held v = ∅ → room 1 v.
Proof. intros R He. pose proof (trepr_pins _ _ _ R). unfold room. rewrite He, map_size_empty. lia. Qed.

(** Changing one entry. *)
Lemma icok_upd s v o t ip i i' :
  icok s v o → ic_inode s !! ip = Some i → entry_ok (fs_sb s) v i' → trepr t v o →
  (0 < i_ref i' → 0 < i_ref i ∧ i_inum i' = i_inum i ∨ refs (ic_inode s) (i_inum i') = 0) →
  icok (set_tx t (upd_ino ip i' s)) v o.
Proof.
  intros [R G He Hf E U] Hi Ei' R' Hu. split; try done; simpl.
  - intros k j. rewrite list_lookup_insert. case_decide as Hk; [by intros [= <-]|by apply E].
  - assert (Hno : refs (ic_inode s) (i_inum i') = 0 → ∀ k j, ic_inode s !! k = Some j → 0 < i_ref j → i_inum j ≠ i_inum i').
    { intros Hz0 k j Hj Hr Hn. assert (i_inum i' ∈ live (ic_inode s)) as Hl by (apply live_elem; eauto).
      apply live_refs in Hl; [lia|]. intros x [q Hq]%list_elem_of_lookup. apply (E _ _ Hq). }
    intros k k' j j'. rewrite !list_lookup_insert.
    case_decide as Hk; case_decide as Hk'; [lia| | |by apply U]; intros Hj Hj' Hr Hr' Hn.
    + injection Hj as <-. destruct Hk as [-> _]. destruct (Hu Hr) as [[Hr0 Hn0]|Hz0].
      * apply (U _ _ _ _ Hi Hj' Hr0 Hr'). congruence.
      * by destruct (Hno Hz0 _ _ Hj' Hr').
    + injection Hj' as <-. destruct Hk' as [-> _]. destruct (Hu Hr') as [[Hr0 Hn0]|Hz0].
      * symmetry. apply (U _ _ _ _ Hi Hj Hr0 Hr). congruence.
      * by destruct (Hno Hz0 _ _ Hj Hr).
Qed.

(** ** iget *)

Lemma iget_scan_ok dev n l k e :
  match iget_scan dev n l k e with
  | inl ip => ∃ j i, ip = (k + j)%nat ∧ l !! j = Some i ∧ 0 < i_ref i ∧ i_dev i = dev ∧ i_inum i = n
  | inr e' =>
      (∀ j i, l !! j = Some i → 0 < i_ref i → i_dev i = dev → i_inum i ≠ n) ∧
      match e' with
      | None => e = None ∧ nfreei l = 0%nat
      | Some f => e = Some f ∨ ∃ j i, f = (k + j)%nat ∧ l !! j = Some i ∧ i_ref i = 0
      end
  end.
Proof.
  revert k e. induction l as [|i l IH]; intros k e; simpl.
  - split; [by intros ? ?; rewrite lookup_nil|]. destruct e; [by left|done].
  - destruct ((0 <? i_ref i) && (i_dev i =? dev) && (i_inum i =? n)) eqn:Et.
    + apply andb_prop in Et as [[?%Z.ltb_lt ?%Z.eqb_eq]%andb_prop ?%Z.eqb_eq]. exists 0%nat, i.
      split_and!; (done || lia).
    + set (e1 := match e with None => _ | Some _ => _ end). specialize (IH (S k) e1).
      destruct (iget_scan dev n l (S k) e1) as [ip|e'].
      * destruct IH as (j & i' & -> & Hj & Hrest). exists (S j), i'. split; [lia|done].
      * destruct IH as [Hno He']. split.
        { intros [|j] i' Hj Hr Hd; [|by eapply Hno]. injection Hj as <-. intros Hn.
          rewrite (proj2 (Z.ltb_lt _ _) Hr), (proj2 (Z.eqb_eq _ _) Hd), (proj2 (Z.eqb_eq _ _) Hn) in Et. done. }
        assert (Hs : ∀ f, (∃ j i', f = (S k + j)%nat ∧ l !! j = Some i' ∧ i_ref i' = 0) →
                     ∃ j i', f = (k + j)%nat ∧ (i :: l) !! j = Some i' ∧ i_ref i' = 0).
        { intros f (j & i' & -> & ? & ?). exists (S j), i'. split; [lia|done]. }
        unfold e1 in He'. destruct e as [e|]; [destruct e' as [f|]; [naive_solver|by destruct He']|].
        unfold nfreei. rewrite filter_cons. destruct (Z.eqb_spec (i_ref i) 0) as [Hz|Hz].
        -- destruct e' as [f|]; [|by destruct He']. right. destruct He' as [[= <-]|?]; [exists 0%nat, i; split; [lia|done]|auto].
        -- rewrite decide_False by done. destruct e' as [f|]; naive_solver.
Qed.

Lemma acquire_icache_ok s : ic_lock s = false → acquire_icache s = Ok tt (set_ic_lock true s).
Proof. intros E. unfold acquire_icache, acquire. by rewrite E. Qed.

Lemma upd_ino_locked ip i s b : ic_lock s = false → set_ic_lock false (upd_ino ip i (set_ic_lock b s)) = upd_ino ip i s.
Proof. intros E. unfold upd_ino, set_inodes, set_ic_lock. simpl. by rewrite E. Qed.

(** A change to an entry, made while holding the lock of the cache. *)
Lemma under_lock {A} s ip i f (a : A) : ic_lock s = false → ic_inode s !! ip = Some i →
  (iset ip f;; release_icache;; mret a) (set_ic_lock true s) = Ok a (upd_ino ip (f i) s).
Proof.
  intros E Hi. mstep (iset_ok (set_ic_lock true s) ip i f Hi). unfold release_icache, release, mbind, M_bind. simpl.
  by rewrite (upd_ino_locked ip (f i) s true E).
Qed.

(** What [iget] makes of the entry it returns. *)
Definition got (n : Z) (i i' : inode) : Prop :=
  0 < i_ref i ∧ i_inum i = n ∧ i' = set_iref (i_ref i + 1) i ∨ i_ref i = 0 ∧ i' = recycled n i.

Lemma entry_more sb v i : entry_ok sb v i → 0 < i_ref i → entry_ok sb v (set_iref (i_ref i + 1) i).
Proof.
  intros [E1 E2 E3 E4 E5 E6 E7] Hr. split; simpl; try done; try lia; auto.
  intros _ Hv Hl. specialize (E5 Hr Hv Hl). by rewrite read_in_ref, E5.
Qed.

Lemma entry_recycled sb v i n : entry_ok sb v i → i_ref i = 0 → 0 ≤ n < sb_ninodes sb → entry_ok sb v (recycled n i).
Proof. intros [E1 E2 E3 E4 E5 E6 E7] Hr. split; simpl; (done || lia || auto). Qed.

(** The references after one has been added or given back. *)
Definition bump (n d m : Z) : Z := if m =? n then d else 0.

Lemma refs_more s ip i n d : ic_inode s !! ip = Some i → i_inum i = n →
  ∀ m, refs (ic_inode (upd_ino ip (set_iref (i_ref i + d) i) s)) m = refs (ic_inode s) m + bump n d m.
Proof.
  intros Hi <- m. simpl. rewrite (refs_insert _ _ _ _ _ Hi). unfold ref1, bump. simpl. rewrite (Z.eqb_sym m). case_match; lia.
Qed.

Lemma refs_recycled s ip i n : ic_inode s !! ip = Some i → i_ref i = 0 →
  ∀ m, refs (ic_inode (upd_ino ip (recycled n i) s)) m = refs (ic_inode s) m + bump n 1 m.
Proof.
  intros Hi Hr m. simpl. rewrite (refs_insert _ _ _ _ _ Hi). unfold ref1, bump. simpl. rewrite Hr, (Z.eqb_sym m). do 2 case_match; lia.
Qed.

Lemma refs_none s v o n : icok s v o →
  (∀ j i, ic_inode s !! j = Some i → 0 < i_ref i → i_dev i = ROOTDEV → i_inum i ≠ n) → refs (ic_inode s) n = 0.
Proof.
  intros I Hno. pose proof (refs_nonneg _ n (ic_nonneg _ _ _ I)). destruct (decide (0 < refs (ic_inode s) n)) as [Hp|]; [|lia].
  apply live_refs in Hp; [|exact (ic_nonneg _ _ _ I)]. apply live_elem in Hp as (ip & i & Hi & Hr & Hn).
  by destruct (Hno _ _ Hi Hr (proj1 (eo_dev _ _ _ (ic_ent _ _ _ I _ _ Hi) Hr))).
Qed.

Lemma iget_ok s v o n :
  icok s v o → 0 ≤ n < sb_ninodes (fs_sb s) → (0 < nfreei (ic_inode s))%nat ∨ 0 < refs (ic_inode s) n →
  ∃ ip i i', ic_inode s !! ip = Some i ∧ got n i i' ∧ iget ROOTDEV n s = Ok ip (upd_ino ip i' s) ∧
    icok (upd_ino ip i' s) v o ∧ (∀ m, refs (ic_inode (upd_ino ip i' s)) m = refs (ic_inode s) m + bump n 1 m).
Proof.
  intros I Hn Hfree. pose proof (ic_rep _ _ _ I) as R. pose proof (ic_free _ _ _ I) as Hf.
  unfold iget. mstep (acquire_icache_ok s Hf). mstep (eq_refl : get (set_ic_lock true s) = Ok _ _).
  change (ic_inode (set_ic_lock true s)) with (ic_inode s). pose proof (iget_scan_ok ROOTDEV n (ic_inode s) 0 None) as Hs.
  destruct (iget_scan ROOTDEV n (ic_inode s) 0 None) as [ip|[ip|]].
  - destruct Hs as (j & i & -> & Hi & Hr & Hd & Hin). simpl. exists j, i, (set_iref (i_ref i + 1) i).
    rewrite (under_lock s j i _ j Hf Hi). split_and!; [done|by left|done| |by apply refs_more].
    rewrite <- (set_tx_id (upd_ino _ _ _)). eapply icok_upd; eauto. by apply entry_more; [eapply ic_ent|].
  - destruct Hs as [Hno [?|(j & i & -> & Hi & Hr)]]; [done|]. simpl. exists j, i, (recycled n i).
    rewrite (under_lock s j i _ j Hf Hi). split_and!; [done|by right|done| |by apply refs_recycled].
    rewrite <- (set_tx_id (upd_ino _ _ _)). eapply icok_upd; eauto.
    + by apply entry_recycled; [eapply ic_ent| |].
    + intros _. right. simpl. by eapply refs_none.
  - destruct Hs as [Hno [_ Hz]]. rewrite (refs_none s v o n I Hno) in Hfree. lia.
Qed.

Lemma idup_ok s v o ip i :
  icok s v o → ic_inode s !! ip = Some i → 0 < i_ref i →
  let s' := upd_ino ip (set_iref (i_ref i + 1) i) s in
  idup ip s = Ok ip s' ∧ icok s' v o ∧ (∀ m, refs (ic_inode s') m = refs (ic_inode s) m + bump (i_inum i) 1 m).
Proof.
  intros I Hi Hr s'. unfold idup. mstep (acquire_icache_ok s (ic_free _ _ _ I)).
  rewrite (under_lock s ip i _ ip (ic_free _ _ _ I) Hi). split_and!; [done| |by apply refs_more].
  unfold s'. rewrite <- (set_tx_id (upd_ino _ _ _)). eapply icok_upd; eauto; [|apply I]. by apply entry_more; [eapply ic_ent|].
Qed.

(** ** ilock and iunlock *)

Lemma on_ilock_ok {A} (m : M sleeplock A) s ip i a l : ic_inode s !! ip = Some i → m (i_lock i) = Ok a l →
  on_ilock ip m s = Ok a (upd_ino ip (set_ilock l i) s).
Proof.
  intros Hi E. unfold on_ilock. assert (Hl : i_lock <$> ic_inode s !! ip = Some (i_lock i)) by (by rewrite Hi).
  rewrite (zoom_ok (λ s, i_lock <$> ic_inode s !! ip) _ m s _ _ _ Hl E). unfold upd_ino. do 2 f_equal. apply list_eq. intros k. rewrite list_lookup_alter, list_lookup_insert.
  destruct (decide (ip = k)) as [<-|Hne].
  - rewrite Hi. simpl. rewrite decide_True; [done|]. split; [done|by eapply lookup_lt_Some].
  - by rewrite decide_False by naive_solver.
Qed.

(** The entry of an inode that has been locked. *)
Definition locked sb v i : inode := set_ivalid 1 (set_ilock (mksl false 1 me []) (read_in sb v (i_inum i) i)).

Lemma set_ilock_twice l l' i : set_ilock l' (set_ilock l i) = set_ilock l' i.
Proof. done. Qed.

(** The part of [ilock] that reads the inode in. *)
Lemma iload_ok s v o ip i : icok s v o → ic_inode s !! ip = Some i → 0 < i_ref i →
  i_type (read_in (fs_sb s) v (i_inum i) i) ≠ 0 →
  ∃ t, (sb ← gets fs_sb;
        bp ← on_tx (tx_bread (i_dev i) (IBLOCK (i_inum i) sb));
        d ← on_tx (tx_data bp);
        iset ip (dinode_get d (d_off (i_inum i)));;
        on_tx (tx_brelse bp);;
        iset ip (set_ivalid 1);;
        i ← iptr ip;
        if i_type i =? 0 then panic "ilock: no type" else mret tt) s
       = Ok tt (set_tx t (upd_ino ip (set_ivalid 1 (read_in (fs_sb s) v (i_inum i) i)) s)) ∧ trepr t v o.
Proof.
  intros [R G He Hf E U] Hi Hr Ht. destruct (eo_dev _ _ _ (E _ _ Hi) Hr) as [Hd Hn].
  destruct (IBLOCK_ok _ _ _ G Hn) as (Hdisk & Hhome & Hrange).
  assert (Hno : not_held v (IBLOCK (i_inum i) (fs_sb s))) by (intros h; by rewrite He, lookup_empty).
  destruct (fs_bread s v o _ R Hdisk Hhome Hno (free_room _ _ _ R He)) as (h & t & E1 & E2 & Hh & R1).
  rewrite bind_gets, Hd. mstep E1. mstep E2.
  mstep (iset_ok (set_tx t s) ip i (dinode_get (blk v (IBLOCK (i_inum i) (fs_sb s))) (d_off (i_inum i))) Hi :
    _ = Ok tt (set_tx t (upd_ino ip (read_in (fs_sb s) v (i_inum i) i) s))).
  destruct (fs_brelse (upd_ino ip (read_in (fs_sb s) v (i_inum i) i) s) t v o h _ R1 (trepr_wf _ _ _ R) Hdisk Hh Hno) as (t2 & E3 & R2).
  set (j := read_in (fs_sb s) v (i_inum i) i) in *. mstep E3.
  assert (Hl : ic_inode (set_tx t2 (upd_ino ip j s)) !! ip = Some j) by (by eapply upd_ino_lookup).
  mstep (iset_ok _ ip j (set_ivalid 1) Hl). exists t2. split; [|done].
  mstep (iptr_ok _ ip (set_ivalid 1 j) (upd_ino_lookup _ _ _ (set_ivalid 1 j) Hl)).
  change (i_type (set_ivalid 1 j)) with (i_type j). rewrite (proj2 (Z.eqb_neq _ _) Ht).
  unfold mret, M_ret. f_equal. unfold upd_ino, set_tx, set_inodes. simpl. by rewrite list_insert_insert_eq.
Qed.

Lemma ilock_ok s v o ip i : icok s v o → ic_inode s !! ip = Some i → 0 < i_ref i → sl_locked (i_lock i) = 0 →
  i_type (read_in (fs_sb s) v (i_inum i) i) ≠ 0 →
  ∃ t, ilock me (Some ip) s = Ok tt (set_tx t (upd_ino ip (locked (fs_sb s) v i) s)) ∧
    icok (set_tx t (upd_ino ip (locked (fs_sb s) v i) s)) v o.
Proof.
  intros I Hi Hr Hu Ht. pose proof (ic_ent _ _ _ I _ _ Hi) as [E1 E2 E3 E4 E5 E6 E7].
  assert (El : ∀ j, i_lock j = mksl false 1 me [] → i_ref j = i_ref i → i_dev j = i_dev i → i_inum j = i_inum i →
                 i_valid j = 0 ∨ i_valid j = 1 → entry_ok (fs_sb s) v j).
  { intros j J1 J2 J3 J4 J5. split; rewrite ?J1, ?J2, ?J3, ?J4; simpl; (done || lia || auto). }
  unfold ilock. mstep (iptr_ok _ _ _ Hi). destruct (Z.ltb_spec (i_ref i) 1); [lia|].
  mstep (on_ilock_ok _ s ip i _ _ Hi (acquiresleep_alone me (CHAN_INODE ip) _ E1 Hu (E7 Hu))).
  set (i1 := set_ilock (mksl false 1 me []) i). pose proof (upd_ino_lookup s ip i i1 Hi) as Hi1. mstep (iptr_ok _ _ _ Hi1).
  assert (I1 : icok (upd_ino ip i1 s) v o).
  { rewrite <- (set_tx_id (upd_ino _ _ _)). eapply icok_upd; eauto. apply I. }
  change (i_valid i1) with (i_valid i). destruct E3 as [E3|E3]; rewrite E3.
  - destruct (iload_ok _ v o ip i1 I1 Hi1 Hr Ht) as (t & E & R). exists t. change (0 =? 0) with true. cbv iota.
    rewrite E, upd_ino_upd. split; [done|]. eapply icok_upd; eauto.
  - exists (fs_tx s). assert (i1 = locked (fs_sb s) v i) as <-.
    { unfold locked. rewrite (E5 Hr E3 Hu). unfold i1. destruct i; simpl in *. by rewrite E3. }
    split; [done|exact I1].
Qed.

Lemma iunlock_ok s v o ip i : icok s v o → ic_inode s !! ip = Some i → 0 < i_ref i → i_lock i = mksl false 1 me [] →
  read_in (fs_sb s) v (i_inum i) i = i →
  iunlock me (Some ip) s = Ok tt (upd_ino ip (set_ilock (mksl false 0 0 []) i) s) ∧
  icok (upd_ino ip (set_ilock (mksl false 0 0 []) i) s) v o.
Proof.
  intros I Hi Hr Hl Hd. pose proof (ic_ent _ _ _ I _ _ Hi) as [E1 E2 E3 E4 E5 E6 E7]. split.
  - unfold iunlock. mstep (on_ilock_ok _ s ip i _ _ Hi (holdingsleep_ok me _ E1)). rewrite Hl. simpl. rewrite Z.eqb_refl.
    assert (Hid : set_ilock (mksl false 1 me []) i = i) by (destruct i; simpl in *; by rewrite Hl). rewrite Hid, (upd_ino_id _ _ _ Hi).
    mstep (iptr_ok _ _ _ Hi). simpl. destruct (Z.ltb_spec (i_ref i) 1); [lia|].
    apply (on_ilock_ok _ s ip i _ _ Hi). apply releasesleep_ok. by rewrite Hl.
  - rewrite <- (set_tx_id (upd_ino _ _ _)). eapply icok_upd; eauto; [|apply I].
    split; simpl; try done; try lia. intros _ _ _. by rewrite read_in_lock, Hd.
Qed.

(** ** iput, when the inode stays *)

(** The entry after a reference has been given back. *)
Definition put_back i : inode := set_iref (i_ref i - 1) (set_ilock (mksl false 0 0 []) i).

Lemma entry_put sb v i : entry_ok sb v i → 0 < i_ref i → sl_locked (i_lock i) = 0 → entry_ok sb v (put_back i).
Proof.
  intros [E1 E2 E3 E4 E5 E6 E7] Hr Hu. split; simpl; (done || lia || auto).
  intros _ Hv _. unfold put_back. by rewrite read_in_ref, read_in_lock, (E5 Hr Hv Hu).
Qed.

(** The end of [iput]: the lock of the inode is released and a reference is
    given back. *)
Lemma iput_end s ip i : ic_lock s = false → ic_inode s !! ip = Some i → sl_lk (i_lock i) = false →
  (on_ilock ip releasesleep;; acquire_icache;; iset ip (λ i, set_iref (i_ref i - 1) i);; release_icache) s
  = Ok tt (upd_ino ip (put_back i) s).
Proof.
  intros Hf Hi Hl. mstep (on_ilock_ok _ s ip i _ _ Hi (releasesleep_ok _ Hl)).
  set (i1 := set_ilock (mksl false 0 0 []) i). mstep (acquire_icache_ok (upd_ino ip i1 s) Hf).
  mstep (iset_ok (set_ic_lock true (upd_ino ip i1 s)) ip i1 (λ i, set_iref (i_ref i - 1) i) (upd_ino_lookup _ _ _ _ Hi)).
  unfold release_icache, release. simpl. f_equal. rewrite (upd_ino_locked _ _ (upd_ino ip i1 s) true Hf). apply upd_ino_upd.
Qed.

(** [iput] of an inode without links, up to the test of the references. *)
Lemma iput_unlinked s ip i : ic_lock s = false → ic_inode s !! ip = Some i → sl_lk (i_lock i) = false →
  sl_locked (i_lock i) = 0 → sl_asleep (i_lock i) = [] → i_valid i ≠ 0 → i_nlink i = 0 →
  iput me ip s = ((if i_ref i =? 1 then itrunc ip;; iset ip (set_itype 0);; iupdate ip;; iset ip (set_ivalid 0) else mret tt);;
    on_ilock ip releasesleep;; acquire_icache;; iset ip (λ i, set_iref (i_ref i - 1) i);; release_icache)
    (upd_ino ip (set_ilock (mksl false 1 me []) i) s).
Proof.
  intros Hf Hi Hl Hu Ha Hv Hn. unfold iput. mstep (on_ilock_ok _ s ip i _ _ Hi (acquiresleep_alone me (CHAN_INODE ip) _ Hl Hu Ha)).
  set (i1 := set_ilock (mksl false 1 me []) i). pose proof (upd_ino_lookup s ip i i1 Hi) as Hi1. mstep (iptr_ok _ _ _ Hi1).
  set (s1 := upd_ino ip i1 s) in *. change (i_valid i1) with (i_valid i). change (i_nlink i1) with (i_nlink i).
  rewrite (proj2 (Z.eqb_neq _ _) Hv), Hn. cbn [negb andb Z.eqb].
  rewrite !bind_assoc. mstep (acquire_icache_ok s1 Hf). rewrite !bind_assoc. mstep (iptr_ok (set_ic_lock true s1) ip i1 Hi1).
  rewrite bind_ret_l, !bind_assoc.
  assert (Er : release_icache (set_ic_lock true s1) = Ok tt s1).
  { unfold release_icache, release. simpl. f_equal. unfold set_ic_lock. simpl. rewrite <- Hf at 1. by destruct s. }
  by mstep Er.
Qed.

(** The inode is linked, or it is not the last reference, or it was not read. *)
Definition kept i : Prop := i_valid i = 0 ∨ i_nlink i ≠ 0 ∨ i_ref i ≠ 1.

Lemma iput_keep s v o ip i :
  icok s v o → ic_inode s !! ip = Some i → 0 < i_ref i → sl_locked (i_lock i) = 0 → kept i →
  iput me ip s = Ok tt (upd_ino ip (put_back i) s) ∧ icok (upd_ino ip (put_back i) s) v o ∧
  (∀ m, refs (ic_inode (upd_ino ip (put_back i) s)) m = refs (ic_inode s) m + bump (i_inum i) (-1) m).
Proof.
  intros I Hi Hr Hu Hk. pose proof (ic_ent _ _ _ I _ _ Hi) as E. pose proof (ic_free _ _ _ I) as Hf. split_and!.
  - set (i1 := set_ilock (mksl false 1 me []) i). pose proof (upd_ino_lookup s ip i i1 Hi) as Hi1.
    assert (Hend : (on_ilock ip releasesleep;; acquire_icache;; iset ip (λ i, set_iref (i_ref i - 1) i);; release_icache) (upd_ino ip i1 s)
      = Ok tt (upd_ino ip (put_back i) s)) by (by rewrite (iput_end (upd_ino ip i1 s) ip i1 Hf Hi1 eq_refl), upd_ino_upd).
    destruct (decide (i_valid i ≠ 0 ∧ i_nlink i = 0)) as [[Hv Hn]|Hnk].
    + rewrite (iput_unlinked s ip i Hf Hi (eo_lk _ _ _ E) Hu (eo_asleep _ _ _ E Hu) Hv Hn).
      destruct (Z.eqb_spec (i_ref i) 1) as [Er|_]; [unfold kept in Hk; lia|]. by rewrite bind_ret_l.
    + unfold iput. mstep (on_ilock_ok _ s ip i _ _ Hi (acquiresleep_alone me (CHAN_INODE ip) _ (eo_lk _ _ _ E) Hu (eo_asleep _ _ _ E Hu))).
      fold i1. mstep (iptr_ok _ _ _ Hi1). change (i_valid i1) with (i_valid i). change (i_nlink i1) with (i_nlink i).
      destruct (Z.eqb_spec (i_valid i) 0), (Z.eqb_spec (i_nlink i) 0); cbn [negb andb]; try (by rewrite bind_ret_l). by destruct Hnk.
  - rewrite <- (set_tx_id (upd_ino _ _ _)). eapply icok_upd; eauto; [by apply entry_put|apply I].
  - intros m. simpl. rewrite (refs_insert _ _ _ _ _ Hi). unfold ref1, bump, put_back. simpl. rewrite (Z.eqb_sym m). case_match; lia.
Qed.
End icache.
