(* ===== verification/FsTrunc.v ===== *)
(** * Freeing a file: itrunc and the last iput of fs.c

    [frees sb A v v'] says that exactly the blocks of the set [A] have been
    marked free and that nothing outside the free map has changed.  [itrunc]
    frees exactly the blocks that the file [owns]; [iput], when it gives back
    the last reference to an inode without links, does this and marks the
    inode as free, and the invariant of the inode cache is kept. *)

From S2P Require Import Prelude Params Strings BlockDev Sleeplock Tx Fs FsFile Dinode Icache.

(** A block of the file [i]: one of its data, or the one with their addresses. *)
Definition owns (v : bview) (i : inode) (b : Z) : Prop :=
  b ≠ 0 ∧ (b = iaddr i NDIRECT ∨ ∃ bn, in_file bn ∧ b = faddr v i bn).

(** The blocks among the first [k] of the file. *)
Definition taken (v : bview) (i : inode) (k : Z) : gset Z :=
  list_to_set (filter (λ a, a ≠ 0) (faddr v i <$> seqZ 0 k)).

Lemma elem_of_taken v i k b : b ∈ taken v i k ↔ b ≠ 0 ∧ ∃ j, 0 ≤ j < k ∧ b = faddr v i j.
Proof.
  unfold taken. rewrite elem_of_list_to_set, list_elem_of_filter, list_elem_of_fmap. split.
  - intros (Hb & j & -> & Hj%elem_of_seqZ). split; [done|]. exists j. split; [lia|done].
  - intros (Hb & j & Hj & ->). split; [done|]. exists j. split; [done|]. apply elem_of_seqZ. lia.
Qed.

Lemma taken_zero v i k : 0 ≤ k → faddr v i k = 0 → taken v i (k + 1) = taken v i k.
Proof.
  intros Hk Hz0. apply set_eq. intros b. rewrite !elem_of_taken. split; intros (Hb & j & Hj & ->); (split; [done|]); exists j; (split; [|done]); [|lia].
  destruct (decide (j = k)) as [->|]; [done|lia].
Qed.

Lemma taken_next v i k : 0 ≤ k → faddr v i k ≠ 0 → taken v i (k + 1) = taken v i k ∪ {[faddr v i k]}.
Proof.
  intros Hk Hn. apply set_eq. intros b. rewrite elem_of_union, elem_of_singleton, !elem_of_taken. split.
  - intros (Hb & j & Hj & ->). destruct (decide (j = k)) as [->|]; [by right|left]. split; [done|]. exists j. split; [lia|done].
  - intros [(Hb & j & Hj & ->)| ->]; (split; [done|]); [exists j|exists k]; (split; [lia|done]).
Qed.

(** All blocks of the file. *)
Definition blocks (v : bview) (i : inode) : gset Z :=
  taken v i MAXFILE ∪ (if iaddr i NDIRECT =? 0 then ∅ else {[iaddr i NDIRECT]}).

Lemma elem_of_blocks v i b : b ∈ blocks v i ↔ owns v i b.
Proof.
  unfold blocks, owns. rewrite elem_of_union, elem_of_taken. destruct (Z.eqb_spec (iaddr i NDIRECT) 0) as [E|E].
  - rewrite E, elem_of_empty. unfold in_file. naive_solver.
  - rewrite elem_of_singleton. unfold in_file. split; [|naive_solver]. intros [(Hb & j & Hj & ->)| ->]; (split; [done|]); [|by left].
    right. by exists j.
Qed.

(** ** Blocks that are marked free *)

(** The blocks of the free map. *)
Definition bitmap (sb : superblock) : gset Z :=
  list_to_set (seqZ (sb_bmapstart sb) (datastart sb - sb_bmapstart sb)).

Lemma elem_of_bitmap sb n : n ∈ bitmap sb ↔ sb_bmapstart sb ≤ n < datastart sb.
Proof. unfold bitmap. rewrite elem_of_list_to_set, elem_of_seqZ. lia. Qed.

Record frees (sb : superblock) (A : gset Z) (v v' : bview) : Prop := {
  fe_used : ∀ b, 0 ≤ b < sb_size sb → used sb v' b = bool_decide (b ∉ A) && used sb v b;
  fe_blk : ∀ n, 0 ≤ n → n ∉ bitmap sb → blk v' n = blk v n;
  fe_held : v_held v' = v_held v;
  fe_len : length (v_disk v') = length (v_disk v);
  fe_pins : v_pins v' ⊆ v_pins v ∪ bitmap sb }.

Lemma frees_none sb v : frees sb ∅ v v.
Proof. split; (done || set_solver). Qed.

(** There is room in the transaction for the free map and [k] more blocks. *)
Definition map_room {T} `{TxSpec T} (k : nat) (sb : superblock) (v : bview) (o : Z) : Prop :=
  1 ≤ o ∧ (size (v_pins v ∪ bitmap sb) + k ≤ tx_max)%nat.

Section trunc.
Context {T : Type} `{TxSpec T}.
Implicit Types (v : bview) (s : fsstate (T := T)) (sb : superblock) (i : inode).

Lemma map_room_frees k sb A v v' o : map_room k sb v o → frees sb A v v' → map_room k sb v' o.
Proof.
  intros [Ho Hs] Fr. split; [done|].
  pose proof (subseteq_size (v_pins v' ∪ bitmap sb) (v_pins v ∪ bitmap sb)). pose proof (fe_pins _ _ _ _ Fr).
  assert (v_pins v' ∪ bitmap sb ⊆ v_pins v ∪ bitmap sb) by set_solver. lia.
Qed.

Lemma map_room_budget k sb v o t : map_room (S k) sb v o → trepr t v o → (size (v_held v) ≤ 1)%nat → k ≠ 0%nat → budget k v o.
Proof.
  intros [Ho Hs] R Hh Hk. pose proof (trepr_pins _ _ _ R). pose proof (subseteq_size (v_pins v) (v_pins v ∪ bitmap sb) ltac:(set_solver)).
  unfold budget, room. lia.
Qed.

Lemma free_view_frees sb A v v1 b :
  view_wf v1 → geom sb (Z.of_nat (length (v_disk v1))) → frees sb A v v1 → 0 ≤ b < sb_size sb →
  frees sb (A ∪ {[b]}) v (free_view sb b v1).
Proof.
  intros W G [F1 F2 F3 F4 F5] Hb. pose proof (BBLOCK_range _ _ _ G Hb) as Hbb. pose proof (g_istart _ _ G).
  assert (Hin : BBLOCK b sb ∈ bitmap sb) by (apply elem_of_bitmap; lia). split; try done.
  - intros b' Hb'. rewrite used_clear_bit, F1 by done.
    destruct (decide (b' = b)) as [->|Hne].
    + rewrite (bool_decide_true (b = b)) by done. by rewrite (bool_decide_false (b ∉ A ∪ {[b]})) by set_solver.
    + rewrite (bool_decide_false (b' = b)) by done. simpl. f_equal. apply bool_decide_ext. set_solver.
  - intros n Hn Hnot. unfold free_view. rewrite blk_upd_ne; [by apply F2|lia|done|]. by intros <-.
  - simpl. set_solver.
Qed.

(** A logged update keeps the view consistent. *)
Lemma view_upd_wf n d v : view_wf v → in_disk v n → length d = Z.to_nat BSIZE → view_wf (view_upd n d v).
Proof.
  intros [W1 W2 W3 W4 W5 W6 W7] Hn Hd. split; simpl; try done.
  - by rewrite length_insert.
  - by apply Forall_insert.
  - intros m [->%elem_of_singleton|Hm]%elem_of_union; [done|by apply W4].
  - intros m Hm Hh Hp. unfold in_disk in Hn. rewrite list_lookup_insert_ne by (intros E; assert (m = n) by lia; set_solver).
    apply W7; set_solver.
Qed.

Lemma free_view_wf sb b v : view_wf v → geom sb (Z.of_nat (length (v_disk v))) → 0 ≤ b < sb_size sb → view_wf (free_view sb b v).
Proof.
  intros W G Hb. destruct (BBLOCK_ok _ _ _ G Hb) as (Hin & _). apply view_upd_wf; [done|done|].
  rewrite length_bit_clear. by apply blk_length.
Qed.

(** ** One bfree of the loops *)

Section file.
Context (sb : superblock) (v : bview) (i : inode) (o : Z).
Context (G : geom sb (Z.of_nat (length (v_disk v)))) (F : ifile sb v i) (Hm : map_room 2 sb v o) (He : v_held v = ∅).
Context (Esb : sb_of_bytes (blk v 1) = sb).

Lemma one_not_bitmap : 1 ∉ bitmap sb.
Proof. rewrite elem_of_bitmap. pose proof (g_istart _ _ G). lia. Qed.

Lemma good_not_bitmap a : good sb v a → a ∉ bitmap sb.
Proof. intros [Ha _]. rewrite elem_of_bitmap. lia. Qed.

(** [bfree] when the files that the caller holds a block of are in use. *)
Lemma bfree_next s t A v1 w b :
  fs_sb s = sb → frees sb A v v1 → v_cont w = v_cont v1 → v_disk w = v_disk v1 → v_pins w = v_pins v1 →
  held_used sb w → (size (v_held w) ≤ 1)%nat → trepr t w o → good sb v b → b ∉ A →
  ∃ t', bfree ROOTDEV b (set_tx t s) = Ok tt (set_tx t' s) ∧ trepr t' (free_view sb b w) o ∧
    (view_wf v1 → frees sb (A ∪ {[b]}) v (free_view sb b v1)).
Proof.
  intros Es Fr C1 C2 C3 Hu Hh R [Hb Hub] HbA. pose proof (datastart_pos _ _ G).
  assert (Eb : ∀ n, blk w n = blk v1 n) by (intros n; unfold blk; by rewrite C1).
  assert (Gw : geom sb (Z.of_nat (length (v_disk w)))) by (by rewrite C2, (fe_len _ _ _ _ Fr)).
  assert (Hmw : map_room 2 sb w o).
  { pose proof (map_room_frees _ _ _ _ _ _ Hm Fr) as [? ?]. split; [done|]. by rewrite C3. }
  destruct (bfree_ok (set_tx t s) w o b) as (t' & E & R'); change (fs_sb (set_tx t s)) with (fs_sb s) in *; rewrite ?Es in *.
  - done.
  - done.
  - by apply (map_room_budget 1 sb w o t).
  - rewrite Eb, (fe_blk _ _ _ _ Fr) by (lia || apply one_not_bitmap). done.
  - done.
  - lia.
  - unfold used. rewrite Eb. fold (used sb v1 b). rewrite (fe_used _ _ _ _ Fr) by lia.
    by rewrite bool_decide_true, Hub.
  - exists t'. split; [exact E|]. split; [exact R'|]. intros W.
    apply free_view_frees; [done| |done|lia]. by rewrite (fe_len _ _ _ _ Fr).
Qed.

(** The address [b] of block [k] is the next to be freed. *)
Lemma taken_fresh k : in_file k → faddr v i k ≠ 0 → good sb v (faddr v i k) ∧ faddr v i k ∉ taken v i k.
Proof.
  intros Hk Hn. destruct (if_map _ _ _ F k Hk) as [?|Hg]; [done|]. split; [done|].
  rewrite elem_of_taken. intros (_ & j & Hj & E). unfold in_file in *.
  apply (if_inj _ _ _ F k j); (done || unfold in_file; lia).
Qed.

Lemma addr_lookup k : 0 ≤ k ≤ NDIRECT → i_addrs i !! Z.to_nat k = Some (iaddr i k).
Proof.
  intros Hk. unfold iaddr. pose proof (if_len _ _ _ F).
  destruct (lookup_lt_is_Some_2 (i_addrs i) (Z.to_nat k)) as [a ->]; [lia|done].
Qed.

(** The inode with its first [k] addresses cleared. *)
Definition cut (k : Z) : inode := set_iaddrs (replicate (Z.to_nat k) 0 ++ drop (Z.to_nat k) (i_addrs i)) i.

Lemma cut_lookup k : 0 ≤ k ≤ NDIRECT → i_addrs (cut k) !! Z.to_nat k = Some (iaddr i k).
Proof.
  intros Hk. simpl. rewrite lookup_app_r, length_replicate, Nat.sub_diag by (rewrite length_replicate; lia).
  rewrite lookup_drop, Nat.add_0_r. by apply addr_lookup.
Qed.

Lemma cut_next k : 0 ≤ k ≤ NDIRECT → set_iaddrs (<[Z.to_nat k := 0]> (i_addrs (cut k))) (cut k) = cut (k + 1).
Proof.
  intros Hk. unfold cut. simpl. unfold set_iaddrs. simpl. f_equal.
  rewrite insert_app_r_alt, length_replicate, Nat.sub_diag by (rewrite length_replicate; lia).
  rewrite (drop_S _ _ _ (addr_lookup k Hk)). simpl. rewrite Z2Nat.inj_add, Nat.add_1_r, replicate_S_end by lia.
  by rewrite <- app_assoc.
Qed.

Lemma cut_zero k : 0 ≤ k ≤ NDIRECT → iaddr i k = 0 → cut (k + 1) = cut k.
Proof.
  intros Hk Hz0. rewrite <- cut_next by done. rewrite list_insert_id; [by apply set_iaddrs_id|].
  rewrite cut_lookup by done. by rewrite Hz0.
Qed.

Lemma faddr_direct k : 0 ≤ k < NDIRECT → faddr v i k = iaddr i k.
Proof. intros Hk. unfold faddr. by destruct (Z.ltb_spec k NDIRECT); [|lia]. Qed.

(** The loop over the direct addresses. *)
Lemma trunc_direct s ip : fs_sb s = sb → ic_inode s !! ip = Some i → trepr (fs_tx s) v o →
  ∃ t v1, for_each (Z.to_nat NDIRECT) 0 (λ k,
      i ← iptr ip;
      a ← lift_opt (i_addrs i !! Z.to_nat k);
      if negb (a =? 0) then
        bfree (i_dev i) a;;
        iset ip (λ i, set_iaddrs (<[Z.to_nat k := 0]> (i_addrs i)) i)
      else mret tt) s = Ok tt (set_tx t (upd_ino ip (cut NDIRECT) s)) ∧
    trepr t v1 o ∧ frees sb (taken v i NDIRECT) v v1.
Proof.
  intros Es Hi R.
  set (I k s1 := ∃ t v1, s1 = set_tx t (upd_ino ip (cut k) s) ∧ trepr t v1 o ∧ frees sb (taken v i k) v v1).
  destruct (for_each_inv I (λ k,
      i ← iptr ip;
      a ← lift_opt (i_addrs i !! Z.to_nat k);
      if negb (a =? 0) then
        bfree (i_dev i) a;;
        iset ip (λ i, set_iaddrs (<[Z.to_nat k := 0]> (i_addrs i)) i)
      else mret tt) (Z.to_nat NDIRECT) 0 s) as (s' & E & t & v1 & -> & R1 & F1).
  - exists (fs_tx s), v. assert (cut 0 = i) as -> by exact (set_iaddrs_id i). rewrite upd_ino_id, set_tx_id by done.
    split_and!; [done|done|apply frees_none].
  - intros k s1 Hk (t & v1 & -> & R1 & F1). change (Z.of_nat (Z.to_nat NDIRECT)) with NDIRECT in Hk.
    assert (Hi1 : ic_inode (set_tx t (upd_ino ip (cut k) s)) !! ip = Some (cut k)) by (by eapply upd_ino_lookup).
    mstep (iptr_ok _ _ _ Hi1). rewrite cut_lookup by lia. cbn [lift_opt]. rewrite bind_ret_l.
    assert (Hfile : in_file k) by (unfold in_file; change MAXFILE with 140; change NDIRECT with 12 in Hk; lia). rewrite <- faddr_direct by lia.
    destruct (Z.eqb_spec (faddr v i k) 0) as [Hz0|Hn].
    + exists (set_tx t (upd_ino ip (cut k) s)). split; [done|]. exists t, v1. rewrite taken_zero by (done || lia).
      rewrite cut_zero; [done|lia|]. by rewrite <- faddr_direct by lia.
    + destruct (taken_fresh k Hfile Hn) as [Hg Hnot]. change (i_dev (cut k)) with (i_dev i). rewrite (if_dev _ _ _ F).
      destruct (bfree_next (upd_ino ip (cut k) s) t _ v1 v1 (faddr v i k) Es F1 eq_refl eq_refl eq_refl) as (t2 & E2 & R2 & F2); try done.
      * apply held_used_empty. by rewrite (fe_held _ _ _ _ F1).
      * rewrite (fe_held _ _ _ _ F1), He, map_size_empty. lia.
      * cbn [negb]. mstep E2. eexists. split; [exact (iset_ok (set_tx t2 (upd_ino ip (cut k) s)) ip (cut k) _ Hi1)|].
        exists t2, (free_view sb (faddr v i k) v1). rewrite cut_next by lia. rewrite taken_next by (done || lia).
        split_and!; [|done|exact (F2 (trepr_wf _ _ _ R1))]. unfold upd_ino, set_tx, set_inodes. simpl. by rewrite list_insert_insert_eq.
  - exists t, v1. split; [exact E|]. by split.
Qed.

(** The blocks whose addresses are in the indirect block, which is held. *)
Definition ind_inv s (h : nat) (k : Z) (s1 : fsstate) : Prop :=
  ∃ t v2, s1 = set_tx t s ∧ trepr t (view_hold h (iaddr i NDIRECT) v2) o ∧ view_wf v2 ∧
    frees sb (taken v i (NDIRECT + k)) v v2.

Lemma ind_not_taken k : iaddr i NDIRECT ≠ 0 → k ≤ MAXFILE → iaddr i NDIRECT ∉ taken v i k.
Proof.
  intros Hn Hk. rewrite elem_of_taken. intros (_ & j & Hj & E). apply (if_sep _ _ _ F j); [unfold in_file; lia| |done]. by rewrite <- E.
Qed.

Lemma ind_step s h k s1 : fs_sb s = sb → iaddr i NDIRECT ≠ 0 → 0 ≤ k < NINDIRECT → ind_inv s h k s1 →
  ∃ s2, (d ← on_tx (tx_data h);
         let b := get32 d (Z.to_nat (4 * k)) in
         if negb (b =? 0) then bfree ROOTDEV b else mret tt) s1 = Ok tt s2 ∧ ind_inv s h (k + 1) s2.
Proof.
  intros Es Hn Hk (t2 & v2 & -> & R2 & W2 & F2). set (a := iaddr i NDIRECT) in *.
  destruct (if_ind _ _ _ F) as [?|Hg]; [done|]. fold a in Hg. pose proof (datastart_pos _ _ G) as Hds.
  assert (Hfile : in_file (NDIRECT + k)) by (unfold in_file; change MAXFILE with 140; change NDIRECT with 12; change NINDIRECT with 128 in Hk; lia).
  assert (Hpos : 0 ≤ NDIRECT + k) by apply Hfile.
  assert (Ed : on_tx (tx_data h) (set_tx t2 s) = Ok (blk v a) (set_tx t2 s)).
  { destruct (tx_data_spec _ _ _ h a R2 (view_held_hold _ _ _)) as (d & Ed & Hd). rewrite (on_tx_ok _ (set_tx t2 s) _ _ Ed).
    simpl in Hd. apply (blk_lookup v2) in Hd. destruct Hg as [? ?]. rewrite <- Hd, (fe_blk _ _ _ _ F2); [done|lia|by apply good_not_bitmap]. }
  mstep Ed. cbv zeta. assert (Ef : get32 (blk v a) (Z.to_nat (4 * k)) = faddr v i (NDIRECT + k)).
  { rewrite faddr_indirect by (done || lia). do 3 f_equal. lia. }
  rewrite Ef. unfold ind_inv. rewrite Z.add_assoc. destruct (Z.eqb_spec (faddr v i (NDIRECT + k)) 0) as [Hz0|Hb].
  - exists (set_tx t2 s). split; [done|]. exists t2, v2. rewrite taken_zero by done. by split_and!.
  - destruct (taken_fresh _ Hfile Hb) as [Hgb Hnb]. set (b := faddr v i (NDIRECT + k)) in *.
    assert (Hua : used sb v2 a = true).
    { destruct Hg as [Ha Hu]. rewrite (fe_used _ _ _ _ F2) by lia.
      rewrite bool_decide_true, Hu; [done|]. apply ind_not_taken; [done|]. unfold in_file in Hfile. lia. }
    destruct (bfree_next s t2 _ v2 (view_hold h a v2) b Es F2 eq_refl eq_refl eq_refl) as (t3 & E3 & R3 & F3); try done.
    + intros h' n'. simpl. rewrite (fe_held _ _ _ _ F2), He, insert_empty, lookup_singleton_Some. intros [_ <-].
      by split; [apply Hg|].
    + simpl. rewrite (fe_held _ _ _ _ F2), He, insert_empty, map_size_singleton. lia.
    + exists (set_tx t3 s). split; [exact E3|]. exists t3, (free_view sb b v2).
      rewrite taken_next by done. split_and!; [done|exact R3| |by apply F3].
      apply free_view_wf; [done| |destruct Hgb; lia]. by rewrite (fe_len _ _ _ _ F2).
Qed.

(** The loop over the addresses in the indirect block, and that block. *)
Lemma trunc_indirect s t v1 : fs_sb s = sb → iaddr i NDIRECT ≠ 0 → trepr t v1 o → frees sb (taken v i NDIRECT) v v1 →
  ∃ t2 v2, (∀ k : M fsstate unit,
    (bp ← on_tx (tx_bread ROOTDEV (iaddr i NDIRECT));
     for_each (Z.to_nat NINDIRECT) 0 (λ j,
       d ← on_tx (tx_data bp);
       let b := get32 d (Z.to_nat (4 * j)) in
       if negb (b =? 0) then bfree ROOTDEV b else mret tt);;
     on_tx (tx_brelse bp);;
     bfree ROOTDEV (iaddr i NDIRECT);;
     k) (set_tx t s) = k (set_tx t2 s)) ∧
    trepr t2 v2 o ∧ frees sb (blocks v i) v v2.
Proof.
  intros Es Hn R F1. destruct (if_ind _ _ _ F) as [?|Hg]; [done|].
  destruct (good_disk _ _ _ G Hg) as (Hin & Hh & Hpos). pose proof (trepr_wf _ _ _ R) as W1.
  assert (Hd : ∀ A v', frees sb A v v' → v_held v' = ∅ ∧ in_disk v' (iaddr i NDIRECT) ∧ not_held v' (iaddr i NDIRECT)).
  { intros A v' Fr. split_and!; [by rewrite (fe_held _ _ _ _ Fr)|unfold in_disk in *; by rewrite (fe_len _ _ _ _ Fr)|].
    intros h. by rewrite (fe_held _ _ _ _ Fr), He, lookup_empty. }
  destruct (Hd _ _ F1) as (He1 & Hin1 & Hno1).
  destruct (fs_bread (set_tx t s) v1 o _ R Hin1 Hh Hno1 (free_room _ _ _ R He1)) as (h & t1 & E1 & _ & Hf & R1).
  destruct (for_each_inv (ind_inv s h) (λ j,
       d ← on_tx (tx_data h);
       let b := get32 d (Z.to_nat (4 * j)) in
       if negb (b =? 0) then bfree ROOTDEV b else mret tt) (Z.to_nat NINDIRECT) 0 (set_tx t1 s))
    as (s' & E & t2 & v2 & -> & R2 & W2 & F2).
  - exists t1, v1. by split_and!.
  - intros k s1 Hk. apply ind_step; [done|done|exact Hk].
  - change (NDIRECT + (0 + Z.of_nat (Z.to_nat NINDIRECT))) with MAXFILE in F2. destruct (Hd _ _ F2) as (He2 & Hin2 & Hno2).
    destruct (fs_brelse s t2 v2 o h _ R2 W2 Hin2) as (t3 & E3 & R3); [by rewrite He2, lookup_empty|done|].
    destruct (bfree_next s t3 _ v2 v2 (iaddr i NDIRECT) Es F2 eq_refl eq_refl eq_refl) as (t4 & E4 & R4 & F4); try done.
    + by apply held_used_empty.
    + rewrite He2, map_size_empty. lia.
    + by apply ind_not_taken.
    + exists t4, (free_view sb (iaddr i NDIRECT) v2). split_and!; [|exact R4|].
      { intros k. mstep E1. rewrite set_tx_set_tx. mstep E. mstep E3. by mstep E4. }
      unfold blocks. rewrite (proj2 (Z.eqb_neq _ _) Hn). by apply F4.
Qed.

(** ** itrunc *)

Definition emptied (i : inode) : inode := set_isize 0 (set_iaddrs (replicate 13 0) i).

Lemma cut_all : set_isize 0 (cut (NDIRECT + 1)) = emptied i.
Proof. unfold cut, emptied. rewrite drop_ge, app_nil_r by (rewrite (if_len _ _ _ F); lia). done. Qed.

Lemma blocks_direct : iaddr i NDIRECT = 0 → blocks v i = taken v i NDIRECT.
Proof.
  intros Hz0. unfold blocks. rewrite Hz0. cbn [Z.eqb]. rewrite union_empty_r_L. apply set_eq. intros b. rewrite !elem_of_taken.
  split; intros (Hb & j & Hj & ->); (split; [done|]); exists j; (split; [|done]).
  - destruct (decide (j < NDIRECT)); [lia|]. destruct Hb. unfold faddr. destruct (Z.ltb_spec j NDIRECT); [lia|]. by rewrite Hz0.
  - change MAXFILE with 140. change NDIRECT with 12 in Hj. lia.
Qed.

(** What follows the first loop. *)
Lemma trunc_rest s ip t v1 : fs_sb s = sb → ic_inode s !! ip = Some i → trepr t v1 o → frees sb (taken v i NDIRECT) v v1 →
  ∃ t2 v2, (if negb (iaddr i NDIRECT =? 0) then
       bp ← on_tx (tx_bread ROOTDEV (iaddr i NDIRECT));
       for_each (Z.to_nat NINDIRECT) 0 (λ j,
         d ← on_tx (tx_data bp);
         let b := get32 d (Z.to_nat (4 * j)) in
         if negb (b =? 0) then bfree ROOTDEV b else mret tt);;
       on_tx (tx_brelse bp);;
       bfree ROOTDEV (iaddr i NDIRECT);;
       iset ip (λ i, set_iaddrs (<[Z.to_nat NDIRECT := 0]> (i_addrs i)) i)
     else mret tt) (set_tx t (upd_ino ip (cut NDIRECT) s)) = Ok tt (set_tx t2 (upd_ino ip (cut (NDIRECT + 1)) s)) ∧
    trepr t2 v2 o ∧ frees sb (blocks v i) v v2.
Proof.
  intros Es Hi R1 F1. destruct (Z.eqb_spec (iaddr i NDIRECT) 0) as [Hz0|Hn]; cbn [negb].
  - exists t, v1. rewrite blocks_direct by done. split_and!; [|done|done]. by rewrite cut_zero.
  - destruct (trunc_indirect (upd_ino ip (cut NDIRECT) s) t v1 Es Hn R1 F1) as (t2 & v2 & E2 & R2 & F2). exists t2, v2. split_and!; [|done|done].
    rewrite E2, (iset_ok _ ip (cut NDIRECT)) by (by eapply upd_ino_lookup). rewrite cut_next by done.
    unfold upd_ino, set_tx, set_inodes. simpl. by rewrite list_insert_insert_eq.
Qed.

Lemma itrunc_ok s ip : fs_sb s = sb → ic_inode s !! ip = Some i → trepr (fs_tx s) v o → 0 ≤ i_inum i < sb_ninodes sb →
  ∃ t v2, itrunc ip s = Ok tt (set_tx t (upd_ino ip (emptied i) s)) ∧ frees sb (blocks v i) v v2 ∧ view_wf v2 ∧
    trepr t (inode_view sb (emptied i) v2) o.
Proof.
  intros Es Hi R Hin. destruct (trunc_direct s ip Es Hi R) as (t & v1 & E & R1 & F1).
  unfold itrunc. mstep E.
  assert (Hi1 : ∀ t j, ic_inode (set_tx t (upd_ino ip j s)) !! ip = Some j) by (intros; by eapply upd_ino_lookup).
  mstep (iptr_ok _ _ _ (Hi1 t (cut NDIRECT))). rewrite cut_lookup by done. cbn [lift_opt]. rewrite bind_ret_l.
  change (i_dev (cut NDIRECT)) with (i_dev i). rewrite (if_dev _ _ _ F).
  destruct (trunc_rest s ip t v1 Es Hi R1 F1) as (t2 & v2 & E2 & R2 & F2). mstep E2.
  mstep (iset_ok _ ip _ (set_isize 0) (Hi1 t2 (cut (NDIRECT + 1)))). rewrite cut_all.
  replace (upd_ino ip (emptied i) (set_tx t2 (upd_ino ip (cut (NDIRECT + 1)) s))) with (set_tx t2 (upd_ino ip (emptied i) s))
    by (unfold upd_ino, set_tx, set_inodes; simpl; by rewrite list_insert_insert_eq).
  destruct (iupdate_ok (set_tx t2 (upd_ino ip (emptied i) s)) v2 o ip (emptied i)) as (t3 & E3 & R3); try done;
    change (fs_sb (set_tx t2 (upd_ino ip (emptied i) s))) with (fs_sb s) in *; rewrite ?Es in *.
  - by rewrite (fe_len _ _ _ _ F2).
  - apply held_used_empty. by rewrite (fe_held _ _ _ _ F2).
  - apply F.
  - exact Hin.
  - apply (map_room_budget 1 sb v2 o t2); [|done| |done]; [by eapply map_room_frees|].
    rewrite (fe_held _ _ _ _ F2), He, map_size_empty. lia.
  - exists t3, v2. split_and!; [exact E3|done|by eapply trepr_wf|exact R3].
Qed.
End file.

(** ** Inodes on the disk *)

Lemma inode_view_read sb v i j : view_wf v → geom sb (Z.of_nat (length (v_disk v))) → 0 ≤ i_inum i < sb_ninodes sb → din_range i →
  read_in sb (inode_view sb i v) (i_inum i) j = stored i j.
Proof.
  intros W G Hn Hr. destruct (IBLOCK_ok _ _ _ G Hn) as (Hin & _ & _). unfold read_in, inode_view. rewrite blk_upd_eq by done.
  apply dinode_get_put; [done|]. rewrite blk_length by done. apply (d_off_bound (i_inum i)).
Qed.

Lemma inode_view_other sb v i m j : view_wf v → geom sb (Z.of_nat (length (v_disk v))) →
  0 ≤ i_inum i < sb_ninodes sb → 0 ≤ m < sb_ninodes sb → m ≠ i_inum i → length (i_addrs i) = 13%nat →
  read_in sb (inode_view sb i v) m j = read_in sb v m j.
Proof.
  intros W G Hn Hm Hne Hl. destruct (IBLOCK_ok _ _ _ G Hn) as (Hin & _ & ?). destruct (IBLOCK_ok _ _ _ G Hm) as (_ & _ & ?).
  pose proof (g_istart _ _ G). unfold read_in, inode_view. destruct (decide (IBLOCK m sb = IBLOCK (i_inum i) sb)) as [E|E].
  - rewrite E, blk_upd_eq by done. apply dinode_get_other; [done| |].
    + rewrite blk_length by done. apply (d_off_bound (i_inum i)).
    + unfold IBLOCK in E. unfold d_off. change IPB with 8 in *. change DINODESZ with 64. lia.
  - by rewrite blk_upd_ne by lia.
Qed.

Section inode_view.
Context (sb : superblock) (v : bview) (i : inode).
Context (W : view_wf v) (G : geom sb (Z.of_nat (length (v_disk v)))) (Hn : 0 ≤ i_inum i < sb_ninodes sb).
Context (Hl : length (i_addrs i) = 13%nat).

Lemma inode_view_wf : view_wf (inode_view sb i v).
Proof.
  destruct (IBLOCK_ok _ _ _ G Hn) as (Hin & _ & _). apply view_upd_wf; [done|done|].
  pose proof (d_off_bound (i_inum i)). rewrite length_dinode_put; rewrite ?blk_length by done; done.
Qed.

Lemma inode_view_used b : 0 ≤ b < sb_size sb → used sb (inode_view sb i v) b = used sb v b.
Proof.
  intros Hb. destruct (IBLOCK_ok _ _ _ G Hn) as (_ & _ & Hr). pose proof (g_istart _ _ G). destruct (g_inodes _ _ G) as [_ Hi].
  specialize (Hi _ Hn). apply used_upd_other; try done; lia.
Qed.

Lemma inode_view_data b : sb_bmapstart sb ≤ b → blk (inode_view sb i v) b = blk v b.
Proof.
  intros Hb. destruct (IBLOCK_ok _ _ _ G Hn) as (_ & _ & Hr). pose proof (g_istart _ _ G). destruct (g_inodes _ _ G) as [_ Hi].
  specialize (Hi _ Hn). apply blk_upd_ne; lia.
Qed.
End inode_view.

Lemma frees_read_in sb A v v' m j : geom sb (Z.of_nat (length (v_disk v))) → frees sb A v v' → 0 ≤ m < sb_ninodes sb →
  read_in sb v' m j = read_in sb v m j.
Proof.
  intros G Fr Hm. unfold read_in. destruct (IBLOCK_ok _ _ _ G Hm) as (_ & _ & ?). destruct (g_inodes _ _ G) as [_ Hi].
  specialize (Hi _ Hm). pose proof (g_istart _ _ G). rewrite (fe_blk _ _ _ _ Fr); [done|lia|]. rewrite elem_of_bitmap. lia.
Qed.

(** ** The last iput *)

Lemma ifile_same sb v i j : i_dev j = i_dev i → i_addrs j = i_addrs i → ifile sb v i → ifile sb v j.
Proof.
  intros Ed Ea F. assert (Ei : ∀ k, iaddr j k = iaddr i k) by (intros; unfold iaddr; by rewrite Ea).
  assert (Ef : ∀ bn, faddr v j bn = faddr v i bn) by (intros; unfold faddr; by rewrite !Ei).
  destruct F. split; rewrite ?Ed, ?Ea, ?Ei; try done; intros *; rewrite ?Ef; auto.
Qed.

(** One entry and the disk change, and all other inodes stay as they are. *)
Lemma icok_change s v o t v' ip i i' :
  icok s v o → ic_inode s !! ip = Some i → 0 < i_ref i → trepr t v' o →
  length (v_disk v') = length (v_disk v) → v_held v' = ∅ → entry_ok (fs_sb s) v' i' → i_inum i' = i_inum i →
  (∀ m j, 0 ≤ m < sb_ninodes (fs_sb s) → m ≠ i_inum i → read_in (fs_sb s) v' m j = read_in (fs_sb s) v m j) →
  icok (set_tx t (upd_ino ip i' s)) v' o.
Proof.
  intros [R G He Hf E U] Hi Hr R' Hl He' Ei' Hn Ho. split; simpl; try done.
  - by rewrite Hl.
  - intros k j. rewrite list_lookup_insert. case_decide as Hk; [by intros [= <-]|]. intros Hj.
    destruct (E _ _ Hj) as [E1 E2 E3 E4 E5 E6 E7]. split; try done. intros Hrj Hvj Hlj. etrans; [|exact (E5 Hrj Hvj Hlj)].
    apply Ho; [by apply E4|]. intros En. destruct Hk. split; [|by eapply lookup_lt_Some]. by eapply U.
  - intros k k' j j'. rewrite !list_lookup_insert. case_decide as Hk; case_decide as Hk'; [lia| | |by apply U]; intros Hj Hj' Hrj Hrj' En.
    + injection Hj as <-. destruct Hk as [-> _]. apply (U _ _ _ _ Hi Hj' Hr Hrj'). congruence.
    + injection Hj' as <-. destruct Hk' as [-> _]. symmetry. apply (U _ _ _ _ Hi Hj Hr Hrj). congruence.
Qed.

(** What [iput] does to an inode that nothing refers to any more. *)
Lemma free_inode s v o ip i sb :
  fs_sb s = sb → ic_inode s !! ip = Some i → trepr (fs_tx s) v o → geom sb (Z.of_nat (length (v_disk v))) → v_held v = ∅ →
  sb_of_bytes (blk v 1) = sb → map_room 3 sb v o → ifile sb v i → 0 ≤ i_inum i < sb_ninodes sb →
  let i' := set_itype 0 (emptied i) in
  ∃ t v2, (itrunc ip;; iset ip (set_itype 0);; iupdate ip;; iset ip (set_ivalid 0)) s
      = Ok tt (set_tx t (upd_ino ip (set_ivalid 0 i') s)) ∧
    frees sb (blocks v i) v v2 ∧ view_wf v2 ∧ trepr t (inode_view sb i' (inode_view sb (emptied i) v2)) o.
Proof.
  intros Es Hi R G He Esb Hm F Hn i'. assert (Hm2 : map_room 2 sb v o) by (destruct Hm; split; [done|lia]).
  destruct (itrunc_ok sb v i o G F Hm2 He Esb s ip Es Hi R Hn) as (t & v2 & E & F2 & W2 & R2). mstep E.
  assert (Hi1 : ∀ t j, ic_inode (set_tx t (upd_ino ip j s)) !! ip = Some j) by (intros; by eapply upd_ino_lookup).
  mstep (iset_ok _ ip _ (set_itype 0) (Hi1 t (emptied i))). fold i'.
  replace (upd_ino ip i' (set_tx t (upd_ino ip (emptied i) s))) with (set_tx t (upd_ino ip i' s))
    by (unfold upd_ino, set_tx, set_inodes; simpl; by rewrite list_insert_insert_eq).
  destruct (iupdate_ok (set_tx t (upd_ino ip i' s)) (inode_view sb (emptied i) v2) o ip i') as (t3 & E3 & R3); try done;
    change (fs_sb (set_tx t (upd_ino ip i' s))) with (fs_sb s) in *; rewrite ?Es in *.
  - simpl. by rewrite (fe_len _ _ _ _ F2).
  - apply held_used_empty. simpl. by rewrite (fe_held _ _ _ _ F2).
  - apply F.
  - exact Hn.
  - destruct (map_room_frees _ _ _ _ _ _ Hm F2) as [Ho Hs]. pose proof (trepr_pins _ _ _ R2).
    pose proof (subseteq_size (v_pins v2) (v_pins v2 ∪ bitmap sb) ltac:(set_solver)). unfold inode_view.
    pose proof (size_pins_upd (IBLOCK (i_inum (emptied i)) sb) (dinode_put (blk v2 (IBLOCK (i_inum (emptied i)) sb)) (d_off (i_inum (emptied i))) (emptied i)) v2) as Hp.
    unfold budget, room. cbn [v_held view_upd view_pin view_set]. rewrite (fe_held _ _ _ _ F2), He, map_size_empty. lia.
  - mstep E3. exists t3, v2. rewrite set_tx_set_tx, (iset_ok _ ip _ (set_ivalid 0) (Hi1 t3 i')). split_and!; [|done|done|exact R3].
    unfold upd_ino, set_tx, set_inodes. simpl. by rewrite list_insert_insert_eq.
Qed.

(** The disk and the inode cache after an inode has been freed. *)
Record unlinked (s s' : fsstate (T := T)) v v' o (i : inode) : Prop := {
  ul_ok : icok s' v' o;
  ul_refs : ∀ m, refs (ic_inode s') m = refs (ic_inode s) m + bump (i_inum i) (-1) m;
  ul_used : ∀ b, 0 ≤ b < sb_size (fs_sb s) → used (fs_sb s) v' b = true ↔ used (fs_sb s) v b = true ∧ ¬ owns v i b;
  ul_free : ∀ j, i_type (read_in (fs_sb s) v' (i_inum i) j) = 0;
  ul_inode : ∀ m j, 0 ≤ m < sb_ninodes (fs_sb s) → m ≠ i_inum i → read_in (fs_sb s) v' m j = read_in (fs_sb s) v m j;
  ul_data : ∀ b, datastart (fs_sb s) ≤ b → blk v' b = blk v b }.

Lemma s16_range x : -32768 ≤ s16 x < 32768.
Proof. unfold s16, u16. case_match; lia. Qed.

(** An inode that was read from the disk has fields that can be stored there. *)
Lemma read_in_shorts sb v n i : read_in sb v n i = i → ∀ x, x ∈ [i_type i; i_major i; i_minor i; i_nlink i] → -32768 ≤ x < 32768.
Proof.
  intros E. rewrite <- E. intros x Hx. rewrite !elem_of_cons, elem_of_nil in Hx. destruct Hx as [->|[->|[->|[->|[]]]]]; apply s16_range.
Qed.

Lemma emptied_range sb v n i : read_in sb v n i = i → din_range (set_itype 0 (emptied i)).
Proof.
  intros E. pose proof (read_in_shorts _ _ _ _ E) as Hs. split; try done; [|by apply Forall_replicate].
  intros x Hx. simpl in Hx. rewrite elem_of_cons in Hx. destruct Hx as [->|Hx]; [lia|]. apply Hs. by right.
Qed.

Lemma iput_last_ok me s v o ip i :
  icok s v o → ic_inode s !! ip = Some i → i_ref i = 1 → i_valid i = 1 → i_nlink i = 0 → sl_locked (i_lock i) = 0 →
  sb_of_bytes (blk v 1) = fs_sb s → map_room 3 (fs_sb s) v o → ifile (fs_sb s) v i →
  ∃ s' v', iput me ip s = Ok tt s' ∧ unlinked s s' v v' o i.
Proof.
  intros I Hi Hr Hv Hn Hu Esb Hm F. destruct (ic_ent _ _ _ I _ _ Hi) as [E1 E2 E3 E4 E5 E6 E7].
  destruct (E4 ltac:(lia)) as [_ Hin]. specialize (E5 ltac:(lia) Hv Hu). pose proof (ic_geom _ _ _ I) as G.
  set (i1 := set_ilock (mksl false 1 me []) i). pose proof (upd_ino_lookup s ip i i1 Hi) as Hi1.
  destruct (free_inode (upd_ino ip i1 s) v o ip i1 (fs_sb s)) as (t & v2 & E & F2 & W2 & R2); try done; try apply I.
  { by apply (ifile_same (fs_sb s) v i). }
  rewrite (iput_unlinked me s ip i (ic_free _ _ _ I) Hi E1 Hu (E7 Hu) ltac:(lia) Hn), Hr. cbn [Z.eqb Pos.eqb]. mstep E.
  set (i' := set_itype 0 (emptied i1)) in *. set (v' := inode_view (fs_sb s) i' (inode_view (fs_sb s) (emptied i1) v2)) in *.
  rewrite (iput_end (set_tx t (upd_ino ip (set_ivalid 0 i') (upd_ino ip i1 s))) ip (set_ivalid 0 i'));
    [|apply I|by eapply (upd_ino_lookup (upd_ino ip i1 s))|done].
  assert (G2 : geom (fs_sb s) (Z.of_nat (length (v_disk v2)))) by (by rewrite (fe_len _ _ _ _ F2)).
  assert (Hin1 : 0 ≤ i_inum (emptied i1) < sb_ninodes (fs_sb s)) by exact Hin.
  pose proof (inode_view_wf (fs_sb s) v2 (emptied i1) W2 G2 Hin1 eq_refl) as W3. pose proof (datastart_pos _ _ G).
  assert (Hother : ∀ m j, 0 ≤ m < sb_ninodes (fs_sb s) → m ≠ i_inum i → read_in (fs_sb s) v' m j = read_in (fs_sb s) v m j).
  { intros m j Hm' Hne. unfold v'. rewrite !inode_view_other by done. by eapply frees_read_in. }
  exists (set_tx t (upd_ino ip (put_back (set_ivalid 0 i')) s)), v'.
  split; [unfold upd_ino, set_tx, set_inodes; simpl; by rewrite !list_insert_insert_eq|]. split.
  - apply (icok_change s v o t v' ip i); try done; [lia|simpl; by rewrite (fe_len _ _ _ _ F2)| |].
    + simpl. rewrite (fe_held _ _ _ _ F2). apply I.
    + split; simpl; try done; rewrite ?Hr; try lia.
  - intros m. simpl. rewrite (refs_insert _ _ _ _ _ Hi). unfold ref1, bump. simpl. rewrite (Z.eqb_sym m). case_match; lia.
  - intros b Hb. unfold v'. rewrite !inode_view_used by done. rewrite (fe_used _ _ _ _ F2) by done.
    rewrite andb_true_iff, bool_decide_eq_true, elem_of_blocks. change (owns v i1 b) with (owns v i b). tauto.
  - intros j. unfold v'. change (i_inum i) with (i_inum i').
    rewrite inode_view_read; [done|done|done|done|]. apply (emptied_range (fs_sb s) v (i_inum i)).
    unfold i1. by rewrite read_in_lock, E5.
  - exact Hother.
  - intros b Hb. unfold v'. assert (sb_bmapstart (fs_sb s) ≤ b).
    { unfold datastart in Hb. pose proof (Z.div_pos (sb_size (fs_sb s)) BPB). pose proof (g_size _ _ G). unfold BPB, BSIZE in *. lia. }
    rewrite !inode_view_data by done. apply (fe_blk _ _ _ _ F2); [lia|]. rewrite elem_of_bitmap. lia.
Qed.

(** C14: the last reference to a file that has no name frees the file: [iput]
    marks exactly the blocks of the file as free, the data blocks, the
    indirect block and no other, marks its inode as free, gives the entry of the
    inode cache back, and leaves all other inodes and the contents of all
    data blocks as they were. *)
Theorem iput_last me s v o ip i :
  let sb := fs_sb s in
  icok s v o → ic_inode s !! ip = Some i → i_ref i = 1 → i_valid i = 1 → i_nlink i = 0 → sl_locked (i_lock i) = 0 →
  sb_of_bytes (blk v 1) = sb → map_room 3 sb v o → ifile sb v i →
  ∃ s' v', iput me ip s = Ok tt s' ∧ icok s' v' o ∧
    (∀ m, refs (ic_inode s') m = refs (ic_inode s) m - (if m =? i_inum i then 1 else 0)) ∧
    (∀ b, 0 ≤ b < sb_size sb → used sb v' b = true ↔ used sb v b = true ∧ ¬ owns v i b) ∧
    (∀ j, i_type (read_in sb v' (i_inum i) j) = 0) ∧
    (∀ m j, 0 ≤ m < sb_ninodes sb → m ≠ i_inum i → read_in sb v' m j = read_in sb v m j) ∧
    (∀ b, datastart sb ≤ b → blk v' b = blk v b).
Proof.
  intros sb I Hi Hr Hv Hn Hu Esb Hm F. destruct (iput_last_ok me s v o ip i I Hi Hr Hv Hn Hu Esb Hm F) as (s' & v' & E & [U1 U2 U3 U4 U5 U6]).
  exists s', v'. split_and!; try done. intros m. rewrite U2. unfold bump. case_match; lia.
Qed.
End trunc.
