(* ===== verification/Ialloc.v ===== *)
(** * A new inode: ialloc of fs.c

    [ialloc] takes the first inode that is free on the disk, clears it, gives it
    its type, and returns an entry of the inode cache for it; all other inodes
    and all data blocks stay as they were.  When every inode is taken it panics
    ([ialloc_full]). *)

From S2P Require Import Prelude Params Strings BlockDev Sleeplock Tx Fs FsFile Dinode Icache FsTrunc.

(** An inode that was just allocated. *)
Definition blank_inode (type : Z) : inode := set_itype type inode0.

(** The block of inodes after [ialloc] has taken inode [n]. *)
Definition cleared (n type : Z) (d : list Z) : list Z :=
  put16 (splice (d_off n) (replicate (Z.to_nat DINODESZ) 0) d) (d_off n) type.

Lemma slice_cleared o a n (d : list Z) : (a + n ≤ 64)%nat → (o + 64 ≤ length d)%nat →
  slice (o + a) n (splice o (replicate 64 0) d) = replicate n 0.
Proof.
  intros Ha Hl. apply list_eq. intros k. destruct (decide (k < n)%nat) as [Hk|Hk].
  - rewrite lookup_slice by done. rewrite lookup_splice_in by (rewrite ?length_replicate; lia).
    rewrite !lookup_replicate_2 by lia. done.
  - rewrite !lookup_ge_None_2; [done|rewrite length_replicate; lia|]. unfold slice. rewrite length_take. lia.
Qed.

Lemma le_val_zeros n : le_val (replicate n 0) = 0.
Proof. induction n as [|n IH]; [done|]. simpl. by rewrite IH. Qed.

Lemma length_cleared n type d : length d = Z.to_nat BSIZE → length (cleared n type d) = length d.
Proof.
  intros Hd. pose proof (d_off_bound n). change (Z.to_nat DINODESZ) with 64%nat in *.
  assert (Hl : length (splice (d_off n) (replicate 64 0) d) = length d) by (apply length_splice; rewrite length_replicate; lia).
  unfold cleared. change (Z.to_nat DINODESZ) with 64%nat. rewrite length_put16; lia.
Qed.

(** The inode is read back as a blank one, and the others as before. *)
Lemma cleared_get n type d j : length d = Z.to_nat BSIZE → -32768 ≤ type < 32768 →
  dinode_get (cleared n type d) (d_off n) j = stored (blank_inode type) j.
Proof.
  intros Hd Ht. pose proof (d_off_bound n) as Hb. change (Z.to_nat DINODESZ) with 64%nat in *. set (o := d_off n) in *.
  set (d1 := splice o (replicate 64 0) d). assert (Hl : length d1 = length d) by (apply length_splice; rewrite length_replicate; lia).
  assert (Hz : ∀ a m, (2 ≤ a)%nat → (a + m ≤ 64)%nat → slice (o + a) m (cleared n type d) = replicate m 0).
  { intros a m Ha Hm. unfold cleared. change (Z.to_nat DINODESZ) with 64%nat. fold o d1.
    rewrite slice_put16 by lia. apply slice_cleared; lia. }
  assert (H16 : ∀ a, (2 ≤ a)%nat → (a + 2 ≤ 64)%nat → get16 (cleared n type d) (o + a) = 0).
  { intros a H1 H2. unfold get16. by rewrite Hz. }
  assert (H32 : ∀ a, (2 ≤ a)%nat → (a + 4 ≤ 64)%nat → get32 (cleared n type d) (o + a) = 0).
  { intros a H1 H2. unfold get32. by rewrite Hz. }
  unfold dinode_get, stored, d_type. f_equal; try (rewrite ?H16, ?H32 by lia; done).
  - unfold cleared. change (Z.to_nat DINODESZ) with 64%nat. fold o d1. rewrite get16_put16_eq by lia.
    rewrite s16_u16. by apply s16_small.
  - unfold get_addrs. apply list_eq. intros k. rewrite list_lookup_fmap. change (Z.to_nat (NDIRECT + 1)) with 13%nat.
    change (i_addrs (blank_inode type)) with (replicate 13 0). destruct (decide (k < 13)%nat) as [Hk|Hk].
    + rewrite lookup_seq_lt, lookup_replicate_2 by done. cbn [fmap option_fmap option_map]. f_equal.
      rewrite <- Nat.add_assoc. apply H32; lia.
    + rewrite lookup_seq_ge, lookup_ge_None_2 by (rewrite ?length_replicate; lia). done.
Qed.

Lemma cleared_other n type d o j : length d = Z.to_nat BSIZE → (o + 64 ≤ d_off n ∨ d_off n + 64 ≤ o)%nat →
  dinode_get (cleared n type d) o j = dinode_get d o j.
Proof.
  intros Hd Ho. pose proof (d_off_bound n) as Hb. change (Z.to_nat DINODESZ) with 64%nat in *.
  set (d1 := splice (d_off n) (replicate 64 0) d).
  assert (Hl : length d1 = length d) by (apply length_splice; rewrite length_replicate; lia).
  assert (Hs : ∀ a m, (a + m ≤ 64)%nat → slice (o + a) m (cleared n type d) = slice (o + a) m d).
  { intros a m Hm. unfold cleared. change (Z.to_nat DINODESZ) with 64%nat. fold d1. rewrite slice_put16 by lia.
    apply slice_splice_ne; rewrite ?length_replicate; lia. }
  unfold dinode_get, d_type, get16, get32. rewrite <- (Nat.add_0_r o) at 1 6. rewrite !Hs by lia. rewrite !Nat.add_0_r. f_equal.
  unfold get_addrs. apply list_fmap_ext. intros k x Hx. apply lookup_seq in Hx as [-> Hx].
  change (Z.to_nat (NDIRECT + 1)) with 13%nat in Hx. unfold get32. rewrite <- Nat.add_assoc, Hs by lia. by rewrite Nat.add_assoc.
Qed.

Section ialloc.
Context {T : Type} `{TxSpec T}.
Implicit Types (v : bview) (s : fsstate (T := T)) (sb : superblock) (i : inode).

Definition type_of sb v (n : Z) : Z := i_type (read_in sb v n inode0).

Definition ialloc_view sb (n type : Z) v : bview := view_upd (IBLOCK n sb) (cleared n type (blk v (IBLOCK n sb))) v.

(** The disk changes at an inode that is not cached. *)
Lemma icok_view s v o t v' n :
  icok s v o → trepr t v' o → length (v_disk v') = length (v_disk v) → v_held v' = ∅ → refs (ic_inode s) n = 0 →
  (∀ m j, 0 ≤ m < sb_ninodes (fs_sb s) → m ≠ n → read_in (fs_sb s) v' m j = read_in (fs_sb s) v m j) →
  icok (set_tx t s) v' o.
Proof.
  intros I R' Hl He Hn Ho. pose proof (ic_nonneg _ _ _ I) as Hpos. destruct I as [R G _ Hf E U]. split; simpl; try done.
  - by rewrite Hl.
  - intros ip j Hj. destruct (E _ _ Hj) as [E1 E2 E3 E4 E5 E6]. split; try done. intros Hr Hv Hlk. etrans; [|exact (E5 Hr Hv Hlk)].
    apply Ho; [by apply E4|]. intros <-.
    assert (i_inum j ∈ live (ic_inode s)) as Hlv by (apply live_elem; eauto). apply live_refs in Hlv; [lia|done].
Qed.

Section taken.
Context (s : fsstate (T := T)) (v : bview) (o type : Z) (I : icok s v o) (Hbud : budget 1 v o) (Ht : -32768 ≤ type < 32768).
Notation sb := (fs_sb s).

Lemma ialloc_view_read n j : 0 ≤ n < sb_ninodes sb → read_in sb (ialloc_view sb n type v) n j = stored (blank_inode type) j.
Proof.
  intros Hn. pose proof (trepr_wf _ _ _ (ic_rep _ _ _ I)) as W. destruct (IBLOCK_ok _ _ _ (ic_geom _ _ _ I) Hn) as (Hin & _ & _).
  unfold read_in, ialloc_view. rewrite blk_upd_eq by done. apply cleared_get; [by apply blk_length|done].
Qed.

Lemma ialloc_view_other n m j : 0 ≤ n < sb_ninodes sb → 0 ≤ m < sb_ninodes sb → m ≠ n →
  read_in sb (ialloc_view sb n type v) m j = read_in sb v m j.
Proof.
  intros Hn Hm Hne. pose proof (trepr_wf _ _ _ (ic_rep _ _ _ I)) as W. pose proof (ic_geom _ _ _ I) as G. pose proof (g_istart _ _ G).
  destruct (IBLOCK_ok _ _ _ G Hn) as (Hin & _ & ?). destruct (IBLOCK_ok _ _ _ G Hm) as (_ & _ & ?).
  unfold read_in, ialloc_view. destruct (decide (IBLOCK m sb = IBLOCK n sb)) as [E|E].
  - rewrite E, blk_upd_eq by done. apply cleared_other; [by apply blk_length|].
    unfold IBLOCK in E. unfold d_off. change IPB with 8 in *. change DINODESZ with 64. lia.
  - by rewrite blk_upd_ne by lia.
Qed.

(** The body of the loop, for an inode in use and for a free one. *)
Definition ialloc_body (inum : Z) : M (fsstate (T := T)) (option nat) :=
  bp ← on_tx (tx_bread ROOTDEV (IBLOCK inum sb));
  d ← on_tx (tx_data bp);
  if d_type d (d_off inum) =? 0 then
    let d := splice (d_off inum) (replicate (Z.to_nat DINODESZ) 0) d in
    on_tx (tx_set bp (put16 d (d_off inum) type));;
    on_tx (tx_log_write bp);;
    on_tx (tx_brelse bp);;
    ip ← iget ROOTDEV inum;
    mret (Some ip)
  else on_tx (tx_brelse bp);; mret None.

Lemma ialloc_used t n : trepr t v o → 0 ≤ n < sb_ninodes sb → type_of sb v n ≠ 0 →
  ∃ t', ialloc_body n (set_tx t s) = Ok None (set_tx t' s) ∧ trepr t' v o.
Proof.
  intros R Hn Hty. destruct (IBLOCK_ok _ _ _ (ic_geom _ _ _ I) Hn) as (Hin & Hh & _). pose proof (ic_held _ _ _ I) as He.
  assert (Hno : not_held v (IBLOCK n sb)) by (intros h; by rewrite He, lookup_empty).
  destruct (fs_bread (set_tx t s) v o _ R Hin Hh Hno (free_room _ _ _ R He)) as (h & t1 & E1 & E2 & Hf & R1).
  destruct (fs_brelse s t1 v o h _ R1 (trepr_wf _ _ _ R) Hin Hf Hno) as (t2 & E3 & R2).
  exists t2. split; [|done]. unfold ialloc_body. mstep E1. mstep E2.
  rewrite (proj2 (Z.eqb_neq (d_type (blk v (IBLOCK n sb)) (d_off n)) 0) Hty). by mstep E3.
Qed.

Lemma ialloc_free t n : trepr t v o → 0 ≤ n < sb_ninodes sb → type_of sb v n = 0 → refs (ic_inode s) n = 0 →
  (0 < nfreei (ic_inode s))%nat →
  ∃ ip i s', ialloc_body n (set_tx t s) = Ok (Some ip) s' ∧ icok s' (ialloc_view sb n type v) o ∧
    ic_inode s' !! ip = Some i ∧ i_ref i = 1 ∧ i_inum i = n ∧ i_valid i = 0 ∧
    (∀ m, refs (ic_inode s') m = refs (ic_inode s) m + bump n 1 m).
Proof.
  intros R Hn Hty Hz Hfr. destruct (IBLOCK_ok _ _ _ (ic_geom _ _ _ I) Hn) as (Hin & Hh & _). pose proof (ic_held _ _ _ I) as He.
  assert (Hno : not_held v (IBLOCK n sb)) by (intros h; by rewrite He, lookup_empty). destruct (budget_log 0 v o Hbud) as (Ho & Hp & Hr).
  destruct (fs_bread (set_tx t s) v o _ R Hin Hh Hno (free_room _ _ _ R He)) as (h & t1 & E1 & E2 & Hf & R1).
  destruct (fs_update s t1 v o h _ (cleared n type (blk v (IBLOCK n sb))) R1 Hf) as (t2 & t3 & t4 & E3 & E4 & E5 & R4); try done.
  { rewrite length_cleared; by apply blk_length; [eapply trepr_wf|]. }
  set (v' := ialloc_view sb n type v). assert (I4 : icok (set_tx t4 s) v' o).
  { apply (icok_view s v o t4 v' n); try done. intros m j Hm Hne. by apply ialloc_view_other. }
  destruct (iget_ok (set_tx t4 s) v' o n I4 Hn (or_introl Hfr)) as (ip & i & i' & Hi & Hg & Eg & Ig & Hrefs).
  assert (i' = recycled n i) as ->.
  { destruct Hg as [(Hr0 & Hin0 & _)|(_ & ->)]; [|done]. exfalso.
    assert (n ∈ live (ic_inode s)) as Hlv by (apply live_elem; eauto). apply live_refs in Hlv; [lia|]. by eapply ic_nonneg. }
  exists ip, (recycled n i), (upd_ino ip (recycled n i) (set_tx t4 s)). split_and!; try done.
  - unfold ialloc_body. mstep E1. mstep E2. unfold type_of in Hty. change (d_type (blk v (IBLOCK n sb)) (d_off n) = 0) in Hty. rewrite Hty.
    cbn [Z.eqb]. cbv zeta. fold (cleared n type (blk v (IBLOCK n sb))). mstep E3. mstep E4. mstep E5. by mstep Eg.
  - by eapply upd_ino_lookup.
Qed.
End taken.

(** Without a free inode it panics. *)
Lemma ialloc_full s v o type : icok s v o → (∀ m, 1 ≤ m < sb_ninodes (fs_sb s) → type_of (fs_sb s) v m ≠ 0) →
  ialloc ROOTDEV type s = Panic "ialloc: no inodes".
Proof.
  intros I Hall. unfold ialloc. rewrite bind_gets.
  destruct (for_range_inv (λ _ s1, ∃ t, s1 = set_tx t s ∧ trepr t v o) (λ _ _, False) (ialloc_body s type) (Z.to_nat (sb_ninodes (fs_sb s) - 1)) 1 s) as (r & s' & E & Hr).
  - exists (fs_tx s). rewrite set_tx_id. split; [done|apply I].
  - intros n s1 Hn (t & -> & R). left. destruct (ialloc_used s v o type I t n R) as (t' & E & R'); [lia|apply Hall; lia|]. eauto.
  - unfold ialloc_body in E. mstep E. by destruct r.
Qed.

(** C16: a new inode: [ialloc] takes the first inode that is free on the disk; on
    the disk it is then of the given type, without links, size or blocks; the
    caller gets the only reference to it; the cache stays consistent, and no
    other inode and no block of the free map or of the data has changed. *)
Theorem ialloc_correct s v o type :
  let sb := fs_sb s in
  icok s v o → budget 1 v o → -32768 ≤ type < 32768 → (0 < nfreei (ic_inode s))%nat →
  (∀ m, 0 ≤ m < sb_ninodes sb → type_of sb v m = 0 → refs (ic_inode s) m = 0) →
  (∃ m, 1 ≤ m < sb_ninodes sb ∧ type_of sb v m = 0) →
  ∃ n ip i s' v', ialloc ROOTDEV type s = Ok ip s' ∧ icok s' v' o ∧
    1 ≤ n < sb_ninodes sb ∧ type_of sb v n = 0 ∧ (∀ m, 1 ≤ m < n → type_of sb v m ≠ 0) ∧
    ic_inode s' !! ip = Some i ∧ i_inum i = n ∧ i_ref i = 1 ∧ i_valid i = 0 ∧
    (∀ m, refs (ic_inode s') m = refs (ic_inode s) m + (if m =? n then 1 else 0)) ∧
    (∀ j, read_in sb v' n j = stored (blank_inode type) j) ∧
    (∀ m j, 0 ≤ m < sb_ninodes sb → m ≠ n → read_in sb v' m j = read_in sb v m j) ∧
    (∀ b, sb_bmapstart sb ≤ b → blk v' b = blk v b).
Proof.
  intros sb I Hbud Ht Hfr Hu (m0 & Hm0 & Hty0). unfold ialloc. rewrite bind_gets. fold sb.
  destruct (for_range_inv (λ k s1, (∃ t, s1 = set_tx t s ∧ trepr t v o) ∧ ∀ m, 1 ≤ m < k → type_of sb v m ≠ 0)
    (λ ip s', ∃ n i, 1 ≤ n < sb_ninodes sb ∧ type_of sb v n = 0 ∧ (∀ m, 1 ≤ m < n → type_of sb v m ≠ 0) ∧
      icok s' (ialloc_view sb n type v) o ∧ ic_inode s' !! ip = Some i ∧ i_ref i = 1 ∧ i_inum i = n ∧ i_valid i = 0 ∧
      (∀ m, refs (ic_inode s') m = refs (ic_inode s) m + bump n 1 m))
    (ialloc_body s type) (Z.to_nat (sb_ninodes sb - 1)) 1 s) as (r & s' & E & Hr).
  - split; [|lia]. exists (fs_tx s). rewrite set_tx_id. split; [done|apply I].
  - intros n s1 Hn [(t & -> & R) Hall]. assert (Hn' : 0 ≤ n < sb_ninodes sb) by lia.
    destruct (decide (type_of sb v n = 0)) as [Hz|Hnz]; [right|left].
    + destruct (ialloc_free s v o type I Hbud t n R Hn' Hz (Hu _ Hn' Hz) Hfr) as (ip & i & s' & E & I' & Hrest).
      exists ip, s'. split; [exact E|]. exists n, i. split_and!; try done; lia || apply Hrest.
    + destruct (ialloc_used s v o type I t n R Hn' Hnz) as (t' & E & R'). exists (set_tx t' s). split; [exact E|].
      split; [by exists t'|]. intros m Hm. destruct (decide (m = n)) as [->|]; [done|]. apply Hall. lia.
  - unfold ialloc_body in E. mstep E. destruct r as [ip|]; [|destruct Hr as [_ Hall]; exfalso; apply (Hall m0); [lia|done]].
    destruct Hr as (n & i & Hn & Hz & Hmin & I' & Hi & Hr1 & Hin & Hv & Hrefs). assert (Hn' : 0 ≤ n < sb_ninodes sb) by lia.
    exists n, ip, i, s', (ialloc_view sb n type v). pose proof (ic_geom _ _ _ I) as G. destruct (IBLOCK_ok _ _ _ G Hn') as (_ & _ & ?).
    split_and!; try done; try lia.
    + intros j. by apply (ialloc_view_read s v o type I Ht).
    + intros m j Hm Hne. by apply (ialloc_view_other s v o type I).
    + intros b Hb. pose proof (g_istart _ _ G). destruct (g_inodes _ _ G) as [_ Hib]. specialize (Hib _ Hn').
      apply blk_upd_ne; unfold sb in *; lia.
Qed.
End ialloc.
