(* ===== verification/DirSpec.v ===== *)
(** * Directories and paths: what dirlookup and namex find

    A directory is the list of its entries, [ents]; [dfind] is the first one
    in use with a given name, and [walk] follows a list of names from an inode.
    [dirlookup] computes [dfind] and [namex] computes [walk] on the elements of
    the path; both leave the disk alone, and [namex] adds exactly one reference,
    to the inode it returns. *)

From S2P Require Import Prelude Params Strings BlockDev Sleeplock Tx Fs FsFile Dir Icache.

(** ** Entries *)

Definition ents (bs : list Z) : list (list Z) := (λ k, slice (16 * k) 16 bs) <$> seq 0 (length bs / 16).

(** The name in an entry, up to its NUL. *)
Definition dname (e : list Z) : list Z := cname (Z.to_nat DIRSIZ) (de_name e).

(** The first entry in use with this name: its position and its inode. *)
Fixpoint dfind (name : list Z) (l : list (list Z)) (k : Z) : option (Z * Z) :=
  match l with
  | [] => None
  | e :: l' =>
      if negb (de_inum e =? 0) && bool_decide (dname e = name) then Some (k, de_inum e)
      else dfind name l' (k + 1)
  end.

Lemma length_ents bs : length (ents bs) = (length bs / 16)%nat.
Proof. unfold ents. by rewrite length_fmap, length_seq. Qed.

Lemma lookup_ents bs k : (k < length bs / 16)%nat → ents bs !! k = Some (slice (16 * k) 16 bs).
Proof. intros Hk. unfold ents. by rewrite list_lookup_fmap, lookup_seq_lt by done. Qed.

Lemma length_ent (bs : list Z) k : (k < length bs / 16)%nat → length (slice (16 * k) 16 bs) = 16%nat.
Proof. intros Hk. apply length_slice. pose proof (Nat.Div0.div_mod (length bs) 16). lia. Qed.

(** A directory that the kernel can read. *)
Record dir_file (sb : superblock) (v : bview) (i : inode) : Prop := {
  df_type : i_type i = T_DIR;
  df_file : ifile sb v i;
  df_full : no_holes v i;
  df_size : 0 ≤ i_size i ≤ MAXFILE * BSIZE;
  df_mod : i_size i mod DIRENTSZ = 0 }.

Section dirlookup.
Context {T : Type} `{TxSpec T}.
Context (me : Z) (devsw : Z → option (device (T := T))).
Implicit Types (v : bview) (s : fsstate (T := T)) (i : inode).

Notation entries v i := (ents (contents v i)).

Lemma entries_count v i : 0 ≤ i_size i → i_size i mod DIRENTSZ = 0 →
  length (entries v i) = dirents (i_size i) ∧ i_size i = 16 * Z.of_nat (dirents (i_size i)).
Proof.
  intros Hs Hm. rewrite length_ents, length_contents by done. unfold dirents, DIRENTSZ in *.
  split; [|lia]. apply Nat2Z.inj. rewrite Nat2Z.inj_div, !Z2Nat.id by lia. change (Z.of_nat 16) with 16. lia.
Qed.

(** One entry is read. *)
Lemma read_entry s v o dp i k :
  icok s v o → ic_inode s !! dp = Some i → dir_file (fs_sb s) v i → (k < dirents (i_size i))%nat →
  ∃ t e, entries v i !! k = Some e ∧ length e = 16%nat ∧
    readi devsw dp (Z.of_nat k * DIRENTSZ) DIRENTSZ s = Ok (DIRENTSZ, e) (set_tx t s) ∧ icok (set_tx t s) v o.
Proof.
  intros I Hi [D1 D2 D3 D4 D5] Hk. destruct (entries_count v i (proj1 D4) D5) as [Hl Hs].
  assert (HM : MAXFILE * BSIZE = 71680) by done.
  destruct (readi_ok devsw s v o dp i (Z.of_nat k * DIRENTSZ) DIRENTSZ) as (t & E & R); try done; unfold DIRENTSZ in *; try lia.
  - apply I.
  - apply I.
  - apply I.
  - eapply free_room; apply I.
  - by rewrite D1.
  - exists t, (slice (16 * k) 16 (contents v i)). rewrite length_ents in Hl.
    split_and!; [by apply lookup_ents; lia|apply length_ent; lia| |].
    + rewrite E. rewrite Z.min_l by lia. rewrite (fbytes_contents devsw) by lia. do 4 f_equal. lia.
    + rewrite <- (upd_ino_id _ _ _ Hi) at 1. eapply icok_upd; eauto. by eapply ic_ent.
Qed.

(** What [dirlookup] does, when [found] is the entry it is looking for. *)
Definition looked s v o (found : option (Z * Z)) (r : option (nat * Z)) s' : Prop :=
  icok s' v o ∧
  match found with
  | None => r = None ∧ ∃ t, s' = set_tx t s
  | Some (k, n) => ∃ t ip j j', r = Some (ip, k * DIRENTSZ) ∧ ic_inode s !! ip = Some j ∧ got n j j' ∧
      s' = set_tx t (upd_ino ip j' s) ∧ (∀ m, refs (ic_inode s') m = refs (ic_inode s) m + bump n 1 m)
  end.

(** The inode of the entry can be cached. *)
Definition cachable s (found : option (Z * Z)) : Prop :=
  ∀ k n, found = Some (k, n) → 0 ≤ n < sb_ninodes (fs_sb s) ∧ ((0 < nfreei (ic_inode s))%nat ∨ 0 < refs (ic_inode s) n).

Lemma looked_later s v o t found r s' : looked (set_tx t s) v o found r s' → looked s v o found r s'.
Proof.
  intros [I Hf]. split; [done|]. destruct found as [[k n]|].
  - destruct Hf as (t' & ip & j & j' & -> & Hj & Hg & -> & Hr). exists t', ip, j, j'. done.
  - destruct Hf as (-> & t' & ->). split; [done|]. by exists t'.
Qed.

Lemma dirlookup_loop s v o dp i name l k :
  icok s v o → ic_inode s !! dp = Some i → dir_file (fs_sb s) v i → readable (Z.to_nat DIRSIZ) name →
  drop k (entries v i) = l → cachable s (dfind (cname (Z.to_nat DIRSIZ) name) l (Z.of_nat k)) →
  ∃ r s', for_range (length l) (Z.of_nat k) (λ k,
      let off := k * DIRENTSZ in
      '(r, de) ← readi devsw dp off DIRENTSZ;
      if negb (r =? DIRENTSZ) then panic "dirlookup read" else
      if de_inum de =? 0 then mret None else
      c ← lift_opt (namecmp name (de_name de));
      if c =? 0 then
        i ← iptr dp;
        ip ← iget (i_dev i) (de_inum de);
        mret (Some (ip, off))
      else mret None) s = Ok r s' ∧
    looked s v o (dfind (cname (Z.to_nat DIRSIZ) name) l (Z.of_nat k)) r s'.
Proof.
  intros I Hi D Hn. revert s k I Hi D. induction l as [|e l IH]; intros s k I Hi D Hl Hc.
  - exists None, s. split; [done|]. split; [done|]. split; [done|]. exists (fs_tx s). by rewrite set_tx_id.
  - destruct (entries_count v i (proj1 (df_size _ _ _ D)) (df_mod _ _ _ D)) as [Hcount _].
    assert (He : entries v i !! k = Some e) by (by rewrite <- (Nat.add_0_r k), <- lookup_drop, Hl).
    assert (Hl' : drop (S k) (entries v i) = l) by (rewrite <- Nat.add_1_r, <- drop_drop, Hl; done).
    destruct (read_entry s v o dp i k I Hi D) as (t & e' & He' & Hlen & E & I').
    { rewrite <- Hcount. by eapply lookup_lt_Some. }
    rewrite He in He'. injection He' as <-. cbn [length for_range]. cbv zeta. rewrite bind_assoc. mstep E. change (DIRENTSZ =? DIRENTSZ) with true. cbn [negb].
    simpl in Hc |- *. replace (Z.of_nat k + 1) with (Z.of_nat (S k)) in * by lia.
    pose proof (IH (set_tx t s) (S k) I' Hi D Hl') as Hnext. change (cachable (set_tx t s)) with (cachable s) in Hnext.
    destruct (Z.eqb_spec (de_inum e) 0) as [Hz|Hz]; cbn [negb andb] in *.
    { rewrite bind_ret_l. destruct (Hnext Hc) as (r & s' & Er & Lr). exists r, s'. split; [done|]. by eapply looked_later. }
    destruct (strncmp_ok (Z.to_nat DIRSIZ) name (de_name e) Hn) as (c & Ec & Hcz).
    { apply readable_length. unfold de_name. rewrite length_slice; [done|]. rewrite Hlen. unfold DIRSIZ. lia. }
    unfold namecmp. rewrite Ec. simpl. rewrite bind_assoc, bind_ret_l.
    destruct (Z.eqb_spec c 0) as [Hc0|Hc0].
    + rewrite bool_decide_true in * by (unfold dname; symmetry; by apply Hcz). destruct (Hc _ _ eq_refl) as [Hrange Hroom].
      rewrite !bind_assoc. mstep (iptr_ok (set_tx t s) dp i Hi). rewrite (if_dev _ _ _ (df_file _ _ _ D)).
      destruct (iget_ok (set_tx t s) v o _ I' Hrange Hroom) as (ip & j & j' & Hj & Hg & Eg & Ig & Hrefs).
      rewrite bind_assoc. mstep Eg. rewrite !bind_ret_l. eexists _, _. split; [done|]. split; [done|].
      exists t, ip, j, j'. done.
    + rewrite bool_decide_false in * by (unfold dname; naive_solver). rewrite bind_ret_l.
      destruct (Hnext Hc) as (r & s' & Er & Lr). exists r, s'. split; [done|]. by eapply looked_later.
Qed.

Lemma dirlookup_ok s v o dp i name :
  icok s v o → ic_inode s !! dp = Some i → dir_file (fs_sb s) v i → readable (Z.to_nat DIRSIZ) name →
  let found := dfind (cname (Z.to_nat DIRSIZ) name) (entries v i) 0 in
  cachable s found → ∃ r s', dirlookup devsw dp name s = Ok r s' ∧ looked s v o found r s'.
Proof.
  intros I Hi D Hn found Hc. unfold dirlookup. mstep (iptr_ok _ _ _ Hi). rewrite (df_type _ _ _ D).
  change (negb (T_DIR =? T_DIR)) with false. cbv iota.
  destruct (entries_count v i (proj1 (df_size _ _ _ D)) (df_mod _ _ _ D)) as [<- _].
  exact (dirlookup_loop s v o dp i name (entries v i) 0 I Hi D Hn eq_refl Hc).
Qed.
End dirlookup.

(** ** The elements of a path *)

Fixpoint elems_from (cur path : list Z) : list (list Z) :=
  let done := match cur with [] => [] | _ :: _ => [cur] end in
  match path with
  | [] => done
  | c :: path' => if c =? SLASH then done ++ elems_from [] path' else elems_from (cur ++ [c]) path'
  end.
Definition elems (path : list Z) : list (list Z) := elems_from [] path.

Lemma elems_skip path : elems (skip_slashes path) = elems path.
Proof. induction path as [|c path IH]; [done|]. simpl. destruct (c =? SLASH) eqn:E; [|done]. rewrite IH. unfold elems. simpl. by rewrite E. Qed.

Lemma elems_elem cur path : elems_from cur path =
  match cur ++ (skip_elem path).1 with [] => [] | _ :: _ => [cur ++ (skip_elem path).1] end ++ elems (skip_elem path).2.
Proof.
  revert cur. induction path as [|c path IH]; intros cur; simpl.
  - by rewrite !app_nil_r.
  - destruct (c =? SLASH) eqn:Ec; simpl.
    + rewrite !app_nil_r. unfold elems. simpl. by rewrite Ec.
    + rewrite IH. destruct (skip_elem path) as [e r]. simpl. by rewrite <- app_assoc.
Qed.

Lemma skip_elem_app path : (skip_elem path).1 ++ (skip_elem path).2 = path.
Proof.
  induction path as [|c path IH]; [done|]. simpl. destruct (c =? SLASH); [done|].
  destruct (skip_elem path) as [e r]. simpl in *. by rewrite IH.
Qed.

Lemma skip_slashes_le path : (length (skip_slashes path) ≤ length path)%nat.
Proof. induction path as [|c path IH]; simpl; [lia|]. destruct (c =? SLASH); simpl; lia. Qed.

Lemma skip_slashes_no_nul path : no_nul path → no_nul (skip_slashes path).
Proof. induction path as [|c path IH]; intros Hp; simpl; [constructor|]. destruct (c =? SLASH); [|done]. apply IH. by apply Forall_cons in Hp as [_ Hp]. Qed.

Lemma skip_slashes_head path : match skip_slashes path with c :: _ => (c =? SLASH) = false | [] => True end.
Proof. induction path as [|c path IH]; [done|]. simpl. by destruct (c =? SLASH) eqn:E. Qed.

Lemma elems_head path : match skip_slashes path with
  | [] => elems path = []
  | c :: p => ∃ e r, skip_elem (c :: p) = (c :: e, r) ∧ elems path = (c :: e) :: elems r
  end.
Proof.
  pose proof (skip_slashes_head path) as Hh. rewrite <- (elems_skip path). destruct (skip_slashes path) as [|c p]; [done|].
  simpl. rewrite Hh. destruct (skip_elem p) as [e r] eqn:Ep. exists e, r. split; [done|].
  unfold elems. rewrite elems_elem. simpl. rewrite Hh, Ep. done.
Qed.

(** [skipelem] takes the first element off the path. *)
Lemma skipelem_none path name : elems path = [] → skipelem path name = None.
Proof.
  intros E. unfold skipelem. pose proof (elems_head path) as Hh. destruct (skip_slashes path) as [|c p]; [done|].
  destruct Hh as (e & r & _ & He). congruence.
Qed.

Lemma cname_app_nul n s t : no_nul s → (length s < n)%nat → cname n (s ++ 0 :: t) = s.
Proof.
  revert n. induction s as [|c s IH]; intros [|n] Hs Hn; simpl in *; try lia; [done|].
  apply Forall_cons in Hs as [Hc Hs]. rewrite (proj2 (Z.eqb_neq c 0) Hc). f_equal. apply IH; [done|lia].
Qed.

Lemma cname_full n s : no_nul s → (n ≤ length s)%nat → cname n s = take n s.
Proof.
  revert n. induction s as [|c s IH]; intros [|n] Hs Hn; simpl in *; try lia; [done..|].
  apply Forall_cons in Hs as [Hc Hs]. rewrite (proj2 (Z.eqb_neq c 0) Hc). f_equal. apply IH; [done|lia].
Qed.

Lemma skipelem_some path name e es : elems path = e :: es → no_nul path → length name = Z.to_nat DIRSIZ →
  ∃ path' name', skipelem path name = Some (path', name') ∧ elems path' = es ∧ no_nul path' ∧
    (length path' < length path)%nat ∧ length name' = Z.to_nat DIRSIZ ∧
    cname (Z.to_nat DIRSIZ) name' = take (Z.to_nat DIRSIZ) e ∧ (deref path' =? 0) = bool_decide (es = []).
Proof.
  intros E Hp Hl. unfold skipelem. pose proof (elems_head path) as Hh. pose proof (skip_slashes_no_nul path Hp) as Hs.
  pose proof (skip_slashes_le path) as Hle.
  destruct (skip_slashes path) as [|c p]; [congruence|]. destruct Hh as (x & r & Es & Ex).
  rewrite E in Ex. injection Ex as -> ->. pose proof (skip_elem_app (c :: p)) as Ha. rewrite Es in Ha |- *.
  rewrite <- Ha in Hs. apply Forall_app in Hs as [Hs1 Hs2]. apply (f_equal length) in Ha. rewrite length_app in Ha.
  pose proof (skip_slashes_le r). cbn [fst snd length] in *. eexists _, _. split; [done|].
  split_and!; [apply elems_skip|by apply skip_slashes_no_nul|lia| | |].
  - etrans; [|exact Hl]. unfold DIRSIZ in *. destruct (Z.leb_spec 14 (Z.of_nat (S (length x)))) as [Ht|Ht];
      apply length_splice; rewrite Hl, ?length_take, ?length_app; cbn [length]; lia.
  - unfold DIRSIZ in *. destruct (Z.leb_spec 14 (Z.of_nat (S (length x)))) as [Ht|Ht]; unfold splice; rewrite take_0, app_nil_l.
    + rewrite length_take. cbn [length]. rewrite drop_ge, app_nil_r by lia.
      rewrite cname_full; [|by apply Forall_take|rewrite length_take; cbn [length]; lia]. by rewrite take_take, Nat.min_id.
    + rewrite <- app_assoc. etrans; [apply (cname_app_nul (Z.to_nat 14) (c :: x)); [done|cbn [length]; lia]|]. by rewrite take_ge by (cbn [length]; lia).
  - pose proof (elems_head r) as Hr. pose proof (skip_slashes_no_nul r Hs2) as Hnn. destruct (skip_slashes r) as [|d q].
    + by rewrite Hr.
    + destruct Hr as (y & z & _ & ->). simpl. apply Forall_cons in Hnn as [Hd _]. by apply Z.eqb_neq.
Qed.

(** ** Walking the tree on the disk *)

(** Inode [n] of the disk. *)
Definition dino (sb : superblock) (v : bview) (n : Z) : inode := read_in sb v n (recycled n inode0).
Definition dents (sb : superblock) (v : bview) (n : Z) : list (list Z) := ents (contents v (dino sb v n)).

Definition is_dir (sb : superblock) (v : bview) (n : Z) : bool := i_type (dino sb v n) =? T_DIR.

(** The inode that the path of [es] from [n] leads to. *)
Fixpoint walk (sb : superblock) (v : bview) (n : Z) (es : list (list Z)) : option Z :=
  match es with
  | [] => Some n
  | e :: es' =>
      if is_dir sb v n then
        match dfind (take (Z.to_nat DIRSIZ) e) (dents sb v n) 0 with
        | Some (_, m) => walk sb v m es'
        | None => None
        end
      else None
  end.

(** The directory that has, or would have, the last element. *)
Definition walk_parent (sb : superblock) (v : bview) (n : Z) (es : list (list Z)) : option Z :=
  match es with
  | [] => None
  | _ :: _ => m ← walk sb v n (removelast es); if is_dir sb v m then Some m else None
  end.

(** A set of inodes that are linked, and whose directories lead into the set. *)
Record node_ok (sb : superblock) (v : bview) (L : Z → Prop) (n : Z) : Prop := {
  no_range : 0 ≤ n < sb_ninodes sb;
  no_type : i_type (dino sb v n) ≠ 0;
  no_nlink : i_nlink (dino sb v n) ≠ 0;
  no_dir : is_dir sb v n = true → dir_file sb v (dino sb v n) ∧
    ∀ e, e ∈ dents sb v n → de_inum e ≠ 0 → L (de_inum e) }.
Definition closed (sb : superblock) (v : bview) (L : Z → Prop) : Prop := ∀ n, L n → node_ok sb v L n.

Lemma dfind_elem name l k j n : dfind name l k = Some (j, n) → ∃ e, e ∈ l ∧ de_inum e = n ∧ n ≠ 0.
Proof.
  revert k. induction l as [|e l IH]; intros k Hd; simpl in Hd; [done|].
  destruct (Z.eqb_spec (de_inum e) 0); simpl in Hd.
  - destruct (IH _ Hd) as (e' & ? & ?). exists e'. split; [by right|done].
  - case_bool_decide.
    + injection Hd as _ <-. exists e. split; [left|done].
    + destruct (IH _ Hd) as (e' & ? & ?). exists e'. split; [by right|done].
Qed.

(** Files with the same addresses and size are the same. *)
Lemma file_ext sb v i i' : i_dev i' = i_dev i → i_size i' = i_size i → i_addrs i' = i_addrs i →
  contents v i' = contents v i ∧ (ifile sb v i → ifile sb v i') ∧ (no_holes v i → no_holes v i').
Proof.
  intros E1 E3 E4. assert (Ef : faddr v i' = faddr v i) by (unfold faddr, iaddr; by rewrite E4).
  assert (Ea : iaddr i' = iaddr i) by (unfold iaddr; by rewrite E4).
  split_and!; [unfold contents, fbytes, fbyte; by rewrite E3, Ef| |unfold no_holes; by rewrite E3, Ef].
  intros [F1 F2 F3 F4 F5 F6]. split; rewrite ?Ef, ?Ea, ?E1, ?E4; done.
Qed.

Lemma dir_file_ext sb v i i' : i_dev i' = i_dev i → i_type i' = i_type i → i_size i' = i_size i → i_addrs i' = i_addrs i →
  dir_file sb v i → dir_file sb v i' ∧ contents v i' = contents v i.
Proof.
  intros E1 E2 E3 E4 [D1 D2 D3 D4 D5]. destruct (file_ext sb v i i' E1 E3 E4) as (Hc & Hf & Hh). split; [|done].
  split; [by rewrite E2|by apply Hf|by apply Hh|by rewrite E3|by rewrite E3].
Qed.

Section namex.
Context {T : Type} `{TxSpec T}.
Context (me : Z) (devsw : Z → option (device (T := T))).
Context (sb : superblock) (v : bview) (o : Z) (L : Z → Prop) (HL : closed sb v L).
Implicit Types (s : fsstate (T := T)) (i : inode).

Definition quiet s (except : option nat) : Prop :=
  ∀ k i, ic_inode s !! k = Some i → Some k ≠ except → sl_locked (i_lock i) = 0.

(** A reference to inode [n] on top of those in [R], at entry [ip] ... *)
Record at_ino s (R : Z → Z) (ip : nat) (n : Z) : Prop := {
  at_ok : icok s v o;
  at_sb : fs_sb s = sb;
  at_quiet : quiet s None;
  at_refs : ∀ m, refs (ic_inode s) m = R m + bump n 1 m;
  at_ent : ∃ i, ic_inode s !! ip = Some i ∧ 0 < i_ref i ∧ i_inum i = n }.

(** ... which is locked and read in. *)
Record at_locked s (R : Z → Z) (ip : nat) (n : Z) i : Prop := {
  al_ok : icok s v o;
  al_sb : fs_sb s = sb;
  al_quiet : quiet s (Some ip);
  al_refs : ∀ m, refs (ic_inode s) m = R m + bump n 1 m;
  al_ent : ic_inode s !! ip = Some i;
  al_ref : 0 < i_ref i;
  al_inum : i_inum i = n;
  al_lock : i_lock i = mksl false 1 me [];
  al_disk : read_in sb v n i = i }.

Lemma quiet_upd s ip i t : quiet s (Some ip) → sl_locked (i_lock i) = 0 → quiet (set_tx t (upd_ino ip i s)) None.
Proof.
  intros Q Hi k j. simpl. rewrite list_lookup_insert. case_decide as Hk; [by intros [= <-]|].
  intros Hj _. destruct (decide (k = ip)) as [->|Hne]; [|apply (Q _ _ Hj); congruence].
  apply lookup_lt_Some in Hj. naive_solver.
Qed.

Lemma quiet_locked s ip i t : quiet s None → quiet (set_tx t (upd_ino ip i s)) (Some ip).
Proof.
  intros Q k j. simpl. rewrite list_lookup_insert. case_decide as Hk; [naive_solver|]. intros Hj _. by apply (Q _ _ Hj).
Qed.

Lemma enter_dir s R ip n : at_ino s R ip n → L n →
  ∃ s1 i, ilock me (Some ip) s = Ok tt s1 ∧ at_locked s1 R ip n i ∧
    length (ic_inode s1) = length (ic_inode s).
Proof.
  intros [I Esb Q Hr (i & Hi & Hp & Hn)] Ln. destruct (HL _ Ln) as [N1 N2 N3 N4].
  destruct (ilock_ok me s v o ip i I Hi Hp) as (t & E & I1).
  - by apply (Q _ _ Hi).
  - rewrite Hn, Esb. exact N2.
  - exists (set_tx t (upd_ino ip (locked me (fs_sb s) v i) s)), (locked me (fs_sb s) v i).
    split_and!; [done| |simpl; apply length_insert]. split; try done.
    + by apply quiet_locked.
    + intros m. simpl. rewrite (refs_insert _ _ _ _ _ Hi), Hr. unfold ref1. simpl. lia.
    + simpl. by eapply upd_ino_lookup.
    + unfold locked. rewrite Esb, Hn. done.
Qed.

Lemma leave_dir s R ip n i : at_locked s R ip n i →
  ∃ s1, iunlock me (Some ip) s = Ok tt s1 ∧ at_ino s1 R ip n ∧ length (ic_inode s1) = length (ic_inode s).
Proof.
  intros [I Esb Q Hr Hi Hp Hn Hl Hd]. destruct (iunlock_ok me s v o ip i I Hi Hp Hl) as [E I1]; [by rewrite Esb, Hn|].
  eexists. split_and!; [exact E| |simpl; apply length_insert]. split; try done.
  - rewrite <- (set_tx_id (upd_ino _ _ _)). by apply quiet_upd.
  - intros m. simpl. rewrite (refs_insert _ _ _ _ _ Hi), Hr. unfold ref1. simpl. lia.
  - eexists. split; [by eapply upd_ino_lookup|done].
Qed.

Lemma leave_put s R ip n i : at_locked s R ip n i → L n →
  let s1 := upd_ino ip (put_back i) s in
  iunlockput me (Some ip) s = Ok tt s1 ∧ icok s1 v o ∧ quiet s1 None ∧ (∀ m, refs (ic_inode s1) m = R m).
Proof.
  intros [I Esb Q Hr Hi Hp Hn Hl Hd] Ln s1. unfold iunlockput.
  destruct (iunlock_ok me s v o ip i I Hi Hp Hl) as [E I1]; [by rewrite Esb, Hn|].
  set (i1 := set_ilock (mksl false 0 0 []) i) in *. pose proof (upd_ino_lookup s ip i i1 Hi) as Hi1.
  destruct (iput_keep me _ v o ip i1 I1 Hi1) as (E2 & I2 & Hr2); [done|done| |].
  { right. left. change (i_nlink i1) with (i_nlink i). rewrite <- Hd. apply (no_nlink _ _ _ _ (HL _ Ln)). }
  rewrite upd_ino_upd in E2, I2, Hr2. mstep E. split_and!; [exact E2|exact I2| |].
  - unfold s1. rewrite <- (set_tx_id (upd_ino _ _ _)). by apply quiet_upd.
  - intros m. etrans; [apply Hr2|]. simpl. rewrite (refs_insert _ _ _ _ _ Hi), Hr. unfold ref1, bump. simpl. rewrite Hn. case_match; lia.
Qed.

(** The entry of a directory that has been read in. *)
Lemma locked_dir s R ip n i : at_locked s R ip n i → L n → is_dir sb v n = true →
  dir_file (fs_sb s) v i ∧ contents v i = contents v (dino sb v n).
Proof.
  intros [I Esb Q Hr Hi Hp Hn Hl Hd] Ln Hdir. destruct (no_dir _ _ _ _ (HL _ Ln) Hdir) as [Df _]. rewrite Esb.
  rewrite <- Hd. destruct (eo_dev _ _ _ (ic_ent _ _ _ I _ _ Hi) Hp) as [Hdev _]. by apply (dir_file_ext sb v (dino sb v n)).
Qed.

Lemma look_dir s R ip n i name : at_locked s R ip n i → L n → is_dir sb v n = true → readable (Z.to_nat DIRSIZ) name →
  (0 < nfreei (ic_inode s))%nat →
  ∃ r s1, dirlookup devsw ip name s = Ok r s1 ∧ length (ic_inode s1) = length (ic_inode s) ∧
    match dfind (cname (Z.to_nat DIRSIZ) name) (dents sb v n) 0 with
    | None => r = None ∧ at_locked s1 R ip n i
    | Some (_, m) => L m ∧ ∃ ip' off i1 j, r = Some (ip', off) ∧ at_locked s1 (λ x, R x + bump m 1 x) ip n i1 ∧
        ic_inode s1 !! ip' = Some j ∧ 0 < i_ref j ∧ i_inum j = m ∧ (ip' = ip → 1 < i_ref j)
    end.
Proof.
  intros A Ln Hdir Hnm Hfree. destruct (locked_dir _ _ _ _ _ A Ln Hdir) as [Df Ec].
  destruct A as [I Esb Q Hr Hi Hp Hn Hl Hd]. destruct (no_dir _ _ _ _ (HL _ Ln) Hdir) as [_ HLe].
  destruct (dirlookup_ok devsw s v o ip i name I Hi Df Hnm) as (r & s1 & E & I1 & Hf).
  { rewrite Ec. intros k m Hk. destruct (dfind_elem _ _ _ _ _ Hk) as (e & He & <- & Hne).
    rewrite Esb. split; [|by left]. apply (no_range _ _ _ _ (HL _ (HLe _ He Hne))). }
  rewrite Ec in Hf. exists r, s1. fold (dents sb v n) in Hf. destruct (dfind _ (dents sb v n) 0) as [[k m]|] eqn:Ek.
  - destruct Hf as (t & ip' & j & j' & -> & Hj & Hg & -> & Hr1). destruct (dfind_elem _ _ _ _ _ Ek) as (e & He & <- & Hne).
    split_and!; [done|simpl; apply length_insert|by apply HLe|].
    set (m := de_inum e) in *. assert (Hj' : ic_inode (upd_ino ip' j' s) !! ip' = Some j') by (by eapply upd_ino_lookup).
    assert (Hjr : 0 < i_ref j' ∧ i_inum j' = m ∧ (0 < i_ref j → 1 < i_ref j')) by (destruct Hg as [(? & ? & ->)|(? & ->)]; simpl; lia).
    destruct Hjr as (Hj1 & Hj2 & Hj3).
    assert (Hi1 : ∃ i1, ic_inode (upd_ino ip' j' s) !! ip = Some i1 ∧ 0 < i_ref i1 ∧ i_inum i1 = n ∧ i_lock i1 = i_lock i ∧ read_in sb v n i1 = i1).
    { destruct (decide (ip' = ip)) as [->|Hne'].
      - rewrite Hi in Hj. injection Hj as <-. exists j'. destruct Hg as [(? & ? & ->)|(? & _)]; [|lia].
        split_and!; try done. by rewrite read_in_ref, Hd.
      - exists i. split; [|done]. simpl. by rewrite list_lookup_insert_ne. }
    destruct Hi1 as (i1 & Hi1 & P1 & P2 & P3 & P4). exists ip', (k * DIRENTSZ), i1, j'. split_and!; try done.
    + split; try done; [|intros x; etrans; [apply Hr1|]; rewrite Hr; lia|by rewrite P3].
      intros q x. simpl. rewrite list_lookup_insert. case_decide as Hq; [|by apply Q].
      intros [= <-] Hne'. destruct Hq as [-> _]. destruct Hg as [(? & ? & ->)|(Hz & ->)]; simpl; by apply (Q _ _ Hj).
    + intros ->. apply Hj3. rewrite Hi in Hj. by injection Hj as <-.
  - destruct Hf as (-> & t & ->). done.
Qed.

(** What [namex] is to find. *)
Definition target (parent : bool) (n : Z) (es : list (list Z)) : option Z :=
  if parent then walk_parent sb v n es else walk sb v n es.

Lemma target_cons parent n e es : parent && bool_decide (es = []) = false →
  target parent n (e :: es) =
  if is_dir sb v n then
    match dfind (take (Z.to_nat DIRSIZ) e) (dents sb v n) 0 with Some (_, m) => target parent m es | None => None end
  else None.
Proof.
  intros Hp. destruct parent; [|done]. apply bool_decide_eq_false in Hp. simpl. destruct es as [|e' es]; [done|].
  cbn [removelast walk]. destruct (is_dir sb v n); [|done]. by destruct (dfind _ _ _) as [[k m]|].
Qed.

(** What is left when [namex] has returned [r]. *)
Definition reached (R : Z → Z) (found : option Z) (r : option nat) s : Prop :=
  match found with
  | None => r = None ∧ icok s v o ∧ fs_sb s = sb ∧ quiet s None ∧ ∀ m, refs (ic_inode s) m = R m
  | Some m => L m ∧ ∃ ip, r = Some ip ∧ at_ino s R ip m
  end.

Lemma at_locked_ext s R R' ip n i : (∀ m, R m = R' m) → at_locked s R ip n i → at_locked s R' ip n i.
Proof. intros E [A1 A2 A3 A4 A5 A6 A7 A8 A9]. split; try done. intros m. by rewrite <- E. Qed.

Section loop.
(** The entries in use before, of which at least two were free. *)
Context (l0 : list inode) (U0 : uniq l0) (P0 : ∀ i, i ∈ l0 → 0 ≤ i_ref i) (F0 : (2 ≤ nfreei l0)%nat).
Notation R0 := (refs l0).

Lemma room_for_next s ip n i : at_locked s R0 ip n i → length (ic_inode s) = length l0 → (0 < nfreei (ic_inode s))%nat.
Proof.
  intros [I _ _ Hr _ _ _ _ _] Hl. pose proof (nfreei_more l0 (ic_inode s) n U0 (ic_uniq _ _ _ I) P0 (ic_nonneg _ _ _ I) Hl) as H1.
  assert (nfreei l0 ≤ S (nfreei (ic_inode s)))%nat; [|lia]. apply H1. intros m Hm. rewrite Hr. unfold bump.
  rewrite (proj2 (Z.eqb_neq m n) Hm). lia.
Qed.

(** From a directory to the next. *)
Lemma next_dir s ip n ip' m i1 j :
  at_locked s (λ x, R0 x + bump m 1 x) ip n i1 → L n → ic_inode s !! ip' = Some j → 0 < i_ref j → i_inum j = m → (ip' = ip → 1 < i_ref j) →
  ∃ s1, iunlockput me (Some ip) s = Ok tt s1 ∧ at_ino s1 R0 ip' m ∧ length (ic_inode s1) = length (ic_inode s).
Proof.
  intros A Ln Hj Hr Hm H1. destruct (leave_put _ _ _ _ _ A Ln) as (E & I & Q & Hrefs). eexists. split_and!; [exact E| |apply length_insert].
  destruct A as [_ Esb _ _ Hi _ _ _ _]. split; try done.
  destruct (decide (ip' = ip)) as [->|Hne].
  - rewrite Hi in Hj. injection Hj as ->. eexists. split; [by eapply upd_ino_lookup|]. specialize (H1 eq_refl). simpl. lia.
  - exists j. split; [|done]. simpl. by rewrite list_lookup_insert_ne.
Qed.

Lemma namex_loop_ok fuel path s ip n name parent :
  at_ino s R0 ip n → L n → length (ic_inode s) = length l0 → no_nul path → length name = Z.to_nat DIRSIZ → (length path < fuel)%nat →
  ∃ r name' s', namex_loop me devsw fuel ip path parent name s = Ok (r, name') s' ∧
    reached R0 (target parent n (elems path)) r s' ∧ length name' = Z.to_nat DIRSIZ ∧
    (parent = true → r ≠ None → ∃ e, last (elems path) = Some e ∧ cname (Z.to_nat DIRSIZ) name' = take (Z.to_nat DIRSIZ) e).
Proof.
  revert path s ip n name. induction fuel as [|fuel IH]; intros path s ip n name A Ln Hlen Hp Hnm Hfuel; [lia|].
  cbn [namex_loop]. destruct (elems path) as [|e es] eqn:Ee.
  - rewrite (skipelem_none _ _ Ee). destruct parent.
    + destruct A as [I Esb Q Hr (i & Hi & Hpos & Hn)]. destruct (iput_keep me s v o ip i I Hi Hpos) as (E & I1 & Hr1).
      { by apply (Q _ _ Hi). }
      { destruct (eo_valid _ _ _ (ic_ent _ _ _ I _ _ Hi)) as [Hv|Hv]; [by left|]. right. left.
        rewrite <- (eo_disk _ _ _ (ic_ent _ _ _ I _ _ Hi) Hpos Hv (Q _ _ Hi ltac:(done))). rewrite Hn, Esb. apply (no_nlink _ _ _ _ (HL _ Ln)). }
      mstep E. eexists None, name, _. split_and!; [done| |done|done]. split_and!; try done.
      * rewrite <- (set_tx_id (upd_ino _ _ _)). apply quiet_upd; [|done]. intros k j Hk _. by apply (Q _ _ Hk).
      * intros m. rewrite Hr1, Hr, Hn. unfold bump. case_match; lia.
    + exists (Some ip), name, s. split_and!; [done| |done|done]. split; [done|]. by exists ip.
  - destruct (skipelem_some path name e es Ee Hp Hnm) as (path' & name' & Es & E' & Hp' & Hlt & Hl' & Hc & Hd). rewrite Es.
    destruct (enter_dir s R0 ip n A Ln) as (s1 & i & E1 & A1 & L1). mstep E1.
    mstep (iptr_ok _ _ _ (al_ent _ _ _ _ _ A1)). 
    assert ((i_type i =? T_DIR) = is_dir sb v n) as -> by (by rewrite <- (al_disk _ _ _ _ _ A1)). destruct (is_dir sb v n) eqn:Edir; cbn [negb].
    + rewrite Hd. destruct (parent && bool_decide (es = [])) eqn:Epar.
      * apply andb_prop in Epar as [-> Hes%bool_decide_eq_true]. rewrite Hes.
        destruct (leave_dir _ _ _ _ _ A1) as (s2 & E2 & A2 & L2). mstep E2. exists (Some ip), name', s2.
        split_and!; [done| |done|intros _ _; by exists e]. unfold target, walk_parent. simpl. rewrite Edir. split; [done|]. by exists ip.
      * rewrite (target_cons _ _ _ _ Epar), Edir.
        destruct (look_dir _ _ _ _ _ name' A1 Ln Edir) as (r & s2 & E2 & L2 & Hf).
        { apply readable_length. lia. }
        { eapply room_for_next; [done|lia]. }
        mstep E2. rewrite Hc in Hf. destruct (dfind _ (dents sb v n) 0) as [[k m]|].
        -- destruct Hf as (Lm & ip' & off & i1 & j & -> & A2 & Hj & Hjr & Hjn & Hj1).
           destruct (next_dir s2 ip n ip' m i1 j A2 Ln Hj Hjr Hjn Hj1) as (s3 & E3 & A3 & L3). mstep E3.
           destruct (IH path' s3 ip' m name' A3 Lm ltac:(lia) Hp' Hl' ltac:(lia)) as (r & nm & s4 & E4 & Re & Hnl & Hla).
           exists r, nm, s4. rewrite E' in *. split_and!; [done|done|done|]. intros -> Hr. destruct (Hla eq_refl Hr) as (x & Hx & Hcx).
           exists x. split; [|done]. destruct es; [done|]. exact Hx.
        -- destruct Hf as [-> A2]. destruct (leave_put _ _ _ _ _ A2 Ln) as (E3 & I3 & Q3 & R3). mstep E3.
           eexists None, name', _. split_and!; [done| |done|done]. split_and!; try done. apply (al_sb _ _ _ _ _ A2).
    + destruct (leave_put _ _ _ _ _ A1 Ln) as (E3 & I3 & Q3 & R3). mstep E3. eexists None, name', _. split_and!; [done| |done|done].
      assert (target parent n (e :: es) = None) as ->.
      { destruct parent; unfold target, walk_parent; [|simpl; by rewrite Edir]. destruct es; simpl; by rewrite Edir. }
      split_and!; try done. apply (al_sb _ _ _ _ _ A1).
Qed.
End loop.

(** Where a path starts. *)
Definition start_of (cwd : Z) (path : list Z) : Z := if deref path =? SLASH then ROOTINO else cwd.

(** The current directory is [n], unless the path does not start there. *)
Definition cwd_ok s (cwd : nat) (n : Z) (path : list Z) : Prop :=
  deref path = SLASH ∨ ∃ i, ic_inode s !! cwd = Some i ∧ 0 < i_ref i ∧ i_inum i = n ∧ L n.

Lemma namex_start s cwd n path :
  icok s v o → fs_sb s = sb → quiet s None → (2 ≤ nfreei (ic_inode s))%nat → L ROOTINO → cwd_ok s cwd n path →
  ∃ ip s1, (if deref path =? SLASH then iget ROOTDEV ROOTINO else idup cwd) s = Ok ip s1 ∧ L (start_of n path) ∧
    at_ino s1 (refs (ic_inode s)) ip (start_of n path) ∧ length (ic_inode s1) = length (ic_inode s).
Proof.
  intros I Esb Q Hfree Lr Hc. unfold start_of. destruct (Z.eqb_spec (deref path) SLASH) as [|Hne].
  - destruct (iget_ok s v o ROOTINO I) as (ip & i & i' & Hi & Hg & E & I1 & Hr).
    { rewrite Esb. apply (no_range _ _ _ _ (HL _ Lr)). }
    { left. lia. }
    exists ip, (upd_ino ip i' s). split_and!; [done|done| |apply length_insert]. split; try done.
    + rewrite <- (set_tx_id (upd_ino _ _ _)). apply quiet_upd; [intros k j Hk _; by apply (Q _ _ Hk)|].
      destruct Hg as [(_ & _ & ->)|(_ & ->)]; by apply (Q _ _ Hi).
    + exists i'. split; [by eapply upd_ino_lookup|]. destruct Hg as [(? & ? & ->)|(_ & ->)]; simpl; lia.
  - destruct Hc as [|(ci & Hc & Hcr & <- & Lc)]; [done|].
    destruct (idup_ok s v o cwd ci I Hc Hcr) as (E & I1 & Hr). eexists cwd, _. split_and!; [exact E|done| |apply length_insert].
    split; try done.
    + rewrite <- (set_tx_id (upd_ino _ _ _)). apply quiet_upd; [intros k j Hk _; by apply (Q _ _ Hk)|]. by apply (Q _ _ Hc).
    + eexists. split; [by eapply upd_ino_lookup|]. simpl. lia.
Qed.

Lemma namex_ok s cwd n path parent name :
  icok s v o → fs_sb s = sb → quiet s None → (2 ≤ nfreei (ic_inode s))%nat → L ROOTINO → cwd_ok s cwd n path →
  no_nul path → length name = Z.to_nat DIRSIZ →
  ∃ r name' s', namex me devsw cwd path parent name s = Ok (r, name') s' ∧
    reached (refs (ic_inode s)) (target parent (start_of n path) (elems path)) r s' ∧ length name' = Z.to_nat DIRSIZ ∧
    (parent = true → r ≠ None → ∃ e, last (elems path) = Some e ∧ cname (Z.to_nat DIRSIZ) name' = take (Z.to_nat DIRSIZ) e).
Proof.
  intros I Esb Q Hfree Lr Hc Hp Hn.
  destruct (namex_start s cwd n path I Esb Q Hfree Lr Hc) as (ip & s1 & E1 & Ls & A1 & L1). unfold namex. mstep E1.
  apply (namex_loop_ok (ic_inode s) (ic_uniq _ _ _ I) (ic_nonneg _ _ _ I) Hfree); try done. lia.
Qed.
End namex.

(** C28: [namei] and [nameiparent] find what the directories on the disk say, when
    no other process holds an inode: [namex] returns the inode that the names in
    the path lead to from the root or from the current directory ([nameiparent]
    the directory before the last name, which it stores in [name]), with one
    reference more than there was, or 0 when a name is missing or is not
    in a directory; no other reference is left behind, no inode stays
    locked, and the disk is as before. *)
Theorem namex_correct {T} `{TxSpec T} me devsw (s : fsstate (T := T)) v o L cwd cn path parent name :
  let sb := fs_sb s in
  icok s v o → quiet s None → closed sb v L → L ROOTINO → (2 ≤ nfreei (ic_inode s))%nat →
  cwd_ok L s cwd cn path → no_nul path → length name = Z.to_nat DIRSIZ →
  ∃ r name' s', namex me devsw cwd path parent name s = Ok (r, name') s' ∧ icok s' v o ∧ quiet s' None ∧
    match target sb v parent (start_of cn path) (elems path) with
    | None => r = None ∧ ∀ m, refs (ic_inode s') m = refs (ic_inode s) m
    | Some n => ∃ ip i, r = Some ip ∧ ic_inode s' !! ip = Some i ∧ 0 < i_ref i ∧ i_inum i = n ∧
        ∀ m, refs (ic_inode s') m = refs (ic_inode s) m + (if m =? n then 1 else 0)
    end ∧
    (parent = true → r ≠ None → ∃ e, last (elems path) = Some e ∧ cname (Z.to_nat DIRSIZ) name' = take (Z.to_nat DIRSIZ) e).
Proof.
  intros sb I Q HL Lr Hfree Hc Hp Hn.
  destruct (namex_ok me devsw sb v o L HL s cwd cn path parent name I eq_refl Q Hfree Lr Hc Hp Hn) as (r & nm & s' & E & Re & _ & Hla).
  exists r, nm, s'. unfold reached in Re. destruct (target sb v parent _ _) as [n|].
  - destruct Re as (_ & ip & -> & [A1 A2 A3 A4 (i & Hi & Hr & Hin)]). split_and!; try done. by exists ip, i.
  - destruct Re as (-> & A1 & A2 & A3 & A4). done.
Qed.
