(* ===== verification/DirLink.v ===== *)
(** * A new name in a directory: dirlink of fs.c

    [dirlink] writes an entry into the first free place of a directory, or at
    its end; afterwards the new name is found there, and every other name as
    before.  The invariant of the inode cache is kept by writes to the
    inode that is locked.  A name that is already there is refused, unless it is
    the directory's own: then [dirlink] waits for a lock that its caller holds. *)

From S2P Require Import Prelude Params Strings BlockDev Sleeplock Tx Fs FsFile Dinode Dir Icache FsTrunc DirSpec.

(** ** Entries *)

Lemma dfind_insert_new name l k j e e0 : l !! k = Some e0 → de_inum e0 = 0 → de_inum e ≠ 0 → dname e = name →
  dfind name l j = None → dfind name (<[k := e]> l) j = Some (j + Z.of_nat k, de_inum e).
Proof.
  intros Hk H0 He Hd. revert k j Hk. induction l as [|x l IH]; intros [|k] j Hk Hn; try done; simpl in *.
  - rewrite (proj2 (Z.eqb_neq _ _) He), bool_decide_true by done. simpl. do 2 f_equal. lia.
  - destruct (negb (de_inum x =? 0) && bool_decide (dname x = name)); [done|]. rewrite (IH k (j + 1) Hk Hn). do 2 f_equal. lia.
Qed.

Lemma dfind_insert_old name l k j e e0 : l !! k = Some e0 → de_inum e0 = 0 → dname e ≠ name →
  dfind name (<[k := e]> l) j = dfind name l j.
Proof.
  intros Hk H0 He. revert k j Hk. induction l as [|x l IH]; intros [|k] j Hk; try done; simpl in *.
  - injection Hk as ->. rewrite H0, (bool_decide_false (dname e = name)) by done. simpl. by rewrite andb_false_r.
  - by rewrite (IH k (j + 1) Hk).
Qed.

Lemma dfind_app_new name l j e : de_inum e ≠ 0 → dname e = name → dfind name l j = None →
  dfind name (l ++ [e]) j = Some (j + Z.of_nat (length l), de_inum e).
Proof.
  intros He Hd. revert j. induction l as [|x l IH]; intros j Hn; simpl in *.
  - rewrite (proj2 (Z.eqb_neq _ _) He), bool_decide_true by done. simpl. do 2 f_equal. lia.
  - destruct (negb (de_inum x =? 0) && bool_decide (dname x = name)); [done|]. rewrite (IH (j + 1) Hn). do 2 f_equal. lia.
Qed.

Lemma dfind_app_old name l j e : dname e ≠ name → dfind name (l ++ [e]) j = dfind name l j.
Proof.
  intros He. revert j. induction l as [|x l IH]; intros j; simpl.
  - rewrite (bool_decide_false (dname e = name)) by done. by rewrite andb_false_r.
  - by rewrite IH.
Qed.

(** The entries after one has been written. *)
Definition put_entry (k : nat) (e : list Z) (l : list (list Z)) : list (list Z) :=
  if decide (k < length l)%nat then <[k := e]> l else l ++ [e].

(** The first entry that is not in use, or the end. *)
Definition free_slot (l : list (list Z)) : nat := default (length l) (fst <$> list_find (λ e, de_inum e = 0) l).

Lemma free_slot_at l k : (k ≤ length l)%nat → (∀ j e, (j < k)%nat → l !! j = Some e → de_inum e ≠ 0) →
  ((k < length l)%nat → ∃ e, l !! k = Some e ∧ de_inum e = 0) → free_slot l = k.
Proof.
  intros Hk Hj He. unfold free_slot. destruct (decide (k < length l)%nat) as [Hlt|Hge].
  - destruct (He Hlt) as (e & H1 & H2). rewrite (proj2 (list_find_Some _ l k e)); [done|]. split_and!; [done|done|]. intros j y Hy Hlt'. by apply (Hj j y).
  - rewrite (proj2 (list_find_None _ l)); [simpl; lia|]. apply Forall_lookup. intros j e Hj'. apply (Hj j e); [|done]. apply lookup_lt_Some in Hj'. lia.
Qed.

Lemma ents_splice bs k e : length e = 16%nat → (length bs mod 16 = 0)%nat → (k ≤ length bs / 16)%nat →
  ents (splice (16 * k) e bs) = put_entry k e (ents bs).
Proof.
  intros He Hm Hk. pose proof (Nat.Div0.div_mod (length bs) 16) as Hdm. rewrite Hm, Nat.add_0_r in Hdm.
  assert (Hl : length (splice (16 * k) e bs) = Nat.max (length bs) (16 * k + 16)).
  { unfold splice. rewrite !length_app, length_take, length_drop. lia. }
  assert (Hn : (length (splice (16 * k) e bs) / 16 = Nat.max (length bs / 16) (k + 1))%nat).
  { rewrite Hl. set (q := (length bs / 16)%nat) in *. rewrite Hdm.
    replace (Nat.max (16 * q) (16 * k + 16))%nat with (Nat.max q (k + 1) * 16)%nat by lia. by apply Nat.div_mul. }
  apply list_eq. intros j. destruct (decide (j < Nat.max (length bs / 16) (k + 1))%nat) as [Hj|Hj].
  - rewrite lookup_ents by lia. unfold put_entry. rewrite length_ents. destruct (decide (j = k)) as [->|Hne].
    + pose proof (slice_splice_eq (16 * k) e bs ltac:(lia)) as Hs. rewrite He in Hs. rewrite Hs. case_decide; [rewrite list_lookup_insert_eq; [done|by rewrite length_ents]|].
      rewrite lookup_app_r by (rewrite length_ents; lia). by replace (k - length (ents bs))%nat with 0%nat by (rewrite length_ents; lia).
    + rewrite slice_splice_ne by (rewrite ?He; lia). case_decide.
      * rewrite list_lookup_insert_ne by done. by rewrite lookup_ents by lia.
      * rewrite lookup_app_l by (rewrite length_ents; lia). by rewrite lookup_ents by lia.
  - rewrite lookup_ge_None_2 by (rewrite length_ents, Hn; lia). symmetry. apply lookup_ge_None_2. unfold put_entry.
    rewrite length_ents. case_decide; rewrite ?length_insert, ?length_app, length_ents; cbn [length]; lia.
Qed.

Lemma strncpy_readable n s : readable n s → ∃ l, strncpy s n = Some l ∧ length l = n ∧ cname n l = cname n s.
Proof.
  revert s. induction n as [|n IH]; intros s Hr; [by exists []|]. destruct s as [|c s]; [done|]. simpl in *.
  destruct (Z.eqb_spec c 0) as [->|Hc].
  - exists (0 :: replicate n 0). split_and!; [done|simpl; by rewrite length_replicate|done].
  - destruct Hr as [?|Hr]; [done|]. destruct (IH s Hr) as (l & E & Hl & Hn). rewrite E. exists (c :: l). simpl.
    rewrite (proj2 (Z.eqb_neq c 0) Hc), Hl, Hn. done.
Qed.

(** ** Writing to a locked inode *)

Section link.
Context {T : Type} `{TxSpec T}.
Context (me : Z) (devsw : Z → option (device (T := T))).
Implicit Types (v : bview) (s : fsstate (T := T)) (sb : superblock) (i : inode).

Lemma addrs_range sb v i : geom sb (Z.of_nat (length (v_disk v))) → ifile sb v i → Forall (λ a, 0 ≤ a < 4294967296) (i_addrs i).
Proof.
  intros G F. pose proof (g_size _ _ G). pose proof (datastart_pos _ _ G). pose proof (if_len _ _ _ F) as Hl.
  apply Forall_lookup. intros k a Hk. pose proof (lookup_lt_Some _ _ _ Hk) as Hlt. rewrite Hl in Hlt.
  change (Z.to_nat (NDIRECT + 1)) with 13%nat in Hlt.
  assert (Ha : iaddr i (Z.of_nat k) = a) by (unfold iaddr; by rewrite Nat2Z.id, Hk).
  destruct (decide (Z.of_nat k = NDIRECT)) as [E|E].
  - rewrite E in Ha. destruct (if_ind _ _ _ F) as [?|[? _]]; lia.
  - assert (Hf : in_file (Z.of_nat k)) by (unfold in_file; change MAXFILE with 140; change NDIRECT with 12 in *; lia).
    rewrite <- (faddr_direct v) in Ha by (change NDIRECT with 12 in *; lia). destruct (if_map _ _ _ F _ Hf) as [?|[? _]]; lia.
Qed.

(** The inode on the disk agrees with the cached one after a write. *)
Lemma written_read s v o ip i off src s' v' i' :
  icok s v o → 0 ≤ i_inum i < sb_ninodes (fs_sb s) → 0 ≤ i_size i' ≤ MAXFILE * BSIZE →
  read_in (fs_sb s) v (i_inum i) i = i → written s v o ip i off src s' v' i' →
  read_in (fs_sb s) v' (i_inum i) i' = i' ∧
  ∀ m j, 0 ≤ m < sb_ninodes (fs_sb s) → m ≠ i_inum i → read_in (fs_sb s) v' m j = read_in (fs_sb s) v m j.
Proof.
  intros I Hn Hsz Hr Wn. set (sb := fs_sb s) in *. pose proof (ic_geom _ _ _ I) as G. fold sb in G.
  pose proof (trepr_wf _ _ _ (ic_rep _ _ _ I)) as W. destruct (wn_meta _ _ _ _ _ _ _ _ _ _ Wn) as (M1 & M2 & M3 & M4 & M5 & M6 & M7 & M8 & M9).
  assert (Hib : ∀ m, 0 ≤ m < sb_ninodes sb → 0 ≤ IBLOCK m sb < sb_bmapstart sb).
  { intros m Hm. destruct (IBLOCK_ok _ _ _ G Hm) as (_ & _ & ?). pose proof (g_istart _ _ G). split; [lia|]. by apply (g_inodes _ _ G). }
  destruct (wn_disk _ _ _ _ _ _ _ _ _ _ Wn) as [[-> Hb]|Hb]; fold sb in Hb.
  - split; [|intros m j Hm _]; unfold read_in; rewrite Hb by (by apply Hib); done.
  - assert (Hl' : length (i_addrs i') = 13%nat) by exact (if_len _ _ _ (fo_file _ _ _ _ _ (wn_ok _ _ _ _ _ _ _ _ _ _ Wn))).
    assert (Hv : ∀ m j, 0 ≤ m < sb_ninodes sb → read_in sb v' m j = read_in sb (inode_view sb i' v) m j).
    { intros m j Hm. unfold read_in, inode_view. rewrite Hb by (by apply Hib). rewrite M2. case_decide as E.
      - rewrite E, blk_upd_eq; [done| |done]. by apply (IBLOCK_ok _ _ _ G).
      - rewrite blk_upd_ne; [done| | |done]; by apply Hib. }
    destruct (wn_ok _ _ _ _ _ _ _ _ _ _ Wn) as [O1 O2 O3 O4 O5 O6]. destruct (wn_state _ _ _ _ _ _ _ _ _ _ Wn) as [t ->].
    split.
    + rewrite Hv by done. rewrite <- M2. rewrite inode_view_read; [apply stored_id|done|done|by rewrite M2|].
      pose proof (read_in_shorts _ _ _ _ Hr) as Hs. split; [by rewrite M1, M3, M8, M9| |exact Hl'|by eapply addrs_range].
      change (MAXFILE * BSIZE) with 71680 in Hsz. lia.
    + intros m j Hm Hne. rewrite Hv by done. apply inode_view_other; try done; by rewrite M2.
Qed.

Lemma written_icok s v o ip i off src s' v' i' :
  icok s v o → ic_inode s !! ip = Some i → 0 < i_ref i → sl_locked (i_lock i) ≠ 0 → 0 ≤ i_size i' ≤ MAXFILE * BSIZE →
  read_in (fs_sb s) v (i_inum i) i = i → written s v o ip i off src s' v' i' → icok s' v' o.
Proof.
  intros I Hi Hr Hl Hsz Hd Wn. pose proof (ic_ent _ _ _ I _ _ Hi) as [E1 E2 E3 E4 E5 E6]. destruct (E4 Hr) as [_ Hn].
  destruct (written_read _ _ _ _ _ _ _ _ _ _ I Hn Hsz Hd Wn) as [_ Ho].
  destruct (wn_meta _ _ _ _ _ _ _ _ _ _ Wn) as (M1 & M2 & M3 & M4 & M5 & M6 & M7 & M8 & M9).
  destruct (wn_ok _ _ _ _ _ _ _ _ _ _ Wn) as [O1 O2 O3 O4 O5 O6]. destruct (wn_state _ _ _ _ _ _ _ _ _ _ Wn) as [t ->].
  apply (icok_change s v o t v' ip i); try done.
  - by apply (wn_len _ _ _ _ _ _ _ _ _ _ Wn).
  - split; rewrite ?M5, ?M4, ?M6, ?M7, ?M2; try done.
Qed.

(** ** The free place *)

Notation entries v i := (ents (contents v i)).

Lemma icok_tx s v o t : icok s v o → trepr t v o → icok (set_tx t s) v o.
Proof. intros [R G He Hf E U] R'. by split. Qed.

Lemma find_slot s v o dp i :
  icok s v o → ic_inode s !! dp = Some i → dir_file (fs_sb s) v i →
  ∃ r t k, for_range (dirents (i_size i)) 0 (λ k,
      '(r, de) ← readi devsw dp (k * DIRENTSZ) DIRENTSZ;
      if negb (r =? DIRENTSZ) then panic "dirlink read" else
      if de_inum de =? 0 then mret (Some (k * DIRENTSZ)) else mret None) s = Ok r (set_tx t s) ∧ icok (set_tx t s) v o ∧
    default (Z.of_nat (dirents (i_size i)) * DIRENTSZ) r = Z.of_nat k * DIRENTSZ ∧ (k ≤ dirents (i_size i))%nat ∧
    ((k < dirents (i_size i))%nat → ∃ e, entries v i !! k = Some e ∧ de_inum e = 0) ∧
    ∀ j e, (j < k)%nat → entries v i !! j = Some e → de_inum e ≠ 0.
Proof.
  intros I Hi D.
  destruct (for_range_inv (λ n s1, (∃ t, s1 = set_tx t s ∧ icok (set_tx t s) v o) ∧ ∀ j e, Z.of_nat j < n → entries v i !! j = Some e → de_inum e ≠ 0)
    (λ r s1, ∃ t k e, s1 = set_tx t s ∧ icok (set_tx t s) v o ∧ r = Z.of_nat k * DIRENTSZ ∧ (k < dirents (i_size i))%nat ∧
       entries v i !! k = Some e ∧ de_inum e = 0 ∧ ∀ j e, (j < k)%nat → entries v i !! j = Some e → de_inum e ≠ 0) (λ k,
      '(r, de) ← readi devsw dp (k * DIRENTSZ) DIRENTSZ;
      if negb (r =? DIRENTSZ) then panic "dirlink read" else
      if de_inum de =? 0 then mret (Some (k * DIRENTSZ)) else mret None) (dirents (i_size i)) 0 s) as (r & s' & E & Hr).
  - split; [exists (fs_tx s); by rewrite set_tx_id|intros; lia].
  - intros k s1 Hk ((t & -> & I1) & Hb). destruct (read_entry devsw (set_tx t s) v o dp i (Z.to_nat k) I1 Hi D) as (t2 & e & He & _ & E2 & I2); [lia|].
    rewrite Z2Nat.id in E2 by lia. rewrite set_tx_set_tx in E2, I2.
    destruct (Z.eqb_spec (de_inum e) 0) as [Hz0|Hn]; [right|left].
    + exists (k * DIRENTSZ), (set_tx t2 s). split; [mstep E2; cbn [negb]; by rewrite Z.eqb_refl, Hz0|].
      exists t2, (Z.to_nat k), e. rewrite Z2Nat.id by lia. split_and!; try (done || lia). intros j e' Hj. apply Hb. lia.
    + exists (set_tx t2 s). split; [mstep E2; cbn [negb]; by rewrite Z.eqb_refl, (proj2 (Z.eqb_neq _ _) Hn)|]. split; [by exists t2|].
      intros j e' Hj Hj'. destruct (decide (j = Z.to_nat k)) as [->|]; [congruence|]. apply (Hb j e'); [lia|done].
  - destruct r as [r|].
    + destruct Hr as (t & k & e & -> & I1 & -> & Hk & He & Hz0 & Hb). exists (Some (Z.of_nat k * DIRENTSZ)), t, k.
      split_and!; [exact E|done|done|lia| |done]. intros _. by exists e.
    + destruct Hr as ((t & -> & I1) & Hb). exists None, t, (dirents (i_size i)). split_and!; [exact E|done|done|lia|lia|]. intros j e Hj. apply Hb. lia.
Qed.

(** ** dirlink *)

(** The new entry. *)
Lemma new_entry name nm inum : 0 < inum < 65536 → length nm = Z.to_nat DIRSIZ → cname (Z.to_nat DIRSIZ) nm = cname (Z.to_nat DIRSIZ) name →
  length (mkdirent inum nm) = 16%nat ∧ de_inum (mkdirent inum nm) = inum ∧ dname (mkdirent inum nm) = cname (Z.to_nat DIRSIZ) name.
Proof.
  intros Hi Hl Hc. unfold mkdirent. split_and!.
  - rewrite length_app, length_le_bytes, Hl. done.
  - unfold de_inum, get16, slice. rewrite drop_0, take_app_length' by (by rewrite length_le_bytes).
    rewrite le_val_bytes. change (256 ^ Z.of_nat 2) with 65536. apply Z.mod_small. lia.
  - unfold dname, de_name, slice. rewrite drop_app_length' by (by rewrite length_le_bytes).
    by rewrite take_ge by lia.
Qed.

(** A directory after the entry [e] was written at place [k]. *)
Lemma written_dir s v o dp i k e s' v' i' :
  dir_file (fs_sb s) v i → length e = 16%nat → (k ≤ dirents (i_size i))%nat → i_size i + 16 ≤ MAXFILE * BSIZE →
  written s v o dp i (Z.of_nat k * DIRENTSZ) e s' v' i' →
  dir_file (fs_sb s) v' i' ∧ entries v' i' = put_entry k e (entries v i).
Proof.
  intros [D1 D2 D3 D4 D5] He Hk Hsz Wn. destruct (wn_ok _ _ _ _ _ _ _ _ _ _ Wn) as [O1 O2 O3 O4 O5 O6].
  destruct (wn_meta _ _ _ _ _ _ _ _ _ _ Wn) as (M1 & _). pose proof (wn_size _ _ _ _ _ _ _ _ _ _ Wn) as Hs'.
  destruct (entries_count devsw v i (proj1 D4) D5) as [Hcount Hsize]. destruct (wn_state _ _ _ _ _ _ _ _ _ _ Wn) as [t ->].
  rewrite He in Hs'. unfold DIRENTSZ in *. change (Z.of_nat 16) with 16 in Hs'. split.
  - split; [congruence|exact O5|apply Wn|lia|]. rewrite Hs'. unfold DIRENTSZ. lia.
  - rewrite (wn_contents _ _ _ _ _ _ _ _ _ _ Wn). replace (Z.to_nat (Z.of_nat k * 16)) with (16 * k)%nat by lia.
    apply ents_splice; [done| |].
    + rewrite length_contents by lia. rewrite Hsize, Z2Nat.inj_mul, Nat2Z.id by lia. change (Z.to_nat 16) with 16%nat. rewrite Nat.mul_comm. apply Nat.Div0.mod_mul.
    + by rewrite <- length_ents, Hcount.
Qed.

(** What [dirlink] makes of the directory, the cache and the disk. *)
Record linked s v o dp i (name : list Z) (inum : Z) s' v' i' : Prop := {
  lk_ok : icok s' v' o;
  lk_state : ∃ t, s' = set_tx t (upd_ino dp i' s);
  lk_dir : dir_file (fs_sb s) v' i';
  lk_read : read_in (fs_sb s) v' (i_inum i) i' = i';
  lk_same : i_lock i' = i_lock i ∧ i_ref i' = i_ref i ∧ i_inum i' = i_inum i;
  lk_new : let k := free_slot (entries v i) in dfind name (entries v' i') 0 = Some (Z.of_nat k, inum) ∧
    ∃ e, de_inum e = inum ∧ dname e = name ∧ entries v' i' = put_entry k e (entries v i);
  lk_old : ∀ nm, nm ≠ name → dfind nm (entries v' i') 0 = dfind nm (entries v i) 0;
  lk_inode : ∀ m j, 0 ≤ m < sb_ninodes (fs_sb s) → m ≠ i_inum i → read_in (fs_sb s) v' m j = read_in (fs_sb s) v m j;
  lk_frame : ∀ b, good (fs_sb s) v b → ¬ owns v i b → blk v' b = blk v b }.

Lemma nblks_entry k : nblks (Z.of_nat k * DIRENTSZ) DIRENTSZ = 1.
Proof. unfold nblks, DIRENTSZ, BSIZE. cbn [Z.eqb]. lia. Qed.

Lemma linked_tx s t v o dp i name inum s' v' i' :
  linked (set_tx t s) v o dp i name inum s' v' i' → linked s v o dp i name inum s' v' i'.
Proof. intros [L1 [t' L2] L3 L4 L5 L6 L7 L8 L9]. split; try done. by exists t'. Qed.

Lemma written_linked s v o dp i k e name inum s' v' i' :
  icok s v o → ic_inode s !! dp = Some i → 0 < i_ref i → sl_locked (i_lock i) ≠ 0 → read_in (fs_sb s) v (i_inum i) i = i →
  dir_file (fs_sb s) v i → i_size i + 16 ≤ MAXFILE * BSIZE →
  length e = 16%nat → de_inum e = inum → inum ≠ 0 → dname e = name → dfind name (entries v i) 0 = None →
  k = free_slot (entries v i) → (k ≤ dirents (i_size i))%nat → ((k < dirents (i_size i))%nat → ∃ e0, entries v i !! k = Some e0 ∧ de_inum e0 = 0) →
  written s v o dp i (Z.of_nat k * DIRENTSZ) e s' v' i' → linked s v o dp i name inum s' v' i'.
Proof.
  intros I Hi Hr Hl Hrd D Hsz He <- Hin <- Hnone Hfs Hk Hslot Wn.
  destruct (entries_count devsw v i (proj1 (df_size _ _ _ D)) (df_mod _ _ _ D)) as [Hcount Hsize].
  destruct (written_dir _ _ _ _ _ _ _ _ _ _ D He Hk Hsz Wn) as [D' Hents].
  destruct (eo_dev _ _ _ (ic_ent _ _ _ I _ _ Hi) Hr) as [_ Hn].
  destruct (written_read _ _ _ _ _ _ _ _ _ _ I Hn (df_size _ _ _ D') Hrd Wn) as [Hr1 Hr2].
  destruct (wn_meta _ _ _ _ _ _ _ _ _ _ Wn) as (_ & M2 & _ & M4 & M5 & _).
  split; try done.
  - eapply written_icok; try done. apply D'.
  - apply Wn.
  - cbv zeta. rewrite <- Hfs. split; [|by exists e]. rewrite Hents. unfold put_entry. rewrite Hcount. case_decide as Hd.
    + destruct (Hslot Hd) as (e0 & H1 & H2). by apply (dfind_insert_new _ _ _ 0 _ e0).
    + replace k with (length (entries v i)) by lia. by apply (dfind_app_new _ _ 0).
  - intros nm Hne. rewrite Hents. unfold put_entry. rewrite Hcount. case_decide as Hd.
    + destruct (Hslot Hd) as (e0 & H1 & H2). by apply (dfind_insert_old _ _ _ _ _ e0).
    + by apply dfind_app_old.
  - intros b Hg Ho. pose proof (datastart_pos _ _ (ic_geom _ _ _ I)). destruct Hg as [Hb Hu]. apply (wn_frame _ _ _ _ _ _ _ _ _ _ Wn b); [done| |].
    + intros ->. apply Ho. split; [lia|by left].
    + intros bn Hbn E. apply Ho. split; [lia|]. right. by exists bn.
Qed.

Lemma dirlink_new s v o dp i name inum :
  icok s v o → ic_inode s !! dp = Some i → 0 < i_ref i → sl_locked (i_lock i) ≠ 0 → read_in (fs_sb s) v (i_inum i) i = i →
  dir_file (fs_sb s) v i → meta_used (fs_sb s) v → i_size i + 16 ≤ MAXFILE * BSIZE → budget 7 v o → (2 ≤ nfree (fs_sb s) v)%nat →
  readable (Z.to_nat DIRSIZ) name → 0 < inum < 65536 → dfind (cname (Z.to_nat DIRSIZ) name) (entries v i) 0 = None →
  ∃ s' v' i', dirlink me devsw dp name inum s = Ok 0 s' ∧ linked s v o dp i (cname (Z.to_nat DIRSIZ) name) inum s' v' i'.
Proof.
  intros I Hi Hr Hl Hrd D Hm Hsz Hbud Hfree Hn Hin Hnone.
  destruct (dirlookup_ok devsw s v o dp i name I Hi D Hn) as (r & s1 & E & I1 & Hf); [intros k n; by rewrite Hnone|].
  rewrite Hnone in Hf. destruct Hf as (-> & t1 & ->). unfold dirlink. mstep E. mstep (iptr_ok (set_tx t1 s) dp i Hi).
  destruct (find_slot (set_tx t1 s) v o dp i I1 Hi D) as (r & t2 & k & E2 & I2 & Hoff & Hk & Hslot & Hbef). mstep E2. rewrite Hoff.
  destruct (strncpy_readable _ _ Hn) as (nm & En & Hnl & Hnc). rewrite En. cbn [lift_opt]. rewrite bind_ret_l, set_tx_set_tx in *.
  destruct (new_entry name nm inum Hin Hnl Hnc) as (He1 & He2 & He3). set (e := mkdirent inum nm) in *.
  destruct (entries_count devsw v i (proj1 (df_size _ _ _ D)) (df_mod _ _ _ D)) as [Hcount Hsize].
  destruct (writei_ok devsw (set_tx t2 s) v o dp i (Z.of_nat k * DIRENTSZ) e) as (s' & v' & i' & E3 & Wn); rewrite ?He1; try change (Z.of_nat 16) with DIRENTSZ;
    rewrite ?nblks_entry; unfold DIRENTSZ; try lia; try done; try apply D.
  - destruct I2. by split; try apply D.
  - by rewrite (df_type _ _ _ D).
  - by apply (eo_dev _ _ _ (ic_ent _ _ _ I _ _ Hi) Hr).
  - change (fs_sb (set_tx t2 s)) with (fs_sb s). lia.
  - rewrite He1 in E3. exists s', v', i'. split; [by mstep E3|]. apply linked_tx with t2.
    apply (written_linked _ _ _ _ _ k e); try done; [lia|]. symmetry. apply free_slot_at; rewrite ?Hcount; done.
Qed.

(** A name that is there already is refused, and the reference to its inode is
    given back. *)
Lemma dirlink_there s v o dp i name inum k n :
  icok s v o → ic_inode s !! dp = Some i → dir_file (fs_sb s) v i → readable (Z.to_nat DIRSIZ) name →
  dfind (cname (Z.to_nat DIRSIZ) name) (entries v i) 0 = Some (k, n) → cachable s (Some (k, n)) →
  (∀ ip j, ic_inode s !! ip = Some j → 0 < i_ref j → i_inum j = n → sl_locked (i_lock j) = 0) →
  ∃ s', dirlink me devsw dp name inum s = Ok (-1) s' ∧ icok s' v o ∧ ∀ m, refs (ic_inode s') m = refs (ic_inode s) m.
Proof.
  intros I Hi D Hn Hf Hc Hu. destruct (dirlookup_ok devsw s v o dp i name I Hi D Hn) as (r & s1 & E & I1 & Hl); rewrite Hf in *; [done|].
  destruct Hl as (t & ip & j & j' & -> & Hj & Hg & -> & Hrefs). unfold dirlink. mstep E.
  assert (Hj' : ic_inode (set_tx t (upd_ino ip j' s)) !! ip = Some j') by (by eapply upd_ino_lookup).
  assert (Hk : 0 < i_ref j' ∧ sl_locked (i_lock j') = 0 ∧ kept j' ∧ i_inum j' = n).
  { unfold kept. destruct Hg as [(Hr & Hin & ->)|(Hr & ->)]; simpl; split_and!; try lia; try done.
    - by apply (Hu ip j).
    - by apply (eo_free _ _ _ (ic_ent _ _ _ I _ _ Hj)). }
  destruct Hk as (Hr & Hlk & Hkp & Hin). destruct (iput_keep me _ v o ip j' I1 Hj' Hr Hlk Hkp) as (E2 & I2 & Hrefs2).
  eexists. split; [by mstep E2|]. split; [exact I2|]. intros m. rewrite Hrefs2, Hrefs, Hin. unfold bump. case_match; lia.
Qed.

(** The name of the directory itself, as in link(a, "."): the entry leads back
    to the inode that the caller has locked, and [iput] waits for the lock. *)
Lemma dirlink_self s v o dp i name inum k :
  icok s v o → ic_inode s !! dp = Some i → 0 < i_ref i → sl_locked (i_lock i) ≠ 0 → dir_file (fs_sb s) v i →
  readable (Z.to_nat DIRSIZ) name → dfind (cname (Z.to_nat DIRSIZ) name) (entries v i) 0 = Some (k, i_inum i) →
  ∃ s', dirlink me devsw dp name inum s = Blocked (CHAN_INODE dp) s'.
Proof.
  intros I Hi Hr Hlk D Hn Hf.
  assert (Hc : cachable s (Some (k, i_inum i))).
  { intros ? ? [= <- <-]. split; [by apply (eo_dev _ _ _ (ic_ent _ _ _ I _ _ Hi) Hr)|right].
    apply live_refs; [by eapply ic_nonneg|]. apply live_elem. by exists dp, i. }
  destruct (dirlookup_ok devsw s v o dp i name I Hi D Hn) as (r & s1 & E & I1 & Hl); rewrite Hf in *; [done|].
  destruct Hl as (t & ip & j & j' & -> & Hj & Hg & -> & _). unfold dirlink. mstep E.
  assert (ip = dp ∧ j' = set_iref (i_ref i + 1) i) as [-> ->].
  { destruct Hg as [(Hrj & Hin & ->)|(Hrj & ->)].
    - assert (ip = dp) as -> by (by eapply (ic_uniq _ _ _ I)). rewrite Hi in Hj. by injection Hj as ->.
    - pose proof (ic_uniq _ _ _ I1 ip dp (recycled (i_inum i) j) i) as Hu. destruct (decide (ip = dp)) as [->|Hne]; [rewrite Hi in Hj; injection Hj as ->; lia|].
      exfalso. apply Hne, Hu; simpl; try done; [by eapply upd_ino_lookup|]. by rewrite list_lookup_insert_ne. }
  set (j1 := set_iref (i_ref i + 1) i) in *. set (s1 := set_tx t (upd_ino dp j1 s)) in *.
  assert (Hj' : ic_inode s1 !! dp = Some j1) by (by eapply upd_ino_lookup).
  eexists. unfold iput, mbind, M_bind at 1 2, on_ilock, zoom. rewrite Hj'. cbn [fmap option_fmap option_map].
  rewrite (acquiresleep_taken me (CHAN_INODE dp) (i_lock j1)); [done| |exact Hlk].
  by apply (eo_lk _ _ _ (ic_ent _ _ _ I _ _ Hi)).
Qed.

(** C15: a new name in a directory: when the name is not there, [dirlink] returns 0
    after it has put an entry with the name and the inode number in the first place that is
    not in use, or at the end when all are; the name is found there; every
    other entry is as it was, and every other name leads where it did before; the directory stays one that the
    kernel can read, and agrees with the disk; the inode cache stays
    consistent; no other inode and no block of another file has changed. *)
Theorem dirlink_adds s v o dp i name inum :
  let sb := fs_sb s in
  let nm := cname (Z.to_nat DIRSIZ) name in
  icok s v o → ic_inode s !! dp = Some i → 0 < i_ref i → sl_locked (i_lock i) ≠ 0 → read_in sb v (i_inum i) i = i →
  dir_file sb v i → meta_used sb v → i_size i + 16 ≤ MAXFILE * BSIZE → budget 7 v o → (2 ≤ nfree sb v)%nat →
  readable (Z.to_nat DIRSIZ) name → 0 < inum < 65536 → dfind nm (entries v i) 0 = None →
  ∃ s' v' i', dirlink me devsw dp name inum s = Ok 0 s' ∧
    icok s' v' o ∧ ic_inode s' !! dp = Some i' ∧ dir_file sb v' i' ∧ read_in sb v' (i_inum i) i' = i' ∧
    (let k := free_slot (entries v i) in dfind nm (entries v' i') 0 = Some (Z.of_nat k, inum) ∧
       ∃ e, de_inum e = inum ∧ dname e = nm ∧ entries v' i' = put_entry k e (entries v i)) ∧
    (∀ other, other ≠ nm → dfind other (entries v' i') 0 = dfind other (entries v i) 0) ∧
    (∀ m j, 0 ≤ m < sb_ninodes sb → m ≠ i_inum i → read_in sb v' m j = read_in sb v m j) ∧
    (∀ b, good sb v b → ¬ owns v i b → blk v' b = blk v b).
Proof.
  intros sb nm I Hi Hr Hl Hrd D Hm Hsz Hbud Hfree Hn Hin Hnone.
  destruct (dirlink_new s v o dp i name inum I Hi Hr Hl Hrd D Hm Hsz Hbud Hfree Hn Hin Hnone) as (s' & v' & i' & E & [L1 [t ->] L3 L4 L5 L6 L7 L8 L9]).
  exists (set_tx t (upd_ino dp i' s)), v', i'. split_and!; try done. by eapply upd_ino_lookup.
Qed.
End link.
