(* ===== verification/FsOp.v ===== *)
(** * Reading and writing one file, in a transaction of its own

    What file.c does with an inode: [ilock], [readi] or [writei], [iunlock], and around
    a write [begin_op] and [end_op].  [on_file] says that an entry of the inode cache is a
    regular file that nobody has locked; [fdata] is its contents on the disk.

    A commit changes none of the blocks that the file system uses ([same_blocks]),
    so everything that was known before [end_op] holds after it.  [read_held]: the
    bytes that are read.  [write_op]: the contents after a write that fits
    a transaction; no other file has changed ([only_file]), and nothing is left
    to be written to the disk. *)

From S2P Require Import Prelude Params Strings BlockDev Sleeplock Tx Fs FsFile Dinode Dir Icache FsTrunc DirSpec DirLink.

(** ** Views with the same blocks *)

Record same_blocks (sb : superblock) (v v' : bview) : Prop := {
  sm_len : length (v_disk v') = length (v_disk v);
  sm_blk : ∀ n, sb_inodestart sb ≤ n < sb_size sb → blk v' n = blk v n }.

Section same.
Context {T : Type} `{TxSpec T}.
Context (sb : superblock) (v v' : bview) (Sm : same_blocks sb v v') (G : geom sb (Z.of_nat (length (v_disk v)))).

Lemma same_geom : geom sb (Z.of_nat (length (v_disk v'))).
Proof. by rewrite (sm_len _ _ _ Sm). Qed.

Lemma same_used b : 0 ≤ b < sb_size sb → used sb v' b = used sb v b.
Proof.
  intros Hb. unfold used. rewrite (sm_blk _ _ _ Sm); [done|]. pose proof (BBLOCK_range _ _ _ G Hb). pose proof (g_istart _ _ G).
  pose proof (g_data _ _ G). lia.
Qed.

Lemma same_read n i : 0 ≤ n < sb_ninodes sb → read_in sb v' n i = read_in sb v n i.
Proof.
  intros Hn. unfold read_in. rewrite (sm_blk _ _ _ Sm); [done|]. destruct (IBLOCK_ok _ _ _ G Hn) as (_ & _ & ?). pose proof (g_data _ _ G).
  unfold IBLOCK in *. change IPB with 8 in *. pose proof (Z.div_pos n 8). lia.
Qed.

Lemma data_block a : good sb v a → blk v' a = blk v a.
Proof.
  intros [Ha _]. apply (sm_blk _ _ _ Sm). pose proof (g_istart _ _ G). pose proof (g_size _ _ G).
  pose proof (Z.div_pos (sb_size sb) BPB ltac:(lia) ltac:(done)). unfold datastart in Ha. lia.
Qed.

Lemma same_good a : good sb v' a ↔ good sb v a.
Proof.
  pose proof (datastart_pos _ _ G). unfold good. split; intros [Ha Hu]; (split; [done|]); rewrite same_used in *; done || lia.
Qed.

Lemma same_faddr i bn : ifile sb v i → faddr v' i bn = faddr v i bn.
Proof.
  intros F. unfold faddr. destruct (bn <? NDIRECT); [done|]. destruct (Z.eqb_spec (iaddr i NDIRECT) 0); [done|].
  destruct (if_ind _ _ _ F) as [?|Hg]; [done|]. by rewrite (data_block _ Hg).
Qed.

Lemma same_ifile i : ifile sb v i → ifile sb v' i.
Proof.
  intros F. split; [apply F|apply F| | | |].
  - destruct (if_ind _ _ _ F) as [?|?]; [by left|right; by apply same_good].
  - intros bn Hb. rewrite same_faddr by done. destruct (if_map _ _ _ F bn Hb) as [?|?]; [by left|right; by apply same_good].
  - intros bn bn'. rewrite !same_faddr by done. apply F.
  - intros bn. rewrite same_faddr by done. apply F.
Qed.

Lemma same_holes i : ifile sb v i → no_holes v i → no_holes v' i.
Proof. intros F Hn bn Hb0 Hb. rewrite same_faddr by done. by apply Hn. Qed.

Lemma same_contents i : ifile sb v i → no_holes v i → i_size i ≤ MAXFILE * BSIZE → contents v' i = contents v i.
Proof.
  intros F Hn Hs. unfold contents, fbytes. apply list_fmap_ext. intros k x Hx. apply lookup_seqZ in Hx as [-> Hk].
  unfold fbyte. rewrite same_faddr by done. f_equal.
  assert (Hin : in_file ((0 + Z.of_nat k) / BSIZE)) by (unfold in_file, BSIZE in *; lia).
  destruct (if_map _ _ _ F _ Hin) as [Hz|Hg]; [|by apply data_block]. exfalso. revert Hz. apply Hn; unfold BSIZE in *; lia.
Qed.

Lemma same_meta : meta_used sb v → meta_used sb v'.
Proof. intros Hm b Hb. pose proof (g_data _ _ G). rewrite same_used by lia. by apply Hm. Qed.

Lemma same_nfree : nfree sb v' = nfree sb v.
Proof. apply nfree_ext. intros b Hb. by apply same_used. Qed.

Lemma same_icok (s : fsstate (T := T)) o t o' : fs_sb s = sb → icok s v o → trepr t v' o' → v_held v' = ∅ → icok (set_tx t s) v' o'.
Proof.
  intros Es [R _ He Hf E U] R' He'. split; cbn [fs_sb set_tx]; rewrite ?Es; try done; [exact same_geom|].
  intros ip i Hi. rewrite Es in E. destruct (E _ _ Hi) as [E1 E2 E3 E4 E5 E6]. split; try done. intros Hr Hv Hl. rewrite same_read; [by apply E5|by apply E4].
Qed.
End same.

(** ** begin_op and end_op *)

Section ops.
Context {T : Type} `{TxSpec T}.
Implicit Types (v : bview) (s : fsstate (T := T)) (i : inode).

Lemma op_begin s v : icok s v 0 → v_pins v = ∅ → ∃ t, on_tx tx_begin_op s = Ok tt (set_tx t s) ∧ icok (set_tx t s) v 1.
Proof.
  intros I Hp. destruct (tx_begin_op_spec (fs_tx s) v 0 (ic_rep _ _ _ I)) as (t & E & R).
  { rewrite Hp, size_empty. unfold LOGSIZE, MAXOPBLOCKS. lia. }
  exists t. split; [by apply on_tx_ok|]. destruct I as [_ G He Hf Hent U]. by split.
Qed.

Lemma op_end s v : icok s v 1 →
  ∃ t v', on_tx tx_end_op s = Ok tt (set_tx t s) ∧ icok (set_tx t s) v' 0 ∧ v_pins v' = ∅ ∧ same_blocks (fs_sb s) v v'.
Proof.
  intros I. destruct (tx_end_op_spec (fs_tx s) v (ic_rep _ _ _ I) (ic_held _ _ _ I)) as (t & v' & E & R & He & Hp & Hl & Hb).
  assert (Sm : same_blocks (fs_sb s) v v').
  { split; [done|]. intros n Hn. pose proof (g_istart _ _ (ic_geom _ _ _ I)). unfold blk. f_equal. apply Hb; [lia|]. by apply (g_home _ _ (ic_geom _ _ _ I)). }
  exists t, v'. split_and!; [by apply on_tx_ok| |done|done]. by apply (same_icok _ v v' Sm (ic_geom _ _ _ I) s 1).
Qed.

(** ** One regular file *)

(** What the disk says about the inode of an entry. *)
Definition ondisk s v i : inode := read_in (fs_sb s) v (i_inum i) i.
Definition fdata s v i : list Z := contents v (ondisk s v i).

Record regular (sb : superblock) v i : Prop := {
  rg_file : ifile sb v i;
  rg_holes : no_holes v i;
  rg_type : i_type i ≠ T_DEV ∧ i_type i ≠ 0;
  rg_size : 0 ≤ i_size i ≤ MAXFILE * BSIZE }.

Record on_file s v o (ip : nat) i : Prop := {
  of_ok : icok s v o;
  of_meta : meta_used (fs_sb s) v;
  of_ino : ic_inode s !! ip = Some i;
  of_ref : 0 < i_ref i;
  of_free : sl_locked (i_lock i) = 0;
  of_reg : regular (fs_sb s) v (ondisk s v i) }.

(** Lock and valid flag do not matter to the file. *)
Lemma regular_lock sb v i l : regular sb v (set_ilock l i) ↔ regular sb v i.
Proof. split; intros [F F2 F3 F4]; (split; [by destruct F|exact F2|exact F3|exact F4]). Qed.
Lemma regular_valid sb v i b : regular sb v (set_ivalid b i) ↔ regular sb v i.
Proof. split; intros [F F2 F3 F4]; (split; [by destruct F|exact F2|exact F3|exact F4]). Qed.
Lemma contents_lock v i l : contents v (set_ilock l i) = contents v i.
Proof. done. Qed.

(** What a write leaves alone: the other inodes, the blocks of the other files, and
    the free blocks but for the [k] it may have taken. *)
Record only_file (sb : superblock) v i v' i' (k : Z) : Prop := {
  of_same : i_inum i' = i_inum i ∧ i_ref i' = i_ref i ∧ i_type i' = i_type i;
  of_inodes : ∀ m j, 0 ≤ m < sb_ninodes sb → m ≠ i_inum i → read_in sb v' m j = read_in sb v m j;
  of_blocks : ∀ b, good sb v b → ¬ owns v i b → good sb v' b ∧ blk v' b = blk v b ∧ ¬ owns v' i' b;
  of_nfree : Z.of_nat (nfree sb v) ≤ Z.of_nat (nfree sb v') + k }.

Lemma only_refl sb v i : only_file sb v i v i 0.
Proof. split; (done || lia). Qed.

Lemma only_weaken sb v i v' i' k k' : k ≤ k' → only_file sb v i v' i' k → only_file sb v i v' i' k'.
Proof. intros Hk [A B C D]. split; (done || lia). Qed.

Lemma only_trans sb v1 i1 v2 i2 v3 i3 k1 k2 : only_file sb v1 i1 v2 i2 k1 → only_file sb v2 i2 v3 i3 k2 → only_file sb v1 i1 v3 i3 (k1 + k2).
Proof.
  intros [(A1 & A2 & A3) B C D] [(A1' & A2' & A3') B' C' D']. split; [split_and!; congruence| | |lia].
  - intros m j Hm Hne. rewrite B' by (rewrite ?A1; done). by apply B.
  - intros b Hg Ho. destruct (C b Hg Ho) as (G2 & E2 & O2). destruct (C' b G2 O2) as (G3 & E3 & O3). split_and!; congruence.
Qed.

(** The commit. *)
Lemma only_same sb v i v2 i2 k v3 : geom sb (Z.of_nat (length (v_disk v2))) → only_file sb v i v2 i2 k → ifile sb v2 i2 → same_blocks sb v2 v3 →
  only_file sb v i v3 i2 k.
Proof.
  intros G [A B C D] F Sm. split; [done| | |by rewrite (same_nfree sb v2 v3 Sm G)].
  - intros m j Hm Hne. rewrite (same_read sb v2 v3 Sm G) by done. by apply B.
  - intros b Hg Ho. destruct (C b Hg Ho) as (G2 & E2 & O2). split_and!.
    + by apply (same_good sb v2 v3 Sm G).
    + by rewrite (data_block sb v2 v3 Sm G).
    + intros [Hz [E|(bn & Hbn & E)]]; apply O2; (split; [done|]); [by left|right]. exists bn. by rewrite <- (same_faddr sb v2 v3 Sm G).
Qed.

Lemma commit_file s v ip i : on_file s v 1 ip i →
  ∃ t v', on_tx tx_end_op s = Ok tt (set_tx t s) ∧ on_file (set_tx t s) v' 0 ip i ∧ v_pins v' = ∅ ∧ same_blocks (fs_sb s) v v' ∧
    ondisk (set_tx t s) v' i = ondisk s v i ∧ fdata (set_tx t s) v' i = fdata s v i.
Proof.
  intros [I Hm Hi Hr Hl Rg]. destruct (op_end s v I) as (t & v' & E & I' & Hp & Sm). pose proof (ic_geom _ _ _ I) as G.
  destruct (eo_dev _ _ _ (ic_ent _ _ _ I _ _ Hi) Hr) as [_ Hn].
  assert (Ed : ondisk (set_tx t s) v' i = ondisk s v i) by (by apply (same_read (fs_sb s) v v' Sm G)).
  destruct Rg as [F Hh Ht Hs]. exists t, v'. split_and!; try done.
  - split; try done; [by apply (same_meta (fs_sb s) v v' Sm G)|]. rewrite Ed. split; try done.
    + by apply (same_ifile (fs_sb s) v v' Sm G).
    + by apply (same_holes (fs_sb s) v v' Sm G).
  - unfold fdata. rewrite Ed. apply (same_contents (fs_sb s) v v' Sm G); [done|done|lia].
Qed.

Lemma length_fdata s v o ip i : on_file s v o ip i → Z.of_nat (length (fdata s v i)) = i_size (ondisk s v i).
Proof. intros O. destruct (rg_size _ _ _ (of_reg _ _ _ _ _ O)). unfold fdata. rewrite length_contents by done. lia. Qed.

Lemma nblks_small off n : 0 ≤ off → 0 ≤ n ≤ 1536 → nblks off n ≤ 4.
Proof. intros H1 H2. unfold nblks, BSIZE. destruct (n =? 0); lia. Qed.
End ops.

Section held.
Context {T : Type} `{TxSpec T}.
Context (me : Z) (devsw : Z → option (device (T := T))).
Implicit Types (v : bview) (s : fsstate (T := T)) (i : inode).

(** After [ilock]. *)
Record held_file s v o (ip : nat) i : Prop := {
  hf_ok : icok s v o;
  hf_meta : meta_used (fs_sb s) v;
  hf_ino : ic_inode s !! ip = Some i;
  hf_ref : 0 < i_ref i;
  hf_lock : i_lock i = mksl false 1 me [];
  hf_disk : ondisk s v i = i;
  hf_reg : regular (fs_sb s) v i }.

Lemma hold_file s v o ip i : on_file s v o ip i →
  let i1 := locked me (fs_sb s) v i in
  ∃ t, ilock me (Some ip) s = Ok tt (set_tx t (upd_ino ip i1 s)) ∧ held_file (set_tx t (upd_ino ip i1 s)) v o ip i1 ∧
    contents v i1 = fdata s v i ∧ i_size i1 = i_size (ondisk s v i).
Proof.
  intros [I Hm Hi Hr Hl Rg]. destruct (ilock_ok me s v o ip i I Hi Hr Hl (proj2 (rg_type _ _ _ Rg))) as (t & E & I1).
  exists t. split; [exact E|]. split; [|done]. split; try done.
  - by eapply upd_ino_lookup.
  - by apply regular_valid, regular_lock.
Qed.

Lemma drop_file s v o ip i : held_file s v o ip i →
  iunlock me (Some ip) s = Ok tt (upd_ino ip (set_ilock (mksl false 0 0 []) i) s) ∧
  on_file (upd_ino ip (set_ilock (mksl false 0 0 []) i) s) v o ip (set_ilock (mksl false 0 0 []) i) ∧
  ondisk (upd_ino ip (set_ilock (mksl false 0 0 []) i) s) v (set_ilock (mksl false 0 0 []) i) = set_ilock (mksl false 0 0 []) i ∧
  fdata (upd_ino ip (set_ilock (mksl false 0 0 []) i) s) v (set_ilock (mksl false 0 0 []) i) = contents v i.
Proof.
  intros [I Hm Hi Hr Hl Hd Rg]. destruct (iunlock_ok me s v o ip i I Hi Hr Hl Hd) as [E I1].
  assert (Ed : ondisk (upd_ino ip (set_ilock (mksl false 0 0 []) i) s) v (set_ilock (mksl false 0 0 []) i) = set_ilock (mksl false 0 0 []) i).
  { unfold ondisk in *. cbn [i_inum set_ilock fs_sb upd_ino set_inodes]. rewrite read_in_lock. by rewrite Hd. }
  split; [exact E|]. split; [|split; [exact Ed|by unfold fdata; rewrite Ed]]. split; try done; [by eapply upd_ino_lookup|].
  rewrite Ed. by apply regular_lock.
Qed.

(** ** Reading and writing *)

Lemma read_held s v o ip i off n : held_file s v o ip i → 0 ≤ off ≤ i_size i → 0 ≤ n → off + n < 4294967296 →
  let r := Z.min n (i_size i - off) in
  ∃ t, readi devsw ip off n s = Ok (r, slice (Z.to_nat off) (Z.to_nat r) (contents v i)) (set_tx t s) ∧ held_file (set_tx t s) v o ip i.
Proof.
  intros [I Hm Hi Hr Hl Hd Rg] Ho Hn Hov. pose proof Rg as [F Hh [Ht _] Hs].
  destruct (readi_ok devsw s v o ip i off n) as (t & E & R'); try done; [apply I|apply I|apply I|exact (free_room _ _ _ (ic_rep _ _ _ I) (ic_held _ _ _ I))|lia|].
  exists t. split; [rewrite E; cbv zeta; by rewrite (fbytes_contents devsw v i off) by lia|]. split; try done. destruct I as [_ G He Hf Hent U]. by split.
Qed.

Lemma written_only s v o ip i off src s' v' i' : icok s v o → 0 ≤ i_inum i < sb_ninodes (fs_sb s) → 0 ≤ i_size i' ≤ MAXFILE * BSIZE →
  ondisk s v i = i → written s v o ip i off src s' v' i' → only_file (fs_sb s) v i v' i' (2 * nblks off (Z.of_nat (length src))).
Proof.
  intros I Hn Hs Hd Wn. destruct (written_read devsw _ _ _ _ _ _ _ _ _ _ I Hn Hs Hd Wn) as [_ Hr].
  destruct (wn_meta _ _ _ _ _ _ _ _ _ _ Wn) as (M1 & M2 & M3 & M4 & M5 & _). split; [done|exact Hr| |apply Wn].
  intros b Hg Ho. destruct (good_disk _ _ _ (ic_geom _ _ _ I) Hg) as (_ & _ & Hb).
  assert (N1 : b ≠ iaddr i NDIRECT) by (intros ->; apply Ho; split; [lia|by left]).
  assert (N2 : ∀ bn, in_file bn → faddr v i bn ≠ b) by (intros bn Hbn <-; apply Ho; split; [lia|right; by exists bn]).
  destruct (wn_frame _ _ _ _ _ _ _ _ _ _ Wn b Hg N1 N2) as [W1 W2]. destruct (wn_new _ _ _ _ _ _ _ _ _ _ Wn b Hg N1 N2) as [W3 W4].
  split_and!; [done|done|]. intros [_ [E|(bn & Hbn & E)]]; [done|]. by apply (W4 bn Hbn).
Qed.

Lemma write_held s v ip i off src : held_file s v 1 ip i → 0 ≤ off ≤ i_size i → off + Z.of_nat (length src) ≤ MAXFILE * BSIZE →
  budget (Z.to_nat (6 * nblks off (Z.of_nat (length src)) + 1)) v 1 → 2 * nblks off (Z.of_nat (length src)) ≤ Z.of_nat (nfree (fs_sb s) v) →
  ∃ t v' i', writei devsw ip src off (Z.of_nat (length src)) s = Ok (Z.of_nat (length src)) (set_tx t (upd_ino ip i' s)) ∧
    held_file (set_tx t (upd_ino ip i' s)) v' 1 ip i' ∧ contents v' i' = splice (Z.to_nat off) src (contents v i) ∧
    i_size i' = Z.max (i_size i) (off + Z.of_nat (length src)) ∧
    only_file (fs_sb s) v i v' i' (2 * nblks off (Z.of_nat (length src))).
Proof.
  intros [I Hm Hi Hr Hl Hd [F Hh [Ht Ht0] Hs]] Ho Hmax Hbud Hfree. destruct (eo_dev _ _ _ (ic_ent _ _ _ I _ _ Hi) Hr) as [_ Hn].
  assert (Fo : fsok s v 1 ip i) by (split; try done; apply I).
  destruct (writei_ok devsw s v 1 ip i off src Fo Hh Ht Hn Ho ltac:(lia) Hmax Hbud Hfree) as (s' & v' & i' & E & Wn).
  pose proof (wn_size _ _ _ _ _ _ _ _ _ _ Wn) as Hs'. assert (Hb' : 0 ≤ i_size i' ≤ MAXFILE * BSIZE) by lia.
  pose proof (written_only _ _ _ _ _ _ _ _ _ _ I Hn Hb' Hd Wn) as On.
  pose proof (written_icok devsw s v 1 ip i off src s' v' i' I Hi Hr ltac:(by rewrite Hl) Hb' Hd Wn) as I'.
  destruct (written_read devsw _ _ _ _ _ _ _ _ _ _ I Hn Hb' Hd Wn) as [Hd' _]. destruct (wn_state _ _ _ _ _ _ _ _ _ _ Wn) as [t ->].
  destruct (wn_meta _ _ _ _ _ _ _ _ _ _ Wn) as (M1 & M2 & M3 & M4 & M5 & _). destruct (wn_ok _ _ _ _ _ _ _ _ _ _ Wn) as [O1 O2 O3 O4 O5 O6].
  exists t, v', i'. split_and!; [exact E| |apply Wn|exact Hs'|exact On]. split; try done; [lia|congruence| |].
  - unfold ondisk. cbn [fs_sb set_tx upd_ino set_inodes]. by rewrite M2.
  - split; [exact O5|apply Wn|by rewrite M1|exact Hb'].
Qed.

(** The steps of a write of at most three blocks, and what they leave. *)
Record wrote_op s v ip i off src (s1 s2 s3 s4 s5 : fsstate (T := T)) v' i' : Prop := {
  wo_begin : on_tx tx_begin_op s = Ok tt s1;
  wo_lock : ilock me (Some ip) s1 = Ok tt s2;
  wo_here : ∃ j, ic_inode s2 !! ip = Some j ∧ i_type j ≠ T_DEV;
  wo_write : writei devsw ip src off (Z.of_nat (length src)) s2 = Ok (Z.of_nat (length src)) s3;
  wo_unlock : iunlock me (Some ip) s3 = Ok tt s4;
  wo_end : on_tx tx_end_op s4 = Ok tt s5;
  wo_file : on_file s5 v' 0 ip i';
  wo_sb : fs_sb s5 = fs_sb s;
  wo_pins : v_pins v' = ∅;
  wo_data : fdata s5 v' i' = splice (Z.to_nat off) src (fdata s v i);
  wo_only : only_file (fs_sb s) v (ondisk s v i) v' (ondisk s5 v' i') 8;
  wo_rest : ∀ jp, jp ≠ ip → ic_inode s5 !! jp = ic_inode s !! jp }.

Lemma write_op s v ip i off src : on_file s v 0 ip i → v_pins v = ∅ → (25 ≤ tx_max)%nat →
  0 ≤ off ≤ Z.of_nat (length (fdata s v i)) → Z.of_nat (length src) ≤ 1536 → off + Z.of_nat (length src) ≤ MAXFILE * BSIZE →
  8 ≤ Z.of_nat (nfree (fs_sb s) v) → ∃ s1 s2 s3 s4 s5 v' i', wrote_op s v ip i off src s1 s2 s3 s4 s5 v' i'.
Proof.
  intros O Hp Hmax Ho Hn Hsz Hfr. rewrite (length_fdata _ _ _ _ _ O) in Ho. pose proof (nblks_small off _ (proj1 Ho) (conj (Nat2Z.is_nonneg _) Hn)) as Hb.
  pose proof O as [I Hm Hi Hr Hl Rg]. destruct (op_begin s v I Hp) as (t1 & E1 & I1).
  assert (O1 : on_file (set_tx t1 s) v 1 ip i) by (split; done).
  destruct (hold_file _ _ _ _ _ O1) as (t2 & E2 & H2 & C2 & S2). set (i2 := locked me _ v i) in *.
  assert (Hbud : budget (Z.to_nat (6 * nblks off (Z.of_nat (length src)) + 1)) v 1).
  { unfold budget, room. rewrite Hp, (ic_held _ _ _ I), map_size_empty, size_empty. unfold NBUF, MAXOPBLOCKS. lia. }
  destruct (write_held _ _ _ _ off src H2) as (t3 & v3 & i3 & E3 & H3 & C3 & S3 & On3); [by rewrite S2|done|done|cbn [fs_sb set_tx upd_ino set_inodes]; lia|].
  destruct (drop_file _ _ _ _ _ H3) as (E4 & O4 & D4 & C4). destruct (commit_file _ _ _ _ O4) as (t5 & v5 & E5 & O5 & P5 & Sm5 & D5 & C5).
  set (s5 := set_tx t5 _) in *. set (i4 := set_ilock (mksl false 0 0 []) i3) in *.
  exists (set_tx t1 s). eexists _, _, _, s5, v5, i4. split; [exact E1|exact E2|exists i2; exact (conj (hf_ino _ _ _ _ _ H2) (proj1 (rg_type _ _ _ (hf_reg _ _ _ _ _ H2))))|exact E3|exact E4|exact E5|exact O5|done|exact P5| | |].
  - rewrite C5, C4, C3, C2. done.
  - rewrite D5, D4. apply (only_same _ _ _ v3); [exact (ic_geom _ _ _ (hf_ok _ _ _ _ _ H3))| |exact (rg_file _ _ _ (proj2 (regular_lock _ _ _ _) (hf_reg _ _ _ _ _ H3)))|exact Sm5].
    destruct On3 as [A B C D]. cbn [fs_sb set_tx upd_ino set_inodes] in *. split; [exact A|exact B|exact C|lia].
  - intros jp Hj. unfold s5. cbn [set_tx ic_inode upd_ino set_inodes]. by rewrite !list_lookup_insert_ne.
Qed.
End held.
