(* ===== verification/FsStack.v ===== *)
(** * The file system over the log over the buffer cache

    The file system of Fs.v run on the real layers below it: the transactions
    of Log.v on the blocks of Bio.v.  A small image with one file is booted and
    a transaction is opened; it satisfies the hypotheses of the theorems on
    files, which are applied to it. *)

From S2P Require Import Prelude Params BlockDev Sleeplock Bio Tx Log LogStack Fs FsFile Dir Icache FsTrunc Ialloc DirSpec DirLink.

(** Sixty blocks: the superblock at 1, a log of thirty blocks at 2, eight
    inodes at 32, the free map at 33, data from 34 on; 34 and 35 are in use. *)
Definition sb60 : superblock :=
  {| sb_size := 60; sb_nblocks := 26; sb_ninodes := 8; sb_nlog := 30;
     sb_logstart := 2; sb_inodestart := 32; sb_bmapstart := 33 |}.
Definition sb60_block : list Z :=
  put32 (put32 (put32 (put32 (put32 (put32 (put32 blank 0 60) 4 26) 8 8) 12 30) 16 2) 20 32) 24 33.
Definition bitmap60 : list Z := splice 0 [255; 255; 255; 255; 15] blank.
Definition data60 : list Z := splice 0 [104; 105; 10] blank.

(** The file: inode 2, three bytes in block 34, without a name. *)
Definition ino60 : inode :=
  mkinode ROOTDEV 2 1 (mksl false 1 1 []) 1 T_FILE 0 0 0 3 (34 :: replicate 12 0).

(** The root directory: inode 1, in block 35, with the names . and .. *)
Definition dir60 : inode :=
  mkinode ROOTDEV 1 1 (mksl false 1 1 []) 1 T_DIR 0 0 1 32 (35 :: replicate 12 0).
Definition entries60 : list Z :=
  splice 0 (mkdirent 1 (46 :: replicate 13 0) ++ mkdirent 1 (46 :: 46 :: replicate 12 0)) blank.

Definition inodes60 : list Z := dinode_put (dinode_put blank (d_off 2) ino60) (d_off 1) dir60.

Definition image60 : list (list Z) :=
  [blank; sb60_block] ++ replicate 30 blank ++ [inodes60; bitmap60; data60; entries60] ++ replicate 24 blank.

Lemma image60_blocks : Forall (λ x, length x = Z.to_nat BSIZE) image60.
Proof.
  assert (E : forallb (λ x, (length x =? 512)%nat) image60 = true) by by vm_compute.
  apply Forall_forall. intros x Hx. rewrite forallb_forall in E.
  apply Nat.eqb_eq, E. by apply list_elem_of_In.
Qed.

Lemma image60_sb : sb_of_bytes sb60_block = sb60.
Proof. by vm_compute. Qed.

Lemma image60_boots me : restarts_to me 2 30 image60 image60.
Proof.
  apply (boot_ok me 2 30 image60 [] []).
  - apply image60_blocks.
  - exists sb60_block. rewrite image60_sb. done.
  - lia.
  - unfold LOGSIZE, MAXOPBLOCKS. lia.
  - change (length image60) with 60%nat. lia.
  - simpl. lia.
  - done.
  - intros b Hb. by apply not_elem_of_nil in Hb.
  - exists blank, [], []. split_and!; try done; by left.
Qed.

Section stack.
Context (me : Z).
#[local] Existing Instance bio_ops.
#[local] Existing Instance bio_spec.
Notation T := (lstate (D := bstate)).
#[local] Instance stack_ops : TxOps T := @log_ops bstate (bio_ops me).
#[local] Instance stack_spec : @TxSpec T stack_ops := @log_txspec bstate (bio_ops me) (bio_spec me) 2 30.

(** What the view of the booted image shows. *)
Record shows60 (v : bview) : Prop := {
  sh_len : length (v_disk v) = 60%nat;
  sh_held : v_held v = ∅;
  sh_pins : v_pins v = ∅;
  sh_sb : blk v 1 = sb60_block;
  sh_inodes : blk v 32 = inodes60;
  sh_map : blk v 33 = bitmap60;
  sh_data : blk v 34 = data60;
  sh_dir : blk v 35 = entries60 }.

Lemma image60_shows : ∃ t v, trepr t v 0 ∧ shows60 v.
Proof.
  destruct (image60_boots me) as (s0 & v0 & _ & L0 & Hc & He & Hp & Hd).
  pose proof (conj L0 Hc : @ltrepr bstate (bio_ops me) (bio_spec me) 2 30 s0 v0 0) as T0.
  assert (Hb : ∀ b d, 0 ≤ b → ¬ in_log 2 30 b → image60 !! Z.to_nat b = Some d → blk v0 b = d).
  { intros b d H0 Hnl Hi. unfold blk. by rewrite (proj2 (Hd b H0 Hnl)), Hi. }
  assert (Hlen : length (v_disk v0) = 60%nat).
  { pose proof (lr_repr _ _ _ _ _ L0) as R.
    pose proof (br_disk _ _ _ R : memdisk (dk s0) = v_disk v0) as E. rewrite <- E.
    assert (memdisk (dk s0) !! 59%nat = Some blank).
    { change 59%nat with (Z.to_nat 59). rewrite (proj1 (Hd 59 ltac:(lia) ltac:(unfold in_log; lia))). done. }
    assert (memdisk (dk s0) !! 60%nat = None).
    { change 60%nat with (Z.to_nat 60). rewrite (proj1 (Hd 60 ltac:(lia) ltac:(unfold in_log; lia))). done. }
    pose proof (lookup_lt_Some _ _ _ H). apply lookup_ge_None in H0. lia. }
  exists s0, v0. split; [exact T0|]. split; try done; apply Hb; (done || unfold in_log; lia).
Qed.

Lemma image60_opens : ∃ t v, trepr t v 1 ∧ shows60 v.
Proof.
  destruct image60_shows as (t & v & R & S). destruct (tx_begin_op_spec t v 0 R) as (t1 & _ & R1).
  { rewrite (sh_pins _ S), size_empty. unfold LOGSIZE, MAXOPBLOCKS. lia. }
  by exists t1, v.
Qed.

Definition fs60 (t : T) : fsstate (T := T) := mkfs sb60 false (ino60 :: replicate 49 inode0) t.

Lemma geom60 : geom sb60 60.
Proof.
  split; simpl; try (unfold datastart, IBLOCK; simpl; lia).
  - unfold IBLOCK, IPB, BSIZE, DINODESZ. simpl. split; [lia|]. intros i Hi. lia.
  - by vm_compute.
  - unfold in_log. lia.
  - intros n Hn. unfold in_log. lia.
Qed.

Lemma used60 v b : shows60 v → 0 ≤ b < 60 → used sb60 v b = bit_test bitmap60 b.
Proof.
  intros S Hb. unfold used, BBLOCK, BPB, BSIZE. simpl sb_bmapstart.
  replace (b / (512 * 8) + 33) with 33 by lia. rewrite Z.mod_small by lia. by rewrite (sh_map _ S).
Qed.

Lemma meta60 v : shows60 v → meta_used sb60 v.
Proof.
  intros S b Hb. change (datastart sb60) with 34 in Hb. rewrite used60 by (done || lia).
  assert (E : forallb (λ b, bit_test bitmap60 b) (seqZ 0 34) = true) by by vm_compute.
  rewrite forallb_forall in E. apply E. apply list_elem_of_In, elem_of_seqZ. lia.
Qed.

Lemma nfree60 v : shows60 v → nfree sb60 v = 24%nat.
Proof.
  intros S. unfold nfree. simpl sb_size.
  rewrite (filter_iff_in _ (λ b, bit_test bitmap60 b = false)); [by vm_compute|].
  intros b Hb. apply elem_of_seqZ in Hb. by rewrite used60 by (done || lia).
Qed.

(** A file with one block. *)
Section one_block.
Context (i : inode) (a : Z) (Ha : i_addrs i = a :: replicate 12 0).

Lemma iaddr_one k : iaddr i k = if bool_decide (Z.to_nat k = 0%nat) then a else 0.
Proof.
  unfold iaddr. rewrite Ha. change (a :: replicate 12 0) with ([a] ++ replicate 12 0).
  destruct (Z.to_nat k) as [|n]; [done|]. rewrite bool_decide_false by done.
  rewrite lookup_app_r by (simpl; lia). simpl length. destruct (decide (S n - 1 < 12)%nat).
  - by rewrite lookup_replicate_2.
  - by rewrite lookup_ge_None_2 by (rewrite length_replicate; lia).
Qed.

Lemma faddr_one v bn : 0 ≤ bn → faddr v i bn = if bool_decide (bn = 0) then a else 0.
Proof.
  intros Hb. unfold faddr. rewrite !iaddr_one. simpl (Z.to_nat NDIRECT).
  rewrite (bool_decide_false (12%nat = 0%nat)) by done. simpl. destruct (bn <? NDIRECT) eqn:E.
  - erewrite bool_decide_ext; [done|]. lia.
  - apply Z.ltb_ge in E. unfold NDIRECT in E. by rewrite bool_decide_false by lia.
Qed.

Lemma file_one v : good sb60 v a → i_dev i = ROOTDEV → 0 ≤ i_size i ≤ BSIZE → ifile sb60 v i ∧ no_holes v i.
Proof.
  intros Hg Hd Hs. assert (a ≠ 0) by (destruct Hg; change (datastart sb60) with 34 in *; lia). split; [split|].
  - done.
  - by rewrite Ha.
  - left. by rewrite iaddr_one.
  - intros bn [Hb _]. rewrite faddr_one by done. case_bool_decide; [by right|by left].
  - intros x y [Hx _] [Hy _]. rewrite !faddr_one by done. do 2 case_bool_decide; simplify_eq; done.
  - intros x [Hx _]. rewrite faddr_one, iaddr_one by done. case_bool_decide; done.
  - intros bn Hb Hlt. unfold BSIZE in *. rewrite faddr_one by done. by rewrite bool_decide_true by lia.
Qed.
End one_block.

Definition faddr60 v bn := faddr_one ino60 34 eq_refl v bn.

Lemma good60 v b : shows60 v → 34 ≤ b ≤ 35 → good sb60 v b.
Proof.
  intros S Hb. split; [change (datastart sb60) with 34; simpl; lia|]. rewrite used60 by (done || lia).
  assert (b = 34 ∨ b = 35) as [-> | ->] by lia; by vm_compute.
Qed.

Lemma file60 v : shows60 v → ifile sb60 v ino60 ∧ no_holes v ino60.
Proof. intros S. apply (file_one ino60 34); try done. by apply good60. Qed.

Lemma dirfile60 v : shows60 v → ifile sb60 v dir60 ∧ no_holes v dir60.
Proof. intros S. apply (file_one dir60 35); try done. by apply good60. Qed.

Lemma contents60 v : shows60 v → contents v ino60 = [104; 105; 10].
Proof.
  intros S. unfold contents, fbytes, fbyte. change (seqZ 0 (i_size ino60)) with [0; 1; 2].
  cbn [fmap list_fmap]. rewrite !faddr60 by done.
  change (bool_decide (0 / BSIZE = 0)) with true. change (bool_decide (1 / BSIZE = 0)) with true.
  change (bool_decide (2 / BSIZE = 0)) with true. cbn iota. rewrite (sh_data _ S). by vm_compute.
Qed.

Lemma fsok60 t v : trepr t v 1 → shows60 v → fsok (fs60 t) v 1 0 ino60.
Proof.
  intros R S. split; simpl.
  - exact R.
  - rewrite (sh_len _ S). apply geom60.
  - by apply meta60.
  - done.
  - by apply file60.
  - apply S.
Qed.

Lemma budget60 k v : shows60 v → (k ≤ 28)%nat → budget k v 1.
Proof.
  intros S Hk. split; [lia|]. unfold room. rewrite (sh_pins _ S), (sh_held _ S), size_empty, map_size_empty.
  split; [|unfold NBUF, MAXOPBLOCKS; lia]. vm_compute tx_max. lia.
Qed.
End stack.

(** ** The theorems on files at the image *)

Notation T60 := (lstate (D := bstate)).
#[local] Instance ops1 : TxOps T60 := stack_ops 1.
#[local] Instance spec1 : @TxSpec T60 ops1 := stack_spec 1.
Definition nodev (T : Type) `{!TxOps T} : Z → option (device (T := T)) := λ _, None.

(** Six hundred bytes from the second byte on: they reach a second block. *)
Definition src600 : list Z := replicate 600 120.

Lemma src600_ok v : shows60 v →
  @budget T60 ops1 spec1 (Z.to_nat (6 * nblks 1 (Z.of_nat (length src600)) + 1)) v 1 ∧
  2 * nblks 1 (Z.of_nat (length src600)) ≤ Z.of_nat (nfree sb60 v).
Proof.
  intros S. change (nblks 1 (Z.of_nat (length src600))) with 2. rewrite nfree60 by done.
  split; [|lia]. apply budget60; [done|]. simpl. lia.
Qed.

Lemma writei_correct_witness :
  ∃ t v, @trepr T60 ops1 spec1 t v 1 ∧ shows60 v ∧
  ∃ s' v' i', writei (nodev T60) 0 src600 1 600 (fs60 t) = Ok 600 s' ∧ i_size i' = 601 ∧
    contents v' i' = splice 1 src600 (contents v ino60).
Proof.
  destruct (image60_opens 1) as (t & v & R & S). exists t, v. split; [exact R|]. split; [exact S|].
  destruct (src600_ok v S) as [Hb Hn]. destruct (file60 v S) as [_ Hh].
  destruct (@writei_correct T60 ops1 spec1 (nodev T60) (fs60 t) v 1 0 ino60 1 src600)
    as (s' & v' & i' & E & _ & _ & Hs & Hc & _).
  - by apply fsok60.
  - exact Hh.
  - done.
  - simpl. lia.
  - simpl. lia.
  - done.
  - done.
  - exact Hb.
  - exact Hn.
  - exists s', v', i'. split; [exact E|]. split; [|exact Hc]. rewrite Hs. by vm_compute.
Defined.

Lemma write_read_back_witness :
  ∃ t v, @trepr T60 ops1 spec1 t v 1 ∧ shows60 v ∧
  ∃ s' t', writei (nodev T60) 0 src600 1 600 (fs60 t) = Ok 600 s' ∧
    readi (nodev T60) 0 1 600 s' = Ok (600, src600) (set_tx t' s').
Proof.
  destruct (image60_opens 1) as (t & v & R & S). exists t, v. split; [exact R|]. split; [exact S|].
  destruct (src600_ok v S) as [Hb Hn]. destruct (file60 v S) as [_ Hh].
  apply (@write_read_back T60 ops1 spec1 (nodev T60) (fs60 t) v 1 0 ino60 1 src600).
  - by apply fsok60.
  - exact Hh.
  - done.
  - simpl. lia.
  - simpl. lia.
  - done.
  - done.
  - exact Hb.
  - exact Hn.
Defined.

Lemma readi_correct_witness :
  ∃ t v, @trepr T60 ops1 spec1 t v 1 ∧ shows60 v ∧
  ∃ t', readi (nodev T60) 0 1 5 (fs60 t) = Ok (2, [105; 10]) (set_tx t' (fs60 t)).
Proof.
  destruct (image60_opens 1) as (t & v & R & S). exists t, v. split; [exact R|]. split; [exact S|].
  destruct (@readi_correct T60 ops1 spec1 (nodev T60) (fs60 t) v 1 0 ino60 1 5)
    as (t' & E & _).
  - by apply fsok60.
  - by apply file60.
  - done.
  - simpl. lia.
  - lia.
  - lia.
  - done.
  - exists t'. rewrite E, (contents60 v S). by vm_compute.
Defined.

Lemma held_used60 v : shows60 v → held_used sb60 v.
Proof. intros S h n. by rewrite (sh_held _ S), lookup_empty. Qed.

Lemma balloc_correct_witness :
  ∃ t v, @trepr T60 ops1 spec1 t v 1 ∧ shows60 v ∧
  ∃ b t' v', balloc ROOTDEV (fs60 t) = Ok b (set_tx t' (fs60 t)) ∧
    used sb60 v b = false ∧ used sb60 v' b = true.
Proof.
  destruct (image60_opens 1) as (t & v & R & S). exists t, v. split; [exact R|]. split; [exact S|].
  destruct (@balloc_correct T60 ops1 spec1 (fs60 t) v 1)
    as (b & t' & v' & E & _ & Hb & Hu & _ & Hall & _).
  - split; simpl.
    + rewrite (sh_len _ S). apply geom60.
    + by apply meta60.
    + by apply held_used60.
    + apply budget60; [done|lia].
  - exact R.
  - exists 36. split; [simpl; lia|]. simpl fs_sb. rewrite used60 by (done || lia). by vm_compute.
  - exists b, t', v'. split; [exact E|]. split; [exact Hu|].
    change (fs_sb (fs60 t)) with sb60 in *. change (datastart sb60) with 34 in Hb.
    rewrite Hall by (simpl in *; lia). by rewrite bool_decide_true.
Defined.

Lemma bfree_correct_witness :
  ∃ t v, @trepr T60 ops1 spec1 t v 1 ∧ shows60 v ∧
  ∃ t' v', bfree ROOTDEV 34 (fs60 t) = Ok tt (set_tx t' (fs60 t)) ∧ used sb60 v' 34 = false.
Proof.
  destruct (image60_opens 1) as (t & v & R & S). exists t, v. split; [exact R|]. split; [exact S|].
  assert (Hu : used sb60 v 34 = true) by (rewrite used60 by (done || lia); by vm_compute).
  pose proof (@bfree_correct T60 ops1 spec1 (fs60 t) v 1 34) as H.
  change (fs_sb (fs60 t)) with sb60 in H. rewrite Hu in H. destruct H as (t' & v' & E & _ & Hall).
  - rewrite (sh_len _ S). apply geom60.
  - by apply held_used60.
  - apply budget60; [done|lia].
  - rewrite (sh_sb _ S). apply image60_sb.
  - exact R.
  - simpl. lia.
  - exists t', v'. split; [exact E|]. rewrite Hall by (simpl; lia). by rewrite bool_decide_true.
Defined.

(** ** The last reference to the file *)

Definition open60 : inode := set_ilock (mksl false 0 0 []) ino60.
Definition fs60u (t : T60) : fsstate (T := T60) := mkfs sb60 false (open60 :: replicate 49 inode0) t.

Lemma cache60 t ip i : ic_inode (fs60u t) !! ip = Some i → ip = 0%nat ∧ i = open60 ∨ i = inode0.
Proof.
  destruct ip as [|ip]; [intros [= <-]; by left|]. change (ic_inode (fs60u t) !! S ip) with (replicate 49 inode0 !! ip).
  intros [-> _]%lookup_replicate. by right.
Qed.

Lemma icok60 t v o : @trepr T60 ops1 spec1 t v o → shows60 v → @icok T60 ops1 spec1 (fs60u t) v o.
Proof.
  intros R S. split; try done.
  - rewrite (sh_len _ S). apply geom60.
  - apply S.
  - intros ip i [[_ ->]| ->]%cache60; split; simpl; try lia; auto; try done. intros _ _ _.
    unfold read_in. change (IBLOCK 2 sb60) with 32. rewrite (sh_inodes _ S). by vm_compute.
  - intros ip ip' i i' [[-> _]| ->]%cache60 [[-> _]| ->]%cache60; simpl; (done || lia).
Qed.

Lemma iput_last_witness :
  ∃ t v, @trepr T60 ops1 spec1 t v 1 ∧ shows60 v ∧ used sb60 v 34 = true ∧
  ∃ s' v', iput 1 0 (fs60u t) = Ok tt s' ∧ used sb60 v' 34 = false ∧ refs (ic_inode s') 2 = 0.
Proof.
  destruct (image60_opens 1) as (t & v & R & S). exists t, v. split; [exact R|]. split; [exact S|].
  assert (Hu : used sb60 v 34 = true) by (rewrite used60 by (done || lia); by vm_compute). split; [exact Hu|].
  destruct (@iput_last T60 ops1 spec1 1 (fs60u t) v 1 0 open60) as (s' & v' & E & _ & Hr & Hb & _).
  - by apply icok60.
  - done.
  - done.
  - done.
  - done.
  - done.
  - rewrite (sh_sb _ S). apply image60_sb.
  - split; [lia|]. rewrite (sh_pins _ S). vm_compute. lia.
  - destruct (file60 v S) as [F _]. by apply (ifile_same sb60 v ino60).
  - exists s', v'. split; [exact E|]. split.
    + apply not_true_iff_false. rewrite Hb by (simpl; lia). intros [_ Ho]. apply Ho. split; [done|]. right. exists 0. split; [by vm_compute|].
      exact (eq_sym (faddr60 v 0 ltac:(lia))).
    + rewrite Hr. by vm_compute.
Defined.

(** ** A new inode, and a new name in the root directory *)

Lemma refs60 t m : m ≠ 2 → refs (ic_inode (fs60u t)) m = 0.
Proof.
  intros Hm. change (ic_inode (fs60u t)) with (open60 :: replicate 49 inode0). cbn [refs foldr].
  assert (E : ref1 m open60 = 0) by (unfold ref1; change (i_inum open60) with 2; destruct (Z.eqb_spec 2 m); [congruence|done]). rewrite E.
  assert (Hr : ∀ k, foldr (λ i acc, ref1 m i + acc) 0 (replicate k inode0) = 0); [|by rewrite Hr].
  induction k as [|k IH]; [done|]. simpl. rewrite IH. unfold ref1. simpl. by case_match.
Qed.

Lemma type60 v m : shows60 v → 0 ≤ m < 8 → type_of sb60 v m = d_type inodes60 (d_off m).
Proof.
  intros S Hm. unfold type_of, read_in. assert (IBLOCK m sb60 = 32) as -> by (unfold IBLOCK; change IPB with 8; simpl; lia).
  by rewrite (sh_inodes _ S).
Qed.

Lemma ialloc_correct_witness :
  ∃ t v, @trepr T60 ops1 spec1 t v 1 ∧ shows60 v ∧
  ∃ ip i s', ialloc ROOTDEV T_FILE (fs60u t) = Ok ip s' ∧ ic_inode s' !! ip = Some i ∧ i_inum i = 3.
Proof.
  destruct (image60_opens 1) as (t & v & R & S). exists t, v. split; [exact R|]. split; [exact S|].
  destruct (@ialloc_correct T60 ops1 spec1 (fs60u t) v 1 T_FILE) as (n & ip & i & s' & v' & E & _ & Hn & Hz & Hmin & Hi & Hin & _).
  - by apply icok60.
  - apply budget60; [done|lia].
  - by vm_compute.
  - vm_compute. lia.
  - intros m Hm Hz. apply refs60. intros ->. rewrite type60 in Hz by (done || lia). by vm_compute in Hz.
  - exists 3. split; [simpl; lia|]. rewrite type60 by (done || lia). by vm_compute.
  - exists ip, i, s'. split; [exact E|]. split; [exact Hi|]. change (fs_sb (fs60u t)) with sb60 in *. change (sb_ninodes sb60) with 8 in Hn.
    assert (n = 3 ∨ n < 3 ∨ 3 < n) as [->|[Hlt|Hlt]] by lia; [done| |].
    + exfalso. assert (n = 1 ∨ n = 2) as [-> | ->] by lia; rewrite type60 in Hz by (done || lia); by vm_compute in Hz.
    + exfalso. apply (Hmin 3); [lia|]. rewrite type60 by (done || lia). by vm_compute.
Defined.

Definition fs60d (t : T60) : fsstate (T := T60) := mkfs sb60 false (dir60 :: replicate 49 inode0) t.

Lemma cache60d t ip i : ic_inode (fs60d t) !! ip = Some i → ip = 0%nat ∧ i = dir60 ∨ i = inode0.
Proof.
  destruct ip as [|ip]; [intros [= <-]; by left|]. change (ic_inode (fs60d t) !! S ip) with (replicate 49 inode0 !! ip).
  intros [-> _]%lookup_replicate. by right.
Qed.

Lemma icok60d t v : @trepr T60 ops1 spec1 t v 1 → shows60 v → @icok T60 ops1 spec1 (fs60d t) v 1.
Proof.
  intros R S. split; try done.
  - rewrite (sh_len _ S). apply geom60.
  - apply S.
  - intros ip i [[_ ->]| ->]%cache60d; split; simpl; try lia; auto; try done.
  - intros ip ip' i i' [[-> _]| ->]%cache60d [[-> _]| ->]%cache60d; simpl; (done || lia).
Qed.

Lemma contents60d v : shows60 v → contents v dir60 = slice 0 32 entries60.
Proof.
  intros S. unfold contents. rewrite <- (fbytes_block (nodev T60)); try done; rewrite faddr_one with (a := 35) by done; simpl.
  - by rewrite (sh_dir _ S).
  - by rewrite (sh_dir _ S).
Qed.

(** The name a, for the file. *)
Lemma dirlink_adds_witness :
  ∃ t v, @trepr T60 ops1 spec1 t v 1 ∧ shows60 v ∧
  ∃ s' v' i', dirlink 1 (nodev T60) 0 [97; 0] 2 (fs60d t) = Ok 0 s' ∧ ic_inode s' !! 0%nat = Some i' ∧
    dfind [97] (ents (contents v' i')) 0 = Some (2, 2).
Proof.
  destruct (image60_opens 1) as (t & v & R & S). exists t, v. split; [exact R|]. split; [exact S|].
  destruct (@dirlink_adds T60 ops1 spec1 1 (nodev T60) (fs60d t) v 1 0 dir60 [97; 0] 2)
    as (s' & v' & i' & E & _ & Hi & _ & _ & [Hk _] & _).
  - by apply icok60d.
  - done.
  - done.
  - done.
  - unfold read_in. change (IBLOCK (i_inum dir60) (fs_sb (fs60d t))) with 32. rewrite (sh_inodes _ S). by vm_compute.
  - destruct (dirfile60 v S) as [F Hh]. by split.
  - by apply meta60.
  - by vm_compute.
  - apply budget60; [done|lia].
  - change (fs_sb (fs60d t)) with sb60. rewrite nfree60 by done. lia.
  - right. by left.
  - lia.
  - rewrite contents60d by done. by vm_compute.
  - exists s', v', i'. split; [exact E|]. split; [exact Hi|]. rewrite contents60d in Hk by done. exact Hk.
Defined.
