(* ===== verification/Spinlock.v ===== *)
(** * Spin locks: spinlock.c

    The state is what the code reads and writes: for every CPU the interrupt
    flag, the nesting depth [ncli] and the saved flag [intena], and the lock
    with its word and its owner.  [mycpu] is the CPU that runs the code.  The
    functions are run by one CPU; [step] interleaves several CPUs that acquire
    and release one lock, with the atomic exchange and each store to the lock
    as a step of its own.  The theorems are mutual exclusion, that a CPU in the
    critical section has interrupts off, and that [holding] tells the owner. *)

From S2P Require Import Prelude Params.

Record cpu : Type := mkcpu { c_if : bool; c_ncli : Z; c_intena : bool }.

Record spinlock : Type := mkslock { locked : Z; lk_cpu : option nat }.

Record slstate : Type := mksls { cpus : list cpu; lk : spinlock }.

Definition set_cpus (l : list cpu) (s : slstate) : slstate := mksls l (lk s).
Definition set_lk (l : spinlock) (s : slstate) : slstate := mksls (cpus s) l.

Definition initlock : spinlock := mkslock 0 None.

Section cpu.
(** The CPU that runs the code. *)
Context (mycpu : nat).

Definition this_cpu : M slstate cpu := s ← get; lift_opt (cpus s !! mycpu).
Definition set_cpu (f : cpu → cpu) : M slstate unit :=
  c ← this_cpu; modify (λ s, set_cpus (<[mycpu := f c]> (cpus s)) s).

(** [readeflags() & FL_IF], [cli] and [sti] *)
Definition read_if : M slstate bool := c ← this_cpu; mret (c_if c).
Definition cli : M slstate unit := set_cpu (λ c, mkcpu false (c_ncli c) (c_intena c)).
Definition sti : M slstate unit := set_cpu (λ c, mkcpu true (c_ncli c) (c_intena c)).

Definition pushcli : M slstate unit :=
  eflags ← read_if;
  cli;;
  c ← this_cpu;
  (if c_ncli c =? 0 then set_cpu (λ c, mkcpu (c_if c) (c_ncli c) eflags) else mret tt);;
  set_cpu (λ c, mkcpu (c_if c) (c_ncli c + 1) (c_intena c)).

Definition popcli : M slstate unit :=
  i ← read_if;
  if (i : bool) then panic "popcli - interruptible" else
  set_cpu (λ c, mkcpu (c_if c) (c_ncli c - 1) (c_intena c));;
  c ← this_cpu;
  if c_ncli c <? 0 then panic "popcli" else
  if (c_ncli c =? 0) && c_intena c then sti else mret tt.

Definition holding : M slstate bool :=
  pushcli;;
  l ← gets lk;
  let r := negb (locked l =? 0) && bool_decide (lk_cpu l = Some mycpu) in
  popcli;;
  mret r.

(** The exchange: it returns the old value of the word. *)
Definition xchg1 : M slstate Z :=
  l ← gets lk;
  modify (set_lk (mkslock 1 (lk_cpu l)));;
  mret (locked l).

(** [acquire] up to the loop, one turn of the loop, and the rest. *)
Definition acquire_begin : M slstate unit :=
  pushcli;;
  h ← holding;
  if (h : bool) then panic "acquire" else mret tt.
Definition acquire_end : M slstate unit :=
  modify (λ s, set_lk (mkslock (locked (lk s)) (Some mycpu)) s).

(** The loop spins while the exchange returns 1; with one CPU running, a lock
    that is taken stays taken, and the loop does not end. *)
Fixpoint acquire_loop (fuel : nat) : M slstate unit :=
  match fuel with
  | O => no_fuel
  | S fuel' => x ← xchg1; if negb (x =? 0) then acquire_loop fuel' else mret tt
  end.

Definition acquire (fuel : nat) : M slstate unit :=
  acquire_begin;;
  acquire_loop fuel;;
  acquire_end.

(** [release]: the check and the store to [cpu], then the store to the word. *)
Definition release_begin : M slstate unit :=
  h ← holding;
  if negb h then panic "release" else
  modify (λ s, set_lk (mkslock (locked (lk s)) None) s).
Definition release_end : M slstate unit :=
  modify (λ s, set_lk (mkslock 0 (lk_cpu (lk s))) s);;
  popcli.

Definition release : M slstate unit :=
  release_begin;;
  release_end.
End cpu.

(** ** getcallerpcs

    [word a] is the word of memory at address [a]. *)

Fixpoint follow_ebp (word : Z → Z) (n : nat) (ebp : Z) : list Z :=
  match n with
  | O => []
  | S n' =>
      if (ebp =? 0) || (ebp <? KERNBASE) || (ebp =? 0xffffffff) then replicate n 0
      else word (u32 (ebp + 4)) :: follow_ebp word n' (word ebp)
  end.

Definition getcallerpcs (word : Z → Z) (v : Z) : list Z :=
  follow_ebp word 10 (u32 (v - 8)).

(** ** Several CPUs and one lock *)

(** Where a CPU is: outside, spinning, past the exchange, in the critical
    section, and between the two stores of [release]. *)
Inductive pc : Type := Out | Spin | Got | In | Rel.

#[global] Instance pc_eq_dec : EqDecision pc.
Proof. solve_decision. Defined.

Record mstate : Type := mkms { ms : slstate; pcs : list pc }.

(** One step of CPU [c]: the piece of code it runs, and where it is next. *)
Inductive step : mstate → mstate → Prop :=
| step_begin c s s' p :
    p !! c = Some Out → acquire_begin c s = Ok tt s' →
    step (mkms s p) (mkms s' (<[c := Spin]> p))
| step_spin c s s' p x :
    p !! c = Some Spin → xchg1 s = Ok x s' → x ≠ 0 →
    step (mkms s p) (mkms s' p)
| step_xchg c s s' p :
    p !! c = Some Spin → xchg1 s = Ok 0 s' →
    step (mkms s p) (mkms s' (<[c := Got]> p))
| step_end c s s' p :
    p !! c = Some Got → acquire_end c s = Ok tt s' →
    step (mkms s p) (mkms s' (<[c := In]> p))
| step_rel c s s' p :
    p !! c = Some In → release_begin c s = Ok tt s' →
    step (mkms s p) (mkms s' (<[c := Rel]> p))
| step_out c s s' p :
    p !! c = Some Rel → release_end c s = Ok tt s' →
    step (mkms s p) (mkms s' (<[c := Out]> p)).

Definition cpu0 : cpu := mkcpu true 0 false.
Definition start (n : nat) : mstate := mkms (mksls (replicate n cpu0) initlock) (replicate n Out).

Inductive reach (n : nat) : mstate → Prop :=
| reach_start : reach n (start n)
| reach_step m m' : reach n m → step m m' → reach n m'.

(** ** pushcli and popcli are matched *)

Definition pushed (k : cpu) : cpu :=
  mkcpu false (c_ncli k + 1) (if c_ncli k =? 0 then c_if k else c_intena k).
Definition popped (k : cpu) : cpu :=
  mkcpu ((c_ncli k - 1 =? 0) && c_intena k) (c_ncli k - 1) (c_intena k).

Lemma set_cpu_ok c s k f : cpus s !! c = Some k →
  set_cpu c f s = Ok tt (set_cpus (<[c := f k]> (cpus s)) s).
Proof. intros E. unfold set_cpu, this_cpu, get, mbind, M_bind. by rewrite E. Qed.

Lemma this_cpu_ok c s k : cpus s !! c = Some k → this_cpu c s = Ok k s.
Proof. intros E. unfold this_cpu, get, mbind, M_bind. by rewrite E. Qed.

Lemma read_if_ok c s k : cpus s !! c = Some k → read_if c s = Ok (c_if k) s.
Proof. intros E. unfold read_if. by mstep (this_cpu_ok c s k E). Qed.

Lemma cpus_lookup c s k k' : cpus s !! c = Some k → cpus (set_cpus (<[c := k']> (cpus s)) s) !! c = Some k'.
Proof. intros E. simpl. apply list_lookup_insert_eq. by eapply lookup_lt_Some. Qed.

Lemma set_cpus_twice c s k k' :
  set_cpus (<[c := k']> (cpus (set_cpus (<[c := k]> (cpus s)) s))) (set_cpus (<[c := k]> (cpus s)) s)
  = set_cpus (<[c := k']> (cpus s)) s.
Proof. unfold set_cpus. simpl. by rewrite list_insert_insert_eq. Qed.

Lemma pushcli_ok c s k : cpus s !! c = Some k →
  pushcli c s = Ok tt (set_cpus (<[c := pushed k]> (cpus s)) s).
Proof.
  intros E. unfold pushcli. mstep (read_if_ok c s k E). unfold cli.
  mstep (set_cpu_ok c s k (λ c, mkcpu false (c_ncli c) (c_intena c)) E).
  set (k1 := mkcpu false _ _). pose proof (cpus_lookup c s k k1 E) as E1.
  mstep (this_cpu_ok c _ _ E1). unfold pushed. simpl. destruct (Z.eqb_spec (c_ncli k) 0) as [H0|H0].
  - mstep (set_cpu_ok c _ _ (λ c0, mkcpu (c_if c0) (c_ncli c0) (c_if k)) E1). rewrite set_cpus_twice.
    rewrite (set_cpu_ok c _ _ _ (cpus_lookup c s k _ E)), set_cpus_twice. done.
  - rewrite bind_ret_l, (set_cpu_ok c _ _ _ E1), set_cpus_twice. done.
Qed.

Lemma popcli_ok c s k : cpus s !! c = Some k → c_if k = false → 1 ≤ c_ncli k →
  popcli c s = Ok tt (set_cpus (<[c := popped k]> (cpus s)) s).
Proof.
  intros E Hif Hn. unfold popcli. mstep (read_if_ok c s k E). rewrite Hif.
  mstep (set_cpu_ok c s k (λ c, mkcpu (c_if c) (c_ncli c - 1) (c_intena c)) E).
  set (k1 := mkcpu (c_if k) _ _). pose proof (cpus_lookup c s k k1 E) as E1.
  mstep (this_cpu_ok c _ _ E1). unfold popped. simpl.
  destruct (Z.ltb_spec (c_ncli k - 1) 0); [lia|]. destruct ((c_ncli k - 1 =? 0) && c_intena k) eqn:Eb.
  - unfold sti. by rewrite (set_cpu_ok c _ _ _ E1), set_cpus_twice.
  - unfold mret, M_ret, k1. by rewrite Hif.
Qed.

(** A [popcli] undoes a [pushcli], whatever the interrupt flag was. *)
Lemma popped_pushed k : 0 ≤ c_ncli k → (0 < c_ncli k → c_if k = false) →
  c_if (popped (pushed k)) = c_if k ∧ c_ncli (popped (pushed k)) = c_ncli k.
Proof.
  intros Hn Hi. unfold popped, pushed. simpl. split; [|lia].
  replace (c_ncli k + 1 - 1) with (c_ncli k) by lia.
  destruct (Z.eqb_spec (c_ncli k) 0); simpl; [done|]. symmetry. apply Hi. lia.
Qed.

(** [holding] called with interrupts off: it leaves the state as it was. *)
Lemma holding_ok c s k : cpus s !! c = Some k → c_if k = false → 1 ≤ c_ncli k →
  holding c s = Ok (negb (locked (lk s) =? 0) && bool_decide (lk_cpu (lk s) = Some c)) s.
Proof.
  intros E Hi Hn. unfold holding. mstep (pushcli_ok c s k E). rewrite bind_gets.
  mstep (popcli_ok c _ _ (cpus_lookup c s k (pushed k) E) eq_refl ltac:(simpl; lia)).
  rewrite set_cpus_twice. unfold mret, M_ret. simpl. f_equal.
  assert (popped (pushed k) = k) as ->.
  { unfold popped, pushed. simpl. replace (c_ncli k + 1 - 1) with (c_ncli k) by lia.
    destruct (Z.eqb_spec (c_ncli k) 0); [lia|]. destruct k. simpl in *. by subst. }
  unfold set_cpus. rewrite list_insert_id by done. by destruct s.
Qed.

(** ** Mutual exclusion *)

Definition busy (p : pc) : bool := match p with Got | In | Rel => true | _ => false end.
Definition cpu_off : cpu := mkcpu false 1 true.

(** Holds in every reachable state. *)
Record inv (m : mstate) : Prop := {
  inv_out : ∀ c, pcs m !! c = Some Out →
    ∃ k, cpus (ms m) !! c = Some k ∧ c_if k = true ∧ c_ncli k = 0;
  inv_off : ∀ c p, pcs m !! c = Some p → p ≠ Out → cpus (ms m) !! c = Some cpu_off;
  inv_excl : ∀ c c' p p', pcs m !! c = Some p → pcs m !! c' = Some p' →
    busy p = true → busy p' = true → c = c';
  inv_locked : locked (lk (ms m)) = 0 ∨ locked (lk (ms m)) = 1;
  inv_free : locked (lk (ms m)) = 0 → ∀ c p, pcs m !! c = Some p → busy p = false;
  inv_owner : ∀ c, lk_cpu (lk (ms m)) = Some c ↔ pcs m !! c = Some In }.

Lemma inv_start n : inv (start n).
Proof.
  split; simpl.
  - intros c Hc. apply lookup_replicate in Hc as [_ Hc]. exists cpu0. split; [|done].
    by apply lookup_replicate.
  - intros c p Hc Hne. apply lookup_replicate in Hc as [-> _]. done.
  - intros c c' p p' Hc _ Hb. apply lookup_replicate in Hc as [-> _]. done.
  - by left.
  - intros _ c p Hc. by apply lookup_replicate in Hc as [-> _].
  - intros c. split; [done|]. intros Hc. by apply lookup_replicate in Hc as [? _].
Qed.

(** Updating where CPU [c] is, when it is not in the critical section after. *)
Ltac pc_cases c c' :=
  let H := fresh in
  destruct (decide (c' = c)) as [->|H];
  [rewrite ?list_lookup_insert_eq in * by (by eapply lookup_lt_Some)
  |rewrite ?list_lookup_insert_ne in * by congruence].

Lemma acquire_begin_ok c s k s' : cpus s !! c = Some k → c_if k = true → c_ncli k = 0 →
  acquire_begin c s = Ok tt s' →
  s' = set_cpus (<[c := cpu_off]> (cpus s)) s ∧ (locked (lk s) = 0 ∨ lk_cpu (lk s) ≠ Some c).
Proof.
  intros E Hi Hn. unfold acquire_begin. mstep (pushcli_ok c s k E).
  assert (pushed k = cpu_off) as -> by (unfold pushed, cpu_off; by rewrite Hn, Hi).
  pose proof (cpus_lookup c s k cpu_off E) as E1.
  mstep (holding_ok c _ cpu_off E1 eq_refl ltac:(done)). simpl.
  destruct (Z.eqb_spec (locked (lk s)) 0); simpl; [intros [= <-]; auto|].
  destruct (bool_decide_reflect (lk_cpu (lk s) = Some c)); [done|]. intros [= <-]. auto.
Qed.

Lemma release_begin_ok c s s' : cpus s !! c = Some cpu_off → release_begin c s = Ok tt s' →
  s' = set_lk (mkslock (locked (lk s)) None) s ∧ lk_cpu (lk s) = Some c.
Proof.
  intros E. unfold release_begin. mstep (holding_ok c s cpu_off E eq_refl ltac:(done)).
  destruct (negb (locked (lk s) =? 0)); [|done]. simpl.
  destruct (bool_decide_reflect (lk_cpu (lk s) = Some c)); [|done]. simpl. by intros [= <-].
Qed.

Lemma release_end_ok c s : cpus s !! c = Some cpu_off →
  release_end c s = Ok tt (mksls (<[c := mkcpu true 0 true]> (cpus s)) (mkslock 0 (lk_cpu (lk s)))).
Proof.
  intros E. unfold release_end. rewrite bind_modify.
  rewrite (popcli_ok c (set_lk (mkslock 0 (lk_cpu (lk s))) s) cpu_off); done.
Qed.

Lemma inv_step m m' : inv m → step m m' → inv m'.
Proof.
  intros [Iout Ioff Iex Il Ifr Iow] H.
  destruct H as [c s s' p Hc E|c s s' p x Hc E Hx|c s s' p Hc E|c s s' p Hc E|c s s' p Hc E|c s s' p Hc E]; simpl in *.
  - destruct (Iout c Hc) as (k & Hk & Hif & Hn).
    destruct (acquire_begin_ok c s k s' Hk Hif Hn E) as [-> Hno]. split; simpl; try done.
    + intros c' Hc'. pc_cases c c'; [done|]. by apply Iout.
    + intros c' q Hc' Hq. pc_cases c c'; [done|by eapply Ioff].
    + intros c1 c2 p1 p2 H1 H2 Hb1 Hb2. pc_cases c c1; [by simplify_eq|]. pc_cases c c2; [by simplify_eq|].
      by eapply Iex.
    + intros Hl c' q Hc'. pc_cases c c'; [by simplify_eq|]. by eapply Ifr.
    + intros c'. pc_cases c c'; [|apply Iow]. split; [|done]. rewrite Iow. congruence.
  - unfold xchg1 in E. rewrite bind_gets, bind_modify in E. injection E as <- <-.
    destruct s as [cs [l o]]. simpl in *. assert (l = 1) as -> by lia. by split; simpl.
  - unfold xchg1 in E. rewrite bind_gets, bind_modify in E. injection E as Hz <-.
    assert (Hfree := Ifr Hz). split; simpl; try done.
    + intros c' Hc'. pc_cases c c'; [done|]. by apply Iout.
    + intros c' q Hc' Hq. pc_cases c c'; [by eapply Ioff|]. by eapply Ioff.
    + intros c1 c2 p1 p2 H1 H2 Hb1 Hb2. pc_cases c c1; pc_cases c c2; try done.
      * rewrite (Hfree _ _ H2) in Hb2. done.
      * rewrite (Hfree _ _ H1) in Hb1. done.
      * by eapply Iex.
    + by right.
    + intros c'. pc_cases c c'; [|apply Iow]. split; [|done]. rewrite Iow. congruence.
  - unfold acquire_end in E. injection E as <-. split; simpl; try done.
    + intros c' Hc'. pc_cases c c'; [done|]. by apply Iout.
    + intros c' q Hc' Hq. pc_cases c c'; [by eapply Ioff|]. by eapply Ioff.
    + intros c1 c2 p1 p2 H1 H2 Hb1 Hb2. pc_cases c c1; pc_cases c c2; try done.
      * by apply (Iex c c2 Got p2).
      * by apply (Iex c1 c p1 Got).
      * by eapply Iex.
    + intros Hl c' q Hc'. specialize (Ifr Hl c Got Hc). done.
    + intros c'. pc_cases c c'; [done|]. split; [congruence|]. intros Hin.
      specialize (Iex c c' Got In Hc Hin eq_refl eq_refl). congruence.
  - destruct (release_begin_ok c s s' (Ioff _ _ Hc ltac:(done)) E) as [-> Ho]. split; simpl; try done.
    + intros c' Hc'. pc_cases c c'; [done|]. by apply Iout.
    + intros c' q Hc' Hq. pc_cases c c'; [by eapply Ioff|]. by eapply Ioff.
    + intros c1 c2 p1 p2 H1 H2 Hb1 Hb2. pc_cases c c1; pc_cases c c2; try done.
      * by apply (Iex c c2 In p2).
      * by apply (Iex c1 c p1 In).
      * by eapply Iex.
    + intros Hl c' q Hc'. specialize (Ifr Hl c In Hc). done.
    + intros c'. pc_cases c c'; [done|]. split; [done|]. intros Hin. apply Iow in Hin. congruence.
  - rewrite (release_end_ok c s (Ioff _ _ Hc ltac:(done))) in E. injection E as <-. split; simpl; try done.
    + intros c' Hc'. pose proof (Ioff _ _ Hc ltac:(done)) as Hoff.
      pc_cases c c'; [by exists (mkcpu true 0 true)|by apply Iout].
    + intros c' q Hc' Hq. pc_cases c c'; [by simplify_eq|]. by eapply Ioff.
    + intros c1 c2 p1 p2 H1 H2 Hb1 Hb2. pc_cases c c1; [by simplify_eq|]. pc_cases c c2; [by simplify_eq|].
      by eapply Iex.
    + by left.
    + intros _ c' q Hc'. pc_cases c c'; [by simplify_eq|].
      destruct (busy q) eqn:Hb; [|done]. specialize (Iex c c' Rel q Hc Hc' eq_refl Hb). congruence.
    + intros c'. pc_cases c c'; [|apply Iow]. split; [|done]. rewrite Iow. congruence.
Qed.

Lemma inv_reach n m : reach n m → inv m.
Proof. induction 1 as [|m m' _ IH Hs]; [apply inv_start|by eapply inv_step]. Qed.

(** ** One CPU and a lock that is free *)

Lemma popped_pushed_eq k : 1 ≤ c_ncli k → c_if k = false → popped (pushed k) = k.
Proof.
  intros Hn Hi. unfold popped, pushed. simpl. replace (c_ncli k + 1 - 1) with (c_ncli k) by lia.
  destruct (Z.eqb_spec (c_ncli k) 0); [lia|]. destruct k. simpl in *. by subst.
Qed.

Lemma acquire_free c s k n : cpus s !! c = Some k → 0 ≤ c_ncli k → lk s = initlock →
  acquire c (S n) s = Ok tt (mksls (<[c := pushed k]> (cpus s)) (mkslock 1 (Some c))).
Proof.
  intros E Hn Hl. unfold acquire, acquire_begin. rewrite bind_assoc. mstep (pushcli_ok c s k E).
  set (s1 := set_cpus _ s). assert (E1 : cpus s1 !! c = Some (pushed k)) by by eapply cpus_lookup.
  rewrite bind_assoc. mstep (holding_ok c s1 (pushed k) E1 eq_refl ltac:(simpl; lia)).
  change (lk s1) with (lk s). rewrite Hl. simpl. rewrite bind_ret_l.
  unfold xchg1, acquire_end, mbind, M_bind, gets, modify. simpl. rewrite Hl. simpl. done.
Qed.

Lemma release_mine c s k : cpus s !! c = Some k → c_if k = false → 1 ≤ c_ncli k →
  lk s = mkslock 1 (Some c) →
  release c s = Ok tt (mksls (<[c := popped k]> (cpus s)) initlock).
Proof.
  intros E Hi Hn Hl. unfold release, release_begin. rewrite bind_assoc.
  mstep (holding_ok c s k E Hi Hn). rewrite Hl. simpl. rewrite bool_decide_true by done. simpl.
  rewrite bind_modify. unfold release_end. rewrite bind_modify.
  rewrite (popcli_ok c _ k); done.
Qed.

(** ** The theorems *)

(** C12: mutual exclusion under every interleaving of the CPUs: two CPUs are
    never in the critical section at the same time, and the one that is there
    has its interrupts off and is the recorded owner of the lock. *)
Theorem mutual_exclusion n m c c' : reach n m → pcs m !! c = Some In → pcs m !! c' = Some In →
  c = c' ∧ lk_cpu (lk (ms m)) = Some c ∧
  ∃ k, cpus (ms m) !! c = Some k ∧ c_if k = false ∧ c_ncli k = 1.
Proof.
  intros H Hc Hc'. destruct (inv_reach n m H) as [_ Ioff Iex _ _ Iow]. split_and!.
  - by eapply Iex.
  - by apply Iow.
  - exists cpu_off. split; [by eapply Ioff|done].
Qed.

(** No CPU panics: in every reachable state a CPU outside can start
    [acquire] (it does not already hold the lock), one inside can start
    [release], and the final [popcli] of [release] turns interrupts back on. *)
Theorem lock_no_panic n m c : reach n m →
  (pcs m !! c = Some Out → ∃ s', acquire_begin c (ms m) = Ok tt s') ∧
  (pcs m !! c = Some In → ∃ s', release_begin c (ms m) = Ok tt s') ∧
  (pcs m !! c = Some Rel → ∃ s', release_end c (ms m) = Ok tt s' ∧
     c_if <$> cpus s' !! c = Some true).
Proof.
  intros H. destruct (inv_reach n m H) as [Iout Ioff Iex Il Ifr Iow]. split_and!.
  - intros Hc. destruct (Iout c Hc) as (k & E & Hi & Hn). unfold acquire_begin.
    mstep (pushcli_ok c (ms m) k E). pose proof (cpus_lookup c (ms m) k (pushed k) E) as E1.
    mstep (holding_ok c _ _ E1 eq_refl ltac:(simpl; lia)). simpl.
    rewrite (bool_decide_false (lk_cpu _ = _)) by (rewrite Iow; congruence).
    rewrite andb_false_r. eauto.
  - intros Hc. pose proof (Ioff c In Hc ltac:(done)) as E. unfold release_begin.
    mstep (holding_ok c (ms m) cpu_off E eq_refl ltac:(done)).
    rewrite (bool_decide_true (lk_cpu _ = _)) by (by apply Iow).
    destruct (Z.eqb_spec (locked (lk (ms m))) 0) as [Hz|Hz]; simpl; [|eauto].
    by specialize (Ifr Hz c In Hc).
  - intros Hc. pose proof (Ioff c Rel Hc ltac:(done)) as E. rewrite (release_end_ok c _ E).
    eexists. split; [done|]. simpl. rewrite list_lookup_insert_eq; [done|]. by eapply lookup_lt_Some.
Qed.

(** Two CPUs: the first is in the critical section, the second spins. *)
Definition contended : mstate :=
  mkms (mksls [cpu_off; cpu_off] (mkslock 1 (Some 0%nat))) [In; Spin].

Lemma contended_reach : reach 2 contended.
Proof.
  eapply reach_step; [eapply reach_step; [eapply reach_step; [eapply reach_step; [eapply reach_step|]|]|]|].
  - apply reach_start.
  - by eapply (step_begin 0).
  - by eapply (step_begin 1).
  - by eapply (step_xchg 0).
  - by eapply (step_spin 1 _ _ _ 1).
  - by eapply (step_end 0).
Qed.

Lemma mutual_exclusion_witness : reach 2 contended ∧ lk_cpu (lk (ms contended)) = Some 0%nat.
Proof.
  split; [exact contended_reach|].
  apply (mutual_exclusion 2 contended 0 0 contended_reach); reflexivity.
Defined.

Lemma lock_no_panic_witness : ∃ s', release_begin 0 (ms contended) = Ok tt s'.
Proof. apply (lock_no_panic 2 contended 0 contended_reach). reflexivity. Defined.
