(* ===== verification/Kalloc.v ===== *)
(** * Physical memory and its allocator: kalloc.c

    Physical memory is a map from the kernel virtual address of a page to its
    4096 bytes.  The free list is threaded through the pages themselves: the
    first word of a free page is the address of the next one.  [kend] is the
    address of the first page after the kernel, a symbol of the linker script.
    The invariant [flist] says which pages are on the list; the theorems say
    that [kalloc] takes one off it, that [kfree] and [freerange] put pages on
    it, and that no page is handed out twice. *)

From S2P Require Import Prelude Params Sleeplock.

Record kstate : Type := mkk {
  km_lock : bool;
  km_use_lock : Z;
  km_freelist : Z;
  pages : gmap Z (list Z) }.

Definition set_km_lock (b : bool) (s : kstate) : kstate :=
  mkk b (km_use_lock s) (km_freelist s) (pages s).
Definition set_use_lock (u : Z) (s : kstate) : kstate :=
  mkk (km_lock s) u (km_freelist s) (pages s).
Definition set_freelist (p : Z) (s : kstate) : kstate :=
  mkk (km_lock s) (km_use_lock s) p (pages s).
Definition set_pages (m : gmap Z (list Z)) (s : kstate) : kstate :=
  mkk (km_lock s) (km_use_lock s) (km_freelist s) m.

(** A page of memory; an address with no page behind it is a fault. *)
Definition page_at (p : Z) : M kstate (list Z) := s ← get; lift_opt (pages s !! p).
Definition page_set (p : Z) (d : list Z) : M kstate unit :=
  _ ← page_at p; modify (λ s, set_pages (<[p := d]> (pages s)) s).

Definition acquire_kmem : M kstate unit := acquire km_lock set_km_lock.
Definition release_kmem : M kstate unit := release km_lock set_km_lock.

Definition if_use_lock (m : M kstate unit) : M kstate unit :=
  u ← gets km_use_lock; if negb (u =? 0) then m else mret tt.

Section kalloc.
Context (kend : Z).

Definition kfree (v : Z) : M kstate unit :=
  if negb (v mod PGSIZE =? 0) || (v <? kend) || (PHYSTOP <=? V2P v) then panic "kfree" else
  page_set v (replicate (Z.to_nat PGSIZE) 1);;
  if_use_lock acquire_kmem;;
  s ← get;
  d ← page_at v;
  page_set v (put32 d 0 (km_freelist s));;
  modify (set_freelist v);;
  if_use_lock release_kmem.

Definition kalloc : M kstate Z :=
  if_use_lock acquire_kmem;;
  r ← gets km_freelist;
  (if negb (r =? 0) then
     d ← page_at r;
     modify (set_freelist (get32 d 0))
   else mret tt);;
  if_use_lock release_kmem;;
  mret r.

(** [for(; p + PGSIZE <= vend; p += PGSIZE) kfree(p)] *)
Definition freerange (vstart vend : Z) : M kstate unit :=
  let p := PGROUNDUP vstart in
  for_each (Z.to_nat ((vend - p) / PGSIZE)) 0 (λ k, kfree (p + k * PGSIZE)).

Definition kinit1 (vstart vend : Z) : M kstate unit :=
  modify (set_km_lock false);;
  modify (set_use_lock 0);;
  freerange vstart vend.

Definition kinit2 (vstart vend : Z) : M kstate unit :=
  freerange vstart vend;;
  modify (set_use_lock 1).

(** ** The free list *)

(** [flist m p l]: following the list from [p] visits the pages [l]. *)
Fixpoint flist (m : gmap Z (list Z)) (p : Z) (l : list Z) : Prop :=
  match l with
  | [] => p = 0
  | q :: l' => p = q ∧ 0 < q < 4294967296 ∧
      ∃ d, m !! q = Some d ∧ length d = Z.to_nat PGSIZE ∧ flist m (get32 d 0) l'
  end.

(** The allocator between calls, with the pages [l] free. *)
Record kinv (s : kstate) (l : list Z) : Prop := {
  ki_lock : km_lock s = false;
  ki_list : flist (pages s) (km_freelist s) l;
  ki_nodup : NoDup l }.

(** Pages off the list can change without the list noticing. *)
Lemma flist_insert m p l q d : q ∉ l → flist m p l → flist (<[q := d]> m) p l.
Proof.
  revert p. induction l as [|r l IH]; intros p Hq; [done|].
  rewrite not_elem_of_cons in Hq. destruct Hq as [Hne Hq].
  intros (-> & Hr & e & He & Hl & Hf). split; [done|]. split; [done|].
  exists e. rewrite lookup_insert_ne by done. auto.
Qed.

Lemma flist_elem m p l q : flist m p l → q ∈ l → 0 < q < 4294967296 ∧ is_Some (m !! q).
Proof.
  revert p. induction l as [|r l IH]; intros p Hf Hq; [by apply not_elem_of_nil in Hq|].
  destruct Hf as (-> & Hr & e & He & _ & Hf). apply elem_of_cons in Hq as [->|Hq]; [by eauto|].
  by eapply IH.
Qed.

Lemma flist_head m p l : flist m p l → 0 ≤ p < 4294967296.
Proof. destruct l; simpl; [lia|]. intros (-> & ? & _). lia. Qed.

Lemma page_at_ok s p d : pages s !! p = Some d → page_at p s = Ok d s.
Proof. intros E. unfold page_at, get, mbind, M_bind. by rewrite E. Qed.

Lemma page_set_ok s p d e : pages s !! p = Some d →
  page_set p e s = Ok tt (set_pages (<[p := e]> (pages s)) s).
Proof. intros E. unfold page_set. by mstep (page_at_ok _ _ _ E). Qed.

(** The state inside the critical section. *)
Definition klocked (s : kstate) : kstate := set_km_lock (negb (km_use_lock s =? 0)) s.

Lemma if_acquire_ok s : km_lock s = false → if_use_lock acquire_kmem s = Ok tt (klocked s).
Proof.
  intros Hl. unfold if_use_lock. rewrite bind_gets. unfold klocked, acquire_kmem, acquire.
  destruct s as [lk u fl pg]. simpl in *. subst. by destruct (u =? 0).
Qed.

Lemma if_release_ok s : km_lock s = negb (km_use_lock s =? 0) →
  if_use_lock release_kmem s = Ok tt (set_km_lock false s).
Proof.
  intros Hl. unfold if_use_lock. rewrite bind_gets. unfold release_kmem, release.
  destruct s as [lk u fl pg]. simpl in *. subst. by destruct (u =? 0).
Qed.

(** [kalloc] takes the first page off the list, or returns 0. *)
Lemma kalloc_some s r l : kinv s (r :: l) →
  ∃ s', kalloc s = Ok r s' ∧ kinv s' l ∧ pages s' = pages s ∧ km_use_lock s' = km_use_lock s.
Proof.
  intros [Hl (Hr & Hpos & d & Hd & Hlen & Hf) Hnd]. apply NoDup_cons in Hnd as [Hni Hnd].
  exists (set_km_lock false (set_freelist (get32 d 0) (klocked s))). split_and!; [|by split|done..].
  unfold kalloc. mstep (if_acquire_ok _ Hl). rewrite bind_gets. simpl. rewrite Hr.
  destruct (Z.eqb_spec r 0); [lia|]. simpl. rewrite bind_assoc.
  mstep (page_at_ok (klocked s) r d Hd). rewrite bind_modify.
  by mstep (if_release_ok (set_freelist (get32 d 0) (klocked s)) eq_refl).
Qed.

Lemma kalloc_none s : kinv s [] →
  ∃ s', kalloc s = Ok 0 s' ∧ kinv s' [] ∧ pages s' = pages s ∧ km_use_lock s' = km_use_lock s.
Proof.
  intros [Hl Hf _]. simpl in Hf. exists (set_km_lock false (klocked s)).
  split_and!; [|by split; try apply NoDup_nil|done..].
  unfold kalloc. mstep (if_acquire_ok _ Hl). rewrite bind_gets. simpl. rewrite Hf. simpl.
  rewrite bind_ret_l. by mstep (if_release_ok (klocked s) eq_refl).
Qed.

(** A page [kfree] accepts. *)
Definition page_ok (v : Z) : Prop :=
  v mod PGSIZE = 0 ∧ kend ≤ v ∧ V2P v < PHYSTOP ∧ 0 < v < 4294967296.

Lemma junk_len : length (replicate (Z.to_nat PGSIZE) 1) = Z.to_nat PGSIZE.
Proof. apply length_replicate. Qed.

Lemma kfree_ok s v l : kinv s l → page_ok v → v ∉ l → is_Some (pages s !! v) →
  ∃ s', kfree v s = Ok tt s' ∧ kinv s' (v :: l)
    ∧ pages s' = <[v := put32 (replicate (Z.to_nat PGSIZE) 1) 0 (km_freelist s)]> (pages s)
    ∧ km_use_lock s' = km_use_lock s.
Proof.
  intros [Hl Hf Hnd] (Hm & He & Hp & Hv) Hn [d Hd].
  set (j := replicate (Z.to_nat PGSIZE) 1).
  set (s1 := klocked (set_pages (<[v := j]> (pages s)) s)).
  assert (E1 : pages s1 !! v = Some j) by apply lookup_insert_eq.
  eexists. split_and!.
  - unfold kfree. rewrite (proj2 (Z.eqb_eq _ _) Hm), (proj2 (Z.ltb_ge _ _) He).
    rewrite (proj2 (Z.leb_gt _ _) Hp). simpl. mstep (page_set_ok _ _ _ j Hd).
    mstep (if_acquire_ok (set_pages (<[v := j]> (pages s)) s) Hl). fold s1.
    unfold get at 1, mbind at 1, M_bind at 1. mstep (page_at_ok _ _ _ E1).
    mstep (page_set_ok _ _ _ (put32 j 0 (km_freelist s1)) E1). rewrite bind_modify.
    by rewrite (if_release_ok (set_freelist v _)).
  - split; simpl; [done| |by constructor]. split; [done|]. split; [done|].
    eexists. rewrite lookup_insert_eq. split; [done|].
    rewrite length_put32 by (unfold j; rewrite junk_len; vm_compute; lia). split; [apply junk_len|].
    rewrite get32_put32_eq by (unfold j; rewrite junk_len; vm_compute; lia).
    change (km_freelist s1) with (km_freelist s). rewrite u32_small; [|by eapply flist_head].
    apply flist_insert; [done|]. by apply flist_insert.
  - simpl. unfold s1. simpl. apply insert_insert_eq.
  - done.
Qed.

Lemma kfree_bad s v : v mod PGSIZE ≠ 0 ∨ v < kend ∨ PHYSTOP ≤ V2P v → kfree v s = Panic "kfree".
Proof.
  intros Hb. unfold kfree. replace (_ || _ || _) with true; [done|].
  symmetry. rewrite !orb_true_iff, negb_true_iff, Z.eqb_neq, Z.ltb_lt, Z.leb_le. tauto.
Qed.

(** The pages of the range [p, p + k PGSIZE), last first: the order in which
    [freerange] leaves them on the list. *)
Fixpoint range_pages (p : Z) (k : nat) : list Z :=
  match k with
  | O => []
  | S k' => (p + Z.of_nat k' * PGSIZE) :: range_pages p k'
  end.

Lemma elem_of_range_pages p k q :
  q ∈ range_pages p k ↔ ∃ i, 0 ≤ i < Z.of_nat k ∧ q = p + i * PGSIZE.
Proof.
  induction k as [|k IH]; simpl.
  - rewrite elem_of_nil. split; [done|]. intros (i & ? & _). lia.
  - rewrite elem_of_cons, IH. split.
    + intros [->|(i & ? & ->)]; [exists (Z.of_nat k)|exists i]; split; lia.
    + intros (i & Hi & ->). destruct (decide (i = Z.of_nat k)) as [->|]; [by left|right].
      exists i. split; lia.
Qed.

(** The invariant between two iterations of [freerange]. *)
Definition range_inv (p : Z) (s : kstate) (l : list Z) (k : Z) (s1 : kstate) : Prop :=
  kinv s1 (range_pages p (Z.to_nat k) ++ l) ∧ dom (pages s1) = dom (pages s) ∧
  ∀ q, q ∉ range_pages p (Z.to_nat k) → pages s1 !! q = pages s !! q.

Lemma freerange_round p s l k s1 : 0 ≤ k →
  p mod PGSIZE = 0 → page_ok (p + k * PGSIZE) → p + k * PGSIZE ∉ l →
  is_Some (pages s !! (p + k * PGSIZE)) → range_inv p s l k s1 →
  ∃ s2, kfree (p + k * PGSIZE) s1 = Ok tt s2 ∧ range_inv p s l (k + 1) s2.
Proof.
  intros Hk Hp Hok Hnl Hin (HI & HD & HO).
  destruct (kfree_ok s1 (p + k * PGSIZE) _ HI Hok) as (s2 & E & HI2 & Hpg & _).
  - rewrite elem_of_app, elem_of_range_pages. intros [(i & Hi & Heq)|]; [|done].
    unfold PGSIZE in Heq. lia.
  - apply elem_of_dom. rewrite HD. by apply elem_of_dom.
  - exists s2. split; [done|]. unfold range_inv. replace (Z.to_nat (k + 1)) with (S (Z.to_nat k)) by lia.
    cbn [range_pages]. rewrite Z2Nat.id by lia. split_and!.
    + done.
    + rewrite Hpg, dom_insert_L, <- HD. apply subseteq_union_1_L, singleton_subseteq_l.
      rewrite HD. by apply elem_of_dom.
    + intros q Hq. apply not_elem_of_cons in Hq as [Hq Hq']. rewrite Hpg, lookup_insert_ne by done. by apply HO.
Qed.

Lemma freerange_ok s l vstart vend :
  let p := PGROUNDUP vstart in
  let n := Z.to_nat ((vend - p) / PGSIZE) in
  kinv s l → p mod PGSIZE = 0 →
  (∀ q, q ∈ range_pages p n → page_ok q ∧ q ∉ l ∧ is_Some (pages s !! q)) →
  ∃ s', freerange vstart vend s = Ok tt s' ∧ kinv s' (range_pages p n ++ l)
    ∧ dom (pages s') = dom (pages s) ∧ ∀ q, q ∉ range_pages p n → pages s' !! q = pages s !! q.
Proof.
  intros p n HI Hp Hq. unfold freerange. fold p. fold n.
  destruct (for_each_inv (range_inv p s l) (λ k, kfree (p + k * PGSIZE)) n 0 s) as (s' & E & HI').
  - split; [exact HI|]. done.
  - intros k s1 Hk HI1. destruct (Hq (p + k * PGSIZE)) as (? & ? & ?).
    { apply elem_of_range_pages. exists k. split; [lia|done]. }
    by apply (freerange_round p s l k s1); try lia.
  - exists s'. split; [done|]. by replace n with (Z.to_nat (0 + Z.of_nat n)) by lia.
Qed.
End kalloc.

(** ** The theorems *)

(** [kalloc] hands out a page that is on the free list and takes it off,
    so no page is handed out twice; on an empty list it returns 0.  The memory
    is unchanged and the lock is free afterwards. *)
Theorem kalloc_correct s l : kinv s l →
  ∃ r s' l', kalloc s = Ok r s' ∧ kinv s' l' ∧ pages s' = pages s ∧
    match l with
    | [] => r = 0 ∧ l' = []
    | q :: rest => r = q ∧ l' = rest ∧ r ∉ l' ∧ 0 < r
    end.
Proof.
  intros HI. destruct l as [|q l].
  - destruct (kalloc_none s HI) as (s' & E & HI' & Hp & _). by exists 0, s', [].
  - destruct (kalloc_some s q l HI) as (s' & E & HI' & Hp & _). exists q, s', l.
    pose proof (ki_nodup _ _ HI) as Hn. apply NoDup_cons in Hn as [? _].
    destruct HI as [_ (_ & ? & _) _]. split_and!; try done; lia.
Qed.

(** [kfree] accepts exactly the aligned pages between the end of the
    kernel and PHYSTOP: such a page goes on the free list, from where the next
    [kalloc] returns it; any other address is a panic.  The other pages keep
    their contents. *)
Theorem kfree_correct kend s v l : kinv s l → v ∉ l → is_Some (pages s !! v) → 0 < v < 4294967296 →
  if bool_decide (v mod PGSIZE = 0 ∧ kend ≤ v ∧ V2P v < PHYSTOP) then
    ∃ s' s'', kfree kend v s = Ok tt s' ∧ kinv s' (v :: l) ∧
      (∀ q, q ≠ v → pages s' !! q = pages s !! q) ∧ kalloc s' = Ok v s'' ∧ kinv s'' l
  else kfree kend v s = Panic "kfree".
Proof.
  intros HI Hn Hs Hv. case_bool_decide as Hc.
  - destruct Hc as (Hm & He & Hp). destruct (kfree_ok kend s v l HI) as (s' & E & HI' & Hpg & _); try done.
    destruct (kalloc_some s' v l HI') as (s'' & E' & HI'' & _). exists s', s''. split_and!; try done.
    intros q Hq. rewrite Hpg. by apply lookup_insert_ne.
  - apply kfree_bad. lia.
Qed.

(** [kinit1] on memory with no free pages puts every whole page of the
    range on the free list, each once, and leaves the lock of the allocator free. *)
Theorem kinit1_correct kend vstart vend s :
  let p := PGROUNDUP vstart in
  let n := Z.to_nat ((vend - p) / PGSIZE) in
  0 ≤ vstart ≤ 4294963200 → km_freelist s = 0 →
  (∀ q, q ∈ range_pages p n → page_ok kend q ∧ is_Some (pages s !! q)) →
  ∃ s', kinit1 kend vstart vend s = Ok tt s' ∧ kinv s' (range_pages p n).
Proof.
  intros p n Hv Hf Hq. unfold kinit1. rewrite !bind_modify.
  destruct (freerange_ok kend (set_use_lock 0 (set_km_lock false s)) [] vstart vend) as (s' & E & HI & _).
  - split; [done|done|apply NoDup_nil_2].
  - rewrite PGROUNDUP_spec by lia. unfold PGSIZE. lia.
  - intros q Hin. destruct (Hq q Hin) as [? ?]. split_and!; [done|apply not_elem_of_nil|done].
  - exists s'. split; [done|]. rewrite app_nil_r in HI. done.
Qed.

(** Two pages after a kernel that ends at 0x80108abc. *)
Definition end0 : Z := 0x80108abc.
Definition page1 : Z := 0x80109000.
Definition page2 : Z := 0x8010a000.
Definition mem2 : kstate :=
  mkk false 1 0 {[page1 := replicate 4096 0; page2 := replicate 4096 0]}.

Lemma mem2_pages q : q ∈ range_pages (PGROUNDUP end0) (Z.to_nat ((page2 + 4096 - PGROUNDUP end0) / PGSIZE)) →
  page_ok end0 q ∧ is_Some (pages mem2 !! q).
Proof.
  replace (range_pages _ _) with [page2; page1] by by vm_compute.
  rewrite !elem_of_cons, elem_of_nil. intros [-> |[-> |[]]]; (split; [|eauto]);
    unfold page_ok; repeat split; try (by vm_compute); by vm_compute.
Qed.

Lemma mem2_free : ∃ s, kinit1 end0 end0 (page2 + 4096) mem2 = Ok tt s ∧ kinv s [page2; page1] ∧
  is_Some (pages s !! page1) ∧ is_Some (pages s !! page2).
Proof.
  unfold kinit1. rewrite !bind_modify.
  destruct (freerange_ok end0 (set_use_lock 0 (set_km_lock false mem2)) [] end0 (page2 + 4096))
    as (s & E & HI & HD & _).
  - split; [done|done|apply NoDup_nil_2].
  - by vm_compute.
  - intros q Hq. destruct (mem2_pages q Hq). split_and!; [done|apply not_elem_of_nil|done].
  - exists s. split; [done|]. rewrite app_nil_r in HI.
    replace (range_pages _ _) with [page2; page1] in HI by by vm_compute. split; [done|].
    split; apply elem_of_dom; rewrite HD; apply elem_of_dom; eauto.
Qed.

Lemma kinit1_correct_witness : ∃ s, kinit1 end0 end0 (page2 + 4096) mem2 = Ok tt s ∧ kinv s [page2; page1].
Proof.
  destruct (kinit1_correct end0 end0 (page2 + 4096) mem2) as (s & E & HI).
  - unfold end0. lia.
  - reflexivity.
  - exact mem2_pages.
  - exists s. split; [exact E|]. revert HI. by replace (range_pages _ _) with [page2; page1] by by vm_compute.
Defined.

Lemma kalloc_correct_witness :
  ∃ s r s', kinv s [page2; page1] ∧ kalloc s = Ok r s' ∧ r = page2 ∧ r ∉ [page1].
Proof.
  destruct mem2_free as (s & _ & HI & _). destruct (kalloc_correct s [page2; page1] HI) as (r & s' & l' & E & _ & _ & H).
  destruct H as (Hr & -> & Hn & _). exists s, r, s'. split; [exact HI|]. split; [exact E|]. split; [exact Hr|exact Hn].
Defined.

Lemma kfree_correct_witness :
  ∃ s s' s'', kinv s [page1] ∧ kfree end0 page2 s = Ok tt s' ∧ kalloc s' = Ok page2 s''.
Proof.
  destruct mem2_free as (s0 & _ & HI & _ & Hp2). destruct (kalloc_some _ _ _ HI) as (s & _ & HI' & Hpg & _).
  pose proof (kfree_correct end0 s page2 [page1] HI') as H.
  rewrite bool_decide_true in H by (by vm_compute). destruct H as (s' & s'' & E & _ & _ & E' & _).
  - rewrite list_elem_of_singleton. by vm_compute.
  - by rewrite Hpg.
  - by vm_compute.
  - exists s, s', s''. split; [exact HI'|]. split; [exact E|exact E'].
Defined.
