(* ===== verification/Vm.v ===== *)
(** * Page tables: vm.c

    Page directories and page tables are pages of the memory of [Kalloc]; an
    entry is the 32-bit word at its address.  The operations are those of
    vm.c on that memory; console messages are not recorded.  [vdata] is the
    address [data] of the linker script.  A page table is read back as the
    function [pte] from virtual addresses to entries, and the theorems say how
    each operation changes that function. *)

From S2P Require Import Prelude Params Kalloc.

(** A 32-bit load and store at an address of the kernel. *)
Definition ldw (a : Z) : M kstate Z :=
  d ← page_at (PGROUNDDOWN a); mret (get32 d (Z.to_nat (a mod PGSIZE))).
Definition stw (a v : Z) : M kstate unit :=
  d ← page_at (PGROUNDDOWN a); page_set (PGROUNDDOWN a) (put32 d (Z.to_nat (a mod PGSIZE)) v).

(** [memset(p, 0, PGSIZE)] on a page, and a copy into a page. *)
Definition zero_page (p : Z) : M kstate unit := page_set p (replicate (Z.to_nat PGSIZE) 0).
Definition copy_into (p : Z) (off : Z) (bs : list Z) : M kstate unit :=
  d ← page_at p; page_set p (splice (Z.to_nat off) bs d).

Definition has (x flag : Z) : bool := negb (Z.land x flag =? 0).

Section vm.
Context (kend vdata : Z).

(** The address of the entry for [va], 0 when there is none. *)
Definition walkpgdir (pgdir va : Z) (alloc : bool) : M kstate Z :=
  let pde := pgdir + 4 * PDX va in
  e ← ldw pde;
  if has e PTE_P then mret (P2V (PTE_ADDR e) + 4 * PTX va) else
  if negb alloc then mret 0 else
  pgtab ← kalloc;
  if pgtab =? 0 then mret 0 else
  zero_page pgtab;;
  stw pde (Z.lor (Z.lor (Z.lor (V2P pgtab) PTE_P) PTE_W) PTE_U);;
  mret (pgtab + 4 * PTX va).

(** The loop of [mappages]; [k] is the number of pages after [a]. *)
Fixpoint mappages_loop (k : nat) (pgdir a last pa perm : Z) : M kstate Z :=
  pte ← walkpgdir pgdir a true;
  if pte =? 0 then mret (-1) else
  e ← ldw pte;
  if has e PTE_P then panic "remap" else
  stw pte (Z.lor (Z.lor pa perm) PTE_P);;
  if a =? last then mret 0 else
  match k with
  | O => no_fuel
  | S k' => mappages_loop k' pgdir (u32 (a + PGSIZE)) last (u32 (pa + PGSIZE)) perm
  end.

Definition mappages (pgdir va size pa perm : Z) : M kstate Z :=
  let a := PGROUNDDOWN va in
  let last := PGROUNDDOWN (u32 (va + size - 1)) in
  mappages_loop (Z.to_nat (u32 (last - a) / PGSIZE)) pgdir a last pa perm.

(** The loop of [deallocuvm]: at a hole it goes on with the next table. *)
Fixpoint deallocuvm_loop (k : nat) (pgdir a oldsz : Z) : M kstate unit :=
  if negb (a <? oldsz) then mret tt else
  match k with
  | O => no_fuel
  | S k' =>
      pte ← walkpgdir pgdir a false;
      if pte =? 0 then
        deallocuvm_loop k' pgdir (u32 (u32 (PGADDR (PDX a + 1) 0 0 - PGSIZE) + PGSIZE)) oldsz
      else
        e ← ldw pte;
        (if has e PTE_P then
           let pa := PTE_ADDR e in
           if pa =? 0 then panic "kfree" else
           kfree kend (P2V pa);;
           stw pte 0
         else mret tt);;
        deallocuvm_loop k' pgdir (u32 (a + PGSIZE)) oldsz
  end.

Definition deallocuvm (pgdir oldsz newsz : Z) : M kstate Z :=
  if oldsz <=? newsz then mret oldsz else
  let a := PGROUNDUP newsz in
  deallocuvm_loop (Z.to_nat ((oldsz - a + PGSIZE - 1) / PGSIZE)) pgdir a oldsz;;
  mret newsz.

Definition freevm (pgdir : Z) : M kstate unit :=
  if pgdir =? 0 then panic "freevm: no pgdir" else
  deallocuvm pgdir KERNBASE 0;;
  for_each (Z.to_nat NPDENTRIES) 0 (λ i,
    e ← ldw (pgdir + 4 * i);
    if has e PTE_P then kfree kend (P2V (PTE_ADDR e)) else mret tt);;
  kfree kend pgdir.

(** The kernel's mappings: virtual address, physical start and end, permissions. *)
Record kmap_entry : Type := mkkmap { virt : Z; phys_start : Z; phys_end : Z; perm : Z }.
Definition kmap : list kmap_entry :=
  [mkkmap KERNBASE 0 EXTMEM PTE_W;
   mkkmap KERNLINK (V2P KERNLINK) (V2P vdata) 0;
   mkkmap vdata (V2P vdata) PHYSTOP PTE_W;
   mkkmap DEVSPACE DEVSPACE 0 PTE_W].

Fixpoint setupkvm_loop (pgdir : Z) (ks : list kmap_entry) : M kstate Z :=
  match ks with
  | [] => mret pgdir
  | k :: ks' =>
      r ← mappages pgdir (virt k) (u32 (phys_end k - phys_start k)) (phys_start k) (perm k);
      if r <? 0 then freevm pgdir;; mret 0 else setupkvm_loop pgdir ks'
  end.

Definition setupkvm : M kstate Z :=
  pgdir ← kalloc;
  if pgdir =? 0 then mret 0 else
  zero_page pgdir;;
  if DEVSPACE <? P2V PHYSTOP then panic "PHYSTOP too high" else
  setupkvm_loop pgdir kmap.

Definition inituvm (pgdir : Z) (init : list Z) : M kstate unit :=
  if PGSIZE <=? Z.of_nat (length init) then panic "inituvm: more than a page" else
  mem ← kalloc;
  zero_page mem;;
  mappages pgdir 0 PGSIZE (V2P mem) (Z.lor PTE_W PTE_U);;
  copy_into mem 0 init.

Definition allocuvm (pgdir oldsz newsz : Z) : M kstate Z :=
  if KERNBASE <=? newsz then mret 0 else
  if newsz <? oldsz then mret oldsz else
  let a0 := PGROUNDUP oldsz in
  r ← for_range (Z.to_nat ((newsz - a0 + PGSIZE - 1) / PGSIZE)) 0 (λ k,
        let a := a0 + k * PGSIZE in
        mem ← kalloc;
        if mem =? 0 then
          deallocuvm pgdir newsz oldsz;; mret (Some 0)
        else
          zero_page mem;;
          r ← mappages pgdir a PGSIZE (V2P mem) (Z.lor PTE_W PTE_U);
          if r <? 0 then
            deallocuvm pgdir newsz oldsz;; kfree kend mem;; mret (Some 0)
          else mret None);
  mret (default newsz r).

Definition clearpteu (pgdir uva : Z) : M kstate unit :=
  pte ← walkpgdir pgdir uva false;
  if pte =? 0 then panic "clearpteu" else
  e ← ldw pte; stw pte (Z.land e (Z.lnot PTE_U)).

Definition copyuvm (pgdir sz : Z) : M kstate Z :=
  d ← setupkvm;
  if d =? 0 then mret 0 else
  r ← for_range (Z.to_nat ((sz + PGSIZE - 1) / PGSIZE)) 0 (λ k,
        let i := k * PGSIZE in
        pte ← walkpgdir pgdir i false;
        if pte =? 0 then panic "copyuvm: pte should exist" else
        e ← ldw pte;
        if negb (has e PTE_P) then panic "copyuvm: page not present" else
        let pa := PTE_ADDR e in
        let flags := PTE_FLAGS e in
        mem ← kalloc;
        if mem =? 0 then mret (Some tt) else
        bs ← page_at (P2V pa);
        copy_into mem 0 bs;;
        r ← mappages d i PGSIZE (V2P mem) flags;
        if r <? 0 then kfree kend mem;; mret (Some tt) else mret None);
  match r with
  | None => mret d
  | Some _ => freevm d;; mret 0
  end.

(** The entry is read without a test for a missing table. *)
Definition uva2ka (pgdir uva : Z) : M kstate Z :=
  pte ← walkpgdir pgdir uva false;
  e ← ldw pte;
  if negb (has e PTE_P) then mret 0 else
  if negb (has e PTE_U) then mret 0 else
  mret (P2V (PTE_ADDR e)).

Fixpoint copyout_loop (fuel : nat) (pgdir va : Z) (buf : list Z) : M kstate Z :=
  if bool_decide (buf = []) then mret 0 else
  match fuel with
  | O => no_fuel
  | S fuel' =>
      let va0 := PGROUNDDOWN va in
      pa0 ← uva2ka pgdir va0;
      if pa0 =? 0 then mret (-1) else
      let n0 := PGSIZE - (va - va0) in
      let n := if Z.of_nat (length buf) <? n0 then Z.of_nat (length buf) else n0 in
      copy_into pa0 (va - va0) (take (Z.to_nat n) buf);;
      copyout_loop fuel' pgdir (u32 (va0 + PGSIZE)) (drop (Z.to_nat n) buf)
  end.

Definition copyout (pgdir va : Z) (buf : list Z) : M kstate Z :=
  copyout_loop (length buf) pgdir va buf.
End vm.

(** ** Bits of entries *)

Lemma lor_aligned a f : a mod 4096 = 0 → 0 ≤ f < 4096 → Z.lor a f = a + f.
Proof.
  intros Ha Hf. rewrite <- Z.lxor_lor, Z.add_nocarry_lxor; [done|..];
    apply Z.bits_inj'; intros n Hn; rewrite Z.land_spec, Z.bits_0.
  all: destruct (decide (n < 12)).
  1, 3: replace a with (Z.shiftl (a / 4096) 12)
    by (rewrite Z.shiftl_mul_pow2 by lia; change (2 ^ 12) with 4096; lia);
    by rewrite Z.shiftl_spec_low.
  all: rewrite (Z.bits_above_log2 f n); [by rewrite andb_false_r|lia|].
  all: destruct (decide (f = 0)) as [->|]; [simpl; lia|].
  all: apply Z.log2_lt_pow2; [lia|]; apply Z.lt_le_trans with (2 ^ 12); [lia|];
    apply Z.pow_le_mono_r; lia.
Qed.

Lemma has_mod x y f : 0 ≤ f < 4096 → x mod 4096 = y mod 4096 → has x f = has y f.
Proof.
  intros Hf E. unfold has. do 2 f_equal.
  assert (∀ z, Z.land z f = Z.land (z mod 4096) f) as Hl.
  { intros z. change 4096 with (2 ^ 12). rewrite <- (Z.land_ones z 12) by lia.
    rewrite <- Z.land_assoc. f_equal. rewrite Z.land_comm, Z.land_ones by lia.
    change (2 ^ 12) with 4096. by rewrite Z.mod_small. }
  by rewrite Hl, E, <- Hl.
Qed.

Lemma P2V_V2P v : 0 ≤ v < 4294967296 → P2V (V2P v) = v.
Proof. unfold P2V, V2P, u32, KERNBASE. lia. Qed.

Lemma V2P_aligned v : v mod 4096 = 0 → V2P v mod 4096 = 0.
Proof. unfold V2P, u32, KERNBASE. lia. Qed.

Lemma P2V_aligned v : v mod 4096 = 0 → P2V v mod 4096 = 0.
Proof. unfold P2V, u32, KERNBASE. lia. Qed.

Lemma PTE_ADDR_aligned e : PTE_ADDR e mod 4096 = 0.
Proof. rewrite PTE_ADDR_spec. lia. Qed.

Lemma PTE_ADDR_add a f : a mod 4096 = 0 → 0 ≤ f < 4096 → PTE_ADDR (a + f) = a.
Proof. rewrite PTE_ADDR_spec. lia. Qed.

(** ** The page table as a function *)

(** Entry [i] of the page directory [pg], the table it points to, and the
    entry for [va] (0 when there is no table). *)
Definition pde (m : gmap Z (list Z)) (pg i : Z) : Z :=
  get32 (default [] (m !! pg)) (Z.to_nat (4 * i)).
Definition tab (m : gmap Z (list Z)) (pg i : Z) : Z := P2V (PTE_ADDR (pde m pg i)).
Definition pte (m : gmap Z (list Z)) (pg va : Z) : Z :=
  if has (pde m pg (PDX va)) PTE_P
  then get32 (default [] (m !! tab m pg (PDX va))) (Z.to_nat (4 * PTX va)) else 0.

Definition is_page (m : gmap Z (list Z)) (p : Z) : Prop :=
  p mod 4096 = 0 ∧ ∃ d, m !! p = Some d ∧ length d = Z.to_nat PGSIZE.

#[global] Arguments pde : simpl never.
#[global] Arguments tab : simpl never.
#[global] Arguments pte : simpl never.
#[global] Arguments put32 : simpl never.
#[global] Arguments get32 : simpl never.

Section tables.
Context (kend vdata : Z).

(** A page table over an allocator with the pages [l] free: the directory and
    its tables are distinct pages that are not free. *)
Record ptwf (s : kstate) (l : list Z) (pg : Z) : Prop := {
  pw_inv : kinv s l;
  pw_free : Forall (page_ok kend) l;
  pw_dir : is_page (pages s) pg;
  pw_dirl : pg ∉ l;
  pw_tab : ∀ i, 0 ≤ i < 1024 → has (pde (pages s) pg i) PTE_P = true →
    is_page (pages s) (tab (pages s) pg i) ∧ tab (pages s) pg i ≠ pg ∧ tab (pages s) pg i ∉ l;
  pw_inj : ∀ i j, 0 ≤ i < 1024 → 0 ≤ j < 1024 →
    has (pde (pages s) pg i) PTE_P = true → has (pde (pages s) pg j) PTE_P = true →
    tab (pages s) pg i = tab (pages s) pg j → i = j }.

Lemma PDX_bound va : 0 ≤ PDX va < 1024.
Proof. rewrite PDX_spec. lia. Qed.
Lemma PTX_bound va : 0 ≤ PTX va < 1024.
Proof. rewrite PTX_spec. lia. Qed.

Lemma slot_addr p i : p mod 4096 = 0 → 0 ≤ i < 1024 →
  PGROUNDDOWN (p + 4 * i) = p ∧ (p + 4 * i) mod PGSIZE = 4 * i.
Proof. intros Hp Hi. rewrite PGROUNDDOWN_spec. unfold PGSIZE. lia. Qed.

Lemma ldw_ok s p i : is_page (pages s) p → 0 ≤ i < 1024 →
  ldw (p + 4 * i) s = Ok (get32 (default [] (pages s !! p)) (Z.to_nat (4 * i))) s.
Proof.
  intros (Hp & d & Hd & _) Hi. unfold ldw. destruct (slot_addr p i Hp Hi) as [-> ->].
  mstep (page_at_ok _ _ _ Hd). by rewrite Hd.
Qed.

Lemma stw_ok s p i v : is_page (pages s) p → 0 ≤ i < 1024 →
  stw (p + 4 * i) v s = Ok tt (set_pages
    (<[p := put32 (default [] (pages s !! p)) (Z.to_nat (4 * i)) v]> (pages s)) s).
Proof.
  intros (Hp & d & Hd & _) Hi. unfold stw. destruct (slot_addr p i Hp Hi) as [-> ->].
  mstep (page_at_ok _ _ _ Hd). rewrite Hd. by rewrite (page_set_ok _ _ _ _ Hd).
Qed.

(** A word store on a page: that word changes and no other. *)
Lemma word_put m p i v q j : is_page m p → 0 ≤ i < 1024 → 0 ≤ j < 1024 →
  get32 (default [] (<[p := put32 (default [] (m !! p)) (Z.to_nat (4 * i)) v]> m !! q)) (Z.to_nat (4 * j))
  = if bool_decide (p = q ∧ i = j) then u32 v else get32 (default [] (m !! q)) (Z.to_nat (4 * j)).
Proof.
  intros (_ & d & Hd & Hl) Hi Hj. rewrite Hd. unfold PGSIZE in Hl. case_bool_decide as Hc.
  - destruct Hc as [-> ->]. rewrite lookup_insert_eq. simpl. rewrite get32_put32_eq by lia. done.
  - destruct (decide (p = q)) as [->|]; [|by rewrite lookup_insert_ne].
    rewrite lookup_insert_eq, Hd. simpl. apply get32_put32_ne; [lia|].
    assert (i ≠ j) by naive_solver. lia.
Qed.

Lemma is_page_put m p i v q : is_page m p → 0 ≤ i < 1024 →
  is_page m q → is_page (<[p := put32 (default [] (m !! p)) (Z.to_nat (4 * i)) v]> m) q.
Proof.
  intros (Hp & d & Hd & Hl) Hi (Hq & e & He & Hle). split; [done|]. rewrite Hd. simpl.
  destruct (decide (p = q)) as [->|].
  - rewrite lookup_insert_eq. eexists. split; [done|]. rewrite length_put32; [done|].
    unfold PGSIZE in Hl. lia.
  - rewrite lookup_insert_ne by done. eauto.
Qed.

(** Stores to a page that is neither free nor part of the list keep the list. *)
Lemma kinv_insert s l p d : kinv s l → p ∉ l → kinv (set_pages (<[p := d]> (pages s)) s) l.
Proof. intros [Hl Hf Hn] Hp. split; [done| |done]. by apply flist_insert. Qed.

(** ** Storing an entry *)

(** [va] and [va'] have the same entry. *)
Definition same_pg (va va' : Z) : Prop := PDX va = PDX va' ∧ PTX va = PTX va'.
#[global] Instance same_pg_dec va va' : Decision (same_pg va va').
Proof. unfold same_pg. apply _. Defined.

(** The address of the entry for [va], when there is a table. *)
Definition slot (m : gmap Z (list Z)) (pg va : Z) : Z := tab m pg (PDX va) + 4 * PTX va.

Definition set_pte (s : kstate) (pg va v : Z) : kstate :=
  let t := tab (pages s) pg (PDX va) in
  set_pages (<[t := put32 (default [] (pages s !! t)) (Z.to_nat (4 * PTX va)) v]> (pages s)) s.

Lemma set_pte_pde s l pg va v i : ptwf s l pg →
  has (pde (pages s) pg (PDX va)) PTE_P = true →
  pde (pages (set_pte s pg va v)) pg i = pde (pages s) pg i.
Proof.
  intros W Hp. destruct (pw_tab _ _ _ W _ (PDX_bound va) Hp) as (_ & Hne & _).
  unfold pde, set_pte. cbn [pages set_pages]. by rewrite lookup_insert_ne.
Qed.

Lemma set_pte_wf s l pg va v : ptwf s l pg →
  has (pde (pages s) pg (PDX va)) PTE_P = true → ptwf (set_pte s pg va v) l pg.
Proof.
  intros W Hp. destruct (pw_tab _ _ _ W _ (PDX_bound va) Hp) as (Hpg & Hne & Hnl).
  pose proof (λ i, set_pte_pde s l pg va v i W Hp) as Hpde.
  assert (Htab : ∀ i, tab (pages (set_pte s pg va v)) pg i = tab (pages s) pg i).
  { intros i. unfold tab. by rewrite Hpde. }
  split.
  - by apply kinv_insert; [apply W|].
  - apply W.
  - apply is_page_put; [done|apply PTX_bound|apply W].
  - apply W.
  - intros i Hi Hpi. rewrite Hpde in Hpi. rewrite !Htab.
    destruct (pw_tab _ _ _ W i Hi Hpi) as (? & ? & ?). split; [|done].
    by apply is_page_put; [|apply PTX_bound|].
  - intros i j Hi Hj. rewrite !Hpde, !Htab. by apply (pw_inj _ _ _ W).
Qed.

Lemma set_pte_pte s l pg va v va' : ptwf s l pg →
  has (pde (pages s) pg (PDX va)) PTE_P = true →
  pte (pages (set_pte s pg va v)) pg va' =
    if bool_decide (same_pg va va') then u32 v else pte (pages s) pg va'.
Proof.
  intros W Hp. destruct (pw_tab _ _ _ W _ (PDX_bound va) Hp) as (Hpg & Hne & Hnl).
  unfold pte. rewrite (set_pte_pde _ _ _ _ _ _ W Hp). unfold tab at 1.
  rewrite (set_pte_pde _ _ _ _ _ _ W Hp). fold (tab (pages s) pg (PDX va')).
  destruct (has (pde (pages s) pg (PDX va')) PTE_P) eqn:Hp'.
  - unfold set_pte. cbn [pages set_pages]. rewrite word_put by (done || apply PTX_bound).
    erewrite bool_decide_ext; [done|]. unfold same_pg. split; [|by intros [-> ->]].
    intros [Ht ->]. split; [|done]. by apply (pw_inj _ _ _ W); try apply PDX_bound.
  - case_bool_decide as Hs; [|done]. destruct Hs as [Hs _]. rewrite Hs in Hp. congruence.
Qed.

(** ** Walking *)

Lemma ldw_pde s l pg va : ptwf s l pg →
  ldw (pg + 4 * PDX va) s = Ok (pde (pages s) pg (PDX va)) s.
Proof. intros W. apply ldw_ok; [apply W|apply PDX_bound]. Qed.

Lemma slot_nz s l pg va : ptwf s l pg → 0 ∉ dom (pages s) →
  has (pde (pages s) pg (PDX va)) PTE_P = true → slot (pages s) pg va ≠ 0.
Proof.
  intros W H0 Hp. destruct (pw_tab _ _ _ W _ (PDX_bound va) Hp) as ((Hal & d & Hd & _) & _).
  unfold slot. pose proof (PTX_bound va). intros E. apply H0.
  assert (tab (pages s) pg (PDX va) = 0) as <- by lia. by apply elem_of_dom_2 in Hd.
Qed.

Lemma walk_found s l pg va alloc : ptwf s l pg →
  has (pde (pages s) pg (PDX va)) PTE_P = true →
  walkpgdir pg va alloc s = Ok (slot (pages s) pg va) s.
Proof. intros W Hp. unfold walkpgdir. mstep (ldw_pde _ _ _ va W). by rewrite Hp. Qed.

Lemma walk_missing s l pg va : ptwf s l pg →
  has (pde (pages s) pg (PDX va)) PTE_P = false → walkpgdir pg va false s = Ok 0 s.
Proof. intros W Hp. unfold walkpgdir. mstep (ldw_pde _ _ _ va W). by rewrite Hp. Qed.

(** A new table: the directory after [walkpgdir] has put the page [r] at [i]. *)
Definition zeros : list Z := replicate (Z.to_nat PGSIZE) 0.
Definition pde_of (r : Z) : Z := Z.lor (Z.lor (Z.lor (V2P r) PTE_P) PTE_W) PTE_U.
Definition with_tab (m : gmap Z (list Z)) (pg i r : Z) : gmap Z (list Z) :=
  <[pg := put32 (default [] (<[r := zeros]> m !! pg)) (Z.to_nat (4 * i)) (pde_of r)]>
    (<[r := zeros]> m).

Lemma pde_of_spec r : page_ok kend r → pde_of r = V2P r + 7 ∧ u32 (pde_of r) = V2P r + 7.
Proof.
  intros (Hm & _ & Hp & _). unfold PGSIZE in Hm. pose proof (V2P_aligned _ Hm).
  assert (pde_of r = V2P r + 7) as ->.
  { unfold pde_of. rewrite <- !Z.lor_assoc, lor_aligned; [done|done|]. by vm_compute. }
  split; [done|]. apply u32_small. revert Hp. unfold PHYSTOP, V2P, u32. lia.
Qed.

Lemma zeros_word i : 0 ≤ i < 1024 → get32 zeros (Z.to_nat (4 * i)) = 0.
Proof.
  intros Hi. unfold get32, slice, zeros, PGSIZE. rewrite drop_replicate, take_replicate.
  replace (4 `min` _)%nat with 4%nat by lia. done.
Qed.

Lemma zeros_page m r : r mod 4096 = 0 → is_page (<[r := zeros]> m) r.
Proof.
  intros Hr. split; [done|]. exists zeros. by rewrite lookup_insert_eq.
Qed.

Section with_tab.
Context (s : kstate) (r : Z) (l : list Z) (pg i : Z).
Hypothesis W : ptwf s (r :: l) pg.
Hypothesis Hi : 0 ≤ i < 1024.
Hypothesis Habs : has (pde (pages s) pg i) PTE_P = false.

Lemma with_tab_ne : pg ≠ r.
Proof. intros E. apply (pw_dirl _ _ _ W). rewrite E. by left. Qed.

Lemma with_tab_r : page_ok kend r.
Proof. by destruct (Forall_cons_1 _ _ _ (pw_free _ _ _ W)). Qed.

Lemma zeroed_dir : is_page (<[r := zeros]> (pages s)) pg.
Proof.
  destruct (pw_dir _ _ _ W) as (Hp & d & Hd & Hl). split; [done|]. exists d.
  by rewrite lookup_insert_ne by (apply not_eq_sym, with_tab_ne).
Qed.

Lemma with_tab_pde j : 0 ≤ j < 1024 →
  pde (with_tab (pages s) pg i r) pg j = if bool_decide (i = j) then V2P r + 7 else pde (pages s) pg j.
Proof.
  intros Hj. unfold pde, with_tab. rewrite word_put by (done || apply zeroed_dir).
  rewrite (proj2 (pde_of_spec r with_tab_r)).
  rewrite lookup_insert_ne by (apply not_eq_sym, with_tab_ne).
  erewrite bool_decide_ext; [done|]. naive_solver.
Qed.

Lemma with_tab_has j : 0 ≤ j < 1024 →
  has (pde (with_tab (pages s) pg i r) pg j) PTE_P = bool_decide (i = j) || has (pde (pages s) pg j) PTE_P.
Proof.
  intros Hj. rewrite with_tab_pde by done. case_bool_decide; [|done]. simpl.
  rewrite (has_mod _ 7 PTE_P); [done|by vm_compute|].
  destruct with_tab_r as (Hm & _). unfold PGSIZE in Hm. pose proof (V2P_aligned _ Hm). lia.
Qed.

Lemma with_tab_tab j : 0 ≤ j < 1024 →
  tab (with_tab (pages s) pg i r) pg j = if bool_decide (i = j) then r else tab (pages s) pg j.
Proof.
  intros Hj. unfold tab. rewrite with_tab_pde by done. case_bool_decide; [|done].
  destruct with_tab_r as (Hm & _ & _ & Hr). unfold PGSIZE in Hm.
  rewrite PTE_ADDR_add by (lia || by apply V2P_aligned). apply P2V_V2P. lia.
Qed.

Lemma with_tab_frame q : q ≠ pg → q ≠ r → with_tab (pages s) pg i r !! q = pages s !! q.
Proof. intros ??. unfold with_tab. by rewrite !lookup_insert_ne. Qed.

Lemma with_tab_page q : is_page (pages s) q → is_page (with_tab (pages s) pg i r) q.
Proof.
  intros (Hq & d & Hd & Hl). apply is_page_put; [apply zeroed_dir|done|].
  destruct (decide (r = q)) as [->|]; [by apply zeros_page|].
  split; [done|]. exists d. by rewrite lookup_insert_ne.
Qed.

Lemma with_tab_pte va : pte (with_tab (pages s) pg i r) pg va = pte (pages s) pg va.
Proof.
  pose proof (PDX_bound va) as Hj. pose proof (PTX_bound va) as Ht. unfold pte.
  rewrite with_tab_has, with_tab_tab by done. case_bool_decide as E; cbn [orb].
  - rewrite <- E, Habs. unfold with_tab. rewrite lookup_insert_ne by apply with_tab_ne.
    rewrite lookup_insert_eq. by apply zeros_word.
  - destruct (has (pde (pages s) pg (PDX va)) PTE_P) eqn:Hp; [|done].
    destruct (pw_tab _ _ _ W _ Hj Hp) as (_ & Hne & Hnl). rewrite with_tab_frame; [done|done|set_solver].
Qed.

Lemma with_tab_wf s' : kinv s' l → pages s' = with_tab (pages s) pg i r → ptwf s' l pg.
Proof.
  intros HI Hm. pose proof (pw_free _ _ _ W) as Hfr. apply Forall_cons in Hfr as [_ Hfr].
  pose proof (pw_dirl _ _ _ W) as Hd. apply not_elem_of_cons in Hd as [_ Hd].
  assert (Hnd : r ∉ l).
  { pose proof (ki_nodup _ _ (pw_inv _ _ _ W)) as Hnd. by apply NoDup_cons in Hnd as [??]. }
  split; rewrite ?Hm; try done.
  - apply with_tab_page, W.
  - intros j Hj. rewrite with_tab_has, with_tab_tab by done. case_bool_decide as E; cbn [orb].
    + intros _. split; [|split; [apply not_eq_sym, with_tab_ne|done]].
      apply is_page_put; [apply zeroed_dir|done|]. apply zeros_page. apply with_tab_r.
    + intros Hp. destruct (pw_tab _ _ _ W j Hj Hp) as (? & ? & Hnl).
      apply not_elem_of_cons in Hnl as [_ ?]. split; [by apply with_tab_page|done].
  - assert (Hold : ∀ j, 0 ≤ j < 1024 → has (pde (pages s) pg j) PTE_P = true → tab (pages s) pg j ≠ r).
    { intros j Hj Hp. destruct (pw_tab _ _ _ W j Hj Hp) as (_ & _ & Hnl).
      by apply not_elem_of_cons in Hnl as [? _]. }
    intros j k Hj Hk. rewrite !with_tab_has, !with_tab_tab by done.
    do 2 case_bool_decide; cbn [orb]; try congruence; intros Hpj Hpk E.
    + by destruct (Hold k Hk Hpk).
    + by destruct (Hold j Hj Hpj).
    + by apply (pw_inj _ _ _ W).
Qed.
End with_tab.

(** [walkpgdir] with allocation: it finds or makes the table, and the entries
    are as before; only the directory and a page that was free change. *)
Lemma walk_new s r l pg va : ptwf s (r :: l) pg →
  has (pde (pages s) pg (PDX va)) PTE_P = false →
  ∃ s', walkpgdir pg va true s = Ok (slot (pages s') pg va) s' ∧ ptwf s' l pg
    ∧ pages s' = with_tab (pages s) pg (PDX va) r.
Proof.
  intros W Hp. pose proof (PDX_bound va) as Hb.
  destruct (kalloc_some _ _ _ (pw_inv _ _ _ W)) as (s1 & E1 & HI1 & Hm1 & _).
  pose proof (with_tab_r _ _ _ _ W) as Hr. pose proof (with_tab_ne _ _ _ _ W) as Hne.
  pose proof (pw_dirl _ _ _ W) as Hd. apply not_elem_of_cons in Hd as [_ Hd].
  assert (Hrl : r ∉ l).
  { pose proof (ki_nodup _ _ (pw_inv _ _ _ W)) as Hnd. by apply NoDup_cons in Hnd as [??]. }
  destruct (flist_elem _ _ _ r (ki_list _ _ (pw_inv _ _ _ W))) as [_ [d Hr1]]; [by left|].
  set (s2 := set_pages (<[r := zeros]> (pages s1)) s1).
  assert (Hdir : is_page (pages s2) pg).
  { unfold s2. cbn [pages set_pages]. rewrite Hm1. by apply zeroed_dir with l. }
  eexists. assert (Hpg : pages (set_pages (<[pg := put32 (default [] (pages s2 !! pg))
      (Z.to_nat (4 * PDX va)) (pde_of r)]> (pages s2)) s2) = with_tab (pages s) pg (PDX va) r).
  { unfold s2, with_tab. cbn [pages set_pages]. by rewrite Hm1. }
  split; [|split; [|exact Hpg]].
  - unfold walkpgdir. mstep (ldw_pde _ _ _ va W). rewrite Hp. cbn [negb]. mstep E1.
    destruct Hr as (_ & _ & _ & Hr0). destruct (Z.eqb_spec r 0); [lia|].
    rewrite <- Hm1 in Hr1. mstep (page_set_ok _ _ _ zeros Hr1). fold s2. fold (pde_of r).
    mstep (stw_ok s2 pg (PDX va) (pde_of r) Hdir Hb).
    unfold slot. rewrite Hpg, (with_tab_tab s r l) by done. by rewrite bool_decide_true.
  - apply (with_tab_wf s r l pg (PDX va)); try done.
    apply kinv_insert; [|done]. by apply kinv_insert.
Qed.

(** The tables of a directory, in the order of their entries. *)
Definition ptab (m : gmap Z (list Z)) (pg i : Z) : option Z := if has (pde m pg i) PTE_P then Some (tab m pg i) else None.
Definition ptabs (m : gmap Z (list Z)) (pg : Z) : list Z := omap (ptab m pg) (seqZ 0 1024).

Lemma omap_cons {A B} (f : A → option B) x L : omap f (x :: L) = match f x with Some y => y :: omap f L | None => omap f L end.
Proof. done. Qed.

Lemma omap_new {A B} `{!EqDecision A} (f g : A → option B) (i : A) (r : B) L : NoDup L → i ∈ L → f i = None → g i = Some r →
  (∀ j, j ∈ L → j ≠ i → g j = f j) → omap g L ≡ₚ r :: omap f L.
Proof.
  intros Hn. induction L as [|x L IH]; intros Hi Hf Hg Hs; [by apply elem_of_nil in Hi|].
  apply NoDup_cons in Hn as [Hx Hn]. destruct (decide (x = i)) as [->|Hne].
  - rewrite (omap_cons g), (omap_cons f), Hf, Hg. apply Permutation_skip.
    erewrite list_omap_ext; [done|]. apply Forall_Forall2_diag, Forall_forall. intros j Hj. apply Hs; [by right|]. by intros ->.
  - apply elem_of_cons in Hi as [->|Hi]; [done|].
    assert (IH' : omap g L ≡ₚ r :: omap f L) by (apply IH; try done; intros j Hj; apply Hs; by right).
    rewrite (omap_cons g), (omap_cons f). rewrite (Hs x) by (by left || done).
    destruct (f x); rewrite IH'; [apply Permutation_swap|done].
Qed.

Lemma ptabs_same m m' pg : (∀ i, 0 ≤ i < 1024 → pde m' pg i = pde m pg i) → ptabs m' pg = ptabs m pg.
Proof.
  intros H. unfold ptabs. apply list_omap_ext, Forall_Forall2_diag, Forall_forall. intros i Hi. apply elem_of_seqZ in Hi.
  unfold ptab, tab. by rewrite H by lia.
Qed.

Lemma ptabs_new s r l pg i : ptwf s (r :: l) pg → 0 ≤ i < 1024 → has (pde (pages s) pg i) PTE_P = false →
  ptabs (with_tab (pages s) pg i r) pg ≡ₚ r :: ptabs (pages s) pg.
Proof.
  intros W Hi Hp. apply (omap_new _ _ i).
  - apply NoDup_seqZ.
  - by apply elem_of_seqZ.
  - unfold ptab. by rewrite Hp.
  - unfold ptab. rewrite (with_tab_has s r l), (with_tab_tab s r l) by done. by rewrite bool_decide_true.
  - intros j Hj Hne. apply elem_of_seqZ in Hj. unfold ptab. rewrite (with_tab_has s r l), (with_tab_tab s r l) by (done || lia).
    by rewrite bool_decide_false.
Qed.

Lemma elem_of_ptabs m pg q : q ∈ ptabs m pg ↔ ∃ i, 0 ≤ i < 1024 ∧ has (pde m pg i) PTE_P = true ∧ q = tab m pg i.
Proof.
  unfold ptabs. rewrite list_elem_of_omap. setoid_rewrite elem_of_seqZ. unfold ptab. split.
  - intros (i & Hi & E). destruct (has (pde m pg i) PTE_P) eqn:Hp; [|done]. injection E as <-. exists i. split_and!; (done || lia).
  - intros (i & Hi & Hp & ->). exists i. rewrite Hp. split; [lia|done].
Qed.

Lemma ptabs_nil m pg : (∀ i, 0 ≤ i < 1024 → has (pde m pg i) PTE_P = false) → ptabs m pg = [].
Proof.
  intros H. destruct (ptabs m pg) as [|q l] eqn:E; [done|]. assert (Hq : q ∈ ptabs m pg) by (rewrite E; by left).
  apply elem_of_ptabs in Hq as (i & Hi & Hp & _). by rewrite H in Hp.
Qed.

Lemma ptabs_omap m pg : ptabs m pg = omap (ptab m pg) (seqZ 0 1024).
Proof. done. Qed.

#[global] Opaque ptabs.

(** Tables come into being only for the entries from [i] to [j]. *)
Definition tabs_in (m m' : gmap Z (list Z)) (pg i j : Z) : Prop :=
  ∀ x, 0 ≤ x < 1024 → has (pde m' pg x) PTE_P = true → has (pde m pg x) PTE_P = true ∨ i ≤ x ≤ j.

(** Memory that is neither free nor part of the page table keeps its contents. *)
Definition outside (s : kstate) (l : list Z) (pg q : Z) : Prop :=
  q ∉ l ∧ q ≠ pg ∧ ∀ i, 0 ≤ i < 1024 → has (pde (pages s) pg i) PTE_P = true → q ≠ tab (pages s) pg i.

(** From [s] to [s'] the page table may take pages from the free list; the
    contents of the rest of memory are kept. *)
Record vmstep (pg : Z) (s : kstate) (l : list Z) (s' : kstate) (l' : list Z) : Prop := {
  vs_wf : ptwf s' l' pg;
  vs_suffix : l' `suffix_of` l;
  vs_dom : dom (pages s') = dom (pages s);
  vs_acct : ptabs (pages s') pg ++ l' ≡ₚ ptabs (pages s) pg ++ l;
  vs_out : ∀ q, outside s l pg q → outside s' l' pg q ∧ pages s' !! q = pages s !! q }.

Lemma vmstep_refl pg s l s' : ptwf s' l pg → pages s' = pages s → vmstep pg s l s' l.
Proof. intros W E. split; rewrite ?E; [done..|]. intros q. unfold outside. by rewrite E. Qed.

Lemma vmstep_trans pg s l s1 l1 s2 l2 :
  vmstep pg s l s1 l1 → vmstep pg s1 l1 s2 l2 → vmstep pg s l s2 l2.
Proof.
  intros [_ S1 D1 A1 O1] [W S2 D2 A2 O2]. split; [done|by etrans|congruence|by etrans|].
  intros q Hq. destruct (O1 q Hq) as [Hq1 E1]. destruct (O2 q Hq1) as [? E2]. split; congruence.
Qed.

Lemma vmstep_set pg s l va v : ptwf s l pg →
  has (pde (pages s) pg (PDX va)) PTE_P = true → vmstep pg s l (set_pte s pg va v) l.
Proof.
  intros W Hp. destruct (pw_tab _ _ _ W _ (PDX_bound va) Hp) as ((_ & d & Hd & _) & _).
  split; [by apply set_pte_wf|done| | |].
  - unfold set_pte. cbn [pages set_pages]. rewrite dom_insert_L.
    apply subseteq_union_1_L, singleton_subseteq_l. by apply elem_of_dom_2 in Hd.
  - rewrite (ptabs_same (pages s)); [done|]. intros i Hi. by apply (set_pte_pde _ l).
  - intros q (Hl & Hpg & Ht). split.
    + split_and!; [done..|]. intros i Hi. unfold tab. rewrite (set_pte_pde _ _ _ _ _ _ W Hp). by apply Ht.
    + unfold set_pte. cbn [pages set_pages]. apply lookup_insert_ne.
      apply not_eq_sym, Ht; [apply PDX_bound|done].
Qed.

Lemma vmstep_tab pg s r l i s' : ptwf s (r :: l) pg → 0 ≤ i < 1024 →
  has (pde (pages s) pg i) PTE_P = false → ptwf s' l pg →
  pages s' = with_tab (pages s) pg i r → vmstep pg s (r :: l) s' l.
Proof.
  intros W Hi Habs W' Hm. pose proof (pw_dir _ _ _ W) as (_ & d & Hd & _).
  destruct (flist_elem _ _ _ r (ki_list _ _ (pw_inv _ _ _ W))) as [_ Hr]; [by left|].
  split; [done|by apply suffix_cons_r| | |].
  - rewrite Hm. unfold with_tab. rewrite !dom_insert_L.
    apply elem_of_dom_2 in Hd. apply elem_of_dom in Hr. set_solver.
  - rewrite Hm, (ptabs_new s r l pg i W Hi Habs). simpl. apply Permutation_middle.
  - intros q (Hl & Hpg & Ht). apply not_elem_of_cons in Hl as [Hqr Hql]. split.
    + split_and!; [done..|]. intros j Hj. rewrite Hm.
      rewrite (with_tab_has s r l), (with_tab_tab s r l) by done.
      case_bool_decide; [done|]. cbn [orb]. by apply Ht.
    + rewrite Hm. by apply with_tab_frame.
Qed.

Lemma walk_alloc s l pg va : ptwf s l pg →
  (∃ s' l', walkpgdir pg va true s = Ok (slot (pages s') pg va) s' ∧ vmstep pg s l s' l'
     ∧ has (pde (pages s') pg (PDX va)) PTE_P = true
     ∧ (∀ va', pte (pages s') pg va' = pte (pages s) pg va')
     ∧ tabs_in (pages s) (pages s') pg (PDX va) (PDX va))
  ∨ (l = [] ∧ ∃ s', walkpgdir pg va true s = Ok 0 s' ∧ vmstep pg s l s' [] ∧ pages s' = pages s ∧ has (pde (pages s) pg (PDX va)) PTE_P = false).
Proof.
  intros W. pose proof (PDX_bound va) as Hb.
  destruct (has (pde (pages s) pg (PDX va)) PTE_P) eqn:Hp.
  - left. exists s, l. split_and!; [by eapply walk_found|by apply vmstep_refl|done|done|by left].
  - destruct l as [|r l].
    + right. split; [done|]. destruct (kalloc_none _ (pw_inv _ _ _ W)) as (s' & E & HI & Hm & _).
      exists s'. assert (W' : ptwf s' [] pg).
      { destruct W. split; rewrite ?Hm; done. }
      split_and!; [|by apply vmstep_refl|done|done].
      unfold walkpgdir. mstep (ldw_pde _ _ _ va W). rewrite Hp. cbn [negb]. by mstep E.
    + left. destruct (walk_new _ _ _ _ va W Hp) as (s' & E & W' & Hm). exists s', l.
      split_and!; [done|by eapply vmstep_tab| | |]; rewrite Hm.
      * rewrite (with_tab_has s r l) by done. by rewrite bool_decide_true.
      * intros va'. by apply (with_tab_pte s r l).
      * intros x Hx. rewrite (with_tab_has s r l) by done. case_bool_decide; [right; lia|by left].
Qed.

(** ** Mapping a range *)

(** The entry [mappages] writes. *)
Definition entry (pa perm : Z) : Z := u32 (Z.lor (Z.lor pa perm) PTE_P).

Lemma same_pg_spec a va : a mod 4096 = 0 → 0 ≤ a < 4294967296 → 0 ≤ va < 4294967296 →
  same_pg a va ↔ a ≤ va < a + 4096.
Proof. intros. unfold same_pg. rewrite !PDX_spec, !PTX_spec. split; intros; lia. Qed.

(** The entries after mapping [n] pages from [a] to [pa]. *)
Definition mapped (a pa perm : Z) (n : Z) (f : Z → Z) (va : Z) : Z :=
  if bool_decide (a ≤ va < a + n * 4096) then entry (pa + (va - va mod 4096 - a)) perm else f va.

Lemma mapped_step a pa perm n f va : 0 ≤ n → a mod 4096 = 0 →
  mapped (a + 4096) (pa + 4096) perm n (mapped a pa perm 1 f) va = mapped a pa perm (n + 1) f va.
Proof.
  intros Hn Ha. unfold mapped.
  destruct (decide (a ≤ va < a + 4096)); [|destruct (decide (a ≤ va < a + (n + 1) * 4096))].
  - rewrite bool_decide_false, !bool_decide_true by lia. done.
  - rewrite !bool_decide_true by lia. f_equal. lia.
  - by rewrite !bool_decide_false by lia.
Qed.

(** One round: the entry for [a] is written. *)
Lemma map_one s l pg a pa perm : ptwf s l pg → 0 ∉ dom (pages s) →
  a mod 4096 = 0 → 0 ≤ a < 4294967296 → has (pte (pages s) pg a) PTE_P = false →
  (∃ s' l', vmstep pg s l s' l'
     ∧ (∀ va, 0 ≤ va < 4294967296 →
          pte (pages s') pg va = mapped a pa perm 1 (pte (pages s) pg) va)
     ∧ tabs_in (pages s) (pages s') pg (PDX a) (PDX a)
     ∧ ∀ k last, mappages_loop k pg a last pa perm s =
         (if a =? last then mret 0 else
          match k with
          | O => no_fuel
          | S k' => mappages_loop k' pg (u32 (a + PGSIZE)) last (u32 (pa + PGSIZE)) perm
          end) s')
  ∨ (l = [] ∧ ∃ s', vmstep pg s l s' [] ∧ pages s' = pages s ∧ has (pde (pages s) pg (PDX a)) PTE_P = false
     ∧ ∀ k last, mappages_loop k pg a last pa perm s = Ok (-1) s').
Proof.
  intros W H0 Ha Hr Hp. destruct (walk_alloc s l pg a W) as [(s1 & l1 & E & V & Hp1 & Hpte & Hin)|(-> & s1 & E & V & Hm & Hno)].
  - left. pose proof (vs_wf _ _ _ _ _ V) as W1. exists (set_pte s1 pg a (Z.lor (Z.lor pa perm) PTE_P)), l1.
    destruct (pw_tab _ _ _ W1 _ (PDX_bound a) Hp1) as (Hpg & _).
    split_and!.
    + eapply vmstep_trans; [done|]. by apply vmstep_set.
    + intros va Hva. rewrite (set_pte_pte _ _ _ _ _ _ W1 Hp1). unfold mapped.
      rewrite Hpte. rewrite (bool_decide_ext _ _ (same_pg_spec a va Ha Hr Hva)).
      replace (a + 1 * 4096) with (a + 4096) by lia. case_bool_decide; [|done].
      unfold entry. replace (pa + _) with pa by lia. done.
    + intros x Hx. rewrite (set_pte_pde _ _ _ _ _ _ W1 Hp1). by apply Hin.
    + intros k last. destruct k; cbn [mappages_loop]; mstep E;
        (rewrite (proj2 (Z.eqb_neq _ _)) by (eapply slot_nz; [done|by rewrite (vs_dom _ _ _ _ _ V)|done]));
        unfold slot; mstep (ldw_ok s1 _ _ Hpg (PTX_bound a));
        (replace (get32 _ _) with (pte (pages s1) pg a) by (unfold pte; by rewrite Hp1));
        rewrite Hpte, Hp; by mstep (stw_ok s1 _ _ (Z.lor (Z.lor pa perm) PTE_P) Hpg (PTX_bound a)).
  - right. split; [done|]. exists s1. split_and!; [done..|]. intros k last.
    destruct k; cbn [mappages_loop]; by mstep E.
Qed.

Lemma mappages_loop_ok k : ∀ s l pg a pa perm, ptwf s l pg → 0 ∉ dom (pages s) →
  a mod 4096 = 0 → 0 ≤ a → a + Z.of_nat k * 4096 < 4294967296 →
  0 ≤ pa → pa + Z.of_nat k * 4096 < 4294967296 →
  (∀ va, a ≤ va < a + Z.of_nat (S k) * 4096 → has (pte (pages s) pg va) PTE_P = false) →
  ∃ r s' l' n, mappages_loop k pg a (a + Z.of_nat k * 4096) pa perm s = Ok r s'
    ∧ vmstep pg s l s' l' ∧ 0 ≤ n ≤ Z.of_nat (S k)
    ∧ (∀ va, 0 ≤ va < 4294967296 →
         pte (pages s') pg va = mapped a pa perm n (pte (pages s) pg) va)
    ∧ tabs_in (pages s) (pages s') pg (PDX a) (PDX (a + Z.of_nat k * 4096))
    ∧ ((r = 0 ∧ n = Z.of_nat (S k)) ∨ (r = -1 ∧ l' = [] ∧ n < Z.of_nat (S k) ∧
         ∃ x, PDX a ≤ x ≤ PDX (a + Z.of_nat k * 4096) ∧ has (pde (pages s') pg x) PTE_P = false)).
Proof.
  induction k as [|k IH]; intros s l pg a pa perm W H0 Ha Ha0 Hlast Hp0 Hpl Hfree;
    (destruct (map_one s l pg a pa perm W H0 Ha) as [(s1 & l1 & V & Hpte & Hin & E)|(-> & s1 & V & Hm & Hno & E)];
      [lia|apply Hfree; lia|rewrite E|rewrite E]).
  - rewrite (proj2 (Z.eqb_eq _ _)) by lia. exists 0, s1, l1, 1. split_and!; [done|done|lia..|done|by rewrite Z.add_0_r|by left].
  - exists (-1), s1, [], 0. split_and!; [done|done|lia..| |by rewrite Hm; left|right; split_and!; [done|done|lia|exists (PDX a); rewrite Hm, !PDX_spec in *; split; [lia|done]]]. intros va Hva. unfold mapped.
    rewrite Hm, bool_decide_false by lia. done.
  - rewrite (proj2 (Z.eqb_neq _ _)) by lia. unfold PGSIZE. rewrite !u32_small by lia.
    destruct (IH s1 l1 pg (a + 4096) (pa + 4096) perm) as (r & s2 & l2 & n & E2 & V2 & Hn & Hpte2 & Hin2 & Hres);
      try lia; [apply V|by rewrite (vs_dom _ _ _ _ _ V)| |].
    { intros va Hva. rewrite Hpte by lia. unfold mapped.
      rewrite bool_decide_false by lia. apply Hfree. lia. }
    exists r, s2, l2, (n + 1). split_and!.
    + replace (a + Z.of_nat (S k) * 4096) with (a + 4096 + Z.of_nat k * 4096) by lia. done.
    + by eapply vmstep_trans.
    + lia.
    + lia.
    + intros va Hva. rewrite <- mapped_step by lia. rewrite Hpte2 by done.
      unfold mapped at 1 2. case_bool_decide; [done|]. by apply Hpte.
    + intros x Hx Hp. destruct (Hin2 x Hx Hp) as [Hp1|Hr].
      * destruct (Hin x Hx Hp1) as [|Hr]; [by left|right]. revert Hr. rewrite !PDX_spec. lia.
      * right. revert Hr. rewrite !PDX_spec. lia.
    + destruct Hres as [[-> ->]|(-> & -> & Hlt & x & Hx & Hno)]; [left|right]; split_and!; try (done || lia).
      exists x. split; [|done]. revert Hx. rewrite !PDX_spec. lia.
  - exists (-1), s1, [], 0. split_and!; [done|done|lia..| |by rewrite Hm; left|right; split_and!; [done|done|lia|exists (PDX a); rewrite Hm, !PDX_spec in *; split; [lia|done]]]. intros va Hva. unfold mapped.
    rewrite Hm, bool_decide_false by lia. done.
Qed.

(** [mappages] maps the pages of [va .. va + size - 1] to the pages from [pa]
    on and keeps all other entries; when memory runs out it returns -1. *)
Lemma mappages_ok s l pg va size pa perm : ptwf s l pg → 0 ∉ dom (pages s) →
  0 ≤ va → 0 < size → va + size ≤ 4294967296 →
  let a := PGROUNDDOWN va in let k := (va + size - 1) / 4096 - va / 4096 in
  0 ≤ pa → pa + k * 4096 < 4294967296 →
  (∀ v, a ≤ v < a + (k + 1) * 4096 → has (pte (pages s) pg v) PTE_P = false) →
  ∃ r s' l' n, mappages pg va size pa perm s = Ok r s'
    ∧ vmstep pg s l s' l' ∧ 0 ≤ n ≤ k + 1
    ∧ (∀ v, 0 ≤ v < 4294967296 → pte (pages s') pg v = mapped a pa perm n (pte (pages s) pg) v)
    ∧ tabs_in (pages s) (pages s') pg (PDX a) (PDX (a + k * 4096))
    ∧ ((r = 0 ∧ n = k + 1) ∨ (r = -1 ∧ l' = [] ∧ n < k + 1 ∧
         ∃ x, PDX a ≤ x ≤ PDX (a + k * 4096) ∧ has (pde (pages s') pg x) PTE_P = false)).
Proof.
  intros W H0 Hva Hsz Hend a k Hpa Hpl Hfree.
  assert (Ek : Z.of_nat (Z.to_nat k) = k) by (unfold k; lia).
  assert (Ea : a = va / 4096 * 4096) by (unfold a; rewrite PGROUNDDOWN_spec; lia).
  destruct (mappages_loop_ok (Z.to_nat k) s l pg a pa perm) as (r & s' & l' & n & E & V & Hn & Hpte & Hin & Hres);
    rewrite ?Nat2Z.inj_succ, ?Ek in *; try done; try (subst k; rewrite Ea; lia).
  exists r, s', l', n. split_and!; try done; try lia.
  - unfold mappages. fold a. rewrite (u32_small (va + size - 1)) by lia.
    rewrite PGROUNDDOWN_spec.
    replace (va + size - 1 - (va + size - 1) mod 4096) with (a + k * 4096) by (unfold k; lia).
    replace (a + k * 4096 - a) with (k * 4096) by lia. rewrite u32_small by (unfold k; lia).
    unfold PGSIZE. by rewrite Z.div_mul by lia.
Qed.

(** ** User memory *)

(** The page behind a user address, its bytes, and what it takes for a user
    address to be accessible. *)
Definition upage (m : gmap Z (list Z)) (pg va : Z) : Z := P2V (PTE_ADDR (pte m pg va)).
Definition ubyte (m : gmap Z (list Z)) (pg va : Z) : option Z :=
  default [] (m !! upage m pg va) !! Z.to_nat (va mod 4096).
Definition uok (s : kstate) (l : list Z) (pg va : Z) : Prop :=
  0 ≤ va < 4294967296 ∧ has (pte (pages s) pg va) PTE_P = true ∧ has (pte (pages s) pg va) PTE_U = true
  ∧ is_page (pages s) (upage (pages s) pg va) ∧ outside s l pg (upage (pages s) pg va).

Lemma pte_has m pg va : has (pte m pg va) PTE_P = true → has (pde m pg (PDX va)) PTE_P = true.
Proof. unfold pte. by destruct (has (pde m pg (PDX va)) PTE_P). Qed.

Lemma pte_round m pg va : 0 ≤ va < 4294967296 → pte m pg (PGROUNDDOWN va) = pte m pg va.
Proof.
  intros Hva. assert (same_pg (PGROUNDDOWN va) va) as [E1 E2].
  { rewrite PGROUNDDOWN_spec. apply same_pg_spec; lia. }
  unfold pte. by rewrite E1, E2.
Qed.

(** [s2] has the page table of [s1]. *)
Record same_pt (pg : Z) (l : list Z) (s1 s2 : kstate) : Prop := {
  st_wf : ptwf s2 l pg;
  st_pte : ∀ va, pte (pages s2) pg va = pte (pages s1) pg va;
  st_dom : dom (pages s2) = dom (pages s1);
  st_page : ∀ q, is_page (pages s2) q ↔ is_page (pages s1) q;
  st_out : ∀ q, outside s2 l pg q ↔ outside s1 l pg q;
  st_pde : ∀ i, pde (pages s2) pg i = pde (pages s1) pg i }.

Lemma data_store s l pg q d : ptwf s l pg → outside s l pg q → is_page (pages s) q →
  length d = Z.to_nat PGSIZE → same_pt pg l s (set_pages (<[q := d]> (pages s)) s).
Proof.
  intros W (Hl & Hpg & Ht) (Hq & d0 & Hd0 & Hl0) Hd. set (s' := set_pages _ s).
  assert (Hpde : ∀ i, pde (pages s') pg i = pde (pages s) pg i).
  { intros i. unfold pde, s'. cbn [pages set_pages]. by rewrite lookup_insert_ne. }
  assert (Htab : ∀ i, tab (pages s') pg i = tab (pages s) pg i).
  { intros i. unfold tab. by rewrite Hpde. }
  assert (Hpage : ∀ p, is_page (pages s') p ↔ is_page (pages s) p).
  { intros p. unfold is_page, s'. cbn [pages set_pages].
    destruct (decide (q = p)) as [->|]; [|by rewrite lookup_insert_ne].
    rewrite lookup_insert_eq, Hd0. split; intros [_ _]; eauto. }
  split; [split| | |done| |done].
  - apply kinv_insert; [apply W|done].
  - apply W.
  - apply Hpage, W.
  - apply W.
  - intros i Hi. rewrite Hpde, Htab, Hpage. apply (pw_tab _ _ _ W i Hi).
  - intros i j Hi Hj. rewrite !Hpde, !Htab. by apply (pw_inj _ _ _ W).
  - intros va. unfold pte. rewrite Hpde, Htab.
    destruct (has (pde (pages s) pg (PDX va)) PTE_P) eqn:Hp; [|done].
    unfold s'. cbn [pages set_pages]. rewrite lookup_insert_ne; [done|]. apply Ht; [apply PDX_bound|done].
  - unfold s'. cbn [pages set_pages]. rewrite dom_insert_L.
    apply subseteq_union_1_L, singleton_subseteq_l. by apply elem_of_dom_2 in Hd0.
  - intros p. unfold outside. by setoid_rewrite Hpde; setoid_rewrite Htab.
Qed.

Lemma uva2ka_ok s l pg va : ptwf s l pg → uok s l pg va →
  uva2ka pg (PGROUNDDOWN va) s = Ok (upage (pages s) pg va) s.
Proof.
  intros W (Hva & Hp & Hu & _). unfold uva2ka. rewrite <- (pte_round _ _ va Hva) in Hp, Hu.
  pose proof (pte_has _ _ _ Hp) as Hd. mstep (walk_found _ _ _ _ false W Hd). unfold slot.
  destruct (pw_tab _ _ _ W _ (PDX_bound _) Hd) as (Hpg & _).
  mstep (ldw_ok s _ _ Hpg (PTX_bound (PGROUNDDOWN va))).
  replace (get32 _ _) with (pte (pages s) pg (PGROUNDDOWN va)) by (unfold pte; by rewrite Hd).
  rewrite Hp, Hu. cbn [negb]. unfold upage. by rewrite pte_round.
Qed.

(** Distinct accessible pages are distinct pages of memory. *)
Definition uinj (s : kstate) (l : list Z) (pg : Z) : Prop :=
  ∀ v1 v2, uok s l pg v1 → uok s l pg v2 →
    upage (pages s) pg v1 = upage (pages s) pg v2 → v1 / 4096 = v2 / 4096.

Lemma same_pt_uok pg l s1 s2 v : same_pt pg l s1 s2 → uok s2 l pg v ↔ uok s1 l pg v.
Proof. intros H. unfold uok, upage. by rewrite (st_pte _ _ _ _ H), (st_page _ _ _ _ H), (st_out _ _ _ _ H). Qed.

Lemma same_pt_uinj pg l s1 s2 : same_pt pg l s1 s2 → uinj s1 l pg → uinj s2 l pg.
Proof.
  intros H Hi v1 v2. rewrite !(same_pt_uok _ _ _ _ _ H). unfold upage.
  rewrite !(st_pte _ _ _ _ H). apply Hi.
Qed.

Lemma same_pt_refl pg l s : ptwf s l pg → same_pt pg l s s.
Proof. by split. Qed.

Lemma same_pt_trans pg l s1 s2 s3 : same_pt pg l s1 s2 → same_pt pg l s2 s3 → same_pt pg l s1 s3.
Proof. 
  intros [_ A1 D1 B1 C1 P1] [W A2 D2 B2 C2 P2]. split; [done|congruence..| | |congruence]; intros q.
  - by rewrite B2.
  - by rewrite C2.
Qed.

Lemma copy_into_ok s p off bs d : pages s !! p = Some d →
  copy_into p off bs s = Ok tt (set_pages (<[p := splice (Z.to_nat off) bs d]> (pages s)) s).
Proof.
  intros E. unfold copy_into. mstep (page_at_ok _ _ _ E). by rewrite (page_set_ok _ _ _ _ E).
Qed.

(** A copy within one user page. *)
Lemma copy_user s l pg va bs : ptwf s l pg → uok s l pg va → uinj s l pg →
  va mod 4096 + Z.of_nat (length bs) ≤ 4096 →
  ∃ s', copy_into (upage (pages s) pg va) (va mod 4096) bs s = Ok tt s' ∧ same_pt pg l s s'
    ∧ (∀ v, uok s l pg v → ubyte (pages s') pg v =
         if bool_decide (va ≤ v < va + Z.of_nat (length bs))
         then bs !! Z.to_nat (v - va) else ubyte (pages s) pg v)
    ∧ (∀ q, q ≠ upage (pages s) pg va → pages s' !! q = pages s !! q).
Proof.
  intros W U Hinj Hlen. pose proof U as (Hva & Hp & Hu & (Hal & d & Hd & Hld) & Ho).
  assert (Hld' : length d = 4096%nat) by done.
  assert (Hfit : (Z.to_nat (va mod 4096) + length bs ≤ length d)%nat) by lia.
  assert (HS : same_pt pg l s (set_pages
     (<[upage (pages s) pg va := splice (Z.to_nat (va mod 4096)) bs d]> (pages s)) s)).
  { apply data_store; [done|done|by split; [|exists d]|by rewrite length_splice]. }
  eexists. split; [by apply copy_into_ok|]. split; [done|].
  split; [|intros q Hq; cbn [pages set_pages]; by apply lookup_insert_ne]. intros v Hv. unfold ubyte at 1. unfold upage at 1. rewrite (st_pte _ _ _ _ HS).
  fold (upage (pages s) pg v). cbn [pages set_pages].
  destruct (decide (upage (pages s) pg va = upage (pages s) pg v)) as [E|E].
  - assert (Hq : va / 4096 = v / 4096).
    { by apply Hinj. }
    rewrite E, lookup_insert_eq. cbn [from_option id]. unfold ubyte. rewrite <- E, Hd. cbn [from_option id].
    case_bool_decide.
    + rewrite lookup_splice_in by lia. f_equal. lia.
    + destruct (decide (v < va)); [apply lookup_splice_lt; lia|apply lookup_splice_ge; lia].
  - rewrite lookup_insert_ne by done. rewrite bool_decide_false; [done|]. intros Hr. apply E.
    unfold upage. rewrite <- (pte_round _ _ va), <- (pte_round _ _ v) by (done || apply Hv).
    do 3 f_equal. rewrite !PGROUNDDOWN_spec. lia.
Qed.

(** The entry is present, and for the user. *)
Definition user (m : gmap Z (list Z)) (pg v : Z) : bool := has (pte m pg v) PTE_P && has (pte m pg v) PTE_U.

(** An address with a page table; if it is the user's it is a page of memory. *)
Definition reach (s : kstate) (l : list Z) (pg v : Z) : Prop :=
  has (pde (pages s) pg (PDX v)) PTE_P = true ∧ (user (pages s) pg v = true → uok s l pg v).

Lemma uva2ka_not s l pg va : ptwf s l pg → 0 ≤ va < 4294967296 → has (pde (pages s) pg (PDX va)) PTE_P = true →
  user (pages s) pg va = false → uva2ka pg (PGROUNDDOWN va) s = Ok 0 s.
Proof.
  intros W Hva Hd Hu. unfold uva2ka. unfold user in Hu. rewrite <- (pte_round _ _ va Hva) in Hu.
  assert (Hx : PDX (PGROUNDDOWN va) = PDX va) by (rewrite PGROUNDDOWN_spec, !PDX_spec; lia). rewrite <- Hx in Hd.
  mstep (walk_found _ _ _ _ false W Hd). unfold slot. destruct (pw_tab _ _ _ W _ (PDX_bound _) Hd) as (Hpg & _).
  mstep (ldw_ok s _ _ Hpg (PTX_bound (PGROUNDDOWN va))).
  replace (get32 _ _) with (pte (pages s) pg (PGROUNDDOWN va)) by (unfold pte; by rewrite Hd).
  destruct (has (pte (pages s) pg (PGROUNDDOWN va)) PTE_P); cbn [negb andb] in *; [by rewrite Hu|done].
Qed.

(** What is written of [buf] at [va] when the first [n] bytes go through. *)
Definition put_user (pg va n : Z) (buf : list Z) (s s' : kstate) (l : list Z) : Prop :=
  (∀ v, uok s l pg v → ubyte (pages s') pg v = if bool_decide (va ≤ v < va + n) then buf !! Z.to_nat (v - va) else ubyte (pages s) pg v) ∧
  ∀ q, (∀ v, va ≤ v < va + n → q ≠ upage (pages s) pg v) → pages s' !! q = pages s !! q.

(** Two consecutive copies are one. *)
Lemma put_user_trans pg va n1 n2 buf s s1 s2 l : 0 ≤ n1 ≤ Z.of_nat (length buf) → 0 ≤ n2 → same_pt pg l s s1 →
  put_user pg va n1 (take (Z.to_nat n1) buf) s s1 l → put_user pg (va + n1) n2 (drop (Z.to_nat n1) buf) s1 s2 l → put_user pg va (n1 + n2) buf s s2 l.
Proof.
  intros H1 H2 S [B1 F1] [B2 F2]. split.
  - intros v Hv. rewrite B2, B1 by (done || by apply (same_pt_uok _ _ _ _ _ S)). destruct (decide (va + n1 ≤ v < va + n1 + n2)).
    + rewrite !bool_decide_true by lia. rewrite lookup_drop. f_equal. lia.
    + rewrite bool_decide_false by lia. destruct (decide (va ≤ v < va + n1)).
      * rewrite !bool_decide_true by lia. apply lookup_take_lt. lia.
      * by rewrite !bool_decide_false by lia.
  - intros q Hq. rewrite F2, F1; [done|intros v Hv; apply Hq; lia|]. intros v Hv. unfold upage. rewrite (st_pte _ _ _ _ S). apply Hq. lia.
Qed.

(** How far a copy gets: to the end, or to the first address that is not the user's. *)
Definition copied_to (s : kstate) (l : list Z) (pg va n len r : Z) : Prop :=
  0 ≤ n ≤ len ∧ (∀ v, va ≤ v < va + n → uok s l pg v) ∧
  ((r = 0 ∧ n = len) ∨ (r = -1 ∧ n < len ∧ user (pages s) pg (va + n) = false)).

Lemma copyout_loop_ok fuel : ∀ s l pg va buf, ptwf s l pg → uinj s l pg → 0 ∉ dom (pages s) → (length buf ≤ fuel)%nat →
  0 ≤ va → va + Z.of_nat (length buf) ≤ 4294967296 → (∀ v, va ≤ v < va + Z.of_nat (length buf) → reach s l pg v) →
  ∃ r s' n, copyout_loop fuel pg va buf s = Ok r s' ∧ same_pt pg l s s' ∧ copied_to s l pg va n (Z.of_nat (length buf)) r ∧ put_user pg va n buf s s' l.
Proof.
  assert (Hnil : ∀ s l pg va, ptwf s l pg → copied_to s l pg va 0 0 0 ∧ same_pt pg l s s ∧ put_user pg va 0 [] s s l).
  { intros s l pg va W. unfold copied_to, put_user. split_and!; [lia|lia|intros; lia|by left|by apply same_pt_refl| |done].
    intros v _. by rewrite bool_decide_false by lia. }
  induction fuel as [|fuel IH]; intros s l pg va buf W Hinj H0 Hfuel Hva Hend Hok.
  all: destruct buf as [|b buf]; [exists 0, s, 0; destruct (Hnil s l pg va W) as (? & ? & ?); by split_and!|].
  { simpl in Hfuel. lia. }
  set (bs := b :: buf) in *. assert (Hpos : (0 < length bs)%nat) by apply Nat.lt_0_succ. clearbody bs.
  cbn [copyout_loop]. rewrite bool_decide_false by (intros ->; inversion Hpos). cbv zeta. destruct (Hok va ltac:(lia)) as [Hd Hu].
  destruct (user (pages s) pg va) eqn:Eu; cycle 1.
  { mstep (uva2ka_not s l pg va W ltac:(lia) Hd Eu). exists (-1), s, 0. unfold copied_to, put_user. split_and!; [done|by apply same_pt_refl|lia|lia|intros; lia| |intros v _|done].
    - right. rewrite Z.add_0_r. split_and!; [done|lia|done].
    - by rewrite bool_decide_false by lia. }
  pose proof (Hu eq_refl) as U. mstep (uva2ka_ok _ _ _ _ W U). pose proof U as (_ & _ & _ & (_ & d & Hd' & _) & _).
  rewrite (proj2 (Z.eqb_neq _ _)) by (intros E; rewrite E in Hd'; by apply H0; eapply elem_of_dom_2).
  rewrite PGROUNDDOWN_spec. replace (va - (va - va mod 4096)) with (va mod 4096) by lia. set (n := if _ <? _ then _ else _).
  assert (Hn : 0 < n ≤ Z.of_nat (length bs) ∧ va mod 4096 + n ≤ 4096 ∧ (n = Z.of_nat (length bs) ∨ va + n = va - va mod 4096 + 4096)).
  { unfold n, PGSIZE. destruct (Z.ltb_spec (Z.of_nat (length bs)) (4096 - va mod 4096)); lia. }
  clearbody n. destruct (copy_user s l pg va (take (Z.to_nat n) bs) W U Hinj) as (s1 & E1 & S1 & B1 & F1); [rewrite length_take; lia|].
  mstep E1. rewrite length_take in B1. replace (Z.of_nat (Z.to_nat n `min` length bs)) with n in B1 by lia.
  assert (P1 : put_user pg va n (take (Z.to_nat n) bs) s s1 l) by (split; [done|]; intros q Hq; apply F1, Hq; lia).
  assert (Hpage : ∀ v, va ≤ v < va + n → uok s l pg v).
  { intros v Hv. apply (Hok v ltac:(lia)). unfold user. rewrite <- (pte_round _ _ v) by lia. rewrite PGROUNDDOWN_spec.
    replace (v - v mod 4096) with (va - va mod 4096) by lia. rewrite <- PGROUNDDOWN_spec, pte_round by lia. exact Eu. }
  destruct (decide (n = Z.of_nat (length bs))) as [->|Hne].
  - rewrite Nat2Z.id, drop_ge by lia. destruct (Hnil s1 l pg va (st_wf _ _ _ _ S1)) as (_ & S2 & _).
    rewrite Nat2Z.id, take_ge in P1 by lia. exists 0, s1, (Z.of_nat (length bs)). unfold copied_to. split_and!; [by destruct fuel|done|lia|lia|done|by left|exact P1].
  - destruct Hn as (Hn1 & Hn2 & [?|Hn3]); [lia|]. replace (u32 (va - va mod 4096 + PGSIZE)) with (va + n) by (unfold PGSIZE; rewrite u32_small; lia).
    destruct (IH s1 l pg (va + n) (drop (Z.to_nat n) bs)) as (r & s2 & m & E2 & S2 & (C1 & C2 & C3) & P2).
    + apply S1.
    + by eapply same_pt_uinj.
    + by rewrite (st_dom _ _ _ _ S1).
    + rewrite length_drop. lia.
    + lia.
    + rewrite length_drop. lia.
    + rewrite length_drop. intros v Hv. destruct (Hok v ltac:(lia)) as [K1 K2]. split; [by rewrite (st_pde _ _ _ _ S1)|].
      unfold user. rewrite (st_pte _ _ _ _ S1), (same_pt_uok _ _ _ _ _ S1). exact K2.
    + rewrite length_drop in C1, C3. exists r, s2, (n + m). split_and!; [done|by eapply same_pt_trans|..].
      * unfold copied_to. split_and!; [lia|lia| |].
        -- intros v Hv. destruct (decide (v < va + n)); [apply Hpage; lia|]. apply (same_pt_uok _ _ _ _ _ S1), C2. lia.
        -- rewrite Z.add_assoc. unfold user in *. rewrite (st_pte _ _ _ _ S1) in C3. destruct C3 as [[-> ->]|(-> & ? & ?)]; [left|right]; split_and!; (done || lia).
      * eapply (put_user_trans pg va n m); [lia|lia|done|done|done].
Qed.
End tables.

(** ** The theorems *)

(** [mappages] on a well-formed page table whose range is unmapped maps
    every page of [va .. va+size-1] to its page from [pa] on with the given
    permissions, keeps every other entry, keeps all memory that is neither free
    nor part of the page table, and returns 0; when the page allocator runs dry
    it returns -1, and still no entry outside the range has changed.  The page
    table stays well formed. *)
Theorem mappages_correct kend s l pg va size pa perm : ptwf kend s l pg → 0 ∉ dom (pages s) →
  0 ≤ va → 0 < size → va + size ≤ 4294967296 →
  let a := PGROUNDDOWN va in let k := (va + size - 1) / 4096 - va / 4096 in
  0 ≤ pa → pa + k * 4096 < 4294967296 →
  (∀ v, a ≤ v < a + (k + 1) * 4096 → has (pte (pages s) pg v) PTE_P = false) →
  ∃ r s' l', mappages pg va size pa perm s = Ok r s' ∧ ptwf kend s' l' pg
    ∧ (∀ q, outside s l pg q → pages s' !! q = pages s !! q)
    ∧ (∀ v, 0 ≤ v < 4294967296 → ¬ (a ≤ v < a + (k + 1) * 4096) →
         pte (pages s') pg v = pte (pages s) pg v)
    ∧ ((r = 0 ∧ ∀ v, 0 ≤ v < 4294967296 → a ≤ v < a + (k + 1) * 4096 →
          pte (pages s') pg v = entry (pa + (v - v mod 4096 - a)) perm)
       ∨ (r = -1 ∧ l' = [])).
Proof.
  intros W H0 Hva Hsz Hend a k Hpa Hpl Hfree.
  destruct (mappages_ok kend s l pg va size pa perm W H0 Hva Hsz Hend Hpa Hpl Hfree)
    as (r & s' & l' & n & E & V & Hn & Hpte & _ & Hres). fold a k in Hn, Hpte, Hres.
  exists r, s', l'. split_and!; [done|apply V| | |].
  - intros q Hq. by apply (vs_out _ _ _ _ _ _ V).
  - intros v Hv Hout. rewrite Hpte by done. unfold mapped. by rewrite bool_decide_false by lia.
  - destruct Hres as [[-> ->]|(-> & -> & _)]; [left|by right]. split; [done|]. intros v Hv Hin.
    rewrite Hpte by done. unfold mapped. by rewrite bool_decide_true.
Qed.


(** [uva2ka] reads the entry without testing that there is a page table
    for the address: where there is none the kernel dereferences address 0. *)
Theorem uva2ka_null kend s l pg va : ptwf kend s l pg → 0 ∉ dom (pages s) →
  has (pde (pages s) pg (PDX va)) PTE_P = false → uva2ka pg va s = Undef.
Proof.
  intros W H0 Hp. unfold uva2ka. mstep (walk_missing kend s l pg va W Hp).
  unfold ldw, page_at, mbind, M_bind, get. change (PGROUNDDOWN 0) with 0.
  by apply not_elem_of_dom in H0 as ->.
Qed.

(** ** A small page table *)

(** One free page, an empty page directory and a page of data. *)
Definition vpage3 : Z := 0x8010b000.
Definition vm3 : kstate :=
  mkk false 1 page1 {[page1 := zeros; page2 := zeros; vpage3 := zeros]}.

Lemma zeros_len : length zeros = Z.to_nat PGSIZE.
Proof. apply length_replicate. Qed.

Lemma vm3_dir : pages vm3 !! page2 = Some zeros.
Proof. done. Qed.

Lemma vm3_pde i : 0 ≤ i < 1024 → pde (pages vm3) page2 i = 0.
Proof. intros Hi. unfold pde. rewrite vm3_dir. cbn [from_option id]. by apply zeros_word. Qed.

Lemma vm3_wf : ptwf end0 vm3 [page1] page2.
Proof.
  assert (Habs : ∀ i, 0 ≤ i < 1024 → has (pde (pages vm3) page2 i) PTE_P = false).
  { intros i Hi. by rewrite vm3_pde. }
  split.
  - split; [done| |apply NoDup_singleton]. split; [done|]. split; [done|]. exists zeros.
    split; [done|]. split; [apply zeros_len|]. by apply (zeros_word 0).
  - apply Forall_singleton. unfold page_ok. by vm_compute.
  - split; [done|]. exists zeros. split; [done|apply zeros_len].
  - rewrite list_elem_of_singleton. done.
  - intros i Hi Hp. rewrite Habs in Hp; done.
  - intros i j Hi Hj Hp. rewrite Habs in Hp; done.
Qed.

Lemma vm3_pte v : pte (pages vm3) page2 v = 0.
Proof. unfold pte. rewrite vm3_pde by apply PDX_bound. done. Qed.

Lemma vm3_no0 : 0 ∉ dom (pages vm3).
Proof. rewrite not_elem_of_dom. done. Qed.

Lemma mappages_correct_witness :
  ∃ r s' l', mappages page2 0x1000 4096 (V2P vpage3) 6 vm3 = Ok r s' ∧ ptwf end0 s' l' page2.
Proof.
  destruct (mappages_correct end0 vm3 [page1] page2 0x1000 4096 (V2P vpage3) 6 vm3_wf vm3_no0)
    as (r & s' & l' & E & W & _).
  - lia.
  - lia.
  - lia.
  - by vm_compute.
  - by vm_compute.
  - intros v _. by rewrite vm3_pte.
  - exists r, s', l'. split; [exact E|exact W].
Defined.

Lemma uva2ka_null_witness : uva2ka page2 0x1000 vm3 = Undef.
Proof.
  apply (uva2ka_null end0 vm3 [page1] page2 0x1000 vm3_wf vm3_no0).
  by rewrite vm3_pde by apply PDX_bound.
Defined.

(** The page of data mapped at 0x1000 for the user. *)
Definition vm_mapped (s : kstate) (l : list Z) : Prop :=
  ptwf end0 s l page2 ∧ uinj s l page2 ∧ 0 ∉ dom (pages s) ∧
  (∀ v, 0x1000 ≤ v < 0x2000 → uok s l page2 v) ∧ pte (pages s) page2 0x2000 = 0.

Lemma vm3_entry v : 0x1000 ≤ v < 0x2000 →
  entry (V2P vpage3 + (v - v mod 4096 - 0x1000)) 6 = V2P vpage3 + 7.
Proof.
  intros Hv. replace (v - v mod 4096 - 4096) with 0 by lia. rewrite Z.add_0_r. by vm_compute.
Qed.

Lemma vm3_mapped : ∃ s l, vm_mapped s l.
Proof.
  destruct (mappages_ok end0 vm3 [page1] page2 0x1000 4096 (V2P vpage3) 6 vm3_wf vm3_no0)
    as (r & s & l & n & E & V & Hn & Hpte & _ & Hres);
    [lia|lia|lia|by vm_compute|by vm_compute|intros v _; by rewrite vm3_pte|].
  assert (Er : mappages page2 0x1000 4096 (V2P vpage3) 6 vm3 = Ok 0 s).
  { rewrite E. f_equal. destruct Hres as [[? _]|(? & -> & _)]; [done|]. subst r.
    assert (E' : match mappages page2 0x1000 4096 (V2P vpage3) 6 vm3 with Ok r _ => r =? 0 | _ => false end = true)
      by by vm_compute. by rewrite E in E'. }
  rewrite Er in E. injection E as <-. destruct Hres as [[_ ->]|[? _]]; [|done].
  change (PGROUNDDOWN 4096) with 4096 in Hpte. change ((4096 + 4096 - 1) / 4096 - 4096 / 4096 + 1) with 1 in Hpte.
  assert (Hin : ∀ v, 0x1000 ≤ v < 0x2000 → pte (pages s) page2 v = V2P vpage3 + 7).
  { intros v Hv. rewrite Hpte by lia. unfold mapped. rewrite bool_decide_true by lia. by apply vm3_entry. }
  assert (Hout : ∀ v, 0 ≤ v < 4294967296 → ¬ (0x1000 ≤ v < 0x2000) → pte (pages s) page2 v = 0).
  { intros v Hv Hn'. rewrite Hpte by done. unfold mapped. rewrite bool_decide_false by lia. apply vm3_pte. }
  assert (Ho : outside vm3 [page1] page2 vpage3).
  { split_and!; [rewrite list_elem_of_singleton; done|done|]. intros i Hi Hp. by rewrite vm3_pde in Hp. }
  destruct (vs_out _ _ _ _ _ _ V _ Ho) as [Ho' Ed]. exists s, l. split_and!.
  - apply V.
  - intros v1 v2 U1 U2 _. destruct U1 as (Hr1 & Hp1 & _), U2 as (Hr2 & Hp2 & _).
    destruct (decide (0x1000 ≤ v1 < 0x2000)); [|by rewrite Hout in Hp1].
    destruct (decide (0x1000 ≤ v2 < 0x2000)); [lia|by rewrite Hout in Hp2].
  - rewrite (vs_dom _ _ _ _ _ _ V). apply vm3_no0.
  - intros v Hv. unfold uok, upage. rewrite Hin by done.
    change (P2V (PTE_ADDR (V2P vpage3 + 7))) with vpage3. split_and!; try (lia || done).
    split; [done|]. exists zeros. rewrite Ed. split; [done|apply zeros_len].
  - apply Hout; lia.
Qed.

