(* ===== verification/VmSpace.v ===== *)
(** * Address spaces: the rest of vm.c

    A page directory [pg] with its tables and the pages that are mapped for user
    addresses is an address space; [us] is the list of the page numbers that
    are mapped below KERNBASE.  [own] is all the memory that belongs to it, and
    [uspace] says that it is well formed: the pages are distinct, none of
    them is free, and the entries are present for the pages of [us] and no others.

    Every operation moves pages between the spaces and the free list, and the
    permutations in its lemma say that no page is lost and none is given twice:
    [deallocuvm_ok], [freevm_ok], [setupkvm_ok], and in VmUser.v [allocuvm] and
    [copyuvm]. *)

From S2P Require Import Prelude Params Kalloc Vm.

(** The user pages below KERNBASE. *)
Definition NUP : Z := 524288.

Definition frame (m : gmap Z (list Z)) (pg k : Z) : Z := upage m pg (k * 4096).
Definition own (m : gmap Z (list Z)) (pg : Z) (us : list Z) : list Z := pg :: ptabs m pg ++ (frame m pg <$> us).

Section space.
Context (kend vdata : Z).

Record uspace (s : kstate) (l : list Z) (pg : Z) (us : list Z) : Prop := {
  us_wf : ptwf kend s l pg;
  us_nz : 0 ∉ dom (pages s);
  us_nodup : NoDup (own (pages s) pg us ++ l);
  us_ok : Forall (page_ok kend) (own (pages s) pg us);
  us_range : Forall (λ k, 0 ≤ k < NUP) us;
  us_page : ∀ k, k ∈ us → is_page (pages s) (frame (pages s) pg k);
  us_here : ∀ k, k ∈ us → has (pte (pages s) pg (k * 4096)) PTE_P = true;
  us_none : ∀ k, 0 ≤ k < NUP → k ∉ us → has (pte (pages s) pg (k * 4096)) PTE_P = false }.

(** ** What the record gives *)

Lemma own_pg m pg us : pg ∈ own m pg us.
Proof. by left. Qed.
Lemma own_tab m pg us i : 0 ≤ i < 1024 → has (pde m pg i) PTE_P = true → tab m pg i ∈ own m pg us.
Proof. intros Hi Hp. right. apply elem_of_app. left. apply elem_of_ptabs. eauto. Qed.
Lemma own_frame m pg us k : k ∈ us → frame m pg k ∈ own m pg us.
Proof. intros Hk. right. apply elem_of_app. right. by apply list_elem_of_fmap_2. Qed.

Lemma us_uniq s l pg us : uspace s l pg us → NoDup us.
Proof.
  intros U. pose proof (us_nodup _ _ _ _ U) as H. apply NoDup_app in H as (H & _ & _). unfold own in H.
  apply NoDup_cons in H as [_ H]. apply NoDup_app in H as (_ & _ & H). by apply NoDup_fmap_1 in H.
Qed.

Lemma us_free s l pg us q : uspace s l pg us → q ∈ own (pages s) pg us → q ∉ l.
Proof. intros U Hq. pose proof (us_nodup _ _ _ _ U) as H. apply NoDup_app in H as (_ & H & _). by apply H. Qed.

Lemma us_outside s l pg us k : uspace s l pg us → k ∈ us → outside s l pg (frame (pages s) pg k).
Proof.
  intros U Hk. pose proof (us_nodup _ _ _ _ U) as H. apply NoDup_app in H as (H & _ & _). unfold own in H.
  apply NoDup_cons in H as [Hpg H]. apply NoDup_app in H as (_ & H & _).
  pose proof (list_elem_of_fmap_2 (frame (pages s) pg) _ _ Hk) as Hf. split_and!.
  - apply (us_free s l pg us); [done|by apply own_frame].
  - intros E. apply Hpg. apply elem_of_app. right. by rewrite E in Hf.
  - intros i Hi Hp E. apply (H (tab (pages s) pg i)); [apply elem_of_ptabs; eauto|by rewrite <- E].
Qed.

Lemma us_frame_inj s l pg us k k' : uspace s l pg us → k ∈ us → k' ∈ us →
  frame (pages s) pg k = frame (pages s) pg k' → k = k'.
Proof.
  intros U Hk Hk' E. pose proof (us_nodup _ _ _ _ U) as H. apply NoDup_app in H as (H & _ & _). unfold own in H.
  apply NoDup_cons in H as [_ H]. apply NoDup_app in H as (_ & _ & H).
  apply list_elem_of_lookup in Hk as [i Hi], Hk' as [j Hj].
  assert (i = j) as ->; [|congruence]. eapply NoDup_lookup; [exact H|by rewrite list_lookup_fmap, Hi|]. by rewrite list_lookup_fmap, Hj, E.
Qed.

(** An entry is the same over its whole page. *)
Lemma pte_page m pg va : 0 ≤ va < 4294967296 → pte m pg va = pte m pg (va / 4096 * 4096).
Proof. intros Hva. rewrite <- (pte_round m pg va Hva), PGROUNDDOWN_spec. f_equal. lia. Qed.

(** Only the pages of the space matter. *)
Lemma pde_keep m m' pg us i : (∀ q, q ∈ own m pg us → m' !! q = m !! q) → pde m' pg i = pde m pg i.
Proof. intros H. unfold pde. by rewrite H by apply own_pg. Qed.

Lemma pte_keep m m' pg us va : (∀ q, q ∈ own m pg us → m' !! q = m !! q) → pte m' pg va = pte m pg va.
Proof.
  intros H. unfold pte, tab. rewrite !(pde_keep m m' pg us) by done. destruct (has (pde m pg (PDX va)) PTE_P) eqn:Hp; [|done].
  fold (tab m pg (PDX va)). rewrite H; [done|]. apply own_tab; [apply PDX_bound|done].
Qed.

Lemma own_keep m m' pg us : (∀ q, q ∈ own m pg us → m' !! q = m !! q) → own m' pg us = own m pg us.
Proof.
  intros H. unfold own. f_equal. f_equal.
  - apply ptabs_same. intros i _. by apply (pde_keep m m' pg us).
  - apply list_fmap_ext. intros i k _. unfold frame, upage. by rewrite (pte_keep m m' pg us).
Qed.

Lemma page_keep (m m' : gmap Z (list Z)) q : m' !! q = m !! q → is_page m q → is_page m' q.
Proof. intros E. unfold is_page. by rewrite E. Qed.

Lemma ptwf_keep s l pg s' l' : ptwf kend s l pg → kinv s' l' → Forall (page_ok kend) l' →
  (∀ q, q ∈ own (pages s) pg [] → pages s' !! q = pages s !! q) → (∀ q, q ∈ own (pages s) pg [] → q ∉ l') → ptwf kend s' l' pg.
Proof.
  intros W HI Hok Hs Hl.
  assert (Hpde : ∀ i, pde (pages s') pg i = pde (pages s) pg i) by (intros i; by apply (pde_keep _ _ _ [])).
  assert (Htab : ∀ i, tab (pages s') pg i = tab (pages s) pg i) by (intros i; unfold tab; by rewrite Hpde).
  split; try done.
  - apply page_keep with (pages s); [apply Hs, own_pg|apply W].
  - apply Hl, own_pg.
  - intros i Hi. rewrite Hpde, Htab. intros Hp. destruct (pw_tab _ _ _ _ W i Hi Hp) as (H1 & H2 & _).
    pose proof (own_tab _ _ [] _ Hi Hp) as Ho. split_and!; [|done|by apply Hl]. apply page_keep with (pages s); [by apply Hs|done].
  - intros i j Hi Hj. rewrite !Hpde, !Htab. by apply (pw_inj _ _ _ _ W).
Qed.

Lemma own_nil m pg us q : q ∈ own m pg [] → q ∈ own m pg us.
Proof. unfold own. rewrite !elem_of_cons, !elem_of_app. intros [|[|H]]; [tauto..|]. by apply elem_of_nil in H. Qed.

Lemma uspace_keep s l pg us s' l' : uspace s l pg us →
  kinv s' l' → Forall (page_ok kend) l' → 0 ∉ dom (pages s') →
  (∀ q, q ∈ own (pages s) pg us → pages s' !! q = pages s !! q) → (∀ q, q ∈ own (pages s) pg us → q ∉ l') →
  uspace s' l' pg us.
Proof.
  intros U HI Hok Hz Hs Hl. pose proof (us_wf _ _ _ _ U) as W.
  assert (Hpte : ∀ va, pte (pages s') pg va = pte (pages s) pg va) by (intros va; by apply (pte_keep _ _ _ us)).
  assert (Hfr : ∀ k, frame (pages s') pg k = frame (pages s) pg k) by (intros k; unfold frame, upage; by rewrite Hpte).
  split; rewrite ?(own_keep _ _ _ _ Hs); try apply U; try done.
  - apply (ptwf_keep s l); try done; intros q Hq; [apply Hs|apply Hl]; by apply own_nil.
  - pose proof (us_nodup _ _ _ _ U) as H. apply NoDup_app in H as (H & _ & _). apply NoDup_app. split_and!; [done|done|apply HI].
  - intros k Hk. rewrite Hfr. apply page_keep with (pages s); [by apply Hs, own_frame|by apply (us_page _ _ _ _ U)].
  - intros k Hk. rewrite Hpte. by apply (us_here _ _ _ _ U).
  - intros k Hr Hk. rewrite Hpte. by apply (us_none _ _ _ _ U).
Qed.

Lemma own_perm m pg us us' : us ≡ₚ us' → own m pg us ≡ₚ own m pg us'.
Proof. intros H. unfold own. by rewrite H. Qed.

Lemma uspace_perm s l pg us us' : us ≡ₚ us' → uspace s l pg us → uspace s l pg us'.
Proof.
  intros P [H1 H2 H3 H4 H5 H6 H7 H8]. pose proof (own_perm (pages s) pg _ _ P) as Po. split; try done.
  - by rewrite <- Po.
  - by rewrite <- Po.
  - by rewrite <- P.
  - intros k Hk. apply H6. by rewrite P.
  - intros k Hk. apply H7. by rewrite P.
  - intros k Hr Hk. apply H8; [done|]. by rewrite P.
Qed.

(** ** A change of the space

    From [s] to [s'] pages move between the space and the free list; memory that belongs to
    neither, the pages that are mapped before and after, and the entries of the kernel
    stay. *)
Record ustep (pg : Z) (s : kstate) (l us : list Z) (s' : kstate) (l' us' : list Z) : Prop := {
  up_space : uspace s' l' pg us';
  up_acct : own (pages s') pg us' ++ l' ≡ₚ own (pages s) pg us ++ l;
  up_dom : dom (pages s') = dom (pages s);
  up_out : ∀ q, q ∉ own (pages s) pg us ++ l → pages s' !! q = pages s !! q;
  up_same : ∀ k, k ∈ us → k ∈ us' → pte (pages s') pg (k * 4096) = pte (pages s) pg (k * 4096) ∧
    pages s' !! frame (pages s) pg k = pages s !! frame (pages s) pg k;
  up_kern : ∀ va, KERNBASE ≤ va < 4294967296 → pte (pages s') pg va = pte (pages s) pg va }.

Lemma ustep_refl pg s l us : uspace s l pg us → ustep pg s l us s l us.
Proof. by split. Qed.

Lemma ustep_trans pg s l us s1 l1 us1 s2 l2 us2 : (∀ k, k ∈ us → k ∈ us2 → k ∈ us1) →
  ustep pg s l us s1 l1 us1 → ustep pg s1 l1 us1 s2 l2 us2 → ustep pg s l us s2 l2 us2.
Proof.
  intros Hin [U1 A1 D1 O1 S1 K1] [U2 A2 D2 O2 S2 K2]. split; [done|by rewrite A2|congruence| | |].
  - intros q Hq. rewrite O2 by (by rewrite A1). by apply O1.
  - intros k Hk Hk2. pose proof (Hin k Hk Hk2) as Hk1. destruct (S1 k Hk Hk1) as [E1 F1], (S2 k Hk1 Hk2) as [E2 F2].
    split; [congruence|]. unfold frame, upage in *. rewrite E1 in F2. congruence.
  - intros va Hva. rewrite K2 by done. by apply K1.
Qed.

Lemma ustep_perm pg s l us s' l' us1 us2 : us1 ≡ₚ us2 → ustep pg s l us s' l' us1 → ustep pg s l us s' l' us2.
Proof.
  intros P [U A D O S K]. split; [by eapply uspace_perm|by rewrite <- (own_perm _ _ _ _ P)|done|done| |done].
  intros k Hk Hk2. apply S; [done|]. by rewrite P.
Qed.

(** ** Unmapping a page *)

Lemma own_move m pg us k us' (l : list Z) : us ≡ₚ k :: us' → own m pg us ++ l ≡ₚ own m pg us' ++ frame m pg k :: l.
Proof.
  intros P. rewrite (own_perm m pg _ _ P). unfold own. simpl. f_equiv. rewrite <- !app_assoc. f_equiv. apply Permutation_middle.
Qed.

Lemma user_page k : 0 ≤ k < NUP → 0 ≤ k * 4096 < KERNBASE.
Proof. unfold NUP, KERNBASE. lia. Qed.

Lemma other_page k k' : 0 ≤ k < NUP → 0 ≤ k' < 1048576 → k ≠ k' → ¬ same_pg (k * 4096) (k' * 4096).
Proof. intros Hk Hk' Hne. pose proof (user_page k Hk). unfold KERNBASE in *. rewrite same_pg_spec by lia. lia. Qed.

(** A write of an entry, when the page table is all there is to keep. *)
Lemma set_user s l pg va v : ptwf kend s l pg → has (pde (pages s) pg (PDX va)) PTE_P = true →
  let s' := set_pte s pg va v in
  stw (slot (pages s) pg va) v s = Ok tt s' ∧ ptwf kend s' l pg ∧ ptabs (pages s') pg = ptabs (pages s) pg ∧ dom (pages s') = dom (pages s) ∧
  (∀ q, q ≠ tab (pages s) pg (PDX va) → pages s' !! q = pages s !! q) ∧
  (∀ va', ¬ same_pg va va' → pte (pages s') pg va' = pte (pages s) pg va') ∧ pte (pages s') pg va = u32 v.
Proof.
  intros W Hp s'. destruct (pw_tab _ _ _ _ W _ (PDX_bound va) Hp) as (Hpg & _). pose proof (vmstep_set kend pg s l va v W Hp) as V.
  split_and!.
  - unfold slot. by rewrite (stw_ok s _ _ v Hpg (PTX_bound va)).
  - by apply set_pte_wf.
  - apply ptabs_same. intros i _. by apply (set_pte_pde kend _ l).
  - apply V.
  - intros q Hq. unfold s', set_pte. cbn [pages set_pages]. by apply lookup_insert_ne.
  - intros va' Hs. unfold s'. rewrite (set_pte_pte kend s l) by done. by rewrite bool_decide_false.
  - unfold s'. rewrite (set_pte_pte kend s l) by done. by rewrite bool_decide_true by done.
Qed.

(** One page less, and it is free. *)
Lemma ustep_unmapped s l pg us k us' s2 : uspace s l pg us → us ≡ₚ k :: us' →
  let q := frame (pages s) pg k in
  ptwf kend s2 (q :: l) pg → ptabs (pages s2) pg = ptabs (pages s) pg → dom (pages s2) = dom (pages s) →
  (∀ p, p ≠ q → p ∉ ptabs (pages s) pg → pages s2 !! p = pages s !! p) →
  (∀ va, ¬ same_pg (k * 4096) va → pte (pages s2) pg va = pte (pages s) pg va) → has (pte (pages s2) pg (k * 4096)) PTE_P = false →
  ustep pg s l us s2 (q :: l) us'.
Proof.
  intros U P q W2 T2 D2 F2 Q2 Z2. assert (Hk : k ∈ us) by (rewrite P; by left).
  assert (Huq : k ∉ us') by (pose proof (us_uniq _ _ _ _ U) as Hn; rewrite P in Hn; by apply NoDup_cons in Hn as [? _]).
  assert (Hin : ∀ j, j ∈ us' → j ∈ us ∧ 0 ≤ j < NUP ∧ j ≠ k).
  { intros j Hj. assert (Hju : j ∈ us) by (rewrite P; by right).
    split_and!; [done|apply (proj1 (Forall_forall _ _) (us_range _ _ _ _ U) j Hju)..|by intros ->]. }
  pose proof (proj1 (Forall_forall _ _) (us_range _ _ _ _ U) k Hk) as Hkr.
  assert (Hpte : ∀ j, 0 ≤ j < NUP → j ≠ k → pte (pages s2) pg (j * 4096) = pte (pages s) pg (j * 4096)).
  { intros j Hj Hne. apply Q2, other_page; [done|unfold NUP in Hj; lia|done]. }
  assert (Hfr : ∀ j, j ∈ us' → frame (pages s2) pg j = frame (pages s) pg j ∧ pages s2 !! frame (pages s) pg j = pages s !! frame (pages s) pg j).
  { intros j Hj. destruct (Hin j Hj) as (H1 & H2 & H3). split; [unfold frame, upage; by rewrite Hpte|]. apply F2.
    - intros E. apply H3. by apply (us_frame_inj _ _ _ _ _ _ U).
    - destruct (us_outside _ _ _ _ j U H1) as (_ & _ & Ht). rewrite elem_of_ptabs. intros (i & Hi & Hp & E). by apply (Ht i). }
  assert (Ho : own (pages s2) pg us' = own (pages s) pg us').
  { unfold own. rewrite T2. do 2 f_equal. apply list_fmap_ext. intros i j Hj. apply Hfr. by apply list_elem_of_lookup_2 in Hj. }
  pose proof (own_move (pages s) pg us k us' l P) as A. fold q in A. split.
  - split; rewrite ?Ho; try done.
    + rewrite D2. apply U.
    + rewrite <- A. apply U.
    + pose proof (us_ok _ _ _ _ U) as Hok. rewrite (own_perm _ _ _ _ P) in Hok. apply Forall_forall. intros x Hx. rewrite Forall_forall in Hok. apply Hok.
      unfold own in Hx |- *. rewrite elem_of_cons, elem_of_app in Hx |- *. rewrite fmap_cons, elem_of_cons. tauto.
    + apply Forall_forall. intros j Hj. by apply Hin.
    + intros j Hj. destruct (Hfr j Hj) as [-> E]. apply page_keep with (pages s); [done|]. apply (us_page _ _ _ _ U). by apply Hin.
    + intros j Hj. destruct (Hin j Hj) as (H1 & H2 & H3). rewrite Hpte by done. by apply (us_here _ _ _ _ U).
    + intros j Hr Hj. destruct (decide (j = k)) as [->|Hne]; [done|]. rewrite Hpte by done. apply (us_none _ _ _ _ U); [done|].
      rewrite P. by apply not_elem_of_cons.
  - by rewrite Ho, <- A.
  - done.
  - intros p Hp. apply F2.
    + intros ->. apply Hp, elem_of_app. left. by apply own_frame.
    + intros Ht. apply Hp, elem_of_app. left. right. apply elem_of_app. by left.
  - intros j Hj Hj'. destruct (Hin j Hj') as (_ & H2 & H3). split; [by apply Hpte|by apply Hfr].
  - intros va Hva. apply Q2. rewrite same_pg_spec; unfold NUP, KERNBASE in *; lia.
Qed.

Lemma unmap s l pg us k us' : KERNBASE < kend → uspace s l pg us → us ≡ₚ k :: us' →
  ∃ s1 s2, kfree kend (frame (pages s) pg k) s = Ok tt s1 ∧ stw (slot (pages s) pg (k * 4096)) 0 s1 = Ok tt s2 ∧
    ustep pg s l us s2 (frame (pages s) pg k :: l) us'.
Proof.
  intros Hkend U P. set (q := frame (pages s) pg k). assert (Hk : k ∈ us) by (rewrite P; by left).
  assert (Huq : k ∉ us') by (pose proof (us_uniq _ _ _ _ U) as Hn; rewrite P in Hn; by apply NoDup_cons in Hn as [? _]).
  pose proof (proj1 (Forall_forall _ _) (us_range _ _ _ _ U) k Hk) as Hkr.
  destruct (us_outside _ _ _ _ k U Hk) as (Hql & Hqpg & Hqt). fold q in Hql, Hqpg, Hqt.
  destruct (us_page _ _ _ _ U k Hk) as (_ & d & Hd & _). fold q in Hd.
  destruct (kfree_ok kend s q l) as (s1 & E1 & I1 & M1 & _); [apply U| |done|by rewrite Hd|].
  { apply (proj1 (Forall_forall _ _) (us_ok _ _ _ _ U)). by apply own_frame. }
  assert (F1 : ∀ p, p ≠ q → pages s1 !! p = pages s !! p) by (intros p Hp; rewrite M1; by apply lookup_insert_ne).
  assert (N0 : ∀ p, p ∈ own (pages s) pg [] → p ≠ q).
  { unfold own. intros p Hp ->. rewrite elem_of_cons, elem_of_app, elem_of_nil, elem_of_ptabs in Hp.
    destruct Hp as [|[(i & Hi & Hp & ->)|[]]]; [done|by apply (Hqt i)]. }
  assert (W1 : ptwf kend s1 (q :: l) pg).
  { apply (ptwf_keep s l); [apply U|done|constructor; [|apply (us_wf _ _ _ _ U)]| |].
    - apply (proj1 (Forall_forall _ _) (us_ok _ _ _ _ U)). by apply own_frame.
    - intros p Hp. by apply F1, N0.
    - intros p Hp. apply not_elem_of_cons. split; [by apply N0|]. apply (us_free s l pg us); [done|by apply own_nil]. }
  assert (S0 : ∀ p, p ∈ own (pages s) pg [] → pages s1 !! p = pages s !! p) by (intros p Hp; by apply F1, N0).
  pose proof (pte_has _ _ _ (us_here _ _ _ _ U k Hk)) as Hp.
  assert (Hp1 : has (pde (pages s1) pg (PDX (k * 4096))) PTE_P = true) by (by rewrite (pde_keep _ _ _ [] _ S0)).
  assert (Hslot : slot (pages s1) pg (k * 4096) = slot (pages s) pg (k * 4096)) by (unfold slot, tab; by rewrite (pde_keep _ _ _ [] _ S0)).
  destruct (set_user s1 (q :: l) pg (k * 4096) 0 W1 Hp1) as (E2 & W2 & T2 & D2 & F2 & Q2 & Z2). rewrite Hslot in E2.
  exists s1. eexists. split; [exact E1|]. split; [exact E2|].
  apply ustep_unmapped; try done.
  - rewrite T2. apply ptabs_same. intros i _. by apply (pde_keep _ _ _ []).
  - rewrite D2, M1, dom_insert_L. apply subseteq_union_1_L, singleton_subseteq_l. by apply elem_of_dom_2 in Hd.
  - intros p Hpq Hpt. rewrite F2; [by apply F1|]. intros ->. apply Hpt, elem_of_ptabs. exists (PDX (k * 4096)).
    split_and!; [apply PDX_bound..|done|]. unfold tab. by rewrite (pde_keep _ _ _ [] _ S0).
  - intros va Hva. rewrite Q2 by done. by apply (pte_keep _ _ _ []).
  - by rewrite Z2.
Qed.

(** ** deallocuvm *)

(** The start of the next table. *)
Lemma next_table a : 0 ≤ a < KERNBASE →
  u32 (u32 (PGADDR (PDX a + 1) 0 0 - PGSIZE) + PGSIZE) = (a / 4194304 + 1) * 4194304.
Proof.
  unfold KERNBASE. intros Ha. assert (E : PGADDR (PDX a + 1) 0 0 = (a / 4194304 + 1) * 4194304).
  { rewrite PDX_spec. unfold PGADDR. rewrite !Z.shiftl_0_l, !Z.lor_0_r, Z.shiftl_mul_pow2 by (unfold PDXSHIFT; lia).
    change (2 ^ PDXSHIFT) with 4194304. unfold u32. lia. }
  rewrite E. unfold u32, PGSIZE. lia.
Qed.

(** Without a table no page of its four megabytes is mapped. *)
Lemma no_table s l pg us a k : uspace s l pg us → 0 ≤ a → has (pde (pages s) pg (PDX a)) PTE_P = false → k ∈ us →
  a ≤ k * 4096 → (a / 4194304 + 1) * 4194304 ≤ k * 4096.
Proof.
  intros U Ha Hp Hk Hle. destruct (decide ((a / 4194304 + 1) * 4194304 ≤ k * 4096)); [done|exfalso].
  pose proof (proj1 (Forall_forall _ _) (us_range _ _ _ _ U) k Hk) as Hr. cbn beta in Hr. pose proof (pte_has _ _ _ (us_here _ _ _ _ U k Hk)) as H.
  replace (PDX (k * 4096)) with (PDX a) in H; [congruence|]. rewrite !PDX_spec. unfold NUP in Hr. lia.
Qed.

Lemma dealloc_loop pg oldsz : KERNBASE < kend → oldsz ≤ KERNBASE → ∀ fuel s l us a, uspace s l pg us → a mod 4096 = 0 → 0 ≤ a →
  oldsz - a ≤ Z.of_nat fuel * 4096 →
  ∃ s' l' us', deallocuvm_loop kend fuel pg a oldsz s = Ok tt s' ∧ ustep pg s l us s' l' us' ∧
    ∀ k, k ∈ us' ↔ k ∈ us ∧ ¬ (a ≤ k * 4096 < oldsz).
Proof.
  intros Hkend Hold. induction fuel as [|fuel IH]; intros s l us a U Hal Ha Hf.
  { exists s, l, us. split_and!; [|by apply ustep_refl|intros k; split; [split; [done|lia]|tauto]].
    cbn [deallocuvm_loop]. destruct (Z.ltb_spec a oldsz); [lia|done]. }
  cbn [deallocuvm_loop]. destruct (Z.ltb_spec a oldsz) as [Hlt|Hge]; cycle 1.
  { exists s, l, us. split_and!; [done|by apply ustep_refl|intros k; split; [split; [done|lia]|tauto]]. }
  cbn [negb]. pose proof (us_wf _ _ _ _ U) as W. destruct (has (pde (pages s) pg (PDX a)) PTE_P) eqn:Hp; cycle 1.
  - mstep (walk_missing kend s l pg a W Hp). rewrite next_table by lia.
    destruct (IH s l us ((a / 4194304 + 1) * 4194304) U) as (s' & l' & us' & E & T & Hus); [lia..|].
    exists s', l', us'. split_and!; [done|done|]. intros k. rewrite Hus. split; intros [H1 H2]; (split; [done|]); [|lia].
    intros H3. apply H2. pose proof (no_table s l pg us a k U Ha Hp H1). lia.
  - mstep (walk_found kend s l pg a false W Hp). rewrite (proj2 (Z.eqb_neq _ _)) by (eapply slot_nz; [done|apply U|done]).
    destruct (pw_tab _ _ _ _ W _ (PDX_bound a) Hp) as (Hpg & _). unfold slot at 1. mstep (ldw_ok s _ _ Hpg (PTX_bound a)).
    replace (get32 _ _) with (pte (pages s) pg a) by (unfold pte; by rewrite Hp).
    assert (Ek : a = a / 4096 * 4096) by lia. set (k := a / 4096) in *.
    assert (Hkr : 0 ≤ k < NUP) by (unfold NUP, KERNBASE in *; lia).
    replace (u32 (a + PGSIZE)) with (a + 4096) by (unfold u32, PGSIZE, KERNBASE in *; lia).
    destruct (has (pte (pages s) pg a) PTE_P) eqn:Hpt.
    + assert (Hk : k ∈ us).
      { destruct (decide (k ∈ us)); [done|]. pose proof (us_none _ _ _ _ U k Hkr n) as H. rewrite <- Ek in H. congruence. }
      apply elem_of_Permutation in Hk as Hk'. destruct Hk' as [us1 P].
      destruct (unmap s l pg us k us1 Hkend U P) as (s1 & s2 & E1 & E2 & T1). unfold frame, upage in E1. rewrite <- Ek in E1, E2.
      assert (Hnz : PTE_ADDR (pte (pages s) pg a) ≠ 0).
      { intros E. pose proof (proj1 (Forall_forall _ _) (us_ok _ _ _ _ U) _ (own_frame _ _ _ _ Hk)) as Hok.
        unfold frame, upage, page_ok in Hok. rewrite <- Ek, E in Hok. change (P2V 0) with KERNBASE in Hok. lia. }
      rewrite (proj2 (Z.eqb_neq _ _) Hnz), bind_assoc. mstep E1. mstep E2.
      destruct (IH s2 _ us1 (a + 4096) (up_space _ _ _ _ _ _ _ T1)) as (s' & l' & us' & E & T & Hus); [lia..|].
      exists s', l', us'. split_and!; [done|eapply ustep_trans; [|exact T1|exact T]; intros j _ Hj; by apply Hus|].
      intros j. rewrite Hus, P, elem_of_cons. split; [intros [H1 H2]|intros [[->|H1] H2]]; split; try tauto; try lia.
      pose proof (us_uniq _ _ _ _ U) as Hn. rewrite P in Hn. apply NoDup_cons in Hn as [Hn _]. assert (j ≠ k) by (by intros ->). lia.
    + rewrite bind_ret_l. destruct (IH s l us (a + 4096) U) as (s' & l' & us' & E & T & Hus); [lia..|].
      exists s', l', us'. split_and!; [done|done|]. intros j. rewrite Hus. split; intros [H1 H2]; (split; [done|]); [|lia].
      assert (j ≠ k); [|lia]. intros ->. pose proof (us_here _ _ _ _ U k H1) as H. rewrite <- Ek in H. congruence.
Qed.

(** [deallocuvm] down to [newsz]: the pages from there to [oldsz] are free, the
    others are kept. *)
Lemma deallocuvm_ok s l pg us oldsz newsz : KERNBASE < kend → uspace s l pg us → 0 ≤ newsz < oldsz → oldsz ≤ KERNBASE →
  ∃ s' l' us', deallocuvm kend pg oldsz newsz s = Ok newsz s' ∧ ustep pg s l us s' l' us' ∧
    ∀ k, k ∈ us' ↔ k ∈ us ∧ ¬ (newsz ≤ k * 4096 < oldsz).
Proof.
  intros Hkend U Hn Ho. unfold deallocuvm. destruct (Z.leb_spec oldsz newsz); [lia|].
  assert (Er : PGROUNDUP newsz = (newsz + 4095) / 4096 * 4096) by (apply PGROUNDUP_spec; unfold KERNBASE in *; lia).
  destruct (dealloc_loop pg oldsz Hkend Ho (Z.to_nat ((oldsz - PGROUNDUP newsz + PGSIZE - 1) / PGSIZE)) s l us (PGROUNDUP newsz) U) as (s' & l' & us' & E & T & Hus);
    [rewrite Er; lia..|unfold PGSIZE; lia|].
  exists s', l', us'. mstep E. split_and!; [done|done|]. intros k. rewrite Hus, Er. split; intros [H1 H2]; (split; [done|lia]).
Qed.

(** ** freevm *)

(** The allocator, with the pages [l] free. *)
Record heap (s : kstate) (l : list Z) : Prop := {
  hp_inv : kinv s l;
  hp_ok : Forall (page_ok kend) l;
  hp_nz : 0 ∉ dom (pages s) }.

Lemma uspace_heap s l pg us : uspace s l pg us → heap s l.
Proof. intros U. split; apply (us_wf _ _ _ _ U) || apply (us_nz _ _ _ _ U). Qed.

(** What is free after the tables before entry [i] are. *)
Definition tables_freed (s : kstate) (l : list Z) (pg i : Z) (s1 : kstate) : Prop :=
  ∃ lf, kinv s1 (lf ++ l) ∧ lf ≡ₚ omap (ptab (pages s) pg) (seqZ 0 i) ∧
    (∀ q, q ∉ lf → pages s1 !! q = pages s !! q) ∧ dom (pages s1) = dom (pages s).

Lemma seqZ_snoc i : 0 ≤ i → seqZ 0 (i + 1) = seqZ 0 i ++ [i].
Proof. intros Hi. rewrite seqZ_app by lia. f_equal. Qed.

Lemma free_table s l pg i s1 : uspace s l pg [] → 0 ≤ i < 1024 → tables_freed s l pg i s1 →
  ∃ s2, (e ← ldw (pg + 4 * i); if has e PTE_P then kfree kend (P2V (PTE_ADDR e)) else mret tt) s1 = Ok tt s2 ∧ tables_freed s l pg (i + 1) s2.
Proof.
  intros U Hi (lf & HI & P & F & D). pose proof (us_wf _ _ _ _ U) as W.
  assert (Hlf : ∀ q, q ∈ lf → ∃ j, 0 ≤ j < i ∧ has (pde (pages s) pg j) PTE_P = true ∧ q = tab (pages s) pg j).
  { intros q. rewrite P, list_elem_of_omap. intros (j & Hj & E). apply elem_of_seqZ in Hj. unfold ptab in E.
    destruct (has (pde (pages s) pg j) PTE_P) eqn:Hp; [|done]. injection E as <-. exists j. split_and!; (done || lia). }
  assert (Hpg : pg ∉ lf).
  { intros H. destruct (Hlf _ H) as (j & Hj & Hp & E). destruct (pw_tab _ _ _ _ W j) as (_ & Hne & _); [lia|done|]. by apply Hne. }
  assert (E1 : ldw (pg + 4 * i) s1 = Ok (pde (pages s) pg i) s1).
  { rewrite ldw_ok; [|apply page_keep with (pages s); [by apply F|apply W]|done]. unfold pde. by rewrite F. }
  mstep E1. destruct (has (pde (pages s) pg i) PTE_P) eqn:Hp.
  - destruct (pw_tab _ _ _ _ W i Hi Hp) as ((_ & d & Hd & _) & _ & Hl). fold (tab (pages s) pg i).
    assert (Hnf : tab (pages s) pg i ∉ lf).
    { intros H. destruct (Hlf _ H) as (j & Hj & Hpj & E). apply (pw_inj _ _ _ _ W) in E; (done || lia). }
    destruct (kfree_ok kend s1 (tab (pages s) pg i) (lf ++ l) HI) as (s2 & E2 & I2 & M2 & _).
    + apply (proj1 (Forall_forall _ _) (us_ok _ _ _ _ U)). by apply own_tab.
    + rewrite elem_of_app. tauto.
    + by rewrite F, Hd.
    + exists s2. split; [done|]. exists (tab (pages s) pg i :: lf). split_and!; [done| | |].
      * rewrite seqZ_snoc, omap_app by lia. simpl omap. unfold ptab at 2. rewrite Hp, P. apply Permutation_cons_append.
      * intros q Hq. apply not_elem_of_cons in Hq as [? ?]. rewrite M2, lookup_insert_ne by done. by apply F.
      * rewrite M2, dom_insert_L, D. apply subseteq_union_1_L, singleton_subseteq_l. by apply elem_of_dom_2 in Hd.
  - exists s1. split; [done|]. exists lf. split_and!; [done| |done|done].
    rewrite seqZ_snoc, omap_app by lia. simpl omap. unfold ptab at 2. by rewrite Hp, app_nil_r.
Qed.

Lemma freevm_ok s l pg us : KERNBASE < kend → uspace s l pg us →
  ∃ s' l', freevm kend pg s = Ok tt s' ∧ heap s' l' ∧ l' ≡ₚ own (pages s) pg us ++ l ∧ dom (pages s') = dom (pages s) ∧
    ∀ q, q ∉ own (pages s) pg us ++ l → pages s' !! q = pages s !! q.
Proof.
  intros Hkend U. pose proof (proj1 (Forall_forall _ _) (us_ok _ _ _ _ U) _ (own_pg _ _ _)) as (_ & _ & _ & Hpg).
  unfold freevm. rewrite (proj2 (Z.eqb_neq _ _)) by lia.
  destruct (deallocuvm_ok s l pg us KERNBASE 0 Hkend U) as (s1 & l1 & us1 & E1 & T1 & Hus); [by vm_compute|done|]. mstep E1.
  assert (us1 = []) as ->.
  { destruct us1 as [|k us1]; [done|]. destruct (proj1 (Hus k) ltac:(by left)) as [Hk Hn].
    pose proof (proj1 (Forall_forall _ _) (us_range _ _ _ _ U) k Hk). unfold NUP, KERNBASE in *. lia. }
  destruct T1 as [U1 A1 D1 O1 _ _].
  destruct (for_each_inv (tables_freed s1 l1 pg) (λ i, e ← ldw (pg + 4 * i); if has e PTE_P then kfree kend (P2V (PTE_ADDR e)) else mret tt)
    (Z.to_nat NPDENTRIES) 0 s1) as (s2 & E2 & lf & I2 & P2 & F2 & D2).
  { exists []. split_and!; [apply U1|done..]. }
  { intros i s2 Hi. change (Z.of_nat (Z.to_nat NPDENTRIES)) with 1024 in Hi. apply free_table; [done|lia]. }
  mstep E2. change (0 + Z.of_nat (Z.to_nat NPDENTRIES)) with 1024 in P2. rewrite <- ptabs_omap in P2.
  assert (Hpf : pg ∉ lf).
  { rewrite P2. pose proof (us_nodup _ _ _ _ U1) as Hn. apply NoDup_app in Hn as (Hn & _ & _). unfold own in Hn. rewrite app_nil_r in Hn.
    by apply NoDup_cons in Hn as [? _]. }
  destruct (pw_dir _ _ _ _ (us_wf _ _ _ _ U1)) as (_ & d & Hd & _).
  destruct (kfree_ok kend s2 pg (lf ++ l1) I2) as (s3 & E3 & I3 & M3 & _).
  { apply (proj1 (Forall_forall _ _) (us_ok _ _ _ _ U1)). apply own_pg. }
  { rewrite elem_of_app. intros [|H]; [done|]. by apply (pw_dirl _ _ _ _ (us_wf _ _ _ _ U1)). }
  { by rewrite F2, Hd. }
  assert (A : pg :: lf ++ l1 ≡ₚ own (pages s) pg us ++ l).
  { rewrite <- A1, P2. unfold own. by rewrite app_nil_r. }
  assert (D3 : dom (pages s3) = dom (pages s)).
  { rewrite M3, dom_insert_L, D2, D1. apply subseteq_union_1_L, singleton_subseteq_l. rewrite <- D1. by apply elem_of_dom_2 in Hd. }
  exists s3, (pg :: lf ++ l1). split_and!; [done| |done|done|].
  - split; [done| |rewrite D3; apply U]. rewrite A. apply Forall_app. split; [apply U|apply (us_wf _ _ _ _ U)].
  - intros q Hq. assert (Hq' : q ∉ pg :: lf ++ l1) by (by rewrite A). apply not_elem_of_cons in Hq' as [H1 H2]. rewrite elem_of_app in H2.
    rewrite M3, lookup_insert_ne by done. rewrite F2 by tauto. by apply O1.
Qed.

(** ** Mapping a page *)

(** [vmstep] adds tables; the pages of the space are kept. *)
Lemma vmstep_frames s l pg us s' l' : uspace s l pg us → vmstep kend pg s l s' l' →
  ∀ k, k ∈ us → pages s' !! frame (pages s) pg k = pages s !! frame (pages s) pg k.
Proof. intros U V k Hk. apply (vs_out _ _ _ _ _ _ V). by apply (us_outside s l pg us). Qed.

Lemma vmstep_own s l pg us s' l' : uspace s l pg us → vmstep kend pg s l s' l' →
  (∀ k, k ∈ us → pte (pages s') pg (k * 4096) = pte (pages s) pg (k * 4096)) →
  own (pages s') pg us ++ l' ≡ₚ own (pages s) pg us ++ l.
Proof.
  intros U V Hp. unfold own. simpl. f_equiv.
  replace (frame (pages s') pg <$> us) with (frame (pages s) pg <$> us).
  - rewrite (Permutation_app_comm (ptabs (pages s') pg)), (Permutation_app_comm (ptabs (pages s) pg)), <- !app_assoc. f_equiv. apply V.
  - apply list_fmap_ext. intros i k Hk. apply list_elem_of_lookup_2 in Hk. unfold frame, upage. by rewrite Hp.
Qed.

Lemma vmstep_space s l pg us s' l' : uspace s l pg us → vmstep kend pg s l s' l' →
  (∀ k, 0 ≤ k < NUP → pte (pages s') pg (k * 4096) = pte (pages s) pg (k * 4096)) → uspace s' l' pg us.
Proof.
  intros U V Hp. assert (Hr : ∀ k, k ∈ us → 0 ≤ k < NUP) by (apply Forall_forall, U).
  assert (A := vmstep_own s l pg us s' l' U V (λ k Hk, Hp k (Hr k Hk))).
  split.
  - apply V.
  - rewrite (vs_dom _ _ _ _ _ _ V). apply U.
  - rewrite A. apply U.
  - assert (Forall (page_ok kend) (own (pages s') pg us ++ l')) as H; [|by apply Forall_app in H as [? _]].
    rewrite A. apply Forall_app. split; [apply U|apply (us_wf _ _ _ _ U)].
  - apply U.
  - intros k Hk. unfold frame, upage. rewrite Hp by auto. fold (upage (pages s) pg (k * 4096)). fold (frame (pages s) pg k).
    apply page_keep with (pages s); [by apply (vmstep_frames s l pg us s' l')|by apply (us_page _ _ _ _ U)].
  - intros k Hk. rewrite Hp by auto. by apply (us_here _ _ _ _ U).
  - intros k Hk Hn. rewrite Hp by auto. by apply (us_none _ _ _ _ U).
Qed.

Lemma entry_frame r perm : page_ok kend r → 0 ≤ perm < 4096 →
  has (entry (V2P r) perm) PTE_P = true ∧ P2V (PTE_ADDR (entry (V2P r) perm)) = r ∧
  ∀ f, 0 ≤ f < 4096 → has (entry (V2P r) perm) f = has (Z.lor perm PTE_P) f.
Proof.
  intros (Hm & _ & Hp & Hr) Hperm. unfold PGSIZE in Hm. pose proof (V2P_aligned r Hm) as Ha.
  assert (Hb : 0 ≤ Z.lor perm PTE_P < 4096).
  { split; [apply Z.lor_nonneg; unfold PTE_P; lia|]. destruct (decide (Z.lor perm PTE_P = 0)); [lia|].
    apply (Z.log2_lt_pow2 _ 12); [apply Z.le_neq; split; [apply Z.lor_nonneg; unfold PTE_P; lia|done]|].
    rewrite Z.log2_lor by (unfold PTE_P; lia). apply Z.max_lub_lt; [|by vm_compute].
    destruct (decide (perm = 0)) as [->|]; [by vm_compute|]. apply Z.log2_lt_pow2; [lia|change (2 ^ 12) with 4096; lia]. }
  assert (E : entry (V2P r) perm = V2P r + Z.lor perm PTE_P).
  { unfold entry. rewrite <- Z.lor_assoc, lor_aligned by done. apply u32_small. unfold PHYSTOP, V2P, u32 in *. lia. }
  assert (Hh : ∀ f, 0 ≤ f < 4096 → has (entry (V2P r) perm) f = has (Z.lor perm PTE_P) f).
  { intros f Hf. rewrite E. apply has_mod; [done|]. rewrite (Z.mod_small (Z.lor perm PTE_P)) by done. rewrite <- Z.add_mod_idemp_l, Ha by lia.
    apply Z.mod_small. lia. }
  split_and!; [|rewrite E, PTE_ADDR_add by done; apply P2V_V2P; lia|done].
  rewrite Hh by (by vm_compute). unfold has. rewrite negb_true_iff, Z.eqb_neq. intros H. apply (f_equal (λ z, Z.testbit z 0)) in H.
  rewrite Z.land_spec, Z.lor_spec in H. change (Z.testbit PTE_P 0) with true in H. by rewrite orb_true_r in H.
Qed.

(** A page [r] that belongs to nobody becomes page [k] of the space. *)
Record added (pg : Z) (s : kstate) (l us : list Z) (k r perm : Z) (s' : kstate) (l' : list Z) : Prop := {
  ad_space : uspace s' l' pg (k :: us);
  ad_acct : own (pages s') pg (k :: us) ++ l' ≡ₚ r :: own (pages s) pg us ++ l;
  ad_dom : dom (pages s') = dom (pages s);
  ad_out : ∀ q, q ∉ own (pages s) pg us ++ l → pages s' !! q = pages s !! q;
  ad_same : ∀ j, j ∈ us → pte (pages s') pg (j * 4096) = pte (pages s) pg (j * 4096) ∧
    pages s' !! frame (pages s) pg j = pages s !! frame (pages s) pg j;
  ad_kern : ∀ va, KERNBASE ≤ va < 4294967296 → pte (pages s') pg va = pte (pages s) pg va;
  ad_pte : pte (pages s') pg (k * 4096) = entry (V2P r) perm;
  ad_frame : frame (pages s') pg k = r }.

Lemma vmstep_out s l pg us s' l' q : uspace s l pg us → vmstep kend pg s l s' l' → q ∉ own (pages s) pg us ++ l → pages s' !! q = pages s !! q.
Proof.
  intros U V Hq. rewrite elem_of_app in Hq. apply (vs_out _ _ _ _ _ _ V). split_and!; [tauto| |].
  - intros ->. apply Hq. left. apply own_pg.
  - intros i Hi Hp ->. apply Hq. left. by apply own_tab.
Qed.

Lemma added_intro s l pg us k r perm s' l' : uspace s l pg us → 0 ≤ k < NUP → k ∉ us → page_ok kend r → is_page (pages s) r →
  r ∉ own (pages s) pg us ++ l → 0 ≤ perm < 4096 → vmstep kend pg s l s' l' →
  (∀ va, 0 ≤ va < 4294967296 → pte (pages s') pg va = mapped (k * 4096) (V2P r) perm 1 (pte (pages s) pg) va) →
  added pg s l us k r perm s' l'.
Proof.
  intros U Hk Hn Hr Hpr Hnr Hperm V Hpte. destruct (entry_frame r perm Hr Hperm) as (Ep & Ef & _).
  assert (Hpk : pte (pages s') pg (k * 4096) = entry (V2P r) perm).
  { pose proof (user_page k Hk). rewrite Hpte by (unfold KERNBASE in *; lia). unfold mapped. rewrite bool_decide_true by lia. f_equal. lia. }
  assert (Hfk : frame (pages s') pg k = r) by (unfold frame, upage; by rewrite Hpk).
  assert (Hpo : ∀ va, 0 ≤ va < 4294967296 → ¬ (k * 4096 ≤ va < k * 4096 + 4096) → pte (pages s') pg va = pte (pages s) pg va).
  { intros va Hva Ho. rewrite Hpte by done. unfold mapped. by rewrite bool_decide_false by lia. }
  assert (Hpj : ∀ j, 0 ≤ j < NUP → j ≠ k → pte (pages s') pg (j * 4096) = pte (pages s) pg (j * 4096)).
  { intros j Hj Hne. pose proof (user_page j Hj). apply Hpo; unfold KERNBASE in *; lia. }
  assert (Hin : ∀ j, j ∈ us → 0 ≤ j < NUP ∧ j ≠ k).
  { intros j Hj. split; [|by intros ->]. apply (proj1 (Forall_forall _ _) (us_range _ _ _ _ U) j Hj). }
  assert (A := vmstep_own s l pg us s' l' U V (λ j Hj, Hpj j (proj1 (Hin j Hj)) (proj2 (Hin j Hj)))).
  assert (A' : own (pages s') pg (k :: us) ++ l' ≡ₚ r :: own (pages s) pg us ++ l).
  { rewrite <- A. unfold own. rewrite fmap_cons, Hfk. simpl. rewrite <- Permutation_middle. simpl. by rewrite perm_swap. }
  assert (Hr' : pages s' !! r = pages s !! r) by (by apply (vmstep_out s l pg us s' l')).
  split; try done.
  - split.
    + apply V.
    + rewrite (vs_dom _ _ _ _ _ _ V). apply U.
    + rewrite A'. constructor; [done|apply U].
    + assert (Forall (page_ok kend) (own (pages s') pg (k :: us) ++ l')) as H; [|by apply Forall_app in H as [? _]].
      rewrite A'. constructor; [done|]. apply Forall_app. split; [apply U|apply (us_wf _ _ _ _ U)].
    + constructor; [done|apply U].
    + intros j Hj. apply elem_of_cons in Hj as [->|Hj]; [rewrite Hfk; by apply page_keep with (pages s)|].
      unfold frame, upage. destruct (Hin j Hj). rewrite Hpj by done. apply page_keep with (pages s); [by apply (vmstep_frames s l pg us s' l')|by apply (us_page _ _ _ _ U)].
    + intros j Hj. apply elem_of_cons in Hj as [->|Hj]; [by rewrite Hpk|]. destruct (Hin j Hj). rewrite Hpj by done. by apply (us_here _ _ _ _ U).
    + intros j Hj Hnj. apply not_elem_of_cons in Hnj as [Hne Hnj]. rewrite Hpj by done. by apply (us_none _ _ _ _ U).
  - apply V.
  - intros q Hq. by apply (vmstep_out s l pg us s' l').
  - intros j Hj. destruct (Hin j Hj). split; [by apply Hpj|by apply (vmstep_frames s l pg us s' l')].
  - intros va Hva. pose proof (user_page k Hk). apply Hpo; unfold KERNBASE in *; lia.
Qed.

(** ** The number of tables *)

(** The entries of the directory with a table, and those from [lo] to [hi] without one. *)
Definition tabs_of (m : gmap Z (list Z)) (pg : Z) : list Z := filter (λ x, has (pde m pg x) PTE_P = true) (seqZ 0 1024).
Definition no_tabs (m : gmap Z (list Z)) (pg lo hi : Z) : list Z := filter (λ x, has (pde m pg x) PTE_P = false) (seqZ lo (hi - lo + 1)).

Lemma length_ptabs m pg : length (ptabs m pg) = length (tabs_of m pg).
Proof.
  rewrite ptabs_omap. unfold tabs_of, ptab. generalize (seqZ 0 1024). intros L. induction L as [|x L IH]; [done|].
  rewrite omap_cons, filter_cons. destruct (has (pde m pg x) PTE_P); [rewrite decide_True by done|rewrite decide_False by done]; simpl; by rewrite IH.
Qed.

Lemma tabs_covered m m' pg lo hi x : 0 ≤ lo → hi < 1024 → tabs_in m m' pg lo hi →
  x ∈ tabs_of m' pg ∨ lo ≤ x ≤ hi → x ∈ tabs_of m pg ++ no_tabs m pg lo hi.
Proof.
  intros Hl Hh T Hx. unfold tabs_of, no_tabs in *. rewrite elem_of_app, !list_elem_of_filter, !elem_of_seqZ in *.
  assert (Hr : lo ≤ x ≤ hi → (has (pde m pg x) PTE_P = true ∧ 0 ≤ x < 0 + 1024) ∨ has (pde m pg x) PTE_P = false ∧ lo ≤ x < lo + (hi - lo + 1)).
  { intros Hr. destruct (has (pde m pg x) PTE_P); [left|right]; (split; [done|lia]). }
  destruct Hx as [[Hp Hx]|Hx]; [|by apply Hr]. destruct (T x ltac:(lia) Hp) as [H|H]; [left; split; [done|lia]|by apply Hr].
Qed.

(** New tables are those that were missing. *)
Lemma tab_count m m' pg lo hi : 0 ≤ lo → hi < 1024 → tabs_in m m' pg lo hi →
  (length (ptabs m' pg) ≤ length (ptabs m pg) + length (no_tabs m pg lo hi))%nat.
Proof.
  intros Hl Hh T. rewrite !length_ptabs, <- length_app. apply submseteq_length, NoDup_submseteq; [apply NoDup_filter, NoDup_seqZ|].
  intros x Hx. apply (tabs_covered m m'); auto.
Qed.

Lemma tab_count_less m m' pg lo hi x : 0 ≤ lo → hi < 1024 → tabs_in m m' pg lo hi → lo ≤ x ≤ hi → has (pde m' pg x) PTE_P = false →
  (length (ptabs m' pg) < length (ptabs m pg) + length (no_tabs m pg lo hi))%nat.
Proof.
  intros Hl Hh T Hx Hp. rewrite !length_ptabs, <- length_app. change (length (x :: tabs_of m' pg) ≤ length (tabs_of m pg ++ no_tabs m pg lo hi))%nat.
  apply submseteq_length, NoDup_submseteq.
  - constructor; [|apply NoDup_filter, NoDup_seqZ]. unfold tabs_of. rewrite list_elem_of_filter. intros [H _]. congruence.
  - intros y Hy. apply (tabs_covered m m' pg lo hi y Hl Hh T). apply elem_of_cons in Hy as [->|Hy]; auto.
Qed.

Lemma tabs_in_trans m m1 m2 pg lo hi : tabs_in m m1 pg lo hi → tabs_in m1 m2 pg lo hi → tabs_in m m2 pg lo hi.
Proof. intros T1 T2 x Hx Hp. destruct (T2 x Hx Hp) as [H|]; [by apply T1|by right]. Qed.
Lemma tabs_in_mono m m' pg lo hi lo' hi' : tabs_in m m' pg lo hi → lo' ≤ lo → hi ≤ hi' → tabs_in m m' pg lo' hi'.
Proof. intros T H1 H2 x Hx Hp. destruct (T x Hx Hp); [by left|right; lia]. Qed.
Lemma tabs_in_refl m m' pg lo hi : (∀ x, pde m' pg x = pde m pg x) → tabs_in m m' pg lo hi.
Proof. intros E x Hx Hp. left. by rewrite <- E. Qed.

(** Pages of a space and free pages, counted. *)
Lemma own_count m m' pg us us' (l l' : list Z) : own m' pg us' ++ l' ≡ₚ own m pg us ++ l →
  (length (ptabs m' pg) + length us' + length l' = length (ptabs m pg) + length us + length l)%nat.
Proof. intros P. apply Permutation_length in P. revert P. unfold own. simpl. rewrite !length_app, !length_fmap. lia. Qed.

(** [mappages] of one user page: it is added, or there is no page for a table. *)
Lemma map_page s l pg us k r perm : uspace s l pg us → 0 ≤ k < NUP → k ∉ us → page_ok kend r → is_page (pages s) r →
  r ∉ own (pages s) pg us ++ l → 0 ≤ perm < 4096 →
  ∃ res s' l', mappages pg (k * 4096) PGSIZE (V2P r) perm s = Ok res s' ∧
    ((res = 0 ∧ added pg s l us k r perm s' l' ∧ tabs_in (pages s) (pages s') pg (k / 1024) (k / 1024)) ∨
     (res = -1 ∧ l = [] ∧ l' = [] ∧ ustep pg s l us s' l' us ∧ has (pde (pages s) pg (k / 1024)) PTE_P = false)).
Proof.
  intros U Hk Hn Hr Hpr Hnr Hperm. pose proof (user_page k Hk) as Hu. unfold KERNBASE in Hu.
  assert (Ha : PGROUNDDOWN (k * 4096) = k * 4096) by (rewrite PGROUNDDOWN_spec; lia).
  assert (Hl : PGROUNDDOWN (u32 (k * 4096 + PGSIZE - 1)) = k * 4096).
  { unfold PGSIZE. rewrite u32_small by lia. rewrite PGROUNDDOWN_spec. lia. }
  unfold mappages. rewrite Ha, Hl, Z.sub_diag. change (Z.to_nat (u32 0 / PGSIZE)) with 0%nat.
  destruct (map_one kend s l pg (k * 4096) (V2P r) perm (us_wf _ _ _ _ U) (us_nz _ _ _ _ U)) as [(s1 & l1 & V & Hpte & Hin & E)|(-> & s1 & V & Hm & Hno & E)];
    [lia|lia|by apply (us_none _ _ _ _ U)|rewrite E, Z.eqb_refl|rewrite E];
    assert (Hd : PDX (k * 4096) = k / 1024) by (rewrite PDX_spec; lia); rewrite Hd in *.
  - exists 0, s1, l1. split; [done|]. left. split; [done|]. split; [by apply added_intro|done].
  - exists (-1), s1, []. split; [done|]. right. split_and!; [done..| |done].
    assert (U1 : uspace s1 [] pg us) by (apply (vmstep_space s []); [done|done|by rewrite Hm]). split; rewrite ?Hm; done.
Qed.
End space.
