(* ===== verification/VmKernel.v ===== *)
(** * The kernel's half of an address space: setupkvm, kvmalloc and inituvm of vm.c

    [setupkvm] makes a space without user pages in which the kernel's addresses
    are mapped as [kmap] says ([kpte]); when memory runs out it gives every
    page back.  The linker script puts [data] at a page boundary after
    the text of the kernel ([vdata_ok]). *)

From S2P Require Import Prelude Params Kalloc Vm VmSpace.

(** The entry of every address after [setupkvm]. *)
Definition kpte (vdata va : Z) : Z :=
  let a := va - va mod 4096 in
  if bool_decide (KERNBASE ≤ va < KERNLINK) then entry (a - KERNBASE) PTE_W
  else if bool_decide (KERNLINK ≤ va < vdata) then entry (a - KERNBASE) 0
  else if bool_decide (vdata ≤ va < KERNBASE + PHYSTOP) then entry (a - KERNBASE) PTE_W
  else if bool_decide (DEVSPACE ≤ va < 4294967296) then entry a PTE_W
  else 0.

Definition vdata_ok (vdata : Z) : Prop := vdata mod 4096 = 0 ∧ KERNLINK < vdata < KERNBASE + PHYSTOP.

Section kernel.
Context (kend vdata : Z).

(** A change of the kernel's half. *)
Record kstep (pg : Z) (s : kstate) (l : list Z) (s' : kstate) (l' : list Z) : Prop := {
  ks_space : uspace kend s' l' pg [];
  ks_acct : own (pages s') pg [] ++ l' ≡ₚ own (pages s) pg [] ++ l;
  ks_dom : dom (pages s') = dom (pages s);
  ks_out : ∀ q, q ∉ own (pages s) pg [] ++ l → pages s' !! q = pages s !! q }.

Lemma kstep_trans pg s l s1 l1 s2 l2 : kstep pg s l s1 l1 → kstep pg s1 l1 s2 l2 → kstep pg s l s2 l2.
Proof.
  intros [U1 A1 D1 O1] [U2 A2 D2 O2]. split; [done|by rewrite A2|congruence|].
  intros q Hq. rewrite O2 by (by rewrite A1). by apply O1.
Qed.

(** [n] pages of the kernel. *)
Lemma map_range s l pg va n pa perm (f : Z → Z) : uspace kend s l pg [] → (∀ v, 0 ≤ v < 4294967296 → pte (pages s) pg v = f v) →
  va mod 4096 = 0 → KERNBASE ≤ va → 0 < n → va + n * 4096 ≤ 4294967296 → 0 ≤ pa → pa + n * 4096 ≤ 4294967296 →
  (∀ v, va ≤ v < va + n * 4096 → has (f v) PTE_P = false) →
  ∃ res s' l', mappages pg va (n * 4096) pa perm s = Ok res s' ∧ kstep pg s l s' l' ∧
    tabs_in (pages s) (pages s') pg (va / 4194304) ((va + n * 4096 - 1) / 4194304) ∧
    ((res = 0 ∧ ∀ v, 0 ≤ v < 4294967296 → pte (pages s') pg v = mapped va pa perm n f v) ∨
     (res = -1 ∧ l' = [] ∧ ∃ x, va / 4194304 ≤ x ≤ (va + n * 4096 - 1) / 4194304 ∧ has (pde (pages s') pg x) PTE_P = false)).
Proof.
  intros U Hf Hal Hva Hn Hend Hpa Hpe Hfree. unfold KERNBASE in Hva.
  assert (Ha : PGROUNDDOWN va = va) by (rewrite PGROUNDDOWN_spec; lia).
  assert (Hk : (va + n * 4096 - 1) / 4096 - va / 4096 = n - 1) by lia.
  destruct (mappages_ok kend s l pg va (n * 4096) pa perm (us_wf _ _ _ _ _ U) (us_nz _ _ _ _ _ U)) as (res & s' & l' & j & E & V & Hj & Hpte & Hin & Hres);
    rewrite ?Ha, ?Hk in *; try lia.
  { intros v Hv. rewrite Hf by lia. apply Hfree. lia. }
  assert (Hu : ∀ k, 0 ≤ k < NUP → pte (pages s') pg (k * 4096) = pte (pages s) pg (k * 4096)).
  { intros k Hk'. unfold NUP in Hk'. rewrite Hpte by lia. unfold mapped. by rewrite bool_decide_false by lia. }
  exists res, s', l'. split_and!; [done| | |].
  - split; [by apply (vmstep_space kend s l)|apply (vmstep_own kend s l pg [] s' l' U V); intros k Hk'; by apply elem_of_nil in Hk'|apply V|].
    intros q Hq. by apply (vmstep_out kend s l pg [] s' l').
  - intros x Hx Hp. destruct (Hin x Hx Hp) as [|Hr]; [by left|right]. revert Hr. rewrite !PDX_spec. lia.
  - destruct Hres as [[-> ->]|(-> & -> & _ & x & Hx & Hno)]; [left|right]; cycle 1.
    { split_and!; [done|done|]. exists x. split; [|done]. revert Hx. rewrite !PDX_spec. lia. }
    split; [done|]. intros v Hv. rewrite Hpte by done.
    replace (n - 1 + 1) with n by lia. unfold mapped. case_bool_decide; [done|by apply Hf].
Qed.

(** ** The number of tables *)

(** The kernel's addresses take 56 tables for the memory and 8 for the devices. *)
Definition NKTAB : nat := 64.
Definition ktabs (m : gmap Z (list Z)) (pg : Z) : Prop :=
  ∀ x, 0 ≤ x < 1024 → has (pde m pg x) PTE_P = true → 512 ≤ x ≤ 567 ∨ 1016 ≤ x ≤ 1023.

Lemma ktabs_elem m pg x : ktabs m pg → x ∈ tabs_of m pg ∨ 512 ≤ x ≤ 567 ∨ 1016 ≤ x ≤ 1023 → x ∈ seqZ 512 56 ++ seqZ 1016 8.
Proof.
  intros H Hx. unfold tabs_of in Hx. rewrite list_elem_of_filter, elem_of_seqZ in Hx. rewrite elem_of_app, !elem_of_seqZ.
  destruct Hx as [[Hp Hx]|Hx]; [specialize (H x ltac:(lia) Hp)|]; lia.
Qed.

Lemma ktabs_length m pg : ktabs m pg → (length (ptabs m pg) ≤ NKTAB)%nat.
Proof.
  intros H. rewrite length_ptabs. change NKTAB with (length (seqZ 512 56 ++ seqZ 1016 8)).
  apply submseteq_length, NoDup_submseteq; [apply NoDup_filter, NoDup_seqZ|]. intros x Hx. apply (ktabs_elem m pg); auto.
Qed.

Lemma ktabs_less m pg x : ktabs m pg → 512 ≤ x ≤ 567 ∨ 1016 ≤ x ≤ 1023 → has (pde m pg x) PTE_P = false → (length (ptabs m pg) < NKTAB)%nat.
Proof.
  intros H Hx Hp. rewrite length_ptabs. change (length (x :: tabs_of m pg) ≤ length (seqZ 512 56 ++ seqZ 1016 8))%nat.
  apply submseteq_length, NoDup_submseteq.
  - constructor; [|apply NoDup_filter, NoDup_seqZ]. unfold tabs_of. rewrite list_elem_of_filter. intros [E _]. congruence.
  - intros y Hy. apply (ktabs_elem m pg y H). apply elem_of_cons in Hy as [->|Hy]; auto.
Qed.

Lemma ktabs_in m m' pg i j : ktabs m pg → tabs_in m m' pg i j → (512 ≤ i ∧ j ≤ 567 ∨ 1016 ≤ i ∧ j ≤ 1023) → ktabs m' pg.
Proof. intros H T Hr x Hx Hp. destruct (T x Hx Hp) as [Ho|]; [by apply H|lia]. Qed.

(** ** setupkvm *)

(** Nothing was mapped, and every page is free again; there were too few. *)
Record given_back (s : kstate) (l : list Z) (s' : kstate) : Prop := {
  gb_heap : ∃ l', heap kend s' l' ∧ l' ≡ₚ l;
  gb_dom : dom (pages s') = dom (pages s);
  gb_out : ∀ q, q ∉ l → pages s' !! q = pages s !! q;
  gb_few : (length l < 1 + NKTAB)%nat }.

(** One line of [kmap]: [n] pages from [va] to [pa]. *)
Lemma setup_step pg s0 l0 s l va n pa pe perm f : KERNBASE < kend → kstep pg s0 l0 s l → ktabs (pages s) pg →
  (∀ v, 0 ≤ v < 4294967296 → pte (pages s) pg v = f v) → u32 (pe - pa) = n * 4096 →
  va mod 4096 = 0 → KERNBASE ≤ va → 0 < n → va + n * 4096 ≤ 4294967296 → 0 ≤ pa → pa + n * 4096 ≤ 4294967296 →
  (512 ≤ va / 4194304 ∧ (va + n * 4096 - 1) / 4194304 ≤ 567 ∨ 1016 ≤ va / 4194304 ∧ (va + n * 4096 - 1) / 4194304 ≤ 1023) →
  (∀ v, va ≤ v < va + n * 4096 → has (f v) PTE_P = false) →
  (∃ s1 l1, (∀ ks, setupkvm_loop kend pg (mkkmap va pa pe perm :: ks) s = setupkvm_loop kend pg ks s1) ∧ kstep pg s0 l0 s1 l1 ∧ ktabs (pages s1) pg ∧
     ∀ v, 0 ≤ v < 4294967296 → pte (pages s1) pg v = mapped va pa perm n f v) ∨
  (∃ s', (∀ ks, setupkvm_loop kend pg (mkkmap va pa pe perm :: ks) s = Ok 0 s') ∧ given_back s0 (own (pages s0) pg [] ++ l0) s').
Proof.
  intros Hkend K Hkt Hf Hn Hal Hva Hn0 Hend Hpa Hpe Hr Hfree. pose proof (ks_space _ _ _ _ _ K) as U.
  destruct (map_range s l pg va n pa perm f U Hf) as (res & s1 & l1 & E & K1 & Hin & Hres); try done.
  pose proof (ktabs_in _ _ _ _ _ Hkt Hin Hr) as Hkt1. pose proof (kstep_trans _ _ _ _ _ _ _ K K1) as K2.
  assert (Ek : ∀ ks, setupkvm_loop kend pg (mkkmap va pa pe perm :: ks) s = (if res <? 0 then freevm kend pg;; mret 0 else setupkvm_loop kend pg ks) s1).
  { intros ks. cbn [setupkvm_loop virt phys_start phys_end Vm.perm]. rewrite Hn. by mstep E. }
  destruct Hres as [[-> Hpte]|(-> & -> & x & Hx & Hno)]; cbn [Z.ltb Z.compare] in Ek.
  - left. exists s1, l1. split_and!; done.
  - right. destruct (freevm_ok kend s1 [] pg [] Hkend (ks_space _ _ _ _ _ K1)) as (s' & l' & E' & H' & P' & D' & O').
    exists s'. split; [intros ks; rewrite Ek; by mstep E'|]. pose proof (ks_acct _ _ _ _ _ K2) as A. split.
    + exists l'. split; [done|]. by rewrite P', A.
    + rewrite D'. apply K2.
    + intros q Hq. rewrite O' by (by rewrite A). by apply K2.
    + rewrite <- A. unfold own. rewrite !app_nil_r. simpl. pose proof (ktabs_less _ _ x Hkt1 ltac:(lia) Hno). lia.
Qed.

(** An empty directory. *)
Lemma empty_space s r l : heap kend s (r :: l) → ∃ s1 s2, kalloc s = Ok r s1 ∧ zero_page r s1 = Ok tt s2 ∧
  uspace kend s2 l r [] ∧ own (pages s2) r [] = [r] ∧ dom (pages s2) = dom (pages s) ∧ (∀ q, q ≠ r → pages s2 !! q = pages s !! q) ∧
  (∀ v, pte (pages s2) r v = 0) ∧ ktabs (pages s2) r.
Proof.
  intros [HI Hok Hz]. destruct (kalloc_some s r l HI) as (s1 & E1 & I1 & M1 & _). apply Forall_cons in Hok as [Hr Hok].
  destruct (flist_elem _ _ _ r (ki_list _ _ HI)) as [_ [d Hd]]; [by left|]. rewrite <- M1 in Hd.
  pose proof (ki_nodup _ _ HI) as Hn. apply NoDup_cons in Hn as [Hn _].
  set (s2 := set_pages (<[r := zeros]> (pages s1)) s1). exists s1, s2. split; [done|]. split; [by apply page_set_ok with d|].
  assert (Hpde : ∀ i, 0 ≤ i < 1024 → pde (pages s2) r i = 0).
  { intros i Hi. unfold pde, s2. cbn [pages set_pages]. rewrite lookup_insert_eq. by apply zeros_word. }
  assert (Habs : ∀ i, 0 ≤ i < 1024 → has (pde (pages s2) r i) PTE_P = false) by (intros i Hi; by rewrite Hpde).
  assert (Hpte : ∀ v, pte (pages s2) r v = 0) by (intros v; unfold pte; by rewrite Habs by apply PDX_bound).
  assert (Ht : ptabs (pages s2) r = []) by (by apply ptabs_nil).
  assert (Ho : own (pages s2) r [] = [r]) by (unfold own; by rewrite Ht).
  assert (Hdom : dom (pages s2) = dom (pages s)).
  { unfold s2. cbn [pages set_pages]. rewrite dom_insert_L, M1. apply subseteq_union_1_L, singleton_subseteq_l. rewrite M1 in Hd. by apply elem_of_dom_2 in Hd. }
  assert (I2 : kinv s2 l) by (by apply kinv_insert).
  split_and!; [|done|done| |done|].
  - split; rewrite ?Ho; try done.
    + split; [done|done| |done|intros i Hi; by rewrite Habs|intros i j Hi _; by rewrite Habs].
      apply zeros_page. by destruct Hr as (? & _).
    + by rewrite Hdom.
    + simpl. constructor; [done|apply I2].
    + by apply Forall_singleton.
    + intros k Hk. by apply elem_of_nil in Hk.
    + intros k Hk. by apply elem_of_nil in Hk.
    + intros k _ _. by rewrite Hpte.
  - intros q Hq. unfold s2. cbn [pages set_pages]. by rewrite lookup_insert_ne, M1.
  - intros x Hx Hp. by rewrite Habs in Hp.
Qed.

(** The four lines of [kmap]. *)
Definition kmap1 : Z → Z := mapped KERNBASE 0 PTE_W 256 (λ _, 0).
Definition kmap2 : Z → Z := mapped KERNLINK EXTMEM 0 ((vdata - KERNLINK) / 4096) kmap1.
Definition kmap3 : Z → Z := mapped vdata (vdata - KERNBASE) PTE_W ((KERNBASE + PHYSTOP - vdata) / 4096) kmap2.
Definition kmap4 : Z → Z := mapped DEVSPACE DEVSPACE PTE_W 8192 kmap3.

Lemma kmap4_kpte v : vdata_ok vdata → 0 ≤ v < 4294967296 → kmap4 v = kpte vdata v.
Proof.
  intros [Hal Hv] Hr. unfold kmap4, kmap3, kmap2, kmap1, kpte, mapped, KERNLINK, KERNBASE, EXTMEM, PHYSTOP, DEVSPACE in *.
  repeat case_bool_decide; try lia; try done; f_equal; lia.
Qed.

Ltac kconst := unfold kmap3, kmap2, kmap1, mapped, KERNLINK, KERNBASE, EXTMEM, PHYSTOP, DEVSPACE, u32 in *.

(** The conditions on a line of [kmap]: numbers, and that the addresses are not mapped yet. *)
Ltac kunmapped := solve [kconst; lia | intros v Hr; kconst; rewrite ?bool_decide_false by lia; done].

Lemma kmap_ok s l r : KERNBASE < kend → vdata_ok vdata → uspace kend s l r [] → (∀ v, pte (pages s) r v = 0) → ktabs (pages s) r →
  (∃ s' l', setupkvm_loop kend r (kmap vdata) s = Ok r s' ∧ kstep r s l s' l' ∧ ktabs (pages s') r ∧
     ∀ v, 0 ≤ v < 4294967296 → pte (pages s') r v = kpte vdata v) ∨
  (∃ s', setupkvm_loop kend r (kmap vdata) s = Ok 0 s' ∧ given_back s (own (pages s) r [] ++ l) s').
Proof.
  intros Hkend Hvd U P0 T0. pose proof Hvd as [Hal Hv]. unfold kmap.
  assert (Ev : V2P vdata = vdata - KERNBASE) by (unfold V2P; kconst; lia). rewrite Ev. change (V2P KERNLINK) with EXTMEM.
  assert (K0 : kstep r s l s l) by by split.
  destruct (setup_step r s l s l KERNBASE 256 0 EXTMEM PTE_W (λ _, 0) Hkend K0 T0 (λ v _, P0 v)) as [(s1 & l1 & E1 & K1 & T1 & P1)|(s' & E & B)];
    [kunmapped..|rewrite E1|right; eauto]. fold kmap1 in P1.
  destruct (setup_step r s l s1 l1 KERNLINK ((vdata - KERNLINK) / 4096) EXTMEM (vdata - KERNBASE) 0 _ Hkend K1 T1 P1) as [(s2 & l2 & E2 & K2 & T2 & P2)|(s' & E & B)];
    [kunmapped..|rewrite E2|right; eauto]. fold kmap2 in P2.
  destruct (setup_step r s l s2 l2 vdata ((KERNBASE + PHYSTOP - vdata) / 4096) (vdata - KERNBASE) PHYSTOP PTE_W _ Hkend K2 T2 P2) as [(s3 & l3 & E3 & K3 & T3 & P3)|(s' & E & B)];
    [kunmapped..|rewrite E3|right; eauto]. fold kmap3 in P3.
  destruct (setup_step r s l s3 l3 DEVSPACE 8192 DEVSPACE 0 PTE_W _ Hkend K3 T3 P3) as [(s4 & l4 & E4 & K4 & T4 & P4)|(s' & E & B)];
    [kunmapped..|rewrite E4|right; eauto]. fold kmap4 in P4.
  left. exists s4, l4. split_and!; [done|done|done|]. intros v Hr. rewrite P4 by done. by apply kmap4_kpte.
Qed.

Lemma setupkvm_ok s l : KERNBASE < kend → vdata_ok vdata → heap kend s l →
  (∃ pg s' l', setupkvm kend vdata s = Ok pg s' ∧ pg ∈ l ∧ uspace kend s' l' pg [] ∧ own (pages s') pg [] ++ l' ≡ₚ l ∧
     dom (pages s') = dom (pages s) ∧ (∀ q, q ∉ l → pages s' !! q = pages s !! q) ∧ (length (own (pages s') pg []) ≤ 1 + NKTAB)%nat ∧
     ∀ v, 0 ≤ v < 4294967296 → pte (pages s') pg v = kpte vdata v) ∨
  (∃ s', setupkvm kend vdata s = Ok 0 s' ∧ given_back s l s').
Proof.
  intros Hkend Hvd H. unfold setupkvm. destruct l as [|r l].
  { destruct (kalloc_none s (hp_inv _ _ _ H)) as (s' & E & I & M & _). mstep E. right. exists s'. split; [done|].
    split; rewrite ?M; [|done..|simpl; lia]. exists []. split; [|done]. split; [done|done|rewrite M; apply H]. }
  destruct (empty_space s r l H) as (s1 & s2 & E1 & E2 & U & Ho & D2 & O2 & P2 & T2). mstep E1.
  pose proof (proj1 (Forall_cons _ _ _) (hp_ok _ _ _ H)) as [(_ & _ & _ & Hr) _]. rewrite (proj2 (Z.eqb_neq _ _)) by lia. mstep E2.
  change (DEVSPACE <? P2V PHYSTOP) with false. cbv iota.
  destruct (kmap_ok s2 l r Hkend Hvd U P2 T2) as [(s' & l' & E & [U' A' D' O'] & T' & P')|(s' & E & [B1 B2 B3 B4])]; rewrite Ho in *.
  - left. exists r, s', l'. split_and!; [done|by left|done|done|congruence| | |done].
    + intros q Hq. rewrite O' by done. apply O2. intros ->. apply Hq. by left.
    + unfold own. rewrite app_nil_r. simpl. pose proof (ktabs_length _ _ T'). lia.
  - right. exists s'. split; [done|]. split; [done|congruence| |done]. intros q Hq. rewrite B3 by done. apply O2. intros ->. apply Hq. by left.
Qed.
End kernel.
