(* ===== verification/VmUser.v ===== *)
(** * User memory: allocuvm and copyuvm of vm.c

    [allocuvm] adds pages of zeros to a space, [copyuvm] makes a second space with the
    same contents.  When memory runs out both undo what they did: the second
    cases of [allocuvm_ok] and [copyuvm_ok] say that no page has been lost. *)

From S2P Require Import Prelude Params Kalloc Vm VmSpace VmKernel.

Section user.
Context (kend vdata : Z) (Hkend : KERNBASE < kend).

(** ** A page between the free list and the space *)

Lemma take_page s r l pg us : uspace kend s (r :: l) pg us →
  ∃ s1, kalloc s = Ok r s1 ∧ pages s1 = pages s ∧ uspace kend s1 l pg us ∧ page_ok kend r ∧ is_page (pages s) r ∧
    r ∉ own (pages s) pg us ++ l ∧ r ≠ 0.
Proof.
  intros U. pose proof (us_wf _ _ _ _ _ U) as W. destruct (kalloc_some s r l (pw_inv _ _ _ _ W)) as (s1 & E & I1 & M1 & _).
  pose proof (pw_free _ _ _ _ W) as Hok. apply Forall_cons in Hok as [Hr Hok].
  pose proof (us_nodup _ _ _ _ _ U) as Hn. rewrite <- Permutation_middle in Hn. apply NoDup_cons in Hn as [Hn Hn'].
  destruct (ki_list _ _ (pw_inv _ _ _ _ W)) as (_ & Hpos & d & Hd & Hl & _).
  exists s1. split_and!; [done|done| |done|split; [apply Hr|eauto]|done|lia].
  apply (uspace_keep kend s (r :: l)); try done; rewrite ?M1; [apply U|done|]. intros q Hq Hql. apply NoDup_app in Hn' as (_ & H & _). by apply (H q).
Qed.

(** A store to a page that belongs to nobody. *)
Lemma store_limbo s l pg us r d : uspace kend s l pg us → r ∉ own (pages s) pg us ++ l → is_page (pages s) r →
  let s' := set_pages (<[r := d]> (pages s)) s in
  uspace kend s' l pg us ∧ own (pages s') pg us = own (pages s) pg us ∧ dom (pages s') = dom (pages s) ∧
  (∀ q, q ≠ r → pages s' !! q = pages s !! q) ∧ ∀ va, pte (pages s') pg va = pte (pages s) pg va.
Proof.
  intros U Hr (_ & e & He & _) s'. rewrite elem_of_app in Hr.
  assert (F : ∀ q, q ≠ r → pages s' !! q = pages s !! q) by (intros q Hq; unfold s'; cbn [pages set_pages]; by apply lookup_insert_ne).
  assert (S : ∀ q, q ∈ own (pages s) pg us → pages s' !! q = pages s !! q) by (intros q Hq; apply F; intros ->; tauto).
  assert (D : dom (pages s') = dom (pages s)).
  { unfold s'. cbn [pages set_pages]. rewrite dom_insert_L. apply subseteq_union_1_L, singleton_subseteq_l. by apply elem_of_dom_2 in He. }
  split_and!; [|by apply own_keep|done|done|intros va; by apply (pte_keep _ _ _ us)].
  apply (uspace_keep kend s l); try done.
  - apply kinv_insert; [apply U|tauto].
  - apply (us_wf _ _ _ _ _ U).
  - rewrite D. apply U.
  - intros q Hq. by apply (us_free kend s l pg us).
Qed.

Lemma give_page s l pg us r : uspace kend s l pg us → r ∉ own (pages s) pg us ++ l → page_ok kend r → is_page (pages s) r →
  ∃ s', kfree kend r s = Ok tt s' ∧ uspace kend s' (r :: l) pg us ∧ own (pages s') pg us = own (pages s) pg us ∧ dom (pages s') = dom (pages s) ∧
    (∀ q, q ≠ r → pages s' !! q = pages s !! q) ∧ ∀ va, pte (pages s') pg va = pte (pages s) pg va.
Proof.
  intros U Hr Hok Hp. pose proof Hp as (_ & e & He & _). pose proof Hr as Hr'. rewrite elem_of_app in Hr'.
  destruct (kfree_ok kend s r l) as (s' & E & I & M & _); [apply U|done|tauto|by rewrite He|].
  destruct (store_limbo s l pg us r (put32 (replicate (Z.to_nat PGSIZE) 1) 0 (km_freelist s)) U Hr Hp) as (_ & O & D & F & P).
  cbn [pages set_pages] in O, D, F, P. rewrite <- M in O, D, F, P. exists s'. split_and!; try done.
  apply (uspace_keep kend s l); try done.
  - constructor; [done|apply (us_wf _ _ _ _ _ U)].
  - rewrite D. apply U.
  - intros q Hq. apply F. intros ->. tauto.
  - intros q Hq. apply not_elem_of_cons. split; [intros ->; tauto|by apply (us_free kend s l pg us)].
Qed.

(** A page that was taken, written and given back makes no difference. *)
Lemma lend s r l pg us d s' l' us' s'' : uspace kend s (r :: l) pg us → r ∉ own (pages s) pg us ++ l →
  ∀ s1, pages s1 = <[r := d]> (pages s) → dom (pages s1) = dom (pages s) → own (pages s1) pg us = own (pages s) pg us →
  (∀ va, pte (pages s1) pg va = pte (pages s) pg va) → ustep kend pg s1 l us s' l' us' →
  uspace kend s'' (r :: l') pg us' → own (pages s'') pg us' = own (pages s') pg us' → dom (pages s'') = dom (pages s') →
  (∀ q, q ≠ r → pages s'' !! q = pages s' !! q) → (∀ va, pte (pages s'') pg va = pte (pages s') pg va) →
  ustep kend pg s (r :: l) us s'' (r :: l') us'.
Proof.
  intros U Hr s1 M1 D1 O1 P1 [U2 A2 D2 F2 S2 K2] U3 O3 D3 F3 P3. rewrite elem_of_app in Hr.
  split; [done| |congruence| | |].
  - rewrite O3, <- !Permutation_middle, A2. by rewrite O1.
  - intros q Hq. rewrite elem_of_app, elem_of_cons in Hq. rewrite F3 by tauto. rewrite F2 by (rewrite O1, elem_of_app; tauto).
    rewrite M1. apply lookup_insert_ne. intros ->. tauto.
  - intros k Hk Hk'. destruct (S2 k Hk Hk') as [E1 E2]. split; [by rewrite P3, E1|].
    unfold frame, upage in *. rewrite P1 in E2. assert (Hne : P2V (PTE_ADDR (pte (pages s) pg (k * 4096))) ≠ r).
    { intros E. apply Hr. left. rewrite <- E. by apply (own_frame (pages s) pg us k). }
    rewrite F3, E2, M1 by done. by apply lookup_insert_ne.
  - intros va Hva. by rewrite P3, K2.
Qed.

(** A page that is there, with contents [d]. *)
Definition holds (m : gmap Z (list Z)) (pg k perm : Z) (d : list Z) : Prop :=
  pte m pg (k * 4096) = entry (V2P (frame m pg k)) perm ∧ m !! frame m pg k = Some d.

(** A page from the free list that was written is added to the space. *)
Lemma grown s r l pg us k perm d s1 s' l' : uspace kend s (r :: l) pg us → r ∉ own (pages s) pg us ++ l →
  pages s1 = <[r := d]> (pages s) → dom (pages s1) = dom (pages s) → own (pages s1) pg us = own (pages s) pg us →
  (∀ va, pte (pages s1) pg va = pte (pages s) pg va) → added kend pg s1 l us k r perm s' l' →
  ustep kend pg s (r :: l) us s' l' (k :: us) ∧ holds (pages s') pg k perm d.
Proof.
  intros U Hr M1 D1 O1 P1 [U2 A2 D2 F2 S2 K2 E2 G2]. pose proof Hr as Hr'. rewrite elem_of_app in Hr'. split; [split|split].
  - done.
  - by rewrite A2, O1, <- Permutation_middle.
  - congruence.
  - intros q Hq. rewrite elem_of_app, elem_of_cons in Hq. rewrite F2 by (rewrite O1, elem_of_app; tauto).
    rewrite M1. apply lookup_insert_ne. intros ->. tauto.
  - intros j Hj _. destruct (S2 j Hj) as [E1 E3]. split; [by rewrite E1|]. unfold frame, upage in *. rewrite P1 in E3. rewrite E3, M1.
    apply lookup_insert_ne. intros E. apply Hr'. left. rewrite E. by apply (own_frame (pages s) pg us j).
  - intros va Hva. by rewrite K2.
  - by rewrite G2.
  - rewrite G2, F2 by (by rewrite O1). rewrite M1. apply lookup_insert_eq.
Qed.

(** ** allocuvm *)

Definition UW : Z := Z.lor PTE_W PTE_U.

(** The body of the loop, for page number [k]. *)
Definition alloc_body (pg oldsz newsz k : Z) : M kstate (option Z) :=
  mem ← kalloc;
  if mem =? 0 then deallocuvm kend pg newsz oldsz;; mret (Some 0)
  else
    zero_page mem;;
    r ← mappages pg (k * 4096) PGSIZE (V2P mem) UW;
    if r <? 0 then deallocuvm kend pg newsz oldsz;; kfree kend mem;; mret (Some 0)
    else mret None.

(** The new pages are gone again. *)
Definition alloc_undone (pg oldsz newsz : Z) (s : kstate) (l us : list Z) (s' : kstate) : Prop :=
  ∃ l' us', ustep kend pg s l us s' l' us' ∧ ∀ j, j ∈ us' ↔ j ∈ us ∧ ¬ (oldsz ≤ j * 4096 < newsz).

(** No page for [k] itself, or for the table it needs. *)
Definition no_memory (m : gmap Z (list Z)) (pg k : Z) (l : list Z) : Prop :=
  l = [] ∨ (length l = 1%nat ∧ has (pde m pg (k / 1024)) PTE_P = false).

Lemma limbo_pde s l pg us r d x : r ∉ own (pages s) pg us ++ l → pde (<[r := d]> (pages s)) pg x = pde (pages s) pg x.
Proof.
  intros Hr. apply (pde_keep _ _ _ us). intros q Hq. apply lookup_insert_ne. intros ->. apply Hr, elem_of_app. by left.
Qed.

Lemma alloc_round s l pg us k oldsz newsz : uspace kend s l pg us → k ∉ us → 0 ≤ k < NUP → 0 ≤ oldsz < newsz → newsz ≤ KERNBASE →
  (∃ s' l', alloc_body pg oldsz newsz k s = Ok None s' ∧ ustep kend pg s l us s' l' (k :: us) ∧ holds (pages s') pg k UW zeros ∧
     tabs_in (pages s) (pages s') pg (k / 1024) (k / 1024)) ∨
  (∃ s', alloc_body pg oldsz newsz k s = Ok (Some 0) s' ∧ alloc_undone pg oldsz newsz s l us s' ∧ no_memory (pages s) pg k l).
Proof.
  intros U Hk Hkr Hsz Hn. unfold alloc_body. destruct l as [|r l].
  { destruct (kalloc_none s (pw_inv _ _ _ _ (us_wf _ _ _ _ _ U))) as (s1 & E1 & I1 & M1 & _). mstep E1. cbn [Z.eqb].
    assert (U1 : uspace kend s1 [] pg us).
    { apply (uspace_keep kend s []); try done; rewrite ?M1; [apply U|done|]. intros q _. apply not_elem_of_nil. }
    destruct (deallocuvm_ok kend s1 [] pg us newsz oldsz Hkend U1 Hsz Hn) as (s2 & l2 & us2 & E2 & T2 & Hus). mstep E2.
    right. exists s2. split; [done|]. split; [|by left]. exists l2, us2. split; [|done]. destruct T2 as [T21 T22 T23 T24 T25 T26]. rewrite M1 in *. by split. }
  destruct (take_page s r l pg us U) as (s1 & E1 & M1 & U1 & Hok & Hp & Hr & Hnz). mstep E1. rewrite (proj2 (Z.eqb_neq _ _) Hnz).
  rewrite <- M1 in Hr, Hp. destruct (store_limbo s1 l pg us r zeros U1 Hr Hp) as (U2 & O2 & D2 & F2 & P2).
  set (s2 := set_pages (<[r := zeros]> (pages s1)) s1) in *. pose proof Hp as (_ & e & He & _).
  assert (E2 : zero_page r s1 = Ok tt s2) by (by apply page_set_ok with e). mstep E2.
  assert (M2 : pages s2 = <[r := zeros]> (pages s)) by (unfold s2; cbn [pages set_pages]; by rewrite M1). rewrite M1 in *.
  assert (Hp2 : is_page (pages s2) r) by (rewrite M2; apply zeros_page; apply Hok).
  destruct (map_page kend s2 l pg us k r UW U2 Hkr Hk Hok Hp2) as (res & s3 & l3 & E3 & [(-> & A3 & B3)|(-> & -> & -> & T3 & B3)]); [by rewrite O2|by vm_compute| |]; mstep E3; cbn [Z.ltb Z.compare].
  - left. exists s3, l3. split; [done|]. destruct (grown s r l pg us k UW zeros s2 s3 l3) as [G1 G2]; try done. split_and!; [done|done|].
    eapply tabs_in_trans; [|exact B3]. apply tabs_in_refl. intros x. rewrite M2. by apply (limbo_pde s l pg us).
  - pose proof (up_space _ _ _ _ _ _ _ _ T3) as U3. destruct (deallocuvm_ok kend s3 [] pg us newsz oldsz Hkend U3 Hsz Hn) as (s4 & l4 & us4 & E4 & T4 & Hus). mstep E4.
    assert (T : ustep kend pg s2 [] us s4 l4 us4) by (eapply ustep_trans; [|exact T3|exact T4]; tauto).
    assert (Hr4 : r ∉ own (pages s4) pg us4 ++ l4) by (by rewrite (up_acct _ _ _ _ _ _ _ _ T), O2).
    assert (Hp4 : is_page (pages s4) r) by (apply page_keep with (pages s2); [apply (up_out _ _ _ _ _ _ _ _ T); by rewrite O2|done]).
    destruct (give_page s4 l4 pg us4 r (up_space _ _ _ _ _ _ _ _ T) Hr4 Hok Hp4) as (s5 & E5 & U5 & O5 & D5 & F5 & P5). mstep E5.
    right. exists s5. split; [done|]. split; [|right; split; [done|by rewrite M2, (limbo_pde s [] pg us) in B3]]. exists (r :: l4), us4. split; [|done].
    by apply (lend s r [] pg us zeros s4 l4 us4 s5 U Hr s2).
Qed.

(** The number of pages of [sz] bytes. *)
Definition npages (sz : Z) : Z := (sz + 4095) / 4096.

(** Pages that stay keep what they hold. *)
Lemma holds_keep pg s l us s' l' us' k perm d : ustep kend pg s l us s' l' us' → k ∈ us → k ∈ us' →
  holds (pages s) pg k perm d → holds (pages s') pg k perm d.
Proof.
  intros T Hk Hk' [H1 H2]. destruct (up_same _ _ _ _ _ _ _ _ T k Hk Hk') as [E1 E2].
  assert (Ef : frame (pages s') pg k = frame (pages s) pg k) by (unfold frame, upage; by rewrite E1).
  split; rewrite Ef; [by rewrite E1|by rewrite E2].
Qed.

Definition alloc_inv (pg : Z) (s : kstate) (l us : list Z) (n0 n1 i : Z) (s1 : kstate) : Prop :=
  ∃ l1 us1, ustep kend pg s l us s1 l1 us1 ∧ us1 ≡ₚ seqZ 0 (n0 + i) ∧ (∀ k, n0 ≤ k < n0 + i → holds (pages s1) pg k UW zeros) ∧
    tabs_in (pages s) (pages s1) pg (n0 / 1024) ((n1 - 1) / 1024).

(** The pages that it takes to grow from [n0] to [n1] pages: these and their tables. *)
Definition grow_need (m : gmap Z (list Z)) (pg n0 n1 : Z) : Z :=
  if n0 <? n1 then n1 - n0 + Z.of_nat (length (no_tabs m pg (n0 / 1024) ((n1 - 1) / 1024))) else 0.

(** Memory has run out only when there were too few pages. *)
Lemma alloc_few pg s l us n0 n1 i s1 l1 us1 : us ≡ₚ seqZ 0 n0 → us1 ≡ₚ seqZ 0 (n0 + i) → 0 ≤ n0 → 0 ≤ i < n1 - n0 → n1 ≤ NUP →
  own (pages s1) pg us1 ++ l1 ≡ₚ own (pages s) pg us ++ l → tabs_in (pages s) (pages s1) pg (n0 / 1024) ((n1 - 1) / 1024) →
  no_memory (pages s1) pg (n0 + i) l1 → Z.of_nat (length l) < grow_need (pages s) pg n0 n1.
Proof.
  intros Hus Hus1 H0 Hi H1 A T Hno. apply own_count in A. rewrite Hus, Hus1, !length_seqZ in A. unfold grow_need.
  rewrite (proj2 (Z.ltb_lt _ _)) by lia. assert (Hr : 0 ≤ n0 / 1024 ∧ (n1 - 1) / 1024 < 1024) by (unfold NUP in H1; lia).
  destruct Hno as [->|[Hl Hp]].
  - pose proof (tab_count _ _ _ _ _ (proj1 Hr) (proj2 Hr) T). simpl in A. lia.
  - pose proof (tab_count_less _ _ _ _ _ ((n0 + i) / 1024) (proj1 Hr) (proj2 Hr) T ltac:(lia) Hp). lia.
Qed.

Lemma alloc_step pg s l us oldsz newsz i s1 : us ≡ₚ seqZ 0 (npages oldsz) → 0 ≤ oldsz < newsz → newsz < KERNBASE →
  0 ≤ i < npages newsz - npages oldsz → alloc_inv pg s l us (npages oldsz) (npages newsz) i s1 →
  (∃ s2, alloc_body pg oldsz newsz (npages oldsz + i) s1 = Ok None s2 ∧ alloc_inv pg s l us (npages oldsz) (npages newsz) (i + 1) s2) ∨
  (∃ r s2, alloc_body pg oldsz newsz (npages oldsz + i) s1 = Ok (Some r) s2 ∧ r = 0 ∧
     (∃ l2, ustep kend pg s l us s2 l2 us) ∧ Z.of_nat (length l) < grow_need (pages s) pg (npages oldsz) (npages newsz)).
Proof.
  intros Hus Hsz Hn Hi (l1 & us1 & T1 & P1 & H1 & B1). set (n0 := npages oldsz) in *. assert (Hn0 : 0 ≤ n0) by (unfold n0, npages; lia).
  assert (Hin : ∀ k, k ∈ us1 ↔ 0 ≤ k < n0 + i) by (intros k; rewrite P1, elem_of_seqZ; lia).
  assert (Hu : ∀ k, k ∈ us ↔ 0 ≤ k < n0) by (intros k; rewrite Hus, elem_of_seqZ; lia).
  assert (Hkr : 0 ≤ n0 + i < NUP) by (unfold n0, npages, NUP, KERNBASE in *; lia).
  destruct (alloc_round s1 l1 pg us1 (n0 + i) oldsz newsz (up_space _ _ _ _ _ _ _ _ T1)) as [(s2 & l2 & E2 & T2 & H2 & B2)|(s2 & E2 & (l2 & us2 & T2 & Hus2) & Hno)];
    [rewrite Hin; lia|done|done|lia|left|right].
  - exists s2. split; [done|]. exists l2, (n0 + i :: us1). split_and!.
    + eapply ustep_trans; [|exact T1|exact T2]. intros k Hk _. apply Hin. apply Hu in Hk. lia.
    + rewrite Z.add_assoc, seqZ_snoc, P1 by lia. apply Permutation_cons_append.
    + intros k Hk. destruct (decide (k = n0 + i)) as [->|]; [done|]. apply (holds_keep pg s1 l1 us1 s2 l2 (n0 + i :: us1)); [done| | |apply H1; lia].
      * apply Hin. lia.
      * right. apply Hin. lia.
    + eapply tabs_in_trans; [exact B1|]. eapply tabs_in_mono; [exact B2|lia|lia].
  - exists 0, s2. split_and!; [done|done| |].
    2: { apply (alloc_few pg s l us n0 (npages newsz) i s1 l1 us1); try done; [unfold npages, NUP, KERNBASE in *; lia|apply T1]. }
    exists l2. assert (Pu : us2 ≡ₚ us).
    { apply NoDup_Permutation; [apply (us_uniq kend s2 l2 pg), T2| |].
      - rewrite Hus. apply NoDup_seqZ.
      - intros k. rewrite Hus2, Hin, Hu. unfold n0, npages in *. lia. }
    eapply ustep_perm; [exact Pu|]. eapply ustep_trans; [|exact T1|exact T2]. intros k Hk _. apply Hin. apply Hu in Hk. lia.
Qed.

Lemma allocuvm_ok s l pg us oldsz newsz : uspace kend s l pg us → us ≡ₚ seqZ 0 (npages oldsz) → 0 ≤ oldsz ≤ newsz → newsz < KERNBASE →
  (∃ s' l' us', allocuvm kend pg oldsz newsz s = Ok newsz s' ∧ ustep kend pg s l us s' l' us' ∧ us' ≡ₚ seqZ 0 (npages newsz) ∧
     (∀ k, npages oldsz ≤ k < npages newsz → holds (pages s') pg k UW zeros) ∧
     tabs_in (pages s) (pages s') pg (npages oldsz / 1024) ((npages newsz - 1) / 1024)) ∨
  (∃ s' l', allocuvm kend pg oldsz newsz s = Ok 0 s' ∧ ustep kend pg s l us s' l' us ∧
     Z.of_nat (length l) < grow_need (pages s) pg (npages oldsz) (npages newsz)).
Proof.
  intros U Hus Hsz Hn. unfold allocuvm. destruct (Z.leb_spec KERNBASE newsz); [lia|]. destruct (Z.ltb_spec newsz oldsz); [lia|]. cbv zeta.
  rewrite PGROUNDUP_spec by (unfold KERNBASE in *; lia). fold (npages oldsz).
  replace ((newsz - npages oldsz * 4096 + PGSIZE - 1) / PGSIZE) with (npages newsz - npages oldsz) by (unfold npages, PGSIZE; lia).
  match goal with |- context [for_range ?n 0 ?b] => destruct (for_range_inv (alloc_inv pg s l us (npages oldsz) (npages newsz))
    (λ r s2, r = 0 ∧ (∃ l2, ustep kend pg s l us s2 l2 us) ∧ Z.of_nat (length l) < grow_need (pages s) pg (npages oldsz) (npages newsz)) b n 0 s) as (r & s' & E & Hr) end.
  - exists l, us. rewrite Z.add_0_r. split_and!; [by apply ustep_refl|done|intros; lia|by apply tabs_in_refl].
  - intros i s1 Hi HI. replace (npages oldsz * 4096 + i * PGSIZE) with ((npages oldsz + i) * 4096) by (unfold PGSIZE; lia).
    apply (alloc_step pg s l us oldsz newsz i s1 Hus); [unfold npages in *; lia|lia|lia|done].
  - mstep E. destruct r as [r|].
    + destruct Hr as (-> & [l2 T] & Hf). right. exists s', l2. done.
    + destruct Hr as (l2 & us2 & T & P & H2 & B2). left. exists s', l2, us2. rewrite Z2Nat.id in * by (unfold npages; lia).
      replace (npages oldsz + (0 + (npages newsz - npages oldsz))) with (npages newsz) in * by lia. split_and!; try done.
Qed.

(** ** inituvm *)

(** A store to a page of the space. *)
Lemma store_frame s l pg us k d : uspace kend s l pg us → k ∈ us → length d = Z.to_nat PGSIZE →
  let s' := set_pages (<[frame (pages s) pg k := d]> (pages s)) s in
  uspace kend s' l pg us ∧ own (pages s') pg us = own (pages s) pg us ∧ dom (pages s') = dom (pages s) ∧
  (∀ va, pte (pages s') pg va = pte (pages s) pg va).
Proof.
  intros U Hk Hd s'. destruct (us_outside kend s l pg us k U Hk) as (Hl & Hpg & Ht). pose proof (us_page _ _ _ _ _ U k Hk) as Hp.
  destruct (data_store kend s l pg _ d (us_wf _ _ _ _ _ U) (us_outside kend s l pg us k U Hk) Hp Hd) as [W P D Pg _]. fold s' in W, P, D, Pg.
  assert (Ho : own (pages s') pg us = own (pages s) pg us).
  { unfold own. f_equal. f_equal.
    - apply ptabs_same. intros i Hi. unfold pde, s'. cbn [pages set_pages]. by rewrite lookup_insert_ne.
    - apply list_fmap_ext. intros i j _. unfold frame, upage. by rewrite P. }
  split_and!; [|done|done|done]. split; rewrite ?Ho; try apply U; try done.
  - rewrite D. apply U.
  - intros j Hj. unfold frame, upage. rewrite P, Pg. by apply (us_page _ _ _ _ _ U).
  - intros j Hj. rewrite P. by apply (us_here _ _ _ _ _ U).
  - intros j Hr Hj. rewrite P. by apply (us_none _ _ _ _ _ U).
Qed.

(** The first page of the first process: with two free pages [inituvm] succeeds. *)
Lemma inituvm_ok s r r2 l d init : uspace kend s (r :: r2 :: l) d [] → Z.of_nat (length init) < PGSIZE →
  ∃ s' l', inituvm d init s = Ok tt s' ∧ uspace kend s' l' d [0] ∧ own (pages s') d [0] ++ l' ≡ₚ own (pages s) d [] ++ r :: r2 :: l ∧
    dom (pages s') = dom (pages s) ∧ (∀ q, q ∉ own (pages s) d [] ++ r :: r2 :: l → pages s' !! q = pages s !! q) ∧
    (∀ va, KERNBASE ≤ va < 4294967296 → pte (pages s') d va = pte (pages s) d va) ∧ holds (pages s') d 0 UW (splice 0 init zeros).
Proof.
  intros U Hi. unfold inituvm. destruct (Z.leb_spec PGSIZE (Z.of_nat (length init))); [lia|].
  destruct (take_page s r (r2 :: l) d [] U) as (s1 & E1 & M1 & U1 & Hok & Hp & Hr & Hnz). mstep E1.
  rewrite <- M1 in Hr, Hp. destruct (store_limbo s1 (r2 :: l) d [] r zeros U1 Hr Hp) as (U2 & O2 & D2 & F2 & P2).
  set (s2 := set_pages (<[r := zeros]> (pages s1)) s1) in *. pose proof Hp as (_ & e & He & _).
  assert (E2 : zero_page r s1 = Ok tt s2) by (by apply page_set_ok with e). mstep E2.
  assert (M2 : pages s2 = <[r := zeros]> (pages s)) by (unfold s2; cbn [pages set_pages]; by rewrite M1). rewrite M1 in *.
  assert (Hp2 : is_page (pages s2) r) by (rewrite M2; apply zeros_page; apply Hok).
  destruct (map_page kend s2 (r2 :: l) d [] 0 r UW U2) as (res & s3 & l3 & E3 & [(-> & A3 & _)|(_ & ? & _)]);
    [by vm_compute|apply not_elem_of_nil|done|done|by rewrite O2|by vm_compute| |done].
  change (0 * 4096) with 0 in E3. mstep E3. destruct (grown s r (r2 :: l) d [] 0 UW zeros s2 s3 l3 U Hr M2 D2 O2 P2 A3) as [[T1 T2 T3 T4 _ T6] [H1 H2]].
  pose proof (ad_frame _ _ _ _ _ _ _ _ _ _ A3) as Hf. rewrite Hf in H2. rewrite (copy_into_ok s3 r 0 init zeros H2). change (Z.to_nat 0) with 0%nat.
  assert (Hlen : length (splice 0 init zeros) = Z.to_nat PGSIZE).
  { rewrite length_splice; [apply zeros_len|]. rewrite zeros_len. lia. }
  destruct (store_frame s3 l3 d [0] 0 (splice 0 init zeros) T1) as (U4 & O4 & D4 & P4); [by left|done|]. rewrite Hf in *.
  eexists _, l3. split; [reflexivity|]. split_and!; [done|by rewrite O4|congruence| |intros va Hva; by rewrite P4, T6|split].
  - intros q Hq. cbn [pages set_pages]. rewrite lookup_insert_ne; [by apply T4|]. intros <-. apply Hq. apply elem_of_app. right. by left.
  - unfold frame, upage. rewrite !P4. fold (upage (pages s3) d (0 * 4096)). fold (frame (pages s3) d 0). by rewrite H1, Hf.
  - unfold frame, upage. rewrite P4. fold (upage (pages s3) d (0 * 4096)). fold (frame (pages s3) d 0). rewrite Hf. cbn [pages set_pages]. apply lookup_insert_eq.
Qed.

(** ** copyuvm *)

(** The body of the loop, for page number [k]. *)
Definition copy_body (pgdir d k : Z) : M kstate (option unit) :=
  let i := k * PGSIZE in
  pte ← walkpgdir pgdir i false;
  if pte =? 0 then panic "copyuvm: pte should exist" else
  e ← ldw pte;
  if negb (has e PTE_P) then panic "copyuvm: page not present" else
  let pa := PTE_ADDR e in
  let flags := PTE_FLAGS e in
  mem ← kalloc;
  if mem =? 0 then mret (Some tt) else
  bs ← page_at (P2V pa);
  copy_into mem 0 bs;;
  r ← mappages d i PGSIZE (V2P mem) flags;
  if r <? 0 then kfree kend mem;; mret (Some tt) else mret None.

Lemma copyuvm_eq pgdir sz : copyuvm kend vdata pgdir sz =
  (d ← setupkvm kend vdata;
   if d =? 0 then mret 0 else
   r ← for_range (Z.to_nat ((sz + PGSIZE - 1) / PGSIZE)) 0 (copy_body pgdir d);
   match r with None => mret d | Some _ => freevm kend d;; mret 0 end).
Proof. reflexivity. Qed.

(** The child [d] at some point of the loop: it has its pages from the free list [l0] of
    the beginning, and nothing else has changed. *)
Record child (d : Z) (s0 : kstate) (l0 : list Z) (s1 : kstate) (l1 us1 : list Z) : Prop := {
  ch_space : uspace kend s1 l1 d us1;
  ch_acct : own (pages s1) d us1 ++ l1 ≡ₚ l0;
  ch_dom : dom (pages s1) = dom (pages s0);
  ch_out : ∀ q, q ∉ l0 → pages s1 !! q = pages s0 !! q;
  ch_kern : ∀ va, KERNBASE ≤ va < 4294967296 → pte (pages s1) d va = kpte vdata va }.

(** Page [k] of the child is that of the parent. *)
Definition copied (pg d : Z) (s0 s1 : kstate) (k : Z) : Prop :=
  pte (pages s1) d (k * 4096) = entry (V2P (frame (pages s1) d k)) (PTE_FLAGS (pte (pages s0) pg (k * 4096))) ∧
  pages s1 !! frame (pages s1) d k = pages s0 !! frame (pages s0) pg k.

Lemma child_parent d s0 l0 s1 l1 us1 pg usp : uspace kend s0 l0 pg usp → child d s0 l0 s1 l1 us1 → uspace kend s1 l1 pg usp.
Proof.
  intros U [C1 C2 C3 C4 _]. assert (Hf : ∀ q, q ∈ own (pages s0) pg usp → q ∉ l0) by (intros q; by apply (us_free kend s0 l0 pg usp)).
  apply (uspace_keep kend s0 l0); try done; try apply (us_wf _ _ _ _ _ C1).
  - rewrite C3. apply U.
  - intros q Hq. by apply C4, Hf.
  - intros q Hq Hl. apply (Hf q Hq). rewrite <- C2. apply elem_of_app. by right.
Qed.

Lemma parent_same d s0 l0 s1 l1 us1 pg usp : uspace kend s0 l0 pg usp → child d s0 l0 s1 l1 us1 →
  ∀ q, q ∈ own (pages s0) pg usp → pages s1 !! q = pages s0 !! q.
Proof. intros U C q Hq. apply (ch_out _ _ _ _ _ _ C). by apply (us_free kend s0 l0 pg usp). Qed.

(** A step of the child's space is one of the child. *)
Lemma child_step d s0 l0 s1 l1 us1 s2 l2 us2 : child d s0 l0 s1 l1 us1 → ustep kend d s1 l1 us1 s2 l2 us2 → child d s0 l0 s2 l2 us2.
Proof.
  intros [C1 C2 C3 C4 C5] [T1 T2 T3 T4 _ T6]. split; [done|by rewrite T2|congruence| |].
  - intros q Hq. rewrite T4 by (by rewrite C2). by apply C4.
  - intros va Hva. rewrite T6 by done. by apply C5.
Qed.

Lemma PTE_FLAGS_range e : 0 ≤ PTE_FLAGS e < 4096.
Proof. unfold PTE_FLAGS. change 0xFFF with (Z.ones 12). rewrite Z.land_ones by lia. apply Z.mod_pos_bound. lia. Qed.

(** The round up to the allocation: the parent's entry is found. *)
Lemma copy_parent d s0 l0 s1 l1 us1 pg usp k (rest : Z → M kstate (option unit)) : uspace kend s0 l0 pg usp → child d s0 l0 s1 l1 us1 → k ∈ usp →
  (p ← walkpgdir pg (k * PGSIZE) false; if p =? 0 then panic "copyuvm: pte should exist" else e ← ldw p; rest e) s1 = rest (pte (pages s0) pg (k * 4096)) s1.
Proof.
  intros U C Hk. pose proof (child_parent _ _ _ _ _ _ _ _ U C) as U1. change (k * PGSIZE) with (k * 4096).
  assert (Epte : pte (pages s1) pg (k * 4096) = pte (pages s0) pg (k * 4096)).
  { apply (pte_keep _ _ _ usp). by apply (parent_same d s0 l0 s1 l1 us1). }
  pose proof (pte_has _ _ _ (us_here _ _ _ _ _ U1 k Hk)) as Hp. pose proof (us_wf _ _ _ _ _ U1) as W.
  mstep (walk_found kend s1 l1 pg (k * 4096) false W Hp). rewrite (proj2 (Z.eqb_neq _ _)) by (eapply slot_nz; [done|apply U1|done]).
  destruct (pw_tab _ _ _ _ W _ (PDX_bound (k * 4096)) Hp) as (Hpg & _). unfold slot. mstep (ldw_ok s1 _ _ Hpg (PTX_bound (k * 4096))).
  replace (get32 _ _) with (pte (pages s1) pg (k * 4096)) by (unfold pte; by rewrite Hp). by rewrite Epte.
Qed.

(** One round: the page is copied, or memory has run out. *)
Lemma copy_round d s0 l0 s1 l1 us1 pg usp k : uspace kend s0 l0 pg usp → child d s0 l0 s1 l1 us1 → k ∈ usp → k ∉ us1 →
  (∃ s2 l2, copy_body pg d k s1 = Ok None s2 ∧ child d s0 l0 s2 l2 (k :: us1) ∧ ustep kend d s1 l1 us1 s2 l2 (k :: us1) ∧ copied pg d s0 s2 k ∧
     tabs_in (pages s1) (pages s2) d (k / 1024) (k / 1024)) ∨
  (∃ s2 l2, copy_body pg d k s1 = Ok (Some tt) s2 ∧ child d s0 l0 s2 l2 us1 ∧ no_memory (pages s1) d k l1).
Proof.
  intros U C Hk Hn. unfold copy_body. rewrite (copy_parent d s0 l0 s1 l1 us1 pg usp k _ U C Hk).
  rewrite (us_here _ _ _ _ _ U k Hk). cbn [negb]. pose proof (ch_space _ _ _ _ _ _ C) as U1.
  pose proof (proj1 (Forall_forall _ _) (us_range _ _ _ _ _ U) k Hk) as Hkr. destruct l1 as [|r l].
  { destruct (kalloc_none s1 (pw_inv _ _ _ _ (us_wf _ _ _ _ _ U1))) as (s2 & E2 & I2 & M2 & _). mstep E2. cbn [Z.eqb].
    right. exists s2, []. split; [done|]. split; [|by left]. destruct C as [C1 C2 C3 C4 C5]. split; rewrite ?M2; try done.
    apply (uspace_keep kend s1 []); try done; rewrite ?M2; [apply C1|done|]. intros q _. apply not_elem_of_nil. }
  destruct (take_page s1 r l d us1 U1) as (s2 & E2 & M2 & U2 & Hok & Hp & Hr & Hnz). mstep E2. rewrite (proj2 (Z.eqb_neq _ _) Hnz).
  destruct (us_page _ _ _ _ _ U k Hk) as (_ & bs & Hbs & Hlb). fold (upage (pages s0) pg (k * 4096)). fold (frame (pages s0) pg k).
  assert (Hb2 : pages s2 !! frame (pages s0) pg k = Some bs).
  { rewrite M2, (parent_same d s0 l0 s1 (r :: l) us1 pg usp U C); [done|by apply own_frame]. }
  mstep (page_at_ok s2 _ _ Hb2). pose proof Hp as (Hal & e & He & Hle). rewrite <- M2 in He, Hp, Hr.
  mstep (copy_into_ok s2 r 0 bs e He). change (Z.to_nat 0) with 0%nat. rewrite splice_all by (done || congruence).
  destruct (store_limbo s2 l d us1 r bs U2 Hr Hp) as (U3 & O3 & D3 & F3 & P3).
  set (s3 := set_pages (<[r := bs]> (pages s2)) s2) in *. assert (M3 : pages s3 = <[r := bs]> (pages s1)) by (unfold s3; cbn [pages set_pages]; by rewrite M2).
  rewrite M2 in *. assert (Hp3 : is_page (pages s3) r) by (split; [done|]; exists bs; by rewrite M3, lookup_insert_eq).
  destruct (map_page kend s3 l d us1 k r (PTE_FLAGS (pte (pages s0) pg (k * 4096))) U3 Hkr Hn Hok Hp3) as (res & s4 & l4 & E4 & [(-> & A4 & B4)|(-> & -> & -> & T4 & B4)]);
    [by rewrite O3|apply PTE_FLAGS_range| |]; change (k * PGSIZE) with (k * 4096); mstep E4; cbn [Z.ltb Z.compare].
  - left. destruct (grown s1 r l d us1 k _ bs s3 s4 l4 U1 Hr M3 D3 O3 P3 A4) as [T4 [H1 H2]]. exists s4, l4. split_and!; [done|by eapply child_step|done| |].
    + split; [done|]. by rewrite H2, Hbs.
    + eapply tabs_in_trans; [|exact B4]. apply tabs_in_refl. intros x. rewrite M3. by apply (limbo_pde s1 l d us1).
  - assert (Hr4 : r ∉ own (pages s4) d us1 ++ []) by (by rewrite (up_acct _ _ _ _ _ _ _ _ T4), O3).
    assert (Hp4 : is_page (pages s4) r) by (apply page_keep with (pages s3); [apply (up_out _ _ _ _ _ _ _ _ T4); by rewrite O3|done]).
    destruct (give_page s4 [] d us1 r (up_space _ _ _ _ _ _ _ _ T4) Hr4 Hok Hp4) as (s5 & E5 & U5 & O5 & D5 & F5 & P5). mstep E5.
    right. exists s5, [r]. split; [done|]. split; [|right; split; [done|by rewrite M3, (limbo_pde s1 [] d us1) in B4]].
    eapply child_step; [exact C|]. by apply (lend s1 r [] d us1 bs s4 [] us1 s5 U1 Hr s3).
Qed.

(** [mk] is the memory when the kernel's half has been made. *)
Definition copy_inv (mk : gmap Z (list Z)) (pg d : Z) (s0 : kstate) (l0 : list Z) (n i : Z) (s1 : kstate) : Prop :=
  ∃ l1 us1, child d s0 l0 s1 l1 us1 ∧ us1 ≡ₚ seqZ 0 i ∧ (∀ k, 0 ≤ k < i → copied pg d s0 s1 k) ∧ tabs_in mk (pages s1) d 0 ((n - 1) / 1024).

(** The pages of a space of [n] pages: a directory, the tables, and the pages. *)
Definition space_need (n : Z) : Z := 1 + Z.of_nat NKTAB + n + (n + 1023) / 1024.

Lemma copy_few mk d s0 l0 s1 l1 us1 n i : child d s0 l0 s1 l1 us1 → us1 ≡ₚ seqZ 0 i → 0 ≤ i < n → n ≤ NUP →
  tabs_in mk (pages s1) d 0 ((n - 1) / 1024) → (length (ptabs mk d) ≤ NKTAB)%nat → no_memory (pages s1) d i l1 →
  Z.of_nat (length l0) < space_need n.
Proof.
  intros [_ A _ _ _] Hus Hi Hn T Hk Hno. apply Permutation_length in A. unfold own in A. cbn [length app] in A.
  rewrite !length_app, length_fmap, Hus, length_seqZ in A. assert (Hr : (n - 1) / 1024 < 1024) by (unfold NUP in Hn; lia).
  assert (Hl : Z.of_nat (length (no_tabs mk d 0 ((n - 1) / 1024))) ≤ (n + 1023) / 1024).
  { unfold no_tabs. pose proof (length_filter (λ x, has (pde mk d x) PTE_P = false) (seqZ 0 ((n - 1) / 1024 - 0 + 1))) as H. rewrite length_seqZ in H. lia. }
  unfold space_need. destruct Hno as [->|[Hl1 Hp]].
  - pose proof (tab_count _ _ _ _ _ (Z.le_refl 0) Hr T). cbn [length] in A. lia.
  - pose proof (tab_count_less _ _ _ _ _ (i / 1024) (Z.le_refl 0) Hr T ltac:(lia) Hp). lia.
Qed.

Lemma copied_keep pg d s0 s1 l1 us1 s2 l2 us2 k : ustep kend d s1 l1 us1 s2 l2 us2 → k ∈ us1 → k ∈ us2 → copied pg d s0 s1 k → copied pg d s0 s2 k.
Proof.
  intros T Hk Hk' [H1 H2]. destruct (up_same _ _ _ _ _ _ _ _ T k Hk Hk') as [E1 E2].
  assert (Ef : frame (pages s2) d k = frame (pages s1) d k) by (unfold frame, upage; by rewrite E1).
  split; rewrite Ef; [by rewrite E1|by rewrite E2].
Qed.

Lemma copy_loop d s0 l0 pg us n s1 l1 : uspace kend s0 l0 pg us → us ≡ₚ seqZ 0 n → 0 ≤ n → child d s0 l0 s1 l1 [] →
  (length (ptabs (pages s1) d) ≤ NKTAB)%nat →
  ∃ r s', for_range (Z.to_nat n) 0 (copy_body pg d) s1 = Ok r s' ∧
    match r with
    | Some _ => (∃ l' us', child d s0 l0 s' l' us') ∧ Z.of_nat (length l0) < space_need n
    | None => copy_inv (pages s1) pg d s0 l0 n n s'
    end.
Proof.
  intros U Hus Hn C Hk. assert (Hnup : n ≤ NUP).
  { destruct (decide (n = 0)); [unfold NUP; lia|]. pose proof (proj1 (Forall_forall _ _) (us_range _ _ _ _ _ U) (n - 1)) as H. cbn beta in H.
    specialize (H ltac:(rewrite Hus, elem_of_seqZ; lia)). lia. }
  destruct (for_range_inv (copy_inv (pages s1) pg d s0 l0 n) (λ _ s', (∃ l' us', child d s0 l0 s' l' us') ∧ Z.of_nat (length l0) < space_need n) (copy_body pg d) (Z.to_nat n) 0 s1) as (r & s' & E & Hr).
  - exists l1, []. split_and!; [done|done|intros; lia|by apply tabs_in_refl].
  - intros i s2 Hi (l2 & us2 & C2 & P2 & H2 & B2). assert (Hin : ∀ k, k ∈ us2 ↔ 0 ≤ k < i) by (intros k; rewrite P2, elem_of_seqZ; lia).
    destruct (copy_round d s0 l0 s2 l2 us2 pg us i U C2) as [(s3 & l3 & E3 & C3 & T3 & H3 & B3)|(s3 & l3 & E3 & C3 & Hno)]; [rewrite Hus, elem_of_seqZ; lia|rewrite Hin; lia|left|right].
    + exists s3. split; [done|]. exists l3, (i :: us2). split_and!; [done|rewrite seqZ_snoc, P2 by lia; apply Permutation_cons_append| |].
      2: { eapply tabs_in_trans; [exact B2|]. eapply tabs_in_mono; [exact B3|lia|lia]. }
      intros k Hk'. destruct (decide (k = i)) as [->|]; [done|]. apply (copied_keep pg d s0 s2 l2 us2 s3 l3 (i :: us2)); [done| | |apply H2; lia].
      * apply Hin. lia.
      * right. apply Hin. lia.
    + exists tt, s3. split; [done|]. split; [eauto|]. apply (copy_few (pages s1) d s0 l0 s2 l2 us2 n i); try done. lia.
  - exists r, s'. split; [done|]. destruct r; [done|]. by rewrite Z2Nat.id in Hr.
Qed.

Lemma copyuvm_ok s l pg us sz : vdata_ok vdata → uspace kend s l pg us → us ≡ₚ seqZ 0 (npages sz) → 0 ≤ sz →
  (∃ d s' l' us', copyuvm kend vdata pg sz s = Ok d s' ∧ d ≠ 0 ∧ child d s l s' l' us' ∧ us' ≡ₚ us ∧ ∀ k, k ∈ us → copied pg d s s' k) ∨
  (∃ s' l', copyuvm kend vdata pg sz s = Ok 0 s' ∧ heap kend s' l' ∧ l' ≡ₚ l ∧ dom (pages s') = dom (pages s) ∧ (∀ q, q ∉ l → pages s' !! q = pages s !! q) ∧
     Z.of_nat (length l) < space_need (npages sz)).
Proof.
  intros Hvd U Hus Hsz. rewrite copyuvm_eq. destruct (setupkvm_ok kend vdata s l Hkend Hvd (uspace_heap _ _ _ _ _ U)) as
    [(d & s1 & l1 & E1 & Hd & U1 & A1 & D1 & O1 & Hfew & P1)|(s' & E & [(l' & H' & P') D' O' Hf])];
    [|right; mstep E; exists s', l'; split_and!; try done; unfold space_need, npages; lia].
  mstep E1. assert (Hnz : d ≠ 0).
  { pose proof (proj1 (Forall_forall _ _) (pw_free _ _ _ _ (us_wf _ _ _ _ _ U)) d Hd) as (_ & _ & _ & ?). lia. }
  rewrite (proj2 (Z.eqb_neq _ _) Hnz). replace ((sz + PGSIZE - 1) / PGSIZE) with (npages sz) by (unfold npages, PGSIZE; f_equal; lia).
  assert (C1 : child d s l s1 l1 []).
  { split; [done|done|done|done|]. intros va Hva. apply P1. unfold KERNBASE in Hva. lia. }
  destruct (copy_loop d s l pg us (npages sz) s1 l1 U Hus) as (r & s2 & E2 & Hr);
    [unfold npages; lia|done|revert Hfew; unfold own; simpl; rewrite app_nil_r; lia|]. mstep E2. destruct r as [u|].
  - right. destruct Hr as ((l2 & us2 & C2) & Hlen). destruct (freevm_ok kend s2 l2 d us2 Hkend (ch_space _ _ _ _ _ _ C2)) as (s3 & l3 & E3 & H3 & P3 & D3 & O3). mstep E3.
    exists s3, l3. pose proof (ch_acct _ _ _ _ _ _ C2) as A2. split_and!; [done|done|by rewrite P3|rewrite D3; apply C2| |done].
    intros q Hq. rewrite O3 by (by rewrite A2). by apply C2.
  - left. destruct Hr as (l2 & us2 & C2 & P2 & H2 & _). exists d, s2, l2, us2. split_and!; [done|done|done|by rewrite P2, Hus|].
    intros k Hk. apply H2. rewrite Hus, elem_of_seqZ in Hk. lia.
Qed.
End user.

(** ** The theorems *)

Lemma lor_P x : has x PTE_P = true → Z.lor x PTE_P = x.
Proof.
  intros H. apply Z.bits_inj'. intros n Hn. rewrite Z.lor_spec. change PTE_P with (2 ^ 0). rewrite Z.pow2_bits_eqb by lia.
  destruct (Z.eqb_spec 0 n) as [<-|]; [|by rewrite orb_false_r]. rewrite orb_true_r. symmetry. unfold has in H.
  rewrite negb_true_iff, Z.eqb_neq in H. destruct (Z.testbit x 0) eqn:E; [done|]. exfalso. apply H. apply Z.bits_inj'. intros m Hm.
  rewrite Z.land_spec, Z.bits_0. change PTE_P with (2 ^ 0). rewrite Z.pow2_bits_eqb by lia. destruct (Z.eqb_spec 0 m) as [<-|]; [by rewrite E|apply andb_false_r].
Qed.

(** The flags of an entry survive the copy. *)
Lemma entry_flags kend r e : page_ok kend r → has e PTE_P = true → PTE_FLAGS (entry (V2P r) (PTE_FLAGS e)) = PTE_FLAGS e.
Proof.
  intros Hr He. pose proof (PTE_FLAGS_range e) as Hf. assert (Hl : Z.lor (PTE_FLAGS e) PTE_P = PTE_FLAGS e).
  { apply lor_P. rewrite <- He. apply has_mod; [by vm_compute|]. unfold PTE_FLAGS. change 0xFFF with (Z.ones 12). rewrite Z.land_ones by lia.
    change (2 ^ 12) with 4096. apply Z.mod_mod. lia. }
  destruct Hr as (Hm & _ & Hp & Hr). unfold PGSIZE in Hm. pose proof (V2P_aligned r Hm) as Ha. unfold entry. rewrite <- Z.lor_assoc, Hl, lor_aligned by done.
  rewrite u32_small by (unfold PHYSTOP, V2P, u32 in *; lia). unfold PTE_FLAGS at 1. change 0xFFF with (Z.ones 12). rewrite Z.land_ones by lia.
  change (2 ^ 12) with 4096. lia.
Qed.

(** A page whose frame has the same bytes. *)
Lemma ubyte_page (m m' : gmap Z (list Z)) pg d va : 0 ≤ va < 4294967296 →
  m' !! frame m' d (va / 4096) = m !! frame m pg (va / 4096) → ubyte m' d va = ubyte m pg va.
Proof. intros Hva E. unfold ubyte, upage. rewrite (pte_page m' d va), (pte_page m pg va) by done. unfold frame, upage in E. by rewrite E. Qed.

(** fork's copy of the memory.  Of a space of [sz] bytes [copyuvm] makes a second one: its user
    memory has the same bytes and the same permissions, its pages are other pages, its
    kernel half is that of [kmap], and the first space is as before; or memory
    runs out, and it returns 0 after every page is back on the free list. *)
Lemma copyuvm_correct kend vdata s l pg us sz : KERNBASE < kend → vdata_ok vdata →
  uspace kend s l pg us → us ≡ₚ seqZ 0 (npages sz) → 0 ≤ sz →
  ∃ d s' l', copyuvm kend vdata pg sz s = Ok d s' ∧ uspace kend s' l' pg us ∧
    (∀ q, q ∉ l → pages s' !! q = pages s !! q) ∧ own (pages s') pg us = own (pages s) pg us ∧
    (∀ v, 0 ≤ v < npages sz * 4096 → ubyte (pages s') pg v = ubyte (pages s) pg v) ∧
    ((d = 0 ∧ l' ≡ₚ l ∧ Z.of_nat (length l) < space_need (npages sz)) ∨
     (d ≠ 0 ∧ uspace kend s' l' d us ∧ own (pages s') d us ++ l' ≡ₚ l ∧
      (∀ v, 0 ≤ v < npages sz * 4096 → ubyte (pages s') d v = ubyte (pages s) pg v ∧
         PTE_FLAGS (pte (pages s') d v) = PTE_FLAGS (pte (pages s) pg v)) ∧
      ∀ v, KERNBASE ≤ v < 4294967296 → pte (pages s') d v = kpte vdata v)).
Proof.
  intros Hkend Hvd U Hus Hsz. assert (Hin : ∀ v, 0 ≤ v < npages sz * 4096 → v / 4096 ∈ us ∧ 0 ≤ v < 4294967296).
  { intros v Hv. assert (Hk : v / 4096 ∈ us) by (rewrite Hus, elem_of_seqZ; lia). split; [done|].
    pose proof (proj1 (Forall_forall _ _) (us_range _ _ _ _ _ U) _ Hk) as Hr. cbn beta in Hr. unfold NUP in Hr. lia. }
  assert (Hfree : ∀ q, q ∈ own (pages s) pg us → q ∉ l) by (intros q; by apply (us_free kend s l pg us)).
  assert (Same : ∀ s', (∀ q, q ∉ l → pages s' !! q = pages s !! q) →
    own (pages s') pg us = own (pages s) pg us ∧ (∀ v, 0 ≤ v < npages sz * 4096 → ubyte (pages s') pg v = ubyte (pages s) pg v)).
  { intros s' Hs. assert (Ho : ∀ q, q ∈ own (pages s) pg us → pages s' !! q = pages s !! q) by auto.
    assert (Hp : ∀ v, pte (pages s') pg v = pte (pages s) pg v) by (intros v; by apply (pte_keep _ _ _ us)).
    split; [by apply own_keep|]. intros v Hv. destruct (Hin v Hv) as [Hk Hr]. apply ubyte_page; [done|].
    unfold frame, upage. rewrite Hp. apply Ho. by apply (own_frame (pages s) pg us). }
  destruct (copyuvm_ok kend vdata Hkend s l pg us sz Hvd U Hus Hsz) as [(d & s' & l' & us' & E & Hd & C & Pu & Hc)|(s' & l' & E & [H1 H2 H3] & P & D & O & Hf)].
  - exists d, s', l'. destruct (Same s' (ch_out _ _ _ _ _ _ _ _ C)) as (S1 & S2). split_and!; [done|by apply (child_parent kend vdata d s l s' l' us')|apply C|done|done|right].
    pose proof (uspace_perm kend s' l' d us' us Pu (ch_space _ _ _ _ _ _ _ _ C)) as Ud.
    split_and!; [done|done|by rewrite <- (own_perm _ _ _ _ Pu), (ch_acct _ _ _ _ _ _ _ _ C)| |apply C].
    intros v Hv. destruct (Hin v Hv) as [Hk Hr]. destruct (Hc _ Hk) as [C1 C2]. split; [by apply ubyte_page|].
    rewrite (pte_page (pages s') d v), (pte_page (pages s) pg v) by done. rewrite C1. apply (entry_flags kend); [|by apply (us_here _ _ _ _ _ U)].
    apply (proj1 (Forall_forall _ _) (us_ok _ _ _ _ _ Ud)). by apply own_frame.
  - exists 0, s', l'. destruct (Same s' O) as (S1 & S2). split_and!; [done| |done|done|done|by left].
    apply (uspace_keep kend s l); try done; [by auto|]. intros q Hq. rewrite P. by auto.
Qed.

(** What a step leaves of the bytes of the pages that stay. *)
Lemma ustep_byte kend pg s l us s' l' us' v : ustep kend pg s l us s' l' us' → 0 ≤ v < 4294967296 → v / 4096 ∈ us → v / 4096 ∈ us' →
  ubyte (pages s') pg v = ubyte (pages s) pg v.
Proof.
  intros T Hv H1 H2. destruct (up_same _ _ _ _ _ _ _ _ T _ H1 H2) as [E1 E2]. apply ubyte_page; [done|].
  unfold frame, upage in *. by rewrite E1.
Qed.

Lemma holds_zero kend s l pg us v : uspace kend s l pg us → 0 ≤ v < 4294967296 → v / 4096 ∈ us → holds (pages s) pg (v / 4096) UW zeros →
  ubyte (pages s) pg v = Some 0 ∧ has (pte (pages s) pg v) PTE_U = true ∧ has (pte (pages s) pg v) PTE_W = true.
Proof.
  intros U Hv Hk [H1 H2]. pose proof (proj1 (Forall_forall _ _) (us_ok _ _ _ _ _ U) _ (own_frame _ _ _ _ Hk)) as Hok.
  destruct (entry_frame kend _ UW Hok) as (_ & _ & Hf); [by vm_compute|]. rewrite (pte_page _ _ v) by done. split_and!.
  - unfold ubyte. unfold upage. rewrite (pte_page _ _ v) by done. fold (upage (pages s) pg (v / 4096 * 4096)). fold (frame (pages s) pg (v / 4096)).
    rewrite H2. cbn [from_option id]. apply lookup_replicate_2. unfold PGSIZE. lia.
  - rewrite H1, Hf by (by vm_compute). done.
  - rewrite H1, Hf by (by vm_compute). done.
Qed.

(** C19: growing.  [allocuvm] from [oldsz] to [newsz] bytes: a size that reaches into the kernel gives 0,
    a smaller one [oldsz], both without any change.  Otherwise it returns [newsz]; the memory
    below keeps its bytes, and the new pages are zeros that the user can read and write.
    Only when the free list has fewer pages than the new ones and the page tables they need
    does it return 0 instead; then no page has been added, and every page it took is
    free again or a page table of the space. *)
Theorem allocuvm_correct kend s l pg us oldsz newsz : KERNBASE < kend → uspace kend s l pg us → us ≡ₚ seqZ 0 (npages oldsz) → 0 ≤ oldsz →
  ∃ r s' l' us', allocuvm kend pg oldsz newsz s = Ok r s' ∧ uspace kend s' l' pg us' ∧
    own (pages s') pg us' ++ l' ≡ₚ own (pages s) pg us ++ l ∧
    (∀ q, q ∉ own (pages s) pg us ++ l → pages s' !! q = pages s !! q) ∧
    (∀ v, 0 ≤ v < npages oldsz * 4096 → ubyte (pages s') pg v = ubyte (pages s) pg v) ∧
    if KERNBASE <=? newsz then r = 0 ∧ s' = s ∧ us' = us else
    if newsz <? oldsz then r = oldsz ∧ s' = s ∧ us' = us else
    (r = newsz ∧ us' ≡ₚ seqZ 0 (npages newsz) ∧ ∀ v, npages oldsz * 4096 ≤ v < npages newsz * 4096 →
       ubyte (pages s') pg v = Some 0 ∧ has (pte (pages s') pg v) PTE_U = true ∧ has (pte (pages s') pg v) PTE_W = true) ∨
    (r = 0 ∧ us' = us ∧ Z.of_nat (length l) < grow_need (pages s) pg (npages oldsz) (npages newsz)).
Proof.
  intros Hkend U Hus Hsz. destruct (Z.leb_spec KERNBASE newsz) as [Hk|Hn].
  { exists 0, s, l, us. split_and!; try done. unfold allocuvm. by rewrite (proj2 (Z.leb_le _ _) Hk). }
  destruct (Z.ltb_spec newsz oldsz) as [Hlt|Hle].
  { exists oldsz, s, l, us. split_and!; try done. unfold allocuvm. by rewrite (proj2 (Z.leb_gt _ _) Hn), (proj2 (Z.ltb_lt _ _) Hlt). }
  assert (Hu : ∀ v, 0 ≤ v < npages oldsz * 4096 → v / 4096 ∈ us) by (intros v Hv; rewrite Hus, elem_of_seqZ; lia).
  assert (Hr : ∀ v, v < npages newsz * 4096 → v < 4294967296) by (unfold npages, KERNBASE in *; lia).
  assert (Hr0 : ∀ v, v < npages oldsz * 4096 → v < 4294967296) by (unfold npages, KERNBASE in *; lia).
  destruct (allocuvm_ok kend Hkend s l pg us oldsz newsz U Hus ltac:(lia) Hn) as [(s' & l' & us' & E & T & P & H & _)|(s' & l' & E & T & Hf)].
  - assert (Hin : ∀ v, 0 ≤ v < npages newsz * 4096 → v / 4096 ∈ us') by (intros v Hv; rewrite P, elem_of_seqZ; lia).
    exists newsz, s', l', us'. split_and!; [done|apply T|apply T|apply T| |left].
    + intros v Hv. apply (ustep_byte kend pg s l us s' l' us' v T); [auto with lia|auto|]. apply Hin. unfold npages in *. lia.
    + split_and!; [done|done|]. intros v Hv. assert (0 ≤ v) by (unfold npages in Hv; lia).
      apply (holds_zero kend s' l' pg us'); [apply T|auto with lia|apply Hin; lia|apply H; lia].
  - exists 0, s', l', us. split_and!; [done|apply T|apply T|apply T| |by right].
    intros v Hv. apply (ustep_byte kend pg s l us s' l' us v T); auto with lia.
Qed.

(** ** A space of one page *)

Lemma vm3_ok : page_ok end0 page2 ∧ page_ok end0 vpage3.
Proof. unfold page_ok. by vm_compute. Qed.

Lemma vm3_space : uspace end0 vm3 [page1] page2 [].
Proof.
  assert (Ht : ptabs (pages vm3) page2 = []) by (apply ptabs_nil; intros i Hi; rewrite vm3_pde by exact Hi; reflexivity).
  assert (Ho : own (pages vm3) page2 [] = [page2]) by (unfold own; by rewrite Ht).
  split; rewrite ?Ho; clear Ht Ho.
  - apply vm3_wf.
  - apply vm3_no0.
  - apply NoDup_cons. split; [rewrite list_elem_of_singleton; done|apply NoDup_singleton].
  - apply Forall_singleton, vm3_ok.
  - constructor.
  - intros k Hk. destruct (not_elem_of_nil _ Hk).
  - intros k Hk. destruct (not_elem_of_nil _ Hk).
  - intros k _ _. rewrite vm3_pte. reflexivity.
Qed.

(** A memory of 300 free pages, and a space of one page in it. *)
Definition pages300 : list Z := range_pages page1 300.
Definition ram300 : kstate := mkk false 0 0 (gset_to_gmap zeros (list_to_set pages300)).

Lemma pages300_ok q : q ∈ pages300 → page_ok end0 q.
Proof.
  intros H. apply elem_of_range_pages in H as (i & Hi & ->). unfold page_ok, end0, page1, V2P, u32, PHYSTOP, PGSIZE, KERNBASE in *. lia.
Qed.

(** Memory with the pages [l]. *)
Lemma ram_of_dom (l : list Z) (d : list Z) q : q ∈ dom (gset_to_gmap d (list_to_set (C := gset Z) l)) ↔ q ∈ l.
Proof. by rewrite dom_gset_to_gmap, elem_of_list_to_set. Qed.
Lemma ram_of_some (l : list Z) (d : list Z) q : q ∈ l → is_Some (gset_to_gmap d (list_to_set (C := gset Z) l) !! q).
Proof. intros Hq. apply elem_of_dom. by apply ram_of_dom. Qed.

Lemma heap300 : ∃ s l, heap end0 s l ∧ length l = 300%nat.
Proof.
  destruct (freerange_ok end0 ram300 [] page1 (page1 + 300 * 4096)) as (s & _ & I & D & _);
    change (range_pages _ _) with pages300 in *.
  - split; [done|done|apply NoDup_nil_2].
  - by vm_compute.
  - intros q Hq. split_and!; [by apply pages300_ok|apply not_elem_of_nil|]. exact (ram_of_some pages300 zeros q Hq).
  - exists s, (pages300 ++ []). split; [|by vm_compute]. split; [exact I| |].
    + rewrite app_nil_r. apply Forall_forall. intros q. apply pages300_ok.
    + rewrite D. intros H. apply (ram_of_dom pages300 zeros) in H. apply pages300_ok in H as (_ & _ & _ & H). lia.
Qed.

Lemma no_tabs_one m d x : (length (no_tabs m d x x) ≤ 1)%nat.
Proof.
  unfold no_tabs. rewrite length_filter, length_seqZ. lia.
Qed.

Lemma space1 : ∃ d s l, uspace end0 s l d [0] ∧ (200 ≤ length l)%nat.
Proof.
  destruct heap300 as (s & l & H & Hl).
  destruct (setupkvm_ok end0 0x80108000 s l) as [(d & s1 & l1 & _ & _ & U & A & _ & _ & Hf & _)|(s1 & _ & [_ _ _ Hf])];
    [done|by vm_compute|done| |unfold NKTAB in Hf; lia].
  apply Permutation_length in A. rewrite length_app in A. unfold NKTAB in Hf. exists d.
  pose proof (no_tabs_one (pages s1) d 0) as Hone. unfold own in Hf. simpl in Hf. rewrite app_nil_r in Hf.
  destruct (allocuvm_ok end0 ltac:(done) s1 l1 d [] 0 4096 U) as [(s2 & l2 & us2 & _ & T & P & _ & B)|(s2 & l2 & _ & _ & Hn)]; [done|lia|done| |].
  - change (seqZ 0 (npages 4096)) with [0] in P. exists s2, l2. split; [eapply uspace_perm; [exact P|apply T]|].
    pose proof (up_acct _ _ _ _ _ _ _ _ T) as A2. apply own_count in A2. rewrite P in A2. cbn [length] in A2.
    change (npages 0 / 1024) with 0 in B. change ((npages 4096 - 1) / 1024) with 0 in B.
    pose proof (tab_count (pages s1) (pages s2) d 0 0 (Z.le_refl 0) ltac:(lia) B) as Hc. unfold own in A. simpl in A. rewrite app_nil_r in A. lia.
  - change (grow_need (pages s1) d (npages 0) (npages 4096)) with (1 + Z.of_nat (length (no_tabs (pages s1) d 0 0))) in Hn.
    unfold own in A. simpl in A. rewrite app_nil_r in A. lia.
Qed.

Lemma vm3_one : ∃ s l, uspace end0 s l page2 [0].
Proof.
  assert (Hr : vpage3 ∉ own (pages vm3) page2 [] ++ [page1]).
  { pose proof (us_nodup _ _ _ _ _ vm3_space) as Hn. unfold own. rewrite app_nil_r. intros H. rewrite elem_of_app, elem_of_cons, elem_of_ptabs, list_elem_of_singleton in H.
    destruct H as [[|(i & Hi & Hp & _)]|]; [done|by rewrite vm3_pde in Hp|done]. }
  destruct (map_page end0 vm3 [page1] page2 [] 0 vpage3 UW vm3_space) as (res & s & l & E & [(-> & A & _)|(-> & _)]);
    [by vm_compute|apply not_elem_of_nil|apply vm3_ok|split; [done|]; exists zeros; split; [done|apply zeros_len]|done|by vm_compute| |].
  - exists s, l. apply A.
  - assert (E' : match mappages page2 (0 * 4096) PGSIZE (V2P vpage3) UW vm3 with Ok r _ => r =? 0 | _ => false end = true) by by vm_compute.
    by rewrite E in E'.
Qed.

Lemma copyuvm_example : ∃ s d s', copyuvm end0 0x80108000 page2 4096 s = Ok d s' ∧
  ∀ v, 0 ≤ v < 4096 → ubyte (pages s') page2 v = ubyte (pages s) page2 v.
Proof.
  destruct vm3_one as (s & l & U). exists s.
  destruct (copyuvm_correct end0 0x80108000 s l page2 [0] 4096) as (d & s' & l' & E & _ & _ & _ & B & _); [done|by vm_compute|done|done|lia|].
  exists d, s'. split; [exact E|]. intros v Hv. apply B. exact Hv.
Defined.

(** A second page always fits. *)
Lemma second_page m d : grow_need m d (npages 4000) (npages 8000) ≤ 2.
Proof.
  change (grow_need m d (npages 4000) (npages 8000)) with (1 + Z.of_nat (length (no_tabs m d 0 0))). pose proof (no_tabs_one m d 0). lia.
Qed.

Lemma allocuvm_correct_witness : ∃ d s s', allocuvm end0 d 4000 8000 s = Ok 8000 s' ∧ ubyte (pages s') d 5000 = Some 0 ∧
  allocuvm end0 d 4000 KERNBASE s = Ok 0 s.
Proof.
  destruct space1 as (d & s & l & U & Hl). exists d, s.
  destruct (allocuvm_correct end0 s l d [0] 4000 8000) as (r & s' & l' & us' & E & _ & _ & _ & _ & H); [done|done|done|lia|].
  destruct (allocuvm_correct end0 s l d [0] 4000 KERNBASE) as (r2 & s2 & l2 & us2 & E2 & _ & _ & _ & _ & H2); [done|done|done|lia|].
  change (KERNBASE <=? 8000) with false in H. change (8000 <? 4000) with false in H. change (KERNBASE <=? KERNBASE) with true in H2.
  destruct H as [(-> & _ & H)|(_ & _ & H)]; [|pose proof (second_page (pages s) d); lia].
  destruct H2 as (E3 & E4 & _). rewrite E3, E4 in E2. exists s'. split; [exact E|]. split; [apply H; by vm_compute|exact E2].
Defined.
