(* ===== verification/Pipe.v ===== *)
(** * Pipes: pipe.c

    A pipe is the structure of pipe.c, a ring of PIPESIZE bytes with two 32-bit
    counters that wrap around.  A call of [pipewrite] or [piperead] runs with
    the lock of the pipe held until it returns or sleeps, so the pieces between
    two sleeps are atomic: [pipewrite_run] and [piperead_run] are such pieces,
    and a sleeping call is continued by running the rest of it.  The theorems
    say that the ring is a queue, and that under every interleaving of readers
    and writers the bytes that come out are the bytes that went in, in order.
    [wakeups] records the channels woken; [pipe p] lives at address [p]. *)

From S2P Require Import Prelude Params Sleeplock.

Definition PIPESIZE : Z := 512.

Record pipe : Type := mkpipe {
  p_lock : bool;
  p_data : list Z;
  p_nread : Z;
  p_nwrite : Z;
  p_readopen : Z;
  p_writeopen : Z }.

Record ppst : Type := mkpp { pp : pipe; wakeups : list Z }.

Definition set_p_lock (b : bool) (q : pipe) : pipe :=
  mkpipe b (p_data q) (p_nread q) (p_nwrite q) (p_readopen q) (p_writeopen q).
Definition on_pp (f : pipe → pipe) (s : ppst) : ppst := mkpp (f (pp s)) (wakeups s).
Definition wakeup_pipe (chan : Z) : M ppst unit := modify (λ s, mkpp (pp s) (wakeups s ++ [chan])).

Definition acquire_p : M ppst unit := acquire (λ s, p_lock (pp s)) (λ b, on_pp (set_p_lock b)).
Definition release_p : M ppst unit := release (λ s, p_lock (pp s)) (λ b, on_pp (set_p_lock b)).

(** How a piece of [pipewrite] ends: it returns [n], it returns -1, or it
    sleeps; the bytes are those not yet stored. *)
Inductive wout : Type := WDone | WFail (rest : list Z) | WSleep (rest : list Z).
(** How a piece of [piperead] ends. *)
Inductive rout : Type := RDone (bs : list Z) | RFail | RSleep.

Section pipe.
(** The address of the pipe, and so of [&p->nread] and [&p->nwrite]. *)
Context (p : Z).
Definition nread_chan : Z := p + 564.
Definition nwrite_chan : Z := p + 568.

(** [p->data[p->nwrite++ % PIPESIZE] = b] *)
Definition pipe_put (b : Z) (q : pipe) : pipe :=
  mkpipe (p_lock q) (<[Z.to_nat (p_nwrite q mod PIPESIZE) := b]> (p_data q))
    (p_nread q) (u32 (p_nwrite q + 1)) (p_readopen q) (p_writeopen q).

Definition pipe_full (q : pipe) : bool := p_nwrite q =? u32 (p_nread q + PIPESIZE).
Definition pipe_empty (q : pipe) : bool := p_nread q =? p_nwrite q.

Fixpoint pipewrite_loop (killed : bool) (addr : list Z) : M ppst wout :=
  match addr with
  | [] => wakeup_pipe nread_chan;; release_p;; mret WDone
  | b :: rest =>
      q ← gets pp;
      if pipe_full q then
        if (p_readopen q =? 0) || killed then release_p;; mret (WFail addr)
        else wakeup_pipe nread_chan;; release_p;; mret (WSleep addr)
      else
        modify (on_pp (pipe_put b));;
        pipewrite_loop killed rest
  end.
Definition pipewrite_run (killed : bool) (addr : list Z) : M ppst wout :=
  acquire_p;; pipewrite_loop killed addr.

(** [pipewrite] of a process that is alone: its value, or the sleep. *)
Definition pipewrite (killed : bool) (addr : list Z) : M ppst Z :=
  o ← pipewrite_run killed addr;
  match o with
  | WDone => mret (Z.of_nat (length addr))
  | WFail _ => mret (-1)
  | WSleep _ => block nwrite_chan
  end.

Fixpoint piperead_copy (n : nat) : M ppst (list Z) :=
  match n with
  | O => mret []
  | S n' =>
      q ← gets pp;
      if pipe_empty q then mret [] else
      b ← lift_opt (p_data q !! Z.to_nat (p_nread q mod PIPESIZE));
      modify (on_pp (λ q, mkpipe (p_lock q) (p_data q) (u32 (p_nread q + 1)) (p_nwrite q)
                            (p_readopen q) (p_writeopen q)));;
      bs ← piperead_copy n';
      mret (b :: bs)
  end.

Definition piperead_run (killed : bool) (n : Z) : M ppst rout :=
  acquire_p;;
  q ← gets pp;
  if pipe_empty q && negb (p_writeopen q =? 0) then
    release_p;; mret (if killed then RFail else RSleep)
  else
    bs ← piperead_copy (Z.to_nat n);
    wakeup_pipe nwrite_chan;;
    release_p;;
    mret (RDone bs).

Definition piperead (killed : bool) (n : Z) : M ppst (Z * list Z) :=
  o ← piperead_run killed n;
  match o with
  | RDone bs => mret (Z.of_nat (length bs), bs)
  | RFail => mret (-1, [])
  | RSleep => block nread_chan
  end.

(** [pipeclose] up to [kfree]: it tells whether the page is to be freed. *)
Definition pipeclose_run (writable : bool) : M ppst bool :=
  acquire_p;;
  (if writable then
     modify (on_pp (λ q, mkpipe (p_lock q) (p_data q) (p_nread q) (p_nwrite q) (p_readopen q) 0));;
     wakeup_pipe nread_chan
   else
     modify (on_pp (λ q, mkpipe (p_lock q) (p_data q) (p_nread q) (p_nwrite q) 0 (p_writeopen q)));;
     wakeup_pipe nwrite_chan);;
  q ← gets pp;
  release_p;;
  mret ((p_readopen q =? 0) && (p_writeopen q =? 0)).

(** The fields [pipealloc] sets in a new page with bytes [d] at [data]. *)
Definition pipe_init (d : list Z) : pipe := mkpipe false d 0 0 1 1.

(** ** The ring as a queue *)

Record pipe_wf (q : pipe) : Prop := {
  pw_len : length (p_data q) = Z.to_nat PIPESIZE;
  pw_nread : 0 ≤ p_nread q < 4294967296;
  pw_nwrite : 0 ≤ p_nwrite q < 4294967296;
  pw_count : u32 (p_nwrite q - p_nread q) ≤ PIPESIZE }.

Definition count (q : pipe) : nat := Z.to_nat (u32 (p_nwrite q - p_nread q)).
Definition nth_byte (q : pipe) (k : nat) : Z :=
  default 0 (p_data q !! Z.to_nat ((p_nread q + Z.of_nat k) mod PIPESIZE)).
Definition content (q : pipe) : list Z := nth_byte q <$> seq 0 (count q).

Lemma length_content q : length (content q) = count q.
Proof. unfold content. by rewrite length_fmap, length_seq. Qed.

Lemma full_count q : pipe_wf q → pipe_full q = bool_decide (count q = 512%nat).
Proof.
  intros [Hl Hr Hw Hc]. unfold pipe_full, count, u32, PIPESIZE in *.
  case_bool_decide; [apply Z.eqb_eq|apply Z.eqb_neq]; lia.
Qed.

Lemma empty_count q : pipe_wf q → pipe_empty q = bool_decide (count q = 0%nat).
Proof.
  intros [Hl Hr Hw Hc]. unfold pipe_empty, count, u32, PIPESIZE in *.
  case_bool_decide; [apply Z.eqb_eq|apply Z.eqb_neq]; lia.
Qed.

Lemma put_wf b q : pipe_wf q → count q ≠ 512%nat → pipe_wf (pipe_put b q) ∧ count (pipe_put b q) = S (count q).
Proof.
  intros [Hl Hr Hw Hc] Hn. unfold count, u32, PIPESIZE in *. split; [split|]; simpl.
  - by rewrite length_insert.
  - done.
  - unfold u32. lia.
  - unfold u32, PIPESIZE. lia.
  - unfold u32. lia.
Qed.

Lemma put_content b q : pipe_wf q → count q ≠ 512%nat → content (pipe_put b q) = content q ++ [b].
Proof.
  intros W Hn. destruct (put_wf b q W Hn) as [W' Hc]. unfold content. rewrite Hc, seq_S, fmap_app.
  pose proof (pw_len _ W) as Hl. unfold PIPESIZE in Hl. destruct W as [_ Hr Hw Hk]. f_equal.
  - apply list_fmap_ext. intros i k Hi. apply lookup_seq in Hi as [-> Hi].
    unfold nth_byte, pipe_put. simpl p_data. simpl p_nread. f_equal.
    apply list_lookup_insert_ne. unfold count, u32, PIPESIZE in *. lia.
  - simpl. f_equal. unfold nth_byte, pipe_put. simpl p_data. simpl p_nread.
    replace (Z.to_nat ((p_nread q + Z.of_nat (count q)) mod PIPESIZE))
      with (Z.to_nat (p_nwrite q mod PIPESIZE)) by (unfold count, u32, PIPESIZE in *; lia).
    rewrite list_lookup_insert_eq; [done|]. unfold PIPESIZE. lia.
Qed.

Definition pipe_get (q : pipe) : pipe :=
  mkpipe (p_lock q) (p_data q) (u32 (p_nread q + 1)) (p_nwrite q) (p_readopen q) (p_writeopen q).

Lemma get_wf q : pipe_wf q → count q ≠ 0%nat → pipe_wf (pipe_get q) ∧ count q = S (count (pipe_get q)).
Proof.
  intros [Hl Hr Hw Hc] Hn. unfold count, u32, PIPESIZE in *. split; [split|]; simpl; try done.
  - unfold u32. lia.
  - unfold u32, PIPESIZE. lia.
  - unfold u32. lia.
Qed.

Lemma get_content q : pipe_wf q → count q ≠ 0%nat →
  ∃ b, p_data q !! Z.to_nat (p_nread q mod PIPESIZE) = Some b ∧ content q = b :: content (pipe_get q).
Proof.
  intros W Hn. destruct (get_wf q W Hn) as [_ Hc]. pose proof (pw_len _ W) as Hl. unfold PIPESIZE in Hl.
  destruct (lookup_lt_is_Some_2 (p_data q) (Z.to_nat (p_nread q mod PIPESIZE))) as [b Hb].
  { unfold PIPESIZE. lia. }
  exists b. split; [done|]. unfold content. rewrite Hc. simpl. f_equal.
  - unfold nth_byte. rewrite Z.add_0_r, Hb. done.
  - rewrite <- fmap_S_seq, <- list_fmap_compose. apply list_fmap_ext. intros _ k _. simpl.
    unfold nth_byte. simpl p_data. simpl p_nread. do 3 f_equal.
    unfold u32, PIPESIZE. lia.
Qed.

(** What a piece of a call leaves alone. *)
Record pipe_same (q q' : pipe) : Prop := {
  ps_lock : p_lock q' = p_lock q;
  ps_ropen : p_readopen q' = p_readopen q;
  ps_wopen : p_writeopen q' = p_writeopen q }.

Lemma pipe_same_refl q : pipe_same q q.
Proof. by split. Qed.
#[local] Hint Resolve pipe_same_refl : core.

Definition unsent (o : wout) : list Z :=
  match o with WDone => [] | WFail rest => rest | WSleep rest => rest end.
Definition got (o : rout) : list Z := match o with RDone bs => bs | _ => [] end.

(** What is at the end of a piece of [pipewrite]: it fails only when nobody can
    read or the process is killed, it sleeps only on a full pipe, after waking
    the readers. *)
Definition wend (killed : bool) (q : pipe) (o : wout) : Prop :=
  match o with
  | WDone => True
  | WFail _ => count q = 512%nat ∧ (p_readopen q = 0 ∨ killed = true)
  | WSleep _ => count q = 512%nat ∧ p_readopen q ≠ 0 ∧ killed = false
  end.

Lemma release_p_ok q w : p_lock q = true → release_p (mkpp q w) = Ok tt (mkpp (set_p_lock false q) w).
Proof. intros H. unfold release_p, release. simpl. by rewrite H. Qed.

Lemma pipewrite_loop_ok killed bs : ∀ q w, pipe_wf q → p_lock q = true →
  ∃ o sent q' w', pipewrite_loop killed bs (mkpp q w) = Ok o (mkpp (set_p_lock false q') w')
    ∧ pipe_wf q' ∧ pipe_same q q' ∧ bs = sent ++ unsent o ∧ content q' = content q ++ sent
    ∧ wend killed q' o ∧ (w' = w ++ [nread_chan] ∨ ∃ rest, o = WFail rest ∧ w' = w).
Proof.
  induction bs as [|b bs IH]; intros q w W HL; cbn [pipewrite_loop].
  - exists WDone, [], q, (w ++ [nread_chan]). rewrite (app_nil_r (content q)). unfold wakeup_pipe. rewrite bind_modify.
    simpl. mstep (release_p_ok q (w ++ [nread_chan]) HL). split_and!; try done. by left.
  - rewrite bind_gets. cbn [pp]. rewrite full_count by done. case_bool_decide as Hf.
    + destruct (decide (p_readopen q = 0 ∨ killed = true)) as [Hr|Hr].
      * exists (WFail (b :: bs)), [], q, w. rewrite (app_nil_r (content q)).
        replace ((p_readopen q =? 0) || killed) with true.
        2: { destruct Hr as [-> | ->]; [done|]. by rewrite orb_true_r. }
        mstep (release_p_ok q w HL). split_and!; try done. right. eauto.
      * exists (WSleep (b :: bs)), [], q, (w ++ [nread_chan]). rewrite (app_nil_r (content q)).
        rewrite (proj2 (Z.eqb_neq _ _)) by tauto. destruct killed; [tauto|]. cbn [orb].
        unfold wakeup_pipe. rewrite bind_modify. simpl. mstep (release_p_ok q (w ++ [nread_chan]) HL).
        split_and!; try done; [simpl; tauto|by left].
    + rewrite bind_modify. unfold on_pp at 1. cbn [pp wakeups].
      destruct (put_wf b q W Hf) as [W1 _].
      destruct (IH (pipe_put b q) w W1 HL) as (o & sent & q' & w' & E & W' & S & Eb & Ec & He & Hw).
      exists o, (b :: sent), q', w'. rewrite E, Ec, put_content, <- app_assoc, Eb by done.
      split_and!; try done. destruct S. by split.
Qed.

Lemma piperead_copy_ok n : ∀ q w, pipe_wf q →
  ∃ bs q', piperead_copy n (mkpp q w) = Ok bs (mkpp q' w)
    ∧ pipe_wf q' ∧ pipe_same q q' ∧ content q = bs ++ content q' ∧ length bs = (n `min` count q)%nat.
Proof.
  induction n as [|n IH]; intros q w W; cbn [piperead_copy]; [by exists [], q|].
  rewrite bind_gets. cbn [pp]. rewrite empty_count by done. case_bool_decide as He.
  - exists [], q. split_and!; try done. rewrite He. simpl. lia.
  - destruct (get_content q W He) as (b & Hb & Ec). rewrite Hb. destruct (get_wf q W He) as [W1 Hc].
    destruct (IH (pipe_get q) w W1) as (bs & q' & E & W' & S & Ec' & Hlen).
    exists (b :: bs), q'. split_and!.
    + unfold lift_opt. rewrite bind_ret_l, bind_modify. unfold on_pp. cbn [pp wakeups].
      fold (pipe_get q). by mstep E.
    + done.
    + destruct S. by split.
    + rewrite Ec, Ec'. done.
    + simpl. rewrite Hlen, Hc. lia.
Qed.

(** ** The pieces, with the lock *)

Lemma acquire_p_ok q w : p_lock q = false → acquire_p (mkpp q w) = Ok tt (mkpp (set_p_lock true q) w).
Proof. intros H. unfold acquire_p, acquire. simpl. by rewrite H. Qed.

Lemma set_lock_wf b q : pipe_wf q → pipe_wf (set_p_lock b q).
Proof. by intros []. Qed.

Lemma set_lock_back b q : p_lock q = b → set_p_lock b q = q.
Proof. intros <-. by destruct q. Qed.

Lemma pipewrite_run_ok killed bs q w : pipe_wf q → p_lock q = false →
  ∃ o sent q' w', pipewrite_run killed bs (mkpp q w) = Ok o (mkpp q' w')
    ∧ pipe_wf q' ∧ pipe_same q q' ∧ bs = sent ++ unsent o ∧ content q' = content q ++ sent
    ∧ wend killed q' o ∧ (w' = w ++ [nread_chan] ∨ ∃ rest, o = WFail rest ∧ w' = w).
Proof.
  intros W HL. unfold pipewrite_run. mstep (acquire_p_ok q w HL).
  destruct (pipewrite_loop_ok killed bs (set_p_lock true q) w (set_lock_wf true q W) eq_refl)
    as (o & sent & q' & w' & E & W' & [_ S1 S2] & Eb & Ec & He & Hw).
  exists o, sent, (set_p_lock false q'), w'. rewrite E.
  split_and!; try done; try by apply set_lock_wf.
Qed.

(** What is at the end of a piece of [piperead]. *)
Definition rend (killed : bool) (n : Z) (q : pipe) (o : rout) : Prop :=
  match o with
  | RDone bs => length bs = (Z.to_nat n `min` count q)%nat ∧ (count q ≠ 0%nat ∨ p_writeopen q = 0)
  | RFail => count q = 0%nat ∧ p_writeopen q ≠ 0 ∧ killed = true
  | RSleep => count q = 0%nat ∧ p_writeopen q ≠ 0 ∧ killed = false
  end.

Lemma piperead_run_ok killed n q w : pipe_wf q → p_lock q = false →
  ∃ o q' w', piperead_run killed n (mkpp q w) = Ok o (mkpp q' w')
    ∧ pipe_wf q' ∧ pipe_same q q' ∧ content q = got o ++ content q' ∧ rend killed n q o
    ∧ w' = match o with RDone _ => w ++ [nwrite_chan] | _ => w end.
Proof.
  intros W HL. unfold piperead_run. mstep (acquire_p_ok q w HL). rewrite bind_gets. cbn [pp].
  rewrite empty_count by (by apply set_lock_wf). change (count (set_p_lock true q)) with (count q).
  change (p_writeopen (set_p_lock true q)) with (p_writeopen q).
  destruct (bool_decide (count q = 0%nat) && negb (p_writeopen q =? 0)) eqn:E.
  - apply andb_true_iff in E as [E1 E2]. apply bool_decide_eq_true in E1.
    apply negb_true_iff, Z.eqb_neq in E2.
    exists (if killed then RFail else RSleep), q, w.
    mstep (release_p_ok (set_p_lock true q) w eq_refl).
    change (set_p_lock false (set_p_lock true q)) with (set_p_lock false q).
    rewrite set_lock_back by done. by destruct killed.
  - destruct (piperead_copy_ok (Z.to_nat n) (set_p_lock true q) w (set_lock_wf true q W))
      as (bs & q' & E' & W' & [S0 S1 S2] & Ec & Hlen).
    exists (RDone bs), (set_p_lock false q'), (w ++ [nwrite_chan]).
    mstep E'. unfold wakeup_pipe. rewrite bind_modify. cbn [pp wakeups].
    mstep (release_p_ok q' (w ++ [nwrite_chan]) S0).
    split_and!; try done; try (by apply set_lock_wf); try (by split).
    split; [done|]. apply andb_false_iff in E as [E|E].
    + left. by apply bool_decide_eq_false in E.
    + right. apply negb_false_iff, Z.eqb_eq in E. done.
Qed.

Lemma pipeclose_run_ok wr q w : pipe_wf q → p_lock q = false →
  ∃ b q' w', pipeclose_run wr (mkpp q w) = Ok b (mkpp q' w')
    ∧ pipe_wf q' ∧ p_lock q' = false ∧ content q' = content q
    ∧ (b = true ↔ p_readopen q' = 0 ∧ p_writeopen q' = 0)
    ∧ p_writeopen q' = (if wr then 0 else p_writeopen q)
    ∧ p_readopen q' = (if wr then p_readopen q else 0).
Proof.
  intros W HL. unfold pipeclose_run. mstep (acquire_p_ok q w HL).
  destruct W as [A B C D]. destruct wr; (do 3 eexists; split; [reflexivity|]); simpl;
    (split_and!; [by split|done|done| |done|done]); rewrite ?andb_true_iff, ?Z.eqb_eq; naive_solver.
Qed.

(** ** Interleavings *)

(** A run of the pipe, with the bytes stored and the bytes delivered so far:
    pieces of any number of reading and writing calls in any order, each with
    its own buffer, and the closing of the two ends. *)
Inductive pstep : ppst * list Z * list Z → ppst * list Z * list Z → Prop :=
| ps_write killed bs s o s' wr rd :
    pipewrite_run killed bs s = Ok o s' →
    pstep (s, wr, rd) (s', wr ++ take (length bs - length (unsent o)) bs, rd)
| ps_read killed n s o s' wr rd :
    piperead_run killed n s = Ok o s' →
    pstep (s, wr, rd) (s', wr, rd ++ got o)
| ps_close writable s b s' wr rd :
    pipeclose_run writable s = Ok b s' →
    pstep (s, wr, rd) (s', wr, rd).

Inductive preach (d : list Z) : ppst * list Z * list Z → Prop :=
| pr_start w : preach d (mkpp (pipe_init d) w, [], [])
| pr_step x y : preach d x → pstep x y → preach d y.

Definition pinv (x : ppst * list Z * list Z) : Prop :=
  let '(s, wr, rd) := x in
  pipe_wf (pp s) ∧ p_lock (pp s) = false ∧ wr = rd ++ content (pp s).

Lemma pinv_step x y : pinv x → pstep x y → pinv y.
Proof.
  intros I H. destruct H as [killed bs [q w] o s' wr rd E|killed n [q w] o s' wr rd E|cw [q w] b s' wr rd E];
    destruct I as (W & HL & ->); cbn [pp] in *.
  - destruct (pipewrite_run_ok killed bs q w W HL) as (o' & sent & q' & w' & E' & W' & S & Eb & Ec & _).
    rewrite E' in E. injection E as <- <-. unfold pinv. cbn [pp]. split_and!; [done|by rewrite (ps_lock _ _ S)|].
    rewrite Ec, app_assoc. f_equal. rewrite Eb at 2. rewrite Eb, length_app at 1.
    by rewrite take_app_length' by lia.
  - destruct (piperead_run_ok killed n q w W HL) as (o' & q' & w' & E' & W' & S & Ec & _).
    rewrite E' in E. injection E as <- <-. unfold pinv. cbn [pp]. split_and!; [done|by rewrite (ps_lock _ _ S)|].
    by rewrite <- app_assoc, <- Ec.
  - destruct (pipeclose_run_ok cw q w W HL) as (b' & q' & w' & E' & W' & HL' & Ec & _).
    rewrite E' in E. injection E as <- <-. unfold pinv. cbn [pp]. by rewrite Ec.
Qed.

Lemma preach_inv d x : length d = Z.to_nat PIPESIZE → preach d x → pinv x.
Proof.
  intros Hd H. induction H as [w|x y _ IH E]; [|by eapply pinv_step].
  split_and!; [split; try done; vm_compute; split; congruence|done|done].
Qed.
End pipe.

(** ** The theorems *)

(** C24: a pipe is a first-in first-out queue.  However the pieces of any
    number of reading and writing calls are interleaved, and whichever ends are
    closed, the bytes delivered so far followed by the bytes in the ring are
    exactly the bytes stored so far; so nothing is lost, repeated or reordered,
    also when the counters wrap around at 2^32. *)
Theorem pipe_fifo p d s wr rd : length d = Z.to_nat PIPESIZE → preach p d (s, wr, rd) →
  wr = rd ++ content (pp s) ∧ (length (content (pp s)) ≤ Z.to_nat PIPESIZE)%nat ∧ p_lock (pp s) = false.
Proof.
  intros Hd H. destruct (preach_inv p d _ Hd H) as (W & HL & E). split_and!; [done| |done].
  rewrite length_content. destruct W as [_ _ _ Hc]. unfold count. lia.
Qed.

(** progress.  A writer that runs when the ring is not full stores at
    least one byte, and it sleeps only on a full ring whose readers it has
    woken; a reader that runs when the ring is not empty gets as many bytes as
    it asked for or as there are, and wakes the writers. *)
Theorem pipe_progress p q w killed bs n : pipe_wf q → p_lock q = false →
  (∃ o q' w', pipewrite_run p killed bs (mkpp q w) = Ok o (mkpp q' w') ∧
     (count q < 512 → bs ≠ [] → length (unsent o) < length bs)%nat ∧
     (∀ rest, o = WSleep rest → count q' = 512%nat ∧ w' = w ++ [nread_chan p])) ∧
  (count q ≠ 0%nat → ∃ bytes q', piperead_run p killed n (mkpp q w) =
       Ok (RDone bytes) (mkpp q' (w ++ [nwrite_chan p])) ∧
     bytes = take (Z.to_nat n) (content q) ∧ content q' = drop (Z.to_nat n) (content q)).
Proof.
  intros W HL. split.
  - destruct (pipewrite_run_ok p killed bs q w W HL) as (o & sent & q' & w' & E & W' & S & Eb & Ec & He & Hw).
    exists o, q', w'. split; [done|]. split.
    + intros Hc Hb. assert (Hs : sent ≠ []).
      { intros ->. rewrite app_nil_r in Ec. apply (f_equal length) in Ec. rewrite !length_content in Ec.
        simpl in Eb. destruct o as [|r|r]; simpl in *; [done|lia..]. }
      rewrite Eb, length_app. destruct sent; [done|]. simpl. lia.
    + intros rest ->. destruct He as [He _]. split; [done|]. destruct Hw as [?|(r & ? & _)]; done.
  - intros Hc. destruct (piperead_run_ok p killed n q w W HL) as (o & q' & w' & E & W' & S & Ec & He & Hw).
    destruct o as [bytes| |]; [|by destruct He..]. destruct He as [Hlen _]. simpl in Ec, Hw.
    exists bytes, q'. assert (Hm : length bytes = (Z.to_nat n `min` length (content q))%nat) by (by rewrite length_content).
    assert (bytes = take (Z.to_nat n) (content q)).
    { rewrite Ec in Hm |- *. rewrite take_app. rewrite length_app in Hm.
      rewrite (take_ge bytes) by lia. destruct (decide (length bytes < Z.to_nat n)%nat).
      - assert (content q' = []) as -> by (apply nil_length_inv; lia). by rewrite take_nil, app_nil_r.
      - replace (Z.to_nat n - length bytes)%nat with 0%nat by lia. by rewrite take_0, app_nil_r. }
    assert (content q' = drop (Z.to_nat n) (content q)).
    { apply (app_inv_head (take (Z.to_nat n) (content q))). rewrite take_drop. congruence. }
    split_and!; try done. by rewrite E, Hw.
Qed.

(** Three bytes in, two bytes out. *)
Definition ring0 : list Z := replicate 512 0.
Definition after_write : ppst := mkpp (pipe_put 3 (pipe_put 2 (pipe_put 1 (pipe_init ring0)))) [564].
Definition after_read : ppst := mkpp (pipe_get (pipe_get (pp after_write))) [564; 568].

Lemma pipe_example : preach 0 ring0 (after_read, [1; 2; 3], [1; 2]).
Proof.
  eapply pr_step; [eapply pr_step; [apply (pr_start 0 ring0 [])|]|].
  - apply (ps_write 0 false [1; 2; 3] _ WDone after_write [] []). reflexivity.
  - apply (ps_read 0 false 2 _ (RDone [1; 2]) after_read [1; 2; 3] []). reflexivity.
Qed.

Lemma pipe_fifo_witness : [1; 2; 3] = [1; 2] ++ content (pp after_read).
Proof. apply (pipe_fifo 0 ring0 after_read [1; 2; 3] [1; 2] eq_refl pipe_example). Defined.

Lemma pipe_progress_witness :
  ∃ bytes q', piperead_run 0 false 2 after_write = Ok (RDone bytes) (mkpp q' ([564] ++ [568])) ∧
    bytes = take 2 (content (pp after_write)).
Proof.
  destruct (pipe_progress 0 (pp after_write) [564] false [] 2) as [_ H].
  - split; vm_compute; split || idtac; congruence.
  - reflexivity.
  - destruct H as (bytes & q' & E & Eb & _); [by vm_compute|]. exists bytes, q'. split; [exact E|exact Eb].
Defined.
