(* ===== verification/File.v ===== *)
(** * The file table: file.c, and the parts of pipe.c that use it

    A file is a reference-counted structure that leads to a pipe or to an
    inode.  The state is the table, the pipes in use by address, the memory of
    [Kalloc] their pages come from, and the file system.  [killed] is the flag
    of the running process, read by the pipe functions before they sleep. *)

From S2P Require Import Prelude Params Sleeplock BlockDev Tx Fs Kalloc Pipe.

Inductive fdtype : Type := FD_NONE | FD_PIPE | FD_INODE.
#[global] Instance fdtype_eq_dec : EqDecision fdtype.
Proof. solve_decision. Defined.

Record file : Type := mkfile {
  f_type : fdtype;
  f_ref : Z;
  f_readable : Z;
  f_writable : Z;
  f_pipe : Z;
  f_ip : option nat;
  f_off : Z }.

Definition file0 : file := mkfile FD_NONE 0 0 0 0 None 0.
Definition set_fref (r : Z) (f : file) : file :=
  mkfile (f_type f) r (f_readable f) (f_writable f) (f_pipe f) (f_ip f) (f_off f).
Definition set_ftype (t : fdtype) (f : file) : file :=
  mkfile t (f_ref f) (f_readable f) (f_writable f) (f_pipe f) (f_ip f) (f_off f).
Definition set_foff (o : Z) (f : file) : file :=
  mkfile (f_type f) (f_ref f) (f_readable f) (f_writable f) (f_pipe f) (f_ip f) o.

Section file.
Context {T : Type} `{!TxOps T}.
Context (me : Z) (devsw : Z → option (device (T := T))) (kend : Z).

Record fdstate : Type := mkfd {
  ft_lock : bool;
  ftable : list file;
  pipes : gmap Z pipe;
  fd_wakeups : list Z;
  fd_mem : kstate;
  fd_fs : fsstate (T := T) }.

Definition set_ft_lock (b : bool) (s : fdstate) : fdstate :=
  mkfd b (ftable s) (pipes s) (fd_wakeups s) (fd_mem s) (fd_fs s).
Definition set_ftable (l : list file) (s : fdstate) : fdstate :=
  mkfd (ft_lock s) l (pipes s) (fd_wakeups s) (fd_mem s) (fd_fs s).
Definition set_pipes (m : gmap Z pipe) (s : fdstate) : fdstate :=
  mkfd (ft_lock s) (ftable s) m (fd_wakeups s) (fd_mem s) (fd_fs s).
Definition set_fd_mem (m : kstate) (s : fdstate) : fdstate :=
  mkfd (ft_lock s) (ftable s) (pipes s) (fd_wakeups s) m (fd_fs s).
Definition set_fd_fs (x : fsstate (T := T)) (s : fdstate) : fdstate :=
  mkfd (ft_lock s) (ftable s) (pipes s) (fd_wakeups s) (fd_mem s) x.

Definition on_fs {A} (m : M (fsstate (T := T)) A) : M fdstate A := zoom (λ s, Some (fd_fs s)) set_fd_fs m.
Definition on_mem {A} (m : M kstate A) : M fdstate A := zoom (λ s, Some (fd_mem s)) set_fd_mem m.
(** A piece of pipe code on the pipe at address [p]. *)
Definition on_pipe {A} (p : Z) (m : M ppst A) : M fdstate A :=
  zoom (λ s, (λ q, mkpp q (fd_wakeups s)) <$> pipes s !! p)
       (λ x s, mkfd (ft_lock s) (ftable s) (<[p := pp x]> (pipes s)) (wakeups x) (fd_mem s) (fd_fs s)) m.

Definition acquire_ftable : M fdstate unit := acquire ft_lock set_ft_lock.
Definition release_ftable : M fdstate unit := release ft_lock set_ft_lock.

Definition fptr (f : nat) : M fdstate file := s ← get; lift_opt (ftable s !! f).
Definition fset (f : nat) (g : file → file) : M fdstate unit :=
  x ← fptr f; modify (λ s, set_ftable (<[f := g x]> (ftable s)) s).

Definition fileinit : M fdstate unit := modify (set_ft_lock false).

Definition filealloc : M fdstate (option nat) :=
  acquire_ftable;;
  r ← for_range (Z.to_nat NFILE) 0 (λ k,
        x ← fptr (Z.to_nat k);
        if f_ref x =? 0 then
          fset (Z.to_nat k) (set_fref 1);;
          release_ftable;;
          mret (Some (Z.to_nat k))
        else mret None);
  match r with
  | Some f => mret (Some f)
  | None => release_ftable;; mret None
  end.

Definition filedup (f : nat) : M fdstate nat :=
  acquire_ftable;;
  x ← fptr f;
  if f_ref x <? 1 then panic "filedup" else
  fset f (set_fref (f_ref x + 1));;
  release_ftable;;
  mret f.

Definition pipeclose (p : Z) (writable : Z) : M fdstate unit :=
  b ← on_pipe p (pipeclose_run p (negb (writable =? 0)));
  if (b : bool) then
    modify (λ s, set_pipes (delete p (pipes s)) s);;
    on_mem (kfree kend p)
  else mret tt.

Definition fileclose (f : nat) : M fdstate unit :=
  acquire_ftable;;
  x ← fptr f;
  if f_ref x <? 1 then panic "fileclose" else
  fset f (set_fref (f_ref x - 1));;
  if 0 <? f_ref x - 1 then release_ftable else
  ff ← fptr f;
  fset f (set_fref 0);;
  fset f (set_ftype FD_NONE);;
  release_ftable;;
  match f_type ff with
  | FD_PIPE => pipeclose (f_pipe ff) (f_writable ff)
  | FD_INODE =>
      on_fs (on_tx tx_begin_op);;
      ip ← lift_opt (f_ip ff);
      on_fs (iput me ip);;
      on_fs (on_tx tx_end_op)
  | FD_NONE => mret tt
  end.

(** [filestat] returns its value and the stat it stores. *)
Definition filestat (f : nat) : M fdstate (Z * option stat) :=
  x ← fptr f;
  match f_type x with
  | FD_INODE =>
      on_fs (ilock me (f_ip x));;
      ip ← lift_opt (f_ip x);
      st ← on_fs (stati ip);
      on_fs (iunlock me (f_ip x));;
      mret (0, Some st)
  | _ => mret (-1, None)
  end.

(** [fileread] returns its value and the bytes it stores at [addr]. *)
Definition fileread (killed : bool) (f : nat) (n : Z) : M fdstate (Z * list Z) :=
  x ← fptr f;
  if f_readable x =? 0 then mret (-1, []) else
  match f_type x with
  | FD_PIPE => on_pipe (f_pipe x) (piperead (f_pipe x) killed n)
  | FD_INODE =>
      on_fs (ilock me (f_ip x));;
      ip ← lift_opt (f_ip x);
      '(r, bs) ← on_fs (readi devsw ip (f_off x) (u32 n));
      (if 0 <? s32 r then fset f (λ x, set_foff (u32 (f_off x + r)) x) else mret tt);;
      on_fs (iunlock me (f_ip x));;
      mret (s32 r, bs)
  | FD_NONE => panic "fileread"
  end.

(** [((MAXOPBLOCKS-1-1-2) / 2) * 512] *)
Definition FILEWRITE_MAX : Z := (MAXOPBLOCKS - 1 - 1 - 2) / 2 * 512.

(** The loop of [filewrite] for an inode: [i] bytes are written.  Every round
    that goes on writes at least one byte, so [n] rounds are enough. *)
Fixpoint filewrite_loop (fuel : nat) (f : nat) (addr : list Z) (i n : Z) : M fdstate Z :=
  if negb (i <? n) then mret i else
  match fuel with
  | O => no_fuel
  | S fuel' =>
      let n1 := n - i in
      let n1 := if FILEWRITE_MAX <? n1 then FILEWRITE_MAX else n1 in
      on_fs (on_tx tx_begin_op);;
      x ← fptr f;
      on_fs (ilock me (f_ip x));;
      ip ← lift_opt (f_ip x);
      r ← on_fs (writei devsw ip (drop (Z.to_nat i) addr) (f_off x) n1);
      (if 0 <? r then fset f (λ x, set_foff (u32 (f_off x + r)) x) else mret tt);;
      on_fs (iunlock me (f_ip x));;
      on_fs (on_tx tx_end_op);;
      if r <? 0 then mret i else
      if negb (r =? n1) then panic "short filewrite" else
      filewrite_loop fuel' f addr (i + r) n
  end.

Definition filewrite (killed : bool) (f : nat) (addr : list Z) (n : Z) : M fdstate Z :=
  x ← fptr f;
  if f_writable x =? 0 then mret (-1) else
  match f_type x with
  | FD_PIPE => on_pipe (f_pipe x) (pipewrite (f_pipe x) killed (take (Z.to_nat n) addr))
  | FD_INODE =>
      i ← filewrite_loop (Z.to_nat n) f addr 0 n;
      mret (if i =? n then n else -1)
  | FD_NONE => panic "filewrite"
  end.

(** The bytes of a page that become [p->data]: the lock comes first. *)
Definition pipe_data (pg : list Z) : list Z := slice 52 (Z.to_nat PIPESIZE) pg.

Definition pipealloc_bad (p : Z) (f0 f1 : option nat) : M fdstate (Z * option nat * option nat) :=
  (if negb (p =? 0) then on_mem (kfree kend p) else mret tt);;
  (match f0 with Some f => fileclose f | None => mret tt end);;
  (match f1 with Some f => fileclose f | None => mret tt end);;
  mret (-1, f0, f1).

(** [pipealloc] returns its value and the two files. *)
Definition pipealloc : M fdstate (Z * option nat * option nat) :=
  f0 ← filealloc;
  match f0 with
  | None => pipealloc_bad 0 None None
  | Some g0 =>
      f1 ← filealloc;
      match f1 with
      | None => pipealloc_bad 0 f0 None
      | Some g1 =>
          p ← on_mem kalloc;
          if p =? 0 then pipealloc_bad 0 f0 f1 else
          pg ← on_mem (page_at p);
          modify (λ s, set_pipes (<[p := pipe_init (pipe_data pg)]> (pipes s)) s);;
          fset g0 (λ x, mkfile FD_PIPE (f_ref x) 1 0 p (f_ip x) (f_off x));;
          fset g1 (λ x, mkfile FD_PIPE (f_ref x) 0 1 p (f_ip x) (f_off x));;
          mret (0, f0, f1)
      end
  end.
End file.
