(* ===== verification/FileIO.v ===== *)
(** * Reading and writing through the file table: fileread and filewrite of file.c

    An open file leads to an inode and has an offset.  [fileread] returns the bytes
    from the offset on and moves it; [filewrite] cuts what it is given into
    pieces that fit a transaction, and writes one after the other.

    [fileread_correct] and [filewrite_correct] say what becomes of the contents of
    the file, of the offset, of the other files and of the disk, for a file
    of any length.  [filewrite_read]: what was written is read back. *)

From S2P Require Import Prelude Params Strings BlockDev Sleeplock Bio Tx Log LogStack Fs FsFile Dinode Dir Icache FsTrunc DirSpec DirLink FsOp FsStack Kalloc Pipe File.

Lemma splice_app {A} off (a b l : list A) : (off ≤ length l)%nat →
  splice (off + length a) b (splice off a l) = splice off (a ++ b) l.
Proof.
  intros Ho. unfold splice. rewrite length_app.
  rewrite (take_app_ge (take off l)), length_take by (rewrite length_take; lia). replace (off + length a - off `min` length l)%nat with (length a) by lia.
  rewrite take_app_length, <- !app_assoc. do 3 f_equal.
  rewrite (drop_app_ge (take off l)), length_take by (rewrite length_take; lia). rewrite drop_app_ge by lia. rewrite drop_drop. f_equal. lia.
Qed.


Lemma length_splice_max {A} off (bs l : list A) : (off ≤ length l)%nat → length (splice off bs l) = Nat.max (length l) (off + length bs).
Proof. intros Ho. unfold splice. rewrite !length_app, length_take, length_drop. lia. Qed.

Section file_io.
Context {T : Type} `{TxSpec T}.
Context (me : Z) (devsw : Z → option (device (T := T))).
Implicit Types (v : bview) (s : fdstate (T := T)) (x : file).

Lemma on_fs_ok {A} (m : M (fsstate (T := T)) A) s a y : m (fd_fs s) = Ok a y → on_fs m s = Ok a (set_fd_fs y s).
Proof. intros E. by apply (zoom_ok _ _ _ s (fd_fs s)). Qed.
Lemma fptr_ok s f x : ftable s !! f = Some x → fptr f s = Ok x s.
Proof. intros E. unfold fptr, get, mbind, M_bind. by rewrite E. Qed.
Lemma fset_ok s f x g : ftable s !! f = Some x → fset f g s = Ok tt (set_ftable (<[f := g x]> (ftable s)) s).
Proof. intros E. unfold fset. by mstep (fptr_ok _ _ _ E). Qed.

(** An open regular file; no transaction is under way. *)
Record open_file s v (f : nat) x (ip : nat) i : Prop := {
  op_entry : ftable s !! f = Some x;
  op_type : f_type x = FD_INODE ∧ f_ip x = Some ip;
  op_file : on_file (fd_fs s) v 0 ip i;
  op_pins : v_pins v = ∅;
  op_off : 0 ≤ f_off x ≤ Z.of_nat (length (fdata (fd_fs s) v i)) }.

Lemma file_size s v f x ip i : open_file s v f x ip i → Z.of_nat (length (fdata (fd_fs s) v i)) ≤ 71680.
Proof. intros O. rewrite (length_fdata _ _ _ _ _ (op_file _ _ _ _ _ _ O)). apply (rg_size _ _ _ (of_reg _ _ _ _ _ (op_file _ _ _ _ _ _ O))). Qed.

(** The new offset, also when nothing was moved. *)
Lemma move_off s f x r : ftable s !! f = Some x → 0 ≤ r → 0 ≤ f_off x → f_off x + r < 4294967296 →
  (if 0 <? r then fset f (λ y, set_foff (u32 (f_off y + r)) y) else mret tt) s = Ok tt (set_ftable (<[f := set_foff (f_off x + r) x]> (ftable s)) s).
Proof.
  intros Hf Hr Ho Hb. destruct (Z.ltb_spec 0 r).
  - rewrite (fset_ok _ _ _ _ Hf). by rewrite u32_small by lia.
  - replace r with 0 by lia. rewrite Z.add_0_r. rewrite list_insert_id by (rewrite Hf; by destruct x). by destruct s.
Qed.

(** ** fileread *)

Lemma fileread_ok killed s v f x ip i n : open_file s v f x ip i → f_readable x ≠ 0 → 0 ≤ n < 2147483648 →
  let data := fdata (fd_fs s) v i in
  let r := Z.min n (Z.of_nat (length data) - f_off x) in
  ∃ s' i', fileread me devsw killed f n s = Ok (r, slice (Z.to_nat (f_off x)) (Z.to_nat r) data) s' ∧
    open_file s' v f (set_foff (f_off x + r) x) ip i' ∧ fdata (fd_fs s') v i' = data ∧
    ftable s' = <[f := set_foff (f_off x + r) x]> (ftable s).
Proof.
  intros O Hre Hn data r. pose proof (file_size _ _ _ _ _ _ O) as Hsz. pose proof O as [Hf [Ht Hip] Of Hp Ho]. fold data in Hsz, Ho.
  destruct (hold_file me _ _ _ _ _ Of) as (t1 & E1 & H1 & C1 & S1). set (i1 := locked me _ v i) in *.
  rewrite <- (length_fdata _ _ _ _ _ Of) in S1. fold data in C1, S1.
  destruct (read_held me devsw _ _ _ _ _ (f_off x) n H1) as (t2 & E2 & H2); [lia|lia|lia|]. rewrite C1, S1 in E2. fold r in E2.
  destruct (drop_file me _ _ _ _ _ H2) as (E3 & O3 & _ & C3).
  assert (Hr : 0 ≤ r < 2147483648) by lia.
  assert (Hs : s32 r = r) by (apply s32_small; lia).
  set (y1 := set_tx t1 _) in *. set (y2 := set_tx t2 y1) in *. set (y3 := upd_ino ip _ y2) in *.
  set (s1 := set_fd_fs y1 s). set (s2 := set_fd_fs y2 s1). set (s3 := set_ftable (<[f := set_foff (f_off x + r) x]> (ftable s2)) s2).
  exists (set_fd_fs y3 s3). eexists. split; [|split_and!; [split|exact C3|done]].
  - unfold fileread. mstep (fptr_ok _ _ _ Hf). rewrite (proj2 (Z.eqb_neq _ _) Hre), Ht, Hip.
    mstep (on_fs_ok _ s tt y1 E1). change (lift_opt (Some ip)) with (mret (M := M (fdstate (T := T))) ip). rewrite bind_ret_l, u32_small by lia.
    mstep (on_fs_ok _ s1 _ y2 E2). rewrite Hs. mstep (move_off s2 f x r Hf ltac:(lia) ltac:(lia) ltac:(lia)).
    mstep (on_fs_ok _ s3 tt y3 E3). reflexivity.
  - cbn. by apply list_lookup_insert_eq, lookup_lt_Some with x.
  - done.
  - exact O3.
  - done.
  - change (f_off (set_foff (f_off x + r) x)) with (f_off x + r). cbn [fd_fs set_fd_fs set_ftable]. rewrite C3, C1. lia.
Qed.

(** Reading from an open file: [fileread] returns the bytes from the offset on, as many as were
    asked for or as there are, and moves the offset behind them; the file and the disk
    are as before. *)
Theorem fileread_correct killed s v f x ip i n : open_file s v f x ip i → f_readable x ≠ 0 → 0 ≤ n < 2147483648 →
  let data := fdata (fd_fs s) v i in
  let r := Z.min n (Z.of_nat (length data) - f_off x) in
  ∃ s' i', fileread me devsw killed f n s = Ok (r, slice (Z.to_nat (f_off x)) (Z.to_nat r) data) s' ∧
    open_file s' v f (set_foff (f_off x + r) x) ip i' ∧ fdata (fd_fs s') v i' = data ∧
    ftable s' = <[f := set_foff (f_off x + r) x]> (ftable s).
Proof. apply fileread_ok. Qed.

(** ** filewrite *)

Lemma writei_take ip i src off n (y : fsstate (T := T)) : ic_inode y !! ip = Some i → i_type i ≠ T_DEV → (Z.to_nat n ≤ length src)%nat →
  writei devsw ip src off n y = writei devsw ip (take (Z.to_nat n) src) off n y.
Proof.
  intros Hi Ht Hn. unfold writei. mstep (iptr_ok _ _ _ Hi). symmetry. mstep (iptr_ok _ _ _ Hi). rewrite (proj2 (Z.eqb_neq _ _) Ht).
  rewrite length_take, Nat.min_l, take_take, Nat.min_id by done. rewrite (proj2 (Nat.ltb_ge _ _)) by lia. by rewrite (proj2 (Nat.ltb_ge _ _)) by lia.
Qed.

(** What is left after [src] was written at the offset, with at most [k] blocks taken. *)
Record file_grew s v f x ip i src k s' v' i' : Prop := {
  fg_open : open_file s' v' f (set_foff (f_off x + Z.of_nat (length src)) x) ip i';
  fg_table : ftable s' = <[f := set_foff (f_off x + Z.of_nat (length src)) x]> (ftable s);
  fg_data : fdata (fd_fs s') v' i' = splice (Z.to_nat (f_off x)) src (fdata (fd_fs s) v i);
  fg_only : only_file (fs_sb (fd_fs s)) v (ondisk (fd_fs s) v i) v' (ondisk (fd_fs s') v' i') k;
  fg_sb : fs_sb (fd_fs s') = fs_sb (fd_fs s);
  fg_rest : ft_lock s' = ft_lock s ∧ pipes s' = pipes s ∧ fd_wakeups s' = fd_wakeups s ∧ fd_mem s' = fd_mem s;
  fg_inodes : ∀ jp, jp ≠ ip → ic_inode (fd_fs s') !! jp = ic_inode (fd_fs s) !! jp }.

Lemma grew_nil s v f x ip i : open_file s v f x ip i → file_grew s v f x ip i [] 0 s v i.
Proof.
  intros O. assert (E : set_foff (f_off x + Z.of_nat (length (@nil Z))) x = x) by (cbn [length]; rewrite Z.add_0_r; by destruct x).
  split; rewrite ?E; try done.
  - symmetry. apply list_insert_id, O.
  - unfold splice. cbn [length app]. by rewrite Nat.add_0_r, take_drop.
  - apply only_refl.
Qed.

Lemma grew_app s v f x ip i a b k1 k2 s1 v1 i1 s2 v2 i2 : 0 ≤ f_off x ≤ Z.of_nat (length (fdata (fd_fs s) v i)) → file_grew s v f x ip i a k1 s1 v1 i1 →
  file_grew s1 v1 f (set_foff (f_off x + Z.of_nat (length a)) x) ip i1 b k2 s2 v2 i2 → file_grew s v f x ip i (a ++ b) (k1 + k2) s2 v2 i2.
Proof.
  intros Ho [A1 A2 A3 A4 A5 (A6 & A7 & A8 & A9) A10] [B1 B2 B3 B4 B5 (B6 & B7 & B8 & B9) B10].
  change (f_off (set_foff (f_off x + Z.of_nat (length a)) x)) with (f_off x + Z.of_nat (length a)) in *.
  assert (E : set_foff (f_off x + Z.of_nat (length a) + Z.of_nat (length b)) (set_foff (f_off x + Z.of_nat (length a)) x) = set_foff (f_off x + Z.of_nat (length (a ++ b))) x).
  { unfold set_foff. cbn. f_equal. rewrite length_app. lia. }
  rewrite E in B1, B2. split; [exact B1| | | |congruence|split_and!; congruence|].
  - by rewrite B2, A2, list_insert_insert_eq.
  - rewrite B3, A3. replace (Z.to_nat (f_off x + Z.of_nat (length a))) with (Z.to_nat (f_off x) + length a)%nat by lia. apply splice_app. lia.
  - rewrite A5 in B4. by apply (only_trans _ _ _ v1 (ondisk (fd_fs s1) v1 i1)).
  - intros jp Hj. by rewrite B10, A10.
Qed.

(** One piece. *)
Lemma write_round s v f x ip i l n1 (k : Z → M (fdstate (T := T)) Z) : open_file s v f x ip i → (25 ≤ tx_max)%nat → 0 < n1 ≤ 1536 → n1 ≤ Z.of_nat (length l) →
  f_off x + n1 ≤ MAXFILE * BSIZE → 8 ≤ Z.of_nat (nfree (fs_sb (fd_fs s)) v) →
  ∃ s' v' i', file_grew s v f x ip i (take (Z.to_nat n1) l) 8 s' v' i' ∧
    (on_fs (on_tx tx_begin_op);;
     x ← fptr f;
     on_fs (ilock me (f_ip x));;
     ip ← lift_opt (f_ip x);
     r ← on_fs (writei devsw ip l (f_off x) n1);
     (if 0 <? r then fset f (λ x, set_foff (u32 (f_off x + r)) x) else mret tt);;
     on_fs (iunlock me (f_ip x));;
     on_fs (on_tx tx_end_op);;
     k r) s = k n1 s'.
Proof.
  intros O Hmax Hn1 Hl Hb Hfr. pose proof O as [Hf [Ht Hip] Of Hp Ho].
  assert (Hlen : Z.of_nat (length (take (Z.to_nat n1) l)) = n1) by (rewrite length_take; lia).
  destruct (write_op me devsw _ _ _ _ (f_off x) (take (Z.to_nat n1) l) Of Hp Hmax Ho ltac:(lia) ltac:(lia) Hfr) as (y1 & y2 & y3 & y4 & y5 & v' & i' & [E1 E2 (j & Hj & Htj) E3 E4 E5 W1 W2 W3 W4 W5 W6]).
  rewrite Hlen in E3.
  rewrite <- (writei_take ip j l (f_off x) n1 y2 Hj Htj) in E3 by lia.
  set (s1 := set_fd_fs y1 s). set (s2 := set_fd_fs y2 s1). set (s3 := set_fd_fs y3 s2). set (s4 := set_ftable (<[f := set_foff (f_off x + n1) x]> (ftable s3)) s3).
  set (s5 := set_fd_fs y4 s4). set (s6 := set_fd_fs y5 s5). exists s6, v', i'. split.
  - split; rewrite ?Hlen; try done.
    split; try done; [cbn; by apply list_lookup_insert_eq, lookup_lt_Some with x|].
    change (f_off (set_foff (f_off x + n1) x)) with (f_off x + n1). cbn [fd_fs s6 set_fd_fs]. rewrite W4, length_splice_max; lia.
  - mstep (on_fs_ok _ s tt y1 E1). mstep (fptr_ok s1 f x Hf). rewrite Hip. mstep (on_fs_ok _ s1 tt y2 E2).
    change (lift_opt (Some ip)) with (mret (M := M (fdstate (T := T))) ip). rewrite bind_ret_l. mstep (on_fs_ok _ s2 n1 y3 E3).
    mstep (move_off s3 f x n1 Hf ltac:(lia) ltac:(lia) ltac:(unfold MAXFILE, NDIRECT, NINDIRECT, BSIZE in *; lia)). mstep (on_fs_ok _ s4 tt y4 E4). mstep (on_fs_ok _ s5 tt y5 E5). done.
Qed.

Definition rounds (n : Z) : Z := (n + 1535) / 1536.

Lemma write_loop f l ip : (25 ≤ tx_max)%nat → ∀ fuel s v x i j, open_file s v f x ip i → 0 ≤ j ≤ Z.of_nat (length l) → Z.of_nat (length l) - j ≤ Z.of_nat fuel →
  f_off x + (Z.of_nat (length l) - j) ≤ MAXFILE * BSIZE → 8 * rounds (Z.of_nat (length l) - j) ≤ Z.of_nat (nfree (fs_sb (fd_fs s)) v) →
  ∃ s' v' i', filewrite_loop me devsw fuel f l j (Z.of_nat (length l)) s = Ok (Z.of_nat (length l)) s' ∧
    file_grew s v f x ip i (drop (Z.to_nat j) l) (8 * rounds (Z.of_nat (length l) - j)) s' v' i'.
Proof.
  intros Hmax. induction fuel as [|fuel IH]; intros s v x i j O Hj Hf Hb Hfr; cbn [filewrite_loop]; (destruct (Z.ltb_spec j (Z.of_nat (length l))) as [Hlt|Hge]; [|]); cbn [negb].
  - lia.
  - exists s, v, i. replace j with (Z.of_nat (length l)) by lia. rewrite Nat2Z.id, drop_all, Z.sub_diag. split; [done|]. by apply grew_nil.
  - set (n1 := if FILEWRITE_MAX <? _ then _ else _). assert (Hn1 : n1 = Z.min 1536 (Z.of_nat (length l) - j)).
    { unfold n1. change FILEWRITE_MAX with 1536. destruct (Z.ltb_spec 1536 (Z.of_nat (length l) - j)); lia. }
    assert (Hr : rounds (Z.of_nat (length l) - j) = 1 + rounds (Z.of_nat (length l) - (j + n1))) by (unfold rounds; lia).
    destruct (write_round s v f x ip i (drop (Z.to_nat j) l) n1 (λ r, if r <? 0 then mret j else if negb (r =? n1) then panic "short filewrite" else filewrite_loop me devsw fuel f l (j + r) (Z.of_nat (length l))) O Hmax)
      as (s1 & v1 & i1 & G1 & E1); [lia|rewrite length_drop; lia|lia|unfold rounds in *; lia|]. rewrite E1, Z.eqb_refl, (proj2 (Z.ltb_ge n1 0)) by lia. cbn [negb].
    assert (Hlen : Z.of_nat (length (take (Z.to_nat n1) (drop (Z.to_nat j) l))) = n1) by (rewrite length_take, length_drop; lia).
    pose proof (of_nfree _ _ _ _ _ _ (fg_only _ _ _ _ _ _ _ _ _ _ _ G1)) as Hnf. pose proof (fg_open _ _ _ _ _ _ _ _ _ _ _ G1) as O1.
    destruct (IH s1 v1 _ i1 (j + n1) O1) as (s2 & v2 & i2 & E2 & G2); [lia|lia|rewrite Hlen; cbn; lia|rewrite (fg_sb _ _ _ _ _ _ _ _ _ _ _ G1); lia|].
    exists s2, v2, i2. split; [exact E2|]. pose proof (grew_app _ _ _ _ _ _ _ _ _ _ _ _ _ _ _ _ (op_off _ _ _ _ _ _ O) G1 G2) as G3.
    replace (Z.to_nat (j + n1)) with (Z.to_nat j + Z.to_nat n1)%nat in G3 by lia. rewrite <- drop_drop, take_drop in G3.
    by replace (8 * rounds (Z.of_nat (length l) - j)) with (8 + 8 * rounds (Z.of_nat (length l) - (j + n1))) by lia.
  - exists s, v, i. replace j with (Z.of_nat (length l)) by lia. rewrite Nat2Z.id, drop_all, Z.sub_diag. split; [done|]. by apply grew_nil.
Qed.

Lemma filewrite_ok killed s v f x ip i src : open_file s v f x ip i → f_writable x ≠ 0 → (25 ≤ tx_max)%nat →
  f_off x + Z.of_nat (length src) ≤ MAXFILE * BSIZE → 8 * rounds (Z.of_nat (length src)) ≤ Z.of_nat (nfree (fs_sb (fd_fs s)) v) →
  ∃ s' v' i', filewrite me devsw killed f src (Z.of_nat (length src)) s = Ok (Z.of_nat (length src)) s' ∧
    file_grew s v f x ip i src (8 * rounds (Z.of_nat (length src))) s' v' i'.
Proof.
  intros O Hw Hmax Hb Hfr. pose proof O as [Hf [Ht Hip] _ _ _]. rewrite <- (Z.sub_0_r (Z.of_nat (length src))) in Hb, Hfr.
  destruct (write_loop f src ip Hmax (Z.to_nat (Z.of_nat (length src))) s v x i 0 O ltac:(lia) ltac:(lia) Hb Hfr) as (s' & v' & i' & E & G).
  exists s', v', i'. rewrite Z.sub_0_r in G. split; [|exact G]. unfold filewrite. mstep (fptr_ok _ _ _ Hf). rewrite (proj2 (Z.eqb_neq _ _) Hw), Ht. mstep E. by rewrite Z.eqb_refl.
Qed.

(** C10: writing to an open file, when the file stays within the largest size and the disk has eight free
    blocks for each piece of 1536 bytes: however long, what is given to [filewrite] replaces the
    contents of the file from the offset on, the file grows as needed and the offset moves behind;
    no other open file, no other inode in the cache or on the disk and no block of another file has
    changed; when it returns all of it is on the disk. *)
Theorem filewrite_correct killed s v f x ip i src : open_file s v f x ip i → f_writable x ≠ 0 → (25 ≤ tx_max)%nat →
  f_off x + Z.of_nat (length src) ≤ MAXFILE * BSIZE → 8 * rounds (Z.of_nat (length src)) ≤ Z.of_nat (nfree (fs_sb (fd_fs s)) v) →
  ∃ s' v' i', filewrite me devsw killed f src (Z.of_nat (length src)) s = Ok (Z.of_nat (length src)) s' ∧
    open_file s' v' f (set_foff (f_off x + Z.of_nat (length src)) x) ip i' ∧
    fdata (fd_fs s') v' i' = splice (Z.to_nat (f_off x)) src (fdata (fd_fs s) v i) ∧
    ftable s' = <[f := set_foff (f_off x + Z.of_nat (length src)) x]> (ftable s) ∧
    only_file (fs_sb (fd_fs s)) v (ondisk (fd_fs s) v i) v' (ondisk (fd_fs s') v' i') (8 * rounds (Z.of_nat (length src))) ∧
    (∀ jp, jp ≠ ip → ic_inode (fd_fs s') !! jp = ic_inode (fd_fs s) !! jp) ∧
    ∀ b, 0 ≤ b → v_disk v' !! Z.to_nat b = v_cont v' !! Z.to_nat b.
Proof.
  intros O Hw Hmax Hb Hfr. destruct (filewrite_ok killed s v f x ip i src O Hw Hmax Hb Hfr) as (s' & v' & i' & E & [G1 G2 G3 G4 _ _ G7]).
  exists s', v', i'. split_and!; try done. intros b Hb0. pose proof (of_ok _ _ _ _ _ (op_file _ _ _ _ _ _ G1)) as I. symmetry.
  apply (wf_clean _ (trepr_wf _ _ _ (ic_rep _ _ _ I))); [by rewrite (op_pins _ _ _ _ _ _ G1)|by rewrite (ic_held _ _ _ I)|done].
Qed.

(** What one open file has written, another one on the same inode reads from the same offset. *)
Theorem filewrite_read killed s v f x g y ip i src : open_file s v f x ip i → f_writable x ≠ 0 → (25 ≤ tx_max)%nat →
  f_off x + Z.of_nat (length src) ≤ MAXFILE * BSIZE → 8 * rounds (Z.of_nat (length src)) ≤ Z.of_nat (nfree (fs_sb (fd_fs s)) v) →
  f ≠ g → open_file s v g y ip i → f_readable y ≠ 0 → f_off y = f_off x →
  ∃ s1 s2, filewrite me devsw killed f src (Z.of_nat (length src)) s = Ok (Z.of_nat (length src)) s1 ∧
    fileread me devsw killed g (Z.of_nat (length src)) s1 = Ok (Z.of_nat (length src), src) s2.
Proof.
  intros O Hw Hmax Hb Hfr Hne [Hg [Ht Hip] _ _ Hog] Hre Heq. destruct (filewrite_ok killed s v f x ip i src O Hw Hmax Hb Hfr) as (s1 & v1 & i1 & E & [G1 G2 G3 _ _ _ _]).
  destruct O as [_ _ _ _ Ho]. assert (Hlen : Z.of_nat (length (fdata (fd_fs s1) v1 i1)) = Z.max (Z.of_nat (length (fdata (fd_fs s) v i))) (f_off x + Z.of_nat (length src))).
  { rewrite G3, length_splice_max by lia. lia. }
  assert (O1 : open_file s1 v1 g y ip i1).
  { destruct G1 as [A1 A2 A3 A4 A5]. split; try done; [by rewrite G2, list_lookup_insert_ne|lia]. }
  destruct (fileread_ok killed s1 v1 g y ip i1 (Z.of_nat (length src)) O1 Hre) as (s2 & i2 & E2 & _); [change (MAXFILE * BSIZE) with 71680 in Hb; lia|].
  exists s1, s2. split; [exact E|]. rewrite E2, Hlen, Heq, Z.min_l by lia. rewrite Nat2Z.id, G3. do 2 f_equal. apply slice_splice_eq. lia.
Qed.
End file_io.

(** ** At the image of FsStack.v *)

#[local] Instance io_ops : TxOps T60 := stack_ops 1.
#[local] Instance io_spec : @TxSpec T60 io_ops := stack_spec 1.

(** The file of three bytes, open for writing and for reading, both at the second byte. *)
Definition wfile60 : file := mkfile FD_INODE 1 0 1 0 (Some 0%nat) 1.
Definition rfile60 : file := mkfile FD_INODE 1 1 0 0 (Some 0%nat) 1.
Definition fd60 (t : T60) : fdstate (T := T60) := mkfd false [wfile60; rfile60] ∅ [] (mkk false 0 0 ∅) (fs60u t).

Lemma open60_ok t v : @trepr T60 io_ops io_spec t v 0 → shows60 v →
  open_file (fd60 t) v 0 wfile60 0 open60 ∧ open_file (fd60 t) v 1 rfile60 0 open60 ∧ Z.of_nat (nfree sb60 v) = 24 ∧ fdata (fs60u t) v open60 = [104; 105; 10].
Proof.
  intros R S. pose proof (icok60 t v 0 R S) as I. assert (Ed : ondisk (fs60u t) v open60 = open60) by (by apply (eo_disk _ _ _ (ic_ent _ _ _ I 0 open60 eq_refl))).
  destruct (file60 v S) as [F Hh]. assert (Of : on_file (fd_fs (fd60 t)) v 0 0 open60).
  { split; try done; [by apply meta60|]. change (fd_fs (fd60 t)) with (fs60u t). rewrite Ed. split; [by destruct F|exact Hh|done|done]. }
  assert (Hl : Z.of_nat (length (fdata (fd_fs (fd60 t)) v open60)) = 3) by (rewrite (length_fdata _ _ _ _ _ Of); change (fd_fs (fd60 t)) with (fs60u t); by rewrite Ed).
  split_and!; [split; try done; [apply S|rewrite Hl; cbn; lia]|split; try done; [apply S|rewrite Hl; cbn; lia]|by rewrite nfree60|unfold fdata; rewrite Ed; by apply contents60].
Qed.

Lemma filewrite_correct_witness : ∃ t s', filewrite 1 (nodev T60) false 0 src600 600 (fd60 t) = Ok 600 s'.
Proof.
  destruct (image60_shows 1) as (t & v & R & S). destruct (open60_ok t v R S) as (O & _ & Hf & _). exists t.
  destruct (filewrite_correct 1 (nodev T60) false (fd60 t) v 0 wfile60 0 open60 src600) as (s' & v' & i' & E & _); [exact O|done|vm_compute tx_max; lia|done|change (fs_sb (fd_fs (fd60 t))) with sb60; by rewrite Hf|].
  by exists s'.
Defined.

Lemma filewrite_read_witness : ∃ t s1 s2, filewrite 1 (nodev T60) false 0 src600 600 (fd60 t) = Ok 600 s1 ∧ fileread 1 (nodev T60) false 1 600 s1 = Ok (600, src600) s2.
Proof.
  destruct (image60_shows 1) as (t & v & R & S). destruct (open60_ok t v R S) as (O & O2 & Hf & _). exists t.
  apply (filewrite_read 1 (nodev T60) false (fd60 t) v 0 wfile60 1 rfile60 0 open60 src600); [exact O|done|vm_compute tx_max; lia|done|change (fs_sb (fd_fs (fd60 t))) with sb60; by rewrite Hf|done|exact O2|done|done].
Defined.

Lemma fileread_correct_witness : ∃ t s', fileread 1 (nodev T60) false 1 9 (fd60 t) = Ok (2, [105; 10]) s'.
Proof.
  destruct (image60_shows 1) as (t & v & R & S). destruct (open60_ok t v R S) as (_ & O & _ & Hd). exists t.
  destruct (fileread_correct 1 (nodev T60) false (fd60 t) v 1 rfile60 0 open60 9) as (s' & i' & E & _); [exact O|done|lia|].
  exists s'. rewrite E. change (fd_fs (fd60 t)) with (fs60u t). rewrite Hd. reflexivity.
Defined.
