(* ===== verification/Proc.v ===== *)
(** * Processes: proc.c

    The process table with the structures of proc.h, and the functions of
    proc.c.  A pointer to a process is its index in the table; [paddr] gives
    its address, which is what a channel compares.  The lock of the table and
    the interrupt state of the CPU are those of [Spinlock].  [swtch] leaves
    the running process: a function that calls [sched] ends there with
    [Blocked], and what it does when the process runs again is a definition of
    its own.  The theorems relate each function to the table: which states
    change, who is woken, which pids are in use. *)

From S2P Require Import Prelude Params Strings Spinlock BlockDev Tx Fs Dir Kalloc Vm Pipe File.

Inductive procstate : Type := UNUSED | EMBRYO | SLEEPING | RUNNABLE | RUNNING | ZOMBIE.
#[global] Instance procstate_eq_dec : EqDecision procstate.
Proof. solve_decision. Defined.

Record context : Type := mkctx { cx_edi : Z; cx_esi : Z; cx_ebx : Z; cx_ebp : Z; cx_eip : Z }.

(** struct trapframe of x86.h *)
Record trapframe : Type := mktf {
  tf_edi : Z; tf_esi : Z; tf_ebp : Z; tf_oesp : Z; tf_ebx : Z; tf_edx : Z; tf_ecx : Z; tf_eax : Z;
  tf_gs : Z; tf_fs : Z; tf_es : Z; tf_ds : Z; tf_trapno : Z;
  tf_err : Z; tf_eip : Z; tf_cs : Z; tf_eflags : Z; tf_esp : Z; tf_ss : Z }.
Definition tf0 : trapframe := mktf 0 0 0 0 0 0 0 0 0 0 0 0 0 0 0 0 0 0 0.
Definition set_eax (v : Z) (t : trapframe) : trapframe :=
  mktf (tf_edi t) (tf_esi t) (tf_ebp t) (tf_oesp t) (tf_ebx t) (tf_edx t) (tf_ecx t) v
       (tf_gs t) (tf_fs t) (tf_es t) (tf_ds t) (tf_trapno t)
       (tf_err t) (tf_eip t) (tf_cs t) (tf_eflags t) (tf_esp t) (tf_ss t).
Definition set_eip_esp (ip sp : Z) (t : trapframe) : trapframe :=
  mktf (tf_edi t) (tf_esi t) (tf_ebp t) (tf_oesp t) (tf_ebx t) (tf_edx t) (tf_ecx t) (tf_eax t)
       (tf_gs t) (tf_fs t) (tf_es t) (tf_ds t) (tf_trapno t)
       (tf_err t) ip (tf_cs t) (tf_eflags t) sp (tf_ss t).

Record proc : Type := mkproc {
  p_sz : Z;
  p_pgdir : Z;
  p_kstack : Z;
  p_state : procstate;
  p_pid : Z;
  p_parent : option nat;
  p_tf : trapframe;
  p_context : context;
  p_chan : Z;
  p_killed : Z;
  p_ofile : list (option nat);
  p_cwd : option nat;
  p_name : list Z }.

Definition proc0 : proc :=
  mkproc 0 0 0 UNUSED 0 None tf0 (mkctx 0 0 0 0 0) 0 0
         (replicate (Z.to_nat NOFILE) None) None (replicate 16 0).

Definition set_psz v p := mkproc v (p_pgdir p) (p_kstack p) (p_state p) (p_pid p) (p_parent p) (p_tf p)
  (p_context p) (p_chan p) (p_killed p) (p_ofile p) (p_cwd p) (p_name p).
Definition set_pgdir v p := mkproc (p_sz p) v (p_kstack p) (p_state p) (p_pid p) (p_parent p) (p_tf p)
  (p_context p) (p_chan p) (p_killed p) (p_ofile p) (p_cwd p) (p_name p).
Definition set_kstack v p := mkproc (p_sz p) (p_pgdir p) v (p_state p) (p_pid p) (p_parent p) (p_tf p)
  (p_context p) (p_chan p) (p_killed p) (p_ofile p) (p_cwd p) (p_name p).
Definition set_state v p := mkproc (p_sz p) (p_pgdir p) (p_kstack p) v (p_pid p) (p_parent p) (p_tf p)
  (p_context p) (p_chan p) (p_killed p) (p_ofile p) (p_cwd p) (p_name p).
Definition set_pid v p := mkproc (p_sz p) (p_pgdir p) (p_kstack p) (p_state p) v (p_parent p) (p_tf p)
  (p_context p) (p_chan p) (p_killed p) (p_ofile p) (p_cwd p) (p_name p).
Definition set_parent v p := mkproc (p_sz p) (p_pgdir p) (p_kstack p) (p_state p) (p_pid p) v (p_tf p)
  (p_context p) (p_chan p) (p_killed p) (p_ofile p) (p_cwd p) (p_name p).
Definition set_tf v p := mkproc (p_sz p) (p_pgdir p) (p_kstack p) (p_state p) (p_pid p) (p_parent p) v
  (p_context p) (p_chan p) (p_killed p) (p_ofile p) (p_cwd p) (p_name p).
Definition set_context v p := mkproc (p_sz p) (p_pgdir p) (p_kstack p) (p_state p) (p_pid p) (p_parent p) (p_tf p)
  v (p_chan p) (p_killed p) (p_ofile p) (p_cwd p) (p_name p).
Definition set_chan v p := mkproc (p_sz p) (p_pgdir p) (p_kstack p) (p_state p) (p_pid p) (p_parent p) (p_tf p)
  (p_context p) v (p_killed p) (p_ofile p) (p_cwd p) (p_name p).
Definition set_killed v p := mkproc (p_sz p) (p_pgdir p) (p_kstack p) (p_state p) (p_pid p) (p_parent p) (p_tf p)
  (p_context p) (p_chan p) v (p_ofile p) (p_cwd p) (p_name p).
Definition set_ofile v p := mkproc (p_sz p) (p_pgdir p) (p_kstack p) (p_state p) (p_pid p) (p_parent p) (p_tf p)
  (p_context p) (p_chan p) (p_killed p) v (p_cwd p) (p_name p).
Definition set_cwd v p := mkproc (p_sz p) (p_pgdir p) (p_kstack p) (p_state p) (p_pid p) (p_parent p) (p_tf p)
  (p_context p) (p_chan p) (p_killed p) (p_ofile p) v (p_name p).
Definition set_name v p := mkproc (p_sz p) (p_pgdir p) (p_kstack p) (p_state p) (p_pid p) (p_parent p) (p_tf p)
  (p_context p) (p_chan p) (p_killed p) (p_ofile p) (p_cwd p) v.

(** Constants of mmu.h. *)
Definition FL_IF : Z := 0x200.
Definition SEG_KCODE : Z := 1.
Definition SEG_KDATA : Z := 2.
Definition SEG_UCODE : Z := 3.
Definition SEG_UDATA : Z := 4.
Definition SEG_TSS : Z := 5.
Definition DPL_USER : Z := 3.

(** The task state fields the kernel sets, and the task register, which says what
    task state the processor uses. *)
Record tss : Type := mktss { ts_ss0 : Z; ts_esp0 : Z; ts_iomb : Z; ts_tr : Z }.
Definition set_ts (ss0 esp0 iomb : Z) (t : tss) : tss := mktss ss0 esp0 iomb (ts_tr t).
Definition ltr (sel : Z) (t : tss) : tss := mktss (ts_ss0 t) (ts_esp0 t) (ts_iomb t) sel.

(** [mycpu]: the entry of the running CPU, by its APIC id. *)
Fixpoint mycpu_scan (apicids : list Z) (apicid : Z) (i : nat) : option nat :=
  match apicids with
  | [] => None
  | a :: rest => if a =? apicid then Some i else mycpu_scan rest apicid (S i)
  end.
Definition mycpu {S} (eflags_if : bool) (apicids : list Z) (lapicid : Z) : M S nat :=
  if eflags_if then panic "mycpu called with interrupts enabled" else
  match mycpu_scan apicids lapicid 0 with
  | Some i => mret i
  | None => panic "unknown apicid"
  end.

Section proc.
Context {T : Type} `{!TxOps T}.
(** The running CPU; the process that runs on it, for the sleep locks; the
    devices; the addresses of the linker script; the address of [ptable.proc];
    those of the kernel's entry points; and [initlog] of the log in use. *)
Context (cpu_id : nat) (me : Z) (devsw : Z → option (device (T := T))) (kend vdata : Z).
Context (ptable_proc forkret_addr trapret_addr : Z) (initlog : Z → M T unit).

Record pstate : Type := mkps {
  ps_sl : slstate;                (* the CPUs, and ptable.lock *)
  ps_cur : option nat;            (* c->proc *)
  ps_proc : list proc;            (* ptable.proc *)
  ps_nextpid : Z;
  ps_initproc : option nat;
  ps_first : bool;                (* the static of forkret *)
  ps_cr3 : Z;
  ps_kpgdir : Z;
  ps_tss : tss;
  ps_fd : fdstate (T := T);
  ps_ticks : Z;                   (* the clock of trap.c and its lock *)
  ps_tlock : bool }.

Definition set_sl x s := mkps x (ps_cur s) (ps_proc s) (ps_nextpid s) (ps_initproc s) (ps_first s)
  (ps_cr3 s) (ps_kpgdir s) (ps_tss s) (ps_fd s) (ps_ticks s) (ps_tlock s).
Definition set_cur x s := mkps (ps_sl s) x (ps_proc s) (ps_nextpid s) (ps_initproc s) (ps_first s)
  (ps_cr3 s) (ps_kpgdir s) (ps_tss s) (ps_fd s) (ps_ticks s) (ps_tlock s).
Definition set_procs x s := mkps (ps_sl s) (ps_cur s) x (ps_nextpid s) (ps_initproc s) (ps_first s)
  (ps_cr3 s) (ps_kpgdir s) (ps_tss s) (ps_fd s) (ps_ticks s) (ps_tlock s).
Definition set_nextpid x s := mkps (ps_sl s) (ps_cur s) (ps_proc s) x (ps_initproc s) (ps_first s)
  (ps_cr3 s) (ps_kpgdir s) (ps_tss s) (ps_fd s) (ps_ticks s) (ps_tlock s).
Definition set_initproc x s := mkps (ps_sl s) (ps_cur s) (ps_proc s) (ps_nextpid s) x (ps_first s)
  (ps_cr3 s) (ps_kpgdir s) (ps_tss s) (ps_fd s) (ps_ticks s) (ps_tlock s).
Definition set_first x s := mkps (ps_sl s) (ps_cur s) (ps_proc s) (ps_nextpid s) (ps_initproc s) x
  (ps_cr3 s) (ps_kpgdir s) (ps_tss s) (ps_fd s) (ps_ticks s) (ps_tlock s).
Definition set_cr3 x s := mkps (ps_sl s) (ps_cur s) (ps_proc s) (ps_nextpid s) (ps_initproc s) (ps_first s)
  x (ps_kpgdir s) (ps_tss s) (ps_fd s) (ps_ticks s) (ps_tlock s).
Definition set_kpgdir x s := mkps (ps_sl s) (ps_cur s) (ps_proc s) (ps_nextpid s) (ps_initproc s) (ps_first s)
  (ps_cr3 s) x (ps_tss s) (ps_fd s) (ps_ticks s) (ps_tlock s).
Definition set_tss x s := mkps (ps_sl s) (ps_cur s) (ps_proc s) (ps_nextpid s) (ps_initproc s) (ps_first s)
  (ps_cr3 s) (ps_kpgdir s) x (ps_fd s) (ps_ticks s) (ps_tlock s).
Definition set_fd x s := mkps (ps_sl s) (ps_cur s) (ps_proc s) (ps_nextpid s) (ps_initproc s) (ps_first s)
  (ps_cr3 s) (ps_kpgdir s) (ps_tss s) x (ps_ticks s) (ps_tlock s).
Definition set_ticks x s := mkps (ps_sl s) (ps_cur s) (ps_proc s) (ps_nextpid s) (ps_initproc s) (ps_first s)
  (ps_cr3 s) (ps_kpgdir s) (ps_tss s) (ps_fd s) x (ps_tlock s).
Definition set_tlock x s := mkps (ps_sl s) (ps_cur s) (ps_proc s) (ps_nextpid s) (ps_initproc s) (ps_first s)
  (ps_cr3 s) (ps_kpgdir s) (ps_tss s) (ps_fd s) (ps_ticks s) x.

Definition on_sl {A} (m : M slstate A) : M pstate A := zoom (λ s, Some (ps_sl s)) set_sl m.
Definition on_fd {A} (m : M (fdstate (T := T)) A) : M pstate A := zoom (λ s, Some (ps_fd s)) set_fd m.
Definition on_kmem {A} (m : M kstate A) : M pstate A := on_fd (on_mem m).
Definition on_inodes {A} (m : M (fsstate (T := T)) A) : M pstate A := on_fd (on_fs m).

(** [acquire] takes the lock at its first try: another CPU that holds it would
    make the loop go on, which the interleavings of [Spinlock] describe. *)
Definition acquire_pt : M pstate unit := on_sl (acquire cpu_id 1).
Definition release_pt : M pstate unit := on_sl (release cpu_id).

Definition pptr (p : nat) : M pstate proc := s ← get; lift_opt (ps_proc s !! p).
Definition pset (p : nat) (f : proc → proc) : M pstate unit :=
  x ← pptr p; modify (λ s, set_procs (<[p := f x]> (ps_proc s)) s).

Definition PROCSZ : Z := 124.
(** The address of the structure of a process. *)
Definition paddr (p : nat) : Z := ptable_proc + PROCSZ * Z.of_nat p.
Definition paddr_opt (p : option nat) : Z := match p with Some p => paddr p | None => 0 end.

Definition pinit : M pstate unit := on_sl (modify (set_lk initlock)).

Definition myproc : M pstate (option nat) :=
  on_sl (pushcli cpu_id);;
  p ← gets ps_cur;
  on_sl (popcli cpu_id);;
  mret p.
(** [myproc()] where the code uses the result without a test. *)
Definition curproc : M pstate nat := p ← myproc; lift_opt p.

(** The first slot in state UNUSED. *)
Fixpoint find_unused (l : list proc) (i : nat) : option nat :=
  match l with
  | [] => None
  | p :: l' => if bool_decide (p_state p = UNUSED) then Some i else find_unused l' (S i)
  end.

(** [sizeof *p->tf] and [sizeof *p->context] *)
Definition TRAPFRAMESZ : Z := 76.
Definition CONTEXTSZ : Z := 20.

(** The words at the top of the new kernel stack. *)
Definition stack_words (k ret fork : Z) : M kstate unit :=
  stw (k + KSTACKSIZE - TRAPFRAMESZ - 4) ret;;
  for_each 5 0 (λ i, stw (k + KSTACKSIZE - TRAPFRAMESZ - 4 - CONTEXTSZ + 4 * i) 0);;
  stw (k + KSTACKSIZE - TRAPFRAMESZ - 4 - CONTEXTSZ + 16) fork.

(** [nextpid++]: nextpid is an int. *)
Definition next_pid (n : Z) : Z := s32 (n + 1).

(** The trap frame and the context are kept as values; the words of the new
    stack below the trap frame are those [swtch] will use. *)
Definition allocproc : M pstate (option nat) :=
  acquire_pt;;
  l ← gets ps_proc;
  match find_unused l 0 with
  | None => release_pt;; mret None
  | Some p =>
      pset p (set_state EMBRYO);;
      n ← gets ps_nextpid;
      pset p (set_pid n);;
      modify (set_nextpid (next_pid n));;
      release_pt;;
      k ← on_kmem kalloc;
      pset p (set_kstack k);;
      if k =? 0 then pset p (set_state UNUSED);; mret None else
      on_kmem (stack_words k trapret_addr forkret_addr);;
      pset p (set_context (mkctx 0 0 0 0 forkret_addr));;
      mret (Some p)
  end.

(** [namei] needs a buffer for the last element. *)
Definition name_buf : list Z := replicate (Z.to_nat DIRSIZ) 0.

Definition userinit (initcode : list Z) : M pstate unit :=
  r ← allocproc;
  modify (set_initproc r);;
  p ← lift_opt r;
  d ← on_kmem (setupkvm kend vdata);
  pset p (set_pgdir d);;
  if d =? 0 then panic "userinit: out of memory?" else
  on_kmem (inituvm d initcode);;
  pset p (set_psz PGSIZE);;
  let ds := Z.lor (Z.shiftl SEG_UDATA 3) DPL_USER in
  pset p (set_tf (mktf 0 0 0 0 0 0 0 0 0 0 ds ds 0 0 0
                       (Z.lor (Z.shiftl SEG_UCODE 3) DPL_USER) FL_IF PGSIZE ds));;
  x ← pptr p;
  nm ← lift_opt (safestrcpy (cstr [105; 110; 105; 116; 99; 111; 100; 101]) 16);
  pset p (set_name (splice 0 nm (p_name x)));;
  c ← on_inodes (namei me devsw 0 [SLASH] name_buf);
  pset p (set_cwd c);;
  acquire_pt;;
  pset p (set_state RUNNABLE);;
  release_pt.

Definition growproc (n : Z) : M pstate Z :=
  cp ← curproc;
  x ← pptr cp;
  let sz := p_sz x in
  r ← (if 0 <? n then
         sz' ← on_kmem (allocuvm kend (p_pgdir x) sz (u32 (sz + n)));
         mret (if sz' =? 0 then None else Some sz')
       else if n <? 0 then
         sz' ← on_kmem (deallocuvm kend (p_pgdir x) sz (u32 (sz + n)));
         mret (if sz' =? 0 then None else Some sz')
       else mret (Some sz));
  match r with
  | None => mret (-1)
  | Some sz =>
      pset cp (set_psz sz);;
      modify (set_cr3 (V2P (p_pgdir x)));;
      mret 0
  end.

(** [fork] once the child has its memory. *)
Definition fork_child (cp np : nat) (x : proc) : M pstate Z :=
  pset np (set_psz (p_sz x));;
  pset np (set_parent (Some cp));;
  pset np (set_tf (p_tf x));;
  pset np (λ y, set_tf (set_eax 0 (p_tf y)) y);;
  for_each (Z.to_nat NOFILE) 0 (λ i,
    x ← pptr cp;
    f ← lift_opt (p_ofile x !! Z.to_nat i);
    match f with
    | None => mret tt
    | Some f =>
        g ← on_fd (filedup f);
        pset np (λ y, set_ofile (<[Z.to_nat i := Some g]> (p_ofile y)) y)
    end);;
  w ← lift_opt (p_cwd x);
  w ← on_inodes (idup w);
  pset np (set_cwd (Some w));;
  nm ← lift_opt (safestrcpy (p_name x) 16);
  pset np (λ y, set_name (splice 0 nm (p_name y)) y);;
  y ← pptr np;
  let pid := p_pid y in
  acquire_pt;;
  pset np (set_state RUNNABLE);;
  release_pt;;
  mret pid.

Definition fork : M pstate Z :=
  cp ← curproc;
  r ← allocproc;
  match r with
  | None => mret (-1)
  | Some np =>
      x ← pptr cp;
      d ← on_kmem (copyuvm kend vdata (p_pgdir x) (p_sz x));
      pset np (set_pgdir d);;
      if d =? 0 then
        y ← pptr np;
        on_kmem (kfree kend (p_kstack y));;
        pset np (set_kstack 0);;
        pset np (set_state UNUSED);;
        mret (-1)
      else fork_child cp np x
  end.

(** The body of the loop of [wakeup1]. *)
Definition wakeup_one (chan : Z) (p : proc) : proc :=
  if bool_decide (p_state p = SLEEPING) && (p_chan p =? chan) then set_state RUNNABLE p else p.
Definition wakeup1 (chan : Z) : M pstate unit :=
  for_each (Z.to_nat NPROC) 0 (λ i, pset (Z.to_nat i) (wakeup_one chan)).

Definition wakeup (chan : Z) : M pstate unit :=
  acquire_pt;;
  wakeup1 chan;;
  release_pt.

(** ** Switching *)

Definition switchkvm : M pstate unit := modify (λ s, set_cr3 (V2P (ps_kpgdir s)) s).
Definition kvmalloc : M pstate unit :=
  d ← on_kmem (setupkvm kend vdata);
  modify (set_kpgdir d);;
  switchkvm.

Definition switchuvm (p : option nat) : M pstate unit :=
  match p with
  | None => panic "switchuvm: no process"
  | Some p =>
      x ← pptr p;
      if p_kstack x =? 0 then panic "switchuvm: no kstack" else
      if p_pgdir x =? 0 then panic "switchuvm: no pgdir" else
      on_sl (pushcli cpu_id);;
      modify (λ s, set_tss (set_ts (Z.shiftl SEG_KDATA 3) (p_kstack x + KSTACKSIZE) 0xFFFF (ps_tss s)) s);;
      modify (λ s, set_tss (ltr (Z.shiftl SEG_TSS 3) (ps_tss s)) s);;
      modify (set_cr3 (V2P (p_pgdir x)));;
      on_sl (popcli cpu_id)
  end.

(** [sched] up to [swtch], which leaves the process, and after it: the
    interrupt state belongs to the thread and is put back. *)
Definition sched_checks : M pstate bool :=
  p ← curproc;
  h ← on_sl (holding cpu_id);
  if negb h then panic "sched ptable.lock" else
  c ← on_sl (this_cpu cpu_id);
  if negb (c_ncli c =? 1) then panic "sched locks" else
  x ← pptr p;
  if bool_decide (p_state x = RUNNING) then panic "sched running" else
  if c_if c then panic "sched interruptible" else
  mret (c_intena c).
Definition SWTCH : Z := 0.
Definition sched : M pstate unit := sched_checks;; block SWTCH.
Definition sched_resume (intena : bool) : M pstate unit :=
  on_sl (set_cpu cpu_id (λ c, mkcpu (c_if c) (c_ncli c) intena)).

Definition yield : M pstate unit :=
  acquire_pt;;
  p ← curproc;
  pset p (set_state RUNNABLE);;
  sched.
Definition yield_resume (intena : bool) : M pstate unit :=
  sched_resume intena;; release_pt.

Definition forkret : M pstate unit :=
  release_pt;;
  f ← gets ps_first;
  if (f : bool) then
    modify (set_first false);;
    on_inodes (iinit ROOTDEV);;
    on_inodes (on_tx (initlog ROOTDEV))
  else mret tt.

(** The lock argument of [sleep]: null, the lock of the table, or another lock
    with its two operations. *)
Inductive lkarg : Type :=
| LkNull | LkPtable | LkOther (acq rel : M pstate unit).

Definition sleep (chan : Z) (lk : lkarg) : M pstate unit :=
  p ← myproc;
  match p with
  | None => panic "sleep"
  | Some p =>
      match lk with
      | LkNull => panic "sleep without lk"
      | LkPtable => mret tt
      | LkOther _ rel => acquire_pt;; rel
      end;;
      pset p (set_chan chan);;
      pset p (set_state SLEEPING);;
      sched
  end.
Definition sleep_resume (intena : bool) (lk : lkarg) : M pstate unit :=
  sched_resume intena;;
  p ← curproc;
  pset p (set_chan 0);;
  match lk with
  | LkOther acq _ => release_pt;; acq
  | _ => mret tt
  end.

(** [exit] up to [acquire(&ptable.lock)]: the files and the directory. *)
Definition exit_files (cp : nat) : M pstate unit :=
  for_each (Z.to_nat NOFILE) 0 (λ fd,
    x ← pptr cp;
    f ← lift_opt (p_ofile x !! Z.to_nat fd);
    match f with
    | None => mret tt
    | Some f =>
        on_fd (fileclose me kend f);;
        pset cp (λ x, set_ofile (<[Z.to_nat fd := None]> (p_ofile x)) x)
    end);;
  on_inodes (on_tx tx_begin_op);;
  x ← pptr cp;
  w ← lift_opt (p_cwd x);
  on_inodes (iput me w);;
  on_inodes (on_tx tx_end_op);;
  pset cp (set_cwd None).

(** One slot of the loop of [exit] that passes the children to init. *)
Definition reparent (cp : nat) (ini : option nat) (i : Z) : M pstate unit :=
  y ← pptr (Z.to_nat i);
  if bool_decide (p_parent y = Some cp) then
    pset (Z.to_nat i) (set_parent ini);;
    if bool_decide (p_state y = ZOMBIE) then wakeup1 (paddr_opt ini) else mret tt
  else mret tt.

Definition exit_table (cp : nat) (ini : option nat) : M pstate unit :=
  acquire_pt;;
  x ← pptr cp;
  wakeup1 (paddr_opt (p_parent x));;
  for_each (Z.to_nat NPROC) 0 (reparent cp ini);;
  pset cp (set_state ZOMBIE);;
  sched.

Definition exit : M pstate unit :=
  cp ← curproc;
  ini ← gets ps_initproc;
  if bool_decide (Some cp = ini) then panic "init exiting" else
  exit_files cp;;
  exit_table cp ini;;
  panic "zombie exit".

Fixpoint wait_from (cp : nat) (n : nat) (i : nat) (havekids : bool) : M pstate (Z + bool) :=
  match n with
  | O => mret (inr havekids)
  | S n' =>
      y ← pptr i;
      if negb (bool_decide (p_parent y = Some cp)) then wait_from cp n' (S i) havekids else
      if bool_decide (p_state y = ZOMBIE) then
        let pid := p_pid y in
        on_kmem (kfree kend (p_kstack y));;
        pset i (set_kstack 0);;
        on_kmem (freevm kend (p_pgdir y));;
        pset i (set_pid 0);;
        pset i (set_parent None);;
        pset i (λ y, set_name (<[0%nat := 0]> (p_name y)) y);;
        pset i (set_killed 0);;
        pset i (set_state UNUSED);;
        release_pt;;
        mret (inl pid)
      else wait_from cp n' (S i) true
  end.

(** One scan of the table by [wait]: the pid of a zombie child that has been
    freed, or whether there are children. *)
Definition wait_scan (cp : nat) : M pstate (Z + bool) :=
  wait_from cp (Z.to_nat NPROC) 0 false.

(** One turn of the loop of [wait] with the table locked; it sleeps when there
    are children and none has exited, and then takes another turn. *)
Definition wait_turn (cp : nat) : M pstate Z :=
  r ← wait_scan cp;
  match r with
  | inl pid => mret pid
  | inr havekids =>
      x ← pptr cp;
      if negb havekids || negb (p_killed x =? 0) then release_pt;; mret (-1) else
      sleep (paddr cp) LkPtable;; undef
  end.
Definition wait : M pstate Z := cp ← curproc; acquire_pt;; wait_turn cp.

(** [scheduler]: from slot [i] on, the next runnable process is switched to,
    and the result is its slot; without one the lock is released.  When the
    process comes back the loop goes on after it. *)
Fixpoint scheduler_from (n : nat) (i : nat) : M pstate (option nat) :=
  match n with
  | O => release_pt;; mret None
  | S n' =>
      x ← pptr i;
      if negb (bool_decide (p_state x = RUNNABLE)) then scheduler_from n' (S i) else
      modify (set_cur (Some i));;
      switchuvm (Some i);;
      pset i (set_state RUNNING);;
      mret (Some i)
  end.
Definition scheduler_round : M pstate (option nat) :=
  on_sl (sti cpu_id);;
  acquire_pt;;
  scheduler_from (Z.to_nat NPROC) 0.
Definition scheduler : M pstate (option nat) := modify (set_cur None);; scheduler_round.
Definition scheduler_back (i : nat) : M pstate (option nat) :=
  switchkvm;;
  modify (set_cur None);;
  scheduler_from (Z.to_nat NPROC - S i) (S i).

Definition kill (pid : Z) : M pstate Z :=
  acquire_pt;;
  r ← for_range (Z.to_nat NPROC) 0 (λ i,
        x ← pptr (Z.to_nat i);
        if p_pid x =? pid then
          pset (Z.to_nat i) (set_killed 1);;
          (if bool_decide (p_state x = SLEEPING) then pset (Z.to_nat i) (set_state RUNNABLE) else mret tt);;
          release_pt;;
          mret (Some 0)
        else mret None);
  match r with
  | Some v => mret v
  | None => release_pt;; mret (-1)
  end.

Definition state_name (st : procstate) : string :=
  match st with
  | UNUSED => "unused" | EMBRYO => "embryo" | SLEEPING => "sleep "
  | RUNNABLE => "runble" | RUNNING => "run   " | ZOMBIE => "zombie"
  end.

(** What [procdump] prints for each process: the pid, the state, the name, and
    the call stack of a sleeping one up to the first zero. *)
Definition procdump (word : Z → Z) (l : list proc) : list (Z * string * list Z * list Z) :=
  omap (λ p,
    if bool_decide (p_state p = UNUSED) then None else
    let pcs :=
      if bool_decide (p_state p = SLEEPING)
      then cname 10 (getcallerpcs word (u32 (cx_ebp (p_context p) + 8))) else [] in
    Some (p_pid p, state_name (p_state p), p_name p, pcs)) l.
End proc.

(** ** The table under the lock *)

Section proc_lemmas.
Context {T : Type} `{!TxOps T}.
Context (cpu_id : nat) (ptable_proc : Z).
Implicit Types (s : pstate (T := T)) (l : list proc).

(** The CPU is in state [k] and the lock of the table is free. *)
Record ready s (k : cpu) : Prop := {
  rd_cpu : cpus (ps_sl s) !! cpu_id = Some k;
  rd_ncli : 0 ≤ c_ncli k;
  rd_if : 0 < c_ncli k → c_if k = false;
  rd_lock : lk (ps_sl s) = initlock }.

(** The lock of the table held by this CPU, whose state was [k]. *)
Definition pt_held s (k : cpu) : pstate :=
  set_sl (mksls (<[cpu_id := pushed k]> (cpus (ps_sl s))) (mkslock 1 (Some cpu_id))) s.
(** The lock given back. *)
Definition pt_back s (k : cpu) : pstate :=
  set_sl (mksls (<[cpu_id := popped (pushed k)]> (cpus (ps_sl s))) initlock) s.

Lemma acquire_pt_ok s k : ready s k → acquire_pt cpu_id s = Ok tt (pt_held s k).
Proof.
  intros [E Hn _ Hl]. unfold acquire_pt, on_sl.
  by rewrite (zoom_ok _ _ _ s (ps_sl s) _ _ eq_refl (acquire_free cpu_id _ k 0 E Hn Hl)).
Qed.

Lemma release_pt_ok s s1 k : ready s k → ps_sl s1 = ps_sl (pt_held s k) →
  release_pt cpu_id s1 = Ok tt (set_sl (ps_sl (pt_back s k)) s1).
Proof.
  intros [E Hn _ Hl] Hs. unfold release_pt, on_sl.
  assert (E1 : cpus (ps_sl s1) !! cpu_id = Some (pushed k)).
  { rewrite Hs. simpl. apply list_lookup_insert_eq. by eapply lookup_lt_Some. }
  assert (Hl1 : lk (ps_sl s1) = mkslock 1 (Some cpu_id)) by by rewrite Hs.
  rewrite (zoom_ok _ _ _ s1 (ps_sl s1) _ _ eq_refl
    (release_mine cpu_id _ _ E1 eq_refl ltac:(simpl; lia) Hl1)).
  rewrite Hs. unfold pt_back. simpl. by rewrite list_insert_insert_eq.
Qed.

Lemma pptr_ok s p x : ps_proc s !! p = Some x → pptr p s = Ok x s.
Proof. intros E. unfold pptr, get, mbind, M_bind. by rewrite E. Qed.

Lemma pset_ok s p x f : ps_proc s !! p = Some x →
  pset p f s = Ok tt (set_procs (<[p := f x]> (ps_proc s)) s).
Proof. intros E. unfold pset. by mstep (pptr_ok s p x E). Qed.

Lemma set_procs_procs s l l' : set_procs l (set_procs l' s) = set_procs l s.
Proof. done. Qed.

(** A loop that updates every slot. *)
Lemma for_pset f s : length (ps_proc s) = Z.to_nat NPROC →
  for_each (Z.to_nat NPROC) 0 (λ i, pset (Z.to_nat i) f) s = Ok tt (set_procs (f <$> ps_proc s) s).
Proof.
  intros Hlen. destruct (for_each_inv
    (λ i s1, s1 = set_procs ((f <$> take (Z.to_nat i) (ps_proc s)) ++ drop (Z.to_nat i) (ps_proc s)) s)
    (λ i, pset (Z.to_nat i) f) (Z.to_nat NPROC) 0 s) as (s' & E & ->).
  - simpl. by destruct s.
  - intros i s1 Hi ->. destruct (lookup_lt_is_Some_2 (ps_proc s) (Z.to_nat i)) as [x Hx]; [lia|].
    eexists. split; [apply pset_ok; simpl|].
    + rewrite lookup_app_r; rewrite length_fmap, length_take; [|lia].
      replace (_ - _)%nat with 0%nat by lia. rewrite lookup_drop, Nat.add_0_r. exact Hx.
    + simpl. rewrite set_procs_procs. f_equal.
      replace (Z.to_nat (i + 1)) with (S (Z.to_nat i)) by lia.
      rewrite (take_S_r _ _ _ Hx), fmap_app. simpl. rewrite (drop_S _ _ _ Hx).
      rewrite insert_app_r_alt; rewrite length_fmap, length_take; [|lia].
      replace (_ - _)%nat with 0%nat by lia. simpl. by rewrite <- app_assoc.
  - rewrite E. f_equal. f_equal. rewrite take_ge, drop_ge by lia. by rewrite app_nil_r.
Qed.

(** [wakeup1] makes runnable every process that sleeps on the channel, and
    changes nothing else. *)
Lemma wakeup1_ok s chan : length (ps_proc s) = Z.to_nat NPROC →
  wakeup1 chan s = Ok tt (set_procs (wakeup_one chan <$> ps_proc s) s).
Proof. apply for_pset. Qed.

Lemma wakeup_ok s k chan : ready s k → length (ps_proc s) = Z.to_nat NPROC →
  wakeup cpu_id chan s = Ok tt (set_procs (wakeup_one chan <$> ps_proc s) (pt_back s k)).
Proof.
  intros R Hlen. unfold wakeup. mstep (acquire_pt_ok s k R). mstep (wakeup1_ok (pt_held s k) chan Hlen).
  by rewrite (release_pt_ok s _ k R).
Qed.

(** ** kill *)

Definition kill_one (x : proc) : proc :=
  if bool_decide (p_state x = SLEEPING) then set_state RUNNABLE (set_killed 1 x) else set_killed 1 x.

Lemma kill_loop s1 (rel : M pstate unit) pid n : ∀ i,
  length (ps_proc s1) = (i + n)%nat → (∀ j x, (j < i)%nat → ps_proc s1 !! j = Some x → p_pid x ≠ pid) →
  for_range n (Z.of_nat i) (λ i,
    x ← pptr (Z.to_nat i);
    if p_pid x =? pid then
      pset (Z.to_nat i) (set_killed 1);;
      (if bool_decide (p_state x = SLEEPING) then pset (Z.to_nat i) (set_state RUNNABLE) else mret tt);;
      rel;; mret (Some 0)
    else mret None) s1 =
  match list_find (λ x, p_pid x = pid) (ps_proc s1) with
  | Some (j, x) => (rel;; mret (Some 0)) (set_procs (<[j := kill_one x]> (ps_proc s1)) s1)
  | None => Ok None s1
  end.
Proof.
  induction n as [|n IH]; intros i Hlen Hno.
  - destruct (list_find _ _) as [[j x]|] eqn:E; [|done].
    apply list_find_Some in E as (Hj & Hp & _). destruct (Hno j x); [|done..].
    apply lookup_lt_Some in Hj. lia.
  - destruct (lookup_lt_is_Some_2 (ps_proc s1) i) as [x Hx]; [lia|]. simpl for_range.
    rewrite bind_assoc, Nat2Z.id. mstep (pptr_ok s1 i x Hx).
    destruct (Z.eqb_spec (p_pid x) pid) as [Hp|Hp].
    + assert (list_find (λ x, p_pid x = pid) (ps_proc s1) = Some (i, x)) as ->.
      { apply list_find_Some. split_and!; [done..|]. intros j y Hj Hlt. by eapply Hno. }
      rewrite bind_assoc. mstep (pset_ok s1 i x (set_killed 1) Hx).
      assert (Hx' : ps_proc (set_procs (<[i := set_killed 1 x]> (ps_proc s1)) s1) !! i = Some (set_killed 1 x)).
      { simpl. apply list_lookup_insert_eq. lia. }
      unfold kill_one. case_bool_decide.
      * rewrite bind_assoc. mstep (pset_ok _ i _ (set_state RUNNABLE) Hx').
        rewrite set_procs_procs. cbn [ps_proc set_procs]. rewrite list_insert_insert_eq, bind_assoc.
        unfold mbind, M_bind. by destruct (rel _).
      * rewrite bind_assoc, bind_ret_l, bind_assoc. unfold mbind, M_bind. by destruct (rel _).
    + rewrite bind_ret_l. replace (Z.of_nat i + 1) with (Z.of_nat (S i)) by lia. apply IH; [lia|].
      intros j y Hj Hy. destruct (decide (j = i)) as [->|]; [congruence|]. apply (Hno j); [lia|done].
Qed.

(** [kill] marks the first process with the pid, and wakes it if it sleeps;
    without such a process it returns -1 and changes nothing. *)
Lemma kill_ok s k pid : ready s k → length (ps_proc s) = Z.to_nat NPROC →
  kill cpu_id pid s =
  match list_find (λ x, p_pid x = pid) (ps_proc s) with
  | Some (j, x) => Ok 0 (set_procs (<[j := kill_one x]> (ps_proc s)) (pt_back s k))
  | None => Ok (-1) (pt_back s k)
  end.
Proof.
  intros R Hlen. unfold kill. mstep (acquire_pt_ok s k R).
  unfold mbind at 1, M_bind at 1. change 0 with (Z.of_nat 0) at 1.
  rewrite (kill_loop (pt_held s k) (release_pt cpu_id) pid (Z.to_nat NPROC) 0); [|done|lia].
  cbn [ps_proc pt_held set_sl]. destruct (list_find _ _) as [[j x]|].
  - pose proof (release_pt_ok s (set_procs (<[j := kill_one x]> (ps_proc s)) (pt_held s k)) k R ltac:(reflexivity)) as E.
    by mstep E.
  - pose proof (release_pt_ok s (pt_held s k) k R eq_refl) as E. by mstep E.
Qed.

(** ** allocproc *)

Lemma on_kmem_ok {A} (m : M kstate A) s a x : m (fd_mem (ps_fd s)) = Ok a x →
  on_kmem m s = Ok a (set_fd (set_fd_mem x (ps_fd s)) s).
Proof.
  intros E. unfold on_kmem, on_fd, on_mem. apply (zoom_ok _ _ _ s (ps_fd s)); [done|].
  by apply (zoom_ok _ _ _ (ps_fd s) (fd_mem (ps_fd s))).
Qed.

(** Memory changes at the page [k] only, and the list of free pages is kept. *)
Record page_only (k : Z) (l : list Z) (x x' : kstate) : Prop := {
  po_inv : kinv x' l;
  po_page : is_page (pages x') k;
  po_dom : dom (pages x') = dom (pages x);
  po_other : ∀ q, q ≠ k → pages x' !! q = pages x !! q }.

Lemma page_only_trans k (l : list Z) x x1 x2 : page_only k l x x1 → page_only k l x1 x2 → page_only k l x x2.
Proof. intros [A1 B1 C1 D1] [A2 B2 C2 D2]. split; [done|done|congruence|]. intros q Hq. by rewrite D2, D1. Qed.

(** A store to a page that is not free. *)
Lemma stw_kept x (l : list Z) k i v : kinv x l → is_page (pages x) k → k ∉ l → 0 ≤ i < 1024 →
  ∃ x', stw (k + 4 * i) v x = Ok tt x' ∧ page_only k l x x' ∧
    ∀ j, 0 ≤ j < 1024 → pde (pages x') k j = if bool_decide (i = j) then u32 v else pde (pages x) k j.
Proof.
  intros HI Hp Hn Hi. rewrite stw_ok by done. eexists. split; [done|]. pose proof Hp as (_ & d & Hd & Hl).
  split; [|intros j Hj; cbn [pages set_pages]; unfold pde; rewrite (word_put _ k i v k j); [|done..]; by do 2 case_bool_decide; naive_solver].
  split; [by apply kinv_insert|by apply is_page_put| |].
  - cbn [pages set_pages]. rewrite dom_insert_L. apply subseteq_union_1_L, singleton_subseteq_l. by apply elem_of_dom_2 in Hd.
  - intros q Hq. cbn [pages set_pages]. by apply lookup_insert_ne.
Qed.

(** The words at the top of a new stack: the context, with [fork] as its %eip, and the return
    address above it. *)
Record stack_top (m : gmap Z (list Z)) (k ret fork : Z) : Prop := {
  tp_regs : ∀ i, 999 ≤ i < 1003 → pde m k i = 0;
  tp_eip : pde m k 1003 = u32 fork;
  tp_ret : pde m k 1004 = u32 ret }.

Lemma stack_words_ok x (l : list Z) k ret fork : kinv x l → is_page (pages x) k → k ∉ l →
  ∃ x', stack_words k ret fork x = Ok tt x' ∧ page_only k l x x' ∧ stack_top (pages x') k ret fork.
Proof.
  intros HI Hp Hn. unfold stack_words, KSTACKSIZE, TRAPFRAMESZ, CONTEXTSZ.
  destruct (stw_kept x l k 1004 ret HI Hp Hn ltac:(lia)) as (x1 & E1 & O1 & W1).
  replace (k + 4096 - 76 - 4) with (k + 4 * 1004) by lia. mstep E1.
  destruct (for_each_inv (λ n x2, page_only k l x x2 ∧ pde (pages x2) k 1004 = u32 ret ∧ ∀ i, 999 ≤ i < 999 + n → pde (pages x2) k i = 0)
    (λ i, stw (k + 4 * 1004 - 20 + 4 * i) 0) 5 0 x1) as (x2 & E2 & O2 & R2 & Z2).
  - split_and!; [done|by rewrite W1 by lia|lia].
  - intros i x2 Hi (O2 & R2 & Z2). destruct (stw_kept x2 l k (999 + i) 0 (po_inv _ _ _ _ O2) (po_page _ _ _ _ O2) Hn ltac:(lia)) as (x3 & E3 & O3 & W3).
    exists x3. split; [by replace (k + 4 * 1004 - 20 + 4 * i) with (k + 4 * (999 + i)) by lia|].
    split_and!; [by eapply page_only_trans|rewrite W3, bool_decide_false by lia; done|]. intros j Hj. rewrite W3 by lia.
    case_bool_decide; [done|]. apply Z2. lia.
  - mstep E2. destruct (stw_kept x2 l k 1003 fork (po_inv _ _ _ _ O2) (po_page _ _ _ _ O2) Hn ltac:(lia)) as (x3 & E3 & O3 & W3).
    exists x3. split; [by replace (k + 4 * 1004 - 20 + 16) with (k + 4 * 1003) by lia|]. split; [by eapply page_only_trans|].
    split; [intros i Hi; rewrite W3, bool_decide_false by lia; apply Z2; lia|by rewrite W3 by lia|rewrite W3, bool_decide_false by lia; done].
Qed.

Lemma find_unused_Some l i p : find_unused l i = Some p →
  (i ≤ p)%nat ∧ ∃ x, l !! (p - i)%nat = Some x ∧ p_state x = UNUSED.
Proof.
  revert i. induction l as [|x l IH]; intros i; simpl; [done|]. case_bool_decide as E.
  - intros [= <-]. split; [done|]. rewrite Nat.sub_diag. eauto.
  - intros H. destruct (IH _ H) as (? & y & Hy & Hs). split; [lia|]. exists y. split; [|done].
    by replace (p - i)%nat with (S (p - S i)) by lia.
Qed.

Lemma find_unused_insert l p x y : find_unused l 0 = Some p → l !! p = Some x → p_state y = p_state x →
  find_unused (<[p := y]> l) 0 = Some p.
Proof.
  intros Hf Hx Hs. assert (Hgen : ∀ l i q, find_unused l i = Some (i + q)%nat → l !! q = Some x →
    find_unused (<[q := y]> l) i = Some (i + q)%nat); [|by apply (Hgen l 0%nat)].
  clear -Hs. induction l as [|z l IH]; intros i q; [done|]. destruct q as [|q]; simpl.
  - intros Hf [= ->]. rewrite Hs. revert Hf. case_bool_decide; [done|]. intros Hf.
    apply find_unused_Some in Hf as [? _]. lia.
  - case_bool_decide; [intros Hf; injection Hf; lia|].
    rewrite <- Nat.add_succ_comm. apply IH.
Qed.

(** The pids in use are positive, below [nextpid], and all different. *)
Definition pids_ok l (next : Z) : Prop :=
  (∀ i x, l !! i = Some x → p_state x ≠ UNUSED → 0 < p_pid x < next) ∧
  (∀ i j x y, l !! i = Some x → l !! j = Some y → p_state x ≠ UNUSED → p_state y ≠ UNUSED →
     p_pid x = p_pid y → i = j).

Lemma pids_fresh l next p x : pids_ok l next → 0 < next < 2147483647 → (p < length l)%nat → p_pid x = next →
  pids_ok (<[p := x]> l) (next_pid next).
Proof.
  intros [Hb Hu] Hn Hp Hx. unfold next_pid. rewrite s32_small by lia. split.
  - intros i y Hi Hs. destruct (decide (p = i)) as [->|].
    + rewrite list_lookup_insert_eq in Hi by done. injection Hi as <-. lia.
    + rewrite list_lookup_insert_ne in Hi by done. specialize (Hb i y Hi Hs). lia.
  - intros i j y z Hi Hj Hsy Hsz Hpid.
    destruct (decide (i = p)) as [->|]; destruct (decide (j = p)) as [->|]; try done;
      rewrite ?list_lookup_insert_eq in Hi by done; rewrite ?list_lookup_insert_eq in Hj by done;
      rewrite ?list_lookup_insert_ne in Hi by congruence;
      rewrite ?list_lookup_insert_ne in Hj by congruence; simplify_eq.
    + specialize (Hb j z Hj Hsz). lia.
    + specialize (Hb i y Hi Hsy). lia.
    + by eapply Hu.
Qed.

Lemma kalloc_page x r (fl : list Z) : kinv x (r :: fl) → r mod 4096 = 0 →
  ∃ x', kalloc x = Ok r x' ∧ kinv x' fl ∧ is_page (pages x') r ∧ r ∉ fl ∧ r ≠ 0 ∧ pages x' = pages x.
Proof.
  intros HI Hr. destruct (kalloc_some x r fl HI) as (x' & E & HI' & Hp & _). exists x'.
  destruct HI as [_ (_ & Hpos & d & Hd & Hl & _) Hnd]. apply NoDup_cons in Hnd as [? _].
  split_and!; [done..| |done|lia|done]. split; [done|]. exists d. by rewrite Hp.
Qed.

(** The slot of a new process. *)
Definition embryo (fk pid r : Z) (x : proc) : proc :=
  set_context (mkctx 0 0 0 0 fk) (set_kstack r (set_pid pid (set_state EMBRYO x))).

(** [allocproc] with a free slot and a free page: the first unused slot becomes
    an embryo with the next pid and the page as its stack. *)
Lemma allocproc_runs fk tr s k r (fl : list Z) p x0 : ready s k → length (ps_proc s) = Z.to_nat NPROC →
  find_unused (ps_proc s) 0 = Some p → ps_proc s !! p = Some x0 → kinv (fd_mem (ps_fd s)) (r :: fl) → r mod 4096 = 0 →
  ∃ m, allocproc cpu_id fk tr s = Ok (Some p)
      (set_procs (<[p := embryo fk (ps_nextpid s) r x0]> (ps_proc s)) (set_fd (set_fd_mem m (ps_fd s)) (set_nextpid (next_pid (ps_nextpid s)) (pt_back s k))))
    ∧ page_only r fl (fd_mem (ps_fd s)) m ∧ stack_top (pages m) r tr fk.
Proof.
  intros R Hlen Hf Hx0 HI Hal. assert (Hp : (p < length (ps_proc s))%nat) by by eapply lookup_lt_Some.
  destruct (kalloc_page _ r fl HI Hal) as (m1 & E1 & HI1 & Hpg & Hn & Hnz & Hm1).
  destruct (stack_words_ok m1 fl r tr fk HI1 Hpg Hn) as (m2 & E2 & O2 & W2).
  exists m2. split; [|split; [destruct O2 as [A B C D]; split; rewrite <- ?Hm1; done|done]].
  unfold allocproc. mstep (acquire_pt_ok s k R). rewrite bind_gets. cbn [ps_proc pt_held set_sl].
  rewrite Hf. mstep (pset_ok (pt_held s k) p x0 (set_state EMBRYO) Hx0). rewrite bind_gets.
  erewrite bind_ok; [|apply pset_ok; simpl; by apply list_lookup_insert_eq]. rewrite bind_modify.
  set (s1 := set_nextpid _ _). assert (Hs1 : ps_sl s1 = ps_sl (pt_held s k)) by done.
  mstep (release_pt_ok s s1 k R Hs1). set (s2 := set_sl _ s1).
  assert (Hm2 : fd_mem (ps_fd s2) = fd_mem (ps_fd s)) by done. rewrite <- Hm2 in E1.
  mstep (on_kmem_ok _ _ _ _ E1). set (s3 := set_fd _ s2). set (x3 := set_pid (ps_nextpid s) (set_state EMBRYO x0)).
  assert (Hl3 : ps_proc s3 = <[p := x3]> (ps_proc s)) by (unfold s3, s2, s1; simpl; by rewrite !list_insert_insert_eq).
  mstep (pset_ok s3 p x3 (set_kstack r) ltac:(rewrite Hl3; by apply list_lookup_insert_eq)).
  rewrite (proj2 (Z.eqb_neq _ _) Hnz). set (s4 := set_procs _ s3).
  assert (E2' : stack_words r tr fk (fd_mem (ps_fd s4)) = Ok tt m2) by exact E2.
  mstep (on_kmem_ok _ _ _ _ E2'). set (s5 := set_fd _ s4).
  assert (Hl5 : ps_proc s5 = <[p := set_kstack r x3]> (ps_proc s)).
  { change (ps_proc s5) with (<[p := set_kstack r x3]> (ps_proc s3)).
    by rewrite Hl3, list_insert_insert_eq. }
  mstep (pset_ok s5 p (set_kstack r x3) (set_context (mkctx 0 0 0 0 fk))
    ltac:(rewrite Hl5; by apply list_lookup_insert_eq)).
  unfold mret, M_ret. f_equal. rewrite Hl5, list_insert_insert_eq. done.
Qed.

Lemma allocproc_ok fk tr s k r (fl : list Z) p : ready s k → length (ps_proc s) = Z.to_nat NPROC →
  find_unused (ps_proc s) 0 = Some p → kinv (fd_mem (ps_fd s)) (r :: fl) → r mod 4096 = 0 →
  ∃ s' x, allocproc cpu_id fk tr s = Ok (Some p) s'
    ∧ ps_proc s' = <[p := x]> (ps_proc s) ∧ p_state x = EMBRYO ∧ p_pid x = ps_nextpid s
    ∧ p_kstack x = r ∧ ps_nextpid s' = next_pid (ps_nextpid s)
    ∧ kinv (fd_mem (ps_fd s')) fl ∧ ps_sl s' = ps_sl (pt_back s k)
    ∧ p_killed <$> ps_proc s !! p = Some (p_killed x).
Proof.
  intros R Hlen Hf HI Hal. destruct (find_unused_Some _ _ _ Hf) as (_ & x0 & Hx0 & _). rewrite Nat.sub_0_r in Hx0.
  destruct (allocproc_runs fk tr s k r fl p x0 R Hlen Hf Hx0 HI Hal) as (m & E & O & _).
  do 2 eexists. split; [exact E|]. split; [reflexivity|]. split_and!; try done; [apply O|by rewrite Hx0].
Qed.

(** ** wait *)

Lemma on_sl_ok {A} (m : M slstate A) s a x : m (ps_sl s) = Ok a x → on_sl m s = Ok a (set_sl x s).
Proof. apply (zoom_ok (λ s, Some (ps_sl s)) set_sl m s (ps_sl s)). done. Qed.

Lemma myproc_ok s k : ready s k → myproc cpu_id s = Ok (ps_cur s) (pt_back s k).
Proof.
  intros [E Hn _ Hl]. unfold myproc.
  mstep (on_sl_ok _ s _ _ (pushcli_ok cpu_id _ k E)). rewrite bind_gets.
  set (s1 := set_sl _ s). assert (E1 : cpus (ps_sl s1) !! cpu_id = Some (pushed k)).
  { apply list_lookup_insert_eq. by eapply lookup_lt_Some. }
  mstep (on_sl_ok _ s1 _ _ (popcli_ok cpu_id _ _ E1 eq_refl ltac:(simpl; lia))).
  unfold mret, M_ret. f_equal. unfold pt_back, s1, set_sl, set_cpus. simpl.
  by rewrite list_insert_insert_eq, Hl.
Qed.

Lemma curproc_ok s k cp : ready s k → ps_cur s = Some cp → curproc cpu_id s = Ok cp (pt_back s k).
Proof. intros R E. unfold curproc. mstep (myproc_ok s k R). by rewrite E. Qed.

Lemma ready_back s k : ready s k → ready (pt_back s k) (popped (pushed k)).
Proof.
  intros [E Hn Hi Hl]. destruct (popped_pushed k Hn Hi) as [H1 H2]. split.
  - apply list_lookup_insert_eq. by eapply lookup_lt_Some.
  - by rewrite H2.
  - by rewrite H1, H2.
  - done.
Qed.

(** With the lock held, reading the current process changes nothing. *)
Lemma myproc_locked s s1 k : ready s k → ps_sl s1 = ps_sl (pt_held s k) →
  myproc cpu_id s1 = Ok (ps_cur s1) s1.
Proof.
  intros [E Hn _ Hl] Hs. unfold myproc.
  assert (E1 : cpus (ps_sl s1) !! cpu_id = Some (pushed k)).
  { rewrite Hs. simpl. apply list_lookup_insert_eq. by eapply lookup_lt_Some. }
  mstep (on_sl_ok _ s1 _ _ (pushcli_ok cpu_id _ _ E1)). rewrite bind_gets.
  set (s2 := set_sl _ s1). assert (E2 : cpus (ps_sl s2) !! cpu_id = Some (pushed (pushed k))).
  { apply list_lookup_insert_eq. by eapply lookup_lt_Some. }
  mstep (on_sl_ok _ s2 _ _ (popcli_ok cpu_id _ _ E2 eq_refl ltac:(simpl; lia))).
  rewrite popped_pushed_eq by (simpl; (done || lia)). unfold mret, M_ret. f_equal.
  unfold s2, set_sl, set_cpus. simpl. rewrite list_insert_insert_eq, list_insert_id by done.
  by destruct s1 as [[] ? ? ? ? ? ? ? ? ? ? ?].
Qed.

(** [sched] with only the lock of the table held and the state changed: it
    passes its four checks and leaves the process. *)
Lemma sched_ok s s1 k cp x : ready s k → c_ncli k = 0 → ps_sl s1 = ps_sl (pt_held s k) →
  ps_cur s1 = Some cp → ps_proc s1 !! cp = Some x → p_state x ≠ RUNNING →
  sched cpu_id s1 = Blocked SWTCH s1.
Proof.
  intros R Hk Hs Hc Hx Hst. pose proof R as [E _ _ _]. unfold sched, sched_checks, curproc.
  rewrite !bind_assoc. mstep (myproc_locked s s1 k R Hs). rewrite Hc. simpl. rewrite bind_ret_l, bind_assoc.
  assert (E1 : cpus (ps_sl s1) !! cpu_id = Some (pushed k)).
  { rewrite Hs. simpl. apply list_lookup_insert_eq. by eapply lookup_lt_Some. }
  assert (Hb : set_sl (ps_sl s1) s1 = s1) by by destruct s1.
  mstep (on_sl_ok _ s1 _ _ (holding_ok cpu_id _ _ E1 eq_refl ltac:(simpl; lia))).
  rewrite Hb, Hs. simpl. rewrite bool_decide_true by done. simpl. rewrite bind_assoc.
  mstep (on_sl_ok _ s1 _ _ (this_cpu_ok cpu_id _ _ E1)).
  rewrite Hb. simpl. rewrite Hk. simpl. rewrite bind_assoc. mstep (pptr_ok s1 cp x Hx).
  by rewrite bool_decide_false.
Qed.

Definition is_child (cp : nat) (x : proc) : bool := bool_decide (p_parent x = Some cp).

(** A scan that finds no zombie among the children. *)
Lemma wait_from_none kend cp s n : ∀ i hk, length (ps_proc s) = (i + n)%nat →
  (∀ j x, ps_proc s !! j = Some x → is_child cp x = true → p_state x ≠ ZOMBIE) →
  wait_from cpu_id kend cp n i hk s = Ok (inr (hk || existsb (is_child cp) (drop i (ps_proc s)))) s.
Proof.
  induction n as [|n IH]; intros i hk Hlen Hz; cbn [wait_from].
  - rewrite drop_ge by lia. simpl. by rewrite orb_false_r.
  - destruct (lookup_lt_is_Some_2 (ps_proc s) i) as [x Hx]; [lia|]. mstep (pptr_ok s i x Hx).
    rewrite (drop_S _ _ _ Hx). cbn [existsb]. fold (is_child cp x).
    destruct (is_child cp x) eqn:Hc; simpl.
    + rewrite bool_decide_false by (by eapply Hz). rewrite IH by (done || lia). by rewrite orb_true_r.
    + rewrite IH by (done || lia). done.
Qed.

(** [wait] without children, or killed, returns -1. *)
Lemma wait_none kend s k cp x : ready s k → length (ps_proc s) = Z.to_nat NPROC →
  ps_cur s = Some cp → ps_proc s !! cp = Some x →
  (∀ j y, ps_proc s !! j = Some y → is_child cp y = true → p_state y ≠ ZOMBIE) →
  existsb (is_child cp) (ps_proc s) = false ∨ p_killed x ≠ 0 →
  wait cpu_id kend ptable_proc s = Ok (-1) (pt_back (pt_back s k) (popped (pushed k))).
Proof.
  intros R Hlen Hc Hx Hz Hn. unfold wait. mstep (curproc_ok s k cp R Hc).
  pose proof (ready_back s k R) as R'. mstep (acquire_pt_ok _ _ R'). unfold wait_turn, wait_scan.
  mstep (wait_from_none kend cp (pt_held (pt_back s k) (popped (pushed k))) (Z.to_nat NPROC) 0 false Hlen Hz).
  change (drop 0 ?l) with l. cbn [ps_proc pt_held pt_back set_sl orb].
  mstep (pptr_ok (pt_held (pt_back s k) (popped (pushed k))) cp x Hx).
  replace (negb _ || negb _) with true.
  - by mstep (release_pt_ok _ (pt_held (pt_back s k) (popped (pushed k))) _ R' eq_refl).
  - symmetry. destruct Hn as [-> |Hn]; [done|]. by rewrite (proj2 (Z.eqb_neq _ _) Hn), orb_true_r.
Qed.

(** [wait] with children none of which has exited sleeps on the address of the
    process, with the lock of the table still held: no child can exit between
    the scan and the sleep. *)
Lemma wait_blocks kend s k cp x : ready s k → c_ncli k = 0 → length (ps_proc s) = Z.to_nat NPROC →
  ps_cur s = Some cp → ps_proc s !! cp = Some x →
  (∀ j y, ps_proc s !! j = Some y → is_child cp y = true → p_state y ≠ ZOMBIE) →
  existsb (is_child cp) (ps_proc s) = true → p_killed x = 0 →
  ∃ s', wait cpu_id kend ptable_proc s = Blocked SWTCH s'
    ∧ ps_proc s' = <[cp := set_state SLEEPING (set_chan (paddr ptable_proc cp) x)]> (ps_proc s)
    ∧ lk (ps_sl s') = mkslock 1 (Some cpu_id).
Proof.
  intros R Hk Hlen Hc Hx Hz He Hkl. unfold wait. mstep (curproc_ok s k cp R Hc).
  pose proof (ready_back s k R) as R'. mstep (acquire_pt_ok _ _ R').
  assert (Hk' : c_ncli (popped (pushed k)) = 0) by (unfold popped, pushed; simpl; lia).
  set (k' := popped (pushed k)) in *. set (s1 := pt_held _ _). unfold wait_turn, wait_scan.
  mstep (wait_from_none kend cp s1 (Z.to_nat NPROC) 0 false Hlen Hz).
  change (drop 0 ?l) with l. cbn [orb]. change (ps_proc s1) with (ps_proc s). rewrite He.
  mstep (pptr_ok s1 cp x Hx). rewrite Hkl. cbn [negb orb Z.eqb]. unfold sleep. rewrite bind_assoc.
  mstep (myproc_locked _ s1 k' R' eq_refl). change (ps_cur s1) with (ps_cur s). rewrite Hc.
  rewrite bind_assoc, bind_ret_l, bind_assoc.
  mstep (pset_ok s1 cp x (set_chan (paddr ptable_proc cp)) Hx). set (s2 := set_procs _ s1).
  assert (Hlt : (cp < length (ps_proc s))%nat) by by eapply lookup_lt_Some.
  assert (Hx2 : ps_proc s2 !! cp = Some (set_chan (paddr ptable_proc cp) x)) by by apply list_lookup_insert_eq.
  rewrite bind_assoc. mstep (pset_ok s2 cp _ (set_state SLEEPING) Hx2). set (s3 := set_procs _ s2).
  assert (Hp3 : ps_proc s3 = <[cp := set_state SLEEPING (set_chan (paddr ptable_proc cp) x)]> (ps_proc s)).
  { unfold s3, s2. cbn [ps_proc set_procs]. apply list_insert_insert_eq. }
  exists s3. split; [|done]. unfold mbind, M_bind.
  rewrite (sched_ok _ s3 k' cp (set_state SLEEPING (set_chan (paddr ptable_proc cp) x)) R'); try done.
  rewrite Hp3. by apply list_lookup_insert_eq.
Qed.

(** ** exit *)

(** The table after the loop: every child has a new parent, and a parent that
    sleeps in [wait] is woken when it gets a child that has exited. *)
Definition zombie_child (cp : nat) (x : proc) : bool := is_child cp x && bool_decide (p_state x = ZOMBIE).
Definition adopt (cp : nat) (ini : option nat) (x : proc) : proc :=
  if is_child cp x then set_parent ini x else x.
Definition wake_if (b : bool) (chan : Z) (x : proc) : proc := if b then wakeup_one chan x else x.

Lemma wake_if_parent b chan x : p_parent (wake_if b chan x) = p_parent x.
Proof. unfold wake_if, wakeup_one. destruct b; [|done]. by destruct (_ && _). Qed.

Lemma wake_if_zombie b chan x : p_state (wake_if b chan x) = ZOMBIE ↔ p_state x = ZOMBIE.
Proof.
  unfold wake_if, wakeup_one. destruct b; [|done].
  case_bool_decide as E; [|done]. rewrite E. by destruct (_ =? _); simpl; rewrite ?E.
Qed.

Lemma wake_if_adopt b chan ini x : set_parent ini (wake_if b chan x) = wake_if b chan (set_parent ini x).
Proof. unfold wake_if, wakeup_one. destruct b; [|done]. simpl. by destruct (_ && _). Qed.

Lemma wake_twice b chan x : wakeup_one chan (wake_if b chan x) = wake_if true chan x.
Proof.
  unfold wake_if. destruct b; [|done]. unfold wakeup_one.
  destruct (bool_decide (p_state x = SLEEPING) && (p_chan x =? chan)) eqn:E; simpl; [done|]. by rewrite E.
Qed.

Definition adopted cp ini l (i : nat) : list proc :=
  wake_if (existsb (zombie_child cp) (take i l)) (paddr_opt ptable_proc ini)
    <$> ((adopt cp ini <$> take i l) ++ drop i l).

Lemma adopted_lookup cp ini l i x : l !! i = Some x →
  adopted cp ini l i !! i = Some (wake_if (existsb (zombie_child cp) (take i l)) (paddr_opt ptable_proc ini) x).
Proof.
  intros Hx. pose proof (lookup_lt_Some _ _ _ Hx). unfold adopted. rewrite list_lookup_fmap, lookup_app_r;
    rewrite length_fmap, length_take; [|lia].
  replace (_ - _)%nat with 0%nat by lia. by rewrite lookup_drop, Nat.add_0_r, Hx.
Qed.

Lemma adopted_S cp ini l i x : l !! i = Some x →
  adopted cp ini l (S i) =
    wake_if (existsb (zombie_child cp) (take i l) || zombie_child cp x) (paddr_opt ptable_proc ini)
      <$> <[i := adopt cp ini x]> ((adopt cp ini <$> take i l) ++ drop i l).
Proof.
  intros Hx. pose proof (lookup_lt_Some _ _ _ Hx). unfold adopted.
  rewrite (take_S_r _ _ _ Hx), existsb_app, fmap_app. simpl. rewrite orb_false_r. f_equal.
  rewrite (drop_S _ _ _ Hx), insert_app_r_alt; rewrite length_fmap, length_take; [|lia].
  replace (_ - _)%nat with 0%nat by lia. simpl. rewrite !fmap_app. simpl. by rewrite <- app_assoc.
Qed.

Lemma reparent_ok cp ini s i x : length (ps_proc s) = Z.to_nat NPROC → ps_proc s !! i = Some x →
  reparent ptable_proc cp ini (Z.of_nat i) (set_procs (adopted cp ini (ps_proc s) i) s)
  = Ok tt (set_procs (adopted cp ini (ps_proc s) (S i)) s).
Proof.
  intros Hlen Hx. set (b := existsb (zombie_child cp) (take i (ps_proc s))).
  set (ch := paddr_opt ptable_proc ini). pose proof (adopted_lookup cp ini _ i x Hx) as Hy. fold b ch in Hy.
  rewrite (adopted_S _ _ _ _ _ Hx). fold b ch. unfold reparent. rewrite Nat2Z.id.
  set (s1 := set_procs _ s). mstep (pptr_ok s1 i (wake_if b ch x) Hy).
  rewrite wake_if_parent, (bool_decide_ext _ _ (wake_if_zombie b ch x)).
  fold (is_child cp x). destruct (is_child cp x) eqn:Hc.
  - assert (adopt cp ini x = set_parent ini x) as -> by (unfold adopt; by rewrite Hc).
    assert (zombie_child cp x = bool_decide (p_state x = ZOMBIE)) as -> by (unfold zombie_child; by rewrite Hc).
    mstep (pset_ok s1 i (wake_if b ch x) (set_parent ini) Hy). rewrite wake_if_adopt.
    set (s2 := set_procs _ s1).
    assert (Hp2 : ps_proc s2 = wake_if b ch <$> <[i := set_parent ini x]>
      ((adopt cp ini <$> take i (ps_proc s)) ++ drop i (ps_proc s))) by (rewrite list_fmap_insert; done).
    case_bool_decide as Hz.
    + fold ch. rewrite wakeup1_ok.
      * rewrite Hp2, orb_true_r, <- list_fmap_compose. unfold s2, s1. rewrite !set_procs_procs.
        do 2 f_equal. apply list_fmap_ext. intros _ y _. apply wake_twice.
      * rewrite Hp2, length_fmap, length_insert, length_app, length_fmap, length_take, length_drop.
        rewrite Hlen. lia.
    + rewrite orb_false_r. unfold mret, M_ret. f_equal. by rewrite <- Hp2.
  - assert (adopt cp ini x = x) as -> by (unfold adopt; by rewrite Hc).
    assert (zombie_child cp x = false) as -> by (unfold zombie_child; by rewrite Hc).
    rewrite orb_false_r. unfold mret, M_ret. f_equal. unfold s1, adopted. fold b ch. f_equal. f_equal.
    symmetry. apply list_insert_id. pose proof (lookup_lt_Some _ _ _ Hx).
    rewrite lookup_app_r; rewrite length_fmap, length_take; [|lia].
    replace (_ - _)%nat with 0%nat by lia. by rewrite lookup_drop, Nat.add_0_r.
Qed.

Lemma reparent_loop cp ini s : length (ps_proc s) = Z.to_nat NPROC →
  for_each (Z.to_nat NPROC) 0 (reparent ptable_proc cp ini) s
  = Ok tt (set_procs (adopted cp ini (ps_proc s) (Z.to_nat NPROC)) s).
Proof.
  intros Hlen. destruct (for_each_inv (λ i s1, s1 = set_procs (adopted cp ini (ps_proc s) (Z.to_nat i)) s)
    (reparent ptable_proc cp ini) (Z.to_nat NPROC) 0 s) as (s' & E & ->); [| |done].
  - unfold adopted. simpl. unfold wake_if. rewrite list_fmap_id. by destruct s.
  - intros i s1 Hi ->. destruct (lookup_lt_is_Some_2 (ps_proc s) (Z.to_nat i)) as [x Hx]; [lia|].
    eexists. split; [|done]. replace (Z.to_nat (i + 1)) with (S (Z.to_nat i)) by lia.
    rewrite <- (reparent_ok cp ini s _ x Hlen Hx). by rewrite Z2Nat.id by lia.
Qed.

(** What a process of the table becomes when [cp] exits. *)
Definition after_exit (cp : nat) (ini par : option nat) (b : bool) (x : proc) : proc :=
  wake_if b (paddr_opt ptable_proc ini) (adopt cp ini (wakeup_one (paddr_opt ptable_proc par) x)).

Lemma zombie_child_wake cp chan l :
  existsb (zombie_child cp) (wakeup_one chan <$> l) = existsb (zombie_child cp) l.
Proof.
  induction l as [|x l IH]; [done|]. rewrite fmap_cons. cbn [existsb]. rewrite IH. f_equal. unfold zombie_child, is_child.
  pose proof (wake_if_parent true chan x) as Hp. pose proof (wake_if_zombie true chan x) as Hz.
  unfold wake_if in Hp, Hz. by rewrite Hp, (bool_decide_ext _ _ Hz).
Qed.

Lemma exit_table_runs s k cp ini x : ready s k → c_ncli k = 0 → length (ps_proc s) = Z.to_nat NPROC →
  ps_cur s = Some cp → ps_proc s !! cp = Some x →
  let b := existsb (zombie_child cp) (ps_proc s) in
  ∃ s', exit_table cpu_id ptable_proc cp ini s = Blocked SWTCH s'
    ∧ ps_proc s' = <[cp := set_state ZOMBIE (after_exit cp ini (p_parent x) b x)]>
        (after_exit cp ini (p_parent x) b <$> ps_proc s)
    ∧ lk (ps_sl s') = mkslock 1 (Some cpu_id).
Proof.
  intros R Hk Hlen Hc Hx b. assert (Hlt : (cp < length (ps_proc s))%nat) by by eapply lookup_lt_Some.
  unfold exit_table. mstep (acquire_pt_ok s k R). set (s1 := pt_held s k). mstep (pptr_ok s1 cp x Hx).
  mstep (wakeup1_ok s1 (paddr_opt ptable_proc (p_parent x)) Hlen). set (s2 := set_procs _ s1).
  assert (Hl2 : length (ps_proc s2) = Z.to_nat NPROC) by (unfold s2; cbn [ps_proc set_procs]; by rewrite length_fmap).
  mstep (reparent_loop cp ini s2 Hl2). set (s3 := set_procs _ s2).
  assert (Hb : existsb (zombie_child cp) (ps_proc s2) = b) by apply zombie_child_wake.
  assert (Hp3 : ps_proc s3 = after_exit cp ini (p_parent x) b <$> ps_proc s).
  { unfold s3, adopted. cbn [ps_proc set_procs]. rewrite !take_ge, drop_ge by lia. rewrite Hb.
    rewrite app_nil_r. unfold s2. cbn [ps_proc set_procs]. by rewrite <- !list_fmap_compose. }
  assert (Hx3 : ps_proc s3 !! cp = Some (after_exit cp ini (p_parent x) b x)).
  { rewrite Hp3, list_lookup_fmap, Hx. done. }
  mstep (pset_ok s3 cp _ (set_state ZOMBIE) Hx3). set (s4 := set_procs _ s3).
  exists s4. split; [|split; [|done]].
  - apply (sched_ok s s4 k cp (set_state ZOMBIE (after_exit cp ini (p_parent x) b x)) R); try done.
    apply list_lookup_insert_eq. by rewrite Hp3, length_fmap.
  - unfold s4. cbn [ps_proc set_procs]. by rewrite Hp3.
Qed.

Lemma wakeup_one_parent chan x : p_parent (wakeup_one chan x) = p_parent x.
Proof. apply (wake_if_parent true). Qed.

Lemma wakeup_one_state chan x : p_state (wakeup_one chan x) = p_state x
  ∨ (p_state x = SLEEPING ∧ p_state (wakeup_one chan x) = RUNNABLE).
Proof. unfold wakeup_one. case_bool_decide; simpl; [|by left]. destruct (_ =? _); simpl; auto. Qed.

(** A process that the exit of [cp] wakes: one that sleeps on the address of
    the parent of [cp], and one that sleeps on the address of init when init
    gets a child that has exited already. *)
Definition woken (l : list proc) (cp : nat) (ini par : option nat) (y : proc) : Prop :=
  p_state y = SLEEPING ∧
  (p_chan y = paddr_opt ptable_proc par ∨
   p_chan y = paddr_opt ptable_proc ini ∧ ∃ z, z ∈ l ∧ p_parent z = Some cp ∧ p_state z = ZOMBIE).
Definition new_parent (cp : nat) (ini : option nat) (y : proc) : option nat :=
  if bool_decide (p_parent y = Some cp) then ini else p_parent y.

Lemma existsb_zombie cp l : existsb (zombie_child cp) l = true ↔
  ∃ z, z ∈ l ∧ p_parent z = Some cp ∧ p_state z = ZOMBIE.
Proof.
  rewrite existsb_exists. split; intros (z & Hz & H); exists z.
  - rewrite <- list_elem_of_In in Hz. unfold zombie_child, is_child in H.
    apply andb_true_iff in H as [H1 H2]. by apply bool_decide_eq_true in H1, H2.
  - rewrite <- list_elem_of_In. unfold zombie_child, is_child. by rewrite !bool_decide_true by apply H.
Qed.

Lemma after_exit_set cp ini par b x : ∃ st, after_exit cp ini par b x = set_state st (set_parent (new_parent cp ini x) x) ∧
  st = (if bool_decide (p_state x = SLEEPING) &&
     ((p_chan x =? paddr_opt ptable_proc par) || (b && (p_chan x =? paddr_opt ptable_proc ini)))
   then RUNNABLE else p_state x).
Proof.
  eexists. split; [|reflexivity]. unfold after_exit, wake_if, adopt, wakeup_one, is_child, new_parent.
  destruct x as [sz pd ks st pid par' tf cx ch ki fs cw nm]; simpl.
  destruct (bool_decide (st = SLEEPING)) eqn:Es, (ch =? paddr_opt ptable_proc par) eqn:Ep,
    (ch =? paddr_opt ptable_proc ini) eqn:Ei, b, (bool_decide (par' = Some cp)) eqn:Ec; simpl;
    rewrite ?Es, ?Ep, ?Ei, ?Ec; simpl; rewrite ?Ec, ?Es, ?Ei; try done.
Qed.

Lemma after_exit_woken l cp ini par x : ∃ st,
  after_exit cp ini par (existsb (zombie_child cp) l) x = set_state st (set_parent (new_parent cp ini x) x) ∧
  (woken l cp ini par x → st = RUNNABLE) ∧ (¬ woken l cp ini par x → st = p_state x).
Proof.
  destruct (after_exit_set cp ini par (existsb (zombie_child cp) l) x) as (st & E & Hst).
  exists st. split; [done|]. unfold woken. rewrite <- existsb_zombie. rewrite Hst.
  case_bool_decide; simpl; [|naive_solver].
  destruct (Z.eqb_spec (p_chan x) (paddr_opt ptable_proc par)); simpl; [naive_solver|].
  destruct (existsb (zombie_child cp) l); simpl; [|naive_solver].
  destruct (Z.eqb_spec (p_chan x) (paddr_opt ptable_proc ini)); naive_solver.
Qed.
End proc_lemmas.

(** ** The theorems *)

Section proc_theorems.
Context {T : Type} `{!TxOps T}.
Context (cpu_id : nat) (ptable_proc : Z).
Implicit Types (s : pstate (T := T)).

(** [wakeup] makes runnable exactly the processes that sleep on the
    channel, changes nothing else in the table, and gives the lock back. *)
Theorem wakeup_correct s k chan : ready cpu_id s k → length (ps_proc s) = Z.to_nat NPROC →
  ∃ s', wakeup cpu_id chan s = Ok tt s' ∧ lk (ps_sl s') = initlock ∧
    ∀ i p, ps_proc s !! i = Some p →
      ps_proc s' !! i = Some (if bool_decide (p_state p = SLEEPING ∧ p_chan p = chan)
                              then set_state RUNNABLE p else p).
Proof.
  intros R Hlen. eexists. split; [by apply wakeup_ok|]. split; [done|].
  intros i p Hp. simpl. rewrite list_lookup_fmap, Hp. simpl. unfold wakeup_one. do 2 f_equal.
  do 2 case_bool_decide; simpl; try done; try tauto; destruct (Z.eqb_spec (p_chan p) chan); tauto || done.
Qed.

(** [kill] marks the first process with the pid as killed and wakes it if
    it sleeps, and returns 0; without such a process it returns -1.  No other
    process changes. *)
Theorem kill_correct s k pid : ready cpu_id s k → length (ps_proc s) = Z.to_nat NPROC →
  ∃ r s', kill cpu_id pid s = Ok r s' ∧ lk (ps_sl s') = initlock ∧
    ((r = 0 ∧ ∃ j x, ps_proc s !! j = Some x ∧ p_pid x = pid ∧
        ps_proc s' = <[j := if bool_decide (p_state x = SLEEPING)
                            then set_state RUNNABLE (set_killed 1 x) else set_killed 1 x]> (ps_proc s))
     ∨ (r = -1 ∧ ps_proc s' = ps_proc s ∧ ∀ j x, ps_proc s !! j = Some x → p_pid x ≠ pid)).
Proof.
  intros R Hlen. rewrite (kill_ok cpu_id s k pid R Hlen).
  destruct (list_find (λ x, p_pid x = pid) (ps_proc s)) as [[j x]|] eqn:E.
  - apply list_find_Some in E as (Hj & Hp & _). do 2 eexists. split; [done|]. split; [done|].
    left. split; [done|]. exists j, x. split_and!; done.
  - apply list_find_None in E. do 2 eexists. split; [done|]. split; [done|]. right. split_and!; [done..|].
    intros j x Hj. rewrite Forall_lookup in E. by eapply E.
Qed.

(** Pids are unique.  With a free slot and a free page [allocproc] makes
    the slot an embryo with a pid that no process has, and the pids in use
    stay positive, below [nextpid] and pairwise different. *)
Theorem allocproc_correct fk tr s k r (fl : list Z) p :
  ready cpu_id s k → length (ps_proc s) = Z.to_nat NPROC →
  find_unused (ps_proc s) 0 = Some p → kinv (fd_mem (ps_fd s)) (r :: fl) → r mod 4096 = 0 →
  pids_ok (ps_proc s) (ps_nextpid s) → 0 < ps_nextpid s < 2147483647 →
  ∃ s' x, allocproc cpu_id fk tr s = Ok (Some p) s' ∧ ps_proc s' = <[p := x]> (ps_proc s)
    ∧ p_state x = EMBRYO ∧ p_kstack x = r ∧ pids_ok (ps_proc s') (ps_nextpid s')
    ∧ (∀ i y, ps_proc s !! i = Some y → p_state y ≠ UNUSED → p_pid y ≠ p_pid x)
    ∧ kinv (fd_mem (ps_fd s')) fl.
Proof.
  intros R Hlen Hf HI Hal Hpids Hn.
  destruct (allocproc_ok cpu_id fk tr s k r fl p R Hlen Hf HI Hal)
    as (s' & x & E & Hp & Hst & Hpid & Hk & Hnp & HI' & _ & _).
  exists s', x. destruct (find_unused_Some _ _ _ Hf) as (_ & y & Hy & _).
  apply lookup_lt_Some in Hy. split_and!; try done.
  - rewrite Hp, Hnp. apply pids_fresh; try done. lia.
  - intros i z Hz Hs. destruct Hpids as [Hb _]. specialize (Hb i z Hz Hs). lia.
Qed.

(** C36: the last part of [exit], run by a process other than init: it ends in
    the scheduler, with the lock of the table held.  The process is a zombie;
    every child of it has init as its parent and every other process keeps its
    parent; exactly the processes that sleep on the parent of the process, and
    init if it sleeps in [wait] and one of the children had exited, are made
    runnable; nothing else of any process changes. *)
Theorem exit_correct s k cp ini x : ready cpu_id s k → c_ncli k = 0 →
  length (ps_proc s) = Z.to_nat NPROC → ps_cur s = Some cp → ps_proc s !! cp = Some x →
  ∃ s', exit_table cpu_id ptable_proc cp ini s = Blocked SWTCH s' ∧
    lk (ps_sl s') = mkslock 1 (Some cpu_id) ∧
    length (ps_proc s') = length (ps_proc s) ∧
    ∀ i y, ps_proc s !! i = Some y → ∃ st,
      ps_proc s' !! i = Some (set_state st (set_parent (new_parent cp ini y) y)) ∧
      (i = cp → st = ZOMBIE) ∧
      (i ≠ cp → woken ptable_proc (ps_proc s) cp ini (p_parent x) y → st = RUNNABLE) ∧
      (i ≠ cp → ¬ woken ptable_proc (ps_proc s) cp ini (p_parent x) y → st = p_state y).
Proof.
  intros R Hk Hlen Hc Hx.
  destruct (exit_table_runs cpu_id ptable_proc s k cp ini x R Hk Hlen Hc Hx) as (s' & E & Hp & Hl).
  exists s'. split_and!; [done|done|by rewrite Hp, length_insert, length_fmap|].
  intros i y Hy. rewrite Hp. pose proof (lookup_lt_Some _ _ _ Hy).
  destruct (after_exit_woken ptable_proc (ps_proc s) cp ini (p_parent x) y) as (st & Ey & Hw & Hn).
  destruct (decide (cp = i)) as [<-|Hne].
  - rewrite list_lookup_insert_eq by (by rewrite length_fmap). rewrite Hx in Hy. injection Hy as <-.
    rewrite Ey. by exists ZOMBIE.
  - rewrite list_lookup_insert_ne, list_lookup_fmap, Hy by done. simpl. rewrite Ey.
    exists st. split_and!; naive_solver.
Qed.

(** [wait] of a process none of whose children has exited.  With children
    and not killed, it goes to sleep on its own address while it still holds
    the lock of the table, so that no exit can slip in between; without
    children, or killed, it returns -1 and changes no process. *)
Theorem wait_correct kend s k cp x : ready cpu_id s k → c_ncli k = 0 →
  length (ps_proc s) = Z.to_nat NPROC → ps_cur s = Some cp → ps_proc s !! cp = Some x →
  (∀ j y, ps_proc s !! j = Some y → is_child cp y = true → p_state y ≠ ZOMBIE) →
  if existsb (is_child cp) (ps_proc s) && (p_killed x =? 0) then
    ∃ s', wait cpu_id kend ptable_proc s = Blocked SWTCH s'
      ∧ ps_proc s' = <[cp := set_state SLEEPING (set_chan (paddr ptable_proc cp) x)]> (ps_proc s)
      ∧ lk (ps_sl s') = mkslock 1 (Some cpu_id)
  else ∃ s', wait cpu_id kend ptable_proc s = Ok (-1) s' ∧ ps_proc s' = ps_proc s ∧ lk (ps_sl s') = initlock.
Proof.
  intros R Hk Hlen Hc Hx Hz. destruct (existsb _ _ && _) eqn:E.
  - apply andb_true_iff in E as [E1 E2]. apply Z.eqb_eq in E2. by eapply wait_blocks.
  - apply andb_false_iff in E.
    assert (Hn : existsb (is_child cp) (ps_proc s) = false ∨ p_killed x ≠ 0).
    { destruct E as [E|E]; [by left|right]. by apply Z.eqb_neq. }
    eexists. split; [by apply (wait_none cpu_id ptable_proc kend s k cp x)|done].
Qed.

(** The pid of an unused slot is 0, so [kill] of pid 0 finds one, returns
    0 and marks the slot; [allocproc] does not clear the mark, and the next
    process in that slot starts its life killed. *)
Theorem kill_zero fk tr s k r (fl : list Z) p x :
  ready cpu_id s k → length (ps_proc s) = Z.to_nat NPROC →
  list_find (λ y, p_pid y = 0) (ps_proc s) = Some (p, x) → p_state x = UNUSED →
  find_unused (ps_proc s) 0 = Some p → kinv (fd_mem (ps_fd s)) (r :: fl) → r mod 4096 = 0 →
  ∃ s1 s2 y, kill cpu_id 0 s = Ok 0 s1 ∧ allocproc cpu_id fk tr s1 = Ok (Some p) s2 ∧
    ps_proc s2 !! p = Some y ∧ p_killed y = 1.
Proof.
  intros R Hlen Hf Hst Hfu HI Hal. pose proof (kill_ok cpu_id s k 0 R Hlen) as E. rewrite Hf in E.
  set (s1 := set_procs _ _) in E. assert (Hk1 : kill_one x = set_killed 1 x) by (unfold kill_one; by rewrite Hst).
  apply list_find_Some in Hf as (Hp & _ & _). assert (Hlt := lookup_lt_Some _ _ _ Hp).
  assert (Hu : find_unused (ps_proc s1) 0 = Some p).
  { unfold s1. cbn [ps_proc set_procs]. rewrite Hk1. by apply find_unused_insert with x. }
  destruct (allocproc_ok cpu_id fk tr s1 (popped (pushed k)) r fl p) as (s2 & y & E2 & Hl & _ & _ & _ & _ & _ & _ & Hky).
  - destruct (ready_back cpu_id s k R). by split.
  - unfold s1. cbn [ps_proc set_procs]. by rewrite length_insert.
  - done.
  - done.
  - done.
  - exists s1, s2, y. split_and!; [done|done| |].
    + rewrite Hl. apply list_lookup_insert_eq. unfold s1. cbn [ps_proc set_procs]. by rewrite length_insert.
    + unfold s1 in Hky. cbn [ps_proc set_procs] in Hky.
      rewrite list_lookup_insert_eq, Hk1 in Hky by done. by injection Hky as <-.
Qed.
End proc_theorems.

(** ** A small system *)

(** A log that is not used by these functions. *)
#[local] Instance no_log : TxOps unit :=
  @Build_TxOps unit (λ _ _, undef) (λ _, undef) (λ _, undef) (λ _ _, undef) (λ _, undef) undef undef.

Definition cpu_on : cpu := mkcpu true 0 true.
Definition table_at : Z := 0x80112d54.
(** Slot 0 is init, asleep in [wait]; slot 1 a shell that runs; the rest is free. *)
Definition p_init : proc :=
  set_chan (paddr table_at 0) (set_state SLEEPING (set_pid 1 (set_psz 8192 (set_pgdir page2 proc0)))).
Definition p_shell : proc :=
  set_parent (Some 0%nat) (set_state RUNNING (set_pid 2 (set_psz 4096 (set_pgdir page2 proc0)))).
Definition procs64 : list proc := [p_init; p_shell] ++ replicate 62 proc0.
Definition sb_none : superblock :=
  {| sb_size := 0; sb_nblocks := 0; sb_ninodes := 0; sb_nlog := 0;
     sb_logstart := 0; sb_inodestart := 0; sb_bmapstart := 0 |}.
Definition sys64 (cur : option nat) : pstate (T := unit) :=
  mkps (mksls [cpu_on] initlock) cur procs64 3 (Some 0%nat) false 0 0 (mktss 0 0 0 0)
    (mkfd false [] ∅ [] vm3 (mkfs sb_none false [] tt)) 0 false.

Lemma sys64_ready cur : ready 0 (sys64 cur) cpu_on.
Proof. by split. Qed.

Lemma procs64_lookup i x : procs64 !! i = Some x →
  (i = 0%nat ∧ x = p_init) ∨ (i = 1%nat ∧ x = p_shell) ∨ ((2 ≤ i)%nat ∧ x = proc0).
Proof.
  destruct i as [|[|i]]; [intros [= <-]; auto..|].
  intros H. change (replicate 62 proc0 !! i = Some x) in H. apply lookup_replicate in H as [-> _]. right. right. split; [lia|done].
Qed.

Lemma sys64_pids : pids_ok procs64 3.
Proof.
  split.
  - intros i x Hi Hs. destruct (procs64_lookup i x Hi) as [[_ ->]|[[_ ->]|[_ ->]]]; simpl in *; (lia || done).
  - intros i j x y Hi Hj Hx Hy.
    destruct (procs64_lookup i x Hi) as [[-> ->]|[[-> ->]|[_ ->]]]; try done;
      destruct (procs64_lookup j y Hj) as [[-> ->]|[[-> ->]|[_ ->]]]; done.
Qed.

Lemma wakeup_correct_witness :
  ∃ s', wakeup 0 (paddr table_at 0) (sys64 None) = Ok tt s' ∧
    ps_proc s' !! 0%nat = Some (set_state RUNNABLE p_init).
Proof.
  destruct (wakeup_correct 0 (sys64 None) cpu_on (paddr table_at 0) (sys64_ready None)) as (s' & E & _ & H).
  - reflexivity.
  - exists s'. split; [exact E|]. exact (H 0%nat p_init eq_refl).
Defined.

Lemma kill_correct_witness : ∃ r s', kill 0 2 (sys64 None) = Ok r s' ∧ (r = 0 ∨ r = -1).
Proof.
  destruct (kill_correct 0 (sys64 None) cpu_on 2 (sys64_ready None)) as (r & s' & E & _ & H).
  - reflexivity.
  - exists r, s'. split; [exact E|]. destruct H as [[H _]|[H _]]; auto.
Defined.

Lemma allocproc_correct_witness :
  ∃ s' x, allocproc 0 0x80103a00 0x80105b00 (sys64 None) = Ok (Some 2%nat) s' ∧
    ps_proc s' = <[2%nat := x]> procs64 ∧ p_state x = EMBRYO ∧ pids_ok (ps_proc s') (ps_nextpid s').
Proof.
  destruct (allocproc_correct 0 0x80103a00 0x80105b00 (sys64 None) cpu_on page1 [] 2 (sys64_ready None))
    as (s' & x & E & Hp & Hs & _ & Hi & _).
  - reflexivity.
  - reflexivity.
  - apply (pw_inv _ _ _ _ vm3_wf).
  - reflexivity.
  - exact sys64_pids.
  - done.
  - exists s', x. split; [exact E|]. split; [exact Hp|]. split; [exact Hs|exact Hi].
Defined.

(** Init and a shell sleep in [wait]; the child of the shell exits and leaves
    a child that has exited before it. *)
Definition family : list proc :=
  [p_init; set_chan (paddr table_at 1) (set_state SLEEPING p_shell);
   set_parent (Some 1%nat) (set_pid 3 p_shell);
   set_state ZOMBIE (set_parent (Some 2%nat) (set_pid 4 p_shell))] ++ replicate 60 proc0.

Lemma exit_correct_witness :
  ∃ s' y0 y1 y3, exit_table 0 table_at 2 (Some 0%nat) (set_procs family (sys64 (Some 2%nat))) = Blocked SWTCH s' ∧
    ps_proc s' !! 0%nat = Some y0 ∧ p_state y0 = RUNNABLE ∧
    ps_proc s' !! 1%nat = Some y1 ∧ p_state y1 = RUNNABLE ∧
    ps_proc s' !! 3%nat = Some y3 ∧ p_state y3 = ZOMBIE ∧ p_parent y3 = Some 0%nat.
Proof.
  set (s := set_procs family (sys64 (Some 2%nat))).
  assert (Hr : ready 0 s cpu_on) by (by split).
  destruct (exit_correct 0 table_at s cpu_on 2 (Some 0%nat) (set_parent (Some 1%nat) (set_pid 3 p_shell)) Hr)
    as (s' & E & _ & _ & H); try reflexivity.
  destruct (H 0%nat p_init) as (st0 & E0 & _ & H0 & _); [reflexivity|].
  destruct (H 1%nat (set_chan (paddr table_at 1) (set_state SLEEPING p_shell))) as (st1 & E1 & _ & H1 & _); [reflexivity|].
  destruct (H 3%nat (set_state ZOMBIE (set_parent (Some 2%nat) (set_pid 4 p_shell)))) as (st3 & E3 & _ & _ & H3); [reflexivity|].
  rewrite H0 in E0; [|done|].
  - rewrite H1 in E1; [|done|by split; [|left]]. rewrite H3 in E3; [|done|by intros [? _]].
    exists s'. do 3 eexists. split; [exact E|].
    split; [exact E0|]. split; [reflexivity|]. split; [exact E1|]. split; [reflexivity|].
    split; [exact E3|]. split; reflexivity.
  - split; [done|right]. split; [done|].
    exists (set_state ZOMBIE (set_parent (Some 2%nat) (set_pid 4 p_shell))). split; [|split; reflexivity].
    apply list_elem_of_lookup. exists 3%nat. reflexivity.
Defined.

Lemma wait_correct_witness :
  ∃ s', wait 0 end0 table_at (sys64 (Some 0%nat)) = Blocked SWTCH s' ∧
    lk (ps_sl s') = mkslock 1 (Some 0%nat).
Proof.
  destruct (wait_correct 0 table_at end0 (sys64 (Some 0%nat)) cpu_on 0 p_init (sys64_ready _))
    as (s' & E & _ & H); try reflexivity.
  - intros j y Hy. destruct (procs64_lookup j y Hy) as [[_ ->]|[[_ ->]|[_ ->]]]; done.
  - exists s'. split; [exact E|exact H].
Defined.

Lemma kill_zero_witness :
  ∃ s1 s2 y, kill 0 0 (sys64 None) = Ok 0 s1 ∧
    allocproc 0 0x80103a00 0x80105b00 s1 = Ok (Some 2%nat) s2 ∧
    ps_proc s2 !! 2%nat = Some y ∧ p_killed y = 1.
Proof.
  apply (kill_zero 0 0x80103a00 0x80105b00 (sys64 None) cpu_on page1 [] 2 proc0 (sys64_ready None));
    try reflexivity.
  apply (pw_inv _ _ _ _ vm3_wf).
Defined.
