(* ===== verification/ProcFork.v ===== *)
(** * fork and wait: the memory of a second process

    [fork] of proc.c over the address spaces of VmUser.v: the child has a copy
    of the memory, shares the open files and the directory, and returns 0; when
    memory runs out the slot and all pages are given back ([fork_correct]).
    [wait] of a child that has exited gives back its stack, its page tables and
    its memory ([wait_reaps]), so that a [fork] and the [wait] for its child
    leave the same pages free ([fork_wait]).  [growproc_correct]: growing and
    shrinking the memory, with every case in which it is refused. *)

From S2P Require Import Prelude Params Strings Sleeplock Spinlock BlockDev Tx Fs Kalloc Vm VmSpace VmKernel VmUser File Proc.

Lemma safestrcpy_some t n : 0 < n → n ≤ Z.of_nat (length t) → is_Some (safestrcpy t n).
Proof.
  intros Hn Hl. unfold safestrcpy. rewrite (proj2 (Z.leb_gt _ _)) by lia.
  assert (H : ∀ k t, (k < length t)%nat → is_Some (safestrcpy_loop t k)); [|apply H; lia].
  clear. induction k as [|k IH]; intros t Hl; [by eexists|]. destruct t as [|c t]; [simpl in Hl; lia|]. simpl in Hl. cbn [safestrcpy_loop].
  destruct (c =? 0); [by eexists|]. destruct (IH t ltac:(lia)) as [l ->]. by eexists.
Qed.

Section fork.
Context {T : Type} `{!TxOps T}.
Context (cpu_id : nat) (kend vdata fk tr : Z).
Implicit Types (s : pstate (T := T)) (fd : fdstate (T := T)).

(** ** One slot of the table and the rest of the kernel *)

Definition st s (p : nat) (y : proc) fd : pstate := set_procs (<[p := y]> (ps_proc s)) (set_fd fd s).

Section slot.
Context (s : pstate (T := T)) (p : nat).
Hypothesis Hp : (p < length (ps_proc s))%nat.

Lemma st_pptr y fd : pptr p (st s p y fd) = Ok y (st s p y fd).
Proof. apply pptr_ok. by apply list_lookup_insert_eq. Qed.

Lemma st_other q x y fd : q ≠ p → ps_proc s !! q = Some x → pptr q (st s p y fd) = Ok x (st s p y fd).
Proof. intros Hq Hx. apply pptr_ok. cbn [st ps_proc set_procs]. by rewrite list_lookup_insert_ne. Qed.

Lemma st_pset f y fd : pset p f (st s p y fd) = Ok tt (st s p (f y) fd).
Proof.
  rewrite (pset_ok _ p y) by (by apply list_lookup_insert_eq). unfold st. cbn [ps_proc set_procs set_fd]. by rewrite list_insert_insert_eq.
Qed.

Lemma st_fd {A} (m : M fdstate A) y fd a fd' : m fd = Ok a fd' → on_fd m (st s p y fd) = Ok a (st s p y fd').
Proof. intros E. unfold on_fd. by rewrite (zoom_ok _ _ _ (st s p y fd) fd a fd' eq_refl E). Qed.

Lemma st_kmem {A} (m : M kstate A) y fd a x : m (fd_mem fd) = Ok a x → on_kmem m (st s p y fd) = Ok a (st s p y (set_fd_mem x fd)).
Proof. intros E. apply st_fd. by apply (zoom_ok _ _ _ fd (fd_mem fd)). Qed.

Lemma st_inodes {A} (m : M fsstate A) y fd a x : m (fd_fs fd) = Ok a x → on_inodes m (st s p y fd) = Ok a (st s p y (set_fd_fs x fd)).
Proof. intros E. apply st_fd. by apply (zoom_ok _ _ _ fd (fd_fs fd)). Qed.
End slot.

(** ** The open files *)

Lemma filedup_ok fd f F : ft_lock fd = false → ftable fd !! f = Some F → 1 ≤ f_ref F →
  filedup f fd = Ok f (set_ftable (<[f := set_fref (f_ref F + 1) F]> (ftable fd)) fd).
Proof.
  intros Hl Hf Hr. destruct fd as [lk ft pi wk km fs]. cbn in Hl, Hf. subst lk. unfold filedup, fset, fptr.
  unfold acquire_ftable, release_ftable, acquire, release, get, modify, mbind, M_bind. cbn. rewrite Hf. cbn.
  rewrite (proj2 (Z.ltb_ge _ _) Hr). cbn. by rewrite Hf.
Qed.

(** The references to file [f] in a list of descriptors. *)
Definition nrefs (f : nat) (l : list (option nat)) : Z := Z.of_nat (length (filter (λ o, o = Some f) l)).
(** The file table after the descriptors [l] have been duplicated. *)
Definition dups (l : list (option nat)) (ft : list file) : list file := imap (λ f F, set_fref (f_ref F + nrefs f l) F) ft.

Lemma set_fref_same F : set_fref (f_ref F) F = F.
Proof. by destruct F. Qed.

Lemma dups_nil ft : dups [] ft = ft.
Proof.
  apply list_eq. intros i. unfold dups. rewrite list_lookup_imap. destruct (ft !! i) as [F|]; [|done]. cbn. by rewrite Z.add_0_r, set_fref_same.
Qed.

Lemma nrefs_app f l l' : nrefs f (l ++ l') = nrefs f l + nrefs f l'.
Proof. unfold nrefs. rewrite filter_app, length_app. lia. Qed.

Lemma dups_none l ft : dups (l ++ [None]) ft = dups l ft.
Proof. unfold dups. apply imap_ext. intros i F _. by rewrite nrefs_app, Z.add_0_r. Qed.

Lemma dups_some l ft f F : ft !! f = Some F →
  dups (l ++ [Some f]) ft = <[f := set_fref (f_ref F + nrefs f l + 1) F]> (dups l ft).
Proof.
  intros HF. apply list_eq. intros i. unfold dups. destruct (decide (i = f)) as [->|Hne].
  - rewrite list_lookup_insert_eq by (rewrite length_imap; by eapply lookup_lt_Some). rewrite list_lookup_imap, HF. cbn [fmap option_fmap option_map].
    rewrite nrefs_app. unfold nrefs at 2. rewrite filter_cons_True by done. do 2 f_equal. simpl. lia.
  - rewrite list_lookup_insert_ne by done. rewrite !list_lookup_imap. destruct (ft !! i) as [G|]; [|done]. cbn [fmap option_fmap option_map].
    rewrite nrefs_app. unfold nrefs at 2. rewrite filter_cons_False by congruence. do 2 f_equal. simpl. lia.
Qed.

Lemma nrefs_nonneg f l : 0 ≤ nrefs f l.
Proof. unfold nrefs. lia. Qed.

(** The files that a process has open are in the table and have references. *)
Definition files_ok (l : list (option nat)) (ft : list file) : Prop :=
  ∀ i f, l !! i = Some (Some f) → ∃ F, ft !! f = Some F ∧ 1 ≤ f_ref F.

(** The loop over the descriptors of [fork]. *)
Lemma dup_files s p cp x y fd : (p < length (ps_proc s))%nat → cp ≠ p → ps_proc s !! cp = Some x → ft_lock fd = false →
  length (p_ofile x) = Z.to_nat NOFILE → p_ofile y = replicate (Z.to_nat NOFILE) None → files_ok (p_ofile x) (ftable fd) →
  for_each (Z.to_nat NOFILE) 0 (λ i,
    x ← pptr cp;
    f ← lift_opt (p_ofile x !! Z.to_nat i);
    match f with
    | None => mret tt
    | Some f => g ← on_fd (filedup f); pset p (λ y, set_ofile (<[Z.to_nat i := Some g]> (p_ofile y)) y)
    end) (st s p y fd) = Ok tt (st s p (set_ofile (p_ofile x) y) (set_ftable (dups (p_ofile x) (ftable fd)) fd)).
Proof.
  intros Hp Hne Hx Hl Hlx Hly Hok. set (n := Z.to_nat NOFILE) in *.
  pose (now := λ i, take i (p_ofile x) ++ replicate (n - i) None).
  pose (at_ := λ i, st s p (set_ofile (now i) y) (set_ftable (dups (take i (p_ofile x)) (ftable fd)) fd)).
  match goal with |- for_each _ _ ?b _ = _ => destruct (for_each_inv (λ i s1, s1 = at_ (Z.to_nat i)) b n 0 (st s p y fd)) as (s' & E & ->) end.
  - unfold at_, now. change (Z.to_nat 0) with 0%nat. rewrite take_0, dups_nil, Nat.sub_0_r. rewrite app_nil_l, <- Hly. destruct y, fd. done.
  - intros i s1 Hi ->. set (j := Z.to_nat i). assert (Hj : (j < n)%nat) by (unfold j; lia).
    destruct (lookup_lt_is_Some_2 (p_ofile x) j) as [o Ho]; [lia|]. unfold at_ at 1. mstep (st_other s p cp x (set_ofile (now j) y) (set_ftable (dups (take j (p_ofile x)) (ftable fd)) fd) Hne Hx).
    rewrite Ho. cbn [lift_opt]. rewrite bind_ret_l. replace (Z.to_nat (i + 1)) with (S j) by lia.
    assert (Hnow : now (S j) = <[j := o]> (now j)).
    { unfold now. rewrite (take_S_r _ _ _ Ho), <- app_assoc. replace (n - j)%nat with (S (n - S j)) by lia. simpl replicate.
      rewrite insert_app_r_alt; rewrite length_take; [|lia]. replace (j - j `min` length (p_ofile x))%nat with 0%nat by lia. done. }
    destruct o as [f|].
    + destruct (Hok j f Ho) as (F & HF & Hr). pose proof (nrefs_nonneg f (take j (p_ofile x))) as Hnn.
      set (fdj := set_ftable (dups (take j (p_ofile x)) (ftable fd)) fd).
      assert (E1 : filedup f fdj = Ok f (set_ftable (dups (take (S j) (p_ofile x)) (ftable fd)) fd)).
      { rewrite (filedup_ok fdj f (set_fref (f_ref F + nrefs f (take j (p_ofile x))) F)); [|done| |cbn; lia].
        - rewrite (take_S_r _ _ _ Ho), (dups_some _ _ _ F HF). done.
        - cbn [fdj set_ftable ftable]. unfold dups. by rewrite list_lookup_imap, HF. }
      mstep (st_fd s p (filedup f) (set_ofile (now j) y) fdj _ _ E1). rewrite (st_pset s p Hp). eexists. split; [done|].
      unfold at_. by rewrite Hnow.
    + eexists. split; [done|]. unfold at_. rewrite (take_S_r _ _ _ Ho), dups_none, Hnow. f_equal. f_equal. symmetry. apply list_insert_id.
      unfold now. rewrite lookup_app_r by (rewrite length_take; lia). rewrite length_take. apply lookup_replicate_2. lia.
  - rewrite E. unfold at_, now. replace (Z.to_nat (0 + Z.of_nat n)) with n by lia. rewrite take_ge by lia. by rewrite Nat.sub_diag, app_nil_r.
Qed.

Lemma idup_runs (fs : fsstate (T := T)) w i : ic_lock fs = false → ic_inode fs !! w = Some i →
  idup w fs = Ok w (set_inodes (<[w := set_iref (i_ref i + 1) i]> (ic_inode fs)) fs).
Proof.
  intros Hl Hi. destruct fs as [sb lk ino tx]. cbn in Hl, Hi. subst lk. unfold idup, iset, iptr.
  unfold acquire_icache, release_icache, acquire, release, get, modify, mbind, M_bind. cbn. by rewrite Hi.
Qed.

(** ** The memory *)

(** A page of the free list becomes a kernel stack. *)
Lemma space_stack m m' r fl pg us : uspace kend m (r :: fl) pg us → page_only r fl m m' →
  uspace kend m' fl pg us ∧ own (pages m') pg us = own (pages m) pg us ∧ page_ok kend r ∧ r ∉ own (pages m) pg us ++ fl ∧
  (∀ q, q ∈ own (pages m) pg us → pages m' !! q = pages m !! q).
Proof.
  intros U [O1 O2 O3 O4]. pose proof (us_wf _ _ _ _ _ U) as W. pose proof (pw_free _ _ _ _ W) as Hok. apply Forall_cons in Hok as [Hr Hok].
  pose proof (us_nodup _ _ _ _ _ U) as Hn. rewrite <- Permutation_middle in Hn. apply NoDup_cons in Hn as [Hn Hn'].
  assert (S : ∀ q, q ∈ own (pages m) pg us → pages m' !! q = pages m !! q).
  { intros q Hq. apply O4. intros ->. apply Hn. apply elem_of_app. by left. }
  split_and!; [|by apply own_keep|done|done|done]. apply (uspace_keep kend m (r :: fl)); try done.
  - rewrite O3. apply U.
  - intros q Hq Hl. apply NoDup_app in Hn' as (_ & H & _). by apply (H q).
Qed.

Lemma own_bytes (m m' : gmap Z (list Z)) pg us v : (∀ q, q ∈ own m pg us → m' !! q = m !! q) → 0 ≤ v < 4294967296 → v / 4096 ∈ us →
  ubyte m' pg v = ubyte m pg v.
Proof.
  intros H Hv Hk. apply ubyte_page; [done|]. unfold frame, upage. rewrite (pte_keep m m' pg us) by done. apply H. by apply own_frame.
Qed.

(** ** fork *)

(** A process that can fork: [np] is a free slot, [w] the directory of the process. *)
Record can_fork s (k : cpu) (cp np : nat) (x y : proc) (l us : list Z) (w : nat) (i : inode) : Prop := {
  cf_ready : ready cpu_id s k;
  cf_len : length (ps_proc s) = Z.to_nat NPROC;
  cf_cur : ps_cur s = Some cp;
  cf_me : ps_proc s !! cp = Some x;
  cf_run : p_state x ≠ UNUSED;
  cf_slot : find_unused (ps_proc s) 0 = Some np;
  cf_y : ps_proc s !! np = Some y;
  cf_closed : p_ofile y = replicate (Z.to_nat NOFILE) None;
  cf_space : uspace kend (fd_mem (ps_fd s)) l (p_pgdir x) us;
  cf_size : us ≡ₚ seqZ 0 (npages (p_sz x)) ∧ 0 ≤ p_sz x;
  cf_flock : ft_lock (ps_fd s) = false;
  cf_nofile : length (p_ofile x) = Z.to_nat NOFILE;
  cf_files : files_ok (p_ofile x) (ftable (ps_fd s));
  cf_cwd : p_cwd x = Some w;
  cf_ilock : ic_lock (fd_fs (ps_fd s)) = false;
  cf_inode : ic_inode (fd_fs (ps_fd s)) !! w = Some i;
  cf_name : 16 ≤ Z.of_nat (length (p_name x)) }.

Lemma unused_state l p : find_unused l 0 = Some p → ∃ y, l !! p = Some y ∧ p_state y = UNUSED.
Proof. intros H. destruct (find_unused_Some _ _ _ H) as (_ & y & Hy & Hs). rewrite Nat.sub_0_r in Hy. eauto. Qed.

(** Without a page for the stack the slot is free again. *)
Lemma allocproc_nopage s k p x0 : ready cpu_id s k → find_unused (ps_proc s) 0 = Some p → ps_proc s !! p = Some x0 →
  kinv (fd_mem (ps_fd s)) [] →
  ∃ m, allocproc cpu_id fk tr s = Ok None
      (st (set_nextpid (next_pid (ps_nextpid s)) (pt_back cpu_id s k)) p (set_state UNUSED (set_kstack 0 (set_pid (ps_nextpid s) (set_state EMBRYO x0)))) (set_fd_mem m (ps_fd s)))
    ∧ kinv m [] ∧ pages m = pages (fd_mem (ps_fd s)).
Proof.
  intros R Hf Hx0 HI. assert (Hp : (p < length (ps_proc s))%nat) by by eapply lookup_lt_Some.
  destruct (kalloc_none _ HI) as (m & E1 & HI1 & Hm & _). exists m. split; [|done].
  unfold allocproc. mstep (acquire_pt_ok cpu_id s k R). rewrite bind_gets. cbn [ps_proc pt_held set_sl].
  rewrite Hf. mstep (pset_ok (pt_held cpu_id s k) p x0 (set_state EMBRYO) Hx0). rewrite bind_gets.
  erewrite bind_ok; [|apply pset_ok; simpl; by apply list_lookup_insert_eq]. rewrite bind_modify.
  set (s1 := set_nextpid _ _). assert (Hs1 : ps_sl s1 = ps_sl (pt_held cpu_id s k)) by done.
  mstep (release_pt_ok cpu_id s s1 k R Hs1). set (base := set_nextpid (next_pid (ps_nextpid s)) (pt_back cpu_id s k)).
  assert (Es : set_sl (ps_sl (pt_back cpu_id s k)) s1 = st base p (set_pid (ps_nextpid s) (set_state EMBRYO x0)) (ps_fd s)).
  { unfold s1, st, base. cbn. by rewrite !list_insert_insert_eq. }
  rewrite Es. mstep (st_kmem base p kalloc (set_pid (ps_nextpid s) (set_state EMBRYO x0)) (ps_fd s) 0 m E1).
  mstep (st_pset base p Hp (set_kstack 0) (set_pid (ps_nextpid s) (set_state EMBRYO x0)) (set_fd_mem m (ps_fd s))). cbn [Z.eqb].
  by mstep (st_pset base p Hp (set_state UNUSED) (set_kstack 0 (set_pid (ps_nextpid s) (set_state EMBRYO x0))) (set_fd_mem m (ps_fd s))).
Qed.

(** The child of [x], made from its slot [y]. *)
Definition child_of (cp : nat) (x y : proc) (nm : list Z) : proc :=
  set_state RUNNABLE (set_name (splice 0 nm (p_name y)) (set_cwd (p_cwd x) (set_ofile (p_ofile x) (set_tf (set_eax 0 (p_tf x))
    (set_parent (Some cp) (set_psz (p_sz x) y)))))).

Definition shared (x : proc) (w : nat) (i : inode) fd : fdstate :=
  let fd1 := set_ftable (dups (p_ofile x) (ftable fd)) fd in
  set_fd_fs (set_inodes (<[w := set_iref (i_ref i + 1) i]> (ic_inode (fd_fs fd))) (fd_fs fd)) fd1.

Lemma fork_child_ok s k p cp x y fd w i : ready cpu_id s k → (p < length (ps_proc s))%nat → cp ≠ p → ps_proc s !! cp = Some x →
  ft_lock fd = false → length (p_ofile x) = Z.to_nat NOFILE → p_ofile y = replicate (Z.to_nat NOFILE) None → files_ok (p_ofile x) (ftable fd) →
  p_cwd x = Some w → ic_lock (fd_fs fd) = false → ic_inode (fd_fs fd) !! w = Some i → 16 ≤ Z.of_nat (length (p_name x)) →
  ∃ nm, fork_child cpu_id cp p x (st s p y fd) = Ok (p_pid y) (st (pt_back cpu_id s k) p (child_of cp x y nm) (shared x w i fd)).
Proof.
  intros R Hp Hne Hx Hfl Hlx Hly Hfiles Hw Hil Hi Hnm. destruct (safestrcpy_some (p_name x) 16 ltac:(lia) Hnm) as [nm En]. exists nm.
  unfold fork_child. mstep (st_pset s p Hp (set_psz (p_sz x)) y fd). set (y1 := set_psz (p_sz x) y).
  mstep (st_pset s p Hp (set_parent (Some cp)) y1 fd). set (y2 := set_parent (Some cp) y1).
  mstep (st_pset s p Hp (set_tf (p_tf x)) y2 fd). set (y3 := set_tf (p_tf x) y2).
  mstep (st_pset s p Hp (λ y, set_tf (set_eax 0 (p_tf y)) y) y3 fd). set (y4 := set_tf (set_eax 0 (p_tf y3)) y3).
  mstep (dup_files s p cp x y4 fd Hp Hne Hx Hfl Hlx Hly Hfiles). set (y5 := set_ofile (p_ofile x) y4). set (fd1 := set_ftable _ fd).
  rewrite Hw. cbn [lift_opt]. rewrite bind_ret_l. mstep (st_inodes s p (idup w) y5 fd1 _ _ (idup_runs (fd_fs fd) w i Hil Hi)).
  set (fd2 := set_fd_fs _ fd1). mstep (st_pset s p Hp (set_cwd (Some w)) y5 fd2). set (y6 := set_cwd (Some w) y5).
  rewrite En. cbn [lift_opt]. rewrite bind_ret_l. mstep (st_pset s p Hp (λ y, set_name (splice 0 nm (p_name y)) y) y6 fd2).
  set (y7 := set_name (splice 0 nm (p_name y6)) y6). mstep (st_pptr s p Hp y7 fd2).
  assert (R7 : ready cpu_id (st s p y7 fd2) k) by (by destruct R). mstep (acquire_pt_ok cpu_id _ k R7).
  assert (E8 : pset p (set_state RUNNABLE) (pt_held cpu_id (st s p y7 fd2) k) = Ok tt (st (pt_held cpu_id s k) p (set_state RUNNABLE y7) fd2)).
  { rewrite (pset_ok _ p y7) by (by apply list_lookup_insert_eq). unfold st. cbn [ps_proc set_procs set_fd pt_held set_sl]. by rewrite list_insert_insert_eq. }
  mstep E8. mstep (release_pt_ok cpu_id (st s p y7 fd2) (st (pt_held cpu_id s k) p (set_state RUNNABLE y7) fd2) k R7 eq_refl).
  unfold mret, M_ret. f_equal. unfold child_of. rewrite Hw. done.
Qed.

(** The parent's memory, before and after. *)
Record parent_kept s s' (x : proc) (l' us : list Z) : Prop := {
  pk_lock : lk (ps_sl s') = initlock;
  pk_space : uspace kend (fd_mem (ps_fd s')) l' (p_pgdir x) us;
  pk_bytes : ∀ v, 0 ≤ v < npages (p_sz x) * 4096 → ubyte (pages (fd_mem (ps_fd s'))) (p_pgdir x) v = ubyte (pages (fd_mem (ps_fd s))) (p_pgdir x) v }.

(** [fork] fails: -1, the slot and every page are free again, no reference was taken. *)
Record fork_failed s s' (np : nat) (l l' : list Z) : Prop := {
  ff_slot : ∃ z, ps_proc s' = <[np := z]> (ps_proc s) ∧ p_state z = UNUSED;
  ff_free : l' ≡ₚ l;
  ff_files : ftable (ps_fd s') = ftable (ps_fd s);
  ff_fs : fd_fs (ps_fd s') = fd_fs (ps_fd s) }.

(** [fork] succeeds, with the child in the slot. *)
Record forked s s' (cp np : nat) (x : proc) (l l' us : list Z) (w : nat) (i : inode) (z : proc) : Prop := {
  fo_slot : ps_proc s' = <[np := z]> (ps_proc s);
  fo_state : p_state z = RUNNABLE ∧ p_pid z = ps_nextpid s ∧ p_parent z = Some cp;
  fo_regs : p_tf z = set_eax 0 (p_tf x) ∧ cx_eip (p_context z) = fk;
  fo_shares : p_ofile z = p_ofile x ∧ p_cwd z = p_cwd x;
  fo_size : p_sz z = p_sz x;
  fo_space : uspace kend (fd_mem (ps_fd s')) l' (p_pgdir z) us;
  fo_acct : p_kstack z :: own (pages (fd_mem (ps_fd s'))) (p_pgdir z) us ++ l' ≡ₚ l;
  fo_bytes : ∀ v, 0 ≤ v < npages (p_sz x) * 4096 → ubyte (pages (fd_mem (ps_fd s'))) (p_pgdir z) v = ubyte (pages (fd_mem (ps_fd s))) (p_pgdir x) v;
  fo_fresh : pids_ok (ps_proc s) (ps_nextpid s) → 0 < ps_nextpid s < 2147483647 →
    pids_ok (ps_proc s') (ps_nextpid s') ∧ ∀ j y, ps_proc s !! j = Some y → p_state y ≠ UNUSED → p_pid y ≠ p_pid z;
  fo_refs : ftable (ps_fd s') = dups (p_ofile x) (ftable (ps_fd s)) ∧ ic_inode (fd_fs (ps_fd s')) = <[w := set_iref (i_ref i + 1) i]> (ic_inode (fd_fs (ps_fd s)));
  fo_stack : page_ok kend (p_kstack z) ∧ is_page (pages (fd_mem (ps_fd s'))) (p_kstack z) }.

Lemma fork_nopage s k cp np x y us w i : can_fork s k cp np x y [] us w i →
  ∃ s' l', fork cpu_id kend vdata fk tr s = Ok (-1) s' ∧ parent_kept s s' x l' us ∧ fork_failed s s' np [] l' ∧ ps_nextpid s' = next_pid (ps_nextpid s).
Proof.
  intros C. destruct C as [R Hlen Hcur Hx Hrun Hf Hy Hcl U [Hus Hsz] _ _ _ _ _ _ _]. unfold fork. mstep (curproc_ok cpu_id s k cp R Hcur).
  destruct (allocproc_nopage (pt_back cpu_id s k) (popped (pushed k)) np y (ready_back cpu_id s k R) Hf Hy) as (m & E & I & Hm); [apply (us_wf _ _ _ _ _ U)|].
  mstep E. eexists _, []. split; [reflexivity|]. cbn in Hm. split; [|split; [|done]]; split; cbn [st ps_fd set_procs set_fd fd_mem set_fd_mem]; rewrite ?Hm; try done.
  - apply (uspace_keep kend (fd_mem (ps_fd s)) []); rewrite ?Hm; try done; [apply U|]. intros q _. apply not_elem_of_nil.
  - eexists. split; [reflexivity|done].
Qed.

Definition fork_base s (k : cpu) : pstate := set_nextpid (next_pid (ps_nextpid s)) (pt_back cpu_id (pt_back cpu_id s k) (popped (pushed k))).

(** What [fork] does with the result of [copyuvm]. *)
Definition fork_rest (cp np : nat) (x : proc) (d : Z) : M (pstate (T := T)) Z :=
  if d =? 0 then
    y ← pptr np;
    on_kmem (kfree kend (p_kstack y));;
    pset np (set_kstack 0);;
    pset np (set_state UNUSED);;
    mret (-1)
  else fork_child cpu_id cp np x.

(** The memory after [copyuvm], from a free list [r :: fl] whose first page is the child's stack. *)
Record copied_mem (m m' : kstate) (r : Z) (fl l' us : list Z) (pg sz d : Z) : Prop := {
  cm_parent : uspace kend m' l' pg us;
  cm_stack : page_ok kend r ∧ is_page (pages m') r ∧ r ∉ own (pages m') pg us ++ fl;
  cm_bytes : ∀ v, 0 ≤ v < npages sz * 4096 → ubyte (pages m') pg v = ubyte (pages m) pg v;
  cm_child : (d = 0 ∧ l' ≡ₚ fl ∧ Z.of_nat (length fl) < space_need (npages sz)) ∨ (d ≠ 0 ∧ uspace kend m' l' d us ∧ own (pages m') d us ++ l' ≡ₚ fl ∧
    ∀ v, 0 ≤ v < npages sz * 4096 → ubyte (pages m') d v = ubyte (pages m) pg v) }.

Lemma fork_start s k cp np x y r fl us w i : KERNBASE < kend → vdata_ok vdata → can_fork s k cp np x y (r :: fl) us w i →
  ∃ d m' l', fork cpu_id kend vdata fk tr s =
      fork_rest cp np x d (st (fork_base s k) np (set_pgdir d (embryo fk (ps_nextpid s) r y)) (set_fd_mem m' (ps_fd s))) ∧
    copied_mem (fd_mem (ps_fd s)) m' r fl l' us (p_pgdir x) (p_sz x) d.
Proof.
  intros Hkend Hvd [R Hlen Hcur Hx Hrun Hf Hy Hcl U [Hus Hsz] _ _ _ _ _ _ _].
  destruct (unused_state _ _ Hf) as (y' & Hy' & Hun). assert (Hne : cp ≠ np) by (intros ->; congruence).
  assert (Hp : (np < length (ps_proc s))%nat) by (by eapply lookup_lt_Some).
  pose proof (us_wf _ _ _ _ _ U) as W. pose proof (pw_free _ _ _ _ W) as Hok. apply Forall_cons in Hok as [(Hal & _) _].
  destruct (allocproc_runs cpu_id fk tr (pt_back cpu_id s k) (popped (pushed k)) r fl np y (ready_back cpu_id s k R) Hlen Hf Hy (pw_inv _ _ _ _ W) Hal) as (m & E & O & _).
  destruct (space_stack _ m r fl _ us U O) as (U1 & O1 & Hrok & Hr & S1).
  destruct (copyuvm_correct kend vdata m fl (p_pgdir x) us (p_sz x) Hkend Hvd U1 Hus Hsz) as (d & m' & l' & E' & U' & F' & O' & B' & H').
  exists d, m', l'. split.
  - unfold fork. mstep (curproc_ok cpu_id s k cp R Hcur). mstep E. set (y0 := embryo fk (ps_nextpid s) r y). set (fd0 := set_fd_mem m (ps_fd s)).
    change (set_procs _ _) with (st (fork_base s k) np y0 fd0). mstep (st_other (fork_base s k) np cp x y0 fd0 Hne Hx).
    mstep (st_kmem (fork_base s k) np _ y0 fd0 d m' E'). by mstep (st_pset (fork_base s k) np Hp (set_pgdir d) y0 (set_fd_mem m' fd0)).
  - assert (Bm : ∀ v, 0 ≤ v < npages (p_sz x) * 4096 → ubyte (pages m) (p_pgdir x) v = ubyte (pages (fd_mem (ps_fd s))) (p_pgdir x) v).
    { intros v Hv. assert (Hk : v / 4096 ∈ us) by (rewrite Hus, elem_of_seqZ; lia). apply (own_bytes _ _ _ us); [done| |done].
      pose proof (proj1 (Forall_forall _ _) (us_range _ _ _ _ _ U) _ Hk) as Hrg. cbn beta in Hrg. unfold NUP in Hrg. lia. }
    split; [done| |intros v Hv; by rewrite B', Bm|].
    + split_and!; [done| |by rewrite O', O1]. apply page_keep with (pages m); [|apply O]. apply F'. intros H. apply Hr. apply elem_of_app. by right.
    + destruct H' as [(-> & Hl & Hf')|(Hd & Ud & A & Bd & _)]; [by left|right]. split_and!; [done..|]. intros v Hv. destruct (Bd v Hv) as [-> _]. by apply Bm.
Qed.

Lemma fork_fresh s s' np (z : proc) : (np < length (ps_proc s))%nat → ps_proc s' = <[np := z]> (ps_proc s) → p_pid z = ps_nextpid s →
  ps_nextpid s' = next_pid (ps_nextpid s) → pids_ok (ps_proc s) (ps_nextpid s) → 0 < ps_nextpid s < 2147483647 →
  pids_ok (ps_proc s') (ps_nextpid s') ∧ ∀ j y, ps_proc s !! j = Some y → p_state y ≠ UNUSED → p_pid y ≠ p_pid z.
Proof.
  intros Hp Hs Hz Hn Hi H0. split; [rewrite Hs, Hn; by apply pids_fresh|]. intros j y Hj Hu. pose proof (proj1 Hi j y Hj Hu). lia.
Qed.


(** ** wait: the pages of a zombie go back *)

(** The slot of a zombie that has been waited for. *)
Definition reaped (z : proc) : proc :=
  set_state UNUSED (set_killed 0 (set_name (<[0%nat := 0]> (p_name z)) (set_parent None (set_pid 0 (set_kstack 0 z))))).

(** A zombie child whose memory is its own. *)
Record zombie (m : kstate) (cp : nat) (z : proc) (l us : list Z) : Prop := {
  zo_child : p_parent z = Some cp;
  zo_state : p_state z = ZOMBIE;
  zo_space : uspace kend m l (p_pgdir z) us;
  zo_stack : page_ok kend (p_kstack z) ∧ is_page (pages m) (p_kstack z);
  zo_apart : p_kstack z ∉ own (pages m) (p_pgdir z) us ++ l }.

Lemma reap_ok s k cp p z l us n hk : KERNBASE < kend → ready cpu_id s k → ps_proc s !! p = Some z → zombie (fd_mem (ps_fd s)) cp z l us →
  ∃ m' l', wait_from cpu_id kend cp (S n) p hk (pt_held cpu_id s k) = Ok (inl (p_pid z)) (st (pt_back cpu_id s k) p (reaped z) (set_fd_mem m' (ps_fd s))) ∧
    heap kend m' l' ∧ l' ≡ₚ p_kstack z :: own (pages (fd_mem (ps_fd s))) (p_pgdir z) us ++ l ∧
    ∀ q, q ∉ p_kstack z :: own (pages (fd_mem (ps_fd s))) (p_pgdir z) us ++ l → pages m' !! q = pages (fd_mem (ps_fd s)) !! q.
Proof.
  intros Hkend R Hz [Hc Hs U [Hok Hpg] Ha]. set (h := pt_held cpu_id s k). assert (Hp : (p < length (ps_proc h))%nat) by (by eapply lookup_lt_Some).
  destruct (give_page kend (fd_mem (ps_fd s)) l (p_pgdir z) us (p_kstack z) U Ha Hok Hpg) as (m1 & E1 & U1 & O1 & D1 & F1 & _).
  destruct (freevm_ok kend m1 (p_kstack z :: l) (p_pgdir z) us Hkend U1) as (m2 & l2 & E2 & H2 & P2 & _ & F2).
  exists m2, l2. rewrite O1 in P2, F2.
  assert (Eh : h = st h p z (ps_fd s)) by (unfold st; rewrite list_insert_id by done; subst h; by destruct s).
  split_and!; [|done|by rewrite P2, Permutation_middle|].
  - cbn [wait_from]. rewrite Eh. mstep (st_pptr h p Hp z (ps_fd s)). rewrite !bool_decide_true by done. cbn [negb].
    mstep (st_kmem h p (kfree kend (p_kstack z)) z (ps_fd s) tt m1 E1). set (fd1 := set_fd_mem m1 (ps_fd s)).
    mstep (st_pset h p Hp (set_kstack 0) z fd1). set (z1 := set_kstack 0 z).
    mstep (st_kmem h p (freevm kend (p_pgdir z)) z1 fd1 tt m2 E2). set (fd2 := set_fd_mem m2 fd1).
    mstep (st_pset h p Hp (set_pid 0) z1 fd2). mstep (st_pset h p Hp (set_parent None) (set_pid 0 z1) fd2). set (z2 := set_parent None (set_pid 0 z1)).
    mstep (st_pset h p Hp (λ y, set_name (<[0%nat := 0]> (p_name y)) y) z2 fd2). set (z3 := set_name (<[0%nat := 0]> (p_name z2)) z2).
    mstep (st_pset h p Hp (set_killed 0) z3 fd2). mstep (st_pset h p Hp (set_state UNUSED) (set_killed 0 z3) fd2).
    by mstep (release_pt_ok cpu_id s (st h p (set_state UNUSED (set_killed 0 z3)) fd2) k R eq_refl).
  - intros q Hq. rewrite not_elem_of_cons, not_elem_of_app in Hq. destruct Hq as (Hq1 & Hq2 & Hq3). rewrite F2, F1; [done|done|].
    rewrite not_elem_of_app, not_elem_of_cons. done.
Qed.

(** The scan passes over what is not a zombie child. *)
Lemma wait_from_skip s cp p n : ∀ i hk, (i ≤ p)%nat → (p < length (ps_proc s))%nat →
  (∀ j y, (i ≤ j < p)%nat → ps_proc s !! j = Some y → is_child cp y = true → p_state y ≠ ZOMBIE) →
  ∃ hk', wait_from cpu_id kend cp (p - i + n) i hk s = wait_from cpu_id kend cp n p hk' s.
Proof.
  intros i. remember (p - i)%nat as d eqn:Hd. revert i Hd. induction d as [|d IH]; intros i Hd hk Hi Hp Hz.
  { exists hk. by replace i with p by lia. }
  destruct (lookup_lt_is_Some_2 (ps_proc s) i) as [y Hy]; [lia|]. cbn [Nat.add wait_from]. mstep (pptr_ok s i y Hy). fold (is_child cp y).
  assert (Hn : is_child cp y = true → p_state y ≠ ZOMBIE) by (apply (Hz i); [lia|done]).
  destruct (is_child cp y); cbn [negb]; [rewrite bool_decide_false by (by apply Hn)|];
    (apply IH; [lia..|]; intros j y' Hj; apply Hz; lia).
Qed.

Lemma wait_zombie s k cp p z l us : KERNBASE < kend → ready cpu_id s k → length (ps_proc s) = Z.to_nat NPROC → ps_cur s = Some cp →
  ps_proc s !! p = Some z → zombie (fd_mem (ps_fd s)) cp z l us →
  (∀ j y, (j < p)%nat → ps_proc s !! j = Some y → is_child cp y = true → p_state y ≠ ZOMBIE) →
  ∃ m' l', wait cpu_id kend tr s = Ok (p_pid z) (st (pt_back cpu_id (pt_back cpu_id s k) (popped (pushed k))) p (reaped z) (set_fd_mem m' (ps_fd s))) ∧
    heap kend m' l' ∧ l' ≡ₚ p_kstack z :: own (pages (fd_mem (ps_fd s))) (p_pgdir z) us ++ l ∧
    ∀ q, q ∉ p_kstack z :: own (pages (fd_mem (ps_fd s))) (p_pgdir z) us ++ l → pages m' !! q = pages (fd_mem (ps_fd s)) !! q.
Proof.
  intros Hkend R Hlen Hc Hz Z Hfirst. pose proof (lookup_lt_Some _ _ _ Hz) as Hp. pose proof (ready_back cpu_id s k R) as R'.
  destruct (wait_from_skip (pt_held cpu_id (pt_back cpu_id s k) (popped (pushed k))) cp p (S (Z.to_nat NPROC - p - 1)) 0 false) as [hk E];
    [lia|exact Hp|intros j y Hj; apply Hfirst; lia|].
  destruct (reap_ok (pt_back cpu_id s k) _ cp p z l us (Z.to_nat NPROC - p - 1) hk Hkend R' Hz Z) as (m' & l' & E' & H).
  exists m', l'. split; [|exact H]. unfold wait. mstep (curproc_ok cpu_id s k cp R Hc). mstep (acquire_pt_ok cpu_id _ _ R').
  unfold wait_turn, wait_scan. replace (Z.to_nat NPROC) with (p - 0 + S (Z.to_nat NPROC - p - 1))%nat by lia. by mstep (eq_trans E E').
Qed.

(** The pages a [fork] took come back when the child has exited and is waited
    for: the free list has the same pages as before the [fork]. *)
Lemma fork_wait s s1 s2 k2 cp np x l l' us w i z z2 : KERNBASE < kend → heap kend (fd_mem (ps_fd s)) l →
  forked s s1 cp np x l l' us w i z →
  ready cpu_id s2 k2 → length (ps_proc s2) = Z.to_nat NPROC → ps_cur s2 = Some cp → fd_mem (ps_fd s2) = fd_mem (ps_fd s1) →
  ps_proc s2 !! np = Some z2 → p_state z2 = ZOMBIE → p_parent z2 = Some cp → p_pid z2 = p_pid z → p_pgdir z2 = p_pgdir z → p_kstack z2 = p_kstack z →
  (∀ j y, (j < np)%nat → ps_proc s2 !! j = Some y → is_child cp y = true → p_state y ≠ ZOMBIE) →
  ∃ s3 l3, wait cpu_id kend tr s2 = Ok (ps_nextpid s) s3 ∧ heap kend (fd_mem (ps_fd s3)) l3 ∧ l3 ≡ₚ l.
Proof.
  intros Hkend [[_ _ Hnd] _ _] F R Hlen Hc Hm Hz Hs Hp Hpid Hpg Hks Hfirst. destruct F as [_ (_ & Hn & _) _ _ _ U A _ _ _ St].
  rewrite <- A in Hnd. apply NoDup_cons in Hnd as [Hk _].
  destruct (wait_zombie s2 k2 cp np z2 l' us Hkend R Hlen Hc Hz) as (m' & l3 & E & Hh & P & _); [|done|].
  { split; rewrite ?Hpg, ?Hks, ?Hm; done. }
  eexists _, l3. rewrite E, Hpid, Hn. split; [reflexivity|]. split; [done|]. by rewrite P, Hpg, Hks, Hm, A.
Qed.

(** C17: [wait] with a zombie child returns the pid of the first one in the
    table, frees its slot, and gives back its kernel stack, its page
    directory, its page tables and its memory: the free list is the one before
    plus exactly those pages, and no other page changes. *)
Theorem wait_reaps s k cp p z l us : KERNBASE < kend → ready cpu_id s k → length (ps_proc s) = Z.to_nat NPROC → ps_cur s = Some cp →
  ps_proc s !! p = Some z → zombie (fd_mem (ps_fd s)) cp z l us →
  (∀ j y, (j < p)%nat → ps_proc s !! j = Some y → is_child cp y = true → p_state y ≠ ZOMBIE) →
  ∃ s' m' l', wait cpu_id kend tr s = Ok (p_pid z) s' ∧ ps_proc s' = <[p := reaped z]> (ps_proc s) ∧ lk (ps_sl s') = initlock ∧
    ps_fd s' = set_fd_mem m' (ps_fd s) ∧ heap kend m' l' ∧ l' ≡ₚ p_kstack z :: own (pages (fd_mem (ps_fd s))) (p_pgdir z) us ++ l ∧
    ∀ q, q ∉ p_kstack z :: own (pages (fd_mem (ps_fd s))) (p_pgdir z) us ++ l → pages m' !! q = pages (fd_mem (ps_fd s)) !! q.
Proof.
  intros Hkend R Hlen Hc Hz Z Hfirst. destruct (wait_zombie s k cp p z l us Hkend R Hlen Hc Hz Z Hfirst) as (m' & l' & E & H).
  eexists _, m', l'. split; [exact E|]. done.
Qed.

(** ** growproc *)

(** Shrinking leaves the pages below the new size and frees the others. *)
Lemma shrink_ok m l pg us oldsz newsz : KERNBASE < kend → uspace kend m l pg us → us ≡ₚ seqZ 0 (npages oldsz) →
  0 ≤ newsz < oldsz → oldsz ≤ KERNBASE →
  ∃ m' l' us', deallocuvm kend pg oldsz newsz m = Ok newsz m' ∧ ustep kend pg m l us m' l' us' ∧ us' ≡ₚ seqZ 0 (npages newsz).
Proof.
  intros Hkend U Hus Hn Ho. destruct (deallocuvm_ok kend m l pg us oldsz newsz Hkend U Hn Ho) as (m' & l' & us' & E & T' & H).
  exists m', l', us'. split_and!; [done|done|]. apply NoDup_Permutation; [eapply us_uniq, T'|apply NoDup_seqZ|].
  intros k. rewrite H, Hus, !elem_of_seqZ. unfold npages. lia.
Qed.

(** The memory of a process, and what [growproc] does to it: no page is lost, no page of another
    owner changes, and the bytes that the process keeps are as before. *)
Record regrown (m m' : kstate) (pg : Z) (l us l' us' : list Z) (kept : Z) : Prop := {
  rg_space : uspace kend m' l' pg us';
  rg_acct : own (pages m') pg us' ++ l' ≡ₚ own (pages m) pg us ++ l;
  rg_out : ∀ q, q ∉ own (pages m) pg us ++ l → pages m' !! q = pages m !! q;
  rg_kept : ∀ v, 0 ≤ v < kept * 4096 → ubyte (pages m') pg v = ubyte (pages m) pg v }.

Lemma regrown_refl m l pg us kept : uspace kend m l pg us → regrown m m pg l us l us kept.
Proof. by split. Qed.

Lemma regrown_step m l pg us m' l' us' kept : ustep kend pg m l us m' l' us' → kept ≤ NUP →
  (∀ k, 0 ≤ k < kept → k ∈ us ∧ k ∈ us') → regrown m m' pg l us l' us' kept.
Proof.
  intros T' Hk H. split; [apply T'|apply T'|apply T'|]. intros v Hv.
  destruct (H (v / 4096)) as [H1 H2]; [lia|]. apply (ustep_byte kend pg m l us m' l' us' v T'); [unfold NUP in Hk; lia|done|done].
Qed.

(** The state in which [growproc] ends. *)
Definition grown (s : pstate (T := T)) (k : cpu) (cp : nat) (x : proc) (sz : Z) (m : kstate) : pstate :=
  set_cr3 (V2P (p_pgdir x)) (set_procs (<[cp := set_psz sz x]> (ps_proc s)) (set_fd (set_fd_mem m (ps_fd s)) (pt_back cpu_id s k))).

Section grow.
Context (s : pstate (T := T)) (k : cpu) (cp : nat) (x : proc) (R : ready cpu_id s k) (Hc : ps_cur s = Some cp) (Hx : ps_proc s !! cp = Some x).

(** [growproc] is one call of [allocuvm] or of [deallocuvm]; the size 0 is taken for a failure. *)
Lemma growproc_up n sz' m : 0 < n → allocuvm kend (p_pgdir x) (p_sz x) (u32 (p_sz x + n)) (fd_mem (ps_fd s)) = Ok sz' m →
  growproc cpu_id kend n s = if sz' =? 0 then Ok (-1) (set_fd (set_fd_mem m (ps_fd s)) (pt_back cpu_id s k)) else Ok 0 (grown s k cp x sz' m).
Proof.
  intros Hn E. unfold growproc. mstep (curproc_ok cpu_id s k cp R Hc). set (s1 := pt_back cpu_id s k). mstep (pptr_ok s1 cp x Hx). cbv zeta.
  rewrite (proj2 (Z.ltb_lt 0 n)) by lia. rewrite bind_assoc. mstep (on_kmem_ok _ s1 _ _ E). rewrite bind_ret_l.
  destruct (sz' =? 0); [done|]. set (s2 := set_fd _ s1). by mstep (pset_ok s2 cp x (set_psz sz') Hx).
Qed.

Lemma growproc_down n sz' m : n < 0 → deallocuvm kend (p_pgdir x) (p_sz x) (u32 (p_sz x + n)) (fd_mem (ps_fd s)) = Ok sz' m →
  growproc cpu_id kend n s = if sz' =? 0 then Ok (-1) (set_fd (set_fd_mem m (ps_fd s)) (pt_back cpu_id s k)) else Ok 0 (grown s k cp x sz' m).
Proof.
  intros Hn E. unfold growproc. mstep (curproc_ok cpu_id s k cp R Hc). set (s1 := pt_back cpu_id s k). mstep (pptr_ok s1 cp x Hx). cbv zeta.
  rewrite (proj2 (Z.ltb_ge 0 n)), (proj2 (Z.ltb_lt n 0)) by lia. rewrite bind_assoc. mstep (on_kmem_ok _ s1 _ _ E). rewrite bind_ret_l.
  destruct (sz' =? 0); [done|]. set (s2 := set_fd _ s1). by mstep (pset_ok s2 cp x (set_psz sz') Hx).
Qed.

Lemma growproc_same : growproc cpu_id kend 0 s = Ok 0 (set_cr3 (V2P (p_pgdir x)) (set_procs (<[cp := set_psz (p_sz x) x]> (ps_proc s)) (pt_back cpu_id s k))).
Proof.
  unfold growproc. mstep (curproc_ok cpu_id s k cp R Hc). set (s1 := pt_back cpu_id s k). mstep (pptr_ok s1 cp x Hx). cbv zeta.
  rewrite Z.ltb_irrefl, bind_ret_l. by mstep (pset_ok s1 cp x (set_psz (p_sz x)) Hx).
Qed.

Lemma grow_none : <[cp := set_psz (p_sz x) x]> (ps_proc s) = ps_proc s.
Proof. apply list_insert_id. rewrite Hx. by destruct x. Qed.
End grow.

(** What [growproc] gives when it shrinks the process, and when it does not. *)
Definition shrunk (s s' : pstate (T := T)) (cp : nat) (x : proc) (us us' : list Z) (r new : Z) : Prop :=
  if new <? 0 then r = 0 ∧ us' = us ∧ ps_proc s' = ps_proc s ∧ fd_mem (ps_fd s') = fd_mem (ps_fd s) else
  us' ≡ₚ seqZ 0 (npages new) ∧
  if new =? 0 then r = -1 ∧ ps_proc s' = ps_proc s else r = 0 ∧ ps_proc s' = <[cp := set_psz new x]> (ps_proc s).
Definition expanded (s s' : pstate (T := T)) (cp : nat) (x : proc) (l us us' : list Z) (r new : Z) : Prop :=
  (r = 0 ∧ ps_proc s' = <[cp := set_psz new x]> (ps_proc s) ∧ us' ≡ₚ seqZ 0 (npages new) ∧
     ∀ v, npages (p_sz x) * 4096 ≤ v < npages new * 4096 →
       ubyte (pages (fd_mem (ps_fd s'))) (p_pgdir x) v = Some 0 ∧
       has (pte (pages (fd_mem (ps_fd s'))) (p_pgdir x) v) PTE_U = true ∧ has (pte (pages (fd_mem (ps_fd s'))) (p_pgdir x) v) PTE_W = true) ∨
  (r = -1 ∧ ps_proc s' = ps_proc s ∧ us' = us ∧
     (KERNBASE ≤ new ∨ Z.of_nat (length l) < grow_need (pages (fd_mem (ps_fd s))) (p_pgdir x) (npages (p_sz x)) (npages new))).

Lemma grow_down s k cp x l us n : KERNBASE < kend → ready cpu_id s k → ps_cur s = Some cp → ps_proc s !! cp = Some x →
  uspace kend (fd_mem (ps_fd s)) l (p_pgdir x) us → us ≡ₚ seqZ 0 (npages (p_sz x)) → 0 < p_sz x < KERNBASE → -2147483648 ≤ n < 0 →
  ∃ r s' l' us', growproc cpu_id kend n s = Ok r s' ∧
    regrown (fd_mem (ps_fd s)) (fd_mem (ps_fd s')) (p_pgdir x) l us l' us' (npages (p_sz x + n)) ∧
    (r = 0 → ps_cr3 s' = V2P (p_pgdir x)) ∧ shrunk s s' cp x us us' r (p_sz x + n).
Proof.
  intros Hkend R Hc Hx U Hus Hsz Hn. unfold shrunk. destruct (Z.ltb_spec (p_sz x + n) 0) as [Hneg|Hpos].
  - assert (Eu : u32 (p_sz x + n) = p_sz x + n + 4294967296) by (unfold u32; rewrite <- (Z_mod_plus_full _ 1); apply Z.mod_small; unfold KERNBASE in *; lia).
    assert (E : deallocuvm kend (p_pgdir x) (p_sz x) (u32 (p_sz x + n)) (fd_mem (ps_fd s)) = Ok (p_sz x) (fd_mem (ps_fd s))).
    { unfold deallocuvm. rewrite Eu. by rewrite (proj2 (Z.leb_le _ _)) by (unfold KERNBASE in *; lia). }
    exists 0, (grown s k cp x (p_sz x) (fd_mem (ps_fd s))), l, us. rewrite (growproc_down s k cp x R Hc Hx n _ _ ltac:(lia) E).
    rewrite (proj2 (Z.eqb_neq (p_sz x) 0)) by lia. split_and!; [done|by apply regrown_refl|done|done|done| |done].
    by apply (grow_none s cp x).
  - destruct (shrink_ok (fd_mem (ps_fd s)) l (p_pgdir x) us (p_sz x) (p_sz x + n) Hkend U Hus) as (m' & l' & us' & E & T' & P); [lia..|].
    assert (Eu : u32 (p_sz x + n) = p_sz x + n) by (apply u32_small; unfold KERNBASE in *; lia).
    rewrite <- Eu in E at 1. pose proof (growproc_down s k cp x R Hc Hx n _ _ ltac:(lia) E) as G.
    assert (Hr : regrown (fd_mem (ps_fd s)) m' (p_pgdir x) l us l' us' (npages (p_sz x + n))).
    { apply regrown_step; [done|unfold npages, KERNBASE, NUP in *; lia|]. intros j Hj. rewrite Hus, P, !elem_of_seqZ. unfold npages in *. lia. }
    destruct (Z.eqb_spec (p_sz x + n) 0); eexists _, _, l', us'; (split; [exact G|]); split_and!; done.
Qed.

Lemma grow_up s k cp x l us n : KERNBASE < kend → ready cpu_id s k → ps_cur s = Some cp → ps_proc s !! cp = Some x →
  uspace kend (fd_mem (ps_fd s)) l (p_pgdir x) us → us ≡ₚ seqZ 0 (npages (p_sz x)) → 0 < p_sz x < KERNBASE → 0 < n < 2147483648 →
  ∃ r s' l' us', growproc cpu_id kend n s = Ok r s' ∧
    regrown (fd_mem (ps_fd s)) (fd_mem (ps_fd s')) (p_pgdir x) l us l' us' (npages (p_sz x)) ∧
    (r = 0 → ps_cr3 s' = V2P (p_pgdir x)) ∧ expanded s s' cp x l us us' r (p_sz x + n).
Proof.
  intros Hkend R Hc Hx U Hus Hsz Hn. assert (Eu : u32 (p_sz x + n) = p_sz x + n) by (apply u32_small; unfold KERNBASE in *; lia).
  assert (Hnp : npages (p_sz x) ≤ NUP) by (unfold npages, KERNBASE, NUP in *; lia).
  set (m := fd_mem (ps_fd s)) in *. unfold expanded. destruct (Z.le_gt_cases KERNBASE (p_sz x + n)) as [Hk|Hk].
  { assert (E : allocuvm kend (p_pgdir x) (p_sz x) (u32 (p_sz x + n)) m = Ok 0 m) by (unfold allocuvm; by rewrite Eu, (proj2 (Z.leb_le _ _) Hk)).
    eexists _, _, l, us. split; [exact (growproc_up s k cp x R Hc Hx n _ _ ltac:(lia) E)|]. split_and!; [by apply regrown_refl|done|right]. auto. }
  destruct (allocuvm_ok kend Hkend m l (p_pgdir x) us (p_sz x) (p_sz x + n) U Hus ltac:(lia) Hk) as [(m' & l' & us' & E & T' & P & H & _)|(m' & l' & E & T' & Hf)];
    rewrite <- Eu in E at 1; pose proof (growproc_up s k cp x R Hc Hx n _ _ ltac:(lia) E) as G.
  - rewrite (proj2 (Z.eqb_neq (p_sz x + n) 0)) in G by lia. eexists _, _, l', us'. split; [exact G|]. split_and!; [|done|left].
    + apply regrown_step; [done|done|]. intros j Hj. rewrite Hus, P, !elem_of_seqZ. unfold npages in *. lia.
    + split_and!; [done|done|done|]. intros v Hv. assert (0 ≤ v < 4294967296) by (unfold npages, KERNBASE in *; lia).
      apply (holds_zero kend m' l' (p_pgdir x) us'); [apply T'|done|rewrite P, elem_of_seqZ; lia|apply H; lia].
  - eexists _, _, l', us. split; [exact G|]. split_and!; [|done|right; auto].
    apply regrown_step; [done|done|]. intros j Hj. rewrite Hus, !elem_of_seqZ. lia.
Qed.

(** C40: [growproc] with [n] bytes, for a process of [p_sz x] bytes.  No page is lost and no page of
    another owner changes.  With [n] not negative the bytes that the process has stay as they are; the
    size grows by [n], and the new pages are zeros that it can read and write; only when the new size
    reaches into the kernel or the free list is too short, it returns -1 and the
    process keeps its size and its pages.  With [n] negative exactly the pages above the new
    size go back to the free list and the bytes below stay.  A new size of 0 is taken for
    a failure: all pages are freed, but -1 is returned and the recorded size stays the old
    one; and giving back more than the process has does nothing and returns 0. *)
Theorem growproc_correct s k cp x l us n : KERNBASE < kend → ready cpu_id s k → ps_cur s = Some cp → ps_proc s !! cp = Some x →
  uspace kend (fd_mem (ps_fd s)) l (p_pgdir x) us → us ≡ₚ seqZ 0 (npages (p_sz x)) → 0 < p_sz x < KERNBASE → -2147483648 ≤ n < 2147483648 →
  ∃ r s' l' us', growproc cpu_id kend n s = Ok r s' ∧
    regrown (fd_mem (ps_fd s)) (fd_mem (ps_fd s')) (p_pgdir x) l us l' us' (npages (Z.min (p_sz x) (p_sz x + n))) ∧
    (r = 0 → ps_cr3 s' = V2P (p_pgdir x)) ∧
    if n <? 0 then shrunk s s' cp x us us' r (p_sz x + n) else expanded s s' cp x l us us' r (p_sz x + n).
Proof.
  intros Hkend R Hc Hx U Hus Hsz Hn. destruct (Z.ltb_spec n 0).
  - rewrite Z.min_r by lia. apply (grow_down s k cp x l us n); done || lia.
  - rewrite Z.min_l by lia. destruct (decide (n = 0)) as [->|]; [|apply (grow_up s k cp x l us n); done || lia].
    eexists _, _, l, us. split; [exact (growproc_same s k cp x R Hc Hx)|]. split_and!; [by apply regrown_refl|done|left].
    rewrite Z.add_0_r. split_and!; [done|done|done|lia].
Qed.
End fork.

(** ** A process that forks *)

#[local] Instance no_log1 : TxOps unit :=
  @Build_TxOps unit (λ _ _, undef) (λ _, undef) (λ _, undef) (λ _ _, undef) (λ _, undef) undef undef.

(** The shell of Proc.v with a file open as its standard input and output, and the directory [d]. *)
Definition p_shell2 (d : Z) : proc := set_pgdir d (set_cwd (Some 0%nat) (set_ofile ([Some 0%nat; Some 0%nat] ++ replicate 14 None) p_shell)).
Definition sys2 (d : Z) (m : kstate) : pstate (T := unit) :=
  mkps (mksls [cpu_on] initlock) (Some 1%nat) ([p_init; p_shell2 d] ++ replicate 62 proc0) 3 (Some 0%nat) false 0 0 (mktss 0 0 0 0)
    (mkfd false [mkfile FD_INODE 2 1 1 0 (Some 0%nat) 0] ∅ [] m (mkfs sb_none false [set_iref 2 inode0] tt)) 0 false.

Lemma sys2_can d m l : uspace end0 m l d [0] → can_fork 0 end0 (sys2 d m) cpu_on 1 2 (p_shell2 d) proc0 l [0] 0 (set_iref 2 inode0).
Proof.
  intros U. split; try done.
  intros i f Hi. destruct i as [|[|i]]; [injection Hi as <-; by eexists|injection Hi as <-; by eexists|].
  assert (Hr : replicate 14 (@None nat) !! i = Some (Some f)) by exact Hi. apply lookup_replicate in Hr as [? _]. done.
Qed.


(** The shell with a child that has exited, which has a stack and an empty memory. *)
Definition p_dead : proc := set_state ZOMBIE (set_parent (Some 1%nat) (set_pid 3 (set_kstack page1 (set_pgdir page2 proc0)))).
Definition sys3 (m : kstate) : pstate (T := unit) :=
  set_procs ([p_init; p_shell2 page2; p_dead] ++ replicate 61 proc0) (sys2 page2 m).

Lemma wait_reaps_witness : ∃ m s' l', wait 0 end0 0x80104000 (sys3 m) = Ok 3 s' ∧ heap end0 (fd_mem (ps_fd s')) l' ∧ page1 ∈ l' ∧ page2 ∈ l'.
Proof.
  destruct (take_page end0 vm3 page1 [] page2 [] vm3_space) as (m & _ & Hm & U & Hok & Hp & Hn & _). exists m. rewrite <- Hm in Hp, Hn.
  destruct (wait_reaps 0 end0 0x80104000 (sys3 m) cpu_on 1 2 p_dead [] []) as (s' & m' & l' & E & _ & _ & Hfd & H & P & _); [done..|split; done| |].
  { intros j y Hj Hy. destruct j as [|[|j]]; [injection Hy as <-; done|injection Hy as <-; done|lia]. }
  exists s', l'. split; [exact E|]. rewrite Hfd. split; [exact H|]. rewrite P. split; [by left|]. right. apply elem_of_app. left. apply own_pg.
Defined.

(** The shell of one page, which shrinks to nothing, and which grows by a page. *)
Lemma growproc_correct_witness : ∃ d m s' l' s2, growproc 0 end0 (-4096) (sys2 d m) = Ok (-1) s' ∧ ps_proc s' = ps_proc (sys2 d m) ∧
  uspace end0 (fd_mem (ps_fd s')) l' d [] ∧ growproc 0 end0 4096 (sys2 d m) = Ok 0 s2 ∧ ubyte (pages (fd_mem (ps_fd s2))) d 5000 = Some 0.
Proof.
  destruct space1 as (d & m & l & U & Hl). exists d, m.
  assert (Hr : ready 0 (sys2 d m) cpu_on) by (by split).
  destruct (growproc_correct 0 end0 (sys2 d m) cpu_on 1 (p_shell2 d) l [0] (-4096)) as (r & s' & l' & us' & E & [U' _ _ _] & _ & (P & -> & Hp));
    [done|exact Hr|done|done|exact U|done|done|done|].
  destruct (growproc_correct 0 end0 (sys2 d m) cpu_on 1 (p_shell2 d) l [0] 4096) as (r2 & s2 & l2 & us2 & E2 & _ & _ & H2);
    [done|exact Hr|done|done|exact U|done|done|done|].
  exists s', l', s2. split; [exact E|]. split; [exact Hp|]. apply Permutation_sym, Permutation_nil in P. rewrite <- P. split; [exact U'|].
  destruct H2 as [(-> & _ & _ & H2)|(_ & _ & _ & [H2|H2])].
  - split; [exact E2|]. apply (H2 5000). done.
  - exfalso. by vm_compute in H2.
  - exfalso. pose proof (second_page (pages m) d) as Hs.
    change (Z.of_nat (length l) < grow_need (pages m) d (npages 4000) (npages 8000)) in H2. clear -Hl H2 Hs. lia.
Defined.
