(* ===== verification/UserInit.v ===== *)
(** * The first process: userinit of proc.c and its first turn

    [userinit] makes a process whose memory is one page with the code of
    initcode.S, in the root directory ([userinit_ok]); the scheduler finds it and
    switches to its page table and its stack ([scheduler_correct]). *)

From S2P Require Import Prelude Params Strings Sleeplock Spinlock BlockDev Tx Fs FsFile Dir Kalloc Vm VmSpace VmKernel VmUser File Proc ProcFork.

Section first.
Context {T : Type} `{!TxOps T}.
Context (cpu_id : nat) (me : Z) (devsw : Z → option (device (T := T))) (kend vdata fk tr : Z).
Implicit Types (s : pstate (T := T)) (fs : fsstate (T := T)).

Lemma namei_root fs fs' w nm : iget ROOTDEV ROOTINO fs = Ok w fs' → namei me devsw 0 [SLASH] nm fs = Ok (Some w) fs'.
Proof. intros E. unfold namei, namex. change (deref [SLASH] =? SLASH) with true. cbv iota. rewrite !bind_assoc. by mstep E. Qed.

Lemma heap_stack m m' r fl : heap kend m (r :: fl) → page_only r fl m m' → heap kend m' fl ∧ page_ok kend r ∧ r ∉ fl.
Proof.
  intros [HI Hok Hz] [O1 O2 O3 O4]. apply Forall_cons in Hok as [Hr Hok]. pose proof (ki_nodup _ _ HI) as Hn. apply NoDup_cons in Hn as [Hn _].
  split_and!; [split; [done|done|by rewrite O3]|done|done].
Qed.

(** The segments and flags of the first process; the code starts at 0. *)
Definition tf_first : trapframe :=
  let ds := Z.lor (Z.shiftl SEG_UDATA 3) DPL_USER in
  mktf 0 0 0 0 0 0 0 0 0 0 ds ds 0 0 0 (Z.lor (Z.shiftl SEG_UCODE 3) DPL_USER) FL_IF PGSIZE ds.

Definition INITNAME : list Z := cstr [105; 110; 105; 116; 99; 111; 100; 101].

(** The slot [x] once [userinit] is done. *)
Definition first_proc (pid r d : Z) (w : nat) (nm : list Z) (x : proc) : proc :=
  set_state RUNNABLE (set_cwd (Some w) (set_name (splice 0 nm (p_name x)) (set_tf tf_first (set_psz PGSIZE (set_pgdir d (embryo fk pid r x)))))).

(** Its memory: the pages it has are those it took from the free list. *)
Record first_mem (m m' : kstate) (initcode : list Z) (r d : Z) (l l' : list Z) : Prop := {
  fm_space : uspace kend m' l' d [0];
  fm_acct : r :: own (pages m') d [0] ++ l' ≡ₚ l;
  fm_dom : dom (pages m') = dom (pages m);
  fm_other : ∀ q, q ∉ l → pages m' !! q = pages m !! q;
  fm_code : holds (pages m') d 0 UW (splice 0 initcode zeros);
  fm_kernel : ∀ va, KERNBASE ≤ va < 4294967296 → pte (pages m') d va = kpte vdata va }.

(** [setupkvm] and [inituvm] with enough pages. *)
Lemma first_space m l initcode : KERNBASE < kend → vdata_ok vdata → heap kend m l → (67 ≤ length l)%nat → Z.of_nat (length initcode) < PGSIZE →
  ∃ d m1 m' l', setupkvm kend vdata m = Ok d m1 ∧ d ≠ 0 ∧ inituvm d initcode m1 = Ok tt m' ∧
    uspace kend m' l' d [0] ∧ own (pages m') d [0] ++ l' ≡ₚ l ∧ dom (pages m') = dom (pages m) ∧ (∀ q, q ∉ l → pages m' !! q = pages m !! q) ∧
    holds (pages m') d 0 UW (splice 0 initcode zeros) ∧ ∀ va, KERNBASE ≤ va < 4294967296 → pte (pages m') d va = kpte vdata va.
Proof.
  intros Hkend Hvd H Hl Hi.
  destruct (setupkvm_ok kend vdata m l Hkend Hvd H) as [(d & m1 & l1 & E1 & Hd & U1 & A1 & D1 & O1 & Hfew & P1)|(m1 & _ & [_ _ _ Hf])];
    [|unfold NKTAB in Hf; lia].
  pose proof (Permutation_length A1) as Hlen. rewrite length_app in Hlen. unfold NKTAB in Hfew.
  destruct l1 as [|r1 [|r2 l1]]; [cbn [length] in Hlen; lia..|].
  destruct (inituvm_ok kend m1 r1 r2 l1 d initcode U1 Hi) as (m' & l' & E2 & U2 & A2 & D2 & O2 & P2 & C2).
  pose proof (proj1 (Forall_forall _ _) (us_ok _ _ _ _ _ U1) _ (own_pg _ _ _)) as (_ & _ & _ & Hnz).
  exists d, m1, m', l'. split_and!; [done|lia|done|done|by rewrite A2|by rewrite D2| |done|].
  - intros q Hq. rewrite O2, O1; [done|done|]. by rewrite A1.
  - intros va Hva. rewrite P2 by done. apply P1. unfold KERNBASE in Hva. lia.
Qed.

Lemma userinit_ok s k p x0 l initcode w fs' : KERNBASE < kend → vdata_ok vdata → ready cpu_id s k → length (ps_proc s) = Z.to_nat NPROC →
  find_unused (ps_proc s) 0 = Some p → ps_proc s !! p = Some x0 → heap kend (fd_mem (ps_fd s)) l → (68 ≤ length l)%nat →
  Z.of_nat (length initcode) < PGSIZE → iget ROOTDEV ROOTINO (fd_fs (ps_fd s)) = Ok w fs' →
  ∃ nm r d m' l', safestrcpy INITNAME 16 = Some nm ∧
    userinit cpu_id me devsw kend vdata fk tr initcode s = Ok tt
      (st (pt_back cpu_id (set_initproc (Some p) (set_nextpid (next_pid (ps_nextpid s)) (pt_back cpu_id s k))) (popped (pushed k))) p
          (first_proc (ps_nextpid s) r d w nm x0) (set_fd_fs fs' (set_fd_mem m' (ps_fd s)))) ∧
    first_mem (fd_mem (ps_fd s)) m' initcode r d l l' ∧ r ≠ 0 ∧ d ≠ 0.
Proof.
  intros Hkend Hvd R Hlen Hf Hx0 H Hl Hi Eg. destruct l as [|r l]; [simpl in Hl; lia|]. simpl in Hl.
  assert (Hp : (p < length (ps_proc s))%nat) by (by eapply lookup_lt_Some).
  pose proof (proj1 (Forall_cons _ _ _) (hp_ok _ _ _ H)) as [(Hal & _ & _ & Hr0) _].
  destruct (allocproc_runs cpu_id fk tr s k r l p x0 R Hlen Hf Hx0 (hp_inv _ _ _ H) Hal) as (m1 & E1 & O1 & _).
  destruct (heap_stack _ m1 r l H O1) as (H1 & Hrok & Hr).
  destruct (first_space m1 l initcode Hkend Hvd H1) as (d & m2 & m' & l' & E2 & Hd & E3 & U & A & D & O & C & K); [lia|done|].
  assert (Hnm : ∃ nm, safestrcpy INITNAME 16 = Some nm) by (vm_compute; eauto). destruct Hnm as [nm Hnm].
  exists nm, r, d, m', l'. split; [done|]. split; [|split; [|split; [lia|done]]].
  2:{ destruct O1 as [_ _ D1 O1]. split; [done|by rewrite A|by rewrite D| |done|done]. intros q Hq. rewrite not_elem_of_cons in Hq. rewrite O, O1 by tauto. done. }
  unfold userinit. mstep E1. rewrite bind_modify. cbn [lift_opt]. rewrite bind_ret_l.
  set (base := set_initproc (Some p) (set_nextpid (next_pid (ps_nextpid s)) (pt_back cpu_id s k))).
  set (x1 := embryo fk (ps_nextpid s) r x0). set (fd1 := set_fd_mem m1 (ps_fd s)). change (set_initproc _ _) with (st base p x1 fd1) at 1.
  mstep (st_kmem base p (setupkvm kend vdata) x1 fd1 d m2 E2). set (fd2 := set_fd_mem m2 fd1).
  mstep (st_pset base p Hp (set_pgdir d) x1 fd2). set (x2 := set_pgdir d x1). rewrite (proj2 (Z.eqb_neq _ _) Hd).
  mstep (st_kmem base p (inituvm d initcode) x2 fd2 tt m' E3). set (fd3 := set_fd_mem m' fd2).
  mstep (st_pset base p Hp (set_psz PGSIZE) x2 fd3). set (x3 := set_psz PGSIZE x2). cbv zeta. fold tf_first.
  mstep (st_pset base p Hp (set_tf tf_first) x3 fd3). set (x4 := set_tf tf_first x3). mstep (st_pptr base p Hp x4 fd3).
  fold INITNAME. rewrite Hnm. cbn [lift_opt]. rewrite bind_ret_l.
  mstep (st_pset base p Hp (set_name (splice 0 nm (p_name x4))) x4 fd3). set (x5 := set_name _ x4).
  mstep (st_inodes base p (namei me devsw 0 [SLASH] name_buf) x5 fd3 _ _ (namei_root (fd_fs fd3) fs' w name_buf Eg)). set (fd4 := set_fd_fs fs' fd3).
  mstep (st_pset base p Hp (set_cwd (Some w)) x5 fd4). set (x6 := set_cwd (Some w) x5).
  assert (R6 : ready cpu_id (st base p x6 fd4) (popped (pushed k))) by (by destruct (ready_back cpu_id s k R)).
  mstep (acquire_pt_ok cpu_id _ _ R6).
  mstep (st_pset (pt_held cpu_id base (popped (pushed k))) p Hp (set_state RUNNABLE) x6 fd4).
  exact (release_pt_ok cpu_id (st base p x6 fd4) (st (pt_held cpu_id base (popped (pushed k))) p (set_state RUNNABLE x6) fd4) _ R6 eq_refl).
Qed.
End first.

(** ** The scheduler *)

Section scheduler.
Context {T : Type} `{!TxOps T}.
Context (cpu_id : nat).
Implicit Types (s : pstate (T := T)).

(** What a process needs to be switched to. *)
Definition can_run (x : proc) : Prop := p_kstack x ≠ 0 ∧ p_pgdir x ≠ 0.

(** The state in which the process in slot [i] goes on: its page table and its
    stack are in use, and the lock of the table is held until it releases it. *)
Record switched s s' (i : nat) (x : proc) : Prop := {
  sw_procs : ps_proc s' = <[i := set_state RUNNING x]> (ps_proc s);
  sw_cur : ps_cur s' = Some i;
  sw_cr3 : ps_cr3 s' = V2P (p_pgdir x);
  sw_stack : ps_tss s' = mktss (Z.shiftl SEG_KDATA 3) (p_kstack x + KSTACKSIZE) 0xFFFF (Z.shiftl SEG_TSS 3);
  sw_lock : lk (ps_sl s') = mkslock 1 (Some cpu_id);
  sw_cli : ∃ k, cpus (ps_sl s') !! cpu_id = Some k ∧ c_ncli k = 1 ∧ c_if k = false;
  sw_rest : ps_fd s' = ps_fd s ∧ ps_initproc s' = ps_initproc s ∧ ps_nextpid s' = ps_nextpid s ∧ ps_kpgdir s' = ps_kpgdir s ∧ ps_first s' = ps_first s }.

Lemma scheduler_from_skip s p n : ∀ i, (i ≤ p)%nat → (p ≤ length (ps_proc s))%nat →
  (∀ j y, (i ≤ j < p)%nat → ps_proc s !! j = Some y → p_state y ≠ RUNNABLE) →
  scheduler_from cpu_id (p - i + n) i s = scheduler_from cpu_id n p s.
Proof.
  intros i. remember (p - i)%nat as d eqn:Hd. revert i Hd. induction d as [|d IH]; intros i Hd Hi Hp Hz; [by replace i with p by lia|].
  destruct (lookup_lt_is_Some_2 (ps_proc s) i) as [y Hy]; [lia|]. cbn [Nat.add scheduler_from]. mstep (pptr_ok s i y Hy).
  rewrite bool_decide_false by (apply (Hz i); [lia|done]). cbn [negb]. apply IH; [lia..|]. intros j y' Hj. apply Hz. lia.
Qed.

(** With the lock of the table taken by a CPU whose interrupts were on. *)
Lemma scheduler_switches s k n i x : cpus (ps_sl s) !! cpu_id = Some k → c_ncli k = 1 → c_if k = false → lk (ps_sl s) = mkslock 1 (Some cpu_id) →
  ps_proc s !! i = Some x → p_state x = RUNNABLE → can_run x →
  ∃ s', scheduler_from cpu_id (S n) i s = Ok (Some i) s' ∧ switched s s' i x.
Proof.
  intros Hk Hn Hif Hl Hx Hr [Hs Hd]. cbn [scheduler_from]. mstep (pptr_ok s i x Hx). rewrite bool_decide_true by done. cbn [negb].
  rewrite bind_modify. set (s1 := set_cur (Some i) s). unfold switchuvm. rewrite !bind_assoc. mstep (pptr_ok s1 i x Hx).
  rewrite (proj2 (Z.eqb_neq _ _) Hs), (proj2 (Z.eqb_neq _ _) Hd).
  rewrite bind_assoc. mstep (on_sl_ok _ s1 _ _ (pushcli_ok cpu_id (ps_sl s1) k Hk)). rewrite !bind_assoc, !bind_modify, bind_assoc, !bind_modify, bind_assoc, bind_modify.
  set (s2 := set_cr3 _ _).
  assert (Hk2 : cpus (ps_sl s2) !! cpu_id = Some (pushed k)) by (apply list_lookup_insert_eq; by eapply lookup_lt_Some).
  mstep (on_sl_ok _ s2 _ _ (popcli_ok cpu_id (ps_sl s2) (pushed k) Hk2 eq_refl ltac:(simpl; lia))).
  set (s3 := set_sl _ s2). mstep (pset_ok s3 i x (set_state RUNNING) Hx). eexists. split; [reflexivity|].
  split; try done. exists (popped (pushed k)). split_and!.
  - apply list_lookup_insert_eq. by eapply lookup_lt_Some.
  - simpl. lia.
  - simpl. rewrite Hn. done.
Qed.

(** The state of the CPU with the lock of the table. *)
Definition sched_on (k : cpu) : cpu := mkcpu true (c_ncli k) (c_intena k).
Definition sched_sti s (k : cpu) : pstate := set_sl (set_cpus (<[cpu_id := sched_on k]> (cpus (ps_sl s))) (ps_sl s)) s.

Lemma sched_ready s k : cpus (ps_sl s) !! cpu_id = Some k → c_ncli k = 0 → lk (ps_sl s) = initlock → ready cpu_id (sched_sti s k) (sched_on k).
Proof. intros Hk Hn Hl. split; [apply list_lookup_insert_eq; by eapply lookup_lt_Some|simpl; lia|simpl; lia|done]. Qed.

Lemma scheduler_start s k : cpus (ps_sl s) !! cpu_id = Some k → c_ncli k = 0 → lk (ps_sl s) = initlock →
  scheduler_round cpu_id s = scheduler_from cpu_id (Z.to_nat NPROC) 0 (pt_held cpu_id (sched_sti s k) (sched_on k)).
Proof.
  intros Hk Hn Hl. unfold scheduler_round.
  mstep (on_sl_ok _ s _ _ (set_cpu_ok cpu_id (ps_sl s) k (λ c, mkcpu true (c_ncli c) (c_intena c)) Hk)).
  by mstep (acquire_pt_ok cpu_id _ _ (sched_ready s k Hk Hn Hl)).
Qed.

Lemma scheduler_finds s k i x : cpus (ps_sl s) !! cpu_id = Some k → c_ncli k = 0 → lk (ps_sl s) = initlock → length (ps_proc s) = Z.to_nat NPROC →
  ps_proc s !! i = Some x → p_state x = RUNNABLE → can_run x → (∀ j y, (j < i)%nat → ps_proc s !! j = Some y → p_state y ≠ RUNNABLE) →
  ∃ s', scheduler_round cpu_id s = Ok (Some i) s' ∧ switched s s' i x.
Proof.
  intros Hk Hn Hl Hlen Hx Hr Hc Hj. rewrite (scheduler_start s k Hk Hn Hl). set (s2 := pt_held cpu_id _ _). pose proof (lookup_lt_Some _ _ _ Hx) as Hi.
  assert (Hk2 : cpus (ps_sl s2) !! cpu_id = Some (pushed (sched_on k))) by (apply list_lookup_insert_eq, (lookup_lt_Some _ _ _ (rd_cpu _ _ _ (sched_ready s k Hk Hn Hl)))).
  destruct (scheduler_switches s2 (pushed (sched_on k)) (Z.to_nat NPROC - i - 1) i x Hk2) as (s' & E & W); [simpl; lia|done..|].
  exists s'. split; [|by destruct W]. rewrite <- E. replace (Z.to_nat NPROC) with (i - 0 + S (Z.to_nat NPROC - i - 1))%nat at 1 by lia.
  apply scheduler_from_skip; [lia|change (ps_proc s2) with (ps_proc s); lia|]. intros j y Hlt. apply Hj. lia.
Qed.

Lemma scheduler_idle s k : cpus (ps_sl s) !! cpu_id = Some k → c_ncli k = 0 → lk (ps_sl s) = initlock → length (ps_proc s) = Z.to_nat NPROC →
  (∀ j y, ps_proc s !! j = Some y → p_state y ≠ RUNNABLE) →
  ∃ s', scheduler_round cpu_id s = Ok None s' ∧ ps_proc s' = ps_proc s ∧ ps_fd s' = ps_fd s ∧ lk (ps_sl s') = initlock ∧
      ∃ k', cpus (ps_sl s') !! cpu_id = Some k' ∧ c_ncli k' = 0 ∧ c_if k' = true.
Proof.
  intros Hk Hn Hl Hlen Hj. pose proof (sched_ready s k Hk Hn Hl) as R. rewrite (scheduler_start s k Hk Hn Hl). set (s2 := pt_held cpu_id _ _). eexists. split.
  - replace (Z.to_nat NPROC) with (Z.to_nat NPROC - 0 + 0)%nat at 1 by lia.
    rewrite scheduler_from_skip; [|lia|change (ps_proc s2) with (ps_proc s); lia|intros j y _; by apply Hj].
    cbn [scheduler_from]. by mstep (release_pt_ok cpu_id _ s2 _ R eq_refl).
  - split_and!; [done|done|done|]. exists (popped (pushed (sched_on k))).
    split; [apply list_lookup_insert_eq, (lookup_lt_Some _ _ _ (rd_cpu _ _ _ R))|]. simpl. by rewrite Hn.
Qed.

(** C18: one pass of the scheduler: with interrupts enabled it takes the lock of the
    table and switches to the first process that is runnable, whose page table and
    kernel stack are then in use; without one it changes no process and
    gives the lock back. *)
Theorem scheduler_correct s k : cpus (ps_sl s) !! cpu_id = Some k → c_ncli k = 0 → lk (ps_sl s) = initlock →
  length (ps_proc s) = Z.to_nat NPROC → (∀ i x, ps_proc s !! i = Some x → p_state x = RUNNABLE → can_run x) →
  ∃ s', match list_find (λ x, p_state x = RUNNABLE) (ps_proc s) with
  | Some (i, x) => scheduler_round cpu_id s = Ok (Some i) s' ∧ switched s s' i x
  | None => scheduler_round cpu_id s = Ok None s' ∧ ps_proc s' = ps_proc s ∧ ps_fd s' = ps_fd s ∧ lk (ps_sl s') = initlock ∧
      ∃ k', cpus (ps_sl s') !! cpu_id = Some k' ∧ c_ncli k' = 0 ∧ c_if k' = true
  end.
Proof.
  intros Hk Hn Hl Hlen Hrun. destruct (list_find _ _) as [[i x]|] eqn:E.
  - apply list_find_Some in E as (Hx & Hr & Hj). apply (scheduler_finds s k); [done..|by eapply Hrun|]. intros j y Hlt Hy. by apply (Hj j y).
  - apply list_find_None in E. rewrite Forall_lookup in E. by apply (scheduler_idle s k).
Qed.
End scheduler.

Lemma scheduler_correct_witness : ∃ s', scheduler_round 0 (set_procs ([p_init; set_state RUNNABLE (set_pgdir page2 (set_kstack page1 (p_shell2 page2)))] ++ replicate 62 proc0) (sys2 page2 vm3)) = Ok (Some 1%nat) s'
  ∧ ps_cr3 s' = V2P page2.
Proof.
  set (x := set_state RUNNABLE _). set (s := set_procs _ _).
  destruct (scheduler_correct 0 s cpu_on) as (s' & H); [done|done|done|done| |].
  { intros i y Hy Hr. destruct i as [|[|i]]; [injection Hy as <-; done|injection Hy as <-; done|].
    assert (Hz : replicate 62 proc0 !! i = Some y) by exact Hy. apply lookup_replicate in Hz as [-> _]. done. }
  exists s'. change (list_find _ _) with (Some (1%nat, x)) in H. destruct H as [E W]. split; [exact E|]. apply W.
Defined.
