(* ===== verification/Wakeup.v ===== *)
(** * Sleeping and waking: no wakeup is lost

    [sleep] (proc.c) releases the caller's lock only after it holds the lock of
    the process table, and [wakeup] runs with that lock held; the comment in
    [sleep] claims that therefore no wakeup is missed.  Here any number of
    processes call [acquiresleep] and [releasesleep] of sleeplock.c, the
    callers of [sleep] and [wakeup]; [cond] is that the lock is not taken:

      acquiresleep:  acquire(lk); while(!cond) sleep(chan, lk); cond = 0; release(lk)
      releasesleep:  acquire(lk); cond = 1; wakeup(chan); release(lk)

    (pipe.c and log.c wait in the same way.)  A step is what one process does between two
    accesses to shared state: the steps of the waiter inside [sleep] and those of the
    maker inside [wakeup] are the statements of the two functions.  [sleep_steps], [resume_steps] and
    [wakeup_steps] show this of the definitions in Proc.v: from a state of the kernel with the
    same table, they end with the table that the steps lead to.  Process [i] is thread [i]. *)

From S2P Require Import Prelude Params Spinlock Proc.

Inductive tpc : Type :=
| W_start     (* before acquire(lk) *)
| W_test      (* holds lk, at the test of the loop *)
| W_sleep     (* holds lk, in sleep before acquire(&ptable.lock) *)
| W_both      (* holds both locks, before release(lk) *)
| W_mark      (* holds ptable.lock, before the stores to chan and state *)
| W_out       (* switched out; the scheduler has released ptable.lock *)
| W_back      (* running again with ptable.lock held, before chan = 0 *)
| W_again     (* before acquire(lk) at the end of sleep *)
| M_start     (* before acquire(lk) *)
| M_set       (* holds lk, before cond = 1 *)
| M_wakeup    (* holds lk, before acquire(&ptable.lock) of wakeup *)
| M_scan      (* holds both, before wakeup1 *)
| M_unlock.   (* holds both, after wakeup1 *)

#[global] Instance tpc_eq_dec : EqDecision tpc.
Proof. solve_decision. Defined.

Record wst : Type := mkw {
  w_lk : option nat;        (* who holds lk *)
  w_pt : option nat;        (* who holds ptable.lock *)
  w_cond : bool;
  w_tbl : list proc;
  w_pc : list tpc }.

Section wakeup.
Context (chan : Z).

(** The stores of [sleep] to the process, and what the scheduler and the end
    of [sleep] do to it. *)
Definition go_to_sleep (p : proc) : proc := set_state SLEEPING (set_chan chan p).
Definition run_again (p : proc) : proc := set_state RUNNING p.
Definition tidy_up (p : proc) : proc := set_chan 0 p.

Inductive wstep : wst → wst → Prop :=
| ws_acquire i pt c t l :
    l !! i = Some W_start ∨ l !! i = Some W_again →
    wstep (mkw None pt c t l) (mkw (Some i) pt c t (<[i := W_test]> l))
| ws_true i h pt t l :
    l !! i = Some W_test →
    wstep (mkw h pt true t l) (mkw None pt false t (<[i := W_start]> l))
| ws_false i h pt t l :
    l !! i = Some W_test →
    wstep (mkw h pt false t l) (mkw h pt false t (<[i := W_sleep]> l))
| ws_ptlock i h c t l :
    l !! i = Some W_sleep →
    wstep (mkw h None c t l) (mkw h (Some i) c t (<[i := W_both]> l))
| ws_release i h pt c t l :
    l !! i = Some W_both →
    wstep (mkw h pt c t l) (mkw None pt c t (<[i := W_mark]> l))
| ws_mark i h pt c t l :
    l !! i = Some W_mark →
    wstep (mkw h pt c t l) (mkw h None c (alter go_to_sleep i t) (<[i := W_out]> l))
| ws_sched i h c t l p :
    l !! i = Some W_out → t !! i = Some p → p_state p = RUNNABLE →
    wstep (mkw h None c t l) (mkw h (Some i) c (alter run_again i t) (<[i := W_back]> l))
| ws_tidy i h pt c t l :
    l !! i = Some W_back →
    wstep (mkw h pt c t l) (mkw h None c (alter tidy_up i t) (<[i := W_again]> l))
| ws_macquire i pt c t l :
    l !! i = Some M_start →
    wstep (mkw None pt c t l) (mkw (Some i) pt c t (<[i := M_set]> l))
| ws_set i h pt c t l :
    l !! i = Some M_set →
    wstep (mkw h pt c t l) (mkw h pt true t (<[i := M_wakeup]> l))
| ws_mptlock i h c t l :
    l !! i = Some M_wakeup →
    wstep (mkw h None c t l) (mkw h (Some i) c t (<[i := M_scan]> l))
| ws_scan i h pt c t l :
    l !! i = Some M_scan →
    wstep (mkw h pt c t l) (mkw h pt c (wakeup_one chan <$> t) (<[i := M_unlock]> l))
| ws_unlock i h pt c t l :
    l !! i = Some M_unlock →
    wstep (mkw h pt c t l) (mkw None None c t (<[i := M_start]> l)).

(** The processes run and are waiters and makers at their start. *)
Inductive wreach : wst → Prop :=
| wr_start c t l :
    Forall (λ p, p_state p = RUNNING) t → Forall (λ k, k = W_start ∨ k = M_start) l →
    wreach (mkw None None c t l)
| wr_step x y : wreach x → wstep x y → wreach y.

Definition holds_lk (k : tpc) : bool :=
  match k with W_test | W_sleep | W_both | M_set | M_wakeup | M_scan | M_unlock => true | _ => false end.
Definition holds_pt (k : tpc) : bool :=
  match k with W_both | W_mark | W_back | M_scan | M_unlock => true | _ => false end.

(** A maker has set the condition and not yet scanned the table. *)
Definition pending (l : list tpc) : Prop := ∃ j, l !! j = Some M_wakeup ∨ l !! j = Some M_scan.

Record winv (x : wst) : Prop := {
  wi_lk : ∀ i, w_lk x = Some i ↔ ∃ k, w_pc x !! i = Some k ∧ holds_lk k = true;
  wi_pt : ∀ i, w_pt x = Some i ↔ ∃ k, w_pc x !! i = Some k ∧ holds_pt k = true;
  wi_test : ∀ i k, w_pc x !! i = Some k → (k = W_sleep ∨ k = W_both) → w_cond x = false;
  wi_mark : ∀ i, w_pc x !! i = Some W_mark → w_cond x = false ∨ ∃ j, w_pc x !! j = Some M_wakeup;
  wi_out : ∀ i p, w_tbl x !! i = Some p → p_state p = SLEEPING →
    p_chan p = chan ∧ w_pc x !! i = Some W_out ∧ (w_cond x = false ∨ pending (w_pc x)) }.

(** ** Who holds a lock *)

Definition held_by (f : tpc → bool) (h : option nat) (l : list tpc) : Prop :=
  ∀ i, h = Some i ↔ ∃ k, l !! i = Some k ∧ f k = true.

Lemma held_lookup (l : list tpc) i k' j : (i < length l)%nat →
  <[i := k']> l !! j = if decide (i = j) then Some k' else l !! j.
Proof.
  intros Hi. destruct (decide (i = j)) as [->|]; [by apply list_lookup_insert_eq|by apply list_lookup_insert_ne].
Qed.

Lemma held_keep f h l i k k' : l !! i = Some k → f k' = f k → held_by f h l → held_by f h (<[i := k']> l).
Proof.
  intros Hi Hf H j. rewrite (H j), held_lookup by (by eapply lookup_lt_Some).
  destruct (decide (i = j)) as [->|]; [|done].
  split; intros (x & Hx & Hfx); eexists; (split; [done|]); congruence.
Qed.

Lemma held_take f l i k k' : l !! i = Some k → f k' = true → held_by f None l →
  held_by f (Some i) (<[i := k']> l).
Proof.
  intros Hi Hf H j. rewrite held_lookup by (by eapply lookup_lt_Some).
  destruct (decide (i = j)) as [->|Hne]; [split; eauto|]. split; [congruence|].
  intros Hx. apply H in Hx. done.
Qed.

Lemma held_drop f h l i k k' : l !! i = Some k → f k = true → f k' = false → held_by f h l →
  held_by f None (<[i := k']> l).
Proof.
  intros Hi Hf Hf' H j. rewrite held_lookup by (by eapply lookup_lt_Some). split; [done|].
  assert (h = Some i) as -> by (apply H; eauto).
  destruct (decide (i = j)) as [->|Hne]; intros (x & Hx & Hfx); [congruence|].
  assert (Some i = Some j) by (apply H; eauto). congruence.
Qed.

Lemma held_unique f h l i j k k' : held_by f h l → l !! i = Some k → l !! j = Some k' →
  f k = true → f k' = true → i = j.
Proof.
  intros H Hi Hj Hf Hf'. assert (h = Some i) by (apply H; eauto).
  assert (h = Some j) by (apply H; eauto). congruence.
Qed.

Lemma pending_insert l i k k' : l !! i = Some k → k ≠ M_wakeup → k ≠ M_scan →
  pending l → pending (<[i := k']> l).
Proof.
  intros Hi H1 H2 [j Hj]. exists j. rewrite held_lookup by (by eapply lookup_lt_Some).
  destruct (decide (i = j)) as [->|]; [|done]. destruct Hj; congruence.
Qed.

(** ** The invariant is preserved *)

(** A step of thread [i] from [k] to [k'] that leaves the condition and the
    sleeping processes as they are. *)
Lemma winv_move i k k' x y : winv x → w_pc x !! i = Some k → w_pc y = <[i := k']> (w_pc x) →
  held_by holds_lk (w_lk y) (w_pc y) → held_by holds_pt (w_pt y) (w_pc y) →
  k ≠ M_wakeup → k ≠ M_scan →
  (w_cond y = w_cond x ∨ w_cond y = false) →
  (k' = W_sleep ∨ k' = W_both → w_cond y = false) →
  (k' = W_mark → w_cond y = false) →
  (∀ j p, w_tbl y !! j = Some p → p_state p = SLEEPING →
     (w_tbl x !! j = Some p ∧ (k = W_out → i ≠ j))
     ∨ (i = j ∧ p_chan p = chan ∧ k = W_mark ∧ k' = W_out)) →
  winv y.
Proof.
  intros [Il Ip It Im Io] Hk Hpc Hl Hp Hk1 Hk2 Hc Hs Hm Ht.
  assert (Hlt : (i < length (w_pc x))%nat) by by eapply lookup_lt_Some.
  assert (Hc' : ∀ P : Prop, w_cond x = false ∨ P → w_cond y = false ∨ P).
  { intros P [?|?]; [left|by right]. destruct Hc; congruence. }
  split; [done|done| | |].
  - intros j q. rewrite Hpc, held_lookup by done. destruct (decide (i = j)) as [->|].
    + intros [= <-]. done.
    + intros Hj Hq. specialize (It j q Hj Hq). destruct Hc; congruence.
  - intros j. rewrite Hpc, held_lookup by done. destruct (decide (i = j)) as [->|].
    + intros [= E]. left. auto.
    + intros Hj. apply Hc'. destruct (Im j Hj) as [?|[m Hj']]; [by left|right]. exists m.
      rewrite held_lookup by done. destruct (decide (i = m)) as [->|]; [congruence|done].
  - intros j p Hj Hst. destruct (Ht j p Hj Hst) as [[Hx Hne]|(-> & Hch & -> & ->)].
    + destruct (Io j p Hx Hst) as (? & Hout & Hcp). split_and!; [done|..].
      * rewrite Hpc, held_lookup by done. destruct (decide (i = j)) as [->|]; [|done].
        rewrite Hout in Hk. injection Hk as <-. by destruct Hne.
      * apply Hc'. destruct Hcp; [by left|right]. rewrite Hpc. by eapply pending_insert.
    + split_and!; [done|by rewrite Hpc, list_lookup_insert_eq|]. apply Hc'.
      destruct (Im j Hk) as [?|[m Hj']]; [by left|right]. rewrite Hpc.
      eapply pending_insert; [done..|]. exists m. by left.
Qed.

Lemma winv_set i h pt c t l : winv (mkw h pt c t l) → l !! i = Some M_set →
  winv (mkw h pt true t (<[i := M_wakeup]> l)).
Proof.
  intros [Il Ip It Im Io] Hi. simpl in *. assert (Hlt : (i < length l)%nat) by by eapply lookup_lt_Some.
  split; simpl.
  - by apply (held_keep holds_lk h l i M_set).
  - by apply (held_keep holds_pt pt l i M_set).
  - intros j k. rewrite held_lookup by done. destruct (decide (i = j)) as [->|Hne].
    { intros [= <-] [?|?]; done. }
    intros Hj Hk. exfalso. apply Hne. eapply (held_unique holds_lk h l i j M_set k); try done.
    by destruct Hk as [-> | ->].
  - intros j _. right. exists i. by rewrite list_lookup_insert_eq.
  - intros j p Hj Hst. destruct (Io j p Hj Hst) as (? & Hout & _). split_and!; [done|..].
    + rewrite held_lookup by done. destruct (decide (i = j)); [congruence|done].
    + right. exists i. left. by rewrite list_lookup_insert_eq.
Qed.

Lemma winv_mptlock i h c t l : winv (mkw h None c t l) → l !! i = Some M_wakeup →
  winv (mkw h (Some i) c t (<[i := M_scan]> l)).
Proof.
  intros [Il Ip It Im Io] Hi. simpl in *. assert (Hlt : (i < length l)%nat) by by eapply lookup_lt_Some.
  split; simpl.
  - by apply (held_keep holds_lk h l i M_wakeup).
  - by apply (held_take holds_pt l i M_wakeup).
  - intros j k. rewrite held_lookup by done. destruct (decide (i = j)) as [->|]; [|apply It].
    intros [= <-] [?|?]; done.
  - intros j. rewrite held_lookup by done. destruct (decide (i = j)) as [->|]; [done|].
    intros Hj. assert (None = Some j) by (apply Ip; eauto). done.
  - intros j p Hj Hst. destruct (Io j p Hj Hst) as (? & Hout & _). split_and!; [done|..].
    + rewrite held_lookup by done. destruct (decide (i = j)); [congruence|done].
    + right. exists i. right. by rewrite list_lookup_insert_eq.
Qed.

Lemma winv_scan i h pt c t l : winv (mkw h pt c t l) → l !! i = Some M_scan →
  winv (mkw h pt c (wakeup_one chan <$> t) (<[i := M_unlock]> l)).
Proof.
  intros [Il Ip It Im Io] Hi. simpl in *. assert (Hlt : (i < length l)%nat) by by eapply lookup_lt_Some.
  split; simpl.
  - by apply (held_keep holds_lk h l i M_scan).
  - by apply (held_keep holds_pt pt l i M_scan).
  - intros j k. rewrite held_lookup by done. destruct (decide (i = j)) as [->|]; [|apply It].
    intros [= <-] [?|?]; done.
  - intros j. rewrite held_lookup by done. destruct (decide (i = j)) as [->|]; [done|].
    intros Hj. destruct (Im j Hj) as [?|[m Hm]]; [by left|right]. exists m.
    rewrite held_lookup by done. destruct (decide (i = m)); [congruence|done].
  - intros j p Hj Hst. apply list_lookup_fmap_Some in Hj as (q & -> & Hq). exfalso. revert Hst. unfold wakeup_one.
    case_bool_decide as Hs; simpl; [|done]. destruct (Io j q Hq Hs) as (-> & _). by rewrite Z.eqb_refl.
Qed.

(** A process of the table after an update of slot [i]. *)
Lemma alter_sleeping (f : proc → proc) (i : nat) (t : list proc) (j : nat) (p : proc) : alter f i t !! j = Some p → p_state p = SLEEPING →
  (t !! j = Some p ∧ i ≠ j) ∨ (i = j ∧ ∃ q, t !! j = Some q ∧ p = f q).
Proof.
  intros Hj Hs. destruct (decide (i = j)) as [->|].
  - right. split; [done|]. rewrite list_lookup_alter_eq in Hj. apply fmap_Some in Hj as (q & ? & ->). eauto.
  - left. by rewrite list_lookup_alter_ne in Hj.
Qed.

Lemma winv_step x y : winv x → wstep x y → winv y.
Proof.
  intros I H. pose proof I as [Il Ip It Im Io].
  destruct H as [i pt c t l [Hi|Hi]|i h pt t l Hi|i h pt t l Hi|i h c t l Hi|i h pt c t l Hi|i h pt c t l Hi
    |i h c t l p Hi Hp Hr|i h pt c t l Hi|i pt c t l Hi|i h pt c t l Hi|i h c t l Hi|i h pt c t l Hi|i h pt c t l Hi];
    simpl in *; try (by eapply winv_set); try (by eapply winv_mptlock); try (by eapply winv_scan);
    eapply (winv_move i); simpl; try exact I; try exact Hi; try reflexivity; try done;
    try (by eapply held_take); try (by eapply held_keep); try (by eapply held_drop); try (by left);
    try (intros j q Hj Hs; by left); try (by right); try (intros [?|?]; (done || by eapply It; eauto));
    try (intros j q Hj Hs; destruct (alter_sleeping _ _ _ _ _ Hj Hs) as [[??]|(<- & q' & Hq' & ->)];
         [by left|first [done|by right|idtac]]).
  - intros _. by apply (It i W_both); [|right].
  - exfalso. simpl in Hq'. destruct (Io i q' Hq' Hs) as (_ & Hout & _). congruence.
Qed.

Lemma winv_reach x : wreach x → winv x.
Proof.
  induction 1 as [c t l Ht Hl|x y _ IH E]; [|by eapply winv_step].
  rewrite Forall_lookup in Ht. rewrite Forall_lookup in Hl. split; simpl.
  1, 2: intros i; split; [done|]; intros (k & Hk & Hf); by destruct (Hl _ _ Hk) as [-> | ->].
  - intros i k Hk Hc. destruct (Hl _ _ Hk) as [-> | ->]; by destruct Hc.
  - intros i Hk. destruct (Hl _ _ Hk); congruence.
  - intros i p Hp Hs. rewrite (Ht _ _ Hp) in Hs. done.
Qed.
End wakeup.

(** ** The steps are those of sleep and wakeup *)

Section code.
Context {T : Type} (cpu_id : nat) (chan : Z).
Implicit Types (s : pstate (T := T)) (l : list tpc).

Lemma alter_insert (f : proc → proc) (i : nat) (t : list proc) x : t !! i = Some x → alter f i t = <[i := f x]> t.
Proof.
  intros Hx. apply list_eq. intros j. destruct (decide (i = j)) as [<-|].
  - rewrite list_lookup_alter_eq, Hx, list_lookup_insert_eq by (by eapply lookup_lt_Some). done.
  - by rewrite list_lookup_alter_ne, list_lookup_insert_ne.
Qed.

(** [sleep] up to the switch, where [rel] gives back the lock of the caller and leaves the
    CPU with the lock of the table only. *)
Lemma sleep_steps s k cp x acq rel sb s0 k0 c l :
  ready cpu_id s k → ps_cur s = Some cp → ps_proc s !! cp = Some x →
  rel (pt_held cpu_id (pt_back cpu_id s k) (popped (pushed k))) = Ok tt sb → ps_proc sb = ps_proc s → ps_cur sb = Some cp →
  ready cpu_id s0 k0 → c_ncli k0 = 0 → ps_sl sb = ps_sl (pt_held cpu_id s0 k0) → l !! cp = Some W_sleep →
  ∃ s', sleep cpu_id chan (LkOther acq rel) s = Blocked SWTCH s' ∧ ps_sl s' = ps_sl sb ∧
    rtc (wstep chan) (mkw (Some cp) None c (ps_proc s) l) (mkw None None c (ps_proc s') (<[cp := W_out]> l)).
Proof.
  intros R Hc Hx Er Hp Hcb R0 Hk0 Hsl Hl. unfold sleep. mstep (myproc_ok cpu_id s k R). rewrite Hc.
  rewrite bind_assoc. mstep (acquire_pt_ok cpu_id _ _ (ready_back cpu_id s k R)). mstep Er. rewrite <- Hp in Hx.
  mstep (pset_ok sb cp x (set_chan chan) Hx). set (s2 := set_procs _ sb). assert (Hlt := lookup_lt_Some _ _ _ Hx).
  assert (Hx2 : ps_proc s2 !! cp = Some (set_chan chan x)) by by apply list_lookup_insert_eq.
  mstep (pset_ok s2 cp _ (set_state SLEEPING) Hx2). set (s3 := set_procs _ s2).
  assert (Hp3 : ps_proc s3 = alter (go_to_sleep chan) cp (ps_proc s)).
  { unfold s3, s2. cbn [ps_proc set_procs]. rewrite list_insert_insert_eq, <- Hp. symmetry. by apply (alter_insert (go_to_sleep chan)). }
  exists s3. split_and!; [|done|].
  - apply (sched_ok cpu_id s0 s3 k0 cp (go_to_sleep chan x) R0); try done. rewrite Hp3, list_lookup_alter_eq, <- Hp, Hx. done.
  - assert (Hll := lookup_lt_Some _ _ _ Hl). rewrite Hp3.
    eapply rtc_l; [by apply (ws_ptlock chan cp)|]. eapply rtc_l; [apply (ws_release chan cp); by apply list_lookup_insert_eq|].
    eapply rtc_l; [apply (ws_mark chan cp); apply list_lookup_insert_eq; by rewrite length_insert|].
    by rewrite !list_insert_insert_eq.
Qed.

(** [sleep] after the switch: the process runs with the lock of the table, which the scheduler had taken, and
    the interrupt state [ia] of its own; [acq] takes the lock of the caller again. *)
Lemma resume_steps s k cp x acq rel ia s' c l :
  ready cpu_id s k → c_ncli k = 0 → c_if k = ia → ps_cur s = Some cp → ps_proc s !! cp = Some x →
  acq (set_procs (<[cp := set_chan 0 x]> (ps_proc s)) (pt_back cpu_id s k)) = Ok tt s' →
  ps_proc s' = <[cp := set_chan 0 x]> (ps_proc s) → l !! cp = Some W_back →
  sleep_resume cpu_id ia (LkOther acq rel) (pt_held cpu_id s k) = Ok tt s' ∧
  rtc (wstep chan) (mkw None (Some cp) c (ps_proc s) l) (mkw (Some cp) None c (ps_proc s') (<[cp := W_test]> l)).
Proof.
  intros R Hk Hia Hc Hx Ea Hp Hl. assert (Hlt := lookup_lt_Some _ _ _ (rd_cpu _ _ _ R)). split.
  - unfold sleep_resume, sched_resume.
    assert (E1 : cpus (ps_sl (pt_held cpu_id s k)) !! cpu_id = Some (pushed k)) by (by apply list_lookup_insert_eq).
    mstep (on_sl_ok _ (pt_held cpu_id s k) _ _ (set_cpu_ok _ _ _ (λ c, mkcpu (c_if c) (c_ncli c) ia) E1)).
    assert (E2 : set_sl (set_cpus (<[cpu_id := mkcpu (c_if (pushed k)) (c_ncli (pushed k)) ia]> (cpus (ps_sl (pt_held cpu_id s k)))) (ps_sl (pt_held cpu_id s k))) (pt_held cpu_id s k) = pt_held cpu_id s k).
    { unfold pt_held, pushed, set_cpus, set_sl. cbn. by rewrite Hk, Hia, list_insert_insert_eq. }
    rewrite E2. unfold curproc. rewrite bind_assoc. mstep (myproc_locked cpu_id s (pt_held cpu_id s k) k R eq_refl).
    change (ps_cur (pt_held cpu_id s k)) with (ps_cur s). rewrite Hc. cbn [lift_opt]. rewrite bind_ret_l.
    mstep (pset_ok (pt_held cpu_id s k) cp x (set_chan 0) Hx). set (s2 := set_procs _ _).
    mstep (release_pt_ok cpu_id s s2 k R eq_refl). exact Ea.
  - assert (Hll := lookup_lt_Some _ _ _ Hl). rewrite Hp, <- (alter_insert (set_chan 0) _ _ x Hx).
    eapply rtc_l; [by apply (ws_tidy chan cp)|]. eapply rtc_l; [apply (ws_acquire chan cp); right; by apply list_lookup_insert_eq|].
    by rewrite list_insert_insert_eq.
Qed.

Lemma wakeup_steps s k i c l : ready cpu_id s k → length (ps_proc s) = Z.to_nat NPROC → l !! i = Some M_wakeup →
  ∃ s', wakeup cpu_id chan s = Ok tt s' ∧
    rtc (wstep chan) (mkw (Some i) None c (ps_proc s) l) (mkw (Some i) (Some i) c (ps_proc s') (<[i := M_unlock]> l)).
Proof.
  intros R Hlen Hl. eexists. split; [by apply wakeup_ok|]. assert (Hll := lookup_lt_Some _ _ _ Hl).
  eapply rtc_l; [by apply (ws_mptlock chan i)|]. eapply rtc_l; [apply (ws_scan chan i); by apply list_lookup_insert_eq|].
  by rewrite list_insert_insert_eq.
Qed.
End code.

(** ** The theorem *)

(** C13: no wakeup is lost.  In every reachable state of any number of waiters
    and makers, if the condition holds and no maker is between setting it and
    scanning the table, then no process is asleep on the channel: whoever went
    to sleep has been made runnable.  A process that sleeps is always one that
    [sleep] has switched out. *)
Theorem no_lost_wakeup chan x i p : wreach chan x →
  w_tbl x !! i = Some p → p_state p = SLEEPING →
  w_pc x !! i = Some W_out ∧ p_chan p = chan ∧
  (w_cond x = false ∨ ∃ j, w_pc x !! j = Some M_wakeup ∨ w_pc x !! j = Some M_scan).
Proof.
  intros H Hi Hs. destruct (wi_out _ _ (winv_reach chan x H) i p Hi Hs) as (? & ? & Hp).
  split_and!; try done.
Qed.

(** A waiter asleep, a maker that has set the condition and not yet scanned. *)
Definition running : proc := set_state RUNNING proc0.
Definition race : wst :=
  mkw (Some 1%nat) None true [go_to_sleep 7 running; running] [W_out; M_wakeup].

Lemma race_reach : wreach 7 race.
Proof.
  eapply wr_step; [eapply wr_step; [eapply wr_step; [eapply wr_step; [eapply wr_step; [eapply wr_step;
    [eapply wr_step|]|]|]|]|]|].
  - apply (wr_start 7 false [running; running] [W_start; M_start]).
    + by repeat constructor.
    + apply Forall_cons; split; [by left|]. apply Forall_singleton. by right.
  - apply (ws_acquire 7 0). by left.
  - by apply (ws_false 7 0).
  - by apply (ws_ptlock 7 0).
  - by apply (ws_release 7 0).
  - by apply (ws_macquire 7 1).
  - by apply (ws_mark 7 0).
  - by apply (ws_set 7 1).
Qed.

Lemma no_lost_wakeup_witness :
  wreach 7 race ∧ w_pc race !! 0%nat = Some W_out.
Proof.
  split; [exact race_reach|].
  apply (no_lost_wakeup 7 race 0 (go_to_sleep 7 running) race_reach); reflexivity.
Defined.
