(* ===== verification/Syscall.v ===== *)
(** * System call arguments: syscall.c, and user memory

    A system call finds its arguments in the memory of the process, through
    the page table that is loaded.  [uread] and [uwrite] are the accesses the
    kernel makes through pointers into that memory; an access to a page that
    is not mapped is a fault ([Undef]).  The argument functions return [None]
    where the code returns -1.  SysArg.v shows that an accepted argument lies
    within the process. *)

From S2P Require Import Prelude Params BlockDev Tx Fs Kalloc Vm File Proc.

(** ** User memory *)

Definition uread1 (pg va : Z) : M kstate Z :=
  s ← get;
  if negb (has (pte (pages s) pg va) PTE_P) then undef else
  lift_opt (ubyte (pages s) pg va).
Fixpoint uread (pg va : Z) (n : nat) : M kstate (list Z) :=
  match n with
  | O => mret []
  | S n' => b ← uread1 pg va; bs ← uread pg (u32 (va + 1)) n'; mret (b :: bs)
  end.

Definition uwrite1 (pg va b : Z) : M kstate unit :=
  s ← get;
  if negb (has (pte (pages s) pg va) PTE_P) then undef else
  d ← page_at (upage (pages s) pg va);
  page_set (upage (pages s) pg va) (<[Z.to_nat (va mod PGSIZE) := b]> d).
Fixpoint uwrite (pg va : Z) (bs : list Z) : M kstate unit :=
  match bs with
  | [] => mret tt
  | b :: bs' => uwrite1 pg va b;; uwrite pg (u32 (va + 1)) bs'
  end.

(** The string at [va]: its bytes up to a nul that is below [va + n]. *)
Fixpoint ustring (pg va : Z) (n : nat) : M kstate (option (list Z)) :=
  match n with
  | O => mret None
  | S n' =>
      b ← uread1 pg va;
      if b =? 0 then mret (Some []) else
      r ← ustring pg (u32 (va + 1)) n';
      mret (cons b <$> r)
  end.

Section syscall.
Context {T : Type} `{!TxOps T}.
Context (cpu_id : nat).
Notation M := (M (pstate (T := T))).

(** The running process, and its page directory. *)
Definition thisproc : M proc := p ← curproc cpu_id; pptr p.

Definition fetchint (addr : Z) : M (option Z) :=
  x ← thisproc;
  if (p_sz x <=? addr) || (p_sz x <? u32 (addr + 4)) then mret None else
  bs ← on_kmem (uread (p_pgdir x) addr 4);
  mret (Some (s32 (le_val bs))).

(** [fetchstr] returns the string; its length is the value of the function. *)
Definition fetchstr (addr : Z) : M (option (list Z)) :=
  x ← thisproc;
  if p_sz x <=? addr then mret None else
  on_kmem (ustring (p_pgdir x) addr (Z.to_nat (p_sz x - addr))).

Definition argint (n : Z) : M (option Z) :=
  x ← thisproc;
  fetchint (u32 (tf_esp (p_tf x) + 4 + 4 * n)).

Definition argptr (n size : Z) : M (option Z) :=
  x ← thisproc;
  i ← argint n;
  match i with
  | None => mret None
  | Some i =>
      if (size <? 0) || (p_sz x <=? u32 i) || (p_sz x <? u32 (u32 i + size)) then mret None
      else mret (Some (u32 i))
  end.

Definition argstr (n : Z) : M (option (list Z)) :=
  a ← argint n;
  match a with
  | None => mret None
  | Some addr => fetchstr (u32 addr)
  end.

(** Copies between the kernel and the running process. *)
Definition copy_in (va n : Z) : M (list Z) :=
  x ← thisproc; on_kmem (uread (p_pgdir x) va (Z.to_nat n)).
Definition copy_out (va : Z) (bs : list Z) : M unit :=
  x ← thisproc; on_kmem (uwrite (p_pgdir x) va bs).
End syscall.
