(* ===== verification/SysArg.v ===== *)
(** * The arguments of a system call, and the memory of the process

    What the functions of syscall.c fetch, on an address space as VmSpace.v describes it:
    [ubytes] is a piece of the memory of the process.  [in_call] is a process in a system
    call; [calm] says that only the interrupt state of the processor has changed.

    [argint_gives], [argptr_correct] and [argstr_correct]: the value that was passed, or -1
    exactly when it, or what it points to, is not inside the process; the kernel reads and writes
    the bytes of an accepted pointer without a fault. *)

From S2P Require Import Prelude Params Strings Sleeplock Spinlock BlockDev Tx Fs Kalloc Vm VmSpace VmKernel VmUser File Proc ProcFork Syscall.

(** ** User memory *)

Definition ubytes (m : gmap Z (list Z)) (pg va : Z) (n : nat) : list Z := (λ k, default 0 (ubyte m pg (va + Z.of_nat k))) <$> seq 0 n.

Lemma length_ubytes m pg va n : length (ubytes m pg va n) = n.
Proof. unfold ubytes. by rewrite length_fmap, length_seq. Qed.

Lemma ubytes_S m pg va n : ubytes m pg va (S n) = default 0 (ubyte m pg va) :: ubytes m pg (va + 1) n.
Proof.
  unfold ubytes. cbn [seq fmap list_fmap]. rewrite Z.add_0_r. f_equal. rewrite <- fmap_S_seq, <- list_fmap_compose.
  apply list_fmap_ext. intros k x _. cbn. do 2 f_equal. lia.
Qed.

Lemma ubytes_lookup m pg va n k : (k < n)%nat → ubytes m pg va n !! k = Some (default 0 (ubyte m pg (va + Z.of_nat k))).
Proof. intros Hk. unfold ubytes. by rewrite list_lookup_fmap, lookup_seq_lt by done. Qed.

Section umem.
Context (kend : Z) (s : kstate) (l : list Z) (pg : Z) (us : list Z) (sz : Z).
Hypotheses (U : uspace kend s l pg us) (Hus : us ≡ₚ seqZ 0 (npages sz)) (Hsz : 0 ≤ sz ≤ KERNBASE).

Lemma page_in v : 0 ≤ v < sz → v / 4096 ∈ us ∧ 0 ≤ v < 4294967296.
Proof. intros Hv. unfold KERNBASE in *. split; [|lia]. rewrite Hus, elem_of_seqZ. unfold npages. lia. Qed.

Lemma byte_there v : 0 ≤ v < sz → has (pte (pages s) pg v) PTE_P = true ∧
  ∃ d b, pages s !! frame (pages s) pg (v / 4096) = Some d ∧ length d = Z.to_nat PGSIZE ∧ d !! Z.to_nat (v mod 4096) = Some b ∧ ubyte (pages s) pg v = Some b.
Proof.
  intros Hv. destruct (page_in v Hv) as [Hk Hb]. rewrite (pte_page _ _ v) by done. split; [by apply (us_here _ _ _ _ _ U)|].
  destruct (us_page _ _ _ _ _ U _ Hk) as (_ & d & Hd & Hl). destruct (lookup_lt_is_Some_2 d (Z.to_nat (v mod 4096))) as [b Hb'].
  { rewrite Hl. unfold PGSIZE. lia. }
  exists d, b. split_and!; try done. unfold ubyte, upage. rewrite (pte_page _ _ v) by done. unfold frame, upage in Hd. by rewrite Hd.
Qed.

Lemma uread1_ok v : 0 ≤ v < sz → uread1 pg v s = Ok (default 0 (ubyte (pages s) pg v)) s.
Proof.
  intros Hv. destruct (byte_there v Hv) as (Hp & d & b & _ & _ & _ & E). unfold uread1. rewrite (bind_ok _ _ _ _ _ (eq_refl : get s = Ok s s)), Hp, E. done.
Qed.

Lemma uread_ok n : ∀ v, 0 ≤ v → v + Z.of_nat n ≤ sz → uread pg v n s = Ok (ubytes (pages s) pg v n) s.
Proof.
  induction n as [|n IH]; intros v Hv Hn; [done|]. cbn [uread]. mstep (uread1_ok v ltac:(lia)).
  rewrite u32_small by (unfold KERNBASE in *; lia). mstep (IH (v + 1) ltac:(lia) ltac:(lia)). by rewrite ubytes_S.
Qed.

(** The string that starts at [v], if it ends before [v + n]. *)
Fixpoint cstring (bs : list Z) : option (list Z) :=
  match bs with
  | [] => None
  | b :: bs' => if b =? 0 then Some [] else cons b <$> cstring bs'
  end.

Lemma ustring_ok n : ∀ v, 0 ≤ v → v + Z.of_nat n ≤ sz → ustring pg v n s = Ok (cstring (ubytes (pages s) pg v n)) s.
Proof.
  induction n as [|n IH]; intros v Hv Hn; [done|]. cbn [ustring]. rewrite ubytes_S. mstep (uread1_ok v ltac:(lia)). cbn [cstring].
  destruct (_ =? 0); [done|]. rewrite u32_small by (unfold KERNBASE in *; lia). by mstep (IH (v + 1) ltac:(lia) ltac:(lia)).
Qed.
End umem.

(** ** Writing *)

(** The memory of the process after the bytes [bs] were stored at [va]. *)
Record stored_at (kend : Z) (s : kstate) (l : list Z) (pg : Z) (us : list Z) (va : Z) (bs : list Z) (s' : kstate) : Prop := {
  sa_space : uspace kend s' l pg us;
  sa_own : own (pages s') pg us = own (pages s) pg us;
  sa_bytes : ∀ v, 0 ≤ v < 4294967296 → v / 4096 ∈ us → ubyte (pages s') pg v =
    if decide (va ≤ v < va + Z.of_nat (length bs)) then bs !! Z.to_nat (v - va) else ubyte (pages s) pg v;
  sa_rest : ∀ q, q ∉ own (pages s) pg us → pages s' !! q = pages s !! q }.

Lemma stored_nil kend s l pg us va : uspace kend s l pg us → stored_at kend s l pg us va [] s.
Proof. intros U. split; try done. intros v Hv Hk. rewrite decide_False by (cbn [length]; lia). done. Qed.

Section uwrite.
Context (kend l_pg : Z) (l us : list Z) (sz : Z).
Notation pg := l_pg.
Hypotheses (Hus : us ≡ₚ seqZ 0 (npages sz)) (Hsz : 0 ≤ sz ≤ KERNBASE).

Lemma uwrite1_ok s va b : uspace kend s l pg us → 0 ≤ va < sz → ∃ s', uwrite1 pg va b s = Ok tt s' ∧ stored_at kend s l pg us va [b] s'.
Proof.
  intros U Hva. destruct (byte_there kend s l pg us sz U Hus Hsz va Hva) as (Hp & d & c & Hd & Hl & Hc & _). destruct (page_in us sz Hus Hsz va Hva) as [Hk Hb].
  assert (Hf : upage (pages s) pg va = frame (pages s) pg (va / 4096)) by (unfold frame, upage; by rewrite (pte_page _ _ va)).
  set (d' := <[Z.to_nat (va mod 4096) := b]> d). assert (Hl' : length d' = Z.to_nat PGSIZE) by (unfold d'; by rewrite length_insert).
  destruct (store_frame kend s l pg us (va / 4096) d' U Hk Hl') as (U' & O' & _ & P'). set (s' := set_pages _ s) in *. exists s'. split.
  - unfold uwrite1. rewrite (bind_ok _ _ _ _ _ (eq_refl : get s = Ok s s)), Hp, Hf. cbn [negb].
    rewrite (bind_ok _ _ _ _ _ (page_at_ok s _ d Hd)). exact (page_set_ok s _ d d' Hd).
  - split; [exact U'|exact O'| |].
    + intros v Hv Hkv. unfold ubyte at 1. unfold upage at 1. rewrite P'. rewrite (pte_page _ _ v) by done. fold (upage (pages s) pg (v / 4096 * 4096)). fold (frame (pages s) pg (v / 4096)).
      unfold s'. cbn [pages set_pages length]. destruct (decide (v / 4096 = va / 4096)) as [E|E].
      * rewrite E, lookup_insert_eq. cbn [from_option id]. unfold d'. rewrite list_lookup_insert. destruct (decide (va ≤ v < va + Z.of_nat 1)) as [H1|H1].
        -- rewrite decide_True by (split; [f_equal; f_equal; lia|rewrite Hl; unfold PGSIZE; lia]). by replace (Z.to_nat (v - va)) with 0%nat by lia.
        -- rewrite decide_False by lia. unfold ubyte, upage. rewrite (pte_page _ _ v), E by done. unfold frame, upage in Hd. by rewrite Hd.
      * rewrite lookup_insert_ne by (intros Hfe; apply E; symmetry; by apply (us_frame_inj kend s l pg us)). rewrite decide_False by lia.
        unfold ubyte, upage. by rewrite (pte_page _ _ v) by done.
    + intros q Hq. unfold s'. cbn [pages set_pages]. rewrite lookup_insert_ne; [done|]. intros <-. apply Hq. by apply own_frame.
Qed.

Lemma uwrite_ok bs : ∀ s va, uspace kend s l pg us → 0 ≤ va → va + Z.of_nat (length bs) ≤ sz → ∃ s', uwrite pg va bs s = Ok tt s' ∧ stored_at kend s l pg us va bs s'.
Proof.
  induction bs as [|b bs IH]; intros s va U Hva Hn; [exists s; split; [done|by apply stored_nil]|]. cbn [length] in Hn. cbn [uwrite].
  destruct (uwrite1_ok s va b U ltac:(lia)) as (s1 & E1 & [U1 O1 B1 R1]). mstep E1. rewrite u32_small by (unfold KERNBASE in *; lia).
  destruct (IH s1 (va + 1) U1 ltac:(lia) ltac:(lia)) as (s2 & E2 & [U2 O2 B2 R2]). exists s2. split; [exact E2|].
  split; [exact U2|congruence| |].
  - intros v Hv Hk. rewrite B2, B1 by done. cbn [length]. repeat case_decide; try lia.
    + by replace (Z.to_nat (v - va)) with (S (Z.to_nat (v - (va + 1)))) by lia.
    + by replace (Z.to_nat (v - va)) with 0%nat by lia.
    + done.
  - intros q Hq. rewrite R2 by (by rewrite O1). by apply R1.
Qed.
End uwrite.

(** ** Arguments *)

Section arg.
Context {T : Type} (cpu_id : nat) (kend : Z).
Implicit Types (s : pstate (T := T)) (x : proc).

(** A process in a system call. *)
Record in_call s (k : cpu) (cp : nat) x (l us : list Z) : Prop := {
  in_ready : ready cpu_id s k;
  in_cur : ps_cur s = Some cp ∧ ps_proc s !! cp = Some x;
  in_space : uspace kend (fd_mem (ps_fd s)) l (p_pgdir x) us;
  in_pages : us ≡ₚ seqZ 0 (npages (p_sz x));
  in_size : 0 ≤ p_sz x ≤ KERNBASE }.

(** The memory of the process of a call. *)
Definition umem s x (va n : Z) : list Z := ubytes (pages (fd_mem (ps_fd s))) (p_pgdir x) va (Z.to_nat n).

(** Only the interrupt state of the processor has changed. *)
Definition calm s s' : Prop := s' = set_sl (ps_sl s') s.

Lemma calm_refl s : calm s s.
Proof. by destruct s. Qed.
Lemma calm_trans s1 s2 s3 : calm s1 s2 → calm s2 s3 → calm s1 s3.
Proof. unfold calm. intros E2 E3. rewrite E3, E2. done. Qed.
Lemma calm_mem s s' : calm s s' → ps_fd s' = ps_fd s.
Proof. by intros ->. Qed.

(** What a function does that only looks at the process. *)
Definition gives {A} (m : M (pstate (T := T)) A) s cp x l us (a : A) : Prop :=
  ∃ s' k', m s = Ok a s' ∧ calm s s' ∧ in_call s' k' cp x l us.

Lemma gives_ret {A} (a : A) s k cp x l us : in_call s k cp x l us → gives (mret a) s cp x l us a.
Proof. intros C. exists s, k. split_and!; [done|apply calm_refl|done]. Qed.

Lemma gives_bind {A B} (m : M (pstate (T := T)) A) (f : A → M (pstate (T := T)) B) s cp x l us a b : gives m s cp x l us a →
  (∀ s' k', calm s s' → in_call s' k' cp x l us → gives (f a) s' cp x l us b) → gives (m ≫= f) s cp x l us b.
Proof.
  intros (s1 & k1 & E1 & C1 & I1) H. destruct (H s1 k1 C1 I1) as (s2 & k2 & E2 & C2 & I2). exists s2, k2.
  split_and!; [by rewrite (bind_ok _ _ _ _ _ E1)|by eapply calm_trans|done].
Qed.

Lemma thisproc_gives s k cp x l us : in_call s k cp x l us → gives (thisproc cpu_id) s cp x l us x.
Proof.
  intros [R [Hc Hx] U P Z]. exists (pt_back cpu_id s k), (popped (pushed k)). split_and!.
  - unfold thisproc. mstep (curproc_ok cpu_id s k cp R Hc). by apply pptr_ok.
  - done.
  - split; try done. by apply ready_back.
Qed.

Lemma uread_gives s k cp x l us va n : in_call s k cp x l us → 0 ≤ va → 0 ≤ n → va + n ≤ p_sz x →
  gives (on_kmem (uread (p_pgdir x) va (Z.to_nat n))) s cp x l us (umem s x va n).
Proof.
  intros C H1 H2 H3. pose proof (uread_ok kend _ l _ us (p_sz x) (in_space _ _ _ _ _ _ C) (in_pages _ _ _ _ _ _ C) (in_size _ _ _ _ _ _ C) (Z.to_nat n) va H1 ltac:(lia)) as E.
  exists s, k. split_and!; [|apply calm_refl|done]. rewrite (on_kmem_ok _ s _ _ E). unfold umem. f_equal. by destruct s as [? ? ? ? ? ? ? ? ? [] ? ?].
Qed.

(** The word at [addr], unless it is not all inside the process. *)
Definition word_at s x (addr : Z) : option Z :=
  if addr + 4 <=? p_sz x then Some (s32 (le_val (umem s x addr 4))) else None.

Lemma umem_calm s s' x va n : calm s s' → umem s' x va n = umem s x va n.
Proof. intros C. unfold umem. by rewrite (calm_mem _ _ C). Qed.

Lemma fetchint_gives s k cp x l us addr : in_call s k cp x l us → 0 ≤ addr < 4294967296 →
  gives (fetchint cpu_id addr) s cp x l us (word_at s x addr).
Proof.
  intros C Ha. pose proof (in_size _ _ _ _ _ _ C) as Hsz. unfold KERNBASE in Hsz. unfold fetchint. eapply gives_bind; [by eapply thisproc_gives|].
  intros s1 k1 C1 I1. unfold word_at. destruct (Z.leb_spec (addr + 4) (p_sz x)).
  - rewrite (proj2 (Z.leb_gt _ _)), u32_small, (proj2 (Z.ltb_ge _ _)) by lia. cbn [orb]. change 4%nat with (Z.to_nat 4).
    eapply gives_bind; [eapply uread_gives; [done|lia..]|]. intros s2 k2 C2 I2. rewrite (umem_calm _ _ _ _ _ C1). by eapply gives_ret.
  - assert ((p_sz x <=? addr) || (p_sz x <? u32 (addr + 4)) = true) as ->; [|by eapply gives_ret].
    apply orb_true_iff. destruct (Z.leb_spec (p_sz x) addr); [by left|right]. apply Z.ltb_lt. rewrite u32_small by lia. lia.
Qed.

(** The address of the argument [n] of the call, above the return address. *)
Definition arg_at x (n : Z) : Z := u32 (tf_esp (p_tf x) + 4 + 4 * n).

Lemma argint_gives s k cp x l us n : in_call s k cp x l us → gives (argint cpu_id n) s cp x l us (word_at s x (arg_at x n)).
Proof.
  intros C. unfold argint. eapply gives_bind; [by eapply thisproc_gives|]. intros s1 k1 C1 I1.
  assert (E : word_at s x (arg_at x n) = word_at s1 x (arg_at x n)) by (unfold word_at; by rewrite (umem_calm _ _ _ _ _ C1)).
  rewrite E. eapply fetchint_gives; [done|apply u32_bound].
Qed.

(** A pointer to [size] bytes is accepted when all of them are inside the process. *)
Definition pointer_ok x (i size : Z) : bool := (0 <=? size) && (u32 i <? p_sz x) && (u32 i + size <=? p_sz x).

(** [argptr] accepts the argument exactly when it is a pointer to bytes of the process, and then the
    kernel reads these bytes, and writes others to them, without a fault. *)
Theorem argptr_correct s k cp x l us n size : in_call s k cp x l us → -2147483648 ≤ size < 2147483648 →
  let r := i ← word_at s x (arg_at x n); if pointer_ok x i size then Some (u32 i) else None in
  ∃ s' k', argptr cpu_id n size s = Ok r s' ∧ calm s s' ∧ in_call s' k' cp x l us ∧
    ∀ p, r = Some p →
      gives (copy_in cpu_id p size) s' cp x l us (umem s x p size) ∧
      ∀ bs, Z.of_nat (length bs) ≤ size → ∃ s2 m2, copy_out cpu_id p bs s' = Ok tt s2 ∧
        stored_at kend (fd_mem (ps_fd s)) l (p_pgdir x) us p bs m2 ∧ calm (set_fd (set_fd_mem m2 (ps_fd s)) s) s2.
Proof.
  intros C Hs r. assert (H : gives (argptr cpu_id n size) s cp x l us r).
  { pose proof (in_size _ _ _ _ _ _ C) as Hsz. unfold KERNBASE in Hsz. unfold argptr. eapply gives_bind; [by eapply thisproc_gives|]. intros s1 k1 C1 I1.
    assert (E : word_at s x (arg_at x n) = word_at s1 x (arg_at x n)) by (unfold word_at; by rewrite (umem_calm _ _ _ _ _ C1)).
    unfold r. rewrite E. eapply gives_bind; [by eapply argint_gives|]. intros s2 k2 C2 I2. destruct (word_at s1 x (arg_at x n)) as [i|]; [|by eapply gives_ret].
    cbn [mbind option_bind]. assert (Hb : (size <? 0) || (p_sz x <=? u32 i) || (p_sz x <? u32 (u32 i + size)) = negb (pointer_ok x i size)).
    { pose proof (u32_bound i). unfold pointer_ok. destruct (Z.ltb_spec size 0), (Z.leb_spec 0 size); try (exfalso; lia); [done|].
      destruct (Z.leb_spec (p_sz x) (u32 i)), (Z.ltb_spec (u32 i) (p_sz x)); try (exfalso; lia); [done|]. cbn [orb andb]. rewrite u32_small by lia. by rewrite Z.leb_antisym, negb_involutive. }
    rewrite Hb. destruct (pointer_ok x i size); by eapply gives_ret. }
  destruct H as (s' & k' & E & Cm & I'). exists s', k'. split_and!; [done|done|done|]. intros p Hp.
  assert (Hr : 0 ≤ size ∧ 0 ≤ p ∧ p + size ≤ p_sz x).
  { unfold r in Hp. destruct (word_at s x (arg_at x n)) as [i|]; [|done]. cbn [mbind option_bind] in Hp. destruct (pointer_ok x i size) eqn:Ho; [|done]. injection Hp as <-.
    unfold pointer_ok in Ho. apply andb_true_iff in Ho as [[H1 H2]%andb_true_iff H3]. pose proof (u32_bound i). lia. }
  split.
  - unfold copy_in. eapply gives_bind; [by eapply thisproc_gives|]. intros s2 k2 C2 I2. rewrite <- (umem_calm _ _ x p size Cm), <- (umem_calm _ _ x p size C2).
    by eapply uread_gives; [done|lia..].
  - intros bs Hbs. destruct (thisproc_gives _ _ _ _ _ _ I') as (s2 & k2 & E2 & C2 & I2). pose proof (calm_trans _ _ _ Cm C2) as C3.
    destruct (uwrite_ok kend (p_pgdir x) l us (p_sz x) (in_pages _ _ _ _ _ _ C) (in_size _ _ _ _ _ _ C) bs (fd_mem (ps_fd s2)) p (in_space _ _ _ _ _ _ I2)) as (m2 & E3 & S3); [lia|lia|].
    rewrite (calm_mem _ _ C3) in S3. eexists _, m2. split; [unfold copy_out; mstep E2; exact (on_kmem_ok _ s2 _ _ E3)|]. split; [exact S3|].
    rewrite (calm_mem _ _ C3). unfold calm in C3 |- *. rewrite C3. done.
Qed.

(** [argstr] gives the string that the argument points to, or -1 when it does not start inside the
    process or has no end there. *)
Theorem argstr_correct s k cp x l us n : in_call s k cp x l us →
  gives (argstr cpu_id n) s cp x l us
    (i ← word_at s x (arg_at x n); if u32 i <? p_sz x then cstring (umem s x (u32 i) (p_sz x - u32 i)) else None).
Proof.
  intros C. unfold argstr. eapply gives_bind; [by eapply argint_gives|]. intros s1 k1 C1 I1. destruct (word_at s x (arg_at x n)) as [i|]; [|by eapply gives_ret].
  cbn [mbind option_bind]. unfold fetchstr. eapply gives_bind; [by eapply thisproc_gives|]. intros s2 k2 C2 I2. pose proof (u32_bound i) as Hi.
  destruct (Z.leb_spec (p_sz x) (u32 i)), (Z.ltb_spec (u32 i) (p_sz x)); try (exfalso; lia); [by eapply gives_ret|].
  pose proof (ustring_ok kend _ l _ us (p_sz x) (in_space _ _ _ _ _ _ I2) (in_pages _ _ _ _ _ _ I2) (in_size _ _ _ _ _ _ I2) (Z.to_nat (p_sz x - u32 i)) (u32 i) ltac:(lia) ltac:(lia)) as E.
  exists s2, k2. split_and!; [|apply calm_refl|done]. rewrite (on_kmem_ok _ s2 _ _ E), <- (umem_calm _ _ x _ _ (calm_trans _ _ _ C1 C2)).
  unfold umem. f_equal. by destruct s2 as [? ? ? ? ? ? ? ? ? [] ? ?].
Qed.
End arg.

(** The shell of ProcFork.v in a system call. *)
Lemma argptr_correct_example d m l : uspace end0 m l d [0] → ∃ r s' k', argptr 0 0 4 (sys2 d m) = Ok r s' ∧ in_call 0 end0 s' k' 1 (p_shell2 d) l [0].
Proof.
  intros U. destruct (argptr_correct 0 end0 (sys2 d m) cpu_on 1 (p_shell2 d) l [0] 0 4) as (s' & k' & E & _ & I & _); [|lia|eauto].
  split; [by split|done|exact U|done|by vm_compute].
Qed.
