(* ===== verification/Exec.v ===== *)
(** * exec: exec.c, and loaduvm of vm.c

    [exec] builds a new page table from an ELF file, puts the arguments on a
    new stack and then replaces the memory of the process.  Every failure goes
    through [exec_bad], the label of the code. *)

From S2P Require Import Prelude Params Strings BlockDev Tx Fs Dir Kalloc Vm File Proc Syscall.

(** ** elf.h *)

Definition ELF_MAGIC : Z := 0x464C457F.
Definition ELF_PROG_LOAD : Z := 1.
Definition ELFHDRSZ : Z := 52.
Definition PROGHDRSZ : Z := 32.

Record elfhdr : Type := { elf_magic : Z; elf_entry : Z; elf_phoff : Z; elf_phnum : Z }.
Definition elf_of (b : list Z) : elfhdr :=
  {| elf_magic := get32 b 0; elf_entry := get32 b 24; elf_phoff := get32 b 28; elf_phnum := get16 b 44 |}.

Record proghdr : Type := {
  ph_type : Z; ph_off : Z; ph_vaddr : Z; ph_filesz : Z; ph_memsz : Z }.
Definition ph_of (b : list Z) : proghdr :=
  {| ph_type := get32 b 0; ph_off := get32 b 4; ph_vaddr := get32 b 8;
     ph_filesz := get32 b 16; ph_memsz := get32 b 20 |}.

(** The loop that finds what follows the last slash of the path. *)
Fixpoint last_elem (last s : list Z) : list Z :=
  match s with
  | [] => last
  | c :: s' => if c =? SLASH then last_elem s' s' else last_elem last s'
  end.

Section exec.
Context {T : Type} `{!TxOps T}.
Context (cpu_id : nat) (me : Z) (devsw : Z → option (device (T := T))) (kend vdata : Z).
Notation M := (M (pstate (T := T))).

Definition begin_op : M unit := on_inodes (on_tx tx_begin_op).
Definition end_op : M unit := on_inodes (on_tx tx_end_op).

(** [namei] from the directory of the process. *)
Definition cwd_for (path : list Z) : M nat :=
  x ← thisproc cpu_id;
  if deref path =? SLASH then mret 0%nat else lift_opt (p_cwd x).
Definition namei_k (path : list Z) : M (option nat) :=
  c ← cwd_for path; on_inodes (namei me devsw c path name_buf).
Definition nameiparent_k (path : list Z) : M (option nat * list Z) :=
  c ← cwd_for path; on_inodes (nameiparent me devsw c path name_buf).

Definition loaduvm (pgdir addr : Z) (ip : nat) (offset sz : Z) : M Z :=
  if negb (addr mod PGSIZE =? 0) then panic "loaduvm: addr must be page aligned" else
  r ← for_range (Z.to_nat ((sz + PGSIZE - 1) / PGSIZE)) 0 (λ k,
        let i := k * PGSIZE in
        pte ← on_kmem (walkpgdir pgdir (u32 (addr + i)) false);
        if pte =? 0 then panic "loaduvm: address should exist" else
        e ← on_kmem (ldw pte);
        let pa := PTE_ADDR e in
        let n := if sz - i <? PGSIZE then sz - i else PGSIZE in
        '(m, bs) ← on_inodes (readi devsw ip (u32 (offset + i)) n);
        on_kmem (copy_into (P2V pa) 0 bs);;
        if negb (m =? n) then mret (Some (-1)) else mret None);
  mret (default 0 r).

(** The label [bad]. *)
Definition exec_bad (pgdir : Z) (ip : option nat) : M Z :=
  (if negb (pgdir =? 0) then on_kmem (freevm kend pgdir) else mret tt);;
  (match ip with
   | Some _ => on_inodes (iunlockput me ip);; end_op
   | None => mret tt
   end);;
  mret (-1).

(** The loop over the program headers; [n] are left.  The result is the size
    of the process, [None] where the code goes to [bad]. *)
Fixpoint exec_load (n : nat) (pgdir : Z) (ip : nat) (off sz : Z) : M (option Z) :=
  match n with
  | O => mret (Some sz)
  | S n' =>
      '(r, bs) ← on_inodes (readi devsw ip (u32 off) PROGHDRSZ);
      if negb (r =? PROGHDRSZ) then mret None else
      let ph := ph_of bs in
      if negb (ph_type ph =? ELF_PROG_LOAD) || (ph_memsz ph =? 0)
      then exec_load n' pgdir ip (off + PROGHDRSZ) sz else
      if ph_memsz ph <? ph_filesz ph then mret None else
      if u32 (ph_vaddr ph + ph_memsz ph) <? ph_vaddr ph then mret None else
      sz ← on_kmem (allocuvm kend pgdir sz (u32 (ph_vaddr ph + ph_memsz ph)));
      if sz =? 0 then mret None else
      if negb (ph_vaddr ph mod PGSIZE =? 0) then mret None else
      l ← loaduvm pgdir (ph_vaddr ph) ip (ph_off ph) (ph_filesz ph);
      if l <? 0 then mret None else
      exec_load n' pgdir ip (off + PROGHDRSZ) sz
  end.

(** [sp = (sp - (strlen(arg) + 1)) & ~3] *)
Definition push_sp (sp : Z) (arg : list Z) : Z :=
  Z.land (u32 (sp - (Z.of_nat (length arg) + 1))) (Z.lnot 3).

(** The loop over the arguments: the stack pointer and the addresses of the
    strings pushed so far. *)
Fixpoint exec_args (argv : list (list Z)) (pgdir argc sp : Z) (ustack : list Z) : M (option (Z * list Z)) :=
  match argv with
  | [] => mret (Some (sp, ustack))
  | arg :: argv' =>
      if MAXARG <=? argc then mret None else
      let sp := push_sp sp arg in
      r ← on_kmem (copyout pgdir sp (cstr arg));
      if r <? 0 then mret None else
      exec_args argv' pgdir (argc + 1) sp (ustack ++ [sp])
  end.

(** What follows the loading of the program; [ip] is 0 here. *)
Definition exec_stack (cp : nat) (path : list Z) (argv : list (list Z)) (pgdir sz entry : Z) : M Z :=
  let sz := PGROUNDUP sz in
  sz ← on_kmem (allocuvm kend pgdir sz (u32 (sz + 2 * PGSIZE)));
  if sz =? 0 then exec_bad pgdir None else
  on_kmem (clearpteu pgdir (u32 (sz - 2 * PGSIZE)));;
  r ← exec_args argv pgdir 0 sz [];
  match r with
  | None => exec_bad pgdir None
  | Some (sp, addrs) =>
      let argc := Z.of_nat (length addrs) in
      let ustack := [0xffffffff; argc; u32 (sp - (argc + 1) * 4)] ++ addrs ++ [0] in
      let sp := u32 (sp - (3 + argc + 1) * 4) in
      r ← on_kmem (copyout pgdir sp (concat (le_bytes 4 <$> ustack)));
      if r <? 0 then exec_bad pgdir None else
      nm ← lift_opt (safestrcpy (cstr (last_elem path path)) 16);
      pset cp (λ x, set_name (splice 0 nm (p_name x)) x);;
      x ← pptr cp;
      let oldpgdir := p_pgdir x in
      pset cp (set_pgdir pgdir);;
      pset cp (set_psz sz);;
      pset cp (λ x, set_tf (set_eip_esp entry sp (p_tf x)) x);;
      switchuvm cpu_id (Some cp);;
      on_kmem (freevm kend oldpgdir);;
      mret 0
  end.

Definition exec (path : list Z) (argv : list (list Z)) : M Z :=
  cp ← curproc cpu_id;
  begin_op;;
  o ← namei_k path;
  match o with
  | None => end_op;; mret (-1)
  | Some ip =>
      on_inodes (ilock me (Some ip));;
      '(r, bs) ← on_inodes (readi devsw ip 0 ELFHDRSZ);
      if negb (r =? ELFHDRSZ) then exec_bad 0 (Some ip) else
      let elf := elf_of bs in
      if negb (elf_magic elf =? ELF_MAGIC) then exec_bad 0 (Some ip) else
      pgdir ← on_kmem (setupkvm kend vdata);
      if pgdir =? 0 then exec_bad 0 (Some ip) else
      r ← exec_load (Z.to_nat (elf_phnum elf)) pgdir ip (elf_phoff elf) 0;
      match r with
      | None => exec_bad pgdir (Some ip)
      | Some sz =>
          on_inodes (iunlockput me (Some ip));;
          end_op;;
          exec_stack cp path argv pgdir sz (elf_entry elf)
      end
  end.
End exec.
