(* ===== verification/Sysfile.v ===== *)
(** * The file system calls: sysfile.c

    Each system call of sysfile.c, from its arguments in user memory to its
    return value.  The inode a path leads to is an index of the inode cache,
    a file an index of the file table. *)

From S2P Require Import Prelude Params Strings BlockDev Tx Fs Dir Kalloc Vm Pipe File Proc Syscall Exec.

Section sysfile.
Context {T : Type} `{!TxOps T}.
Context (cpu_id : nat) (me : Z) (devsw : Z → option (device (T := T))) (kend vdata : Z).
Notation M := (M (pstate (T := T))).

Definition ilock_k (ip : nat) : M unit := on_inodes (ilock me (Some ip)).
Definition iunlock_k (ip : nat) : M unit := on_inodes (iunlock me (Some ip)).
Definition iunlockput_k (ip : nat) : M unit := on_inodes (iunlockput me (Some ip)).
Definition inode_k (ip : nat) : M inode := on_inodes (iptr ip).

(** [argfd]: the descriptor and the file. *)
Definition argfd (n : Z) : M (option (Z * nat)) :=
  fd ← argint cpu_id n;
  match fd with
  | None => mret None
  | Some fd =>
      if (fd <? 0) || (NOFILE <=? fd) then mret None else
      x ← thisproc cpu_id;
      f ← lift_opt (p_ofile x !! Z.to_nat fd);
      mret (pair fd <$> f)
  end.

Fixpoint find_fd (l : list (option nat)) (fd : nat) : option nat :=
  match l with
  | [] => None
  | None :: _ => Some fd
  | Some _ :: l' => find_fd l' (S fd)
  end.

Definition fdalloc (f : nat) : M Z :=
  p ← curproc cpu_id;
  x ← pptr p;
  match find_fd (p_ofile x) 0 with
  | Some fd =>
      pset p (λ x, set_ofile (<[fd := Some f]> (p_ofile x)) x);;
      mret (Z.of_nat fd)
  | None => mret (-1)
  end.

Definition sys_dup : M Z :=
  a ← argfd 0;
  match a with
  | None => mret (-1)
  | Some (_, f) =>
      fd ← fdalloc f;
      if fd <? 0 then mret (-1) else
      on_fd (filedup f);;
      mret fd
  end.

(** The common arguments of [sys_read] and [sys_write]. *)
Definition rw_args : M (option (nat * Z * Z)) :=
  a ← argfd 0;
  match a with
  | None => mret None
  | Some (_, f) =>
      n ← argint cpu_id 2;
      match n with
      | None => mret None
      | Some n => p ← argptr cpu_id 1 n; mret ((λ p, (f, p, n)) <$> p)
      end
  end.

Definition killed_now : M bool := x ← thisproc cpu_id; mret (negb (p_killed x =? 0)).

Definition sys_read : M Z :=
  a ← rw_args;
  match a with
  | None => mret (-1)
  | Some (f, p, n) =>
      k ← killed_now;
      '(r, bs) ← on_fd (fileread me devsw k f n);
      copy_out cpu_id p bs;;
      mret r
  end.

Definition sys_write : M Z :=
  a ← rw_args;
  match a with
  | None => mret (-1)
  | Some (f, p, n) =>
      bs ← copy_in cpu_id p n;
      k ← killed_now;
      on_fd (filewrite me devsw k f bs n)
  end.

Definition sys_close : M Z :=
  a ← argfd 0;
  match a with
  | None => mret (-1)
  | Some (fd, f) =>
      p ← curproc cpu_id;
      pset p (λ x, set_ofile (<[Z.to_nat fd := None]> (p_ofile x)) x);;
      on_fd (fileclose me kend f);;
      mret 0
  end.

(** struct stat in memory: type, dev, ino, nlink, two bytes of padding that
    keep their old value, size. *)
Definition STATSZ : Z := 20.
Definition stat_store (va : Z) (st : stat) : M unit :=
  copy_out cpu_id va (le_bytes 2 (st_type st));;
  copy_out cpu_id (va + 4) (le_bytes 4 (st_dev st));;
  copy_out cpu_id (va + 8) (le_bytes 4 (st_ino st));;
  copy_out cpu_id (va + 12) (le_bytes 2 (st_nlink st));;
  copy_out cpu_id (va + 16) (le_bytes 4 (st_size st)).

Definition sys_fstat : M Z :=
  a ← argfd 0;
  match a with
  | None => mret (-1)
  | Some (_, f) =>
      p ← argptr cpu_id 1 STATSZ;
      match p with
      | None => mret (-1)
      | Some p =>
          '(r, st) ← on_fd (filestat me f);
          (match st with Some st => stat_store p st | None => mret tt end);;
          mret r
      end
  end.

(** The label [bad] of [sys_link]. *)
Definition link_bad (ip : nat) : M Z :=
  ilock_k ip;;
  on_inodes (iset ip (λ i, set_inlink (s16 (i_nlink i - 1)) i));;
  on_inodes (iupdate ip);;
  iunlockput_k ip;;
  end_op;;
  mret (-1).

Definition sys_link : M Z :=
  old ← argstr cpu_id 0;
  match old with
  | None => mret (-1)
  | Some old =>
  new ← argstr cpu_id 1;
  match new with
  | None => mret (-1)
  | Some new =>
      begin_op;;
      o ← namei_k cpu_id me devsw old;
      match o with
      | None => end_op;; mret (-1)
      | Some ip =>
          ilock_k ip;;
          i ← inode_k ip;
          if i_type i =? T_DIR then iunlockput_k ip;; end_op;; mret (-1) else
          on_inodes (iset ip (λ i, set_inlink (s16 (i_nlink i + 1)) i));;
          on_inodes (iupdate ip);;
          iunlock_k ip;;
          '(o, name) ← nameiparent_k cpu_id me devsw new;
          match o with
          | None => link_bad ip
          | Some dp =>
              ilock_k dp;;
              d ← inode_k dp;
              i ← inode_k ip;
              r ← (if negb (i_dev d =? i_dev i) then mret (-1)
                   else on_inodes (dirlink me devsw dp name (i_inum i)));
              if r <? 0 then iunlockput_k dp;; link_bad ip else
              iunlockput_k dp;;
              on_inodes (iput me ip);;
              end_op;;
              mret 0
          end
      end
  end
  end.

(** [for(off=2*sizeof(de); off<dp->size; off+=sizeof(de))] *)
Definition isdirempty (dp : nat) : M bool :=
  i ← inode_k dp;
  r ← for_range (dirents (i_size i) - 2) 2 (λ k,
        '(r, de) ← on_inodes (readi devsw dp (k * DIRENTSZ) DIRENTSZ);
        if negb (r =? DIRENTSZ) then panic "isdirempty: readi" else
        if negb (de_inum de =? 0) then mret (Some false) else mret None);
  mret (default true r).

Definition DOT : list Z := cstr [46].
Definition DOTDOT : list Z := cstr [46; 46].

Definition unlink_bad (dp : nat) : M Z := iunlockput_k dp;; end_op;; mret (-1).

Definition sys_unlink : M Z :=
  path ← argstr cpu_id 0;
  match path with
  | None => mret (-1)
  | Some path =>
      begin_op;;
      '(o, name) ← nameiparent_k cpu_id me devsw path;
      match o with
      | None => end_op;; mret (-1)
      | Some dp =>
          ilock_k dp;;
          c1 ← lift_opt (namecmp name DOT);
          c2 ← lift_opt (namecmp name DOTDOT);
          if (c1 =? 0) || (c2 =? 0) then unlink_bad dp else
          f ← on_inodes (dirlookup devsw dp name);
          match f with
          | None => unlink_bad dp
          | Some (ip, off) =>
              ilock_k ip;;
              i ← inode_k ip;
              if i_nlink i <? 1 then panic "unlink: nlink < 1" else
              full ← (if i_type i =? T_DIR then e ← isdirempty ip; mret (negb e) else mret false);
              if (full : bool) then iunlockput_k ip;; unlink_bad dp else
              w ← on_inodes (writei devsw dp (replicate (Z.to_nat DIRENTSZ) 0) off DIRENTSZ);
              if negb (w =? DIRENTSZ) then panic "unlink: writei" else
              (if i_type i =? T_DIR then
                 on_inodes (iset dp (λ i, set_inlink (s16 (i_nlink i - 1)) i));;
                 on_inodes (iupdate dp)
               else mret tt);;
              iunlockput_k dp;;
              on_inodes (iset ip (λ i, set_inlink (s16 (i_nlink i - 1)) i));;
              on_inodes (iupdate ip);;
              iunlockput_k ip;;
              end_op;;
              mret 0
          end
      end
  end.

(** [create]: the inode, locked. *)
Definition create (path : list Z) (type major minor : Z) : M (option nat) :=
  '(o, name) ← nameiparent_k cpu_id me devsw path;
  match o with
  | None => mret None
  | Some dp =>
      ilock_k dp;;
      f ← on_inodes (dirlookup devsw dp name);
      match f with
      | Some (ip, _) =>
          iunlockput_k dp;;
          ilock_k ip;;
          i ← inode_k ip;
          if (type =? T_FILE) && (i_type i =? T_FILE) then mret (Some ip) else
          iunlockput_k ip;;
          mret None
      | None =>
          d ← inode_k dp;
          ip ← on_inodes (ialloc (i_dev d) type);
          ilock_k ip;;
          on_inodes (iset ip (set_idevno (s16 major) (s16 minor)));;
          on_inodes (iset ip (set_inlink 1));;
          on_inodes (iupdate ip);;
          i ← inode_k ip;
          (if type =? T_DIR then
             on_inodes (iset dp (λ i, set_inlink (s16 (i_nlink i + 1)) i));;
             on_inodes (iupdate dp);;
             r ← on_inodes (dirlink me devsw ip DOT (i_inum i));
             if r <? 0 then panic "create dots" else
             r ← on_inodes (dirlink me devsw ip DOTDOT (i_inum d));
             if r <? 0 then panic "create dots" else mret tt
           else mret tt);;
          r ← on_inodes (dirlink me devsw dp name (i_inum i));
          if r <? 0 then panic "create: dirlink" else
          iunlockput_k dp;;
          mret (Some ip)
      end
  end.

(** The inode [sys_open] opens, locked; [None] after [end_op]. *)
Definition open_inode (path : list Z) (omode : Z) : M (option nat) :=
  if negb (Z.land omode O_CREATE =? 0) then
    o ← create path T_FILE 0 0;
    match o with
    | None => end_op;; mret None
    | Some ip => mret (Some ip)
    end
  else
    o ← namei_k cpu_id me devsw path;
    match o with
    | None => end_op;; mret None
    | Some ip =>
        ilock_k ip;;
        i ← inode_k ip;
        if (i_type i =? T_DIR) && negb (omode =? O_RDONLY)
        then iunlockput_k ip;; end_op;; mret None
        else mret (Some ip)
    end.

(** [f->readable] and [f->writable] for a mode. *)
Definition mode_readable (omode : Z) : Z := if Z.land omode O_WRONLY =? 0 then 1 else 0.
Definition mode_writable (omode : Z) : Z :=
  if negb (Z.land omode O_WRONLY =? 0) || negb (Z.land omode O_RDWR =? 0) then 1 else 0.

(** The path of [sys_open] when there is no file or no descriptor. *)
Definition open_fail (f : option nat) (ip : nat) : M Z :=
  (match f with Some f => on_fd (fileclose me kend f) | None => mret tt end);;
  iunlockput_k ip;;
  end_op;;
  mret (-1).

Definition sys_open : M Z :=
  path ← argstr cpu_id 0;
  match path with
  | None => mret (-1)
  | Some path =>
  omode ← argint cpu_id 1;
  match omode with
  | None => mret (-1)
  | Some omode =>
      begin_op;;
      o ← open_inode path omode;
      match o with
      | None => mret (-1)
      | Some ip =>
          f ← on_fd filealloc;
          match f with
          | None => open_fail None ip
          | Some g =>
              fd ← fdalloc g;
              if fd <? 0 then open_fail f ip else
              iunlock_k ip;;
              end_op;;
              on_fd (fset g (λ x, mkfile FD_INODE (f_ref x) (mode_readable omode) (mode_writable omode)
                                         (f_pipe x) (Some ip) 0));;
              mret fd
          end
      end
  end
  end.

(** The end of [sys_mkdir] and [sys_mknod]. *)
Definition made (o : option nat) : M Z :=
  match o with
  | None => end_op;; mret (-1)
  | Some ip => iunlockput_k ip;; end_op;; mret 0
  end.

Definition sys_mkdir : M Z :=
  begin_op;;
  path ← argstr cpu_id 0;
  match path with
  | None => made None
  | Some path => o ← create path T_DIR 0 0; made o
  end.

Definition sys_mknod : M Z :=
  begin_op;;
  path ← argstr cpu_id 0;
  match path with
  | None => made None
  | Some path =>
      major ← argint cpu_id 1;
      match major with
      | None => made None
      | Some major =>
          minor ← argint cpu_id 2;
          match minor with
          | None => made None
          | Some minor => o ← create path T_DEV major minor; made o
          end
      end
  end.

Definition sys_chdir : M Z :=
  p ← curproc cpu_id;
  begin_op;;
  path ← argstr cpu_id 0;
  o ← (match path with
       | None => mret None
       | Some path => namei_k cpu_id me devsw path
       end);
  match o with
  | None => end_op;; mret (-1)
  | Some ip =>
      ilock_k ip;;
      i ← inode_k ip;
      if negb (i_type i =? T_DIR) then iunlockput_k ip;; end_op;; mret (-1) else
      iunlock_k ip;;
      x ← pptr p;
      w ← lift_opt (p_cwd x);
      on_inodes (iput me w);;
      end_op;;
      pset p (set_cwd (Some ip));;
      mret 0
  end.

(** The loop of [sys_exec] that fetches the arguments; [n] entries of [argv]
    are left. *)
Fixpoint exec_fetch (n : nat) (uargv : Z) : M (option (list (list Z))) :=
  match n with
  | O => mret None
  | S n' =>
      uarg ← fetchint cpu_id uargv;
      match uarg with
      | None => mret None
      | Some uarg =>
          if uarg =? 0 then mret (Some []) else
          a ← fetchstr cpu_id (u32 uarg);
          match a with
          | None => mret None
          | Some a => r ← exec_fetch n' (u32 (uargv + 4)); mret (cons a <$> r)
          end
      end
  end.

Definition sys_exec : M Z :=
  path ← argstr cpu_id 0;
  match path with
  | None => mret (-1)
  | Some path =>
      uargv ← argint cpu_id 1;
      match uargv with
      | None => mret (-1)
      | Some uargv =>
          argv ← exec_fetch (Z.to_nat MAXARG) (u32 uargv);
          match argv with
          | None => mret (-1)
          | Some argv => exec cpu_id me devsw kend vdata path argv
          end
      end
  end.

(** The path of [sys_pipe] when a descriptor is missing. *)
Definition pipe_fail (fd0 : Z) (rf wf : nat) : M Z :=
  (if 0 <=? fd0 then
     p ← curproc cpu_id;
     pset p (λ x, set_ofile (<[Z.to_nat fd0 := None]> (p_ofile x)) x)
   else mret tt);;
  on_fd (fileclose me kend rf);;
  on_fd (fileclose me kend wf);;
  mret (-1).

Definition sys_pipe : M Z :=
  fd ← argptr cpu_id 0 8;
  match fd with
  | None => mret (-1)
  | Some fd =>
      '(r, f0, f1) ← on_fd (pipealloc me kend);
      if r <? 0 then mret (-1) else
      rf ← lift_opt f0;
      wf ← lift_opt f1;
      fd0 ← fdalloc rf;
      if fd0 <? 0 then pipe_fail fd0 rf wf else
      fd1 ← fdalloc wf;
      if fd1 <? 0 then pipe_fail fd0 rf wf else
      copy_out cpu_id fd (le_bytes 4 fd0);;
      copy_out cpu_id (fd + 4) (le_bytes 4 fd1);;
      mret 0
  end.
End sysfile.
