(* ===== verification/Trapc.v ===== *)
(** * Traps and system calls: trap.c, sysproc.c and the table of syscall.c

    [syscall] dispatches on the number in %eax through the table, [trap] on
    the trap number.  The state is that of the processes with the clock of
    trap.c.  The interrupt handlers of the devices are arguments of [trap];
    Console.v and Kbd.v have those of the console and the keyboard.  Messages
    go to [k_msgs]. *)

From S2P Require Import Prelude Params Sleeplock Spinlock BlockDev Tx Fs Kalloc Vm File Proc Syscall Exec Sysfile.

(** ** traps.h and syscall.h *)

Definition T_SYSCALL : Z := 64.
Definition T_IRQ0 : Z := 32.
Definition IRQ_TIMER : Z := 0.
Definition IRQ_KBD : Z := 1.
Definition IRQ_COM1 : Z := 4.
Definition IRQ_IDE : Z := 14.
Definition IRQ_SPURIOUS : Z := 31.

(** ** The descriptor table *)

Record gatedesc : Type := mkgate { gd_off : Z; gd_cs : Z; gd_trap : bool; gd_dpl : Z }.
Definition SETGATE (istrap : bool) (sel off d : Z) : gatedesc := mkgate (u32 off) sel istrap d.

(** [tvinit]: [vectors i] is the address of the entry of vector [i]. *)
Definition tvinit (vectors : Z → Z) : list gatedesc :=
  let idt := (λ i, SETGATE false (Z.shiftl SEG_KCODE 3) (vectors (Z.of_nat i)) 0) <$> seq 0 256 in
  <[Z.to_nat T_SYSCALL := SETGATE true (Z.shiftl SEG_KCODE 3) (vectors T_SYSCALL) DPL_USER]> idt.

Section trap.
Context {T : Type} `{!TxOps T}.
Context (cpu_id : nat) (me : Z) (devsw : Z → option (device (T := T))) (kend vdata : Z).
Context (ptable_proc forkret_addr trapret_addr ticks_addr : Z).

Record kern : Type := mkkern {
  k_ps : pstate (T := T);
  k_msgs : list string }.

Definition set_ps (x : pstate (T := T)) (s : kern) : kern := mkkern x (k_msgs s).
Definition cprintf (m : string) : M kern unit := modify (λ s, mkkern (k_ps s) (k_msgs s ++ [m])).

Definition on_ps {A} (m : M (pstate (T := T)) A) : M kern A := zoom (λ s, Some (k_ps s)) set_ps m.

(** [acquire(&tickslock)] and [release(&tickslock)] *)
Definition acquire_ticks : M (pstate (T := T)) unit := Sleeplock.acquire ps_tlock set_tlock.
Definition release_ticks : M (pstate (T := T)) unit := Sleeplock.release ps_tlock set_tlock.

(** ** sysproc.c *)

Definition sys_fork : M kern Z := on_ps (fork cpu_id kend vdata forkret_addr trapret_addr).
Definition sys_exit : M kern Z := on_ps (exit cpu_id me kend ptable_proc);; mret 0.
Definition sys_wait : M kern Z := on_ps (wait cpu_id kend ptable_proc).

Definition sys_kill : M kern Z :=
  pid ← on_ps (argint cpu_id 0);
  match pid with
  | None => mret (-1)
  | Some pid => on_ps (kill cpu_id pid)
  end.

Definition sys_getpid : M kern Z := x ← on_ps (thisproc cpu_id); mret (p_pid x).

Definition sys_sbrk : M kern Z :=
  n ← on_ps (argint cpu_id 0);
  match n with
  | None => mret (-1)
  | Some n =>
      x ← on_ps (thisproc cpu_id);
      let addr := s32 (p_sz x) in
      r ← on_ps (growproc cpu_id kend n);
      if r <? 0 then mret (-1) else mret addr
  end.

(** [ticks - ticks0 < n]: the difference is unsigned, and so is the comparison. *)
Definition sleep_more (ticks ticks0 n : Z) : bool := u32 (ticks - ticks0) <? u32 n.

(** One turn of the loop of [sys_sleep], with the clock locked; after a sleep
    the next turn begins with it held again. *)
Definition sys_sleep_turn (ticks0 n : Z) : M (pstate (T := T)) Z :=
  t ← gets ps_ticks;
  if negb (sleep_more t ticks0 n) then release_ticks;; mret 0 else
  x ← thisproc cpu_id;
  if negb (p_killed x =? 0) then release_ticks;; mret (-1) else
  sleep cpu_id ticks_addr (LkOther acquire_ticks release_ticks);;
  undef.

Definition sys_sleep : M kern Z :=
  n ← on_ps (argint cpu_id 0);
  match n with
  | None => mret (-1)
  | Some n =>
      on_ps (acquire_ticks;;
             ticks0 ← gets ps_ticks;
             sys_sleep_turn ticks0 n)
  end.

Definition sys_uptime : M kern Z :=
  on_ps (acquire_ticks;;
         x ← gets ps_ticks;
         release_ticks;;
         mret (s32 x)).

(** ** The table of syscall.c *)

Definition syscalls : list (option (M kern Z)) :=
  [None;
   Some sys_fork;
   Some sys_exit;
   Some sys_wait;
   Some (on_ps (sys_pipe cpu_id me kend));
   Some (on_ps (sys_read cpu_id me devsw));
   Some sys_kill;
   Some (on_ps (sys_exec cpu_id me devsw kend vdata));
   Some (on_ps (sys_fstat cpu_id me));
   Some (on_ps (sys_chdir cpu_id me devsw));
   Some (on_ps (sys_dup cpu_id));
   Some sys_getpid;
   Some sys_sbrk;
   Some sys_sleep;
   Some sys_uptime;
   Some (on_ps (sys_open cpu_id me devsw kend));
   Some (on_ps (sys_write cpu_id me devsw));
   Some (on_ps (sys_mknod cpu_id me devsw));
   Some (on_ps (sys_unlink cpu_id me devsw));
   Some (on_ps (sys_link cpu_id me devsw));
   Some (on_ps (sys_mkdir cpu_id me devsw));
   Some (on_ps (sys_close cpu_id me kend))].

(** The function for a system call number, if there is one. *)
Definition syscall_fn (num : Z) : option (M kern Z) :=
  if (0 <? num) && (num <? Z.of_nat (length syscalls)) then syscalls !! Z.to_nat num ≫= id else None.

Definition syscall : M kern unit :=
  p ← on_ps (curproc cpu_id);
  x ← on_ps (pptr p);
  let num := s32 (tf_eax (p_tf x)) in
  r ← (match syscall_fn num with
       | Some f => f
       | None => cprintf "unknown sys call";; mret (-1)
       end);
  on_ps (pset p (λ x, set_tf (set_eax (u32 r) (p_tf x)) x)).

(** ** trap.c *)

(** The handlers of the devices, and the end-of-interrupt signal. *)
Record handlers : Type := {
  ideintr : M kern unit;
  kbdintr : M kern unit;
  uartintr : M kern unit;
  lapiceoi : M kern unit }.

Definition killed_cur : M kern bool :=
  p ← on_ps (myproc cpu_id);
  match p with
  | None => mret false
  | Some p => x ← on_ps (pptr p); mret (negb (p_killed x =? 0))
  end.

Definition timer_tick : M kern unit :=
  on_ps (acquire_ticks;;
         modify (λ s, set_ticks (u32 (ps_ticks s + 1)) s);;
         wakeup cpu_id ticks_addr;;
         release_ticks).

(** The [switch] of [trap]. *)
Definition trap_switch (h : handlers) (tf : trapframe) : M kern unit :=
  let n := tf_trapno tf in
  if n =? T_IRQ0 + IRQ_TIMER then
    (if (cpu_id =? 0)%nat then timer_tick else mret tt);;
    lapiceoi h
  else if n =? T_IRQ0 + IRQ_IDE then ideintr h;; lapiceoi h
  else if n =? T_IRQ0 + IRQ_IDE + 1 then mret tt
  else if n =? T_IRQ0 + IRQ_KBD then kbdintr h;; lapiceoi h
  else if n =? T_IRQ0 + IRQ_COM1 then uartintr h;; lapiceoi h
  else if (n =? T_IRQ0 + 7) || (n =? T_IRQ0 + IRQ_SPURIOUS) then
    cprintf "spurious interrupt";; lapiceoi h
  else
    p ← on_ps (myproc cpu_id);
    match p with
    | None => cprintf "unexpected trap";; panic "trap"
    | Some p =>
        if Z.land (tf_cs tf) 3 =? 0 then cprintf "unexpected trap";; panic "trap" else
        cprintf "trap: kill proc";;
        on_ps (pset p (set_killed 1))
    end.

(** The process leaves when it is killed and was in user space. *)
Definition exit_if_killed (tf : trapframe) : M kern unit :=
  k ← killed_cur;
  if k && (Z.land (tf_cs tf) 3 =? DPL_USER) then on_ps (exit cpu_id me kend ptable_proc) else mret tt.

Definition trap (h : handlers) (tf : trapframe) : M kern unit :=
  if tf_trapno tf =? T_SYSCALL then
    p ← on_ps (curproc cpu_id);
    x ← on_ps (pptr p);
    (if negb (p_killed x =? 0) then on_ps (exit cpu_id me kend ptable_proc) else mret tt);;
    on_ps (pset p (set_tf tf));;
    syscall;;
    x ← on_ps (pptr p);
    (if negb (p_killed x =? 0) then on_ps (exit cpu_id me kend ptable_proc) else mret tt)
  else
    trap_switch h tf;;
    exit_if_killed tf;;
    p ← on_ps (myproc cpu_id);
    (match p with
     | None => mret tt
     | Some p =>
         x ← on_ps (pptr p);
         if bool_decide (p_state x = RUNNING) && (tf_trapno tf =? T_IRQ0 + IRQ_TIMER)
         then on_ps (yield cpu_id) else mret tt
     end);;
    exit_if_killed tf.
End trap.
