(* ===== verification/Usys.v ===== *)
(** * System calls as a user program sees them

    User programs (the xv6 utilities, and the exercises under syscalls/) run
    over an operating system that is a parameter here: [FileOps] lists the
    calls, [FileSpec] what their manual pages promise.  [inp s fd] is what is
    left to read on a descriptor, [out s fd] what has been written to it.  A
    read returns some bytes, at least one unless the end is reached; on a
    [regular] file it returns as many as it was asked for if there are so many.

    A program leaves by returning or by [exit()]: [U S A] is a computation that
    can do either.  [sim] is a concrete system, with a schedule of short reads
    for each descriptor, on which the definitions can be run. *)

From S2P Require Import Prelude.

(** ** Programs that can exit *)

Inductive outcome (A : Type) : Type :=
| Ret (a : A)
| Exit (status : Z).
Arguments Ret {A} a.
Arguments Exit {A} status.

Definition U (S A : Type) : Type := M S (outcome A).

#[global] Instance U_ret {S} : MRet (U S) := λ A a s, Ok (Ret a) s.
#[global] Instance U_bind {S} : MBind (U S) := λ A B k m s,
  match m s with
  | Ok (Ret a) s' => k a s'
  | Ok (Exit n) s' => Ok (Exit n) s'
  | Panic msg => Panic msg
  | Blocked c s' => Blocked c s'
  | Undef => Undef
  | NoFuel => NoFuel
  end.

Definition call {S A} (m : M S A) : U S A := λ s,
  match m s with
  | Ok a s' => Ok (Ret a) s'
  | Panic msg => Panic msg
  | Blocked c s' => Blocked c s'
  | Undef => Undef
  | NoFuel => NoFuel
  end.
Definition exit {S A} (status : Z) : U S A := λ s, Ok (Exit status) s.
Definition uundef {S A} : U S A := λ _, Undef.
Definition uno_fuel {S A} : U S A := λ _, NoFuel.
Definition ulift {S A} (o : option A) : U S A :=
  match o with Some a => mret a | None => uundef end.

Lemma ubind_ret {S A B} (m : U S A) (k : A → U S B) s a s' :
  m s = Ok (Ret a) s' → (m ≫= k) s = k a s'.
Proof. intros H. unfold mbind, U_bind. by rewrite H. Qed.

Lemma ubind_exit {S A B} (m : U S A) (k : A → U S B) s n s' :
  m s = Ok (Exit n) s' → (m ≫= k) s = Ok (Exit n) s'.
Proof. intros H. unfold mbind, U_bind. by rewrite H. Qed.

Lemma call_ok {S A} (m : M S A) s a s' : m s = Ok a s' → call m s = Ok (Ret a) s'.
Proof. intros H. unfold call. by rewrite H. Qed.

(** Run a step of a user program whose result is known. *)
Ltac ustep H := rewrite (ubind_ret _ _ _ _ _ H); cbn beta iota.
Ltac ucall H := rewrite (ubind_ret _ _ _ _ _ (call_ok _ _ _ _ H)); cbn beta iota.

(** ** Files *)

(** [u_read] returns the value of [read] and the bytes it stores in the
    buffer; [u_write] gets the bytes of the buffer. *)
Class FileOps (S : Type) : Type := {
  u_open : list Z → Z → M S Z;
  u_close : Z → M S Z;
  u_read : Z → Z → M S (Z * list Z);
  u_write : Z → list Z → M S Z }.

(** Nothing but the descriptor [rd] has been read from, and nothing but [wr]
    has been written to. *)
Record io_frame {S} (inp out : S → Z → list Z) (reg rdy wok : S → Z → Prop)
  (rd wr : option Z) (s s' : S) : Prop := {
  fr_inp : ∀ fd, rd ≠ Some fd → inp s' fd = inp s fd;
  fr_out : ∀ fd, wr ≠ Some fd → out s' fd = out s fd;
  fr_reg : ∀ fd, reg s fd → reg s' fd;
  fr_rdy : ∀ fd, rdy s fd → rdy s' fd;
  fr_wok : ∀ fd, wok s fd → wok s' fd }.
Arguments fr_inp {S inp out reg rdy wok rd wr s s'} _.
Arguments fr_out {S inp out reg rdy wok rd wr s s'} _.
Arguments fr_reg {S inp out reg rdy wok rd wr s s'} _.
Arguments fr_rdy {S inp out reg rdy wok rd wr s s'} _.
Arguments fr_wok {S inp out reg rdy wok rd wr s s'} _.

Class FileSpec (S : Type) `{!FileOps S} : Type := {
  inp : S → Z → list Z;
  out : S → Z → list Z;
  regular : S → Z → Prop;
  can_read : S → Z → Prop;
  can_write : S → Z → Prop;
  read_law s fd n : can_read s fd → 0 ≤ n →
    ∃ k s', u_read fd n s = Ok (Z.of_nat k, take k (inp s fd)) s' ∧
      (k ≤ Z.to_nat n)%nat ∧ (k ≤ length (inp s fd))%nat ∧
      (0 < n → inp s fd ≠ [] → (0 < k)%nat) ∧
      (regular s fd → k = Z.to_nat n `min` length (inp s fd))%nat ∧
      inp s' fd = drop k (inp s fd) ∧
      io_frame inp out regular can_read can_write (Some fd) None s s';
  write_law s fd bs : can_write s fd →
    ∃ s', u_write fd bs s = Ok (Z.of_nat (length bs)) s' ∧
      out s' fd = out s fd ++ bs ∧
      io_frame inp out regular can_read can_write None (Some fd) s s' }.

Notation frame := (io_frame inp out regular can_read can_write).

(** ** A concrete system *)

(** A descriptor open for reading: the sizes of the next reads, and the data.
    When the sizes run out every read gets all it asks for. *)
Record sim : Type := mksim {
  sim_in : gmap Z (list nat * list Z);
  sim_out : gmap Z (list Z) }.

Definition sim_read (fd n : Z) : M sim (Z * list Z) := λ s,
  match sim_in s !! fd with
  | None => Ok (-1, []) s
  | Some (ks, bs) =>
      let want := (Z.to_nat n `min` length bs)%nat in
      let k := match ks with [] => want | k :: _ => (want `min` Nat.max 1 k)%nat end in
      Ok (Z.of_nat k, take k bs) (mksim (<[fd := (tail ks, drop k bs)]> (sim_in s)) (sim_out s))
  end.

Definition sim_write (fd : Z) (bs : list Z) : M sim Z := λ s,
  match sim_out s !! fd with
  | None => Ok (-1) s
  | Some o => Ok (Z.of_nat (length bs)) (mksim (sim_in s) (<[fd := o ++ bs]> (sim_out s)))
  end.

Definition sim_close (fd : Z) : M sim Z := λ s,
  Ok 0 (mksim (delete fd (sim_in s)) (sim_out s)).

#[global] Instance sim_ops : FileOps sim :=
  @Build_FileOps sim (λ _ _ s, Ok (-1) s) sim_close sim_read sim_write.

Definition sim_inp (s : sim) (fd : Z) : list Z := from_option snd [] (sim_in s !! fd).
Definition sim_outp (s : sim) (fd : Z) : list Z := default [] (sim_out s !! fd).
Definition sim_reg (s : sim) (fd : Z) : Prop := ∀ ks bs, sim_in s !! fd = Some (ks, bs) → ks = [].
Definition sim_rdy (s : sim) (fd : Z) : Prop := is_Some (sim_in s !! fd).
Definition sim_wok (s : sim) (fd : Z) : Prop := is_Some (sim_out s !! fd).

Lemma sim_read_law s fd n : sim_rdy s fd → 0 ≤ n →
  ∃ k s', sim_read fd n s = Ok (Z.of_nat k, take k (sim_inp s fd)) s' ∧
    (k ≤ Z.to_nat n)%nat ∧ (k ≤ length (sim_inp s fd))%nat ∧
    (0 < n → sim_inp s fd ≠ [] → (0 < k)%nat) ∧
    (sim_reg s fd → k = Z.to_nat n `min` length (sim_inp s fd))%nat ∧
    sim_inp s' fd = drop k (sim_inp s fd) ∧
    io_frame sim_inp sim_outp sim_reg sim_rdy sim_wok (Some fd) None s s'.
Proof.
  intros [[ks bs] E] Hn. unfold sim_read, sim_inp at 1 2 3 4 5. rewrite E. simpl.
  set (w := (Z.to_nat n `min` length bs)%nat).
  set (k := match ks with [] => w | k :: _ => (w `min` Nat.max 1 k)%nat end).
  assert (Hk : (k ≤ w)%nat) by (unfold k; destruct ks; lia).
  exists k. eexists. split; [done|]. split; [lia|]. split; [lia|]. split.
  { intros H0 H1. assert (0 < length bs)%nat by (destruct bs; simpl in *; [by destruct H1|lia]).
    unfold k, w. destruct ks; lia. }
  split; [intros H; unfold k; by rewrite (H _ _ E)|]. split.
  { unfold sim_inp. simpl. by rewrite lookup_insert_eq, ?E. }
  split; unfold sim_inp, sim_outp, sim_reg, sim_rdy, sim_wok; simpl; [|done| | |done].
  - intros f Hf. rewrite lookup_insert_ne by congruence. done.
  - intros f Hf ks' bs'. destruct (decide (fd = f)) as [<-|Hne].
    + rewrite lookup_insert_eq. intros [= <- _]. by rewrite (Hf _ _ E).
    + rewrite lookup_insert_ne by done. apply Hf.
  - intros f Hf. destruct (decide (fd = f)) as [<-|Hne].
    + rewrite lookup_insert_eq. by eexists.
    + by rewrite lookup_insert_ne.
Qed.

Lemma sim_write_law s fd bs : sim_wok s fd →
  ∃ s', sim_write fd bs s = Ok (Z.of_nat (length bs)) s' ∧
    sim_outp s' fd = sim_outp s fd ++ bs ∧
    io_frame sim_inp sim_outp sim_reg sim_rdy sim_wok None (Some fd) s s'.
Proof.
  intros [o E]. unfold sim_write. rewrite E. eexists. split; [done|]. split.
  { unfold sim_outp. simpl. rewrite lookup_insert_eq, E. done. }
  split; unfold sim_inp, sim_outp, sim_reg, sim_rdy, sim_wok; simpl; [done| |done|done|].
  - intros f Hf. rewrite lookup_insert_ne by congruence. done.
  - intros f Hf. destruct (decide (fd = f)) as [<-|Hne].
    + rewrite lookup_insert_eq. by eexists.
    + by rewrite lookup_insert_ne.
Qed.

#[global] Instance sim_spec : FileSpec sim :=
  @Build_FileSpec sim sim_ops sim_inp sim_outp sim_reg sim_rdy sim_wok sim_read_law sim_write_law.

(** ** Reading chunk by chunk *)

Section chunks.
Context {S : Type} `{!FileOps S, !FileSpec S}.

Lemma frame_refl rd wr (s : S) : frame rd wr s s.
Proof. by split. Qed.

Lemma frame_trans rd wr (s1 s2 s3 : S) : frame rd wr s1 s2 → frame rd wr s2 s3 → frame rd wr s1 s3.
Proof.
  intros [A1 A2 A3 A4 A5] [B1 B2 B3 B4 B5]. split; auto.
  - intros fd H. by rewrite B1, A1.
  - intros fd H. by rewrite B2, A2.
Qed.

Lemma frame_weaken rd wr rd' wr' (s1 s2 : S) :
  frame rd wr s1 s2 → (rd = rd' ∨ rd = None) → (wr = wr' ∨ wr = None) → frame rd' wr' s1 s2.
Proof.
  intros [A1 A2 A3 A4 A5] Hr Hw. split; auto.
  - intros fd H. apply A1. destruct Hr; congruence.
  - intros fd H. apply A2. destruct Hw; congruence.
Qed.

Lemma read_end (s : S) fd n : can_read s fd → 0 ≤ n → inp s fd = [] →
  ∃ s', u_read fd n s = Ok (0, []) s' ∧ inp s' fd = [] ∧ frame (Some fd) None s s'.
Proof.
  intros Hr Hn He. destruct (read_law s fd n Hr Hn) as (k & s' & E & _ & Hk & _ & _ & Hi & Hf).
  rewrite He in *. simpl in Hk. assert (k = 0%nat) as -> by lia.
  exists s'. split; [exact E|]. split; [by rewrite Hi|done].
Qed.
End chunks.
