(* ===== verification/Ulib.v ===== *)
(** * The user library: ulib.c

    As in Strings.v, a string argument is the list of bytes from its pointer
    on, NUL included, and running off its end is [None]; a function that
    writes works on a memory, a list of bytes indexed by address.  [gets] and
    [stat] call the system. *)

From S2P Require Import Prelude Params Strings Usys.

(** Copy until a NUL has been copied.  Every round moves [t] on, so a round for
    each byte of the memory is enough. *)
Fixpoint strcpy_loop (fuel : nat) (mem : list Z) (s t : nat) : option (list Z) :=
  match fuel with
  | O => None
  | S fuel' =>
      c ← load mem t;
      mem ← store mem s c;
      if c =? 0 then Some mem else strcpy_loop fuel' mem (S s) (S t)
  end.
Definition strcpy (mem : list Z) (s t : nat) : option (list Z) :=
  strcpy_loop (S (length mem)) mem s t.

Fixpoint strcmp (p q : list Z) : option Z :=
  match p, q with
  | a :: p', b :: q' => if negb (a =? 0) && (a =? b) then strcmp p' q' else Some (a - b)
  | _, _ => None
  end.

Fixpoint ustrlen (s : list Z) : option Z :=
  match s with
  | [] => None
  | c :: s' => if c =? 0 then Some 0 else (λ n, n + 1) <$> ustrlen s'
  end.

Definition umemset (mem : list Z) (dst : nat) (c : Z) (n : nat) : option (list Z) :=
  stosb mem dst c n.

(** The rest of the string from the first [c] on; no match is [Some None]. *)
Fixpoint strchr (s : list Z) (c : Z) : option (option (list Z)) :=
  match s with
  | [] => None
  | x :: s' => if x =? 0 then Some None else if x =? c then Some (Some s) else strchr s' c
  end.

(** [n*10 + *s++ - '0'] is computed in an [int]; overflow is undefined. *)
Fixpoint atoi_loop (s : list Z) (n : Z) : option Z :=
  match s with
  | [] => None
  | c :: s' =>
      if (48 <=? c) && (c <=? 57) then
        let n := n * 10 + c - 48 in
        if 2147483647 <? n then None else atoi_loop s' n
      else Some n
  end.
Definition atoi (s : list Z) : option Z := atoi_loop s 0.

Fixpoint umemmove (n : nat) (mem : list Z) (dst src : nat) : option (list Z) :=
  match n with
  | O => Some mem
  | S n' => x ← load mem src; mem ← store mem dst x; umemmove n' mem (S dst) (S src)
  end.

Section calls.
Context {S : Type} `{!FileOps S}.

(** The bytes [gets] stores: [room] is how many may precede the NUL. *)
Fixpoint gets_loop (room : nat) : M S (list Z) :=
  match room with
  | O => mret [0]
  | Datatypes.S room' =>
      '(cc, bs) ← u_read 0 1;
      if cc <? 1 then mret [0] else
      c ← lift_opt (head bs);
      if (c =? 10) || (c =? 13) then mret [c; 0]
      else rest ← gets_loop room'; mret (c :: rest)
  end.
Definition gets (max : Z) : M S (list Z) := gets_loop (Z.to_nat (max - 1)).

(** [u_fstat] returns the value of [fstat] and the structure it fills. *)
Class StatOps : Type := { u_fstat : Z → M S (Z * stat) }.

Definition stat_fn `{!StatOps} (n : list Z) : M S (Z * option stat) :=
  fd ← u_open n O_RDONLY;
  if fd <? 0 then mret (-1, None) else
  '(r, st) ← u_fstat fd;
  u_close fd;;
  mret (r, Some st).
End calls.
Arguments StatOps S : clear implicits.

(** ** What they compute *)

Lemma ustrlen_ok s t : no_nul s → ustrlen (s ++ 0 :: t) = Some (Z.of_nat (length s)).
Proof.
  induction s as [|c s IH]; intros Hs; [done|]. apply Forall_cons in Hs as [Hc Hs].
  simpl. rewrite (proj2 (Z.eqb_neq c 0) Hc), IH by done. simpl. f_equal. lia.
Qed.

Lemma strcmp_ok p q x y : no_nul p → no_nul q → ∃ r,
  strcmp (p ++ 0 :: x) (q ++ 0 :: y) = Some r ∧ (r = 0 ↔ p = q).
Proof.
  revert q. induction p as [|a p IH]; intros [|b q] Hp Hq; simpl.
  - by exists 0.
  - apply Forall_cons in Hq as [Hb _]. exists (0 - b). split; [done|]. split; [lia|done].
  - apply Forall_cons in Hp as [Ha _]. rewrite (proj2 (Z.eqb_neq a 0) Ha). simpl.
    exists (a - 0). destruct (Z.eqb_spec a 0); [done|]. split; [done|]. split; [lia|done].
  - apply Forall_cons in Hp as [Ha Hp], Hq as [Hb Hq]. rewrite (proj2 (Z.eqb_neq a 0) Ha). simpl.
    destruct (Z.eqb_spec a b) as [->|Hab].
    + destruct (IH q Hp Hq) as (r & E & Hr). exists r. split; [done|]. rewrite Hr.
      split; [by intros ->|by intros [= ->]].
    + exists (a - b). split; [done|]. split; [lia|by intros [= ->]].
Qed.

Lemma strchr_found s t c : no_nul s → c ∉ s → c ≠ 0 → strchr (s ++ c :: t) c = Some (Some (c :: t)).
Proof.
  intros Hs Hc H0. induction s as [|x s IH]; simpl.
  - by rewrite (proj2 (Z.eqb_neq c 0) H0), Z.eqb_refl.
  - apply Forall_cons in Hs as [Hx Hs]. apply not_elem_of_cons in Hc as [Hcx Hc].
    rewrite (proj2 (Z.eqb_neq x 0) Hx), (proj2 (Z.eqb_neq x c)) by congruence. by apply IH.
Qed.

Lemma strchr_none s t c : no_nul s → c ∉ s → strchr (s ++ 0 :: t) c = Some None.
Proof.
  intros Hs Hc. induction s as [|x s IH]; [done|]. simpl.
  apply Forall_cons in Hs as [Hx Hs]. apply not_elem_of_cons in Hc as [Hcx Hc].
  rewrite (proj2 (Z.eqb_neq x 0) Hx), (proj2 (Z.eqb_neq x c)) by congruence. by apply IH.
Qed.

(** The number that a list of decimal digits stands for. *)
Definition dec_val (ds : list Z) : Z := foldl (λ n d, n * 10 + d) 0 ds.
Definition digit (d : Z) : Prop := 0 ≤ d < 10.

Lemma dec_val_ge ds n : Forall digit ds → 0 ≤ n → n ≤ foldl (λ n d, n * 10 + d) n ds.
Proof.
  intros H. revert n. induction H as [|d ds Hd _ IH]; intros n Hn; simpl; [lia|].
  unfold digit in Hd. specialize (IH (n * 10 + d)). lia.
Qed.

Lemma atoi_loop_ok ds x t n : Forall digit ds → 0 ≤ n → (x < 48 ∨ 57 < x) →
  foldl (λ n d, n * 10 + d) n ds < 2147483648 →
  atoi_loop ((Z.add 48 <$> ds) ++ x :: t) n = Some (foldl (λ n d, n * 10 + d) n ds).
Proof.
  intros H. revert n. induction H as [|d ds Hd Hds IH]; intros n Hn Hx Hb; simpl in *.
  - destruct (Z.leb_spec 48 x); [|done]. destruct (Z.leb_spec x 57); [lia|done].
  - unfold digit in Hd. rewrite (proj2 (Z.leb_le _ _)), (proj2 (Z.leb_le _ _)) by lia. simpl.
    replace (n * 10 + (48 + d) - 48) with (n * 10 + d) by lia.
    pose proof (dec_val_ge ds (n * 10 + d) Hds ltac:(lia)).
    rewrite (proj2 (Z.ltb_ge _ _)) by lia. apply IH; lia || done.
Qed.

Lemma atoi_ok ds x t : Forall digit ds → (x < 48 ∨ 57 < x) → dec_val ds < 2147483648 →
  atoi ((Z.add 48 <$> ds) ++ x :: t) = Some (dec_val ds).
Proof. intros. by apply atoi_loop_ok. Qed.

(** The user [memmove] only copies forwards. *)
Lemma umemmove_up n mem dst src : umemmove n mem dst src = copy_up n dst src mem.
Proof.
  revert mem dst src. induction n as [|n IH]; intros mem dst src; [done|]. simpl.
  destruct (load mem src) as [x|]; [|done]. simpl. destruct (store mem dst x) as [m|]; [|done].
  simpl. apply IH.
Qed.

Lemma umemmove_ok n mem dst src :
  (dst ≤ src ∨ src + n ≤ dst)%nat → (src + n ≤ length mem)%nat → (dst + n ≤ length mem)%nat →
  umemmove n mem dst src = Some (splice dst (slice src n mem) mem).
Proof. rewrite umemmove_up. apply copy_up_ok. Qed.

(** With the destination inside the source it repeats bytes. *)
Lemma umemmove_overlap a b c :
  umemmove 2 [a; b; c] 1 0 = Some [a; a; a] ∧ memmove [a; b; c] 1 0 2 = Some [a; a; b].
Proof. done. Qed.

Lemma strcpy_loop_ok str fuel mem s t : no_nul str → (length str < fuel)%nat →
  slice t (length str + 1) mem = str ++ [0] →
  (s + length str + 1 ≤ t ∨ t + length str + 1 ≤ s)%nat →
  (t + length str + 1 ≤ length mem)%nat → (s + length str + 1 ≤ length mem)%nat →
  strcpy_loop fuel mem s t = Some (splice s (str ++ [0]) mem).
Proof.
  revert fuel mem s t. induction str as [|c str IH]; intros [|fuel] mem s t Hn Hf Hsl Ho Ht Hs;
    simpl in *; try lia; destruct (lookup_lt_is_Some_2 mem t) as [x Hx]; try lia;
    unfold load at 1; rewrite Hx; simpl; rewrite store_in by lia; simpl;
    rewrite (slice_S _ _ _ _ Hx) in Hsl; simplify_eq.
  - simpl. rewrite <- (splice_insert_head s 0 [] mem) by lia. unfold splice. simpl.
    by rewrite Nat.add_0_r, take_drop.
  - apply Forall_cons in Hn as [Hc Hn]. rewrite (proj2 (Z.eqb_neq c 0) Hc).
    rewrite IH; rewrite ?length_insert; try lia; try done.
    + by rewrite splice_insert_head by lia.
    + by rewrite slice_insert_out by lia.
Qed.

Lemma strcpy_ok str mem s t : no_nul str →
  slice t (length str + 1) mem = str ++ [0] →
  (s + length str + 1 ≤ t ∨ t + length str + 1 ≤ s)%nat →
  (t + length str + 1 ≤ length mem)%nat → (s + length str + 1 ≤ length mem)%nat →
  strcpy mem s t = Some (splice s (str ++ [0]) mem).
Proof. intros. apply strcpy_loop_ok; try done. lia. Qed.

(** ** Reading a line *)

(** The first line of the input, its newline included, cut at [n] bytes. *)
Fixpoint first_line (n : nat) (l : list Z) : list Z :=
  match n, l with
  | S n', c :: l' => if (c =? 10) || (c =? 13) then [c] else c :: first_line n' l'
  | _, _ => []
  end.

Section gets.
Context {S : Type} `{!FileOps S, !FileSpec S}.

Lemma gets_loop_ok n (s : S) : can_read s 0 →
  ∃ s', gets_loop n s = Ok (first_line n (inp s 0) ++ [0]) s' ∧
    inp s 0 = first_line n (inp s 0) ++ inp s' 0 ∧ frame (Some 0) None s s'.
Proof.
  revert s. induction n as [|n IH]; intros s Hr.
  { exists s. split; [done|]. split; [done|]. apply frame_refl. }
  cbn [gets_loop]. destruct (read_law s 0 1 Hr) as (k & s1 & E & Hk1 & Hk2 & Hk3 & _ & Hi & Hf); [lia|].
  mstep E. destruct (inp s 0) as [|c l] eqn:El.
  - simpl in Hk2. assert (k = 0%nat) as -> by lia. exists s1. split; [done|].
    split; [|done]. by rewrite Hi.
  - assert (k = 1%nat) as -> by (destruct k; [specialize (Hk3 ltac:(lia) ltac:(done))|]; lia).
    change (Z.of_nat 1 <? 1) with false. change (take 1 (c :: l)) with [c]. cbn [lift_opt head].
    rewrite bind_ret_l. simpl first_line. simpl in Hi. destruct ((c =? 10) || (c =? 13)).
    + exists s1. split; [done|]. split; [|done]. rewrite Hi. done.
    + destruct (IH s1) as (s2 & E2 & Hi2 & Hf2); [by apply (fr_rdy Hf)|].
      mstep E2. exists s2. rewrite Hi in *. split; [done|]. split; [simpl; by f_equal|].
      by apply (frame_trans _ _ _ s1).
Qed.

Lemma gets_ok max (s : S) : can_read s 0 →
  let line := first_line (Z.to_nat (max - 1)) (inp s 0) in
  ∃ s', gets max s = Ok (line ++ [0]) s' ∧ inp s 0 = line ++ inp s' 0 ∧ frame (Some 0) None s s'.
Proof. intros Hr. by apply gets_loop_ok. Qed.
End gets.
