(* ===== verification/Printf.v ===== *)
(** * printf for user programs: printf.c

    The arguments after the format are the words on the stack: [AInt] is an
    integer, [AStr] a pointer to a string given as its bytes before the NUL.
    Taking an argument that is not there, or reading a string through an
    integer other than 0, is undefined.  Every character is a [write] of its
    own, as in the source. *)

From S2P Require Import Prelude Params Strings Usys Ulib.

Inductive arg : Type :=
| AInt (w : Z)
| AStr (s : list Z).

Definition str (s : string) : list Z :=
  (λ a, Z.of_N (Ascii.N_of_ascii a)) <$> String.list_ascii_of_string s.

(** The newline that ends most messages. *)
Definition nl : string := String (Ascii.ascii_of_nat 10) EmptyString.
Definition line (s : string) : string := String.append s nl.

Definition PERCENT : Z := 37.
Definition digits : list Z := str "0123456789ABCDEF".

(** The characters of [x], the last digit first; [buf] has room for [room]. *)
Fixpoint printint_digits (room : nat) (x base : Z) : option (list Z) :=
  match room with
  | O => None
  | S room' =>
      d ← digits !! Z.to_nat (x mod base);
      if x / base =? 0 then Some [d] else cons d <$> printint_digits room' (x / base) base
  end.

Section printf.
Context {S : Type} `{!FileOps S}.

Definition putc (fd c : Z) : M S unit := u_write fd [u8 c];; mret tt.

Fixpoint putcs (fd : Z) (l : list Z) : M S unit :=
  match l with
  | [] => mret tt
  | c :: l' => putc fd c;; putcs fd l'
  end.

Definition printint (fd xx base : Z) (sgn : bool) : M S unit :=
  let neg := sgn && (xx <? 0) in
  let x := if neg then u32 (- xx) else u32 xx in
  ds ← lift_opt (printint_digits 16 x base);
  let buf := ds ++ (if neg then str "-" else []) in
  if bool_decide (16 < length buf)%nat then undef else
  putcs fd (reverse buf).

(** The string an argument points to. *)
Definition arg_str (a : arg) : option (list Z) :=
  match a with
  | AStr s => Some s
  | AInt w => if w =? 0 then Some (str "(null)") else None
  end.
Definition arg_int (a : arg) : option Z :=
  match a with AInt w => Some w | AStr _ => None end.

(** [pct] says that [state] is '%'. *)
Fixpoint printf_loop (fd : Z) (fmt : list Z) (pct : bool) (ap : list arg) : M S unit :=
  match fmt with
  | [] => mret tt
  | c :: fmt' =>
      if negb pct then
        if c =? PERCENT then printf_loop fd fmt' true ap
        else putc fd c;; printf_loop fd fmt' false ap
      else if c =? 100 then
        a ← lift_opt (head ap); w ← lift_opt (arg_int a);
        printint fd (s32 w) 10 true;; printf_loop fd fmt' false (tail ap)
      else if (c =? 120) || (c =? 112) then
        a ← lift_opt (head ap); w ← lift_opt (arg_int a);
        printint fd (s32 w) 16 false;; printf_loop fd fmt' false (tail ap)
      else if c =? 115 then
        a ← lift_opt (head ap); s ← lift_opt (arg_str a);
        putcs fd s;; printf_loop fd fmt' false (tail ap)
      else if c =? 99 then
        a ← lift_opt (head ap); w ← lift_opt (arg_int a);
        putc fd w;; printf_loop fd fmt' false (tail ap)
      else if c =? PERCENT then
        putc fd c;; printf_loop fd fmt' false ap
      else
        putc fd PERCENT;; putc fd c;; printf_loop fd fmt' false ap
  end.

Definition printf (fd : Z) (fmt : string) (ap : list arg) : M S unit :=
  printf_loop fd (str fmt) false ap.
End printf.

(** ** Numbers *)

(** The digits of [x] to a base, the last one first. *)
Fixpoint num_digits (n : nat) (x base : Z) : list Z :=
  match n with
  | O => []
  | S n' => x mod base :: (if x / base =? 0 then [] else num_digits n' (x / base) base)
  end.

Fixpoint num_val (base : Z) (ds : list Z) : Z :=
  match ds with [] => 0 | d :: ds' => d + base * num_val base ds' end.

Lemma num_digits_val n x base : 2 ≤ base → 0 ≤ x < base ^ Z.of_nat n → num_val base (num_digits n x base) = x.
Proof.
  intros Hb. revert x. induction n as [|n IH]; intros x Hx; [simpl in *; lia|].
  rewrite Nat2Z.inj_succ, Z.pow_succ_r in Hx by lia. simpl. destruct (Z.eqb_spec (x / base) 0) as [E|E].
  - simpl. rewrite (Z_div_mod_eq_full x base) at 2. rewrite E. lia.
  - rewrite IH; [|split; [apply Z.div_pos; lia|apply Z.div_lt_upper_bound; lia]].
    rewrite (Z_div_mod_eq_full x base) at 3. lia.
Qed.

Lemma num_digits_range n x base : 2 ≤ base → Forall (λ d, 0 ≤ d < base) (num_digits n x base).
Proof.
  intros Hb. revert x. induction n as [|n IH]; intros x; simpl; [constructor|].
  constructor; [apply Z.mod_pos_bound; lia|]. by destruct (x / base =? 0).
Qed.

(** No zero in front of other digits: the last of a longer list is not 0. *)
Lemma num_digits_lead n x base : 2 ≤ base → 0 ≤ x < base ^ Z.of_nat n →
  ∀ d, last (num_digits n x base) = Some d → d ≠ 0 ∨ x = 0.
Proof.
  intros Hb. revert x. induction n as [|n IH]; intros x Hx d Hd; [done|].
  rewrite Nat2Z.inj_succ, Z.pow_succ_r in Hx by lia. simpl in Hd. destruct (Z.eqb_spec (x / base) 0) as [E|E].
  - simpl in Hd. simplify_eq. pose proof (Z_div_mod_eq_full x base). rewrite E in *. lia.
  - assert (0 ≤ x / base < base ^ Z.of_nat n) as Hq.
    { split; [apply Z.div_pos; lia|apply Z.div_lt_upper_bound; lia]. }
    destruct n as [|n]; [simpl in Hq; lia|].
    assert (last (num_digits (Datatypes.S n) (x / base) base) = Some d) as Hd'.
    { rewrite last_cons in Hd. destruct (last (num_digits (Datatypes.S n) (x / base) base)) eqn:El; [done|].
      apply last_None in El. done. }
    destruct (IH _ Hq d Hd'); [by left|lia].
Qed.

Definition digit_char (d : Z) : Z := default 0 (digits !! Z.to_nat d).

Lemma printint_digits_ok n x base : 2 ≤ base ≤ 16 → 0 ≤ x < base ^ Z.of_nat n → (0 < n)%nat →
  printint_digits n x base = Some (digit_char <$> num_digits n x base).
Proof.
  intros Hb. revert x. induction n as [|n IH]; intros x Hx Hn; [lia|].
  rewrite Nat2Z.inj_succ, Z.pow_succ_r in Hx by lia. simpl.
  pose proof (Z.mod_pos_bound x base ltac:(lia)).
  destruct (lookup_lt_is_Some_2 digits (Z.to_nat (x mod base))) as [c Hc]; [change (length digits) with 16%nat; lia|].
  rewrite Hc. simpl. unfold digit_char at 1. rewrite Hc. simpl.
  destruct (Z.eqb_spec (x / base) 0) as [E|E]; [done|].
  assert (0 ≤ x / base < base ^ Z.of_nat n) as Hq.
  { split; [apply Z.div_pos; lia|apply Z.div_lt_upper_bound; lia]. }
  destruct n as [|n]; [simpl in Hq; lia|]. rewrite IH by (done || lia). done.
Qed.

Lemma num_digits_length n x base : (length (num_digits n x base) ≤ n)%nat.
Proof.
  revert x. induction n as [|n IH]; intros x; simpl; [lia|].
  destruct (x / base =? 0); simpl; [lia|]. specialize (IH (x / base)). lia.
Qed.

Lemma num_digits_more n m x base : 2 ≤ base → 0 ≤ x < base ^ Z.of_nat n → (0 < n ≤ m)%nat →
  num_digits m x base = num_digits n x base.
Proof.
  intros Hb. revert m x. induction n as [|n IH]; intros m x Hx Hn; [lia|]. destruct m as [|m]; [lia|].
  rewrite Nat2Z.inj_succ, Z.pow_succ_r in Hx by lia. simpl. destruct (Z.eqb_spec (x / base) 0) as [E|E]; [done|].
  assert (0 ≤ x / base < base ^ Z.of_nat n) as Hq.
  { split; [apply Z.div_pos; lia|apply Z.div_lt_upper_bound; lia]. }
  destruct n as [|n]; [simpl in Hq; lia|]. rewrite IH by lia. done.
Qed.

(** What [%d] and [%x] print. *)
Definition decimal (n : Z) : list Z :=
  (if n <? 0 then str "-" else []) ++ reverse (digit_char <$> num_digits 10 (Z.abs n) 10).
Definition hex (w : Z) : list Z := reverse (digit_char <$> num_digits 8 (u32 w) 16).

Lemma digit_char_byte d : is_byte (digit_char d).
Proof.
  unfold digit_char. destruct (digits !! Z.to_nat d) as [c|] eqn:E; simpl; [|unfold is_byte; lia].
  assert (Forall (λ b, (0 <=? b) && (b <? 256) = true) digits) as H by repeat constructor.
  pose proof (Forall_lookup_1 _ _ _ _ H E) as Hc. unfold is_byte. simpl in Hc. lia.
Qed.

Lemma u8_byte b : is_byte b → u8 b = b.
Proof. unfold is_byte, u8. intros. by apply Z.mod_small. Qed.

Lemma u8_bytes l : bytes l → u8 <$> l = l.
Proof. induction 1 as [|b l Hb Hl IH]; [done|]. rewrite fmap_cons, IH. by rewrite u8_byte. Qed.

Lemma digit_chars_bytes l : bytes (reverse (digit_char <$> l)).
Proof.
  unfold bytes. rewrite Forall_reverse, Forall_fmap. apply Forall_true. intros d. apply digit_char_byte.
Qed.

Section output.
Context {S : Type} `{!FileOps S, !FileSpec S}.

Lemma putc_ok fd c (s : S) : can_write s fd →
  ∃ s', putc fd c s = Ok tt s' ∧ out s' fd = out s fd ++ [u8 c] ∧ frame None (Some fd) s s'.
Proof.
  intros Hw. destruct (write_law s fd [u8 c] Hw) as (s' & E & Ho & Hf).
  exists s'. unfold putc. mstep E. done.
Qed.

Lemma putcs_ok fd l (s : S) : can_write s fd →
  ∃ s', putcs fd l s = Ok tt s' ∧ out s' fd = out s fd ++ (u8 <$> l) ∧ frame None (Some fd) s s'.
Proof.
  revert s. induction l as [|c l IH]; intros s Hw; simpl.
  - exists s. split; [done|]. split; [by rewrite app_nil_r|apply frame_refl].
  - destruct (putc_ok fd c s Hw) as (s1 & E1 & Ho1 & Hf1). mstep E1.
    destruct (IH s1) as (s2 & E2 & Ho2 & Hf2); [by apply (fr_wok Hf1)|].
    exists s2. split; [done|]. split; [by rewrite Ho2, Ho1, <- app_assoc|by apply (frame_trans _ _ _ s1)].
Qed.

Lemma printint_ok fd xx base sgn (s : S) (n : nat) :
  let neg := sgn && (xx <? 0) in
  let x := if neg then u32 (- xx) else u32 xx in
  2 ≤ base ≤ 16 → (0 < n < 16)%nat → x < base ^ Z.of_nat n → can_write s fd →
  ∃ s', printint fd xx base sgn s = Ok tt s' ∧
    out s' fd = out s fd ++ (if neg then str "-" else []) ++ reverse (digit_char <$> num_digits n x base) ∧
    frame None (Some fd) s s'.
Proof.
  intros neg x Hb Hn Hx Hw. assert (0 ≤ x) by (unfold x; destruct neg; apply u32_bound).
  unfold printint. fold neg. fold x. rewrite printint_digits_ok.
  2:{ done. }
  2:{ split; [done|]. apply Z.lt_le_trans with (1 := Hx). apply Z.pow_le_mono_r; lia. }
  2:{ lia. }
  rewrite (num_digits_more n) by lia. cbn [lift_opt]. rewrite bind_ret_l.
  pose proof (num_digits_length n x base). rewrite bool_decide_eq_false_2.
  2:{ rewrite length_app, length_fmap. destruct neg; simpl; lia. }
  rewrite reverse_app.
  destruct (putcs_ok fd (reverse (if neg then str "-" else []) ++ reverse (digit_char <$> num_digits n x base)) s Hw)
    as (s' & E & Ho & Hf).
  exists s'. split; [done|]. split; [|done]. rewrite Ho, fmap_app, (u8_bytes (reverse (digit_char <$> _))) by apply digit_chars_bytes.
  by destruct neg.
Qed.

Lemma printint_dec fd n (s : S) : -2147483648 ≤ n < 2147483648 → can_write s fd →
  ∃ s', printint fd n 10 true s = Ok tt s' ∧ out s' fd = out s fd ++ decimal n ∧ frame None (Some fd) s s'.
Proof.
  intros Hn Hw.
  assert (Hx : (if true && (n <? 0) then u32 (- n) else u32 n) = Z.abs n).
  { destruct (Z.ltb_spec n 0); simpl; rewrite u32_small by lia; lia. }
  destruct (printint_ok fd n 10 true s 10) as (s' & E & Ho & Hf); rewrite ?Hx; try lia; [done|].
  exists s'. split; [done|]. split; [|done]. rewrite Ho, Hx. done.
Qed.

Lemma printint_hex fd n (s : S) : can_write s fd →
  ∃ s', printint fd n 16 false s = Ok tt s' ∧ out s' fd = out s fd ++ hex n ∧ frame None (Some fd) s s'.
Proof.
  intros Hw. pose proof (u32_bound n).
  destruct (printint_ok fd n 16 false s 8) as (s' & E & Ho & Hf); simpl; try lia; [done|].
  by exists s'.
Qed.
End output.

(** ** Formatted text *)

Definition fmt_arg {A} (ap : list arg) (get : arg → option A) (k : A → option (list Z)) : option (list Z) :=
  a ← head ap; x ← get a; k x.

(** The text that a format and its arguments denote. *)
Fixpoint text (fmt : list Z) (pct : bool) (ap : list arg) : option (list Z) :=
  match fmt with
  | [] => Some []
  | c :: fmt' =>
      let next t ap := app t <$> text fmt' false ap in
      if negb pct then if c =? PERCENT then text fmt' true ap else next [u8 c] ap
      else if c =? 100 then fmt_arg ap arg_int (λ w, next (decimal (s32 w)) (tail ap))
      else if (c =? 120) || (c =? 112) then fmt_arg ap arg_int (λ w, next (hex (s32 w)) (tail ap))
      else if c =? 115 then fmt_arg ap arg_str (λ s, next (u8 <$> s) (tail ap))
      else if c =? 99 then fmt_arg ap arg_int (λ w, next [u8 w] (tail ap))
      else if c =? PERCENT then next [u8 c] ap
      else next [PERCENT; u8 c] ap
  end.

Lemma s32_range w : -2147483648 ≤ s32 w < 2147483648.
Proof. unfold s32. pose proof (u32_bound w). destruct (Z.ltb_spec (u32 w) 2147483648); lia. Qed.

Section formatted.
Context {S : Type} `{!FileOps S, !FileSpec S}.

(** A step of [printf] that prints [t] and goes on. *)
Lemma printf_next fd fmt ap t l (m : M S unit) (s : S) :
  (∀ s ap l, text fmt false ap = Some l → can_write s fd →
     ∃ s', printf_loop fd fmt false ap s = Ok tt s' ∧ out s' fd = out s fd ++ l ∧ frame None (Some fd) s s') →
  (∃ s1, m s = Ok tt s1 ∧ out s1 fd = out s fd ++ t ∧ frame None (Some fd) s s1) →
  app t <$> text fmt false ap = Some l → can_write s fd →
  ∃ s', (m ≫= λ _, printf_loop fd fmt false ap) s = Ok tt s' ∧
    out s' fd = out s fd ++ l ∧ frame None (Some fd) s s'.
Proof.
  intros IH (s1 & E1 & Ho1 & Hf1) Hl Hw. apply fmap_Some in Hl as (l' & Hl & ->).
  mstep E1. destruct (IH s1 ap l' Hl) as (s2 & E2 & Ho2 & Hf2); [by apply (fr_wok Hf1)|].
  exists s2. split; [done|]. split; [by rewrite Ho2, Ho1, <- app_assoc|by apply (frame_trans _ _ _ s1)].
Qed.

Lemma fmt_arg_step {A B} ap (get : arg → option A) k l (m : A → M S B) (s : S) :
  fmt_arg ap get k = Some l → ∃ x, k x = Some l ∧
    (a ← lift_opt (head ap); x ← lift_opt (get a); m x) s = m x s.
Proof.
  unfold fmt_arg. destruct (head ap) as [a|]; simpl; [|done].
  destruct (get a) as [x|] eqn:E; simpl; [|done]. intros H. exists x. split; [done|].
  rewrite bind_ret_l, E. done.
Qed.
Lemma printf_loop_ok fd fmt pct ap l (s : S) : text fmt pct ap = Some l → can_write s fd →
  ∃ s', printf_loop fd fmt pct ap s = Ok tt s' ∧ out s' fd = out s fd ++ l ∧ frame None (Some fd) s s'.
Proof.
  revert pct ap l s. induction fmt as [|c fmt IH]; intros pct ap l s Hl Hw.
  { simpl in Hl. simplify_eq. exists s. split; [done|]. split; [by rewrite app_nil_r|apply frame_refl]. }
  pose proof (λ s ap l, IH false ap l s) as IHf. cbn [printf_loop text] in *. destruct pct; cbn [negb] in *.
  - destruct (c =? 100).
    { destruct (fmt_arg_step _ _ _ _ (λ w, printint fd (s32 w) 10 true;; printf_loop fd fmt false (tail ap)) s Hl) as (w & Hk & ->).
      apply (printf_next fd fmt (tail ap) (decimal (s32 w))); try done. apply printint_dec; [apply s32_range|done]. }
    destruct ((c =? 120) || (c =? 112)).
    { destruct (fmt_arg_step _ _ _ _ (λ w, printint fd (s32 w) 16 false;; printf_loop fd fmt false (tail ap)) s Hl) as (w & Hk & ->).
      apply (printf_next fd fmt (tail ap) (hex (s32 w))); try done. by apply printint_hex. }
    destruct (c =? 115).
    { destruct (fmt_arg_step _ _ _ _ (λ x, putcs fd x;; printf_loop fd fmt false (tail ap)) s Hl) as (x & Hk & ->).
      apply (printf_next fd fmt (tail ap) (u8 <$> x)); try done. by apply putcs_ok. }
    destruct (c =? 99).
    { destruct (fmt_arg_step _ _ _ _ (λ w, putc fd w;; printf_loop fd fmt false (tail ap)) s Hl) as (w & Hk & ->).
      apply (printf_next fd fmt (tail ap) [u8 w]); try done. by apply putc_ok. }
    destruct (c =? PERCENT).
    { apply (printf_next fd fmt ap [u8 c]); try done. by apply putc_ok. }
    rewrite <- bind_assoc. apply (printf_next fd fmt ap [PERCENT; u8 c]); try done.
    destruct (putc_ok fd PERCENT s Hw) as (s1 & E1 & Ho1 & Hf1). mstep E1.
    destruct (putc_ok fd c s1) as (s2 & E2 & Ho2 & Hf2); [by apply (fr_wok Hf1)|].
    exists s2. split; [done|]. split; [by rewrite Ho2, Ho1, <- app_assoc|by apply (frame_trans _ _ _ s1)].
  - destruct (c =? PERCENT); [by apply IH|].
    apply (printf_next fd fmt ap [u8 c]); try done. by apply putc_ok.
Qed.

Lemma printf_ok fd fmt ap l (s : S) : text (str fmt) false ap = Some l → can_write s fd →
  ∃ s', printf fd fmt ap s = Ok tt s' ∧ out s' fd = out s fd ++ l ∧ frame None (Some fd) s s'.
Proof. apply printf_loop_ok. Qed.
End formatted.

(** ** Numbers read back *)

Lemma dec_val_reverse ds : dec_val (reverse ds) = num_val 10 ds.
Proof.
  unfold dec_val. induction ds as [|d ds IH]; [done|].
  rewrite reverse_cons, foldl_app, IH. simpl. lia.
Qed.

Lemma digit_char_dec d : digit d → digit_char d = 48 + d.
Proof.
  unfold digit. intros Hd. assert (d ∈ seqZ 0 10) as Hin by (apply elem_of_seqZ; lia).
  assert (Forall (λ d, digit_char d = 48 + d) (seqZ 0 10)) as H by repeat constructor.
  rewrite Forall_forall in H. by apply H.
Qed.

Lemma decimal_chars n : 0 ≤ n → decimal n = Z.add 48 <$> reverse (num_digits 10 n 10).
Proof.
  intros Hn. unfold decimal. rewrite (proj2 (Z.ltb_ge n 0)), Z.abs_eq by lia.
  rewrite app_nil_l, fmap_reverse. f_equal. apply Forall_fmap_ext_1.
  eapply Forall_impl; [apply (num_digits_range 10 n 10); lia|]. intros d Hd. by apply digit_char_dec.
Qed.

(** [printf("%d", n)] followed by [atoi] gives the number back, for every
    [n] that fits a non-negative [int]: the digits printed are the decimal
    representation of [n], and reading them does not overflow. *)
Theorem print_atoi {S} `{!FileOps S, !FileSpec S} fd n (s : S) :
  0 ≤ n < 2147483648 → can_write s fd →
  ∃ l s', printf fd "%d" [AInt n] s = Ok tt s' ∧ out s' fd = out s fd ++ l ∧ atoi (l ++ [0]) = Some n.
Proof.
  intros Hn Hw.
  assert (s32 n = n) as Hs by (unfold s32; rewrite u32_small by lia; by rewrite (proj2 (Z.ltb_lt n _)) by lia).
  destruct (printf_ok fd "%d" [AInt n] (decimal n) s) as (s' & E & Ho & _); [|done|].
  { cbn. by rewrite Hs, app_nil_r. }
  exists (decimal n), s'. split; [done|]. split; [done|]. rewrite decimal_chars by lia.
  assert (dec_val (reverse (num_digits 10 n 10)) = n) as Hv.
  { rewrite dec_val_reverse. apply num_digits_val; [lia|]. change (10 ^ Z.of_nat 10) with 10000000000. lia. }
  rewrite atoi_ok; [by rewrite Hv| |lia|lia]. apply Forall_reverse, num_digits_range. lia.
Qed.

Lemma print_atoi_witness :
  ∃ l s', printf 1 "%d" [AInt 1992] (mksim ∅ {[1 := []]}) = Ok tt s' ∧ out s' 1 = l ∧
    atoi (l ++ [0]) = Some 1992.
Proof.
  destruct (print_atoi 1 1992 (mksim ∅ {[1 := []]})) as (l & s' & E & Ho & Ha); [lia|by eexists|].
  exists l, s'. split; [exact E|]. split; [rewrite Ho; reflexivity|exact Ha].
Defined.
