(* ===== verification/Grep.v ===== *)
(** * grep: grep.c

    The matcher works on patterns and lines as lists of the bytes before their
    NUL, so that reading the NUL is the test for the empty list.  Its
    reference is [lang]: a pattern is split into atoms and anchors, and the
    atoms denote a language.  [grep] keeps its buffer [buf] as the list of the
    [m] bytes in use. *)

From S2P Require Import Prelude Params Strings Usys Ulib.

Definition CARET : Z := 94.
Definition DOT : Z := 46.
Definition STAR : Z := 42.
Definition DOLLAR : Z := 36.
Definition NEWLINE : Z := 10.

(** ** The matcher *)

(** [matchstar] runs [here], which is [matchhere] on the rest of the pattern. *)
Fixpoint matchstar (here : list Z → bool) (c : Z) (text : list Z) : bool :=
  if here text then true else
  match text with
  | [] => false
  | t :: text' => if (t =? c) || (c =? DOT) then matchstar here c text' else false
  end.

Fixpoint matchhere (re text : list Z) {struct re} : bool :=
  match re with
  | [] => true
  | c :: re1 =>
      let plain :=
        if (c =? DOLLAR) && bool_decide (re1 = []) then bool_decide (text = []) else
        match text with
        | t :: text' => if (c =? DOT) || (c =? t) then matchhere re1 text' else false
        | [] => false
        end in
      match re1 with
      | d :: re2 => if d =? STAR then matchstar (matchhere re2) c text else plain
      | [] => plain
      end
  end.

Fixpoint match_from (re text : list Z) {struct text} : bool :=
  if matchhere re text then true else
  match text with
  | [] => false
  | _ :: text' => match_from re text'
  end.

Definition match_ (re text : list Z) : bool :=
  match re with
  | c :: re' => if c =? CARET then matchhere re' text else match_from re text
  | [] => match_from re text
  end.

(** ** The reference *)

Inductive atom : Type :=
| One (c : Z)
| Many (c : Z).

(** A character of the pattern matches this character of the text. *)
Definition sat (c x : Z) : Prop := c = DOT ∨ c = x.

(** The atoms of a pattern, and whether it ends in the anchor [$]. *)
Fixpoint atoms (re : list Z) : list atom * bool :=
  match re with
  | [] => ([], false)
  | c :: re1 =>
      match re1 with
      | d :: re2 =>
          if d =? STAR then let '(l, e) := atoms re2 in (Many c :: l, e)
          else let '(l, e) := atoms re1 in (One c :: l, e)
      | [] => if c =? DOLLAR then ([], true) else ([One c], false)
      end
  end.

Inductive lang : list atom → list Z → Prop :=
| lang_nil : lang [] []
| lang_one c x l t : sat c x → lang l t → lang (One c :: l) (x :: t)
| lang_many c xs l t : Forall (sat c) xs → lang l t → lang (Many c :: l) (xs ++ t).

(** [re] matches at the start of [text]: a prefix is in the language, all of
    [text] if the pattern is anchored at the end. *)
Definition matches_at (re text : list Z) : Prop :=
  ∃ mid post, text = mid ++ post ∧ lang (atoms re).1 mid ∧ ((atoms re).2 = true → post = []).

Definition matches (re text : list Z) : Prop :=
  match re with
  | c :: re' => if c =? CARET then matches_at re' text
                else ∃ pre suf, text = pre ++ suf ∧ matches_at re suf
  | [] => ∃ pre suf, text = pre ++ suf ∧ matches_at re suf
  end.

(** ** The matcher decides the reference *)

Lemma matchstar_spec here c text :
  matchstar here c text = true ↔
  ∃ xs rest, text = xs ++ rest ∧ Forall (sat c) xs ∧ here rest = true.
Proof.
  induction text as [|t text IH]; simpl.
  - destruct (here []) eqn:E; split; try done.
    + intros _. by exists [], [].
    + intros (xs & rest & Ht & _ & H). symmetry in Ht. apply app_eq_nil in Ht as [-> ->]. congruence.
  - destruct (here (t :: text)) eqn:E; [split; [|done]; intros _; by exists [], (t :: text)|].
    assert (Hsat : (t =? c) || (c =? DOT) = true ↔ sat c t).
    { unfold sat. rewrite orb_true_iff, !Z.eqb_eq. naive_solver. }
    destruct ((t =? c) || (c =? DOT)).
    + rewrite IH. split.
      * intros (xs & rest & -> & Hx & Hh). exists (t :: xs), rest. split; [done|].
        split; [|done]. apply Forall_cons. split; [by apply Hsat|done].
      * intros (xs & rest & Ht & Hx & Hh). destruct xs as [|x xs]; simpl in Ht; simplify_eq; [congruence|].
        exists xs, rest. split; [done|]. by apply Forall_cons in Hx as [_ ?].
    + split; [done|]. intros (xs & rest & Ht & Hx & Hh). destruct xs as [|x xs]; simpl in Ht; simplify_eq; [congruence|].
      apply Forall_cons in Hx as [Hx%Hsat _]. done.
Qed.

(** The cases of [matchhere] as the source writes them. *)
Lemma matchhere_star c re text : matchhere (c :: STAR :: re) text = matchstar (matchhere re) c text.
Proof. reflexivity. Qed.

Lemma matchhere_end text : matchhere [DOLLAR] text = bool_decide (text = []).
Proof. by destruct text. Qed.

Lemma matchhere_one c re text : head re ≠ Some STAR → (c ≠ DOLLAR ∨ re ≠ []) →
  matchhere (c :: re) text =
    match text with t :: text' => if (c =? DOT) || (c =? t) then matchhere re text' else false | [] => false end.
Proof.
  intros Hs Hd.
  assert ((c =? DOLLAR) && bool_decide (re = []) = false) as Hb.
  { destruct (Z.eqb_spec c DOLLAR); [|done]. simpl. apply bool_decide_eq_false. naive_solver. }
  destruct re as [|d re]; cbn [matchhere].
  - by rewrite Hb.
  - destruct (Z.eqb_spec d STAR) as [->|_]; [done|]. by rewrite Hb.
Qed.

Lemma atoms_star c re : atoms (c :: STAR :: re) = (Many c :: (atoms re).1, (atoms re).2).
Proof. simpl. by destruct (atoms re). Qed.

Lemma atoms_one c re : head re ≠ Some STAR → (c ≠ DOLLAR ∨ re ≠ []) →
  atoms (c :: re) = (One c :: (atoms re).1, (atoms re).2).
Proof.
  intros Hs Hd. destruct re as [|d re].
  - simpl. destruct (Z.eqb_spec c DOLLAR); [naive_solver|done].
  - assert (atoms (c :: d :: re) =
      if d =? STAR then let '(l, e) := atoms re in (Many c :: l, e)
      else let '(l, e) := atoms (d :: re) in (One c :: l, e)) as -> by reflexivity.
    destruct (Z.eqb_spec d STAR) as [->|_]; [done|]. by destruct (atoms (d :: re)).
Qed.

(** A pattern is empty, starred, the end anchor, or one plain character. *)
Lemma pattern_cases (P : list Z → Prop) :
  P [] → (∀ c re, P re → P (c :: STAR :: re)) → P [DOLLAR] →
  (∀ c re, head re ≠ Some STAR → (c ≠ DOLLAR ∨ re ≠ []) → P re → P (c :: re)) →
  ∀ re, P re.
Proof.
  intros Hnil Hstar Hend Hone re. remember (length re) as n eqn:Hn. revert re Hn.
  induction n as [n IH] using lt_wf_ind. intros re ->.
  destruct re as [|c [|d re]]; [done| |].
  - destruct (decide (c = DOLLAR)) as [->|Hc]; [done|]. by apply Hone; [|left|].
  - destruct (decide (d = STAR)) as [->|Hd].
    + apply Hstar. apply (IH (length re)); simpl; [lia|done].
    + apply Hone; [simpl; congruence|by right|]. apply (IH (length (d :: re))); simpl; [lia|done].
Qed.

Lemma matchhere_spec re text : matchhere re text = true ↔ matches_at re text.
Proof.
  revert text. pattern re. apply pattern_cases; clear re; unfold matches_at.
  - intros text. split; [|done]. intros _. exists [], text. split; [done|]. split; [constructor|done].
  - intros c re IH text. rewrite matchhere_star, matchstar_spec, atoms_star. simpl. split.
    + intros (xs & rest & -> & Hx & (mid & post & -> & Hl & He)%IH).
      exists (xs ++ mid), post. split; [by rewrite app_assoc|]. split; [by constructor|done].
    + intros (mid & post & -> & Hl & He). inversion Hl; subst.
      eexists _, _. split; [symmetry; apply app_assoc|]. split; [done|]. apply IH. by eexists _, _.
  - intros text. rewrite matchhere_end, bool_decide_eq_true. simpl. split.
    + intros ->. exists [], []. split; [done|]. split; [constructor|done].
    + intros (mid & post & -> & Hl & He). inversion Hl. by rewrite He.
  - intros c re Hs Hd IH text. rewrite matchhere_one, atoms_one by done. simpl.
    destruct text as [|t text].
    { split; [done|]. intros (mid & post & Ht & Hl & _). symmetry in Ht.
      apply app_eq_nil in Ht as [-> _]. inversion Hl. }
    assert (Hsat : (c =? DOT) || (c =? t) = true ↔ sat c t).
    { unfold sat. by rewrite orb_true_iff, !Z.eqb_eq. }
    destruct ((c =? DOT) || (c =? t)).
    + rewrite IH. split.
      * intros (mid & post & -> & Hl & He). exists (t :: mid), post. split; [done|].
        split; [|done]. constructor; [by apply Hsat|done].
      * intros (mid & post & Ht & Hl & He). inversion Hl; subst. simplify_eq/=. by eexists _, _.
    + split; [done|]. intros (mid & post & Ht & Hl & He). inversion Hl; subst. simplify_eq/=.
      by rewrite <- Hsat in *.
Qed.

Lemma match_from_spec re text :
  match_from re text = true ↔ ∃ pre suf, text = pre ++ suf ∧ matches_at re suf.
Proof.
  induction text as [|t text IH]; simpl.
  - destruct (matchhere re []) eqn:E.
    + split; [|done]. intros _. exists [], []. split; [done|]. by apply matchhere_spec.
    + split; [done|]. intros (pre & suf & Ht & H%matchhere_spec). symmetry in Ht.
      apply app_eq_nil in Ht as [-> ->]. congruence.
  - destruct (matchhere re (t :: text)) eqn:E.
    + split; [|done]. intros _. exists [], (t :: text). split; [done|]. by apply matchhere_spec.
    + rewrite IH. split.
      * intros (pre & suf & -> & H). by exists (t :: pre), suf.
      * intros (pre & suf & Ht & H). destruct pre as [|x pre]; simpl in Ht.
        -- subst suf. apply matchhere_spec in H. congruence.
        -- simplify_eq. by exists pre, suf.
Qed.

(** C33: [match] decides the language of the pattern: it returns 1 exactly when
    some part of the line is in the language of the pattern's atoms, a part at
    the start if the pattern begins with [^] and one at the end if it ends
    in [$], with [.] for any character and [c*] for any number of [c]. *)
Theorem match_correct re text : match_ re text = true ↔ matches re text.
Proof.
  destruct re as [|c re]; simpl; [apply match_from_spec|].
  destruct (c =? CARET); [apply matchhere_spec|apply match_from_spec].
Qed.

(** ** grep *)

Section grep.
Context {S : Type} `{!FileOps S}.

(** The loop over the complete lines from [p] on; it returns the last [p].
    A line found ends before its NUL or newline, so it has no NUL in it. *)
Fixpoint grep_lines (fuel : nat) (pattern p : list Z) : M S (list Z) :=
  match fuel with
  | O => no_fuel
  | Datatypes.S fuel' =>
      r ← lift_opt (strchr (p ++ [0]) NEWLINE);
      match r with
      | None => mret p
      | Some q =>
          let line := take (length p + 1 - length q) p in
          (if match_ pattern line then u_write 1 (line ++ [NEWLINE]);; mret tt else mret tt);;
          grep_lines fuel' pattern (drop (length line + 1) p)
      end
  end.

(** [b] is the part of [buf] in use, [m] bytes long. *)
Fixpoint grep_loop (fuel : nat) (pattern : list Z) (fd : Z) (b : list Z) : M S unit :=
  match fuel with
  | O => no_fuel
  | Datatypes.S fuel' =>
      let m := Z.of_nat (length b) in
      '(n, bs) ← u_read fd (1024 - m - 1);
      if 0 <? n then
        let b := b ++ bs in
        p ← grep_lines (Datatypes.S (length b)) pattern b;
        let b := if bool_decide (length p = length b) then [] else p in
        grep_loop fuel' pattern fd b
      else mret tt
  end.

Definition grep (fuel : nat) (pattern : list Z) (fd : Z) : M S unit := grep_loop fuel pattern fd [].
End grep.

(** ** Lines *)

(** The complete lines of a text, without their newlines, and what follows the
    last newline. *)
Fixpoint lines (l : list Z) : list (list Z) * list Z :=
  match l with
  | [] => ([], [])
  | c :: l' =>
      let '(ls, r) := lines l' in
      if c =? NEWLINE then ([] :: ls, r)
      else match ls with
           | [] => ([], c :: r)
           | x :: ls' => ((c :: x) :: ls', r)
           end
  end.

(** The lines that match, as [grep] prints them. *)
Definition matching (pattern : list Z) (ls : list (list Z)) : list Z :=
  concat ((.++ [NEWLINE]) <$> filter (λ l, match_ pattern l = true) ls).

Lemma lines_cons_line x l : NEWLINE ∉ x → lines (x ++ NEWLINE :: l) = (x :: (lines l).1, (lines l).2).
Proof.
  induction x as [|c x IH]; intros Hx; simpl.
  - by destruct (lines l).
  - apply not_elem_of_cons in Hx as [Hc Hx]. rewrite IH by done.
    by rewrite (proj2 (Z.eqb_neq c NEWLINE)) by congruence.
Qed.

Lemma lines_no_newline l : NEWLINE ∉ l → lines l = ([], l).
Proof.
  induction l as [|c l IH]; intros Hx; simpl; [done|].
  apply not_elem_of_cons in Hx as [Hc Hx]. rewrite IH by done.
  by rewrite (proj2 (Z.eqb_neq c NEWLINE)) by congruence.
Qed.

(** A text is a line and the rest, or has no newline. *)
Lemma lines_case l : NEWLINE ∉ l ∨ ∃ x l', l = x ++ NEWLINE :: l' ∧ NEWLINE ∉ x.
Proof.
  induction l as [|c l IH]; [left; apply not_elem_of_nil|].
  destruct (decide (c = NEWLINE)) as [->|Hc].
  - right. exists [], l. split; [done|]. apply not_elem_of_nil.
  - destruct IH as [H|(x & l' & -> & H)].
    + left. by apply not_elem_of_cons.
    + right. exists (c :: x), l'. split; [done|]. by apply not_elem_of_cons.
Qed.

Lemma lines_app a b :
  lines (a ++ b) = ((lines a).1 ++ (lines ((lines a).2 ++ b)).1, (lines ((lines a).2 ++ b)).2).
Proof.
  remember (length a) as n eqn:Hn. revert a Hn. induction n as [n IH] using lt_wf_ind. intros a ->.
  destruct (lines_case a) as [H|(x & l & -> & H)].
  - rewrite (lines_no_newline a) by done. simpl. by destruct (lines (a ++ b)).
  - rewrite <- app_assoc, <- app_comm_cons, !lines_cons_line by done. simpl.
    rewrite (IH (length l)); [done| |done]. rewrite length_app. simpl. lia.
Qed.

Lemma lines_rest l : NEWLINE ∉ (lines l).2.
Proof.
  remember (length l) as n eqn:Hn. revert l Hn. induction n as [n IH] using lt_wf_ind. intros l ->.
  destruct (lines_case l) as [H|(x & l' & -> & H)].
  - by rewrite (lines_no_newline l).
  - rewrite lines_cons_line by done. simpl. apply (IH (length l')); [|done]. rewrite length_app. simpl. lia.
Qed.

Lemma lines_length l : (length (lines l).2 ≤ length l)%nat ∧
  ((lines l).1 ≠ [] → (length (lines l).2 < length l)%nat).
Proof.
  remember (length l) as n eqn:Hn. revert l Hn. induction n as [n IH] using lt_wf_ind. intros l ->.
  destruct (lines_case l) as [H|(x & l' & -> & H)].
  - rewrite (lines_no_newline l) by done. simpl. split; [lia|done].
  - rewrite lines_cons_line by done. simpl. rewrite length_app. simpl.
    destruct (IH (length l')) with (l := l') as [H1 _]; [rewrite length_app; simpl; lia|done|]. lia.
Qed.

(** ** grep prints the matching lines *)

Section grep_ok.
Context {S : Type} `{!FileOps S, !FileSpec S}.

Lemma matching_cons pattern x ls :
  matching pattern (x :: ls) =
    (if match_ pattern x then x ++ [NEWLINE] else []) ++ matching pattern ls.
Proof.
  unfold matching. rewrite filter_cons. case_decide as E; destruct (match_ pattern x); done.
Qed.

Lemma matching_app pattern a b : matching pattern (a ++ b) = matching pattern a ++ matching pattern b.
Proof. unfold matching. by rewrite filter_app, fmap_app, concat_app. Qed.

Lemma grep_lines_ok fuel pattern p (s : S) : no_nul p → (length p < fuel)%nat → can_write s 1 →
  ∃ s', grep_lines fuel pattern p s = Ok (lines p).2 s' ∧
    out s' 1 = out s 1 ++ matching pattern (lines p).1 ∧ frame None (Some 1) s s'.
Proof.
  revert p s. induction fuel as [|fuel IH]; intros p s Hn Hf Hw; [lia|]. cbn [grep_lines].
  destruct (lines_case p) as [Hp|(x & l & -> & Hx)].
  - rewrite strchr_none by done. cbn [lift_opt]. rewrite bind_ret_l, lines_no_newline by done.
    exists s. split; [done|]. split; [by rewrite app_nil_r|apply frame_refl].
  - apply Forall_app in Hn as [Hnx Hnl]. apply Forall_cons in Hnl as [_ Hnl].
    rewrite <- app_assoc, <- app_comm_cons, strchr_found by done. cbn [lift_opt]. rewrite bind_ret_l.
    assert (take (length (x ++ NEWLINE :: l) + 1 - length (NEWLINE :: l ++ [0])) (x ++ NEWLINE :: l) = x) as ->.
    { apply take_app_length'. rewrite !length_app. simpl. rewrite length_app. simpl. lia. }
    assert (drop (length x + 1) (x ++ NEWLINE :: l) = l) as ->.
    { rewrite (cons_middle NEWLINE), app_assoc. apply drop_app_length'. by rewrite length_app. }
    rewrite lines_cons_line by done. simpl fst. simpl snd. rewrite matching_cons.
    assert (Hl : (length l < fuel)%nat) by (rewrite length_app in Hf; simpl in Hf; lia).
    destruct (match_ pattern x).
    + destruct (write_law s 1 (x ++ [NEWLINE]) Hw) as (s1 & E1 & Ho & Hfr).
      rewrite bind_assoc. mstep E1. rewrite bind_ret_l.
      destruct (IH l s1 Hnl Hl) as (s2 & E2 & Ho2 & Hfr2); [by apply (fr_wok Hfr)|].
      exists s2. split; [done|]. split; [by rewrite Ho2, Ho, <- app_assoc|by apply (frame_trans _ _ _ s1)].
    + rewrite bind_ret_l. destruct (IH l s Hnl Hl Hw) as (s2 & E2 & Ho2 & Hfr2). by exists s2.
Qed.

(** A full buffer without a newline holds no complete line of the rest. *)
Lemma long_line_none a r : NEWLINE ∉ a → (1023 ≤ length a)%nat →
  Forall (λ l, (length l ≤ 1022)%nat) (lines (a ++ r)).1 → (lines (a ++ r)).1 = [] ∧ (lines r).1 = [].
Proof.
  intros Ha Hl Hlines. rewrite lines_app, (lines_no_newline a) in * by done. simpl in *.
  destruct (lines_case r) as [H|(x & l & -> & H)].
  - rewrite (lines_no_newline (a ++ r)), (lines_no_newline r) by (try apply not_elem_of_app; done). done.
  - exfalso. rewrite app_assoc, lines_cons_line in Hlines by (by apply not_elem_of_app).
    simpl in Hlines. apply Forall_cons in Hlines as [Hx _]. rewrite length_app in Hx. lia.
Qed.

(** What stays in the buffer after the lines of [a] have been printed. *)
Definition carry (a : list Z) : list Z :=
  if bool_decide (length (lines a).2 = length a) then [] else (lines a).2.

Lemma no_nul_rest l : no_nul l → no_nul (lines l).2.
Proof.
  unfold no_nul. remember (length l) as n eqn:Hn. revert l Hn. induction n as [n IH] using lt_wf_ind. intros l -> Hl.
  destruct (lines_case l) as [H|(x & l' & -> & H)]; [by rewrite lines_no_newline|].
  rewrite lines_cons_line by done. apply Forall_app in Hl as [_ [_ Hl]%Forall_cons].
  apply (IH (length l')); [|done|done]. rewrite length_app. simpl. lia.
Qed.

Lemma carry_ok a : no_nul a → (length a ≤ 1023)%nat →
  NEWLINE ∉ carry a ∧ (length (carry a) ≤ 1022)%nat ∧ no_nul (carry a).
Proof.
  intros Ha Hl. unfold carry. case_bool_decide as Heq.
  - split; [apply not_elem_of_nil|]. split; [simpl; lia|constructor].
  - split; [apply lines_rest|]. destruct (lines_length a). split; [lia|by apply no_nul_rest].
Qed.

Lemma carry_lines a r : (r ≠ [] → (1023 ≤ length a)%nat) →
  Forall (λ l, (length l ≤ 1022)%nat) (lines (a ++ r)).1 →
  (lines (a ++ r)).1 = (lines a).1 ++ (lines (carry a ++ r)).1.
Proof.
  intros Hr Hlines. unfold carry. case_bool_decide as Heq; [|by rewrite lines_app].
  destruct (lines_case a) as [Hna|(x & l & -> & Hx)].
  - rewrite (lines_no_newline a) by done. simpl. destruct (decide (r = [])) as [->|Hr0].
    + by rewrite app_nil_r, lines_no_newline.
    + destruct (long_line_none a r) as [H1 H2]; [done|by apply Hr|done|congruence].
  - destruct (lines_length (x ++ NEWLINE :: l)) as [_ Hlt]. rewrite lines_cons_line in * by done.
    specialize (Hlt ltac:(done)). lia.
Qed.

Lemma grep_loop_ok fuel pattern fd b (s : S) :
  can_read s fd → regular s fd → can_write s 1 → no_nul b → no_nul (inp s fd) →
  NEWLINE ∉ b → (length b ≤ 1022)%nat → (length (inp s fd) < fuel)%nat →
  Forall (λ l, (length l ≤ 1022)%nat) (lines (b ++ inp s fd)).1 →
  ∃ s', grep_loop fuel pattern fd b s = Ok tt s' ∧
    out s' 1 = out s 1 ++ matching pattern (lines (b ++ inp s fd)).1 ∧ inp s' fd = [].
Proof.
  revert b s. induction fuel as [|fuel IH]; intros b s Hr Hreg Hw Hnb Hni Hb Hlb Hf Hlines; [lia|].
  cbn [grep_loop].
  destruct (read_law s fd (1024 - Z.of_nat (length b) - 1) Hr) as (k & s1 & E & Hk1 & Hk2 & _ & Hk4 & Hi & Hfr); [lia|].
  mstep E. specialize (Hk4 Hreg). destruct (Z.ltb_spec 0 (Z.of_nat k)) as [Hk|Hk].
  2:{ assert (inp s fd = []) as He by (destruct (inp s fd); [done|]; simpl in *; lia).
      exists s1. rewrite He, app_nil_r in *. rewrite lines_no_newline by done.
      split; [done|]. split; [|by rewrite Hi, drop_nil]. by rewrite app_nil_r, (fr_out Hfr). }
  set (a := b ++ take k (inp s fd)). set (r := drop k (inp s fd)) in *.
  assert (Hsplit : b ++ inp s fd = a ++ r) by (unfold a, r; by rewrite <- app_assoc, take_drop).
  assert (no_nul a ∧ no_nul r) as [Hna Hnr].
  { unfold no_nul in *. rewrite <- (take_drop k (inp s fd)), Forall_app in Hni. unfold a.
    rewrite Forall_app. tauto. }
  assert (length a = (length b + k)%nat ∧ length r = (length (inp s fd) - k)%nat) as [La Lr].
  { unfold a, r. rewrite length_app, length_take, length_drop. lia. }
  destruct (grep_lines_ok (Datatypes.S (length a)) pattern a s1 Hna) as (s2 & E2 & Ho2 & Hfr2);
    [lia|by apply (fr_wok Hfr)|]. mstep E2.
  assert (inp s2 fd = r) as Hi2 by (by rewrite (fr_inp Hfr2), Hi).
  rewrite Hsplit in *.
  assert (Hc : (lines (a ++ r)).1 = (lines a).1 ++ (lines (carry a ++ r)).1).
  { apply carry_lines; [|done]. intros H. assert (length r ≠ 0)%nat by (by destruct r). lia. }
  rewrite Hc in *. apply Forall_app in Hlines as [_ Hlines].
  destruct (carry_ok a Hna) as (H1 & H2 & H3); [lia|].
  fold (carry a). destruct (IH (carry a) s2) as (s3 & E3 & Ho3 & Hi3); rewrite ?Hi2; try done; try lia.
  - by apply (fr_rdy Hfr2), (fr_rdy Hfr).
  - by apply (fr_reg Hfr2), (fr_reg Hfr).
  - by apply (fr_wok Hfr2), (fr_wok Hfr).
  - exists s3. split; [done|]. split; [|done].
    by rewrite Ho3, Ho2, matching_app, Hi2, (fr_out Hfr), <- app_assoc.
Qed.
End grep_ok.

(** On a regular file without NULs whose lines are at most 1022 bytes long,
    [grep] reads the file to its end and prints, in order, exactly the complete
    lines that match the pattern, wherever they fall in its 1024-byte buffer;
    [fuel] bounds the number of reads. *)
Theorem grep_correct {S} `{!FileOps S, !FileSpec S} fuel pattern fd (s : S) :
  can_read s fd → regular s fd → can_write s 1 → no_nul (inp s fd) →
  (length (inp s fd) < fuel)%nat → Forall (λ l, (length l ≤ 1022)%nat) (lines (inp s fd)).1 →
  ∃ s', grep fuel pattern fd s = Ok tt s' ∧ inp s' fd = [] ∧
    out s' 1 = out s 1 ++ concat ((.++ [NEWLINE]) <$> filter (λ l, match_ pattern l = true) (lines (inp s fd)).1).
Proof.
  intros Hr Hreg Hw Hn Hf Hl.
  destruct (grep_loop_ok fuel pattern fd [] s Hr Hreg Hw) as (s' & E & Ho & Hi); simpl; try done; try lia.
  - constructor.
  - apply not_elem_of_nil.
  - by exists s'.
Qed.

(** Two lines on descriptor 3: abc and xyz. *)
Definition two_lines (ks : list nat) : sim :=
  mksim {[3 := (ks, [97; 98; 99; 10; 120; 121; 122; 10])]} {[1 := []]}.

Lemma grep_correct_witness :
  ∃ s', grep 9 [98] 3 (two_lines []) = Ok tt s' ∧ out s' 1 = [97; 98; 99; 10].
Proof.
  destruct (grep_correct 9 [98] 3 (two_lines [])) as (s' & E & _ & Ho).
  - by eexists.
  - by intros ks bs [= <- _].
  - by eexists.
  - by repeat constructor.
  - by vm_compute; lia.
  - repeat constructor; vm_compute; lia.
  - exists s'. split; [exact E|]. rewrite Ho. reflexivity.
Defined.

(** A read that ends inside a line loses the part of the line read so far. *)
Lemma grep_short_read :
  ∃ s', grep 9 [97; 98; 99] 3 (two_lines [2%nat]) = Ok tt s' ∧ out s' 1 = [] ∧
    match_ [97; 98; 99] [97; 98; 99] = true.
Proof. eexists. split; [by vm_compute|]. done. Qed.
