(* ===== verification/Utils.v ===== *)
(** * The small utilities: cat.c, wc.c, echo.c, grep.c's main, ls.c, kill.c, ln.c, mkdir.c, rm.c

    A program is a [U] computation from its arguments (without the NULs and the
    terminating null pointer of [argv]).  [main] of a file is named after the
    file.  A loop that reads until the end of its input runs on fuel, one unit
    for each read. *)

From S2P Require Import Prelude Params Strings Usys Ulib Printf Grep.

(** The other system calls these programs make. *)
Class PathOps (S : Type) : Type := {
  u_kill : Z → M S Z;
  u_link : list Z → list Z → M S Z;
  u_mkdir : list Z → M S Z;
  u_unlink : list Z → M S Z }.

Section programs.
Context {S : Type} `{!FileOps S}.

Definition uprintf (fd : Z) (fmt : string) (ap : list arg) : U S unit := call (printf fd fmt ap).

(** ** cat *)

Fixpoint cat (fuel : nat) (fd : Z) : U S unit :=
  match fuel with
  | O => uno_fuel
  | Datatypes.S fuel' =>
      '(n, buf) ← call (u_read fd 512);
      if 0 <? n then
        w ← call (u_write 1 buf);
        if negb (w =? n) then uprintf 1 (line "cat: write error") [];; exit 0
        else cat fuel' fd
      else if n <? 0 then uprintf 1 (line "cat: read error") [];; exit 0
      else mret tt
  end.

(** ** wc *)

(** The argument of [strchr] in the loop. *)
Definition wc_seps : list Z := [32; 13; 9; 10; 11].
Definition is_sep (c : Z) : bool :=
  match strchr (wc_seps ++ [0]) c with Some (Some _) => true | _ => false end.

Record wcst : Type := mkwc { wl : Z; ww : Z; wc_c : Z; inword : bool }.

Definition wc_step (st : wcst) (c : Z) : wcst :=
  let l := if c =? 10 then s32 (wl st + 1) else wl st in
  let n := s32 (wc_c st + 1) in
  if is_sep c then mkwc l (ww st) n false
  else if negb (inword st) then mkwc l (s32 (ww st + 1)) n true
  else mkwc l (ww st) n true.

Fixpoint wc_loop (fuel : nat) (fd : Z) (st : wcst) : U S wcst :=
  match fuel with
  | O => uno_fuel
  | Datatypes.S fuel' =>
      '(n, buf) ← call (u_read fd 512);
      if 0 <? n then wc_loop fuel' fd (foldl wc_step st buf)
      else if n <? 0 then uprintf 1 (line "wc: read error") [];; exit 0
      else mret st
  end.

Definition wc (fuel : nat) (fd : Z) (name : list Z) : U S unit :=
  st ← wc_loop fuel fd (mkwc 0 0 0 false);
  uprintf 1 (line "%d %d %d %s") [AInt (wl st); AInt (ww st); AInt (wc_c st); AStr name].

(** ** The mains that run over files *)

(** [for(i = ...; i < argc; i++)] over the names: open, run, close. *)
Fixpoint each_file (msg : string) (body : Z → list Z → U S unit) (names : list (list Z)) : U S unit :=
  match names with
  | [] => exit 0
  | a :: names' =>
      fd ← call (u_open a 0);
      if fd <? 0 then uprintf 1 msg [AStr a];; exit 0
      else body fd a;; call (u_close fd);; each_file msg body names'
  end.

Definition cat_main (fuel : nat) (argv : list (list Z)) : U S unit :=
  match argv with
  | [] | [_] => cat fuel 0;; exit 0
  | _ :: names => each_file (line "cat: cannot open %s") (λ fd _, cat fuel fd) names
  end.

Definition wc_main (fuel : nat) (argv : list (list Z)) : U S unit :=
  match argv with
  | [] | [_] => wc fuel 0 [];; exit 0
  | _ :: names => each_file (line "wc: cannot open %s") (wc fuel) names
  end.

Definition grep_main (fuel : nat) (argv : list (list Z)) : U S unit :=
  match argv with
  | [] | [_] => uprintf 2 (line "usage: grep pattern [file ...]") [];; exit 0
  | [_; pattern] => call (grep fuel pattern 0);; exit 0
  | _ :: pattern :: names => each_file (line "grep: cannot open %s") (λ fd _, call (grep fuel pattern fd)) names
  end.

(** ** echo *)

Fixpoint echo_args (args : list (list Z)) : U S unit :=
  match args with
  | [] => mret tt
  | a :: args' =>
      uprintf 1 "%s%s" [AStr a; AStr (match args' with [] => str nl | _ :: _ => str " " end)];;
      echo_args args'
  end.
Definition echo_main (argv : list (list Z)) : U S unit := echo_args (tail argv);; exit 0.

(** ** kill, ln, mkdir, rm *)

Context `{!PathOps S}.

Fixpoint kill_args (args : list (list Z)) : U S unit :=
  match args with
  | [] => mret tt
  | a :: args' => pid ← ulift (atoi (a ++ [0])); call (u_kill pid);; kill_args args'
  end.
Definition kill_main (argv : list (list Z)) : U S unit :=
  match argv with
  | [] | [_] => uprintf 2 (line "usage: kill pid...") [];; exit 0
  | _ :: args => kill_args args;; exit 0
  end.

Definition ln_main (argv : list (list Z)) : U S unit :=
  match argv with
  | [_; old; new] =>
      r ← call (u_link old new);
      (if r <? 0 then uprintf 2 (line "link %s %s: failed") [AStr old; AStr new] else mret tt);;
      exit 0
  | _ => uprintf 2 (line "Usage: ln old new") [];; exit 0
  end.

(** The loop of mkdir.c and rm.c: stop at the first failure. *)
Fixpoint each_path (f : list Z → M S Z) (msg : string) (args : list (list Z)) : U S unit :=
  match args with
  | [] => mret tt
  | a :: args' =>
      r ← call (f a);
      if r <? 0 then uprintf 2 msg [AStr a] else each_path f msg args'
  end.

Definition mkdir_main (argv : list (list Z)) : U S unit :=
  match argv with
  | [] | [_] => uprintf 2 (line "Usage: mkdir files...") [];; exit 0
  | _ :: args => each_path u_mkdir (line "mkdir: %s failed to create") args;; exit 0
  end.

Definition rm_main (argv : list (list Z)) : U S unit :=
  match argv with
  | [] | [_] => uprintf 2 (line "Usage: rm files...") [];; exit 0
  | _ :: args => each_path u_unlink (line "rm: %s failed to delete") args;; exit 0
  end.
End programs.

(** ** ls *)

(** What follows the last slash of a path. *)
Fixpoint after_slash (path : list Z) (p : list Z) : list Z :=
  match path with
  | [] => p
  | c :: path' => after_slash path' (if c =? 47 then path' else p)
  end.

(** The name, padded with blanks to DIRSIZ in the static buffer, whose last
    byte is never written and stays NUL. *)
Definition fmtname (path : list Z) : list Z :=
  let p := after_slash path path in
  if DIRSIZ <=? Z.of_nat (length p) then p
  else p ++ replicate (Z.to_nat DIRSIZ - length p) 32.

Section ls.
Context {S : Type} `{!FileOps S, !StatOps S}.

Definition ls_line (name : list Z) (st : stat) : M S unit :=
  printf 1 (line "%s %d %d %d") [AStr (fmtname name); AInt (st_type st); AInt (st_ino st); AInt (st_size st)].

(** The loop over the entries of a directory; [p] is [path] and a slash. *)
Fixpoint ls_dir (fuel : nat) (fd : Z) (p : list Z) : M S unit :=
  match fuel with
  | O => no_fuel
  | Datatypes.S fuel' =>
      '(n, de) ← u_read fd DIRENTSZ;
      if negb (n =? DIRENTSZ) then mret tt else
      if get16 de 0 =? 0 then ls_dir fuel' fd p else
      let buf := p ++ cname (Z.to_nat DIRSIZ) (slice 2 (Z.to_nat DIRSIZ) de) in
      '(r, st) ← stat_fn buf;
      (match st with
       | Some st => if r <? 0 then printf 1 (line "ls: cannot stat %s") [AStr buf] else ls_line buf st
       | None => printf 1 (line "ls: cannot stat %s") [AStr buf]
       end);;
      ls_dir fuel' fd p
  end.

Definition ls (fuel : nat) (path : list Z) : M S unit :=
  fd ← u_open path 0;
  if fd <? 0 then printf 2 (line "ls: cannot open %s") [AStr path] else
  '(r, st) ← u_fstat fd;
  if r <? 0 then printf 2 (line "ls: cannot stat %s") [AStr path];; u_close fd;; mret tt else
  (if st_type st =? T_FILE then ls_line path st
   else if st_type st =? T_DIR then
     if 512 <? Z.of_nat (length path) + 1 + DIRSIZ + 1 then printf 1 (line "ls: path too long") []
     else ls_dir fuel fd (path ++ [47])
   else mret tt);;
  u_close fd;; mret tt.

Fixpoint ls_args (fuel : nat) (args : list (list Z)) : M S unit :=
  match args with
  | [] => mret tt
  | a :: args' => ls fuel a;; ls_args fuel args'
  end.

Definition ls_main (fuel : nat) (argv : list (list Z)) : U S unit :=
  match argv with
  | [] | [_] => call (ls fuel (str "."));; exit 0
  | _ :: args => call (ls_args fuel args);; exit 0
  end.
End ls.

(** ** cat copies, however its reads are cut *)

Section cat_ok.
Context {S : Type} `{!FileOps S, !FileSpec S}.

Lemma cat_ok fuel fd (s : S) : can_read s fd → can_write s 1 → (length (inp s fd) < fuel)%nat →
  ∃ s', cat fuel fd s = Ok (Ret tt) s' ∧ inp s' fd = [] ∧ out s' 1 = out s 1 ++ inp s fd.
Proof.
  revert s. induction fuel as [|fuel IH]; intros s Hr Hw Hf; [lia|]. cbn [cat].
  destruct (read_law s fd 512 Hr) as (k & s1 & E & _ & Hk2 & Hk3 & _ & Hi & Hf1); [lia|].
  ucall E. destruct (decide (inp s fd = [])) as [Hn|Hn].
  - rewrite Hn in *. simpl in Hk2. assert (k = 0%nat) as -> by lia. simpl.
    exists s1. split; [done|]. split; [by rewrite Hi|]. by rewrite app_nil_r, (fr_out Hf1).
  - specialize (Hk3 ltac:(lia) Hn). destruct (Z.ltb_spec 0 (Z.of_nat k)); [|lia].
    destruct (write_law s1 1 (take k (inp s fd))) as (s2 & E2 & Ho2 & Hf2); [by apply (fr_wok Hf1)|].
    ucall E2. rewrite length_take, Nat.min_l, Z.eqb_refl by lia. cbn [negb].
    assert (inp s2 fd = drop k (inp s fd)) as Hi2 by (by rewrite (fr_inp Hf2)).
    destruct (IH s2) as (s3 & E3 & Hi3 & Ho3).
    + by apply (fr_rdy Hf2), (fr_rdy Hf1).
    + by apply (fr_wok Hf2), (fr_wok Hf1).
    + rewrite Hi2, length_drop. lia.
    + exists s3. split; [done|]. split; [done|].
      by rewrite Ho3, Ho2, Hi2, (fr_out Hf1), <- app_assoc, take_drop.
Qed.
End cat_ok.

(** ** wc counts, however its reads are cut *)

(** A word starts at a position that holds a non-blank after a blank or at the
    beginning. *)
Definition word_start (l : list Z) (i : nat) : bool :=
  match l !! i with
  | Some c => negb (is_sep c) &&
      match i with O => true | S j => from_option is_sep true (l !! j) end
  | None => false
  end.
Definition words (l : list Z) : Z := Z.of_nat (length (filter (λ i, word_start l i = true) (seq 0 (length l)))).
Definition newlines (l : list Z) : Z := Z.of_nat (length (filter (λ c, c = 10) l)).
(** The text ends inside a word. *)
Definition ends_in_word (l : list Z) : bool := from_option (λ c, negb (is_sep c)) false (last l).

Lemma word_start_app l c i : (i < length l)%nat → word_start (l ++ [c]) i = word_start l i.
Proof.
  intros Hi. unfold word_start. rewrite lookup_app_l by lia. destruct (l !! i); [|done].
  f_equal. destruct i as [|j]; [done|]. by rewrite lookup_app_l by lia.
Qed.

Lemma word_start_last l c :
  word_start (l ++ [c]) (length l) = negb (is_sep c) && negb (ends_in_word l).
Proof.
  unfold word_start, ends_in_word. rewrite lookup_app_r, Nat.sub_diag by lia. simpl. f_equal.
  destruct l as [|x l _] using rev_ind; [done|]. rewrite length_app, last_snoc. simpl.
  rewrite Nat.add_comm. simpl. rewrite <- app_assoc, lookup_app_r, Nat.sub_diag by lia. simpl.
  by rewrite negb_involutive.
Qed.

Lemma words_snoc l c :
  words (l ++ [c]) = words l + (if negb (is_sep c) && negb (ends_in_word l) then 1 else 0).
Proof.
  unfold words. rewrite length_app. change (length [c]) with 1%nat. rewrite seq_app. cbn [seq Nat.add].
  rewrite filter_app, length_app.
  rewrite (filter_iff_in (λ i, word_start (l ++ [c]) i = true) (λ i, word_start l i = true) (seq 0 (length l))).
  - rewrite Nat2Z.inj_add. f_equal. rewrite filter_cons, word_start_last.
    destruct (negb (is_sep c) && negb (ends_in_word l)); by case_decide.
  - intros i Hi%elem_of_seq. by rewrite word_start_app by lia.
Qed.

Lemma words_bound l : 0 ≤ words l ≤ Z.of_nat (length l).
Proof.
  unfold words. pose proof (length_filter (λ i, word_start l i = true) (seq 0 (length l))) as H.
  rewrite length_seq in H. lia.
Qed.

Lemma newlines_bound l : 0 ≤ newlines l ≤ Z.of_nat (length l).
Proof. unfold newlines. pose proof (length_filter (λ c, c = 10) l). lia. Qed.

(** The counters after the bytes [d]. *)
Definition wc_of (d : list Z) : wcst :=
  mkwc (newlines d) (words d) (Z.of_nat (length d)) (ends_in_word d).

Lemma wc_step_snoc d c : Z.of_nat (length d) + 1 < 2147483648 → wc_step (wc_of d) c = wc_of (d ++ [c]).
Proof.
  intros Hd. pose proof (words_bound d). pose proof (newlines_bound d). unfold wc_step, wc_of. simpl.
  rewrite words_snoc. unfold ends_in_word at 3. rewrite last_snoc. simpl.
  replace (Z.of_nat (length (d ++ [c]))) with (Z.of_nat (length d) + 1) by (rewrite length_app; simpl; lia).
  rewrite !s32_small by lia.
  assert (newlines (d ++ [c]) = newlines d + if c =? 10 then 1 else 0) as ->.
  { unfold newlines. rewrite filter_app, length_app, filter_cons, Nat2Z.inj_add. f_equal.
    destruct (Z.eqb_spec c 10) as [->|]; by case_decide. }
  destruct (is_sep c), (ends_in_word d), (c =? 10); simpl; f_equal; lia.
Qed.

Lemma wc_steps d bs : Z.of_nat (length (d ++ bs)) < 2147483648 → foldl wc_step (wc_of d) bs = wc_of (d ++ bs).
Proof.
  revert d. induction bs as [|c bs IH]; intros d Hd; simpl; [by rewrite app_nil_r|].
  rewrite length_app in Hd. simpl in Hd. rewrite wc_step_snoc by lia. rewrite IH.
  - by rewrite <- app_assoc.
  - rewrite !length_app. simpl. lia.
Qed.

Section wc_ok.
Context {S : Type} `{!FileOps S, !FileSpec S}.

Lemma wc_loop_ok fuel fd d (s : S) : can_read s fd → (length (inp s fd) < fuel)%nat →
  Z.of_nat (length (d ++ inp s fd)) < 2147483648 →
  ∃ s', wc_loop fuel fd (wc_of d) s = Ok (Ret (wc_of (d ++ inp s fd))) s' ∧ inp s' fd = [] ∧
    frame (Some fd) None s s'.
Proof.
  revert d s. induction fuel as [|fuel IH]; intros d s Hr Hf Hd; [lia|]. cbn [wc_loop].
  destruct (read_law s fd 512 Hr) as (k & s1 & E & _ & Hk2 & Hk3 & _ & Hi & Hf1); [lia|].
  ucall E. destruct (decide (inp s fd = [])) as [Hn|Hn].
  - rewrite Hn in *. simpl in Hk2. assert (k = 0%nat) as -> by lia. simpl.
    exists s1. rewrite app_nil_r. split; [done|]. split; [by rewrite Hi|done].
  - specialize (Hk3 ltac:(lia) Hn). destruct (Z.ltb_spec 0 (Z.of_nat k)); [|lia].
    rewrite length_app in Hd.
    rewrite wc_steps by (rewrite length_app, length_take; lia).
    destruct (IH (d ++ take k (inp s fd)) s1) as (s2 & E2 & Hi2 & Hf2).
    + by apply (fr_rdy Hf1).
    + rewrite Hi, length_drop. lia.
    + rewrite Hi, <- app_assoc, take_drop, length_app. lia.
    + exists s2. rewrite Hi, <- app_assoc, take_drop in E2. split; [done|]. split; [done|].
      by apply (frame_trans _ _ _ s1).
Qed.
End wc_ok.

(** [wc] reads its input to the end and prints the numbers of newlines, of
    words (maximal runs of characters other than blanks) and of bytes, and the
    name; the result does not depend on how the input was cut into reads. *)
Theorem wc_correct {S} `{!FileOps S, !FileSpec S} fuel fd name (s : S) :
  can_read s fd → can_write s 1 → (length (inp s fd) < fuel)%nat →
  Z.of_nat (length (inp s fd)) < 2147483648 → bytes name →
  ∃ s', wc fuel fd name s = Ok (Ret tt) s' ∧ inp s' fd = [] ∧
    out s' 1 = out s 1 ++ decimal (newlines (inp s fd)) ++ [32] ++ decimal (words (inp s fd)) ++ [32] ++
               decimal (Z.of_nat (length (inp s fd))) ++ [32] ++ name ++ [10].
Proof.
  intros Hr Hw Hf Hl Hb. set (x := inp s fd) in *.
  destruct (wc_loop_ok fuel fd [] s Hr Hf Hl) as (s1 & E1 & Hi1 & Hf1). fold x in E1. simpl app in E1.
  pose proof (words_bound x). pose proof (newlines_bound x).
  destruct (printf_ok 1 (line "%d %d %d %s")
    [AInt (newlines x); AInt (words x); AInt (Z.of_nat (length x)); AStr name]
    (decimal (newlines x) ++ [32] ++ decimal (words x) ++ [32] ++
     decimal (Z.of_nat (length x)) ++ [32] ++ name ++ [10]) s1) as (s2 & E2 & Ho2 & Hf2).
  - change (str (line "%d %d %d %s")) with [37; 100; 32; 37; 100; 32; 37; 100; 32; 37; 115; 10].
    cbn -[decimal s32 u8 app]. rewrite !s32_small, u8_bytes by (done || lia). done.
  - by apply (fr_wok Hf1).
  - exists s2. unfold wc. change (mkwc 0 0 0 false) with (wc_of []). ustep E1. unfold uprintf, wc_of. simpl.
    rewrite (call_ok _ _ _ _ E2). split; [done|]. split; [by rewrite (fr_inp Hf2)|].
    by rewrite Ho2, (fr_out Hf1).
Qed.

Lemma wc_correct_witness :
  ∃ s', wc 9 3 (str "f") (two_lines [2%nat; 3%nat]) = Ok (Ret tt) s' ∧ out s' 1 = str (line "2 2 8 f").
Proof.
  destruct (wc_correct 9 3 (str "f") (two_lines [2%nat; 3%nat])) as (s' & E & _ & Ho).
  - by eexists.
  - by eexists.
  - by vm_compute; lia.
  - by vm_compute.
  - apply Forall_cons. split; [split; by vm_compute|constructor].
  - exists s'. split; [exact E|]. rewrite Ho. reflexivity.
Defined.
