(* ===== verification/Umalloc.v ===== *)
(** * The user allocator: umalloc.c

    The memory of a process is a map from the addresses of its words to their
    values; a word that was never written is 0.  A header is two words, the
    pointer at its address and the size, in units of 8 bytes, four bytes
    later.  [base] is the address of the static header; [avail] says whether
    the kernel has the pages to grow the process from one size to another, and
    [sbrk] is what sys_sbrk and growproc do with the size.  Pointers and sizes
    are 32 bits wide.  The loops go round the circular free list; they run on
    fuel.

    The reference is a sorted list of free blocks and a list of used ones,
    all disjoint ([hinv]).  [malloc] and [free] keep it: a block given out
    has the size that was asked for and overlaps no other, no memory is lost, and
    [malloc] fails only when the kernel refuses to grow the process. *)

From S2P Require Import Prelude Params.

Record heap : Type := mkheap {
  hw : gmap Z Z;
  freep : Z;
  brk : Z }.

Section umalloc.
Context (base : Z) (avail : Z → Z → bool).
Notation M := (M heap).

Definition rd (s : heap) (a : Z) : Z := default 0 (hw s !! a).
Definition set_freep (p : Z) (s : heap) : heap := mkheap (hw s) p (brk s).
Definition set_brk (b : Z) (s : heap) : heap := mkheap (hw s) (freep s) b.
Definition set_hw (a v : Z) (s : heap) : heap := mkheap (<[a := v]> (hw s)) (freep s) (brk s).

(** An access to a word outside the process is a fault. *)
Definition inside (s : heap) (a : Z) : bool := (0 <=? a) && (a + 4 <=? brk s).
Definition ld (a : Z) : M Z := s ← get; if inside s a then mret (rd s a) else undef.
Definition st (a v : Z) : M unit := s ← get; if inside s a then modify (set_hw a v) else undef.

Definition HEADERSZ : Z := 8.
Definition hptr (p : Z) : M Z := ld p.
Definition hsize (p : Z) : M Z := ld (p + 4).
Definition set_ptr (p v : Z) : M unit := st p v.
Definition set_size (p v : Z) : M unit := st (p + 4) v.
(** [p + n] for a header pointer. *)
Definition hadd (p n : Z) : Z := u32 (p + HEADERSZ * n).

Fixpoint free_loop (fuel : nat) (bp p : Z) : M Z :=
  match fuel with
  | O => no_fuel
  | S fuel' =>
      next ← hptr p;
      if (p <? bp) && (bp <? next) then mret p
      else if (next <=? p) && ((p <? bp) || (bp <? next)) then mret p
      else free_loop fuel' bp next
  end.

Definition free (fuel : nat) (ap : Z) : M unit :=
  let bp := u32 (ap - HEADERSZ) in
  fp ← gets freep;
  p ← free_loop fuel bp fp;
  next ← hptr p;
  bsize ← hsize bp;
  (if hadd bp bsize =? next then
     nsize ← hsize next;
     set_size bp (u32 (bsize + nsize));;
     next ← hptr p;
     nnext ← hptr next;
     set_ptr bp nnext
   else set_ptr bp next);;
  psize ← hsize p;
  (if hadd p psize =? bp then
     bsize ← hsize bp;
     set_size p (u32 (psize + bsize));;
     bnext ← hptr bp;
     set_ptr p bnext
   else set_ptr p bp);;
  modify (set_freep p).

(** The size of the process after [sbrk(n)], or [None] if it fails: growproc
    calls allocuvm or deallocuvm, whose results these are. *)
Definition sbrk_size (sz n : Z) : option Z :=
  let newsz := u32 (sz + n) in
  if 0 <? n then
    if KERNBASE <=? newsz then None
    else if newsz <? sz then Some sz
    else if avail sz newsz then Some newsz else None
  else if n <? 0 then
    if sz <=? newsz then Some sz else if newsz =? 0 then None else Some newsz
  else Some sz.

Definition sbrk (n : Z) : M Z :=
  sz ← gets brk;
  match sbrk_size sz n with
  | None => mret 0xffffffff
  | Some sz' => modify (set_brk sz');; mret sz
  end.

Definition morecore (fuel : nat) (nu : Z) : M Z :=
  let nu := if nu <? 4096 then 4096 else nu in
  p ← sbrk (s32 (u32 (nu * HEADERSZ)));
  if p =? 0xffffffff then mret 0 else
  set_size p nu;;
  free fuel (u32 (p + HEADERSZ));;
  gets freep.

Definition units (nbytes : Z) : Z := u32 (nbytes + HEADERSZ - 1) / HEADERSZ + 1.

(** The loop of [malloc]; [ffuel] is for the calls of [free]. *)
Fixpoint malloc_loop (fuel ffuel : nat) (nunits prevp p : Z) : M Z :=
  match fuel with
  | O => no_fuel
  | S fuel' =>
      size ← hsize p;
      if nunits <=? size then
        p ← (if size =? nunits then
               next ← hptr p; set_ptr prevp next;; mret p
             else
               set_size p (u32 (size - nunits));;
               let p := hadd p (u32 (size - nunits)) in
               set_size p nunits;; mret p);
        modify (set_freep prevp);;
        mret (hadd p 1)
      else
        fp ← gets freep;
        if p =? fp then
          q ← morecore ffuel nunits;
          if q =? 0 then mret 0 else
          next ← hptr q; malloc_loop fuel' ffuel nunits q next
        else next ← hptr p; malloc_loop fuel' ffuel nunits p next
  end.

Definition malloc (fuel ffuel : nat) (nbytes : Z) : M Z :=
  let nunits := units nbytes in
  fp ← gets freep;
  prevp ← (if fp =? 0 then
             set_ptr base base;; modify (set_freep base);; set_size base 0;; mret base
           else mret fp);
  p ← hptr prevp;
  malloc_loop fuel ffuel nunits prevp p.
End umalloc.

(** ** The reference *)

(** A block is its address and its size in units. *)
Notation block := (Z * Z)%type.
Definition bend (b : block) : Z := b.1 + 8 * b.2.

(** From [a] the pointers go through the blocks of [l] to [b]. *)
Fixpoint lseg (r : Z → Z) (a : Z) (l : list block) (b : Z) : Prop :=
  match l with
  | [] => a = b
  | x :: l' => a = x.1 ∧ r (x.1 + 4) = x.2 ∧ lseg r (r x.1) l' b
  end.

(** The blocks come in order of their addresses, and no two touch. *)
Fixpoint apart (l : list block) : Prop :=
  match l with
  | [] => True
  | x :: l' => Forall (λ y, bend x < y.1) l' ∧ apart l'
  end.

Definition disj (x y : block) : Prop := bend x ≤ y.1 ∨ bend y ≤ x.1.

Record hinv (base : Z) (s : heap) (F Us : list block) : Prop := {
  hi_freep : freep s ∈ base :: (fst <$> F);
  hi_ring : lseg (rd s) base ((base, 0) :: F) base;
  hi_apart : apart F;
  hi_used : Forall (λ x, rd s (x.1 + 4) = x.2) Us;
  hi_disj : ForallOrdPairs disj Us;
  hi_sep : Forall (λ x, Forall (disj x) F) Us;
  hi_in : Forall (λ x, base + 8 ≤ x.1 ∧ 0 < x.2 ∧ bend x ≤ brk s) (F ++ Us);
  hi_base : 0 < base ∧ base + 8 ≤ brk s ∧ brk s < KERNBASE }.

(** ** Segments of the list *)

Lemma lseg_app r a l1 l2 b : lseg r a (l1 ++ l2) b ↔ ∃ c, lseg r a l1 c ∧ lseg r c l2 b.
Proof.
  revert a. induction l1 as [|x l1 IH]; intros a; simpl.
  - split; [by exists a|]. by intros (c & -> & H).
  - rewrite IH. naive_solver.
Qed.

(** Writes to words outside the headers of [l] do not matter. *)
Lemma lseg_ext (r r' : Z → Z) a l b :
  Forall (λ x, r' x.1 = r x.1 ∧ r' (x.1 + 4) = r (x.1 + 4)) l → lseg r a l b → lseg r' a l b.
Proof.
  intros H. revert a. induction H as [|x l [H1 H2] _ IH]; intros a; simpl; [done|].
  intros (-> & Hs & Hl). rewrite H1, H2. auto.
Qed.

Lemma lseg_snoc r a l x b :
  lseg r a (l ++ [x]) b ↔ lseg r a l x.1 ∧ r (x.1 + 4) = x.2 ∧ r x.1 = b.
Proof. rewrite lseg_app. simpl. naive_solver. Qed.

Lemma apart_app l1 l2 : apart (l1 ++ l2) ↔ apart l1 ∧ apart l2 ∧ Forall (λ x, Forall (λ y, bend x < y.1) l2) l1.
Proof.
  induction l1 as [|x l1 IH]; simpl; [rewrite Forall_nil; tauto|].
  rewrite Forall_app, Forall_cons, IH. tauto.
Qed.

(** The free blocks below and above an address that is in none of them. *)
Lemma split_at F bp bs : apart F → Forall (λ x, 0 < x.2) F → Forall (disj (bp, bs)) F → 0 < bs →
  ∃ F1 F2, F = F1 ++ F2 ∧ Forall (λ x, bend x ≤ bp) F1 ∧ Forall (λ x, bp + 8 * bs ≤ x.1) F2.
Proof.
  intros Ha Hp Hd Hb. induction F as [|x F IH]; [by exists [], []|].
  simpl in Ha. destruct Ha as [Hx Ha]. apply Forall_cons in Hp as [Hp0 Hp], Hd as [Hd0 Hd].
  destruct Hd0 as [H|H]; unfold bend in *; simpl in *.
  - exists [], (x :: F). split; [done|]. split; [done|]. apply Forall_cons. split; [lia|].
    eapply Forall_impl; [exact Hx|]. simpl. intros y. lia.
  - destruct IH as (F1 & F2 & -> & H1 & H2); [done..|]. exists (x :: F1), F2.
    split; [done|]. split; [|done]. apply Forall_cons. done.
Qed.

(** ** Words *)

Section words.
Implicit Types s : heap.

Lemma rd_set s a v b : rd (set_hw a v s) b = if decide (b = a) then v else rd s b.
Proof.
  unfold rd, set_hw. simpl. case_decide as E; [subst; by rewrite lookup_insert_eq|].
  by rewrite lookup_insert_ne.
Qed.

Lemma rd_set_eq s a v : rd (set_hw a v s) a = v.
Proof. rewrite rd_set. by case_decide. Qed.

Lemma rd_set_ne s a v b : b ≠ a → rd (set_hw a v s) b = rd s b.
Proof. intros H. rewrite rd_set. by case_decide. Qed.

Lemma ld_ok s a : 0 ≤ a → a + 4 ≤ brk s → ld a s = Ok (rd s a) s.
Proof.
  intros H1 H2. unfold ld. rewrite bind_ok with (a := s) (s' := s) by done. unfold inside.
  by rewrite (proj2 (Z.leb_le _ _) H1), (proj2 (Z.leb_le _ _) H2).
Qed.

Lemma st_ok s a v : 0 ≤ a → a + 4 ≤ brk s → st a v s = Ok tt (set_hw a v s).
Proof.
  intros H1 H2. unfold st. rewrite bind_ok with (a := s) (s' := s) by done. unfold inside.
  by rewrite (proj2 (Z.leb_le _ _) H1), (proj2 (Z.leb_le _ _) H2).
Qed.

Lemma hadd_ok p n : 0 ≤ p + 8 * n < 4294967296 → hadd p n = p + 8 * n.
Proof. intros H. unfold hadd, HEADERSZ. by rewrite u32_small. Qed.
End words.

(** A header inside the process. *)
Definition hdr_in (s : heap) (p : Z) : Prop := 0 ≤ p ∧ p + 8 ≤ brk s.

Lemma hptr_ok s p : hdr_in s p → hptr p s = Ok (rd s p) s.
Proof. intros [H1 H2]. apply ld_ok; lia. Qed.
Lemma hsize_ok s p : hdr_in s p → hsize p s = Ok (rd s (p + 4)) s.
Proof. intros [H1 H2]. apply ld_ok; lia. Qed.
Lemma set_ptr_ok s p v : hdr_in s p → set_ptr p v s = Ok tt (set_hw p v s).
Proof. intros [H1 H2]. apply st_ok; lia. Qed.
Lemma set_size_ok s p v : hdr_in s p → set_size p v s = Ok tt (set_hw (p + 4) v s).
Proof. intros [H1 H2]. apply st_ok; lia. Qed.

(** ** The loop of free *)

(** Going up to the last block [q] below [bp]. *)
Lemma free_walk_up C q bp a nx fuel s :
  lseg (rd s) a (C ++ [q]) nx → apart (C ++ [q]) →
  Forall (λ x, x.1 < bp ∧ 0 ≤ x.2 ∧ hdr_in s x.1) (C ++ [q]) → (bp < nx ∨ nx ≤ q.1) →
  (length C < fuel)%nat → free_loop fuel bp a s = Ok q.1 s.
Proof.
  revert a fuel. induction C as [|x C IH]; intros a fuel Hl Ha Hx Hn Hf; (destruct fuel as [|fuel]; [simpl in Hf; lia|]);
    simpl in Hl, Ha, Hx; cbn [free_loop]; apply Forall_cons in Hx as [(Hb & H0 & Hi) Hx]; destruct Hl as (-> & _ & Hl).
  - mstep (hptr_ok s q.1 Hi). simpl in Hl. rewrite Hl.
    rewrite (proj2 (Z.ltb_lt _ _) Hb). simpl. destruct (Z.ltb_spec bp nx); [done|].
    by rewrite (proj2 (Z.leb_le _ _)) by lia.
  - mstep (hptr_ok s x.1 Hi). destruct Ha as [Hax Ha].
    destruct (C ++ [q]) as [|y D] eqn:E; [by destruct C|]. simpl in Hl. destruct Hl as (Hy & Hs & Hl).
    apply Forall_cons in Hax as [Hxy _]. pose proof (proj1 (Forall_cons _ _ _) Hx) as [(Hyb & _) _].
    unfold bend in Hxy. rewrite Hy.
    rewrite (proj2 (Z.ltb_ge bp y.1)), andb_false_r by lia.
    rewrite (proj2 (Z.leb_gt y.1 x.1)) by lia. simpl.
    apply IH; [done..|simpl in Hf; lia].
Qed.

(** Going round from a block above [bp]. *)
Lemma free_walk_round D base bp a fuel s :
  lseg (rd s) a D base → apart D → base < bp →
  Forall (λ x, bp < x.1 ∧ 0 ≤ x.2 ∧ hdr_in s x.1) D →
  free_loop (length D + fuel) bp a s = free_loop fuel bp base s.
Proof.
  revert a. induction D as [|x D IH]; intros a Hl Ha Hb Hx; simpl in Hl; [by subst|].
  destruct Hl as (-> & _ & Hl), Ha as [Hax Ha]. apply Forall_cons in Hx as [(H1 & H0 & Hi) Hx].
  cbn [length Nat.add free_loop]. mstep (hptr_ok s x.1 Hi).
  rewrite (proj2 (Z.ltb_ge x.1 bp)) by lia. simpl.
  assert (Hno : (rd s x.1 <=? x.1) && (bp <? rd s x.1) = false).
  { destruct D as [|y D]; simpl in Hl.
    - rewrite Hl. rewrite (proj2 (Z.ltb_ge bp base)) by lia. by rewrite andb_false_r.
    - destruct Hl as (-> & _). apply Forall_cons in Hax as [Hxy _]. unfold bend in Hxy.
      by rewrite (proj2 (Z.leb_gt _ _)) by lia. }
  rewrite Hno. by apply IH.
Qed.

(** ** Accounting *)

(** The units in a list of blocks. *)
Definition total (l : list block) : Z := foldr (λ x n, x.2 + n) 0 l.

Lemma total_app l1 l2 : total (l1 ++ l2) = total l1 + total l2.
Proof. unfold total. induction l1 as [|x l1 IH]; simpl; lia. Qed.

Lemma disj_sym x y : disj x y → disj y x.
Proof. unfold disj. tauto. Qed.

(** The header words of disjoint blocks are different words. *)
Lemma disj_words x y : disj x y → 0 < x.2 → 0 < y.2 →
  x.1 ≠ y.1 ∧ x.1 ≠ y.1 + 4 ∧ x.1 + 4 ≠ y.1 ∧ x.1 + 4 ≠ y.1 + 4.
Proof. unfold disj, bend. lia. Qed.

Lemma FOP_perm (l1 l2 : list block) : l1 ≡ₚ l2 → ForallOrdPairs disj l1 → ForallOrdPairs disj l2.
Proof.
  induction 1 as [|x l1 l2 Hp IH|x y l|l1 l2 l3 _ IH1 _ IH2]; intros H; auto.
  - inversion H; subst. constructor; [by rewrite <- Hp|auto].
  - inversion H as [|? ? Hy H']; subst. inversion H' as [|? ? Hx Hl]; subst.
    apply Forall_cons in Hy as [Hyx Hy]. constructor; [|by constructor].
    apply Forall_cons. split; [by apply disj_sym|done].
Qed.

Lemma hinv_perm base s F Us Us' : Us ≡ₚ Us' → hinv base s F Us → hinv base s F Us'.
Proof.
  intros Hp [H1 H2 H3 H4 H5 H6 H7 H8].
  split; try done; try (by rewrite <- Hp). by apply (FOP_perm Us).
Qed.

(** What [free] finds: the free blocks below and above, and the last below. *)
Record place (base : Z) (s : heap) (bp bs : Z) (F1 F2 : list block) (q : block) : Prop := {
  pl_last : last ((base, 0) :: F1) = Some q;
  pl_seg : lseg (rd s) base ((base, 0) :: F1) (rd s q.1);
  pl_rest : lseg (rd s) (rd s q.1) F2 base;
  pl_low : Forall (λ x, bend x ≤ bp ∧ x.1 < bp ∧ 0 ≤ x.2 ∧ hdr_in s x.1) ((base, 0) :: F1);
  pl_high : Forall (λ x, bp + 8 * bs ≤ x.1 ∧ bp < x.1 ∧ 0 ≤ x.2 ∧ hdr_in s x.1) F2;
  pl_apart1 : apart ((base, 0) :: F1);
  pl_apart2 : apart F2;
  pl_base : base < bp ∧ Forall (λ x, base ≤ x.1) ((base, 0) :: F1);
  pl_words : Forall (λ x, x.1 + 8 ≤ bp) ((base, 0) :: F1) }.

Lemma last_snoc_inv {A} (l : list A) q : last l = Some q → ∃ C, l = C ++ [q].
Proof. intros H. by apply last_Some in H. Qed.

(** A suffix of a list that starts at one of its blocks. *)
Lemma lseg_suffix r a l b x : lseg r a l b → x ∈ l → ∃ E G, l = E ++ x :: G ∧ lseg r x.1 (x :: G) b.
Proof.
  intros Hl Hx. apply list_elem_of_split in Hx as (E & G & ->). apply lseg_app in Hl as (c & _ & Hl).
  exists E, G. split; [done|]. pose proof Hl as Hl'. simpl in Hl'. destruct Hl' as [-> _]. exact Hl.
Qed.

Lemma free_place base s F Us bp bs : hinv base s F ((bp, bs) :: Us) →
  ∃ F1 F2 q, F = F1 ++ F2 ∧ place base s bp bs F1 F2 q.
Proof.
  intros [_ H2 H3 _ _ H6 H7 (Hb0 & Hb1 & Hb2)].
  apply Forall_cons in H6 as [H6 _]. apply Forall_app in H7 as [HF HU].
  apply Forall_cons in HU as [(Hbp & Hbs & _) _]. simpl in Hbp, Hbs.
  destruct (split_at F bp bs) as (F1 & F2 & -> & HL & HH); [done| |done|lia|].
  { eapply Forall_impl; [exact HF|]. simpl. tauto. }
  destruct (last ((base, 0) :: F1)) as [q|] eqn:Eq; [|by apply last_None in Eq].
  apply Forall_app in HF as [HF1 HF2]. apply apart_app in H3 as (Ha1 & Ha2 & _).
  change ((base, 0) :: F1 ++ F2) with (((base, 0) :: F1) ++ F2) in H2.
  apply lseg_app in H2 as (c & Hs1 & Hs2). destruct (last_snoc_inv _ _ Eq) as [C HC].
  assert (rd s q.1 = c) as <- by (rewrite HC, lseg_snoc in Hs1; tauto).
  exists F1, F2, q. split; [done|]. rewrite Forall_forall in HL, HH, HF1, HF2.
  split; try done.
  - apply Forall_cons. split; [unfold bend, hdr_in; simpl; lia|]. apply Forall_forall. intros x Hx.
    specialize (HL x Hx). specialize (HF1 x Hx). unfold bend, hdr_in in *. simpl in *. lia.
  - apply Forall_forall. intros x Hx. specialize (HH x Hx). specialize (HF2 x Hx).
    unfold bend, hdr_in in *. simpl in *. lia.
  - split; [|done]. apply Forall_forall. intros x Hx. specialize (HF1 x Hx). unfold bend in *. simpl in *. lia.
  - split; [lia|]. apply Forall_cons. split; [simpl; lia|]. apply Forall_forall. intros x Hx.
    specialize (HF1 x Hx). simpl in *. lia.
  - apply Forall_cons. split; [simpl; lia|]. apply Forall_forall. intros x Hx.
    specialize (HL x Hx). specialize (HF1 x Hx). unfold bend in *. simpl in *. lia.
Qed.

Lemma free_find base s F1 F2 bp bs q fuel : place base s bp bs F1 F2 q →
  freep s ∈ base :: (fst <$> F1 ++ F2) → (length (F1 ++ F2) + 1 < fuel)%nat →
  free_loop fuel bp (freep s) s = Ok q.1 s.
Proof.
  intros [Hlast Hs1 Hs2 Hlow Hhigh Ha1 Ha2 [Hb Hbs] _] Hfp Hf. rewrite length_app in Hf.
  assert (Hnx : bp < rd s q.1 ∨ rd s q.1 ≤ q.1).
  { destruct F2 as [|y F2]; simpl in Hs2.
    - right. rewrite Hs2. destruct (last_snoc_inv _ _ Hlast) as [C HC]. rewrite HC in Hbs.
      apply Forall_app in Hbs as [_ Hq]. by apply Forall_cons in Hq as [Hq _].
    - left. apply Forall_cons in Hhigh as [Hy _]. destruct Hs2 as [-> _]. lia. }
  assert (Hup : ∀ fl x, (length F1 < fl)%nat → x ∈ (base, 0) :: F1 → free_loop fl bp x.1 s = Ok q.1 s).
  { intros fl x Hfl Hx. destruct (lseg_suffix _ _ _ _ x Hs1 Hx) as (E & G & HEG & Hl).
    assert (Hlen : (length (x :: G) ≤ S (length F1))%nat).
    { apply (f_equal length) in HEG. rewrite length_app in HEG. simpl in *. lia. }
    rewrite HEG in Hlast, Ha1, Hlow. destruct (last_snoc_inv (x :: G) q) as [D HD].
    { rewrite last_app in Hlast. destruct (last (x :: G)) eqn:El; [done|]. by apply last_None in El. }
    rewrite HD in *. apply (free_walk_up D q bp _ (rd s q.1)); try done.
    - by apply apart_app in Ha1 as (_ & Ha1 & _).
    - apply Forall_app in Hlow as [_ Hlow]. eapply Forall_impl; [exact Hlow|]. tauto.
    - rewrite length_app in Hlen. simpl in Hlen. lia. }
  change (base :: (fst <$> F1 ++ F2)) with (fst <$> ((base, 0) :: F1 ++ F2)) in Hfp.
  apply list_elem_of_fmap in Hfp as (x & -> & Hx).
  change ((base, 0) :: F1 ++ F2) with (((base, 0) :: F1) ++ F2) in Hx. apply elem_of_app in Hx as [Hx|Hx].
  - apply Hup; [lia|done].
  - destruct (lseg_suffix _ _ _ _ x Hs2 Hx) as (E & G & HEG & Hl).
    assert (Hlen : (length (x :: G) ≤ length F2)%nat) by (rewrite HEG, length_app; lia).
    replace fuel with (length (x :: G) + (fuel - length (x :: G)))%nat by lia.
    rewrite (free_walk_round (x :: G) base bp); try done.
    + apply (Hup _ (base, 0)); [lia|by left].
    + rewrite HEG in Ha2. by apply apart_app in Ha2 as (_ & Ha2 & _).
    + rewrite HEG in Hhigh. apply Forall_app in Hhigh as [_ Hhigh].
      eapply Forall_impl; [exact Hhigh|]. tauto.
Qed.

(** ** Joining with the neighbours *)

(** [s1] differs from [s] only in words [x] and [x + 4]. *)
Definition only (s s1 : heap) (x : Z) : Prop :=
  brk s1 = brk s ∧ freep s1 = freep s ∧ ∀ a, a ≠ x → a ≠ x + 4 → rd s1 a = rd s a.

Lemma lseg_only s s1 x a l b : only s s1 x → Forall (λ y, y.1 + 8 ≤ x ∨ x + 8 ≤ y.1) l →
  lseg (rd s) a l b → lseg (rd s1) a l b.
Proof.
  intros (_ & _ & Hs) Hl. apply lseg_ext. eapply Forall_impl; [exact Hl|].
  simpl. intros y Hy. rewrite !Hs by lia. done.
Qed.

Lemma free_right base s bp bs F1 F2 q :
  place base s bp bs F1 F2 q → rd s (bp + 4) = bs → 0 < bs →
  0 ≤ bp → bp + 8 * bs ≤ brk s → brk s < KERNBASE → Forall (λ x, 0 < x.2 ∧ bend x ≤ brk s) F2 →
  ∃ s1 bs1 F2',
    (if hadd bp bs =? rd s q.1 then
       nsize ← hsize (rd s q.1);
       set_size bp (u32 (bs + nsize));;
       next ← hptr q.1; nnext ← hptr next; set_ptr bp nnext
     else set_ptr bp (rd s q.1)) s = Ok tt s1 ∧
    only s s1 bp ∧ rd s1 (bp + 4) = bs1 ∧ lseg (rd s1) (rd s1 bp) F2' base ∧
    Forall (λ x, bp + 8 * bs1 < x.1) F2' ∧
    (bs1 = bs ∧ F2' = F2 ∨ ∃ ns, F2 = (bp + 8 * bs, ns) :: F2' ∧ bs1 = bs + ns).
Proof.
  intros [Hlast _ Hrest Hlow Hhigh _ Hap [Hb _] Hwords] Hbs Hbs0 Hbp0 Hend Hbrk HF2.
  assert (KERNBASE = 2147483648) as HK by done. rewrite hadd_ok by lia.
  assert (hdr_in s q.1 ∧ q.1 + 8 ≤ bp) as [Hqi Hq].
  { destruct (last_snoc_inv _ _ Hlast) as [C HC]. rewrite HC in Hlow, Hwords.
    apply Forall_app in Hlow as [_ [Hq _]%Forall_cons], Hwords as [_ [Hq' _]%Forall_cons]. tauto. }
  assert (Hbi : hdr_in s bp) by (unfold hdr_in; simpl; lia).
  destruct (Z.eqb_spec (bp + 8 * bs) (rd s q.1)) as [E|E].
  - destruct F2 as [|[n ns] F2]; simpl in Hrest; [lia|]. destruct Hrest as (Hn & Hns & Hrest).
    apply Forall_cons in Hhigh as [(Hh & _ & _ & Hni) Hhigh], HF2 as [(Hns0 & Hne) HF2].
    destruct Hap as [Hap _]. unfold bend in *. simpl in *. rewrite Hn in *.
    mstep (hsize_ok s n Hni). cbn [fst]. rewrite Hns, u32_small by lia.
    mstep (set_size_ok s bp (bs + ns) Hbi). simpl.
    set (s0 := set_hw (bp + 4) (bs + ns) s).
    assert (Hq0 : hptr q.1 s0 = Ok n s0).
    { rewrite (hptr_ok s0 q.1 Hqi). unfold s0. rewrite rd_set_ne by lia. by rewrite Hn. }
    mstep Hq0. assert (Hn0 : hptr n s0 = Ok (rd s n) s0).
    { rewrite (hptr_ok s0 n Hni). unfold s0. simpl. by rewrite rd_set_ne by lia. }
    mstep Hn0. rewrite (set_ptr_ok s0 bp _ Hbi). simpl.
    eexists _, (bs + ns), F2. split; [done|]. split.
    { split; [done|]. split; [done|]. intros a H1 H2. unfold s0. by rewrite !rd_set_ne by lia. }
    split; [rewrite rd_set_ne by lia; apply rd_set_eq|]. split.
    { rewrite rd_set_eq. apply lseg_ext with (2 := Hrest). apply Forall_forall. intros x Hx.
      rewrite Forall_forall in Hap. specialize (Hap x Hx). unfold s0. simpl in Hap. by rewrite !rd_set_ne by lia. }
    split; [eapply Forall_impl; [exact Hap|]; simpl; intros x; lia|]. right. exists ns. split; [|done]. by rewrite E.
  - rewrite (set_ptr_ok s bp _ Hbi). simpl. eexists _, bs, F2. split; [done|]. split.
    { split; [done|]. split; [done|]. intros a H1 H2. by rewrite rd_set_ne. }
    split; [by rewrite rd_set_ne by lia|]. split.
    { rewrite rd_set_eq. apply lseg_ext with (2 := Hrest). eapply Forall_impl; [exact Hhigh|].
      simpl. intros x Hx. by rewrite !rd_set_ne by lia. }
    split; [|by left]. destruct F2 as [|y F2]; [done|]. simpl in Hrest. destruct Hrest as [Hy _].
    apply Forall_cons in Hhigh as [Hh Hhigh]. destruct Hap as [Hap _]. apply Forall_cons. split; [lia|].
    eapply Forall_impl; [exact Hap|]. unfold bend. simpl. intros x. lia.
Qed.

(** Headers before the last one are other words. *)
Lemma before_last base F1 C q : (base, 0) :: F1 = C ++ [q] → apart F1 →
  Forall (λ x, base + 8 ≤ x.1 ∧ 0 < x.2) F1 → Forall (λ y, y.1 + 8 ≤ q.1) C.
Proof.
  intros HC Ha HF. destruct C as [|z C]; [done|]. simpl in HC. simplify_eq.
  apply apart_app in Ha as (_ & _ & Ha). apply Forall_app in HF as [HF [Hq _]%Forall_cons].
  apply Forall_cons. split; [simpl; lia|]. rewrite Forall_forall in *. intros x Hx.
  specialize (Ha x Hx). specialize (HF x Hx). apply Forall_cons in Ha as [Ha _]. unfold bend in *. simpl in *. lia.
Qed.

Lemma free_left base s bp bs F1 F2 q :
  last ((base, 0) :: F1) = Some q → lseg (rd s) base ((base, 0) :: F1) (rd s q.1) →
  rd s (bp + 4) = bs → lseg (rd s) (rd s bp) F2 base →
  apart F1 → Forall (λ x, base + 8 ≤ x.1 ∧ 0 < x.2) F1 → hdr_in s q.1 → bend q ≤ bp → q.1 + 8 ≤ bp →
  Forall (λ x, bp + 8 * bs < x.1) F2 → 0 < bs → bp + 8 * bs ≤ brk s → brk s < KERNBASE → 0 ≤ q.2 →
  ∃ s' F',
    (psize ← hsize q.1;
     if hadd q.1 psize =? bp then
       bsize ← hsize bp; set_size q.1 (u32 (psize + bsize));; bnext ← hptr bp; set_ptr q.1 bnext
     else set_ptr q.1 bp) s = Ok tt s' ∧
    only s s' q.1 ∧ lseg (rd s') base ((base, 0) :: F') base ∧
    (F' = F1 ++ (bp, bs) :: F2 ∧ bend q < bp ∨
     ∃ F1', F1 = F1' ++ [q] ∧ bend q = bp ∧ F' = F1' ++ (q.1, q.2 + bs) :: F2).
Proof.
  intros Hlast Hseg Hbs Hrest Ha HF1 Hqi Hqe Hqw HF2 Hbs0 Hend Hbrk Hq0.
  assert (KERNBASE = 2147483648) as HK by done. destruct (last_snoc_inv _ _ Hlast) as [C HC].
  pose proof (before_last _ _ _ _ HC Ha HF1) as HCw. rewrite HC in Hseg. apply lseg_snoc in Hseg as (HsC & Hqs & _).
  destruct Hqi as [Hqi1 Hqi2]. assert (Hqi : hdr_in s q.1) by done. assert (Hbi : hdr_in s bp) by (split; lia).
  unfold bend in *. mstep (hsize_ok s q.1 Hqi). rewrite Hqs, hadd_ok by lia.
  destruct (Z.eqb_spec (q.1 + 8 * q.2) bp) as [E|E].
  - mstep (hsize_ok s bp Hbi). rewrite Hbs, u32_small by lia. mstep (set_size_ok s q.1 (q.2 + bs) Hqi).
    set (s0 := set_hw (q.1 + 4) (q.2 + bs) s).
    assert (Hb0 : hptr bp s0 = Ok (rd s bp) s0).
    { rewrite (hptr_ok s0 bp Hbi). unfold s0. by rewrite rd_set_ne by lia. }
    mstep Hb0. rewrite (set_ptr_ok s0 q.1 _ Hqi). destruct C as [|z C].
    { injection HC as <- _. simpl in *. lia. }
    injection HC as <- ->. set (s1 := set_hw q.1 (rd s bp) s0).
    assert (Ho : only s s1 q.1).
    { split; [done|]. split; [done|]. intros a H1 H2. unfold s1, s0. by rewrite !rd_set_ne. }
    exists s1, (C ++ (q.1, q.2 + bs) :: F2). split; [done|]. split; [done|]. split; [|right; by exists C].
    change (lseg (rd s1) base (((base, 0) :: C) ++ (q.1, q.2 + bs) :: F2) base). apply lseg_app. exists q.1. split.
    { apply (lseg_only s _ q.1); [done| |done]. eapply Forall_impl; [exact HCw|]. simpl. intros; lia. }
    simpl. split; [done|]. split; [unfold s1, s0; rewrite rd_set_ne by lia; apply rd_set_eq|].
    assert (rd s1 q.1 = rd s bp) as -> by apply rd_set_eq.
    apply (lseg_only s _ q.1); [done| |done]. eapply Forall_impl; [exact HF2|]. simpl. intros; lia.
  - rewrite (set_ptr_ok s q.1 _ Hqi). set (s1 := set_hw q.1 bp s).
    assert (Ho : only s s1 q.1).
    { split; [done|]. split; [done|]. intros a H1 H2. unfold s1. by rewrite !rd_set_ne. }
    exists s1, (F1 ++ (bp, bs) :: F2). split; [done|]. split; [done|]. split; [|left; split; [done|lia]].
    change (lseg (rd s1) base (((base, 0) :: F1) ++ (bp, bs) :: F2) base). rewrite HC. apply lseg_app.
    exists bp. split.
    { apply lseg_snoc. split; [|split; [unfold s1; by rewrite rd_set_ne by lia|apply rd_set_eq]].
      apply (lseg_only s _ q.1); [done| |done]. eapply Forall_impl; [exact HCw|]. simpl. intros; lia. }
    simpl. split; [done|]. destruct Ho as (_ & _ & Hr). rewrite !Hr by lia. split; [done|].
    apply (lseg_only s _ q.1); [done| |done]. eapply Forall_impl; [exact HF2|]. simpl. intros; lia.
Qed.

(** ** free *)

Lemma disj_join u a n m : 0 < u.2 → disj u (a, n) → disj u (a + 8 * n, m) → disj u (a, n + m).
Proof. unfold disj, bend. simpl. lia. Qed.

(** The block [(bp, bs)] between the free blocks [F1] and [F2], with nothing
    touching it above. *)
Record gap (base : Z) (s : heap) (F1 F2 Us : list block) (bp bs : Z) : Prop := {
  gp_apart : apart (F1 ++ F2);
  gp_in : Forall (λ x, base + 8 ≤ x.1 ∧ 0 < x.2 ∧ bend x ≤ brk s) (F1 ++ (bp, bs) :: F2);
  gp_low : Forall (λ x, bend x ≤ bp) F1;
  gp_high : Forall (λ x, bp + 8 * bs < x.1) F2;
  gp_sep : Forall (λ u, Forall (disj u) (F1 ++ (bp, bs) :: F2)) Us }.

Lemma gap_right base s F1 F2 Us bp bs ns :
  apart (F1 ++ (bp + 8 * bs, ns) :: F2) →
  Forall (λ x, base + 8 ≤ x.1 ∧ 0 < x.2 ∧ bend x ≤ brk s) (F1 ++ (bp, bs) :: (bp + 8 * bs, ns) :: F2) →
  Forall (λ x, bend x ≤ bp) F1 →
  Forall (λ u, Forall (disj u) (F1 ++ (bp, bs) :: (bp + 8 * bs, ns) :: F2)) Us →
  Forall (λ u, 0 < u.2) Us → gap base s F1 F2 Us bp (bs + ns).
Proof.
  intros Ha Hi Hl Hs HU.
  apply apart_app in Ha as (Ha1 & [Hn Ha2] & Ha3). unfold bend in Hn. simpl in Hn.
  apply Forall_app in Hi as [Hi1 [Hb [Hn' Hi2]%Forall_cons]%Forall_cons]. split.
  - apply apart_app. split; [done|]. split; [done|]. eapply Forall_impl; [exact Ha3|].
    intros x Hx. by apply Forall_cons in Hx as [_ Hx].
  - apply Forall_app. split; [done|]. apply Forall_cons. split; [|done]. unfold bend in *. simpl in *. lia.
  - done.
  - eapply Forall_impl; [exact Hn|]. simpl. intros; lia.
  - rewrite Forall_forall in *. intros u Hu. specialize (Hs u Hu). specialize (HU u Hu).
    apply Forall_app in Hs as [Hs1 [Hb' [Hn2 Hs2]%Forall_cons]%Forall_cons].
    apply Forall_app. split; [done|]. apply Forall_cons. split; [|done]. by apply disj_join.
Qed.

(** The free blocks when the block is free too. *)
Record freed (base : Z) (s : heap) (Us F' : list block) (bp bs : Z) : Prop := {
  fd_apart : apart F';
  fd_in : Forall (λ x, base + 8 ≤ x.1 ∧ 0 < x.2 ∧ bend x ≤ brk s) F';
  fd_sep : Forall (λ u, Forall (disj u) F') Us;
  fd_has : ∃ x, x ∈ F' ∧ x.1 ≤ bp ∧ bp + 8 * bs ≤ bend x }.

Lemma gap_alone base s F1 F2 Us bp bs : gap base s F1 F2 Us bp bs → Forall (λ x, bend x < bp) F1 →
  freed base s Us (F1 ++ (bp, bs) :: F2) bp bs.
Proof.
  intros [Ha Hi _ Hh Hs] Hl. apply apart_app in Ha as (Ha1 & Ha2 & Ha3). split; [|done..|].
  - apply apart_app. split; [done|]. split; [by split|].
    rewrite Forall_forall in *. intros x Hx. apply Forall_cons. split; [by apply Hl|by apply Ha3].
  - exists (bp, bs). split; [apply elem_of_app; right; by left|]. unfold bend. simpl. lia.
Qed.

Lemma gap_left base s F1 F2 Us q bp bs : gap base s (F1 ++ [q]) F2 Us bp bs → bend q = bp →
  Forall (λ u, 0 < u.2) Us → 0 < bs → freed base s Us (F1 ++ (q.1, q.2 + bs) :: F2) bp bs.
Proof.
  intros [Ha Hi Hl Hh Hs] Hq HU Hbs. rewrite <- app_assoc in *. cbn [app] in *.
  apply apart_app in Ha as (Ha1 & [Hqa Ha2] & Ha3).
  apply Forall_app in Hi as [Hi1 [Hqi [Hb Hi2]%Forall_cons]%Forall_cons]. unfold bend in *. simpl in *. split.
  - apply apart_app. split; [done|]. split; [split; [|done]|].
    + eapply Forall_impl; [exact Hh|]. unfold bend. simpl. intros; lia.
    + rewrite Forall_forall in *. intros x Hx. specialize (Ha3 x Hx).
      apply Forall_cons in Ha3 as [Ha3 Ha4]. apply Forall_cons. done.
  - apply Forall_app. split; [done|]. apply Forall_cons. split; [|done]. unfold bend in *. simpl. lia.
  - rewrite Forall_forall in *. intros u Hu. specialize (Hs u Hu). specialize (HU u Hu).
    apply Forall_app in Hs as [Hs1 [Hq' [Hb' Hs2]%Forall_cons]%Forall_cons].
    apply Forall_app. split; [done|]. apply Forall_cons. split; [|done]. apply disj_join; [done|by destruct q|].
    by rewrite Hq.
  - exists (q.1, q.2 + bs). split; [apply elem_of_app; right; by left|]. unfold bend. simpl. lia.
Qed.

(** The parts of [hinv] that hold around a used block. *)
Lemma hinv_around base s F1 F2 Us bp bs : hinv base s (F1 ++ F2) ((bp, bs) :: Us) →
  Forall (λ x, base + 8 ≤ x.1 ∧ 0 < x.2 ∧ bend x ≤ brk s) (F1 ++ (bp, bs) :: F2) ∧
  Forall (λ u, Forall (disj u) (F1 ++ (bp, bs) :: F2)) Us ∧ Forall (λ u, 0 < u.2) Us.
Proof.
  intros [_ _ _ _ H5 H6 H7 _]. apply Forall_app in H7 as [HF HU]. apply Forall_cons in HU as [Hb HU].
  apply Forall_app in HF as [HF1 HF2]. apply Forall_cons in H6 as [_ H6]. inversion H5 as [|? ? Hd _]; subst.
  split; [apply Forall_app; split; [done|]; by apply Forall_cons|].
  rewrite !Forall_forall in *. split; intros u Hu; [|by apply HU].
  specialize (H6 u Hu). apply Forall_app in H6 as [H61 H62]. apply Forall_app. split; [done|].
  apply Forall_cons. split; [|done]. by apply disj_sym, Hd.
Qed.

Lemma place_last base s bp bs F1 F2 q : place base s bp bs F1 F2 q →
  hdr_in s q.1 ∧ bend q ≤ bp ∧ q.1 + 8 ≤ bp ∧ 0 ≤ q.2 ∧ q ∈ (base, 0) :: F1.
Proof.
  intros [Hlast _ _ Hlow _ _ _ _ Hw]. destruct (last_snoc_inv _ _ Hlast) as [C HC]. rewrite HC in *.
  apply Forall_app in Hlow as [_ [Hq _]%Forall_cons], Hw as [_ [Hq' _]%Forall_cons].
  split; [tauto|]. split; [tauto|]. split; [done|]. split; [tauto|]. apply elem_of_app. right. by left.
Qed.

(** A used block keeps its size when the headers of a block beside it change. *)
Lemma used_only s s1 x u : only s s1 x.1 → 0 < u.2 → (0 < x.2 ∧ disj u x ∨ x.1 + 8 ≤ u.1) →
  rd s1 (u.1 + 4) = rd s (u.1 + 4).
Proof. intros (_ & _ & Hs) Hu Hd. apply Hs; unfold disj, bend in *; lia. Qed.

Lemma free_gap base s F1 F2 F2' Us bp bs bs1 q :
  hinv base s (F1 ++ F2) ((bp, bs) :: Us) → place base s bp bs F1 F2 q →
  Forall (λ x, bp + 8 * bs1 < x.1) F2' →
  (bs1 = bs ∧ F2' = F2 ∨ ∃ ns, F2 = (bp + 8 * bs, ns) :: F2' ∧ bs1 = bs + ns) →
  gap base s F1 F2' Us bp bs1 ∧ 0 < bs1 ∧ bs ≤ bs1 ∧ bp + 8 * bs1 ≤ brk s ∧
  (bs1 + total F2' = bs + total F2 ∧ (length F2' ≤ length F2)%nat).
Proof.
  intros Hinv Hpl Hh Hcase. destruct (hinv_around _ _ _ _ _ _ _ Hinv) as (Hin & Hsep & HU).
  assert (Hlow : Forall (λ x, bend x ≤ bp) F1).
  { pose proof (pl_low _ _ _ _ _ _ _ Hpl) as H. apply Forall_cons in H as [_ H].
    eapply Forall_impl; [exact H|]. tauto. }
  pose proof (hi_apart _ _ _ _ Hinv) as Ha.
  apply Forall_app in Hin as Hin'. destruct Hin' as [_ [Hb Hin2]%Forall_cons].
  destruct Hcase as [[-> ->]|(ns & -> & ->)].
  - split; [by split|]. unfold bend in *. simpl in *. lia.
  - split; [by apply gap_right|]. apply Forall_cons in Hin2 as [Hn _]. unfold bend, total in *. simpl in *. lia.
Qed.

(** The run of [free]: only the headers of the block and of [q] change. *)
Lemma free_run base s F1 F2 Us bp bs q fuel :
  hinv base s (F1 ++ F2) ((bp, bs) :: Us) → place base s bp bs F1 F2 q → (length (F1 ++ F2) + 1 < fuel)%nat →
  ∃ s1 s2 F' F2' bs1, free fuel (bp + 8) s = Ok tt (set_freep q.1 s2) ∧
    only s s1 bp ∧ only s1 s2 q.1 ∧ lseg (rd s2) base ((base, 0) :: F') base ∧
    gap base s F1 F2' Us bp bs1 ∧ 0 < bs1 ∧ bs ≤ bs1 ∧
    (bs1 + total F2' = bs + total F2 ∧ (length F2' ≤ length F2)%nat) ∧
    (F' = F1 ++ (bp, bs1) :: F2' ∧ bend q < bp ∨
     ∃ F1', F1 = F1' ++ [q] ∧ bend q = bp ∧ F' = F1' ++ (q.1, q.2 + bs1) :: F2').
Proof.
  intros Hinv Hpl Hf. destruct (hinv_around _ _ _ _ _ _ _ Hinv) as (Hin & _ & _).
  pose proof (free_find _ _ _ _ _ _ _ fuel Hpl (hi_freep _ _ _ _ Hinv) Hf) as Hfind.
  destruct (place_last _ _ _ _ _ _ _ Hpl) as (Hqi & Hqe & Hqw & Hq0 & _).
  pose proof Hinv as [_ _ Hap Hused _ _ _ (Hb0 & _ & Hb2)].
  apply Forall_cons in Hused as [Hbs _]. simpl in Hbs. assert (KERNBASE = 2147483648) as HK by done.
  apply Forall_app in Hin as [Hin1 [(Hbp & Hbs0 & Hend) Hin2]%Forall_cons]. unfold bend in Hend. simpl in Hbp, Hbs0, Hend.
  destruct (free_right base s bp bs F1 F2 q Hpl Hbs) as (s1 & bs1 & F2' & E1 & Ho1 & Hs1 & Hr1 & Hh1 & Hcase);
    [lia..|eapply Forall_impl; [exact Hin2|]; simpl; tauto|].
  destruct (free_gap _ _ _ _ _ _ _ _ _ _ Hinv Hpl Hh1 Hcase) as (Hgap & Hbs1 & Hle & Hend1 & Htot).
  destruct (Ho1) as (Hbrk1 & Hfp1 & Hrd1).
  destruct (free_left base s1 bp bs1 F1 F2' q) as (s2 & F' & E2 & Ho2 & Hring & Hcase2); try done; try lia.
  { apply (pl_last _ _ _ _ _ _ _ Hpl). }
  { rewrite Hrd1 by lia. apply (lseg_only s _ bp); [done| |apply (pl_seg _ _ _ _ _ _ _ Hpl)].
    eapply Forall_impl; [apply (pl_words _ _ _ _ _ _ _ Hpl)|]. simpl. intros; lia. }
  { by apply apart_app in Hap as (Hap & _). }
  { eapply Forall_impl; [exact Hin1|]. simpl. tauto. }
  { unfold hdr_in in *. by rewrite Hbrk1. }
  exists s1, s2, F', F2', bs1. split; [|done].
  unfold free. replace (u32 (bp + 8 - HEADERSZ)) with bp by (unfold HEADERSZ; rewrite u32_small; lia).
  rewrite bind_gets. mstep Hfind. mstep (hptr_ok s q.1 Hqi). mstep (hsize_ok s bp ltac:(split; lia)).
  rewrite Hbs. mstep E1. rewrite <- bind_assoc. mstep E2. done.
Qed.

Lemma low_strict (base : Z) F1 q bp : last ((base, 0) :: F1) = Some q → apart F1 → 0 ≤ q.2 → bend q < bp →
  Forall (λ x, bend x < bp) F1.
Proof.
  intros Hlast Ha Hq Hb. destruct (last_snoc_inv _ _ Hlast) as [C HC].
  destruct C as [|z C]; injection HC as _ ->; [done|]. apply apart_app in Ha as (_ & _ & Ha).
  apply Forall_app. split; [|by apply Forall_cons]. eapply Forall_impl; [exact Ha|].
  intros x Hx. apply Forall_cons in Hx as [Hx _]. unfold bend in *. lia.
Qed.

Lemma free_ok base s F Us bp bs fuel : hinv base s F ((bp, bs) :: Us) → (length F + 1 < fuel)%nat →
  ∃ s' F', free fuel (bp + 8) s = Ok tt s' ∧ hinv base s' F' Us ∧ brk s' = brk s ∧
    (total F' = total F + bs ∧ (length F' ≤ length F + 1)%nat) ∧
    ∃ x, x ∈ F' ∧ x.1 ≤ bp ∧ bp + 8 * bs ≤ bend x.
Proof.
  intros Hinv Hf. destruct (free_place _ _ _ _ _ _ Hinv) as (F1 & F2 & q & -> & Hpl).
  destruct (place_last _ _ _ _ _ _ _ Hpl) as (Hqi & Hqe & Hqw & Hq0 & Hqm).
  destruct (hinv_around _ _ _ _ _ _ _ Hinv) as (Hin & Hsep & HU).
  destruct (free_run _ _ _ _ _ _ _ _ fuel Hinv Hpl Hf) as
    (s1 & s2 & F' & F2' & bs1 & E & Ho1 & Ho2 & Hring & Hgap & Hbs1 & Hle & Htot & Hcase).
  pose proof Hinv as [_ _ Hap Hused Hd _ Hall Hbase]. apply Forall_cons in Hused as [_ Hused].
  inversion Hd as [|? ? _ Hd']; subst. apply Forall_app in Hall as [HallF HallU]. apply Forall_cons in HallU as [Hb HallU].
  assert (Hfreed : freed base s Us F' bp bs1).
  { destruct Hcase as [[-> Hlt]|(F1' & -> & Heq & ->)]; [|by apply gap_left]. apply gap_alone; [done|].
    apply (low_strict base F1 q); try done; [apply (pl_last _ _ _ _ _ _ _ Hpl)|by apply apart_app in Hap as [Hap _]]. }
  destruct Hfreed as [Ha Hi Hs (x & Hx & Hx1 & Hx2)]. pose proof Ho1 as (Hb1 & _). pose proof Ho2 as (Hb2 & _).
  assert (Hq' : 0 < q.2 ∨ q = (base, 0)).
  { apply elem_of_cons in Hqm as [->|Hqm]; [by right|]. left. apply Forall_app in HallF as [HallF _].
    rewrite Forall_forall in HallF. specialize (HallF q Hqm). simpl in HallF. tauto. }
  exists (set_freep q.1 s2), F'. split; [done|]. split; [|split; [simpl; congruence|split; [|exists x; split; [done|lia]]]].
  - split; simpl; try done; try (by rewrite Hb2, Hb1).
    + destruct Hcase as [[-> _]|(F1' & _ & _ & ->)].
      * apply elem_of_cons in Hqm as [->|Hqm]; [by left|]. right. apply (list_elem_of_fmap_2 fst), elem_of_app. by left.
      * right. rewrite fmap_app. apply elem_of_app. right. by left.
    + rewrite Forall_forall in *. intros u Hu. specialize (HU u Hu). specialize (Hsep u Hu). rewrite Forall_forall in Hsep.
      assert (rd s2 (u.1 + 4) = rd s1 (u.1 + 4)) as Hu2.
      { apply (used_only s1 s2 q u Ho2 HU). destruct Hq' as [Hq'| ->].
        - left. split; [done|]. apply elem_of_cons in Hqm as [->|Hqm]; [simpl in Hq'; lia|].
          apply Hsep, elem_of_app. by left.
        - right. specialize (HallU u Hu). simpl in *. tauto. }
      change (rd s2 (u.1 + 4) = u.2). rewrite Hu2, (used_only s s1 (bp, bs) u Ho1 HU); [by apply Hused|].
      left. split; [simpl in Hb; tauto|]. apply Hsep, elem_of_app. right. by left.
    + rewrite Hb2, Hb1. apply Forall_app. done.
  - destruct Hcase as [[-> _]|(F1' & -> & _ & ->)]; rewrite !total_app, !length_app in *; unfold total in *; simpl; lia.
Qed.

(** ** The ring of free blocks *)

Lemma lseg_next r a E y G b : lseg r a (E ++ y :: G) b → r y.1 = from_option fst b (head G).
Proof.
  intros H. apply lseg_app in H as (c & _ & H). simpl in H. destruct H as (_ & _ & H).
  destruct G as [|z G]; simpl in *; tauto.
Qed.

Lemma lseg_rotate r a A B : B ≠ [] → lseg r a (A ++ B) a →
  lseg r (from_option fst a (head B)) (B ++ A) (from_option fst a (head B)).
Proof.
  intros HB H. apply lseg_app in H as (c & HA & HBl).
  assert (c = from_option fst a (head B)) as <-.
  { destruct B as [|z B]; [done|]. by destruct HBl as (-> & _). }
  apply lseg_app. by exists a.
Qed.

(** The headers of the ring: different addresses, all inside the process. *)
Record ring_ok (base : Z) (s : heap) (L : list block) : Prop := {
  rk_seg : lseg (rd s) base L base;
  rk_nodup : NoDup (fst <$> L);
  rk_in : Forall (λ x, hdr_in s x.1) L;
  rk_head : head L = Some (base, 0);
  rk_pos : Forall (λ x, 0 < x.1) L }.

Lemma apart_nodup (F : list block) : apart F → Forall (λ x, 0 < x.2) F → NoDup (fst <$> F).
Proof.
  induction F as [|x F IH]; simpl; intros Ha Hp; [constructor|]. destruct Ha as [Hx Ha].
  apply Forall_cons in Hp as [Hx0 Hp]. constructor; [|by apply IH]. intros Hin.
  apply list_elem_of_fmap in Hin as (y & Hy & Hin). rewrite Forall_forall in Hx. specialize (Hx y Hin).
  unfold bend in Hx. lia.
Qed.

Lemma hinv_ring base s F Us : hinv base s F Us → ring_ok base s ((base, 0) :: F).
Proof.
  intros [_ H2 H3 _ _ _ H7 (Hb0 & Hb1 & Hb2)]. apply Forall_app in H7 as [HF _].
  assert (Hp : Forall (λ x, 0 < x.2) F) by (eapply Forall_impl; [exact HF|]; simpl; tauto).
  split; try done.
  - simpl. constructor; [|by apply apart_nodup]. intros Hin. apply list_elem_of_fmap in Hin as (y & Hy & Hin).
    rewrite Forall_forall in HF. specialize (HF y Hin). simpl in *. lia.
  - apply Forall_cons. split; [unfold hdr_in; simpl; lia|]. eapply Forall_impl; [exact HF|].
    unfold hdr_in, bend. simpl. intros x. lia.
  - apply Forall_cons. split; [done|]. eapply Forall_impl; [exact HF|]. simpl. intros x. lia.
Qed.

(** The block before [x] in the ring is the one that points to it. *)
Lemma ring_pred base s F x y : ring_ok base s ((base, 0) :: F) → x ∈ F → y ∈ (base, 0) :: F → rd s y.1 = x.1 →
  ∃ G1 G2 E, F = G1 ++ x :: G2 ∧ (base, 0) :: G1 = E ++ [y].
Proof.
  intros [Hl Hnd _ _ _] Hx Hy Hr. apply list_elem_of_split in Hy as (E & G & HEG).
  rewrite HEG in Hl. apply lseg_next in Hl as Hn. rewrite Hr in Hn.
  destruct G as [|z G]; simpl in Hn.
  - simpl in Hnd. apply NoDup_cons in Hnd as [Hb _]. exfalso. apply Hb. rewrite <- Hn.
    by apply list_elem_of_fmap_2.
  - assert (z = x) as ->.
    { assert (Hz : z ∈ (base, 0) :: F) by (rewrite HEG; apply elem_of_app; right; right; by left).
      assert (Hx' : x ∈ (base, 0) :: F) by (by right).
      apply list_elem_of_lookup in Hz as [i Hi], Hx' as [j Hj].
      assert (i = j) as <-; [|congruence]. eapply (NoDup_lookup _ i j x.1 Hnd);
        rewrite list_lookup_fmap; [rewrite Hi|rewrite Hj]; simpl; congruence. }
    destruct E as [|e E]; simpl in HEG; injection HEG as ? ?; subst.
    + exists [], G, []. done.
    + exists (E ++ [y]), G, ((base, 0) :: E). split; [by rewrite <- app_assoc|done].
Qed.

(** ** Taking a block out *)

Lemma apart_disj G1 x G2 : apart (G1 ++ x :: G2) → Forall (disj x) (G1 ++ G2).
Proof.
  intros Ha. apply apart_app in Ha as (_ & [Hx _] & H1). apply Forall_app. split.
  - eapply Forall_impl; [exact H1|]. intros z Hz. apply Forall_cons in Hz as [Hz _]. right. lia.
  - eapply Forall_impl; [exact Hx|]. intros z Hz. left. simpl in Hz. lia.
Qed.

Lemma fop_cons x (l : list block) : ForallOrdPairs disj l → Forall (disj x) l → ForallOrdPairs disj (x :: l).
Proof. intros. by constructor. Qed.

(** Where the headers are that stay in the ring when [x] changes. *)
Lemma ring_words base F G1 x G2 E y Us s : hinv base s F Us → F = G1 ++ x :: G2 → (base, 0) :: G1 = E ++ [y] →
  Forall (λ z, z.1 + 8 ≤ y.1) E ∧ y.1 + 8 ≤ x.1 ∧ hdr_in s y.1 ∧ Forall (λ z, bend x < z.1) G2 ∧
  base + 8 ≤ x.1 ∧ 0 < x.2 ∧ bend x ≤ brk s ∧ Forall (λ u, disj x u ∧ 0 < u.2 ∧ (y.1 + 8 ≤ u.1 ∨ bend u ≤ y.1)) Us.
Proof.
  intros Hinv -> HE. pose proof (hinv_ring _ _ _ _ Hinv) as [_ _ Hri _ _].
  destruct Hinv as [_ _ H3 _ _ H6 H7 (Hb0 & Hb1 & Hb2)].
  apply Forall_app in H7 as [HF HU]. apply Forall_app in HF as [HF1 [Hx HF2]%Forall_cons].
  apply apart_app in H3 as (Ha1 & [Hax Ha2] & Ha3).
  assert (HF1' : Forall (λ z, base + 8 ≤ z.1 ∧ 0 < z.2) G1) by (eapply Forall_impl; [exact HF1|]; simpl; tauto).
  pose proof (before_last _ _ _ _ HE Ha1 HF1') as HEw.
  assert (Hy : y = (base, 0) ∨ y ∈ G1).
  { assert (y ∈ (base, 0) :: G1) as Hy by (rewrite HE; apply elem_of_app; right; by left).
    by apply elem_of_cons in Hy. }
  assert (Hyi : hdr_in s y.1).
  { rewrite Forall_forall in Hri. apply Hri. destruct Hy as [->|Hy]; [by left|]. right. apply elem_of_app. by left. }
  assert (Hyx : y.1 + 8 ≤ x.1).
  { destruct Hy as [->|Hy]; [simpl; lia|]. rewrite Forall_forall in *. specialize (Ha3 y Hy). specialize (HF1' y Hy).
    apply Forall_cons in Ha3 as [Ha3 _]. unfold bend in *. simpl in *. lia. }
  split; [done|]. split; [done|]. split; [done|]. split; [done|]. split; [tauto|]. split; [tauto|]. split; [tauto|].
  rewrite Forall_forall in *. intros u Hu. specialize (H6 u Hu). specialize (HU u Hu). rewrite Forall_forall in H6.
  split; [apply disj_sym, H6, elem_of_app; right; by left|]. split; [tauto|]. destruct Hy as [->|Hy]; [left; simpl; tauto|].
  destruct (H6 y) as [H|H]; [apply elem_of_app; by left|by right|]. specialize (HF1' y Hy).
  left. unfold bend in *. simpl in *. lia.
Qed.

Lemma take_exact base s G1 x G2 E y Us : hinv base s (G1 ++ x :: G2) Us → (base, 0) :: G1 = E ++ [y] →
  hinv base (set_freep y.1 (set_hw y.1 (rd s x.1) s)) (G1 ++ G2) (x :: Us).
Proof.
  intros Hinv HE. destruct (ring_words _ _ _ _ _ _ _ _ _ Hinv eq_refl HE) as (HEw & Hyx & Hyi & Hx2 & Hx8 & Hx0 & Hxe & HUs).
  pose proof Hinv as [_ H2 H3 H4 H5 H6 H7 Hb]. apply Forall_app in H7 as [HF HU]. apply Forall_app in HF as [HF1 [Hx HF2]%Forall_cons].
  pose proof (apart_disj _ _ _ H3) as Hdx. apply apart_app in H3 as (Ha1 & [Hax Ha2] & Ha3).
  set (s1 := set_hw y.1 (rd s x.1) s). assert (Hr : ∀ a, a ≠ y.1 → rd s1 a = rd s a) by (intros; by apply rd_set_ne).
  change ((base, 0) :: G1 ++ x :: G2) with (((base, 0) :: G1) ++ x :: G2) in H2. rewrite HE in H2.
  apply lseg_app in H2 as (c & Hs1 & Hs2). apply lseg_snoc in Hs1 as (HsE & Hys & _). simpl in Hs2. destruct Hs2 as (_ & Hxs & Hs2).
  split; try done; simpl.
  - change (base :: (fst <$> G1 ++ G2)) with (fst <$> (((base, 0) :: G1) ++ G2)). rewrite HE.
    apply list_elem_of_fmap_2. apply elem_of_app. left. apply elem_of_app. right. by left.
  - change (lseg (rd s1) base (((base, 0) :: G1) ++ G2) base). rewrite HE. apply lseg_app. exists (rd s x.1). split.
    + apply lseg_snoc. split; [|split; [by rewrite Hr by lia|apply rd_set_eq]].
      apply lseg_ext with (2 := HsE). eapply Forall_impl; [exact HEw|]. simpl. intros z Hz. by rewrite !Hr by lia.
    + apply lseg_ext with (2 := Hs2). eapply Forall_impl; [exact Hx2|]. unfold bend. simpl. intros z Hz. by rewrite !Hr by lia.
  - apply apart_app. split; [done|]. split; [done|]. eapply Forall_impl; [exact Ha3|]. intros z Hz. by apply Forall_cons in Hz as [_ Hz].
  - apply Forall_cons. split; [change (rd s1 (x.1 + 4) = x.2); by rewrite Hr by lia|]. rewrite Forall_forall in *. intros u Hu.
    change (rd s1 (u.1 + 4) = u.2). specialize (HUs u Hu). rewrite Hr; [by apply H4|]. unfold bend in *. lia.
  - apply fop_cons; [done|]. eapply Forall_impl; [exact HUs|]. simpl. tauto.
  - apply Forall_cons. split; [done|]. eapply Forall_impl; [exact H6|]. simpl. intros u Hu.
    apply Forall_app in Hu as [Hu1 [_ Hu2]%Forall_cons]. by apply Forall_app.
  - rewrite <- app_assoc. apply Forall_app. split; [done|]. apply Forall_app. split; [done|]. by apply Forall_cons.
Qed.

Lemma take_split base s G1 x G2 E y Us n k : hinv base s (G1 ++ x :: G2) Us → (base, 0) :: G1 = E ++ [y] →
  0 < n → 0 < k → k + n = x.2 →
  hinv base (set_freep y.1 (set_hw (x.1 + 8 * k + 4) n (set_hw (x.1 + 4) k s)))
    (G1 ++ (x.1, k) :: G2) ((x.1 + 8 * k, n) :: Us).
Proof.
  intros Hinv HE Hn Hk Hkn.
  destruct (ring_words _ _ _ _ _ _ _ _ _ Hinv eq_refl HE) as (HEw & Hyx & Hyi & Hx2 & Hx8 & Hx0 & Hxe & HUs).
  pose proof Hinv as [_ H2 H3 H4 H5 H6 H7 Hb]. apply Forall_app in H7 as [HF HU]. apply Forall_app in HF as [HF1 [Hx HF2]%Forall_cons].
  apply apart_app in H3 as (Ha1 & [Hax Ha2] & Ha3).
  set (s1 := set_hw (x.1 + 8 * k + 4) n (set_hw (x.1 + 4) k s)).
  assert (Hr : ∀ a, a ≠ x.1 + 8 * k + 4 → a ≠ x.1 + 4 → rd s1 a = rd s a) by (intros; unfold s1; by rewrite !rd_set_ne).
  change ((base, 0) :: G1 ++ x :: G2) with (((base, 0) :: G1) ++ x :: G2) in H2.
  apply lseg_app in H2 as (c & Hs1 & Hs2). simpl in Hs2. destruct Hs2 as (-> & Hxs & Hs2). unfold bend in *. rewrite HE in Hs1.
  split; try done; simpl.
  - change (base :: (fst <$> G1 ++ (x.1, k) :: G2)) with (fst <$> (((base, 0) :: G1) ++ (x.1, k) :: G2)). rewrite HE.
    apply list_elem_of_fmap_2. apply elem_of_app. left. apply elem_of_app. right. by left.
  - change (lseg (rd s1) base (((base, 0) :: G1) ++ (x.1, k) :: G2) base). rewrite HE. apply lseg_app. exists x.1. split.
    + apply lseg_ext with (2 := Hs1). apply Forall_app. split; [|apply Forall_cons; split; [by rewrite !Hr by lia|done]].
      eapply Forall_impl; [exact HEw|]. simpl. intros z Hz. by rewrite !Hr by lia.
    + simpl. split; [done|]. split; [unfold s1; rewrite rd_set_ne by lia; apply rd_set_eq|]. rewrite Hr by lia.
      apply lseg_ext with (2 := Hs2). eapply Forall_impl; [exact Hx2|]. simpl. intros z Hz. by rewrite !Hr by lia.
  - apply apart_app. split; [done|]. split; [split; [|done]|].
    + eapply Forall_impl; [exact Hax|]. unfold bend. simpl. intros z Hz. lia.
    + eapply Forall_impl; [exact Ha3|]. simpl. intros z Hz. apply Forall_cons in Hz as [Hz1 Hz]. by apply Forall_cons.
  - apply Forall_cons. split; [apply rd_set_eq|]. rewrite Forall_forall in *. intros u Hu.
    change (rd s1 (u.1 + 4) = u.2). specialize (HUs u Hu). destruct HUs as (Hd & Hu0 & _).
    rewrite Hr; [by apply H4|unfold disj, bend in Hd; lia..].
  - apply fop_cons; [done|]. eapply Forall_impl; [exact HUs|]. unfold disj, bend. simpl. intros u (Hd & Hu & _). lia.
  - apply Forall_cons. split.
    + apply Forall_app. split; [|apply Forall_cons; split].
      * eapply Forall_impl; [exact Ha3|]. intros z Hz. apply Forall_cons in Hz as [Hz _]. unfold disj, bend in *. simpl. lia.
      * unfold disj, bend. simpl. lia.
      * eapply Forall_impl; [exact Hax|]. unfold disj, bend. simpl. intros z Hz. lia.
    + eapply Forall_impl; [exact H6|]. simpl. intros u Hu. apply Forall_app in Hu as [Hu1 [Hux Hu2]%Forall_cons].
      apply Forall_app. split; [done|]. apply Forall_cons. split; [|done]. unfold disj, bend in *. simpl in *. lia.
  - rewrite <- app_assoc. apply Forall_app. split; [done|]. simpl. apply Forall_cons. split; [unfold bend; simpl; lia|].
    apply Forall_app. split; [done|]. apply Forall_cons. split; [unfold bend; simpl; lia|done].
Qed.

(** ** The loop of malloc *)

Section malloc.
Context (base : Z) (avail : Z → Z → bool).

Lemma malloc_scan R1 fuel ffuel n pv p e s : lseg (rd s) p R1 e →
  Forall (λ x, x.2 < n ∧ hdr_in s x.1 ∧ x.1 ≠ freep s) R1 →
  malloc_loop avail (length R1 + fuel) ffuel n pv p s =
  malloc_loop avail fuel ffuel n (from_option fst pv (last R1)) e s.
Proof.
  revert pv p. induction R1 as [|x R1 IH]; intros pv p Hl Hx; [by simpl in Hl; subst|].
  apply Forall_cons in Hx as [(Hn & Hi & Hf) Hx]. destruct Hl as (-> & Hs & Hl).
  cbn [length Nat.add malloc_loop]. mstep (hsize_ok s x.1 Hi). rewrite Hs.
  rewrite (proj2 (Z.leb_gt _ _)) by lia. rewrite bind_gets.
  rewrite (proj2 (Z.eqb_neq _ _) Hf). mstep (hptr_ok s x.1 Hi). rewrite (IH _ _ Hl Hx).
  f_equal. rewrite last_cons. by destruct (last R1).
Qed.

(** The block taken, and what it leaves. *)
Definition given (s s' : heap) (F Us : list block) (n : Z) (r : Z) : Prop :=
  ∃ F' p, r = p + 8 ∧ hinv base s' F' ((p, n) :: Us) ∧ brk s' = brk s ∧ total F' + n = total F ∧
    (length F' ≤ length F)%nat.

Lemma malloc_hit s F Us x y n fuel ffuel : hinv base s F Us → x ∈ F → y ∈ (base, 0) :: F →
  rd s y.1 = x.1 → 0 < n ≤ x.2 →
  ∃ r s', malloc_loop avail (S fuel) ffuel n y.1 x.1 s = Ok r s' ∧ given s s' F Us n r.
Proof.
  intros Hinv Hx Hy Hr Hn. pose proof (hinv_ring _ _ _ _ Hinv) as Hring.
  destruct (ring_pred _ _ _ _ _ Hring Hx Hy Hr) as (G1 & G2 & E & -> & HE).
  destruct (ring_words _ _ _ _ _ _ _ _ _ Hinv eq_refl HE) as (_ & Hyx & Hyi & _ & Hx8 & Hx0 & Hxe & _).
  destruct (hi_base _ _ _ _ Hinv) as (Hb0 & _ & Hb2). assert (KERNBASE = 2147483648) as HK by done. unfold bend in Hxe.
  assert (Hxs : rd s (x.1 + 4) = x.2).
  { pose proof (rk_seg _ _ _ Hring) as Hl. change ((base, 0) :: G1 ++ x :: G2) with (((base, 0) :: G1) ++ x :: G2) in Hl.
    apply lseg_app in Hl as (c & _ & Hl). by destruct Hl as (_ & Hl & _). }
  assert (Hxi : hdr_in s x.1) by (split; lia).
  cbn [malloc_loop]. mstep (hsize_ok s x.1 Hxi). rewrite Hxs, (proj2 (Z.leb_le _ _)) by lia.
  destruct (Z.eqb_spec x.2 n) as [E1|E1].
  - rewrite bind_assoc. mstep (hptr_ok s x.1 Hxi). rewrite bind_assoc. mstep (set_ptr_ok s y.1 (rd s x.1) Hyi).
    rewrite bind_ret_l, bind_modify, hadd_ok by lia. eexists _, _. split; [done|]. exists (G1 ++ G2), x.1. split; [lia|].
    split; [rewrite <- E1, <- surjective_pairing; by apply (take_exact base s G1 x G2 E)|]. split; [done|].
    rewrite !total_app, !length_app. unfold total. simpl. lia.
  - set (k := x.2 - n). rewrite (u32_small k) by lia.
    rewrite bind_assoc. mstep (set_size_ok s x.1 k Hxi). rewrite bind_assoc.
    rewrite (hadd_ok x.1 k) by (unfold k; lia).
    mstep (set_size_ok (set_hw (x.1 + 4) k s) (x.1 + 8 * k) n ltac:(unfold hdr_in, k; simpl; lia)).
    rewrite bind_ret_l, bind_modify, hadd_ok by (unfold k; lia). eexists _, _. split; [done|].
    exists (G1 ++ (x.1, k) :: G2), (x.1 + 8 * k). split; [lia|].
    split; [apply (take_split base s G1 x G2 E); try done; unfold k; lia|]. split; [done|].
    rewrite !total_app, !length_app. unfold total. simpl. unfold k. lia.
Qed.
Lemma first_fit (n : Z) (l : list block) : Exists (λ x, n ≤ x.2) l →
  ∃ l1 x l2, l = l1 ++ x :: l2 ∧ Forall (λ x, x.2 < n) l1 ∧ n ≤ x.2.
Proof.
  induction l as [|x l IH]; intros H; [by apply Exists_nil in H|].
  destruct (decide (n ≤ x.2)) as [Hx|Hx]; [by exists [], x, l|].
  apply Exists_cons in H as [H|H]; [done|]. destruct (IH H) as (l1 & z & l2 & -> & H1 & H2).
  exists (x :: l1), z, l2. split; [done|]. split; [|done]. apply Forall_cons. split; [lia|done].
Qed.

(** The ring as the loop goes round it: the block [f] that [freep] points to
    comes last. *)
Lemma ring_from_freep s F Us : hinv base s F Us →
  ∃ R f, (base, 0) :: F ≡ₚ R ++ [f] ∧ freep s = f.1 ∧ lseg (rd s) (rd s f.1) (R ++ [f]) (rd s f.1).
Proof.
  intros Hinv. pose proof (rk_seg _ _ _ (hinv_ring _ _ _ _ Hinv)) as Hl. pose proof (hi_freep _ _ _ _ Hinv) as Hf.
  change (base :: (fst <$> F)) with (fst <$> ((base, 0) :: F)) in Hf. apply list_elem_of_fmap in Hf as (f & Hf & Hin).
  apply list_elem_of_split in Hin as (A & B & HAB). rewrite HAB in *. exists (B ++ A), f.
  assert (Hn : rd s f.1 = from_option fst base (head B)) by (by apply lseg_next in Hl).
  split; [rewrite <- app_assoc, (Permutation_app_comm B); by rewrite <- app_assoc|]. split; [done|]. rewrite Hn, <- app_assoc.
  destruct B as [|z B]; [by simpl|]. apply lseg_rotate; [done|]. by rewrite <- app_assoc.
Qed.

Lemma malloc_find s F Us n fuel ffuel : hinv base s F Us → 0 < n → Exists (λ x, n ≤ x.2) F →
  (length F + 1 < fuel)%nat →
  ∃ r s', malloc_loop avail fuel ffuel n (freep s) (rd s (freep s)) s = Ok r s' ∧ given s s' F Us n r.
Proof.
  intros Hinv Hn Hex Hfuel. pose proof (hinv_ring _ _ _ _ Hinv) as [_ Hnd Hin _ _].
  destruct (ring_from_freep s F Us Hinv) as (R & f & Hp & Hf & Hl). rewrite Hf.
  destruct (first_fit n (R ++ [f])) as (R1 & x & R2 & HR & H1 & Hx).
  { rewrite <- Hp. by right. }
  assert (HxL : x ∈ (base, 0) :: F) by (rewrite Hp, HR; apply elem_of_app; right; by left).
  assert (HxF : x ∈ F) by (apply elem_of_cons in HxL as [->|]; [simpl in Hx; lia|done]).
  rewrite HR in Hl. apply lseg_app in Hl as Hl'. destruct Hl' as (c & Hl1 & Hl2).
  assert (c = x.1) as -> by (by destruct Hl2).
  assert (Hlast : f ∈ x :: R2).
  { assert (last (R1 ++ x :: R2) = Some f) as HL by (by rewrite <- HR, last_snoc).
    rewrite last_app_cons in HL. by apply last_Some_elem_of in HL. }
  rewrite Hp, HR, fmap_app in Hnd. apply NoDup_app in Hnd as (_ & Hnd & _).
  assert (Hlen : (length R1 ≤ length F)%nat).
  { apply (f_equal length) in HR. apply Permutation_length in Hp. rewrite !length_app in *. simpl in *. lia. }
  replace fuel with (length R1 + S (fuel - length R1 - 1))%nat by lia.
  rewrite (malloc_scan R1 _ _ _ _ _ x.1); [|done|].
  2:{ rewrite Hp, HR in Hin. apply Forall_app in Hin as [Hin _]. rewrite Forall_forall in *. intros z Hz.
      split; [by apply H1|]. split; [by apply Hin|]. intros Hzf. apply (Hnd z.1); [by apply list_elem_of_fmap_2|].
      rewrite Hzf, Hf. by apply list_elem_of_fmap_2. }
  assert (∃ y, from_option fst f.1 (last R1) = y.1 ∧ y ∈ (base, 0) :: F ∧ rd s y.1 = x.1) as (y & -> & Hy & Hyr).
  { destruct R1 as [|z R1' _] using rev_ind.
    - exists f. split; [done|]. split; [rewrite Hp; apply elem_of_app; right; by left|]. by destruct Hl as (-> & _).
    - rewrite last_snoc. exists z. split; [done|]. split; [rewrite Hp, HR; apply elem_of_app; left; apply elem_of_app; right; by left|].
      by apply lseg_snoc in Hl1 as (_ & _ & Hl1). }
  by apply (malloc_hit s F Us x y).
Qed.

Lemma malloc_nofit s F Us n fuel ffuel : hinv base s F Us → 0 < n → Forall (λ x, x.2 < n) F →
  malloc_loop avail (length F + S fuel) ffuel n (freep s) (rd s (freep s)) s =
  (q ← morecore avail ffuel n;
   if q =? 0 then mret 0 else next ← hptr q; malloc_loop avail fuel ffuel n q next) s.
Proof.
  intros Hinv Hn Hno. pose proof (hinv_ring _ _ _ _ Hinv) as [_ Hnd Hin _ _].
  destruct (ring_from_freep s F Us Hinv) as (R & f & Hp & Hf & Hl). rewrite Hf.
  assert (Hall : Forall (λ x, x.2 < n) (R ++ [f])) by (rewrite <- Hp; apply Forall_cons; done).
  apply lseg_snoc in Hl as (Hl & Hfs & _). rewrite Hp, fmap_app in Hnd. rewrite Hp in Hin.
  apply Forall_app in Hin as [HinR [Hinf _]%Forall_cons], Hall as [HallR [Hallf _]%Forall_cons].
  apply NoDup_app in Hnd as (_ & Hnd & _).
  assert (length F = length R) as -> by (apply Permutation_length in Hp; rewrite length_app in Hp; simpl in Hp; lia).
  rewrite (malloc_scan R _ _ _ _ _ f.1); [|done|].
  2:{ rewrite Forall_forall in *. intros z Hz. split; [by apply HallR|]. split; [by apply HinR|].
      intros Hzf. apply (Hnd z.1); [by apply list_elem_of_fmap_2|]. rewrite Hzf, Hf. by left. }
  cbn [malloc_loop]. mstep (hsize_ok s f.1 Hinf). rewrite Hfs, (proj2 (Z.leb_gt _ _)) by lia.
  by rewrite bind_gets, Hf, Z.eqb_refl.
Qed.
(** The process grown by a used block at its end. *)
Lemma hinv_grow s F Us nu : hinv base s F Us → 0 < nu → brk s + 8 * nu < KERNBASE →
  hinv base (set_hw (brk s + 4) nu (set_brk (brk s + 8 * nu) s)) F ((brk s, nu) :: Us).
Proof.
  intros Hinv Hnu Hk. pose proof (hinv_ring _ _ _ _ Hinv) as [_ _ Hri _ _].
  destruct Hinv as [H1 H2 H3 H4 H5 H6 H7 (Hb0 & Hb1 & Hb2)].
  set (s1 := set_hw (brk s + 4) nu (set_brk (brk s + 8 * nu) s)).
  assert (Hr : ∀ a, a ≠ brk s + 4 → rd s1 a = rd s a) by (intros; unfold s1; by rewrite rd_set_ne).
  apply Forall_app in H7 as [HF HU]. split; try done.
  - apply lseg_ext with (2 := H2). eapply Forall_impl; [exact Hri|]. intros x [_ Hx]. by rewrite !Hr by lia.
  - apply Forall_cons. split; [apply rd_set_eq|]. rewrite Forall_forall in *. intros u Hu.
    specialize (HU u Hu). unfold bend in HU. simpl in HU. change (rd s1 (u.1 + 4) = u.2). rewrite Hr by lia. by apply H4.
  - apply fop_cons; [done|]. eapply Forall_impl; [exact HU|]. unfold disj, bend. simpl. intros u Hu. lia.
  - apply Forall_cons. split; [|done]. eapply Forall_impl; [exact HF|]. unfold disj, bend. simpl. intros u Hu. lia.
  - apply Forall_app. split; [|apply Forall_cons; split].
    + eapply Forall_impl; [exact HF|]. unfold bend. simpl. intros u Hu. lia.
    + unfold bend. simpl. lia.
    + eapply Forall_impl; [exact HU|]. unfold bend. simpl. intros u Hu. lia.
  - simpl. lia.
Qed.

(** [sbrk] does not give [nu] units more. *)
Definition refused (b nu : Z) : Prop := KERNBASE ≤ b + 8 * nu ∨ avail b (b + 8 * nu) = false.

Lemma morecore_ok s F Us n ffuel : hinv base s F Us → 0 < n ≤ 134217728 → (length F + 1 < ffuel)%nat →
  let nu := if n <? 4096 then 4096 else n in
  (morecore avail ffuel n s = Ok 0 s ∧ refused (brk s) nu) ∨
  ∃ s' F', morecore avail ffuel n s = Ok (freep s') s' ∧ hinv base s' F' Us ∧ brk s' = brk s + 8 * nu ∧
    total F' = total F + nu ∧ Exists (λ x, n ≤ x.2) F' ∧ (length F' ≤ length F + 1)%nat.
Proof.
  intros Hinv Hn Hf nu. assert (n ≤ nu ≤ 134217728 ∧ 0 < nu) as [Hnu Hnu0] by (unfold nu; destruct (Z.ltb_spec n 4096); lia).
  destruct (hi_base _ _ _ _ Hinv) as (Hb0 & Hb1 & Hb2). assert (KERNBASE = 2147483648) as HK by done.
  unfold morecore. fold nu.
  assert (s32 (u32 (nu * HEADERSZ)) = 8 * nu) as ->.
  { unfold HEADERSZ, s32. rewrite !u32_small by (rewrite ?u32_small; lia).
    rewrite (proj2 (Z.ltb_lt _ _)) by lia. lia. }
  assert (Hsz : sbrk_size avail (brk s) (8 * nu) =
    if KERNBASE <=? brk s + 8 * nu then None else if avail (brk s) (brk s + 8 * nu) then Some (brk s + 8 * nu) else None).
  { unfold sbrk_size. rewrite u32_small, (proj2 (Z.ltb_lt 0 _)) by lia.
    destruct (KERNBASE <=? brk s + 8 * nu); [done|]. by rewrite (proj2 (Z.ltb_ge _ _)) by lia. }
  unfold sbrk. rewrite bind_assoc, bind_gets, Hsz. destruct (Z.leb_spec KERNBASE (brk s + 8 * nu)) as [Hk|Hk]; [left; split; [done|by left]|].
  destruct (avail (brk s) (brk s + 8 * nu)) eqn:Ea; [|left; split; [done|by right]]. right.
  rewrite bind_assoc, bind_modify, bind_ret_l, (proj2 (Z.eqb_neq _ _)) by lia.
  mstep (set_size_ok (set_brk (brk s + 8 * nu) s) (brk s) nu ltac:(unfold hdr_in; simpl; lia)).
  destruct (free_ok _ _ _ _ _ _ ffuel (hinv_grow s F Us nu Hinv Hnu0 Hk) Hf)
    as (s' & F' & E & Hinv' & Hbrk & [Htot Hlen] & x & Hx & Hx1 & Hx2).
  replace (u32 (brk s + HEADERSZ)) with (brk s + 8) by (unfold HEADERSZ; rewrite u32_small; lia).
  mstep E. exists s', F'. split; [done|]. split; [done|]. split; [done|]. split; [done|]. split; [|done].
  apply Exists_exists. exists x. split; [done|]. unfold bend in Hx2. lia.
Qed.
End malloc.

(** A process that has not called [malloc] yet. *)
Definition fresh_heap (base : Z) (s : heap) : Prop :=
  freep s = 0 ∧ 0 < base ∧ base + 8 ≤ brk s ∧ brk s < KERNBASE.

Lemma malloc_init base avail s nbytes fuel ffuel : fresh_heap base s →
  ∃ s0, hinv base s0 [] [] ∧ brk s0 = brk s ∧
    malloc base avail fuel ffuel nbytes s = malloc base avail fuel ffuel nbytes s0.
Proof.
  intros (Hf & Hb0 & Hb1 & Hb2). exists (set_hw (base + 4) 0 (set_freep base (set_hw base base s))).
  assert (Hi : ∀ s', brk s' = brk s → hdr_in s' base) by (intros s' E; unfold hdr_in; lia).
  split; [|split; [done|]].
  - split; simpl; try done; [by left| |constructor].
    split; [done|]. split; [apply rd_set_eq|]. rewrite rd_set_ne by lia. apply rd_set_eq.
  - unfold malloc. rewrite !bind_gets, Hf. simpl Z.eqb. cbv iota. simpl freep.
    rewrite (proj2 (Z.eqb_neq base 0)) by lia. rewrite bind_ret_l.
    rewrite bind_assoc. mstep (set_ptr_ok s base base (Hi s eq_refl)).
    rewrite bind_assoc, bind_modify, bind_assoc.
    mstep (set_size_ok (set_freep base (set_hw base base s)) base 0 (Hi _ eq_refl)).
    by rewrite bind_ret_l.
Qed.

Lemma freep_in base s F Us : hinv base s F Us → hdr_in s (freep s) ∧ 0 < freep s.
Proof.
  intros Hinv. pose proof (hinv_ring _ _ _ _ Hinv) as [_ _ Hri _ Hpos]. pose proof (hi_freep _ _ _ _ Hinv) as Hfp.
  change (base :: (fst <$> F)) with (fst <$> ((base, 0) :: F)) in Hfp. apply list_elem_of_fmap in Hfp as (f & -> & Hin).
  rewrite Forall_forall in Hri, Hpos. auto.
Qed.

(** What [malloc] of [n] units asks of the kernel: nothing when a free block has
    room, else at least 4096 units. *)
Definition extra (F : list block) (n : Z) : Z := if bool_decide (Exists (λ x, n ≤ x.2) F) then 0 else Z.max 4096 n.

Lemma malloc_ok base avail s F Us nbytes fuel ffuel : hinv base s F Us → 0 ≤ nbytes ≤ 1073741800 →
  (2 * length F + 5 < fuel)%nat → (length F + 1 < ffuel)%nat →
  let n := (nbytes + 7) / 8 + 1 in
  (malloc base avail fuel ffuel nbytes s = Ok 0 s ∧ Forall (λ x, x.2 < n) F ∧ refused avail (brk s) (Z.max 4096 n)) ∨
  ∃ s' F' p, malloc base avail fuel ffuel nbytes s = Ok (p + 8) s' ∧ hinv base s' F' ((p, n) :: Us) ∧
    brk s' = brk s + 8 * extra F n ∧ total F' + n = total F + extra F n.
Proof.
  intros Hinv Hnb Hf Hff n. assert (Hn : 0 < n ≤ 134217728) by (unfold n; lia).
  assert (units nbytes = n) as Hun by (unfold units, HEADERSZ, n; rewrite u32_small by lia; do 2 f_equal; lia).
  destruct (freep_in _ _ _ _ Hinv) as [Hfi Hf0]. unfold malloc. rewrite Hun, bind_gets, (proj2 (Z.eqb_neq _ _)), bind_ret_l by lia. mstep (hptr_ok s _ Hfi).
  destruct (decide (Exists (λ x, n ≤ x.2) F)) as [Hex|Hno].
  - destruct (malloc_find base avail s F Us n fuel ffuel Hinv) as (r & s' & E & F' & p & -> & Hinv' & Hb & Ht & _); [lia|done|lia|].
    right. exists s', F', p. unfold extra. rewrite bool_decide_true by done. split_and!; [done|done|lia|lia].
  - apply not_Exists_Forall in Hno; [|apply _]. replace fuel with (length F + S (fuel - length F - 1))%nat by lia.
    assert (Hno' : Forall (λ x, x.2 < n) F) by (eapply Forall_impl; [exact Hno|]; simpl; intros x; lia).
    assert (Hext : extra F n = Z.max 4096 n) by (unfold extra; by rewrite bool_decide_false by (by apply Forall_not_Exists)).
    rewrite (malloc_nofit base avail s F Us n); [|done|lia|done].
    assert (Hnu : (if n <? 4096 then 4096 else n) = Z.max 4096 n) by (destruct (Z.ltb_spec n 4096); lia).
    pose proof (morecore_ok base avail s F Us n ffuel Hinv Hn Hff) as Hm. cbv zeta in Hm. rewrite Hnu in Hm.
    destruct Hm as [[E Hr]|(s1 & F1 & E & Hinv1 & Hb1 & Ht1 & Hex & Hl)].
    { left. split; [by mstep E|done]. }
    right. mstep E. destruct (freep_in _ _ _ _ Hinv1) as [Hfi1 Hf01].
    rewrite (proj2 (Z.eqb_neq _ _)) by lia. mstep (hptr_ok s1 _ Hfi1).
    destruct (malloc_find base avail s1 F1 Us n (fuel - length F - 1) ffuel Hinv1)
      as (r & s' & E2 & F' & p & -> & Hinv' & Hb & Ht & _); [lia|done|lia|].
    exists s', F', p. rewrite Hext. split_and!; [done|done|lia|lia].
Qed.

(** C26: [malloc] of up to 2^30 bytes ends.  It returns a block of exactly the units that the
    bytes and a header take, which overlaps no other used or free block; the
    free list stays a sorted circular list of disjoint blocks.  When a free
    block has room the process does not grow; otherwise it grows by those units, by 4096 at least,
    and what is not given out is free: no memory is lost.  It returns 0 only when no free
    block has room and the kernel refuses to grow the process; then the heap is as before.
    This holds for the first call too. *)
Theorem malloc_correct base avail s F Us nbytes fuel ffuel :
  hinv base s F Us ∨ (fresh_heap base s ∧ F = [] ∧ Us = []) → 0 ≤ nbytes ≤ 1073741800 →
  (2 * length F + 5 < fuel)%nat → (length F + 1 < ffuel)%nat →
  let n := (nbytes + 7) / 8 + 1 in
  ∃ r s', malloc base avail fuel ffuel nbytes s = Ok r s' ∧
    (r = 0 ∧ hinv base s' F Us ∧ brk s' = brk s ∧ Forall (λ x, x.2 < n) F ∧ refused avail (brk s) (Z.max 4096 n) ∨
     ∃ F', hinv base s' F' ((r - 8, n) :: Us) ∧ brk s' = brk s + 8 * extra F n ∧ total F' + n = total F + extra F n).
Proof.
  intros H0 Hn Hf Hff n.
  assert (∃ s0, hinv base s0 F Us ∧ brk s0 = brk s ∧
    malloc base avail fuel ffuel nbytes s = malloc base avail fuel ffuel nbytes s0) as (s0 & Hinv & Hb & ->).
  { destruct H0 as [H0|(H0 & -> & ->)]; [by exists s|by apply malloc_init]. }
  destruct (malloc_ok base avail s0 F Us nbytes fuel ffuel Hinv Hn Hf Hff) as [(E & Hno & Hr)|(s' & F' & p & E & Hinv' & Hbr & Ht)].
  - exists 0, s0. split; [done|]. left. rewrite <- Hb. done.
  - exists (p + 8), s'. split; [done|]. right. exists F'. rewrite <- Hb.
    replace (p + 8 - 8) with p by lia. done.
Qed.

(** C27: [free] of a block in use ends, and puts its units on the free list,
    joined with the free blocks that touch it; the other used blocks stay as
    they are, and the list stays sorted with no two blocks touching. *)
Theorem free_correct base s F Us Us' bp bs fuel :
  hinv base s F Us → Us ≡ₚ (bp, bs) :: Us' → (length F + 1 < fuel)%nat →
  ∃ s' F', free fuel (bp + 8) s = Ok tt s' ∧ hinv base s' F' Us' ∧ brk s' = brk s ∧
    total F' = total F + bs ∧ ∃ x, x ∈ F' ∧ x.1 ≤ bp ∧ bp + 8 * bs ≤ bend x.
Proof.
  intros Hinv Hp Hf. destruct (free_ok base s F Us' bp bs fuel) as (s' & F' & E & Hi & Hb & [Ht _] & Hx); [|done|].
  - by apply (hinv_perm _ _ _ Us).
  - by exists s', F'.
Qed.

(** A process of 8192 bytes with the header [base] at 256 and two used blocks. *)
Definition heap2 : heap :=
  mkheap {[256 := 256; 260 := 0; 4100 := 2; 4116 := 3]} 256 8192.

Lemma heap2_inv : hinv 256 heap2 [] [(4096, 2); (4112, 3)].
Proof.
  split; simpl; try done; [by left|by repeat constructor| | |].
  - apply fop_cons; [apply fop_cons; [constructor|done]|]. apply Forall_cons. split; [|done]. left. by vm_compute.
  - by repeat constructor.
  - unfold bend. repeat (apply Forall_cons; split; [simpl; lia|]). done.
Qed.

Lemma malloc_correct_witness :
  (∃ r s', malloc 256 (λ _ _, true) 7 3 100 (mkheap ∅ 0 8192) = Ok r s' ∧ r = 40856) ∧
  ∃ r s', malloc 256 (λ _ _, false) 7 3 100 heap2 = Ok r s' ∧ r = 0.
Proof.
  split.
  - destruct (malloc_correct 256 (λ _ _, true) (mkheap ∅ 0 8192) [] [] 100 7 3) as (r & s' & E & _);
      [right; split; [|done]; done|lia|simpl; lia|simpl; lia|].
    exists r, s'. split; [exact E|]. vm_compute in E. by injection E as <- _.
  - destruct (malloc_correct 256 (λ _ _, false) heap2 [] [(4096, 2); (4112, 3)] 100 7 3) as (r & s' & E & _);
      [left; exact heap2_inv|lia|simpl; lia|simpl; lia|].
    exists r, s'. split; [exact E|]. vm_compute in E. by injection E as <- _.
Defined.

Lemma free_correct_witness :
  ∃ s' F', free 5 4120 heap2 = Ok tt s' ∧ hinv 256 s' F' [(4096, 2)] ∧ total F' = 3.
Proof.
  destruct (free_correct 256 heap2 [] [(4096, 2); (4112, 3)] [(4096, 2)] 4112 3 5) as (s' & F' & E & Hi & _ & Ht & _).
  - exact heap2_inv.
  - constructor.
  - simpl. lia.
  - exists s', F'. split; [exact E|]. split; [exact Hi|exact Ht].
Defined.

(** ** Requests that are too large *)

(** The rounding wraps around: a request of almost 4 GB gets one unit, the
    header alone. *)
Lemma units_wrap nbytes : 4294967289 ≤ nbytes < 4294967296 → units nbytes = 1.
Proof.
  intros H. unfold units, HEADERSZ, u32.
  replace ((nbytes + 8 - 1) mod 4294967296) with (nbytes + 7 - 4294967296) by (apply Z.mod_unique with 1; lia).
  lia.
Qed.

(** For 2^28 units the argument of [sbrk] is negative as an [int]; [sbrk]
    succeeds without growing the process, and [morecore] takes its old end for
    a block of 2 GB. *)
Lemma sbrk_wrap avail sz : 0 < sz < KERNBASE →
  s32 (u32 (268435456 * HEADERSZ)) = -2147483648 ∧ sbrk_size avail sz (-2147483648) = Some sz.
Proof.
  intros H. assert (KERNBASE = 2147483648) as HK by done. split; [done|]. unfold sbrk_size.
  assert (u32 (sz + -2147483648) = sz + 2147483648) as ->.
  { unfold u32. symmetry. apply Z.mod_unique with (-1); lia. }
  simpl. by rewrite (proj2 (Z.leb_le _ _)) by lia.
Qed.
