(* ===== verification/Sh.v ===== *)
(** * The shell's parser: sh.c

    The line is the list of its bytes before the NUL.  A pointer into it is the
    rest of the line from there on, so that [es] is the empty list and reading
    [*s] there gives the NUL.  The parser is a computation on the cursor
    [*ps]; [Panic] is the shell's [panic], which prints its message and exits.
    A token is the pair of its pointers [q] and [eq].  [malloc] is taken to
    succeed.

    The functions call each other; each call or round of a loop takes fuel,
    and [parse_fuel] is enough for every line ([parse_total]). *)

From S2P Require Import Prelude Params Strings Usys Ulib Printf.

Definition token : Type := list Z * list Z.

Definition MAXARGS : Z := 10.

(** struct execcmd, redircmd, pipecmd, listcmd, backcmd; the end pointer of a
    file name is part of its token. *)
Inductive cmd : Type :=
| EXEC (argv : list token)
| REDIR (c : cmd) (file : token) (mode fd : Z)
| PIPE (left right : cmd)
| LIST (left right : cmd)
| BACK (c : cmd).

Definition whitespace : list Z := [32; 9; 13; 10; 11].
Definition symbols : list Z := str "<|>&;()".
Definition in_set (set : list Z) (c : Z) : bool :=
  match strchr (set ++ [0]) c with Some (Some _) => true | _ => false end.
Definition is_ws (c : Z) : bool := in_set whitespace c.
Definition is_sym (c : Z) : bool := in_set symbols c.
(** The characters a word is made of. *)
Definition is_word (c : Z) : bool := negb (is_ws c) && negb (is_sym c).

Definition PIPE_ : Z := 124.
Definition LPAR : Z := 40.
Definition RPAR : Z := 41.
Definition SEMI : Z := 59.
Definition AMP : Z := 38.
Definition LT : Z := 60.
Definition GT : Z := 62.
Definition PLUS : Z := 43.
Definition WORD : Z := 97.

(** ** Tokens *)

Fixpoint skip_ws (s : list Z) : list Z :=
  match s with
  | c :: s' => if is_ws c then skip_ws s' else s
  | [] => []
  end.

Fixpoint skip_word (s : list Z) : list Z :=
  match s with
  | c :: s' => if is_word c then skip_word s' else s
  | [] => []
  end.

Notation P := (M (list Z)).

(** The kind of the token, and the token. *)
Definition gettoken : P (Z * token) :=
  s ← get;
  let s := skip_ws s in
  let q := s in
  let '(ret, s) :=
    match s with
    | [] => (0, s)
    | c :: s1 =>
        if in_set (str "|();&<") c then (c, s1)
        else if c =? GT then
          match s1 with
          | d :: s2 => if d =? GT then (PLUS, s2) else (GT, s1)
          | [] => (GT, s1)
          end
        else (WORD, skip_word s)
    end in
  put (skip_ws s);;
  mret (ret, (q, s)).

Definition peek (toks : list Z) : P bool :=
  s ← get;
  let s := skip_ws s in
  put s;;
  mret (match s with c :: _ => in_set toks c | [] => false end).

(** ** Redirections *)

Definition redir (c : cmd) (r : token * Z * Z) : cmd := let '(f, mode, fd) := r in REDIR c f mode fd.

(** The redirections [parseredirs] wraps around the command, in order. *)
Fixpoint parseredirs (fuel : nat) : P (list (token * Z * Z)) :=
  match fuel with
  | O => no_fuel
  | S fuel' =>
      b ← peek (str "<>");
      if negb b then mret [] else
      '(tok, _) ← gettoken;
      '(w, f) ← gettoken;
      if negb (w =? WORD) then panic "missing file for redirection" else
      let r := if tok =? LT then (f, O_RDONLY, 0) else (f, Z.lor O_WRONLY O_CREATE, 1) in
      rs ← parseredirs fuel';
      mret (r :: rs)
  end.

(** ** Commands *)

(** The loop of [parseexec].  The source keeps a pointer to the innermost
    command, to whose [argv] it adds, while [parseredirs] wraps it; here the
    arguments and the redirections are collected side by side. *)
Fixpoint parseexec_loop (fuel : nat) (argc : Z) : P (list token * list (token * Z * Z)) :=
  match fuel with
  | O => no_fuel
  | S fuel' =>
      b ← peek (str "|)&;");
      if (b : bool) then mret ([], []) else
      '(tok, t) ← gettoken;
      if tok =? 0 then mret ([], []) else
      if negb (tok =? WORD) then panic "syntax" else
      let argc := argc + 1 in
      if MAXARGS <=? argc then panic "too many args" else
      rs ← parseredirs fuel';
      '(args, rs') ← parseexec_loop fuel' argc;
      mret (t :: args, rs ++ rs')
  end.

Fixpoint parseline_backs (fuel : nat) (c : cmd) : P cmd :=
  match fuel with
  | O => no_fuel
  | S fuel' =>
      b ← peek (str "&");
      if (b : bool) then gettoken;; parseline_backs fuel' (BACK c) else mret c
  end.

Fixpoint parseline (fuel : nat) : P cmd :=
  match fuel with
  | O => no_fuel
  | S fuel' =>
      c ← parsepipe fuel';
      c ← parseline_backs fuel' c;
      b ← peek (str ";");
      if (b : bool) then gettoken;; r ← parseline fuel'; mret (LIST c r) else mret c
  end
with parsepipe (fuel : nat) : P cmd :=
  match fuel with
  | O => no_fuel
  | S fuel' =>
      c ← parseexec fuel';
      b ← peek (str "|");
      if (b : bool) then gettoken;; r ← parsepipe fuel'; mret (PIPE c r) else mret c
  end
with parseblock (fuel : nat) : P cmd :=
  match fuel with
  | O => no_fuel
  | S fuel' =>
      b ← peek (str "(");
      if negb b then panic "parseblock" else
      gettoken;;
      c ← parseline fuel';
      b ← peek (str ")");
      if negb b then panic "syntax - missing )" else
      gettoken;;
      rs ← parseredirs fuel';
      mret (foldl redir c rs)
  end
with parseexec (fuel : nat) : P cmd :=
  match fuel with
  | O => no_fuel
  | S fuel' =>
      b ← peek (str "(");
      if (b : bool) then parseblock fuel' else
      rs ← parseredirs fuel';
      '(args, rs') ← parseexec_loop fuel' 0;
      mret (foldl redir (EXEC args) (rs ++ rs'))
  end.

Definition parse_fuel (s : list Z) : nat := 4 * length s + 5.

(** [parsecmd] up to [nulterminate]. *)
Definition parse_line (line : list Z) : P cmd :=
  c ← parseline (parse_fuel line);
  peek [];;
  s ← get;
  if bool_decide (s = []) then mret c else panic "syntax".
Definition parse (line : list Z) : result (list Z) cmd := parse_line line line.

(** ** nulterminate *)

(** [*p = 0], where [p] is a pointer into the line of [n] bytes. *)
Definition put_nul (n : nat) (buf : list Z) (p : list Z) : list Z := <[(n - length p)%nat := 0]> buf.

(** The loop over an argument vector. *)
Definition put_nuls (n : nat) (buf : list Z) (ts : list token) : list Z :=
  foldl (λ b (t : token), put_nul n b t.2) buf ts.

Fixpoint nulterminate (n : nat) (buf : list Z) (c : cmd) : list Z :=
  match c with
  | EXEC argv => put_nuls n buf argv
  | REDIR c f _ _ => put_nul n (nulterminate n buf c) f.2
  | PIPE l r | LIST l r => nulterminate n (nulterminate n buf l) r
  | BACK c => nulterminate n buf c
  end.

Definition parsecmd (line : list Z) : result (list Z) (cmd * list Z) :=
  match parse line with
  | Ok c s => Ok (c, nulterminate (length line) (line ++ [0]) c) s
  | Panic msg => Panic msg
  | Blocked ch s => Blocked ch s
  | Undef => Undef
  | NoFuel => NoFuel
  end.

(** ** Every line is parsed or refused *)

(** The computation returns with [Q], or panics. *)
Definition wp {A} (m : P A) (s : list Z) (Q : A → list Z → Prop) : Prop :=
  match m s with Ok a s' => Q a s' | Panic _ => True | _ => False end.

Lemma wp_bind {A B} (m : P A) (k : A → P B) s Q :
  wp m s (λ a s', wp (k a) s' Q) → wp (m ≫= k) s Q.
Proof. unfold wp, mbind, M_bind. by destruct (m s). Qed.

Lemma wp_impl {A} (m : P A) s (Q Q' : A → list Z → Prop) :
  wp m s Q → (∀ a s', Q a s' → Q' a s') → wp m s Q'.
Proof. unfold wp. destruct (m s); auto. Qed.

Lemma wp_ret {A} (a : A) s (Q : A → list Z → Prop) : Q a s → wp (mret a) s Q.
Proof. done. Qed.

(** A word of the line: its characters are word characters, and it is followed
    by another character or by the end. *)
Definition good_token (line : list Z) (t : token) : Prop :=
  ∃ w, t.1 = w ++ t.2 ∧ w ≠ [] ∧ Forall (λ c, is_word c = true) w ∧
    (∀ c, head t.2 = Some c → is_word c = false) ∧ t.1 `suffix_of` line.

(** The commands the parser builds: at most nine arguments, only words, and
    the modes and descriptors of the three redirections. *)
Fixpoint good_cmd (line : list Z) (c : cmd) : Prop :=
  match c with
  | EXEC argv => Z.of_nat (length argv) < MAXARGS ∧ Forall (good_token line) argv
  | REDIR c f mode fd => good_cmd line c ∧ good_token line f ∧
      (mode = O_RDONLY ∧ fd = 0 ∨ mode = Z.lor O_WRONLY O_CREATE ∧ fd = 1)
  | PIPE l r | LIST l r => good_cmd line l ∧ good_cmd line r
  | BACK c => good_cmd line c
  end.

Lemma skip_ws_suffix s : skip_ws s `suffix_of` s.
Proof.
  induction s as [|c s IH]; simpl; [done|]. destruct (is_ws c); [by apply suffix_cons_r|done].
Qed.

Lemma skip_word_spec s : ∃ w, s = w ++ skip_word s ∧ Forall (λ c, is_word c = true) w ∧
  (∀ c, head (skip_word s) = Some c → is_word c = false).
Proof.
  induction s as [|c s (w & Hs & Hw & Hh)]; simpl; [by exists []|]. destruct (is_word c) eqn:E.
  - exists (c :: w). split; [simpl; by f_equal|]. split; [by constructor|done].
  - exists []. split; [done|]. split; [done|]. intros d [= <-]. done.
Qed.

Lemma suffix_length (s s' : list Z) : s' `suffix_of` s → (length s' ≤ length s)%nat.
Proof. intros [k ->]. rewrite length_app. lia. Qed.

Lemma in_set_ok set c : no_nul set → in_set set c = bool_decide (c ∈ set).
Proof.
  unfold in_set. induction set as [|x set IH]; intros Hn; [done|]. simpl.
  apply Forall_cons in Hn as [Hx Hn]. rewrite (proj2 (Z.eqb_neq x 0) Hx).
  destruct (Z.eqb_spec x c) as [->|Hne].
  - symmetry. apply bool_decide_eq_true. by left.
  - rewrite IH by done. apply bool_decide_ext. rewrite elem_of_cons. split; [by right|]. intros [->|]; done.
Qed.

(** A character that is no blank and no symbol of the first case is a word
    character or [>]. *)
Lemma word_or_symbol c : is_ws c = false → in_set (str "|();&<") c = false → c ≠ GT → is_word c = true.
Proof.
  intros H1 H2 H3. unfold is_word, is_sym. rewrite H1. simpl. apply negb_true_iff.
  change (str "|();&<") with [124; 40; 41; 59; 38; 60] in H2. change symbols with [60; 124; 62; 38; 59; 40; 41].
  rewrite in_set_ok in * by (by repeat constructor). rewrite bool_decide_eq_false in *. unfold GT in H3.
  rewrite !not_elem_of_cons in *. tauto.
Qed.

Lemma skip_ws_head s c s1 : skip_ws s = c :: s1 → is_ws c = false.
Proof.
  induction s as [|d s IH]; simpl; [done|]. destruct (is_ws d) eqn:E; [done|]. by intros [= -> ->].
Qed.

Lemma wp_gettoken line s : s `suffix_of` line →
  wp gettoken s (λ '(k, t) s', s' `suffix_of` s ∧ (k = WORD → good_token line t) ∧
    (skip_ws s ≠ [] → (length s' < length s)%nat) ∧ (skip_ws s = [] → k = 0)).
Proof.
  intros Hs. unfold wp, gettoken. rewrite bind_ok with (a := s) (s' := s) by done.
  pose proof (skip_ws_suffix s) as Hw. pose proof (suffix_length _ _ Hw) as Hl.
  destruct (skip_ws s) as [|c s1] eqn:E.
  { simpl. split; [apply suffix_nil|]. split; [done|]. split; done. }
  pose proof (skip_ws_head _ _ _ E) as Hc. simpl in Hl.
  assert (Hnext : ∀ s2 : list Z, s2 `suffix_of` s1 → skip_ws s2 `suffix_of` s ∧
    (c :: s1 ≠ [] → (length (skip_ws s2) < length s)%nat) ∧ (c :: s1 = [] → False)).
  { intros s2 H2. pose proof (skip_ws_suffix s2) as H3. pose proof (suffix_length _ _ H3). pose proof (suffix_length _ _ H2).
    split; [|split; [intros _; lia|done]]. etrans; [exact H3|]. etrans; [exact H2|]. etrans; [|exact Hw]. by apply suffix_cons_r. }
  destruct (in_set (str "|();&<") c) eqn:Esym.
  - simpl. destruct (Hnext s1) as (H1 & H2 & _); [done|]. split; [done|]. split; [|by split].
    intros ->. by vm_compute in Esym.
  - destruct (Z.eqb_spec c GT) as [->|Hgt].
    + destruct s1 as [|d s2]; simpl; [|destruct (d =? GT); simpl].
      * destruct (Hnext []) as (H1 & H2 & _); [done|]. by split_and!.
      * destruct (Hnext s2) as (H1 & H2 & _); [by apply suffix_cons_r|]. by split_and!.
      * destruct (Hnext (d :: s2)) as (H1 & H2 & _); [done|]. by split_and!.
    + pose proof (word_or_symbol c Hc Esym Hgt) as Hword.
      destruct (skip_word_spec (c :: s1)) as (w & Hsw & Hww & Hh).
      set (s3 := skip_word (c :: s1)) in *. simpl.
      assert (Hs3 : s3 `suffix_of` s1).
      { unfold s3. simpl. rewrite Hword. destruct (skip_word_spec s1) as (w' & Hs1 & _). rewrite Hs1 at 2. by exists w'. }
      destruct (Hnext s3 Hs3) as (H1 & H2 & _). split; [done|]. split; [|by split]. intros _.
      exists w. simpl. split; [done|]. split; [|split; [done|split; [done|by etrans]]].
      intros ->. simpl in Hsw. apply suffix_length in Hs3. rewrite <- Hsw in Hs3. simpl in Hs3. lia.
Qed.

Lemma wp_peek toks s : wp (peek toks) s (λ b s', s' `suffix_of` s ∧ s' = skip_ws s ∧ (b = true → s' ≠ [])).
Proof.
  unfold wp, peek. rewrite bind_ok with (a := s) (s' := s) by done. simpl.
  split; [apply skip_ws_suffix|]. split; [done|]. by destruct (skip_ws s).
Qed.

Lemma skip_ws_idem s : skip_ws (skip_ws s) = skip_ws s.
Proof. induction s as [|c s IH]; simpl; [done|]. destruct (is_ws c) eqn:E; [done|]. simpl. by rewrite E. Qed.

Definition good_redirs (line : list Z) (rs : list (token * Z * Z)) : Prop :=
  Forall (λ '(f, mode, fd), good_token line f ∧
    (mode = O_RDONLY ∧ fd = 0 ∨ mode = Z.lor O_WRONLY O_CREATE ∧ fd = 1)) rs.

Lemma wp_parseredirs line fuel s : s `suffix_of` line → (length s < fuel)%nat →
  wp (parseredirs fuel) s (λ rs s', s' `suffix_of` s ∧ good_redirs line rs).
Proof.
  revert s. induction fuel as [|fuel IH]; intros s Hs Hf; [lia|]. cbn [parseredirs].
  apply wp_bind. eapply wp_impl; [apply wp_peek|]. intros b s1 (H1 & Es1 & Hb). destruct b; simpl.
  2:{ split; [done|constructor]. }
  apply wp_bind. eapply wp_impl; [apply (wp_gettoken line); by etrans|]. intros [tok t1] s2 (H2 & _ & Hl2 & _).
  apply wp_bind. eapply wp_impl; [apply (wp_gettoken line); by do 2 (etrans; [eassumption|])|].
  intros [w f] s3 (H3 & Hw & _ & _). destruct (Z.eqb_spec w WORD) as [->|]; simpl; [|done].
  apply suffix_length in H1 as L1. apply suffix_length in H3 as L3.
  rewrite Es1, skip_ws_idem, <- Es1 in Hl2. specialize (Hl2 (Hb eq_refl)).
  apply wp_bind. eapply wp_impl; [apply IH; [by do 3 (etrans; [eassumption|])|lia]|].
  intros rs s4 [H4 Hr]. apply wp_ret. split; [by do 3 (etrans; [eassumption|])|].
  constructor; [|done]. destruct (tok =? LT); (split; [by apply Hw|]); [by left|by right].
Qed.

Lemma wp_parseexec_loop line fuel argc s : s `suffix_of` line → (length s < fuel)%nat →
  wp (parseexec_loop fuel argc) s (λ '(args, rs) s', s' `suffix_of` s ∧ Forall (good_token line) args ∧
    good_redirs line rs ∧ (args ≠ [] → argc + Z.of_nat (length args) < MAXARGS)).
Proof.
  revert argc s. induction fuel as [|fuel IH]; intros argc s Hs Hf; [lia|]. cbn [parseexec_loop].
  apply wp_bind. eapply wp_impl; [apply wp_peek|]. intros b s1 (H1 & Es1 & _). destruct b.
  { split; [done|]. split; [constructor|]. split; [constructor|done]. }
  apply wp_bind. eapply wp_impl; [apply (wp_gettoken line); by etrans|]. intros [tok t] s2 (H2 & Ht & Hl2 & Hz).
  destruct (Z.eqb_spec tok 0) as [->|Hn0].
  { split; [by etrans|]. split; [constructor|]. split; [constructor|done]. }
  destruct (Z.eqb_spec tok WORD) as [->|]; simpl negb; [|done].
  destruct (Z.leb_spec MAXARGS (argc + 1)); [done|].
  rewrite Es1, skip_ws_idem, <- Es1 in Hl2, Hz. apply suffix_length in H1 as L1.
  assert (length s2 < length s1)%nat by (apply Hl2; intros Hs1; by apply Hn0, Hz).
  assert (s2 `suffix_of` line) as Hs2 by (by do 2 (etrans; [eassumption|])).
  apply wp_bind. eapply wp_impl; [apply (wp_parseredirs line); [done|lia]|]. intros rs s3 [H3 Hr].
  apply suffix_length in H3 as L3.
  apply wp_bind. eapply wp_impl; [apply IH; [by etrans|lia]|]. intros [args rs'] s4 (H4 & Ha & Hr' & Hc).
  apply wp_ret. split; [etrans; [exact H4|]; etrans; [exact H3|]; etrans; [exact H2|exact H1]|]. split; [constructor; [by apply Ht|done]|].
  split; [by apply Forall_app|]. intros _. simpl. destruct args as [|a args]; [simpl; lia|].
  specialize (Hc ltac:(done)). simpl in *. lia.
Qed.

Lemma good_redir line c rs : good_cmd line c → good_redirs line rs → good_cmd line (foldl redir c rs).
Proof.
  intros Hc Hr. revert c Hc. induction Hr as [|[[f mode] fd] rs Hf Hr IH]; intros c Hc; simpl; [done|].
  apply IH. simpl. tauto.
Qed.

Lemma wp_backs line fuel c s : s `suffix_of` line → (length s < fuel)%nat → good_cmd line c →
  wp (parseline_backs fuel c) s (λ c' s', s' `suffix_of` s ∧ good_cmd line c').
Proof.
  revert c s. induction fuel as [|fuel IH]; intros c s Hs Hf Hc; [lia|]. cbn [parseline_backs].
  apply wp_bind. eapply wp_impl; [apply wp_peek|]. intros b s1 (H1 & Es1 & Hb). destruct b; [|by apply wp_ret].
  apply wp_bind. eapply wp_impl; [apply (wp_gettoken line); by etrans|]. intros [tok t] s2 (H2 & _ & Hl2 & _).
  rewrite Es1, skip_ws_idem, <- Es1 in Hl2. specialize (Hl2 (Hb eq_refl)). apply suffix_length in H1 as L1.
  eapply wp_impl; [apply IH; [by do 2 (etrans; [eassumption|])|lia|done]|].
  intros c' s3 [H3 Hc']. split; [|done]. by do 2 (etrans; [eassumption|]).
Qed.

(** The result of a function of the grammar, started at [s]. *)
Definition parsed (line s : list Z) (c : cmd) (s' : list Z) : Prop := s' `suffix_of` s ∧ good_cmd line c.

(** The ends of [parseline] and [parsepipe]: after [;] or [|] comes the rest. *)
Lemma wp_more line toks (rest : P cmd) (K : cmd → cmd → cmd) c s0 s1 :
  s0 `suffix_of` line → s1 `suffix_of` s0 → good_cmd line c →
  (∀ r, good_cmd line r → good_cmd line (K c r)) →
  (∀ s4, s4 `suffix_of` line → (length s4 < length s1)%nat → wp rest s4 (parsed line s4)) →
  wp (b ← peek toks; if (b : bool) then gettoken;; r ← rest; mret (K c r) else mret c) s1 (parsed line s0).
Proof.
  intros H0 H1 Hc HK Hrest. apply wp_bind. eapply wp_impl; [apply wp_peek|]. intros b s3 (H3 & Es3 & Hb).
  apply suffix_length in H3 as L3. assert (s3 `suffix_of` s0) as Hs3 by (by etrans). destruct b; [|by apply wp_ret].
  apply wp_bind. eapply wp_impl; [apply (wp_gettoken line); by etrans|]. intros [tok t] s4 (H4 & _ & Hl4 & _).
  rewrite Es3, skip_ws_idem, <- Es3 in Hl4. specialize (Hl4 (Hb eq_refl)). assert (s4 `suffix_of` s0) as Hs4 by (by etrans).
  apply wp_bind. eapply wp_impl; [apply Hrest; [by etrans|lia]|]. intros r s5 [H5 Hr].
  apply wp_ret. split; [by etrans|by apply HK].
Qed.

Lemma wp_parseexec line fuel s : s `suffix_of` line → (length s < fuel)%nat →
  (∀ s1, s1 `suffix_of` s → skip_ws s1 ≠ [] → wp (parseblock fuel) s1 (parsed line s1)) →
  wp (parseexec (S fuel)) s (parsed line s).
Proof.
  intros Hs Hf Hblock. cbn [parseexec]. apply wp_bind. eapply wp_impl; [apply wp_peek|]. intros b s1 (H1 & Es1 & Hb).
  apply suffix_length in H1 as L1. destruct b.
  - eapply wp_impl; [apply Hblock; [done|rewrite Es1, skip_ws_idem, <- Es1; by apply Hb]|].
    intros c s2 [H2 Hc]. split; [by etrans|done].
  - apply wp_bind. eapply wp_impl; [apply (wp_parseredirs line); [by etrans|lia]|]. intros rs s2 [H2 Hr].
    apply suffix_length in H2 as L2. assert (s2 `suffix_of` s) as Hs2 by (by etrans).
    apply wp_bind. eapply wp_impl; [apply (wp_parseexec_loop line); [by etrans|lia]|]. intros [args rs'] s3 (H3 & Ha & Hr' & Hc).
    apply wp_ret. split; [by etrans|]. apply good_redir; [|by apply Forall_app]. split; [|done].
    destruct args as [|a args]; [done|]. specialize (Hc ltac:(done)). lia.
Qed.

Lemma wp_parseblock line fuel s : s `suffix_of` line → (length s < fuel)%nat →
  (∀ s1, s1 `suffix_of` line → (length s1 < length s)%nat → wp (parseline fuel) s1 (parsed line s1)) →
  wp (parseblock (S fuel)) s (parsed line s).
Proof.
  intros Hs Hf Hline. cbn [parseblock]. apply wp_bind. eapply wp_impl; [apply wp_peek|]. intros b s1 (H1 & Es1 & Hb).
  apply suffix_length in H1 as L1. destruct b; simpl negb; [|done]. assert (s1 `suffix_of` line) as Hs1 by (by etrans).
  apply wp_bind. eapply wp_impl; [by apply (wp_gettoken line)|]. intros [tok t] s2 (H2 & _ & Hl2 & _).
  rewrite Es1, skip_ws_idem, <- Es1 in Hl2. specialize (Hl2 (Hb eq_refl)). assert (s2 `suffix_of` line) as Hs2 by (by etrans).
  apply wp_bind. eapply wp_impl; [apply Hline; [done|lia]|]. intros c s3 [H3 Hc]. apply suffix_length in H3 as L3.
  apply wp_bind. eapply wp_impl; [apply wp_peek|]. intros b s4 (H4 & _ & _). destruct b; simpl negb; [|done].
  apply suffix_length in H4 as L4. assert (s4 `suffix_of` s2) as Hs4 by (by etrans).
  apply wp_bind. eapply wp_impl; [apply (wp_gettoken line); by etrans|]. intros [tok' t'] s5 (H5 & _ & _ & _).
  apply suffix_length in H5 as L5. assert (s5 `suffix_of` s2) as Hs5 by (by etrans).
  apply wp_bind. eapply wp_impl; [apply (wp_parseredirs line); [by etrans|lia]|]. intros rs s6 [H6 Hr].
  apply wp_ret. split; [|by apply good_redir]. etrans; [exact H6|]. etrans; [exact Hs5|]. etrans; [exact H2|exact H1].
Qed.

(** The four functions of the grammar, with the fuel each of them needs for
    the length of the rest of the line. *)
Lemma wp_parse_all line fuel : ∀ s, s `suffix_of` line →
  ((4 * length s + 4 ≤ fuel)%nat → wp (parseline fuel) s (parsed line s)) ∧
  ((4 * length s + 3 ≤ fuel)%nat → wp (parsepipe fuel) s (parsed line s)) ∧
  ((4 * length s + 2 ≤ fuel)%nat → wp (parseexec fuel) s (parsed line s)) ∧
  ((4 * length s + 1 ≤ fuel)%nat → skip_ws s ≠ [] → wp (parseblock fuel) s (parsed line s)).
Proof.
  induction fuel as [|fuel IH]; intros s Hs; [repeat split; intros; lia|].
  assert (Hline : ∀ s1, s1 `suffix_of` line → (4 * length s1 + 4 ≤ fuel)%nat → wp (parseline fuel) s1 (parsed line s1)) by (intros; by apply IH).
  split_and!; intros Hf.
  - cbn [parseline]. apply wp_bind. eapply wp_impl; [apply IH; [done|lia]|]. intros c s1 [H1 Hc]. apply suffix_length in H1 as L1.
    apply wp_bind. eapply wp_impl; [apply (wp_backs line); [by etrans|lia|done]|]. intros c' s2 [H2 Hc']. apply suffix_length in H2 as L2.
    apply (wp_more line); [done|by etrans|done|done|]. intros s4 H4 L4. apply Hline; [done|lia].
  - cbn [parsepipe]. apply wp_bind. eapply wp_impl; [apply IH; [done|lia]|]. intros c s1 [H1 Hc]. apply suffix_length in H1 as L1.
    apply (wp_more line); [done..|]. intros s4 H4 L4. apply IH; [done|lia].
  - apply wp_parseexec; [done|lia|]. intros s1 H1 Hne. apply suffix_length in H1 as L1. apply IH; [by etrans|lia|done].
  - intros Hne. apply wp_parseblock; [done| |].
    + assert (length s ≠ 0)%nat by (intros E; apply nil_length_inv in E; by subst). lia.
    + intros s1 H1 L1. apply Hline; [done|lia].
Qed.

(** ** The strings of a parsed command *)

(** The tokens in the order in which [nulterminate] ends them. *)
Fixpoint tokens (c : cmd) : list token :=
  match c with
  | EXEC argv => argv
  | REDIR c f _ _ => tokens c ++ [f]
  | PIPE l r | LIST l r => tokens l ++ tokens r
  | BACK c => tokens c
  end.

Lemma put_nuls_app n buf ts1 ts2 : put_nuls n buf (ts1 ++ ts2) = put_nuls n (put_nuls n buf ts1) ts2.
Proof. apply foldl_app. Qed.

Lemma nulterminate_tokens n buf c : nulterminate n buf c = put_nuls n buf (tokens c).
Proof.
  revert buf. induction c as [argv|c IH f mode fd|l IHl r IHr|l IHl r IHr|c IH]; intros buf; simpl; [done|..].
  - by rewrite put_nuls_app, IH.
  - by rewrite put_nuls_app, IHl, IHr.
  - by rewrite put_nuls_app, IHl, IHr.
  - apply IH.
Qed.

Lemma good_tokens line c : good_cmd line c → Forall (good_token line) (tokens c).
Proof.
  induction c as [argv|c IH f mode fd|l IHl r IHr|l IHl r IHr|c IH]; simpl.
  - tauto.
  - intros (Hc & Hf & _). apply Forall_app. split; [auto|by repeat constructor].
  - intros [Hl Hr]. apply Forall_app. auto.
  - intros [Hl Hr]. apply Forall_app. auto.
  - done.
Qed.

(** The bytes that become NUL are those at the ends of the tokens. *)
Lemma put_nuls_at n ts buf i : (i < length buf)%nat →
  put_nuls n buf ts !! i = if decide (Exists (λ t : token, i = (n - length t.2)%nat) ts) then Some 0 else buf !! i.
Proof.
  revert buf. induction ts as [|t ts IH]; intros buf Hi.
  - case_decide as H; [by apply Exists_nil in H|done].
  - change (put_nuls n (put_nul n buf t.2) ts !! i = if decide (Exists (λ t : token, i = (n - length t.2)%nat) (t :: ts)) then Some 0 else buf !! i).
    unfold put_nul in *. rewrite IH by (by rewrite length_insert).
    destruct (decide (Exists (λ t : token, i = (n - length t.2)%nat) (t :: ts))) as [H|H]; rewrite Exists_cons in H.
    + case_decide as H'; [done|]. destruct H as [->|H]; [|done]. by apply list_lookup_insert_eq.
    + case_decide as H'; [tauto|]. apply list_lookup_insert_ne. intros E. apply H. by left.
Qed.

Lemma put_nuls_length n ts buf : length (put_nuls n buf ts) = length buf.
Proof.
  revert buf. induction ts as [|t ts IH]; intros buf; [done|].
  change (length (put_nuls n (put_nul n buf t.2) ts) = length buf). rewrite IH. apply length_insert.
Qed.

(** No end of a word lies inside a word. *)
Lemma end_not_inside line t u w i : good_token line u → t.1 = w ++ t.2 →
  Forall (λ c, is_word c = true) w → t.1 `suffix_of` line → (i < length w)%nat →
  (length line - length t.1 + i ≠ length line - length u.2)%nat.
Proof.
  intros (wu & Hu & _ & _ & Hh & [ku Hku]) Ht Hw [kt Hkt] Hi E.
  assert (Hc : line !! (length line - length t.1 + i)%nat = w !! i).
  { assert (length line - length t.1 = length kt)%nat as -> by (rewrite Hkt, length_app; lia).
    rewrite Hkt at 1. rewrite lookup_app_r by lia. rewrite Nat.add_comm, Nat.add_sub, Ht. by rewrite lookup_app_l. }
  destruct (lookup_lt_is_Some_2 w i Hi) as [c Hwi]. rewrite Hwi in Hc.
  assert (Hcu : line !! (length line - length u.2)%nat = head u.2).
  { assert (line = (ku ++ wu) ++ u.2) as Hl by (by rewrite Hku, Hu, app_assoc).
    assert (length line - length u.2 = length (ku ++ wu))%nat as -> by (rewrite Hl, !length_app; lia).
    rewrite Hl, lookup_app_r, Nat.sub_diag by lia. by destruct u.2. }
  rewrite E, Hcu in Hc. apply (Forall_lookup_1 _ _ _ _ Hw) in Hwi. specialize (Hh c Hc). congruence.
Qed.

Lemma parse_wp line : wp (parse_line line) line (λ c s', s' = [] ∧ good_cmd line c).
Proof.
  apply wp_bind. eapply wp_impl; [apply (wp_parse_all line); [done|unfold parse_fuel; lia]|].
  intros c s1 [H1 Hc]. apply wp_bind. eapply wp_impl; [apply wp_peek|]. intros b s2 _.
  unfold wp. rewrite bind_ok with (a := s2) (s' := s2) by done. by destruct s2 as [|x s2].
Qed.

(** C37: the shell's parser ends on every line, with fuel for the grammar's
    recursion that depends on the length of the line alone: it either panics
    or consumes the whole line and builds a command whose tokens are words of
    the line, with at most nine arguments for each program. *)
Theorem parse_total line :
  (∃ c, parse line = Ok c [] ∧ good_cmd line c) ∨ ∃ msg, parse line = Panic msg.
Proof.
  pose proof (parse_wp line) as Hwp. unfold wp, parse in *.
  destruct (parse_line line line) as [c s|msg| | |]; try done.
  - left. exists c. by destruct Hwp as [-> Hc].
  - right. by exists msg.
Qed.

(** After [nulterminate] every argument and file name of the command is a
    NUL-terminated string in the buffer, namely the word the parser found: no
    NUL is written inside another word. *)
Theorem nulterminate_correct line c t : parse line = Ok c [] → t ∈ tokens c →
  ∃ w rest, t.1 = w ++ t.2 ∧ Forall (λ x, is_word x = true) w ∧
    drop (length line - length t.1) (nulterminate (length line) (line ++ [0]) c) = w ++ 0 :: rest.
Proof.
  intros Hp Ht. pose proof (parse_wp line) as Hwp. unfold wp in Hwp. unfold parse in Hp. rewrite Hp in Hwp.
  destruct Hwp as [_ Hg%good_tokens]. rewrite Forall_forall in Hg. rewrite nulterminate_tokens.
  set (n := length line). set (ts := tokens c) in *. set (b := put_nuls n (line ++ [0]) ts).
  destruct (Hg t Ht) as (w & Hw & Hne & Hword & _ & Hsuf). exists w, (drop (n - length t.2 + 1) b).
  split; [done|]. split; [done|].
  assert (Hlen : length t.1 = (length w + length t.2)%nat) by (by rewrite Hw, length_app).
  apply suffix_length in Hsuf as Hl. fold n in Hl.
  assert (Hb : length b = S n) by (unfold b; rewrite put_nuls_length, length_app; simpl; lia).
  apply list_eq. intros i. rewrite lookup_drop. destruct (decide (i < length w)%nat) as [Hi|Hi].
  - rewrite lookup_app_l by done. unfold b. rewrite put_nuls_at by (rewrite length_app; simpl; lia).
    rewrite decide_False.
    + rewrite lookup_app_l by lia. destruct Hsuf as [k Hk].
      assert (n - length t.1 = length k)%nat as -> by (unfold n; rewrite Hk, length_app; lia).
      rewrite Hk, lookup_app_r, Nat.add_comm, Nat.add_sub, Hw by lia. by rewrite lookup_app_l.
    + rewrite Exists_exists. intros (u & Hu & E). by apply (end_not_inside line t u w i (Hg u Hu)).
  - rewrite lookup_app_r by lia. destruct (i - length w)%nat as [|j] eqn:Ej; simpl.
    + unfold b. rewrite put_nuls_at by (rewrite length_app; simpl; lia). rewrite decide_True; [done|].
      apply Exists_exists. exists t. split; [done|]. lia.
    + rewrite lookup_drop. f_equal. lia.
Qed.

(** Two words and a redirection. *)
Definition line1 : list Z := str "wc f>g".
Definition tok1 (i j : nat) : token := (drop i line1, drop j line1).

Lemma nulterminate_correct_witness :
  ∃ rest, drop 3 (nulterminate 6 (line1 ++ [0]) (REDIR (EXEC [tok1 0 2; tok1 3 4]) (tok1 5 6) 0x201 1)) = str "f" ++ 0 :: rest.
Proof.
  destruct (nulterminate_correct line1 (REDIR (EXEC [tok1 0 2; tok1 3 4]) (tok1 5 6) 0x201 1) (tok1 3 4)) as (w & rest & Hw & _ & H).
  - vm_compute. reflexivity.
  - right. by left.
  - exists rest. assert (w = str "f") as ->; [|exact H].
    change (str "f" ++ (tok1 3 4).2 = w ++ (tok1 3 4).2) in Hw. by apply app_inv_tail in Hw.
Defined.

(** ** Commands as text *)

(** A command with its words instead of pointers. *)
Inductive tcmd : Type :=
| TExec (args : list (list Z))
| TRedir (c : tcmd) (file : list Z) (mode fd : Z)
| TPipe (l r : tcmd)
| TList (l r : tcmd)
| TBack (c : tcmd).

Definition token_text (t : token) : list Z := take (length t.1 - length t.2) t.1.

Fixpoint texts (c : cmd) : tcmd :=
  match c with
  | EXEC argv => TExec (token_text <$> argv)
  | REDIR c f mode fd => TRedir (texts c) (token_text f) mode fd
  | PIPE l r => TPipe (texts l) (texts r)
  | LIST l r => TList (texts l) (texts r)
  | BACK c => TBack (texts c)
  end.

Definition is_text (w : list Z) : Prop := w ≠ [] ∧ Forall (λ c, is_word c = true) w.

Fixpoint wf_tcmd (c : tcmd) : Prop :=
  match c with
  | TExec args => Z.of_nat (length args) < MAXARGS ∧ Forall is_text args
  | TRedir c f mode fd => wf_tcmd c ∧ is_text f ∧
      (mode = O_RDONLY ∧ fd = 0 ∨ mode = Z.lor O_WRONLY O_CREATE ∧ fd = 1)
  | TPipe l r | TList l r => wf_tcmd l ∧ wf_tcmd r
  | TBack c => wf_tcmd c
  end.

Fixpoint join (args : list (list Z)) : list Z :=
  match args with
  | [] => []
  | [a] => a
  | a :: args' => a ++ 32 :: join args'
  end.

(** A command as a line, with every operand in parentheses. *)
Definition paren (l : list Z) : list Z := LPAR :: l ++ [RPAR].
Fixpoint print (c : tcmd) : list Z :=
  match c with
  | TExec args => join args
  | TRedir c f _ fd => paren (print c) ++ (if fd =? 0 then LT else GT) :: f
  | TPipe l r => paren (print l) ++ PIPE_ :: paren (print r)
  | TList l r => paren (print l) ++ SEMI :: paren (print r)
  | TBack c => paren (print c) ++ [AMP]
  end.

(** ** Single steps of the parser *)

Lemma skip_ws_cons c s : is_ws c = false → skip_ws (c :: s) = c :: s.
Proof. intros H. simpl. by rewrite H. Qed.

Lemma peek_cons toks c s : is_ws c = false → peek toks (c :: s) = Ok (in_set toks c) (c :: s).
Proof. intros H. unfold peek. rewrite bind_ok with (a := c :: s) (s' := c :: s) by done. by rewrite skip_ws_cons. Qed.

Lemma gettoken_sym c s : is_ws c = false → in_set (str "|();&<") c = true →
  ∃ t, gettoken (c :: s) = Ok (c, t) (skip_ws s).
Proof.
  intros H1 H2. unfold gettoken. rewrite bind_ok with (a := c :: s) (s' := c :: s) by done.
  rewrite skip_ws_cons by done. rewrite H2. by eexists.
Qed.

Lemma gettoken_gt s : head s ≠ Some GT → ∃ t, gettoken (GT :: s) = Ok (GT, t) (skip_ws s).
Proof.
  intros H. unfold gettoken. rewrite bind_ok with (a := GT :: s) (s' := GT :: s) by done.
  rewrite skip_ws_cons by done. destruct s as [|d s]; [by eexists|].
  simpl. destruct (Z.eqb_spec d GT) as [->|]; [done|]. by eexists.
Qed.

(** The text after a word. *)
Definition ends_word (s : list Z) : Prop := ∀ c, head s = Some c → is_word c = false.

Lemma skip_word_app w s : Forall (λ c, is_word c = true) w → ends_word s → skip_word (w ++ s) = s.
Proof.
  intros Hw Hs. induction Hw as [|c w Hc Hw IH]; simpl; [|by rewrite Hc].
  destruct s as [|d s]; [done|]. simpl. by rewrite (Hs d).
Qed.

Lemma word_char c : is_word c = true → is_ws c = false ∧ is_sym c = false.
Proof. unfold is_word. destruct (is_ws c), (is_sym c); done. Qed.

(** The sets of characters the parser looks for are symbols. *)
Lemma not_sym_in set c : Forall (.∈ symbols) set → no_nul set → is_sym c = false → in_set set c = false.
Proof.
  intros Hs Hn Hc. rewrite in_set_ok by done. apply bool_decide_eq_false. intros Hin.
  rewrite Forall_forall in Hs. specialize (Hs c Hin). unfold is_sym in Hc.
  rewrite in_set_ok, bool_decide_eq_false in Hc by (by repeat constructor). done.
Qed.

Lemma gettoken_word w s : is_text w → ends_word s →
  gettoken (w ++ s) = Ok (WORD, (w ++ s, s)) (skip_ws s).
Proof.
  intros [Hne Hw] Hs. destruct w as [|c w]; [done|]. pose proof Hw as Hw'. apply Forall_cons in Hw' as [Hc _].
  destruct (word_char c Hc) as [H1 H2]. unfold gettoken.
  rewrite bind_ok with (a := (c :: w) ++ s) (s' := (c :: w) ++ s) by done. cbn [app]. rewrite skip_ws_cons by done.
  rewrite (not_sym_in (str "|();&<") c); [|by repeat (constructor; [apply (bool_decide_unpack _); by vm_compute|])|by repeat constructor|done].
  destruct (Z.eqb_spec c GT) as [->|_]; [by vm_compute in H2|].
  change (c :: w ++ s) with ((c :: w) ++ s). by rewrite skip_word_app.
Qed.

Lemma token_text_word w s : token_text (w ++ s, s) = w.
Proof. unfold token_text. simpl. rewrite length_app, Nat.add_sub. apply take_app_length. Qed.

(** ** Reading a printed command back *)

(** What can follow a printed command: the end, or a closing parenthesis. *)
Definition stops (s : list Z) : Prop := s = [] ∨ ∃ s', s = RPAR :: s'.

Lemma stops_peek toks s : stops s → in_set toks RPAR = false → peek toks s = Ok false s.
Proof. intros [->|[s' ->]] H; [done|]. rewrite peek_cons by done. by rewrite H. Qed.

Lemma stops_skip s : stops s → skip_ws s = s.
Proof. by intros [->|[s' ->]]. Qed.

Lemma stops_word s : stops s → ends_word s.
Proof. intros [->|[s' ->]] c; simpl; [done|]. by intros [= <-]. Qed.

(** The sets the parser looks for where a word may start. *)
Lemma peek_word set w s : Forall (.∈ symbols) set → no_nul set → is_text w → peek set (w ++ s) = Ok false (w ++ s).
Proof.
  intros H1 H2 [Hne Hw]. destruct w as [|c w]; [done|]. apply Forall_cons in Hw as [Hc _].
  destruct (word_char c Hc) as [H3 H4]. cbn [app]. rewrite peek_cons by done. by rewrite (not_sym_in set c).
Qed.

Ltac in_symbols := first [by repeat (constructor; [apply (bool_decide_unpack _); by vm_compute|]) | by repeat constructor].

Lemma join_cons a args : join (a :: args) = a ++ match args with [] => [] | _ => 32 :: join args end.
Proof. destruct args; simpl; [by rewrite app_nil_r|done]. Qed.

(** No redirection starts at a word or at the end of a command. *)
Lemma parseredirs_none f s : peek (str "<>") s = Ok false s → parseredirs (S f) s = Ok [] s.
Proof. intros H. cbn [parseredirs]. by mstep H. Qed.

Lemma join_peek set args s : Forall (.∈ symbols) set → no_nul set → Forall is_text args →
  stops s → in_set set RPAR = false → peek set (join args ++ s) = Ok false (join args ++ s).
Proof.
  intros H1 H2 Ha Hs H3. destruct Ha as [|a args Ha Has]; [by apply stops_peek|].
  rewrite join_cons, <- app_assoc. by apply peek_word.
Qed.

(** What follows a word of an argument list is skipped up to the next word. *)
Lemma join_next args s : Forall is_text args → stops s →
  let r := match args with [] => [] | _ => 32 :: join args end ++ s in
  ends_word r ∧ skip_ws r = join args ++ s.
Proof.
  intros Ha Hs. destruct Ha as [|a args Ha Has]; cbn zeta.
  { split; [by apply stops_word|by apply stops_skip]. }
  split; [by intros c [= <-]|]. cbn [app]. change (skip_ws (join (a :: args) ++ s) = join (a :: args) ++ s).
  rewrite join_cons, <- app_assoc. destruct Ha as [Hne Hw]. destruct a as [|c a]; [done|].
  apply Forall_cons in Hw as [Hc _]. cbn [app]. apply skip_ws_cons. by apply word_char.
Qed.

Lemma exec_back args : ∀ f argc s, Forall is_text args → stops s → (length args < f)%nat →
  argc + Z.of_nat (length args) < MAXARGS →
  ∃ ts, parseexec_loop f argc (join args ++ s) = Ok (ts, []) s ∧ token_text <$> ts = args.
Proof.
  induction args as [|a args IH]; intros f argc s Ha Hs Hf Hn; (destruct f as [|f]; [simpl in Hf; lia|]); cbn [parseexec_loop].
  { exists []. split; [|done]. cbn [join app]. destruct Hs as [->|[s' ->]]; [done|]. by mstep (peek_cons (str "|)&;") RPAR s' eq_refl). }
  apply Forall_cons in Ha as [Ha Has]. simpl in Hf, Hn. destruct f as [|f]; [lia|].
  rewrite join_cons, <- app_assoc. destruct (join_next args s Has Hs) as [Hr1 Hr2].
  set (r := _ ++ s) in *.
  assert (Hp : peek (str "|)&;") (a ++ r) = Ok false (a ++ r)) by (apply peek_word; [in_symbols|in_symbols|done]).
  mstep Hp. mstep (gettoken_word a r Ha Hr1). cbn beta iota. change (WORD =? 0) with false. change (WORD =? WORD) with true.
  cbn [negb]. cbv zeta. rewrite (proj2 (Z.leb_gt MAXARGS (argc + 1))) by lia. rewrite Hr2.
  assert (Hq : parseredirs (S f) (join args ++ s) = Ok [] (join args ++ s)).
  { apply parseredirs_none, join_peek; try done; in_symbols. }
  mstep Hq. destruct (IH (S f) (argc + 1) s Has Hs) as (ts & Hts & Htx); [lia|lia|].
  mstep Hts. cbn beta iota. eexists. split; [done|]. rewrite fmap_cons, token_text_word. by f_equal.
Qed.

Lemma print_skip c s : wf_tcmd c → stops s → skip_ws (print c ++ s) = print c ++ s.
Proof.
  destruct c as [args|c f m d|l r|l r|c]; try done. intros [_ Ha] Hs. cbn [print].
  destruct Ha as [|a args Ha Has]; [by apply stops_skip|]. rewrite join_cons, <- app_assoc.
  destruct Ha as [Hne Hw]. destruct a as [|x a]; [done|]. apply Forall_cons in Hw as [Hx _].
  cbn [app]. apply skip_ws_cons. by apply word_char.
Qed.

(** With [n] rounds [parseline] reads [print c] back, up to what follows. *)
Definition reads (c : tcmd) (n : nat) : Prop :=
  ∀ f s, stops s → (n ≤ f)%nat → ∃ c', parseline f (print c ++ s) = Ok c' s ∧ texts c' = c.

(** A parenthesised command is read as the command, and its redirections. *)
Lemma block_back c n : wf_tcmd c → reads c n → ∀ f s, (n + 2 ≤ f)%nat →
  ∃ c', texts c' = c ∧
    parseexec f (paren (print c) ++ s) = (rs ← parseredirs (f - 2); mret (foldl redir c' rs)) (skip_ws s).
Proof.
  intros Hwf Hc f s Hf. destruct f as [|[|f]]; [lia|lia|]. replace (S (S f) - 2)%nat with f by lia.
  unfold paren. rewrite <- app_comm_cons, <- app_assoc. cbn [app].
  destruct (Hc f (RPAR :: s)) as (c' & Hp & Ht); [right; by eexists|lia|].
  exists c'. split; [done|]. cbn [parseexec parseblock].
  do 2 (rewrite (bind_ok _ _ _ _ _ (peek_cons (str "(") LPAR _ eq_refl)); change (in_set (str "(") LPAR) with true; cbn beta iota; cbn [negb]).
  destruct (gettoken_sym LPAR (print c ++ RPAR :: s) eq_refl eq_refl) as [t1 Hg]. mstep Hg.
  assert (Hskip : parseline f (skip_ws (print c ++ RPAR :: s)) = Ok c' (RPAR :: s))
    by (rewrite print_skip; [done|done|right; by eexists]).
  mstep Hskip. mstep (peek_cons (str ")") RPAR s eq_refl). change (in_set (str ")") RPAR) with true. cbn [negb].
  destruct (gettoken_sym RPAR s eq_refl eq_refl) as [t2 Hg2]. by mstep Hg2.
Qed.

Lemma operand_back c n f s : wf_tcmd c → reads c n → (n + 3 ≤ f)%nat → peek (str "<>") s = Ok false s →
  ∃ c', texts c' = c ∧ parseexec f (paren (print c) ++ s) = Ok c' s.
Proof.
  intros Hwf Hc Hf Hs. destruct (block_back c n Hwf Hc f s) as (c' & Ht & Hp); [lia|]. exists c'. split; [done|].
  assert (skip_ws s = s) as Hw by (injection Hs as _ H; exact H).
  rewrite Hp, Hw. destruct f as [|[|[|f]]]; try lia. cbn [Nat.sub].
  by mstep (parseredirs_none f s Hs).
Qed.

(** Rounds that are enough for the printed command. *)
Fixpoint rounds (c : tcmd) : nat :=
  match c with
  | TExec args => length args + 5
  | TRedir c _ _ _ | TBack c => rounds c + 6
  | TPipe l r | TList l r => rounds l + rounds r + 7
  end.

(** A command without operators at its end is the whole pipe, and the line. *)
Lemma pipe_end f c s s0 : stops s → parseexec f s0 = Ok c s → parsepipe (S f) s0 = Ok c s.
Proof. intros Hs H. cbn [parsepipe]. mstep H. by mstep (stops_peek (str "|") s Hs eq_refl). Qed.

Lemma line_end f c s s0 : stops s → (1 ≤ f)%nat → parsepipe f s0 = Ok c s → parseline (S f) s0 = Ok c s.
Proof.
  intros Hs Hf H. destruct f as [|f]; [lia|]. cbn [parseline]. mstep H.
  assert (Hb : parseline_backs (S f) c s = Ok c s).
  { cbn [parseline_backs]. by mstep (stops_peek (str "&") s Hs eq_refl). }
  mstep Hb. by mstep (stops_peek (str ";") s Hs eq_refl).
Qed.

Lemma exec_reads args : wf_tcmd (TExec args) → reads (TExec args) (length args + 5).
Proof.
  intros [Hn Ha] f s Hs Hf. destruct f as [|[|[|[|f]]]]; try lia. cbn [print].
  destruct (exec_back args (S f) 0 s Ha Hs) as (ts & Hl & Ht); [lia|lia|].
  exists (EXEC ts). split; [|simpl; by f_equal]. apply line_end; [done|lia|]. apply pipe_end; [done|].
  cbn [parseexec].
  assert (Hp : peek (str "(") (join args ++ s) = Ok false (join args ++ s)) by (apply join_peek; try done; in_symbols).
  mstep Hp.
  assert (Hr : parseredirs (S f) (join args ++ s) = Ok [] (join args ++ s)) by (apply parseredirs_none, join_peek; try done; in_symbols).
  mstep Hr. by mstep Hl.
Qed.

Lemma redir_reads c n file mode fd : wf_tcmd (TRedir c file mode fd) → reads c n → reads (TRedir c file mode fd) (n + 6).
Proof.
  intros (Hwf & Hfile & Hm) Hc f s Hs Hf. destruct f as [|[|f]]; try lia. cbn [print].
  rewrite <- app_assoc. cbn [app]. set (op := if fd =? 0 then LT else GT).
  destruct (block_back c n Hwf Hc f (op :: file ++ s)) as (c' & Ht & Hp); [lia|].
  destruct (f - 2)%nat as [|[|g]] eqn:Eg; try lia.
  exists (REDIR c' (file ++ s, s) mode fd). split; [|simpl; by rewrite token_text_word, Ht].
  apply line_end; [done|lia|]. apply pipe_end; [done|]. rewrite Hp.
  assert (Hws : is_ws op = false) by (unfold op; by destruct (fd =? 0)).
  rewrite skip_ws_cons by done.
  assert (Hr : parseredirs (S (S g)) (op :: file ++ s) = Ok [(file ++ s, s, mode, fd)] s); [|by mstep Hr].
  cbn [parseredirs]. mstep (peek_cons (str "<>") op (file ++ s) Hws).
  assert (Hin : in_set (str "<>") op = true) by (unfold op; by destruct (fd =? 0)). rewrite Hin. cbn [negb].
  assert (Hg : ∃ t, gettoken (op :: file ++ s) = Ok (op, t) (file ++ s)).
  { assert (Hsk : skip_ws (file ++ s) = file ++ s ∧ head (file ++ s) ≠ Some GT).
    { destruct Hfile as [Hne Hw]. destruct file as [|x file]; [done|]. apply Forall_cons in Hw as [Hx _].
      destruct (word_char x Hx) as [H1 H2]. split; [by apply skip_ws_cons|]. intros [= ->]. by vm_compute in H2. }
    destruct Hsk as [Hsk Hgt]. unfold op.
    destruct (fd =? 0); [destruct (gettoken_sym LT (file ++ s)) as [t Hg]; try done|destruct (gettoken_gt (file ++ s) Hgt) as [t Hg]];
      rewrite Hsk in Hg; by exists t. }
  destruct Hg as [t Hg]. mstep Hg. mstep (gettoken_word file s Hfile (stops_word s Hs)). cbn beta iota.
  rewrite (stops_skip s Hs).
  assert (Hn : peek (str "<>") s = Ok false s) by (by apply stops_peek).
  change (WORD =? WORD) with true. cbn [negb]. cbv zeta. fold parseredirs.
  rewrite (bind_ok _ _ _ _ _ (parseredirs_none g s Hn)). unfold op.
  by destruct Hm as [[-> ->]|[-> ->]].
Qed.

(** The operators: after the left operand [op] is read, then the right one. *)
Lemma pipe_reads l r n m : wf_tcmd (TPipe l r) → reads l n → reads r m → reads (TPipe l r) (n + m + 7).
Proof.
  intros [Hl Hr] Rl Rr f s Hs Hf. destruct f as [|[|[|f]]]; try lia. cbn [print]. rewrite <- app_assoc. cbn [app].
  destruct (operand_back l n (S f) (PIPE_ :: paren (print r) ++ s) Hl Rl) as (l' & Tl & Pl); [lia|done|].
  destruct (operand_back r m f s Hr Rr) as (r' & Tr & Pr); [lia|by apply stops_peek|].
  exists (PIPE l' r'). split; [|simpl; by rewrite Tl, Tr]. apply line_end; [done|lia|].
  cbn [parsepipe]. fold parseexec. rewrite (bind_ok _ _ _ _ _ Pl). mstep (peek_cons (str "|") PIPE_ (paren (print r) ++ s) eq_refl).
  change (in_set (str "|") PIPE_) with true. cbn beta iota.
  destruct (gettoken_sym PIPE_ (paren (print r) ++ s) eq_refl eq_refl) as [t Hg]. mstep Hg.
  pose proof (pipe_end f r' s (paren (print r) ++ s) Hs Pr) as Pp. cbn [parsepipe] in Pp. fold parseexec in Pp.
  by rewrite (bind_ok _ _ _ _ _ Pp).
Qed.

(** An operand followed by an operator of [parseline]. *)
Lemma operand_pipe c n f op s : wf_tcmd c → reads c n → (n + 4 ≤ f)%nat → is_ws op = false →
  in_set (str "<>") op = false → in_set (str "|") op = false →
  ∃ c', texts c' = c ∧ parsepipe f (paren (print c) ++ op :: s) = Ok c' (op :: s).
Proof.
  intros Hc Rc Hf H1 H2 H3. destruct f as [|f]; [lia|].
  destruct (operand_back c n f (op :: s) Hc Rc) as (c' & Tc & Pc); [lia|by rewrite peek_cons, H2|].
  exists c'. split; [done|]. cbn [parsepipe]. mstep Pc. mstep (peek_cons (str "|") op s H1). by rewrite H3.
Qed.

Lemma list_reads l r n m : wf_tcmd (TList l r) → reads l n → reads r m → reads (TList l r) (n + m + 7).
Proof.
  intros [Hl Hr] Rl Rr f s Hs Hf. destruct f as [|[|[|f]]]; try lia. cbn [print]. rewrite <- app_assoc. cbn [app].
  destruct (operand_pipe l n (S (S f)) SEMI (paren (print r) ++ s) Hl Rl) as (l' & Tl & Pl); [lia|done..|].
  destruct (operand_back r m f s Hr Rr) as (r' & Tr & Pr); [lia|by apply stops_peek|].
  assert (Lr : parseline (S (S f)) (paren (print r) ++ s) = Ok r' s).
  { apply line_end; [done|lia|]. by apply pipe_end. }
  exists (LIST l' r'). split; [|simpl; by rewrite Tl, Tr].
  assert (Hb : parseline_backs (S (S f)) l' (SEMI :: paren (print r) ++ s) = Ok l' (SEMI :: paren (print r) ++ s)) by done.
  change (parseline (S (S (S f)))) with (c ← parsepipe (S (S f)); c ← parseline_backs (S (S f)) c;
    b ← peek (str ";"); if (b : bool) then gettoken;; r ← parseline (S (S f)); mret (LIST c r) else mret c).
  mstep Pl. mstep Hb. mstep (peek_cons (str ";") SEMI (paren (print r) ++ s) eq_refl).
  change (in_set (str ";") SEMI) with true. cbn beta iota.
  destruct (gettoken_sym SEMI (paren (print r) ++ s) eq_refl eq_refl) as [t Hg]. mstep Hg. by mstep Lr.
Qed.

Lemma back_reads c n : wf_tcmd (TBack c) → reads c n → reads (TBack c) (n + 6).
Proof.
  intros Hc Rc f s Hs Hf. destruct f as [|[|[|f]]]; try lia. cbn [print]. rewrite <- app_assoc. cbn [app].
  destruct (operand_pipe c n (S (S f)) AMP s Hc Rc) as (c' & Tc & Pc); [lia|done..|].
  exists (BACK c'). split; [|simpl; by rewrite Tc].
  assert (Hb : parseline_backs (S (S f)) c' (AMP :: s) = Ok (BACK c') s).
  { cbn [parseline_backs]. mstep (peek_cons (str "&") AMP s eq_refl). change (in_set (str "&") AMP) with true. cbn beta iota.
    destruct (gettoken_sym AMP s eq_refl eq_refl) as [t Hg]. mstep Hg. rewrite (stops_skip s Hs).
    by mstep (stops_peek (str "&") s Hs eq_refl). }
  change (parseline (S (S (S f)))) with (c ← parsepipe (S (S f)); c ← parseline_backs (S (S f)) c;
    b ← peek (str ";"); if (b : bool) then gettoken;; r ← parseline (S (S f)); mret (LIST c r) else mret c).
  mstep Pc. mstep Hb. by mstep (stops_peek (str ";") s Hs eq_refl).
Qed.

Lemma print_reads c : wf_tcmd c → reads c (rounds c).
Proof.
  induction c as [args|c IH f m d|l IHl r IHr|l IHl r IHr|c IH]; intros Hwf.
  - by apply exec_reads.
  - apply redir_reads; [done|]. by apply IH, Hwf.
  - destruct Hwf as [Hl Hr]. apply pipe_reads; [by split|by apply IHl|by apply IHr].
  - destruct Hwf as [Hl Hr]. apply list_reads; [by split|by apply IHl|by apply IHr].
  - apply back_reads; [done|]. by apply IH.
Qed.

Lemma join_length args : Forall is_text args → (length args ≤ length (join args))%nat.
Proof.
  induction 1 as [|a args [Hne _] Ha IH]; [simpl; lia|]. rewrite join_cons, length_app.
  destruct a as [|x a]; [done|]. destruct args; simpl in *; lia.
Qed.

Lemma paren_length l : length (paren l) = (length l + 2)%nat.
Proof. unfold paren. simpl. rewrite length_app. simpl. lia. Qed.

Lemma rounds_fuel c : wf_tcmd c → (rounds c ≤ parse_fuel (print c))%nat.
Proof.
  unfold parse_fuel. induction c as [args|c IH f m d|l IHl r IHr|l IHl r IHr|c IH]; cbn [wf_tcmd print rounds].
  - intros [_ Ha]. apply join_length in Ha. lia.
  - intros (Hc & _). rewrite length_app, paren_length. specialize (IH Hc). simpl. lia.
  - intros [Hl Hr]. rewrite length_app, paren_length. simpl. specialize (IHl Hl). specialize (IHr Hr). rewrite length_app. simpl. lia.
  - intros [Hl Hr]. rewrite length_app, paren_length. simpl. specialize (IHl Hl). specialize (IHr Hr). rewrite length_app. simpl. lia.
  - intros Hc. rewrite length_app, paren_length. specialize (IH Hc). simpl. lia.
Qed.

(** C32: Every command the grammar has, printed with its operands in
    parentheses, is read back by the parser as the same command: the same
    tree, the same words, the same files, modes and descriptors, with nothing
    of the line left over. *)
Theorem parse_print c : wf_tcmd c → ∃ c', parse (print c) = Ok c' [] ∧ texts c' = c.
Proof.
  intros Hwf. destruct (print_reads c Hwf (parse_fuel (print c)) []) as (c' & Hp & Ht); [by left|by apply rounds_fuel|].
  rewrite app_nil_r in Hp. exists c'. split; [|done]. unfold parse, parse_line. by mstep Hp.
Qed.

Lemma parse_print_witness :
  let c := TList (TBack (TPipe (TExec [str "ls"; str "-l"]) (TRedir (TExec [str "wc"]) (str "out") 0x201 1))) (TExec []) in
  ∃ c', parse (print c) = Ok c' [] ∧ texts c' = c.
Proof.
  cbv zeta. apply parse_print. cbn [wf_tcmd]. split_and!; try (by vm_compute); try (by right; vm_compute);
    repeat (constructor; [split; [done|repeat (constructor; [by vm_compute|]); by constructor]|]); try by constructor.
  split; [done|]. repeat (constructor; [by vm_compute|]). by constructor.
Defined.
