(* ===== verification/Forks.v ===== *)
(** * Programs that fork: processes of user programs in every interleaving

    A program is the tree of the system calls it makes: [Sys c k] makes the call
    [c] and goes on with what the call returns, [Fork k] goes on as [k 0] in the
    child and as [k] of the child's number in the parent, as fork does.  Loops
    without a bound are cut off by fuel ([Cut]).

    The processes of a program run in any order: [step] is one system call of
    one of them.  Each process has a name of its own, the list of the numbers
    of the forks that led to it, and so has each pipe; the number that fork and
    wait return is any positive number that no other process has.  open, pipe,
    fork and exec can fail at any time.  A program that has been started with
    exec is not followed any further; it may end at any time.  A read or a write is not made to
    wait for the other end of a pipe: the worlds that can be reached are at least those
    of the real system, so what holds in all of them holds there, and no theorem says that
    processes do not wait for each other.  A process keeps what its reads have returned, and
    its children start with the same.  [can] is for runs in which no call fails. *)

From S2P Require Import Prelude Params Usys.

(** ** System calls *)

Inductive sysc : Type :=
| SOpen (path : list Z) (mode : Z)
| SClose (fd : Z)
| SDup (fd : Z)
| SPipe
| SExec (path : list Z) (argv : list (list Z))
| SWrite (fd : Z) (bs : list Z)
| SRead (fd n : Z)
| SChdir (path : list Z)
| SMknod (path : list Z) (major minor : Z)
| SSleep (n : Z)
| SWait.
#[global] Instance sysc_eq_dec : EqDecision sysc.
Proof. solve_decision. Defined.

(** What a call returns, and the bytes or descriptors it stores. *)
Notation reply := (Z * list Z)%type.

Inductive prog (A : Type) : Type :=
| Done (a : A)
| Stop                                  (* exit() *)
| Cut                                   (* out of fuel *)
| Sys (c : sysc) (k : Z * list Z → prog A)
| Fork (k : Z → prog A).
Arguments Done {A} a.
Arguments Stop {A}.
Arguments Cut {A}.
Arguments Sys {A} c k.
Arguments Fork {A} k.

#[global] Instance prog_ret : MRet prog := λ A a, Done a.
#[global] Instance prog_bind : MBind prog := λ A B f,
  fix go m := match m with
  | Done a => f a
  | Stop => Stop
  | Cut => Cut
  | Sys c k => Sys c (λ r, go (k r))
  | Fork k => Fork (λ n, go (k n))
  end.

Definition sys (c : sysc) : prog reply := Sys c Done.
(** A call of which only the result is used. *)
Definition syz (c : sysc) : prog Z := Sys c (λ r, Done r.1).
Definition sfork : prog Z := Fork Done.

(** ** Processes *)

(** The name of a process: the numbers of the forks, the last one first. *)
Notation name := (list nat).

Inductive endp : Type :=
| Console
| OnPath (path : list Z) (mode : Z)
| PR (p : name * nat)
| PW (p : name * nat).
#[global] Instance endp_eq_dec : EqDecision endp.
Proof. solve_decision. Defined.

Notation table := (gmap Z endp).

(** The lowest free descriptor, below NOFILE. *)
Fixpoint low (n : nat) (from : Z) (F : table) : option Z :=
  match n with
  | O => None
  | S n' => match F !! from with None => Some from | Some _ => low n' (from + 1) F end
  end.
Definition lowest_fd (F : table) : option Z := low (Z.to_nat NOFILE) 0 F.

Inductive pstat : Type :=
| Code (t : prog unit)
| Runs (path : list Z) (argv : list (list Z))
| Zombie
| Gone.

Record pinfo : Type := mkp {
  p_stat : pstat;
  p_fds : table;
  p_forks : nat;                        (* how many children it has had *)
  p_pipes : nat;                        (* how many pipes it has made *)
  p_pid : Z;
  p_heard : list (list Z) }.            (* what its reads have returned *)

Definition set_stat (x : pstat) (p : pinfo) : pinfo := mkp x (p_fds p) (p_forks p) (p_pipes p) (p_pid p) (p_heard p).

Notation world := (gmap (list nat) pinfo).

(** The reads of a process and of those it comes from, with the call [c] that
    has returned [r]. *)
Definition hear (c : sysc) (r : reply) (h : list (list Z)) : list (list Z) :=
  match c with SRead _ _ => h ++ [r.2] | _ => h end.

Definition live (p : pinfo) : bool := match p_stat p with Code _ | Runs _ _ => true | _ => false end.

(** What a call other than exec and wait can do in process [π]: the reply and the
    new descriptors.  A read returns any bytes, and a call may return at once where the
    kernel would let the process wait. *)
Inductive local (π : name) : sysc → table → nat → reply → table → nat → Prop :=
| l_open F j path mode fd : lowest_fd F = Some fd → local π (SOpen path mode) F j (fd, []) (<[fd := OnPath path mode]> F) j
| l_open_fail F j path mode : local π (SOpen path mode) F j (-1, []) F j
| l_close F j fd e : F !! fd = Some e → local π (SClose fd) F j (0, []) (delete fd F) j
| l_close_bad F j fd : F !! fd = None → local π (SClose fd) F j (-1, []) F j
| l_dup F j fd e n : F !! fd = Some e → lowest_fd F = Some n → local π (SDup fd) F j (n, []) (<[n := e]> F) j
| l_dup_bad F j fd : F !! fd = None ∨ lowest_fd F = None → local π (SDup fd) F j (-1, []) F j
| l_pipe F j r w : lowest_fd F = Some r → lowest_fd (<[r := PR (π, j)]> F) = Some w →
    local π SPipe F j (0, [r; w]) (<[w := PW (π, j)]> (<[r := PR (π, j)]> F)) (S j)
| l_pipe_fail F j : local π SPipe F j (-1, []) F j
| l_exec_fail F j path argv : local π (SExec path argv) F j (-1, []) F j
| l_write F j fd bs : local π (SWrite fd bs) F j (Z.of_nat (length bs), []) F j
| l_write_fail F j fd bs : local π (SWrite fd bs) F j (-1, []) F j
| l_read F j fd n bs : Z.of_nat (length bs) ≤ n → local π (SRead fd n) F j (Z.of_nat (length bs), bs) F j
| l_read_fail F j fd n : local π (SRead fd n) F j (-1, []) F j
| l_chdir F j path r : r = 0 ∨ r = -1 → local π (SChdir path) F j (r, []) F j
| l_mknod F j path ma mi r : r = 0 ∨ r = -1 → local π (SMknod path ma mi) F j (r, []) F j
| l_sleep F j n : local π (SSleep n) F j (0, []) F j.

(** Process [q] is a child of [π] that its parent has not waited for. *)
Definition child_of (w : world) (π q : name) (p : pinfo) : Prop :=
  (∃ i, q = i :: π) ∧ w !! q = Some p ∧ p_stat p ≠ Gone.

Inductive step (w : world) : world → Prop :=
| st_sys π p c k r F j : w !! π = Some p → p_stat p = Code (Sys c k) → local π c (p_fds p) (p_pipes p) r F j →
    step w (<[π := mkp (Code (k r)) F (p_forks p) j (p_pid p) (hear c r (p_heard p))]> w)
| st_exec π p path argv k : w !! π = Some p → p_stat p = Code (Sys (SExec path argv) k) →
    step w (<[π := set_stat (Runs path argv) p]> w)
| st_fork π p k pid : w !! π = Some p → p_stat p = Code (Fork k) → 0 < pid →
    (∀ q pq, w !! q = Some pq → p_stat pq ≠ Gone → p_pid pq ≠ pid) →
    step w (<[p_forks p :: π := mkp (Code (k 0)) (p_fds p) 0 0 pid (p_heard p)]>
           (<[π := mkp (Code (k pid)) (p_fds p) (S (p_forks p)) (p_pipes p) (p_pid p) (p_heard p)]> w))
| st_fork_fail π p k : w !! π = Some p → p_stat p = Code (Fork k) → step w (<[π := set_stat (Code (k (-1))) p]> w)
| st_wait π p k q pq : w !! π = Some p → p_stat p = Code (Sys SWait k) → child_of w π q pq → p_stat pq = Zombie →
    step w (<[π := set_stat (Code (k (p_pid pq, []))) p]> (<[q := set_stat Gone pq]> w))
| st_wait_none π p k : w !! π = Some p → p_stat p = Code (Sys SWait k) → (∀ q pq, ¬ child_of w π q pq) →
    step w (<[π := set_stat (Code (k (-1, []))) p]> w)
| st_exit π p : w !! π = Some p → p_stat p = Code Stop ∨ (∃ path argv, p_stat p = Runs path argv) →
    step w (<[π := mkp Zombie ∅ (p_forks p) (p_pipes p) (p_pid p) (p_heard p)]> w).

(** The worlds that a program can reach when process [π] starts it. *)
Definition start (π : name) (t : prog unit) (F : table) : world := {[ π := mkp (Code t) F 0 0 1 [] ]}.
Definition reach (π : name) (t : prog unit) (F : table) : world → Prop := rtc step (start π t F).

(** An invariant of the steps holds in every world reached. *)
Lemma reach_ind (P : world → Prop) π t F : P (start π t F) → (∀ w w', reach π t F w → step w w' → P w → P w') → ∀ w, reach π t F w → P w.
Proof. intros H0 Hs. by apply rtc_ind_r. Qed.

(** ** A logic for what the processes of a program do

    [wp t π n j h F Q R]: run by process [π], which has made [n] children and [j]
    pipes, has read [h] and has the descriptors [F], the program makes calls that satisfy [Q],
    in this process and in those it makes, and [R] holds of what each
    of them returns, and where. *)

Notation post A := (A → list nat → nat → nat → list (list Z) → gmap Z endp → Prop).
Notation event := (list nat * sysc * gmap Z endp)%type.

Fixpoint wp {A} (t : prog A) (π : name) (n j : nat) (h : list (list Z)) (F : table) (Q : event → list (list Z) → Prop) (R : post A) : Prop :=
  match t with
  | Done a => R a π n j h F
  | Stop | Cut => True
  | Sys c k =>
      Q (π, c, F) h ∧
      (∀ r F' j', local π c F j r F' j' → wp (k r) π n j' (hear c r h) F' Q R) ∧
      (c = SWait → ∀ pid, wp (k (pid, [])) π n j h F Q R)
  | Fork k =>
      wp (k 0) (n :: π) 0 0 h F Q R ∧
      (∀ pid, 0 < pid → wp (k pid) π (S n) j h F Q R) ∧
      wp (k (-1)) π n j h F Q R
  end.

(** It returns nowhere; what it returns does not matter. *)
Definition nowhere {A} : post A := λ _ _ _ _ _ _, False.
Definition anywhere {A} : post A := λ _ _ _ _ _ _, True.

Section logic.
Implicit Types (π : name) (h : list (list Z)) (F : table) (Q : event → list (list Z) → Prop).

Lemma wp_mono {A} (t : prog A) π n j h F Q Q' (R R' : post A) :
  wp t π n j h F Q R → (∀ x h, Q x h → Q' x h) → (∀ a π n j h F, R a π n j h F → R' a π n j h F) → wp t π n j h F Q' R'.
Proof.
  intros H HQ HR. revert π n j h F H. induction t as [a| | |c k IH|k IH]; simpl; intros π n j h F; try done; [auto|naive_solver..].
Qed.

Lemma wp_seq {A B} (t : prog A) (f : A → prog B) π n j h F Q R :
  wp t π n j h F Q (λ a π n j h F, wp (f a) π n j h F Q R) → wp (t ≫= f) π n j h F Q R.
Proof.
  revert π n j h F. induction t as [a| | |c k IH|k IH]; simpl; intros π n j h F; try done.
  - intros (H1 & H2 & H3). split_and!; [done|intros r F' j' Hl; by apply IH, H2|intros Hc pid; by apply IH, H3].
  - intros (H1 & H2 & H3). split_and!; [by apply IH|intros pid Hp; by apply IH, H2|by apply IH].
Qed.

(** A program that does not return, and what would come after it. *)
Lemma wp_bind_nowhere {A B} (t : prog A) (f : A → prog B) π n j h F Q R : wp t π n j h F Q nowhere → wp (t ≫= f) π n j h F Q R.
Proof. intros H. apply wp_seq. by eapply wp_mono; [exact H| |]. Qed.

Lemma wp_sys c π n j h F Q R : c ≠ SWait → Q (π, c, F) h → (∀ r F' j', local π c F j r F' j' → R r π n j' (hear c r h) F') → wp (sys c) π n j h F Q R.
Proof. intros Hc HQ HR. split_and!; [done|exact HR|done]. Qed.

Lemma wp_syz c π n j h F Q (R : post Z) : c ≠ SWait → Q (π, c, F) h → (∀ r F' j', local π c F j r F' j' → R r.1 π n j' (hear c r h) F') →
  wp (syz c) π n j h F Q R.
Proof. intros Hc HQ HR. split_and!; [done|exact HR|done]. Qed.

Lemma wp_wait π n j h F Q (R : post Z) : Q (π, SWait, F) h → (∀ pid, R pid π n j h F) → wp (syz SWait) π n j h F Q R.
Proof. intros HQ HR. split_and!; [done|intros r F' j' Hl; inversion Hl|intros _ pid; exact (HR pid)]. Qed.

Lemma wp_fork π n j h F Q (R : post Z) : R 0 (n :: π) 0%nat 0%nat h F → (∀ pid, 0 < pid → R pid π (S n) j h F) → R (-1) π n j h F → wp sfork π n j h F Q R.
Proof. done. Qed.
End logic.

(** What the logic says of a program holds in every world that it reaches. *)
Definition within (Q : event → list (list Z) → Prop) (q : name) (p : pinfo) : Prop :=
  match p_stat p with
  | Code t => wp t q (p_forks p) (p_pipes p) (p_heard p) (p_fds p) Q anywhere
  | Runs path argv => Q (q, SExec path argv, p_fds p) (p_heard p)
  | _ => True
  end.

Lemma reach_within π t F Q w : wp t π 0 0 [] F Q anywhere → reach π t F w → ∀ q p, w !! q = Some p → within Q q p.
Proof.
  intros Ht. revert w. apply (reach_ind (λ w, ∀ q p, w !! q = Some p → within Q q p)); [|intros w w' R St IH].
  - intros q p Hq. unfold start in Hq. by apply lookup_singleton_Some in Hq as [<- <-].
  - assert (Hi : ∀ π' p', within Q π' p' → ∀ q p, <[π' := p']> w !! q = Some p → within Q q p).
    { intros π' p' Hp q p. rewrite lookup_insert. case_decide; [by intros [= <-]; subst|apply IH]. }
    destruct St as [π' p c k r G j H1 H2 H3|π' p path argv k H1 H2|π' p k pid H1 H2 H3 H6|π' p k H1 H2|π' p k q' pq H1 H2 H3 H4|π' p k H1 H2 H3|π' p H1 H2];
      pose proof (IH _ _ H1) as Hw; unfold within in Hw; try rewrite H2 in Hw; simpl in Hw.
    + apply Hi. by apply Hw.
    + apply Hi. apply Hw.
    + intros q p'. rewrite lookup_insert. case_decide as Hq.
      * intros [= <-]. subst q. apply Hw.
      * apply Hi. by apply Hw.
    + apply Hi. apply Hw.
    + intros q p'. rewrite lookup_insert. case_decide as Hq.
      * intros [= <-]. subst q. by apply Hw.
      * by apply Hi.
    + apply Hi. by apply Hw.
    + by apply Hi.
Qed.

(** ** What a step changes *)

(** Process [q] makes a step: beside itself it changes the child it makes, or a
    zombie it waits for. *)
Record changes (w w' : world) (q : name) (p p' : pinfo) : Prop := {
  ch_old : w !! q = Some p;
  ch_new : w' !! q = Some p';
  ch_live : live p = true;
  ch_forks : (p_forks p ≤ p_forks p')%nat;
  ch_stat : p_stat p' ≠ Gone;
  ch_dead : live p' = false → p_fds p' = ∅;
  ch_wait : ∀ k, p_stat p = Code (Sys SWait k) →
    (∃ i px, w !! (i :: q) = Some px ∧ p_stat px = Zombie ∧ w' !! (i :: q) = Some (set_stat Gone px)) ∨ ∀ x px, ¬ child_of w q x px;
  ch_rest : ∀ x, x ≠ q → w' !! x = w !! x ∨
    (x = p_forks p :: q ∧ ∃ k pid, p_stat p = Code (Fork k) ∧ w' !! x = Some (mkp (Code (k 0)) (p_fds p) 0 0 pid (p_heard p))) ∨
    ∃ i k px, x = i :: q ∧ p_stat p = Code (Sys SWait k) ∧ w !! x = Some px ∧ p_stat px = Zombie ∧ w' !! x = Some (set_stat Gone px) }.

Lemma suffix_len {A} (l l' : list A) : l `suffix_of` l' → (length l ≤ length l')%nat.
Proof. intros [z ->]. rewrite length_app. lia. Qed.

Lemma cons_neq_self {A} (x : A) l : x :: l ≠ l.
Proof. intros E. apply (f_equal length) in E. simpl in E. lia. Qed.

(** The proof for a step that changes only the process itself. *)
Ltac one_change H1 H2 :=
  split; [exact H1|by rewrite lookup_insert_eq|unfold live; by rewrite H2|simpl; lia|done|done|intros k' Hk; congruence|
          intros x Hx; left; by rewrite lookup_insert_ne].

Lemma step_changes w w' : step w w' → ∃ q p p', changes w w' q p p'.
Proof.
  intros St.
  destruct St as [π' p c k r G j H1 H2 H3|π' p path argv k H1 H2|π' p k pid H1 H2 H3 H6|π' p k H1 H2|π' p k q' pq H1 H2 H3 H4|π' p k H1 H2 H3|π' p H1 H2];
    exists π', p.
  - exists (mkp (Code (k r)) G (p_forks p) j (p_pid p) (hear c r (p_heard p))). split; try done; simpl; try lia.
    + by rewrite lookup_insert_eq.
    + unfold live. by rewrite H2.
    + intros k' Hk. rewrite H2 in Hk. injection Hk as -> _. inversion H3.
    + intros x Hx. left. by rewrite lookup_insert_ne.
  - exists (set_stat (Runs path argv) p). one_change H1 H2.
  - exists (mkp (Code (k pid)) (p_fds p) (S (p_forks p)) (p_pipes p) (p_pid p) (p_heard p)). split; try done; simpl; try lia.
    + by rewrite lookup_insert_ne, lookup_insert_eq by apply cons_neq_self.
    + unfold live. by rewrite H2.
    + intros k' Hk. congruence.
    + intros x Hx. destruct (decide (x = p_forks p :: π')) as [->|Hne].
      * right. left. split; [done|]. exists k, pid. by rewrite lookup_insert_eq.
      * left. by rewrite !lookup_insert_ne.
  - exists (set_stat (Code (k (-1))) p). one_change H1 H2.
  - exists (set_stat (Code (k (p_pid pq, []))) p). split; try done; simpl; try lia.
    + by rewrite lookup_insert_eq.
    + unfold live. by rewrite H2.
    + intros _ _. left. destruct H3 as ((i & ->) & Hq & _). exists i, pq.
      rewrite lookup_insert_ne by (intros E; symmetry in E; by apply cons_neq_self in E). by rewrite lookup_insert_eq.
    + intros x Hx. rewrite lookup_insert_ne by done. destruct (decide (x = q')) as [->|Hne].
      * right. right. destruct H3 as ((i & ->) & Hq & _). exists i, k, pq. rewrite lookup_insert_eq. done.
      * left. by rewrite lookup_insert_ne.
  - exists (set_stat (Code (k (-1, []))) p). split; try done; simpl; try lia.
    + by rewrite lookup_insert_eq.
    + unfold live. by rewrite H2.
    + intros _ _. by right.
    + intros x Hx. left. by rewrite lookup_insert_ne.
  - exists (mkp Zombie ∅ (p_forks p) (p_pipes p) (p_pid p) (p_heard p)). split; try done; simpl; try lia.
    + by rewrite lookup_insert_eq.
    + unfold live. by destruct H2 as [-> | (? & ? & ->)].
    + intros k' Hk. destruct H2 as [H2|(? & ? & H2)]; congruence.
    + intros x Hx. left. by rewrite lookup_insert_ne.
Qed.

(** A process that has ended has no descriptors. *)
Lemma dead_fds π t F w q p : reach π t F w → w !! q = Some p → live p = false → p_fds p = ∅.
Proof.
  intros R. revert w R q p. apply (reach_ind (λ w, ∀ q p, w !! q = Some p → live p = false → p_fds p = ∅)).
  - intros q p Hq. unfold start in Hq. apply lookup_singleton_Some in Hq as [_ <-]. done.
  - intros w w' _ (q0 & p0 & p0' & [C1 C2 C3 C4 C5 C6 _ C7])%step_changes IH q p Hq Hl. destruct (decide (q = q0)) as [->|Hne].
    + rewrite C2 in Hq. injection Hq as <-. by apply C6.
    + destruct (C7 q Hne) as [E|[(-> & k & pid & _ & E)|(i & k & px & -> & _ & Hx & Hz & E)]]; rewrite E in Hq.
      * by apply (IH q p).
      * by injection Hq as <-.
      * injection Hq as <-. simpl. apply (IH (i :: q0) px Hx). unfold live. by rewrite Hz.
Qed.

(** All processes come from the first. *)
Lemma reach_names π t F w q p : reach π t F w → w !! q = Some p → π `suffix_of` q.
Proof.
  intros R. revert w R q p. apply (reach_ind (λ w, ∀ q p, w !! q = Some p → π `suffix_of` q)).
  - intros q p Hq. unfold start in Hq. apply lookup_singleton_Some in Hq as [<- _]. done.
  - intros w w' _ (q0 & p0 & p0' & [C1 C2 C3 C4 C5 C6 _ C7])%step_changes IH q p Hq. destruct (decide (q = q0)) as [->|Hne].
    + by eapply IH.
    + destruct (C7 q Hne) as [E|[(-> & _)|(i & k & px & -> & _ & Hx & _)]].
      * rewrite E in Hq. by eapply IH.
      * apply suffix_cons_r. by eapply IH.
      * by eapply IH.
Qed.

(** ** Running a program with a given schedule *)

(** What happens in a step where there is a choice. *)
Inductive choice : Type :=
| Good                       (* the call succeeds, the process goes on or ends *)
| Bad                        (* the call fails *)
| Bytes (bs : list Z)        (* what a read returns *)
| Number (pid : Z)           (* the number of the new process *)
| Kid (i : nat).             (* the child that is waited for *)

Definition local_fn (π : name) (c : sysc) (F : table) (j : nat) (ch : choice) : option (reply * table * nat) :=
  match c, ch with
  | SOpen path mode, Good => fd ← lowest_fd F; Some (fd, [], <[fd := OnPath path mode]> F, j)
  | SOpen _ _, Bad => Some (-1, [], F, j)
  | SClose fd, Good => match F !! fd with Some _ => Some (0, [], delete fd F, j) | None => Some (-1, [], F, j) end
  | SDup fd, Good => e ← F !! fd; n ← lowest_fd F; Some (n, [], <[n := e]> F, j)
  | SPipe, Good =>
      r ← lowest_fd F; w ← lowest_fd (<[r := PR (π, j)]> F);
      Some (0, [r; w], <[w := PW (π, j)]> (<[r := PR (π, j)]> F), S j)
  | SPipe, Bad => Some (-1, [], F, j)
  | SExec _ _, Bad => Some (-1, [], F, j)
  | SWrite _ bs, Good => Some (Z.of_nat (length bs), [], F, j)
  | SRead _ n, Bytes bs => if Z.of_nat (length bs) <=? n then Some (Z.of_nat (length bs), bs, F, j) else None
  | SChdir _, Good | SMknod _ _ _, Good | SSleep _, Good => Some (0, [], F, j)
  | _, _ => None
  end.

Definition fresh_pid (w : world) (pid : Z) : bool := forallb (λ qp, negb (p_pid qp.2 =? pid)) (map_to_list w).

Definition act (w : world) (x : name * choice) : option world :=
  let '(q, ch) := x in
  p ← w !! q;
  match p_stat p with
  | Code (Sys SWait k) =>
      match ch with
      | Kid i =>
          pq ← w !! (i :: q);
          match p_stat pq with
          | Zombie => Some (<[q := set_stat (Code (k (p_pid pq, []))) p]> (<[i :: q := set_stat Gone pq]> w))
          | _ => None
          end
      | _ => None
      end
  | Code (Sys (SExec path argv) k) =>
      match ch with
      | Good => Some (<[q := set_stat (Runs path argv) p]> w)
      | _ => None
      end
  | Code (Sys c k) =>
      '(r, F, j) ← local_fn q c (p_fds p) (p_pipes p) ch;
      Some (<[q := mkp (Code (k r)) F (p_forks p) j (p_pid p) (hear c r (p_heard p))]> w)
  | Code (Fork k) =>
      match ch with
      | Number pid =>
          if (0 <? pid) && fresh_pid w pid then
            Some (<[p_forks p :: q := mkp (Code (k 0)) (p_fds p) 0 0 pid (p_heard p)]>
                 (<[q := mkp (Code (k pid)) (p_fds p) (S (p_forks p)) (p_pipes p) (p_pid p) (p_heard p)]> w))
          else None
      | Bad => Some (<[q := set_stat (Code (k (-1))) p]> w)
      | _ => None
      end
  | Code Stop | Runs _ _ => Some (<[q := mkp Zombie ∅ (p_forks p) (p_pipes p) (p_pid p) (p_heard p)]> w)
  | _ => None
  end.

Fixpoint acts (w : world) (l : list (name * choice)) : option world :=
  match l with
  | [] => Some w
  | x :: l' => w' ← act w x; acts w' l'
  end.

Lemma local_fn_ok π c F j ch r F' j' : local_fn π c F j ch = Some (r, F', j') → local π c F j r F' j'.
Proof.
  intros E. destruct c, ch; simpl in E; try done.
  - destruct (lowest_fd F) eqn:El; simplify_eq/=. by apply l_open.
  - simplify_eq/=. apply l_open_fail.
  - destruct (F !! fd) eqn:Ef; simplify_eq/=; [by eapply l_close|by apply l_close_bad].
  - destruct (F !! fd) eqn:Ef; simplify_eq/=. destruct (lowest_fd F) eqn:El; simplify_eq/=. by eapply l_dup.
  - destruct (lowest_fd F) eqn:El; simplify_eq/=. destruct (lowest_fd (<[_ := _]> F)) eqn:Ew; simplify_eq/=. by apply l_pipe.
  - simplify_eq/=. apply l_pipe_fail.
  - simplify_eq/=. apply l_exec_fail.
  - simplify_eq/=. apply l_write.
  - destruct (Z.leb_spec (Z.of_nat (length bs)) n); simplify_eq/=. by apply l_read.
  - simplify_eq/=. apply l_chdir. by left.
  - simplify_eq/=. apply l_mknod. by left.
  - simplify_eq/=. apply l_sleep.
Qed.

Lemma act_step w x w' : act w x = Some w' → step w w'.
Proof.
  destruct x as [q ch]. unfold act. destruct (w !! q) as [p|] eqn:Hq; simpl; [|done].
  destruct (p_stat p) as [[a| | |c k|k]|path argv| |] eqn:Es; try done.
  - intros [= <-]. eapply st_exit; eauto.
  - assert (Hloc : ∀ r F j, local_fn q c (p_fds p) (p_pipes p) ch = Some (r, F, j) → step w (<[q := mkp (Code (k r)) F (p_forks p) j (p_pid p) (hear c r (p_heard p))]> w)).
    { intros r F j E. eapply st_sys; eauto. by apply local_fn_ok in E. }
    destruct c; try (destruct (local_fn q _ (p_fds p) (p_pipes p) ch) as [[[r F] j]|] eqn:E; simpl; [|done]; intros [= <-]; by apply Hloc).
    + destruct ch; try done. intros [= <-]. by eapply st_exec.
    + destruct ch as [| | | |i]; try done. destruct (w !! (i :: q)) as [pq|] eqn:Hk; simpl; [|done].
      destruct (p_stat pq) eqn:Ez; try done. intros [= <-]. eapply st_wait; eauto. split_and!; [by exists i|done|by rewrite Ez].
  - destruct ch as [| | |pid|]; try done; [intros [= <-]; by eapply st_fork_fail|].
    destruct ((0 <? pid) && fresh_pid w pid) eqn:E; [|done]. intros [= <-]. apply andb_prop in E as [Hp%Z.ltb_lt Hf].
    eapply st_fork; eauto. intros q' pq Hq' _ Epid. unfold fresh_pid in Hf. rewrite forallb_forall in Hf.
    assert (Hin : (q', pq) ∈ map_to_list w) by (by apply elem_of_map_to_list). apply list_elem_of_In, Hf in Hin. simpl in Hin.
    by rewrite Epid, Z.eqb_refl in Hin.
  - intros [= <-]. eapply st_exit; eauto.
Qed.

Lemma acts_reach π t F l w : acts (start π t F) l = Some w → reach π t F w.
Proof.
  unfold reach. generalize (start π t F). induction l as [|x l IH]; intros w0; simpl; [intros [= <-]; done|].
  destruct (act w0 x) as [w1|] eqn:E; [|done]. intros H. eapply rtc_l; [by eapply act_step|by apply IH].
Qed.

(** Looking at a process of a world that a schedule leads to. *)
Definition sees (o : option world) (q : name) (f : world → pinfo → bool) : bool :=
  match o with Some w => match w !! q with Some p => f w p | None => false end | None => false end.

Lemma sees_ok o q f : sees o q f = true → ∃ w p, o = Some w ∧ w !! q = Some p ∧ f w p = true.
Proof. unfold sees. destruct o as [w|]; [|done]. destruct (w !! q) as [p|] eqn:E; [|done]. eauto 10. Qed.

Definition runs (path : list Z) (p : pinfo) : bool := match p_stat p with Runs path' _ => bool_decide (path' = path) | _ => false end.

(** Every process waits, is a program, or has ended. *)
Definition at_rest (w : world) : bool :=
  forallb (λ qp, match p_stat qp.2 with Code (Sys SWait _) => true | Code _ => false | _ => true end) (map_to_list w).

Lemma at_rest_ok w : at_rest w = true → ∀ q p t, w !! q = Some p → p_stat p = Code t → ∃ k, t = Sys SWait k.
Proof.
  unfold at_rest. intros H q p t Hq Hs. rewrite forallb_forall in H.
  assert (Hin : (q, p) ∈ map_to_list w) by (by apply elem_of_map_to_list). apply list_elem_of_In, H in Hin. simpl in Hin. rewrite Hs in Hin.
  destruct t as [| | |[]|]; try done. eauto.
Qed.

(** ** What a program can do when no call fails *)

(** A schedule in which nothing fails leads to a world that satisfies [P]. *)
Definition can (w : world) (P : world → Prop) : Prop :=
  ∃ l w', Forall (λ x, x.2 ≠ Bad) l ∧ acts w l = Some w' ∧ P w'.

(** Only process [π] has changed; only [π] and those that come from it. *)
Definition only_at (π : name) (w w' : world) : Prop := ∀ x, x ≠ π → w' !! x = w !! x.
Definition only_in (π : name) (w w' : world) : Prop := ∀ x, ¬ π `suffix_of` x → w' !! x = w !! x.

Section moves.
Implicit Types (w : world) (π q : name) (n m : nat).

Lemma can_ret (w : world) (P : world → Prop) : P w → can w P.
Proof. intros H. by exists [], w. Qed.

Lemma acts_app w l1 l2 : acts w (l1 ++ l2) = w1 ← acts w l1; acts w1 l2.
Proof. revert w. induction l1 as [|x l1 IH]; intros w; simpl; [done|]. destruct (act w x); simpl; [apply IH|done]. Qed.

Lemma can_bind (w : world) (P Q : world → Prop) : can w P → (∀ w', P w' → can w' Q) → can w Q.
Proof.
  intros (l1 & w1 & G1 & E1 & H1) H. destruct (H w1 H1) as (l2 & w2 & G2 & E2 & H2). exists (l1 ++ l2), w2.
  split; [by apply Forall_app|]. split; [|done]. by rewrite acts_app, E1.
Qed.

Lemma can_act (w : world) (x : list nat * choice) (w1 : world) (P : world → Prop) : x.2 ≠ Bad → act w x = Some w1 → can w1 P → can w P.
Proof.
  intros Hx E (l & w' & G & El & H). exists (x :: l), w'. split; [by apply Forall_cons|]. split; [|done].
  cbn [acts]. by rewrite E.
Qed.

Lemma only_at_in π (w w' : world) : only_at π w w' → only_in π w w'.
Proof. intros H x Hx. apply H. intros ->. by apply Hx. Qed.
Lemma only_in_trans π w w1 w2 : only_in π w w1 → only_in π w1 w2 → only_in π w w2.
Proof. intros H1 H2 x Hx. by rewrite H2, H1. Qed.
Lemma only_in_cons n π w w' : only_in (n :: π) w w' → only_in π w w'.
Proof. intros H x Hx. apply H. intros [z ->]. apply Hx. exists (z ++ [n]). by rewrite <- app_assoc. Qed.
Lemma only_in_parent n π w w' : only_in (n :: π) w w' → w' !! π = w !! π.
Proof. intros H. apply H. intros Hs%suffix_len. simpl in Hs. lia. Qed.
Lemma only_in_sister n m π w w' : n ≠ m → only_in (n :: π) w w' → w' !! (m :: π) = w !! (m :: π).
Proof.
  intros Hn H. apply H. intros [z Hz]. destruct z as [|y z]; [by injection Hz|].
  apply (f_equal length) in Hz. rewrite length_app in Hz. simpl in Hz. lia.
Qed.

End moves.

(** One system call of process [π]. *)
Section can.
Context (w : world) (π : name) (F : table) (n j : nat) (pid : Z) (h : list (list Z)) (P : world → Prop).

Lemma can_sys c k ch r F' j' : w !! π = Some (mkp (Code (Sys c k)) F n j pid h) → c ≠ SWait → (∀ path argv, c ≠ SExec path argv) →
  ch ≠ Bad → local_fn π c F j ch = Some (r, F', j') →
  (∀ w', w' !! π = Some (mkp (Code (k r)) F' n j' pid (hear c r h)) → only_at π w w' → can w' P) → can w P.
Proof.
  intros Hw Hc He Hb El H. eapply (can_act _ (π, ch)); [done| |apply H].
  - unfold act. rewrite Hw. cbn [mbind option_bind p_stat p_fds p_pipes p_forks p_pid p_heard].
    destruct c; try done; try (rewrite El; reflexivity). by destruct (He path argv).
  - by rewrite lookup_insert_eq.
  - intros x Hx. by rewrite lookup_insert_ne.
Qed.

Lemma can_exec path argv k : w !! π = Some (mkp (Code (Sys (SExec path argv) k)) F n j pid h) →
  (∀ w', w' !! π = Some (mkp (Runs path argv) F n j pid h) → only_at π w w' → can w' P) → can w P.
Proof.
  intros Hw H. eapply (can_act _ (π, Good)); [done| |apply H].
  - unfold act. rewrite Hw. reflexivity.
  - by rewrite lookup_insert_eq.
  - intros x Hx. by rewrite lookup_insert_ne.
Qed.

Lemma can_exit st : w !! π = Some (mkp st F n j pid h) → st = Code Stop ∨ (∃ path argv, st = Runs path argv) →
  (∀ w', w' !! π = Some (mkp Zombie ∅ n j pid h) → only_at π w w' → can w' P) → can w P.
Proof.
  intros Hw Hs H. eapply (can_act _ (π, Good)); [done| |apply H].
  - unfold act. rewrite Hw. cbn [mbind option_bind p_stat]. destruct Hs as [->|(path & argv & ->)]; reflexivity.
  - by rewrite lookup_insert_eq.
  - intros x Hx. by rewrite lookup_insert_ne.
Qed.

(** Some number is free for a new process. *)
Lemma fresh_number : ∃ x, 0 < x ∧ fresh_pid w x = true.
Proof.
  set (l := (λ qp : name * pinfo, p_pid qp.2) <$> map_to_list w). exists (1 + foldr Z.max 0 l).
  assert (Hl : 0 ≤ foldr Z.max 0 l ∧ Forall (λ x, x ≤ foldr Z.max 0 l) l).
  { clear. induction l as [|x l [H0 IH]]; [done|]. cbn [foldr]. split; [lia|]. apply Forall_cons. split; [lia|].
    eapply Forall_impl; [exact IH|]. cbn beta. intros y. lia. }
  destruct Hl as [H0 Hl]. split; [lia|]. unfold fresh_pid. apply forallb_forall. intros [q p] Hin%list_elem_of_In. cbn [snd].
  rewrite Forall_forall in Hl. specialize (Hl (p_pid p)). apply negb_true_iff, Z.eqb_neq.
  assert (p_pid p ∈ l) by (apply list_elem_of_fmap; by exists (q, p)). specialize (Hl ltac:(done)). lia.
Qed.

Lemma can_fork k : w !! π = Some (mkp (Code (Fork k)) F n j pid h) →
  (∀ w' x y, 0 < x → w' !! π = Some (mkp (Code (k x)) F (S n) j pid h) → w' !! (n :: π) = Some (mkp (Code (k 0)) F 0 0 y h) →
     (∀ q, q ≠ π → q ≠ n :: π → w' !! q = w !! q) → can w' P) → can w P.
Proof.
  intros Hw H. destruct fresh_number as (x & Hx & Hf). eapply (can_act _ (π, Number x)); [done| |apply (H _ x x Hx)].
  - unfold act. rewrite Hw. cbn [mbind option_bind p_stat]. rewrite (proj2 (Z.ltb_lt _ _) Hx), Hf. reflexivity.
  - rewrite lookup_insert_ne by apply cons_neq_self. by rewrite lookup_insert_eq.
  - by rewrite lookup_insert_eq.
  - intros q H1 H2. by rewrite !lookup_insert_ne.
Qed.

Lemma can_wait i k pq : w !! π = Some (mkp (Code (Sys SWait k)) F n j pid h) → w !! (i :: π) = Some pq → p_stat pq = Zombie →
  (∀ w', w' !! π = Some (mkp (Code (k (p_pid pq, []))) F n j pid h) → (∀ q, q ≠ π → q ≠ i :: π → w' !! q = w !! q) → can w' P) → can w P.
Proof.
  intros Hw Hi Hz H. eapply (can_act _ (π, Kid i)); [done| |apply H].
  - unfold act. rewrite Hw. cbn [mbind option_bind p_stat]. rewrite Hi. cbn [mbind option_bind]. rewrite Hz. reflexivity.
  - by rewrite lookup_insert_eq.
  - intros q H1 H2. by rewrite !lookup_insert_ne.
Qed.
End can.

(** A program followed by others. *)
Definition before_all (fs : list (unit → prog unit)) (t : prog unit) : prog unit := foldl (λ t f, t ≫= f) t fs.

Lemma before_sys fs c k : before_all fs (Sys c k) = Sys c (λ r, before_all fs (k r)).
Proof. unfold before_all. revert k. induction fs as [|f fs IH]; intros k; simpl; [done|]. by rewrite IH. Qed.
Lemma before_fork fs k : before_all fs (Fork k) = Fork (λ n, before_all fs (k n)).
Proof. unfold before_all. revert k. induction fs as [|f fs IH]; intros k; simpl; [done|]. by rewrite IH. Qed.
Lemma before_stop fs : before_all fs Stop = Stop.
Proof. unfold before_all. induction fs as [|f fs IH]; [done|]. exact IH. Qed.
