(* ===== verification/ShRun.v ===== *)
(** * Running commands: runcmd, getcmd and main of sh.c; init.c

    The shell as a program of Forks.v.  The commands are those of the parser in
    Sh.v, and the strings of a command are the texts of its tokens, which
    [nulterminate] has made of them.  A command is never a null pointer, and it is of
    one of the five types, so the first test of [runcmd] and the default of
    its switch have no counterpart.

    [plan] lists, for a command, which program each process is to start and with
    which descriptors; the theorems say that in every interleaving, and whatever
    calls fail, a process that the shell makes for the line it has read starts no other program;
    that each program of the plan can be started, and the command come to its end, when no
    call fails; that only the left command keeps the end of a pipe for writing; and that of two
    commands with [;] between them the second waits for the first. *)

From S2P Require Import Prelude Params Strings Usys Ulib Printf Sh Forks.

(** [printf]: a call of write for each character. *)
Definition say (fd : Z) (bs : list Z) : prog unit := foldr (λ b k, syz (SWrite fd [b]);; k) (mret tt) bs.

Definition panic {A} (s : list Z) : prog A := say 2 (s ++ [10]);; Stop.

Definition fork1 : prog Z :=
  pid ← sfork;
  if pid =? -1 then panic (str "fork") else mret pid.

Fixpoint runcmd (c : cmd) : prog unit :=
  match c with
  | EXEC argv =>
      match argv with
      | [] => Stop
      | a0 :: _ =>
          syz (SExec (token_text a0) (token_text <$> argv));;
          say 2 (str "exec " ++ token_text a0 ++ str " failed" ++ [10]);;
          Stop
      end
  | REDIR c file mode fd =>
      syz (SClose fd);;
      r ← syz (SOpen (token_text file) mode);
      (if r <? 0 then say 2 (str "open " ++ token_text file ++ str " failed" ++ [10]);; Stop else mret tt);;
      runcmd c;;
      Stop
  | LIST l r =>
      pid ← fork1;
      (if pid =? 0 then runcmd l else mret tt);;
      syz SWait;;
      runcmd r;;
      Stop
  | PIPE l r =>
      '(x, p) ← sys SPipe;
      let p0 := default 0 (p !! 0%nat) in
      let p1 := default 0 (p !! 1%nat) in
      if x <? 0 then panic (str "pipe") else
      pid ← fork1;
      (if pid =? 0 then
         syz (SClose 1);;
         syz (SDup p1);;
         syz (SClose p0);;
         syz (SClose p1);;
         runcmd l
       else mret tt);;
      pid ← fork1;
      (if pid =? 0 then
         syz (SClose 0);;
         syz (SDup p0);;
         syz (SClose p0);;
         syz (SClose p1);;
         runcmd r
       else mret tt);;
      syz (SClose p0);;
      syz (SClose p1);;
      syz SWait;;
      syz SWait;;
      Stop
  | BACK c =>
      pid ← fork1;
      (if pid =? 0 then runcmd c else mret tt);;
      Stop
  end.

(** [parsecmd], and then the command is run. *)
Definition run_line (line : list Z) : prog unit :=
  match (c ← parseline (parse_fuel line); peek [];; s ← get; mret (c, s)) line with
  | Ok (c, s) _ =>
      if bool_decide (s = []) then runcmd c
      else say 2 (str "leftovers: " ++ s ++ [10]);; panic (str "syntax")
  | Panic msg => panic (str msg)
  | _ => Cut
  end.

(** ** Reading the lines *)

(** [gets]: the bytes before the NUL it stores; at most [room] of them. *)
Fixpoint gets (room : nat) : prog (list Z) :=
  match room with
  | O => mret []
  | S room' =>
      '(cc, bs) ← sys (SRead 0 1);
      let c := default 0 (head bs) in
      if cc <? 1 then mret [] else
      if (c =? 10) || (c =? 13) then mret [c] else
      rest ← gets room';
      mret (c :: rest)
  end.

(** The buffer that [getcmd] fills, from which the zeros at its end are left out;
    [None] when the result is -1. *)
Definition getcmd (nbuf : Z) : prog (option (list Z)) :=
  say 2 (str "$ ");;
  buf ← gets (Z.to_nat (nbuf - 1));
  if default 0 (head buf) =? 0 then mret None else mret (Some buf).

(** The string in the buffer. *)
Fixpoint upto_nul (buf : list Z) : list Z :=
  match buf with
  | c :: buf' => if c =? 0 then [] else c :: upto_nul buf'
  | [] => []
  end.

Definition is_cd (buf : list Z) : bool :=
  (default 0 (buf !! 0%nat) =? 99) && (default 0 (buf !! 1%nat) =? 100) && (default 0 (buf !! 2%nat) =? 32).

(** The loop that opens descriptors up to 2. *)
Fixpoint open_console (fuel : nat) : prog unit :=
  match fuel with
  | O => Cut
  | S fuel' =>
      fd ← syz (SOpen (str "console") O_RDWR);
      if 0 <=? fd then
        if 3 <=? fd then syz (SClose fd);; mret tt else open_console fuel'
      else mret tt
  end.

(** The loop over the lines, of which [fuel] are followed. *)
Fixpoint sh_loop (fuel : nat) : prog unit :=
  match fuel with
  | O => Cut
  | S fuel' =>
      cmd ← getcmd 100;
      match cmd with
      | None => Stop
      | Some buf =>
          if is_cd buf then
            (* the newline is cut off *)
            let dir := drop 3 (removelast (upto_nul buf)) in
            r ← syz (SChdir dir);
            (if r <? 0 then say 2 (str "cannot cd " ++ dir ++ [10]) else mret tt);;
            sh_loop fuel'
          else
            pid ← fork1;
            (if pid =? 0 then run_line (upto_nul buf) else mret tt);;
            syz SWait;;
            sh_loop fuel'
      end
  end.

Definition sh_main (fuel : nat) : prog unit := open_console fuel;; sh_loop fuel.

(** ** init *)

(** The inner loop: zombies are waited for until the shell has ended. *)
Fixpoint init_wait (fuel : nat) (pid : Z) : prog unit :=
  match fuel with
  | O => Cut
  | S fuel' =>
      wpid ← syz SWait;
      if (0 <=? wpid) && negb (wpid =? pid) then say 1 (str "zombie!" ++ [10]);; init_wait fuel' pid
      else mret tt
  end.

Fixpoint init_loop (fuel : nat) : prog unit :=
  match fuel with
  | O => Cut
  | S fuel' =>
      say 1 (str "init: starting sh" ++ [10]);;
      pid ← sfork;
      (if pid <? 0 then say 1 (str "init: fork failed" ++ [10]);; Stop else mret tt);;
      (if pid =? 0 then
         syz (SExec (str "sh") [str "sh"]);;
         say 1 (str "init: exec sh failed" ++ [10]);;
         Stop
       else mret tt);;
      init_wait fuel' pid;;
      init_loop fuel'
  end.

Definition init_main (fuel : nat) : prog unit :=
  fd ← syz (SOpen (str "console") O_RDWR);
  (if fd <? 0 then syz (SMknod (str "console") 1 1);; syz (SOpen (str "console") O_RDWR);; mret tt else mret tt);;
  syz (SDup 0);;
  syz (SDup 0);;
  init_loop fuel.

Definition zombie_main : prog unit :=
  pid ← sfork;
  (if 0 <? pid then syz (SSleep 5);; mret tt else mret tt);;
  Stop.

(** ** The plan of a command *)

(** Descriptors 0, 1 and 2, and no others. *)
Definition tab (a b e : endp) : table := {[ 0 := a; 1 := b; 2 := e ]}.

(** Which calls of exec and wait there are, in which process and with which
    descriptors.  [n] children and [j] pipes come before. *)
Fixpoint plan (c : cmd) (π : name) (n j : nat) (a b e : endp) : list (name * sysc * table) :=
  match c with
  | EXEC argv => match argv with [] => [] | a0 :: _ => [(π, SExec (token_text a0) (token_text <$> argv), tab a b e)] end
  | REDIR c file mode fd =>
      let f := OnPath (token_text file) mode in
      if fd =? 0 then plan c π n j f b e else plan c π n j a f e
  | LIST l r => plan l (n :: π) 0 0 a b e ++ (π, SWait, tab a b e) :: plan r π (S n) j a b e
  | PIPE l r =>
      plan l (n :: π) 0 0 a (PW (π, j)) e ++ plan r (S n :: π) 0 0 (PR (π, j)) b e ++ [(π, SWait, tab a b e)]
  | BACK c => plan c (n :: π) 0 0 a b e
  end.

Fixpoint redirs_ok (c : cmd) : Prop :=
  match c with
  | EXEC _ => True
  | REDIR c _ _ fd => redirs_ok c ∧ (fd = 0 ∨ fd = 1)
  | PIPE l r | LIST l r => redirs_ok l ∧ redirs_ok r
  | BACK c => redirs_ok c
  end.

Lemma parse_redirs line c s : parse line = Ok c s → redirs_ok c.
Proof.
  intros Hp. pose proof (parse_wp line) as Hwp. unfold Sh.wp, parse in *. rewrite Hp in Hwp. destruct Hwp as [_ Hc]. revert Hc.
  clear. induction c; simpl; naive_solver.
Qed.

(** ** The calls on descriptors *)

(** Descriptors 3 and 4 are the pipe's. *)
Definition piped (a b e : endp) (p : name * nat) : table := <[4 := PW p]> (<[3 := PR p]> (tab a b e)).

Lemma local_pipe π a b e j r F' j' : local π SPipe (tab a b e) j r F' j' →
  r = (0, [3; 4]) ∧ F' = piped a b e (π, j) ∧ j' = S j ∨ r = (-1, []) ∧ F' = tab a b e ∧ j' = j.
Proof.
  intros H. inversion H as [| | | | | |? ? x y Hx Hy| | | | | | | | |]; subst; [left|right; done].
  vm_compute in Hx. injection Hx as <-. vm_compute in Hy. injection Hy as <-. done.
Qed.

Lemma local_close π fd e F j r F' j' : F !! fd = Some e → local π (SClose fd) F j r F' j' → F' = delete fd F ∧ j' = j.
Proof. intros Hf H. inversion H; subst; [done|congruence]. Qed.

Lemma local_dup π fd e n F j r F' j' : F !! fd = Some e → lowest_fd F = Some n → local π (SDup fd) F j r F' j' → F' = <[n := e]> F ∧ j' = j.
Proof. intros Hf Hl H. inversion H as [| | | |? ? ? ? ? H1 H2|? ? ? [H1|H1]| | | | | | | | | |]; subst; [|congruence..]. by simplify_eq. Qed.

(** ** Which calls it makes *)

(** The calls of exec and wait satisfy [P]. *)
Definition key (c : sysc) : bool := match c with SExec _ _ | SWait => true | _ => false end.
Definition keyed (P : event → list (list Z) → Prop) (x : event) (h : list (list Z)) : Prop := key x.1.2 = true → P x h.

Section rules.
Implicit Types (π : name) (h : list (list Z)) (F : table) (P : event → list (list Z) → Prop).

Lemma wp_say fd bs π n j h F P (R : post unit) : R tt π n j h F → wp (say fd bs) π n j h F (keyed P) R.
Proof.
  intros H. induction bs as [|b bs IH]; [done|]. apply wp_seq, wp_syz; [done|done|].
  intros r F' j' Hl. inversion Hl; subst; exact IH.
Qed.

Lemma wp_panic {A} s π n j h F P (R : post A) : wp (panic s) π n j h F (keyed P) R.
Proof. by apply wp_seq, wp_say. Qed.

Lemma wp_fork1 π n j h F P (R : post Z) : R 0 (n :: π) 0%nat 0%nat h F → (∀ pid, 0 < pid → R pid π (S n) j h F) → wp fork1 π n j h F (keyed P) R.
Proof.
  intros H0 H1. apply wp_seq, wp_fork; [exact H0| |exact (wp_panic (str "fork") π n j h F P R)].
  intros pid Hp. rewrite (proj2 (Z.eqb_neq pid (-1))) by lia. by apply H1.
Qed.

(** The child's part, and what the parent does. *)
Lemma wp_child {A} (t : prog unit) (u : prog A) π n j h F P (R : post A) : wp t (n :: π) 0 0 h F (keyed P) nowhere →
  wp u π (S n) j h F (keyed P) R → wp (pid ← fork1; (if pid =? 0 then t else mret tt);; u) π n j h F (keyed P) R.
Proof.
  intros Ht Hu. apply wp_seq, wp_fork1.
  - change (0 =? 0) with true. cbv iota. by apply wp_bind_nowhere.
  - intros pid Hp. rewrite (proj2 (Z.eqb_neq pid 0)) by lia. exact Hu.
Qed.

Lemma wp_close fd x π n j h F P (R : post Z) : F !! fd = Some x → (∀ r, R r π n j h (delete fd F)) → wp (syz (SClose fd)) π n j h F (keyed P) R.
Proof. intros Hf H. apply wp_syz; [done|done|]. intros r F' j' Hl. by destruct (local_close _ _ _ _ _ _ _ _ Hf Hl) as [-> ->]. Qed.

Lemma wp_dup fd x m π n j h F P (R : post Z) : F !! fd = Some x → lowest_fd F = Some m → (∀ r, R r π n j h (<[m := x]> F)) →
  wp (syz (SDup fd)) π n j h F (keyed P) R.
Proof. intros Hf Hm H. apply wp_syz; [done|done|]. intros r F' j' Hl. by destruct (local_dup _ _ _ _ _ _ _ _ _ Hf Hm Hl) as [-> ->]. Qed.

Lemma wp_pipe π n j h a b e P (R : post reply) : R (0, [3; 4]) π n (S j) h (piped a b e (π, j)) → R (-1, []) π n j h (tab a b e) →
  wp (sys SPipe) π n j h (tab a b e) (keyed P) R.
Proof.
  intros H0 H1. apply wp_sys; [done|done|]. intros r F' j' Hlo.
  by destruct (local_pipe _ _ _ _ _ _ _ _ Hlo) as [(-> & -> & ->)|(-> & -> & ->)].
Qed.

(** The redirection of descriptor [fd]; [u] is done if the file cannot be opened. *)
Lemma wp_redir fd path mode a b e (u t : prog unit) π n j h P R : fd = 0 ∨ fd = 1 → (∀ F, wp u π n j h F (keyed P) nowhere) →
  wp t π n j h (if fd =? 0 then tab (OnPath path mode) b e else tab a (OnPath path mode) e) (keyed P) R →
  wp (syz (SClose fd);; r ← syz (SOpen path mode); (if r <? 0 then u else mret tt);; t) π n j h (tab a b e) (keyed P) R.
Proof.
  intros Hfd Hu Ht. assert (Hx : ∃ x, tab a b e !! fd = Some x) by (destruct Hfd as [-> | ->]; eexists; reflexivity).
  destruct Hx as [x Hx]. apply wp_seq, (wp_close _ x); [done|]. intros _. apply wp_seq, wp_syz; [done|done|]. intros r F' j' Hl.
  assert (Hlow : lowest_fd (delete fd (tab a b e)) = Some fd) by (destruct Hfd as [-> | ->]; reflexivity).
  inversion Hl as [? ? ? ? y Hy|? ? ? ?| | | | | | | | | | | | | |]; subst; simpl fst.
  - rewrite Hlow in Hy. injection Hy as <-. assert ((fd <? 0) = false) as -> by (apply Z.ltb_ge; lia).
    destruct Hfd as [-> | ->]; exact Ht.
  - change (-1 <? 0) with true. cbv iota. by apply wp_bind_nowhere.
Qed.

(** The child of a pipe: end [y] of it becomes descriptor [fd]. *)
Lemma wp_end fd p x y (t : prog unit) π q n j h a b e P R : piped a b e q !! fd = Some x → piped a b e q !! p = Some y →
  (fd = 0 ∨ fd = 1) → (p = 3 ∨ p = 4) → wp t π n j h (if fd =? 0 then tab y b e else tab a y e) (keyed P) R →
  wp (syz (SClose fd);; syz (SDup p);; syz (SClose 3);; syz (SClose 4);; t) π n j h (piped a b e q) (keyed P) R.
Proof.
  intros Hx Hy Hfd Hp Ht. apply wp_seq, (wp_close fd x); [done|intros _].
  apply wp_seq, (wp_dup p y fd); [by destruct Hfd as [-> | ->], Hp as [-> | ->]|by destruct Hfd as [-> | ->]|intros _].
  apply wp_seq, (wp_close 3 (PR q)); [by destruct Hfd as [-> | ->]|intros _].
  apply wp_seq, (wp_close 4 (PW q)); [by destruct Hfd as [-> | ->]|intros _]. by destruct Hfd as [-> | ->].
Qed.
End rules.

Lemma keyed_impl (P P' : event → list (list Z) → Prop) x h : (∀ x, P x h → P' x h) → keyed P x h → keyed P' x h.
Proof. intros H Hp Hk. by apply H, Hp. Qed.

(** What a part of a command does is in the plan of the command. *)
Lemma wp_plan (t : prog unit) π n j h F (l l' : list event) : wp t π n j h F (keyed (λ x h', h' = h ∧ x ∈ l)) nowhere → l ⊆ l' →
  wp t π n j h F (keyed (λ x h', h' = h ∧ x ∈ l')) nowhere.
Proof. intros H Hl. eapply wp_mono; [exact H| |done]. intros x h'. apply keyed_impl. intros y [-> Hy]. auto. Qed.

Lemma wp_runcmd c π n j h a b e : redirs_ok c → wp (runcmd c) π n j h (tab a b e) (keyed (λ x h', h' = h ∧ x ∈ plan c π n j a b e)) nowhere.
Proof.
  revert π n j h a b e. induction c as [[|a0 argv]|c IH file mode fd|l IHl r IHr|l IHl r IHr|c IH]; intros π n j h a b e Hr; cbn [runcmd plan redirs_ok] in *.
  - done.
  - apply wp_seq, wp_syz; [done|intros _; split; [done|by left]|]. intros x F' j' Hl. inversion Hl; subst. by apply wp_seq, wp_say.
  - destruct Hr as [Hr Hfd]. apply wp_redir; [done|intros F; by apply wp_seq, wp_say|].
    apply wp_bind_nowhere. destruct Hfd as [-> | ->]; by apply IH.
  - destruct Hr as [Hl Hr]. set (l0 := plan l _ _ _ _ _ _ ++ _). apply wp_seq, wp_pipe; cbn beta iota zeta; [|by apply wp_seq, wp_say].
    change (0 <? 0) with false. cbv iota. cbn [default lookup list_lookup]. apply wp_child; [|apply wp_child].
    + apply (wp_end 1 4 b (PW (π, j))); [reflexivity..|by right|by right|]. eapply wp_plan; [by apply IHl|]. apply list_subseteq_app_l. done.
    + apply (wp_end 0 3 a (PR (π, j))); [reflexivity..|by left|by left|]. eapply wp_plan; [by apply IHr|].
      by apply list_subseteq_app_r, list_subseteq_app_l.
    + apply wp_seq, (wp_close 3 (PR (π, j))); [reflexivity|intros _]. apply wp_seq, (wp_close 4 (PW (π, j))); [reflexivity|intros _].
      change (delete 4 (delete 3 (piped a b e (π, j)))) with (tab a b e).
      assert (Hin : (π, SWait, tab a b e) ∈ l0) by (unfold l0; rewrite !elem_of_app, list_elem_of_singleton; by do 2 right).
      do 2 (apply wp_seq, wp_wait; [intros _; split; [done|exact Hin]|intros _]). done.
  - destruct Hr as [Hl Hr]. apply wp_child.
    + eapply wp_plan; [by apply IHl|]. by apply list_subseteq_app_l.
    + apply wp_seq, wp_wait; [intros _; split; [done|rewrite elem_of_app, elem_of_cons; tauto]|intros _]. apply wp_bind_nowhere.
      eapply wp_plan; [by apply IHr|]. apply list_subseteq_app_r. by apply list_subseteq_cons.
  - apply wp_child; [by apply IH|done].
Qed.

Lemma runcmd_reach c π a b e w q p : redirs_ok c → reach π (runcmd c) (tab a b e) w → w !! q = Some p →
  match p_stat p with
  | Runs path argv => (q, SExec path argv, p_fds p) ∈ plan c π 0 0 a b e
  | Code (Sys SWait k) => (q, SWait, p_fds p) ∈ plan c π 0 0 a b e
  | _ => True
  end.
Proof.
  intros Hr R Hq. assert (Hw : wp (runcmd c) π 0 0 [] (tab a b e) (keyed (λ x h', h' = [] ∧ x ∈ plan c π 0 0 a b e)) anywhere).
  { eapply wp_mono; [by apply wp_runcmd|done|done]. }
  pose proof (reach_within _ _ _ _ _ Hw R _ _ Hq) as Hin. unfold within in Hin.
  destruct (p_stat p) as [[| | |[] k|]|path argv| |]; try done; by apply Hin.
Qed.

Lemma tab_lookup a b e fd x : tab a b e !! fd = Some x → x = a ∨ x = b ∨ x = e.
Proof.
  unfold tab. rewrite !lookup_insert_Some, lookup_singleton_Some. naive_solver.
Qed.

Lemma suffix_cons_l (m : nat) π q : m :: π `suffix_of` q → π `suffix_of` q.
Proof. intros [z ->]. exists (z ++ [m]). by rewrite <- app_assoc. Qed.

Lemma plan_name c π n j a b e q s G : (q, s, G) ∈ plan c π n j a b e → π `suffix_of` q.
Proof.
  revert π n j a b e. induction c as [[|a0 argv]|c IH file mode fd|l IHl r IHr|l IHl r IHr|c IH]; intros π n j a b e; cbn [plan].
  - by intros ?%not_elem_of_nil.
  - intros [= -> -> ->]%list_elem_of_singleton. done.
  - destruct (fd =? 0); apply IH.
  - rewrite !elem_of_app, list_elem_of_singleton. intros [?%IHl|[?%IHr|[= -> -> ->]]]; [by eapply suffix_cons_l..|done].
  - rewrite elem_of_app, elem_of_cons. intros [?%IHl|[[= -> -> ->]|?%IHr]]; [by eapply suffix_cons_l|done|done].
  - intros ?%IH. by eapply suffix_cons_l.
Qed.

(** A pipe end that is not from inside is one of the three that were given. *)
Lemma plan_ends c π n j a b e q s G fd x : (q, s, G) ∈ plan c π n j a b e → G !! fd = Some x →
  x = a ∨ x = b ∨ x = e ∨ (∃ path mode, x = OnPath path mode) ∨ ∃ q' i, π `suffix_of` q' ∧ (x = PR (q', i) ∨ x = PW (q', i)).
Proof.
  assert (Hs : ∀ m π x, (∃ q' i, m :: π `suffix_of` q' ∧ (x = PR (q', i) ∨ x = PW (q', i))) → ∃ q' i, π `suffix_of` q' ∧ (x = PR (q', i) ∨ x = PW (q', i))).
  { intros m π' y (q' & i & Hq & Hy). exists q', i. split; [by eapply suffix_cons_l|done]. }
  assert (Ht : ∀ a b e, tab a b e !! fd = Some x → x = a ∨ x = b ∨ x = e) by (intros; by eapply tab_lookup).
  intros Hin Hfd. revert π n j a b e Hin. induction c as [[|a0 argv]|c IH file mode fd'|l IHl r IHr|l IHl r IHr|c IH]; intros π n j a b e; cbn [plan].
  - by intros ?%not_elem_of_nil.
  - intros [= -> -> ->]%list_elem_of_singleton. apply Ht in Hfd. tauto.
  - destruct (fd' =? 0); intros H%IH; destruct H as [H|[H|[H|[H|H]]]]; subst; eauto 10.
  - rewrite !elem_of_app, list_elem_of_singleton. intros [H%IHl|[H%IHr|[= -> -> ->]]]; [| |apply Ht in Hfd; tauto].
    + destruct H as [H|[H|[H|[H|H]]]]; [tauto| |tauto|tauto|eauto 10]. subst. do 4 right. exists π, j. auto.
    + destruct H as [H|[H|[H|[H|H]]]]; [|tauto|tauto|tauto|eauto 10]. subst. do 4 right. exists π, j. auto.
  - rewrite elem_of_app, elem_of_cons. intros [H%IHl|[[= -> -> ->]|H%IHr]]; [|apply Ht in Hfd; tauto|done].
    destruct H as [H|[H|[H|[H|H]]]]; [tauto..|eauto 10].
  - intros H%IH. destruct H as [H|[H|[H|[H|H]]]]; [tauto..|eauto 10].
Qed.

(** ** One command after the other *)

(** A program that does not fork. *)
Fixpoint nofork {A} (t : prog A) : Prop :=
  match t with
  | Fork _ => False
  | Sys _ k => ∀ r, nofork (k r)
  | _ => True
  end.

Lemma nofork_panic {A B} s (f : A → prog B) : nofork (panic s ≫= f).
Proof. unfold panic. generalize (s ++ [10]). intros bs. induction bs as [|b bs IH]; [done|]. by intros r. Qed.

(** The shell waits for the left command, whose process is [0 :: π]. *)
Definition waiting (w : world) (π : name) : Prop :=
  (∃ p k, w !! π = Some p ∧ p_stat p = Code (Sys SWait k) ∧ p_forks p = 1%nat) ∧
  (∃ p, w !! (0%nat :: π) = Some p ∧ p_stat p ≠ Gone) ∧
  ∀ q p, w !! q = Some p → q = π ∨ 0%nat :: π `suffix_of` q.

(** It has ended. *)
Definition ended (w : world) (π : name) : Prop :=
  (∃ p, w !! π = Some p ∧ (1 ≤ p_forks p)%nat) ∧ ∃ p, w !! (0%nat :: π) = Some p ∧ live p = false.

(** It has not been started: the shell is before the fork, or the fork has failed. *)
Definition before (w : world) (π : name) (t : prog unit) : Prop :=
  (∀ q p, w !! q = Some p → q = π) ∧
  ∃ p, w !! π = Some p ∧ ((p_stat p = Code t ∧ p_forks p = 0%nat) ∨ (∃ t', p_stat p = Code t' ∧ nofork t') ∨ live p = false ∨ ∃ path argv, p_stat p = Runs path argv).

Lemma ended_step w w' π : (∀ q p, w !! q = Some p → π `suffix_of` q) → ended w π → step w w' → ended w' π.
Proof.
  intros Hroot [(p & Hp & Hf) (p0 & Hp0 & Hl)] (q & pq & pq' & [C1 C2 C3 C4 C5 C6 C8 C7])%step_changes.
  assert (Hne : 0%nat :: π ≠ q) by (intros <-; rewrite Hp0 in C1; injection C1 as <-; congruence). split.
  - destruct (decide (π = q)) as [<-|Hq].
    + exists pq'. split; [done|]. rewrite Hp in C1. injection C1 as <-. lia.
    + destruct (C7 π Hq) as [E|[(-> & k & pid & _ & E)|(i & k & px & -> & _ & Hx & Hz & E)]].
      * exists p. by rewrite E.
      * apply Hroot, suffix_len in C1. simpl in C1. lia.
      * eexists. split; [exact E|]. rewrite Hp in Hx. by injection Hx as <-.
  - destruct (C7 _ Hne) as [E|[(Hq & k & pid & Hk & E)|(i & k & px & Hq & _ & Hx & Hz & E)]].
    + exists p0. by rewrite E.
    + injection Hq as Hn <-. rewrite Hp in C1. injection C1 as <-. lia.
    + eexists. split; [exact E|done].
Qed.

(** While the shell waits, a step is one of the left command, or the end of the wait. *)
Lemma waiting_step w w' π : (∀ q p, w !! q = Some p → π `suffix_of` q) → waiting w π → step w w' → waiting w' π ∨ ended w' π.
Proof.
  intros Hroot [(p & k & Hp & Hs & Hf) [(p0 & Hp0 & Hg) Hall]] St. pose proof (step_changes _ _ St) as (q & pq & pq' & [C1 C2 C3 C4 C5 C6 C8 C7]).
  destruct (decide (q = π)) as [->|Hq].
  - rewrite Hp in C1. injection C1 as <-. right. split; [exists pq'; split; [done|lia]|].
    destruct (C7 (0%nat :: π) (cons_neq_self _ _)) as [E|[(_ & k' & pid & Hk & _)|(i & k' & px & Hq & _ & Hx & Hz & E)]].
    + destruct (C8 k Hs) as [(i & px & Hx & Hz & E')|Hno].
      * destruct (Hall _ _ Hx) as [E0|Hsuf]; [by apply cons_neq_self in E0|]. destruct Hsuf as [z Hz'].
        assert (z = []) as -> by (apply (f_equal length) in Hz'; rewrite length_app in Hz'; simpl in Hz'; destruct z; [done|simpl in Hz'; lia]).
        injection Hz' as ->. eexists. split; [exact E'|done].
      * destruct (Hno (0%nat :: π) p0). split_and!; [by exists 0%nat|done|done].
    + congruence.
    + eexists. split; [exact E|done].
  - left. destruct (Hall _ _ C1) as [|Hsuf]; [done|]. split_and!.
    + exists p, k. split; [|done]. destruct (C7 π ltac:(done)) as [E|[(E & _)|(i & k' & px & E & _)]]; [by rewrite E|..];
        apply suffix_len in Hsuf; apply (f_equal length) in E; simpl in *; lia.
    + destruct (decide (q = 0%nat :: π)) as [->|Hq0]; [by exists pq'|]. exists p0. split; [|done].
      destruct (C7 (0%nat :: π) ltac:(done)) as [E|[(E & _)|(i & k' & px & E & _)]]; [by rewrite E|..]; injection E as _ E; congruence.
    + intros x px Hx. destruct (decide (x = q)) as [->|Hxq]; [by right|].
      destruct (C7 x Hxq) as [E|[(-> & _)|(i & k' & py & -> & _)]]; [rewrite E in Hx; by eapply Hall|right; by apply suffix_cons_r..].
Qed.

(** A process that does not fork stays alone. *)
Definition alone (w : world) (π : name) : Prop :=
  (∀ q p, w !! q = Some p → q = π) ∧ ∃ p, w !! π = Some p ∧ ∀ t, p_stat p = Code t → nofork t.

Lemma alone_insert w π p : (∀ q p, w !! q = Some p → q = π) → (∀ t, p_stat p = Code t → nofork t) → alone (<[π := p]> w) π.
Proof.
  intros H1 H2. split; [|exists p; by rewrite lookup_insert_eq].
  intros q p'. rewrite lookup_insert. case_decide; [done|apply H1].
Qed.

Lemma alone_step w w' π : alone w π → step w w' → alone w' π.
Proof.
  intros [Hall (p0 & Hp0 & Hnf)] St.
  destruct St as [π' p c k r G j H1 H2 H3|π' p path argv k H1 H2|π' p k pid H1 H2 H3 H6|π' p k H1 H2|π' p k q' pq H1 H2 H3 H4|π' p k H1 H2 H3|π' p H1 H2];
    pose proof (Hall _ _ H1) as ->; rewrite Hp0 in H1; injection H1 as <-; try (pose proof (Hnf _ H2) as Hn; simpl in Hn; try done).
  - apply alone_insert; [done|]. intros t [= <-]. apply Hn.
  - by apply alone_insert.
  - destruct H3 as ((i & ->) & Hq & _). by pose proof (Hall _ _ Hq) as E%cons_neq_self.
  - apply alone_insert; [done|]. intros t [= <-]. apply Hn.
  - by apply alone_insert.
Qed.

Section list.
Context (l r : cmd) (π : name) (F : table).

(** It starts with a fork, after which the shell waits. *)
Lemma list_forks : ∃ k, runcmd (LIST l r) = Fork k ∧ (∀ pid, 0 < pid → ∃ k', k pid = Sys SWait k') ∧ nofork (k (-1)).
Proof.
  eexists. split; [reflexivity|]. split.
  - intros pid Hp. cbn beta. rewrite (proj2 (Z.eqb_neq pid (-1))) by lia. change (mret pid) with (Done pid). cbn [mbind prog_bind].
    rewrite (proj2 (Z.eqb_neq pid 0)) by lia. eexists. reflexivity.
  - apply (nofork_panic (str "fork")).
Qed.

Lemma list_first w : step (start π (runcmd (LIST l r)) F) w → alone w π ∨ waiting w π.
Proof.
  destruct list_forks as (kf & -> & Hpar & Hfail).
  assert (Hall : ∀ q p, start π (Fork kf) F !! q = Some p → q = π ∧ p = mkp (Code (Fork kf)) F 0 0 1 []).
  { intros q p Hq. unfold start in Hq. apply lookup_singleton_Some in Hq as [<- <-]. done. }
  intros St. remember (start π (Fork kf) F) as w0 eqn:E0.
  destruct St as [π' p c k r' G j H1 H2 H3|π' p path argv k H1 H2|π' p k pid H1 H2 H3 H6|π' p k H1 H2|π' p k q' pq H1 H2 H3 H4|π' p k H1 H2 H3|π' p H1 H2];
    destruct (Hall _ _ H1) as [-> ->]; cbn [p_stat p_forks p_fds p_pipes p_pid] in *; try done.
  - right. injection H2 as <-. destruct (Hpar pid H3) as [k' Ek]. split_and!.
    + eexists _, k'. rewrite lookup_insert_ne by apply cons_neq_self. rewrite lookup_insert_eq. split; [reflexivity|]. by rewrite <- Ek.
    + eexists. by rewrite lookup_insert_eq.
    + intros q p. rewrite !lookup_insert. case_decide as E1; [intros _; right; by subst|]. case_decide as E2; [by left|].
      intros Hq. left. by apply (Hall q p).
  - left. injection H2 as <-. apply alone_insert; [intros q p Hq; by apply (Hall q p)|]. by intros t [= <-].
  - by destruct H2 as [|(? & ? & ?)].
Qed.

Lemma list_phases w : reach π (runcmd (LIST l r)) F w → w = start π (runcmd (LIST l r)) F ∨ alone w π ∨ waiting w π ∨ ended w π.
Proof.
  revert w. apply (reach_ind (λ w, w = start π (runcmd (LIST l r)) F ∨ alone w π ∨ waiting w π ∨ ended w π)); [by left|].
  intros w w' R St IH. right. assert (Hroot : ∀ q p, w !! q = Some p → π `suffix_of` q) by (intros q p; by apply (reach_names _ _ _ _ _ _ R)).
  destruct IH as [->|[Ha|[Hw|He]]].
  - destruct (list_first _ St); auto.
  - left. by eapply alone_step.
  - right. by eapply waiting_step.
  - do 2 right. by eapply ended_step.
Qed.
End list.

(** ** The loop of the shell *)

(** The lines in what the reads of the shell, each of one byte, have returned: a line ends with a
    newline or a carriage return, when it has 99 bytes, and when a read returns
    no byte.  The second part is the line that has not ended yet. *)
Definition typed_next (x : list (list Z) * list Z) (r : list Z) : list (list Z) * list Z :=
  let '(lines, cur) := x in
  match r with
  | [] => (lines ++ [cur], [])
  | c :: _ =>
      if (c =? 10) || (c =? 13) || (length cur =? 98)%nat then (lines ++ [cur ++ [c]], [])
      else (lines, cur ++ [c])
  end.
Definition typed (h : list (list Z)) : list (list Z) * list Z := foldl typed_next ([], []) h.

(** How many of the lines are commands for a new process. *)
Definition commands (lines : list (list Z)) : nat := length (filter (λ l, is_cd l = false) lines).

Lemma typed_snoc h r : typed (h ++ [r]) = typed_next (typed h) r.
Proof. unfold typed. by rewrite foldl_app. Qed.

(** [gets] in the middle of a line gives the rest of it. *)
Lemma wp_gets room π n j h F P (R : post (list Z)) lines cur : typed h = (lines, cur) → (room + length cur = 99)%nat → (0 < room)%nat →
  (∀ buf h', typed h' = (lines ++ [cur ++ buf], []) → R buf π n j h' F) → wp (gets room) π n j h F (keyed P) R.
Proof.
  revert h cur R. induction room as [|room IH]; intros h cur R Ht Hl Hr HR; [lia|]. cbn [gets].
  apply wp_seq, wp_sys; [done|done|]. intros [cc bs] F' j' Hlo. cbn [hear snd].
  assert (F' = F ∧ j' = j ∧ (cc <? 1 = true ↔ bs = [])) as (-> & -> & Hcc).
  { inversion Hlo; subst; (split; [done|split; [done|]]); [|done]. destruct bs; cbn [length]; rewrite Z.ltb_lt; split; intros; (done || lia). }
  assert (Hn : typed (h ++ [bs]) = typed_next (lines, cur) bs) by (by rewrite typed_snoc, Ht). cbn beta iota zeta.
  destruct bs as [|c bs].
  { rewrite (proj2 Hcc) by done. apply HR. by rewrite Hn, app_nil_r. }
  assert (Hc1 : (cc <? 1) = false) by (destruct (cc <? 1); [|done]; by specialize (proj1 Hcc eq_refl)). rewrite Hc1. change (default 0 (head (c :: bs))) with c. cbn [typed_next] in Hn.
  destruct ((c =? 10) || (c =? 13)) eqn:E; [by apply HR|]. cbn [orb] in Hn. apply wp_seq.
  destruct room as [|room].
  - assert ((length cur =? 98)%nat = true) as Hfull by (apply Nat.eqb_eq; lia). rewrite Hfull in Hn. by apply HR.
  - assert ((length cur =? 98)%nat = false) as Hfull by (apply Nat.eqb_neq; lia). rewrite Hfull in Hn.
    apply (IH _ (cur ++ [c])); [done|rewrite length_app; cbn [length]; lia|lia|].
    intros buf h' Hh. apply HR. rewrite Hh. by rewrite <- app_assoc.
Qed.

Lemma wp_getcmd π n j h F P (R : post (option (list Z))) lines : typed h = (lines, []) →
  (∀ h', R None π n j h' F) → (∀ buf h', typed h' = (lines ++ [buf], []) → R (Some buf) π n j h' F) → wp (getcmd 100) π n j h F (keyed P) R.
Proof.
  intros Ht H0 H1. apply wp_seq, wp_say. apply wp_seq. apply (wp_gets _ π n j h F P _ lines []); [done|done|change (Z.to_nat (100 - 1)) with 99%nat; lia|].
  intros buf h' Hh. case_match; [apply H0|by apply H1].
Qed.

(** [parsecmd] is the parser of Sh.v. *)
Lemma parsecmd_parse line c s : (c ← parseline (parse_fuel line); peek [];; s ← get; mret (c, s)) line = Ok (c, []) s → parse line = Ok c s.
Proof.
  intros E. apply bind_inv_ok in E as (c' & s1 & E1 & E). apply bind_inv_ok in E as (b & s2 & E2 & E).
  apply bind_inv_ok in E as (s' & s3 & E3 & E). unfold parse, parse_line. mstep E1. mstep E2. mstep E3.
  injection E as -> -> ->. done.
Qed.

Lemma run_line_runs line c s : parse line = Ok c s → run_line line = runcmd c.
Proof.
  intros E. apply bind_inv_ok in E as (c' & s1 & E1 & E). apply bind_inv_ok in E as (b & s2 & E2 & E).
  apply bind_inv_ok in E as (s' & s3 & E3 & E). unfold run_line. mstep E1. mstep E2. mstep E3.
  destruct s' as [|z s']; [|done]. injection E as -> ->. done.
Qed.

Lemma wp_run_line line π n j h a b e (P : event → list (list Z) → Prop) :
  (∀ c s x, parse line = Ok c s → x ∈ plan c π n j a b e → P x h) → wp (run_line line) π n j h (tab a b e) (keyed P) nowhere.
Proof.
  intros HP. unfold run_line.
  destruct ((c ← parseline (parse_fuel line); peek [];; s ← get; mret (c, s)) line) as [[c s] s'|msg| | |] eqn:E; try done; [|apply wp_panic].
  case_bool_decide as Hs; [|apply wp_seq, wp_say, wp_panic]. subst s. pose proof (parsecmd_parse line c s' E) as Hp.
  eapply wp_mono; [apply wp_runcmd; by eapply parse_redirs| |done]. intros x h'. apply keyed_impl. intros y [-> Hy]. by apply (HP c s').
Qed.

(** What the shell's processes do: it waits, and they do what is in the plan of the line that it
    has read last; the process has the number of the lines before it that are commands too. *)
Definition of_line (π : name) (a b e : endp) (x : event) (h : list (list Z)) : Prop :=
  ∃ lines line c s, typed h = (lines ++ [line], []) ∧ is_cd line = false ∧ parse (upto_nul line) = Ok c s ∧
    x ∈ plan c (commands lines :: π) 0 0 a b e.
Definition of_lines (π : name) (a b e : endp) (x : event) (h : list (list Z)) : Prop :=
  x = (π, SWait, tab a b e) ∨ of_line π a b e x h.

Lemma commands_snoc lines l : commands (lines ++ [l]) = (if is_cd l then commands lines else S (commands lines)).
Proof.
  unfold commands. rewrite filter_app, length_app, filter_cons, filter_nil. destruct (is_cd l); case_decide; try done; simpl; lia.
Qed.

Lemma wp_sh_loop fuel π j h a b e lines : typed h = (lines, []) →
  wp (sh_loop fuel) π (commands lines) j h (tab a b e) (keyed (of_lines π a b e)) anywhere.
Proof.
  revert h lines. induction fuel as [|fuel IH]; intros h lines Ht; cbn [sh_loop]; [done|].
  apply wp_seq, (wp_getcmd _ _ _ _ _ _ _ lines); [done|done|]. intros buf h' Hh. destruct (is_cd buf) eqn:Ec.
  - pose proof (commands_snoc lines buf) as Hn. rewrite Ec in Hn. rewrite <- Hn.
    apply wp_seq, wp_syz; [done|done|]. intros r F' j' Hl. inversion Hl; subst. case_match; [apply wp_seq, wp_say|]; by apply IH.
  - apply wp_child.
    + apply wp_run_line. intros c s x Hp Hx. right. exists lines, buf, c, s. done.
    + pose proof (commands_snoc lines buf) as Hn. rewrite Ec in Hn. rewrite <- Hn.
      apply wp_seq, wp_wait; [intros _; by left|intros _]. by apply IH.
Qed.

Lemma wp_open_console fuel π n j h a b e P (R : post unit) : R tt π n j h (tab a b e) → wp (open_console fuel) π n j h (tab a b e) (keyed P) R.
Proof.
  intros HR. destruct fuel as [|fuel]; [done|]. cbn [open_console]. apply wp_seq, wp_syz; [done|done|].
  intros r F' j' Hl. inversion Hl as [? ? ? ? y Hy|? ? ? ?| | | | | | | | | | | | | |]; subst; simpl fst.
  - vm_compute in Hy. injection Hy as <-. change (0 <=? 3) with true. change (3 <=? 3) with true. cbv iota.
    apply wp_seq, (wp_close 3 (OnPath (str "console") O_RDWR)); [reflexivity|intros _]. exact HR.
  - exact HR.
Qed.

(** ** Every program of the plan can be started *)

Section starts.
Implicit Types (w : world) (π q : name) (F : table) (h : list (list Z)) (P : world → Prop).

Lemma can_syz w π F n j pid h fs c (f : Z → prog unit) ch r F' j' P :
  w !! π = Some (mkp (Code (before_all fs (syz c ≫= f))) F n j pid h) → c ≠ SWait → (∀ path argv, c ≠ SExec path argv) →
  ch ≠ Bad → local_fn π c F j ch = Some (r, F', j') →
  (∀ w', w' !! π = Some (mkp (Code (before_all fs (f r.1))) F' n j' pid (hear c r h)) → only_at π w w' → can w' P) → can w P.
Proof.
  intros Hw. change (syz c ≫= f) with (Sys c (λ r, f r.1)) in Hw. rewrite before_sys in Hw. by apply (can_sys _ _ _ _ _ _ _ _ _ _ _ _ _ _ Hw).
Qed.

Lemma can_close w π F n j pid h fs fd x (f : Z → prog unit) P :
  w !! π = Some (mkp (Code (before_all fs (syz (SClose fd) ≫= f))) F n j pid h) → F !! fd = Some x →
  (∀ w', w' !! π = Some (mkp (Code (before_all fs (f 0))) (delete fd F) n j pid h) → only_at π w w' → can w' P) → can w P.
Proof. intros Hw Hx. apply (can_syz _ _ _ _ _ _ _ _ _ _ Good (0, []) _ _ _ Hw); [done|done|done|]. cbn [local_fn]. by rewrite Hx. Qed.

Lemma can_dup w π F n j pid h fs fd x m (f : Z → prog unit) P :
  w !! π = Some (mkp (Code (before_all fs (syz (SDup fd) ≫= f))) F n j pid h) → F !! fd = Some x → lowest_fd F = Some m →
  (∀ w', w' !! π = Some (mkp (Code (before_all fs (f m))) (<[m := x]> F) n j pid h) → only_at π w w' → can w' P) → can w P.
Proof. intros Hw Hx Hm. apply (can_syz _ _ _ _ _ _ _ _ _ _ Good (m, []) _ _ _ Hw); [done|done|done|]. cbn [local_fn]. by rewrite Hx, Hm. Qed.

Lemma can_open w π F n j pid h fs path mode m (f : Z → prog unit) P :
  w !! π = Some (mkp (Code (before_all fs (syz (SOpen path mode) ≫= f))) F n j pid h) → lowest_fd F = Some m →
  (∀ w', w' !! π = Some (mkp (Code (before_all fs (f m))) (<[m := OnPath path mode]> F) n j pid h) → only_at π w w' → can w' P) → can w P.
Proof. intros Hw Hm. apply (can_syz _ _ _ _ _ _ _ _ _ _ Good (m, []) _ _ _ Hw); [done|done|done|]. cbn [local_fn]. by rewrite Hm. Qed.

(** A new process for [t]. *)
Lemma can_child w π F n j pid h fs (t u : prog unit) P :
  w !! π = Some (mkp (Code (before_all fs (x ← fork1; (if x =? 0 then t else mret tt);; u))) F n j pid h) →
  (∀ w' y, w' !! π = Some (mkp (Code (before_all fs u)) F (S n) j pid h) →
     w' !! (n :: π) = Some (mkp (Code (before_all ((λ _, u) :: fs) t)) F 0 0 y h) →
     (∀ q, q ≠ π → q ≠ n :: π → w' !! q = w !! q) → can w' P) → can w P.
Proof.
  intros Hw H. change (x ← fork1; _) with (Fork (λ x, (if x =? -1 then panic (str "fork") else mret x) ≫= λ x, (if x =? 0 then t else mret tt);; u)) in Hw.
  rewrite before_fork in Hw. apply (can_fork _ _ _ _ _ _ _ _ _ Hw). intros w' x y Hx H1 H2 H3. apply (H w' y); [|exact H2|exact H3].
  rewrite H1. rewrite (proj2 (Z.eqb_neq x (-1))) by lia. change (mret x) with (Done x). cbn [mbind prog_bind].
  by rewrite (proj2 (Z.eqb_neq x 0)) by lia.
Qed.

(** The redirection of descriptor [fd]. *)
Lemma can_redir w π n j pid h fs fd path mode a b e (u t : prog unit) P : fd = 0 ∨ fd = 1 →
  w !! π = Some (mkp (Code (before_all fs (syz (SClose fd);; r ← syz (SOpen path mode); (if r <? 0 then u else mret tt);; t))) (tab a b e) n j pid h) →
  (∀ w', w' !! π = Some (mkp (Code (before_all fs t)) (if fd =? 0 then tab (OnPath path mode) b e else tab a (OnPath path mode) e) n j pid h) →
     only_at π w w' → can w' P) → can w P.
Proof.
  intros Hfd Hw H. assert (Hx : ∃ x, tab a b e !! fd = Some x) by (destruct Hfd as [-> | ->]; eexists; reflexivity).
  destruct Hx as [x Hx]. apply (can_close _ _ _ _ _ _ _ _ _ _ _ _ Hw Hx). intros w1 H1 O1.
  assert (Hlow : lowest_fd (delete fd (tab a b e)) = Some fd) by (destruct Hfd as [-> | ->]; reflexivity).
  apply (can_open _ _ _ _ _ _ _ _ _ _ _ _ _ H1 Hlow). intros w2 H2 O2. apply H.
  - rewrite H2. by destruct Hfd as [-> | ->].
  - intros y Hy. by rewrite O2, O1.
Qed.

(** The child of a pipe: end [y] of it becomes descriptor [fd]. *)
Lemma can_side w π n j pid h fs fd p x y qj a b e (t : prog unit) P : piped a b e qj !! fd = Some x → piped a b e qj !! p = Some y →
  (fd = 0 ∨ fd = 1) → (p = 3 ∨ p = 4) →
  w !! π = Some (mkp (Code (before_all fs (syz (SClose fd);; syz (SDup p);; syz (SClose 3);; syz (SClose 4);; t))) (piped a b e qj) n j pid h) →
  (∀ w', w' !! π = Some (mkp (Code (before_all fs t)) (if fd =? 0 then tab y b e else tab a y e) n j pid h) → only_at π w w' → can w' P) → can w P.
Proof.
  intros Hx Hy Hfd Hp Hw H. apply (can_close _ _ _ _ _ _ _ _ _ _ _ _ Hw Hx). intros w1 H1 O1.
  eapply (can_dup _ _ _ _ _ _ _ _ _ y fd _ _ H1); [by destruct Hfd as [-> | ->], Hp as [-> | ->]|by destruct Hfd as [-> | ->]|]. intros w2 H2 O2.
  eapply (can_close _ _ _ _ _ _ _ _ _ (PR qj) _ _ H2); [by destruct Hfd as [-> | ->]|]. intros w3 H3 O3.
  eapply (can_close _ _ _ _ _ _ _ _ _ (PW qj) _ _ H3); [by destruct Hfd as [-> | ->]|]. intros w4 H4 O4. apply H.
  - rewrite H4. by destruct Hfd as [-> | ->].
  - intros z Hz. by rewrite O4, O3, O2, O1.
Qed.

Lemma forked_in n π w w' : (∀ q, q ≠ π → q ≠ n :: π → w' !! q = w !! q) → only_in π w w'.
Proof. intros H x Hx. apply H; intros ->; apply Hx; [done|by apply suffix_cons_r]. Qed.

Lemma can_waits w π F n j pid h fs i pq (f : Z → prog unit) P :
  w !! π = Some (mkp (Code (before_all fs (syz SWait ≫= f))) F n j pid h) → w !! (i :: π) = Some pq → p_stat pq = Zombie →
  (∀ w', w' !! π = Some (mkp (Code (before_all fs (f (p_pid pq)))) F n j pid h) → (∀ q, q ≠ π → q ≠ i :: π → w' !! q = w !! q) → can w' P) → can w P.
Proof.
  intros Hw. change (syz SWait ≫= f) with (Sys SWait (λ r, f r.1)) in Hw. rewrite before_sys in Hw. by apply (can_wait _ _ _ _ _ _ _ _ _ _ _ Hw).
Qed.

Lemma can_execs w π F n j pid h fs path argv (f : Z → prog unit) P :
  w !! π = Some (mkp (Code (before_all fs (syz (SExec path argv) ≫= f))) F n j pid h) →
  (∀ w', w' !! π = Some (mkp (Runs path argv) F n j pid h) → only_at π w w' → can w' P) → can w P.
Proof.
  intros Hw. change (syz (SExec path argv) ≫= f) with (Sys (SExec path argv) (λ r, f r.1)) in Hw. rewrite before_sys in Hw.
  by apply (can_exec _ _ _ _ _ _ _ _ _ _ _ Hw).
Qed.

Lemma can_pipe w π n j pid h fs a b e (f : reply → prog unit) P :
  w !! π = Some (mkp (Code (before_all fs (sys SPipe ≫= f))) (tab a b e) n j pid h) →
  (∀ w', w' !! π = Some (mkp (Code (before_all fs (f (0, [3; 4])))) (piped a b e (π, j)) n (S j) pid h) → only_at π w w' → can w' P) → can w P.
Proof.
  intros Hw. change (sys SPipe ≫= f) with (Sys SPipe f) in Hw. rewrite before_sys in Hw.
  apply (can_sys _ _ _ _ _ _ _ _ _ _ Good (0, [3; 4]) (piped a b e (π, j)) (S j) Hw); [done|done|done|reflexivity].
Qed.

(** Both children of a pipe, and what the shell does then. *)
Definition pipe_left (l : cmd) : prog unit := syz (SClose 1);; syz (SDup 4);; syz (SClose 3);; syz (SClose 4);; runcmd l.
Definition pipe_right (r : cmd) : prog unit := syz (SClose 0);; syz (SDup 3);; syz (SClose 3);; syz (SClose 4);; runcmd r.
Definition pipe_rest : prog unit := syz (SClose 3);; syz (SClose 4);; syz SWait;; syz SWait;; Stop.

Lemma can_pipe_left w π n j pid h fs a b e l r P :
  w !! π = Some (mkp (Code (before_all fs (runcmd (PIPE l r)))) (tab a b e) n j pid h) →
  (∀ w' y gs, w' !! (n :: π) = Some (mkp (Code (before_all gs (runcmd l))) (tab a (PW (π, j)) e) 0 0 y h) →
     w' !! π = Some (mkp (Code (before_all fs (x ← fork1; (if x =? 0 then pipe_right r else mret tt);; pipe_rest))) (piped a b e (π, j)) (S n) (S j) pid h) →
     only_in π w w' → can w' P) → can w P.
Proof.
  intros Hw H. cbn [runcmd] in Hw. apply (can_pipe _ _ _ _ _ _ _ _ _ _ _ _ Hw). clear Hw. intros w1 H1 O1.
  apply (can_child _ _ _ _ _ _ _ _ (pipe_left l) (x ← fork1; (if x =? 0 then pipe_right r else mret tt);; pipe_rest) _ H1). clear H1. intros w2 y H2 H3 O2.
  eapply (can_side _ (n :: π) _ _ _ _ _ 1 4 b (PW (π, j)) (π, j) a b e (runcmd l)); [reflexivity|reflexivity|by right|by right|exact H3|].
  intros w3 H4 O3. apply (H w3 y _ H4).
  - rewrite O3; [exact H2|]. intros E. symmetry in E. by apply cons_neq_self in E.
  - eapply only_in_trans; [by apply only_at_in|]. eapply only_in_trans; [by apply (forked_in n)|]. by apply (only_in_cons n), only_at_in.
Qed.

Lemma can_pipe_right w π n j pid h fs a b e r P :
  w !! π = Some (mkp (Code (before_all fs (x ← fork1; (if x =? 0 then pipe_right r else mret tt);; pipe_rest))) (piped a b e (π, j)) (S n) (S j) pid h) →
  (∀ w' y gs, w' !! (S n :: π) = Some (mkp (Code (before_all gs (runcmd r))) (tab (PR (π, j)) b e) 0 0 y h) →
     w' !! π = Some (mkp (Code (before_all fs pipe_rest)) (piped a b e (π, j)) (S (S n)) (S j) pid h) →
     (∀ x, x ≠ π → ¬ S n :: π `suffix_of` x → w' !! x = w !! x) → can w' P) → can w P.
Proof.
  intros Hw H. apply (can_child _ _ _ _ _ _ _ _ (pipe_right r) pipe_rest _ Hw). clear Hw. intros w2 y H2 H3 O2.
  eapply (can_side _ (S n :: π) _ _ _ _ _ 0 3 a (PR (π, j)) (π, j) a b e (runcmd r)); [reflexivity|reflexivity|by left|by left|exact H3|].
  intros w3 H4 O3. apply (H w3 y _ H4).
  - rewrite O3; [exact H2|]. intros E. symmetry in E. by apply cons_neq_self in E.
  - intros x Hx Hs. rewrite O3, O2; [done|done| |]; intros ->; by apply Hs.
Qed.

(** A command comes to its end. *)
Definition ends (c : cmd) : Prop := ∀ w π n j pid h fs a b e P, redirs_ok c →
  w !! π = Some (mkp (Code (before_all fs (runcmd c))) (tab a b e) n j pid h) →
  (∀ w' p, w' !! π = Some p → p_stat p = Zombie → only_in π w w' → can w' P) → can w P.

Lemma pipe_ends l r : ends l → ends r → ends (PIPE l r).
Proof.
  intros IHl IHr w π n j pid h fs a b e P [Hl Hr] Hw H. apply (can_pipe_left _ _ _ _ _ _ _ _ _ _ _ _ _ Hw). clear Hw. intros w1 y1 g1 H1 P1 O1.
  apply (IHl _ _ _ _ _ _ _ _ _ _ _ Hl H1). clear H1. intros w2 p2 H2 Z2 O2. rewrite <- (only_in_parent _ _ _ _ O2) in P1.
  apply (can_pipe_right _ _ _ _ _ _ _ _ _ _ _ _ P1). clear P1. intros w3 y3 g3 H3 P3 O3.
  apply (IHr _ _ _ _ _ _ _ _ _ _ _ Hr H3). clear H3. intros w4 p4 H4 Z4 O4. rewrite <- (only_in_parent _ _ _ _ O4) in P3. unfold pipe_rest in P3.
  eapply (can_close _ _ _ _ _ _ _ _ _ (PR (π, j)) _ _ P3); [reflexivity|]. intros w5 H5 O5.
  eapply (can_close _ _ _ _ _ _ _ _ _ (PW (π, j)) _ _ H5); [reflexivity|]. intros w6 H6 O6.
  assert (Hne : ∀ i, i :: π ≠ π) by (intros i; apply cons_neq_self).
  assert (A2 : w6 !! (n :: π) = Some p2).
  { rewrite O6, O5, (only_in_sister (S n) n π w3 w4), O3; [exact H2|done| |lia|exact O4|done|done].
    intros [z Ez]. destruct z as [|v z]; [injection Ez; lia|apply (f_equal length) in Ez; rewrite length_app in Ez; simpl in Ez; lia]. }
  assert (A4 : w6 !! (S n :: π) = Some p4) by (by rewrite O6, O5).
  apply (can_waits _ _ _ _ _ _ _ _ n p2 _ _ H6 A2 Z2). intros w7 H7 O7.
  assert (B4 : w7 !! (S n :: π) = Some p4) by (rewrite O7; [done|done|intros E; injection E; lia]).
  apply (can_waits _ _ _ _ _ _ _ _ (S n) p4 _ _ H7 B4 Z4). intros w8 H8 O8. rewrite before_stop in H8.
  apply (can_exit _ _ _ _ _ _ _ _ _ H8); [by left|]. intros w9 H9 O9. apply (H w9 _ H9); [done|].
  assert (I3 : only_in π w2 w3) by (intros x Hx; apply O3; [by intros ->|by intros Hs%suffix_cons_l]).
  apply (only_in_trans _ _ w1); [done|]. apply (only_in_trans _ _ w2); [by eapply only_in_cons|].
  apply (only_in_trans _ _ w3); [done|]. apply (only_in_trans _ _ w4); [by eapply only_in_cons|].
  apply (only_in_trans _ _ w5); [by apply only_at_in|]. apply (only_in_trans _ _ w6); [by apply only_at_in|].
  apply (only_in_trans _ _ w7); [by eapply forked_in|]. apply (only_in_trans _ _ w8); [by eapply forked_in|by apply only_at_in].
Qed.

Lemma can_end c : ends c.
Proof.
  induction c as [[|a0 argv]|c IH file mode fd|l IHl r IHr|l IHl r IHr|c IH]; intros w π n j pid h fs a b e P Hr Hw H.
  - cbn [runcmd] in Hw. rewrite before_stop in Hw. apply (can_exit _ _ _ _ _ _ _ _ _ Hw); [by left|]. intros w' H1 O. by apply (H w' _ H1), only_at_in.
  - cbn [runcmd] in Hw. apply (can_execs _ _ _ _ _ _ _ _ _ _ _ _ Hw). clear Hw. intros w1 H1 O1.
    apply (can_exit _ _ _ _ _ _ _ _ _ H1); [right; eauto|]. intros w2 H2 O2. apply (H w2 _ H2); [done|].
    by eapply only_in_trans; apply only_at_in.
  - destruct Hr as [Hr Hfd]. cbn [runcmd] in Hw. apply (can_redir _ _ _ _ _ _ _ _ _ _ _ _ _ _ _ _ Hfd Hw). clear Hw. intros w1 H1 O1.
    change (before_all fs (runcmd c;; Stop)) with (before_all ((λ _, Stop) :: fs) (runcmd c)) in H1.
    assert (E : ∃ a' b', (if fd =? 0 then tab (OnPath (token_text file) mode) b e else tab a (OnPath (token_text file) mode) e) = tab a' b' e) by (destruct (fd =? 0); eauto).
    destruct E as (a' & b' & E). rewrite E in H1. apply (IH _ _ _ _ _ _ _ _ _ _ _ Hr H1). intros w2 p H2 Hz O2. apply (H w2 p H2 Hz).
    eapply only_in_trans; [by apply only_at_in|done].
  - by apply (pipe_ends l r IHl IHr w π n j pid h fs a b e).
  - destruct Hr as [Hl Hr]. cbn [runcmd] in Hw. apply (can_child _ _ _ _ _ _ _ _ (runcmd l) _ _ Hw). clear Hw. intros w1 y1 P1 H1 O1.
    apply (IHl _ _ _ _ _ _ _ _ _ _ _ Hl H1). clear H1. intros w2 p2 H2 Z2 O2. rewrite <- (only_in_parent _ _ _ _ O2) in P1.
    apply (can_waits _ _ _ _ _ _ _ _ n p2 _ _ P1 H2 Z2). intros w3 H3 O3.
    change (before_all fs (runcmd r;; Stop)) with (before_all ((λ _, Stop) :: fs) (runcmd r)) in H3.
    apply (IHr _ _ _ _ _ _ _ _ _ _ _ Hr H3). intros w4 p4 H4 Z4 O4. apply (H w4 p4 H4 Z4).
    apply (only_in_trans _ _ w1); [by eapply forked_in|]. apply (only_in_trans _ _ w2); [by eapply only_in_cons|].
    apply (only_in_trans _ _ w3); [by eapply forked_in|done].
  - cbn [runcmd] in Hw. apply (can_child _ _ _ _ _ _ _ _ (runcmd c) _ _ Hw). clear Hw. intros w1 y1 P1 H1 O1. rewrite before_stop in P1.
    apply (can_exit _ _ _ _ _ _ _ _ _ P1); [by left|]. intros w2 H2 O2. apply (H w2 _ H2); [done|].
    eapply only_in_trans; [by eapply forked_in|by apply only_at_in].
Qed.

(** The world in which process [q] runs a program with the descriptors [G]. *)
Definition running (q : name) (path : list Z) (argv : list (list Z)) (G : table) (w : world) : Prop :=
  ∃ p, w !! q = Some p ∧ p_stat p = Runs path argv ∧ p_fds p = G.

Lemma can_start c : ∀ w π n j pid h fs a b e q path argv G, redirs_ok c →
  w !! π = Some (mkp (Code (before_all fs (runcmd c))) (tab a b e) n j pid h) →
  (q, SExec path argv, G) ∈ plan c π n j a b e → can w (running q path argv G).
Proof.
  induction c as [[|a0 args]|c IH file mode fd|l IHl r IHr|l IHl r IHr|c IH]; intros w π n j pid h fs a b e q path argv G Hr Hw Hin; cbn [plan] in Hin.
  - by apply not_elem_of_nil in Hin.
  - apply list_elem_of_singleton in Hin as [= -> -> -> ->]. cbn [runcmd] in Hw. apply (can_execs _ _ _ _ _ _ _ _ _ _ _ _ Hw). intros w1 H1 _.
    apply can_ret. by eexists.
  - destruct Hr as [Hr Hfd]. cbn [runcmd] in Hw. apply (can_redir _ _ _ _ _ _ _ _ _ _ _ _ _ _ _ _ Hfd Hw). clear Hw. intros w1 H1 _.
    change (before_all fs (runcmd c;; Stop)) with (before_all ((λ _, Stop) :: fs) (runcmd c)) in H1.
    destruct (fd =? 0); by apply (IH _ _ _ _ _ _ _ _ _ _ _ _ _ _ Hr H1).
  - destruct Hr as [Hl Hr]. apply (can_pipe_left _ _ _ _ _ _ _ _ _ _ _ _ _ Hw). clear Hw. intros w1 y1 g1 H1 P1 _.
    rewrite !elem_of_app, list_elem_of_singleton in Hin. destruct Hin as [Hin|[Hin|Hin]]; [by apply (IHl _ _ _ _ _ _ _ _ _ _ _ _ _ _ Hl H1)| |done].
    apply (can_pipe_right _ _ _ _ _ _ _ _ _ _ _ _ P1). intros w2 y2 g2 H2 _ _. by apply (IHr _ _ _ _ _ _ _ _ _ _ _ _ _ _ Hr H2).
  - destruct Hr as [Hl Hr]. cbn [runcmd] in Hw. apply (can_child _ _ _ _ _ _ _ _ (runcmd l) _ _ Hw). clear Hw. intros w1 y1 P1 H1 _.
    rewrite elem_of_app, elem_of_cons in Hin. destruct Hin as [Hin|[Hin|Hin]]; [by apply (IHl _ _ _ _ _ _ _ _ _ _ _ _ _ _ Hl H1)|done|].
    apply (can_end l _ _ _ _ _ _ _ _ _ _ _ Hl H1). intros w2 p2 H2 Z2 O2. rewrite <- (only_in_parent _ _ _ _ O2) in P1.
    apply (can_waits _ _ _ _ _ _ _ _ n p2 _ _ P1 H2 Z2). intros w3 H3 _.
    change (before_all fs (runcmd r;; Stop)) with (before_all ((λ _, Stop) :: fs) (runcmd r)) in H3.
    by apply (IHr _ _ _ _ _ _ _ _ _ _ _ _ _ _ Hr H3).
  - cbn [runcmd] in Hw. apply (can_child _ _ _ _ _ _ _ _ (runcmd c) _ _ Hw). clear Hw. intros w1 y1 _ H1 _.
    by apply (IH _ _ _ _ _ _ _ _ _ _ _ _ _ _ Hr H1).
Qed.
End starts.

(** ** The theorems *)

(** C30: what the shell starts.  In every interleaving, and whatever calls fail, a program that the shell
    starts is one of the line that the shell has read last when it makes the process for it:
    the line is the one in what its reads have returned, its process is the one made for the line,
    after one for each command line before it, and the program is in the plan of the parsed line,
    in the process and with exactly the descriptors that the plan says, the ends of
    the pipes and the files of the redirections in place of 0 and 1, and no other
    descriptor.  Conversely, for every line that parses and every program in its plan there is an order of
    the steps, in which no call fails, that leads to the program being started, in
    the process and with the descriptors of the plan; and one after which the process of the line has
    ended. *)
Theorem shell_plan fuel π a b e :
  (∀ w q p path argv, reach π (sh_main fuel) (tab a b e) w → w !! q = Some p → p_stat p = Runs path argv →
     ∃ lines line c s, typed (p_heard p) = (lines ++ [line], []) ∧ is_cd line = false ∧ parse (upto_nul line) = Ok c s ∧
       (q, SExec path argv, p_fds p) ∈ plan c (commands lines :: π) 0 0 a b e) ∧
  (∀ line c s, parse line = Ok c s →
     (∀ q path argv G, (q, SExec path argv, G) ∈ plan c π 0 0 a b e → can (start π (run_line line) (tab a b e)) (running q path argv G)) ∧
     can (start π (run_line line) (tab a b e)) (λ w, ∃ p, w !! π = Some p ∧ p_stat p = Zombie)).
Proof.
  split.
  - intros w q p path argv R Hq Hs. assert (Hw : wp (sh_main fuel) π 0 0 [] (tab a b e) (keyed (of_lines π a b e)) anywhere).
    { apply wp_seq, wp_open_console. by apply (wp_sh_loop fuel π 0 [] a b e []). }
    pose proof (reach_within _ _ _ _ _ Hw R _ _ Hq) as Hin. unfold within in Hin. rewrite Hs in Hin.
    by destruct (Hin eq_refl) as [|Hin'].
  - intros line c s Hp. rewrite (run_line_runs _ _ _ Hp). pose proof (parse_redirs _ _ _ Hp) as Hr.
    assert (Hw : start π (runcmd c) (tab a b e) !! π = Some (mkp (Code (before_all [] (runcmd c))) (tab a b e) 0 0 1 [])) by apply lookup_singleton_eq.
    split; [intros q path argv G; by apply (can_start c _ _ _ _ _ _ _ _ _ _ _ _ _ _ Hr Hw)|].
    apply (can_end c _ _ _ _ _ _ _ _ _ _ _ Hr Hw). intros w p H Hz _. apply can_ret. by exists p.
Qed.

(** C31: the reader of a pipe gets to its end: when no shell is about to do anything but
    wait, only processes of the left command have the end of the pipe for
    writing, so that it is closed when they have ended. *)
Theorem pipe_closed line l r π a b e w q p fd :
  parse line = Ok (PIPE l r) [] → (∀ x, x ∈ [a; b; e] → x ≠ PW (π, 0%nat)) →
  reach π (runcmd (PIPE l r)) (tab a b e) w →
  (∀ q p t, w !! q = Some p → p_stat p = Code t → ∃ k, t = Sys SWait k) →
  w !! q = Some p → p_fds p !! fd = Some (PW (π, 0%nat)) → 0%nat :: π `suffix_of` q.
Proof.
  intros Hp Hout R Hrest Hq Hfd.
  pose proof (parse_redirs _ _ _ Hp) as Hr.
  assert (Hin : ∃ c, (q, c, p_fds p) ∈ plan (PIPE l r) π 0 0 a b e).
  { pose proof (runcmd_reach _ _ _ _ _ _ _ _ Hr R Hq) as Hx. destruct (p_stat p) as [t|path argv| |] eqn:Es.
    - destruct (Hrest _ _ _ Hq Es) as [k ->]. by exists SWait.
    - eauto.
    - rewrite (dead_fds _ _ _ _ _ _ R Hq) in Hfd by (unfold live; by rewrite Es). by rewrite lookup_empty in Hfd.
    - rewrite (dead_fds _ _ _ _ _ _ R Hq) in Hfd by (unfold live; by rewrite Es). by rewrite lookup_empty in Hfd. }
  destruct Hin as [c Hin]. cbn [plan] in Hin. rewrite !elem_of_app, list_elem_of_singleton in Hin. destruct Hin as [Hin|[Hin|Hin]].
  - by eapply plan_name.
  - exfalso. destruct (plan_ends _ _ _ _ _ _ _ _ _ _ _ _ Hin Hfd) as [E|[E|[E|[(? & ? & E)|(q' & i & Hs & [E|E])]]]]; try done.
    + apply (Hout b); [set_solver|done].
    + apply (Hout e); [set_solver|done].
    + injection E as <- _. apply suffix_len in Hs. simpl in Hs. lia.
  - exfalso. injection Hin as _ _ Ht. rewrite Ht in Hfd. destruct (tab_lookup _ _ _ _ _ Hfd) as [E|[E|E]];
      (eapply Hout; [|symmetry; exact E]; set_solver).
Qed.

(** [a ; b] runs b after a: as long as the process of the left command has not
    ended, there is no process but it, those it has started, and the
    shell itself, which has not started a program. *)
Theorem list_in_order l r π F w p0 q p :
  reach π (runcmd (LIST l r)) F w → w !! (0%nat :: π) = Some p0 → live p0 = true → w !! q = Some p →
  (q = π ∧ ∃ k, p_stat p = Code (Sys SWait k)) ∨ 0%nat :: π `suffix_of` q.
Proof.
  intros R Hp0 Hl Hq. destruct (list_phases _ _ _ _ _ R) as [->|[[Ha _]|[[(p1 & k & Hp1 & Hs & _) [_ Hall]]|[_ (p1 & Hp1 & Hd)]]]].
  - unfold start in Hp0. apply lookup_singleton_Some in Hp0 as [E _]. symmetry in E. by apply cons_neq_self in E.
  - apply Ha in Hp0. by apply cons_neq_self in Hp0.
  - destruct (Hall _ _ Hq) as [->|Hs']; [left|by right]. split; [done|]. rewrite Hp1 in Hq. injection Hq as <-. by exists k.
  - congruence.
Qed.

(** ** At concrete lines *)

Definition console3 : table := tab Console Console Console.

(** The shell reads the line ls and starts the program. *)
Definition sched_ls : list (name * choice) :=
  [([], Bad); ([], Good); ([], Good); ([], Bytes [108]); ([], Bytes [115]); ([], Bytes [10]); ([], Number 2); ([0%nat], Good)].

(** a | b: both programs run, and the shell waits. *)
Definition sched_pipe : list (name * choice) :=
  [([], Good); ([], Number 2); ([], Number 3); ([], Good); ([], Good);
   ([0%nat], Good); ([0%nat], Good); ([0%nat], Good); ([0%nat], Good); ([0%nat], Good);
   ([1%nat], Good); ([1%nat], Good); ([1%nat], Good); ([1%nat], Good); ([1%nat], Good)].

Definition cmd_a : cmd := EXEC [(str "a|b", str "|b")].
Definition cmd_b : cmd := EXEC [(str "b", [])].

Lemma console_no_pipe x : x ∈ [Console; Console; Console] → x ≠ PW ([], 0%nat).
Proof. rewrite !elem_of_cons. by intros [-> | [-> | [-> | Hx%not_elem_of_nil]]]. Qed.

Lemma pipe_closed_witness : ∃ (w : world) p, w !! [0%nat] = Some p ∧ p_fds p !! 1 = Some (PW ([], 0%nat)) ∧ [0%nat] `suffix_of` [0%nat].
Proof.
  assert (E : sees (acts (start [] (runcmd (PIPE cmd_a cmd_b)) console3) sched_pipe) [0%nat]
    (λ w p, at_rest w && bool_decide (p_fds p !! 1 = Some (PW ([], 0%nat)))) = true) by by vm_compute.
  apply sees_ok in E as (w & p & Ew & Hp & [Hr Hf]%andb_prop). apply bool_decide_eq_true in Hf. exists w, p. split; [exact Hp|]. split; [exact Hf|].
  apply (pipe_closed (str "a|b") cmd_a cmd_b [] Console Console Console w [0%nat] p 1).
  - by vm_compute.
  - exact console_no_pipe.
  - exact (acts_reach _ _ _ _ _ Ew).
  - exact (at_rest_ok w Hr).
  - exact Hp.
  - exact Hf.
Defined.

Lemma shell_plan_witness : (∃ (w : world) p lines line c s, w !! [0%nat] = Some p ∧ p_heard p = [[108]; [115]; [10]] ∧
  typed (p_heard p) = (lines ++ [line], []) ∧ is_cd line = false ∧ parse (upto_nul line) = Ok c s ∧
  ([0%nat], SExec (str "ls") [str "ls"], console3) ∈ plan c [commands lines] 0 0 Console Console Console) ∧
  can (start [] (run_line (str "a|b")) console3) (running [1%nat] (str "b") [str "b"] (tab (PR ([], 0%nat)) Console Console)).
Proof.
  split.
  - assert (E : sees (acts (start [] (sh_main 2) console3) sched_ls) [0%nat]
      (λ _ p, bool_decide (p_fds p = console3) && bool_decide (p_heard p = [[108]; [115]; [10]]) &&
         match p_stat p with Runs path argv => bool_decide (path = str "ls" ∧ argv = [str "ls"]) | _ => false end) = true)
      by by vm_compute.
    apply sees_ok in E as (w & p & Ew & Hp & [[Hf Hh]%andb_prop Hs]%andb_prop). apply bool_decide_eq_true in Hf, Hh.
    destruct (p_stat p) as [|path argv| |] eqn:Es; try discriminate Hs. apply bool_decide_eq_true in Hs as [-> ->]. rewrite <- Hf.
    destruct (proj1 (shell_plan 2 [] Console Console Console) w [0%nat] p (str "ls") [str "ls"] (acts_reach _ _ _ _ _ Ew) Hp Es) as (lines & line & c & s & H).
    exists w, p, lines, line, c, s. split; [exact Hp|]. split; [exact Hh|exact H].
  - apply (proj2 (shell_plan 2 [] Console Console Console) (str "a|b") (PIPE cmd_a cmd_b) []); [by vm_compute|right; by left].
Defined.

(** a ; b: the left program runs. *)
Lemma list_in_order_witness : ∃ (w : world) p0 p, w !! [0%nat] = Some p0 ∧ live p0 = true ∧ w !! [] = Some p ∧
  (([] : name) = [] ∧ (∃ k, p_stat p = Code (Sys SWait k)) ∨ [0%nat] `suffix_of` []).
Proof.
  assert (E : sees (acts (start [] (runcmd (LIST cmd_a cmd_b)) console3) [([], Number 2); ([0%nat], Good)]) [0%nat]
    (λ w p, live p && sees (Some w) [] (λ _ _, true)) = true) by by vm_compute.
  apply sees_ok in E as (w & p0 & Ew & Hp & [Hl Hs]%andb_prop). apply sees_ok in Hs as (w' & p & Ew' & Hq & _). injection Ew' as <-.
  exists w, p0, p. split; [exact Hp|]. split; [exact Hl|]. split; [exact Hq|].
  exact (list_in_order cmd_a cmd_b [] console3 w p0 [] p (acts_reach _ _ _ _ _ Ew) Hp Hl Hq).
Defined.
