(* ===== verification/Posix.v ===== *)
(** * What the exercises under syscalls/ use of the C library

    The programs of Semana2, Semana3 and Semana4 run on Linux, over the system
    calls of Usys.v.  This file has the parts of the C library they call, as
    their manual pages describe them: memory from [malloc] (whose contents are
    not determined), [atoi], [isprint] in the C locale, [getopt] as POSIX has it
    (which is the one _POSIX_C_SOURCE selects: it stops at the first argument
    that is no option), and messages to the standard error output.

    It also has the two loops that all these programs share, the ones that
    repeat a [read] or a [write] that returned -1. *)

From S2P Require Import Prelude Params Usys Printf.

Definition STDIN : Z := 0.
Definition STDOUT : Z := 1.
Definition STDERR : Z := 2.
Definition EXIT_SUCCESS : Z := 0.
Definition EXIT_FAILURE : Z := 1.
(** O_WRONLY | O_CREAT | O_TRUNC. *)
Definition OPEN_OUT : Z := 0x241.

(** A text that ends in a newline. *)
Definition msg (s : string) : list Z := str s ++ [10].

(** [u_malloc] says whether there is memory; [u_perror] writes its message and
    the one for errno. *)
Class PosixOps (S : Type) : Type := {
  u_malloc : Z → M S bool;
  u_access : list Z → M S Z;
  u_perror : list Z → M S unit }.

(** ** Memory *)

(** A block of [n] bytes; a byte that was never stored to is [None]. *)
Notation buffer := (list (option Z)).

Definition fresh (n : Z) : buffer := replicate (Z.to_nat n) None.

(** Array accesses; outside the array they are undefined. *)
Definition idx {A} (l : list A) (i : Z) : option A :=
  if 0 <=? i then l !! Z.to_nat i else None.
Definition upd {A} (l : list A) (i : Z) (x : A) : option (list A) :=
  if (0 <=? i) && (i <? Z.of_nat (length l)) then Some (<[Z.to_nat i := x]> l) else None.

(** The byte at [i], which must have been stored before. *)
Definition peekb (b : buffer) (i : Z) : option Z := o ← idx b i; o.
Definition pokeb (b : buffer) (i c : Z) : option buffer := upd b i (Some c).

(** The [n] bytes at [off], and storing bytes there. *)
Definition load (b : buffer) (off n : Z) : option (list Z) :=
  if (0 <=? off) && (0 <=? n) && (off + n <=? Z.of_nat (length b))
  then mapM id (take (Z.to_nat n) (drop (Z.to_nat off) b)) else None.
Definition store (b : buffer) (off : Z) (bs : list Z) : option buffer :=
  if (0 <=? off) && (off + Z.of_nat (length bs) <=? Z.of_nat (length b))
  then Some (take (Z.to_nat off) b ++ (Some <$> bs) ++ drop (Z.to_nat off + length bs) b) else None.

(** ** atoi, isprint *)

Definition isspace (c : Z) : bool := (c =? 32) || (9 <=? c) && (c <=? 13).
Fixpoint skip_space (s : list Z) : list Z :=
  match s with
  | c :: s' => if isspace c then skip_space s' else s
  | [] => []
  end.
Fixpoint digits_val (acc : Z) (s : list Z) : Z :=
  match s with
  | c :: s' => if (48 <=? c) && (c <=? 57) then digits_val (acc * 10 + (c - 48)) s' else acc
  | [] => acc
  end.
(** A number that does not fit is undefined. *)
Definition c_atoi (s : list Z) : option Z :=
  let s := skip_space s in
  let v := match s with
           | c :: s' => if c =? 45 then - digits_val 0 s' else if c =? 43 then digits_val 0 s' else digits_val 0 s
           | [] => 0
           end in
  if (- 2 ^ 31 <=? v) && (v <? 2 ^ 31) then Some v else None.

Definition isprint (c : Z) : bool := (32 <=? c) && (c <=? 126).

(** ** getopt *)

(** [optind], and the rest of the argument being scanned. *)
Record optst : Type := mkopt { optind : nat; nextchar : list Z }.
Definition opt0 : optst := mkopt 1 [].

(** What a call returns: an option, with its argument if it takes one, '?' with
    the message for the standard error output, or -1. *)
Inductive optres : Type :=
| Opt (c : Z) (optarg : list Z)
| Bad (err : list Z)
| Done.

Definition COLON : Z := 58.
Definition DASH : Z := 45.

(** Does the option take an argument?  [None] if there is no such option. *)
Fixpoint opt_kind (spec : list Z) (c : Z) : option bool :=
  match spec with
  | [] => None
  | x :: spec' =>
      if (x =? c) && negb (c =? COLON)
      then Some (match spec' with y :: _ => y =? COLON | [] => false end)
      else opt_kind spec' c
  end.

Definition getopt (spec : list Z) (argv : list (list Z)) (st : optst) : optres * optst :=
  let start :=
    match nextchar st with
    | _ :: _ => Some (nextchar st, optind st)
    | [] =>
        match argv !! optind st with
        | Some (d :: c :: rest) => if d =? DASH then Some (c :: rest, optind st) else None
        | _ => None
        end
    end in
  match start with
  | None => (Done, st)
  | Some (c :: rest, i) =>
      if (c =? DASH) && bool_decide (rest = []) && bool_decide (nextchar st = []) then (Done, mkopt (i + 1) []) else
      match opt_kind spec c with
      | None =>
          (Bad (default [] (head argv) ++ str ": invalid option -- '" ++ [c; 39; 10]),
           match rest with [] => mkopt (i + 1) [] | _ => mkopt i rest end)
      | Some false => (Opt c [], match rest with [] => mkopt (i + 1) [] | _ => mkopt i rest end)
      | Some true =>
          match rest with
          | _ :: _ => (Opt c rest, mkopt (i + 1) [])
          | [] =>
              match argv !! (i + 1)%nat with
              | Some a => (Opt c a, mkopt (i + 2) [])
              | None => (Bad (default [] (head argv) ++ str ": option requires an argument -- '" ++ [c; 39; 10]), mkopt (i + 1) [])
              end
          end
      end
  | Some ([], i) => (Done, st)
  end.

(** Calls of [getopt] that are enough for any argument vector. *)
Definition opt_fuel (argv : list (list Z)) : nat := length (concat argv) + length argv + 1.

(** ** The loops around read and write *)

Section retry.
Context {S : Type} `{!FileOps S}.

Definition fputs (m : list Z) : U S unit := call (u_write STDERR m);; mret tt.

(** [while (a_Leer > 0 && (num_read = read(fd, buf + leidos, a_Leer)) == -1)
    { a_Leer -= num_read; leidos += num_read; }].  A pointer before the buffer
    is undefined; every round moves it back, so [leidos + 2] rounds are enough.
    The result is the buffer, [num_read], [a_Leer] and [leidos]. *)
Fixpoint read_retry (fuel : nat) (fd : Z) (b : buffer) (num_read a_Leer leidos : Z) : U S (buffer * Z * Z * Z) :=
  match fuel with
  | O => uno_fuel
  | Datatypes.S fuel' =>
      if negb (0 <? a_Leer) then mret (b, num_read, a_Leer, leidos) else
      if (leidos <? 0) || (Z.of_nat (length b) <? leidos) then uundef else
      '(num_read, bs) ← call (u_read fd a_Leer);
      b ← ulift (store b leidos bs);
      if negb (num_read =? -1) then mret (b, num_read, a_Leer, leidos)
      else read_retry fuel' fd b num_read (a_Leer - num_read) (leidos + num_read)
  end.

(** The loop around [write], where the number of bytes is [n a_Escribir]; the
    result is [a_Escribir] and [escritos]. *)
Fixpoint write_retry (fuel : nat) (fd : Z) (b : buffer) (n : Z → Z) (a_Escribir escritos : Z) : U S (Z * Z) :=
  match fuel with
  | O => uno_fuel
  | Datatypes.S fuel' =>
      if negb (0 <? a_Escribir) then mret (a_Escribir, escritos) else
      bs ← ulift (load b escritos (n a_Escribir));
      num_written ← call (u_write fd bs);
      if negb (num_written =? -1) then mret (a_Escribir, escritos)
      else write_retry fuel' fd b n (a_Escribir - num_written) (escritos + num_written)
  end.
End retry.

(** ** Lemmas on arrays *)

Lemma idx_nat {A} (l : list A) (i : nat) : idx l (Z.of_nat i) = l !! i.
Proof. unfold idx. rewrite (proj2 (Z.leb_le 0 _)) by lia. by rewrite Nat2Z.id. Qed.

Lemma upd_nat {A} (l : list A) (i : nat) x : (i < length l)%nat → upd l (Z.of_nat i) x = Some (<[i := x]> l).
Proof.
  intros H. unfold upd. rewrite (proj2 (Z.leb_le 0 _)), (proj2 (Z.ltb_lt _ _)) by lia. simpl. by rewrite Nat2Z.id.
Qed.

Lemma length_fresh n : length (fresh n) = Z.to_nat n.
Proof. apply length_replicate. Qed.

(** The first bytes of a buffer are [bs]. *)
Definition holds (b : buffer) (bs : list Z) : Prop := take (length bs) b = Some <$> bs.

Lemma holds_nil b : holds b [].
Proof. unfold holds. simpl. by rewrite take_0. Qed.

Lemma holds_peek b bs i c : holds b bs → bs !! i = Some c → peekb b (Z.of_nat i) = Some c.
Proof.
  intros Hb Hi. unfold peekb. rewrite idx_nat.
  assert (b !! i = Some (Some c)) as ->; [|done].
  pose proof (lookup_lt_Some _ _ _ Hi). rewrite <- (lookup_take_lt b (length bs)) by done.
  rewrite Hb, list_lookup_fmap, Hi. done.
Qed.

Lemma holds_length b bs : holds b bs → (length bs ≤ length b)%nat.
Proof. intros H. apply (f_equal length) in H. rewrite length_take, length_fmap in H. lia. Qed.

Lemma holds_store b bs : (length bs ≤ length b)%nat →
  ∃ b', store b 0 bs = Some b' ∧ holds b' bs ∧ length b' = length b.
Proof.
  intros H. unfold store. rewrite (proj2 (Z.leb_le (0 + _) _)) by lia. simpl. eexists. split; [done|]. split.
  - unfold holds. rewrite take_app_le by (rewrite length_fmap; lia). apply take_ge. rewrite length_fmap. lia.
  - rewrite length_app, length_fmap, length_drop. lia.
Qed.

Lemma holds_poke b bs c : holds b bs → (length bs < length b)%nat →
  ∃ b', pokeb b (Z.of_nat (length bs)) c = Some b' ∧ holds b' (bs ++ [c]) ∧ length b' = length b.
Proof.
  intros Hb Hl. unfold pokeb. rewrite upd_nat by done. eexists. split; [done|]. split; [|apply length_insert].
  unfold holds. rewrite length_app. simpl. rewrite Nat.add_1_r.
  rewrite (take_S_r _ _ (Some c)) by (by apply list_lookup_insert_eq).
  rewrite take_insert_ge by lia. rewrite Hb, fmap_app. done.
Qed.

Lemma mapM_some (bs : list Z) : mapM id (Some <$> bs) = Some bs.
Proof. by apply mapM_Some, Forall2_fmap_l, Forall_Forall2_diag, Forall_true. Qed.

Lemma holds_load b bs : holds b bs → load b 0 (Z.of_nat (length bs)) = Some bs.
Proof.
  intros H. pose proof (holds_length _ _ H). unfold load.
  rewrite (proj2 (Z.leb_le (0 + _) _)), (proj2 (Z.leb_le 0 (Z.of_nat _))) by lia. simpl.
  rewrite Nat2Z.id, drop_0, H. apply mapM_some.
Qed.

(** ** The loops when the calls succeed *)

Section retry_ok.
Context {S : Type} `{!FileOps S, !FileSpec S}.

Lemma read_retry_ok (s : S) fuel fd b nr a : can_read s fd → 0 < a → Z.of_nat (length b) = a →
  ∃ k b' s', read_retry (Datatypes.S fuel) fd b nr a 0 s = Ok (Ret (b', Z.of_nat k, a, 0)) s' ∧
    holds b' (take k (inp s fd)) ∧ length b' = length b ∧
    (k ≤ Z.to_nat a)%nat ∧ (k ≤ length (inp s fd))%nat ∧ (inp s fd ≠ [] → (0 < k)%nat) ∧
    (regular s fd → k = Z.to_nat a `min` length (inp s fd))%nat ∧
    inp s' fd = drop k (inp s fd) ∧ frame (Some fd) None s s'.
Proof.
  intros Hr Ha Hl. cbn [read_retry]. rewrite (proj2 (Z.ltb_lt 0 a)) by done. cbn [negb].
  rewrite (proj2 (Z.ltb_ge (Z.of_nat (length b)) 0)) by lia. change ((0 <? 0) || false) with false. cbn iota.
  destruct (read_law s fd a Hr ltac:(lia)) as (k & s' & E & H1 & H2 & H3 & H4 & H5 & H6).
  ucall E. destruct (holds_store b (take k (inp s fd))) as (b' & Hs & Hh & Hlen); [rewrite length_take; lia|].
  rewrite Hs. cbn [ulift]. rewrite (ubind_ret _ _ _ b' s') by done.
  destruct (Z.eqb_spec (Z.of_nat k) (-1)) as [?|_]; [lia|]. cbn [negb].
  exists k, b', s'. split; [done|]. split_and!; auto.
Qed.

Lemma write_retry_ok (s : S) fuel fd b n a e bs : can_write s fd → 0 < a → load b e (n a) = Some bs →
  ∃ s', write_retry (Datatypes.S fuel) fd b n a e s = Ok (Ret (a, e)) s' ∧
    out s' fd = out s fd ++ bs ∧ frame None (Some fd) s s'.
Proof.
  intros Hw Ha Hl. cbn [write_retry]. rewrite (proj2 (Z.ltb_lt 0 a)) by done. cbn [negb].
  rewrite Hl. cbn [ulift]. rewrite (ubind_ret _ _ _ bs s) by done. cbn beta.
  destruct (write_law s fd bs Hw) as (s' & E & Ho & Hf). ucall E.
  destruct (Z.eqb_spec (Z.of_nat (length bs)) (-1)) as [?|_]; [lia|]. cbn [negb]. eauto.
Qed.

(** A call that fails once is repeated with a pointer to the byte before the
    buffer. *)
Lemma read_retry_fails (s s' : S) fuel fd b nr a : 0 < a → u_read fd a s = Ok (-1, []) s' →
  read_retry (Datatypes.S (Datatypes.S fuel)) fd b nr a 0 s = Undef.
Proof.
  intros Ha E. cbn [read_retry]. rewrite (proj2 (Z.ltb_lt 0 a)) by done. cbn [negb].
  rewrite (proj2 (Z.ltb_ge (Z.of_nat (length b)) 0)) by lia. change ((0 <? 0) || false) with false. cbn iota. ucall E.
  rewrite (ubind_ret _ _ _ b s').
  - simpl negb. cbn iota. rewrite (proj2 (Z.ltb_lt 0 (a - -1))) by lia. done.
  - unfold store. rewrite (proj2 (Z.leb_le (0 + _) _)) by (simpl; lia). simpl. done.
Qed.
End retry_ok.

(** ** A system with named files

    On it the programs can be run from their arguments on.  The standard
    streams are files too. *)

Record lin : Type := mklin {
  l_files : gmap (list Z) (list Z);
  l_fds : gmap Z (list Z * nat) }.     (* the file and the offset *)

Definition lin0 (input : list Z) (files : list (string * list Z)) : lin :=
  mklin (list_to_map ((str "stdin", input) :: (str "stdout", []) :: (str "stderr", []) :: ((λ '(f, c), (str f, c)) <$> files)))
        (list_to_map [(0, (str "stdin", 0%nat)); (1, (str "stdout", 0%nat)); (2, (str "stderr", 0%nat))]).

(** The lowest descriptor that is free. *)
Definition free_fd (m : gmap Z (list Z * nat)) : Z :=
  default 64 (head (filter (λ fd, m !! fd = None) (Z.of_nat <$> seq 0 64))).

Definition lin_open (path : list Z) (flags : Z) : M lin Z := λ s,
  let fd := free_fd (l_fds s) in
  let opened files := Ok fd (mklin files (<[fd := (path, 0%nat)]> (l_fds s))) in
  if flags =? OPEN_OUT then opened (<[path := []]> (l_files s))
  else match l_files s !! path with None => Ok (-1) s | Some _ => opened (l_files s) end.

Definition lin_close (fd : Z) : M lin Z := λ s,
  match l_fds s !! fd with
  | None => Ok (-1) s
  | Some _ => Ok 0 (mklin (l_files s) (delete fd (l_fds s)))
  end.

Definition lin_read (fd n : Z) : M lin (Z * list Z) := λ s,
  match l_fds s !! fd with
  | None => Ok (-1, []) s
  | Some (f, off) =>
      let bs := take (Z.to_nat n) (drop off (default [] (l_files s !! f))) in
      Ok (Z.of_nat (length bs), bs) (mklin (l_files s) (<[fd := (f, (off + length bs)%nat)]> (l_fds s)))
  end.

Definition lin_write (fd : Z) (bs : list Z) : M lin Z := λ s,
  match l_fds s !! fd with
  | None => Ok (-1) s
  | Some (f, off) =>
      let c := default [] (l_files s !! f) in
      Ok (Z.of_nat (length bs))
        (mklin (<[f := take off c ++ bs ++ drop (off + length bs) c]> (l_files s))
               (<[fd := (f, (off + length bs)%nat)]> (l_fds s)))
  end.

#[global] Instance lin_fileops : FileOps lin := @Build_FileOps lin lin_open lin_close lin_read lin_write.
#[global] Instance lin_posix : PosixOps lin := @Build_PosixOps lin
  (λ _ s, Ok true s)
  (λ path s, Ok (if l_files s !! path then 0 else -1) s)
  (λ m s, match lin_write STDERR (m ++ [10]) s with Ok _ s' => Ok tt s' | _ => Undef end).

(** The contents of a file after a run. *)
Definition file_of {A} (r : result lin A) (f : string) : option (list Z) :=
  match r with Ok _ s => l_files s !! str f | _ => None end.
