(* ===== verification/Split.v ===== *)
(** * split_files: Semana4/src/Tarea4/split_files.c

    The program deals the bytes of its standard input out to its output files,
    one by one in turn, through a buffer for each file.  [split_main] is the
    program from its arguments on; [split_run] is its main loop, over the
    descriptors of the files.  The buffers hold bytes that were stored before
    ([Some]) or nothing yet, so a run that returns has written no byte that was
    not read.

    The theorem says that file [j] gets the bytes number [j], [j + n],
    [j + 2 n], ... of the input, whatever the sizes of the reads. *)

From S2P Require Import Prelude Params Usys Printf Posix.

Section split.
Context {S : Type} `{!FileOps S, !PosixOps S}.

(** ** Options *)

Definition split_uso {A} : U S A :=
  fputs (msg "Uso: ./split_files [-t BUFSIZE] FILEOUT1 [FILEOUT2 ... FILEOUTn]");;
  fputs (msg "Divide en ficheros el flujo de bytes que recibe por la entrada estandar");;
  fputs (msg "El numero maximo de ficheros de salida es de 16.");;
  fputs (msg "-t BUFSIZE Tamaño de buffer donde 1 <= BUFSIZE <= 1MB (por defecto 1024).");;
  fputs [10];;
  exit EXIT_FAILURE.

Definition split_size (bufsize : list Z) : U S Z :=
  buf_size ← ulift (c_atoi bufsize);
  if (buf_size <? 1) || (1048576 <? buf_size) then
    fputs (msg "Error: Tamaño de buffer incorrecto.");; split_uso
  else mret buf_size.

(** [k] rounds of the counting loop. *)
Fixpoint split_count (k : nat) (contador : Z) : U S Z :=
  match k with
  | O => mret contador
  | Datatypes.S k' =>
      if 16 <? contador + 1 then fputs (msg "Error: Demasiados ficheros de salida.");; split_uso
      else split_count k' (contador + 1)
  end.

(** [comprobarNumFicheros]: the arguments after the first one, or after the
    first three when -t was given. *)
Definition split_files_num (argc : Z) (bufsize : option (list Z)) : U S Z :=
  match bufsize with
  | None => split_count (Z.to_nat (argc - 1)) 0
  | Some _ => split_count (Z.to_nat (argc - 3)) 0
  end.

Fixpoint split_opts (fuel : nat) (argv : list (list Z)) (st : optst) (bufsize : option (list Z)) : U S (option (list Z) * optst) :=
  match fuel with
  | O => uno_fuel
  | Datatypes.S fuel' =>
      match getopt (str "t:h") argv st with
      | (Done, st') => mret (bufsize, st')
      | (Opt c a, st') => if c =? 116 then split_opts fuel' argv st' (Some a) else split_uso
      | (Bad m, _) => fputs m;; split_uso
      end
  end.

(** ** The main loop *)

Record spst : Type := mksp {
  sp_lect : buffer;
  sp_bufs : list buffer;      (* cjtoBuffer *)
  sp_fill : list Z;           (* llenadoFicheros *)
  sp_num_read : Z;
  sp_a_Leer : Z;
  sp_leidos : Z;
  sp_a_Escribir : Z;
  sp_escritos : Z;
  sp_cur : Z }.               (* punteroFicheroReferenciado *)

(** The body of the loop over the bytes that were read. *)
Definition split_byte (fds : list (option Z)) (n buf_size : Z) (st : spst) (i : Z) : U S spst :=
  let cur := if sp_cur st =? n then 0 else sp_cur st in
  fill ← ulift (idx (sp_fill st) cur);
  '(fills, aesc, esc) ←
    (if fill =? buf_size then
       fd ← ulift (peekb fds cur);
       b ← ulift (idx (sp_bufs st) cur);
       '(aesc, esc) ← write_retry (Z.to_nat (sp_escritos st) + 2) fd b id (sp_a_Escribir st) (sp_escritos st);
       fills ← ulift (upd (sp_fill st) cur 0);
       mret (fills, aesc, esc)
     else mret (sp_fill st, sp_a_Escribir st, sp_escritos st));
  b ← ulift (idx (sp_bufs st) cur);
  fill ← ulift (idx fills cur);
  c ← ulift (peekb (sp_lect st) i);
  b ← ulift (pokeb b fill c);
  bufs ← ulift (upd (sp_bufs st) cur b);
  fills ← ulift (upd fills cur (fill + 1));
  mret (mksp (sp_lect st) bufs fills (sp_num_read st) (sp_a_Leer st) (sp_leidos st) aesc esc (cur + 1)).

Fixpoint split_bytes (k : nat) (fds : list (option Z)) (n buf_size : Z) (st : spst) (i : Z) : U S spst :=
  match k with
  | O => mret st
  | Datatypes.S k' => st ← split_byte fds n buf_size st i; split_bytes k' fds n buf_size st (i + 1)
  end.

(** The loop over the files at the end of the input. *)
Fixpoint split_flush (k : nat) (fds : list (option Z)) (st : spst) (i : Z) : U S spst :=
  match k with
  | O => mret st
  | Datatypes.S k' =>
      fill ← ulift (idx (sp_fill st) i);
      '(aesc, esc) ←
        (if negb (fill =? 0) then
           fd ← ulift (peekb fds i);
           b ← ulift (idx (sp_bufs st) i);
           write_retry (Z.to_nat (sp_escritos st) + 2) fd b (λ _, fill) (sp_a_Escribir st) (sp_escritos st)
         else mret (sp_a_Escribir st, sp_escritos st));
      split_flush k' fds (mksp (sp_lect st) (sp_bufs st) (sp_fill st) (sp_num_read st) (sp_a_Leer st)
        (sp_leidos st) aesc esc (sp_cur st)) (i + 1)
  end.

Fixpoint split_loop (fuel : nat) (fds : list (option Z)) (n buf_size : Z) (st : spst) : U S unit :=
  match fuel with
  | O => uno_fuel
  | Datatypes.S fuel' =>
      '(b, nr, a, l) ← read_retry (Z.to_nat (sp_leidos st) + 2) STDIN (sp_lect st) (sp_num_read st) (sp_a_Leer st) (sp_leidos st);
      let st := mksp b (sp_bufs st) (sp_fill st) nr a l (sp_a_Escribir st) (sp_escritos st) (sp_cur st) in
      st ← split_bytes (Z.to_nat nr) fds n buf_size st 0;
      if nr =? 0 then split_flush (Z.to_nat n) fds st 0;; mret tt
      else split_loop fuel' fds n buf_size st
  end.

(** The variables before the loop. *)
Definition split_init (n : nat) (buf_size : Z) : spst :=
  mksp (fresh buf_size) (replicate n (fresh buf_size)) (replicate n 0) 0 buf_size 0 buf_size 0 0.

Definition split_run (fuel : nat) (fds : list (option Z)) (buf_size : Z) : U S unit :=
  split_loop fuel fds (Z.of_nat (length fds)) buf_size (split_init (length fds) buf_size).

(** ** The program *)

Definition malloc_or_exit (n : Z) : U S unit :=
  r ← call (u_malloc n);
  if (r : bool) then mret tt else call (u_perror (str "malloc()"));; exit EXIT_FAILURE.

Fixpoint split_open (files : list (list Z)) (i : Z) (fds : list (option Z)) : U S (list (option Z)) :=
  match files with
  | [] => mret fds
  | f :: files' =>
      fdout ← call (u_open f OPEN_OUT);
      if fdout =? -1 then
        fputs (str "Error: No se puede abrir/crear '" ++ f ++ msg "': Permission denied");; exit EXIT_FAILURE
      else fds ← ulift (upd fds i (Some fdout)); split_open files' (i + 1) fds
  end.

Fixpoint repeat_ {A} (k : nat) (m : U S A) : U S unit :=
  match k with O => mret tt | Datatypes.S k' => m;; repeat_ k' m end.

Definition split_main (fuel : nat) (argv : list (list Z)) : U S unit :=
  let argc := Z.of_nat (length argv) in
  '(bufsize, st) ← split_opts (opt_fuel argv) argv opt0 None;
  buf_size ← match bufsize with Some b => split_size b | None => mret 1024 end;
  n ← split_files_num argc bufsize;
  (if n =? 0 then fputs (msg "No hay ficheros de salida");; split_uso else mret tt);;
  fds ← split_open (drop (optind st) argv) 0 (replicate (Z.to_nat n) None);
  malloc_or_exit buf_size;;
  malloc_or_exit buf_size;;
  malloc_or_exit buf_size;;
  repeat_ (Z.to_nat n) (malloc_or_exit buf_size);;
  split_run fuel fds buf_size.
End split.

(** ** Dealing bytes out *)

(** The bytes of [bs] whose number is [j] modulo [n]. *)
Definition deal (n : nat) (bs : list Z) (j : nat) : list Z :=
  omap id (imap (λ i c, if decide (i mod n = j)%nat then Some c else None) bs).

Lemma deal_nil n j : deal n [] j = [].
Proof. done. Qed.

Lemma deal_snoc n bs c j :
  deal n (bs ++ [c]) j = deal n bs j ++ (if decide (length bs mod n = j)%nat then [c] else []).
Proof.
  unfold deal. rewrite imap_app, omap_app. f_equal. simpl. rewrite Nat.add_0_r. by case_decide.
Qed.

Lemma next_cur (m n : nat) : (0 < n)%nat →
  (if Z.of_nat (m mod n) + 1 =? Z.of_nat n then 0 else Z.of_nat (m mod n) + 1) = Z.of_nat ((m + 1) mod n).
Proof.
  intros Hn. pose proof (Nat.div_mod_eq m n) as H. pose proof (Nat.mod_upper_bound m n ltac:(lia)) as Hb.
  set (j := (m mod n)%nat) in *. destruct (Z.eqb_spec (Z.of_nat j + 1) (Z.of_nat n)) as [E|E].
  - assert ((m + 1) mod n = 0)%nat as ->; [|done]. apply Nat.Div0.mod_divides. exists (Datatypes.S (m / n)). nia.
  - rewrite <- (Nat.mod_unique (m + 1) n (m / n) (j + 1)); lia.
Qed.

(** ** The invariant of the main loop *)

Section split_proof.
Context {S : Type} `{!FileOps S, !FileSpec S}.
Context (s0 : S) (fds : list Z) (bs : Z).
Notation n := (length fds).
Hypothesis fds_ne : fds ≠ [].
Hypothesis fds_nodup : NoDup fds.
Hypothesis bs_pos : 0 < bs.

(** File [j], after the bytes [D] of the input: what is not yet written is in
    its buffer. *)
Definition file_ok (s : S) (st : spst) (D : list Z) (j : nat) (fd : Z) : Prop :=
  ∃ pend buf, sp_bufs st !! j = Some buf ∧ sp_fill st !! j = Some (Z.of_nat (length pend)) ∧
    holds buf pend ∧ Z.of_nat (length buf) = bs ∧ out s fd ++ pend = out s0 fd ++ deal n D j.

Record sinv (s : S) (st : spst) (D : list Z) : Prop := {
  si_files : ∀ j fd, fds !! j = Some fd → file_ok s st D j fd;
  si_other : ∀ fd, fd ∉ fds → out s fd = out s0 fd;
  si_wok : ∀ fd, fd ∈ fds → can_write s fd;
  si_rdy : can_read s STDIN;
  si_lens : length (sp_bufs st) = n ∧ length (sp_fill st) = n;
  si_lect : Z.of_nat (length (sp_lect st)) = bs;
  si_io : sp_a_Leer st = bs ∧ sp_leidos st = 0 ∧ sp_a_Escribir st = bs ∧ sp_escritos st = 0;
  si_cur : (if sp_cur st =? Z.of_nat n then 0 else sp_cur st) = Z.of_nat (length D mod n) }.

Lemma n_pos : (0 < n)%nat.
Proof. destruct fds; [done|simpl; lia]. Qed.

(** The full buffer of file [j] is written, if it is full. *)
Lemma flush_full s st D j fd pend buf :
  sinv s st D → fds !! j = Some fd → sp_bufs st !! j = Some buf → sp_fill st !! j = Some (Z.of_nat (length pend)) →
  holds buf pend → Z.of_nat (length buf) = bs →
  ∃ s' pend', (if Z.of_nat (length pend) =? bs then
       fd ← ulift (peekb (Some <$> fds) (Z.of_nat j));
       b ← ulift (idx (sp_bufs st) (Z.of_nat j));
       '(aesc, esc) ← write_retry (Z.to_nat (sp_escritos st) + 2) fd b id (sp_a_Escribir st) (sp_escritos st);
       fills ← ulift (upd (sp_fill st) (Z.of_nat j) 0);
       mret (fills, aesc, esc)
     else mret (sp_fill st, sp_a_Escribir st, sp_escritos st)) s
    = Ok (Ret (<[j := Z.of_nat (length pend')]> (sp_fill st), bs, 0)) s' ∧
    holds buf pend' ∧ Z.of_nat (length pend') < bs ∧ out s' fd ++ pend' = out s fd ++ pend ∧
    frame None (Some fd) s s'.
Proof.
  intros Hi Hfd Hb Hf Hh Hl. destruct (si_io _ _ _ Hi) as (_ & _ & -> & ->).
  pose proof (holds_length _ _ Hh) as Hle.
  destruct (Z.eqb_spec (Z.of_nat (length pend)) bs) as [E|E].
  - assert (Hp : peekb (Some <$> fds) (Z.of_nat j) = Some fd).
    { unfold peekb. by rewrite idx_nat, list_lookup_fmap, Hfd. }
    rewrite Hp, idx_nat, Hb. cbn [ulift]. rewrite (ubind_ret _ _ _ fd s), (ubind_ret _ _ _ buf s) by done.
    destruct (write_retry_ok s 1 fd buf id bs 0 pend) as (s' & Ew & Ho & Hfr).
    { apply (si_wok _ _ _ Hi). by eapply list_elem_of_lookup_2. } { done. }
    { unfold id. rewrite <- E. by apply holds_load. }
    ustep Ew. rewrite upd_nat by (by eapply lookup_lt_Some). cbn [ulift].
    rewrite (ubind_ret _ _ _ (<[j := 0]> (sp_fill st)) s') by done.
    exists s', []. split; [done|]. split; [apply holds_nil|]. split; [simpl; lia|]. by rewrite app_nil_r.
  - exists s, pend. rewrite list_insert_id by done. split; [done|]. split; [done|]. split; [lia|].
    split; [done|]. apply frame_refl.
Qed.

Lemma split_byte_ok s st D i c : sinv s st D → peekb (sp_lect st) i = Some c →
  ∃ s' st', split_byte (Some <$> fds) (Z.of_nat n) bs st i s = Ok (Ret st') s' ∧ sinv s' st' (D ++ [c]) ∧
    sp_lect st' = sp_lect st ∧ inp s' STDIN = inp s STDIN.
Proof.
  intros Hi Hc. pose proof n_pos as Hn. set (j := (length D mod n)%nat).
  assert (Hj : (j < n)%nat) by (apply Nat.mod_upper_bound; lia).
  destruct (lookup_lt_is_Some_2 fds j Hj) as [fd Hfd].
  destruct (si_files _ _ _ Hi j fd Hfd) as (pend & buf & Hb & Hf & Hh & Hl & Ho).
  unfold split_byte. rewrite (si_cur _ _ _ Hi). fold j.
  rewrite (idx_nat (sp_fill st)), Hf. cbn [ulift]. rewrite (ubind_ret _ _ _ (Z.of_nat (length pend)) s) by done. cbn beta.
  destruct (flush_full s st D j fd pend buf Hi Hfd Hb Hf Hh Hl) as (s' & pend' & E & Hh' & Hp' & Ho' & Hfr).
  ustep E. rewrite !idx_nat, Hb. cbn [ulift]. rewrite (ubind_ret _ _ _ buf s') by done. cbn beta.
  destruct (si_lens _ _ _ Hi) as [L1 L2].
  rewrite list_lookup_insert_eq by lia. cbn [ulift].
  rewrite (ubind_ret _ _ _ (Z.of_nat (length pend')) s') by done. cbn beta.
  rewrite Hc. cbn [ulift]. rewrite (ubind_ret _ _ _ c s') by done. cbn beta.
  destruct (holds_poke buf pend' c Hh') as (buf' & Ep & Hh'' & Hl'); [lia|].
  rewrite Ep. cbn [ulift]. rewrite (ubind_ret _ _ _ buf' s') by done. cbn beta.
  rewrite !upd_nat by (rewrite ?length_insert; lia). cbn [ulift].
  rewrite (ubind_ret _ _ _ (<[j := buf']> (sp_bufs st)) s') by done. cbn beta.
  rewrite list_insert_insert_eq. rewrite (ubind_ret _ _ _ (<[j := Z.of_nat (length pend') + 1]> (sp_fill st)) s') by done.
  eexists _, _. split; [done|]. split; [|split; [done|by apply (fr_inp Hfr)]].
  split; simpl.
  - intros j' fd' Hfd'. destruct (decide (j = j')) as [<-|Hne].
    + assert (fd' = fd) as -> by congruence. exists (pend' ++ [c]), buf'. simpl.
      rewrite !list_lookup_insert_eq by lia. rewrite length_app. simpl. split_and!; [done|f_equal; lia|done|lia|].
      rewrite deal_snoc. fold j. rewrite decide_True by done. rewrite !app_assoc, Ho', Ho. done.
    + destruct (si_files _ _ _ Hi j' fd' Hfd') as (p & b & B1 & B2 & B3 & B4 & B5).
      exists p, b. simpl. rewrite !list_lookup_insert_ne by done. split_and!; [done..|].
      rewrite (fr_out Hfr), deal_snoc by (intros [= <-]; by eapply Hne, NoDup_lookup).
      fold j. rewrite decide_False by done. by rewrite app_nil_r.
  - intros fd' Hni. rewrite (fr_out Hfr); [by apply (si_other _ _ _ Hi)|]. intros [= <-]. apply Hni. by eapply list_elem_of_lookup_2.
  - intros fd' Hin. by apply (fr_wok Hfr), (si_wok _ _ _ Hi).
  - apply (fr_rdy Hfr), (si_rdy _ _ _ Hi).
  - by rewrite !length_insert.
  - apply (si_lect _ _ _ Hi).
  - destruct (si_io _ _ _ Hi) as (? & ? & _). done.
  - rewrite length_app. by apply next_cur.
Qed.

Lemma split_bytes_ok ch : ∀ k i s st D, (k + i = length ch)%nat → sinv s st D → holds (sp_lect st) ch →
  ∃ s' st', split_bytes k (Some <$> fds) (Z.of_nat n) bs st (Z.of_nat i) s = Ok (Ret st') s' ∧
    sinv s' st' (D ++ drop i ch) ∧ inp s' STDIN = inp s STDIN.
Proof.
  induction k as [|k IH]; intros i s st D Hk Hi Hh; cbn [split_bytes].
  - exists s, st. split; [done|]. rewrite drop_ge, app_nil_r by lia. done.
  - destruct (lookup_lt_is_Some_2 ch i ltac:(lia)) as [c Hc].
    destruct (split_byte_ok s st D (Z.of_nat i) c Hi) as (s1 & st1 & E & Hi1 & Hl1 & In1); [by eapply holds_peek|].
    ustep E. replace (Z.of_nat i + 1) with (Z.of_nat (Datatypes.S i)) by lia.
    destruct (IH (Datatypes.S i) s1 st1 (D ++ [c])) as (s2 & st2 & E2 & Hi2 & In2); [lia|done|by rewrite Hl1|].
    exists s2, st2. split; [done|]. split; [|congruence].
    rewrite (drop_S ch c i Hc). by rewrite <- app_assoc in Hi2.
Qed.

(** The flush at the end leaves nothing behind. *)
Lemma split_flush_ok D : ∀ k i s st, (k + i = n)%nat → sp_a_Escribir st = bs → sp_escritos st = 0 →
  (∀ j fd, (i ≤ j)%nat → fds !! j = Some fd → file_ok s st D j fd ∧ can_write s fd) →
  ∃ s' st', split_flush k (Some <$> fds) st (Z.of_nat i) s = Ok (Ret st') s' ∧
    (∀ j fd, (i ≤ j)%nat → fds !! j = Some fd → out s' fd = out s0 fd ++ deal n D j) ∧
    (∀ fd, fd ∉ drop i fds → out s' fd = out s fd) ∧ inp s' STDIN = inp s STDIN.
Proof.
  induction k as [|k IH]; intros i s st Hk Ha He Hf; cbn [split_flush].
  { exists s, st. split; [done|]. split; [|done]. intros j fd Hj Hfd. apply lookup_lt_Some in Hfd. lia. }
  destruct (lookup_lt_is_Some_2 fds i ltac:(lia)) as [fd Hfd].
  destruct (Hf i fd ltac:(lia) Hfd) as [(pend & buf & Hb & Hp & Hh & Hl & Ho) Hw].
  rewrite (idx_nat (sp_fill st)), Hp. cbn [ulift]. rewrite (ubind_ret _ _ _ (Z.of_nat (length pend)) s) by done. cbn beta.
  assert (Hstep : ∃ s', (if negb (Z.of_nat (length pend) =? 0) then
           fd ← ulift (peekb (Some <$> fds) (Z.of_nat i));
           b ← ulift (idx (sp_bufs st) (Z.of_nat i));
           write_retry (Z.to_nat (sp_escritos st) + 2) fd b (λ _, Z.of_nat (length pend)) (sp_a_Escribir st) (sp_escritos st)
         else mret (sp_a_Escribir st, sp_escritos st)) s = Ok (Ret (bs, 0)) s' ∧
      out s' fd = out s fd ++ pend ∧ frame None (Some fd) s s').
  { rewrite Ha, He. destruct (Z.eqb_spec (Z.of_nat (length pend)) 0) as [E|E]; cbn [negb].
    - exists s. split; [done|]. destruct pend; [|simpl in E; lia]. rewrite app_nil_r. split; [done|]. apply frame_refl.
    - unfold peekb. rewrite !idx_nat, list_lookup_fmap, Hfd, Hb. cbn.
      by apply (write_retry_ok s 1 fd buf (λ _, Z.of_nat (length pend)) bs 0 pend Hw bs_pos), holds_load. }
  destruct Hstep as (s1 & E1 & Ho1 & Hfr). ustep E1.
  replace (Z.of_nat i + 1) with (Z.of_nat (Datatypes.S i)) by lia.
  match goal with |- context [split_flush k _ ?st _] => set (st1 := st) end.
  destruct (IH (Datatypes.S i) s1 st1) as (s2 & st2 & E2 & H2 & H3 & H4); [lia|done|done| |].
  { intros j fd' Hj Hfd'. destruct (Hf j fd' ltac:(lia) Hfd') as [(p & b & B1 & B2 & B3 & B4 & B5) W]. split; [|by apply (fr_wok Hfr)].
    exists p, b. split_and!; [done..|]. rewrite (fr_out Hfr); [done|]. intros [= <-].
    pose proof (NoDup_lookup _ _ _ _ fds_nodup Hfd Hfd'). lia. }
  exists s2, st2. split; [done|]. split.
  - intros j fd' Hj Hfd'. destruct (decide (i = j)) as [<-|]; [|apply H2; [lia|done]].
    assert (fd' = fd) as -> by congruence. rewrite H3, Ho1, Ho; [done|].
    intros (j' & Hj')%list_elem_of_lookup_1. rewrite lookup_drop in Hj'. pose proof (NoDup_lookup _ _ _ _ fds_nodup Hfd Hj'). lia.
  - split; [|rewrite H4; by apply (fr_inp Hfr)]. intros fd' Hni. rewrite (drop_S fds fd i Hfd) in Hni.
    apply not_elem_of_cons in Hni as [Hne Hni]. rewrite H3 by done. apply (fr_out Hfr). congruence.
Qed.

Lemma split_loop_ok : ∀ fuel s st D, sinv s st D → (length (inp s STDIN) < fuel)%nat →
  ∃ s', split_loop fuel (Some <$> fds) (Z.of_nat n) bs st s = Ok (Ret tt) s' ∧
    (∀ j fd, fds !! j = Some fd → out s' fd = out s0 fd ++ deal n (D ++ inp s STDIN) j) ∧
    (∀ fd, fd ∉ fds → out s' fd = out s0 fd) ∧ inp s' STDIN = [].
Proof.
  induction fuel as [|fuel IH]; intros s st D Hi Hf; [lia|]. cbn [split_loop].
  destruct (si_io _ _ _ Hi) as (Ea & El & Ew & Ee). rewrite Ea, El.
  destruct (read_retry_ok s 1 STDIN (sp_lect st) (sp_num_read st) bs (si_rdy _ _ _ Hi) bs_pos (si_lect _ _ _ Hi))
    as (k & b & s1 & E & Hh & Hl & Hk1 & Hk2 & Hk3 & _ & Hin & Hfr).
  ustep E. cbv zeta. set (st1 := mksp b _ _ _ _ _ _ _ _).
  assert (Hi1 : sinv s1 st1 D).
  { destruct Hi as [F1 F2 F3 F4 F5 F6 F7 F8]. split; simpl; auto.
    - intros j fd Hfd. destruct (F1 j fd Hfd) as (p & b' & B1 & B2 & B3 & B4 & B5).
      exists p, b'. rewrite (fr_out Hfr) by done. done.
    - intros fd Hni. rewrite (fr_out Hfr) by done. auto.
    - intros fd Hin'. by apply (fr_wok Hfr), F3.
    - by apply (fr_rdy Hfr).
    - lia. }
  rewrite !Nat2Z.id. assert (Hlen : length (take k (inp s STDIN)) = k) by (rewrite length_take; lia).
  destruct (split_bytes_ok (take k (inp s STDIN)) k 0 s1 st1 D) as (s2 & st2 & E2 & Hi2 & Hin2); [lia|done|done|].
  change (Z.of_nat 0) with 0 in E2. ustep E2. rewrite drop_0 in Hi2.
  destruct (Z.eqb_spec (Z.of_nat k) 0) as [Hk0|Hk0].
  - assert (k = 0%nat) as -> by lia. assert (Hnil : inp s STDIN = []).
    { destruct (decide (inp s STDIN = [])) as [|Hnn]; [done|]. specialize (Hk3 Hnn). lia. }
    rewrite Hnil in *. rewrite take_nil, app_nil_r in Hi2. rewrite app_nil_r.
    destruct (si_io _ _ _ Hi2) as (_ & _ & Ea2 & Ee2).
    destruct (split_flush_ok D n 0 s2 st2) as (s3 & st3 & E3 & H3 & H4 & H5); [lia|done|done| |].
    { intros j fd _ Hfd. split; [by apply (si_files _ _ _ Hi2)|]. apply (si_wok _ _ _ Hi2). by eapply list_elem_of_lookup_2. }
    change (Z.of_nat 0) with 0 in E3. ustep E3. exists s3. split; [done|]. split; [intros j fd Hfd; apply H3; [lia|done]|].
    split; [|rewrite H5, Hin2, Hin; by rewrite drop_nil].
    intros fd Hni. rewrite H4 by (by rewrite drop_0). by apply (si_other _ _ _ Hi2).
  - assert (Hin2' : inp s2 STDIN = drop k (inp s STDIN)) by congruence.
    destruct (IH s2 st2 (D ++ take k (inp s STDIN)) Hi2) as (s3 & E3 & H3 & H4 & H5); [rewrite Hin2', length_drop; lia|].
    exists s3. split; [done|]. split; [|done]. intros j fd Hfd. rewrite (H3 j fd Hfd), Hin2', <- app_assoc, take_drop. done.
Qed.
End split_proof.

(** The state before the loop. *)
Lemma split_start {S} `{!FileOps S, !FileSpec S} (s : S) fds bs :
  fds ≠ [] → 0 < bs → can_read s STDIN → (∀ fd, fd ∈ fds → can_write s fd) →
  sinv s fds bs s (split_init (length fds) bs) [].
Proof.
  intros Hne Hbs Hr Hw. split; simpl; auto.
  - intros j fd Hfd. exists [], (fresh bs). apply lookup_lt_Some in Hfd. simpl.
    rewrite !lookup_replicate_2, length_fresh by done. split_and!; [done|done|apply holds_nil|lia|done].
  - by rewrite !length_replicate.
  - rewrite length_fresh. lia.
  - rewrite Nat.Div0.mod_0_l. destruct fds; done.
Qed.

(** Split_files deals its input out: whatever the sizes of the reads, file
    number j gets exactly the bytes number j, j+n, j+2n, ... of the standard
    input, all of it is read, and no other file is written. *)
Theorem split_correct {S} `{!FileOps S, !FileSpec S} (s : S) fds bs fuel :
  fds ≠ [] → NoDup fds → 0 < bs → can_read s STDIN → (∀ fd, fd ∈ fds → can_write s fd) →
  (length (inp s STDIN) < fuel)%nat →
  ∃ s', split_run fuel (Some <$> fds) bs s = Ok (Ret tt) s' ∧
    (∀ j fd, fds !! j = Some fd → out s' fd = out s fd ++ deal (length fds) (inp s STDIN) j) ∧
    (∀ fd, fd ∉ fds → out s' fd = out s fd) ∧ inp s' STDIN = [].
Proof.
  intros Hne Hnd Hbs Hr Hw Hf. unfold split_run. rewrite length_fmap.
  apply (split_loop_ok s fds bs Hne Hnd Hbs fuel s (split_init (length fds) bs) []); [|done].
  by apply split_start.
Qed.

(** Five bytes, read two and then one at a time, into two files. *)
Definition five : sim := mksim {[ 0 := ([2; 1]%nat, str "abcde") ]} {[ 3 := []; 4 := str "-" ]}.

Lemma split_correct_witness :
  ∃ s', split_run 6 [Some 3; Some 4] 2 five = Ok (Ret tt) s' ∧ out s' 3 = str "ace" ∧ out s' 4 = str "-bd".
Proof.
  destruct (split_correct five [3; 4] 2 6) as (s' & H & Ho & _).
  - done.
  - apply (bool_decide_unpack _). by vm_compute.
  - lia.
  - by eexists.
  - intros fd. rewrite !elem_of_cons, elem_of_nil. intros [->|[->|[]]]; by eexists.
  - by vm_compute.
  - exists s'. split; [exact H|]. split; [by apply (Ho 0%nat)|by apply (Ho 1%nat)].
Defined.

(** The whole program, with a buffer of two bytes. *)
Example split_main_runs :
  let r := split_main 6 (str <$> ["split"; "-t"; "2"; "x"; "y"]) (lin0 (str "abcde") []) in
  file_of r "x" = Some (str "ace") ∧ file_of r "y" = Some (str "bd").
Proof. split; vm_compute; reflexivity. Qed.

(** With the size in the same argument as -t the program counts one file less
    than it opens, and stores a descriptor after the end of its array. *)
Lemma split_joined_option :
  split_main 6 (str <$> ["split"; "-t2"; "x"; "y"]) (lin0 (str "abcde") []) = Undef.
Proof. vm_compute. reflexivity. Qed.
