(* ===== verification/Merge.v ===== *)
(** * merge_files: Semana4/src/Tarea4/merge_files.c and Semana3/src/Tarea3-v3/merge_files_v3.c

    The program shuffles the bytes of its input files: the first byte of every
    file, then the second byte of every file that has one, and so on.  Every
    round reads a buffer from each file and deals it out, through an output
    buffer.  [merge_main] is the program of Semana4 from its arguments on,
    [merge3_main] the earlier one; [merge_run] is the main loop they share.

    [ficherosTerminados] is an automatic array that nothing initialises: its
    first contents are the parameter [junk].  The theorems say that the output
    is the shuffle of the files when [junk] has no 1, and that merge_files
    undoes split_files. *)

From S2P Require Import Prelude Params Usys Printf Posix Split.

Section merge.
Context {S : Type} `{!FileOps S, !PosixOps S}.

(** ** Options *)

Definition merge_uso : U S unit :=
  fputs (msg "Uso: merge_files [-t BUFSIZE] [-o FILEOUT] FILEIN1 [FILEIN2 ...FILEINn]").

Definition merge_instr : U S unit :=
  fputs (msg "NO admite lectura de la entrada estandar.");;
  fputs (msg "-t BUFSIZE Tamaño de buffer donde 1<= BUFSIZE <=128MB");;
  fputs (msg "-o FILEOUT Usa FILEOUT en lugar de la salida estandar").

Definition merge_size (memoria : list Z) : U S Z :=
  aux ← ulift (c_atoi memoria);
  if (aux <? 1) || (134217718 <? aux) then
    fputs (msg "Error: Tamaño de buffer incorrecto.");; merge_uso;; merge_instr;; exit EXIT_FAILURE
  else mret aux.

(** [k] rounds of a counting loop, with the line it prints first when there
    are too many files. *)
Fixpoint merge_count (k : nat) (first : U S unit) (contador : Z) : U S Z :=
  match k with
  | O => mret contador
  | Datatypes.S k' =>
      if 16 <? contador + 1 then
        first;;
        fputs (msg "Error: Demasiados ficheros de entrada. Máximo 16 ficheros.");;
        merge_instr;; exit EXIT_FAILURE
      else merge_count k' first (contador + 1)
  end.

(** [comprobarNumFicheros]. *)
Definition merge_files_num (argc : Z) (mem out : option (list Z)) : U S Z :=
  match mem, out with
  | Some _, Some _ => merge_count (Z.to_nat (argc - 5)) (fputs (msg "Se ha reservado ambos")) 0
  | None, None => merge_count (Z.to_nat (argc - 1)) (mret tt) 0
  | _, _ =>
      if 3 <? argc then merge_count (Z.to_nat (argc - 3)) (fputs (msg "Se ha reservado mem o hay fichout")) 0
      else fputs (msg "Error: No hay ficheros de entrada");; merge_uso;; merge_instr;; exit EXIT_FAILURE
  end.

Definition merge_output (ficheroSalida : option (list Z)) : U S Z :=
  match ficheroSalida with
  | Some f =>
      fdout ← call (u_open f OPEN_OUT);
      if fdout =? -1 then call (u_perror (str "open(fileout)"));; exit EXIT_FAILURE else mret fdout
  | None => mret STDOUT
  end.

(** ** The main loop *)

Record mgst : Type := mkmg {
  mg_bufs : list buffer;          (* cjtoBuffer *)
  mg_por : list (option Z);       (* porEscribir *)
  mg_term : list Z;               (* ficherosTerminados *)
  mg_sal : buffer;                (* bufSalida *)
  mg_pw : Z;                      (* punterowrite *)
  mg_cont : Z;                    (* contador *)
  mg_a_Escribir : Z;
  mg_escritos : Z }.

Definition set_files bufs por st := mkmg bufs por (mg_term st) (mg_sal st) (mg_pw st) (mg_cont st) (mg_a_Escribir st) (mg_escritos st).
Definition set_cont c st := mkmg (mg_bufs st) (mg_por st) (mg_term st) (mg_sal st) (mg_pw st) c (mg_a_Escribir st) (mg_escritos st).
Definition set_write pw a e st := mkmg (mg_bufs st) (mg_por st) (mg_term st) (mg_sal st) pw (mg_cont st) a e.
Definition set_sal sal pw st := mkmg (mg_bufs st) (mg_por st) (mg_term st) sal pw (mg_cont st) (mg_a_Escribir st) (mg_escritos st).
Definition set_done por term c st := mkmg (mg_bufs st) por term (mg_sal st) (mg_pw st) c (mg_a_Escribir st) (mg_escritos st).

(** The loop that reads a buffer of every file.  The test for 0 inside the loop
    around [read] is never reached with 0, and [num_read] is never -1 after it. *)
Fixpoint merge_reads (k : nat) (fds : list (option Z)) (buf_size : Z) (st : mgst) (i : Z) : U S mgst :=
  match k with
  | O => mret st
  | Datatypes.S k' =>
      fd ← ulift (peekb fds i);
      b ← ulift (idx (mg_bufs st) i);
      '(b, num_read, _, _) ← read_retry 2 fd b 0 buf_size 0;
      bufs ← ulift (upd (mg_bufs st) i b);
      por ← ulift (upd (mg_por st) i (Some (if num_read =? -1 then 1 else num_read)));
      merge_reads k' fds buf_size (set_files bufs por st) (i + 1)
  end.

(** [bufSalida[punterowrite] = cjtoBuffer[i][v]; punterowrite++]. *)
Definition merge_emit (st : mgst) (v i : Z) : U S mgst :=
  b ← ulift (idx (mg_bufs st) i);
  c ← ulift (peekb b v);
  sal ← ulift (pokeb (mg_sal st) (mg_pw st) c);
  mret (set_sal sal (mg_pw st + 1) st).

(** The body of the two loops that shuffle, for byte [v] of file [i]; the flag
    says that the counter [i] was decremented. *)
Definition merge_cell (fdout buf_size : Z) (st : mgst) (v i : Z) : U S (mgst * bool) :=
  st ← (if mg_pw st =? buf_size then
          '(a, e) ← write_retry 2 fdout (mg_sal st) id (mg_pw st) 0;
          mret (set_write 0 a e st)
        else mret (set_write (mg_pw st) (mg_pw st) 0 st));
  por ← ulift (peekb (mg_por st) i);
  term ← ulift (idx (mg_term st) i);
  if (por =? buf_size) && negb (term =? 1) then
    st ← merge_emit st v i;
    if por =? 0 then
      term ← ulift (upd (mg_term st) i 1);
      mret (set_done (mg_por st) term (mg_cont st + 1) st, false)
    else mret (st, false)
  else if (por <=? buf_size) && negb (term =? 1) then
    if por =? v then
      por ← ulift (upd (mg_por st) i (Some (-1)));
      term ← ulift (upd (mg_term st) i 1);
      mret (set_done por term (mg_cont st + 1) st, true)
    else st ← merge_emit st v i; mret (st, false)
  else mret (st, false).

Fixpoint merge_row (fuel : nat) (n fdout buf_size : Z) (st : mgst) (v i : Z) : U S mgst :=
  match fuel with
  | O => uno_fuel
  | Datatypes.S fuel' =>
      if negb (i <? n) then mret st else
      '(st, again) ← merge_cell fdout buf_size st v i;
      merge_row fuel' n fdout buf_size st v (if (again : bool) then i else i + 1)
  end.

(** A file is tried twice at most in a row. *)
Definition row_fuel (n : Z) : nat := 2 * Z.to_nat n + 1.

Fixpoint merge_rows (k : nat) (n fdout buf_size : Z) (st : mgst) (v : Z) : U S mgst :=
  match k with
  | O => mret st
  | Datatypes.S k' =>
      st ← merge_row (row_fuel n) n fdout buf_size st v 0;
      merge_rows k' n fdout buf_size st (v + 1)
  end.

(** The number of files that are finished. *)
Definition merge_fin (term : list Z) : Z :=
  foldl (λ fin t, if t =? 1 then fin + 1 else fin) 0 term.

Fixpoint merge_loop (last : Z → mgst → U S unit) (fuel : nat) (fds : list (option Z)) (n fdout buf_size : Z) (st : mgst) : U S unit :=
  match fuel with
  | O => uno_fuel
  | Datatypes.S fuel' =>
      if mg_cont st =? n then mret tt else
      st ← merge_reads (Z.to_nat n) fds buf_size (set_cont 0 st) 0;
      st ← merge_rows (Z.to_nat buf_size) n fdout buf_size (set_write (mg_pw st) 0 0 st) 0;
      if (0 <=? mg_pw st) && (merge_fin (mg_term st) =? n) then last fdout st
      else merge_loop last fuel' fds n fdout buf_size st
  end.

(** The last write: in Semana4 ... *)
Definition last_write (fdout : Z) (st : mgst) : U S unit :=
  write_retry (Z.to_nat (mg_escritos st) + 2) fdout (mg_sal st) id (mg_a_Escribir st) (mg_escritos st);; mret tt.
(** ... and in Semana3. *)
Definition last_write3 (fdout : Z) (st : mgst) : U S unit :=
  bs ← ulift (load (mg_sal st) 0 (mg_pw st));
  call (u_write fdout bs);; mret tt.

Definition merge_init (n : nat) (buf_size : Z) (junk : list Z) : mgst :=
  mkmg (replicate n (fresh buf_size)) (replicate n None) junk (fresh buf_size) 0 0 0 0.

Fixpoint merge_close (fds : list (option Z)) : U S unit :=
  match fds with
  | [] => mret tt
  | o :: fds' =>
      fd ← ulift o;
      r ← call (u_close fd);
      if r =? -1 then call (u_perror (str "close(fdin)"));; exit EXIT_FAILURE
      else merge_close fds'
  end.

Definition merge_run (last : Z → mgst → U S unit) (fuel : nat) (fds : list (option Z)) (fdout buf_size : Z) (junk : list Z) : U S unit :=
  merge_loop last fuel fds (Z.of_nat (length fds)) fdout buf_size (merge_init (length fds) buf_size junk).

(** ** The program of Semana4 *)

(** The options; [buf_size] is set only where -t is read. *)
Fixpoint merge_opts (fuel : nat) (argv : list (list Z)) (st : optst) (mem out : option (list Z)) (buf_size : option Z) :
    U S (option (list Z) * option (list Z) * option Z * optst) :=
  match fuel with
  | O => uno_fuel
  | Datatypes.S fuel' =>
      match getopt (str "t:o:") argv st with
      | (Done, st') => mret (mem, out, buf_size, st')
      | (Opt c a, st') =>
          if c =? 116 then b ← merge_size a; merge_opts fuel' argv st' (Some a) out (Some b)
          else if c =? 111 then merge_opts fuel' argv st' mem (Some a) buf_size
          else merge_opts fuel' argv st' mem out buf_size
      | (Bad m, st') => fputs m;; merge_opts fuel' argv st' mem out buf_size
      end
  end.

(** The loop over the files with [access]: the number of files that are left,
    and the last position of a missing one. *)
Fixpoint merge_missing (files : list (list Z)) (i : Z) (n malo : Z) : U S (Z * Z) :=
  match files with
  | [] => mret (n, malo)
  | f :: files' =>
      r ← call (u_access f);
      if r =? -1 then
        fputs (str "Error:No se puede abrir " ++ f ++ msg ": No such file or directory");;
        merge_missing files' (i + 1) (n - 1) i
      else merge_missing files' (i + 1) n malo
  end.

(** The loop that opens the files, [i] being the position in [argv]. *)
Fixpoint merge_open (files : list (list Z)) (i optind malo activador : Z) (fds : list (option Z)) : U S (list (option Z)) :=
  match files with
  | [] => mret fds
  | f :: files' =>
      fds ← (if negb (activador =? 0) then
               fdin ← call (u_open f O_RDONLY); ulift (upd fds (i - optind - 1) (Some fdin))
             else mret fds);
      '(fds, activador) ←
        (if negb (malo =? i) then
           fdin ← call (u_open f O_RDONLY);
           fds ← ulift (upd fds (i - optind) (Some fdin)); mret (fds, activador)
         else mret (fds, activador + 1));
      merge_open files' (i + 1) optind malo activador fds
  end.

Definition merge_no_files : U S unit :=
  fputs (msg "Error: No hay ficheros de entrada.");; merge_uso;; merge_instr;; exit EXIT_FAILURE.

(** Declaring an array of no elements is undefined. *)
Definition vla (n : Z) : U S unit := if 0 <? n then mret tt else uundef.

Definition merge_main (fuel : nat) (junk : list Z) (argv : list (list Z)) : U S unit :=
  let argc := Z.of_nat (length argv) in
  (if argc =? 1 then merge_no_files else mret tt);;
  '(mem, out, buf_size, st) ← merge_opts (opt_fuel argv) argv opt0 None None None;
  n ← merge_files_num argc mem out;
  fdout ← merge_output out;
  let files := drop (optind st) argv in
  let oi := Z.of_nat (optind st) in
  '(n, malo) ← merge_missing files oi n 0;
  vla n;;
  fds ← merge_open files oi oi malo 0 (replicate (Z.to_nat n) None);
  buf_size ← ulift buf_size;
  repeat_ (Z.to_nat n) (malloc_or_exit buf_size);;
  malloc_or_exit buf_size;;
  malloc_or_exit buf_size;;
  merge_run last_write fuel fds fdout buf_size junk;;
  merge_close fds.

(** ** The program of Semana3 *)

Fixpoint merge3_opts (fuel : nat) (argv : list (list Z)) (st : optst) (mem out : option (list Z)) :
    U S (option (list Z) * option (list Z) * optst) :=
  match fuel with
  | O => uno_fuel
  | Datatypes.S fuel' =>
      match getopt (str "t:o:") argv st with
      | (Done, st') => mret (mem, out, st')
      | (Opt c a, st') =>
          if c =? 116 then merge3_opts fuel' argv st' (Some a) out
          else if c =? 111 then merge3_opts fuel' argv st' mem (Some a)
          else merge3_opts fuel' argv st' mem out
      | (Bad m, st') =>
          fputs m;;
          fputs (msg "Error: No hay ficheros de entrada");; merge_uso;; merge_instr;;
          merge3_opts fuel' argv st' mem out
      end
  end.

Fixpoint merge3_open (files : list (list Z)) (i : Z) (fds : list (option Z)) : U S (list (option Z)) :=
  match files with
  | [] => mret fds
  | f :: files' =>
      fdin ← call (u_open f O_RDONLY);
      fds ← ulift (upd fds i (Some fdin));
      merge3_open files' (i + 1) fds
  end.

Definition merge3_main (fuel : nat) (junk : list Z) (argv : list (list Z)) : U S unit :=
  let argc := Z.of_nat (length argv) in
  (if argc =? 1 then merge_no_files else mret tt);;
  '(mem, out, st) ← merge3_opts (opt_fuel argv) argv opt0 None None;
  buf_size ← match mem with Some m => merge_size m | None => mret 1024 end;
  n ← merge_files_num argc mem out;
  fdout ← merge_output out;
  let files := drop (optind st) argv in
  '(n, _) ← merge_missing files (Z.of_nat (optind st)) n 0;
  vla n;;
  fds ← merge3_open files 0 (replicate (Z.to_nat n) None);
  repeat_ (Z.to_nat n) (malloc_or_exit buf_size);;
  malloc_or_exit buf_size;;
  malloc_or_exit buf_size;;
  merge_run last_write3 fuel fds fdout buf_size junk;;
  merge_close fds.
End merge.

(** ** Runs of the programs *)

Definition two_files : lin := lin0 [] [("f", str "ace"); ("g", str "bd")].

(** What split_files dealt out is put together again. *)
Example merge_main_runs :
  file_of (merge_main 6 [0; 0] (str <$> ["merge"; "-t"; "2"; "f"; "g"]) two_files) "stdout" = Some (str "abcde").
Proof. vm_compute. reflexivity. Qed.

Example merge3_main_runs :
  file_of (merge3_main 6 [7; 0] (str <$> ["merge"; "-o"; "h"; "f"; "g"]) two_files) "h" = Some (str "abcde").
Proof. vm_compute. reflexivity. Qed.

(** Without -t the size of the buffers has no value. *)
Lemma merge_needs_t : merge_main 6 [0; 0] (str <$> ["merge"; "f"; "g"]) two_files = Undef.
Proof. vm_compute. reflexivity. Qed.

(** A missing file that is not the last one: a descriptor is stored after the
    end of [arrayFD]. *)
Lemma merge_missing_first :
  merge_main 6 [0; 0] (str <$> ["merge"; "-t"; "2"; "none"; "f"; "g"]) two_files = Undef.
Proof. vm_compute. reflexivity. Qed.

(** A 1 on the stack where [ficherosTerminados] is makes the program drop a
    file. *)
Lemma merge_junk :
  file_of (merge_main 6 [1; 0] (str <$> ["merge"; "-t"; "2"; "f"; "g"]) two_files) "stdout" = Some (str "bd").
Proof. vm_compute. reflexivity. Qed.

(** ** Shuffling *)

(** Byte [k] of every file that has one, and the first [m] of these rows. *)
Definition row (Fs : list (list Z)) (k : nat) : list Z := omap (.!! k) Fs.
Definition rows (Fs : list (list Z)) (m : nat) : list Z := concat (row Fs <$> seq 0 m).
Definition shuffle (Fs : list (list Z)) : list Z := rows Fs (max_list (length <$> Fs)).

Lemma rows_S Fs m : rows Fs (Datatypes.S m) = rows Fs m ++ row Fs m.
Proof. unfold rows. rewrite seq_S, fmap_app, concat_app. simpl. by rewrite app_nil_r. Qed.

Lemma row_none Fs k : (∀ F, F ∈ Fs → (length F ≤ k)%nat) → row Fs k = [].
Proof.
  intros H. unfold row. induction Fs as [|F Fs IH]; [done|]. simpl.
  rewrite (lookup_ge_None_2 F k) by (apply H; by left). apply IH. intros F' HF. apply H. by right.
Qed.

Lemma rows_all Fs m : (∀ F, F ∈ Fs → (length F ≤ m)%nat) → rows Fs m = shuffle Fs.
Proof.
  intros H. unfold shuffle. set (l := max_list (length <$> Fs)).
  assert (Hl : ∀ F, F ∈ Fs → (length F ≤ l)%nat).
  { intros F HF. apply max_list_elem_of_le. by apply list_elem_of_fmap_2. }
  assert (Hle : (l ≤ m)%nat).
  { unfold l. clear Hl l. induction Fs as [|F Fs IH]; simpl; [lia|].
    apply Nat.max_lub; [apply H; by left|]. apply IH. intros F' HF. apply H. by right. }
  replace m with (l + (m - l))%nat by lia. induction (m - l)%nat as [|d IH]; [by rewrite Nat.add_0_r|].
  rewrite Nat.add_succ_r, rows_S, IH, row_none, app_nil_r; [done|]. intros F HF. specialize (Hl F HF). lia.
Qed.

Lemma row_take Fs i F k : Fs !! i = Some F → row (take (Datatypes.S i) Fs) k = row (take i Fs) k ++ option_list (F !! k).
Proof.
  intros H. unfold row. rewrite (take_S_r _ _ F) by done. by rewrite omap_app.
Qed.

(** ** Counting *)

Notation ones l := (length (filter (λ t : Z, t = 1) l)).

Lemma merge_fin_ok term : merge_fin term = Z.of_nat (ones term).
Proof.
  unfold merge_fin. assert (H : ∀ a, foldl (λ fin t, if t =? 1 then fin + 1 else fin) a term = a + Z.of_nat (ones term)); [|apply H].
  induction term as [|t term IH]; intros a; simpl; [lia|]. rewrite IH, filter_cons.
  destruct (Z.eqb_spec t 1); case_decide; try done; simpl; lia.
Qed.

Lemma ones_insert (l : list Z) i t : l !! i = Some t → t ≠ 1 → ones (<[i := 1]> l) = Datatypes.S (ones l).
Proof.
  intros H Ht. rewrite <- (take_drop_middle l i t H) at 2. rewrite insert_take_drop by (by eapply lookup_lt_Some).
  rewrite !filter_app, !length_app. rewrite !filter_cons. rewrite decide_True, decide_False by done. simpl. lia.
Qed.

Lemma ones_lt (l : list Z) i t : l !! i = Some t → t ≠ 1 → (ones l < length l)%nat.
Proof.
  intros H Ht. rewrite <- (take_drop_middle l i t H). rewrite filter_app, !length_app, filter_cons, decide_False by done.
  pose proof (length_filter (λ t : Z, t = 1) (take i l)). pose proof (length_filter (λ t : Z, t = 1) (drop (Datatypes.S i) l)). simpl. lia.
Qed.

Lemma ones_all (l : list Z) : Forall (λ t, t = 1) l → ones l = length l.
Proof. induction 1 as [|t l Ht Hl IH]; [done|]. rewrite filter_cons, decide_True by done. simpl. lia. Qed.

(** ** The invariant *)

Section merge_proof.
Context {S : Type} `{!FileOps S, !FileSpec S}.
Context (s0 : S) (fds : list Z) (fdout bs : Z).
Notation n := (length fds).
Notation b := (Z.to_nat bs).
Notation Fs := (inp s0 <$> fds).
Hypothesis fds_ne : fds ≠ [].
Hypothesis fds_nodup : NoDup fds.
Hypothesis bs_pos : 0 < bs.

(** The world after [m] bytes of each file have been asked for. *)
Record world (s : S) (m : nat) : Prop := {
  wd_write : can_write s fdout;
  wd_read : ∀ fd, fd ∈ fds → can_read s fd ∧ regular s fd;
  wd_inp : ∀ fd, fd ∈ fds → inp s fd = drop m (inp s0 fd);
  wd_out : ∀ fd, fd ≠ fdout → out s fd = out s0 fd }.

(** In round [r]: the part of the file that is in its buffer. *)
Definition chunk (r : nat) (F : list Z) : list Z := take b (drop (r * b) F).

(** The program has passed file [j] in this row. *)
Definition seen (j i : nat) : nat := if decide (j < i)%nat then 1 else 0.

(** File [j] when the program is at byte [k] of file [i]: it is finished when
    its end was seen, at the byte after its last one. *)
Definition file_at (r k i : nat) (st : mgst) (j : nat) (F : list Z) : Prop :=
  ∃ buf t p, mg_bufs st !! j = Some buf ∧ holds buf (chunk r F) ∧ length buf = b ∧
    mg_term st !! j = Some t ∧ mg_por st !! j = Some (Some p) ∧
    (if decide (length F < k + seen j i)%nat then t = 1
     else t ≠ 1 ∧ p = Z.of_nat (length (chunk r F))).

(** The byte before byte [k] of file [i] exists. *)
Definition emitted (k i : nat) : Prop :=
  match i with
  | O => ∃ F, Fs !! (n - 1)%nat = Some F ∧ (k ≤ length F)%nat
  | Datatypes.S i' => ∃ F, Fs !! i' = Some F ∧ (k < length F)%nat
  end.

(** What is written and what is in the output buffer. *)
Definition output_at (s : S) (st : mgst) (bytes : list Z) : Prop :=
  ∃ pend, holds (mg_sal st) pend ∧ mg_pw st = Z.of_nat (length pend) ∧
    out s fdout ++ pend = out s0 fdout ++ bytes.

Record minv (r k i : nat) (s : S) (st : mgst) : Prop := {
  mi_world : world s (Datatypes.S r * b);
  mi_file : ∀ j F, Fs !! j = Some F → file_at r k i st j F;
  mi_out : output_at s st (rows Fs k ++ row (take i Fs) k);
  mi_sal : length (mg_sal st) = b;
  mi_full : mg_pw st = bs → emitted k i;
  mi_last : i = n → (∀ F, F ∈ Fs → (length F ≤ k)%nat) → mg_a_Escribir st = mg_pw st;
  mi_esc : mg_escritos st = 0;
  mi_cont : 0 ≤ mg_cont st ≤ Z.of_nat (ones (mg_term st));
  mi_lens : length (mg_bufs st) = n ∧ length (mg_por st) = n ∧ length (mg_term st) = n }.

Lemma world_write s s' m : world s m → frame None (Some fdout) s s' → world s' m.
Proof.
  intros [W1 W2 W3 W4] Hf. split.
  - by apply (fr_wok Hf).
  - intros fd Hin. destruct (W2 fd Hin). split; [by apply (fr_rdy Hf)|by apply (fr_reg Hf)].
  - intros fd Hin. rewrite (fr_inp Hf) by done. auto.
  - intros fd Hne. rewrite (fr_out Hf) by congruence. auto.
Qed.

(** The output buffer is written when it is full. *)
Lemma cell_flush s st m bytes : world s m → output_at s st bytes → length (mg_sal st) = b →
  ∃ s' pend, (if mg_pw st =? bs then
          '(a, e) ← write_retry 2 fdout (mg_sal st) id (mg_pw st) 0;
          mret (set_write 0 a e st)
        else mret (set_write (mg_pw st) (mg_pw st) 0 st)) s
    = Ok (Ret (set_write (Z.of_nat (length pend)) (mg_pw st) 0 st)) s' ∧
    world s' m ∧ holds (mg_sal st) pend ∧ (length pend < b)%nat ∧
    out s' fdout ++ pend = out s0 fdout ++ bytes ∧ (mg_pw st ≠ bs → mg_pw st = Z.of_nat (length pend)).
Proof.
  intros Hw (pend & Hh & Hp & Ho) Hl. pose proof (holds_length _ _ Hh) as Hle.
  destruct (Z.eqb_spec (mg_pw st) bs) as [E|E].
  - destruct (write_retry_ok s 1 fdout (mg_sal st) id (mg_pw st) 0 pend) as (s' & Ew & Ho' & Hf).
    { apply (wd_write _ _ Hw). } { lia. } { unfold id. rewrite Hp. by apply holds_load. }
    ustep Ew. exists s', []. split; [done|]. split; [by eapply world_write|].
    split; [apply holds_nil|]. split; [simpl; lia|]. split; [by rewrite app_nil_r, Ho'|done].
  - exists s, pend. rewrite <- Hp. split; [done|]. split_and!; [done|done|lia|done|done].
Qed.

Lemma seen_self i : seen i i = 0%nat.
Proof. unfold seen. case_decide; lia. Qed.
Lemma seen_next i : seen i (Datatypes.S i) = 1%nat.
Proof. unfold seen. case_decide; lia. Qed.

Lemma file_at_other r k i i' st st' j F : (j < i ↔ j < i')%nat →
  mg_bufs st' !! j = mg_bufs st !! j → mg_term st' !! j = mg_term st !! j → mg_por st' !! j = mg_por st !! j →
  file_at r k i st j F → file_at r k i' st' j F.
Proof.
  intros Hi E1 E2 E3 (buf & t & p & H). exists buf, t, p. rewrite E1, E2, E3.
  assert (seen j i' = seen j i) as ->; [|exact H]. unfold seen. repeat case_decide; tauto.
Qed.

Lemma length_chunk r F : length (chunk r F) = (b `min` (length F - r * b))%nat.
Proof. unfold chunk. by rewrite length_take, length_drop. Qed.

Lemma chunk_lookup r F v : (v < b)%nat → chunk r F !! v = F !! (r * b + v)%nat.
Proof. intros H. unfold chunk. by rewrite lookup_take_lt, lookup_drop. Qed.

(** The tests of [merge_cell] on a file that is not finished. *)
Lemma merge_emit_ok st v i buf c pend (s : S) : mg_bufs st !! i = Some buf → peekb buf (Z.of_nat v) = Some c →
  holds (mg_sal st) pend → mg_pw st = Z.of_nat (length pend) → (length pend < length (mg_sal st))%nat →
  ∃ sal, merge_emit st (Z.of_nat v) (Z.of_nat i) s = Ok (Ret (set_sal sal (Z.of_nat (length (pend ++ [c]))) st)) s ∧
    holds sal (pend ++ [c]) ∧ length sal = length (mg_sal st).
Proof.
  intros Hb Hc Hh Hp Hl. unfold merge_emit. rewrite idx_nat, Hb. cbn [ulift].
  rewrite (ubind_ret _ _ _ buf s) by done. cbn beta. rewrite Hc. cbn [ulift].
  rewrite (ubind_ret _ _ _ c s) by done. cbn beta.
  destruct (holds_poke (mg_sal st) pend c Hh Hl) as (sal & E & H1 & H2).
  rewrite Hp, E. cbn [ulift]. rewrite (ubind_ret _ _ _ sal s) by done.
  exists sal. split; [|done]. rewrite length_app. simpl length. rewrite Nat2Z.inj_add. done.
Qed.

(** The two arrays a cell looks at. *)
Lemma cell_arrays (s : S) st i p t (k : Z → Z → U S (mgst * bool)) : mg_por st !! i = Some (Some p) → mg_term st !! i = Some t →
  (por ← ulift (peekb (mg_por st) (Z.of_nat i)); term ← ulift (idx (mg_term st) (Z.of_nat i)); k por term) s = k p t s.
Proof.
  intros Hp Ht. unfold peekb. rewrite !idx_nat, Hp, Ht. done.
Qed.

(** A byte of the file goes to the output buffer. *)
Lemma cell_emit r v i s st F : let k := (r * b + v)%nat in
  minv r k i s st → Fs !! i = Some F → (v < b)%nat → (k < length F)%nat →
  ∃ s' st', merge_cell fdout bs st (Z.of_nat v) (Z.of_nat i) s = Ok (Ret (st', false)) s' ∧ minv r k (Datatypes.S i) s' st'.
Proof.
  intros k Hi HF Hv Hk. unfold merge_cell.
  destruct (cell_flush s st _ _ (mi_world _ _ _ _ _ Hi) (mi_out _ _ _ _ _ Hi) (mi_sal _ _ _ _ _ Hi))
    as (s' & pend & E & Hw & Hh & Hp & Ho & _).
  ustep E. set (st1 := set_write _ _ _ st).
  destruct (mi_file _ _ _ _ _ Hi i F HF) as (buf & t & p & B1 & B2 & B3 & B4 & B5 & B6).
  rewrite seen_self, decide_False in B6 by lia. destruct B6 as [Ht Hpor].
  rewrite (cell_arrays s' st1 i p t) by done.
  destruct (lookup_lt_is_Some_2 F k Hk) as [c Hc].
  assert (Hpk : peekb buf (Z.of_nat v) = Some c) by (eapply holds_peek; [exact B2|]; by rewrite chunk_lookup).
  destruct (merge_emit_ok st1 v i buf c pend s' B1 Hpk Hh eq_refl) as (sal & Ee & Hs & Hl); [simpl; rewrite (mi_sal _ _ _ _ _ Hi); lia|].
  assert (Hnext : minv r k (Datatypes.S i) s' (set_sal sal (Z.of_nat (length (pend ++ [c]))) st1)).
  { destruct Hi as [M1 M2 M3 M4 M5 M6 M7 M8 M9]. split; simpl; auto.
    - intros j F' HF'. destruct (decide (j = i)) as [->|Hne].
      + assert (F' = F) as -> by congruence. exists buf, t, p. split_and!; try done.
        by rewrite seen_next, decide_False by lia.
      + eapply file_at_other; [..|by apply M2]; [lia|done..].
    - exists (pend ++ [c]). split; [done|]. split; [done|]. rewrite app_assoc, Ho, (row_take Fs i F k HF), Hc. by rewrite <- !app_assoc.
    - by rewrite Hl.
    - intros _. exists F. done.
    - intros _ Hall. specialize (Hall F). assert (F ∈ Fs) by (by eapply list_elem_of_lookup_2). specialize (Hall H). lia. }
  assert (Hpn : p ≠ Z.of_nat v) by (rewrite Hpor, length_chunk; lia).
  assert (Hple : p ≤ bs) by (rewrite Hpor, length_chunk; lia).
  rewrite (proj2 (Z.eqb_neq t 1)) by done. cbn [negb]. rewrite !andb_true_r.
  rewrite (proj2 (Z.leb_le p bs)), (proj2 (Z.eqb_neq p (Z.of_nat v))) by done.
  destruct (Z.eqb_spec p bs) as [Eb|Eb]; ustep Ee.
  - rewrite (proj2 (Z.eqb_neq p 0)) by lia. eauto.
  - eauto.
Qed.

(** The file is finished already. *)
Lemma cell_skip r v i s st F : let k := (r * b + v)%nat in
  minv r k i s st → Fs !! i = Some F → (v < b)%nat → (length F < k)%nat →
  ∃ s' st', merge_cell fdout bs st (Z.of_nat v) (Z.of_nat i) s = Ok (Ret (st', false)) s' ∧ minv r k (Datatypes.S i) s' st'.
Proof.
  intros k Hi HF Hv Hk. unfold merge_cell.
  destruct (cell_flush s st _ _ (mi_world _ _ _ _ _ Hi) (mi_out _ _ _ _ _ Hi) (mi_sal _ _ _ _ _ Hi))
    as (s' & pend & E & Hw & Hh & Hp & Ho & Hpw).
  ustep E. set (st1 := set_write _ _ _ st).
  destruct (mi_file _ _ _ _ _ Hi i F HF) as (buf & t & p & B1 & B2 & B3 & B4 & B5 & B6).
  rewrite seen_self, decide_True in B6 by lia. subst t.
  rewrite (cell_arrays s' st1 i p 1) by done. change (negb (1 =? 1)) with false. rewrite !andb_false_r.
  exists s', st1. split; [done|]. destruct Hi as [M1 M2 M3 M4 M5 M6 M7 M8 M9]. split; simpl; auto.
  - intros j F' HF'. destruct (decide (j = i)) as [->|Hne].
    + assert (F' = F) as -> by congruence. exists buf, 1, p. split_and!; try done.
      by rewrite seen_next, decide_True by lia.
    + eapply file_at_other; [..|by apply M2]; [lia|done..].
  - exists pend. split; [done|]. split; [done|]. rewrite Ho, (row_take Fs i F k HF), lookup_ge_None_2 by lia. by rewrite app_nil_r.
  - intros Hfull. lia.
  - intros Hn Hall. destruct (decide (mg_pw st = bs)) as [Hfull|]; [|auto]. exfalso.
    destruct i as [|i']; destruct (M5 Hfull) as (F' & HF' & Hlen).
    + replace (n - 1)%nat with 0%nat in HF' by lia. assert (F' = F) as -> by congruence. lia.
    + assert (F' ∈ Fs) as Hin by (by eapply list_elem_of_lookup_2). specialize (Hall F' Hin). lia.
Qed.

(** The end of the file is seen: it is marked, and passed at the second try. *)
Lemma cell_mark r v i s st F : let k := (r * b + v)%nat in
  minv r k i s st → Fs !! i = Some F → (v < b)%nat → length F = k →
  ∃ s' st1 st', merge_cell fdout bs st (Z.of_nat v) (Z.of_nat i) s = Ok (Ret (st1, true)) s' ∧
    merge_cell fdout bs st1 (Z.of_nat v) (Z.of_nat i) s' = Ok (Ret (st', false)) s' ∧
    minv r k (Datatypes.S i) s' st'.
Proof.
  intros k Hi HF Hv Hk. unfold merge_cell at 1.
  destruct (cell_flush s st _ _ (mi_world _ _ _ _ _ Hi) (mi_out _ _ _ _ _ Hi) (mi_sal _ _ _ _ _ Hi))
    as (s' & pend & E & Hw & Hh & Hp & Ho & Hpw).
  ustep E. set (st1 := set_write _ _ _ st).
  destruct (mi_file _ _ _ _ _ Hi i F HF) as (buf & t & p & B1 & B2 & B3 & B4 & B5 & B6).
  rewrite seen_self, decide_False in B6 by lia. destruct B6 as [Ht Hpor].
  assert (Hpv : p = Z.of_nat v) by (rewrite Hpor, length_chunk; lia).
  destruct (mi_lens _ _ _ _ _ Hi) as (L1 & L2 & L3).
  assert (Hin : (i < n)%nat) by (apply lookup_lt_Some in HF; by rewrite length_fmap in HF).
  rewrite (cell_arrays s' st1 i p t) by done. rewrite (proj2 (Z.eqb_neq t 1)) by done. cbn [negb]. rewrite !andb_true_r.
  rewrite (proj2 (Z.eqb_neq p bs)), (proj2 (Z.leb_le p bs)), (proj2 (Z.eqb_eq p (Z.of_nat v))) by lia.
  rewrite !upd_nat by (simpl; lia). cbn [ulift]. set (por' := <[i := Some (-1)]> (mg_por st1)). set (term' := <[i := 1]> (mg_term st1)).
  rewrite (ubind_ret _ _ _ por' s'), (ubind_ret _ _ _ term' s') by done.
  set (st2 := set_done por' term' (mg_cont st1 + 1) st1).
  assert (Hp2 : mg_pw st2 = Z.of_nat (length pend)) by done.
  exists s', st2, (set_write (mg_pw st2) (mg_pw st2) 0 st2). split; [done|]. split.
  { unfold merge_cell. rewrite (proj2 (Z.eqb_neq (mg_pw st2) bs)) by (rewrite Hp2; lia).
    set (st3 := set_write (mg_pw st2) (mg_pw st2) 0 st2). rewrite (ubind_ret _ _ _ st3 s') by done. cbn beta.
    rewrite (cell_arrays s' st3 i (-1) 1) by (apply list_lookup_insert_eq; simpl; lia).
    change (negb (1 =? 1)) with false. by rewrite !andb_false_r. }
  destruct Hi as [M1 M2 M3 M4 M5 M6 M7 M8 M9]. split; simpl; auto.
  - intros j F' HF'. destruct (decide (j = i)) as [->|Hne].
    + assert (F' = F) as -> by congruence. exists buf, 1, (-1). simpl. unfold por', term'.
      rewrite !list_lookup_insert_eq by (simpl; lia). split_and!; try done. by rewrite seen_next, decide_True by lia.
    + eapply file_at_other; [..|by apply M2]; [lia|done|by apply list_lookup_insert_ne..].
  - exists pend. split; [done|]. split; [done|]. rewrite Ho, (row_take Fs i F k HF), lookup_ge_None_2 by lia. by rewrite app_nil_r.
  - lia.
  - unfold term'. simpl. rewrite (ones_insert _ i t) by done. lia.
  - unfold por', term'. by rewrite !length_insert.
Qed.

Lemma row_step r v i s st f : let k := (r * b + v)%nat in
  minv r k i s st → (i < n)%nat → (v < b)%nat → (2 * (n - i) < f)%nat →
  ∃ f' s' st', (2 * (n - Datatypes.S i) < f')%nat ∧ minv r k (Datatypes.S i) s' st' ∧
    merge_row f (Z.of_nat n) fdout bs st (Z.of_nat v) (Z.of_nat i) s =
    merge_row f' (Z.of_nat n) fdout bs st' (Z.of_nat v) (Z.of_nat (Datatypes.S i)) s'.
Proof.
  intros k Hi Hin Hv Hf. destruct f as [|[|f]]; [lia|lia|]. set (f1 := Datatypes.S f). cbn [merge_row].
  rewrite (proj2 (Z.ltb_lt (Z.of_nat i) (Z.of_nat n))) by lia. cbn [negb].
  replace (Z.of_nat (Datatypes.S i)) with (Z.of_nat i + 1) by lia.
  destruct (lookup_lt_is_Some_2 Fs i) as [F HF]; [by rewrite length_fmap|].
  destruct (lt_eq_lt_dec (length F) k) as [[Hlt|Heq]|Hgt].
  - destruct (cell_skip r v i s st F Hi HF Hv Hlt) as (s' & st' & E & Hi'). ustep E.
    exists f1, s', st'. split; [unfold f1; lia|done].
  - destruct (cell_mark r v i s st F Hi HF Hv Heq) as (s' & st1 & st' & E & E1 & Hi'). ustep E.
    unfold f1. cbn [merge_row]. rewrite (proj2 (Z.ltb_lt (Z.of_nat i) (Z.of_nat n))) by lia. cbn [negb]. ustep E1.
    exists f, s', st'. split; [lia|done].
  - destruct (cell_emit r v i s st F Hi HF Hv Hgt) as (s' & st' & E & Hi'). ustep E.
    exists f1, s', st'. split; [unfold f1; lia|done].
Qed.

Lemma row_ok r v : let k := (r * b + v)%nat in (v < b)%nat →
  ∀ d i s st f, (d + i = n)%nat → minv r k i s st → (2 * (n - i) < f)%nat →
  ∃ s' st', merge_row f (Z.of_nat n) fdout bs st (Z.of_nat v) (Z.of_nat i) s = Ok (Ret st') s' ∧ minv r k n s' st'.
Proof.
  intros k Hv. induction d as [|d IH]; intros i s st f Hd Hi Hf.
  - assert (i = n) as -> by lia. destruct f as [|f]; [lia|]. cbn [merge_row].
    rewrite Z.ltb_irrefl. exists s, st. done.
  - destruct (row_step r v i s st f Hi ltac:(lia) Hv Hf) as (f' & s' & st' & Hf' & Hi' & ->).
    apply (IH (Datatypes.S i)); [lia|done|done].
Qed.

Lemma emitted_next k : emitted k n → emitted (Datatypes.S k) 0.
Proof.
  assert (Hn : (0 < n)%nat) by (destruct fds; [done|simpl; lia]).
  remember n as m eqn:Em. destruct m as [|m]; [lia|]. intros (F & HF & Hl).
  exists F. rewrite <- Em. simpl. rewrite Nat.sub_0_r. done.
Qed.

(** From the end of a row to the start of the next one. *)
Lemma row_next r k s st : minv r k n s st → minv r (Datatypes.S k) 0 s st.
Proof.
  intros [M1 M2 M3 M4 M5 M6 M7 M8 M9]. split; auto.
  - intros j F HF. destruct (M2 j F HF) as (buf & t & p & H). exists buf, t, p.
    assert (Hj : (j < n)%nat) by (apply lookup_lt_Some in HF; by rewrite length_fmap in HF).
    replace (Datatypes.S k + seen j 0)%nat with (k + seen j n)%nat; [done|]. unfold seen. repeat case_decide; lia.
  - rewrite take_0, app_nil_r, rows_S. rewrite take_ge in M3 by (by rewrite length_fmap). done.
  - intros Hfull. by apply emitted_next, M5.
  - intros Hn. destruct fds; done.
Qed.

Lemma rows_ok r : ∀ d v s st, (d + v = b)%nat → minv r (r * b + v) 0 s st →
  ((0 < v)%nat → (∀ F, F ∈ Fs → (length F < r * b + v)%nat) → mg_a_Escribir st = mg_pw st) →
  ∃ s' st', merge_rows d (Z.of_nat n) fdout bs st (Z.of_nat v) s = Ok (Ret st') s' ∧
    minv r (Datatypes.S r * b) 0 s' st' ∧
    ((∀ F, F ∈ Fs → (length F < Datatypes.S r * b)%nat) → mg_a_Escribir st' = mg_pw st').
Proof.
  induction d as [|d IH]; intros v s st Hd Hi Ha; cbn [merge_rows].
  - assert (v = b) as -> by lia. replace (r * b + b)%nat with (Datatypes.S r * b)%nat in * by lia.
    exists s, st. split; [done|]. split; [done|]. apply Ha. lia.
  - destruct (row_ok r v ltac:(lia) n 0 s st (row_fuel (Z.of_nat n))) as (s1 & st1 & E & Hi1);
      [lia|done|unfold row_fuel; lia|].
    change (Z.of_nat 0) with 0 in E. ustep E. replace (Z.of_nat v + 1) with (Z.of_nat (Datatypes.S v)) by lia.
    apply IH; [lia| |].
    + replace (r * b + Datatypes.S v)%nat with (Datatypes.S (r * b + v)) by lia. by apply row_next.
    + intros _ Hall. apply (mi_last _ _ _ _ _ Hi1 eq_refl). intros F HF. specialize (Hall F HF). lia.
Qed.

(** ** Reading a buffer from every file *)

(** The first [i] files have been read in round [r], which started in [s1]. *)
Record rinv (r i : nat) (s1 s : S) (st : mgst) : Prop := {
  ri_write : can_write s fdout;
  ri_read : ∀ fd, fd ∈ fds → can_read s fd ∧ regular s fd;
  ri_out : ∀ fd, out s fd = out s1 fd;
  ri_file : ∀ j fd, fds !! j = Some fd → inp s fd = drop ((r + seen j i) * b) (inp s0 fd) ∧
    ∃ buf, mg_bufs st !! j = Some buf ∧ length buf = b ∧ ((j < i)%nat → holds buf (chunk r (inp s0 fd)) ∧
      mg_por st !! j = Some (Some (Z.of_nat (length (chunk r (inp s0 fd))))));
  ri_lens : length (mg_bufs st) = n ∧ length (mg_por st) = n }.

Lemma read_step r i s1 s st fd : rinv r i s1 s st → fds !! i = Some fd →
  ∃ s' buf buf', mg_bufs st !! i = Some buf ∧
    read_retry 2 fd buf 0 bs 0 s = Ok (Ret (buf', Z.of_nat (length (chunk r (inp s0 fd))), bs, 0)) s' ∧
    rinv r (Datatypes.S i) s1 s' (set_files (<[i := buf']> (mg_bufs st))
      (<[i := Some (Z.of_nat (length (chunk r (inp s0 fd))))]> (mg_por st)) st).
Proof.
  intros [R1 R2 R3 R4 [L1 L2]] Hfd. destruct (R4 i fd Hfd) as (Hin & buf & Hb & Hl & _).
  pose proof (lookup_lt_Some _ _ _ Hfd) as Hlt. rewrite seen_self, Nat.add_0_r in Hin. assert (Hel : fd ∈ fds) by (by eapply list_elem_of_lookup_2).
  destruct (R2 fd Hel) as [Hr Hreg].
  destruct (read_retry_ok s 1 fd buf 0 bs Hr bs_pos) as (k & buf' & s' & E & Hh & Hl' & _ & _ & _ & Hk & Hin' & Hf); [lia|].
  specialize (Hk Hreg). rewrite Hin in *.
  assert (Hc : take k (drop (r * b) (inp s0 fd)) = chunk r (inp s0 fd)).
  { unfold chunk. rewrite Hk. destruct (Nat.min_spec b (length (drop (r * b) (inp s0 fd)))) as [[_ ->]|[? ->]]; [done|]. by rewrite !take_ge by lia. }
  assert (Hkl : k = length (chunk r (inp s0 fd))) by (rewrite Hk, length_chunk, length_drop; done).
  rewrite Hkl in E. rewrite Hc in Hh. exists s', buf, buf'. split; [done|]. split; [done|].
  split; simpl.
  - by apply (fr_wok Hf).
  - intros fd' Hin2. destruct (R2 fd' Hin2). split; [by apply (fr_rdy Hf)|by apply (fr_reg Hf)].
  - intros fd'. rewrite (fr_out Hf) by done. auto.
  - intros j fd' Hfd'. destruct (decide (j = i)) as [->|Hne].
    + assert (fd' = fd) as -> by congruence. rewrite seen_next. split.
      * rewrite Hin', Hk, drop_drop. destruct (Nat.min_spec b (length (drop (r * b) (inp s0 fd)))) as [[_ ->]|[? ->]].
        { f_equal. lia. } { rewrite length_drop in *. rewrite !drop_ge by lia. done. }
      * exists buf'. rewrite !list_lookup_insert_eq by lia. split; [done|]. split; [lia|]. done.
    + destruct (R4 j fd' Hfd') as (Hi2 & buf2 & B1 & B2 & B3). split.
      * rewrite (fr_inp Hf) by (intros [= <-]; by eapply Hne, NoDup_lookup). rewrite Hi2. do 2 f_equal. f_equal.
        unfold seen. repeat case_decide; lia.
      * exists buf2. rewrite !list_lookup_insert_ne by done. split; [done|]. split; [done|]. intros Hj. apply B3. lia.
  - by rewrite !length_insert.
Qed.

Lemma reads_ok r s1 : ∀ d i s st, (d + i = n)%nat → rinv r i s1 s st →
  ∃ s' bufs por, merge_reads d (Some <$> fds) bs st (Z.of_nat i) s = Ok (Ret (set_files bufs por st)) s' ∧
    rinv r n s1 s' (set_files bufs por st).
Proof.
  induction d as [|d IH]; intros i s st Hd Hi; cbn [merge_reads].
  - assert (i = n) as -> by lia. exists s, (mg_bufs st), (mg_por st). destruct st. split; [done|]. exact Hi.
  - destruct (lookup_lt_is_Some_2 fds i ltac:(lia)) as [fd Hfd].
    destruct (read_step r i s1 s st fd Hi Hfd) as (s' & buf & buf' & Hb & E & Hi').
    destruct (ri_lens _ _ _ _ _ Hi) as [L1 L2].
    assert (Hp : peekb (Some <$> fds) (Z.of_nat i) = Some fd) by (unfold peekb; by rewrite idx_nat, list_lookup_fmap, Hfd).
    rewrite Hp. cbn [ulift]. rewrite (ubind_ret _ _ _ fd s) by done. cbn beta.
    rewrite (idx_nat (mg_bufs st)), Hb. cbn [ulift]. rewrite (ubind_ret _ _ _ buf s) by done. cbn beta. ustep E.
    rewrite !upd_nat by lia. cbn [ulift]. rewrite (ubind_ret _ _ _ (<[i := buf']> (mg_bufs st)) s') by done. cbn beta.
    rewrite (proj2 (Z.eqb_neq (Z.of_nat _) (-1))) by lia.
    rewrite (ubind_ret _ _ _ (<[i := Some (Z.of_nat (length (chunk r (inp s0 fd))))]> (mg_por st)) s') by done. cbn beta.
    replace (Z.of_nat i + 1) with (Z.of_nat (Datatypes.S i)) by lia.
    destruct (IH (Datatypes.S i) s' _ ltac:(lia) Hi') as (s2 & bufs & por & E2 & Hi2).
    exists s2, bufs, por. split; [exact E2|exact Hi2].
Qed.

(** ** The rounds *)

(** The start of round [r]. *)
Record start (r : nat) (s : S) (st : mgst) : Prop := {
  so_world : world s (r * b);
  so_file : ∀ j F, Fs !! j = Some F → ∃ buf t, mg_bufs st !! j = Some buf ∧ length buf = b ∧
    mg_term st !! j = Some t ∧ (if decide (length F < r * b)%nat then t = 1 else t ≠ 1);
  so_out : output_at s st (rows Fs (r * b));
  so_sal : length (mg_sal st) = b;
  so_full : mg_pw st = bs → emitted (r * b) 0;
  so_lens : length (mg_bufs st) = n ∧ length (mg_por st) = n ∧ length (mg_term st) = n }.

Lemma seen_0 j : seen j 0 = 0%nat.
Proof. unfold seen. case_decide; lia. Qed.

Lemma start_reads r s st : start r s st → rinv r 0 s s (set_cont 0 st).
Proof.
  intros [[W1 W2 W3 W4] S2 S3 S4 S5 S6]. split; simpl; auto; [|tauto].
  intros j fd Hfd. assert (Hel : fd ∈ fds) by (by eapply list_elem_of_lookup_2).
  rewrite seen_0, Nat.add_0_r. split; [by apply W3|].
  destruct (S2 j (inp s0 fd)) as (buf & t & B1 & B2 & _); [by rewrite list_lookup_fmap, Hfd|].
  exists buf. split; [done|]. split; [done|lia].
Qed.

Lemma start_rows r s s' st bufs por : start r s st → rinv r n s s' (set_files bufs por (set_cont 0 st)) →
  minv r (r * b) 0 s' (set_write (mg_pw st) 0 0 (set_files bufs por (set_cont 0 st))).
Proof.
  intros [[W1 W2 W3 W4] S2 S3 S4 S5 S6] [R1 R2 R3 R4 R5]. simpl in *. split; simpl; auto.
  - split; auto.
    + intros fd (j & Hj)%list_elem_of_lookup_1. destruct (R4 j fd Hj) as [-> _].
      unfold seen. rewrite decide_True by (by eapply lookup_lt_Some). f_equal. lia.
    + intros fd Hne. by rewrite R3, W4.
  - intros j F HF. rewrite list_lookup_fmap in HF. destruct (fds !! j) as [fd|] eqn:Hfd; [|done]. injection HF as <-.
    destruct (R4 j fd Hfd) as (_ & buf & B1 & B2 & B3). destruct (B3 ltac:(by eapply lookup_lt_Some)) as [B4 B5].
    destruct (S2 j (inp s0 fd)) as (_ & t & _ & _ & Ht & Hfin); [by rewrite list_lookup_fmap, Hfd|].
    exists buf, t, (Z.of_nat (length (chunk r (inp s0 fd)))). simpl. rewrite seen_0, Nat.add_0_r. split_and!; [done..|].
    by case_decide.
  - destruct S3 as (pend & P1 & P2 & P3). exists pend. split; [done|]. split; [done|]. rewrite R3, P3. simpl. by rewrite app_nil_r.
  - intros Hn. destruct fds; done.
  - lia.
  - destruct R5 as [-> ->]. split_and!; [done..|]. apply S6.
Qed.

Lemma minv_start r s st : minv r (Datatypes.S r * b) 0 s st → start (Datatypes.S r) s st.
Proof.
  intros [M1 M2 M3 M4 M5 M6 M7 M8 M9]. split; auto.
  - intros j F HF. destruct (M2 j F HF) as (buf & t & p & B1 & _ & B3 & B4 & _ & B6).
    exists buf, t. rewrite seen_0, Nat.add_0_r in B6. split_and!; [done..|]. by case_decide; [|destruct B6].
  - by rewrite take_0, app_nil_r in M3.
Qed.

(** The last write flushes the output buffer. *)
Definition flushes (last : Z → mgst → U S unit) : Prop :=
  ∀ s st pend, can_write s fdout → holds (mg_sal st) pend → mg_pw st = Z.of_nat (length pend) →
    mg_a_Escribir st = mg_pw st → mg_escritos st = 0 →
    ∃ s', last fdout st s = Ok (Ret tt) s' ∧ out s' fdout = out s fdout ++ pend ∧ frame None (Some fdout) s s'.

Lemma last_write_flushes : flushes last_write.
Proof.
  intros s st pend Hw Hh Hp Ha He. unfold last_write. rewrite Ha, He, Hp. destruct pend as [|c pend].
  - exists s. split; [done|]. rewrite app_nil_r. split; [done|]. apply frame_refl.
  - destruct (write_retry_ok s 1 fdout (mg_sal st) id (Z.of_nat (length (c :: pend))) 0 (c :: pend) Hw) as (s' & E & H); [simpl; lia| |].
    { unfold id. by apply holds_load. }
    exists s'. split; [|done]. by ustep E.
Qed.

Lemma last_write3_flushes : flushes last_write3.
Proof.
  intros s st pend Hw Hh Hp _ _. unfold last_write3. rewrite Hp, (holds_load _ _ Hh). cbn [ulift].
  rewrite (ubind_ret _ _ _ pend s) by done. destruct (write_law s fdout pend Hw) as (s' & E & H).
  exists s'. split; [|done]. by ucall E.
Qed.

(** All files are finished, or one is not. *)
Lemma fin_all r s st : start r s st → (∀ F, F ∈ Fs → (length F < r * b)%nat) → merge_fin (mg_term st) = Z.of_nat n.
Proof.
  intros [_ S2 _ _ _ (_ & _ & L)] Hall. rewrite merge_fin_ok, ones_all; [by rewrite L|].
  apply Forall_lookup. intros j t Ht. destruct (lookup_lt_is_Some_2 Fs j) as [F HF].
  { rewrite length_fmap. apply lookup_lt_Some in Ht. lia. }
  destruct (S2 j F HF) as (_ & t' & _ & _ & Ht' & Hfin). rewrite decide_True in Hfin by (apply Hall; by eapply list_elem_of_lookup_2).
  congruence.
Qed.

Lemma fin_some r s st F : start r s st → F ∈ Fs → (r * b ≤ length F)%nat → (ones (mg_term st) < n)%nat.
Proof.
  intros [_ S2 _ _ _ (_ & _ & L)] (j & HF)%list_elem_of_lookup_1 Hl.
  destruct (S2 j F HF) as (_ & t & _ & _ & Ht & Hfin). rewrite decide_False in Hfin by lia. rewrite <- L. by eapply ones_lt.
Qed.

Lemma merge_loop_ok last : flushes last → ∀ fuel r s st, start r s st → mg_cont st ≠ Z.of_nat n →
  (∀ F, F ∈ Fs → (length F - r * b < fuel)%nat) →
  ∃ s', merge_loop last fuel (Some <$> fds) (Z.of_nat n) fdout bs st s = Ok (Ret tt) s' ∧
    out s' fdout = out s0 fdout ++ shuffle Fs ∧ (∀ fd, fd ≠ fdout → out s' fd = out s0 fd) ∧
    (∀ fd, fd ∈ fds → inp s' fd = []).
Proof.
  intros Hlast. induction fuel as [|fuel IH]; intros r s st Hst Hc Hf.
  { destruct fds as [|fd fds']; [done|]. specialize (Hf (inp s0 fd) ltac:(by left)). lia. }
  cbn [merge_loop]. rewrite (proj2 (Z.eqb_neq _ _)) by done. rewrite !Nat2Z.id.
  destruct (reads_ok r s n 0 s (set_cont 0 st) ltac:(lia) (start_reads _ _ _ Hst)) as (s1 & bufs & por & E1 & R1).
  change (Z.of_nat 0) with 0 in E1. ustep E1. pose proof (start_rows _ _ _ _ _ _ Hst R1) as M1.
  destruct (rows_ok r b 0 s1 (set_write (mg_pw st) 0 0 (set_files bufs por (set_cont 0 st)))) as (s2 & st2 & E2 & M2 & Ha);
    [lia|by rewrite Nat.add_0_r|lia|].
  change (Z.of_nat 0) with 0 in E2. ustep E2. pose proof (minv_start _ _ _ M2) as Hst2.
  destruct (so_out _ _ _ Hst2) as (pend & P1 & P2 & P3).
  rewrite (proj2 (Z.leb_le 0 (mg_pw st2))) by lia. cbn [andb].
  destruct (decide (Forall (λ F, length F < Datatypes.S r * b)%nat Fs)) as [Hall|Hex].
  - rewrite Forall_forall in Hall. rewrite (fin_all _ _ _ Hst2 Hall), Z.eqb_refl.
    destruct (so_world _ _ _ Hst2) as [W1 W2 W3 W4].
    destruct (Hlast s2 st2 pend W1 P1 P2 (Ha Hall) (mi_esc _ _ _ _ _ M2)) as (s3 & E3 & Ho & Hfr).
    exists s3. split; [done|]. split_and!.
    + rewrite Ho, P3, (rows_all Fs); [done|]. intros F HF. specialize (Hall F HF). lia.
    + intros fd Hne. rewrite (fr_out Hfr) by congruence. by apply W4.
    + intros fd Hin. rewrite (fr_inp Hfr), W3 by done. apply drop_ge.
      specialize (Hall (inp s0 fd) ltac:(by apply list_elem_of_fmap_2)). lia.
  - apply not_Forall_Exists in Hex; [|intros ?; apply _]. apply Exists_exists in Hex as (F & HF & Hl%Nat.nlt_ge).
    pose proof (fin_some _ _ _ F Hst2 HF ltac:(lia)) as Hfin. rewrite merge_fin_ok.
    rewrite (proj2 (Z.eqb_neq _ _)) by lia. pose proof (mi_cont _ _ _ _ _ M2).
    apply (IH (Datatypes.S r)); [done|lia|]. intros F' HF'. pose proof (Hf F' HF'). pose proof (Hf F HF). lia.
Qed.
End merge_proof.

(** The state before the first round. *)
Lemma merge_start {S} `{!FileOps S, !FileSpec S} (s : S) fds fdout bs junk : 0 < bs → fds ≠ [] →
  can_write s fdout → (∀ fd, fd ∈ fds → can_read s fd ∧ regular s fd) → length junk = length fds → 1 ∉ junk →
  start s fds fdout bs 0 s (merge_init (length fds) bs junk).
Proof.
  intros Hbs Hne Hw Hr Hl Hj. split.
  - by split.
  - intros j F HF. assert (Hlt : (j < length fds)%nat) by (apply lookup_lt_Some in HF; by rewrite length_fmap in HF).
    destruct (lookup_lt_is_Some_2 junk j ltac:(lia)) as [t Ht]. exists (fresh bs), t.
    cbn [merge_init mg_bufs mg_term]. rewrite lookup_replicate_2, length_fresh by done. split_and!; [done..|].
    case_decide; [lia|]. intros ->. apply Hj. by eapply list_elem_of_lookup_2.
  - exists []. split; [apply holds_nil|]. split; [done|]. done.
  - apply length_fresh.
  - simpl. lia.
  - simpl. by rewrite !length_replicate.
Qed.

(** Merge_files shuffles its files: if the array ficherosTerminados has no 1
    on the stack, the output gets the first byte of every file, then the second
    byte of every file that has one, and so on until all files are read to
    their end, whatever the size of the buffers; both programs do. *)
Theorem merge_correct {S} `{!FileOps S, !FileSpec S} (last : Z → mgst → U S unit) (s : S) fds fdout bs fuel junk :
  last = last_write ∨ last = last_write3 →
  fds ≠ [] → NoDup fds → 0 < bs → can_write s fdout → (∀ fd, fd ∈ fds → can_read s fd ∧ regular s fd) →
  length junk = length fds → 1 ∉ junk → (∀ fd, fd ∈ fds → (length (inp s fd) < fuel)%nat) →
  ∃ s', merge_run last fuel (Some <$> fds) fdout bs junk s = Ok (Ret tt) s' ∧
    out s' fdout = out s fdout ++ shuffle (inp s <$> fds) ∧
    (∀ fd, fd ≠ fdout → out s' fd = out s fd) ∧ (∀ fd, fd ∈ fds → inp s' fd = []).
Proof.
  intros Hlast Hne Hnd Hbs Hw Hr Hl Hj Hf. unfold merge_run. rewrite length_fmap.
  apply (merge_loop_ok s fds fdout bs Hne Hnd Hbs last) with (r := 0%nat).
  - destruct Hlast as [-> | ->]; [apply last_write_flushes|apply last_write3_flushes].
  - by apply merge_start.
  - simpl. destruct fds; [done|simpl; lia].
  - intros F (fd & -> & Hin)%list_elem_of_fmap_1. specialize (Hf fd Hin). lia.
Qed.

(** ** Putting together what split_files dealt out *)

Lemma deal_lookup n D j k : (j < n)%nat → deal n D j !! k = D !! (j + n * k)%nat.
Proof.
  intros Hj. revert k. induction D as [|c D IH] using rev_ind; intros k; [by rewrite !lookup_nil|].
  rewrite deal_snoc. set (m := length D) in *.
  destruct (decide (m mod n = j)%nat) as [Hm|Hm].
  - pose proof (Nat.div_mod_eq m n) as Hd. set (q := (m / n)%nat) in *.
    assert (Hq : length (deal n D j) = q).
    { apply Nat.le_antisymm; apply Nat.le_ngt; intros Hlt.
      - apply lookup_lt_is_Some_2 in Hlt. rewrite IH in Hlt. apply lookup_lt_is_Some_1 in Hlt. fold m in Hlt. nia.
      - assert (is_Some (D !! (j + n * length (deal n D j))%nat)) as Hs by (apply lookup_lt_is_Some_2; fold m; nia).
        rewrite <- IH in Hs. apply lookup_lt_is_Some_1 in Hs. lia. }
    destruct (decide (k < q)%nat) as [Hk|Hk].
    + rewrite !lookup_app_l by (fold m; nia). apply IH.
    + rewrite !lookup_app_r by (fold m; nia). fold m. rewrite Hq. destruct (decide (k = q)) as [->|Hne].
      * replace (j + n * q - m)%nat with 0%nat by lia. by rewrite Nat.sub_diag.
      * rewrite !lookup_ge_None_2; [done|simpl; nia|simpl; lia].
  - rewrite app_nil_r, IH. destruct (decide (j + n * k < m)%nat) as [Hk|Hk].
    + by rewrite lookup_app_l by (fold m; lia).
    + rewrite lookup_app_r by (fold m; lia). rewrite (lookup_ge_None_2 D) by (fold m; lia). symmetry. apply lookup_ge_None_2.
      simpl. fold m. assert (j + n * k ≠ m)%nat; [|lia]. intros E. apply Hm. rewrite <- E, Nat.mul_comm, Nat.Div0.mod_add. by apply Nat.mod_small.
Qed.

Lemma deal_length n D j : (length (deal n D j) ≤ length D)%nat.
Proof.
  induction D as [|c D IH] using rev_ind; [done|]. rewrite deal_snoc, !length_app. destruct (decide _); simpl; lia.
Qed.

(** Consecutive elements. *)
Lemma omap_lookup_seq (D : list Z) a n : omap (λ j, D !! (j + a)%nat) (seq 0 n) = take n (drop a D).
Proof.
  revert a. induction n as [|n IH]; intros a; [done|]. rewrite seq_S, omap_app, IH. simpl.
  destruct (D !! (n + a)%nat) as [c|] eqn:E; simpl.
  - symmetry. apply take_S_r. rewrite lookup_drop. by rewrite Nat.add_comm.
  - rewrite app_nil_r. apply lookup_ge_None_1 in E. rewrite !take_ge by (rewrite length_drop; lia). done.
Qed.

Lemma row_deal n D k : row (deal n D <$> seq 0 n) k = take n (drop (n * k) D).
Proof.
  rewrite <- omap_lookup_seq. unfold row.
  assert (H : ∀ l : list nat, (∀ j, j ∈ l → (j < n)%nat) →
    omap (.!! k) (deal n D <$> l) = omap (λ j, D !! (j + n * k)%nat) l); [|apply H; intros j Hj; apply elem_of_seq in Hj; lia].
  induction l as [|j l IH]; intros Hl; [done|]. simpl. rewrite deal_lookup by (apply Hl; by left).
  destruct (D !! _); [f_equal|]; apply IH; intros j' Hj'; apply Hl; by right.
Qed.

Lemma shuffle_deal n D : (0 < n)%nat → shuffle (deal n D <$> seq 0 n) = D.
Proof.
  intros Hn. rewrite <- (rows_all _ (length D)).
  - assert (H : ∀ m, rows (deal n D <$> seq 0 n) m = take (n * m) D).
    { induction m as [|m IH]; [by rewrite Nat.mul_0_r|]. rewrite rows_S, IH, row_deal.
      by rewrite take_take_drop, Nat.mul_succ_r. }
    rewrite H. apply take_ge. nia.
  - intros F (j & -> & Hj)%list_elem_of_fmap_1. apply elem_of_seq in Hj.
    apply deal_length.
Qed.

(** C34: merge_files undoes split_files: the bytes that split_files deals out to
    n empty files, whatever the sizes of its reads and of its buffers, are put
    together again in their order by merge_files on these files.  The files are
    regular, so that only their end gives a short read; no write is cut short; and the array
    ficherosTerminados, which merge_files does not initialise, holds no 1. *)
Theorem split_merge {S} `{!FileOps S, !FileSpec S} (s : S) fds bs fuel gds fdout bs' fuel' junk :
  fds ≠ [] → NoDup fds → 0 < bs → can_read s STDIN → (∀ fd, fd ∈ fds → can_write s fd ∧ out s fd = []) →
  (length (inp s STDIN) < fuel)%nat →
  NoDup gds → length gds = length fds → 0 < bs' → length junk = length fds → 1 ∉ junk → (length (inp s STDIN) < fuel')%nat →
  ∃ s1, split_run fuel (Some <$> fds) bs s = Ok (Ret tt) s1 ∧
    ∀ s2, can_write s2 fdout → (∀ fd, fd ∈ gds → can_read s2 fd ∧ regular s2 fd) →
      inp s2 <$> gds = out s1 <$> fds →
      ∃ s3, merge_run last_write fuel' (Some <$> gds) fdout bs' junk s2 = Ok (Ret tt) s3 ∧
        out s3 fdout = out s2 fdout ++ inp s STDIN.
Proof.
  intros Hne Hnd Hbs Hr Hw Hf Hnd' Hlen Hbs' Hl Hj Hf'.
  assert (Hn : (0 < length fds)%nat) by (destruct fds; [done|simpl; lia]).
  destruct (split_loop_ok s fds bs Hne Hnd Hbs fuel s (split_init (length fds) bs) []) as (s1 & E1 & Ho & _).
  { apply split_start; [done..|]. intros fd Hin. by apply Hw. } { done. }
  exists s1. split; [unfold split_run; by rewrite length_fmap|]. intros s2 Hw2 Hr2 Hin2.
  assert (Hdeal : inp s2 <$> gds = deal (length fds) (inp s STDIN) <$> seq 0 (length fds)).
  { rewrite Hin2. apply list_eq. intros j. rewrite !list_lookup_fmap. destruct (fds !! j) as [fd|] eqn:E.
    - rewrite lookup_seq_lt by (by eapply lookup_lt_Some). simpl. f_equal. rewrite (Ho j fd E).
      rewrite (proj2 (Hw fd ltac:(by eapply list_elem_of_lookup_2))). done.
    - rewrite lookup_seq_ge; [done|]. by apply lookup_ge_None_1. }
  assert (Hne' : gds ≠ []) by (destruct gds; [simpl in Hlen; lia|done]).
  destruct (merge_loop_ok s2 gds fdout bs' Hne' Hnd' Hbs' last_write (last_write_flushes fdout) fuel' 0 s2 (merge_init (length gds) bs' junk))
    as (s3 & E3 & H3 & _).
  - apply merge_start; try done. lia.
  - simpl. lia.
  - intros F HF. rewrite Hdeal in HF. apply list_elem_of_fmap_1 in HF as (j & -> & _).
    pose proof (deal_length (length fds) (inp s STDIN) j). lia.
  - exists s3. split; [unfold merge_run; by rewrite length_fmap|]. by rewrite H3, Hdeal, shuffle_deal.
Qed.

(** Three files of different lengths. *)
Definition uneven : sim := mksim {[ 3 := ([], str "ad"); 4 := ([], str "be"); 5 := ([], str "cfg") ]} {[ 1 := str "-" ]}.

Lemma merge_correct_witness :
  ∃ s', merge_run last_write 4 [Some 3; Some 4; Some 5] 1 2 [0; 5; -7] uneven = Ok (Ret tt) s' ∧ out s' 1 = str "-abcdefg".
Proof.
  destruct (merge_correct last_write uneven [3; 4; 5] 1 2 4 [0; 5; -7]) as (s' & H & Ho & _).
  - by left.
  - done.
  - apply (bool_decide_unpack _). by vm_compute.
  - lia.
  - by eexists.
  - intros fd. rewrite !elem_of_cons, elem_of_nil.
    intros [->|[->|[->|[]]]]; (split; [by eexists|intros ks bs E; by injection E as <- <-]).
  - done.
  - apply (bool_decide_unpack _). by vm_compute.
  - intros fd. rewrite !elem_of_cons, elem_of_nil. intros [->|[->|[->|[]]]]; by vm_compute; lia.
  - exists s'. split; [exact H|]. rewrite Ho. by vm_compute.
Defined.

(** The bytes of [five] (read two, one and two at a time) through two files. *)
Lemma split_merge_witness :
  ∃ s1, split_run 6 [Some 3; Some 4] 2 (mksim (sim_in five) {[ 3 := []; 4 := [] ]}) = Ok (Ret tt) s1 ∧
    ∃ s3, merge_run last_write 6 [Some 3; Some 4] 1 3 [0; 0]
      (mksim {[ 3 := ([], out s1 3); 4 := ([], out s1 4) ]} {[ 1 := [] ]}) = Ok (Ret tt) s3 ∧ out s3 1 = str "abcde".
Proof.
  destruct (split_merge (mksim (sim_in five) {[ 3 := []; 4 := [] ]}) [3; 4] 2 6 [3; 4] 1 3 6 [0; 0]) as (s1 & E1 & H).
  - done.
  - apply (bool_decide_unpack _). by vm_compute.
  - lia.
  - by eexists.
  - intros fd. rewrite !elem_of_cons, elem_of_nil. intros [->|[->|[]]]; (split; [by eexists|done]).
  - by vm_compute.
  - apply (bool_decide_unpack _). by vm_compute.
  - done.
  - lia.
  - done.
  - apply (bool_decide_unpack _). by vm_compute.
  - by vm_compute.
  - exists s1. split; [exact E1|]. apply H.
    + by eexists.
    + intros fd. rewrite !elem_of_cons, elem_of_nil.
      intros [->|[->|[]]]; (split; [by eexists|intros ks bs E; by injection E as <- <-]).
    + done.
Defined.
