(* ===== verification/Mystrings.v ===== *)
(** * mystrings: Semana4/src/Tarea4/mystrings.c

    The program prints the strings of its standard input: the runs of printable
    characters, blanks, tabs and newlines that have a minimal length.  A run is
    collected in a buffer of the same size as the one for reading.
    [mystrings_main] is the program from its arguments on, [my_run] its main
    loop.

    The theorem says what is printed for a file whose runs fit in the buffer and
    whose last piece is longer than the minimal length; the lemmas after it
    show what happens otherwise. *)

From S2P Require Import Prelude Params Usys Printf Posix Split.

Definition printable (c : Z) : bool := isprint c || (c =? 10) || (c =? 9).

Section mystrings.
Context {S : Type} `{!FileOps S, !PosixOps S}.

(** ** Options *)

Definition my_uso : U S unit :=
  fputs (msg "Uso: ./mystrings [-t BUFSIZE] [-n MINLENGTH]");;
  fputs (msg "Lee de la entrada estándar el flujo de bytes recibido y escribe en la salida estándar las cadenas compuestas por caracteres imprimibles incluyendo espacios, tabuladores y saltos de línea, que tengan una longitud mayor o igual a un tamaño dado,");;
  fputs (str "-t BUFSIZE" ++ [9] ++ msg "Tamaño de buffer donde MINLENGTH <= BUFSIZE <= 1MB (por defecto 1024).");;
  fputs (str "-n MINLENGTH" ++ [9] ++ msg "Longitud mínima de la cadena. Mayor que 0 y menor que 256(por defecto 4).").

Definition my_size (memoria : list Z) (min_length : Z) : U S Z :=
  aux ← ulift (c_atoi memoria);
  if (aux <? min_length) || (aux <? 1) || (1048576 <? aux) then
    fputs (msg "Error: Tamaño de buffer incorrecto.");; my_uso;; exit EXIT_FAILURE
  else mret aux.

Definition my_length (cadena : list Z) : U S Z :=
  aux ← ulift (c_atoi cadena);
  if (aux <? 1) || (255 <? aux) then
    fputs (msg "La longitud mínima de cadena tiene que ser mayor que 0 y menor que 256.");; my_uso;; exit EXIT_FAILURE
  else mret aux.

(** The arguments of -t and -n. *)
Fixpoint my_opts (fuel : nat) (argv : list (list Z)) (st : optst) (bufsize minlength : option (list Z)) :
    U S (option (list Z) * option (list Z)) :=
  match fuel with
  | O => uno_fuel
  | Datatypes.S fuel' =>
      match getopt (str "t:n:h") argv st with
      | (Done, _) => mret (bufsize, minlength)
      | (Opt c a, st') =>
          if c =? 116 then my_opts fuel' argv st' (Some a) minlength
          else if c =? 110 then my_opts fuel' argv st' bufsize (Some a)
          else my_uso;; my_opts fuel' argv st' bufsize minlength
      | (Bad m, st') => fputs m;; my_uso;; my_opts fuel' argv st' bufsize minlength
      end
  end.

(** ** The main loop *)

Record myst : Type := mkmy {
  my_esc : buffer;          (* bufEscritura *)
  my_puntero : Z;
  my_contador : Z }.

(** A printable character goes to the output buffer. *)
Definition my_put (st : myst) (c : Z) : U S myst :=
  b ← ulift (pokeb (my_esc st) (my_puntero st) c);
  mret (mkmy b (my_puntero st + 1) (my_contador st + 1)).

(** The loop around the [write] of the collected characters. *)
Definition my_write (st : myst) : U S unit :=
  write_retry 2 STDOUT (my_esc st) id (my_puntero st) 0;; mret tt.

(** The body of the loop over the bytes that were read. *)
Definition my_byte (min_length : Z) (st : myst) (c : Z) : U S myst :=
  if printable c then my_put st c else
  (if (my_contador st <? my_puntero st) || (my_contador st <? min_length) then mret tt
   else if min_length <=? my_contador st then my_write st else mret tt);;
  mret (mkmy (my_esc st) 0 0).

Fixpoint my_bytes (k : nat) (lect : buffer) (min_length : Z) (st : myst) (i : Z) : U S myst :=
  match k with
  | O => mret st
  | Datatypes.S k' =>
      c ← ulift (peekb lect i);
      st ← my_byte min_length st c;
      my_bytes k' lect min_length st (i + 1)
  end.

(** The loop for a short piece: the other characters are skipped. *)
Fixpoint my_short (k : nat) (lect : buffer) (st : myst) (i : Z) : U S myst :=
  match k with
  | O => mret st
  | Datatypes.S k' =>
      c ← ulift (peekb lect i);
      st ← (if printable c then my_put st c else mret st);
      my_short k' lect st (i + 1)
  end.

Fixpoint my_loop (fuel : nat) (min_length : Z) (lect : buffer) (num_read a_Leer leidos : Z) (st : myst) : U S unit :=
  match fuel with
  | O => uno_fuel
  | Datatypes.S fuel' =>
      '(lect, num_read, a_Leer, leidos) ← read_retry (Z.to_nat leidos + 2) STDIN lect num_read a_Leer leidos;
      if (num_read <=? min_length) && (min_length <? my_contador st) && negb (num_read =? 0) then
        st ← my_short (Z.to_nat num_read) lect st 0; my_write st
      else
        st ← my_bytes (Z.to_nat num_read) lect min_length st 0;
        (if (0 <? my_puntero st) && (num_read =? 0) && (min_length <=? my_contador st) then my_write st else mret tt);;
        if num_read =? 0 then mret tt
        else my_loop fuel' min_length lect num_read a_Leer leidos st
  end.

Definition my_run (fuel : nat) (min_length buf_size : Z) : U S unit :=
  my_loop fuel min_length (fresh buf_size) 0 buf_size 0 (mkmy (fresh buf_size) 0 0).

Definition mystrings_main (fuel : nat) (argv : list (list Z)) : U S unit :=
  '(bufsize, minlength) ← my_opts (opt_fuel argv) argv opt0 None None;
  min_length ← match minlength with Some m => my_length m | None => mret 4 end;
  buf_size ← match bufsize with Some b => my_size b min_length | None => mret 1024 end;
  malloc_or_exit buf_size;;
  malloc_or_exit buf_size;;
  malloc_or_exit buf_size;;
  my_run fuel min_length buf_size.
End mystrings.

(** ** The strings of a text *)

(** The maximal runs of printable characters; between two characters that are
    not printable there is an empty one. *)
Fixpoint runs (bs : list Z) : list (list Z) :=
  match bs with
  | [] => [[]]
  | c :: bs' =>
      if printable c then match runs bs' with r :: rs => (c :: r) :: rs | [] => [[c]] end
      else [] :: runs bs'
  end.

Definition strings (min : Z) (bs : list Z) : list Z :=
  concat (filter (λ r, min ≤ Z.of_nat (length r)) (runs bs)).

Section feed.
Context (min : Z).

(** A run when its end is reached. *)
Definition close_run (R : list Z) : list Z := if decide (min ≤ Z.of_nat (length R)) then R else [].

(** What is printed while [bs] goes by, with [R] already collected, and what is
    collected after it. *)
Fixpoint feed (R bs : list Z) : list Z * list Z :=
  match bs with
  | [] => ([], R)
  | c :: bs' =>
      if printable c then feed (R ++ [c]) bs'
      else let '(o, R') := feed [] bs' in (close_run R ++ o, R')
  end.

Lemma feed_app R a b : feed R (a ++ b) =
  let '(o1, R1) := feed R a in let '(o2, R2) := feed R1 b in (o1 ++ o2, R2).
Proof.
  revert R. induction a as [|c a IH]; intros R; simpl; [by destruct (feed R b)|].
  destruct (printable c); [apply IH|]. rewrite IH. destruct (feed [] a) as [o1 R1], (feed R1 b) as [o2 R2]. by rewrite app_assoc.
Qed.

Definition prepend (R : list Z) (rs : list (list Z)) : list (list Z) :=
  match rs with r :: rs' => (R ++ r) :: rs' | [] => [R] end.

Lemma runs_ne bs : runs bs ≠ [].
Proof. destruct bs as [|c bs]; simpl; [done|]. destruct (printable c); [|done]. by destruct (runs bs). Qed.

Lemma feed_runs R bs : let '(o, R') := feed R bs in
  concat (filter (λ r, min ≤ Z.of_nat (length r)) (prepend R (runs bs))) = o ++ close_run R'.
Proof.
  revert R. induction bs as [|c bs IH]; intros R; simpl.
  - rewrite app_nil_r, filter_cons. unfold close_run. case_decide; simpl; by rewrite ?app_nil_r.
  - destruct (printable c).
    + specialize (IH (R ++ [c])). destruct (feed (R ++ [c]) bs) as [o R']. rewrite <- IH.
      destruct (runs bs) as [|r rs]; simpl; by rewrite <- ?app_assoc.
    + specialize (IH []). destruct (feed [] bs) as [o R']. simpl. rewrite app_nil_r, filter_cons.
      assert (Hp : prepend [] (runs bs) = runs bs) by (pose proof (runs_ne bs); by destruct (runs bs)).
      rewrite Hp in IH. unfold close_run at 1. case_decide; simpl; by rewrite IH, ?app_assoc.
Qed.

(** The runs fit in a buffer of [b] bytes, [R] characters being in it. *)
Fixpoint fits (b n : nat) (bs : list Z) : Prop :=
  match bs with
  | [] => True
  | c :: bs' => if printable c then (n < b)%nat ∧ fits b (Datatypes.S n) bs' else fits b 0 bs'
  end.

Lemma fits_app b n bs bs' R : length R = n → fits b n (bs ++ bs') ↔
  fits b n bs ∧ fits b (length (feed R bs).2) bs'.
Proof.
  revert n R. induction bs as [|c bs IH]; intros n R HR; simpl; [rewrite HR; tauto|].
  destruct (printable c).
  - rewrite (IH (Datatypes.S n) (R ++ [c])) by (rewrite length_app; simpl; lia). tauto.
  - rewrite (IH 0%nat []) by done. destruct (feed [] bs). tauto.
Qed.

Lemma fits_runs b n R bs : length R = n → Forall (λ r, length r ≤ b)%nat (prepend R (runs bs)) → fits b n bs.
Proof.
  revert n R. induction bs as [|c bs IH]; intros n R HR H; simpl in *; [done|]. destruct (printable c).
  - assert (Hr : Forall (λ r, length r ≤ b)%nat (prepend (R ++ [c]) (runs bs))).
    { destruct (runs bs); simpl in *; by rewrite <- ?app_assoc in *. }
    split; [|apply (IH _ (R ++ [c])); [rewrite length_app; simpl; lia|done]].
    destruct (runs bs); simpl in *; apply Forall_cons in Hr as [Hr _]; rewrite !length_app in Hr; simpl in Hr; lia.
  - simpl in H. apply Forall_cons in H as [_ H]. apply (IH 0%nat []); [done|].
    pose proof (runs_ne bs). by destruct (runs bs).
Qed.
End feed.

(** ** The main loop on a file *)

Section my_proof.
Context {S : Type} `{!FileOps S, !FileSpec S}.
Context (min bs : Z).
Notation b := (Z.to_nat bs).
Hypothesis min_pos : 0 < min.
Hypothesis min_bs : min < bs.

(** [R] is being collected. *)
Definition collected (st : myst) (R : list Z) : Prop :=
  holds (my_esc st) R ∧ my_puntero st = Z.of_nat (length R) ∧ my_contador st = Z.of_nat (length R) ∧ length (my_esc st) = b.

Lemma my_write_ok (s : S) st R : can_write s STDOUT → collected st R →
  ∃ s', my_write st s = Ok (Ret tt) s' ∧ out s' STDOUT = out s STDOUT ++ R ∧ frame None (Some STDOUT) s s'.
Proof.
  intros Hw (Hh & Hp & _ & _). unfold my_write. rewrite Hp. destruct R as [|c R].
  - exists s. split; [done|]. rewrite app_nil_r. split; [done|apply frame_refl].
  - destruct (write_retry_ok s 1 STDOUT (my_esc st) id (Z.of_nat (length (c :: R))) 0 (c :: R) Hw) as (s' & E & H); [simpl; lia| |].
    { unfold id. by apply holds_load. }
    exists s'. split; [by ustep E|done].
Qed.

Lemma collected_nil st R : collected st R → collected (mkmy (my_esc st) 0 0) [].
Proof. intros (_ & _ & _ & Hl). split_and!; [apply holds_nil|done|done|done]. Qed.

Lemma my_byte_ok (s : S) st R c : can_write s STDOUT → collected st R → fits b (length R) [c] →
  ∃ s' st', my_byte min st c s = Ok (Ret st') s' ∧ collected st' (feed min R [c]).2 ∧
    out s' STDOUT = out s STDOUT ++ (feed min R [c]).1 ∧ frame None (Some STDOUT) s s'.
Proof.
  intros Hw Hc Hf. pose proof Hc as (Hh & Hp & Hn & Hl). unfold my_byte. simpl in *. destruct (printable c).
  - destruct Hf as [Hlt _]. unfold my_put. destruct (holds_poke (my_esc st) R c Hh ltac:(lia)) as (e & E & H1 & H2).
    rewrite Hp, Hn, E. cbn [ulift]. rewrite (ubind_ret _ _ _ e s) by done. eexists s, _. split; [done|]. simpl.
    rewrite app_nil_r. split; [|split; [done|apply frame_refl]].
    split_and!; simpl; [done|rewrite length_app; simpl; lia..|lia].
  - assert (Hstep : ∃ s', (if (my_contador st <? my_puntero st) || (my_contador st <? min) then mret tt
        else if min <=? my_contador st then my_write st else mret tt) s = Ok (Ret tt) s' ∧
        out s' STDOUT = out s STDOUT ++ close_run min R ∧ frame None (Some STDOUT) s s').
    { rewrite Hp, Hn, Z.ltb_irrefl. cbn [orb]. unfold close_run. case_decide.
      - rewrite (proj2 (Z.ltb_ge _ _)), (proj2 (Z.leb_le _ _)) by done. by apply my_write_ok.
      - rewrite (proj2 (Z.ltb_lt _ _)) by lia. exists s. rewrite app_nil_r. split; [done|]. split; [done|apply frame_refl]. }
    destruct Hstep as (s' & E & Ho & Hfr). ustep E. eexists s', _. split; [done|]. simpl. rewrite app_nil_r.
    split; [by eapply collected_nil|done].
Qed.

Lemma my_bytes_ok lect ch : holds lect ch → ∀ k i s st R, (k + i = length ch)%nat → can_write s STDOUT → collected st R →
  fits b (length R) (drop i ch) →
  ∃ s' st', my_bytes k lect min st (Z.of_nat i) s = Ok (Ret st') s' ∧ collected st' (feed min R (drop i ch)).2 ∧
    out s' STDOUT = out s STDOUT ++ (feed min R (drop i ch)).1 ∧ frame None (Some STDOUT) s s'.
Proof.
  intros Hl. induction k as [|k IH]; intros i s st R Hk Hw Hc Hf; cbn [my_bytes].
  - rewrite drop_ge by lia. exists s, st. simpl. rewrite app_nil_r. split; [done|]. split; [done|]. split; [done|apply frame_refl].
  - destruct (lookup_lt_is_Some_2 ch i ltac:(lia)) as [c Hci]. rewrite (drop_S ch c i Hci) in *.
    rewrite (holds_peek _ _ _ _ Hl Hci). cbn [ulift]. rewrite (ubind_ret _ _ _ c s) by done. cbn beta.
    change (c :: drop (Datatypes.S i) ch) with ([c] ++ drop (Datatypes.S i) ch) in *.
    apply (fits_app min b (length R) [c] _ R) in Hf as [Hf1 Hf2]; [|done].
    destruct (my_byte_ok s st R c Hw Hc Hf1) as (s1 & st1 & E1 & C1 & O1 & F1). ustep E1.
    replace (Z.of_nat i + 1) with (Z.of_nat (Datatypes.S i)) by lia.
    destruct (IH (Datatypes.S i) s1 st1 (feed min R [c]).2) as (s2 & st2 & E2 & C2 & O2 & F2); [lia|by apply (fr_wok F1)|done|done|].
    exists s2, st2. split; [done|]. rewrite feed_app. destruct (feed min R [c]) as [o1 R1]. simpl in *.
    destruct (feed min R1 _) as [o2 R2]. simpl in *. split; [done|]. split; [by rewrite O2, O1, app_assoc|by eapply frame_trans].
Qed.

(** The size of the pieces a file is read in. *)
Definition pieces_ok (D : list Z) : Prop := (length D mod b = 0 ∨ Z.to_nat min < length D mod b)%nat.

(** The branch for short pieces is not taken, ... *)
Lemma not_short D k n : pieces_ok D → k = (b `min` length D)%nat →
  (Z.of_nat k <=? min) && (min <? n) && negb (Z.of_nat k =? 0) = false.
Proof.
  intros Hp Hk. destruct (decide (length D < b)%nat) as [Hlt|Hge].
  - destruct Hp as [Hp|Hp]; rewrite Nat.mod_small in Hp by done.
    + assert (k = 0%nat) as -> by lia. by rewrite andb_false_r.
    + rewrite (proj2 (Z.leb_gt (Z.of_nat k) min)) by lia. done.
  - rewrite (proj2 (Z.leb_gt (Z.of_nat k) min)) by lia. done.
Qed.

Lemma pieces_drop D : pieces_ok D → pieces_ok (drop (b `min` length D) D).
Proof.
  unfold pieces_ok. rewrite length_drop. intros Hp. destruct (decide (length D < b)%nat).
  - left. replace (length D - _)%nat with 0%nat by lia. apply Nat.Div0.mod_0_l.
  - assert (Hm : ((length D - b `min` length D) mod b = length D mod b)%nat); [|by rewrite Hm].
    replace (b `min` length D)%nat with b by lia. rewrite <- (Nat.Div0.mod_add (length D - b) 1 b). f_equal. lia.
Qed.

(** ... and the last run is closed at the end. *)
Lemma my_end_ok (s : S) st R : can_write s STDOUT → collected st R →
  ∃ s', (if (0 <? my_puntero st) && (min <=? my_contador st) then my_write st else mret tt) s = Ok (Ret tt) s' ∧
    out s' STDOUT = out s STDOUT ++ close_run min R ∧ frame None (Some STDOUT) s s'.
Proof.
  intros Hw Hc. pose proof Hc as (_ & P1 & P2 & _). rewrite P1, P2. unfold close_run. case_decide.
  - rewrite (proj2 (Z.ltb_lt _ _)), (proj2 (Z.leb_le _ _)) by lia. by apply my_write_ok.
  - rewrite (proj2 (Z.leb_gt _ _)) by lia. rewrite andb_false_r. exists s. rewrite app_nil_r. split; [done|]. split; [done|apply frame_refl].
Qed.

Lemma my_loop_ok : ∀ fuel (s : S) lect nr st R, can_read s STDIN → regular s STDIN → can_write s STDOUT →
  length lect = b → collected st R → fits b (length R) (inp s STDIN) → pieces_ok (inp s STDIN) →
  (length (inp s STDIN) < fuel)%nat →
  ∃ s', my_loop fuel min lect nr bs 0 st s = Ok (Ret tt) s' ∧
    out s' STDOUT = out s STDOUT ++ (let '(o, R') := feed min R (inp s STDIN) in o ++ close_run min R') ∧
    inp s' STDIN = [] ∧ ∀ fd, fd ≠ STDOUT → out s' fd = out s fd.
Proof.
  induction fuel as [|fuel IH]; intros s lect nr st R Hr Hreg Hw Hl Hc Hf Hp Hfuel; [lia|]. cbn [my_loop].
  destruct (read_retry_ok s 1 STDIN lect nr bs Hr ltac:(lia) ltac:(lia)) as (k & lect' & s1 & E & Hh & Hl' & _ & Hk & Hk0 & Hkr & Hin & F1).
  ustep E. specialize (Hkr Hreg). set (D := inp s STDIN) in *.
  rewrite (not_short D k) by done. rewrite Nat2Z.id.
  assert (Hlen : length (take k D) = k) by (rewrite length_take; lia).
  rewrite <- (take_drop k D) in Hf. apply (fits_app min b (length R) _ _ R) in Hf as [Hf1 Hf2]; [|done].
  destruct (my_bytes_ok lect' (take k D) Hh k 0 s1 st R) as (s2 & st2 & E2 & C2 & O2 & F2);
    [lia|by apply (fr_wok F1)|done|by rewrite drop_0|].
  change (Z.of_nat 0) with 0 in E2. ustep E2. rewrite drop_0 in *.
  rewrite (fr_out F1) in O2 by done.
  assert (Hfd : feed min R D = let '(o1, R1) := feed min R (take k D) in let '(o2, R2) := feed min R1 (drop k D) in (o1 ++ o2, R2)).
  { rewrite <- feed_app. by rewrite take_drop. }
  rewrite Hfd. destruct (feed min R (take k D)) as [o1 R1] eqn:Ef. simpl in Hf2, C2, O2.
  assert (Hother : ∀ fd, fd ≠ STDOUT → out s2 fd = out s fd).
  { intros fd Hne. rewrite (fr_out F2) by congruence. by apply (fr_out F1). }
  assert (Hin2 : inp s2 STDIN = drop k D) by (rewrite (fr_inp F2) by done; exact Hin).
  destruct (decide (k = 0%nat)) as [Hz|Hnz].
  - assert (Hnil : D = []) by (destruct D as [|x D]; [done|]; specialize (Hk0 ltac:(done)); lia).
    rewrite Hnil, drop_nil in *. rewrite Hz. cbn [feed]. cbn beta iota. rewrite app_nil_r. change (Z.of_nat 0 =? 0) with true. rewrite andb_true_r.
    destruct (my_end_ok s2 st2 R1) as (s3 & E3 & O3 & F3); [by apply (fr_wok F2), (fr_wok F1)|done|].
    ustep E3. exists s3. split; [done|]. split; [by rewrite O3, O2, app_assoc|].
    split; [by rewrite (fr_inp F3), Hin2 by done|]. intros fd Hne. rewrite (fr_out F3) by congruence. auto.
  - rewrite (proj2 (Z.eqb_neq (Z.of_nat k) 0)) by lia. rewrite andb_false_r. cbn [andb].
    rewrite (ubind_ret _ _ _ tt s2) by done.
    destruct (IH s2 lect' (Z.of_nat k) st2 R1) as (s3 & E3 & O3 & I3 & X3).
    + by apply (fr_rdy F2), (fr_rdy F1).
    + by apply (fr_reg F2), (fr_reg F1).
    + by apply (fr_wok F2), (fr_wok F1).
    + lia.
    + done.
    + by rewrite Hin2.
    + rewrite Hin2, Hkr. by apply pieces_drop.
    + rewrite Hin2, length_drop. lia.
    + exists s3. split; [done|]. rewrite Hin2 in O3. destruct (feed min R1 (drop k D)) as [o2 R2].
      split; [by rewrite O3, O2, !app_assoc|]. split; [done|]. intros fd Hne. by rewrite X3, Hother.
Qed.
End my_proof.

(** On a regular file whose runs of printable characters fit in the buffer,
    and whose last piece is empty or longer than the minimal length, mystrings
    prints exactly the runs that have the minimal length, in order, reads the
    file to its end and writes to nothing else. *)
Theorem mystrings_correct {S} `{!FileOps S, !FileSpec S} (s : S) min bs fuel :
  0 < min → min < bs → can_read s STDIN → regular s STDIN → can_write s STDOUT →
  Forall (λ r, length r ≤ Z.to_nat bs)%nat (runs (inp s STDIN)) →
  pieces_ok min bs (inp s STDIN) → (length (inp s STDIN) < fuel)%nat →
  ∃ s', my_run fuel min bs s = Ok (Ret tt) s' ∧
    out s' STDOUT = out s STDOUT ++ strings min (inp s STDIN) ∧ inp s' STDIN = [] ∧
    ∀ fd, fd ≠ STDOUT → out s' fd = out s fd.
Proof.
  intros Hm Hb Hr Hreg Hw Hruns Hp Hf. unfold my_run.
  assert (Hpre : prepend [] (runs (inp s STDIN)) = runs (inp s STDIN)) by (pose proof (runs_ne (inp s STDIN)); by destruct (runs _)).
  destruct (my_loop_ok min bs Hm Hb fuel s (fresh bs) 0 (mkmy (fresh bs) 0 0) []) as (s' & E & Ho & H); try done.
  - apply length_fresh.
  - split_and!; [apply holds_nil|done|done|apply length_fresh].
  - apply (fits_runs (Z.to_nat bs) 0 []); [done|by rewrite Hpre].
  - exists s'. split; [done|]. split; [|done]. rewrite Ho. unfold strings. pose proof (feed_runs min [] (inp s STDIN)) as Hfr.
    rewrite Hpre in Hfr. destruct (feed min [] (inp s STDIN)). by rewrite Hfr.
Qed.

Definition text10 : sim := mksim {[ 0 := ([], str "abc" ++ [1] ++ str "de" ++ [0; 200] ++ str "fghi") ]} {[ 1 := [] ]}.

Lemma mystrings_correct_witness :
  ∃ s', my_run 13 3 8 text10 = Ok (Ret tt) s' ∧ out s' 1 = str "abcfghi".
Proof.
  destruct (mystrings_correct text10 3 8 13) as (s' & E & Ho & _).
  - lia.
  - lia.
  - by eexists.
  - intros ks bs Ek. by injection Ek as <- <-.
  - by eexists.
  - by repeat (constructor; [by vm_compute; lia|]).
  - right. by vm_compute; lia.
  - by vm_compute; lia.
  - exists s'. split; [exact E|]. etrans; [exact Ho|by vm_compute].
Defined.

(** The whole program. *)
Example mystrings_main_runs :
  file_of (mystrings_main 14 (str <$> ["mystrings"; "-t"; "8"; "-n"; "3"])
    (lin0 (str "abc" ++ [1] ++ str "de" ++ [0; 200] ++ str "fghi") [])) "stdout" = Some (str "abcfghi").
Proof. vm_compute. reflexivity. Qed.

(** A run that does not fit in the buffer is stored past its end. *)
Lemma mystrings_overflow :
  mystrings_main 14 (str <$> ["mystrings"; "-t"; "8"]) (lin0 (str "abcdefghi") []) = Undef.
Proof. vm_compute. reflexivity. Qed.

(** A last piece that is not longer than the minimal length, after a run that
    is: the strings of the piece are joined to the run, and those that are too
    short are printed too. *)
Lemma mystrings_joins :
  file_of (mystrings_main 14 (str <$> ["mystrings"; "-t"; "8"; "-n"; "3"]) (lin0 ([0; 0] ++ str "abcdef" ++ [0] ++ str "x" ++ [0]) [])) "stdout"
    = Some (str "abcdefx") ∧
  strings 3 ([0; 0] ++ str "abcdef" ++ [0] ++ str "x" ++ [0]) = str "abcdef".
Proof. split; vm_compute; reflexivity. Qed.

(** On a pipe, where a read can return less, the program stops at such a piece
    and drops the rest of its input. *)
Lemma mystrings_stops :
  ∃ s', my_run 14 3 8 (mksim {[ 0 := ([5; 2]%nat, str "abcdefg" ++ [0] ++ str "hijk") ]} {[ 1 := [] ]}) = Ok (Ret tt) s' ∧
    out s' STDOUT = str "abcdefg" ∧ inp s' STDIN = [0] ++ str "hijk".
Proof. eexists. split; [vm_compute; reflexivity|]. split; vm_compute; reflexivity. Qed.
