(* ===== verification/Procs.v ===== *)
(** * Processes of the exercises: fork, exec, wait, pipes and descriptors

    A program that forks is run together with its children.  The state of a
    process is its table of descriptors, what it has written, its image (after
    an [exec]) and its children.  A child starts with a copy of the table and
    shares nothing else with its parent, and the programs of the exercises do
    not communicate before they call [exec]; so a child can be run, to its
    [exec] or its exit, at the point of the [fork].

    The system is a parameter: [forks n] says whether fork number [n] succeeds,
    [found] which programs [exec] finds, [exists_] which files there are, and
    [status n] with what the child number [n] ends, and
    [errmsg] is the text for errno. *)

From S2P Require Import Prelude Params Usys Printf Posix.

(** What a descriptor refers to: a stream of the environment, the end of a pipe
    or a file. *)
Inductive endpoint : Type :=
| Std (fd : Z)
| PipeR (p : nat)
| PipeW (p : nat)
| OnFile (path : list Z).
#[global] Instance endpoint_eq_dec : EqDecision endpoint.
Proof. solve_decision. Defined.

(** A process that has left the program: its descriptors, the program and the
    arguments if it called [exec], its exit status if not, and what it wrote. *)
Record kid : Type := mkkid {
  k_fds : gmap Z endpoint;
  k_exec : option (list Z * list (list Z));
  k_exit : Z;
  k_log : list (Z * list Z) }.

Record pst : Type := mkps {
  ps_fds : gmap Z endpoint;
  ps_exec : option (list Z * list (list Z));
  ps_log : list (Z * list Z);          (* descriptor and bytes, in order *)
  ps_kids : list kid;                  (* in the order of their creation *)
  ps_waited : nat;                     (* children waited for with wait *)
  ps_pipes : nat }.

Definition ps_set_fds f s := mkps f (ps_exec s) (ps_log s) (ps_kids s) (ps_waited s) (ps_pipes s).

(** The standard streams of the environment. *)
Definition std_fds : gmap Z endpoint := {[ 0 := Std 0; 1 := Std 1; 2 := Std 2 ]}.
Definition ps0 : pst := mkps std_fds None [] [] 0 0.

(** The lowest free descriptor from [n] on. *)
Fixpoint lowest (fuel : nat) (fds : gmap Z endpoint) (n : Z) : option Z :=
  match fuel with
  | O => None
  | S fuel' => match fds !! n with None => Some n | Some _ => lowest fuel' fds (n + 1) end
  end.
Definition MAX_FDS : nat := 1024.

Section sys.
Context (forks : nat → bool) (found : list Z → bool) (exists_ : list Z → bool) (status : nat → Z) (errmsg : list Z).

Definition p_open (path : list Z) (flags : Z) : M pst Z := λ s,
  if (flags =? O_RDONLY) && negb (exists_ path) then Ok (-1) s else
  match lowest MAX_FDS (ps_fds s) 0 with
  | None => Ok (-1) s
  | Some fd => Ok fd (ps_set_fds (<[fd := OnFile path]> (ps_fds s)) s)
  end.

Definition p_close (fd : Z) : M pst Z := λ s,
  match ps_fds s !! fd with
  | None => Ok (-1) s
  | Some _ => Ok 0 (ps_set_fds (delete fd (ps_fds s)) s)
  end.

Definition p_write (fd : Z) (bs : list Z) : M pst Z := λ s,
  match ps_fds s !! fd with
  | None => Ok (-1) s
  | Some _ => Ok (Z.of_nat (length bs))
      (mkps (ps_fds s) (ps_exec s) (ps_log s ++ [(fd, bs)]) (ps_kids s) (ps_waited s) (ps_pipes s))
  end.

#[local] Instance procs_ops : FileOps pst :=
  @Build_FileOps pst p_open p_close (λ _ _ s, Ok (-1, []) s) p_write.

Definition p_perror (m : list Z) : M pst unit := λ s,
  match p_write STDERR (m ++ str ": " ++ errmsg ++ [10]) s with Ok _ s' => Ok tt s' | _ => Undef end.
Definition p_access (path : list Z) : M pst Z := λ s, Ok (if exists_ path then 0 else -1) s.

(** [pipe]: the two descriptors, or [None] for -1. *)
Definition p_pipe : M pst (option (Z * Z)) := λ s,
  match lowest MAX_FDS (ps_fds s) 0 with
  | None => Ok None s
  | Some r =>
      let fds := <[r := PipeR (ps_pipes s)]> (ps_fds s) in
      match lowest MAX_FDS fds 0 with
      | None => Ok None s
      | Some w => Ok (Some (r, w))
          (mkps (<[w := PipeW (ps_pipes s)]> fds) (ps_exec s) (ps_log s) (ps_kids s) (ps_waited s) (ps_pipes s + 1))
      end
  end.

Definition p_dup2 (old new : Z) : M pst Z := λ s,
  match ps_fds s !! old with
  | None => Ok (-1) s
  | Some e => Ok new (ps_set_fds (<[new := e]> (ps_fds s)) s)
  end.

(** The child runs [child] to its end; the parent gets its number, or -1. *)
Definition p_fork (child : U pst unit) : U pst Z := λ s,
  let n := length (ps_kids s) in
  if negb (forks n) then Ok (Ret (-1)) s else
  let over st (c : pst) :=
    Ok (Ret (Z.of_nat n + 1)) (mkps (ps_fds s) (ps_exec s) (ps_log s)
      (ps_kids s ++ [mkkid (ps_fds c) (ps_exec c) st (ps_log c)]) (ps_waited s) (ps_pipes s)) in
  match child (mkps (ps_fds s) None [] [] 0 (ps_pipes s)) with
  | Ok (Exit st) c => over st c
  | Ok (Ret _) c => over 0 c
  | Panic m => Panic m
  | Blocked c s' => Blocked c s'
  | Undef => Undef
  | NoFuel => NoFuel
  end.

(** [execvp] returns only if the program is not found. *)
Definition p_exec (prog : list Z) (argv : list (list Z)) : U pst unit := λ s,
  if found prog
  then Ok (Exit 0) (mkps (ps_fds s) (Some (prog, argv)) (ps_log s) (ps_kids s) (ps_waited s) (ps_pipes s))
  else Ok (Ret tt) s.

(** [wait(NULL)]: -1 when no child is left. *)
Definition p_wait : M pst Z := λ s,
  if (ps_waited s <? length (ps_kids s))%nat
  then Ok (Z.of_nat (ps_waited s) + 1) (mkps (ps_fds s) (ps_exec s) (ps_log s) (ps_kids s) (ps_waited s + 1) (ps_pipes s))
  else Ok (-1) s.

(** [waitpid(pid, &status, 0)] and the exit status. *)
Definition p_waitpid (pid : Z) : M pst (Z * Z) := λ s,
  if (0 <? pid) && (pid <=? Z.of_nat (length (ps_kids s)))
  then Ok (pid, status (Z.to_nat (pid - 1))) s
  else Ok (-1, 0) s.

(** A call that returns -1 ends the program with a message. *)
Definition or_die (m : string) (c : M pst Z) : U pst unit :=
  r ← call c;
  if r =? -1 then call (p_perror (str m));; exit EXIT_FAILURE else mret tt.
End sys.
