(* ===== verification/Pipeline.v ===== *)
(** * The pipeline: Semana4/src/Tarea4/merge_mystrings_split.c and its first version

    The program connects merge_files, mystrings and split_files with two pipes.
    [mms_args] turns its arguments into the argument vectors of the three
    programs, [mms_procs] makes the pipes and the processes; [mms_main] is both.
    [mms2_main] is merge_mystrings_split_v2.c.

    The theorems say that the descriptors of the three processes form the
    pipeline, and that no other process keeps a pipe open for writing, so that
    every reader sees the end of its input.  The lemmas at the end show what the
    earlier version does instead, and that the minimal length that the user asks
    for does not reach mystrings. *)

From S2P Require Import Prelude Params Usys Printf Posix Mystrings Procs.

Section pipeline.
Context (forks : nat → bool) (found : list Z → bool) (exists_ : list Z → bool) (errmsg : list Z).
#[local] Instance mms_ops : FileOps pst := procs_ops exists_.
Notation fork := (p_fork forks).
Notation execvp := (p_exec found).
Notation die := (or_die errmsg).

(** ** Arguments *)

Definition mms_uso : U pst unit :=
  fputs (msg "Uso: ./merge_mystrings_split [-t BUFSIZE] [-n MIN_LENGTH] -i FILEIN1[,FILEIN2,...,FILEINn] FILEOUT1 [FILEOUT2 ...]");;
  fputs (msg "-t BUFSIZE  Tamaño de buffer donde 1<= BUFSIZE <= 1MB (por defecto 1024).");;
  fputs (msg "-n MINLENGTH    Longitud mínima de la cadena. Mayor que 0 y menor que 256 (por defecto 4).");;
  fputs (msg "-i  Lista de ficheros de entrada separados por comas.").

(** A message, the usage, and the end. *)
Definition mms_fail {A} (m : string) : U pst A := fputs (msg m);; mms_uso;; exit EXIT_FAILURE.

Definition mms_size (bufsize : list Z) : U pst (list Z) :=
  buf_size ← ulift (c_atoi bufsize);
  if (buf_size <? 1) || (1048576 <? buf_size)
  then mms_fail "Error: El tamaño de buffer debe ser mayor que 0 y menor que 1048576."
  else mret bufsize.

Definition mms_length (cadena : list Z) : U pst (list Z) :=
  aux ← ulift (c_atoi cadena);
  if (aux <? 1) || (255 <? aux)
  then mms_fail "Error: La longitud mínima de cadena tiene que ser mayor que 0 y menor que 256."
  else mret cadena.

(** The arguments of -t, -n and -i. *)
Record mmsopt : Type := mkmms { o_t : option (list Z); o_n : option (list Z); o_i : option (list Z) }.

(** The loop over the options; [bad] is what the default case does. *)
Fixpoint mms_opts (bad : U pst unit) (fuel : nat) (argv : list (list Z)) (st : optst) (o : mmsopt) : U pst (mmsopt * optst) :=
  match fuel with
  | O => uno_fuel
  | S fuel' =>
      match getopt (str "t:i:n:h") argv st with
      | (Done, st') => mret (o, st')
      | (Opt c a, st') =>
          if c =? 104 then mms_uso;; exit EXIT_SUCCESS
          else if c =? 116 then mms_opts bad fuel' argv st' (mkmms (Some a) (o_n o) (o_i o))
          else if c =? 110 then mms_opts bad fuel' argv st' (mkmms (o_t o) (Some a) (o_i o))
          else mms_opts bad fuel' argv st' (mkmms (o_t o) (o_n o) (Some a))
      | (Bad m, st') => fputs m;; bad;; mms_opts bad fuel' argv st' o
      end
  end.

(** [strtok_r] with a comma: the pieces that are not empty. *)
Definition COMMA : Z := 44.
Fixpoint tokens (cur : list Z) (s : list Z) : list (list Z) :=
  match s with
  | [] => match cur with [] => [] | _ => [cur] end
  | c :: s' =>
      if c =? COMMA then match cur with [] => tokens [] s' | _ => cur :: tokens [] s' end
      else tokens (cur ++ [c]) s'
  end.

(** The arrays of 16 names. *)
Definition names16 (l : list (list Z)) : U pst (list (list Z)) :=
  if (16 <? length l)%nat then uundef else mret l.

(** arrayMergeFiles, arrayMyStrings and arraySplitFiles. *)
Definition arrayMergeFiles (buf_size : list Z) (files : list (list Z)) : list (list Z) :=
  [str "./merge_files"; str "-t"; buf_size] ++ files.
Definition arrayMyStrings (buf_size min_length : list Z) : list (list Z) :=
  [str "./mystrings"; str "-t"; buf_size; str " -n"; min_length].
Definition arraySplitFiles (buf_size : list Z) (files : list (list Z)) : list (list Z) :=
  [str "./split_files"; str "-t"; buf_size] ++ files.

Definition mms_args (argv : list (list Z)) : U pst (list (list Z) * list (list Z) * list (list Z)) :=
  '(o, st) ← mms_opts (mms_fail "Debe proporcionarse la lista de ficheros de salida") (opt_fuel argv) argv opt0 (mkmms None None None);
  (if Z.of_nat (length argv) <=? 3
   then mms_fail "Error: Deben proporcionarse ficheros de entrada con la opción -i" else mret tt);;
  buf_size ← match o_t o with Some b => mms_size b | None => mret (str "1024") end;
  min_length ← match o_n o with Some m => mms_length m | None => mret (str "4") end;
  i ← ulift (o_i o);
  ins ← names16 (tokens [] i);
  outs ← names16 (drop (optind st) argv);
  (if bool_decide (outs = []) then mms_fail "Debe porporcionarse la lista de ficheros de salida" else mret tt);;
  mret (arrayMergeFiles buf_size ins, arrayMyStrings buf_size min_length, arraySplitFiles buf_size outs).

(** ** Processes *)

Definition mms_pipe : U pst (Z * Z) :=
  r ← call p_pipe;
  match r with
  | None => call (p_perror errmsg (str "pipe()"));; exit EXIT_FAILURE
  | Some p => mret p
  end.

(** The switch on [fork]: the case -1, and the default case. *)
Definition mms_fork (m : string) (child parent : U pst unit) : U pst unit :=
  pid ← fork child;
  if pid =? -1 then call (p_perror errmsg (str m));; exit EXIT_FAILURE else parent.

Definition left_child (a : Z * Z) (argv : list (list Z)) : U pst unit :=
  die "close(1)" (p_close a.1);;
  die "dup2(1)" (p_dup2 a.2 STDOUT);;
  die "close(2)" (p_close a.2);;
  execvp (str "./merge_files") argv;;
  call (p_perror errmsg (str "execlp(izquierdo)"));; exit EXIT_FAILURE.

Definition middle_child (a b : Z * Z) (argv : list (list Z)) : U pst unit :=
  die "close(3)" (p_close b.1);;
  die "dup2(2)" (p_dup2 a.1 STDIN);;
  die "close(4)" (p_close a.1);;
  die "dup2(2)" (p_dup2 b.2 STDOUT);;
  die "close(4)" (p_close b.2);;
  execvp (str "./mystrings") argv;;
  call (p_perror errmsg (str "execvp(central)"));; exit EXIT_FAILURE.

Definition right_child (b : Z * Z) (argv : list (list Z)) : U pst unit :=
  die "close(3)" (p_close b.2);;
  die "dup2(2)" (p_dup2 b.1 STDIN);;
  die "close(4)" (p_close b.1);;
  execvp (str "./split_files") argv;;
  call (p_perror errmsg (str "execlp(derecho)"));; exit EXIT_FAILURE.

Definition mms_procs (mergev myv splitv : list (list Z)) : U pst unit :=
  a ← mms_pipe;
  mms_fork "fork(1)" (left_child a mergev) (
    die "close(2)" (p_close a.2);;
    b ← mms_pipe;
    mms_fork "fork(2)" (middle_child a b myv) (
      mms_fork "fork(2)" (right_child b splitv) (
        die "close(pipefds[0])" (p_close a.1);;
        die "close(pipefds[0])" (p_close b.1)));;
    die "close(pipefds[13])" (p_close b.2));;
  die "wait(1)" p_wait;;
  die "wait(2)" p_wait;;
  die "wait(3)" p_wait.

Definition mms_main (argv : list (list Z)) : U pst unit :=
  '(m, y, s) ← mms_args argv;
  mms_procs m y s.

(** ** The first version *)

Definition mms2_size (bufsize : list Z) : U pst (list Z) :=
  buf_size ← ulift (c_atoi bufsize);
  if (buf_size <? 1) || (1048576 <? buf_size)
  then mms_fail "Error: Tamaño de buffer incorrecto."
  else mret bufsize.

Definition mms2_length (cadena : list Z) : U pst (list Z) :=
  aux ← ulift (c_atoi cadena);
  if (aux <? 1) || (255 <? aux)
  then mms_fail "La longitud mínima de cadena tiene que ser mayor que 0 y menor que 256."
  else mret cadena.

Fixpoint print_names (l : list (list Z)) : U pst unit :=
  match l with [] => mret tt | f :: l' => call (u_write STDOUT (f ++ [10]));; print_names l' end.

Definition mms2_args (argv : list (list Z)) : U pst (list (list Z) * list (list Z) * list (list Z)) :=
  '(o, st) ← mms_opts (fputs (msg "Error: Deben proporcionarse ficheros de entrada con la opción -i");; mms_uso)
    (opt_fuel argv) argv opt0 (mkmms None None None);
  i ← match o_i o with
      | Some i => mret i
      | None => mms_fail "Error: Deben proporcionarse ficheros de entrada con la opción -i"
      end;
  buf_size ← match o_t o with Some b => mms2_size b | None => mret (str "1024") end;
  min_length ← match o_n o with Some m => mms2_length m | None => mret (str "4") end;
  ins ← names16 (tokens [] i);
  print_names ins;;
  outs ← names16 (drop (optind st) argv);
  mret (arrayMergeFiles buf_size ins, arrayMyStrings buf_size min_length, arraySplitFiles buf_size outs).

(** The right child does not close the end it does not use. *)
Definition right_child2 (b : Z * Z) (argv : list (list Z)) : U pst unit :=
  die "dup2(2)" (p_dup2 b.1 STDIN);;
  die "close(4)" (p_close b.1);;
  execvp (str "./split_files") argv;;
  call (p_perror errmsg (str "execlp(derecho)"));; exit EXIT_FAILURE.

(** The second pipe is made twice, and the parent does not wait. *)
Definition mms2_procs (mergev myv splitv : list (list Z)) : U pst unit :=
  a ← mms_pipe;
  mms_pipe;;
  mms_fork "fork(1)" (left_child a mergev) (
    die "close(2)" (p_close a.2);;
    b ← mms_pipe;
    mms_fork "fork(2)" (middle_child a b myv) (
      mms_fork "fork(2)" (right_child2 b splitv) (
        die "close(pipefds[120])" (p_close a.1);;
        die "close(pipefds[110])" (p_close b.1)))).

Definition mms2_main (argv : list (list Z)) : U pst unit :=
  '(m, y, s) ← mms2_args argv;
  mms2_procs m y s.
End pipeline.

(** ** The descriptors *)

(** The children that have the end [e] of a pipe open, and the parent ([None]). *)
Definition has_end (e : endpoint) (fds : gmap Z endpoint) : bool :=
  existsb (λ x : Z * endpoint, bool_decide (x.2 = e)) (map_to_list fds).
Definition holders (e : endpoint) (s : pst) : list (option nat) :=
  (if has_end e (ps_fds s) then [None] else []) ++
  omap (λ x : nat * kid, if has_end e (k_fds x.2) then Some (Some x.1) else None) (zip (seq 0 (length (ps_kids s))) (ps_kids s)).

(** When the calls succeed, merge_mystrings_split starts the three programs
    with the descriptors of the pipeline: the output of merge_files goes to the
    first pipe, mystrings reads from it and writes to the second one, and
    split_files reads from that (and has an unused descriptor of the first pipe
    left open for reading).  The end of a pipe for writing is open in one process
    only, so every reader sees the end of its input, and all three children are
    waited for. *)
Theorem pipeline_wiring errmsg mergev myv splitv :
  ∃ s, mms_procs (λ _, true) (λ _, true) errmsg mergev myv splitv ps0 = Ok (Ret tt) s ∧
    ps_kids s = [
      mkkid (<[1 := PipeW 0]> std_fds) (Some (str "./merge_files", mergev)) 0 [];
      mkkid (<[0 := PipeR 0]> (<[1 := PipeW 1]> std_fds)) (Some (str "./mystrings", myv)) 0 [];
      mkkid (<[0 := PipeR 1]> (<[3 := PipeR 0]> std_fds)) (Some (str "./split_files", splitv)) 0 [] ] ∧
    holders (PipeW 0) s = [Some 0%nat] ∧ holders (PipeR 0) s = [Some 1%nat; Some 2%nat] ∧
    holders (PipeW 1) s = [Some 1%nat] ∧ holders (PipeR 1) s = [Some 2%nat] ∧
    ps_waited s = 3%nat ∧ ps_fds s = std_fds.
Proof.
  eexists. split; [vm_compute; reflexivity|]. split_and!; vm_compute; reflexivity.
Qed.

(** A fork that fails ends the program with a message. *)
Lemma pipeline_fork_fails errmsg mergev myv splitv n : (n < 3)%nat →
  ∃ s, mms_procs (λ k, negb (k =? n)%nat) (λ _, true) errmsg mergev myv splitv ps0 = Ok (Exit EXIT_FAILURE) s ∧
    length (ps_kids s) = n.
Proof.
  intros Hn. destruct n as [|[|[|n]]]; [..|lia]; (eexists; split; [vm_compute; reflexivity|reflexivity]).
Qed.

(** In the first version split_files keeps the end of the pipe it reads from
    open for writing, and so do the parent and, for the pipe that is lost, all
    of them: split_files never sees the end of its input. *)
Lemma pipeline2_no_end errmsg mergev myv splitv :
  ∃ s, mms2_procs (λ _, true) (λ _, true) errmsg mergev myv splitv ps0 = Ok (Ret tt) s ∧
    holders (PipeR 2) s = [Some 2%nat] ∧ holders (PipeW 2) s = [None; Some 1%nat; Some 2%nat] ∧
    holders (PipeW 1) s = [None; Some 0%nat; Some 1%nat; Some 2%nat] ∧ ps_waited s = 0%nat.
Proof.
  eexists. split; [vm_compute; reflexivity|]. split_and!; vm_compute; reflexivity.
Qed.

(** The minimal length given to the pipeline is ignored: in the argument
    vector the option is written with a blank before it, which ends the options
    of mystrings, so that mystrings uses its default length for every value. *)
Theorem pipeline_min_ignored {S} `{!FileOps S, !PosixOps S} (buf_size min_length : list Z) (fuel : nat) (s : S) :
  mystrings_main fuel (arrayMyStrings buf_size min_length) s =
  mystrings_main fuel (arrayMyStrings buf_size (str "4")) s ∧
  my_opts (opt_fuel (arrayMyStrings buf_size min_length)) (arrayMyStrings buf_size min_length) opt0 None None s =
  Ok (Ret (Some buf_size, None)) s.
Proof.
  assert (H : ∀ m fuel', my_opts (Datatypes.S (Datatypes.S fuel')) (arrayMyStrings buf_size m) opt0 None None s = Ok (Ret (Some buf_size, None)) s) by done.
  assert (Hf : ∀ m, ∃ f, opt_fuel (arrayMyStrings buf_size m) = Datatypes.S (Datatypes.S f)) by (intros m; by eexists).
  destruct (Hf min_length) as [f1 E1], (Hf (str "4")) as [f2 E2]. split; [|rewrite E1; apply H].
  unfold mystrings_main. rewrite E1, E2. by rewrite !(ubind_ret _ _ _ _ _ (H _ _)).
Qed.

(** Without -i, but with enough arguments, the program looks for a comma in a
    null pointer. *)
Lemma pipeline_needs_i errmsg exists_ :
  mms_main (λ _, true) (λ _, true) exists_ errmsg (str <$> ["mms"; "-t"; "5"; "out"]) ps0 = Undef.
Proof. vm_compute. reflexivity. Qed.

(** A whole run. *)
Example mms_main_runs errmsg exists_ :
  ∃ s, mms_main (λ _, true) (λ _, true) exists_ errmsg (str <$> ["mms"; "-n"; "7"; "-i"; "a,,b"; "c"]) ps0 = Ok (Ret tt) s ∧
    k_exec <$> ps_kids s = [
      Some (str "./merge_files", str <$> ["./merge_files"; "-t"; "1024"; "a"; "b"]);
      Some (str "./mystrings", str <$> ["./mystrings"; "-t"; "1024"; " -n"; "7"]);
      Some (str "./split_files", str <$> ["./split_files"; "-t"; "1024"; "c"]) ].
Proof. eexists. split; vm_compute; reflexivity. Qed.
