(* ===== verification/Launch.v ===== *)
(** * Programs that start programs: Semana2 and Semana4

    Tarea2/openimg.c starts a viewer for each image and waits for all of them;
    openpdf.c and shell_ls_redir.c start one program, the latter with its output
    in a file; shell_ytdl_pipe_ffmpeg.c connects two programs with a pipe.  They
    run on the processes of Procs.v. *)

From S2P Require Import Prelude Params Usys Printf Posix Procs Pipeline.

Section launch.
Context (forks : nat → bool) (found : list Z → bool) (exists_ : list Z → bool) (status : nat → Z) (errmsg : list Z).
#[local] Instance launch_ops : FileOps pst := procs_ops exists_.
Notation fork := (p_fork forks).
Notation exec := (p_exec found).
Notation die := (or_die errmsg).
Notation perror m := (call (p_perror errmsg (str m))).

(** ** openimg *)

Definition img_uso {A} : U pst A := fputs (msg "Uso: ./openimg -v VISOR [IMGs]");; exit EXIT_FAILURE.

Fixpoint img_opts (fuel : nat) (argv : list (list Z)) (st : optst) (visor : option (list Z)) : U pst (option (list Z)) :=
  match fuel with
  | O => uno_fuel
  | S fuel' =>
      match getopt (str "v:h") argv st with
      | (Done, _) => mret visor
      | (Opt c a, st') => if c =? 118 then img_opts fuel' argv st' (Some a) else img_uso
      | (Bad m, _) => fputs m;; img_uso
      end
  end.

(** The child of the loop. *)
Definition img_child (visor : option (list Z)) (img : list Z) : U pst unit :=
  v ← ulift visor;
  exec v [v; img];;
  fputs (str "Error: '" ++ v ++ msg "' no encontrado");;
  exit EXIT_SUCCESS.

(** The loop of the forks, from [i] on; [k] rounds are left. *)
Fixpoint img_forks (k : nat) (argv : list (list Z)) (visor : option (list Z)) (i : Z) (pids : list (option Z)) : U pst (list (option Z)) :=
  match k with
  | O => mret pids
  | S k' =>
      img ← ulift (idx argv (i + 1));
      pid ← fork (img_child visor img);
      pids ← ulift (upd pids (i - 2) (Some pid));
      if pid =? -1 then perror "fork()";; exit EXIT_FAILURE
      else img_forks k' argv visor (i + 1) pids
  end.

(** The loop of the waits. *)
Fixpoint img_waits (k : nat) (argv : list (list Z)) (i : Z) (pids : list (option Z)) : U pst unit :=
  match k with
  | O => mret tt
  | S k' =>
      pid ← ulift (peekb pids (i - 3));
      '(r, st) ← call (p_waitpid status pid);
      (if negb (r =? 0) then
         img ← ulift (idx argv i);
         call (u_write STDOUT (str "./openimg: IMG:" ++ img ++ str ", STATUS: " ++ decimal st ++ [10]));; mret tt
       else mret tt);;
      img_waits k' argv (i + 1) pids
  end.

(** The array of the pids is declared before the number of arguments is
    looked at. *)
Definition openimg_main (argv : list (list Z)) : U pst unit :=
  let argc := Z.of_nat (length argv) in
  (if 0 <? argc - 3 then mret tt else uundef);;
  (if argc =? 1 then img_uso else mret tt);;
  a1 ← ulift (idx argv 1);
  (if negb (bool_decide (a1 = str "-v")) && (argc <=? 2) then img_uso else mret tt);;
  visor ← img_opts (opt_fuel argv) argv opt0 None;
  pids ← img_forks (Z.to_nat (argc - 3)) argv visor 2 (replicate (Z.to_nat (argc - 3)) None);
  img_waits (Z.to_nat (argc - 3)) argv 3 pids;;
  if argc =? 3 then fputs (msg "Error: No hay imágenes que visualizar");; exit EXIT_FAILURE else mret tt.

(** ** openpdf, shell_ls_redir *)

Definition openpdf_main (argv : list (list Z)) : U pst unit :=
  (if Z.of_nat (length argv) <? 2 then fputs (msg "USO: openpdf fichero.pdf");; exit EXIT_FAILURE else mret tt);;
  f ← ulift (idx argv 1);
  pid ← fork (
    r ← call (p_access exists_ f);
    (if r =? -1 then perror "acces()";; exit EXIT_FAILURE else mret tt);;
    exec (str "evince") [str "evince"; f];;
    fputs (msg "execlp() failed");; exit EXIT_FAILURE);
  if pid =? -1 then perror "Fork():";; exit EXIT_FAILURE
  else die "wait()" p_wait.

Definition ls_redir_main : U pst unit :=
  pid ← fork (
    die "close()" (p_close STDOUT);;
    die "open()" (p_open exists_ (str "listado") OPEN_OUT);;
    exec (str "ls") [str "ls"; str "-la"];;
    fputs (msg "execlp() failed");; exit EXIT_FAILURE);
  if pid =? -1 then perror "fork()";; exit EXIT_FAILURE
  else die "wait()" p_wait.

(** ** shell_ytdl_pipe_ffmpeg *)

Definition ytdl_help {A} (argv : list (list Z)) : U pst A :=
  p ← ulift (idx argv 0);
  fputs (str "Uso: " ++ p ++ msg " -u YTURL -f FICHERO");; exit EXIT_FAILURE.

Fixpoint ytdl_opts (fuel : nat) (argv : list (list Z)) (st : optst) (url file : option (list Z)) : U pst (option (list Z) * option (list Z)) :=
  match fuel with
  | O => uno_fuel
  | S fuel' =>
      match getopt (str "u:f:h") argv st with
      | (Done, _) => mret (url, file)
      | (Opt c a, st') =>
          if c =? 117 then ytdl_opts fuel' argv st' (Some a) file
          else if c =? 102 then ytdl_opts fuel' argv st' url (Some a)
          else ytdl_help argv
      | (Bad m, _) => fputs m;; ytdl_help argv
      end
  end.

Definition ytdl_left (p : Z * Z) (url : list Z) : U pst unit :=
  die "close(1)" (p_close p.1);;
  die "dup2(1)" (p_dup2 p.2 STDOUT);;
  die "close(2)" (p_close p.2);;
  exec (str "youtube-dl") [str "youtube-dl"; url; str "-q"; str "-o"; str "-"];;
  perror "execlp(izquierdo)";; exit EXIT_FAILURE.

Definition ytdl_right (p : Z * Z) (file : list Z) : U pst unit :=
  die "close(3)" (p_close p.2);;
  die "dup2(2)" (p_dup2 p.1 STDIN);;
  die "close(4)" (p_close p.1);;
  exec (str "ffmpeg") [str "ffmpeg"; str "-i"; str "-"; file];;
  perror "execlp(derecho)";; exit EXIT_FAILURE.

Definition ytdl_main (argv : list (list Z)) : U pst unit :=
  '(url, file) ← ytdl_opts (opt_fuel argv) argv opt0 None None;
  match url, file with
  | Some url, Some file =>
      p ← mms_pipe errmsg;
      mms_fork forks errmsg "fork(1)" (ytdl_left p url) (mret tt);;
      mms_fork forks errmsg "fork(2)" (ytdl_right p file) (mret tt);;
      die "close(pipefds[0])" (p_close p.1);;
      die "close(pipefds[1])" (p_close p.2);;
      die "wait(1)" p_wait;;
      die "wait(2)" p_wait;;
      exit EXIT_SUCCESS
  | _, _ => ytdl_help argv
  end.
End launch.

(** ** Runs *)

Lemma ls_redir_runs exists_ errmsg :
  ∃ s, ls_redir_main (λ _, true) (λ _, true) exists_ errmsg ps0 = Ok (Ret tt) s ∧
    ps_kids s = [mkkid (<[1 := OnFile (str "listado")]> std_fds) (Some (str "ls", str <$> ["ls"; "-la"])) 0 []].
Proof. eexists. split; vm_compute; reflexivity. Qed.

Lemma ytdl_runs exists_ errmsg :
  ∃ s, ytdl_main (λ _, true) (λ _, true) exists_ errmsg (str <$> ["ytdl"; "-f"; "v.mp4"; "-u"; "http"]) ps0 = Ok (Exit EXIT_SUCCESS) s ∧
    k_fds <$> ps_kids s = [<[1 := PipeW 0]> std_fds; <[0 := PipeR 0]> std_fds] ∧
    holders (PipeW 0) s = [Some 0%nat] ∧ holders (PipeR 0) s = [Some 1%nat] ∧ ps_waited s = 2%nat.
Proof. eexists. split; [vm_compute; reflexivity|]. split_and!; vm_compute; reflexivity. Qed.

(** With too few arguments the program declares an array of a negative size
    before it prints how it is used. *)
Lemma openimg_no_args forks found exists_ status errmsg s :
  openimg_main forks found exists_ status errmsg [str "openimg"] s = Undef.
Proof. reflexivity. Qed.

(** ** openimg starts every viewer and reports on all of them *)

Section openimg.
Context (exists_ : list Z → bool) (status : nat → Z) (errmsg : list Z) (prog visor : list Z) (imgs : list (list Z)).
#[local] Instance openimg_ops : FileOps pst := procs_ops exists_.
Notation argv := (prog :: str "-v" :: visor :: imgs).
Notation n := (length imgs).
Hypothesis no_dash : ∀ x r, head imgs = Some (x :: r) → x ≠ DASH.

(** The child for an image, and the line about it. *)
Definition viewer (img : list Z) : kid := mkkid std_fds (Some (visor, [visor; img])) 0 [].
Definition report (k : nat) (img : list Z) : Z * list Z :=
  (STDOUT, str "./openimg: IMG:" ++ img ++ str ", STATUS: " ++ decimal (status k) ++ [10]).

Definition opened (kids : list kid) (log : list (Z * list Z)) : pst := mkps std_fds None log kids 0 0.

Lemma img_opts_ok s : img_opts exists_ (opt_fuel argv) argv opt0 None s = Ok (Ret (Some visor)) s.
Proof.
  assert (H1 : getopt (str "v:h") argv opt0 = (Opt 118 visor, mkopt 3 [])) by reflexivity.
  assert (H2 : getopt (str "v:h") argv (mkopt 3 []) = (Done, mkopt 3 [])).
  { unfold getopt. cbn [nextchar optind]. change (argv !! 3%nat) with (imgs !! 0%nat).
    destruct imgs as [|[|x [|y r]] imgs']; try done. change (((x :: y :: r) :: imgs') !! 0%nat) with (Some (x :: y :: r)). cbn iota.
    rewrite (proj2 (Z.eqb_neq x DASH)) by (by apply (no_dash x (y :: r))). done. }
  assert (H : ∀ f, img_opts exists_ (S (S f)) argv opt0 None s = Ok (Ret (Some visor)) s).
  { intros f. cbn [img_opts]. rewrite H1. change (118 =? 118) with true. cbn iota. by rewrite H2. }
  assert (∃ f, opt_fuel argv = S (S f)) as [f ->]; [|apply H].
  unfold opt_fuel. exists (length (concat argv) + length imgs + 2)%nat. simpl. lia.
Qed.

(** After [j] rounds. *)
Lemma img_forks_ok : ∀ k j, (k + j = n)%nat →
  img_forks (λ _, true) (λ _, true) exists_ errmsg k argv (Some visor) (Z.of_nat j + 2)
    ((Some <$> (Z.of_nat <$> seq 1 j)) ++ replicate k None) (opened (viewer <$> take j imgs) []) =
  Ok (Ret (Some <$> (Z.of_nat <$> seq 1 n))) (opened (viewer <$> imgs) []).
Proof.
  induction k as [|k IH]; intros j Hj; cbn [img_forks].
  { assert (j = n) as -> by lia. by rewrite app_nil_r, take_ge by done. }
  destruct (lookup_lt_is_Some_2 imgs j ltac:(lia)) as [img Himg].
  replace (Z.of_nat j + 2 + 1) with (Z.of_nat (j + 3)) by lia. rewrite idx_nat.
  replace (argv !! (j + 3)%nat) with (Some img) by (by rewrite Nat.add_comm).
  cbn [ulift]. rewrite (ubind_ret _ _ _ img (opened (viewer <$> take j imgs) [])) by done. cbn beta.
  assert (Hf : p_fork (λ _, true) (img_child (λ _, true) exists_ (Some visor) img) (opened (viewer <$> take j imgs) []) =
    Ok (Ret (Z.of_nat j + 1)) (opened (viewer <$> take (S j) imgs) [])).
  { unfold p_fork. cbn. rewrite length_fmap, length_take, Nat.min_l by lia.
    rewrite (take_S_r imgs j img Himg), fmap_app. done. }
  ustep Hf. replace (Z.of_nat j + 2 - 2) with (Z.of_nat j) by lia.
  set (l := (Some <$> (Z.of_nat <$> seq 1 j)) ++ replicate (S k) None).
  assert (Hl : length (Some <$> (Z.of_nat <$> seq 1 j)) = j) by (by rewrite !length_fmap, length_seq).
  rewrite upd_nat by (unfold l; rewrite length_app, Hl, length_replicate; lia). cbn [ulift].
  rewrite (ubind_ret _ _ _ (<[j := Some (Z.of_nat j + 1)]> l) (opened (viewer <$> take (S j) imgs) [])) by done. cbn beta.
  rewrite (proj2 (Z.eqb_neq (Z.of_nat j + 1) (-1))) by lia.
  replace (Z.of_nat (j + 3)) with (Z.of_nat (S j) + 2) by lia. rewrite <- (IH (S j)) by lia.
  assert (<[j := Some (Z.of_nat j + 1)]> l = (Some <$> (Z.of_nat <$> seq 1 (S j))) ++ replicate k None) as ->; [|done].
  unfold l. rewrite insert_app_r_alt by lia. rewrite Hl, Nat.sub_diag, seq_S, !fmap_app. simpl.
  rewrite <- app_assoc. simpl. do 3 f_equal. lia.
Qed.

Lemma img_waits_ok : ∀ k j log, (k + j = n)%nat →
  img_waits exists_ status k argv (Z.of_nat j + 3) (Some <$> (Z.of_nat <$> seq 1 n)) (opened (viewer <$> imgs) log) =
  Ok (Ret tt) (opened (viewer <$> imgs) (log ++ imap (λ i, report (j + i)) (drop j imgs))).
Proof.
  induction k as [|k IH]; intros j log Hj; cbn [img_waits].
  { by rewrite drop_ge, app_nil_r by lia. }
  destruct (lookup_lt_is_Some_2 imgs j ltac:(lia)) as [img Himg]. set (s := opened (viewer <$> imgs) log).
  assert (Hp : peekb (Some <$> (Z.of_nat <$> seq 1 n)) (Z.of_nat j + 3 - 3) = Some (Z.of_nat j + 1)).
  { replace (Z.of_nat j + 3 - 3) with (Z.of_nat j) by lia. unfold peekb.
    rewrite idx_nat, !list_lookup_fmap, lookup_seq_lt by lia. simpl. f_equal. lia. }
  rewrite Hp. cbn [ulift]. rewrite (ubind_ret _ _ _ (Z.of_nat j + 1) s) by done. cbn beta.
  assert (Hw : p_waitpid status (Z.of_nat j + 1) s = Ok (Z.of_nat j + 1, status j) s).
  { unfold p_waitpid. simpl. rewrite length_fmap, (proj2 (Z.ltb_lt _ _)), (proj2 (Z.leb_le _ _)) by lia. simpl.
    do 3 f_equal. lia. }
  ucall Hw. rewrite (proj2 (Z.eqb_neq (Z.of_nat j + 1) 0)) by lia. cbn [negb].
  replace (Z.of_nat j + 3) with (Z.of_nat (j + 3)) by lia. rewrite idx_nat.
  replace (argv !! (j + 3)%nat) with (Some img) by (by rewrite Nat.add_comm). cbn [ulift].
  set (s' := opened (viewer <$> imgs) (log ++ [report j img])).
  assert (Hu : (img ← mret img; call (u_write STDOUT (str "./openimg: IMG:" ++ img ++ str ", STATUS: " ++ decimal (status j) ++ [10]));; mret tt) s
    = Ok (Ret tt) s') by done.
  ustep Hu. replace (Z.of_nat (j + 3) + 1) with (Z.of_nat (S j) + 3) by lia.
  unfold s'. rewrite (IH (S j)) by lia. do 2 f_equal. rewrite (drop_S imgs img j Himg), imap_cons, <- app_assoc. simpl.
  rewrite Nat.add_0_r. do 2 f_equal. apply imap_ext. intros i x _. simpl. f_equal. lia.
Qed.
End openimg.

(** openimg starts a viewer for each of the images, with the viewer and the
    image as arguments and the standard streams, all of them before it waits
    for the first, and then reports the exit status of each one in the order of
    their creation. *)
Theorem openimg_correct exists_ status errmsg prog visor imgs :
  imgs ≠ [] → (∀ x r, head imgs = Some (x :: r) → x ≠ DASH) →
  openimg_main (λ _, true) (λ _, true) exists_ status errmsg (prog :: str "-v" :: visor :: imgs) ps0 =
  Ok (Ret tt) (opened (viewer visor <$> imgs) (imap (report status) imgs)).
Proof.
  intros Hne Hd. set (argv := prog :: str "-v" :: visor :: imgs). set (n := length imgs). unfold openimg_main.
  assert (Hn : (0 < n)%nat) by (unfold n; destruct imgs; [done|simpl; lia]).
  assert (Hc : Z.of_nat (length argv) = Z.of_nat n + 3) by (unfold argv, n; simpl; lia).
  cbv zeta. rewrite Hc. replace (Z.of_nat n + 3 - 3) with (Z.of_nat n) by lia.
  rewrite (proj2 (Z.ltb_lt 0 _)), (proj2 (Z.eqb_neq _ 1)), (proj2 (Z.leb_gt _ 2)), (proj2 (Z.eqb_neq _ 3)) by lia.
  rewrite Nat2Z.id. rewrite !(ubind_ret (mret tt) _ ps0 tt ps0) by done. rewrite (ubind_ret (ulift _) _ ps0 (str "-v") ps0) by done. cbn beta.
  rewrite andb_false_r, (ubind_ret (mret tt) _ ps0 tt ps0) by done. ustep (img_opts_ok exists_ prog visor imgs Hd ps0).
  ustep (img_forks_ok exists_ status errmsg prog visor imgs n 0 ltac:(unfold n; lia)).
  ustep (img_waits_ok exists_ status prog visor imgs n 0 [] ltac:(unfold n; lia)).
  done.
Qed.

Lemma openimg_correct_witness :
  ∃ s, openimg_main (λ _, true) (λ _, true) (λ _, true) (λ k, Z.of_nat k) [] (str <$> ["openimg"; "-v"; "eog"; "a.jpg"; "b.jpg"]) ps0 = Ok (Ret tt) s ∧
    k_exec <$> ps_kids s = [Some (str "eog", str <$> ["eog"; "a.jpg"]); Some (str "eog", str <$> ["eog"; "b.jpg"])].
Proof.
  eexists. split.
  - apply (openimg_correct (λ _, true) (λ k, Z.of_nat k) [] (str "openimg") (str "eog") [str "a.jpg"; str "b.jpg"]); [done|].
    intros x r E. injection E as <- _. done.
  - vm_compute. reflexivity.
Defined.
