(* ===== verification/Sigchld.v ===== *)
(** * A reader that is restarted: Semana4/src/openpdf.SIGCHLD.c

    The program starts a PDF reader and starts it again whenever it ends.  The
    main loop and the handler of SIGCHLD share the variable [estado]; the
    handler can run between any two steps of the loop.  [step] is one step of
    the loop, of the reader or of the handler, and the program is every sequence
    of such steps from [init].

    The invariant is that there is never more than one reader.  The lemma after
    it shows that a reader can end for good: a signal that arrives before
    [pause] is lost, and so is one between [fork] and the assignment after it.
    A [fork] that fails ends the program. *)

From S2P Require Import Prelude.
From stdpp Require Import relations.

Inductive estado_t : Type := RECARGA | ESPERA.

(** Where the main loop is: at the test of [estado], after the [fork], before
    [pause] or inside it. *)
Inductive point : Type := At_test | At_assign | At_pause | In_pause.

Record rst : Type := mkr {
  r_pc : point;
  r_estado : estado_t;
  r_readers : nat;        (* readers that run *)
  r_zombies : nat;        (* readers that have ended and were not waited for *)
  r_pending : bool }.     (* SIGCHLD is pending *)

(** The handler: wait for a child and ask for another one; [pause] returns when
    a handler has run. *)
Definition manejador_sigchld (s : rst) : rst :=
  mkr (match r_pc s with In_pause => At_test | p => p end) RECARGA (r_readers s) (r_zombies s - 1) false.

Inductive step : rst → rst → Prop :=
| st_fork n z p : step (mkr At_test RECARGA n z p) (mkr At_assign RECARGA (n + 1) z p)
| st_wait n z p : step (mkr At_test ESPERA n z p) (mkr At_pause ESPERA n z p)
| st_assign e n z p : step (mkr At_assign e n z p) (mkr At_pause ESPERA n z p)
| st_pause e n z p : step (mkr At_pause e n z p) (mkr In_pause e n z p)
| st_end pc e n z p : step (mkr pc e (S n) z p) (mkr pc e n (z + 1) true)
| st_signal pc e n z : step (mkr pc e n z true) (manejador_sigchld (mkr pc e n z true)).

Definition init : rst := mkr At_test RECARGA 0 0 false.
Definition reachable (s : rst) : Prop := rtc step init s.

(** A reader runs, has ended, or is about to be started. *)
Definition starting (s : rst) : nat :=
  match r_pc s, r_estado s with At_test, RECARGA => 1 | _, _ => 0 end.
Definition one (s : rst) : Prop :=
  (r_readers s + r_zombies s + starting s ≤ 1)%nat ∧
  (r_pending s = true → r_zombies s = 1%nat).

Lemma one_step s s' : one s → step s s' → one s'.
Proof.
  intros [H1 H2] Hs. destruct Hs as [n z p|n z p|e n z p|e n z p|pc e n z p|pc e n z]; unfold one, starting, manejador_sigchld in *; simpl in *.
  all: try (destruct pc, e || destruct e); simpl in *; split; intros; try specialize (H2 eq_refl); lia || (specialize (H2 H); lia) || auto.
Qed.

(** C38: However the signals arrive, the program never has more than one reader
    running or waiting to be collected. *)
Theorem one_reader s : reachable s → (r_readers s + r_zombies s ≤ 1)%nat.
Proof.
  intros Hr. assert (H : one s).
  { unfold reachable in Hr. apply (rtc_ind_r (λ s, one s) init) in Hr; [done| |].
    - split; [unfold starting; simpl; lia|done].
    - intros y z _ Hs Hy. by eapply one_step. }
  destruct H as [H _]. lia.
Qed.

Lemma one_reader_witness : reachable (mkr In_pause ESPERA 1 0 false) ∧ (1 + 0 ≤ 1)%nat.
Proof.
  assert (H : reachable (mkr In_pause ESPERA 1 0 false)).
  { eapply rtc_l; [apply st_fork|]. eapply rtc_l; [apply st_assign|]. eapply rtc_l; [apply st_pause|]. apply rtc_refl. }
  split; [exact H|]. exact (one_reader _ H).
Defined.

(** The reader has ended, no signal is pending, and nothing will ever happen
    again: the state is reached when the reader ends before [pause], or before
    the assignment. *)
Lemma signal_lost_before_pause :
  reachable (mkr In_pause RECARGA 0 0 false) ∧ ∀ s, ¬ step (mkr In_pause RECARGA 0 0 false) s.
Proof.
  split; [|intros s Hs; inversion Hs].
  eapply rtc_l; [apply st_fork|]. eapply rtc_l; [apply st_assign|]. eapply rtc_l; [apply st_end|].
  eapply rtc_l; [apply st_signal|]. eapply rtc_l; [apply st_pause|]. apply rtc_refl.
Qed.

Lemma signal_lost_before_assign :
  reachable (mkr In_pause ESPERA 0 0 false) ∧ ∀ s, ¬ step (mkr In_pause ESPERA 0 0 false) s.
Proof.
  split; [|intros s Hs; inversion Hs].
  eapply rtc_l; [apply st_fork|]. eapply rtc_l; [apply st_end|]. eapply rtc_l; [apply st_signal|].
  eapply rtc_l; [apply st_assign|]. eapply rtc_l; [apply st_pause|]. apply rtc_refl.
Qed.
