(* ===== verification/Semana1.v ===== *)
(** * The first exercises: Semana1, and cat_mem_vir.c of Semana3

    getopt.c prints its options; depurame.c is the exercise for the debugger,
    with the errors it is about; punteros.c stores integers through pointers,
    one of them in the middle of another; cat_mem_vir.c copies files through
    memory maps. *)

From S2P Require Import Prelude Params Usys Printf Posix.

(** ** getopt.c *)

Section getopt_c.
Context {S : Type} `{!FileOps S, !PosixOps S}.

Definition out_ (bs : list Z) : U S unit := call (u_write STDOUT bs);; mret tt.

Fixpoint go_opts (fuel : nat) (argv : list (list Z)) (st : optst) (flag n : Z) (s : option (list Z)) : U S (Z * Z * option (list Z) * optst) :=
  match fuel with
  | O => uno_fuel
  | Datatypes.S fuel' =>
      let uso := p ← ulift (idx argv 0); fputs (str "Uso: " ++ p ++ msg " [-f] [-n NUMERO] [-s STRING] [PARAMS]");; exit EXIT_FAILURE in
      match getopt (str "fn:s:h") argv st with
      | (Done, st') => mret (flag, n, s, st')
      | (Opt c a, st') =>
          if c =? 102 then go_opts fuel' argv st' 1 n s
          else if c =? 110 then n ← ulift (c_atoi a); go_opts fuel' argv st' flag n s
          else if c =? 115 then go_opts fuel' argv st' flag n (Some a)
          else uso
      | (Bad m, _) => fputs m;; uso
      end
  end.

Fixpoint go_params (l : list (list Z)) (i : Z) : U S unit :=
  match l with
  | [] => mret tt
  | p :: l' => out_ (str ", param" ++ decimal i ++ str ": " ++ [34] ++ p ++ [34]);; go_params l' (i + 1)
  end.

(** Printing a null string is undefined. *)
Definition getopt_main (argv : list (list Z)) : U S unit :=
  '(flag, n, s, st) ← go_opts (opt_fuel argv) argv opt0 0 0 None;
  s ← ulift s;
  out_ (str "flag: " ++ decimal flag ++ str ", n: " ++ decimal n ++ str ", s: " ++ [34] ++ s ++ [34]);;
  go_params (drop (optind st) argv) 0;;
  out_ [10].

(** ** depurame.c *)

(** The loop stores to [tmp[i]]; the array has 2000 elements. *)
Fixpoint inicializa_loop (k : nat) (tmp : list (option Z)) (i : Z) : U S (list (option Z)) :=
  match k with
  | O => mret tmp
  | Datatypes.S k' => tmp ← ulift (upd tmp i (Some 0)); inicializa_loop k' tmp (i + 1)
  end.
Definition inicializa : U S (list (option Z)) :=
  r ← call (u_malloc (2000 * 8));
  inicializa_loop 20000 (if (r : bool) then replicate 2000 None else []) 0.

(** The loop runs past the end of the array. *)
Lemma inicializa_loop_undef : ∀ k tmp i (s : S), (i ≤ length tmp < k + i)%nat → inicializa_loop k tmp (Z.of_nat i) s = Undef.
Proof.
  induction k as [|k IH]; intros tmp i s Hk; cbn [inicializa_loop]; [lia|].
  destruct (decide (i < length tmp)%nat) as [Hi|Hi].
  - rewrite upd_nat by done. cbn [ulift]. rewrite (ubind_ret _ _ _ (<[i := Some 0]> tmp) s) by done. cbn beta.
    replace (Z.of_nat i + 1) with (Z.of_nat (Datatypes.S i)) by lia. apply IH. rewrite length_insert. lia.
  - unfold upd. rewrite (proj2 (Z.ltb_ge _ _)) by lia. by rewrite andb_false_r.
Qed.

Lemma inicializa_undef (s s' : S) r : u_malloc (2000 * 8) s = Ok r s' → inicializa s = Undef.
Proof.
  intros H. unfold inicializa. ucall H. apply (inicializa_loop_undef _ _ 0).
  destruct r; rewrite ?length_replicate; (split; [lia|apply Nat.ltb_lt; vm_compute; reflexivity]).
Qed.
End getopt_c.

Example getopt_main_runs :
  file_of (getopt_main (str <$> ["g"; "-fn"; "12"; "-sab"; "x"]) (lin0 [] [])) "stdout" =
  Some (str "flag: 1, n: 12, s: " ++ [34] ++ str "ab" ++ [34] ++ str ", param0: " ++ [34] ++ str "x" ++ [34; 10]).
Proof. vm_compute. reflexivity. Qed.

(** ** punteros.c *)

(** The sixteen bytes of [a], the least significant byte first; an access
    through [int *] reads or writes four of them, aligned or not. *)
Definition int_at (m : list Z) (off : nat) : Z :=
  s32 (foldr (λ b r, b + 256 * r) 0 (take 4 (drop off m))).
Definition int_bytes (v : Z) : list Z :=
  [u32 v mod 256; u32 v / 256 mod 256; u32 v / 65536 mod 256; u32 v / 16777216 mod 256].
Definition store_int (m : list Z) (off : nat) (v : Z) : list Z :=
  take off m ++ int_bytes v ++ drop (off + 4) m.

Definition show_ptrs (k : Z) (ptr : Z → list Z) (a b c : Z) : list Z :=
  decimal k ++ str ": a = " ++ ptr a ++ str ", b = " ++ ptr b ++ str ", c = " ++ ptr c ++ [10].
Definition show_ints (k : Z) (m : list Z) : list Z :=
  decimal k ++ str ": a[0] = " ++ decimal (int_at m 0) ++ str ", a[1] = " ++ decimal (int_at m 4) ++
  str ", a[2] = " ++ decimal (int_at m 8) ++ str ", a[3] = " ++ decimal (int_at m 12) ++ [10].

(** The lines that are printed; [ptr] is how %p prints an address, [a] and [b]
    are the addresses of the array and of the block from [malloc], and [m0] is
    what the array held before. *)
Definition punteros (ptr : Z → list Z) (a b : Z) (m0 : list Z) : list (list Z) :=
  let c := 0%nat in                                    (* c = a, as an offset *)
  let m := foldl (λ m i, store_int m (4 * i) (100 + Z.of_nat i)) m0 (seq 0 4) in
  let m2 := store_int m c 200 in
  let m3 := store_int (store_int m2 (c + 4) 300) (c + 8) 301 in
  let c := (c + 4)%nat in
  let m4 := store_int m3 c 400 in
  let c := (c + 1)%nat in                              (* one byte further *)
  let m5 := store_int m4 c 500 in
  [ show_ptrs 1 ptr a b 0; show_ints 2 m2; show_ints 3 m3; show_ints 4 m4; show_ints 5 m5;
    show_ptrs 6 ptr a (a + 4) (a + 1) ].

(** The store at the odd address changes two elements. *)
Lemma punteros_line5 ptr a b m0 : length m0 = 16%nat →
  punteros ptr a b m0 !! 4%nat = Some (str "5: a[0] = 200, a[1] = 128144, a[2] = 256, a[3] = 103" ++ [10]).
Proof.
  intros H. do 16 (destruct m0 as [|? m0]; [done|]). destruct m0; [|done]. vm_compute. reflexivity.
Qed.

(** ** cat_mem_vir.c *)

(** [fstat] gives the size, [mmap] the contents of a file; -1 is [None]. *)
Class MapOps (S : Type) : Type := {
  u_fsize : Z → M S (option Z);
  u_mmap : Z → Z → M S (option (list Z));
  u_munmap : Z → M S Z }.

Section catmem.
Context {S : Type} `{!FileOps S, !PosixOps S, !MapOps S}.

Definition fail_with (m : string) : U S unit := call (u_perror (str m));; exit EXIT_FAILURE.

(** A failed [assert] aborts the program (status 134). *)
Definition catfd (fdin fdout : Z) : U S unit :=
  sz ← call (u_fsize fdin);
  match sz with
  | None => fail_with "fstat(fdin)"
  | Some size =>
      p ← call (u_mmap fdin size);
      match p with
      | None => fail_with "mmap(fdin)"
      | Some bytes =>
          r ← call (u_close fdin);
          (if r =? -1 then fail_with "close(fdin)" else mret tt);;
          w ← call (u_write fdout bytes);
          (if w =? -1 then fail_with "write(fdout)" else mret tt);;
          (if w =? size then mret tt else exit 134);;
          r ← call (u_munmap size);
          if r =? -1 then fail_with "munmap(fdin)" else mret tt
      end
  end.

Definition catv_uso {A} (argv : list (list Z)) : U S A :=
  p ← ulift (idx argv 0);
  fputs (str "Uso: " ++ p ++ msg " [-o FILEOUT] FILEIN1 [FILEIN2 ... FILEINn]");; exit EXIT_FAILURE.

Fixpoint catv_opts (fuel : nat) (argv : list (list Z)) (st : optst) (fileout : option (list Z)) : U S (option (list Z) * optst) :=
  match fuel with
  | O => uno_fuel
  | Datatypes.S fuel' =>
      match getopt (str "o:h") argv st with
      | (Done, st') => mret (fileout, st')
      | (Opt c a, st') => if c =? 111 then catv_opts fuel' argv st' (Some a) else catv_uso argv
      | (Bad m, _) => fputs m;; catv_uso argv
      end
  end.

Fixpoint catv_files (files : list (list Z)) (fdout : Z) : U S unit :=
  match files with
  | [] => mret tt
  | f :: files' =>
      fdin ← call (u_open f O_RDONLY);
      (if fdin =? -1 then call (u_perror (str "open(fdin)")) ;; mret tt else catfd fdin fdout);;
      catv_files files' fdout
  end.

Definition cat_mem_vir_main (argv : list (list Z)) : U S unit :=
  '(fileout, st) ← catv_opts (opt_fuel argv) argv opt0 None;
  (if (optind st =? length argv)%nat then catv_uso argv else mret tt);;
  fdout ← match fileout with
          | None => mret STDOUT
          | Some f =>
              fd ← call (u_open f OPEN_OUT);
              (if fd =? -1 then fail_with "open(fileout)" else mret tt);; mret fd
          end;
  catv_files (drop (optind st) argv) fdout;;
  r ← call (u_close fdout);
  (if r =? -1 then fail_with "close(fdout)" else mret tt);;
  exit EXIT_SUCCESS.
End catmem.

(** On the files of [lin]: a map of no bytes is refused, as by Linux. *)
#[global] Instance lin_maps : MapOps lin := @Build_MapOps lin
  (λ fd s, Ok (match l_fds s !! fd with Some (f, _) => Some (Z.of_nat (length (default [] (l_files s !! f)))) | None => None end) s)
  (λ fd n s, Ok (if n =? 0 then None else match l_fds s !! fd with Some (f, _) => Some (take (Z.to_nat n) (default [] (l_files s !! f))) | None => None end) s)
  (λ _ s, Ok 0 s).

Example cat_mem_vir_runs :
  file_of (cat_mem_vir_main (str <$> ["cat"; "-o"; "h"; "f"; "no"; "g"]) (lin0 [] [("f", str "abc"); ("g", str "d")])) "h" = Some (str "abcd").
Proof. vm_compute. reflexivity. Qed.

(** An empty file ends the program. *)
Lemma cat_mem_vir_empty :
  ∃ s, cat_mem_vir_main (str <$> ["cat"; "e"; "g"]) (lin0 [] [("e", []); ("g", str "d")]) = Ok (Exit EXIT_FAILURE) s ∧
    l_files s !! str "stdout" = Some [].
Proof. eexists. split; vm_compute; reflexivity. Qed.
