(* ===== verification/Phys.v ===== *)
(** * Physical memory, as the code that runs before paging sees it

    A function from addresses to bytes, with stores of a list of bytes and loads
    of little-endian words. *)

From S2P Require Import Prelude.

Definition mem : Type := Z → Z.

(** The bytes [d] stored at [a]. *)
Definition store (a : Z) (d : list Z) (m : mem) : mem :=
  λ x, if (a <=? x) && (x <? a + Z.of_nat (length d)) then default 0 (d !! Z.to_nat (x - a)) else m x.
Definition load (a : Z) (n : nat) (m : mem) : list Z := (λ k, m (a + Z.of_nat k)) <$> seq 0 n.
Definition load16 (a : Z) (m : mem) : Z := le_val (load a 2 m).
Definition load32 (a : Z) (m : mem) : Z := le_val (load a 4 m).

(** ** Memory *)

Lemma store_at a d m x : a ≤ x < a + Z.of_nat (length d) → store a d m x = default 0 (d !! Z.to_nat (x - a)).
Proof. intros H. unfold store. by rewrite (proj2 (Z.leb_le a x)), (proj2 (Z.ltb_lt _ _)) by lia. Qed.

Lemma store_out a d m x : x < a ∨ a + Z.of_nat (length d) ≤ x → store a d m x = m x.
Proof.
  intros H. unfold store. destruct (Z.leb_spec a x), (Z.ltb_spec x (a + Z.of_nat (length d))); try done. lia.
Qed.

Lemma load_same a n m m' : (∀ x, a ≤ x < a + Z.of_nat n → m' x = m x) → load a n m' = load a n m.
Proof. intros H. unfold load. apply list_fmap_ext. intros k x Hx. apply lookup_seq in Hx as [-> Hk]. apply H. lia. Qed.

Lemma load_store a d m : load a (length d) (store a d m) = d.
Proof.
  apply list_eq_same_length with (length d); [done|unfold load; by rewrite length_fmap, length_seq|].
  intros i x y Hi Hx Hy. unfold load in Hx. rewrite list_lookup_fmap, lookup_seq_lt in Hx by done. injection Hx as <-. simpl.
  rewrite store_at by lia. replace (Z.to_nat _) with i by lia. by rewrite Hy.
Qed.

Lemma load_store_out a n b d m : b + Z.of_nat (length d) ≤ a ∨ a + Z.of_nat n ≤ b → load a n (store b d m) = load a n m.
Proof. intros H. apply load_same. intros x Hx. apply store_out. lia. Qed.

Lemma load32_store a v m : 0 ≤ v < 4294967296 → load32 a (store a (le_bytes 4 v) m) = v.
Proof. intros Hv. unfold load32. rewrite (load_store a (le_bytes 4 v)), le_val_bytes. apply Z.mod_small. simpl. lia. Qed.

Lemma load_cons p n m : load p (S n) m = m p :: load (p + 1) n m.
Proof.
  unfold load. cbn [seq fmap list_fmap]. f_equal; [f_equal; lia|]. rewrite <- fmap_S_seq, <- list_fmap_compose.
  apply list_fmap_ext. intros k x _. unfold compose. f_equal. lia.
Qed.

Lemma length_load p n m : length (load p n m) = n.
Proof. unfold load. by rewrite length_fmap, length_seq. Qed.

Lemma load_app p n k m : load p (n + k) m = load p n m ++ load (p + Z.of_nat n) k m.
Proof.
  revert p. induction n as [|n IH]; intros p; simpl Nat.add.
  - simpl. f_equal. lia.
  - rewrite !load_cons, IH. simpl. do 3 f_equal. lia.
Qed.
