(* ===== verification/Ide.v ===== *)
(** * The IDE disk driver: ide.c

    Requests are buffers on a queue that is linked through [qnext]; the first
    is the one the disk works on.  [iderw] appends a buffer, starts the disk if
    the queue was empty and sleeps; [ideintr] takes the first buffer off, fills
    it if it was a read, wakes its process and starts the next.

    The disk is a state machine behind the ports: the registers, the command in
    progress and two drives.  [hw_complete] is its step to the end of a command;
    it may stay busy for a number of reads of the status, and it may fail.

    The specification is a queue of requests that are served in their order,
    one for each interrupt ([ide_refines]); so every request is served
    ([ide_serves]).  [ide_read_error] shows what happens to a read that fails. *)

From S2P Require Import Prelude Params Sleeplock.

Definition SECTOR_SIZE : Z := 512.
Definition IDE_BSY : Z := 0x80.
Definition IDE_DRDY : Z := 0x40.
Definition IDE_DF : Z := 0x20.
Definition IDE_ERR : Z := 0x01.
Definition IDE_CMD_READ : Z := 0x20.
Definition IDE_CMD_WRITE : Z := 0x30.
Definition IDE_CMD_RDMUL : Z := 0xc4.
Definition IDE_CMD_WRMUL : Z := 0xc5.

(** ** The disk *)

(** The command in progress: none, a read, a write that waits for its data, a
    write with its data, a read whose data are ready. *)
Inductive hwop : Type :=
| Idle
| Reading (drive sector : Z)
| Writing (drive sector : Z)
| Loaded (drive sector : Z) (d : list Z)
| Ready (d : list Z).

Record hw : Type := mkhw {
  h_drive : bool → list (list Z);   (* the sectors of drive 0 and of drive 1 *)
  h_count : Z; h_lba0 : Z; h_lba1 : Z; h_lba2 : Z; h_sel : Z;
  h_op : hwop;
  h_busy : nat;                     (* how often the status will be busy *)
  h_err : bool }.

Definition hw_op (op : hwop) (h : hw) : hw :=
  mkhw (h_drive h) (h_count h) (h_lba0 h) (h_lba1 h) (h_lba2 h) (h_sel h) op (h_busy h) (h_err h).

(** The sector number in the registers, and the drive. *)
Definition hw_lba (h : hw) : Z :=
  h_lba0 h + 256 * h_lba1 h + 65536 * h_lba2 h + 16777216 * Z.land (h_sel h) 0x0f.
Definition hw_sel (h : hw) : Z := Z.land (Z.shiftr (h_sel h) 4) 1.

Definition hw_outb (port v : Z) (h : hw) : hw :=
  let v := u8 v in
  if port =? 0x1f2 then mkhw (h_drive h) v (h_lba0 h) (h_lba1 h) (h_lba2 h) (h_sel h) (h_op h) (h_busy h) (h_err h)
  else if port =? 0x1f3 then mkhw (h_drive h) (h_count h) v (h_lba1 h) (h_lba2 h) (h_sel h) (h_op h) (h_busy h) (h_err h)
  else if port =? 0x1f4 then mkhw (h_drive h) (h_count h) (h_lba0 h) v (h_lba2 h) (h_sel h) (h_op h) (h_busy h) (h_err h)
  else if port =? 0x1f5 then mkhw (h_drive h) (h_count h) (h_lba0 h) (h_lba1 h) v (h_sel h) (h_op h) (h_busy h) (h_err h)
  else if port =? 0x1f6 then mkhw (h_drive h) (h_count h) (h_lba0 h) (h_lba1 h) (h_lba2 h) v (h_op h) (h_busy h) (h_err h)
  else if port =? 0x1f7 then
    hw_op (if v =? IDE_CMD_READ then Reading (hw_sel h) (hw_lba h)
           else if v =? IDE_CMD_WRITE then Writing (hw_sel h) (hw_lba h) else h_op h) h
  else h.

Definition hw_outsl (d : list Z) (h : hw) : hw :=
  match h_op h with Writing dr n => hw_op (Loaded dr n d) h | _ => h end.

Definition hw_set (b : bool) (n : nat) (d : list Z) (f : bool → list (list Z)) : bool → list (list Z) :=
  λ b', if Bool.eqb b' b then <[n := d]> (f b') else f b'.

(** The end of the command: [bad] for a failure, and [busy] more reads of the
    status until the disk is ready again. *)
Definition hw_complete (bad : bool) (busy : nat) (h : hw) : hw :=
  let set f op := mkhw f (h_count h) (h_lba0 h) (h_lba1 h) (h_lba2 h) (h_sel h) op busy bad in
  if bad then set (h_drive h) Idle else
  match h_op h with
  | Reading dr n =>
      match h_drive h (dr =? 1) !! Z.to_nat n with
      | Some d => set (h_drive h) (Ready d)
      | None => set (h_drive h) Idle
      end
  | Loaded dr n d => set (hw_set (dr =? 1) (Z.to_nat n) d (h_drive h)) Idle
  | op => set (h_drive h) op
  end.

(** ** The driver *)

Record dbuf : Type := mkdb {
  d_held : bool;                (* the caller holds the lock of the buffer *)
  d_flags : Z;
  d_dev : Z;
  d_blockno : Z;
  d_qnext : option nat;
  d_data : list Z }.
Definition d_set_flags f b := mkdb (d_held b) f (d_dev b) (d_blockno b) (d_qnext b) (d_data b).
Definition d_set_qnext q b := mkdb (d_held b) (d_flags b) (d_dev b) (d_blockno b) q (d_data b).
Definition d_set_data d b := mkdb (d_held b) (d_flags b) (d_dev b) (d_blockno b) (d_qnext b) d.

Record ide : Type := mkide {
  id_lock : bool;
  id_bufs : list dbuf;
  id_queue : option nat;
  id_havedisk1 : bool;
  id_hw : hw;
  id_woken : list nat }.
Definition id_set_lock b s := mkide b (id_bufs s) (id_queue s) (id_havedisk1 s) (id_hw s) (id_woken s).
Definition id_set_bufs l s := mkide (id_lock s) l (id_queue s) (id_havedisk1 s) (id_hw s) (id_woken s).
Definition id_set_queue q s := mkide (id_lock s) (id_bufs s) q (id_havedisk1 s) (id_hw s) (id_woken s).
Definition id_set_hw h s := mkide (id_lock s) (id_bufs s) (id_queue s) (id_havedisk1 s) h (id_woken s).
Definition id_wake p s := mkide (id_lock s) (id_bufs s) (id_queue s) (id_havedisk1 s) (id_hw s) (id_woken s ++ [p]).

Notation M := (M ide).
Definition acquire_i : M unit := acquire id_lock id_set_lock.
Definition release_i : M unit := release id_lock id_set_lock.

Definition dptr (p : nat) : M dbuf := b ← gets (λ s, id_bufs s !! p); lift_opt b.
Definition dupd (p : nat) (f : dbuf → dbuf) : M unit :=
  b ← dptr p; modify (λ s, id_set_bufs (<[p := f b]> (id_bufs s)) s).

Definition outb (port v : Z) : M unit := modify (λ s, id_set_hw (hw_outb port v (id_hw s)) s).
Definition outsl (d : list Z) : M unit := modify (λ s, id_set_hw (hw_outsl d (id_hw s)) s).

(** [inb(0x1f7)]: busy, or ready and perhaps with an error. *)
Definition inb_status : M Z :=
  s ← get;
  let h := id_hw s in
  match h_busy h with
  | S k =>
      modify (id_set_hw (mkhw (h_drive h) (h_count h) (h_lba0 h) (h_lba1 h) (h_lba2 h) (h_sel h) (h_op h) k (h_err h)));;
      mret IDE_BSY
  | O => mret (if h_err h then Z.lor IDE_DRDY IDE_ERR else IDE_DRDY)
  end.

(** [insl]: the data of a read that has ended. *)
Definition insl : M (list Z) :=
  s ← get;
  match h_op (id_hw s) with
  | Ready d => modify (id_set_hw (hw_op Idle (id_hw s)));; mret d
  | _ => undef
  end.

Section driver.
(** Enough rounds for the loop of [idewait]. *)
Context (rounds : nat).

Fixpoint idewait_loop (fuel : nat) : M Z :=
  match fuel with
  | O => no_fuel
  | S fuel' =>
      r ← inb_status;
      if Z.land r (Z.lor IDE_BSY IDE_DRDY) =? IDE_DRDY then mret r else idewait_loop fuel'
  end.

Definition idewait (checkerr : bool) : M Z :=
  r ← idewait_loop rounds;
  if checkerr && negb (Z.land r (Z.lor IDE_DF IDE_ERR) =? 0) then mret (-1) else mret 0.

(** [idestart(b)]; [None] is the null pointer. *)
Definition idestart (q : option nat) : M unit :=
  match q with
  | None => panic "idestart"
  | Some p =>
      b ← dptr p;
      if FSSIZE <=? d_blockno b then panic "incorrect blockno" else
      let sector_per_block := BSIZE / SECTOR_SIZE in
      let sector := s32 (d_blockno b * sector_per_block) in
      let read_cmd := if sector_per_block =? 1 then IDE_CMD_READ else IDE_CMD_RDMUL in
      let write_cmd := if sector_per_block =? 1 then IDE_CMD_WRITE else IDE_CMD_WRMUL in
      if 7 <? sector_per_block then panic "idestart" else
      idewait false;;
      outb 0x3f6 0;;
      outb 0x1f2 sector_per_block;;
      outb 0x1f3 (Z.land sector 0xff);;
      outb 0x1f4 (Z.land (Z.shiftr sector 8) 0xff);;
      outb 0x1f5 (Z.land (Z.shiftr sector 16) 0xff);;
      outb 0x1f6 (Z.lor (Z.lor 0xe0 (Z.shiftl (Z.land (d_dev b) 1) 4)) (Z.land (Z.shiftr sector 24) 0x0f));;
      if negb (Z.land (d_flags b) B_DIRTY =? 0) then
        outb 0x1f7 write_cmd;;
        outsl (d_data b)
      else outb 0x1f7 read_cmd
  end.

Definition ideintr : M unit :=
  acquire_i;;
  q ← gets id_queue;
  match q with
  | None => release_i
  | Some p =>
      b ← dptr p;
      modify (id_set_queue (d_qnext b));;
      (if Z.land (d_flags b) B_DIRTY =? 0 then
         r ← idewait true;
         if 0 <=? r then d ← insl; dupd p (d_set_data d) else mret tt
       else mret tt);;
      dupd p (λ b, d_set_flags (Z.lor (d_flags b) B_VALID) b);;
      dupd p (λ b, d_set_flags (Z.land (d_flags b) (Z.lnot B_DIRTY)) b);;
      modify (id_wake p);;
      q ← gets id_queue;
      match q with Some _ => idestart q | None => mret tt end;;
      release_i
  end.

(** The place [pp] points to: [idequeue] or the [qnext] of a buffer. *)
Inductive qref : Type := QHead | QNext (p : nat).

Definition qload (r : qref) : M (option nat) :=
  match r with QHead => gets id_queue | QNext p => b ← dptr p; mret (d_qnext b) end.
Definition qstore (r : qref) (q : option nat) : M unit :=
  match r with QHead => modify (id_set_queue q) | QNext p => dupd p (d_set_qnext q) end.

Fixpoint find_end (fuel : nat) (pp : qref) : M qref :=
  match fuel with
  | O => no_fuel
  | S fuel' =>
      q ← qload pp;
      match q with None => mret pp | Some p => find_end fuel' (QNext p) end
  end.

(** The loop around [sleep], with the lock held: [true] if the request is done
    and the lock is released, [false] if the process sleeps. *)
Definition iderw_wait (p : nat) : M bool :=
  b ← dptr p;
  release_i;;
  mret (Z.land (d_flags b) (Z.lor B_VALID B_DIRTY) =? B_VALID).

(** [iderw] up to its return or its first sleep, and after a wakeup. *)
Definition iderw (p : nat) : M bool :=
  b ← dptr p;
  if negb (d_held b) then panic "iderw: buf not locked" else
  if Z.land (d_flags b) (Z.lor B_VALID B_DIRTY) =? B_VALID then panic "iderw: nothing to do" else
  one ← gets id_havedisk1;
  if negb (d_dev b =? 0) && negb one then panic "iderw: ide disk 1 not present" else
  acquire_i;;
  dupd p (d_set_qnext None);;
  n ← gets (λ s, length (id_bufs s));
  pp ← find_end (S n) QHead;
  qstore pp (Some p);;
  q ← gets id_queue;
  (if bool_decide (q = Some p) then idestart (Some p) else mret tt);;
  iderw_wait p.

Definition iderw_resume (p : nat) : M bool :=
  acquire_i;;
  iderw_wait p.

(** The loop of [ideinit] that looks for the second drive. *)
Fixpoint find_disk1 (n : nat) : M unit :=
  match n with
  | O => mret tt
  | S n' =>
      st ← inb_status;
      if negb (st =? 0) then modify (λ s, mkide (id_lock s) (id_bufs s) (id_queue s) true (id_hw s) (id_woken s))
      else find_disk1 n'
  end.

(** Without the entry in the interrupt controller. *)
Definition ideinit : M unit :=
  modify (id_set_lock false);;
  idewait false;;
  outb 0x1f6 (Z.lor 0xe0 (Z.shiftl 1 4));;
  find_disk1 1000;;
  outb 0x1f6 (Z.lor 0xe0 (Z.shiftl 0 4)).
End driver.

(** ** The specification *)

Definition dirty (b : dbuf) : bool := negb (Z.land (d_flags b) B_DIRTY =? 0).
Definition drive_of (b : dbuf) : bool := Z.land (d_dev b) 1 =? 1.
Definition forget (b : dbuf) : dbuf := d_set_qnext None b.

(** The requests in their order, the buffers (without their links) and the
    drives. *)
Record reqs : Type := mkreqs { a_queue : list nat; a_bufs : list dbuf; a_drive : bool → list (list Z) }.

Definition request (p : nat) (a : reqs) : reqs := mkreqs (a_queue a ++ [p]) (a_bufs a) (a_drive a).

(** A buffer after its request; [bad] if the disk reports an error. *)
Definition finish (bad : bool) (drv : bool → list (list Z)) (b : dbuf) : dbuf :=
  let b' :=
    if dirty b || bad then b
    else match drv (drive_of b) !! Z.to_nat (d_blockno b) with Some d => d_set_data d b | None => b end in
  d_set_flags (Z.land (Z.lor (d_flags b) B_VALID) (Z.lnot B_DIRTY)) b'.

Definition finish_drive (bad : bool) (b : dbuf) (drv : bool → list (list Z)) : bool → list (list Z) :=
  if dirty b && negb bad then hw_set (drive_of b) (Z.to_nat (d_blockno b)) (d_data b) drv else drv.

Definition serve (bad : bool) (a : reqs) : reqs :=
  match a_queue a with
  | [] => a
  | p :: q =>
      match a_bufs a !! p with
      | Some b => mkreqs q (<[p := finish bad (a_drive a) b]> (a_bufs a)) (finish_drive bad b (a_drive a))
      | None => a
      end
  end.

(** ** The relation *)

(** [l] is the list that starts at [hd]. *)
Fixpoint qchain (bufs : list dbuf) (hd : option nat) (l : list nat) : Prop :=
  match l with
  | [] => hd = None
  | p :: l' => hd = Some p ∧ ∃ b, bufs !! p = Some b ∧ qchain bufs (d_qnext b) l'
  end.

Record request_ok (drv : bool → list (list Z)) (b : dbuf) : Prop := {
  rq_block : 0 ≤ d_blockno b < FSSIZE;
  rq_there : (Z.to_nat (d_blockno b) < length (drv (drive_of b)))%nat;
  rq_work : Z.land (d_flags b) (Z.lor B_VALID B_DIRTY) ≠ B_VALID }.

(** What the disk works on for [b]. *)
Definition hwop_of (b : dbuf) : hwop :=
  let dr := Z.land (d_dev b) 1 in
  if dirty b then Loaded dr (d_blockno b) (d_data b) else Reading dr (d_blockno b).

Definition working (bufs : list dbuf) (q : list nat) (op : hwop) : Prop :=
  match q with [] => op = Idle | p :: _ => ∃ b, bufs !! p = Some b ∧ op = hwop_of b end.

Record ide_rel (rounds : nat) (s : ide) (a : reqs) : Prop := {
  ir_lock : id_lock s = false;
  ir_bufs : forget <$> id_bufs s = a_bufs a;
  ir_chain : qchain (id_bufs s) (id_queue s) (a_queue a);
  ir_nodup : NoDup (a_queue a);
  ir_reqs : ∀ p, p ∈ a_queue a → ∃ b, a_bufs a !! p = Some b ∧ request_ok (a_drive a) b;
  ir_drive : h_drive (id_hw s) = a_drive a;
  ir_op : working (id_bufs s) (a_queue a) (h_op (id_hw s));
  ir_busy : (h_busy (id_hw s) < rounds)%nat }.

(** ** The disk is started with the right command *)

Definition hw_ready (h : hw) : hw :=
  mkhw (h_drive h) (h_count h) (h_lba0 h) (h_lba1 h) (h_lba2 h) (h_sel h) (h_op h) 0 (h_err h).
Definition hw_status (h : hw) : Z := if h_err h then Z.lor IDE_DRDY IDE_ERR else IDE_DRDY.

Lemma idewait_loop_ok fuel : ∀ s, (h_busy (id_hw s) < fuel)%nat →
  idewait_loop fuel s = Ok (hw_status (id_hw s)) (id_set_hw (hw_ready (id_hw s)) s).
Proof.
  induction fuel as [|fuel IH]; intros s Hf; [lia|]. cbn [idewait_loop].
  destruct s as [lk bufs q one [drv cnt l0 l1 l2 sel op busy err] wk]. simpl in *.
  destruct busy as [|k].
  - rewrite (bind_ok _ _ _ (hw_status (mkhw drv cnt l0 l1 l2 sel op 0 err))
      (mkide lk bufs q one (mkhw drv cnt l0 l1 l2 sel op 0 err) wk)) by done.
    by destruct err.
  - rewrite (bind_ok _ _ _ IDE_BSY (mkide lk bufs q one (mkhw drv cnt l0 l1 l2 sel op k err) wk)) by done.
    change (_ =? IDE_DRDY) with false. cbv iota. rewrite IH by (simpl; lia). done.
Qed.

Lemma idewait_ok rounds chk s : (h_busy (id_hw s) < rounds)%nat →
  idewait rounds chk s = Ok (if chk && h_err (id_hw s) then -1 else 0) (id_set_hw (hw_ready (id_hw s)) s).
Proof.
  intros H. unfold idewait. mstep (idewait_loop_ok rounds s H). unfold hw_status.
  by destruct chk, (h_err (id_hw s)).
Qed.

(** The bytes of the sector number and the drive, read back from the registers. *)
Lemma low_bit dev : Z.land dev 1 = 0 ∨ Z.land dev 1 = 1.
Proof.
  assert (E : Z.land dev 1 = dev mod 2) by (change 1 with (Z.ones 1); by rewrite Z.land_ones by lia).
  rewrite E. lia.
Qed.

Lemma sel_byte n dev : 0 ≤ n < 1000 →
  u8 (Z.lor (Z.lor 0xe0 (Z.shiftl (Z.land dev 1) 4)) (Z.land (Z.shiftr n 24) 0x0f)) = 224 + 16 * Z.land dev 1.
Proof.
  intros H. rewrite Z.shiftr_div_pow2 by lia. rewrite (Z.div_small n (2 ^ 24)) by lia.
  by destruct (low_bit dev) as [-> | ->].
Qed.

Lemma lba_bytes n : 0 ≤ n < 1000 →
  u8 (Z.land n 0xff) + 256 * u8 (Z.land (Z.shiftr n 8) 0xff) + 65536 * u8 (Z.land (Z.shiftr n 16) 0xff) = n.
Proof.
  intros H. rewrite !Z.shiftr_div_pow2 by lia. rewrite (Z.div_small n (2 ^ 16)) by lia.
  change 255 with (Z.ones 8). rewrite !Z.land_ones by lia. unfold u8. lia.
Qed.

Lemma idestart_ok rounds p b s : id_bufs s !! p = Some b → 0 ≤ d_blockno b < FSSIZE → (h_busy (id_hw s) < rounds)%nat →
  ∃ h, idestart rounds (Some p) s = Ok tt (id_set_hw h s) ∧ h_op h = hwop_of b ∧ h_drive h = h_drive (id_hw s) ∧ h_busy h = 0%nat.
Proof.
  intros Hp Hn Hb. unfold FSSIZE in *. unfold idestart.
  rewrite (bind_ok _ _ _ b s) by (unfold dptr; rewrite (bind_ok _ _ _ (Some b) s); [done|unfold gets; by rewrite Hp]).
  unfold FSSIZE. rewrite (proj2 (Z.leb_gt 1000 (d_blockno b))) by lia.
  change (BSIZE / SECTOR_SIZE) with 1. rewrite Z.mul_1_r.
  replace (s32 (d_blockno b)) with (d_blockno b)
    by (symmetry; apply s32_small; lia).
  cbv zeta. change (1 =? 1) with true. change (7 <? 1) with false. cbv iota. mstep (idewait_ok rounds false s Hb).
  pose proof (sel_byte (d_blockno b) (d_dev b) Hn) as E1. pose proof (lba_bytes (d_blockno b) Hn) as E2.
  destruct s as [lk bufs q one [drv cnt l0 l1 l2 sel op busy err] wk]. simpl in Hp, Hb |- *.
  set (n := d_blockno b) in *. set (dr := Z.land (d_dev b) 1) in *.
  set (h := mkhw drv (u8 1) (u8 (Z.land n 255)) (u8 (Z.land (Z.shiftr n 8) 255)) (u8 (Z.land (Z.shiftr n 16) 255))
    (u8 (Z.lor (Z.lor 224 (Z.shiftl dr 4)) (Z.land (Z.shiftr n 24) 15))) op 0 err).
  assert (Hs : hw_lba h = n ∧ hw_sel h = dr).
  { unfold h, hw_lba, hw_sel. cbn [h_lba0 h_lba1 h_lba2 h_sel]. rewrite E1.
    destruct (low_bit (d_dev b)) as [E|E]; fold dr in E; rewrite E; (split; [|done]).
    - change (Z.land (224 + 16 * 0) 15) with 0. lia.
    - change (Z.land (224 + 16 * 1) 15) with 0. lia. }
  destruct Hs as [Hl Hs]. unfold hwop_of. fold dr n. unfold dirty.
  destruct (negb (Z.land (d_flags b) B_DIRTY =? 0)).
  - exists (hw_op (Loaded (hw_sel h) (hw_lba h) (d_data b)) h). split_and!; [reflexivity| |done|done]. simpl h_op. by rewrite Hl, Hs.
  - exists (hw_op (Reading (hw_sel h) (hw_lba h)) h). split_and!; [reflexivity| |done|done]. simpl h_op. by rewrite Hl, Hs.
Qed.

(** ** The queue *)

Lemma dptr_ok p b s : id_bufs s !! p = Some b → dptr p s = Ok b s.
Proof. intros H. unfold dptr. rewrite (bind_ok _ _ _ (Some b) s); [done|]. unfold gets. by rewrite H. Qed.

Lemma dupd_ok p f b s : id_bufs s !! p = Some b → dupd p f s = Ok tt (id_set_bufs (<[p := f b]> (id_bufs s)) s).
Proof. intros H. unfold dupd. by mstep (dptr_ok p b s H). Qed.

Lemma qchain_insert bufs p b l : ∀ hd, p ∉ l → qchain bufs hd l → qchain (<[p := b]> bufs) hd l.
Proof.
  induction l as [|x l IH]; intros hd Hp; [done|]. apply not_elem_of_cons in Hp as [Hne Hp].
  intros [-> (bx & Hx & Hl)]. split; [done|]. exists bx. rewrite list_lookup_insert_ne by done. auto.
Qed.

Definition end_ref (pp : qref) (l : list nat) : qref :=
  match last l with Some x => QNext x | None => pp end.

Lemma find_end_ok l : ∀ fuel pp hd s, qload pp s = Ok hd s → qchain (id_bufs s) hd l → (length l < fuel)%nat →
  find_end fuel pp s = Ok (end_ref pp l) s.
Proof.
  induction l as [|x l IH]; intros [|fuel] pp hd s Hq Hc Hf; try (simpl in Hf; lia); cbn [find_end]; mstep Hq.
  - by rewrite Hc.
  - destruct Hc as [-> (b & Hx & Hc)]. rewrite (IH fuel (QNext x) (d_qnext b) s); [|cbn [qload]; by mstep (dptr_ok x b s Hx)|done|simpl in Hf; lia].
    unfold end_ref. destruct l as [|y l]; [done|]. change (last (x :: y :: l)) with (last (y :: l)).
    destruct (last (y :: l)) eqn:E; [done|]. by apply last_None in E.
Qed.

(** The link of the last buffer is set to [p]. *)
Lemma qchain_snoc bufs p bp l x bx : ∀ hd, qchain bufs hd l → NoDup l → last l = Some x → bufs !! x = Some bx →
  bufs !! p = Some bp → d_qnext bp = None → p ∉ l →
  qchain (<[x := d_set_qnext (Some p) bx]> bufs) hd (l ++ [p]).
Proof.
  induction l as [|y l IH]; intros hd Hc Hd Hl Hx Hp Hn Hpl; [done|].
  destruct Hc as [-> (b & Hy & Hc)]. apply NoDup_cons in Hd as [Hyl Hd]. apply not_elem_of_cons in Hpl as [Hne Hpl].
  split; [done|]. destruct l as [|z l].
  - injection Hl as ->. exists (d_set_qnext (Some p) bx).
    rewrite list_lookup_insert_eq by (by eapply lookup_lt_Some). split; [done|]. split; [done|].
    exists bp. rewrite list_lookup_insert_ne by done. done.
  - change (last (y :: z :: l)) with (last (z :: l)) in Hl.
    assert (x ≠ y). { intros ->. apply last_Some_elem_of in Hl. done. }
    exists b. rewrite list_lookup_insert_ne by done. split; [done|]. by apply IH.
Qed.

Lemma qchain_lookup bufs l : ∀ hd p, qchain bufs hd l → p ∈ l → ∃ b, bufs !! p = Some b.
Proof.
  induction l as [|x l IH]; intros hd p Hc Hp; [by apply not_elem_of_nil in Hp|].
  destruct Hc as [_ (b & Hx & Hc)]. apply elem_of_cons in Hp as [->|Hp]; eauto.
Qed.

Lemma qchain_length bufs l hd : qchain bufs hd l → NoDup l → (length l ≤ length bufs)%nat.
Proof.
  intros Hc Hd. rewrite <- (length_seq (length bufs) 0). apply NoDup_incl_length; [by apply NoDup_ListNoDup|].
  intros p Hp. apply in_seq. apply list_elem_of_In in Hp.
  destruct (qchain_lookup bufs l hd p Hc Hp) as [b Hb]. apply lookup_lt_Some in Hb. lia.
Qed.

(** ** The interrupt handler *)

Lemma forget_lookup s a p b : forget <$> id_bufs s = a_bufs a → a_bufs a !! p = Some b →
  ∃ b', id_bufs s !! p = Some b' ∧ b = forget b'.
Proof. intros <- H. apply list_lookup_fmap_Some in H as (b' & -> & H). eauto. Qed.

Lemma drive_of_1 b : (Z.land (d_dev b) 1 =? 1) = drive_of b.
Proof. done. Qed.

(** The disk at the end of the command for [b]. *)
Lemma complete_ok bad busy b h : request_ok (h_drive h) b → h_op h = hwop_of b →
  let h' := hw_complete bad busy h in
  h_drive h' = finish_drive bad b (h_drive h) ∧ h_busy h' = busy ∧ h_err h' = bad ∧
  if dirty b || bad then h_op h' = Idle
  else ∃ d, h_drive h (drive_of b) !! Z.to_nat (d_blockno b) = Some d ∧ h_op h' = Ready d.
Proof.
  intros [_ Ht _] Ho. unfold hw_complete, hwop_of, finish_drive in *. rewrite Ho.
  destruct (dirty b), bad; cbn [orb andb negb]; try (split_and!; reflexivity).
  destruct (lookup_lt_is_Some_2 _ _ Ht) as [d Hd]. rewrite drive_of_1, Hd. simpl. split_and!; [done..|]. by exists d.
Qed.

(** The part of [ideintr] that moves the data, after the disk has ended. *)
Lemma transfer_ok rounds bad busy p b s : id_bufs s !! p = Some b → request_ok (h_drive (id_hw s)) b →
  h_op (id_hw s) = hwop_of b → (busy < rounds)%nat →
  ∃ h b', (if Z.land (d_flags b) B_DIRTY =? 0 then
         r ← idewait rounds true;
         if 0 <=? r then d ← insl; dupd p (d_set_data d) else mret tt
       else mret tt) (id_set_hw (hw_complete bad busy (id_hw s)) s) = Ok tt (id_set_bufs (<[p := b']> (id_bufs s)) (id_set_hw h s)) ∧
    h_op h = Idle ∧ h_drive h = finish_drive bad b (h_drive (id_hw s)) ∧ (h_busy h < rounds)%nat ∧
    d_qnext b' = d_qnext b ∧ d_flags b' = d_flags b ∧
    d_set_flags (Z.land (Z.lor (d_flags b) B_VALID) (Z.lnot B_DIRTY)) (forget b') = finish bad (h_drive (id_hw s)) (forget b).
Proof.
  intros Hp Hq Ho Hr. destruct (complete_ok bad busy b _ Hq Ho) as (C1 & C2 & C3 & C4).
  destruct s as [lk bufs q one hd wk]. cbn [id_bufs id_hw] in *. set (hc := hw_complete bad busy hd) in *.
  unfold finish. change (dirty (forget b)) with (dirty b). change (drive_of (forget b)) with (drive_of b).
  change (d_flags (forget b)) with (d_flags b). change (d_blockno (forget b)) with (d_blockno b).
  replace (Z.land (d_flags b) B_DIRTY =? 0) with (negb (dirty b)) by (unfold dirty; by destruct (_ =? 0)).
  destruct (dirty b); cbn [negb orb] in *.
  - exists hc, b. rewrite (list_insert_id _ _ _ Hp). split_and!; [reflexivity|done..|lia|done|done|done].
  - rewrite (bind_ok _ _ _ (if bad then -1 else 0) (mkide lk bufs q one (hw_ready hc) wk))
      by (rewrite <- C3; apply (idewait_ok rounds true); simpl; lia).
    destruct bad; cbn [Z.leb Z.compare].
    + exists (hw_ready hc), b. rewrite (list_insert_id _ _ _ Hp). split_and!; [reflexivity|done..|simpl; lia|done|done|done].
    + destruct C4 as (d & Hd & C4). rewrite Hd. exists (hw_op Idle (hw_ready hc)), (d_set_data d b).
      split_and!; [|done..|simpl; lia|done|done|done].
      rewrite (bind_ok _ _ _ d (mkide lk bufs q one (hw_op Idle (hw_ready hc)) wk))
        by (unfold insl, mbind, M_bind, get; simpl; by rewrite C4).
      by rewrite (dupd_ok p (d_set_data d) b).
Qed.

Lemma ideintr_empty rounds h s : id_lock s = false → id_queue s = None → ideintr rounds (id_set_hw h s) = Ok tt (id_set_hw h s).
Proof. destruct s; simpl. by intros -> ->. Qed.

Lemma finish_drive_length bad b drv x : length (finish_drive bad b drv x) = length (drv x).
Proof.
  unfold finish_drive. destruct (_ && _); [|done]. unfold hw_set. destruct (Bool.eqb _ _); [|done]. by rewrite length_insert.
Qed.

Lemma request_ok_drive bad b drv b' : request_ok drv b' → request_ok (finish_drive bad b drv) b'.
Proof. intros [H1 H2 H3]. split; [done| |done]. by rewrite finish_drive_length. Qed.

Lemma request_ok_forget drv b : request_ok drv (forget b) → request_ok drv b.
Proof. by intros []. Qed.

(** The state after the first buffer is done and before the next is started. *)
Lemma ideintr_first rounds bad busy s a p q : ide_rel rounds s a → a_queue a = p :: q → (busy < rounds)%nat →
  ∃ s1, id_lock s1 = true ∧ forget <$> id_bufs s1 = a_bufs (serve bad a) ∧ qchain (id_bufs s1) (id_queue s1) q ∧
    h_drive (id_hw s1) = a_drive (serve bad a) ∧ h_op (id_hw s1) = Idle ∧ (h_busy (id_hw s1) < rounds)%nat ∧
    id_woken s1 = id_woken s ++ [p] ∧ id_havedisk1 s1 = id_havedisk1 s ∧
    ideintr rounds (id_set_hw (hw_complete bad busy (id_hw s)) s) =
      (match id_queue s1 with Some _ => idestart rounds (id_queue s1) | None => mret tt end;; release_i) s1.
Proof.
  intros [R1 R2 R3 R4 R5 R6 R7 R8] Hq Hb. rewrite Hq in *.
  destruct (R5 p ltac:(left)) as (fb & Hfb & Hr). destruct (forget_lookup s a p fb R2 Hfb) as (b & Hp & ->).
  destruct R3 as [Hd (b0 & Hp0 & Hc)]. destruct R7 as (b1 & Hp1 & Ho).
  assert (b0 = b) as -> by congruence. assert (b1 = b) as -> by congruence. apply request_ok_forget in Hr.
  apply NoDup_cons in R4 as [Hpq _]. rewrite <- R6 in Hr.
  destruct s as [lk bufs hq one hd wk]. cbn [id_lock id_bufs id_queue id_hw id_woken id_havedisk1] in *. subst.
  destruct (transfer_ok rounds bad busy p b (mkide true bufs (d_qnext b) one hd wk) Hp Hr Ho Hb)
    as (h & b' & E & T1 & T2 & T3 & T4 & T5 & T6).
  cbn [id_lock id_bufs id_queue id_hw id_woken id_havedisk1] in *.
  set (fin := d_set_flags (Z.land (Z.lor (d_flags b) B_VALID) (Z.lnot B_DIRTY)) b').
  assert (Hlt : (p < length bufs)%nat) by (by eapply lookup_lt_Some).
  exists (mkide true (<[p := fin]> bufs) (d_qnext b) one h (wk ++ [p])).
  unfold serve. rewrite Hq, Hfb. cbn [id_lock id_bufs id_queue id_hw id_woken a_bufs a_drive].
  split_and!; try done.
  - rewrite list_fmap_insert, R2. rewrite <- R6. by rewrite <- T6.
  - by apply qchain_insert.
  - by rewrite T2, R6.
  - unfold ideintr. rewrite (bind_ok _ _ _ tt (mkide true bufs (Some p) one (hw_complete bad busy hd) wk)) by done.
    rewrite (bind_ok _ _ _ (Some p) (mkide true bufs (Some p) one (hw_complete bad busy hd) wk)) by done.
    rewrite (bind_ok _ _ _ _ _ (dptr_ok p b (mkide true bufs (Some p) one (hw_complete bad busy hd) wk) Hp)).
    rewrite (bind_ok _ _ _ tt (mkide true bufs (d_qnext b) one (hw_complete bad busy hd) wk)) by done.
    mstep E. unfold id_set_bufs, id_set_hw. cbn [id_lock id_bufs id_queue id_hw id_woken id_havedisk1].
    assert (Hp' : <[p := b']> bufs !! p = Some b') by (by apply list_lookup_insert_eq).
    rewrite (bind_ok _ _ _ _ _ (dupd_ok p _ b' (mkide true (<[p := b']> bufs) (d_qnext b) one h wk) Hp')).
    set (b2 := d_set_flags (Z.lor (d_flags b') B_VALID) b').
    assert (Hp2 : <[p := b2]> bufs !! p = Some b2) by (by apply list_lookup_insert_eq).
    unfold id_set_bufs. cbn [id_lock id_bufs id_queue id_hw id_woken id_havedisk1]. rewrite list_insert_insert_eq.
    rewrite (bind_ok _ _ _ _ _ (dupd_ok p _ b2 (mkide true (<[p := b2]> bufs) (d_qnext b) one h wk) Hp2)).
    unfold id_set_bufs. cbn [id_lock id_bufs id_queue id_hw id_woken id_havedisk1]. rewrite list_insert_insert_eq.
    replace (d_set_flags _ b2) with fin by (unfold fin, b2; simpl; by rewrite T5). done.
Qed.

Lemma release_i_ok s : id_lock s = true → release_i s = Ok tt (id_set_lock false s).
Proof. destruct s; simpl. by intros ->. Qed.

Lemma serve_reqs bad rounds s a p q : ide_rel rounds s a → a_queue a = p :: q →
  a_queue (serve bad a) = q ∧ NoDup q ∧
  ∀ p', p' ∈ q → ∃ b, a_bufs (serve bad a) !! p' = Some b ∧ request_ok (a_drive (serve bad a)) b.
Proof.
  intros [R1 R2 R3 R4 R5 R6 R7 R8] Hq. rewrite Hq in *. apply NoDup_cons in R4 as [Hpq Hd].
  destruct (R5 p ltac:(left)) as (b & Hb & Hr). unfold serve. rewrite Hq, Hb. simpl. split_and!; [done|done|].
  intros p' Hp'. destruct (R5 p' ltac:(by right)) as (b' & Hb' & Hr'). exists b'.
  rewrite list_lookup_insert_ne by set_solver. split; [done|]. by apply request_ok_drive.
Qed.

(** An interrupt serves the first request, wakes its process and starts the
    next one. *)
Lemma ideintr_ok rounds bad busy s a : ide_rel rounds s a → (busy < rounds)%nat →
  ∃ s', ideintr rounds (id_set_hw (hw_complete bad busy (id_hw s)) s) = Ok tt s' ∧ ide_rel rounds s' (serve bad a) ∧
    id_woken s' = id_woken s ++ take 1 (a_queue a) ∧ id_havedisk1 s' = id_havedisk1 s.
Proof.
  intros H Hb. destruct (a_queue a) as [|p q] eqn:Hq.
  - destruct H as [R1 R2 R3 R4 R5 R6 R7 R8]. rewrite Hq in R3, R7. simpl in R3, R7.
    eexists. split; [by apply ideintr_empty|]. rewrite app_nil_r. split; [|done].
    unfold serve. rewrite Hq. assert (E : h_op (hw_complete bad busy (id_hw s)) = Idle ∧
      h_drive (hw_complete bad busy (id_hw s)) = h_drive (id_hw s) ∧ h_busy (hw_complete bad busy (id_hw s)) = busy).
    { unfold hw_complete. rewrite R7. by destruct bad. }
    destruct E as (E1 & E2 & E3). split; rewrite ?Hq; simpl; rewrite ?E1, ?E2, ?E3; try done.
    + constructor.
    + set_solver.
  - destruct (ideintr_first rounds bad busy s a p q H Hq Hb) as (s1 & F1 & F2 & F3 & F4 & F5 & F6 & F7 & F8 & ->).
    destruct (serve_reqs bad rounds s a p q H Hq) as (Sq & Sd & Sr).
    assert (N : ∃ h, (match id_queue s1 with Some _ => idestart rounds (id_queue s1) | None => mret tt end) s1 = Ok tt (id_set_hw h s1) ∧
      working (id_bufs s1) q (h_op h) ∧ h_drive h = h_drive (id_hw s1) ∧ (h_busy h < rounds)%nat).
    { destruct q as [|p' q].
      - simpl in F3. rewrite F3. exists (id_hw s1). by destruct s1.
      - destruct F3 as [F3 _]. rewrite F3. destruct (Sr p' ltac:(left)) as (b & Hb1 & Hr).
        destruct (forget_lookup s1 _ p' b F2 Hb1) as (b' & Hb' & ->).
        destruct (idestart_ok rounds p' b' s1 Hb' (rq_block _ _ Hr) F6) as (h & E & G1 & G2 & G3).
        exists h. split_and!; [done|by exists b'|done|lia]. }
    destruct N as (h & E & N1 & N2 & N3). mstep E. eexists. split; [by apply release_i_ok|].
    split; [|by rewrite <- F8; split; [exact F7|]]. split; rewrite ?Sq; simpl; try done. by rewrite N2.
Qed.

(** ** Requests *)

Lemma request_next rounds s a p b :
  ide_rel rounds s a → id_bufs s !! p = Some b → request_ok (a_drive a) b → p ∉ a_queue a →
  let s1 := id_set_bufs (<[p := d_set_qnext None b]> (id_bufs s)) (id_set_lock true s) in
  ∃ pp s2, find_end (S (length (id_bufs s1))) QHead s1 = Ok pp s1 ∧ qstore pp (Some p) s1 = Ok tt s2 ∧
    id_lock s2 = true ∧ forget <$> id_bufs s2 = a_bufs a ∧ qchain (id_bufs s2) (id_queue s2) (a_queue a ++ [p]) ∧
    id_hw s2 = id_hw s ∧ id_woken s2 = id_woken s ∧ id_havedisk1 s2 = id_havedisk1 s.
Proof.
  intros [R1 R2 R3 R4 R5 R6 R7 R8] Hp Hr Hpq s1.
  assert (Hlt : (p < length (id_bufs s))%nat) by (by eapply lookup_lt_Some).
  set (b1 := d_set_qnext None b). set (bufs := <[p := b1]> (id_bufs s)).
  assert (Hp1 : bufs !! p = Some b1) by (by apply list_lookup_insert_eq).
  assert (Hc : qchain bufs (id_queue s) (a_queue a)) by (by apply qchain_insert).
  assert (Hf : forget <$> bufs = a_bufs a).
  { unfold bufs. rewrite list_fmap_insert, R2. change (forget b1) with (forget b). apply list_insert_id.
    rewrite <- R2. by rewrite list_lookup_fmap, Hp. }
  assert (Ef : find_end (S (length (id_bufs s1))) QHead s1 = Ok (end_ref QHead (a_queue a)) s1)
    by (apply (find_end_ok _ _ _ (id_queue s)); [done|done|pose proof (qchain_length _ _ _ Hc R4); apply Nat.lt_succ_r; done]).
  unfold end_ref in Ef. destruct (last (a_queue a)) as [x|] eqn:El.
  - assert (Hx : x ∈ a_queue a) by (by apply last_Some_elem_of).
    destruct (qchain_lookup _ _ _ x Hc Hx) as [bx Hbx].
    eexists _, _. split; [exact Ef|]. split; [exact (dupd_ok x (d_set_qnext (Some p)) bx s1 Hbx)|].
    unfold s1, id_set_bufs, id_set_lock. cbn [id_lock id_bufs id_queue id_hw id_woken id_havedisk1]. fold b1. fold bufs. split_and!; try done.
    + rewrite list_fmap_insert, Hf. apply list_insert_id. rewrite <- Hf. by rewrite list_lookup_fmap, Hbx.
    + by eapply qchain_snoc.
  - apply last_None in El. rewrite El. eexists _, _. split; [exact Ef|]. split; [done|]. simpl. fold bufs. split_and!; try done. by exists b1.
Qed.

Lemma hwop_forget b b' : forget b' = forget b → hwop_of b' = hwop_of b.
Proof. destruct b, b'. unfold forget, d_set_qnext. simpl. intros [= -> -> -> -> ->]. done. Qed.

(** What a caller of [iderw] sees to: it holds the buffer, there is something
    to do, the block is on a drive that is there, and the buffer is not in the
    queue already. *)
Definition may_request (one : bool) (p : nat) (a : reqs) : Prop :=
  ∃ b, a_bufs a !! p = Some b ∧ d_held b = true ∧ request_ok (a_drive a) b ∧ p ∉ a_queue a ∧ (d_dev b = 0 ∨ one = true).

Lemma iderw_guards rounds p b s : id_bufs s !! p = Some b → d_held b = true → request_ok (h_drive (id_hw s)) b →
  (d_dev b = 0 ∨ id_havedisk1 s = true) → id_lock s = false →
  iderw rounds p s =
    (n ← gets (λ s, length (id_bufs s)); pp ← find_end (S n) QHead; qstore pp (Some p);;
     q ← gets id_queue;
     (if bool_decide (q = Some p) then idestart rounds (Some p) else mret tt);;
     iderw_wait p) (id_set_bufs (<[p := d_set_qnext None b]> (id_bufs s)) (id_set_lock true s)).
Proof.
  intros Hp Hh [_ _ Hw] Hd Hl. unfold iderw. mstep (dptr_ok p b s Hp). rewrite Hh. cbn [negb].
  rewrite (proj2 (Z.eqb_neq _ _) Hw). rewrite (bind_ok _ _ _ (id_havedisk1 s) s) by done.
  replace (negb (d_dev b =? 0) && negb (id_havedisk1 s)) with false.
  2: { destruct Hd as [-> | ->]; [done|]. by rewrite andb_false_r. }
  rewrite (bind_ok _ _ _ tt (id_set_lock true s)) by (destruct s; simpl in *; by subst).
  by rewrite (bind_ok _ _ _ _ _ (dupd_ok p (d_set_qnext None) b (id_set_lock true s) Hp)).
Qed.

Lemma iderw_wait_ok p b s : id_lock s = true → id_bufs s !! p = Some b →
  iderw_wait p s = Ok (Z.land (d_flags b) (Z.lor B_VALID B_DIRTY) =? B_VALID) (id_set_lock false s).
Proof. intros Hl Hp. unfold iderw_wait. mstep (dptr_ok p b s Hp). by mstep (release_i_ok s Hl). Qed.

(** A call of [iderw] appends the request and sleeps. *)
Lemma iderw_ok rounds p s a : ide_rel rounds s a → may_request (id_havedisk1 s) p a →
  ∃ s', iderw rounds p s = Ok false s' ∧ ide_rel rounds s' (request p a) ∧
    id_woken s' = id_woken s ∧ id_havedisk1 s' = id_havedisk1 s.
Proof.
  intros H (fb & Hfb & Hh & Hr & Hpq & Hd). destruct (forget_lookup s a p fb (ir_bufs _ _ _ H) Hfb) as (b & Hp & ->).
  pose proof (request_ok_forget _ _ Hr) as Hr'.
  rewrite (iderw_guards rounds p b s Hp Hh ltac:(by rewrite (ir_drive _ _ _ H)) Hd (ir_lock _ _ _ H)).
  destruct (request_next rounds s a p b H Hp Hr' Hpq) as (pp & s2 & E1 & E2 & G1 & G2 & G3 & G4 & G5 & G6).
  destruct H as [R1 R2 R3 R4 R5 R6 R7 R8].
  destruct (forget_lookup s2 a p _ G2 Hfb) as (b2 & Hp2 & Eb2).
  assert (N : ∃ h, (if bool_decide (id_queue s2 = Some p) then idestart rounds (Some p) else mret tt) s2 =
      Ok tt (id_set_hw h s2) ∧ working (id_bufs s2) (a_queue a ++ [p]) (h_op h) ∧ h_drive h = a_drive a ∧ (h_busy h < rounds)%nat).
  { destruct (a_queue a) as [|x q].
    - destruct G3 as [-> _]. rewrite bool_decide_eq_true_2 by done.
      destruct (idestart_ok rounds p b2 s2 Hp2) as (h & E & K1 & K2 & K3);
        [injection Eb2 as _ _ _ <- _; apply Hr|by rewrite G4|].
      exists h. split_and!; [done|by exists b2|by rewrite K2, G4|lia].
    - destruct G3 as [-> _]. rewrite bool_decide_eq_false_2 by (intros [= ->]; apply Hpq; left).
      exists (id_hw s). split; [by rewrite <- G4; destruct s2|]. split; [|done].
      destruct R7 as (bx & Hx & ->). destruct (R5 x ltac:(left)) as (fx & Hfx & _).
      destruct (forget_lookup s2 a x fx G2 Hfx) as (b2x & Hx2 & ->).
      exists b2x. split; [done|]. apply hwop_forget. rewrite <- R2, list_lookup_fmap, Hx in Hfx.
      symmetry. by apply (inj Some). }
  destruct N as (h & E3 & N1 & N2 & N3).
  assert (EW : Z.land (d_flags b2) (Z.lor B_VALID B_DIRTY) =? B_VALID = false).
  { injection Eb2 as _ <- _ _ _. apply Z.eqb_neq, Hr. }
  exists (id_set_lock false (id_set_hw h s2)). split; [|split; [|by simpl; rewrite G5, G6]].
  - rewrite bind_gets. mstep E1. mstep E2. rewrite (bind_ok _ _ _ (id_queue s2) s2) by done. mstep E3.
    rewrite (iderw_wait_ok p b2) by done. by rewrite EW.
  - split; simpl; try done.
    + apply NoDup_app. split_and!; [done| |apply NoDup_singleton]. intros x Hx Hx'.
      apply list_elem_of_singleton in Hx' as ->. done.
    + intros x Hx. apply elem_of_app in Hx as [Hx|Hx]; [auto|]. apply list_elem_of_singleton in Hx as ->. eauto.
Qed.

(** ** Interleavings *)

(** What happens to the driver: a process calls [iderw]; a process that slept
    looks at its buffer again; the disk ends a command and interrupts; the owner
    of a buffer that is not in the queue changes it (releases it, fills it with
    another block, or marks it dirty). *)
Inductive devent : Type :=
| Request (p : nat)
| Resume (p : nat)
| Interrupt (bad : bool) (busy : nat)
| Change (p : nat) (b : dbuf).

Definition ide_event (rounds : nat) (e : devent) : M (list bool) :=
  match e with
  | Request p => r ← iderw rounds p; mret [r]
  | Resume p => r ← iderw_resume p; mret [r]
  | Interrupt bad busy =>
      modify (λ s, id_set_hw (hw_complete bad busy (id_hw s)) s);; ideintr rounds;; mret []
  | Change p b => dupd p (λ _, b);; mret []
  end.

Fixpoint ide_events (rounds : nat) (es : list devent) : M (list bool) :=
  match es with
  | [] => mret []
  | e :: es' => o ← ide_event rounds e; os ← ide_events rounds es'; mret (o ++ os)
  end.

Definition is_done (p : nat) (a : reqs) : bool :=
  match a_bufs a !! p with
  | Some b => Z.land (d_flags b) (Z.lor B_VALID B_DIRTY) =? B_VALID
  | None => false
  end.

Definition req_event (e : devent) (a : reqs) : list bool * reqs :=
  match e with
  | Request p => ([false], request p a)
  | Resume p => ([is_done p a], a)
  | Interrupt bad _ => ([], serve bad a)
  | Change p b => ([], mkreqs (a_queue a) (<[p := forget b]> (a_bufs a)) (a_drive a))
  end.

Fixpoint req_events (es : list devent) (a : reqs) : list bool * reqs :=
  match es with
  | [] => ([], a)
  | e :: es' => let '(o, a1) := req_event e a in let '(os, a2) := req_events es' a1 in (o ++ os, a2)
  end.

(** The callers keep to the rules, and the disk does not stay busy for ever. *)
Definition devent_ok (rounds : nat) (one : bool) (e : devent) (a : reqs) : Prop :=
  match e with
  | Request p => may_request one p a
  | Resume p => (p < length (a_bufs a))%nat
  | Interrupt _ busy => (busy < rounds)%nat
  | Change p b => (p < length (a_bufs a))%nat ∧ p ∉ a_queue a
  end.

Fixpoint devents_ok (rounds : nat) (one : bool) (es : list devent) (a : reqs) : Prop :=
  match es with
  | [] => True
  | e :: es' => devent_ok rounds one e a ∧ devents_ok rounds one es' (req_event e a).2
  end.

Lemma change_ok rounds p b s a : ide_rel rounds s a → (p < length (a_bufs a))%nat → p ∉ a_queue a →
  ∃ s', dupd p (λ _, b) s = Ok tt s' ∧ ide_rel rounds s' (mkreqs (a_queue a) (<[p := forget b]> (a_bufs a)) (a_drive a)) ∧
    id_havedisk1 s' = id_havedisk1 s.
Proof.
  intros [R1 R2 R3 R4 R5 R6 R7 R8] Hp Hq. rewrite <- R2, length_fmap in Hp.
  destruct (lookup_lt_is_Some_2 _ _ Hp) as [b0 Hb0]. eexists. split; [by apply (dupd_ok p _ b0)|].
  split; [|done]. split; simpl; try done.
  - by rewrite list_fmap_insert, R2.
  - by apply qchain_insert.
  - intros x Hx. rewrite list_lookup_insert_ne by (intros ->; done). auto.
  - destruct (a_queue a) as [|x q]; [done|]. destruct R7 as (bx & Hx & E). exists bx.
    split; [|done]. rewrite list_lookup_insert_ne; [done|]. intros ->. apply Hq. left.
Qed.

(** A process that slept sees whether its request is done. *)
Lemma resume_ok rounds p s a : ide_rel rounds s a → (p < length (a_bufs a))%nat → iderw_resume p s = Ok (is_done p a) s.
Proof.
  intros [R1 R2 _ _ _ _ _ _] He. rewrite <- R2, length_fmap in He. destruct (lookup_lt_is_Some_2 _ _ He) as [b Hb].
  unfold is_done. rewrite <- R2, list_lookup_fmap, Hb. simpl. unfold iderw_resume.
  destruct s. simpl in *. subst. unfold mbind, M_bind. simpl. by rewrite (iderw_wait_ok p b).
Qed.

Lemma ide_event_ok rounds e s a : ide_rel rounds s a → devent_ok rounds (id_havedisk1 s) e a →
  ∃ s', ide_event rounds e s = Ok (req_event e a).1 s' ∧ ide_rel rounds s' (req_event e a).2 ∧
    id_havedisk1 s' = id_havedisk1 s.
Proof.
  intros H He. destruct e as [p|p|bad busy|p b]; cbn [ide_event req_event devent_ok fst snd] in *.
  - destruct (iderw_ok rounds p s a H He) as (s' & E & H' & _ & D). mstep E. by exists s'.
  - mstep (resume_ok rounds p s a H He). by exists s.
  - destruct (ideintr_ok rounds bad busy s a H He) as (s' & E & H' & _ & D). rewrite bind_modify. mstep E. by exists s'.
  - destruct He as [Hp Hq]. destruct (change_ok rounds p b s a H Hp Hq) as (s' & E & H' & D). mstep E. by exists s'.
Qed.

(** C11: under every interleaving of calls of iderw, disk interrupts, woken
    processes and changes of idle buffers, the driver with its linked queue, its
    port writes and its one running command serves the requests in the order
    they came, one for each interrupt: a read fills its buffer from the block
    of the drive it names, a write puts its data there, and the buffer is then
    valid and clean.  No panic is reached, the wait for the disk ends, and the
    lock is free after each step. *)
Theorem ide_refines rounds es : ∀ s a, ide_rel rounds s a → devents_ok rounds (id_havedisk1 s) es a →
  ∃ s', ide_events rounds es s = Ok (req_events es a).1 s' ∧ ide_rel rounds s' (req_events es a).2.
Proof.
  induction es as [|e es IH]; intros s a H He; cbn [ide_events req_events]; [by exists s|].
  destruct He as [He Hes]. destruct (ide_event_ok rounds e s a H He) as (s1 & E1 & H1 & D1). mstep E1.
  rewrite <- D1 in Hes. destruct (IH s1 _ H1 Hes) as (s2 & E2 & H2). mstep E2.
  destruct (req_event e a) as [o a1]. simpl in *. destruct (req_events es a1) as [os a2]. by exists s2.
Qed.

(** ** Every request is served *)

Lemma finish_done bad drv b : Z.land (d_flags (finish bad drv b)) (Z.lor B_VALID B_DIRTY) = B_VALID.
Proof.
  unfold finish. cbn [d_flags d_set_flags]. apply Z.bits_inj'. intros n Hn.
  rewrite !Z.land_spec, Z.lor_spec, Z.lnot_spec by done.
  unfold B_VALID, B_DIRTY. change (Z.lor 2 4) with 6.
  destruct (decide (n = 1)) as [->|]; [by rewrite orb_true_r|]. destruct (decide (n = 2)) as [->|]; [by rewrite !andb_false_r|].
  assert (T6 : Z.testbit 6 n = false).
  { destruct (decide (n = 0)) as [->|]; [done|]. apply Z.bits_above_log2; [lia|]. change (Z.log2 6) with 2. lia. }
  assert (T2 : Z.testbit 2 n = false).
  { destruct (decide (n = 0)) as [->|]; [done|]. apply Z.bits_above_log2; [lia|]. change (Z.log2 2) with 1. lia. }
  by rewrite T6, T2, andb_false_r.
Qed.

Definition interrupts (os : list (bool * nat)) : list devent := (λ '(bad, busy), Interrupt bad busy) <$> os.

(** A request is served: once the disk has interrupted as often as there are
    requests up to it in the queue, whether the commands fail or not, its
    process has been woken, and finds its request done and returns. *)
Theorem ide_serves rounds l1 : ∀ os p l2 s a, ide_rel rounds s a → a_queue a = l1 ++ p :: l2 →
  length os = S (length l1) → Forall (λ o, (o.2 < rounds)%nat) os →
  ∃ s', ide_events rounds (interrupts os) s = Ok [] s' ∧ p ∈ id_woken s' ∧ iderw_resume p s' = Ok true s'.
Proof.
  induction l1 as [|x l1 IH]; intros [|[bad busy] os] p l2 s a H Hq Hl Ho; try done;
    apply Forall_cons in Ho as [Hb Ho]; injection Hl as Hl; cbn [interrupts fmap list_fmap ide_events ide_event];
    destruct (ideintr_ok rounds bad busy s a H Hb) as (s1 & E1 & H1 & W1 & _).
  - apply length_zero_iff_nil in Hl as ->. simpl in Hq. exists s1. split.
    { unfold mbind, M_bind. simpl. by rewrite E1. }
    rewrite W1, Hq. split; [apply elem_of_app; right; left|].
    destruct H as [R1 R2 R3 R4 R5 R6 R7 R8]. destruct (R5 p ltac:(rewrite Hq; left)) as (b & Hb1 & _).
    assert (Hlt : (p < length (a_bufs a))%nat) by (by eapply lookup_lt_Some).
    assert (Hs : a_bufs (serve bad a) = <[p := finish bad (a_drive a) b]> (a_bufs a)) by (unfold serve; by rewrite Hq, Hb1).
    rewrite (resume_ok rounds p s1 _ H1) by (by rewrite Hs, length_insert).
    unfold is_done. by rewrite Hs, list_lookup_insert_eq, finish_done.
  - destruct (serve_reqs bad rounds s a x (l1 ++ p :: l2) H Hq) as (Sq & _).
    destruct (IH os p l2 s1 _ H1 Sq Hl Ho) as (s2 & E2 & H2). exists s2. split; [|done].
    unfold interrupts in E2. unfold mbind, M_bind. simpl. rewrite E1. simpl. by rewrite E2.
Qed.

(** ** An example *)

Definition hw0 : hw := mkhw (λ _, replicate 10 [0; 0]) 0 0 0 0 0 Idle 3 false.
(** A dirty buffer of block 3 of drive 1, one that is to read it, and a third. *)
Definition ide0 : ide :=
  mkide false [mkdb true B_DIRTY 1 3 None [7; 8]; mkdb true 0 1 3 None [1; 1]; mkdb true 0 0 5 None [2; 2]]
    None true hw0 [].
Definition reqs0 : reqs := mkreqs [] (id_bufs ide0) (h_drive hw0).

Lemma ide0_rel : ide_rel 10 ide0 reqs0.
Proof. split; try reflexivity; [constructor|intros p Hp; by apply not_elem_of_nil in Hp|simpl; lia]. Qed.

Lemma may_request_0 p a b : a_bufs a !! p = Some b → d_held b = true → a_drive a = h_drive hw0 →
  0 ≤ d_blockno b < 10 → Z.land (d_flags b) (Z.lor B_VALID B_DIRTY) ≠ B_VALID → p ∉ a_queue a → may_request true p a.
Proof.
  intros Hb Hh Hd Hn Hw Hp. exists b. split_and!; [done|done| |done|by right].
  split; [unfold FSSIZE; lia| |done]. rewrite Hd. simpl. lia.
Qed.

Lemma may_request_first : may_request true 0 reqs0.
Proof. apply (may_request_0 0 _ (mkdb true B_DIRTY 1 3 None [7; 8])); try done. apply not_elem_of_nil. Qed.

Lemma may_request_second : may_request true 1 (request 0 reqs0).
Proof. apply (may_request_0 1 _ (mkdb true 0 1 3 None [1; 1])); try done. set_solver. Qed.

Lemma ide_refines_witness :
  let es := [Request 0; Request 1; Interrupt false 2; Resume 1; Interrupt false 9; Resume 1]%nat in
  ∃ s', ide_events 10 es ide0 = Ok [false; false; false; true] s' ∧
    (d_data <$> id_bufs s' !! 1%nat) = Some [7; 8] ∧ h_drive (id_hw s') true !! 3%nat = Some [7; 8].
Proof.
  intros es. destruct (ide_refines 10 es ide0 reqs0 ide0_rel) as (s' & E & H).
  - simpl. split_and!; try lia; try done.
    + exact may_request_first.
    + exact may_request_second.
  - exists s'. split; [exact E|]. destruct H as [_ HB _ _ _ HD _ _]. split.
    + apply (f_equal (λ l, d_data <$> l !! 1%nat)) in HB. rewrite list_lookup_fmap in HB.
      destruct (id_bufs s' !! 1%nat) as [b|]; [exact HB|discriminate HB].
    + rewrite HD. reflexivity.
Defined.

Lemma ide_events_two rounds e1 e2 s s1 s2 o1 o2 : ide_event rounds e1 s = Ok o1 s1 → ide_event rounds e2 s1 = Ok o2 s2 →
  ide_events rounds [e1; e2] s = Ok (o1 ++ o2) s2.
Proof.
  intros E1 E2. cbn [ide_events]. mstep E1. rewrite bind_assoc. mstep E2. unfold mbind, M_bind, mret, M_ret. by rewrite app_nil_r.
Qed.

(** The state after the first two requests of the example. *)
Lemma ide0_two : ∃ s, ide_events 10 [Request 0; Request 1]%nat ide0 = Ok [false; false] s ∧
  ide_rel 10 s (request 1 (request 0 reqs0)).
Proof.
  destruct (iderw_ok 10 0 ide0 reqs0 ide0_rel may_request_first) as (sa & Ea & Ha & _ & Da).
  destruct (iderw_ok 10 1 sa _ Ha) as (sb & Eb & Hb & _ & _); [rewrite Da; exact may_request_second|].
  exists sb. split; [|exact Hb].
  apply (ide_events_two 10 (Request 0) (Request 1) ide0 sa sb [false] [false]); cbn [ide_event]; [by mstep Ea|by mstep Eb].
Qed.

Lemma ide_serves_witness :
  ∃ s1 s2, ide_events 10 [Request 0; Request 1]%nat ide0 = Ok [false; false] s1 ∧
    ide_events 10 (interrupts [(false, 4); (true, 0)]%nat) s1 = Ok [] s2 ∧ iderw_resume 1 s2 = Ok true s2.
Proof.
  destruct ide0_two as (s1 & E1 & H1).
  destruct (ide_serves 10 [0%nat] [(false, 4%nat); (true, 0%nat)] 1 [] s1 _ H1 eq_refl eq_refl) as (s2 & E2 & _ & E3).
  { repeat constructor; simpl; lia. }
  exists s1, s2. split; [exact E1|split; [exact E2|exact E3]].
Defined.

(** A read that the disk fails is reported as done: the buffer is marked valid
    and keeps the bytes it had before, here those of another block. *)
Lemma ide_read_error :
  ∃ s', ide_events 10 [Request 1; Interrupt true 0; Resume 1]%nat ide0 = Ok [false; true] s' ∧
    (d_data <$> id_bufs s' !! 1%nat) = Some [1; 1] ∧ (d_flags <$> id_bufs s' !! 1%nat) = Some B_VALID.
Proof. eexists. split; [vm_compute; reflexivity|done]. Qed.

(** A write that the disk fails is lost, and the buffer is marked clean. *)
Lemma ide_write_error :
  ∃ s', ide_events 10 [Request 0; Interrupt true 0; Resume 0]%nat ide0 = Ok [false; true] s' ∧
    h_drive (id_hw s') true !! 3%nat = Some [0; 0] ∧ (d_flags <$> id_bufs s' !! 0%nat) = Some B_VALID.
Proof. eexists. split; [vm_compute; reflexivity|done]. Qed.
