(* ===== verification/Boot.v ===== *)
(** * The boot loader: bootmain.c

    [bootmain] reads an ELF file that starts at sector 1 of the disk and copies
    its segments to physical memory, by polling the disk of Ide.v through its
    ports.  Memory is a function from addresses to bytes.  The disk takes
    [delay n] reads of the status for sector [n], any number below [rounds].

    [readseg_ok]: the bytes of the file are where they were asked for, and memory
    outside the sectors that were copied is not touched.  [bootmain_loads]:
    every segment is in memory, followed by its zeros, and the entry point of
    the ELF header is called. *)

From S2P Require Import Prelude Params Phys Ide Exec.

Definition SECTSIZE : Z := 512.
Definition SCRATCH : Z := 0x10000.
Definition PROGHDRSZ : Z := 32.

Record boot : Type := mkboot { b_hw : hw; b_mem : mem }.
Definition b_set_hw h s := mkboot h (b_mem s).
Definition b_set_mem m s := mkboot (b_hw s) m.

Definition hw_set_busy (n : nat) (h : hw) : hw :=
  mkhw (h_drive h) (h_count h) (h_lba0 h) (h_lba1 h) (h_lba2 h) (h_sel h) (h_op h) n (h_err h).

Section loader.
Context (delay : Z → nat) (rounds : nat).
Notation M := (Prelude.M boot).

(** A write to a port; the disk is busy after the command to read. *)
Definition port_out (port v : Z) : M unit :=
  modify (λ s,
    let h := hw_outb port v (b_hw s) in
    b_set_hw (if port =? 0x1f7 then match h_op h with Reading _ n => hw_set_busy (delay n) h | _ => h end else h) s).

(** A read of the status: busy, or the command has ended. *)
Definition port_status : M Z :=
  s ← get;
  match h_busy (b_hw s) with
  | S k => modify (b_set_hw (hw_set_busy k (b_hw s)));; mret IDE_BSY
  | O =>
      modify (b_set_hw (match h_op (b_hw s) with Reading _ _ => hw_complete false 0 (b_hw s) | _ => b_hw s end));;
      mret IDE_DRDY
  end.

(** [insl(0x1F0, dst, SECTSIZE/4)]. *)
Definition port_insl (dst : Z) : M unit :=
  s ← get;
  match h_op (b_hw s) with
  | Ready d => modify (λ s, b_set_mem (store dst d (b_mem s)) (b_set_hw (hw_op Idle (b_hw s)) s))
  | _ => undef
  end.

Fixpoint waitdisk_loop (fuel : nat) : M unit :=
  match fuel with
  | O => no_fuel
  | S fuel' =>
      r ← port_status;
      if negb (Z.land r 0xC0 =? 0x40) then waitdisk_loop fuel' else mret tt
  end.
Definition waitdisk : M unit := waitdisk_loop rounds.

Definition readsect (dst offset : Z) : M unit :=
  waitdisk;;
  port_out 0x1F2 1;;
  port_out 0x1F3 offset;;
  port_out 0x1F4 (Z.shiftr offset 8);;
  port_out 0x1F5 (Z.shiftr offset 16);;
  port_out 0x1F6 (Z.lor (Z.shiftr offset 24) 0xE0);;
  port_out 0x1F7 0x20;;
  waitdisk;;
  port_insl dst.

Fixpoint readseg_loop (fuel : nat) (pa epa offset : Z) : M unit :=
  if negb (pa <? epa) then mret tt else
  match fuel with
  | O => no_fuel
  | S fuel' =>
      readsect pa offset;;
      readseg_loop fuel' (u32 (pa + SECTSIZE)) epa (u32 (offset + 1))
  end.

(** [count / SECTSIZE + 2] rounds are enough. *)
Definition readseg (pa count offset : Z) : M unit :=
  let epa := u32 (pa + count) in
  let pa := u32 (pa - offset mod SECTSIZE) in
  let offset := u32 (offset / SECTSIZE + 1) in
  readseg_loop (Z.to_nat (count / SECTSIZE + 2)) pa epa offset.

(** The loop over the program headers; [n] of them are left. *)
Fixpoint load_segments (n : nat) (ph : Z) : M unit :=
  match n with
  | O => mret tt
  | S n' =>
      m ← gets b_mem;
      let pa := load32 (ph + 12) m in
      readseg pa (load32 (ph + 16) m) (load32 (ph + 4) m);;
      m ← gets b_mem;
      (if load32 (ph + 16) m <? load32 (ph + 20) m then
         modify (λ s, b_set_mem (store (u32 (pa + load32 (ph + 16) m))
           (replicate (Z.to_nat (load32 (ph + 20) m - load32 (ph + 16) m)) 0) (b_mem s)) s)
       else mret tt);;
      load_segments n' (u32 (ph + PROGHDRSZ))
  end.

(** [bootmain] returns the entry point that it calls, or [None] when it returns. *)
Definition bootmain : M (option Z) :=
  readseg SCRATCH 4096 0;;
  m ← gets b_mem;
  if negb (load32 SCRATCH m =? ELF_MAGIC) then mret None else
  let ph := u32 (SCRATCH + load32 (SCRATCH + 28) m) in
  load_segments (Z.to_nat (load16 (SCRATCH + 44) m)) ph;;
  m ← gets b_mem;
  mret (Some (load32 (SCRATCH + 24) m)).
End loader.

(** ** One sector *)

Lemma sector_regs n : 0 ≤ n < 268435456 →
  let sel := u8 (Z.lor (Z.shiftr n 24) 0xE0) in
  Z.land (Z.shiftr sel 4) 1 = 0 ∧
  u8 n + 256 * u8 (Z.shiftr n 8) + 65536 * u8 (Z.shiftr n 16) + 16777216 * Z.land sel 0x0f = n.
Proof.
  intros Hn sel. assert (Hh : 0 ≤ Z.shiftr n 24 < 16) by (rewrite Z.shiftr_div_pow2 by lia; change (2 ^ 24) with 16777216; lia).
  assert (Hall : forallb (λ h, (Z.land (Z.shiftr (u8 (Z.lor h 0xE0)) 4) 1 =? 0) && (Z.land (u8 (Z.lor h 0xE0)) 0x0f =? h)) (seqZ 0 16) = true) by by vm_compute.
  rewrite forallb_forall in Hall. specialize (Hall (Z.shiftr n 24) ltac:(apply list_elem_of_In, elem_of_seqZ; lia)).
  apply andb_prop in Hall as [H1%Z.eqb_eq H2%Z.eqb_eq]. split; [exact H1|]. unfold sel. rewrite H2.
  rewrite !Z.shiftr_div_pow2 by lia. change (2 ^ 8) with 256. change (2 ^ 16) with 65536. change (2 ^ 24) with 16777216. unfold u8. lia.
Qed.

Section proofs.
Context (delay : Z → nat) (rounds : nat) (drive : list (list Z)).
Context (Hdelay : ∀ n, (delay n < rounds)%nat) (Hlen : Forall (λ d, length d = Z.to_nat SECTSIZE) drive).

(** The disk between two commands. *)
Definition idle (h : hw) : Prop := h_drive h false = drive ∧ h_op h = Idle ∧ (h_busy h < rounds)%nat.

Definition settled (h : hw) : hw := match h_op h with Reading _ _ => hw_complete false 0 h | _ => hw_set_busy 0 h end.

Lemma waitdisk_loop_ok fuel : ∀ h m, (h_busy h < fuel)%nat → waitdisk_loop fuel (mkboot h m) = Ok tt (mkboot (settled h) m).
Proof.
  induction fuel as [|fuel IH]; intros h m Hb; [lia|]. cbn [waitdisk_loop]. unfold port_status.
  destruct h as [dr cnt l0 l1 l2 sel op [|k] err].
  - unfold mbind, M_bind, get, modify. cbn [b_hw h_busy h_op mret M_ret]. change (negb (Z.land IDE_DRDY 0xC0 =? 0x40)) with false. cbv iota.
    by destruct op.
  - unfold mbind, M_bind, get, modify. cbn [b_hw h_busy h_op mret M_ret]. change (negb (Z.land IDE_BSY 0xC0 =? 0x40)) with true. cbv iota.
    unfold b_set_hw. cbn [b_mem hw_set_busy]. rewrite IH by (simpl in *; lia). by destruct op.
Qed.

(** A write to one of the registers, and the command. *)
Lemma port_reg port v h m : port ≠ 0x1f7 → port_out delay port v (mkboot h m) = Ok tt (mkboot (hw_outb port v h) m).
Proof. intros Hp. unfold port_out, modify, b_set_hw. cbn [b_hw b_mem]. by rewrite (proj2 (Z.eqb_neq port 0x1f7) Hp). Qed.

Lemma port_read h m : hw_sel h = 0 →
  port_out delay 0x1f7 0x20 (mkboot h m) = Ok tt (mkboot (hw_set_busy (delay (hw_lba h)) (hw_op (Reading 0 (hw_lba h)) h)) m).
Proof. intros Hs. unfold port_out, modify, b_set_hw. cbn [b_hw b_mem]. unfold hw_outb. cbn. by rewrite Hs. Qed.

Lemma readsect_ok h m dst n d : idle h → drive !! Z.to_nat n = Some d → 0 ≤ n < 268435456 →
  ∃ h', readsect delay rounds dst n (mkboot h m) = Ok tt (mkboot h' (store dst d m)) ∧ idle h'.
Proof.
  intros (Hd & Ho & Hb) Hn Hr. destruct (sector_regs n Hr) as [Hsel Hlba]. unfold readsect.
  mstep (waitdisk_loop_ok rounds h m Hb : waitdisk rounds _ = _). 
  rewrite (bind_ok _ _ _ _ _ (port_reg 0x1F2 1 (settled h) m ltac:(lia))), (bind_ok _ _ _ _ _ (port_reg 0x1F3 n _ m ltac:(lia))),
    (bind_ok _ _ _ _ _ (port_reg 0x1F4 (Z.shiftr n 8) _ m ltac:(lia))), (bind_ok _ _ _ _ _ (port_reg 0x1F5 (Z.shiftr n 16) _ m ltac:(lia))),
    (bind_ok _ _ _ _ _ (port_reg 0x1F6 (Z.lor (Z.shiftr n 24) 0xE0) _ m ltac:(lia))).
  set (h1 := hw_outb 0x1F6 _ _).
  assert (E1 : h1 = mkhw (h_drive h) (u8 1) (u8 n) (u8 (Z.shiftr n 8)) (u8 (Z.shiftr n 16)) (u8 (Z.lor (Z.shiftr n 24) 0xE0)) Idle 0 (h_err h)).
  { unfold h1, settled. clear -Ho. destruct h. simpl in Ho. subst. reflexivity. }
  assert (E2 : hw_lba h1 = n ∧ hw_sel h1 = 0) by (rewrite E1; unfold hw_lba, hw_sel; cbn [h_lba0 h_lba1 h_lba2 h_sel]; split; [exact Hlba|exact Hsel]).
  destruct E2 as [E2 E3]. rewrite (bind_ok _ _ _ _ _ (port_read h1 m E3)), E2.
  set (h2 := hw_set_busy _ _). mstep (waitdisk_loop_ok rounds h2 m (Hdelay n) : waitdisk rounds _ = _).
  exists (hw_op Idle (settled h2)).
  assert (E4 : settled h2 = hw_op (Ready d) (hw_set_busy 0 (mkhw (h_drive h) (u8 1) (u8 n) (u8 (Z.shiftr n 8)) (u8 (Z.shiftr n 16)) (u8 (Z.lor (Z.shiftr n 24) 0xE0)) Idle 0 false))).
  { unfold h2. rewrite E1. unfold settled, hw_complete, hw_set_busy, hw_op. cbn [h_op h_drive]. change (0 =? 1) with false. by rewrite Hd, Hn. }
  rewrite E4. split; [reflexivity|]. split_and!; [exact Hd|done|]. simpl. pose proof (Hdelay 0). lia.
Qed.

(** ** Many sectors *)

(** Byte [y] of the disk from sector [n] on. *)
Definition sbyte (n y : Z) : Z :=
  default 0 (default [] (drive !! Z.to_nat (n + y / SECTSIZE)) !! Z.to_nat (y mod SECTSIZE)).

(** Byte [x] of the kernel file, which starts at sector 1. *)
Definition kbyte (x : Z) : Z := sbyte 1 x.

Definition nsect (pa epa : Z) : Z := Z.max 0 ((epa - pa + 511) / 512).

Lemma sbyte_next n y : 0 ≤ y → sbyte (n + 1) y = sbyte n (y + 512).
Proof.
  intros Hy. unfold sbyte, SECTSIZE. replace (n + 1 + y / 512) with (n + (y + 512) / 512) by lia.
  by replace ((y + 512) mod 512) with (y mod 512) by lia.
Qed.

Lemma readseg_loop_ok fuel : ∀ h m pa epa n, idle h → 0 ≤ pa → epa + 512 ≤ 4294967296 → 0 ≤ n →
  nsect pa epa ≤ Z.of_nat fuel → n + nsect pa epa ≤ Z.of_nat (length drive) ≤ 268435456 →
  ∃ h' m', readseg_loop delay rounds fuel pa epa n (mkboot h m) = Ok tt (mkboot h' m') ∧ idle h' ∧
    ∀ x, m' x = if decide (pa ≤ x < pa + 512 * nsect pa epa) then sbyte n (x - pa) else m x.
Proof.
  induction fuel as [|fuel IH]; intros h m pa epa n Hi Hp He Hn Hf Hd; cbn [readseg_loop].
  - destruct (Z.ltb_spec pa epa); [unfold nsect in Hf; lia|]. cbn [negb]. exists h, m. split_and!; [done|done|].
    intros x. rewrite decide_False; [done|]. unfold nsect. lia.
  - destruct (Z.ltb_spec pa epa); cbn [negb].
    + assert (Hns : nsect pa epa = 1 + nsect (pa + 512) epa) by (unfold nsect; lia).
      assert (Hns0 : 0 ≤ nsect (pa + 512) epa) by (unfold nsect; lia).
      destruct (lookup_lt_is_Some_2 drive (Z.to_nat n)) as [d Hdn]; [lia|].
      destruct (readsect_ok h m pa n d Hi Hdn) as (h1 & E1 & Hi1); [lia|]. mstep E1.
      rewrite !u32_small by (unfold SECTSIZE; lia). unfold SECTSIZE.
      destruct (IH h1 (store pa d m) (pa + 512) epa (n + 1) Hi1) as (h2 & m2 & E2 & Hi2 & Hm2); try lia.
      exists h2, m2. split_and!; [exact E2|done|]. intros x. rewrite Hm2.
      pose proof (Forall_lookup_1 _ _ _ _ Hlen Hdn) as Hld. cbn beta in Hld. change (Z.to_nat SECTSIZE) with 512%nat in Hld.
      destruct (decide (pa + 512 ≤ x < pa + 512 + 512 * nsect (pa + 512) epa)).
      * rewrite decide_True by lia. rewrite sbyte_next by lia. f_equal. lia.
      * destruct (decide (pa ≤ x < pa + 512 * nsect pa epa)).
        -- rewrite store_at by lia. unfold sbyte, SECTSIZE. rewrite Z.div_small, Z.mod_small, Z.add_0_r by lia. by rewrite Hdn.
        -- apply store_out. lia.
    + exists h, m. split_and!; [done|done|]. intros x. rewrite decide_False; [done|]. unfold nsect. lia.
Qed.

(** The first address after the last sector that [readseg] reads. *)
Definition seg_end (pa count offset : Z) : Z := pa - offset mod 512 + 512 * nsect (pa - offset mod 512) (pa + count).

Lemma seg_end_range pa count offset : 0 ≤ count → 0 ≤ offset → pa + count ≤ seg_end pa count offset < pa + count + 512.
Proof. intros Hc Ho. unfold seg_end, nsect. lia. Qed.

Lemma readseg_ok h m pa count offset : idle h → 0 ≤ offset → 0 ≤ count → offset mod 512 ≤ pa → pa + count + 512 ≤ 4294967296 →
  (offset + count + 511) / 512 + 1 ≤ Z.of_nat (length drive) ≤ 268435456 →
  ∃ h' m', readseg delay rounds pa count offset (mkboot h m) = Ok tt (mkboot h' m') ∧ idle h' ∧
    (∀ k, 0 ≤ k < count → m' (pa + k) = kbyte (offset + k)) ∧
    (∀ x, x < pa - offset mod 512 ∨ seg_end pa count offset ≤ x → m' x = m x).
Proof.
  intros Hi Ho Hc Hp He Hd. unfold readseg, SECTSIZE. rewrite !u32_small by lia.
  destruct (readseg_loop_ok (Z.to_nat (count / 512 + 2)) h m (pa - offset mod 512) (pa + count) (offset / 512 + 1) Hi)
    as (h' & m' & E & Hi' & Hm); try (unfold nsect; lia).
  pose proof (seg_end_range pa count offset Hc Ho) as Hse. exists h', m'. split_and!; [exact E|done| |].
  - intros k Hk. rewrite Hm, decide_True by (unfold seg_end in Hse; lia). unfold kbyte, sbyte, SECTSIZE.
    replace (pa + k - (pa - offset mod 512)) with (offset mod 512 + k) by lia.
    replace (offset / 512 + 1 + (offset mod 512 + k) / 512) with (1 + (offset + k) / 512) by lia.
    by replace ((offset mod 512 + k) mod 512) with ((offset + k) mod 512) by lia.
  - intros x Hx. rewrite Hm, decide_False; [done|]. unfold seg_end in *. lia.
Qed.

(** ** The kernel file *)

Definition kfield (n : nat) (x : Z) : Z := le_val ((λ k, kbyte (x + Z.of_nat k)) <$> seq 0 n).

Record seg : Type := mkseg { sg_paddr : Z; sg_off : Z; sg_filesz : Z; sg_memsz : Z }.

Definition phoff : Z := kfield 4 28.
Definition phnum : Z := kfield 2 44.
Definition segment (k : nat) : seg :=
  let ph := phoff + PROGHDRSZ * Z.of_nat k in
  mkseg (kfield 4 (ph + 12)) (kfield 4 (ph + 4)) (kfield 4 (ph + 16)) (kfield 4 (ph + 20)).

(** The memory that loading a segment touches. *)
Definition sg_lo (s : seg) : Z := sg_paddr s - sg_off s mod 512.
Definition sg_hi (s : seg) : Z := Z.max (seg_end (sg_paddr s) (sg_filesz s) (sg_off s)) (sg_paddr s + sg_memsz s).

(** A file that the loader can load: the program headers are in its first page,
    its segments are on the disk, fit in the memory, do not touch the page with
    the headers, and come in increasing order. *)
Record loadable : Prop := {
  ld_magic : kfield 4 0 = ELF_MAGIC;
  ld_first : 9 ≤ Z.of_nat (length drive) ≤ 268435456;
  ld_heads : phoff + PROGHDRSZ * phnum ≤ 4096;
  ld_seg : ∀ k, Z.of_nat k < phnum → let s := segment k in
    0 ≤ sg_lo s ∧ sg_hi s ≤ 4294966784 ∧ sg_filesz s ≤ sg_memsz s ∧
    (sg_off s + sg_filesz s + 511) / 512 + 1 ≤ Z.of_nat (length drive) ∧
    (sg_hi s ≤ SCRATCH ∨ SCRATCH + 4096 ≤ sg_lo s);
  ld_order : ∀ j k, (j < k)%nat → Z.of_nat k < phnum → sg_paddr (segment j) + sg_memsz (segment j) ≤ sg_lo (segment k) }.

(** The segment is in memory. *)
Definition in_memory (m : mem) (s : seg) : Prop :=
  (∀ x, 0 ≤ x < sg_filesz s → m (sg_paddr s + x) = kbyte (sg_off s + x)) ∧
  (∀ x, sg_filesz s ≤ x < sg_memsz s → m (sg_paddr s + x) = 0).

Definition head (m : mem) : Prop := ∀ x, 0 ≤ x < 4096 → m (SCRATCH + x) = kbyte x.

Context (Hbytes : Forall bytes drive).

Lemma kfield_range n x : 0 ≤ kfield n x < 256 ^ Z.of_nat n.
Proof.
  assert (Hk : ∀ y, is_byte (kbyte y)).
  { intros y. unfold kbyte, sbyte. set (d := default [] (drive !! _)).
    assert (Hd : bytes d) by (unfold d; destruct (drive !! _) as [d'|] eqn:Ed; [exact (Forall_lookup_1 _ _ _ _ Hbytes Ed)|constructor]).
    destruct (d !! _) as [b|] eqn:Eb; simpl; [exact (Forall_lookup_1 _ _ _ _ Hd Eb)|unfold is_byte; lia]. }
  pose proof (le_val_bound ((λ k, kbyte (x + Z.of_nat k)) <$> seq 0 n)) as Hb. rewrite length_fmap, length_seq in Hb.
  apply Hb. apply Forall_fmap, Forall_forall. intros k _. apply Hk.
Qed.

Lemma load_head m x n : head m → 0 ≤ x → x + Z.of_nat n ≤ 4096 → le_val (load (SCRATCH + x) n m) = kfield n x.
Proof.
  intros Hm Hx Hn. unfold load, kfield. f_equal. apply list_fmap_ext. intros k y Hy. apply lookup_seq in Hy as [-> Hk].
  rewrite <- Z.add_assoc. apply Hm. lia.
Qed.

(** The fields of the program header [k], as they are read from memory. *)
Lemma load_field m k o : loadable → head m → Z.of_nat k < phnum → 0 ≤ o ≤ 28 →
  load32 (SCRATCH + phoff + PROGHDRSZ * Z.of_nat k + o) m = kfield 4 (phoff + PROGHDRSZ * Z.of_nat k + o).
Proof.
  intros L Hm Hk Ho. unfold load32. rewrite <- !Z.add_assoc. pose proof (kfield_range 4 28). pose proof (ld_heads L). unfold PROGHDRSZ, phoff in *.
  apply load_head; [done|lia|lia].
Qed.

(** What changes only from [lo] to [hi]. *)
Definition outside (lo hi : Z) (m m' : mem) : Prop := ∀ x, x < lo ∨ hi ≤ x → m' x = m x.

Lemma outside_head lo hi m m' : outside lo hi m m' → hi ≤ SCRATCH ∨ SCRATCH + 4096 ≤ lo → head m → head m'.
Proof. intros Ho Hd Hm x Hx. rewrite Ho by lia. by apply Hm. Qed.

Lemma outside_segment m m' k : loadable → Z.of_nat k < phnum → outside (sg_lo (segment k)) (sg_hi (segment k)) m m' →
  (∀ j, (j < k)%nat → in_memory m (segment j)) → ∀ j, (j < k)%nat → in_memory m' (segment j).
Proof.
  intros L Hk Ho Hm j Hj. destruct (Hm j Hj) as [H1 H2]. pose proof (ld_order L j k Hj Hk).
  destruct (ld_seg L j ltac:(lia)) as (_ & _ & Hsz & _). split; intros x Hx; (rewrite Ho by lia); [by apply H1|by apply H2].
Qed.

(** The zeros after the bytes of the file. *)
Definition zeroed (s : seg) (m : mem) : mem :=
  if sg_filesz s <? sg_memsz s then store (sg_paddr s + sg_filesz s) (replicate (Z.to_nat (sg_memsz s - sg_filesz s)) 0) m else m.

Lemma zeroed_out s m x : x < sg_paddr s + sg_filesz s ∨ sg_paddr s + sg_memsz s ≤ x → zeroed s m x = m x.
Proof.
  intros Hx. unfold zeroed. destruct (Z.ltb_spec (sg_filesz s) (sg_memsz s)); [|done]. apply store_out. rewrite length_replicate. lia.
Qed.

Lemma zeroed_in s m x : sg_filesz s ≤ x < sg_memsz s → zeroed s m (sg_paddr s + x) = 0.
Proof.
  intros Hx. unfold zeroed. destruct (Z.ltb_spec (sg_filesz s) (sg_memsz s)); [|lia]. rewrite store_at by (rewrite length_replicate; lia).
  by rewrite lookup_replicate_2 by lia.
Qed.

(** One segment. *)
Lemma load_one h m k : loadable → idle h → head m → Z.of_nat k < phnum → (∀ j, (j < k)%nat → in_memory m (segment j)) →
  let ph := SCRATCH + phoff + PROGHDRSZ * Z.of_nat k in
  ∃ h' m', (∀ rest : Prelude.M boot unit, (m ← gets b_mem;
      let pa := load32 (ph + 12) m in
      readseg delay rounds pa (load32 (ph + 16) m) (load32 (ph + 4) m);;
      m ← gets b_mem;
      (if load32 (ph + 16) m <? load32 (ph + 20) m then
         modify (λ s, b_set_mem (store (u32 (pa + load32 (ph + 16) m))
           (replicate (Z.to_nat (load32 (ph + 20) m - load32 (ph + 16) m)) 0) (b_mem s)) s)
       else mret tt);;
      rest) (mkboot h m) = rest (mkboot h' m')) ∧ idle h' ∧ head m' ∧ ∀ j, (j < S k)%nat → in_memory m' (segment j).
Proof.
  intros L Hi Hm Hk Hall ph. set (s := segment k). destruct (ld_seg L k Hk) as (S1 & S2 & S3 & S4 & S5). fold s in S1, S2, S3, S4, S5.
  assert (Ef : ∀ m, head m → load32 (ph + 12) m = sg_paddr s ∧ load32 (ph + 16) m = sg_filesz s ∧ load32 (ph + 4) m = sg_off s ∧ load32 (ph + 20) m = sg_memsz s).
  { intros m0 H0. unfold ph. rewrite !load_field by (done || lia). done. }
  assert (Hr : 0 ≤ sg_filesz s ∧ 0 ≤ sg_off s) by (split; apply kfield_range). destruct Hr as [Hr1 Hr2].
  pose proof (seg_end_range (sg_paddr s) (sg_filesz s) (sg_off s) Hr1 Hr2) as Hse. unfold sg_hi, sg_lo in *.
  destruct (readseg_ok h m (sg_paddr s) (sg_filesz s) (sg_off s) Hi Hr2 Hr1) as (h1 & m1 & E1 & Hi1 & H1 & H2); [lia|lia|pose proof (ld_first L); lia|].
  assert (Hm1 : head m1) by (eapply outside_head; [exact H2|lia|done]).
  exists h1, (zeroed s m1). assert (Ho : outside (sg_lo s) (sg_hi s) m (zeroed s m1)).
  { intros x Hx. unfold sg_lo, sg_hi in Hx. rewrite zeroed_out by lia. apply H2. lia. }
  split_and!.
  - intros rest. rewrite bind_gets. cbv zeta. cbn [b_mem]. destruct (Ef m Hm) as (-> & -> & -> & _). mstep E1. rewrite bind_gets. cbn [b_mem].
    destruct (Ef m1 Hm1) as (_ & -> & _ & ->). unfold zeroed. rewrite u32_small by lia. by destruct (sg_filesz s <? sg_memsz s).
  - done.
  - eapply outside_head; [exact Ho|unfold sg_lo, sg_hi; lia|done].
  - intros j Hj. destruct (decide (j = k)) as [->|Hne]; [|eapply outside_segment; try done; lia]. fold s. split; intros x Hx.
    + rewrite zeroed_out by lia. by apply H1.
    + by apply zeroed_in.
Qed.

Lemma load_segments_ok n : ∀ h m k, loadable → idle h → head m → Z.of_nat k + Z.of_nat n = phnum →
  (∀ j, (j < k)%nat → in_memory m (segment j)) →
  ∃ h' m', load_segments delay rounds n (SCRATCH + phoff + PROGHDRSZ * Z.of_nat k) (mkboot h m) = Ok tt (mkboot h' m') ∧ idle h' ∧ head m' ∧
    ∀ j, Z.of_nat j < phnum → in_memory m' (segment j).
Proof.
  induction n as [|n IH]; intros h m k L Hi Hm Hk Hall.
  - exists h, m. split_and!; [done|done|done|]. intros j Hj. apply Hall. lia.
  - destruct (load_one h m k L Hi Hm ltac:(lia) Hall) as (h1 & m1 & E1 & Hi1 & Hm1 & Hall1).
    destruct (IH h1 m1 (S k) L Hi1 Hm1 ltac:(lia) Hall1) as (h2 & m2 & E2 & Hi2 & Hm2 & Hall2). exists h2, m2. split_and!; try done.
    cbn [load_segments]. rewrite E1, <- E2. f_equal. pose proof (ld_heads L). pose proof (kfield_range 4 28). unfold phoff, SCRATCH, PROGHDRSZ in *.
    rewrite u32_small by lia. lia.
Qed.

(** C22: the boot loader loads the kernel: from a disk with a loadable ELF file
    from sector 1 on, however long the disk takes for a sector, [bootmain]
    jumps to the entry point of the header, with the bytes of every segment at
    its physical address and zeros from there to its size in memory. *)
Theorem bootmain_loads h m : loadable → idle h →
  ∃ h' m', bootmain delay rounds (mkboot h m) = Ok (Some (kfield 4 24)) (mkboot h' m') ∧
    ∀ k, Z.of_nat k < phnum → in_memory m' (segment k).
Proof.
  intros L Hi. pose proof (ld_first L). unfold bootmain.
  destruct (readseg_ok h m SCRATCH 4096 0 Hi) as (h1 & m1 & E1 & Hi1 & H1 & _); try (unfold SCRATCH; lia); try done.
  mstep E1. rewrite bind_gets. cbn [b_mem].
  assert (Hm1 : head m1) by (intros x Hx; by apply H1).
  assert (E0 : load32 SCRATCH m1 = ELF_MAGIC) by (rewrite <- (ld_magic L), <- (Z.add_0_r SCRATCH); by apply load_head).
  rewrite E0. cbn [negb]. rewrite Z.eqb_refl. cbn [negb].
  assert (Ep : load32 (SCRATCH + 28) m1 = phoff) by (by apply load_head).
  assert (En : load16 (SCRATCH + 44) m1 = phnum) by (by apply load_head).
  rewrite Ep, En. pose proof (kfield_range 4 28) as Hp. pose proof (kfield_range 2 44) as Hn. fold phoff in Hp. fold phnum in Hn.
  pose proof (ld_heads L) as Hh. unfold PROGHDRSZ in Hh. rewrite u32_small by (unfold SCRATCH; lia).
  destruct (load_segments_ok (Z.to_nat phnum) h1 m1 0 L Hi1 Hm1) as (h2 & m2 & E2 & Hi2 & Hm2 & Hall); [lia|lia|].
  rewrite Z.mul_0_r, Z.add_0_r in E2. mstep E2. rewrite bind_gets. cbn [b_mem]. exists h2, m2. split; [|done].
  unfold mret, M_ret. do 2 f_equal. by apply load_head.
Qed.
End proofs.

(** ** A small kernel *)

Definition sector0 : list Z := replicate 512 0.

(** The header with one program header, for three bytes at 1030 in the file, which
    are to go to 0x100006 with two zeros after them. *)
Definition elf1 : list Z :=
  splice 0 (le_bytes 4 ELF_MAGIC) (splice 24 (le_bytes 4 0x10000c) (splice 28 (le_bytes 4 52) (splice 44 (le_bytes 2 1)
    (splice 52 (le_bytes 4 1 ++ le_bytes 4 1030 ++ le_bytes 4 0 ++ le_bytes 4 0x100006 ++ le_bytes 4 3 ++ le_bytes 4 5) sector0)))).
Definition drive1 : list (list Z) := [sector0; elf1; sector0; splice 6 [7; 8; 9] sector0] ++ replicate 6 sector0.
Definition hw1 : hw := mkhw (λ b, if b then [] else drive1) 0 0 0 0 0 Idle 2 false.

Lemma loadable1 : loadable drive1.
Proof.
  assert (E1 : phnum drive1 = 1) by by vm_compute.
  assert (E2 : segment drive1 0 = mkseg 0x100006 1030 3 5) by by vm_compute.
  assert (E3 : phoff drive1 = 52) by by vm_compute. assert (E4 : Z.of_nat (length drive1) = 10) by by vm_compute. split.
  - by vm_compute.
  - rewrite E4. lia.
  - rewrite E1, E3. unfold PROGHDRSZ. lia.
  - intros k Hk. rewrite E1 in Hk. assert (k = 0%nat) as -> by lia. rewrite E2, E4. unfold sg_lo, sg_hi, seg_end, nsect, SCRATCH.
    cbn [sg_paddr sg_off sg_filesz sg_memsz]. lia.
  - intros j k Hj Hk. rewrite E1 in Hk. lia.
Qed.

Lemma bootmain_loads_witness :
  ∃ h' m', bootmain (λ _, 3%nat) 10 (mkboot hw1 (λ _, 255)) = Ok (Some 0x10000c) (mkboot h' m') ∧
    load 0x100006 5 m' = [7; 8; 9; 0; 0].
Proof.
  destruct (bootmain_loads (λ _, 3%nat) 10 drive1) with (h := hw1) (m := (λ _ : Z, 255)) as (h' & m' & E & Hall).
  - intros _. lia.
  - assert (H : forallb (λ d, (length d =? 512)%nat) drive1 = true) by by vm_compute. apply Forall_forall. intros d Hd.
    rewrite forallb_forall in H. apply Nat.eqb_eq, H. by apply list_elem_of_In.
  - assert (H : forallb (forallb (λ b, (0 <=? b) && (b <? 256))) drive1 = true) by by vm_compute. apply Forall_forall. intros d Hd.
    rewrite forallb_forall in H. apply list_elem_of_In in Hd. specialize (H _ Hd). rewrite forallb_forall in H.
    apply Forall_forall. intros b Hb. apply list_elem_of_In in Hb. specialize (H _ Hb). unfold is_byte. lia.
  - apply loadable1.
  - split; [done|]. split; [done|]. simpl. lia.
  - exists h', m'. split; [rewrite E; do 2 f_equal; by vm_compute|].
    destruct (Hall 0%nat) as [H1 H2]; [by vm_compute|]. assert (E2 : segment drive1 0 = mkseg 0x100006 1030 3 5) by by vm_compute.
    rewrite E2 in H1, H2. cbn [sg_paddr sg_off sg_filesz sg_memsz] in H1, H2. unfold load. cbn [seq fmap list_fmap].
    change (Z.of_nat 0) with 0. change (Z.of_nat 1) with 1. change (Z.of_nat 2) with 2. change (Z.of_nat 3) with 3. change (Z.of_nat 4) with 4.
    rewrite (H1 0), (H1 1), (H1 2), (H2 3), (H2 4) by lia. by vm_compute.
Defined.
