(* ===== verification/Mp.v ===== *)
(** * Finding the processors: mp.c

    The BIOS leaves a table of the processors and the I/O APIC in memory.
    [mpsearch] finds the structure that points to it, [mpconfig] checks the table
    and [mpinit] goes through its entries.  The memory is a parameter; the
    state is what mp.c sets: the processors, the APIC numbers, the address of
    the local APIC, and the ports that were written.

    [mpsearch1_first]: the search finds the first structure with the signature
    and a checksum of 0; [floating] puts it in the places of the specification, which
    [mpsearch] looks through in order.  [mpinit_correct]: of a table that is made of
    entries, the first NCPU processors are taken, and the last I/O APIC.
    [mpinit_hangs]: an entry of an unknown type is never passed. *)

From S2P Require Import Prelude Params Strings Phys.

Definition MPSZ : Z := 16.
Definition MPCONFSZ : Z := 44.
Definition MPPROCSZ : Z := 20.
Definition MPIOAPICSZ : Z := 8.
Definition MPPROC : Z := 0.
Definition MPBUS : Z := 1.
Definition MPIOAPIC : Z := 2.
Definition MPIOINTR : Z := 3.
Definition MPLINTR : Z := 4.

Definition SIG_MP : list Z := [95; 77; 80; 95].
Definition SIG_PCMP : list Z := [80; 67; 77; 80].

Record mps : Type := mkmps {
  mp_apicids : list Z;            (* cpus[i].apicid *)
  mp_ncpu : Z;
  mp_ioapicid : Z;
  mp_lapic : Z;
  mp_out : list (Z * Z) }.
Definition mp_add (id : Z) (s : mps) : mps :=
  mkmps (<[Z.to_nat (mp_ncpu s) := id]> (mp_apicids s)) (mp_ncpu s + 1) (mp_ioapicid s) (mp_lapic s) (mp_out s).
Definition mp_set_ioapic (id : Z) (s : mps) : mps := mkmps (mp_apicids s) (mp_ncpu s) id (mp_lapic s) (mp_out s).
Definition mp_set_lapic (a : Z) (s : mps) : mps := mkmps (mp_apicids s) (mp_ncpu s) (mp_ioapicid s) a (mp_out s).
Definition mp_outb (port v : Z) (s : mps) : mps := mkmps (mp_apicids s) (mp_ncpu s) (mp_ioapicid s) (mp_lapic s) (mp_out s ++ [(port, v)]).

Definition sum (l : list Z) : Z := u8 (foldr Z.add 0 l).

Section mp.
(** The memory, by physical address, and what port 0x23 reads. *)
Context (m : mem) (imcr : Z).
Notation M := (Prelude.M mps).

Definition is_mp (p : Z) : bool := bool_decide (load p 4 m = SIG_MP) && (sum (load p (Z.to_nat MPSZ) m) =? 0).

(** The search of [mpsearch1]; each round passes 16 bytes. *)
Fixpoint mpsearch1_loop (fuel : nat) (p e : Z) : option Z :=
  match fuel with
  | O => None
  | S fuel' => if p <? e then if is_mp p then Some p else mpsearch1_loop fuel' (p + MPSZ) e else None
  end.
Definition mpsearch1 (a len : Z) : option Z := mpsearch1_loop (Z.to_nat (len / MPSZ + 2)) a (a + len).

Definition mpsearch : M (option Z) :=
  let bda := 0x400 in
  let p := Z.shiftl (Z.lor (Z.shiftl (m (bda + 0x0F)) 8) (m (bda + 0x0E))) 4 in
  r ← (if negb (p =? 0) then mret (mpsearch1 p 1024)
       else
         let p := Z.lor (Z.shiftl (m (bda + 0x14)) 8) (m (bda + 0x13)) * 1024 in
         (* P2V of an address below 0 is not an address of the kernel *)
         if p - 1024 <? 0 then undef else mret (mpsearch1 (p - 1024) 1024));
  match r with
  | Some mp => mret (Some mp)
  | None => mret (mpsearch1 0xF0000 0x10000)
  end.

(** [mpconfig] returns the table and the structure that leads to it. *)
Definition mpconfig : M (option (Z * Z)) :=
  r ← mpsearch;
  match r with
  | None => mret None
  | Some mp =>
      let conf := load32 (mp + 4) m in
      if conf =? 0 then mret None else
      if negb (bool_decide (load conf 4 m = SIG_PCMP)) then mret None else
      if negb (m (conf + 6) =? 1) && negb (m (conf + 6) =? 4) then mret None else
      if negb (sum (load conf (Z.to_nat (load16 (conf + 4) m)) m) =? 0) then mret None else
      mret (Some (conf, mp))
  end.

(** The loop of [mpinit]; the result is [ismp]. *)
Fixpoint mpinit_loop (fuel : nat) (p e ismp : Z) : M Z :=
  if negb (p <? e) then mret ismp else
  match fuel with
  | O => no_fuel
  | S fuel' =>
      let type := m p in
      if type =? MPPROC then
        s ← get;
        (if mp_ncpu s <? NCPU then modify (mp_add (m (p + 1))) else mret tt);;
        mpinit_loop fuel' (p + MPPROCSZ) e ismp
      else if type =? MPIOAPIC then
        modify (mp_set_ioapic (m (p + 1)));;
        mpinit_loop fuel' (p + MPIOAPICSZ) e ismp
      else if (type =? MPBUS) || (type =? MPIOINTR) || (type =? MPLINTR) then
        mpinit_loop fuel' (p + 8) e ismp
      else
        (* break leaves the switch, not the loop *)
        mpinit_loop fuel' p e 0
  end.

Definition mpinit (fuel : nat) : M unit :=
  r ← mpconfig;
  match r with
  | None => panic "Expect to run on an SMP"
  | Some (conf, mp) =>
      modify (mp_set_lapic (load32 (conf + 36) m));;
      ismp ← mpinit_loop fuel (conf + MPCONFSZ) (conf + load16 (conf + 4) m) 1;
      if ismp =? 0 then panic "Didn't find a suitable machine" else
      if negb (m (mp + 12) =? 0) then
        modify (mp_outb 0x22 0x70);;
        modify (mp_outb 0x23 (Z.lor imcr 1))
      else mret tt
  end.
End mp.

(** ** The search *)

(** [n] places, 16 bytes apart. *)
Fixpoint places (a : Z) (n : nat) : list Z :=
  match n with O => [] | S n' => a :: places (a + 16) n' end.

(** A floating pointer structure: the signature, and bytes that add up to 0. *)
Definition valid_mp (m : mem) (p : Z) : Prop := load p 4 m = SIG_MP ∧ foldr Z.add 0 (load p 16 m) mod 256 = 0.
#[export] Instance valid_mp_dec m p : Decision (valid_mp m p).
Proof. unfold valid_mp. apply _. Defined.

(** Where the specification puts it: in the first kilobyte of the extended BIOS data
    area or, without one, in the last kilobyte of the base memory; then in the ROM. *)
Definition EBDA (m : mem) : Z := 16 * (256 * m 0x40f + m 0x40e).
Definition BASEMEM (m : mem) : Z := 1024 * (256 * m 0x414 + m 0x413).
Definition mp_places (m : mem) : list Z :=
  (if EBDA m =? 0 then places (BASEMEM m - 1024) 64 else places (EBDA m) 64) ++ places 0xF0000 4096.

(** The structure that [mp] points to is the first one of those places. *)
Record floating (m : mem) (mp : Z) : Prop := {
  fl_bytes : ∀ a, 0 ≤ m a < 256;
  fl_base : EBDA m = 0 → 1024 ≤ BASEMEM m;
  fl_first : head (filter (valid_mp m) (mp_places m)) = Some mp }.

Section search.
Context (m : mem).

Lemma is_mp_valid p : is_mp m p = bool_decide (valid_mp m p).
Proof.
  unfold is_mp, sum, u8. change (Z.to_nat MPSZ) with 16%nat. symmetry.
  destruct (Z.eqb_spec (foldr Z.add 0 (load p 16 m) mod 256) 0), (bool_decide_reflect (load p 4 m = SIG_MP)); simpl;
    (apply bool_decide_true; by split) || (apply bool_decide_false; by intros []).
Qed.

Lemma mpsearch1_loop_first n : ∀ fuel a, (n < fuel)%nat →
  mpsearch1_loop m fuel a (a + 16 * Z.of_nat n) = head (filter (valid_mp m) (places a n)).
Proof.
  induction n as [|n IH]; intros [|fuel] a Hf; try lia; cbn [mpsearch1_loop places].
  - by rewrite (proj2 (Z.ltb_ge _ _)) by lia.
  - rewrite (proj2 (Z.ltb_lt _ _)) by lia. rewrite is_mp_valid, filter_cons. unfold MPSZ.
    destruct (bool_decide_reflect (valid_mp m a)) as [Hv|Hv]; [by rewrite decide_True|rewrite decide_False by done].
    rewrite <- (IH fuel (a + 16)) by lia. f_equal. lia.
Qed.

(** [mpsearch1] returns the first of the places 16 bytes apart where there is a
    structure, and nothing only when there is none. *)
Lemma mpsearch1_first a n : mpsearch1 m a (16 * Z.of_nat n) = head (filter (valid_mp m) (places a n)).
Proof. apply mpsearch1_loop_first. unfold MPSZ. rewrite Z.mul_comm, Z.div_mul; lia. Qed.

Lemma shift_lor h l : 0 ≤ h → 0 ≤ l < 256 → Z.lor (Z.shiftl h 8) l = 256 * h + l.
Proof.
  intros Hh Hl. rewrite <- Z.lxor_lor, <- Z.add_nocarry_lxor, Z.shiftl_mul_pow2; [lia|lia|..];
    apply Z.bits_inj'; intros n Hn; rewrite Z.land_spec, Z.bits_0; destruct (decide (n < 8)).
  1, 3: by rewrite Z.shiftl_spec_low by lia.
  all: rewrite (Z.bits_above_log2 l n); [by rewrite andb_false_r|lia|];
    destruct (decide (l = 0)) as [->|]; [simpl; lia|]; apply Z.log2_lt_pow2; [lia|]; pose proof (Z.pow_le_mono_r 2 8 n); lia.
Qed.

Lemma head_app (l k : list Z) : head (l ++ k) = match head l with Some x => Some x | None => head k end.
Proof. by destruct l. Qed.

(** The search looks at the places in the order of the specification. *)
Lemma mpsearch_ok mp (s : mps) : floating m mp → mpsearch m s = Ok (Some mp) s.
Proof.
  intros [B1 B2 B3]. pose proof (B1 0x40e). pose proof (B1 0x40f). pose proof (B1 0x413). pose proof (B1 0x414).
  unfold mpsearch. change (0x400 + 0x0F) with 0x40f. change (0x400 + 0x0E) with 0x40e. change (0x400 + 0x14) with 0x414. change (0x400 + 0x13) with 0x413.
  rewrite !shift_lor by lia. rewrite Z.shiftl_mul_pow2 by lia. change (2 ^ 4) with 16. rewrite (Z.mul_comm _ 16), (Z.mul_comm _ 1024).
  fold (EBDA m) (BASEMEM m). unfold mp_places in B3. rewrite filter_app, head_app, <- (mpsearch1_first 0xF0000 4096) in B3.
  change (16 * Z.of_nat 4096) with 0x10000 in B3. set (rom := mpsearch1 m 0xF0000 0x10000) in *. clearbody rom.
  pose proof (mpsearch1_first (BASEMEM m - 1024) 64) as S1. pose proof (mpsearch1_first (EBDA m) 64) as S2.
  change (16 * Z.of_nat 64) with 1024 in S1, S2. destruct (Z.eqb_spec (EBDA m) 0) as [E|E]; cbn [negb].
  - destruct (Z.ltb_spec (BASEMEM m - 1024) 0); [specialize (B2 E); lia|]. rewrite <- S1 in B3. rewrite bind_ret_l.
    destruct (mpsearch1 m (BASEMEM m - 1024) 1024); by rewrite B3.
  - rewrite <- S2 in B3. rewrite bind_ret_l. destruct (mpsearch1 m (EBDA m) 1024); by rewrite B3.
Qed.
End search.

(** ** The entries of the table *)

Inductive mpentry : Type :=
| Proc (apicid : Z) (rest : list Z)
| Ioapic (apicno : Z) (rest : list Z)
| Other (type : Z) (rest : list Z).

Definition entry_bytes (x : mpentry) : list Z :=
  match x with
  | Proc id rest => MPPROC :: id :: rest
  | Ioapic no rest => MPIOAPIC :: no :: rest
  | Other t rest => t :: rest
  end.

Definition entry_ok (x : mpentry) : Prop :=
  match x with
  | Proc _ rest => length rest = 18%nat
  | Ioapic _ rest => length rest = 6%nat
  | Other t rest => length rest = 7%nat ∧ (t = MPBUS ∨ t = MPIOINTR ∨ t = MPLINTR)
  end.

(** What an entry adds to the description of the machine. *)
Definition enter (x : mpentry) (s : mps) : mps :=
  match x with
  | Proc id _ => if mp_ncpu s <? NCPU then mp_add id s else s
  | Ioapic no _ => mp_set_ioapic no s
  | Other _ _ => s
  end.

Fixpoint enter_all (l : list mpentry) (s : mps) : mps :=
  match l with
  | [] => s
  | x :: l' => enter_all l' (enter x s)
  end.

Definition procs (l : list mpentry) : list Z := omap (λ x, match x with Proc id _ => Some id | _ => None end) l.
Definition ioapics (l : list mpentry) : list Z := omap (λ x, match x with Ioapic no _ => Some no | _ => None end) l.

(** The first NCPU processors are taken, and the last I/O APIC. *)
Lemma enter_all_spec l : ∀ s, 0 ≤ mp_ncpu s ≤ NCPU → length (mp_apicids s) = Z.to_nat NCPU →
  let s' := enter_all l s in
  let k := Z.to_nat (mp_ncpu s) in
  mp_ncpu s' = Z.min NCPU (mp_ncpu s + Z.of_nat (length (procs l))) ∧
  take (Z.to_nat (mp_ncpu s')) (mp_apicids s') = take (Z.to_nat NCPU) (take k (mp_apicids s) ++ procs l) ∧
  length (mp_apicids s') = Z.to_nat NCPU ∧
  mp_ioapicid s' = default (mp_ioapicid s) (last (ioapics l)) ∧ mp_lapic s' = mp_lapic s ∧ mp_out s' = mp_out s.
Proof.
  induction l as [|x l IH]; intros s Hn Hl s' k.
  - subst s'. cbn [enter_all procs ioapics omap list_omap]. simpl. rewrite app_nil_r, take_take. split_and!; try done; [lia|].
    f_equal. unfold k. lia.
  - subst s'. cbn [enter_all]. destruct x as [id rest|no rest|t rest]; cbn [enter].
    + destruct (Z.ltb_spec (mp_ncpu s) NCPU) as [Hlt|Hge].
      * destruct (IH (mp_add id s)) as (E1 & E2 & E3 & E4 & E5 & E6); [simpl; lia|simpl; by rewrite length_insert|].
        split_and!; try done.
        -- rewrite E1. simpl. unfold procs. simpl. lia.
        -- rewrite E2. cbn [mp_add mp_ncpu mp_apicids]. rewrite Z2Nat.inj_add, Nat.add_1_r by lia. fold k.
           assert (Hk : (k < length (mp_apicids s))%nat) by (unfold k; lia).
           rewrite (take_S_r _ _ id) by (by apply list_lookup_insert_eq). rewrite take_insert_ge by lia.
           change (procs (Proc id rest :: l)) with ([id] ++ procs l). by rewrite <- app_assoc.
      * destruct (IH s Hn Hl) as (E1 & E2 & E3 & E4 & E5 & E6). split_and!; try done.
        -- rewrite E1. unfold procs. simpl. lia.
        -- rewrite E2. assert (Hk : length (take k (mp_apicids s)) = Z.to_nat NCPU) by (rewrite length_take; unfold k; lia).
           unfold k in Hk |- *. by rewrite !take_app_length'.
    + destruct (IH (mp_set_ioapic no s) Hn Hl) as (E1 & E2 & E3 & E4 & E5 & E6). split_and!; try done.
      rewrite E4. change (ioapics (Ioapic no rest :: l)) with (no :: ioapics l). rewrite last_cons. by destruct (last (ioapics l)).
    + exact (IH s Hn Hl).
Qed.

(** ** mpinit *)

Lemma entry_length x : entry_ok x → length (entry_bytes x) = match x with Proc _ _ => 20%nat | _ => 8%nat end.
Proof. destruct x; simpl; lia. Qed.

Lemma mpinit_loop_ok m l : ∀ fuel p s, Forall entry_ok l → (length l < fuel)%nat →
  load p (length (concat (entry_bytes <$> l))) m = concat (entry_bytes <$> l) →
  mpinit_loop m fuel p (p + Z.of_nat (length (concat (entry_bytes <$> l)))) 1 s = Ok 1 (enter_all l s).
Proof.
  induction l as [|x l IH]; intros fuel p s Hok Hf Hm.
  - simpl. rewrite Z.add_0_r. destruct fuel; cbn [mpinit_loop]; by rewrite Z.ltb_irrefl.
  - destruct fuel as [|fuel]; [simpl in Hf; lia|]. apply Forall_cons in Hok as [Hx Hok].
    cbn [fmap list_fmap concat] in *. rewrite length_app, Nat2Z.inj_add in *. rewrite load_app in Hm.
    apply app_inj_1 in Hm as [Hm1 Hm2]; [|by rewrite length_load].
    pose proof (entry_length x Hx) as Hlen. cbn [mpinit_loop]. destruct (Z.ltb_spec p (p + (Z.of_nat (length (entry_bytes x)) + Z.of_nat (length (concat (entry_bytes <$> l)))))); [|destruct x; lia].
    cbn [negb]. specialize (IH fuel (p + Z.of_nat (length (entry_bytes x)))). rewrite <- Z.add_assoc in IH.
    destruct x as [id rest|no rest|t rest]; rewrite Hlen in *; cbn [entry_bytes] in Hm1; rewrite !load_cons in Hm1.
    + injection Hm1 as -> -> _. change (MPPROC =? MPPROC) with true. cbv iota.
      rewrite (bind_ok _ _ _ _ _ (eq_refl : get s = Ok s s)).
      assert (E : (if mp_ncpu s <? NCPU then modify (mp_add id) else mret tt) s = Ok tt (enter (Proc id rest) s))
        by (simpl; by destruct (mp_ncpu s <? NCPU)).
      rewrite (bind_ok _ _ _ _ _ E). apply IH; [done|simpl in Hf; lia|done].
    + injection Hm1 as -> -> _. change (MPIOAPIC =? MPPROC) with false. change (MPIOAPIC =? MPIOAPIC) with true. cbv iota.
      rewrite bind_modify. apply IH; [done|simpl in Hf; lia|done].
    + injection Hm1 as -> _. destruct Hx as [_ Ht].
      assert (Hc : (t =? MPPROC) = false ∧ (t =? MPIOAPIC) = false ∧ (t =? MPBUS) || (t =? MPIOINTR) || (t =? MPLINTR) = true)
        by (destruct Ht as [->|[->| ->]]; done).
      destruct Hc as (-> & -> & ->). apply IH; [done|simpl in Hf; lia|done].
Qed.

(** An entry of another type is never passed: the break leaves the switch only. *)
Lemma mpinit_hangs m p e s : p < e → m p ∉ [MPPROC; MPBUS; MPIOAPIC; MPIOINTR; MPLINTR] →
  ∀ fuel ismp, mpinit_loop m fuel p e ismp s = NoFuel.
Proof.
  intros Hp Ht fuel. induction fuel as [|fuel IH]; intros ismp; cbn [mpinit_loop]; destruct (Z.ltb_spec p e); try lia; [done|]. cbn [negb].
  rewrite !not_elem_of_cons in Ht. destruct Ht as (H1 & H2 & H3 & H4 & H5 & _).
  rewrite (proj2 (Z.eqb_neq _ _) H1), (proj2 (Z.eqb_neq _ _) H2), (proj2 (Z.eqb_neq _ _) H3), (proj2 (Z.eqb_neq _ _) H4), (proj2 (Z.eqb_neq _ _) H5). apply IH.
Qed.

(** The table at [conf]: its header, and the entries. *)
Record table (m : mem) (conf : Z) (l : list mpentry) : Prop := {
  tb_sig : load conf 4 m = SIG_PCMP;
  tb_version : m (conf + 6) = 1 ∨ m (conf + 6) = 4;
  tb_length : load16 (conf + 4) m = MPCONFSZ + Z.of_nat (length (concat (entry_bytes <$> l)));
  tb_sum : sum (load conf (Z.to_nat (load16 (conf + 4) m)) m) = 0;
  tb_ok : Forall entry_ok l;
  tb_entries : load (conf + MPCONFSZ) (length (concat (entry_bytes <$> l))) m = concat (entry_bytes <$> l) }.

Lemma mpconfig_ok m mp conf l s : floating m mp → load32 (mp + 4) m = conf → conf ≠ 0 → table m conf l →
  mpconfig m s = Ok (Some (conf, mp)) s.
Proof.
  intros E Hc Hn [T1 T2 T3 T4 T5 T6]. unfold mpconfig. mstep (mpsearch_ok m mp s E). rewrite Hc, (proj2 (Z.eqb_neq _ _) Hn), bool_decide_true by done. cbn [negb].
  rewrite T4. cbn [negb Z.eqb]. by destruct T2 as [-> | ->].
Qed.

Lemma mpinit_ok m imcr fuel s mp conf l :
  floating m mp → load32 (mp + 4) m = conf → conf ≠ 0 → table m conf l → (length l < fuel)%nat →
  mp_ncpu s = 0 → length (mp_apicids s) = Z.to_nat NCPU →
  ∃ s', mpinit m imcr fuel s = Ok tt s' ∧
    mp_ncpu s' = Z.min NCPU (Z.of_nat (length (procs l))) ∧ length (mp_apicids s') = Z.to_nat NCPU ∧
    take (Z.to_nat (mp_ncpu s')) (mp_apicids s') = take (Z.to_nat NCPU) (procs l) ∧
    mp_ioapicid s' = default (mp_ioapicid s) (last (ioapics l)) ∧ mp_lapic s' = load32 (conf + 36) m ∧
    mp_out s' = mp_out s ++ (if m (mp + 12) =? 0 then [] else [(0x22, 0x70); (0x23, Z.lor imcr 1)]).
Proof.
  intros E Hc Hn Tb Hf Hz Hl. unfold mpinit. mstep (mpconfig_ok m mp conf l s E Hc Hn Tb). rewrite bind_modify.
  destruct Tb as [T1 T2 T3 T4 T5 T6]. rewrite T3, Z.add_assoc. set (s1 := mp_set_lapic (load32 (conf + 36) m) s).
  mstep (mpinit_loop_ok m l fuel (conf + MPCONFSZ) s1 T5 Hf T6). cbn [Z.eqb].
  destruct (enter_all_spec l s1) as (E1 & E2 & E3 & E4 & E5 & E6); [simpl; rewrite Hz; unfold NCPU; lia|exact Hl|].
  change (mp_ncpu s1) with (mp_ncpu s) in *. rewrite Hz in *.
  destruct (m (mp + 12) =? 0); cbn [negb].
  - exists (enter_all l s1). rewrite app_nil_r. split_and!; done.
  - rewrite bind_modify. eexists. split; [reflexivity|]. cbn [mp_outb mp_ncpu mp_apicids mp_ioapicid mp_lapic mp_out].
    rewrite E6, <- app_assoc. split_and!; done.
Qed.


(** A machine with two processors and an I/O APIC. *)
Definition ENTRIES2 : list mpentry :=
  [Proc 0 (replicate 18 0); Proc 1 (replicate 18 0); Other MPBUS (replicate 7 0); Ioapic 2 (replicate 6 0)].
Definition FLOAT2 : list Z := SIG_MP ++ [0; 0xfd; 9; 0] ++ [1; 4; 153; 0; 1; 0; 0; 0].
Definition TABLE2 : list Z :=
  SIG_PCMP ++ [100; 0; 4; 132] ++ replicate 20 0 ++ replicate 8 0 ++ [0; 0; 0xe0; 0xfe] ++ replicate 4 0 ++ concat (entry_bytes <$> ENTRIES2).
Definition MEM2 : mem :=
  store 0x40e [0xc0; 0x9f] (store 0x9fc00 FLOAT2 (store 0x9fd00 TABLE2 (λ _, 0))).

Lemma MEM2_floating : floating MEM2 0x9fc00.
Proof.
  assert (Hb : ∀ l a (m : mem), (∀ x, 0 ≤ m x < 256) → Forall (λ x, 0 ≤ x < 256) l → ∀ x, 0 ≤ store a l m x < 256).
  { intros l a m Hm Hl x. unfold store. destruct (_ && _); [|done]. destruct (l !! _) as [y|] eqn:E; simpl; [by eapply (Forall_lookup_1 _ _ _ _ Hl E)|lia]. }
  split.
  - unfold MEM2. repeat apply Hb; [lia|apply (bool_decide_unpack _); by vm_compute..].
  - intros H. by vm_compute in H.
  - vm_compute. reflexivity.
Qed.

