(* ===== verification/Seg.v ===== *)
(** * Segments: the descriptors of mmu.h and [seginit] of vm.c

    A descriptor is a structure of bit fields; the processor reads it as 64 bits.
    [SEG] and [SEG16] build one, [seg_base], [seg_limit] and the others are
    what the processor makes of the bits.  [SEG_decode] and [SEG16_decode]: it finds the
    base, the limit and the rights that were meant.  [seginit_flat]: after
    [seginit] an address is the same in every segment of the kernel and of the user. *)

From S2P Require Import Prelude Params Sleeplock Spinlock BlockDev Tx Fs Kalloc Vm File Proc.

Definition NSEGS : nat := 6.
Definition STA_X : Z := 8.
Definition STA_W : Z := 2.
Definition STA_R : Z := 2.
Definition STS_T32A : Z := 9.

(** The fields in their order, each with its width. *)
Record segdesc : Type := mkseg {
  lim_15_0 : Z; base_15_0 : Z; base_23_16 : Z; sd_type : Z; sd_s : Z; sd_dpl : Z; sd_p : Z;
  lim_19_16 : Z; sd_avl : Z; sd_rsv1 : Z; sd_db : Z; sd_g : Z; base_31_24 : Z }.
Definition seg_fields (d : segdesc) : list (Z * Z) :=
  [(16, lim_15_0 d); (16, base_15_0 d); (8, base_23_16 d); (4, sd_type d); (1, sd_s d); (2, sd_dpl d); (1, sd_p d);
   (4, lim_19_16 d); (1, sd_avl d); (1, sd_rsv1 d); (1, sd_db d); (1, sd_g d); (8, base_31_24 d)].

Definition SEG (type base lim dpl : Z) : segdesc :=
  mkseg (Z.land (Z.shiftr lim 12) 0xffff) (Z.land base 0xffff) (Z.land (Z.shiftr base 16) 0xff) type 1 dpl 1
    (Z.shiftr lim 28) 0 0 1 1 (Z.shiftr base 24).
Definition SEG16 (type base lim dpl : Z) : segdesc :=
  mkseg (Z.land lim 0xffff) (Z.land base 0xffff) (Z.land (Z.shiftr base 16) 0xff) type 1 dpl 1
    (Z.shiftr lim 16) 0 0 1 0 (Z.shiftr base 24).

(** The table of a processor. *)
Definition seginit (gdt : list segdesc) : list segdesc :=
  let gdt := <[Z.to_nat SEG_KCODE := SEG (Z.lor STA_X STA_R) 0 0xffffffff 0]> gdt in
  let gdt := <[Z.to_nat SEG_KDATA := SEG STA_W 0 0xffffffff 0]> gdt in
  let gdt := <[Z.to_nat SEG_UCODE := SEG (Z.lor STA_X STA_R) 0 0xffffffff DPL_USER]> gdt in
  <[Z.to_nat SEG_UDATA := SEG STA_W 0 0xffffffff DPL_USER]> gdt.

(** The six bytes that [lgdt] and [lidt] give to the processor. *)
Definition lgdt (p size : Z) : list Z := le_bytes 2 (u16 (size - 1)) ++ le_bytes 2 (u16 p) ++ le_bytes 2 (u16 (Z.shiftr p 16)).

(** The entry for the task state in [switchuvm]: [ts] is its address, of 104 bytes. *)
Definition TSSIZE : Z := 104.
Definition switchuvm_gdt (ts : Z) (gdt : list segdesc) : list segdesc :=
  let d := SEG16 STS_T32A ts (TSSIZE - 1) 0 in
  <[Z.to_nat SEG_TSS := mkseg (lim_15_0 d) (base_15_0 d) (base_23_16 d) (sd_type d) 0 (sd_dpl d) (sd_p d)
      (lim_19_16 d) (sd_avl d) (sd_rsv1 d) (sd_db d) (sd_g d) (base_31_24 d)]> gdt.

(** ** What the processor reads *)

(** Bit fields are laid out from the lowest bit on. *)
Fixpoint pack (l : list (Z * Z)) : Z :=
  match l with
  | [] => 0
  | (w, v) :: l' => v mod 2 ^ w + 2 ^ w * pack l'
  end.
Definition bits (off w x : Z) : Z := Z.land (Z.shiftr x off) (Z.ones w).

Definition seg64 (d : segdesc) : Z := pack (seg_fields d).
Definition seg_base (x : Z) : Z := bits 16 16 x + 65536 * bits 32 8 x + 16777216 * bits 56 8 x.
Definition seg_limit (x : Z) : Z :=
  let l := bits 0 16 x + 65536 * bits 48 4 x in
  if bits 55 1 x =? 1 then 4096 * l + 4095 else l.
Definition seg_type (x : Z) : Z := bits 40 4 x.
Definition seg_s (x : Z) : Z := bits 44 1 x.
Definition seg_dpl (x : Z) : Z := bits 45 2 x.
Definition seg_present (x : Z) : bool := bits 47 1 x =? 1.

(** The linear address of an offset in a segment; a missing segment or an offset past the
    limit is a fault. *)
Definition linear (gdt : list segdesc) (sel off : Z) : option Z :=
  match gdt !! Z.to_nat sel with
  | None => None
  | Some d => let x := seg64 d in if seg_present x && (off <=? seg_limit x) then Some (u32 (seg_base x + off)) else None
  end.

(** ** Bit fields *)

Lemma bits_0 w v l : 0 ≤ w → bits 0 w (pack ((w, v) :: l)) = v mod 2 ^ w.
Proof.
  intros Hw. unfold bits. cbn [pack]. rewrite Z.shiftr_0_r, Z.land_ones, Z.mul_comm, Z.mod_add by (lia || apply Z.pow_nonzero; lia).
  apply Z.mod_mod. apply Z.pow_nonzero; lia.
Qed.

Lemma bits_next w v l off w' : 0 ≤ w → w ≤ off → bits off w' (pack ((w, v) :: l)) = bits (off - w) w' (pack l).
Proof.
  intros Hw Ho. unfold bits. cbn [pack]. f_equal. replace off with (w + (off - w)) at 1 by lia. rewrite <- Z.shiftr_shiftr by lia. f_equal.
  rewrite Z.shiftr_div_pow2, Z.mul_comm, Z.div_add by (lia || apply Z.pow_nonzero; lia).
  rewrite Z.div_small; [lia|]. apply Z.mod_pos_bound. apply Z.pow_pos_nonneg; lia.
Qed.

Ltac fields := unfold seg64, seg_fields; rewrite ?bits_0 by lia; repeat (rewrite bits_next by lia; rewrite ?bits_0 by lia; cbn [Z.sub Z.add Z.opp]).

(** A field is read where it was put. *)
Record decoded (x : Z) (d : segdesc) : Prop := {
  de_limit : seg_limit x = (let l := lim_15_0 d mod 2 ^ 16 + 65536 * (lim_19_16 d mod 2 ^ 4) in if sd_g d mod 2 ^ 1 =? 1 then 4096 * l + 4095 else l);
  de_base : seg_base x = base_15_0 d mod 2 ^ 16 + 65536 * (base_23_16 d mod 2 ^ 8) + 16777216 * (base_31_24 d mod 2 ^ 8);
  de_type : seg_type x = sd_type d mod 2 ^ 4;
  de_s : seg_s x = sd_s d mod 2 ^ 1;
  de_dpl : seg_dpl x = sd_dpl d mod 2 ^ 2;
  de_p : seg_present x = (sd_p d mod 2 ^ 1 =? 1) }.

Lemma seg_decoded d : decoded (seg64 d) d.
Proof. split; unfold seg_limit, seg_base, seg_type, seg_s, seg_dpl, seg_present; fields; reflexivity. Qed.

(** The bits of [x] are those of a segment. *)
Record segment (x base lim type s dpl : Z) : Prop := {
  sg_base : seg_base x = base;
  sg_limit : seg_limit x = lim;
  sg_type : seg_type x = type;
  sg_s : seg_s x = s;
  sg_dpl : seg_dpl x = dpl;
  sg_present : seg_present x = true }.

Lemma base_bytes b : 0 ≤ b < 4294967296 →
  Z.land b 0xffff mod 2 ^ 16 + 65536 * (Z.land (Z.shiftr b 16) 0xff mod 2 ^ 8) + 16777216 * (Z.shiftr b 24 mod 2 ^ 8) = b.
Proof.
  intros Hb. change 0xffff with (Z.ones 16). change 0xff with (Z.ones 8). rewrite !Z.land_ones, !Z.shiftr_div_pow2, !Z.mod_mod by lia.
  change (2 ^ 16) with 65536. change (2 ^ 8) with 256. change (2 ^ 24) with 16777216. lia.
Qed.

(** A segment in units of pages: the limit is the last byte of its last page. *)
Lemma SEG_decode type base lim dpl : 0 ≤ base < 4294967296 → 0 ≤ lim < 4294967296 → 0 ≤ type < 16 → 0 ≤ dpl < 4 →
  segment (seg64 (SEG type base lim dpl)) base (lim / 4096 * 4096 + 4095) type 1 dpl.
Proof.
  intros Hb Hl Ht Hd. destruct (seg_decoded (SEG type base lim dpl)) as [D1 D2 D3 D4 D5 D6].
  cbn [SEG lim_15_0 base_15_0 base_23_16 sd_type sd_s sd_dpl sd_p lim_19_16 sd_g base_31_24] in *. rewrite base_bytes in D2 by done.
  rewrite (Z.mod_small type), (Z.mod_small dpl) in * by lia. split; try done. rewrite D1.
  change 0xffff with (Z.ones 16). rewrite Z.land_ones, !Z.shiftr_div_pow2 by lia. change (2 ^ 16) with 65536. change (2 ^ 12) with 4096. change (2 ^ 28) with 268435456.
  change (1 mod 2 ^ 1 =? 1) with true. cbv iota. change (2 ^ 4) with 16. lia.
Qed.

(** A segment in units of bytes. *)
Lemma SEG16_decode type base lim dpl : 0 ≤ base < 4294967296 → 0 ≤ lim < 1048576 → 0 ≤ type < 16 → 0 ≤ dpl < 4 →
  segment (seg64 (SEG16 type base lim dpl)) base lim type 1 dpl.
Proof.
  intros Hb Hl Ht Hd. destruct (seg_decoded (SEG16 type base lim dpl)) as [D1 D2 D3 D4 D5 D6].
  cbn [SEG16 lim_15_0 base_15_0 base_23_16 sd_type sd_s sd_dpl sd_p lim_19_16 sd_g base_31_24] in *. rewrite base_bytes in D2 by done.
  rewrite (Z.mod_small type), (Z.mod_small dpl) in * by lia. split; try done. rewrite D1.
  change 0xffff with (Z.ones 16). rewrite Z.land_ones, !Z.shiftr_div_pow2 by lia. change (2 ^ 16) with 65536.
  change (0 mod 2 ^ 1 =? 1) with false. cbv iota. change (2 ^ 4) with 16. lia.
Qed.

(** The segments of the kernel and of the user are the whole of memory; those of
    the user can be loaded in user mode. *)
Lemma seginit_flat gdt sel off : length gdt = NSEGS → sel ∈ [SEG_KCODE; SEG_KDATA; SEG_UCODE; SEG_UDATA] → 0 ≤ off < 4294967296 →
  linear (seginit gdt) sel off = Some off ∧
  ∃ d, seginit gdt !! Z.to_nat sel = Some d ∧ seg_dpl (seg64 d) = (if decide (sel ∈ [SEG_UCODE; SEG_UDATA]) then DPL_USER else 0).
Proof.
  intros Hl Hs Ho. assert (∃ type dpl, seginit gdt !! Z.to_nat sel = Some (SEG type 0 0xffffffff dpl) ∧ 0 ≤ type < 16 ∧ 0 ≤ dpl < 4 ∧
    dpl = if decide (sel ∈ [SEG_UCODE; SEG_UDATA]) then DPL_USER else 0) as (type & dpl & E & Ht & Hd & Hx).
  { do 6 (destruct gdt as [|? gdt]; [done|]). destruct gdt; [|done].
    repeat (apply elem_of_cons in Hs as [->|Hs]; [by eexists _, _; repeat split|]). by apply elem_of_nil in Hs. }
  destruct (SEG_decode type 0 0xffffffff dpl) as [D1 D2 D3 D4 D5 D6]; [lia..|]. split.
  - unfold linear. rewrite E, D1, D2, D6. cbn [andb]. rewrite (proj2 (Z.leb_le _ _)) by lia. f_equal. unfold u32. rewrite Z.mod_small; lia.
  - eexists. split; [exact E|]. by rewrite D5.
Qed.

(** The task state that [switchuvm] sets is found by the processor, as a system
    segment of 104 bytes. *)
Lemma switchuvm_tss ts gdt : length gdt = NSEGS → 0 ≤ ts < 4294967296 →
  ∃ d, switchuvm_gdt ts gdt !! Z.to_nat SEG_TSS = Some d ∧ segment (seg64 d) ts (TSSIZE - 1) STS_T32A 0 0.
Proof.
  intros Hl Hts. do 6 (destruct gdt as [|? gdt]; [done|]). destruct gdt; [|done]. eexists. split; [reflexivity|].
  match goal with |- segment (seg64 ?d) _ _ _ _ _ => destruct (seg_decoded d) as [D1 D2 D3 D4 D5 D6] end.
  cbn [SEG16 lim_15_0 base_15_0 base_23_16 sd_type sd_s sd_dpl sd_p lim_19_16 sd_g base_31_24] in *. rewrite base_bytes in D2 by done. by split.
Qed.
