(* ===== verification/Apic.v ===== *)
(** * The interrupt controllers and the clock: ioapic.c, lapic.c, picirq.c

    The state [chips] has what these files set (the pointers [ioapic] and [lapic])
    and the devices behind them.  The I/O APIC is an index register and a file of
    registers.  The local APIC has its registers, and sends the commands that are
    written to ICRLO to the other processors: INIT makes one wait for a startup
    message, STARTUP makes a waiting one run, and is ignored otherwise.  The
    clock chip is read through two ports; time passes with every read, and
    what it shows at each moment is a parameter.

    [ioapicinit_masks] and [ioapicenable_routes]: the redirection table, read the way
    the device reads it.  [lapicinit_ok]: it returns, once the command is
    delivered.  [lapicstartap_starts]: one processor starts, at the address.
    [cmostime_correct]: the time is one that the clock showed. *)

From S2P Require Import Prelude Params Phys Sleeplock Spinlock BlockDev Tx Fs Kalloc Vm File Proc Syscall Exec Sysfile Trapc.

Definition IOAPIC_REG_ID : Z := 0x00.
Definition REG_VER : Z := 0x01.
Definition REG_TABLE : Z := 0x10.
Definition INT_DISABLED : Z := 0x00010000.

Definition IRQ_ERROR : Z := 19.
Definition ID : Z := 0x20 / 4.
Definition VER : Z := 0x30 / 4.
Definition TPR : Z := 0x80 / 4.
Definition EOI : Z := 0xb0 / 4.
Definition SVR : Z := 0xf0 / 4.
Definition ENABLE : Z := 0x100.
Definition ESR : Z := 0x280 / 4.
Definition ICRLO : Z := 0x300 / 4.
Definition INIT : Z := 0x500.
Definition STARTUP : Z := 0x600.
Definition DELIVS : Z := 0x1000.
Definition ASSERT : Z := 0x4000.
Definition LEVEL : Z := 0x8000.
Definition BCAST : Z := 0x80000.
Definition ICRHI : Z := 0x310 / 4.
Definition TIMER : Z := 0x320 / 4.
Definition X1 : Z := 0xb.
Definition PERIODIC : Z := 0x20000.
Definition PCINT : Z := 0x340 / 4.
Definition LINT0 : Z := 0x350 / 4.
Definition LINT1 : Z := 0x360 / 4.
Definition ERROR : Z := 0x370 / 4.
Definition MASKED : Z := 0x10000.
Definition TICR : Z := 0x380 / 4.
Definition TDCR : Z := 0x3e0 / 4.

(** ** The devices *)

(** A processor that is not running yet, as the local APICs see it. *)
Inductive apstate : Type :=
| Halted
| Waiting
| Running (a : Z).

Record chips : Type := mkchips {
  x_ioapic : bool;                 (* the pointer ioapic is set *)
  x_ioreg : Z;                     (* the index register *)
  x_ioregs : Z → Z;
  x_lapic : bool;                  (* the pointer lapic is not 0 *)
  x_regs : Z → Z;                  (* the local APIC *)
  x_busy : nat;                    (* reads of ICRLO until the command is delivered *)
  x_aps : Z → apstate;             (* the processors, by APIC number *)
  x_cmos : Z;                      (* the register of the clock that is selected *)
  x_time : nat;                    (* reads of the clock so far *)
  x_ports : list (Z * Z);          (* what was written to the ports *)
  x_mem : mem;
  x_msgs : list string }.

Definition x_io (r : Z) (f : Z → Z) (s : chips) : chips :=
  mkchips (x_ioapic s) r f (x_lapic s) (x_regs s) (x_busy s) (x_aps s) (x_cmos s) (x_time s) (x_ports s) (x_mem s) (x_msgs s).
Definition x_point (s : chips) : chips :=
  mkchips true (x_ioreg s) (x_ioregs s) (x_lapic s) (x_regs s) (x_busy s) (x_aps s) (x_cmos s) (x_time s) (x_ports s) (x_mem s) (x_msgs s).
Definition x_la (f : Z → Z) (b : nat) (a : Z → apstate) (s : chips) : chips :=
  mkchips (x_ioapic s) (x_ioreg s) (x_ioregs s) (x_lapic s) f b a (x_cmos s) (x_time s) (x_ports s) (x_mem s) (x_msgs s).
Definition x_port (p v : Z) (s : chips) : chips :=
  mkchips (x_ioapic s) (x_ioreg s) (x_ioregs s) (x_lapic s) (x_regs s) (x_busy s) (x_aps s) (if p =? 0x70 then u8 v else x_cmos s) (x_time s)
    (x_ports s ++ [(p, u8 v)]) (x_mem s) (x_msgs s).
Definition x_tick (s : chips) : chips :=
  mkchips (x_ioapic s) (x_ioreg s) (x_ioregs s) (x_lapic s) (x_regs s) (x_busy s) (x_aps s) (x_cmos s) (S (x_time s)) (x_ports s) (x_mem s) (x_msgs s).
Definition x_store (a : Z) (d : list Z) (s : chips) : chips :=
  mkchips (x_ioapic s) (x_ioreg s) (x_ioregs s) (x_lapic s) (x_regs s) (x_busy s) (x_aps s) (x_cmos s) (x_time s) (x_ports s)
    (store a d (x_mem s)) (x_msgs s).
Definition x_msg (m : string) (s : chips) : chips :=
  mkchips (x_ioapic s) (x_ioreg s) (x_ioregs s) (x_lapic s) (x_regs s) (x_busy s) (x_aps s) (x_cmos s) (x_time s) (x_ports s) (x_mem s)
    (x_msgs s ++ [m]).

Definition upd {A} (k : Z) (v : A) (f : Z → A) : Z → A := λ x, if x =? k then v else f x.

(** The command in [lo] for the processor in the high byte of [hi]: the
    delivery mode is in bits 8 to 10, bit 14 is the assertion, bits 18 and 19 are set
    for a broadcast. *)
Definition ap_command (lo : Z) (a : apstate) : apstate :=
  let mode := Z.land (Z.shiftr lo 8) 7 in
  if (mode =? 5) && Z.testbit lo 14 then Waiting
  else if mode =? 6 then match a with Waiting => Running (Z.shiftl (Z.land lo 0xff) 12) | _ => a end
  else a.
Definition send (hi lo : Z) (aps : Z → apstate) : Z → apstate :=
  λ id, if (Z.land (Z.shiftr lo 18) 3 =? 0) && negb (id =? Z.shiftr hi 24) then aps id else ap_command lo (aps id).

Section chips.
(** [delay] reads of ICRLO pass until a command is delivered; [la_id] and
    [la_ver] are what ID and VER read; [clock t r] is what register [r] of the
    clock shows at the [t]th read. *)
Context (delay : nat) (la_id la_ver : Z) (clock : nat → Z → Z).
Notation M := (Prelude.M chips).

Definition outb (p v : Z) : M unit := modify (x_port p v).

(** ** ioapic.c *)

(** A null pointer is not an address of the device. *)
Definition with_ioapic {A} (m : M A) : M A := s ← get; if x_ioapic s then m else undef.

Definition ioapicread (reg : Z) : M Z :=
  with_ioapic (modify (λ s, x_io reg (x_ioregs s) s);; gets (λ s, x_ioregs s (x_ioreg s))).
Definition ioapicwrite (reg data : Z) : M unit :=
  with_ioapic (modify (λ s, x_io reg (x_ioregs s) s);;
               modify (λ s, x_io (x_ioreg s) (upd (x_ioreg s) (u32 data) (x_ioregs s)) s)).

Definition ioapicinit (ioapicid : Z) : M unit :=
  modify x_point;;
  ver ← ioapicread REG_VER;
  let maxintr := Z.land (Z.shiftr ver 16) 0xff in
  idr ← ioapicread IOAPIC_REG_ID;
  let id := Z.shiftr idr 24 in
  (if negb (id =? ioapicid) then modify (x_msg "ioapicinit: id isn't equal to ioapicid; not a MP") else mret tt);;
  for_each (Z.to_nat (maxintr + 1)) 0 (λ i,
    ioapicwrite (REG_TABLE + 2 * i) (Z.lor INT_DISABLED (T_IRQ0 + i));;
    ioapicwrite (REG_TABLE + 2 * i + 1) 0).

Definition ioapicenable (irq cpunum : Z) : M unit :=
  ioapicwrite (REG_TABLE + 2 * irq) (T_IRQ0 + irq);;
  ioapicwrite (REG_TABLE + 2 * irq + 1) (Z.shiftl cpunum 24).

(** ** picirq.c *)

Definition IO_PIC1 : Z := 0x20.
Definition IO_PIC2 : Z := 0xa0.
Definition picinit : M unit := outb (IO_PIC1 + 1) 0xff;; outb (IO_PIC2 + 1) 0xff.

(** ** lapic.c *)

Definition lapicw (index value : Z) : M unit :=
  modify (λ s,
    let f := upd index (u32 value) (x_regs s) in
    if index =? ICRLO then x_la f delay (send (x_regs s ICRHI) (u32 value) (x_aps s)) s else x_la f (x_busy s) (x_aps s) s).

(** A read of ICRLO has DELIVS while the command is not delivered. *)
Definition read_icr : M Z :=
  s ← get;
  match x_busy s with
  | O => mret (x_regs s ICRLO)
  | S n => put (x_la (x_regs s) n (x_aps s) s);; mret (Z.lor (x_regs s ICRLO) DELIVS)
  end.

Fixpoint wait_delivered (fuel : nat) : M unit :=
  match fuel with
  | O => no_fuel
  | S fuel' =>
      v ← read_icr;
      if negb (Z.land v DELIVS =? 0) then wait_delivered fuel' else mret tt
  end.

Definition lapicinit (fuel : nat) : M unit :=
  s ← get;
  if negb (x_lapic s) then mret tt else
  lapicw SVR (Z.lor ENABLE (T_IRQ0 + IRQ_SPURIOUS));;
  lapicw TDCR X1;;
  lapicw TIMER (Z.lor PERIODIC (T_IRQ0 + IRQ_TIMER));;
  lapicw TICR 10000000;;
  lapicw LINT0 MASKED;;
  lapicw LINT1 MASKED;;
  (if 4 <=? Z.land (Z.shiftr la_ver 16) 0xff then lapicw PCINT MASKED else mret tt);;
  lapicw ERROR (T_IRQ0 + IRQ_ERROR);;
  lapicw ESR 0;;
  lapicw ESR 0;;
  lapicw EOI 0;;
  lapicw ICRHI 0;;
  lapicw ICRLO (Z.lor (Z.lor BCAST INIT) LEVEL);;
  wait_delivered fuel;;
  lapicw TPR 0.

Definition lapicid : M Z :=
  s ← get;
  if negb (x_lapic s) then mret 0 else mret (Z.shiftr la_id 24).

Definition lapiceoi : M unit :=
  s ← get;
  if x_lapic s then lapicw EOI 0 else mret tt.

Definition CMOS_PORT : Z := 0x70.
Definition CMOS_RETURN : Z := 0x71.

Definition lapicstartap (apicid addr : Z) : M unit :=
  outb CMOS_PORT 0xf;;
  outb (CMOS_PORT + 1) 0x0a;;
  let wrv := Z.lor (Z.shiftl 0x40 4) 0x67 in
  modify (x_store wrv (le_bytes 2 0));;
  modify (x_store (wrv + 2) (le_bytes 2 (u16 (Z.shiftr addr 4))));;
  lapicw ICRHI (Z.shiftl apicid 24);;
  lapicw ICRLO (Z.lor (Z.lor INIT LEVEL) ASSERT);;
  lapicw ICRLO (Z.lor INIT LEVEL);;
  for_each 2 0 (λ _,
    lapicw ICRHI (Z.shiftl apicid 24);;
    lapicw ICRLO (Z.lor STARTUP (Z.shiftr addr 12))).

(** ** The clock *)

Definition CMOS_STATA : Z := 0x0a.
Definition CMOS_STATB : Z := 0x0b.
Definition CMOS_UIP : Z := Z.shiftl 1 7.
Definition SECS : Z := 0x00.
Definition MINS : Z := 0x02.
Definition HOURS : Z := 0x04.
Definition DAY : Z := 0x07.
Definition MONTH : Z := 0x08.
Definition YEAR : Z := 0x09.

(** [inb(CMOS_RETURN)] *)
Definition inb_cmos : M Z := s ← get; put (x_tick s);; mret (clock (x_time s) (x_cmos s)).
Definition cmos_read (reg : Z) : M Z := outb CMOS_PORT reg;; inb_cmos.

Record rtcdate : Type := mkdate { second : Z; minute : Z; hour : Z; day : Z; month : Z; year : Z }.

Definition fill_rtcdate : M rtcdate :=
  s ← cmos_read SECS;
  mi ← cmos_read MINS;
  h ← cmos_read HOURS;
  d ← cmos_read DAY;
  mo ← cmos_read MONTH;
  y ← cmos_read YEAR;
  mret (mkdate s mi h d mo y).

#[global] Instance rtcdate_eq : EqDecision rtcdate.
Proof. solve_decision. Defined.

Fixpoint cmostime_loop (fuel : nat) : M rtcdate :=
  match fuel with
  | O => no_fuel
  | S fuel' =>
      t1 ← fill_rtcdate;
      a ← cmos_read CMOS_STATA;
      if negb (Z.land a CMOS_UIP =? 0) then cmostime_loop fuel' else
      t2 ← fill_rtcdate;
      if bool_decide (t1 = t2) then mret t1 else cmostime_loop fuel'
  end.

Definition CONV (x : Z) : Z := u32 (Z.shiftr x 4 * 10 + Z.land x 0xf).

Definition cmostime (fuel : nat) : M rtcdate :=
  sb ← cmos_read CMOS_STATB;
  let bcd := Z.land sb (Z.shiftl 1 2) =? 0 in
  t1 ← cmostime_loop fuel;
  let t1 := if bcd then mkdate (CONV (second t1)) (CONV (minute t1)) (CONV (hour t1)) (CONV (day t1)) (CONV (month t1)) (CONV (year t1))
            else t1 in
  mret (mkdate (second t1) (minute t1) (hour t1) (day t1) (month t1) (u32 (year t1 + 2000))).
End chips.

(** ** The redirection table *)

Lemma upd_same {A} k (v : A) f : upd k v f k = v.
Proof. unfold upd. by rewrite Z.eqb_refl. Qed.

Lemma upd_other {A} k (v : A) f x : x ≠ k → upd k v f x = f x.
Proof. intros H. unfold upd. by rewrite (proj2 (Z.eqb_neq _ _) H). Qed.

(** What the device makes of the two registers of an entry. *)
Record redir : Type := mkredir { r_vector : Z; r_masked : bool; r_level : bool; r_low : bool; r_logical : bool; r_dest : Z }.
Definition entry_of (f : Z → Z) (i : Z) : redir :=
  let lo := f (REG_TABLE + 2 * i) in
  mkredir (Z.land lo 0xff) (Z.testbit lo 16) (Z.testbit lo 15) (Z.testbit lo 13) (Z.testbit lo 11) (Z.shiftr (f (REG_TABLE + 2 * i + 1)) 24).

Lemma ioapicread_ok reg s : x_ioapic s = true → ioapicread reg s = Ok (x_ioregs s reg) (x_io reg (x_ioregs s) s).
Proof. intros H. unfold ioapicread, with_ioapic, get, mbind, M_bind. by rewrite H. Qed.

Lemma ioapicwrite_ok reg d s : x_ioapic s = true → ioapicwrite reg d s = Ok tt (x_io reg (upd reg (u32 d) (x_ioregs s)) s).
Proof. intros H. unfold ioapicwrite, with_ioapic, get, mbind, M_bind. by rewrite H. Qed.

(** Vectors up to the last byte value are what the table takes. *)
Lemma low_bits b i : 0 ≤ i < 224 →
  let lo := u32 (Z.lor (if b : bool then INT_DISABLED else 0) (T_IRQ0 + i)) in
  Z.land lo 0xff = T_IRQ0 + i ∧ Z.testbit lo 16 = b ∧ Z.testbit lo 15 = false ∧ Z.testbit lo 13 = false ∧ Z.testbit lo 11 = false.
Proof.
  intros Hi. pose (ok := λ b i, let lo := u32 (Z.lor (if b : bool then INT_DISABLED else 0) (T_IRQ0 + Z.of_nat i)) in
    (Z.land lo 0xff =? T_IRQ0 + Z.of_nat i) && Bool.eqb (Z.testbit lo 16) b && negb (Z.testbit lo 15) && negb (Z.testbit lo 13) && negb (Z.testbit lo 11)).
  assert (H : forallb (λ i, ok true i && ok false i) (seq 0 224) = true) by by vm_compute.
  rewrite forallb_forall in H. specialize (H (Z.to_nat i)). rewrite in_seq in H. specialize (H ltac:(lia)).
  apply andb_prop in H as [Ht Hf]. assert (Hb : ok b (Z.to_nat i) = true) by (by destruct b).
  unfold ok in Hb. rewrite Z2Nat.id in Hb by lia. intros lo. fold lo in Hb.
  rewrite !andb_true_iff, !negb_true_iff, Z.eqb_eq, eqb_true_iff in Hb. tauto.
Qed.

Lemma ioapicenable_ok irq cpu s : x_ioapic s = true →
  ioapicenable irq cpu s = Ok tt (x_io (REG_TABLE + 2 * irq + 1)
    (upd (REG_TABLE + 2 * irq + 1) (u32 (Z.shiftl cpu 24)) (upd (REG_TABLE + 2 * irq) (u32 (T_IRQ0 + irq)) (x_ioregs s))) s).
Proof. intros H. unfold ioapicenable. rewrite (bind_ok _ _ _ _ _ (ioapicwrite_ok _ _ s H)). by rewrite ioapicwrite_ok. Qed.

(** An interrupt line that is enabled raises its vector at the processor, and the
    other lines stay as they were. *)
Lemma ioapicenable_routes irq cpu s : x_ioapic s = true → 0 ≤ irq < 224 → 0 ≤ cpu < 256 →
  ∃ r f, ioapicenable irq cpu s = Ok tt (x_io r f s) ∧
    entry_of f irq = mkredir (T_IRQ0 + irq) false false false false cpu ∧
    ∀ j, j ≠ irq → entry_of f j = entry_of (x_ioregs s) j.
Proof.
  intros H Hi Hc. eexists _, _. split; [by apply ioapicenable_ok|]. split.
  - unfold entry_of. rewrite upd_same, upd_other, upd_same by lia.
    destruct (low_bits false irq Hi) as (E1 & E2 & E3 & E4 & E5). cbv zeta in *. rewrite Z.lor_0_l in *. rewrite E1, E2, E3, E4, E5. f_equal.
    unfold u32. rewrite Z.shiftl_mul_pow2, Z.shiftr_div_pow2, Z.mod_small by lia. change (2 ^ 24) with 16777216. lia.
  - intros j Hj. unfold entry_of. by rewrite !upd_other by lia.
Qed.

(** Everything but the I/O APIC and the messages is the same. *)
Definition io_only (s s' : chips) : Prop :=
  x_regs s' = x_regs s ∧ x_lapic s' = x_lapic s ∧ x_busy s' = x_busy s ∧ x_aps s' = x_aps s ∧ x_mem s' = x_mem s ∧ x_ports s' = x_ports s.

Lemma ioapic_mask_line i s : x_ioapic s = true → 0 ≤ i < 224 → ∃ r f,
  (ioapicwrite (REG_TABLE + 2 * i) (Z.lor INT_DISABLED (T_IRQ0 + i));; ioapicwrite (REG_TABLE + 2 * i + 1) 0) s = Ok tt (x_io r f s) ∧
  entry_of f i = mkredir (T_IRQ0 + i) true false false false 0 ∧ ∀ j, j ≠ i → entry_of f j = entry_of (x_ioregs s) j.
Proof.
  intros H Hi. rewrite (bind_ok _ _ _ _ _ (ioapicwrite_ok _ _ s H)), ioapicwrite_ok by done. eexists _, _. split; [done|]. cbn [x_io x_ioregs]. split.
  - unfold entry_of. rewrite upd_same, upd_other, upd_same by lia.
    destruct (low_bits true i Hi) as (E1 & E2 & E3 & E4 & E5). cbv zeta in *. by rewrite E1, E2, E3, E4, E5.
  - intros j Hj. unfold entry_of. by rewrite !upd_other by lia.
Qed.

(** After [ioapicinit] every line of the device is masked, edge-triggered, and has
    the vector that [trap] knows it by. *)
Lemma ioapicinit_masks id s : let maxintr := Z.land (Z.shiftr (x_ioregs s REG_VER) 16) 0xff in
  maxintr < 224 →
  ∃ s', ioapicinit id s = Ok tt s' ∧ x_ioapic s' = true ∧ io_only s s' ∧
    (∀ i, 0 ≤ i ≤ maxintr → entry_of (x_ioregs s') i = mkredir (T_IRQ0 + i) true false false false 0).
Proof.
  intros mx Hmx. unfold ioapicinit. rewrite bind_modify. set (s1 := x_point s).
  rewrite (bind_ok _ _ _ _ _ (ioapicread_ok REG_VER s1 eq_refl)).
  set (s2 := x_io REG_VER _ s1). rewrite (bind_ok _ _ _ _ _ (ioapicread_ok IOAPIC_REG_ID s2 eq_refl)).
  set (s3 := x_io IOAPIC_REG_ID _ s2). cbv zeta. change (x_ioregs s1 REG_VER) with (x_ioregs s REG_VER). fold mx.
  assert (∃ s4, (if negb (Z.shiftr (x_ioregs s2 IOAPIC_REG_ID) 24 =? id) then modify (x_msg "ioapicinit: id isn't equal to ioapicid; not a MP") else mret tt) s3 = Ok tt s4 ∧
    x_ioapic s4 = true ∧ io_only s s4) as (s4 & E4 & Hp & Ho) by (destruct (negb _); eexists; split_and!; done).
  rewrite (bind_ok _ _ _ _ _ E4). clear E4.
  pose (I := λ k s', x_ioapic s' = true ∧ io_only s s' ∧
    ∀ i, 0 ≤ i < k → entry_of (x_ioregs s') i = mkredir (T_IRQ0 + i) true false false false 0).
  destruct (for_each_inv I (λ i, ioapicwrite (REG_TABLE + 2 * i) (Z.lor INT_DISABLED (T_IRQ0 + i));; ioapicwrite (REG_TABLE + 2 * i + 1) 0)
    (Z.to_nat (mx + 1)) 0 s4) as (s' & E & H1 & H2 & H3).
  - split_and!; [done|done|lia].
  - intros i s5 Hi (P1 & P2 & P3). destruct (ioapic_mask_line i s5 P1) as (r & f & E & Hf & Hj); [lia|].
    exists (x_io r f s5). split; [done|]. split_and!; [done|done|]. intros j Hlt. cbn [x_io x_ioregs].
    destruct (decide (j = i)) as [->|]; [done|]. rewrite Hj by done. apply P3. lia.
  - exists s'. split_and!; [done..|]. intros i Hi. apply H3. lia.
Qed.

(** ** The local APIC *)

Section lapic.
Context (delay : nat) (la_ver : Z).

Lemma lapicw_ok index v s : index ≠ ICRLO → lapicw delay index v s = Ok tt (x_la (upd index (u32 v) (x_regs s)) (x_busy s) (x_aps s) s).
Proof. intros H. unfold lapicw, modify. by rewrite (proj2 (Z.eqb_neq _ _) H). Qed.

Lemma lapicw_step index v (rest : M chips unit) s : index ≠ ICRLO →
  (lapicw delay index v;; rest) s = rest (x_la (upd index (u32 v) (x_regs s)) (x_busy s) (x_aps s) s).
Proof. intros H. by rewrite (bind_ok _ _ _ _ _ (lapicw_ok index v s H)). Qed.

(** A write of ICRLO sends the command. *)
Lemma lapicw_send v (rest : M chips unit) s : (lapicw delay ICRLO v;; rest) s =
  rest (x_la (upd ICRLO (u32 v) (x_regs s)) delay (send (x_regs s ICRHI) (u32 v) (x_aps s)) s).
Proof. done. Qed.

Lemma wait_delivered_ok n : ∀ fuel s, x_busy s = n → (n < fuel)%nat → Z.testbit (x_regs s ICRLO) 12 = false →
  wait_delivered fuel s = Ok tt (x_la (x_regs s) 0 (x_aps s) s).
Proof.
  induction n as [|n IH]; intros fuel s Hb Hf Ht; (destruct fuel as [|fuel]; [lia|]); cbn [wait_delivered];
    unfold read_icr; rewrite bind_assoc; (rewrite (bind_ok _ _ _ _ _ (eq_refl : get s = Ok s s))); rewrite Hb.
  - rewrite bind_ret_l. replace (Z.land (x_regs s ICRLO) DELIVS) with 0.
    + destruct s; cbn in Hb |- *. by subst.
    + symmetry. apply Z.bits_inj'. intros k Hk. rewrite Z.land_spec, Z.bits_0. change DELIVS with (2 ^ 12).
      rewrite Z.pow2_bits_eqb by lia. destruct (Z.eqb_spec 12 k) as [<-|]; [by rewrite Ht|apply andb_false_r].
  - rewrite bind_assoc. set (s1 := x_la (x_regs s) n (x_aps s) s).
    rewrite (bind_ok _ _ _ _ _ (eq_refl : put s1 s = Ok tt s1)), bind_ret_l.
    replace (negb (Z.land (Z.lor (x_regs s ICRLO) DELIVS) DELIVS =? 0)) with true.
    + rewrite (IH fuel s1); [done|done|lia|done].
    + symmetry. apply negb_true_iff, Z.eqb_neq. intros H. apply (f_equal (λ z, Z.testbit z 12)) in H.
      rewrite Z.land_spec, Z.lor_spec in H. change (Z.testbit DELIVS 12) with true in H. by rewrite orb_true_r in H.
Qed.

(** What [lapicinit] leaves: the unit is on, the timer counts periodically and
    raises the vector of the clock, the error vector is set, the lines of the old
    controllers are masked and every interrupt is let through. *)
Record lapic_on (f : Z → Z) : Prop := {
  lo_svr : Z.testbit (f SVR) 8 = true ∧ Z.land (f SVR) 0xff = T_IRQ0 + IRQ_SPURIOUS;
  lo_timer : Z.testbit (f TIMER) 17 = true ∧ Z.testbit (f TIMER) 16 = false ∧ Z.land (f TIMER) 0xff = T_IRQ0 + IRQ_TIMER;
  lo_count : f TICR = 10000000 ∧ f TDCR = X1;
  lo_lint : Z.testbit (f LINT0) 16 = true ∧ Z.testbit (f LINT1) 16 = true;
  lo_error : f ERROR = T_IRQ0 + IRQ_ERROR;
  lo_tpr : f TPR = 0 }.

(** [lapicinit] returns as soon as its message is delivered, and no other processor
    is reset by it. *)
Lemma lapicinit_ok fuel s : x_lapic s = true → (delay < fuel)%nat →
  ∃ f, lapicinit delay la_ver fuel s = Ok tt (x_la f 0 (x_aps s) s) ∧ lapic_on f ∧
    (4 ≤ Z.land (Z.shiftr la_ver 16) 0xff → Z.testbit (f PCINT) 16 = true).
Proof.
  intros Hl Hf. unfold lapicinit. rewrite (bind_ok _ _ _ _ _ (eq_refl : get s = Ok s s)), Hl. cbn [negb].
  do 6 (rewrite lapicw_step by done). set (s6 := x_la _ _ _ _).
  assert (∃ f, (if 4 <=? Z.land (Z.shiftr la_ver 16) 0xff then lapicw delay PCINT MASKED else mret tt) s6 = Ok tt (x_la f (x_busy s) (x_aps s) s) ∧
    (∀ k, k ≠ PCINT → f k = x_regs s6 k) ∧ (4 ≤ Z.land (Z.shiftr la_ver 16) 0xff → f PCINT = MASKED)) as (f & E & F1 & F2).
  { destruct (Z.leb_spec 4 (Z.land (Z.shiftr la_ver 16) 0xff)).
    - rewrite lapicw_ok by done. eexists. split; [reflexivity|]. split; [intros k Hk; by rewrite upd_other|intros _; by rewrite upd_same].
    - exists (x_regs s6). split_and!; [done|done|lia]. }
  rewrite (bind_ok _ _ _ _ _ E). do 5 (rewrite lapicw_step by done).
  rewrite lapicw_send. set (s7 := x_la _ delay _ _).
  rewrite (bind_ok _ _ _ _ _ (wait_delivered_ok delay fuel s7 eq_refl Hf eq_refl)). rewrite lapicw_ok by done.
  cbn [x_la x_regs x_busy x_aps] in *. eexists. split; [reflexivity|].
  match goal with |- lapic_on ?F ∧ _ => set (g := F) end.
  assert (Hg : g SVR = 0x13f ∧ g TIMER = 0x20020 ∧ g LINT0 = MASKED ∧ g LINT1 = MASKED ∧ g TICR = 10000000 ∧ g TDCR = X1).
  { split_and!; match goal with |- g ?k = ?v => change (f k = v); rewrite F1 by done; reflexivity end. }
  destruct Hg as (G1 & G2 & G3 & G4 & G5 & G6). split.
  - split; rewrite ?G1, ?G2, ?G3, ?G4, ?G5, ?G6; split_and?; reflexivity.
  - intros Hv. change (g PCINT) with (f PCINT). by rewrite (F2 Hv).
Qed.

Lemma startup_bits v : 0 ≤ v < 256 → let lo := u32 (Z.lor STARTUP v) in
  Z.land (Z.shiftr lo 18) 3 = 0 ∧ Z.land (Z.shiftr lo 8) 7 = 6 ∧ Z.land lo 0xff = v.
Proof.
  intros Hv. pose (ok := λ i, let lo := u32 (Z.lor STARTUP (Z.of_nat i)) in
    (Z.land (Z.shiftr lo 18) 3 =? 0) && (Z.land (Z.shiftr lo 8) 7 =? 6) && (Z.land lo 0xff =? Z.of_nat i)).
  assert (H : forallb ok (seq 0 256) = true) by by vm_compute.
  rewrite forallb_forall in H. specialize (H (Z.to_nat v)). rewrite in_seq in H. specialize (H ltac:(lia)).
  unfold ok in H. rewrite Z2Nat.id in H by lia. intros lo. fold lo in H. rewrite !andb_true_iff, !Z.eqb_eq in H. tauto.
Qed.

Lemma send_one hi lo aps id : Z.land (Z.shiftr lo 18) 3 = 0 → Z.shiftr hi 24 = id →
  send hi lo aps id = ap_command lo (aps id) ∧ ∀ j, j ≠ id → send hi lo aps j = aps j.
Proof.
  intros H1 H2. unfold send. rewrite H1, H2. cbn [Z.eqb]. split; [by rewrite Z.eqb_refl|].
  intros j Hj. by rewrite (proj2 (Z.eqb_neq _ _) Hj).
Qed.

(** The processor [id] is reset and then starts at [addr]; the second STARTUP
    finds it running.  No other processor is touched; the memory changes only at the
    warm reset vector. *)
Lemma lapicstartap_starts id addr s : 0 ≤ id < 256 → 0 ≤ addr < 2 ^ 20 → addr mod 4096 = 0 →
  ∃ s', lapicstartap delay id addr s = Ok tt s' ∧ x_aps s' id = Running addr ∧ (∀ j, j ≠ id → x_aps s' j = x_aps s j) ∧
    (∀ a, a < 0x467 ∨ 0x46b ≤ a → x_mem s' a = x_mem s a) ∧ x_lapic s' = x_lapic s ∧ x_ioapic s' = x_ioapic s ∧ x_ioregs s' = x_ioregs s.
Proof.
  intros Hid Ha Hal. unfold lapicstartap, outb. rewrite !bind_modify. cbv zeta.
  set (s1 := x_store _ _ _).
  assert (Hhi : Z.shiftr (u32 (Z.shiftl id 24)) 24 = id).
  { unfold u32. rewrite Z.shiftl_mul_pow2, Z.shiftr_div_pow2, Z.mod_small by lia. change (2 ^ 24) with 16777216. lia. }
  assert (Hv : 0 ≤ Z.shiftr addr 12 < 256) by (rewrite Z.shiftr_div_pow2 by lia; change (2 ^ 12) with 4096; lia).
  destruct (startup_bits _ Hv) as (B1 & B2 & B3).
  rewrite lapicw_step by done. rewrite !lapicw_send. cbn [for_each]. rewrite bind_assoc.
  rewrite lapicw_step by done. rewrite lapicw_send. rewrite bind_assoc. rewrite lapicw_step by done. rewrite lapicw_send.
  cbn [x_la x_regs x_busy x_aps]. eexists. split; [reflexivity|]. cbn [x_la x_aps x_mem x_lapic x_ioapic x_ioregs].
  rewrite !(upd_other ICRLO) by done. rewrite !upd_same.
  set (hi := u32 (Z.shiftl id 24)) in *. set (lo := u32 (Z.lor STARTUP (Z.shiftr addr 12))) in *.
  set (a1 := send hi (u32 (Z.lor (Z.lor INIT LEVEL) ASSERT)) (x_aps s1)). set (a2 := send hi (u32 (Z.lor INIT LEVEL)) a1).
  destruct (send_one hi (u32 (Z.lor (Z.lor INIT LEVEL) ASSERT)) (x_aps s1) id eq_refl Hhi) as [S1 O1].
  destruct (send_one hi (u32 (Z.lor INIT LEVEL)) a1 id eq_refl Hhi) as [S2 O2].
  destruct (send_one hi lo a2 id B1 Hhi) as [S3 O3]. destruct (send_one hi lo (send hi lo a2) id B1 Hhi) as [S4 O4].
  split_and!; try done.
  - rewrite S4, S3. unfold a2. rewrite S2. unfold a1. rewrite S1. unfold ap_command at 3 4. cbn -[ap_command].
    unfold ap_command. rewrite B2, B3. cbn [Z.eqb Pos.eqb andb]. f_equal.
    rewrite Z.shiftl_mul_pow2, Z.shiftr_div_pow2 by lia. change (2 ^ 12) with 4096. lia.
  - intros j Hj. rewrite O4, O3 by done. unfold a2. rewrite O2 by done. unfold a1. by rewrite O1.
  - intros a Haa. unfold s1. cbn [x_store x_mem x_port]. change (Z.lor (Z.shiftl 0x40 4) 0x67) with 0x467. by rewrite !store_out by (simpl; lia).
Qed.
End lapic.

(** ** The time *)

Section clock.
Context (clock : nat → Z → Z).

Definition FIELDS : list Z := [SECS; MINS; HOURS; DAY; MONTH; YEAR].

(** The date in the registers at a moment. *)
Definition shown (t : nat) : rtcdate :=
  mkdate (clock t SECS) (clock t MINS) (clock t HOURS) (clock t DAY) (clock t MONTH) (clock t YEAR).

Definition uip (t : nat) : bool := negb (Z.land (clock t CMOS_STATA) CMOS_UIP =? 0).

(** What the chip promises: when no update is in progress, none begins during the
    next reads. *)
Definition announces : Prop := ∀ t k r, uip t = false → (k ≤ 6)%nat → r ∈ FIELDS → clock (t + k) r = clock t r.

(** From [T] on there are [n] reads without an update. *)
Definition still (T n : nat) : Prop := ∀ k, (k < n)%nat → uip (T + k) = false ∧ ∀ r, r ∈ FIELDS → clock (T + k) r = clock T r.

Definition x_read (reg : Z) (s : chips) : chips := x_tick (x_port CMOS_PORT reg s).

Lemma cmos_read_ok reg s : cmos_read clock reg s = Ok (clock (x_time s) (u8 reg)) (x_read reg s).
Proof. reflexivity. Qed.

(** The six registers, each at its own moment. *)
Definition filled (t : nat) : rtcdate :=
  mkdate (clock t SECS) (clock (t + 1) MINS) (clock (t + 2) HOURS) (clock (t + 3) DAY) (clock (t + 4) MONTH) (clock (t + 5) YEAR).

Lemma fill_ok s : ∃ s', fill_rtcdate clock s = Ok (filled (x_time s)) s' ∧ x_time s' = (x_time s + 6)%nat.
Proof.
  unfold fill_rtcdate. do 6 rewrite (bind_ok _ _ _ _ _ (cmos_read_ok _ _)).
  eexists. split.
  - cbn [x_read x_tick x_port x_time]. unfold mret, M_ret, filled. f_equal. f_equal; f_equal; lia.
  - cbn [x_read x_tick x_port x_time]. lia.
Qed.

(** A reading during which nothing changes. *)
Lemma filled_shown t : (∀ k r, (k < 6)%nat → r ∈ FIELDS → clock (t + k) r = clock t r) → filled t = shown t.
Proof.
  intros H. unfold filled, shown. f_equal; apply H; try lia; unfold FIELDS; set_solver.
Qed.

(** One round of the loop: it goes on, or returns a date that the clock showed. *)
Lemma cmostime_round fuel s : announces →
  ∃ s', ((cmostime_loop clock (S fuel) s = cmostime_loop clock fuel s' ∧ (∀ n, (13 ≤ n)%nat → ¬ still (x_time s) n)) ∨
     (∃ t, cmostime_loop clock (S fuel) s = Ok (shown t) s' ∧ (x_time s ≤ t < x_time s')%nat)) ∧
    (x_time s + 7 ≤ x_time s' ≤ x_time s + 13)%nat.
Proof.
  intros Ha. cbn [cmostime_loop]. destruct (fill_ok s) as (s1 & E1 & T1). rewrite (bind_ok _ _ _ _ _ E1), (bind_ok _ _ _ _ _ (cmos_read_ok _ _)).
  change (u8 CMOS_STATA) with CMOS_STATA. fold (uip (x_time s1)). set (s2 := x_read CMOS_STATA s1).
  assert (T2 : x_time s2 = S (x_time s1)) by done. destruct (uip (x_time s1)) eqn:Eu.
  - exists s2. split; [left; split; [done|]|lia]. intros n Hn Hs. destruct (Hs 6%nat ltac:(lia)) as [Hu _]. rewrite <- T1 in Hu. congruence.
  - destruct (fill_ok s2) as (s3 & E3 & T3). rewrite (bind_ok _ _ _ _ _ E3).
    assert (F2 : filled (x_time s2) = shown (x_time s1)).
    { rewrite filled_shown, T2.
      - unfold shown. f_equal; (rewrite <- Nat.add_1_r; apply Ha; [done|lia|unfold FIELDS; set_solver]).
      - intros k r Hk Hr. rewrite T2, <- Nat.add_1_r, <- Nat.add_assoc, !Ha by (done || lia). done. }
    exists s3. case_bool_decide as Heq.
    + split; [|lia]. right. exists (x_time s1). split; [|lia]. by rewrite Heq, F2.
    + split; [|lia]. left. split; [done|]. intros n Hn Hs. apply Heq. rewrite F2, filled_shown.
      * unfold shown. f_equal; (rewrite T1; symmetry; apply Hs; [lia|unfold FIELDS; set_solver]).
      * intros k r Hk Hr. by apply Hs; [lia|].
Qed.

(** Once the clock is still for long enough the loop returns, with a date that was
    in the clock. *)
Lemma cmostime_loop_ok T : announces → still T 27 → ∀ fuel s, (x_time s ≤ T + 13)%nat → (T - x_time s < fuel)%nat →
  ∃ t s', cmostime_loop clock fuel s = Ok (shown t) s' ∧ (x_time s ≤ t < x_time s')%nat.
Proof.
  intros Ha Hs. induction fuel as [|fuel IH]; intros s Ht Hf; [lia|].
  destruct (cmostime_round fuel s Ha) as (s1 & [[E Hn]|(t & E & Hr)] & Hb); [|eauto].
  destruct (decide (T ≤ x_time s)%nat) as [Hle|].
  - exfalso. apply (Hn 13%nat); [lia|]. intros k Hk.
    replace (x_time s + k)%nat with (T + (x_time s - T + k))%nat by lia. destruct (Hs (x_time s - T + k)%nat) as [H1 H2]; [lia|].
    split; [done|]. intros r Hr. rewrite H2 by done. destruct (Hs (x_time s - T)%nat) as [_ H3]; [lia|].
    rewrite <- (H3 r Hr). f_equal. lia.
  - destruct (IH s1) as (t & s' & E' & Hr); [lia|lia|]. exists t, s'. rewrite E, E'. split; [done|lia].
Qed.

(** The two ways the chip writes a number below 100. *)
Definition digits (bcd : bool) (x : Z) : Z := if bcd then 16 * (x / 10) + x mod 10 else x.
Definition date_map (f : Z → Z) (d : rtcdate) : rtcdate := mkdate (f (second d)) (f (minute d)) (f (hour d)) (f (day d)) (f (month d)) (f (year d)).
Definition date_range (d : rtcdate) : Prop :=
  Forall (λ x, 0 ≤ x < 100) [second d; minute d; hour d; day d; month d; year d].

Lemma CONV_digits x : 0 ≤ x < 100 → CONV (digits true x) = x.
Proof.
  intros Hx. unfold CONV, digits. change 0xf with (Z.ones 4). rewrite Z.land_ones, Z.shiftr_div_pow2 by lia. change (2 ^ 4) with 16.
  unfold u32. rewrite Z.mod_small; lia.
Qed.

(** The time of day: on a chip that counts [dates] in either of its two formats and
    announces its updates, [cmostime] returns, as soon as there are 27 reads without
    an update; the date is one that the clock had while it was read, never
    a mixture of two, with the year of this century. *)
Theorem cmostime_correct (dates : nat → rtcdate) (bcd : bool) T fuel s :
  announces → (∀ t, date_range (dates t)) → (∀ t, shown t = date_map (digits bcd) (dates t)) →
  (∀ t, (Z.land (clock t CMOS_STATB) (Z.shiftl 1 2) =? 0) = bcd) →
  still T 27 → (x_time s < T)%nat → (T - x_time s < fuel)%nat →
  ∃ t s', (x_time s ≤ t < x_time s')%nat ∧
    let d := dates t in cmostime clock fuel s = Ok (mkdate (second d) (minute d) (hour d) (day d) (month d) (2000 + year d)) s'.
Proof.
  intros Ha Hr Hd Hm Hs Ht Hf. unfold cmostime. rewrite (bind_ok _ _ _ _ _ (cmos_read_ok _ _)). change (u8 CMOS_STATB) with CMOS_STATB. rewrite Hm.
  set (s1 := x_read CMOS_STATB s). assert (T1 : x_time s1 = S (x_time s)) by done.
  destruct (cmostime_loop_ok T Ha Hs fuel s1) as (t & s' & E & Hb); [lia|lia|].
  exists t, s'. split; [lia|]. rewrite (bind_ok _ _ _ _ _ E). cbv zeta. rewrite Hd. pose proof (Hr t) as R.
  unfold date_range in R. rewrite !Forall_cons in R. destruct R as (R1 & R2 & R3 & R4 & R5 & R6 & _).
  unfold mret, M_ret. f_equal. assert (Hy : u32 (year (dates t) + 2000) = 2000 + year (dates t)) by (unfold u32; rewrite Z.mod_small; lia).
  destruct bcd; cbn [date_map second minute hour day month year].
  - by rewrite !CONV_digits, Hy.
  - by rewrite <- Hy.
Qed.
End clock.

(** A clock that goes from one second to the next at the eighth read. *)
Definition DATES (t : nat) : rtcdate := mkdate (if (t <? 8)%nat then 59 else 0) (if (t <? 8)%nat then 7 else 8) 12 15 11 26.
Definition CLOCK (t : nat) (r : Z) : Z :=
  let d := date_map (digits true) (DATES t) in
  if r =? SECS then second d else if r =? MINS then minute d else if r =? HOURS then hour d else if r =? DAY then day d
  else if r =? MONTH then month d else if r =? YEAR then year d else if r =? CMOS_STATA then (if (t <? 8)%nat then CMOS_UIP else 0) else 0.
Definition CHIPS : chips := mkchips false 0 (λ _, 0) false (λ _, 0) 0 (λ _, Halted) 0 0 [] (λ _, 0) [].

Lemma cmostime_correct_witness : ∃ t s', (t < x_time s')%nat ∧ let d := DATES t in
  cmostime CLOCK 20 CHIPS = Ok (mkdate (second d) (minute d) (hour d) (day d) (month d) (2000 + year d)) s'.
Proof.
  assert (L : ∀ t r, (8 ≤ t)%nat → r ∈ FIELDS → CLOCK t r = CLOCK 8 r).
  { intros t r Ht Hr. unfold CLOCK, DATES. by rewrite (proj2 (Nat.ltb_ge t 8)) by lia. }
  assert (U : ∀ t, uip CLOCK t = (t <? 8)%nat) by (intros t; unfold uip; change (CLOCK t CMOS_STATA) with (if (t <? 8)%nat then CMOS_UIP else 0); by destruct (t <? 8)%nat).
  destruct (cmostime_correct CLOCK DATES true 8 20 CHIPS) as (t & s' & Ht & E).
  - intros t k r Hu Hk Hr. rewrite U, Nat.ltb_ge in Hu. by rewrite (L (t + k)%nat r), (L t r) by (done || lia).
  - intros t. unfold date_range, DATES. destruct (t <? 8)%nat; repeat (constructor; [cbn; lia|]); constructor.
  - intros t. done.
  - intros t. done.
  - intros k Hk. split; [rewrite U; apply Nat.ltb_ge; lia|]. intros r Hr. apply L; [lia|done].
  - simpl. lia.
  - simpl. lia.
  - exists t, s'. split; [lia|done].
Defined.
