(* ===== verification/Console.v ===== *)
(** * The console: console.c, with the serial port of uart.c

    The state is the variables of console.c (the lock, the input ring with its
    three indices), the screen (the cells of the CGA memory and the cursor) and
    the serial port (the bytes sent, and those that wait to be read).  The CPU
    that meets [panicked] stays in a loop: this is [NoFuel], here and in the
    theorems.  [wakeup] is recorded; the inode locks and [procdump] are
    arguments.  Characters in the ring are bytes.

    The first group of theorems is on the screen: the cursor never leaves it, so
    [cgaputc] never panics, and every cell is as it should be ([cgaputc_correct]).  The second says that the ring implements a line
    discipline, a queue of finished lines and a line that is being edited
    ([cons_char_ok], [consoleread_run_ok]); the interrupt handler is proved for
    any source of characters ([CharSource]), of which the serial port is one and
    the keyboard (Kbd.v) the other.  Terminal.v puts them together. *)

From S2P Require Import Prelude Params Sleeplock Printf.

Definition BACKSPACE : Z := 0x100.
Definition INPUT_BUF : Z := 128.
(** [C(x)], for the characters P, U, H and D. *)
Definition C_P : Z := 16.
Definition C_U : Z := 21.
Definition C_H : Z := 8.
Definition C_D : Z := 4.
Definition DEL : Z := 127.
Definition NEWLINE : Z := 10.
Definition RETURN : Z := 13.
(** The cells of the CGA memory, 32 kilobytes of them. *)
Definition CRTCELLS : nat := 16384.

Record input : Type := mkin { i_buf : list Z; i_r : Z; i_w : Z; i_e : Z }.

(** [struct devsw]: the functions of a device, the two of the console or none. *)
Inductive devfn : Type := Fconsoleread | Fconsolewrite.
Record devsw : Type := mkdevsw { dv_read : option devfn; dv_write : option devfn }.
Definition nodev : devsw := mkdevsw None None.
Definition CONSOLE : Z := 1.

Record con : Type := mkcon {
  c_lock : bool;
  c_locking : Z;
  c_panicked : bool;
  c_in : input;
  c_pos : Z;                (* the cursor of the CRT controller *)
  c_crt : list Z;
  c_uart : bool;
  c_sent : list Z;          (* sent to COM1 *)
  c_recv : list Z;          (* waiting at COM1 *)
  c_woken : list Z;
  c_shift : Z;              (* the static variable of kbdgetc *)
  c_keys : list Z;          (* scan codes waiting at the keyboard controller *)
  c_devsw : list devsw }.

Definition set_c_lock b s := mkcon b (c_locking s) (c_panicked s) (c_in s) (c_pos s) (c_crt s) (c_uart s) (c_sent s) (c_recv s) (c_woken s) (c_shift s) (c_keys s) (c_devsw s).
Definition set_c_locking z s := mkcon (c_lock s) z (c_panicked s) (c_in s) (c_pos s) (c_crt s) (c_uart s) (c_sent s) (c_recv s) (c_woken s) (c_shift s) (c_keys s) (c_devsw s).
Definition set_c_panicked b s := mkcon (c_lock s) (c_locking s) b (c_in s) (c_pos s) (c_crt s) (c_uart s) (c_sent s) (c_recv s) (c_woken s) (c_shift s) (c_keys s) (c_devsw s).
Definition set_c_in i s := mkcon (c_lock s) (c_locking s) (c_panicked s) i (c_pos s) (c_crt s) (c_uart s) (c_sent s) (c_recv s) (c_woken s) (c_shift s) (c_keys s) (c_devsw s).
Definition set_c_screen p m s := mkcon (c_lock s) (c_locking s) (c_panicked s) (c_in s) p m (c_uart s) (c_sent s) (c_recv s) (c_woken s) (c_shift s) (c_keys s) (c_devsw s).
Definition set_c_sent l s := mkcon (c_lock s) (c_locking s) (c_panicked s) (c_in s) (c_pos s) (c_crt s) (c_uart s) l (c_recv s) (c_woken s) (c_shift s) (c_keys s) (c_devsw s).
Definition set_c_recv l s := mkcon (c_lock s) (c_locking s) (c_panicked s) (c_in s) (c_pos s) (c_crt s) (c_uart s) (c_sent s) l (c_woken s) (c_shift s) (c_keys s) (c_devsw s).
Definition wake_c ch s := mkcon (c_lock s) (c_locking s) (c_panicked s) (c_in s) (c_pos s) (c_crt s) (c_uart s) (c_sent s) (c_recv s) (c_woken s ++ [ch]) (c_shift s) (c_keys s) (c_devsw s).
Definition set_c_kbd z l s := mkcon (c_lock s) (c_locking s) (c_panicked s) (c_in s) (c_pos s) (c_crt s) (c_uart s) (c_sent s) (c_recv s) (c_woken s) z l (c_devsw s).
Definition set_c_devsw l s := mkcon (c_lock s) (c_locking s) (c_panicked s) (c_in s) (c_pos s) (c_crt s) (c_uart s) (c_sent s) (c_recv s) (c_woken s) (c_shift s) (c_keys s) l.

Notation M := (M con).
Definition acquire_c : M unit := acquire c_lock set_c_lock.
Definition release_c : M unit := release c_lock set_c_lock.

(** ** The serial port *)

Definition uartputc (c : Z) : M unit :=
  s ← get;
  if c_uart s then modify (set_c_sent (c_sent s ++ [u8 c])) else mret tt.

Definition uartgetc : M Z :=
  s ← get;
  if c_uart s then
    match c_recv s with
    | [] => mret (-1)
    | c :: rest => modify (set_c_recv rest);; mret c
    end
  else mret (-1).

(** ** The screen *)

Definition cell (c : Z) : Z := Z.lor (Z.land c 0xff) 0x0700.

(** [crt[i] = v] *)
Definition crt_set (i v : Z) (m : list Z) : option (list Z) :=
  if (0 <=? i) && (i <? Z.of_nat (length m)) then Some (<[Z.to_nat i := v]> m) else None.

Definition cgaputc (c : Z) : M unit :=
  s ← get;
  let pos := c_pos s in
  '(pos, crt) ←
    (if c =? NEWLINE then mret (pos + (80 - pos mod 80), c_crt s)
     else if c =? BACKSPACE then mret (if 0 <? pos then pos - 1 else pos, c_crt s)
     else m ← lift_opt (crt_set pos (cell c) (c_crt s)); mret (pos + 1, m));
  if (pos <? 0) || (25 * 80 <? pos) then panic "pos under/overflow" else
  let '(pos, crt) :=
    if 24 <=? pos / 80 then
      let crt := take 1840 (drop 80 crt) ++ drop 1840 crt in
      let pos := pos - 80 in
      (pos, take (Z.to_nat pos) crt ++ replicate (Z.to_nat (24 * 80 - pos)) 0 ++ drop 1920 crt)
    else (pos, crt) in
  m ← lift_opt (crt_set pos (cell 32) crt);
  modify (set_c_screen pos m).

Definition consputc (c : Z) : M unit :=
  s ← get;
  if c_panicked s then no_fuel else
  (if c =? BACKSPACE then uartputc C_H;; uartputc 32;; uartputc C_H else uartputc c);;
  cgaputc c.

(** ** cprintf *)

Definition cdigits : list Z := str "0123456789abcdef".

Fixpoint cprint_digits (room : nat) (x base : Z) : M (list Z) :=
  match room with
  | O => undef
  | S room' =>
      d ← lift_opt (cdigits !! Z.to_nat (x mod base));
      if x / base =? 0 then mret [d]
      else ds ← cprint_digits room' (x / base) base; mret (d :: ds)
  end.

Fixpoint consputcs (l : list Z) : M unit :=
  match l with [] => mret tt | c :: l' => consputc c;; consputcs l' end.

(** The digits are put in a buffer of 16 characters, the sign after them. *)
Definition cprintint (xx base : Z) (sign : bool) : M unit :=
  let neg := sign && (xx <? 0) in
  ds ← cprint_digits 16 (u32 (if neg then - xx else xx)) base;
  if neg && (length ds =? 16)%nat then undef else
  consputcs (reverse (ds ++ (if neg then [45] else []))).

(** The loop over the format; [ap] are the arguments that are left. *)
Fixpoint cprintf_loop (fmt : list Z) (ap : list arg) : M unit :=
  match fmt with
  | [] => mret tt
  | c :: fmt' =>
      if negb (c =? PERCENT) then consputc c;; cprintf_loop fmt' ap else
      match fmt' with
      | [] => mret tt
      | c :: fmt' =>
          if c =? 100 then
            match ap with AInt w :: ap' => cprintint (s32 w) 10 true;; cprintf_loop fmt' ap' | _ => undef end
          else if (c =? 120) || (c =? 112) then
            match ap with AInt w :: ap' => cprintint (s32 w) 16 false;; cprintf_loop fmt' ap' | _ => undef end
          else if c =? 115 then
            match ap with
            | a :: ap' => s ← lift_opt (arg_str a); consputcs s;; cprintf_loop fmt' ap'
            | [] => undef
            end
          else if c =? PERCENT then consputc PERCENT;; cprintf_loop fmt' ap
          else consputc PERCENT;; consputc c;; cprintf_loop fmt' ap
      end
  end.

Definition cprintf (fmt : list Z) (ap : list arg) : M unit :=
  locking ← gets c_locking;
  (if locking =? 0 then mret tt else acquire_c);;
  cprintf_loop fmt ap;;
  if locking =? 0 then mret tt else release_c.

(** [panic] up to its endless loop: the message, the call stack [pcs], and the
    flag that stops the other CPUs. *)
Definition panic_console (lapicid : Z) (m : list Z) (pcs : list Z) : M unit :=
  modify (set_c_locking 0);;
  cprintf (str "lapicid %d: panic: ") [AInt lapicid];;
  cprintf m [];;
  cprintf [NEWLINE] [];;
  for_each 10 0 (λ i, pc ← lift_opt (pcs !! Z.to_nat i); cprintf (str " %p") [AInt pc]);;
  modify (set_c_panicked true).

(** ** Input *)

(** [input.buf[i % INPUT_BUF]] *)
Definition ring_get (i : Z) (q : input) : option Z := i_buf q !! Z.to_nat (i mod INPUT_BUF).

(** The address of [input.r], the channel readers sleep on. *)
Section con.
Context (r_chan : Z).

(** The loop of control-U; a round for each character is enough. *)
Fixpoint kill_line (fuel : nat) : M unit :=
  match fuel with
  | O => no_fuel
  | S fuel' =>
      q ← gets c_in;
      if i_e q =? i_w q then mret tt else
      c ← lift_opt (ring_get (u32 (i_e q - 1)) q);
      if c =? NEWLINE then mret tt else
      modify (set_c_in (mkin (i_buf q) (i_r q) (i_w q) (u32 (i_e q - 1))));;
      consputc BACKSPACE;;
      kill_line fuel'
  end.

Definition backspace : M unit :=
  q ← gets c_in;
  if i_e q =? i_w q then mret tt else
  modify (set_c_in (mkin (i_buf q) (i_r q) (i_w q) (u32 (i_e q - 1))));;
  consputc BACKSPACE.

(** The default case. *)
Definition put_char (c : Z) : M unit :=
  q ← gets c_in;
  if negb (c =? 0) && (u32 (i_e q - i_r q) <? INPUT_BUF) then
    let c := if c =? RETURN then NEWLINE else c in
    let e := u32 (i_e q + 1) in
    let q := mkin (<[Z.to_nat (i_e q mod INPUT_BUF) := u8 c]> (i_buf q)) (i_r q) (i_w q) e in
    modify (set_c_in q);;
    consputc c;;
    if (c =? NEWLINE) || (c =? C_D) || (e =? u32 (i_r q + INPUT_BUF)) then
      modify (set_c_in (mkin (i_buf q) (i_r q) e e));;
      modify (wake_c r_chan)
    else mret tt
  else mret tt.

Definition cons_char (c : Z) : M bool :=
  if c =? C_P then mret true
  else if c =? C_U then kill_line 129;; mret false
  else if (c =? C_H) || (c =? DEL) then backspace;; mret false
  else put_char c;; mret false.

Fixpoint consoleintr_loop (getc : M Z) (fuel : nat) (dump : bool) : M bool :=
  match fuel with
  | O => no_fuel
  | S fuel' =>
      c ← getc;
      if 0 <=? c then d ← cons_char c; consoleintr_loop getc fuel' (dump || d)
      else mret dump
  end.

Definition consoleintr (procdump : M unit) (getc : M Z) (fuel : nat) : M unit :=
  acquire_c;;
  d ← consoleintr_loop getc fuel false;
  release_c;;
  if (d : bool) then procdump else mret tt.

Definition uartintr (procdump : M unit) (fuel : nat) : M unit := consoleintr procdump uartgetc fuel.

(** ** consoleread and consolewrite *)

(** How a piece of [consoleread] ends: it returns, it fails because the process
    was killed, or it sleeps with [n] characters still to go; the characters
    are those stored at [dst] in this piece. *)
Inductive crout : Type := CDone (bs : list Z) | CFail | CSleep (bs : list Z) (n : nat).

(** The loop with the lock held, [n] being left of [target]. *)
Fixpoint consoleread_loop (killed : bool) (target n : nat) : M crout :=
  match n with
  | O => mret (CDone [])
  | S n' =>
      q ← gets c_in;
      if i_r q =? i_w q then mret (if killed then CFail else CSleep [] n) else
      c ← lift_opt (ring_get (i_r q) q);
      let r := u32 (i_r q + 1) in
      modify (set_c_in (mkin (i_buf q) r (i_w q) (i_e q)));;
      if c =? C_D then
        (if (n <? target)%nat then modify (set_c_in (mkin (i_buf q) (u32 (r - 1)) (i_w q) (i_e q))) else mret tt);;
        mret (CDone [])
      else if c =? NEWLINE then mret (CDone [c])
      else
        o ← consoleread_loop killed target n';
        mret (match o with
              | CDone bs => CDone (c :: bs)
              | CFail => CFail
              | CSleep bs m => CSleep (c :: bs) m
              end)
  end.

(** From taking the lock to giving it up, to return or to sleep. *)
Definition consoleread_run (killed : bool) (target n : nat) : M crout :=
  acquire_c;;
  o ← consoleread_loop killed target n;
  release_c;;
  mret o.

(** The whole call, for a process that does not have to wait. *)
Definition consoleread (iunlock ilock : M unit) (killed : bool) (n : Z) : M (Z * list Z) :=
  iunlock;;
  o ← consoleread_run killed (Z.to_nat n) (Z.to_nat n);
  match o with
  | CDone bs => ilock;; mret (Z.of_nat (length bs), bs)
  | CFail => ilock;; mret (-1, [])
  | CSleep _ _ => block r_chan
  end.

Definition consolewrite (iunlock ilock : M unit) (buf : list Z) (n : Z) : M Z :=
  iunlock;;
  acquire_c;;
  for_each (Z.to_nat n) 0 (λ i, c ← lift_opt (buf !! Z.to_nat i); consputc (Z.land c 0xff));;
  release_c;;
  ilock;;
  mret n.
End con.

(** [devsw[i].f = ...], with the bounds of the array. *)
Definition devsw_set (i : Z) (f : devsw → devsw) : M unit :=
  l ← gets c_devsw;
  d ← lift_opt (l !! Z.to_nat i);
  modify (set_c_devsw (<[Z.to_nat i := f d]> l)).

(** [consoleinit], without the interrupt controller (Start.v). *)
Definition consoleinit : M unit :=
  modify (set_c_lock false);;
  devsw_set CONSOLE (λ d, mkdevsw (dv_read d) (Some Fconsolewrite));;
  devsw_set CONSOLE (λ d, mkdevsw (Some Fconsoleread) (dv_write d));;
  modify (set_c_locking 1).

(** The console with its functions in the device switch. *)
Definition console_dev : devsw := mkdevsw (Some Fconsoleread) (Some Fconsolewrite).
Definition con_inited (s : con) : con :=
  set_c_locking 1 (set_c_devsw (<[Z.to_nat CONSOLE := console_dev]> (c_devsw s)) (set_c_lock false s)).

Lemma devsw_set_ok i f d s : c_devsw s !! Z.to_nat i = Some d →
  devsw_set i f s = Ok tt (set_c_devsw (<[Z.to_nat i := f d]> (c_devsw s)) s).
Proof. intros Hd. unfold devsw_set. rewrite bind_gets, Hd. reflexivity. Qed.

Lemma consoleinit_ok s : length (c_devsw s) = Z.to_nat NDEV → consoleinit s = Ok tt (con_inited s).
Proof.
  intros Hl. destruct (lookup_lt_is_Some_2 (c_devsw s) (Z.to_nat CONSOLE)) as [d Hd]; [rewrite Hl; by apply Nat.ltb_lt|].
  unfold consoleinit. rewrite bind_modify. mstep (devsw_set_ok CONSOLE (λ d, mkdevsw (dv_read d) (Some Fconsolewrite)) d (set_c_lock false s) Hd).
  set (s1 := set_c_devsw _ _).
  assert (Hd1 : c_devsw s1 !! Z.to_nat CONSOLE = Some (mkdevsw (dv_read d) (Some Fconsolewrite))) by (apply list_lookup_insert_eq; by eapply lookup_lt_Some).
  mstep (devsw_set_ok CONSOLE (λ d, mkdevsw (Some Fconsoleread) (dv_write d)) _ s1 Hd1).
  unfold con_inited, modify. f_equal. unfold s1. cbn [c_devsw set_c_devsw set_c_lock]. by rewrite list_insert_insert_eq.
Qed.

(** ** The cursor stays on the screen *)

Record screen_ok (s : con) : Prop := {
  sc_pos : 0 ≤ c_pos s < 1920;
  sc_crt : length (c_crt s) = CRTCELLS;
  sc_run : c_panicked s = false }.

Lemma crt_set_ok i v m : 0 ≤ i < Z.of_nat (length m) → crt_set i v m = Some (<[Z.to_nat i := v]> m).
Proof. intros H. unfold crt_set. by rewrite (proj2 (Z.leb_le 0 i)), (proj2 (Z.ltb_lt i _)) by lia. Qed.

Lemma CRTCELLS_Z : Z.of_nat CRTCELLS = 16384.
Proof. reflexivity. Qed.

(** The position and the cells after the character itself, before scrolling. *)
Definition cga_put (c pos : Z) (m : list Z) : Z * list Z :=
  if c =? NEWLINE then (pos + (80 - pos mod 80), m)
  else if c =? BACKSPACE then (if 0 <? pos then pos - 1 else pos, m)
  else (pos + 1, <[Z.to_nat pos := cell c]> m).

(** Scrolling up by a line of 80 cells. *)
Definition scroll (pos : Z) (m : list Z) : Z * list Z :=
  if 24 <=? pos / 80 then
    let m := take 1840 (drop 80 m) ++ drop 1840 m in
    let pos := pos - 80 in
    (pos, take (Z.to_nat pos) m ++ replicate (Z.to_nat (24 * 80 - pos)) 0 ++ drop 1920 m)
  else (pos, m).

Lemma cga_put_pos c pos m : 0 ≤ pos < 1920 → 0 ≤ (cga_put c pos m).1 ≤ 1920.
Proof.
  intros H. unfold cga_put. destruct (c =? NEWLINE); simpl; [lia|].
  destruct (c =? BACKSPACE); simpl; [|lia]. destruct (Z.ltb_spec 0 pos); lia.
Qed.

Lemma scroll_pos pos m : 0 ≤ pos ≤ 1920 → 0 ≤ (scroll pos m).1 < 1920.
Proof.
  intros H. unfold scroll. destruct (Z.leb_spec 24 (pos / 80)); simpl; lia.
Qed.

Lemma length_scroll pos m : 0 ≤ pos ≤ 1920 → length m = CRTCELLS → length (scroll pos m).2 = CRTCELLS.
Proof.
  intros H Hl. unfold scroll. destruct (24 <=? pos / 80) eqn:E; simpl; [|done].
  assert (H1 : length (take 1840 (drop 80 m) ++ drop 1840 m) = CRTCELLS).
  { rewrite length_app, length_take, !length_drop, Hl. pose proof CRTCELLS_Z. lia. }
  apply Z.leb_le in E.
  rewrite !length_app, length_take, length_replicate, length_drop, H1. pose proof CRTCELLS_Z. lia.
Qed.

Lemma length_cga_put c pos m : length (cga_put c pos m).2 = length m.
Proof.
  unfold cga_put. destruct (c =? NEWLINE); [done|]. destruct (c =? BACKSPACE); [done|]. apply length_insert.
Qed.

(** What [cgaputc] does to the screen. *)
Lemma cgaputc_eq c s : screen_ok s →
  let '(p, m) := let '(p, m) := cga_put c (c_pos s) (c_crt s) in scroll p m in
  cgaputc c s = Ok tt (set_c_screen p (<[Z.to_nat p := cell 32]> m) s).
Proof.
  intros [Hp Hl _]. pose proof CRTCELLS_Z as HC. pose proof (cga_put_pos c (c_pos s) (c_crt s) Hp) as H1.
  pose proof (length_cga_put c (c_pos s) (c_crt s)) as L1.
  unfold cgaputc. rewrite bind_ok with (a := s) (s' := s) by done. cbv zeta.
  assert (E : (if c =? NEWLINE then mret (c_pos s + (80 - c_pos s mod 80), c_crt s)
     else if c =? BACKSPACE then mret (if 0 <? c_pos s then c_pos s - 1 else c_pos s, c_crt s)
     else m ← lift_opt (crt_set (c_pos s) (cell c) (c_crt s)); mret (c_pos s + 1, m)) s = Ok (cga_put c (c_pos s) (c_crt s)) s).
  { unfold cga_put. destruct (c =? NEWLINE); [done|]. destruct (c =? BACKSPACE); [done|]. by rewrite crt_set_ok by lia. }
  mstep E. clear E. destruct (cga_put c (c_pos s) (c_crt s)) as [p m]. simpl in H1, L1.
  rewrite (proj2 (Z.ltb_ge p 0)), (proj2 (Z.ltb_ge (25 * 80) p)) by lia. cbn [orb].
  pose proof (scroll_pos p m H1) as H2. pose proof (length_scroll p m H1 ltac:(congruence)) as L2.
  change (if 24 <=? p / 80 then _ else _) with (scroll p m).
  destruct (scroll p m) as [p' m']. simpl in H2, L2. rewrite crt_set_ok by lia. done.
Qed.

(** Everything but the screen and the serial port is the same. *)
Definition same_input (s s' : con) : Prop :=
  c_lock s' = c_lock s ∧ c_locking s' = c_locking s ∧ c_in s' = c_in s ∧ c_uart s' = c_uart s ∧
  c_recv s' = c_recv s ∧ c_woken s' = c_woken s ∧ c_shift s' = c_shift s ∧ c_keys s' = c_keys s ∧
  c_devsw s' = c_devsw s.

Lemma same_input_trans s1 s2 s3 : same_input s1 s2 → same_input s2 s3 → same_input s1 s3.
Proof. unfold same_input. intuition congruence. Qed.

Lemma uartputc_ok c s : screen_ok s →
  ∃ s', uartputc c s = Ok tt s' ∧ screen_ok s' ∧ same_input s s'.
Proof.
  intros [H1 H2 H3]. unfold uartputc. rewrite bind_ok with (a := s) (s' := s) by done.
  destruct (c_uart s) eqn:E; eexists; (split; [done|]); split; done.
Qed.

Lemma cgaputc_ok c s : screen_ok s → ∃ s', cgaputc c s = Ok tt s' ∧ screen_ok s' ∧ same_input s s'.
Proof.
  intros Hs. pose proof (cgaputc_eq c s Hs) as E. destruct Hs as [Hp Hl Hr].
  pose proof (cga_put_pos c (c_pos s) (c_crt s) Hp) as H1. pose proof (length_cga_put c (c_pos s) (c_crt s)) as L1.
  destruct (cga_put c (c_pos s) (c_crt s)) as [p m]. simpl in H1, L1.
  pose proof (scroll_pos p m H1) as H2. pose proof (length_scroll p m H1 ltac:(congruence)) as L2.
  destruct (scroll p m) as [p' m']. simpl in H2, L2. eexists. split; [exact E|]. split; [|done].
  split; simpl; [done|by rewrite length_insert|done].
Qed.

Lemma consputc_ok c s : screen_ok s → ∃ s', consputc c s = Ok tt s' ∧ screen_ok s' ∧ same_input s s'.
Proof.
  intros Hs. unfold consputc. rewrite bind_ok with (a := s) (s' := s) by done. rewrite (sc_run _ Hs).
  assert (Hu : ∃ s1, (if c =? BACKSPACE then uartputc C_H;; uartputc 32;; uartputc C_H else uartputc c) s = Ok tt s1 ∧
    screen_ok s1 ∧ same_input s s1).
  { destruct (c =? BACKSPACE); [|by apply uartputc_ok].
    destruct (uartputc_ok C_H s Hs) as (s1 & E1 & H1 & I1). destruct (uartputc_ok 32 s1 H1) as (s2 & E2 & H2 & I2).
    destruct (uartputc_ok C_H s2 H2) as (s3 & E3 & H3 & I3). mstep E1. mstep E2.
    exists s3. split; [done|]. split; [done|]. eauto using same_input_trans. }
  destruct Hu as (s1 & E1 & H1 & I1). mstep E1.
  destruct (cgaputc_ok c s1 H1) as (s2 & E2 & H2 & I2). exists s2. split; [done|]. split; [done|]. by eapply same_input_trans.
Qed.

(** ** What cprintf needs *)

(** Code that only puts characters out. *)
Definition quiet (m : M unit) : Prop := ∀ s, screen_ok s → ∃ s', m s = Ok tt s' ∧ screen_ok s' ∧ same_input s s'.

Lemma quiet_ret : quiet (mret tt).
Proof. intros s Hs. by exists s. Qed.

Lemma quiet_seq m m' : quiet m → quiet m' → quiet (m;; m').
Proof.
  intros H H' s Hs. destruct (H s Hs) as (s1 & E1 & H1 & I1). mstep E1.
  destruct (H' s1 H1) as (s2 & E2 & H2 & I2). exists s2. eauto using same_input_trans.
Qed.

Lemma quiet_consputcs l : quiet (consputcs l).
Proof. induction l as [|c l IH]; [apply quiet_ret|]. apply quiet_seq; [intros s; apply consputc_ok|done]. Qed.

(** A number below [base ^ room] has at most [room] digits. *)
Lemma cprint_digits_ok room : ∀ x base, (0 < room)%nat → 2 ≤ base ≤ 16 → 0 ≤ x < base ^ Z.of_nat room →
  ∃ ds, (∀ s, cprint_digits room x base s = Ok ds s) ∧ (length ds ≤ room)%nat.
Proof.
  induction room as [|room IH]; intros x base Hr Hb Hx; [lia|].
  pose proof (Z.mod_pos_bound x base ltac:(lia)) as Hm. assert (Hd : is_Some (cdigits !! Z.to_nat (x mod base))) by (apply lookup_lt_is_Some_2; change (length cdigits) with 16%nat; lia).
  destruct Hd as [d Hd]. cbn [cprint_digits]. rewrite Hd. destruct (Z.eqb_spec (x / base) 0) as [Hz|Hz].
  - exists [d]. split; [done|simpl; lia].
  - destruct (IH (x / base) base) as (ds & E & Hl); [|done| |].
    { destruct room; [|lia]. exfalso. apply Hz, Z.div_small. simpl in Hx. lia. }
    { split; [apply Z.div_pos; lia|]. apply Z.div_lt_upper_bound; [lia|]. rewrite Nat2Z.inj_succ, Z.pow_succ_r in Hx by lia. lia. }
    exists (d :: ds). split; [|simpl; lia]. intros s. cbn [lift_opt]. rewrite bind_ret_l. by mstep (E s).
Qed.

Lemma cprint_digits_more base r : ∀ x r' s ds, cprint_digits r x base s = Ok ds s → (r ≤ r')%nat → cprint_digits r' x base s = Ok ds s.
Proof.
  induction r as [|r IH]; intros x r' s ds H Hr; [done|]. destruct r' as [|r']; [lia|]. cbn [cprint_digits] in *.
  destruct (cdigits !! _); [|done]. cbn [lift_opt] in *. rewrite bind_ret_l in *. destruct (x / base =? 0); [done|].
  apply bind_inv_ok in H as (ds1 & s1 & E1 & E2). injection E2 as <- ->. by mstep (IH _ r' s ds1 E1 ltac:(lia)).
Qed.

Lemma quiet_printint xx base sign : base = 10 ∨ base = 16 → quiet (cprintint xx base sign).
Proof.
  intros Hb. unfold cprintint. cbv zeta. set (x := u32 _). assert (Hx : 0 ≤ x < base ^ Z.of_nat 15).
  { pose proof (Z.mod_pos_bound (if sign && (xx <? 0) then - xx else xx) 4294967296). unfold x, u32. destruct Hb as [-> | ->]; simpl; lia. }
  destruct (cprint_digits_ok 15 x base ltac:(lia) ltac:(lia) Hx) as (ds & E & Hl).
  intros s Hs. mstep (cprint_digits_more base 15 x 16 s ds (E s) ltac:(lia)). rewrite (proj2 (Nat.eqb_neq (length ds) 16)) by lia.
  rewrite andb_false_r. by apply quiet_consputcs.
Qed.

(** The arguments are those the format asks for. *)
Fixpoint fits (fmt : list Z) (ap : list arg) : bool :=
  match fmt with
  | [] => true
  | c :: fmt' =>
      if negb (c =? PERCENT) then fits fmt' ap else
      match fmt' with
      | [] => true
      | c :: fmt' =>
          if (c =? 100) || (c =? 120) || (c =? 112) then match ap with AInt _ :: ap' => fits fmt' ap' | _ => false end
          else if c =? 115 then match ap with a :: ap' => bool_decide (is_Some (arg_str a)) && fits fmt' ap' | [] => false end
          else fits fmt' ap
      end
  end.

(** [cprintf] with the arguments it is told of prints and returns, with the lock as it was. *)
Lemma cprintf_loop_ok n : ∀ fmt ap, (length fmt ≤ n)%nat → fits fmt ap = true → quiet (cprintf_loop fmt ap).
Proof.
  induction n as [|n IH]; intros fmt ap Hn Hf; (destruct fmt as [|c fmt]; [apply quiet_ret|]); simpl in Hn; [lia|]. cbn [cprintf_loop fits] in *.
  destruct (negb (c =? PERCENT)); [apply quiet_seq; [intros s; apply consputc_ok|apply IH; [lia|done]]|].
  destruct fmt as [|d fmt]; [apply quiet_ret|]. simpl in Hn.
  destruct (d =? 100); [destruct ap as [|[] ap]; try done; apply quiet_seq; [apply quiet_printint; by left|apply IH; [lia|done]]|].
  cbn [orb] in Hf. destruct ((d =? 120) || (d =? 112)) eqn:Ex;
    [destruct ap as [|[] ap]; try done; apply quiet_seq; [apply quiet_printint; by right|apply IH; [lia|done]]|].
  destruct (d =? 115).
  - destruct ap as [|a ap]; [done|]. apply andb_prop in Hf as [Ha Hf]. apply bool_decide_eq_true in Ha as [l Hl]. rewrite Hl.
    change (quiet (consputcs l;; cprintf_loop fmt ap)). apply quiet_seq; [apply quiet_consputcs|apply IH; [lia|done]].
  - assert (quiet (cprintf_loop fmt ap)) by (apply IH; [lia|done]). destruct (d =? PERCENT); repeat apply quiet_seq; try done; intros s; apply consputc_ok.
Qed.

Lemma cprintf_ok fmt ap s : fits fmt ap = true → screen_ok s → c_locking s = 0 ∨ c_lock s = false →
  ∃ s', cprintf fmt ap s = Ok tt s' ∧ screen_ok s' ∧ same_input s s'.
Proof.
  intros Hf Hs Hl. unfold cprintf. rewrite bind_gets. destruct (Z.eqb_spec (c_locking s) 0) as [Hz|Hz].
  - rewrite bind_ret_l. destruct (cprintf_loop_ok _ fmt ap (le_n _) Hf s Hs) as (s1 & E1 & H1 & I1). mstep E1. by exists s1.
  - destruct Hl as [|Hl]; [done|]. assert (Ea : acquire_c s = Ok tt (set_c_lock true s)) by (unfold acquire_c, acquire, get, mbind, M_bind; by rewrite Hl).
    mstep Ea. assert (Hs1 : screen_ok (set_c_lock true s)) by (by destruct Hs).
    destruct (cprintf_loop_ok _ fmt ap (le_n _) Hf _ Hs1) as (s1 & E1 & H1 & I1). mstep E1.
    exists (set_c_lock false s1). split; [destruct I1 as (I1 & _); unfold release_c, release, get, mbind, M_bind; by rewrite I1|].
    split; [by destruct H1|]. unfold same_input in *. cbn in *. rewrite Hl. intuition.
Qed.

(** ** The line discipline *)

(** What the console promises: a queue of characters that readers may take,
    and the line that can still be edited. *)
Record lines : Type := mklines { l_queue : list Z; l_edit : list Z }.

Definition ends_line (c : Z) : bool := (c =? NEWLINE) || (c =? C_D).

(** A character that arrives from the keyboard or the serial port. *)
Definition type_char (a : lines) (c : Z) : lines :=
  let q := l_queue a in let l := l_edit a in
  if c =? C_P then a
  else if c =? C_U then mklines q []
  else if (c =? C_H) || (c =? DEL) then mklines q (take (length l - 1) l)
  else if negb (c =? 0) && (length (q ++ l) <? 128)%nat then
    let c := if c =? RETURN then NEWLINE else c in
    let l := l ++ [c] in
    if ends_line c || (length (q ++ l) =? 128)%nat then mklines (q ++ l) [] else mklines q l
  else a.

(** A read of at most [n] characters: up to the end of the line; an end of file
    is left in the queue for the next call when something was read before it. *)
Fixpoint take_line (killed : bool) (target n : nat) (q : list Z) : crout * list Z :=
  match n, q with
  | O, _ => (CDone [], q)
  | S _, [] => (if killed then CFail else CSleep [] n, q)
  | S n', c :: q' =>
      if c =? C_D then (CDone [], if (n <? target)%nat then q else q')
      else if c =? NEWLINE then (CDone [c], q')
      else let '(o, q2) := take_line killed target n' q' in
           (match o with CDone bs => CDone (c :: bs) | CFail => CFail | CSleep bs m => CSleep (c :: bs) m end, q2)
  end.

(** The ring holds the queue and the edited line, one after the other. *)
Record ring_rel (q : input) (a : lines) : Prop := {
  rr_len : length (i_buf q) = 128%nat;
  rr_r : 0 ≤ i_r q < 2 ^ 32;
  rr_w : i_w q = u32 (i_r q + Z.of_nat (length (l_queue a)));
  rr_e : i_e q = u32 (i_r q + Z.of_nat (length (l_queue a ++ l_edit a)));
  rr_max : (length (l_queue a ++ l_edit a) ≤ 128)%nat;
  rr_get : ∀ i x, (l_queue a ++ l_edit a) !! i = Some x → ring_get (i_r q + Z.of_nat i) q = Some x;
  rr_edit : Forall (λ c, ends_line c = false) (l_edit a) }.

Lemma ring_get_u32 i q : ring_get (u32 i) q = ring_get i q.
Proof. unfold ring_get, u32, INPUT_BUF. f_equal. f_equal. lia. Qed.

Lemma ring_get_buf i q q' : i_buf q' = i_buf q → ring_get i q' = ring_get i q.
Proof. unfold ring_get. by intros ->. Qed.

Lemma rel_edit_empty q Q : ring_rel q (mklines Q []) → i_e q = i_w q.
Proof. intros [_ _ -> -> _ _ _]. simpl. by rewrite app_nil_r. Qed.

(** Taking back the last character of the edited line. *)
Lemma rel_unput q Q L x : ring_rel q (mklines Q (L ++ [x])) →
  i_e q ≠ i_w q ∧ ring_get (u32 (i_e q - 1)) q = Some x ∧ ends_line x = false ∧
  ring_rel (mkin (i_buf q) (i_r q) (i_w q) (u32 (i_e q - 1))) (mklines Q L).
Proof.
  intros [H1 H2 H3 H4 H5 H6 H7]. simpl in *. rewrite !length_app in *. simpl in *.
  apply Forall_app in H7 as [H7 H8]. inversion H8; subst.
  split_and!; [rewrite H3, H4; unfold u32; lia| |done|].
  - rewrite ring_get_u32, <- ring_get_u32.
    specialize (H6 (length Q + length L)%nat x). rewrite <- H6.
    + rewrite <- (ring_get_u32 (i_r q + _)), H4. f_equal. unfold u32. lia.
    + rewrite app_assoc, lookup_app_r by (rewrite length_app; lia). rewrite length_app.
      by replace (_ - _)%nat with 0%nat by lia.
  - split; simpl; [done|done|done| | | |done].
    + rewrite H4, length_app. unfold u32. lia.
    + rewrite length_app. lia.
    + intros i y Hy. rewrite (ring_get_buf _ q) by done. apply H6.
      rewrite app_assoc. by apply lookup_app_l_Some.
Qed.

(** Adding a character to it. *)
Lemma put_get q Q L c w e : ring_rel q (mklines Q L) → (length (Q ++ L) < 128)%nat →
  let q' := mkin (<[Z.to_nat (i_e q mod INPUT_BUF) := c]> (i_buf q)) (i_r q) w e in
  ∀ i x, ((Q ++ L) ++ [c]) !! i = Some x → ring_get (i_r q' + Z.of_nat i) q' = Some x.
Proof.
  intros [H1 H2 H3 H4 H5 H6 H7] Hl q' i x Hx. subst q'. simpl in *. unfold ring_get, INPUT_BUF. simpl.
  pose proof (lookup_lt_Some _ _ _ Hx) as Hi. rewrite (length_app (Q ++ L)) in Hi. simpl in Hi.
  destruct (decide (i = length (Q ++ L))) as [->|Hne].
  - rewrite lookup_app_r, Nat.sub_diag in Hx by lia. simplify_eq/=.
    rewrite H4. unfold u32. replace (Z.to_nat ((i_r q + Z.of_nat (length (Q ++ L))) mod 128))
      with (Z.to_nat ((i_r q + Z.of_nat (length (Q ++ L))) mod 4294967296 mod 128)) by lia.
    apply list_lookup_insert_eq. lia.
  - rewrite lookup_app_l in Hx by lia. rewrite list_lookup_insert_ne; [exact (H6 i x Hx)|].
    rewrite H4. unfold u32. lia.
Qed.

Lemma rel_put q Q L c : ring_rel q (mklines Q L) → (length (Q ++ L) < 128)%nat → ends_line c = false →
  ring_rel (mkin (<[Z.to_nat (i_e q mod INPUT_BUF) := c]> (i_buf q)) (i_r q) (i_w q) (u32 (i_e q + 1))) (mklines Q (L ++ [c])).
Proof.
  intros H Hl Hc. pose proof (put_get q Q L c (i_w q) (u32 (i_e q + 1)) H Hl) as Hg. destruct H as [H1 H2 H3 H4 H5 H6 H7].
  simpl in *. split; simpl; [by rewrite length_insert|done|done| | | |apply Forall_app; eauto].
  - rewrite H4, !length_app. simpl. unfold u32. lia.
  - rewrite app_assoc, length_app. simpl. lia.
  - by rewrite app_assoc.
Qed.

(** Adding one and giving the line to the readers. *)
Lemma rel_put_end q Q L c : ring_rel q (mklines Q L) → (length (Q ++ L) < 128)%nat →
  let e := u32 (i_e q + 1) in
  ring_rel (mkin (<[Z.to_nat (i_e q mod INPUT_BUF) := c]> (i_buf q)) (i_r q) e e) (mklines (Q ++ L ++ [c]) []).
Proof.
  intros H Hl e. pose proof (put_get q Q L c e e H Hl) as Hg. destruct H as [H1 H2 H3 H4 H5 H6 H7]. subst e. simpl in *.
  split; simpl; rewrite ?app_nil_r; [by rewrite length_insert|done| | | | |done].
  1, 2: rewrite H4, app_assoc, (length_app (Q ++ L)); simpl; unfold u32; lia.
  - rewrite app_assoc, length_app. simpl. lia.
  - by rewrite app_assoc.
Qed.

(** The room that [input.e - input.r < INPUT_BUF] tests for. *)
Lemma rel_room q Q L : ring_rel q (mklines Q L) →
  (u32 (i_e q - i_r q) <? INPUT_BUF) = (length (Q ++ L) <? 128)%nat.
Proof.
  intros [H1 H2 H3 H4 H5 H6 H7]. simpl in *. rewrite H4. unfold u32, INPUT_BUF.
  replace ((_ mod _ - _) mod _) with (Z.of_nat (length (Q ++ L))) by lia.
  destruct (Nat.ltb_spec (length (Q ++ L)) 128), (Z.ltb_spec (Z.of_nat (length (Q ++ L))) 128); lia || done.
Qed.

Lemma rel_full q Q L c : ring_rel q (mklines Q L) → (length (Q ++ L) < 128)%nat →
  (u32 (i_e q + 1) =? u32 (i_r q + INPUT_BUF)) = (length (Q ++ L ++ [c]) =? 128)%nat.
Proof.
  intros [H1 H2 H3 H4 H5 H6 H7] Hl. simpl in H4. rewrite H4, app_assoc, (length_app (Q ++ L)). unfold u32, INPUT_BUF.
  simpl length. destruct (Nat.eqb_spec (length (Q ++ L) + 1) 128) as [E|E].
  - apply Z.eqb_eq. lia.
  - apply Z.eqb_neq. lia.
Qed.

(** Reading. *)
Lemma rel_queue_empty q L : ring_rel q (mklines [] L) → i_r q = i_w q.
Proof. intros [H1 H2 H3 H4 H5 H6 H7]. simpl in *. rewrite H3. unfold u32. lia. Qed.

Lemma rel_take q Q L x : ring_rel q (mklines (x :: Q) L) →
  i_r q ≠ i_w q ∧ ring_get (i_r q) q = Some x ∧ u32 (u32 (i_r q + 1) - 1) = i_r q ∧
  ring_rel (mkin (i_buf q) (u32 (i_r q + 1)) (i_w q) (i_e q)) (mklines Q L).
Proof.
  intros [H1 H2 H3 H4 H5 H6 H7]. simpl in *. rewrite length_app in *. split_and!.
  - rewrite H3. unfold u32. lia.
  - rewrite <- (H6 0%nat x eq_refl). f_equal. lia.
  - unfold u32. lia.
  - split; simpl; rewrite ?length_app in *; [done| | | |lia| |done].
    1: unfold u32; lia.
    1: rewrite H3; unfold u32; lia.
    1: rewrite H4; unfold u32; lia.
    intros i y Hy. rewrite (ring_get_buf _ q), <- ring_get_u32 by done.
    rewrite <- (H6 (S i) y Hy), <- (ring_get_u32 (i_r q + Z.of_nat (S i))). f_equal. unfold u32. lia.
Qed.

(** The state of the console that corresponds to [a]; nobody holds the lock. *)
Record con_rel (s : con) (a : lines) : Prop := {
  cr_screen : screen_ok s;
  cr_ring : ring_rel (c_in s) a }.

Lemma con_rel_same s s' a : screen_ok s' → same_input s s' → ring_rel (c_in s) a → con_rel s' a.
Proof. intros H (_ & _ & E & _) Hr. split; [done|]. by rewrite E. Qed.

(** The rest of the state that an interrupt leaves alone. *)
Definition same_rest (s s' : con) : Prop :=
  c_lock s' = c_lock s ∧ c_uart s' = c_uart s ∧ c_recv s' = c_recv s ∧ c_shift s' = c_shift s ∧ c_keys s' = c_keys s.

Lemma same_rest_input s s' : same_input s s' → same_rest s s'.
Proof. unfold same_input, same_rest. tauto. Qed.

Lemma same_rest_trans s1 s2 s3 : same_rest s1 s2 → same_rest s2 s3 → same_rest s1 s3.
Proof. unfold same_rest. intuition congruence. Qed.

Lemma screen_set_in q s : screen_ok s → screen_ok (set_c_in q s).
Proof. by intros [H1 H2 H3]. Qed.

Lemma kill_line_ok L : ∀ fuel s Q, con_rel s (mklines Q L) → (length L < fuel)%nat →
  ∃ s', kill_line fuel s = Ok tt s' ∧ con_rel s' (mklines Q []) ∧ same_rest s s'.
Proof.
  induction L as [|x L IH] using rev_ind; intros [|fuel] s Q [Hs Hr] Hf; try (simpl in Hf; lia);
    cbn [kill_line]; rewrite (bind_ok _ _ _ (c_in s) s) by done.
  - rewrite (rel_edit_empty _ _ Hr), Z.eqb_refl. exists s. split; [done|]. by split.
  - destruct (rel_unput _ _ _ _ Hr) as (Hne & Hg & Hx & Hr').
    rewrite (proj2 (Z.eqb_neq _ _) Hne), Hg. rewrite (bind_ok _ _ _ x s) by done.
    apply orb_false_iff in Hx as [-> _].
    set (q' := mkin _ _ _ _) in *. rewrite (bind_ok _ _ _ tt (set_c_in q' s)) by done.
    destruct (consputc_ok BACKSPACE _ (screen_set_in q' s Hs)) as (s1 & E1 & H1 & I1). mstep E1.
    rewrite length_app in Hf. simpl in Hf.
    destruct (IH fuel s1 Q) as (s2 & E2 & H2 & I2); [|lia|].
    { by apply (con_rel_same (set_c_in q' s)). }
    exists s2. split; [done|]. split; [done|]. eapply same_rest_trans; [|exact I2].
    by apply (same_rest_input (set_c_in q' s)).
Qed.

Lemma backspace_ok s Q L : con_rel s (mklines Q L) →
  ∃ s', backspace s = Ok tt s' ∧ con_rel s' (mklines Q (take (length L - 1) L)) ∧ same_rest s s'.
Proof.
  intros [Hs Hr]. unfold backspace. rewrite (bind_ok _ _ _ (c_in s) s) by done.
  destruct L as [|x L _] using rev_ind.
  - rewrite (rel_edit_empty _ _ Hr), Z.eqb_refl. exists s. split; [done|]. by split.
  - destruct (rel_unput _ _ _ _ Hr) as (Hne & _ & _ & Hr'). rewrite (proj2 (Z.eqb_neq _ _) Hne).
    set (q' := mkin _ _ _ _) in *. rewrite (bind_ok _ _ _ tt (set_c_in q' s)) by done.
    destruct (consputc_ok BACKSPACE _ (screen_set_in q' s Hs)) as (s1 & E1 & H1 & I1).
    exists s1. split; [done|]. split; [|by apply (same_rest_input (set_c_in q' s))].
    rewrite length_app, Nat.add_sub, take_app_length. by apply (con_rel_same (set_c_in q' s)).
Qed.

Lemma put_char_ok ch c s Q L : con_rel s (mklines Q L) → 0 ≤ c < 256 →
  ∃ s', put_char ch c s = Ok tt s' ∧ same_rest s s' ∧ con_rel s' (
    if negb (c =? 0) && (length (Q ++ L) <? 128)%nat then
      let c := if c =? RETURN then NEWLINE else c in
      let l := L ++ [c] in
      if ends_line c || (length (Q ++ l) =? 128)%nat then mklines (Q ++ l) [] else mklines Q l
    else mklines Q L).
Proof.
  intros [Hs Hr] Hc. unfold put_char. rewrite (bind_ok _ _ _ (c_in s) s) by done.
  rewrite (rel_room _ _ _ Hr). destruct (negb (c =? 0) && _) eqn:E; [|by exists s; split_and!].
  apply andb_true_iff in E as [_ Hl]. apply Nat.ltb_lt in Hl. cbv zeta.
  assert (Hd : ∃ d, d = (if c =? RETURN then NEWLINE else c) ∧ 0 ≤ d < 256).
  { eexists. split; [done|]. destruct (c =? RETURN); [done|lia]. }
  destruct Hd as (d & <- & Hd). replace (u8 d) with d by (unfold u8; rewrite Z.mod_small; lia).
  set (q' := mkin _ _ _ _). rewrite (bind_ok _ _ _ tt (set_c_in q' s)) by done.
  destruct (consputc_ok d _ (screen_set_in q' s Hs)) as (s1 & E1 & H1 & I1). mstep E1.
  replace ((d =? NEWLINE) || (d =? C_D) || _) with (ends_line d || (length (Q ++ L ++ [d]) =? 128)%nat)
    by (unfold ends_line; f_equal; symmetry; exact (rel_full _ _ _ d Hr Hl)).
  destruct (ends_line d || _) eqn:E.
  - eexists. split; [done|]. split; [exact (same_rest_input _ _ I1)|].
    split; [by destruct H1|]. exact (rel_put_end _ _ _ d Hr Hl).
  - apply orb_false_iff in E as [E _]. exists s1. split; [done|]. split; [exact (same_rest_input _ _ I1)|].
    apply (con_rel_same (set_c_in q' s)); [done..|]. by apply rel_put.
Qed.

Lemma cons_char_ok ch c s a : con_rel s a → 0 ≤ c < 256 →
  ∃ s', cons_char ch c s = Ok (c =? C_P) s' ∧ con_rel s' (type_char a c) ∧ same_rest s s'.
Proof.
  destruct a as [Q L]. intros H Hc. unfold cons_char, type_char. simpl l_queue. simpl l_edit.
  destruct (c =? C_P); [by exists s|]. destruct (c =? C_U).
  { destruct (kill_line_ok L 129 s Q H) as (s' & E & H' & I); [|mstep E; by exists s'].
    pose proof (rr_max _ _ (cr_ring _ _ H)) as Hm. simpl in Hm. rewrite length_app in Hm. lia. }
  destruct ((c =? C_H) || _).
  - destruct (backspace_ok s Q L H) as (s' & E & H' & I). mstep E. by exists s'.
  - destruct (put_char_ok ch c s Q L H Hc) as (s' & E & I & H'). mstep E. by exists s'.
Qed.

(** ** The whole interrupt *)

Lemma acquire_c_ok s : c_lock s = false → acquire_c s = Ok tt (set_c_lock true s).
Proof. destruct s; simpl. by intros ->. Qed.

Lemma release_c_ok s : c_lock s = true → release_c s = Ok tt (set_c_lock false s).
Proof. destruct s; simpl. by intros ->. Qed.

(** A place that characters come from, [getc] of consoleintr: [waiting cs s]
    says that the calls of [getc] will give the characters [cs] and then -1. *)
Class CharSource (getc : M Z) := {
  waiting : list Z → con → Prop;
  source_none : ∀ s, waiting [] s → getc s = Ok (-1) s;
  source_some : ∀ c cs s, waiting (c :: cs) s →
    0 ≤ c < 256 ∧ ∃ s', getc s = Ok c s' ∧ waiting cs s' ∧
      c_lock s' = c_lock s ∧ c_in s' = c_in s ∧ (screen_ok s → screen_ok s');
  source_frame : ∀ cs s s', same_rest s s' → waiting cs s → waiting cs s' }.

(** The serial port; the state [sh] of the keyboard does not change. *)
Definition uart_waiting (sh : Z) (cs : list Z) (s : con) : Prop :=
  c_uart s = true ∧ c_recv s = cs ∧ Forall (λ c, 0 ≤ c < 256) cs ∧ c_shift s = sh.

#[export] Instance uart_source (sh : Z) : CharSource uartgetc.
Proof.
  refine (Build_CharSource uartgetc (uart_waiting sh) _ _ _).
  - intros s (Hu & Hc & _). unfold uartgetc. by rewrite (bind_ok _ _ _ s s), Hu, Hc by done.
  - intros c cs s (Hu & Hc & Hb & Hsh). apply Forall_cons in Hb as [Hc0 Hb]. split; [done|].
    exists (set_c_recv cs s). split; [unfold uartgetc; by rewrite (bind_ok _ _ _ s s), Hu, Hc by done|].
    split_and!; [by split_and!|done|done|by intros []].
  - intros cs s s' (_ & H1 & H2 & H3 & _) (Hu & Hc & Hb & Hsh). split_and!; congruence.
Defined.

Section intr.
Context (getc : M Z) `{!CharSource getc}.

Lemma consoleintr_loop_ok ch cs : ∀ fuel s a dump,
  con_rel s a → waiting cs s → (length cs < fuel)%nat →
  ∃ s', consoleintr_loop ch getc fuel dump s = Ok (dump || existsb (λ c, c =? C_P) cs) s' ∧
    con_rel s' (fold_left type_char cs a) ∧ c_lock s' = c_lock s ∧ waiting [] s'.
Proof.
  induction cs as [|c cs IH]; intros [|fuel] s a dump H Hw Hf; try (simpl in Hf; lia); cbn [consoleintr_loop].
  - mstep (source_none s Hw). simpl. exists s. rewrite orb_false_r. by split_and!.
  - destruct (source_some c cs s Hw) as (Hc & s0 & E0 & Hw0 & J1 & J2 & J3). mstep E0.
    rewrite (proj2 (Z.leb_le 0 c)) by lia. destruct H as [Hs Hr].
    destruct (cons_char_ok ch c s0 a) as (s1 & E1 & H1 & I1); [split; [auto|by rewrite J2]|done|].
    mstep E1. destruct (IH fuel s1 _ (dump || (c =? C_P)) H1) as (s2 & E2 & H2 & K1 & K2);
      [by apply (source_frame cs s0)|simpl in Hf; lia|].
    exists s2. rewrite E2. simpl. rewrite orb_assoc. split_and!; [done|done| |done]. by rewrite K1, (proj1 I1), J1.
Qed.

Lemma consoleintr_ok ch cs fuel s a : con_rel s a → c_lock s = false → waiting cs (set_c_lock true s) →
  (length cs < fuel)%nat →
  ∃ s', consoleintr ch (mret tt) getc fuel s = Ok tt (set_c_lock false s') ∧
    con_rel (set_c_lock false s') (fold_left type_char cs a) ∧ waiting [] s'.
Proof.
  intros H Hl Hw Hf. unfold consoleintr. mstep (acquire_c_ok s Hl).
  destruct (consoleintr_loop_ok ch cs fuel (set_c_lock true s) a false) as (s1 & E1 & H1 & I1 & I2);
    [by destruct H as [[]]|done|done|].
  mstep E1. mstep (release_c_ok s1 I1). exists s1.
  split; [by destruct (false || _)|]. split; [by destruct H1 as [[]]|done].
Qed.
End intr.

Lemma consoleread_loop_ok killed target L : ∀ n s Q, con_rel s (mklines Q L) →
  ∃ s', consoleread_loop killed target n s = Ok (take_line killed target n Q).1 s' ∧
    con_rel s' (mklines (take_line killed target n Q).2 L) ∧ same_rest s s'.
Proof.
  induction n as [|n IH]; intros s Q [Hs Hr]; cbn [consoleread_loop take_line]; [by exists s|].
  rewrite (bind_ok _ _ _ (c_in s) s) by done. destruct Q as [|c Q].
  { rewrite (rel_queue_empty _ _ Hr), Z.eqb_refl. by exists s. }
  destruct (rel_take _ _ _ _ Hr) as (Hne & Hg & Hu & Hr').
  rewrite (proj2 (Z.eqb_neq _ _) Hne), Hg. rewrite (bind_ok _ _ _ c s) by done. cbv zeta.
  set (q' := mkin _ _ _ _) in Hr' |- *. rewrite (bind_ok _ _ _ tt (set_c_in q' s)) by done.
  destruct (c =? C_D).
  { destruct (S n <? target)%nat; eexists; (split; [done|]); (split; [split; [by destruct Hs|]|done]); [|done].
    simpl. rewrite Hu. by destruct (c_in s). }
  destruct (c =? NEWLINE).
  { eexists. split; [done|]. split; [split; [by apply screen_set_in|done]|done]. }
  destruct (IH (set_c_in q' s) Q) as (s2 & E2 & H2 & I2); [split; [by apply screen_set_in|done]|].
  mstep E2. destruct (take_line killed target n Q) as [o Q']. by exists s2.
Qed.

Lemma consoleread_run_ok killed target n s Q L : con_rel s (mklines Q L) → c_lock s = false →
  ∃ s', consoleread_run killed target n s = Ok (take_line killed target n Q).1 s' ∧
    con_rel s' (mklines (take_line killed target n Q).2 L) ∧ same_rest s s'.
Proof.
  intros H Hl. unfold consoleread_run.
  mstep (acquire_c_ok s Hl).
  destruct (consoleread_loop_ok killed target L n (set_c_lock true s) Q) as (s1 & E1 & H1 & I1 & I2);
    [by destruct H as [[]]|].
  mstep E1. mstep (release_c_ok s1 I1).
  exists (set_c_lock false s1). split; [done|]. split; [by destruct H1 as [[]]|]. by split; [rewrite Hl|].
Qed.

(** The console after [consoleinit], with the indices close to the place where
    they wrap around. *)
Definition con0 : con :=
  mkcon false 1 false (mkin (replicate 128 0) 4294967294 4294967294 4294967294) 0 (replicate CRTCELLS 0) true [] [] [] 0 [] (replicate (Z.to_nat NDEV) nodev).

Lemma con0_rel : con_rel con0 (mklines [] []).
Proof.
  split; split; simpl l_queue; simpl l_edit; try done; try (simpl; lia).
Qed.

(** ** What is on the screen *)

(** The cells of the screen after scrolling, and those behind it. *)
Lemma scroll_lookup pos m k : 0 ≤ pos ≤ 1920 → length m = CRTCELLS → 0 ≤ k →
  (scroll pos m).2 !! Z.to_nat k =
    if (1920 <=? pos) && (k <? 1920) then (if pos - 80 <=? k then Some 0 else m !! Z.to_nat (k + 80)) else m !! Z.to_nat k.
Proof.
  intros Hp Hl Hk. pose proof CRTCELLS_Z as HC. unfold scroll. destruct (Z.leb_spec 24 (pos / 80)); destruct (Z.leb_spec 1920 pos); try lia; [|done].
  cbn [snd andb]. set (m1 := take 1840 (drop 80 m) ++ drop 1840 m).
  assert (L1 : length (take (Z.to_nat (pos - 80)) m1) = Z.to_nat (pos - 80)).
  { unfold m1. rewrite length_take, length_app, length_take, !length_drop, Hl. lia. }
  destruct (Z.ltb_spec k 1920); [destruct (Z.leb_spec (pos - 80) k)|].
  - rewrite lookup_app_r, L1 by (rewrite L1; lia). rewrite lookup_app_l by (rewrite length_replicate; lia).
    apply lookup_replicate_2. lia.
  - rewrite lookup_app_l by (rewrite L1; lia). rewrite lookup_take_lt by lia. unfold m1.
    rewrite lookup_app_l by (rewrite length_take, length_drop, Hl; lia). rewrite lookup_take_lt, lookup_drop by lia. f_equal. lia.
  - rewrite lookup_app_r, L1 by (rewrite L1; lia). rewrite lookup_app_r, length_replicate, lookup_drop by (rewrite length_replicate; lia).
    unfold m1. rewrite lookup_app_r; rewrite length_take, length_drop, Hl; [|lia]. rewrite lookup_drop. f_equal. lia.
Qed.

(** Where the cursor goes, were the screen endless, and what it shows. *)
Definition next_pos (c pos : Z) : Z :=
  if c =? NEWLINE then (pos / 80 + 1) * 80 else if c =? BACKSPACE then Z.max 0 (pos - 1) else pos + 1.
Definition drawn (c pos : Z) (m : list Z) (k : Z) : option Z :=
  if negb (c =? NEWLINE) && negb (c =? BACKSPACE) && (k =? pos) then Some (cell c) else m !! Z.to_nat k.

Lemma cga_put_drawn c pos m : 0 ≤ pos < Z.of_nat (length m) →
  (cga_put c pos m).1 = next_pos c pos ∧ ∀ k, 0 ≤ k → (cga_put c pos m).2 !! Z.to_nat k = drawn c pos m k.
Proof.
  intros Hp. unfold cga_put, next_pos, drawn. destruct (c =? NEWLINE); [split; [simpl; lia|done]|].
  destruct (c =? BACKSPACE); [split; [destruct (Z.ltb_spec 0 pos); simpl; lia|done]|].
  split; [done|]. intros k Hk. cbn [snd negb andb]. destruct (Z.eqb_spec k pos) as [->|].
  - apply list_lookup_insert_eq. lia.
  - apply list_lookup_insert_ne. lia.
Qed.

(** C39: writing a character.  A newline moves the cursor to the start of the next line, a backspace
    one cell back but not before the first one, and any other character is shown at the cursor,
    which moves behind it.  The screen scrolls by one line exactly when the cursor
    has left its first 24 lines: then every line is one higher, and
    what is behind the cursor is empty.  The cursor is on the screen and shown as a blank; no other
    cell changes. *)
Theorem cgaputc_correct c s : screen_ok s →
  let p := next_pos c (c_pos s) in
  let d := if 1920 <=? p then 80 else 0 in
  ∃ s', cgaputc c s = Ok tt s' ∧ screen_ok s' ∧ same_input s s' ∧ c_pos s' = p - d ∧
    ∀ k, 0 ≤ k → c_crt s' !! Z.to_nat k =
      if k =? p - d then Some (cell 32) else if 1920 <=? k then c_crt s !! Z.to_nat k else
      if (1920 <=? p) && (p - d <? k) then Some 0 else drawn c (c_pos s) (c_crt s) (k + d).
Proof.
  intros Hs p d. pose proof (cgaputc_eq c s Hs) as E. destruct (cgaputc_ok c s Hs) as (s' & E' & Hs' & Hi).
  destruct Hs as [Hp Hl _]. pose proof CRTCELLS_Z as HC. pose proof (cga_put_pos c (c_pos s) (c_crt s) Hp) as H1.
  pose proof (length_cga_put c (c_pos s) (c_crt s)) as L1. destruct (cga_put_drawn c (c_pos s) (c_crt s) ltac:(lia)) as [Ep Hm].
  fold p in Ep. destruct (cga_put c (c_pos s) (c_crt s)) as [q m]. cbn [fst snd] in *. subst q.
  pose proof (scroll_lookup p m) as Hg. pose proof (length_scroll p m H1 ltac:(congruence)) as L2.
  assert (Hq : (scroll p m).1 = p - d) by (unfold scroll, d; destruct (Z.leb_spec 24 (p / 80)), (Z.leb_spec 1920 p); simpl; lia).
  destruct (scroll p m) as [q m']. cbn [fst snd] in *. subst q. rewrite E in E'. injection E' as <-.
  eexists. split_and!; [exact E|done|done|done|]. intros k Hk. cbn [c_crt set_c_screen].
  assert (Hpd : 0 ≤ p - d < 1920) by (unfold d; destruct (Z.leb_spec 1920 p); lia).
  destruct (Z.eqb_spec k (p - d)) as [->|Hne]; [apply list_lookup_insert_eq; lia|]. rewrite list_lookup_insert_ne by lia.
  rewrite Hg by (lia || congruence). unfold d in *. destruct (Z.leb_spec 1920 k), (Z.leb_spec 1920 p), (Z.ltb_spec k 1920); try lia; cbn [andb].
  - rewrite Hm by lia. unfold drawn. by rewrite (proj2 (Z.eqb_neq k (c_pos s))), andb_false_r by lia.
  - rewrite Hm by lia. unfold drawn. by rewrite (proj2 (Z.eqb_neq k (c_pos s))), andb_false_r by lia.
  - destruct (Z.leb_spec (p - 80) k), (Z.ltb_spec (p - 80) k); try lia; [done|]. by rewrite Hm by lia.
  - rewrite Z.add_0_r. by rewrite Hm by lia.
Qed.

Lemma cgaputc_correct_witness :
  let s := set_c_screen 1919 (replicate CRTCELLS 7) con0 in
  ∃ s', cgaputc 65 s = Ok tt s' ∧ c_pos s' = 1840 ∧ c_crt s' !! Z.to_nat 1839 = Some (cell 65).
Proof.
  intros s. assert (Hs : screen_ok s) by (split; simpl; [lia|done|done]).
  destruct (cgaputc_correct 65 s Hs) as (s' & E & _ & _ & Hp & Hc).
  exists s'. split; [exact E|]. split; [exact Hp|exact (Hc 1839 ltac:(lia))].
Defined.
