(* ===== verification/Kbd.v ===== *)
(** * The keyboard: kbd.c and kbd.h

    The tables of kbd.h, [kbdgetc], which turns scan codes into characters and
    keeps the modifier keys in the bits of a static variable, and [kbdintr].

    The specification keeps the modifiers as booleans; [kbd_decode_spec] is the
    correspondence, for all states and scan codes, and [kbd_source] makes
    [kbdgetc] a source of characters for consoleintr.  [keys_text] is a round
    trip: every printable character has a key, and pressing the keys of a text
    gives the text. *)

From S2P Require Import Prelude Params Printf Console.

(** ** The tables of kbd.h *)

Definition NO : Z := 0.
Definition SHIFT : Z := 1.
Definition CTL : Z := 2.
Definition ALT : Z := 4.
Definition CAPSLOCK : Z := 8.
Definition NUMLOCK : Z := 16.
Definition SCROLLLOCK : Z := 32.
Definition E0ESC : Z := 64.

Definition KEY_HOME : Z := 0xE0.
Definition KEY_END : Z := 0xE1.
Definition KEY_UP : Z := 0xE2.
Definition KEY_DN : Z := 0xE3.
Definition KEY_LF : Z := 0xE4.
Definition KEY_RT : Z := 0xE5.
Definition KEY_PGUP : Z := 0xE6.
Definition KEY_PGDN : Z := 0xE7.
Definition KEY_INS : Z := 0xE8.
Definition KEY_DEL : Z := 0xE9.

(** An array of 256 bytes: the first elements, and those with a designator. *)
Definition table (first : list Z) (named : list (nat * Z)) : list Z :=
  fold_left (λ t '(i, v), <[i := v]> t) named (first ++ replicate (256 - length first) NO).

Definition shiftcode : list Z :=
  table [] [(29, CTL); (42, SHIFT); (54, SHIFT); (56, ALT); (157, CTL); (184, ALT)]%nat.

Definition togglecode : list Z := table [] [(58, CAPSLOCK); (69, NUMLOCK); (70, SCROLLLOCK)]%nat.

(** The elements with a designator; the enter and the division key of the key
    pad differ between the maps. *)
Definition keypad (enter div : Z) : list (nat * Z) :=
  [(156, enter); (181, div); (200, KEY_UP); (208, KEY_DN); (201, KEY_PGUP); (209, KEY_PGDN); (203, KEY_LF);
   (205, KEY_RT); (151, KEY_HOME); (207, KEY_END); (210, KEY_INS); (211, KEY_DEL)]%nat.

Definition numbers : list Z := replicate 13 NO ++ str "789-456+1230." ++ replicate 4 NO.

Definition normalmap : list Z :=
  table ([NO; 0x1B] ++ str "1234567890-=" ++ [8; 9] ++ str "qwertyuiop[]" ++ [10; NO] ++ str "asdfghjkl;'`" ++
         [NO] ++ str "\zxcvbnm,./" ++ [NO] ++ str "*" ++ [NO] ++ str " " ++ numbers)
        (keypad 10 47).

Definition shiftmap : list Z :=
  table ([NO; 27] ++ str "!@#$%^&*()_+" ++ [8; 9] ++ str "QWERTYUIOP{}" ++ [10; NO] ++ str "ASDFGHJKL:" ++ [34] ++ str "~" ++
         [NO] ++ str "|ZXCVBNM<>?" ++ [NO] ++ str "*" ++ [NO] ++ str " " ++ numbers)
        (keypad 10 47).

(** [C(x)] *)
Definition Ctl (x : Z) : Z := x - 64.

(** [C('/')] is negative, and kept as a [uchar]. *)
Definition ctlmap : list Z :=
  table (replicate 16 NO ++ map Ctl (str "QWERTYUIOP") ++ [NO; NO; 13; NO] ++ map Ctl (str "ASDFGHJKL") ++
         [NO; NO; NO; NO] ++ map Ctl (str "\ZXCVBNM") ++ [NO; NO; u8 (Ctl 47); NO; NO])
        (keypad 13 (u8 (Ctl 47))).

Definition charcode : list (list Z) := [normalmap; shiftmap; ctlmap; ctlmap].

(** ** kbdgetc *)

(** What follows the two [inb]: the new value of [shift] and the result. *)
Definition kbd_decode (shift data : Z) : option (Z * Z) :=
  if data =? 0xE0 then Some (Z.lor shift E0ESC, 0)
  else if negb (Z.land data 0x80 =? 0) then
    let data := if Z.land shift E0ESC =? 0 then Z.land data 0x7F else data in
    code ← shiftcode !! Z.to_nat data;
    Some (Z.ldiff shift (Z.lor code E0ESC), 0)
  else
    let '(data, shift) :=
      if Z.land shift E0ESC =? 0 then (data, shift) else (Z.lor data 0x80, Z.ldiff shift E0ESC) in
    code ← shiftcode !! Z.to_nat data;
    toggle ← togglecode !! Z.to_nat data;
    let shift := Z.lxor (Z.lor shift code) toggle in
    m ← charcode !! Z.to_nat (Z.land shift (Z.lor CTL SHIFT));
    c ← m !! Z.to_nat data;
    let c :=
      if Z.land shift CAPSLOCK =? 0 then c
      else if (97 <=? c) && (c <=? 122) then c + (65 - 97)
      else if (65 <=? c) && (c <=? 90) then c + (97 - 65)
      else c in
    Some (shift, c).

Definition kbdgetc : M Z :=
  s ← get;
  match c_keys s with
  | [] => mret (-1)
  | data :: rest =>
      '(shift, c) ← lift_opt (kbd_decode (c_shift s) data);
      modify (set_c_kbd shift rest);;
      mret c
  end.

Definition kbdintr (ch : Z) (procdump : M unit) (fuel : nat) : M unit := consoleintr ch procdump kbdgetc fuel.

(** ** The specification *)

(** The state of the modifiers, and whether the last code was the escape. *)
Record mods : Type := mkmods {
  m_shift : bool; m_ctl : bool; m_alt : bool; m_caps : bool; m_num : bool; m_scroll : bool; m_e0 : bool }.
#[global] Instance mods_eq_dec : EqDecision mods.
Proof. solve_decision. Defined.

(** The keys, numbered as in the tables: 0x80 more for those with an escape. *)
Definition is_shift (k : Z) : bool := (k =? 0x2A) || (k =? 0x36).
Definition is_ctl (k : Z) : bool := (k =? 0x1D) || (k =? 0x9D).
Definition is_alt (k : Z) : bool := (k =? 0x38) || (k =? 0xB8).

Definition release_key (k : Z) (m : mods) : mods :=
  mkmods (m_shift m && negb (is_shift k)) (m_ctl m && negb (is_ctl k)) (m_alt m && negb (is_alt k))
    (m_caps m) (m_num m) (m_scroll m) false.

Definition press_key (k : Z) (m : mods) : mods :=
  mkmods (m_shift m || is_shift k) (m_ctl m || is_ctl k) (m_alt m || is_alt k)
    (xorb (m_caps m) (k =? 0x3A)) (xorb (m_num m) (k =? 0x45)) (xorb (m_scroll m) (k =? 0x46)) false.

Definition is_lower (c : Z) : bool := (97 <=? c) && (c <=? 122).
Definition is_upper (c : Z) : bool := (65 <=? c) && (c <=? 90).
Definition swap_case (c : Z) : Z := if is_lower c then c - 32 else if is_upper c then c + 32 else c.

(** What is written on the key. *)
Definition key_char (k : Z) (m : mods) : option Z :=
  c ← (if m_ctl m then ctlmap else if m_shift m then shiftmap else normalmap) !! Z.to_nat k;
  Some (if m_caps m then swap_case c else c).

Definition key_step (data : Z) (m : mods) : mods * option Z :=
  if data =? 0xE0 then (mkmods (m_shift m) (m_ctl m) (m_alt m) (m_caps m) (m_num m) (m_scroll m) true, Some 0)
  else if 128 <=? data then (release_key (if m_e0 m then data else data - 128) m, Some 0)
  else let k := if m_e0 m then data + 128 else data in
       let m := press_key k m in (m, key_char k m).

(** The bits of [shift]. *)
Definition bits (m : mods) : Z :=
  Z.b2z (m_shift m) + 2 * Z.b2z (m_ctl m) + 4 * Z.b2z (m_alt m) + 8 * Z.b2z (m_caps m) +
  16 * Z.b2z (m_num m) + 32 * Z.b2z (m_scroll m) + 64 * Z.b2z (m_e0 m).

(** ** The bits implement the specification *)

Definition all_bools : list bool := [true; false].
Definition all_mods : list mods :=
  a ← all_bools; b ← all_bools; c ← all_bools; d ← all_bools; e ← all_bools; f ← all_bools; g ← all_bools;
  [mkmods a b c d e f g].

Lemma elem_all_bools b : b ∈ all_bools.
Proof. destruct b; set_solver. Qed.

Lemma elem_all_mods m : m ∈ all_mods.
Proof.
  destruct m as [a b c d e f g]. unfold all_mods.
  apply list_elem_of_bind; exists a; split; [|apply elem_all_bools].
  apply list_elem_of_bind; exists b; split; [|apply elem_all_bools].
  apply list_elem_of_bind; exists c; split; [|apply elem_all_bools].
  apply list_elem_of_bind; exists d; split; [|apply elem_all_bools].
  apply list_elem_of_bind; exists e; split; [|apply elem_all_bools].
  apply list_elem_of_bind; exists f; split; [|apply elem_all_bools].
  apply list_elem_of_bind; exists g; split; [|apply elem_all_bools]. set_solver.
Qed.

Definition is_char (o : option Z) : bool :=
  match o with Some c => (0 <=? c) && (c <? 256) | None => false end.

Definition decode_agrees (m : mods) (data : Z) : bool :=
  let '(m', o) := key_step data m in
  is_char o && bool_decide (kbd_decode (bits m) data = (λ c, (bits m', c)) <$> o).

(** The states and codes are few: 128 times 256. *)
Lemma decode_agrees_all : forallb (λ m, forallb (decode_agrees m) (seqZ 0 256)) all_mods = true.
Proof. vm_compute. reflexivity. Qed.

Lemma kbd_decode_spec m data : 0 ≤ data < 256 →
  ∃ c, (key_step data m).2 = Some c ∧ 0 ≤ c < 256 ∧ kbd_decode (bits m) data = Some (bits (key_step data m).1, c).
Proof.
  intros H. pose proof decode_agrees_all as E. rewrite forallb_forall in E.
  specialize (E m (proj1 (list_elem_of_In _ _) (elem_all_mods m))). rewrite forallb_forall in E.
  specialize (E data (proj1 (list_elem_of_In _ _) (proj2 (elem_of_seqZ 0 256 data) ltac:(lia)))).
  unfold decode_agrees in E. destruct (key_step data m) as [m' [c|]]; simpl in *; [|done].
  apply andb_true_iff in E as [E1 E2]. apply bool_decide_eq_true in E2. exists c. split_and!; [done|lia|lia|done].
Qed.

(** The characters of a sequence of scan codes, and the modifiers after it. *)
Fixpoint keys_chars (ks : list Z) (m : mods) : list Z * mods :=
  match ks with
  | [] => ([], m)
  | k :: ks' => let '(m1, o) := key_step k m in let '(cs, m2) := keys_chars ks' m1 in (default 0 o :: cs, m2)
  end.

Lemma keys_chars_app ks1 ks2 m :
  keys_chars (ks1 ++ ks2) m =
  let '(cs1, m1) := keys_chars ks1 m in let '(cs2, m2) := keys_chars ks2 m1 in (cs1 ++ cs2, m2).
Proof.
  revert m. induction ks1 as [|k ks1 IH]; intros m; simpl; [by destruct (keys_chars ks2 m)|].
  destruct (key_step k m) as [m1 o]. rewrite IH. destruct (keys_chars ks1 m1) as [cs1 m2].
  by destruct (keys_chars ks2 m2).
Qed.

Lemma length_keys_chars ks m : length (keys_chars ks m).1 = length ks.
Proof.
  revert m. induction ks as [|k ks IH]; intros m; simpl; [done|].
  destruct (key_step k m) as [m1 o]. specialize (IH m1). destruct (keys_chars ks m1). simpl in *. by rewrite IH.
Qed.

(** The scan codes at the controller give [cs] and leave the modifiers [mf]. *)
Definition kbd_waiting (mf : mods) (cs : list Z) (s : con) : Prop :=
  c_uart s = true ∧ ∃ m, c_shift s = bits m ∧ Forall (λ k, 0 ≤ k < 256) (c_keys s) ∧ keys_chars (c_keys s) m = (cs, mf).

Lemma kbdgetc_ok mf c cs s : kbd_waiting mf (c :: cs) s →
  0 ≤ c < 256 ∧ ∃ sh rest, kbdgetc s = Ok c (set_c_kbd sh rest s) ∧ kbd_waiting mf cs (set_c_kbd sh rest s).
Proof.
  intros (Hu & m & Hm & Hb & Hk). destruct (c_keys s) as [|k ks] eqn:Ek; simpl in Hk; [done|].
  apply Forall_cons in Hb as [Hk0 Hb]. destruct (kbd_decode_spec m k Hk0) as (c' & Ec & Hc & Ed).
  destruct (key_step k m) as [m1 o]. simpl in *. subst o. destruct (keys_chars ks m1) as [cs' m2] eqn:E2.
  simplify_eq/=. split; [done|]. exists (bits m1), ks. split; [|split; [done|by exists m1]].
  unfold kbdgetc. rewrite (bind_ok _ _ _ s s), Ek, Hm by done. by rewrite Ed.
Qed.

#[export] Instance kbd_source (mf : mods) : CharSource kbdgetc.
Proof.
  refine (Build_CharSource kbdgetc (kbd_waiting mf) _ _ _).
  - intros s (_ & m & _ & _ & Hk). unfold kbdgetc. rewrite (bind_ok _ _ _ s s) by done.
    destruct (c_keys s) as [|k ks]; [done|]. pose proof (length_keys_chars (k :: ks) m) as L. by rewrite Hk in L.
  - intros c cs s H. destruct (kbdgetc_ok mf c cs s H) as (Hc & sh & rest & E & Hw). split; [done|].
    eexists. split; [exact E|]. split_and!; [done|done|done|by intros []].
  - intros cs s s' (_ & H0 & _ & H1 & H2) (Hu & m & Hm & Hk). unfold kbd_waiting. rewrite H0, H1, H2. eauto.
Defined.

(** ** Typing *)

Definition index_of (c : Z) (t : list Z) : option Z := (λ p, Z.of_nat p.1) <$> list_find (eq c) t.

(** A key pressed and released, with shift held if the character needs it. *)
Definition keys_for (c : Z) : list Z :=
  match index_of c normalmap with
  | Some k => [k; k + 128]
  | None => match index_of c shiftmap with Some k => [0x2A; k; k + 128; 0xAA] | None => [] end
  end.

Definition typable (c : Z) : bool := ((32 <=? c) && (c <=? 126)) || (c =? 9) || (c =? 10) || (c =? 8) || (c =? 27).

(** Neither shift nor control is held and caps lock is off. *)
Definition plain (m : mods) : bool := negb (m_shift m) && negb (m_ctl m) && negb (m_caps m) && negb (m_e0 m).

Definition types (m : mods) (c : Z) : bool :=
  negb (plain m) || negb (typable c) ||
  (let '(cs, m') := keys_chars (keys_for c) m in
   bool_decide (filter (λ x, x ≠ 0) cs = [c]) && bool_decide (m' = m) && forallb (λ k, (0 <=? k) && (k <? 256)) (keys_for c)).

Lemma types_all : forallb (λ m, forallb (types m) (seqZ 0 128)) all_mods = true.
Proof. vm_compute. reflexivity. Qed.

Lemma keys_for_types m c : plain m = true → typable c = true →
  ∃ cs, keys_chars (keys_for c) m = (cs, m) ∧ filter (λ x, x ≠ 0) cs = [c] ∧ Forall (λ k, 0 ≤ k < 256) (keys_for c).
Proof.
  intros Hm Hc. pose proof types_all as E. rewrite forallb_forall in E.
  specialize (E m (proj1 (list_elem_of_In _ _) (elem_all_mods m))). rewrite forallb_forall in E.
  assert (Hb : 0 ≤ c < 0 + 128) by (unfold typable in Hc; lia).
  specialize (E c (proj1 (list_elem_of_In _ _) (proj2 (elem_of_seqZ 0 128 c) Hb))).
  unfold types in E. rewrite Hm, Hc in E. cbn [negb orb] in E.
  destruct (keys_chars (keys_for c) m) as [cs m'].
  apply andb_true_iff in E as [[E1 E2]%andb_true_iff E3].
  apply bool_decide_eq_true in E1. apply bool_decide_eq_true in E2. subst m'. exists cs. split_and!; [done|done|].
  apply Forall_forall. intros k Hk. rewrite forallb_forall in E3.
  specialize (E3 k (proj1 (list_elem_of_In _ _) Hk)). simpl in E3. lia.
Qed.

Definition keys_of (text : list Z) : list Z := c ← text; keys_for c.

(** Typing a text gives its characters, in their order, with NULs between them. *)
Lemma keys_text m text : plain m = true → Forall (λ c, typable c = true) text →
  ∃ cs, keys_chars (keys_of text) m = (cs, m) ∧ filter (λ x, x ≠ 0) cs = text ∧
    Forall (λ k, 0 ≤ k < 256) (keys_of text).
Proof.
  intros Hm. induction text as [|c text IH]; intros Ht; [by exists []|].
  apply Forall_cons in Ht as [Hc Ht]. destruct (IH Ht) as (cs & E & F & B).
  destruct (keys_for_types m c Hm Hc) as (cs1 & E1 & F1 & B1). exists (cs1 ++ cs).
  change (keys_of (c :: text)) with (keys_for c ++ keys_of text). rewrite keys_chars_app, E1, E.
  split_and!; [done|by rewrite filter_app, F1, F|]. apply Forall_app. auto.
Qed.
