(* ===== verification/Terminal.v ===== *)
(** * The terminal: keyboard, serial port and console together

    The interrupt handlers of the two devices and the readers, in any order:
    whatever arrives at the keyboard controller and the serial port goes
    through the one line discipline of the console. *)

From S2P Require Import Prelude Params Printf Console Kbd.

(** What happens to the console: characters arrive on the serial port, scan
    codes at the keyboard controller, or a reader runs (from its call, or from
    where it slept). *)
Inductive cevent : Type := Typed (cs : list Z) | Keys (ks : list Z) | Reads (killed : bool) (target n : nat).

Definition con_event (ch : Z) (e : cevent) : M (list crout) :=
  match e with
  | Typed cs => modify (set_c_recv cs);; uartintr ch (mret tt) (S (length cs));; mret []
  | Keys ks =>
      modify (λ s, set_c_kbd (c_shift s) ks s);; kbdintr ch (mret tt) (S (length ks));; mret []
  | Reads killed target n => o ← consoleread_run killed target n; mret [o]
  end.

Fixpoint con_events (ch : Z) (es : list cevent) : M (list crout) :=
  match es with
  | [] => mret []
  | e :: es' => o ← con_event ch e; os ← con_events ch es'; mret (o ++ os)
  end.

(** ** The specification: modifiers and lines *)

Record term : Type := mkterm { t_mods : mods; t_lines : lines }.

Definition term_event (e : cevent) (a : term) : list crout * term :=
  match e with
  | Typed cs => ([], mkterm (t_mods a) (fold_left type_char cs (t_lines a)))
  | Keys ks =>
      let '(cs, m) := keys_chars ks (t_mods a) in ([], mkterm m (fold_left type_char cs (t_lines a)))
  | Reads killed target n =>
      let '(o, q) := take_line killed target n (l_queue (t_lines a)) in
      ([o], mkterm (t_mods a) (mklines q (l_edit (t_lines a))))
  end.

Fixpoint term_events (es : list cevent) (a : term) : list crout * term :=
  match es with
  | [] => ([], a)
  | e :: es' => let '(o, a1) := term_event e a in let '(os, a2) := term_events es' a1 in (o ++ os, a2)
  end.

Definition event_ok (e : cevent) : Prop :=
  match e with
  | Typed cs => Forall (λ c, 0 ≤ c < 256) cs
  | Keys ks => Forall (λ k, 0 ≤ k < 256) ks
  | Reads _ _ _ => True
  end.

(** Between two events: nobody holds the lock. *)
Record term_rel (s : con) (a : term) : Prop := {
  tr_con : con_rel s (t_lines a);
  tr_shift : c_shift s = bits (t_mods a);
  tr_lock : c_lock s = false;
  tr_uart : c_uart s = true }.


Lemma typed_ok ch cs s a : term_rel s a → Forall (λ c, 0 ≤ c < 256) cs →
  ∃ s', uartintr ch (mret tt) (S (length cs)) (set_c_recv cs s) = Ok tt s' ∧
    term_rel s' (mkterm (t_mods a) (fold_left type_char cs (t_lines a))).
Proof.
  intros [H Hs Hl Hu] Hb.
  destruct (@consoleintr_ok _ (uart_source (c_shift s)) ch cs (S (length cs)) (set_c_recv cs s) (t_lines a))
    as (s' & E & H' & Hu' & _ & _ & Hs'); [by destruct H as [[]]|done|by split_and!|lia|].
  eexists. split; [exact E|]. split; [done|simpl; congruence|done|done].
Qed.

Lemma keys_ok ch ks m' cs s a : term_rel s a → Forall (λ k, 0 ≤ k < 256) ks → keys_chars ks (t_mods a) = (cs, m') →
  ∃ s', kbdintr ch (mret tt) (S (length ks)) (set_c_kbd (c_shift s) ks s) = Ok tt s' ∧
    term_rel s' (mkterm m' (fold_left type_char cs (t_lines a))) ∧ c_keys s' = [].
Proof.
  intros [H Hs Hl Hu] Hb Hk. pose proof (length_keys_chars ks (t_mods a)) as L. rewrite Hk in L. simpl in L.
  destruct (@consoleintr_ok _ (kbd_source m') ch cs (S (length ks)) (set_c_kbd (c_shift s) ks s) (t_lines a))
    as (s' & E & H' & Hu' & m & Hm & _ & Hm').
  { by destruct H as [[]]. }
  { done. }
  { split; [done|]. exists (t_mods a). by split_and!. }
  { lia. }
  pose proof (length_keys_chars (c_keys s') m) as L'. rewrite Hm' in L'.
  destruct (c_keys s') eqn:Ek; [|done]. simplify_eq/=.
  eexists. split; [exact E|]. split; [|done]. by split.
Qed.

Lemma con_event_ok ch e s a : term_rel s a → event_ok e →
  ∃ s', con_event ch e s = Ok (term_event e a).1 s' ∧ term_rel s' (term_event e a).2.
Proof.
  intros H He. destruct e as [cs|ks|killed target n]; cbn [con_event term_event event_ok] in *.
  - destruct (typed_ok ch cs s a H He) as (s' & E & H').
    rewrite (bind_ok _ _ _ tt (set_c_recv cs s)) by done. mstep E. by exists s'.
  - destruct (keys_chars ks (t_mods a)) as [cs m'] eqn:Ek.
    destruct (keys_ok ch ks m' cs s a H He Ek) as (s' & E & H' & _).
    rewrite (bind_ok _ _ _ tt (set_c_kbd (c_shift s) ks s)) by done. mstep E. by exists s'.
  - destruct a as [m [Q L]], H as [H Hs Hl Hu].
    destruct (consoleread_run_ok killed target n s Q L H Hl) as (s' & E & H' & I1 & I2 & I3 & I4 & I5).
    mstep E. simpl. destruct (take_line killed target n Q) as [o Q']. exists s'. split; [done|].
    split; simpl in *; congruence || done.
Qed.

(** C25: under every interleaving of keyboard interrupts, serial interrupts and
    readers, the handlers on the input ring, whose indices wrap around at 32
    bits, do what the specification does with a queue of finished characters
    and one edited line: kill and erase never reach a finished line, a full
    ring drops what is typed, a reader gets the oldest line, at most [n]
    characters of it, and an end of file after some characters stays for the
    next read.  Nothing panics, the lock is free again, and the cursor stays on
    the screen. *)
Theorem console_refines ch es : ∀ s a, term_rel s a → Forall event_ok es →
  ∃ s', con_events ch es s = Ok (term_events es a).1 s' ∧ term_rel s' (term_events es a).2.
Proof.
  induction es as [|e es IH]; intros s a H He; cbn [con_events term_events]; [by exists s|].
  apply Forall_cons in He as [He Hes]. destruct (con_event_ok ch e s a H He) as (s1 & E1 & H1). mstep E1.
  destruct (term_event e a) as [o a1]. destruct (IH s1 a1 H1 Hes) as (s2 & E2 & H2). mstep E2.
  destruct (term_events es a1) as [os a2]. by exists s2.
Qed.

Definition no_mods : mods := mkmods false false false false false false false.
Definition term0 : term := mkterm no_mods (mklines [] []).

Lemma term0_rel : term_rel con0 term0.
Proof. split; [exact con0_rel|reflexivity..]. Qed.

Lemma console_refines_witness :
  let es := [Typed (str "ab" ++ [DEL]); Keys [0x2E; 0xAE; 0x1C]; Reads false 2 2; Keys [0x1D; 0x16; 0x9D]; Typed [120; C_D];
             Reads false 9 9; Reads false 9 9; Reads false 9 9] in
  ∃ s', con_events 0 es con0 = Ok [CDone (str "ac"); CDone [NEWLINE]; CDone (str "x"); CDone []] s' ∧
    term_rel s' (mkterm no_mods (mklines [] [])).
Proof.
  intros es. destruct (console_refines 0 es con0 term0 term0_rel) as (s' & E & H).
  - repeat constructor; vm_compute; discriminate.
  - exists s'. split; [exact E|exact H].
Defined.

(** ** Typing on the keyboard *)

Lemma type_nul a : type_char a 0 = a.
Proof. reflexivity. Qed.

Lemma type_filter cs : ∀ a, fold_left type_char (filter (λ x, x ≠ 0) cs) a = fold_left type_char cs a.
Proof.
  induction cs as [|c cs IH]; intros a; [done|]. destruct (decide (c = 0)) as [->|Hc].
  - rewrite filter_cons_False by auto. apply IH.
  - rewrite filter_cons_True by done. apply IH.
Qed.

(** A text typed on the keyboard, key by key and with shift where the
    character needs it, reaches the line discipline exactly as the text, the
    modifiers are as before, and the controller is empty; this is for every
    text of printable characters, tabs, newlines, backspaces and escapes. *)
Theorem keyboard_types ch text s a : term_rel s a → plain (t_mods a) = true → Forall (λ c, typable c = true) text →
  ∃ s', kbdintr ch (mret tt) (S (length (keys_of text))) (set_c_kbd (c_shift s) (keys_of text) s) = Ok tt s' ∧
    term_rel s' (mkterm (t_mods a) (fold_left type_char text (t_lines a))) ∧ c_keys s' = [].
Proof.
  intros H Hm Ht. destruct (keys_text (t_mods a) text Hm Ht) as (cs & E & F & B).
  destruct (keys_ok ch _ _ cs s a H B E) as (s' & E' & H'). exists s'. split; [done|]. by rewrite <- type_filter, F in H'.
Qed.

Lemma keyboard_types_witness :
  let text := str "Echo {42}" in
  ∃ s', kbdintr 0 (mret tt) (S (length (keys_of text))) (set_c_kbd 0 (keys_of text) con0) = Ok tt s' ∧
    term_rel s' (mkterm no_mods (mklines [] text)) ∧ c_keys s' = [].
Proof.
  intros text. destruct (keyboard_types 0 text con0 term0 term0_rel eq_refl) as (s' & E & H).
  - repeat constructor.
  - exists s'. split; [exact E|exact H].
Defined.
