(* ===== verification/Start.v ===== *)
(** * Starting the machine: main.c, uartinit of uart.c, entryother.S

    [board] is what the boot processor sets up: the kernel of Proc.v, the processors
    that mp.c found, the interrupt controllers, the console and the disk, the
    trap vectors, and of each processor its segments, its tables and whether it
    has started.  The initialisations of the devices are those of their files,
    with the lines of the I/O APIC that they enable.

    [startothers] starts the other processors one after the other: it leaves a
    stack for each below the code at 0x7000, which is entryother.S, and waits.  The
    processor that starts reads the three words there and calls [mpenter].  The memory
    below the kernel, where this code is, is that of the controllers; the
    pages of the allocator are those of Kalloc.v.

    [entrypgdir_maps]: the page table of the start.  [routed]: which lines of the I/O
    APIC are open, each with the vector that [trap] has for it; [consoleinit_irq_ok],
    [uartinit_ok] and [ideinit_irq_ok] open one more.  [startothers_ok]: every
    processor of the table runs, each on a stack of its own.  Main.v puts them together. *)

From S2P Require Import Prelude Params Strings Phys Sleeplock Spinlock BlockDev Tx Fs Kalloc Vm VmSpace File Proc Printf Syscall Exec Sysfile Trapc Seg Mp Ide Console Apic.

(** ** The page table of the start *)

Definition entrypgdir : list Z :=
  let e := Z.lor (Z.lor (Z.lor 0 PTE_P) PTE_W) PTE_PS in
  <[Z.to_nat (Z.shiftr KERNBASE PDXSHIFT) := e]> (<[0%nat := e]> (replicate (Z.to_nat NPDENTRIES) 0)).

(** What the processor makes of a directory whose entries are pages of 4 megabytes;
    [None] is a fault. *)
Definition translate4m (dir : list Z) (va : Z) : option Z :=
  match dir !! Z.to_nat (PDX va) with
  | Some e => if Z.testbit e 0 && Z.testbit e 7 then Some (Z.shiftl (Z.shiftr e PDXSHIFT) PDXSHIFT + va mod 4194304) else None
  | None => None
  end.

(** ** The board *)

(** A processor: [cpus[i].gdt], what [lgdt] and [lidt] were given, [cpus[i].started],
    the stack and the page table it entered the kernel with, the page table it uses,
    and the registers of its local APIC. *)
Record cpuboot : Type := mkcb {
  cb_gdt : list segdesc;
  cb_gdtr : list Z;
  cb_idtr : list Z;
  cb_started : Z;
  cb_esp : Z;
  cb_entry : Z;
  cb_cr3 : Z;
  cb_lapic : Z → Z }.
Definition cb_seg g r c := mkcb g r (cb_idtr c) (cb_started c) (cb_esp c) (cb_entry c) (cb_cr3 c) (cb_lapic c).
Definition cb_lidt r c := mkcb (cb_gdt c) (cb_gdtr c) r (cb_started c) (cb_esp c) (cb_entry c) (cb_cr3 c) (cb_lapic c).
Definition cb_start v c := mkcb (cb_gdt c) (cb_gdtr c) (cb_idtr c) v (cb_esp c) (cb_entry c) (cb_cr3 c) (cb_lapic c).
Definition cb_enter sp pt c := mkcb (cb_gdt c) (cb_gdtr c) (cb_idtr c) (cb_started c) sp pt pt (cb_lapic c).
Definition cb_load pt c := mkcb (cb_gdt c) (cb_gdtr c) (cb_idtr c) (cb_started c) (cb_esp c) (cb_entry c) pt (cb_lapic c).
Definition cb_regs f c := mkcb (cb_gdt c) (cb_gdtr c) (cb_idtr c) (cb_started c) (cb_esp c) (cb_entry c) (cb_cr3 c) f.

Section board.
Context {T : Type}.

Record board : Type := mkboard {
  b_ps : pstate (T := T);
  b_mp : mps;
  b_x : chips;
  b_con : con;
  b_ide : ide;
  b_idt : list gatedesc;
  b_cpus : list cpuboot }.
Definition b_set_ps p s := mkboard p (b_mp s) (b_x s) (b_con s) (b_ide s) (b_idt s) (b_cpus s).
Definition b_set_mp m s := mkboard (b_ps s) m (b_x s) (b_con s) (b_ide s) (b_idt s) (b_cpus s).
Definition b_set_x x s := mkboard (b_ps s) (b_mp s) x (b_con s) (b_ide s) (b_idt s) (b_cpus s).
Definition b_set_con c s := mkboard (b_ps s) (b_mp s) (b_x s) c (b_ide s) (b_idt s) (b_cpus s).
Definition b_set_ide i s := mkboard (b_ps s) (b_mp s) (b_x s) (b_con s) i (b_idt s) (b_cpus s).
Definition b_set_idt i s := mkboard (b_ps s) (b_mp s) (b_x s) (b_con s) (b_ide s) i (b_cpus s).
Definition b_set_cpus l s := mkboard (b_ps s) (b_mp s) (b_x s) (b_con s) (b_ide s) (b_idt s) l.

Definition on_ps {A} (m : Prelude.M pstate A) : Prelude.M board A := zoom (λ s, Some (b_ps s)) b_set_ps m.
Definition on_mp {A} (m : Prelude.M mps A) : Prelude.M board A := zoom (λ s, Some (b_mp s)) b_set_mp m.
Definition on_x {A} (m : Prelude.M chips A) : Prelude.M board A := zoom (λ s, Some (b_x s)) b_set_x m.
Definition on_con {A} (m : Prelude.M con A) : Prelude.M board A := zoom (λ s, Some (b_con s)) b_set_con m.
Definition on_ide {A} (m : Prelude.M ide A) : Prelude.M board A := zoom (λ s, Some (b_ide s)) b_set_ide m.
Definition on_cpu (c : nat) (f : cpuboot → cpuboot) : Prelude.M board unit :=
  s ← get; x ← lift_opt (b_cpus s !! c); modify (b_set_cpus (<[c := f x]> (b_cpus s))).
(** The processor [c] has a local APIC of its own; all see the others. *)
Definition on_apic {A} (c : nat) (m : Prelude.M chips A) : Prelude.M board A :=
  zoom (λ s, x ← b_cpus s !! c; Some (x_la (cb_lapic x) 0 (x_aps (b_x s)) (b_x s)))
       (λ x s, b_set_cpus (alter (cb_regs (x_regs x)) c (b_cpus s)) (b_set_x (x_la (x_regs (b_x s)) (x_busy (b_x s)) (x_aps x) x) s)) m.
End board.
Arguments board : clear implicits.

Section start.
Context {T : Type} `{!TxOps T}.
(** [delay] is that of the local APIC; [slow] polls pass until a processor that was
    started gets to its code; [boot_id] is the APIC number of the boot processor
    and [la_ver] the version register; [com1] is what the line status of the
    serial port reads; [mpenter_addr], [entrypgdir_addr], [idt_addr] and [gdt_addr] are
    addresses of the kernel, [entryother] is the image of entryother.S;
    [idefuel] is that of the disk driver and [fuel] of the other loops. *)
Context (delay slow idefuel fuel : nat) (boot_id la_ver com1 mpenter_addr entrypgdir_addr idt_addr : Z) (gdt_addr : nat → Z) (entryother : list Z).
Notation M := (Prelude.M (board T)).

(** ** The devices *)

Definition consoleinit_irq : M unit :=
  on_con consoleinit;;
  on_x (ioapicenable IRQ_KBD 0).

Definition COM1 : Z := 0x3f8.
Definition set_c_uart (b : bool) (s : con) : con :=
  mkcon (c_lock s) (c_locking s) (c_panicked s) (c_in s) (c_pos s) (c_crt s) b (c_sent s) (c_recv s) (c_woken s) (c_shift s) (c_keys s) (c_devsw s).

(** The text "xv6..." and a new line. *)
Definition banner : list Z := [120; 118; 54; 46; 46; 46; 10].
Fixpoint uart_announce (l : list Z) : M unit :=
  match l with
  | [] => mret tt
  | c :: l' => on_con (uartputc c);; uart_announce l'
  end.

(** The reads that acknowledge what was pending take the byte that waits. *)
Definition uartinit : M unit :=
  on_x (outb (COM1 + 2) 0);;
  on_x (outb (COM1 + 3) 0x80);;
  on_x (outb (COM1 + 0) (115200 / 9600));;
  on_x (outb (COM1 + 1) 0);;
  on_x (outb (COM1 + 3) 0x03);;
  on_x (outb (COM1 + 4) 0);;
  on_x (outb (COM1 + 1) 0x01);;
  if com1 =? 0xff then mret tt else
  on_con (modify (set_c_uart true));;
  on_con (modify (λ s, set_c_recv (drop 1 (c_recv s)) s));;
  on_x (ioapicenable IRQ_COM1 0);;
  uart_announce banner.

(** The line first; [ideinit] has the rest. *)
Definition ideinit_irq : M unit :=
  s ← get;
  on_x (ioapicenable IRQ_IDE (mp_ncpu (b_mp s) - 1));;
  on_ide (ideinit idefuel).

(** ** The processors *)

(** The processors that mp.c found. *)
Definition apicids (s : board T) : list Z := take (Z.to_nat (mp_ncpu (b_mp s))) (mp_apicids (b_mp s)).

(** [seginit], on the processor with APIC number [id]. *)
Definition GDTSZ : Z := Z.of_nat NSEGS * 8.
Definition seginit_cpu (id : Z) : M unit :=
  s ← get;
  c ← mycpu false (apicids s) id;
  on_cpu c (λ x, cb_seg (seginit (cb_gdt x)) (lgdt (gdt_addr c) GDTSZ) x).

Definition STARTING : list Z := str "cpu%d: starting %d" ++ [NEWLINE].
Definition IDTSZ : Z := 256 * 8.

(** [mpmain] up to the scheduler. *)
Definition mpmain (id : Z) : M unit :=
  s ← get;
  c ← mycpu false (apicids s) id;
  on_con (Console.cprintf STARTING [AInt (Z.of_nat c); AInt (Z.of_nat c)]);;
  on_cpu c (cb_lidt (lgdt idt_addr IDTSZ));;
  on_cpu c (cb_start 1).

Definition mpenter (id : Z) : M unit :=
  s ← get;
  c ← mycpu false (apicids s) id;
  on_cpu c (cb_load (V2P (ps_kpgdir (b_ps s))));;
  seginit_cpu id;;
  on_apic c (lapicinit delay la_ver fuel);;
  mpmain id.

(** entryother.S: the words below the code are the page table, the function and
    the stack. *)
Definition ap_run (c : nat) (id : Z) : M unit :=
  s ← get;
  match x_aps (b_x s) id with
  | Running a =>
      let m := x_mem (b_x s) in
      if negb (bool_decide (load a (length entryother) m = entryother)) then undef else
      on_cpu c (cb_enter (load32 (a - 4) m) (load32 (a - 12) m));;
      if load32 (a - 8) m =? mpenter_addr then mpenter id else undef
  | _ => mret tt
  end.

(** [while(c->started == 0) ;] while the other processor runs. *)
Fixpoint wait_started (rounds : nat) (wait : nat) (c : nat) (id : Z) : M unit :=
  s ← get;
  x ← lift_opt (b_cpus s !! c);
  if negb (cb_started x =? 0) then mret tt else
  match rounds with
  | O => no_fuel
  | S rounds' =>
      match wait with
      | O => ap_run c id;; wait_started rounds' 0 c id
      | S wait' => wait_started rounds' wait' c id
      end
  end.

Definition CODE : Z := 0x7000.

(** Of the processor [c]; the result of [kalloc] is not checked. *)
Definition start_one (c : nat) : M unit :=
  s ← get;
  me ← mycpu false (apicids s) boot_id;
  if (c =? me)%nat then mret tt else
  stack ← on_ps (on_kmem kalloc);
  on_x (modify (x_store (CODE - 4) (le_bytes 4 (u32 (stack + KSTACKSIZE)))));;
  on_x (modify (x_store (CODE - 8) (le_bytes 4 mpenter_addr)));;
  on_x (modify (x_store (CODE - 12) (le_bytes 4 (V2P entrypgdir_addr))));;
  id ← lift_opt (apicids s !! c);
  on_x (lapicstartap delay id CODE);;
  wait_started fuel slow c id.

Definition startothers : M unit :=
  on_x (modify (x_store CODE entryother));;
  n ← gets (λ s, mp_ncpu (b_mp s));
  for_each (Z.to_nat n) 0 (λ c, start_one (Z.to_nat c)).
End start.

(** ** The page table of the start *)

(** The first 4 megabytes are at 0 and at KERNBASE, and nothing else is mapped. *)
Lemma entrypgdir_maps va : 0 ≤ va < 4294967296 → translate4m entrypgdir va =
  if va <? 4194304 then Some va else if (KERNBASE <=? va) && (va <? KERNBASE + 4194304) then Some (V2P va) else None.
Proof.
  intros Hva. unfold translate4m. assert (Hp : PDX va = va / 4194304).
  { unfold PDX, PDXSHIFT. change 0x3FF with (Z.ones 10). rewrite Z.land_ones, Z.shiftr_div_pow2 by lia. change (2 ^ 22) with 4194304. change (2 ^ 10) with 1024. lia. }
  rewrite Hp. assert (Hd : 0 ≤ va / 4194304 < 1024) by lia. unfold entrypgdir. cbv zeta. change (Z.shiftr KERNBASE PDXSHIFT) with 512.
  unfold V2P, KERNBASE. destruct (Z.ltb_spec va 4194304); [|destruct (Z.leb_spec 2147483648 va), (Z.ltb_spec va (2147483648 + 4194304)); cbn [andb]].
  - replace (va / 4194304) with 0 by lia. change (<[_:=_]> _ !! Z.to_nat 0) with (Some (Z.lor (Z.lor (Z.lor 0 PTE_P) PTE_W) PTE_PS)).
    cbn -[Z.modulo]. f_equal. change (Z.shiftl (Z.shiftr _ _) _) with 0. lia.
  - replace (va / 4194304) with 512 by lia. rewrite list_lookup_insert_eq by (rewrite length_insert, length_replicate; unfold NPDENTRIES; lia).
    cbn -[Z.modulo]. f_equal. change (Z.shiftl (Z.shiftr _ _) _) with 0. unfold u32. lia.
  - rewrite !list_lookup_insert_ne by lia. rewrite lookup_replicate_2 by (unfold NPDENTRIES; lia). done.
  - rewrite !list_lookup_insert_ne by lia. rewrite lookup_replicate_2 by (unfold NPDENTRIES; lia). done.
  - rewrite !list_lookup_insert_ne by lia. rewrite lookup_replicate_2 by (unfold NPDENTRIES; lia). done.
Qed.

(** ** The processor that runs *)

Lemma mycpu_scan_ok l : ∀ c id i, NoDup l → l !! c = Some id → mycpu_scan l id i = Some (i + c)%nat.
Proof.
  induction l as [|a l IH]; intros c id i Hn Hc; [done|]. apply NoDup_cons in Hn as [Ha Hn]. cbn [mycpu_scan]. destruct c as [|c].
  - injection Hc as ->. rewrite Z.eqb_refl. f_equal. lia.
  - destruct (Z.eqb_spec a id) as [->|]; [destruct Ha; by eapply list_elem_of_lookup_2|]. rewrite (IH c id (S i) Hn Hc). f_equal. lia.
Qed.

Lemma mycpu_ok {S} l c id (s : S) : NoDup l → l !! c = Some id → mycpu false l id s = Ok c s.
Proof. intros Hn Hc. unfold mycpu. by rewrite (mycpu_scan_ok l c id 0 Hn Hc). Qed.

(** ** The disk at the start *)

Lemma find_disk1_ok n s : h_busy (id_hw s) = 0%nat → ∃ s', find_disk1 (S n) s = Ok tt s' ∧ id_havedisk1 s' = true ∧
  id_queue s' = id_queue s ∧ id_bufs s' = id_bufs s ∧ id_lock s' = id_lock s ∧ id_hw s' = id_hw s.
Proof.
  intros Hb. cbn [find_disk1]. destruct s as [lk bufs q one [drv cnt l0 l1 l2 sel op busy err] wk]. simpl in Hb. subst busy.
  by destruct err; eexists.
Qed.

Lemma ideinit_ok rounds s : (h_busy (id_hw s) < rounds)%nat →
  ∃ s', ideinit rounds s = Ok tt s' ∧ id_lock s' = false ∧ id_havedisk1 s' = true ∧ id_queue s' = id_queue s.
Proof.
  intros Hf. unfold ideinit. rewrite bind_modify. set (s1 := id_set_lock false s).
  mstep (idewait_ok rounds false s1 Hf). unfold Ide.outb. rewrite bind_modify. set (s2 := id_set_hw _ _).
  destruct (find_disk1_ok 999 s2 eq_refl) as (s3 & E & H1 & H2 & _ & H4 & _). change 1000%nat with (S 999). mstep E.
  eexists. split; [reflexivity|]. done.
Qed.

Section devices.
Context {T : Type} `{!TxOps T}.
Implicit Types (s : board T).

Lemma on_x_ok {A} (m : Prelude.M chips A) s a x : m (b_x s) = Ok a x → on_x m s = Ok a (b_set_x x s).
Proof. apply (zoom_ok (λ s, Some (b_x s)) b_set_x m s (b_x s)). done. Qed.
Lemma on_con_ok {A} (m : Prelude.M con A) s a x : m (b_con s) = Ok a x → on_con m s = Ok a (b_set_con x s).
Proof. apply (zoom_ok (λ s, Some (b_con s)) b_set_con m s (b_con s)). done. Qed.
Lemma on_ide_ok {A} (m : Prelude.M ide A) s a x : m (b_ide s) = Ok a x → on_ide m s = Ok a (b_set_ide x s).
Proof. apply (zoom_ok (λ s, Some (b_ide s)) b_set_ide m s (b_ide s)). done. Qed.
Lemma on_mp_ok {A} (m : Prelude.M mps A) s a x : m (b_mp s) = Ok a x → on_mp m s = Ok a (b_set_mp x s).
Proof. apply (zoom_ok (λ s, Some (b_mp s)) b_set_mp m s (b_mp s)). done. Qed.
Lemma on_ps_ok {A} (m : Prelude.M pstate A) s a x : m (b_ps s) = Ok a x → on_ps m s = Ok a (b_set_ps x s).
Proof. apply (zoom_ok (λ s, Some (b_ps s)) b_set_ps m s (b_ps s)). done. Qed.
Lemma on_cpu_ok c f s x : b_cpus s !! c = Some x → on_cpu c f s = Ok tt (b_set_cpus (<[c := f x]> (b_cpus s)) s).
Proof. intros E. unfold on_cpu, get, mbind, M_bind. by rewrite E. Qed.

(** The redirection table with some lines open: [open i] is the processor. *)
Definition routed (f : Z → Z) (n : Z) (open : Z → option Z) : Prop :=
  ∀ i, 0 ≤ i ≤ n → entry_of f i = mkredir (T_IRQ0 + i) (negb (bool_decide (is_Some (open i)))) false false false (default 0 (open i)).
Definition opened (irq cpu : Z) (open : Z → option Z) : Z → option Z := λ i, if i =? irq then Some cpu else open i.

Lemma open_line irq cpu n open x : x_ioapic x = true → routed (x_ioregs x) n open → n < 224 → 0 ≤ irq ≤ n → 0 ≤ cpu < 256 →
  ∃ r f, ioapicenable irq cpu x = Ok tt (x_io r f x) ∧ routed f n (opened irq cpu open).
Proof.
  intros Hx Hr Hn Hi Hc. destruct (ioapicenable_routes irq cpu x Hx ltac:(lia) Hc) as (r & f & E & H1 & H2).
  exists r, f. split; [done|]. intros i Hi'. unfold opened. destruct (Z.eqb_spec i irq) as [->|Hne].
  - rewrite H1, bool_decide_true by done. done.
  - by rewrite H2, Hr.
Qed.

(** Chips of which only the I/O APIC and the ports have changed. *)
Record io_kept (x x' : chips) : Prop := {
  ik_ioapic : x_ioapic x' = x_ioapic x;
  ik_lapic : x_lapic x' = x_lapic x;
  ik_aps : x_aps x' = x_aps x;
  ik_regs : x_regs x' = x_regs x;
  ik_mem : x_mem x' = x_mem x }.

Lemma consoleinit_irq_ok s n open : x_ioapic (b_x s) = true → routed (x_ioregs (b_x s)) n open → 14 ≤ n < 224 →
  length (c_devsw (b_con s)) = Z.to_nat NDEV →
  ∃ x, consoleinit_irq s = Ok tt (b_set_x x (b_set_con (con_inited (b_con s)) s)) ∧
    io_kept (b_x s) x ∧ routed (x_ioregs x) n (opened IRQ_KBD 0 open).
Proof.
  intros Hx Hr Hn Hd. destruct (open_line IRQ_KBD 0 n open (b_x s) Hx Hr) as (r & f & E & H); [lia|unfold IRQ_KBD; lia|lia|].
  exists (x_io r f (b_x s)). split; [|done]. unfold consoleinit_irq.
  rewrite (bind_ok _ _ _ _ _ (on_con_ok consoleinit s tt _ (consoleinit_ok _ Hd))). set (s1 := b_set_con _ s). by rewrite (on_x_ok _ s1 tt (x_io r f (b_x s)) E).
Qed.

Lemma uart_announce_ok l : ∀ s, screen_ok (b_con s) → ∃ c, uart_announce l s = Ok tt (b_set_con c s) ∧ screen_ok c ∧ same_input (b_con s) c.
Proof.
  induction l as [|a l IH]; intros s Hs.
  { exists (b_con s). split; [by destruct s|]. done. }
  cbn [uart_announce]. destruct (uartputc_ok a (b_con s) Hs) as (c1 & E1 & H1 & I1). rewrite (bind_ok _ _ _ _ _ (on_con_ok _ s _ _ E1)).
  destruct (IH (b_set_con c1 s) H1) as (c & E & H & I). exists c. split; [done|]. split; [done|]. by eapply same_input_trans.
Qed.

(** The lines after [uartinit]: without a serial port the status reads 0xff. *)
Definition uart_open (com1 : Z) (open : Z → option Z) : Z → option Z := if com1 =? 0xff then open else opened IRQ_COM1 0 open.

Lemma uartinit_ok com1 s n open : x_ioapic (b_x s) = true → routed (x_ioregs (b_x s)) n open → 14 ≤ n < 224 → screen_ok (b_con s) →
  ∃ x c, uartinit com1 s = Ok tt (b_set_x x (b_set_con c s)) ∧ io_kept (b_x s) x ∧ routed (x_ioregs x) n (uart_open com1 open) ∧
    screen_ok c ∧ c_lock c = c_lock (b_con s) ∧ c_locking c = c_locking (b_con s) ∧ (com1 ≠ 0xff → c_uart c = true) ∧ c_devsw c = c_devsw (b_con s).
Proof.
  intros Hx Hr Hn Hs. unfold uartinit.
  do 7 (rewrite (bind_ok _ _ _ _ _ (on_x_ok (outb _ _) _ tt _ eq_refl)); cbn [b_set_x b_x b_ps b_mp b_con b_ide b_idt b_cpus]).
  set (x7 := x_port (COM1 + 1) 0x01 _). unfold uart_open. destruct (Z.eqb_spec com1 0xff) as [Hc|Hc].
  - exists x7, (b_con s). split; [by destruct s|]. done.
  - set (s7 := b_set_x x7 s). change (mkboard _ _ _ _ _ _ _) with s7.
    rewrite (bind_ok _ _ _ _ _ (on_con_ok (modify (set_c_uart true)) s7 tt _ eq_refl)). set (s8 := b_set_con _ s7).
    rewrite (bind_ok _ _ _ _ _ (on_con_ok (modify _) s8 tt _ eq_refl)). set (s9 := b_set_con _ s8).
    destruct (open_line IRQ_COM1 0 n open (b_x s9) Hx Hr) as (r & f & E & H); [lia|unfold IRQ_COM1; lia|lia|].
    rewrite (bind_ok _ _ _ _ _ (on_x_ok _ s9 tt _ E)). set (s10 := b_set_x _ s9).
    assert (Hs10 : screen_ok (b_con s10)) by (by destruct Hs). destruct (uart_announce_ok banner s10 Hs10) as (c & E' & H' & I').
    exists (x_io r f x7), c. split; [exact E'|]. split; [done|]. split; [exact H|]. split; [done|].
    destruct I' as (I1 & I2 & _ & I4 & _ & _ & _ & _ & I9). rewrite I1, I2, I4, I9. done.
Qed.

(** The disk is ready, and its line is that of the last processor. *)
Lemma ideinit_irq_ok idefuel s n open : x_ioapic (b_x s) = true → routed (x_ioregs (b_x s)) n open → 14 ≤ n < 224 →
  1 ≤ mp_ncpu (b_mp s) ≤ NCPU → (h_busy (id_hw (b_ide s)) < idefuel)%nat →
  ∃ x i, ideinit_irq idefuel s = Ok tt (b_set_x x (b_set_ide i s)) ∧ io_kept (b_x s) x ∧
    routed (x_ioregs x) n (opened IRQ_IDE (mp_ncpu (b_mp s) - 1) open) ∧ id_lock i = false ∧ id_havedisk1 i = true ∧ id_queue i = id_queue (b_ide s).
Proof.
  intros Hx Hr Hn Hc Hf. unfold NCPU in Hc.
  destruct (open_line IRQ_IDE (mp_ncpu (b_mp s) - 1) n open (b_x s) Hx Hr) as (r & f & E & H); [lia|unfold IRQ_IDE; lia|lia|].
  destruct (ideinit_ok idefuel (b_ide s) Hf) as (i & Ei & H1 & H2 & H3).
  exists (x_io r f (b_x s)), i. split; [|done]. unfold ideinit_irq. rewrite (bind_ok _ _ _ _ _ (eq_refl : get s = Ok s s)).
  rewrite (bind_ok _ _ _ _ _ (on_x_ok _ s tt _ E)). set (s1 := b_set_x _ s). by rewrite (on_ide_ok _ s1 tt i Ei).
Qed.
End devices.

(** ** The processors *)

Section processors.
Context {T : Type} `{!TxOps T}.
Context (delay slow fuel cpu_id : nat) (boot_id la_ver mpenter_addr entrypgdir_addr idt_addr : Z) (gdt_addr : nat → Z) (entryother : list Z).
Context (ids : list Z).
Hypothesis ids_nodup : NoDup ids.
Implicit Types (s : board T).

(** A processor [x] that has gone through [mpmain], with its local APIC. *)
Definition cpu_set (c : nat) (f : Z → Z) (x : cpuboot) : cpuboot :=
  cb_start 1 (cb_lidt (lgdt idt_addr IDTSZ) (cb_regs f (cb_seg (seginit (cb_gdt x)) (lgdt (gdt_addr c) GDTSZ) x))).

Lemma mpmain_ok s c id x : apicids s = ids → ids !! c = Some id → b_cpus s !! c = Some x → screen_ok (b_con s) → c_lock (b_con s) = false →
  ∃ k, mpmain idt_addr id s = Ok tt (b_set_cpus (<[c := cb_start 1 (cb_lidt (lgdt idt_addr IDTSZ) x)]> (b_cpus s)) (b_set_con k s)) ∧
    screen_ok k ∧ same_input (b_con s) k.
Proof.
  intros Hids Hc Hx Hs Hl. unfold mpmain. rewrite (bind_ok _ _ _ _ _ (eq_refl : get s = Ok s s)), Hids, (bind_ok _ _ _ _ _ (mycpu_ok ids c id s ids_nodup Hc)).
  destruct (cprintf_ok STARTING [AInt (Z.of_nat c); AInt (Z.of_nat c)] (b_con s) eq_refl Hs (or_intror Hl)) as (k & E & Hk & Ik).
  rewrite (bind_ok _ _ _ _ _ (on_con_ok _ s tt k E)). set (s1 := b_set_con k s). rewrite (bind_ok _ _ _ _ _ (on_cpu_ok c _ s1 x Hx)).
  exists k. split; [|done]. rewrite (on_cpu_ok c _ _ (cb_lidt (lgdt idt_addr IDTSZ) x)).
  - cbn [b_cpus b_set_cpus]. by rewrite list_insert_insert_eq.
  - apply list_lookup_insert_eq. by eapply lookup_lt_Some.
Qed.

Lemma seginit_cpu_ok s c id x : apicids s = ids → ids !! c = Some id → b_cpus s !! c = Some x →
  seginit_cpu gdt_addr id s = Ok tt (b_set_cpus (<[c := cb_seg (seginit (cb_gdt x)) (lgdt (gdt_addr c) GDTSZ) x]> (b_cpus s)) s).
Proof.
  intros Hids Hc Hx. unfold seginit_cpu. rewrite (bind_ok _ _ _ _ _ (eq_refl : get s = Ok s s)), Hids, (bind_ok _ _ _ _ _ (mycpu_ok ids c id s ids_nodup Hc)).
  exact (on_cpu_ok c (λ x, cb_seg (seginit (cb_gdt x)) (lgdt (gdt_addr c) GDTSZ) x) s x Hx).
Qed.

Lemma on_apic_ok s c x f : b_cpus s !! c = Some x →
  lapicinit delay la_ver fuel (x_la (cb_lapic x) 0 (x_aps (b_x s)) (b_x s)) = Ok tt (x_la f 0 (x_aps (b_x s)) (x_la (cb_lapic x) 0 (x_aps (b_x s)) (b_x s))) →
  on_apic c (lapicinit delay la_ver fuel) s = Ok tt (b_set_cpus (<[c := cb_regs f x]> (b_cpus s)) s).
Proof.
  intros Hx E. unfold on_apic. set (y := x_la (cb_lapic x) 0 (x_aps (b_x s)) (b_x s)) in *.
  rewrite (zoom_ok _ _ _ s y tt (x_la f 0 (x_aps (b_x s)) y)); [|by rewrite Hx|done]. f_equal.
  destruct s as [ps mp [io r g la h b aps cm t po m ms] con ide idt cs]. unfold b_set_cpus, b_set_x. cbn [b_cpus b_ps b_mp b_x b_con b_ide b_idt x_la x_regs x_busy x_aps y] in *. f_equal.
  apply list_eq. intros j. destruct (decide (j = c)) as [->|Hne].
  - rewrite list_lookup_alter_eq, Hx, list_lookup_insert_eq; [done|by eapply lookup_lt_Some].
  - by rewrite list_lookup_alter_ne, list_lookup_insert_ne by done.
Qed.

Lemma mpenter_ok s c id x : apicids s = ids → ids !! c = Some id → b_cpus s !! c = Some x → screen_ok (b_con s) → c_lock (b_con s) = false →
  x_lapic (b_x s) = true → (delay < fuel)%nat →
  ∃ k f, mpenter delay fuel la_ver idt_addr gdt_addr id s =
      Ok tt (b_set_cpus (<[c := cpu_set c f (cb_load (V2P (ps_kpgdir (b_ps s))) x)]> (b_cpus s)) (b_set_con k s)) ∧
    lapic_on f ∧ screen_ok k ∧ same_input (b_con s) k.
Proof.
  intros Hids Hc Hx Hs Hl Hla Hf. unfold mpenter. pose proof (lookup_lt_Some _ _ _ Hx) as Hlt.
  rewrite (bind_ok _ _ _ _ _ (eq_refl : get s = Ok s s)), Hids, (bind_ok _ _ _ _ _ (mycpu_ok ids c id s ids_nodup Hc)).
  rewrite (bind_ok _ _ _ _ _ (on_cpu_ok c _ s x Hx)). set (x1 := cb_load _ x). set (s1 := b_set_cpus _ s).
  assert (H1 : b_cpus s1 !! c = Some x1) by (by apply list_lookup_insert_eq).
  rewrite (bind_ok _ _ _ _ _ (seginit_cpu_ok s1 c id x1 Hids Hc H1)). set (x2 := cb_seg _ _ x1). set (s2 := b_set_cpus _ s1).
  assert (H2 : b_cpus s2 !! c = Some x2) by (apply list_lookup_insert_eq; cbn [s1 b_cpus b_set_cpus]; by rewrite length_insert).
  destruct (lapicinit_ok delay la_ver fuel (x_la (cb_lapic x2) 0 (x_aps (b_x s2)) (b_x s2)) Hla Hf) as (f & E & Hon & _).
  rewrite (bind_ok _ _ _ _ _ (on_apic_ok s2 c x2 f H2 E)). set (s3 := b_set_cpus _ s2).
  assert (H3 : b_cpus s3 !! c = Some (cb_regs f x2)) by (apply list_lookup_insert_eq; cbn [s2 s1 b_cpus b_set_cpus]; by rewrite !length_insert).
  destruct (mpmain_ok s3 c id (cb_regs f x2) Hids Hc H3 Hs Hl) as (k & E4 & Hk & Ik). exists k, f. split; [|done]. rewrite E4. f_equal.
  cbn [s3 s2 s1 b_cpus b_set_cpus]. by rewrite !list_insert_insert_eq.
Qed.
(** The code at 0x7000 and the three words below it. *)
Record at_code (m : mem) (sp : Z) : Prop := {
  ac_code : load CODE (length entryother) m = entryother;
  ac_stack : load32 (CODE - 4) m = sp;
  ac_entry : load32 (CODE - 8) m = mpenter_addr;
  ac_table : load32 (CODE - 12) m = V2P entrypgdir_addr }.

(** The processor [x] after it was started with the stack [sp]. *)
Definition cpu_up (c : nat) (kp sp : Z) (f : Z → Z) (x : cpuboot) : cpuboot := cpu_set c f (cb_load kp (cb_enter sp (V2P entrypgdir_addr) x)).

Section one.
Context (s : board T) (c : nat) (id : Z) (x : cpuboot) (sp : Z).
Hypotheses (Hids : apicids s = ids) (Hc : ids !! c = Some id) (Hx : b_cpus s !! c = Some x).
Hypotheses (Hs : screen_ok (b_con s)) (Hl : c_lock (b_con s) = false) (Hla : x_lapic (b_x s) = true) (Hf : (delay < fuel)%nat).
Hypotheses (Hrun : x_aps (b_x s) id = Running CODE) (Hcode : at_code (x_mem (b_x s)) sp).

Lemma ap_run_ok : ∃ k f,
  ap_run delay fuel la_ver mpenter_addr idt_addr gdt_addr entryother c id s =
      Ok tt (b_set_cpus (<[c := cpu_up c (V2P (ps_kpgdir (b_ps s))) sp f x]> (b_cpus s)) (b_set_con k s)) ∧
    lapic_on f ∧ screen_ok k ∧ same_input (b_con s) k.
Proof.
  destruct Hcode as [C1 C2 C3 C4]. unfold ap_run. rewrite (bind_ok _ _ _ _ _ (eq_refl : get s = Ok s s)), Hrun. cbv zeta.
  rewrite C1, bool_decide_true by done. cbn [negb]. rewrite C2, C3, C4, (bind_ok _ _ _ _ _ (on_cpu_ok c _ s x Hx)), Z.eqb_refl.
  set (x1 := cb_enter _ _ x). set (s1 := b_set_cpus _ s).
  assert (H1 : b_cpus s1 !! c = Some x1) by (apply list_lookup_insert_eq; by eapply lookup_lt_Some).
  destruct (mpenter_ok s1 c id x1 Hids Hc H1 Hs Hl Hla Hf) as (k & f & E & Hk). exists k, f. split; [|done]. rewrite E. f_equal.
  cbn [s1 b_cpus b_set_cpus b_ps]. by rewrite list_insert_insert_eq.
Qed.

Lemma wait_started_ok w : ∀ rounds, (w < rounds)%nat → cb_started x = 0 → ∃ k f,
  wait_started delay fuel la_ver mpenter_addr idt_addr gdt_addr entryother rounds w c id s =
      Ok tt (b_set_cpus (<[c := cpu_up c (V2P (ps_kpgdir (b_ps s))) sp f x]> (b_cpus s)) (b_set_con k s)) ∧
    lapic_on f ∧ screen_ok k ∧ same_input (b_con s) k.
Proof.
  induction w as [|w IH]; intros rounds Hw Hst; (destruct rounds as [|rounds]; [lia|]); cbn [wait_started];
    rewrite (bind_ok _ _ _ _ _ (eq_refl : get s = Ok s s)), Hx; cbn [lift_opt]; rewrite bind_ret_l, Hst; cbn [negb Z.eqb].
  - destruct ap_run_ok as (k & f & E & H). exists k, f. split; [|done]. rewrite (bind_ok _ _ _ _ _ E). set (s1 := b_set_cpus _ _).
    assert (H1 : b_cpus s1 !! c = Some (cpu_up c (V2P (ps_kpgdir (b_ps s))) sp f x)) by (apply list_lookup_insert_eq; by eapply lookup_lt_Some).
    destruct rounds; cbn [wait_started]; rewrite (bind_ok _ _ _ _ _ (eq_refl : get s1 = Ok s1 s1)), H1; done.
  - apply IH; [lia|done].
Qed.
End one.

(** The steps of [start_one] before the wait. *)
Lemma start_code m sp : 0 ≤ sp < 4294967296 → 0 ≤ mpenter_addr < 4294967296 → load CODE (length entryother) m = entryother →
  at_code (store (CODE - 12) (le_bytes 4 (V2P entrypgdir_addr)) (store (CODE - 8) (le_bytes 4 mpenter_addr) (store (CODE - 4) (le_bytes 4 sp) m))) sp.
Proof.
  intros Hsp Hmp Hm. assert (L : ∀ v, Z.of_nat (length (le_bytes 4 v)) = 4) by done.
  assert (O : ∀ a b v m, b + 4 ≤ a ∨ a + 4 ≤ b → load32 a (store b (le_bytes 4 v) m) = load32 a m).
  { intros a b v m' H. unfold load32. by rewrite load_store_out by (rewrite L; lia). }
  split.
  - by rewrite !load_store_out by (rewrite L; lia).
  - rewrite !O by lia. by apply load32_store.
  - rewrite !O by lia. by apply load32_store.
  - apply load32_store. unfold V2P, u32. lia.
Qed.

Context (kend : Z).
Hypotheses (Hkend : KERNBASE < kend) (Hboot : ids !! cpu_id = Some boot_id) (Hid : Forall (λ id, 0 ≤ id < 256) ids).
Hypotheses (Hdelay : (delay < fuel)%nat) (Hslow : (slow < fuel)%nat) (Hmp : 0 ≤ mpenter_addr < 4294967296).

(** The machine between two turns of the loop, with the free pages [l]. *)
Record smp s (l : list Z) : Prop := {
  sp_ids : apicids s = ids;
  sp_screen : screen_ok (b_con s);
  sp_lock : c_lock (b_con s) = false;
  sp_lapic : x_lapic (b_x s) = true;
  sp_code : load CODE (length entryother) (x_mem (b_x s)) = entryother;
  sp_heap : heap kend (fd_mem (ps_fd (b_ps s))) l }.

(** What another processor leaves as it was. *)
Record rest_kept s s' : Prop := {
  rk_ps : ∃ m, b_ps s' = set_fd (set_fd_mem m (ps_fd (b_ps s))) (b_ps s) ∧ pages m = pages (fd_mem (ps_fd (b_ps s)));
  rk_mp : b_mp s' = b_mp s;
  rk_ide : b_ide s' = b_ide s;
  rk_idt : b_idt s' = b_idt s;
  rk_con : same_input (b_con s) (b_con s');
  rk_io : x_ioapic (b_x s') = x_ioapic (b_x s) ∧ x_ioregs (b_x s') = x_ioregs (b_x s) }.

Lemma rest_kept_refl s : rest_kept s s.
Proof. split; try done. exists (fd_mem (ps_fd (b_ps s))). split; [|done]. by destruct s as [[? ? ? ? ? ? ? ? ? [] ? ?] ? ? ? ? ? ?]. Qed.

Lemma rest_kept_trans s1 s2 s3 : rest_kept s1 s2 → rest_kept s2 s3 → rest_kept s1 s3.
Proof.
  intros [(m & E & P) A1 A2 A3 A4 [A5 A6]] [(m' & E' & P') B1 B2 B3 B4 [B5 B6]]. split; try congruence; [|by eapply same_input_trans|split; congruence].
  exists m'. rewrite E', E, P', E. done.
Qed.

Lemma start_one_ok s r fl c id x : smp s (r :: fl) → ids !! c = Some id → c ≠ cpu_id → b_cpus s !! c = Some x → cb_started x = 0 →
  ∃ s' f, start_one delay slow fuel boot_id la_ver mpenter_addr entrypgdir_addr idt_addr gdt_addr entryother c s = Ok tt s' ∧
    smp s' fl ∧ rest_kept s s' ∧ lapic_on f ∧
    b_cpus s' = <[c := cpu_up c (V2P (ps_kpgdir (b_ps s))) (r + KSTACKSIZE) f x]> (b_cpus s).
Proof.
  intros [P1 P2 P3 P4 P5 P6] Hc Hne Hx Hst. pose proof (proj1 (Forall_forall _ _) Hid id ltac:(by eapply list_elem_of_lookup_2)) as Hi. cbn beta in Hi.
  pose proof (hp_ok _ _ _ P6) as Hok. apply Forall_cons in Hok as [(Hal & Hge & Htop & Hr) Hok].
  unfold start_one. rewrite (bind_ok _ _ _ _ _ (eq_refl : get s = Ok s s)), P1, (bind_ok _ _ _ _ _ (mycpu_ok ids cpu_id boot_id s ids_nodup Hboot)).
  rewrite (proj2 (Nat.eqb_neq _ _) Hne). destruct (kalloc_some _ r fl (hp_inv _ _ _ P6)) as (m & Em & Im & Pm & _).
  rewrite (bind_ok _ _ _ _ _ (on_ps_ok _ s r _ (on_kmem_ok kalloc (b_ps s) r m Em))). set (s1 := b_set_ps _ s).
  assert (Hsp : u32 (r + KSTACKSIZE) = r + KSTACKSIZE) by (unfold u32, KSTACKSIZE, V2P, u32, PHYSTOP, KERNBASE in *; lia). rewrite Hsp.
  do 3 (rewrite (bind_ok _ _ _ _ _ (on_x_ok (modify _) _ tt _ eq_refl))). set (s2 := b_set_x _ (b_set_x _ (b_set_x _ s1))).
  rewrite Hc. cbn [lift_opt]. rewrite bind_ret_l.
  assert (Hcode : at_code (x_mem (b_x s2)) (r + KSTACKSIZE)).
  { apply start_code; [unfold u32, KSTACKSIZE, V2P, PHYSTOP, KERNBASE in *; lia|done|done]. }
  destruct (lapicstartap_starts delay id CODE (b_x s2) Hi) as (x3 & E3 & Hrun & _ & Hm3 & Hla3 & Hio3 & Hre3); [by vm_compute|by vm_compute|].
  rewrite (bind_ok _ _ _ _ _ (on_x_ok _ s2 tt x3 E3)). set (s3 := b_set_x x3 s2).
  assert (Hcode3 : at_code (x_mem (b_x s3)) (r + KSTACKSIZE)).
  { destruct Hcode as [C1 C2 C3 C4]. assert (L : ∀ a n, 0x6000 ≤ a → load a n (x_mem (b_x s3)) = load a n (x_mem (b_x s2))).
    { intros a n Ha. apply load_same. intros y Hy. apply Hm3. lia. }
    split; unfold load32; rewrite L by (unfold CODE; lia); done. }
  destruct (wait_started_ok s3 c id x (r + KSTACKSIZE) P1 Hc Hx P2 P3 (eq_trans Hla3 P4) Hdelay Hrun Hcode3 slow fuel Hslow Hst) as (k & f & E4 & Hon & Hk & Ik).
  eexists _, f. split; [exact E4|]. split; [|split; [|done]].
  - split; [done|done|rewrite <- P3; apply Ik|by rewrite <- P4|exact (ac_code _ _ Hcode3)|]. cbn. split; [done|done|]. rewrite Pm. apply P6.
  - split; try done. by exists m.
Qed.

(** After the processors before [n]: [up] has each with the page of its stack. *)
Record others_up (s0 s : board T) (l0 l : list Z) (up : list (nat * Z)) (n : Z) : Prop := {
  ou_smp : smp s l;
  ou_kept : rest_kept s0 s;
  ou_up : ∀ c x, b_cpus s0 !! c = Some x → Z.of_nat c < n → c ≠ cpu_id → ∃ r f, (c, r) ∈ up ∧ lapic_on f ∧
    b_cpus s !! c = Some (cpu_up c (V2P (ps_kpgdir (b_ps s0))) (r + KSTACKSIZE) f x);
  ou_rest : ∀ c, n ≤ Z.of_nat c ∨ c = cpu_id → b_cpus s !! c = b_cpus s0 !! c;
  ou_acct : up.*2 ++ l ≡ₚ l0;
  ou_few : Z.of_nat (length up) ≤ n }.

Lemma smp_kpgdir s s' : rest_kept s s' → ps_kpgdir (b_ps s') = ps_kpgdir (b_ps s).
Proof. intros [(m & -> & _) _ _ _ _ _]. done. Qed.

Lemma others_step s0 s l0 l up c : others_up s0 s l0 l up (Z.of_nat c) → (c < length ids)%nat → (length ids ≤ length (b_cpus s0))%nat →
  (∀ j x, b_cpus s0 !! j = Some x → j ≠ cpu_id → cb_started x = 0) → (length ids ≤ length l0)%nat →
  ∃ s' l' up', start_one delay slow fuel boot_id la_ver mpenter_addr entrypgdir_addr idt_addr gdt_addr entryother c s = Ok tt s' ∧
    others_up s0 s' l0 l' up' (Z.of_nat c + 1).
Proof.
  intros [S K U R A F] Hc Hlen Hst Hl0. destruct (decide (c = cpu_id)) as [->|Hne].
  { exists s, l, up. split.
    - unfold start_one. rewrite (bind_ok _ _ _ _ _ (eq_refl : get s = Ok s s)), (sp_ids _ _ S), (bind_ok _ _ _ _ _ (mycpu_ok ids cpu_id boot_id s ids_nodup Hboot)).
      by rewrite Nat.eqb_refl.
    - split; [done|done|intros j x Hx Hj Hnj; apply (U j x Hx); [lia|done]|intros j Hj; apply R; lia|done|lia]. }
  destruct (lookup_lt_is_Some_2 ids c Hc) as [id Hi]. destruct (lookup_lt_is_Some_2 (b_cpus s0) c) as [x Hx]; [lia|].
  pose proof (Permutation_length A) as HA. rewrite length_app, length_fmap in HA. destruct l as [|r l]; [cbn [length] in HA; lia|].
  assert (Hx' : b_cpus s !! c = Some x) by (rewrite R; [done|lia]).
  destruct (start_one_ok s r l c id x S Hi Hne Hx') as (s' & f & E & S' & K' & Hon & Hb); [by eapply Hst|].
  rewrite (smp_kpgdir _ _ K) in Hb. exists s', l, ((c, r) :: up). split; [done|]. split.
  - done.
  - by eapply rest_kept_trans.
  - intros j y Hy Hj Hnj. destruct (decide (j = c)) as [->|Hjc].
    + rewrite Hx in Hy. injection Hy as <-. exists r, f. split; [by left|]. split; [done|]. rewrite Hb. apply list_lookup_insert_eq. by eapply lookup_lt_Some.
    + destruct (U j y Hy ltac:(lia) Hnj) as (r' & f' & H1 & H2 & H3). exists r', f'. split; [by right|]. split; [done|]. by rewrite Hb, list_lookup_insert_ne.
  - intros j Hj. rewrite Hb, list_lookup_insert_ne by lia. apply R. lia.
  - rewrite fmap_cons. simpl. rewrite <- A. by rewrite Permutation_middle.
  - simpl. lia.
Qed.

Lemma startothers_ok s l : apicids s = ids → mp_ncpu (b_mp s) = Z.of_nat (length ids) → screen_ok (b_con s) → c_lock (b_con s) = false →
  x_lapic (b_x s) = true → heap kend (fd_mem (ps_fd (b_ps s))) l → (length ids ≤ length l)%nat → (length ids ≤ length (b_cpus s))%nat →
  (∀ j x, b_cpus s !! j = Some x → j ≠ cpu_id → cb_started x = 0) →
  ∃ s' l' up, startothers delay slow fuel boot_id la_ver mpenter_addr entrypgdir_addr idt_addr gdt_addr entryother s = Ok tt s' ∧
    others_up s s' l l' up (Z.of_nat (length ids)).
Proof.
  intros H1 H2 H3 H4 H5 H6 Hl Hlen Hst. unfold startothers.
  rewrite (bind_ok _ _ _ _ _ (on_x_ok (modify _) s tt _ eq_refl)), bind_gets. set (s1 := b_set_x _ s). change (b_mp s1) with (b_mp s). rewrite H2, Nat2Z.id.
  pose (I := λ n s', ∃ l' up, others_up s s' l l' up n).
  destruct (for_each_inv I (λ c, start_one delay slow fuel boot_id la_ver mpenter_addr entrypgdir_addr idt_addr gdt_addr entryother (Z.to_nat c)) (length ids) 0 s1)
    as (s' & E & l' & up & H).
  - exists l, []. split.
    + split; try done. apply load_store.
    + split; try done. destruct (rk_ps _ _ (rest_kept_refl s)) as (m & Hm & P). by exists m.
    + intros c x _ Hc. lia.
    + done.
    + done.
    + done.
  - intros n s2 Hn (l2 & up2 & O). replace n with (Z.of_nat (Z.to_nat n)) in O by lia.
    destruct (others_step s s2 l l2 up2 (Z.to_nat n) O) as (s3 & l3 & up3 & E3 & O3); [lia|done|done|done|].
    exists s3. split; [done|]. exists l3, up3. by replace (n + 1) with (Z.of_nat (Z.to_nat n) + 1) by lia.
  - exists s', l', up. by rewrite Z.add_0_l in H.
Qed.
End processors.
