(* ===== verification/Main.v ===== *)
(** * main of main.c: from the first instruction of the kernel to the first process

    [main] calls the initialisations in the order of main.c, up to the first turn of
    the scheduler.  Its definition is over any layer below the file system; the theorem is
    about the one of the kernel, the log on the buffer cache, with [binit] of Bio.v.
    Parameters are the memory of the machine ([ram]), the tables of the BIOS
    and the state of the devices at power-on ([powered]).

    [main_correct]: on such a machine [main] gets to the first process; the page tables,
    the stacks and the free list have all pages of the memory, each once;
    every processor runs; the console is in the device switch; and the interrupt
    lines are those of the drivers. *)

From S2P Require Import Prelude Params Strings Phys Sleeplock BlockDev Bio Tx Log LogStack Spinlock Fs FsFile Dir Kalloc Vm VmSpace VmKernel VmUser File Proc ProcFork UserInit Printf Syscall Exec Sysfile Trapc Seg Mp Ide Console Apic Start.

(** ** main *)

Definition x_set_lapic (b : bool) (s : chips) : chips :=
  mkchips (x_ioapic s) (x_ioreg s) (x_ioregs s) b (x_regs s) (x_busy s) (x_aps s) (x_cmos s) (x_time s) (x_ports s) (x_mem s) (x_msgs s).

(** The two ranges that [main] frees. *)
Definition LOWEND : Z := P2V (4 * 1024 * 1024).
Definition HIGHEND : Z := P2V PHYSTOP.

Section main.
Context {T : Type} `{!TxOps T}.
Context (delay slow idefuel fuel cpu_id : nat) (boot_id la_ver com1 imcr mpenter_addr entrypgdir_addr idt_addr : Z) (gdt_addr : nat → Z).
Context (entryother initcode : list Z) (vectors : Z → Z) (binit : Prelude.M T unit).
Context (me : Z) (devsw : Z → option (device (T := T))) (kend vdata forkret_addr trapret_addr : Z).
Notation M := (Prelude.M (board T)).

Definition main_memory : M unit :=
  on_ps (on_kmem (kinit1 kend kend LOWEND));;
  on_ps (kvmalloc kend vdata).

(** The global [lapic] is the address that [mpinit] found. *)
Definition main_controllers : M unit :=
  s ← get;
  on_mp (mpinit (x_mem (b_x s)) imcr fuel);;
  modify (λ s, b_set_x (x_set_lapic (negb (mp_lapic (b_mp s) =? 0)) (b_x s)) s);;
  on_x (lapicinit delay la_ver fuel);;
  seginit_cpu gdt_addr boot_id;;
  on_x picinit;;
  s ← get;
  on_x (ioapicinit (mp_ioapicid (b_mp s))).

Definition main_devices : M unit :=
  consoleinit_irq;;
  uartinit com1;;
  on_ps pinit;;
  modify (b_set_idt (tvinit vectors));;
  on_ps (modify (set_tlock false));;
  on_ps (on_inodes (on_tx binit));;
  on_ps (on_fd fileinit);;
  ideinit_irq idefuel.

Definition main_processes : M (option nat) :=
  startothers delay slow fuel boot_id la_ver mpenter_addr entrypgdir_addr idt_addr gdt_addr entryother;;
  on_ps (on_kmem (kinit2 kend LOWEND HIGHEND));;
  on_ps (userinit cpu_id me devsw kend vdata forkret_addr trapret_addr initcode);;
  mpmain idt_addr boot_id;;
  on_ps (scheduler cpu_id).

Definition main : M (option nat) :=
  main_memory;;
  main_controllers;;
  main_devices;;
  main_processes.
End main.

(** ** The memory *)

Section memory.
Context (kend vdata : Z).
Implicit Types (m : kstate).
Hypothesis Hkend : KERNBASE < kend ≤ KERNBASE + 4194304 - 80 * 4096.

Definition low_pages : list Z := range_pages (PGROUNDUP kend) (Z.to_nat ((LOWEND - PGROUNDUP kend) / PGSIZE)).
Definition high_pages : list Z := range_pages (PGROUNDUP LOWEND) (Z.to_nat ((HIGHEND - PGROUNDUP LOWEND) / PGSIZE)).

(** The memory before anything is free. *)
Record ram m : Prop := {
  ra_none : km_freelist m = 0;
  ra_zero : 0 ∉ dom (pages m);
  ra_pages : ∀ q, q ∈ high_pages ++ low_pages → is_Some (pages m !! q) }.

Lemma length_range p n : length (range_pages p n) = n.
Proof. induction n as [|n IH]; simpl; [done|by rewrite IH]. Qed.

Lemma kend_up : PGROUNDUP kend mod 4096 = 0 ∧ kend ≤ PGROUNDUP kend ≤ KERNBASE + 4194304 - 80 * 4096.
Proof. unfold KERNBASE in *. rewrite PGROUNDUP_spec by lia. lia. Qed.

Lemma low_page q : q ∈ low_pages → page_ok kend q ∧ q < KERNBASE + 4194304.
Proof.
  pose proof kend_up as [Hm Hk]. change LOWEND with (KERNBASE + 4194304). intros H. apply elem_of_range_pages in H as (i & Hi & ->). unfold LOWEND, PGSIZE in *.
  change (P2V (4 * 1024 * 1024)) with (KERNBASE + 4194304) in *. unfold page_ok, V2P, u32, PHYSTOP, PGSIZE, KERNBASE in *. lia.
Qed.

Lemma high_page q : q ∈ high_pages → page_ok kend q ∧ KERNBASE + 4194304 ≤ q.
Proof.
  intros H. apply elem_of_range_pages in H as (i & Hi & ->).
  change (PGROUNDUP LOWEND) with (KERNBASE + 4194304) in *. change HIGHEND with (KERNBASE + PHYSTOP) in *.
  unfold page_ok, V2P, u32, PHYSTOP, PGSIZE, KERNBASE in *. lia.
Qed.

Lemma low_enough : (80 ≤ length low_pages)%nat.
Proof.
  unfold low_pages. rewrite length_range. pose proof kend_up as [Hm Hk]. change LOWEND with (KERNBASE + 4194304). unfold PGSIZE, KERNBASE in *. lia.
Qed.

Lemma kinit1_heap m : ram m → ∃ m', kinit1 kend kend LOWEND m = Ok tt m' ∧ heap kend m' low_pages ∧ dom (pages m') = dom (pages m).
Proof.
  intros [R1 R2 R3]. unfold kinit1. rewrite !bind_modify.
  destruct (freerange_ok kend (set_use_lock 0 (set_km_lock false m)) [] kend LOWEND) as (m' & E & I & D & O).
  - split; [done|done|apply NoDup_nil_2].
  - apply kend_up.
  - intros q Hq. split_and!; [by apply low_page|apply not_elem_of_nil|apply R3, elem_of_app; by right].
  - exists m'. split; [done|]. rewrite app_nil_r in I. split; [|done]. split; [done| |by rewrite D].
    apply Forall_forall. intros q Hq. by apply low_page.
Qed.

Lemma kinit2_heap m l : heap kend m l → (∀ q, q ∈ high_pages → q ∉ l ∧ is_Some (pages m !! q)) →
  ∃ m', kinit2 kend LOWEND HIGHEND m = Ok tt m' ∧ heap kend m' (high_pages ++ l) ∧ dom (pages m') = dom (pages m) ∧
    ∀ q, q ∉ high_pages → pages m' !! q = pages m !! q.
Proof.
  intros [I Hok Hz] Hh. unfold kinit2.
  destruct (freerange_ok kend m l LOWEND HIGHEND) as (m' & E & I' & D & O); [done|by vm_compute| |].
  { intros q Hq. split; [by apply high_page|]. by apply Hh. }
  mstep E. eexists. split; [reflexivity|]. split; [|done]. split; [by destruct I'| |cbn; by rewrite D].
  apply Forall_app. split; [|done]. apply Forall_forall. intros q Hq. by apply high_page.
Qed.
End memory.

(** ** The parts of main *)

Section parts.
Context {T : Type} `{!TxOps T}.
Context (delay slow idefuel fuel cpu_id : nat) (boot_id la_ver com1 imcr mpenter_addr entrypgdir_addr idt_addr : Z) (gdt_addr : nat → Z).
Context (entryother initcode : list Z) (vectors : Z → Z) (binit : Prelude.M T unit).
Context (me : Z) (devsw : Z → option (device (T := T))) (kend vdata forkret_addr trapret_addr : Z).
Implicit Types (s : board T) (ps : pstate (T := T)).

(** The table of the kernel [kp] is in place, over the free pages [l]. *)
Record kernel_table (m : kstate) (l : list Z) (kp : Z) : Prop := {
  kt_space : uspace kend m l kp [];
  kt_map : ∀ v, 0 ≤ v < 4294967296 → pte (pages m) kp v = kpte vdata v }.

Lemma main_memory_ok s : KERNBASE < kend ≤ KERNBASE + 4194304 - 80 * 4096 → vdata_ok vdata → ram kend (fd_mem (ps_fd (b_ps s))) →
  ∃ kp m l, main_memory kend vdata s =
      Ok tt (b_set_ps (set_cr3 (V2P kp) (set_kpgdir kp (set_fd (set_fd_mem m (ps_fd (b_ps s))) (b_ps s)))) s) ∧
    kernel_table m l kp ∧ own (pages m) kp [] ++ l ≡ₚ low_pages kend ∧ (15 ≤ length l)%nat ∧ dom (pages m) = dom (pages (fd_mem (ps_fd (b_ps s)))).
Proof.
  intros Hk Hvd R. destruct (kinit1_heap kend Hk _ R) as (m1 & E1 & H1 & D1). pose proof (low_enough kend Hk) as Hlow.
  destruct (setupkvm_ok kend vdata m1 (low_pages kend) (proj1 Hk) Hvd H1) as [(kp & m & l & E & Hkp & U & A & D & O & Hfew & P)|(m & _ & [_ _ _ Hf])];
    [|unfold NKTAB in Hf; lia].
  exists kp, m, l. split_and!; [|by split|done| |by rewrite D].
  - unfold main_memory. rewrite (bind_ok _ _ _ _ _ (on_ps_ok _ s tt _ (on_kmem_ok _ (b_ps s) tt m1 E1))). set (s1 := b_set_ps _ s).
    assert (Ek : kvmalloc kend vdata (b_ps s1) = Ok tt (set_cr3 (V2P kp) (set_kpgdir kp (set_fd (set_fd_mem m (ps_fd (b_ps s))) (b_ps s))))).
    { unfold kvmalloc. by mstep (on_kmem_ok (setupkvm kend vdata) (b_ps s1) kp m E). }
    by rewrite (on_ps_ok _ s1 tt _ Ek).
  - pose proof (Permutation_length A) as HA. rewrite length_app in HA. unfold NKTAB in Hfew. lia.
Qed.

(** What the BIOS has left: the table of the processors and of the controllers. *)
Record bios (m : mem) (mp conf : Z) (l : list mpentry) (ids : list Z) : Prop := {
  bi_search : floating m mp;
  bi_conf : load32 (mp + 4) m = conf;
  bi_nonzero : conf ≠ 0;
  bi_table : table m conf l;
  bi_fuel : (length l < fuel)%nat;
  bi_ids : ids = take (Z.to_nat NCPU) (procs l);
  bi_nodup : NoDup ids;
  bi_range : Forall (λ id, 0 ≤ id < 256) ids;
  bi_boot : ids !! cpu_id = Some boot_id;
  bi_lapic : load32 (conf + 36) m ≠ 0 }.

Definition maxintr (x : chips) : Z := Z.land (Z.shiftr (x_ioregs x REG_VER) 16) 0xff.

Lemma main_controllers_ok s mp conf l ids x : bios (x_mem (b_x s)) mp conf l ids → mp_ncpu (b_mp s) = 0 → length (mp_apicids (b_mp s)) = Z.to_nat NCPU →
  (delay < fuel)%nat → maxintr (b_x s) < 224 → b_cpus s !! cpu_id = Some x →
  ∃ mp' x', main_controllers delay fuel boot_id la_ver imcr gdt_addr s =
      Ok tt (b_set_x x' (b_set_cpus (<[cpu_id := cb_seg (seginit (cb_gdt x)) (lgdt (gdt_addr cpu_id) GDTSZ) x]> (b_cpus s)) (b_set_mp mp' s))) ∧
    take (Z.to_nat (mp_ncpu mp')) (mp_apicids mp') = ids ∧ mp_ncpu mp' = Z.of_nat (length ids) ∧
    x_ioapic x' = true ∧ x_lapic x' = true ∧ lapic_on (x_regs x') ∧ x_mem x' = x_mem (b_x s) ∧ routed (x_ioregs x') (maxintr (b_x s)) (λ _, None).
Proof.
  intros [B1 B2 B3 B4 B5 B6 B7 B8 B9 B10] Hn Hl Hd Hv Hx. unfold main_controllers. rewrite (bind_ok _ _ _ _ _ (eq_refl : get s = Ok s s)).
  destruct (mpinit_ok (x_mem (b_x s)) imcr fuel (b_mp s) mp conf l B1 B2 B3 B4 B5 Hn Hl) as (mp' & E & N1 & N2 & N3 & N4 & N5 & _).
  rewrite (bind_ok _ _ _ _ _ (on_mp_ok _ s tt mp' E)). set (s1 := b_set_mp mp' s). rewrite bind_modify. change (b_mp s1) with mp'. rewrite N5.
  rewrite (proj2 (Z.eqb_neq _ _) B10). cbn [negb]. set (s2 := b_set_x _ s1). rewrite <- B6 in N3.
  destruct (lapicinit_ok delay la_ver fuel (b_x s2) eq_refl Hd) as (f & E2 & Hon & _). rewrite (bind_ok _ _ _ _ _ (on_x_ok _ s2 tt _ E2)). set (s3 := b_set_x _ s2).
  rewrite (bind_ok _ _ _ _ _ (seginit_cpu_ok gdt_addr ids B7 s3 cpu_id boot_id x N3 B9 Hx)). set (s4 := b_set_cpus _ s3).
  assert (Ep : picinit (b_x s4) = Ok tt (x_port (IO_PIC2 + 1) 0xff (x_port (IO_PIC1 + 1) 0xff (b_x s4)))) by done.
  rewrite (bind_ok _ _ _ _ _ (on_x_ok _ s4 tt _ Ep)). set (s5 := b_set_x _ s4). rewrite (bind_ok _ _ _ _ _ (eq_refl : get s5 = Ok s5 s5)).
  destruct (ioapicinit_masks (mp_ioapicid (b_mp s5)) (b_x s5) Hv) as (x' & E6 & Hio & (O1 & O2 & _ & _ & O5 & _) & Hm).
  exists mp', x'. split; [by rewrite (on_x_ok _ s5 tt x' E6)|]. split_and!; try done.
  - rewrite N1, B6, length_take. unfold NCPU. lia.
  - by rewrite O1.
Qed.

(** The kernel's state after [pinit], [tvinit], [binit] and [fileinit]. *)
Definition ps_inited (t : T) ps : pstate :=
  let fd := ps_fd ps in
  set_fd (set_ft_lock false (set_fd_fs (set_tx t (fd_fs fd)) fd)) (set_tlock false (set_sl (set_lk initlock (ps_sl ps)) ps)).

(** The lines that the drivers open, on a machine with [n] processors. *)
Definition lines_open (n : Z) : Z → option Z := opened IRQ_IDE (n - 1) (uart_open com1 (opened IRQ_KBD 0 (λ _, None))).

Lemma io_kept_trans x1 x2 x3 : io_kept x1 x2 → io_kept x2 x3 → io_kept x1 x3.
Proof. intros [] []. split; congruence. Qed.

Lemma main_devices_ok s n t : x_ioapic (b_x s) = true → routed (x_ioregs (b_x s)) n (λ _, None) → 14 ≤ n < 224 → screen_ok (b_con s) → length (c_devsw (b_con s)) = Z.to_nat NDEV →
  1 ≤ mp_ncpu (b_mp s) ≤ NCPU → (h_busy (id_hw (b_ide s)) < idefuel)%nat → binit (fs_tx (fd_fs (ps_fd (b_ps s)))) = Ok tt t →
  ∃ x c i, main_devices idefuel com1 vectors binit s = Ok tt (mkboard (ps_inited t (b_ps s)) (b_mp s) x c i (tvinit vectors) (b_cpus s)) ∧
    io_kept (b_x s) x ∧ routed (x_ioregs x) n (lines_open (mp_ncpu (b_mp s))) ∧ screen_ok c ∧ c_lock c = false ∧ c_locking c = 1 ∧
    c_devsw c = <[Z.to_nat CONSOLE := console_dev]> (c_devsw (b_con s)).
Proof.
  intros Hio Hr Hn Hs Hdv Hcpu Hb Et. unfold main_devices.
  destruct (consoleinit_irq_ok s n _ Hio Hr Hn Hdv) as (x1 & E1 & K1 & R1). rewrite (bind_ok _ _ _ _ _ E1). set (s1 := b_set_x x1 _).
  assert (Hio1 : x_ioapic (b_x s1) = true) by (change (b_x s1) with x1; by rewrite (ik_ioapic _ _ K1)).
  assert (Hs1 : screen_ok (b_con s1)) by (by destruct Hs).
  destruct (uartinit_ok com1 s1 n _ Hio1 R1 Hn Hs1) as (x2 & c & E2 & K2 & R2 & Hc & Hl & Hlk & _ & Hd). rewrite (bind_ok _ _ _ _ _ E2). set (s2 := b_set_x x2 _).
  rewrite (bind_ok _ _ _ _ _ (on_ps_ok pinit s2 tt _ eq_refl)), bind_modify. set (s3 := b_set_idt _ _).
  rewrite (bind_ok _ _ _ _ _ (on_ps_ok (modify _) s3 tt _ eq_refl)). set (s4 := b_set_ps _ s3).
  assert (Ei : on_inodes (on_tx binit) (b_ps s4) = Ok tt (set_fd (set_fd_fs (set_tx t (fd_fs (ps_fd (b_ps s4)))) (ps_fd (b_ps s4))) (b_ps s4))).
  { unfold on_inodes, on_fd. apply (zoom_ok _ _ _ (b_ps s4) (ps_fd (b_ps s4))); [done|].
    apply (zoom_ok _ _ _ (ps_fd (b_ps s4)) (fd_fs (ps_fd (b_ps s4)))); [done|]. by apply on_tx_ok. }
  rewrite (bind_ok _ _ _ _ _ (on_ps_ok _ s4 tt _ Ei)). set (s5 := b_set_ps _ s4).
  rewrite (bind_ok _ _ _ _ _ (on_ps_ok (on_fd fileinit) s5 tt _ eq_refl)). set (s6 := b_set_ps _ s5).
  assert (Hio2 : x_ioapic (b_x s6) = true) by (change (b_x s6) with x2; by rewrite (ik_ioapic _ _ K2)).
  destruct (ideinit_irq_ok idefuel s6 n _ Hio2 R2 Hn Hcpu Hb) as (x3 & i & E3 & K3 & R3 & _). exists x3, c, i.
  split; [exact E3|]. split; [|done]. eapply io_kept_trans; [exact K1|]. by eapply io_kept_trans.
Qed.

(** What is there when [main] has got to the first process: [up] has the page of the
    stack of every other processor; [r] is the stack of the process, [d] its
    page directory, [kp] that of the kernel; [l] is free. *)
Record booted (s : board T) (ids : list Z) (up : list (nat * Z)) (r d kp : Z) (w : nat) (l used : list Z) : Prop := {
  bt_procs : ∃ nm, safestrcpy INITNAME 16 = Some nm ∧
    ps_proc (b_ps s) = <[0%nat := set_state RUNNING (first_proc forkret_addr 1 r d w nm proc0)]> (replicate (Z.to_nat NPROC) proc0);
  bt_runs : ps_cur (b_ps s) = Some 0%nat ∧ ps_cr3 (b_ps s) = V2P d ∧ ps_initproc (b_ps s) = Some 0%nat;
  bt_space : uspace kend (fd_mem (ps_fd (b_ps s))) l d [0];
  bt_code : holds (pages (fd_mem (ps_fd (b_ps s)))) d 0 UW (splice 0 initcode zeros);
  bt_map : ∀ v, KERNBASE ≤ v < 4294967296 → pte (pages (fd_mem (ps_fd (b_ps s)))) d v = kpte vdata v;
  bt_kernel : kernel_table (fd_mem (ps_fd (b_ps s))) l kp ∧ ps_kpgdir (b_ps s) = kp;
  bt_pages : own (pages (fd_mem (ps_fd (b_ps s)))) kp [] ++ up.*2 ++ r :: own (pages (fd_mem (ps_fd (b_ps s)))) d [0] ++ l ≡ₚ used;
  bt_others : ∀ c id, ids !! c = Some id → c ≠ cpu_id → ∃ p x, (c, p) ∈ up ∧ b_cpus s !! c = Some x ∧ cb_started x = 1 ∧
    cb_esp x = p + KSTACKSIZE ∧ cb_entry x = V2P entrypgdir_addr ∧ cb_cr3 x = V2P kp ∧ cb_idtr x = lgdt idt_addr IDTSZ ∧ lapic_on (cb_lapic x);
  bt_mapped : ∀ c p a, (c, p) ∈ up → p ≤ a < p + KSTACKSIZE → translate4m entrypgdir a = Some (V2P a);
  bt_me : ∃ x, b_cpus s !! cpu_id = Some x ∧ cb_started x = 1 ∧ cb_idtr x = lgdt idt_addr IDTSZ }.

(** A stack in the first 4 megabytes is mapped by the table of the start. *)
Lemma stack_mapped p a : KERNBASE < kend ≤ KERNBASE + 4194304 - 80 * 4096 → p ∈ low_pages kend → p ≤ a < p + KSTACKSIZE →
  translate4m entrypgdir a = Some (V2P a).
Proof.
  intros Hk Hp Ha. destruct (low_page kend Hk p Hp) as [(Hm & Hge & _) Hlt]. unfold PGSIZE, KERNBASE, KSTACKSIZE in *.
  rewrite entrypgdir_maps by lia. unfold KERNBASE. rewrite (proj2 (Z.ltb_ge a 4194304)), (proj2 (Z.leb_le _ a)), (proj2 (Z.ltb_lt a _)) by lia. done.
Qed.

Lemma high_many : (68 ≤ length high_pages)%nat.
Proof.
  unfold high_pages. rewrite length_range. change (PGROUNDUP LOWEND) with (KERNBASE + 4194304). change HIGHEND with (KERNBASE + PHYSTOP).
  unfold PGSIZE, PHYSTOP. lia.
Qed.

Lemma kernel_table_keep m m' l l' kp : kernel_table m l kp → heap kend m' l' →
  (∀ q, q ∈ own (pages m) kp [] → pages m' !! q = pages m !! q) → (∀ q, q ∈ own (pages m) kp [] → q ∉ l') →
  kernel_table m' l' kp ∧ own (pages m') kp [] = own (pages m) kp [].
Proof.
  intros [U P] [I Hok Hz] Hs Hl. split; [|by apply own_keep]. split; [by apply (uspace_keep kend m l)|]. intros v Hv. rewrite <- P by done. by apply (pte_keep _ _ _ []).
Qed.

(** The kernel's state before [startothers]. *)
Record ps_ready ps (l : list Z) (kp : Z) (w : nat) fs : Prop := {
  pr_cpu : ∃ k, cpus (ps_sl ps) !! cpu_id = Some k ∧ c_ncli k = 0;
  pr_lock : lk (ps_sl ps) = initlock;
  pr_procs : ps_proc ps = replicate (Z.to_nat NPROC) proc0;
  pr_pid : ps_nextpid ps = 1;
  pr_table : kernel_table (fd_mem (ps_fd ps)) l kp;
  pr_kpgdir : ps_kpgdir ps = kp;
  pr_low : ∀ q, q ∈ l → q ∈ low_pages kend;
  pr_high : ∀ q, q ∈ high_pages → q ∉ own (pages (fd_mem (ps_fd ps))) kp [] ++ l ∧ is_Some (pages (fd_mem (ps_fd ps)) !! q);
  pr_root : iget ROOTDEV ROOTINO (fd_fs (ps_fd ps)) = Ok w fs }.

(** [kinit2] and [userinit], once the pages [up] are the stacks of the other processors. *)
Lemma first_made ps m1 l l1 (up : list Z) kp w fs : KERNBASE < kend ≤ KERNBASE + 4194304 - 80 * 4096 → vdata_ok vdata → Z.of_nat (length initcode) < PGSIZE → ps_ready ps l kp w fs →
  pages m1 = pages (fd_mem (ps_fd ps)) → heap kend m1 l1 → up ++ l1 ≡ₚ l →
  ∃ m2 ps3 nm r d m3 l3, on_kmem (kinit2 kend LOWEND HIGHEND) (set_fd (set_fd_mem m1 (ps_fd ps)) ps) = Ok tt (set_fd (set_fd_mem m2 (ps_fd ps)) ps) ∧
    userinit cpu_id me devsw kend vdata forkret_addr trapret_addr initcode (set_fd (set_fd_mem m2 (ps_fd ps)) ps) = Ok tt ps3 ∧
    safestrcpy INITNAME 16 = Some nm ∧ ps_proc ps3 = <[0%nat := first_proc forkret_addr 1 r d w nm proc0]> (replicate (Z.to_nat NPROC) proc0) ∧
    (∃ k, cpus (ps_sl ps3) !! cpu_id = Some k ∧ c_ncli k = 0) ∧ lk (ps_sl ps3) = initlock ∧ ps_initproc ps3 = Some 0%nat ∧ ps_kpgdir ps3 = kp ∧
    fd_mem (ps_fd ps3) = m3 ∧ first_mem kend vdata m2 m3 initcode r d (high_pages ++ l1) l3 ∧ r ≠ 0 ∧ d ≠ 0 ∧
    kernel_table m3 l3 kp ∧ own (pages m3) kp [] = own (pages (fd_mem (ps_fd ps))) kp [] ∧ fd_fs (ps_fd ps3) = fs.
Proof.
  intros Hk Hvd Hi [(k & Hcpu & Hn) Hlk Hpr Hpid Hkt Hkp _ Hh Hroot] Hm1 H1 A1.
  assert (Hsub : ∀ q, q ∈ l1 → q ∈ l) by (intros q Hq; rewrite <- A1; apply elem_of_app; by right).
  destruct (kinit2_heap kend Hk m1 l1 H1) as (m2 & E2 & H2 & D2 & O2).
  { intros q Hq. destruct (Hh q Hq) as [Hn1 Hs]. rewrite Hm1. split; [|done]. intros Hl. apply Hn1, elem_of_app. right. by apply Hsub. }
  set (ps2 := set_fd (set_fd_mem m2 (ps_fd ps)) ps). assert (R : ready cpu_id ps2 k) by (split; [done|lia|lia|done]).
  assert (Hfree : find_unused (ps_proc ps2) 0 = Some 0%nat) by (change (ps_proc ps2) with (ps_proc ps); by rewrite Hpr).
  assert (Hz : ps_proc ps2 !! 0%nat = Some proc0) by (change (ps_proc ps2) with (ps_proc ps); by rewrite Hpr).
  destruct (userinit_ok cpu_id me devsw kend vdata forkret_addr trapret_addr ps2 k 0 proc0 (high_pages ++ l1) initcode w fs (proj1 Hk) Hvd R)
    as (nm & r & d & m3 & l3 & Hnm & E3 & F & Hr & Hd); [change (ps_proc ps2) with (ps_proc ps); by rewrite Hpr, length_replicate|done|done|done| |done|done|].
  { rewrite length_app. pose proof high_many. lia. }
  eexists m2, _, nm, r, d, m3, l3. split; [exact (on_kmem_ok _ (set_fd (set_fd_mem m1 (ps_fd ps)) ps) tt m2 E2)|]. split; [exact E3|].
  split; [done|]. split; [by rewrite <- Hpid; cbn; rewrite Hpr|]. split.
  { exists (popped (pushed (popped (pushed k)))). split; [apply list_lookup_insert_eq; cbn; rewrite length_insert; by eapply lookup_lt_Some|]. simpl. lia. }
  do 7 (split; [done|]). 
  cut (kernel_table m3 l3 kp ∧ own (pages m3) kp [] = own (pages (fd_mem (ps_fd ps))) kp []); [intros [? ?]; by split_and!|].
  destruct F as [U3 A3 D3 O3 _ _]. apply (kernel_table_keep (fd_mem (ps_fd ps)) m3 l); [done|by eapply uspace_heap| |].
  - intros q Hq. assert (Hq1 : q ∉ high_pages) by (intros Hx; destruct (Hh q Hx) as [H _]; apply H, elem_of_app; by left).
    assert (Hq2 : q ∉ l1). { intros Hx. pose proof (us_nodup _ _ _ _ _ (kt_space _ _ _ Hkt)) as Hnd. apply NoDup_app in Hnd as (_ & Hnd & _). by apply (Hnd q Hq), Hsub. }
    rewrite O3, O2, Hm1; [done|done|]. rewrite elem_of_app. tauto.
  - intros q Hq Hl3. assert (Hx : q ∈ high_pages ++ l1). { rewrite <- A3. right. apply elem_of_app. by right. }
    apply elem_of_app in Hx as [Hx|Hx]; [destruct (Hh q Hx) as [H _]; apply H, elem_of_app; by left|].
    pose proof (us_nodup _ _ _ _ _ (kt_space _ _ _ Hkt)) as Hnd. apply NoDup_app in Hnd as (_ & Hnd & _). by apply (Hnd q Hq), Hsub.
Qed.

(** The processors and the console before [startothers]. *)
Record board_ready s (ids : list Z) : Prop := {
  br_ids : apicids s = ids;
  br_ncpu : mp_ncpu (b_mp s) = Z.of_nat (length ids);
  br_max : (length ids ≤ 8)%nat;
  br_nodup : NoDup ids;
  br_range : Forall (λ id, 0 ≤ id < 256) ids;
  br_boot : ids !! cpu_id = Some boot_id;
  br_screen : screen_ok (b_con s);
  br_lock : c_lock (b_con s) = false;
  br_lapic : x_lapic (b_x s) = true;
  br_cpus : length (b_cpus s) = Z.to_nat NCPU;
  br_started : ∀ j x, b_cpus s !! j = Some x → j ≠ cpu_id → cb_started x = 0 }.

Context (Hkend : KERNBASE < kend ≤ KERNBASE + 4194304 - 80 * 4096) (Hvd : vdata_ok vdata) (Hcode : Z.of_nat (length initcode) < PGSIZE).
Context (Hdelay : (delay < fuel)%nat) (Hslow : (slow < fuel)%nat) (Hmp : 0 ≤ mpenter_addr < 4294967296).

Lemma main_processes_ok s ids l kp w fs : board_ready s ids → ps_ready (b_ps s) l kp w fs → (15 ≤ length l)%nat →
  ∃ s' up r d l', main_processes delay slow fuel cpu_id boot_id la_ver mpenter_addr entrypgdir_addr idt_addr gdt_addr entryother initcode me devsw kend vdata
      forkret_addr trapret_addr s = Ok (Some 0%nat) s' ∧
    booted s' ids up r d kp w l' (own (pages (fd_mem (ps_fd (b_ps s)))) kp [] ++ high_pages ++ l) ∧ b_idt s' = b_idt s ∧ x_ioregs (b_x s') = x_ioregs (b_x s) ∧ c_devsw (b_con s') = c_devsw (b_con s) ∧ fd_fs (ps_fd (b_ps s')) = fs.
Proof.
  intros [P1 P2 Pm P3 P4 P5 P6 P7 P8 P9 P10] R Hl. pose proof (kt_space _ _ _ (pr_table _ _ _ _ _ R)) as U.
  destruct (startothers_ok delay slow fuel cpu_id boot_id la_ver mpenter_addr entrypgdir_addr idt_addr gdt_addr entryother ids P3 kend (proj1 Hkend) P5 P4
    Hdelay Hslow Hmp s l P1 P2 P6 P7 P8) as (s1 & l1 & up & E1 & [S1 [(m1 & Eps & Pg1) K2 K3 K4 K5 [K6 K7]] U1 R1 A1 F1]);
    [by eapply uspace_heap|lia|rewrite P9; change (Z.to_nat NCPU) with 8%nat; lia|done|].
  unfold main_processes. rewrite (bind_ok _ _ _ _ _ E1).
  pose proof (sp_heap _ _ _ _ _ S1) as H1. rewrite Eps in H1.
  destruct (first_made (b_ps s) m1 l l1 up.*2 kp w fs Hkend Hvd Hcode R Pg1 H1 A1)
    as (m2 & ps3 & nm & r & d & m3 & l3 & E2 & E3 & Hnm & Hpr & (k & Hk & Hk0) & Hlk & Hini & Hkp & Hm3 & [F3 A3 D3 O3 C3 M3] & Hr & Hd & Kt & Ko & Hfs).
  rewrite <- Eps in E2. rewrite (bind_ok _ _ _ _ _ (on_ps_ok _ s1 tt _ E2)). set (s2 := b_set_ps _ s1).
  rewrite (bind_ok _ _ _ _ _ (on_ps_ok _ s2 tt ps3 E3)). set (s3 := b_set_ps ps3 s2).
  destruct (lookup_lt_is_Some_2 (b_cpus s) cpu_id) as [x Hx].
  { rewrite P9. change (Z.to_nat NCPU) with 8%nat. pose proof (lookup_lt_Some _ _ _ P5). lia. }
  assert (Hx3 : b_cpus s3 !! cpu_id = Some x) by (change (b_cpus s3) with (b_cpus s1); rewrite R1; [done|by right]).
  destruct (mpmain_ok idt_addr ids P3 s3 cpu_id boot_id x (sp_ids _ _ _ _ _ S1) P5 Hx3 (sp_screen _ _ _ _ _ S1) (sp_lock _ _ _ _ _ S1)) as (c & E4 & _ & Ic).
  rewrite (bind_ok _ _ _ _ _ E4). set (s4 := b_set_cpus _ (b_set_con c s3)).
  destruct (scheduler_finds cpu_id (set_cur None ps3) k 0 (first_proc forkret_addr 1 r d w nm proc0) Hk Hk0 Hlk) as (ps4 & E5 & [W1 W2 W3 W4 W5 W6 (W7 & W8 & W9 & W10 & W11)]);
    [cbn [ps_proc set_cur]; by rewrite Hpr, length_insert, length_replicate|cbn [ps_proc set_cur]; by rewrite Hpr|done|done|lia|].
  cbn [ps_proc set_cur ps_fd ps_initproc ps_nextpid ps_kpgdir ps_first] in W1, W7, W8, W10.
  eexists (b_set_ps ps4 s4), up, r, d, l3. split; [by rewrite (on_ps_ok (scheduler cpu_id) s4 (Some 0%nat) ps4 E5)|].
  assert (Kd : c_devsw (b_con s1) = c_devsw (b_con s)) by apply K5. destruct Ic as (_ & _ & _ & _ & _ & _ & _ & _ & Ic).
  split; [|split_and!; [done|done|exact (eq_trans Ic Kd)|exact (eq_trans (f_equal fd_fs W7) Hfs)]].
  split; cbn [b_ps b_set_ps b_cpus s4 b_set_cpus b_set_con]; rewrite ?W7, ?Hm3; try done.
  - exists nm. split; [exact Hnm|]. rewrite W1, Hpr, list_insert_insert_eq. reflexivity.
  - split_and!; [exact W2|exact W3|rewrite W8; exact Hini].
  - split; [exact Kt|rewrite W10; exact Hkp].
  - rewrite Ko, A3, <- A1. apply Permutation_app_head. rewrite !app_assoc. apply Permutation_app_tail, Permutation_app_comm.
  - intros j id Hj Hne. destruct (lookup_lt_is_Some_2 (b_cpus s) j) as [y Hy].
    { rewrite P9. change (Z.to_nat NCPU) with 8%nat. pose proof (lookup_lt_Some _ _ _ Hj). lia. }
    destruct (U1 j y Hy) as (p & f & Hp & Hon & Hj1); [pose proof (lookup_lt_Some _ _ _ Hj); lia|done|].
    exists p, (cpu_up entrypgdir_addr idt_addr gdt_addr j (V2P (ps_kpgdir (b_ps s))) (p + KSTACKSIZE) f y).
    rewrite list_lookup_insert_ne by done. split_and!; try done. cbn. by rewrite (pr_kpgdir _ _ _ _ _ R).
  - intros j p a Hp Ha. apply (stack_mapped p); [done| |done]. apply (pr_low _ _ _ _ _ R). rewrite <- A1. apply elem_of_app. left.
    apply list_elem_of_fmap. by exists (j, p).
  - eexists. split; [apply list_lookup_insert_eq; by eapply lookup_lt_Some|done].
Qed.

(** The machine when the boot loader jumps to the kernel. *)
Record powered s (mp conf : Z) (tbl : list mpentry) (ids : list Z) : Prop := {
  po_ram : ram kend (fd_mem (ps_fd (b_ps s)));
  po_bios : bios (x_mem (b_x s)) mp conf tbl ids;
  po_mp : mp_ncpu (b_mp s) = 0 ∧ length (mp_apicids (b_mp s)) = Z.to_nat NCPU;
  po_intr : 14 ≤ maxintr (b_x s) < 224;
  po_screen : screen_ok (b_con s);
  po_devsw : c_devsw (b_con s) = replicate (Z.to_nat NDEV) nodev;
  po_disk : (h_busy (id_hw (b_ide s)) < idefuel)%nat;
  po_cpus : length (b_cpus s) = Z.to_nat NCPU ∧ Forall (λ x, cb_started x = 0) (b_cpus s);
  po_cpu : ∃ k, cpus (ps_sl (b_ps s)) !! cpu_id = Some k ∧ c_ncli k = 0;
  po_procs : ps_proc (b_ps s) = replicate (Z.to_nat NPROC) proc0 ∧ ps_nextpid (b_ps s) = 1;
  po_inodes : ic_lock (fd_fs (ps_fd (b_ps s))) = false ∧ ic_inode (fd_fs (ps_fd (b_ps s))) = replicate (Z.to_nat NINODE) inode0 }.

Lemma iget_first (fs : fsstate (T := T)) : ic_lock fs = false → ic_inode fs = replicate (Z.to_nat NINODE) inode0 → ∃ fs', iget ROOTDEV ROOTINO fs = Ok 0%nat fs' ∧ fs_tx fs' = fs_tx fs.
Proof. intros Hl Hi. destruct fs as [sb lk ino tx]. cbn in Hl, Hi. subst. eexists. split; reflexivity. Qed.

Lemma ps_inited_ready s kp m l mp conf tbl ids t : powered s mp conf tbl ids → kernel_table m l kp → own (pages m) kp [] ++ l ≡ₚ low_pages kend →
  dom (pages m) = dom (pages (fd_mem (ps_fd (b_ps s)))) →
  let ps := ps_inited t (set_cr3 (V2P kp) (set_kpgdir kp (set_fd (set_fd_mem m (ps_fd (b_ps s))) (b_ps s)))) in
  fd_mem (ps_fd ps) = m ∧ ∃ fs, ps_ready ps l kp 0 fs ∧ fs_tx fs = t.
Proof.
  intros [Q1 _ _ _ _ _ _ _ Q9 [Q10 Q11] [Q12 Q13]] Kt A D ps. split; [done|].
  destruct (iget_first (set_tx t (fd_fs (ps_fd (b_ps s)))) Q12 Q13) as (fs & Hfs & Htx). exists fs. split; [|exact Htx]. split; try done; [intros q Hq; rewrite <- A; apply elem_of_app; by right|]. intros q Hq. split.
  - change (fd_mem (ps_fd ps)) with m. rewrite A. intros Hl. apply (low_page kend Hkend) in Hl as [_ Hl]. apply (high_page kend Hkend) in Hq as [_ Hq]. lia.
  - change (fd_mem (ps_fd ps)) with m. apply elem_of_dom. rewrite D. apply elem_of_dom, Q1, elem_of_app. by left.
Qed.

Lemma main_ok s mp conf tbl ids t : powered s mp conf tbl ids → binit (fs_tx (fd_fs (ps_fd (b_ps s)))) = Ok tt t →
  ∃ s' up r d kp l, main delay slow idefuel fuel cpu_id boot_id la_ver com1 imcr mpenter_addr entrypgdir_addr idt_addr gdt_addr entryother initcode vectors binit
      me devsw kend vdata forkret_addr trapret_addr s = Ok (Some 0%nat) s' ∧
    booted s' ids up r d kp 0 l (high_pages ++ low_pages kend) ∧ b_idt s' = tvinit vectors ∧
    routed (x_ioregs (b_x s')) (maxintr (b_x s)) (lines_open (Z.of_nat (length ids))) ∧
    c_devsw (b_con s') = <[Z.to_nat CONSOLE := console_dev]> (replicate (Z.to_nat NDEV) nodev) ∧ fs_tx (fd_fs (ps_fd (b_ps s'))) = t.
Proof.
  intros Q Q8. pose proof Q as [Q1 Q2 [Q3 Q4] Q5 Q6 Qd Q7 [Q9 Q10] _ _ _]. unfold main.
  destruct (main_memory_ok s Hkend Hvd Q1) as (kp & m & l & E1 & Kt & A & Hl & D). rewrite (bind_ok _ _ _ _ _ E1).
  destruct (ps_inited_ready s kp m l mp conf tbl ids t Q Kt A D) as (Hm & fs & Hps & Htx).
  set (ps1 := set_cr3 _ _) in *. set (s1 := b_set_ps ps1 s).
  pose proof (lookup_lt_Some _ _ _ (bi_boot _ _ _ _ _ Q2)) as Hid. assert (H8 : (length ids ≤ 8)%nat).
  { rewrite (bi_ids _ _ _ _ _ Q2), length_take. change (Z.to_nat NCPU) with 8%nat. lia. }
  destruct (lookup_lt_is_Some_2 (b_cpus s) cpu_id) as [x0 Hx0]; [rewrite Q9; change (Z.to_nat NCPU) with 8%nat; lia|].
  destruct (main_controllers_ok s1 mp conf tbl ids x0 Q2 Q3 Q4 Hdelay (proj2 Q5) Hx0) as (mp' & x1 & E2 & N1 & N2 & I1 & I2 & _ & I4 & I5).
  rewrite (bind_ok _ _ _ _ _ E2). set (s2 := b_set_x x1 _).
  destruct (main_devices_ok s2 (maxintr (b_x s)) t) as (x2 & c & i & E3 & K3 & R3 & S3 & L3 & _ & V3);
    [exact I1|exact I5|exact Q5|exact Q6|change (b_con s2) with (b_con s); by rewrite Qd|change (b_mp s2) with mp'; rewrite N2; unfold NCPU; lia|exact Q7|exact Q8|].
  rewrite (bind_ok _ _ _ _ _ E3). change (b_mp s2) with mp' in R3 |- *. rewrite N2 in R3. change (b_ps s2) with ps1. set (s3 := mkboard _ _ _ _ _ _ _).
  destruct (main_processes_ok s3 ids l kp 0 fs) as (s' & up & r & d & l' & E4 & B & B1 & B2 & B3 & B4); [|exact Hps|exact Hl|].
  { split; [exact N1|exact N2|exact H8|apply Q2|apply Q2|apply Q2|exact S3|exact L3|change (x_lapic x2 = true); rewrite (ik_lapic _ _ K3); exact I2|cbn; by rewrite length_insert|].
    intros j x Hj Hne. cbn in Hj. rewrite list_lookup_insert_ne in Hj by done. exact (proj1 (Forall_lookup _ _) Q10 j x Hj). }
  exists s', up, r, d, kp, l'. split; [exact E4|].
  split; [|split; [exact B1|split; [rewrite B2; exact R3|split; [|by rewrite B4]]]].
  - destruct B as [T1 T2 T3 T4 T5 T6 T7 T8 T9 T10]. split; try assumption.
    change (fd_mem (ps_fd (b_ps s3))) with m in T7. rewrite T7, Permutation_app_swap_app, A. reflexivity.
  - rewrite B3. change (b_con s3) with c. rewrite V3. change (b_con s2) with (b_con s). by rewrite Qd.
Qed.
End parts.

(** ** The kernel with its buffer cache *)

(** C2: the start of the kernel, on the log and the buffer cache: on a machine as the
    boot loader leaves it, with the processors' table of the BIOS where the specification
    puts it, [main] runs all its initialisations and gets to the scheduler, which runs the
    first process: its memory is one page with initcode.S and the kernel's half, and it is
    in the root directory.  The kernel has its page table and the table of the trap
    vectors; the device switch has the functions of the console and no others; the lines
    of the keyboard, the serial port and the disk are open and no others; the buffer cache
    is empty and shows the disk; and every other processor runs on a stack of its own.
    The page tables, the stacks, the process and the free list together have every page
    of the memory exactly once. *)
Theorem main_correct delay slow idefuel fuel cpu_id boot_id la_ver com1 imcr mpenter_addr entrypgdir_addr idt_addr gdt_addr entryother initcode vectors
    me devsw kend vdata forkret_addr trapret_addr (s : board (lstate (D := bstate))) mp conf tbl ids img lg0 :
  KERNBASE < kend ≤ KERNBASE + 4194304 - 80 * 4096 → vdata_ok vdata → Z.of_nat (length initcode) < PGSIZE →
  (delay < fuel)%nat → (slow < fuel)%nat → 0 ≤ mpenter_addr < 4294967296 →
  powered idefuel fuel cpu_id boot_id kend s mp conf tbl ids →
  fs_tx (fd_fs (ps_fd (b_ps s))) = mkls lg0 (bstart img) [] → Forall (λ d, length d = Z.to_nat BSIZE) img →
  ∃ s' up r d kp l, @main _ (@log_ops bstate (bio_ops me)) delay slow idefuel fuel cpu_id boot_id la_ver com1 imcr mpenter_addr entrypgdir_addr idt_addr gdt_addr entryother initcode vectors (on_disk binit)
      me devsw kend vdata forkret_addr trapret_addr s = Ok (Some 0%nat) s' ∧
    booted cpu_id entrypgdir_addr idt_addr initcode kend vdata forkret_addr s' ids up r d kp 0 l (high_pages ++ low_pages kend) ∧ b_idt s' = tvinit vectors ∧
    routed (x_ioregs (b_x s')) (maxintr (b_x s)) (lines_open com1 (Z.of_nat (length ids))) ∧
    c_devsw (b_con s') = <[Z.to_nat CONSOLE := console_dev]> (replicate (Z.to_nat NDEV) nodev) ∧
    brep me (dk (fs_tx (fd_fs (ps_fd (b_ps s'))))) (mkv img img ∅ ∅ []).
Proof.
  intros Hk Hvd Hc Hd Hs Hm Q Et HF. destruct (binit_ok me img HF) as (b & Eb & Rb).
  destruct (@main_ok _ (@log_ops bstate (bio_ops me)) delay slow idefuel fuel cpu_id boot_id la_ver com1 imcr mpenter_addr entrypgdir_addr idt_addr gdt_addr entryother
    initcode vectors (on_disk Bio.binit) me devsw kend vdata forkret_addr trapret_addr Hk Hvd Hc Hd Hs Hm s mp conf tbl ids (mkls lg0 b []) Q)
    as (s' & up & r & d & kp & l & E & B & B1 & B2 & B3 & B4).
  { rewrite Et. exact (on_disk_ok Bio.binit (mkls lg0 (bstart img) []) tt b Eb). }
  exists s', up, r, d, kp, l. rewrite B4. split_and!; assumption.
Qed.

(** ** A machine with two processors *)

(** Memory with the pages [l]. *)
Definition ram_of (l : list Z) : gmap Z (list Z) := gset_to_gmap zeros (list_to_set l).
Definition ram0 : kstate := mkk false 0 0 (ram_of (high_pages ++ low_pages end0)).
Definition chips0 : chips := mkchips false 0 (upd REG_VER 0x170011 (λ _, 0)) false (λ _, 0) 0 (λ _, Halted) 0 0 [] MEM2 [].
Definition cpu_off : cpuboot := mkcb (replicate NSEGS (mkseg 0 0 0 0 0 0 0 0 0 0 0 0 0)) [] [] 0 0 0 0 (λ _, 0).
Definition ps_power : pstate (T := lstate (D := bstate)) :=
  mkps (mksls (replicate 8 (mkcpu false 0 false)) initlock) None (replicate (Z.to_nat NPROC) proc0) 1 None true 0 0 (mktss 0 0 0 0)
    (mkfd false [] ∅ [] ram0 (mkfs sb_none false (replicate (Z.to_nat NINODE) inode0) (mkls log0 (bstart [FsFile.zeros]) []))) 0 false.
Definition board2 : board (lstate (D := bstate)) :=
  mkboard ps_power (mkmps (replicate 8 0) 0 0 0 []) chips0 con0 ide0 [] (replicate 8 cpu_off).

Lemma end0_range : KERNBASE < end0 ≤ KERNBASE + 4194304 - 80 * 4096.
Proof. unfold end0, KERNBASE. lia. Qed.

Lemma ram_of_page l q : q ∈ l → is_Some (ram_of l !! q).
Proof. intros Hq. apply elem_of_dom. unfold ram_of. by rewrite dom_gset_to_gmap, elem_of_list_to_set. Qed.

Lemma ram_of_no l q : q ∉ l → q ∉ dom (ram_of l).
Proof. intros Hq. unfold ram_of. by rewrite dom_gset_to_gmap, elem_of_list_to_set. Qed.

Lemma ram0_ok : ram end0 ram0.
Proof.
  split; [reflexivity| |exact (ram_of_page (high_pages ++ low_pages end0))].
  apply (ram_of_no (high_pages ++ low_pages end0)). intros H. apply elem_of_app in H as [H|H].
  - apply (high_page end0 end0_range) in H as [(_ & _ & _ & H) _]. lia.
  - apply (low_page end0 end0_range) in H as [(_ & _ & _ & H) _]. lia.
Qed.

Lemma bios2 : bios 10 0 0 MEM2 0x9fc00 0x9fd00 ENTRIES2 [0; 1].
Proof.
  split.
  - exact MEM2_floating.
  - by vm_compute.
  - lia.
  - split; [by vm_compute|right; by vm_compute|by vm_compute|by vm_compute|repeat constructor|by vm_compute].
  - simpl. lia.
  - reflexivity.
  - apply NoDup_cons. split; [rewrite list_elem_of_singleton; lia|apply NoDup_singleton].
  - repeat constructor; lia.
  - reflexivity.
  - by vm_compute.
Qed.

Lemma powered2 : powered 10 10 0 0 end0 board2 0x9fc00 0x9fd00 ENTRIES2 [0; 1].
Proof.
  split; [exact ram0_ok|exact bios2|split; reflexivity| |apply con0_rel|reflexivity| | |exists (mkcpu false 0 false); split; reflexivity|split; reflexivity|split; reflexivity].
  - change (14 ≤ maxintr chips0 < 224). vm_compute. split; congruence.
  - change (3 < 10)%nat. lia.
  - change (length (replicate 8 cpu_off) = 8%nat ∧ Forall (λ x, cb_started x = 0) (replicate 8 cpu_off)). split; [reflexivity|]. apply Forall_replicate. reflexivity.
Qed.

Lemma main_correct_witness : ∃ s' d kp, @main _ (@log_ops bstate (bio_ops 1)) 3 2 10 10 0 0 0x50014 0x20 0 0x80102000 0x80109000 0x80110000 (λ i, 0x80111000 + 176 * Z.of_nat i) [0xfa; 0x31; 0xc0] [0x68]
    (λ i, 0x80106000 + 10 * i) (on_disk Bio.binit) 1 (λ _, None) end0 0x80108000 0x80103000 0x80104000 board2 = Ok (Some 0%nat) s' ∧
  ps_cr3 (b_ps s') = V2P d ∧ ps_kpgdir (b_ps s') = kp ∧ c_devsw (b_con s') !! 1%nat = Some console_dev ∧ ∃ x, b_cpus s' !! 1%nat = Some x ∧ cb_started x = 1.
Proof.
  destruct (main_correct 3 2 10 10 0 0 0x50014 0x20 0 0x80102000 0x80109000 0x80110000 (λ i, 0x80111000 + 176 * Z.of_nat i) [0xfa; 0x31; 0xc0] [0x68]
    (λ i, 0x80106000 + 10 * i) 1 (λ _, None) end0 0x80108000 0x80103000 0x80104000 board2 0x9fc00 0x9fd00 ENTRIES2 [0; 1] [FsFile.zeros] log0
    end0_range ltac:(by vm_compute) ltac:(by vm_compute) ltac:(lia) ltac:(lia) ltac:(lia) powered2 eq_refl) as (s' & up & r & d & kp & l & E & B & _ & _ & C & _).
  - repeat constructor.
  - exists s', d, kp. split; [exact E|]. destruct B as [_ (_ & T2 & _) _ _ _ [_ T6] _ T8 _ _]. split; [exact T2|]. split; [exact T6|]. split; [by rewrite C|].
    destruct (T8 1%nat 1) as (p & x & _ & Hx & Hs & _); [reflexivity|lia|]. exists x. split; [exact Hx|exact Hs].
Defined.
