(* ===== verification/X86.v ===== *)
(** * The processor, as the assembly files use it

    The registers, the segment selectors, the control registers and the memory, with
    the instructions of swtch.S, trapasm.S, usys.S, initcode.S, entry.S, bootasm.S and
    entryother.S.  An instruction is a function on the state; what is in the
    memory is bytes, words are four of them.

    [pushes_ok]: what a sequence of pushes leaves in memory; [words_at]: what is read back. *)

From S2P Require Import Prelude Params Phys.

Inductive reg : Type := EAX | ECX | EDX | EBX | ESP | EBP | ESI | EDI.
Inductive sreg : Type := CS | DS | ES | FS | GS | SS.
Definition reg_eqb (a b : reg) : bool :=
  match a, b with
  | EAX, EAX | ECX, ECX | EDX, EDX | EBX, EBX | ESP, ESP | EBP, EBP | ESI, ESI | EDI, EDI => true
  | _, _ => false
  end.
Definition sreg_eqb (a b : sreg) : bool :=
  match a, b with CS, CS | DS, DS | ES, ES | FS, FS | GS, GS | SS, SS => true | _, _ => false end.

Record x86 : Type := mkx {
  gp : reg → Z;
  sg : sreg → Z;
  eip : Z;
  eflags : Z;
  cr0 : Z;
  cr3 : Z;
  cr4 : Z;
  gdtr : Z;                 (* where lgdt read its operand *)
  ram : mem }.
Definition set_gp (r : reg) (v : Z) (s : x86) : x86 :=
  mkx (λ r', if reg_eqb r' r then v else gp s r') (sg s) (eip s) (eflags s) (cr0 s) (cr3 s) (cr4 s) (gdtr s) (ram s).
Definition set_sg (r : sreg) (v : Z) (s : x86) : x86 :=
  mkx (gp s) (λ r', if sreg_eqb r' r then v else sg s r') (eip s) (eflags s) (cr0 s) (cr3 s) (cr4 s) (gdtr s) (ram s).
Definition set_eip (v : Z) (s : x86) : x86 := mkx (gp s) (sg s) v (eflags s) (cr0 s) (cr3 s) (cr4 s) (gdtr s) (ram s).
Definition set_eflags (v : Z) (s : x86) : x86 := mkx (gp s) (sg s) (eip s) v (cr0 s) (cr3 s) (cr4 s) (gdtr s) (ram s).
Definition set_crs (a b c : Z) (s : x86) : x86 := mkx (gp s) (sg s) (eip s) (eflags s) a b c (gdtr s) (ram s).
Definition set_gdtr (v : Z) (s : x86) : x86 := mkx (gp s) (sg s) (eip s) (eflags s) (cr0 s) (cr3 s) (cr4 s) v (ram s).
Definition set_ram (m : mem) (s : x86) : x86 := mkx (gp s) (sg s) (eip s) (eflags s) (cr0 s) (cr3 s) (cr4 s) (gdtr s) m.

(** ** Instructions *)

Definition push (v : Z) (s : x86) : x86 :=
  let sp := u32 (gp s ESP - 4) in
  set_ram (store sp (le_bytes 4 v) (ram s)) (set_gp ESP sp s).
Definition top (s : x86) : Z := load32 (gp s ESP) (ram s).
Definition drop4 (s : x86) : x86 := set_gp ESP (u32 (gp s ESP + 4)) s.
Definition pushes (l : list Z) (s : x86) : x86 := foldl (flip push) s l.

Inductive instr : Type :=
| PUSH (r : reg) | PUSHI (v : Z) | PUSHS (r : sreg) | PUSHAL
| POP (r : reg) | POPS (r : sreg) | POPAL
| MOV (src dst : reg) | MOVI (v : Z) (dst : reg) | MOVW (v : Z) (dst : reg) | MOVS (src : reg) (dst : sreg)
| LOAD (disp : Z) (base dst : reg) | LOADA (a : Z) (dst : reg) | STORE (src base : reg)
| ADDI (v : Z) (r : reg) | ORI (v : Z) (r : reg) | XORSELF (r : reg) | XORWSELF (r : reg)
| RDCR (n : nat) (r : reg) | WRCR (r : reg) (n : nat)
| CLI | LGDT (a : Z) | LJMP (sel off : Z) | JMPR (r : reg) | CALL (a nxt : Z) | CALLM (a nxt : Z) | RET | IRET.

Definition cr (n : nat) (s : x86) : Z := match n with O => cr0 s | 3%nat => cr3 s | _ => cr4 s end.
Definition set_cr (n : nat) (v : Z) (s : x86) : x86 :=
  match n with O => set_crs v (cr3 s) (cr4 s) s | 3%nat => set_crs (cr0 s) v (cr4 s) s | _ => set_crs (cr0 s) (cr3 s) v s end.

(** The flags do not matter to the code, except for the interrupt flag. *)
Definition exec (i : instr) (s : x86) : x86 :=
  match i with
  | PUSH r => push (gp s r) s
  | PUSHI v => push v s
  | PUSHS r => push (sg s r) s
  | PUSHAL => pushes [gp s EAX; gp s ECX; gp s EDX; gp s EBX; gp s ESP; gp s EBP; gp s ESI; gp s EDI] s
  | POP r => set_gp r (top s) (drop4 s)
  | POPS r => set_sg r (u16 (top s)) (drop4 s)
  | POPAL =>
      let w k := load32 (u32 (gp s ESP + 4 * k)) (ram s) in
      set_gp EDI (w 0) (set_gp ESI (w 1) (set_gp EBP (w 2) (set_gp EBX (w 4) (set_gp EDX (w 5) (set_gp ECX (w 6) (set_gp EAX (w 7)
        (set_gp ESP (u32 (gp s ESP + 32)) s)))))))
  | MOV src dst => set_gp dst (gp s src) s
  | MOVI v dst => set_gp dst v s
  | MOVW v dst => set_gp dst (Z.lor (Z.land (gp s dst) 0xffff0000) v) s
  | MOVS src dst => set_sg dst (u16 (gp s src)) s
  | LOAD disp base dst => set_gp dst (load32 (u32 (gp s base + disp)) (ram s)) s
  | LOADA a dst => set_gp dst (load32 a (ram s)) s
  | STORE src base => set_ram (store (gp s base) (le_bytes 4 (gp s src)) (ram s)) s
  | ADDI v r => set_gp r (u32 (gp s r + v)) s
  | ORI v r => set_gp r (Z.lor (gp s r) v) s
  | XORSELF r => set_gp r 0 s
  | XORWSELF r => set_gp r (Z.land (gp s r) 0xffff0000) s
  | RDCR n r => set_gp r (cr n s) s
  | WRCR r n => set_cr n (gp s r) s
  | CLI => set_eflags (Z.land (eflags s) (Z.lnot 0x200)) s
  | LGDT a => set_gdtr a s
  | LJMP sel off => set_eip off (set_sg CS sel s)
  | JMPR r => set_eip (gp s r) s
  | CALL a nxt => set_eip a (push nxt s)
  | CALLM a nxt => set_eip (load32 a (ram s)) (push nxt s)
  | RET => set_eip (top s) (drop4 s)
  | IRET =>
      let w k := load32 (u32 (gp s ESP + 4 * k)) (ram s) in
      let s' := set_eip (w 0) (set_sg CS (u16 (w 1)) (set_eflags (w 2) s)) in
      if Z.land (w 1) 3 =? Z.land (sg s CS) 3 then set_gp ESP (u32 (gp s ESP + 12)) s'
      else set_sg SS (u16 (w 4)) (set_gp ESP (w 3) s')
  end.
Definition run (l : list instr) (s : x86) : x86 := foldl (flip exec) s l.

Lemma run_app l1 l2 s : run (l1 ++ l2) s = run l2 (run l1 s).
Proof. apply foldl_app. Qed.

(** Pushes of registers other than the stack pointer. *)
Lemma run_push rs : ∀ s, Forall (λ r, r ≠ ESP) rs → run (PUSH <$> rs) s = pushes (gp s <$> rs) s.
Proof.
  induction rs as [|r rs IH]; intros s H; [done|]. apply Forall_cons in H as [Hr H].
  transitivity (run (PUSH <$> rs) (push (gp s r) s)); [done|]. rewrite IH by done.
  transitivity (pushes (gp s <$> rs) (push (gp s r) s)); [|done]. f_equal. apply list_fmap_ext. intros i r' Hr'.
  assert (r' ≠ ESP) by (by eapply (Forall_lookup_1 _ _ _ _ H)). by destruct r'.
Qed.

(** ** Words in memory *)

Definition words (m : mem) (a : Z) (l : list Z) : Prop := ∀ k v, l !! k = Some v → load32 (a + 4 * Z.of_nat k) m = v.
Definition word (v : Z) : Prop := 0 ≤ v < 4294967296.

Lemma load32_out a b v m : b + 4 ≤ a ∨ a + 4 ≤ b → load32 a (store b (le_bytes 4 v) m) = load32 a m.
Proof. intros H. unfold load32. rewrite load_store_out; [done|]. change (length (le_bytes 4 v)) with 4%nat. lia. Qed.

Lemma words_cons m a v l : words m a (v :: l) ↔ load32 a m = v ∧ words m (a + 4) l.
Proof.
  split.
  - intros H. split; [rewrite <- (H 0%nat v eq_refl); f_equal; lia|]. intros k w Hk. rewrite <- (H (S k) w Hk). f_equal. lia.
  - intros [H1 H2] [|k] w Hk; [injection Hk as <-; rewrite <- H1; f_equal; lia|]. rewrite <- (H2 k w Hk). f_equal. lia.
Qed.

Lemma words_keep m m' a l : (∀ x, a ≤ x < a + 4 * Z.of_nat (length l) → m' x = m x) → words m a l → words m' a l.
Proof.
  intros H W k v Hk. rewrite <- (W k v Hk). unfold load32. f_equal. apply load_same. pose proof (lookup_lt_Some _ _ _ Hk). intros x Hx. apply H. lia.
Qed.

Lemma words_check m a l : ((λ k, load32 (a + 4 * Z.of_nat k) m) <$> seq 0 (length l)) = l → words m a l.
Proof.
  intros H k v Hk. pose proof (lookup_lt_Some _ _ _ Hk) as Hl. rewrite <- H, list_lookup_fmap, lookup_seq_lt in Hk by done. by injection Hk as <-.
Qed.

(** ** The stack *)

Record pushed_to (s s' : x86) (sp : Z) (l : list Z) : Prop := {
  pt_esp : gp s' ESP = sp;
  pt_gp : ∀ r, r ≠ ESP → gp s' r = gp s r;
  pt_sg : sg s' = sg s;
  pt_rest : eip s' = eip s ∧ eflags s' = eflags s ∧ cr0 s' = cr0 s ∧ cr3 s' = cr3 s ∧ cr4 s' = cr4 s;
  pt_words : words (ram s') sp (reverse l);
  pt_ram : ∀ a, a < sp ∨ sp + 4 * Z.of_nat (length l) ≤ a → ram s' a = ram s a }.

(** Pushes leave the values in memory, the last one lowest. *)
Lemma pushes_ok l : ∀ s, Forall word l → 4 * Z.of_nat (length l) ≤ gp s ESP < 4294967296 →
  pushed_to s (pushes l s) (gp s ESP - 4 * Z.of_nat (length l)) l.
Proof.
  induction l as [|v l IH] using rev_ind; intros s Hw Hsp.
  { split; try done. change (gp (pushes [] s)) with (gp s). simpl. lia. }
  apply Forall_app in Hw as [Hw Hv]. apply Forall_cons in Hv as [Hv _]. rewrite length_app in *. change (length [v]) with 1%nat in *.
  destruct (IH s Hw) as [E G S R W M]; [lia|]. unfold pushes in *. rewrite foldl_app. cbn [foldl flip]. set (s1 := foldl _ s l) in *.
  assert (Hsp1 : u32 (gp s1 ESP - 4) = gp s ESP - 4 * Z.of_nat (length l + 1)) by (rewrite E; unfold u32; rewrite Z.mod_small; lia).
  split.
  - cbn. by rewrite Hsp1.
  - intros r Hr. rewrite <- G by done. cbn. destruct r; done || by destruct Hr.
  - done.
  - done.
  - rewrite reverse_app. change (reverse [v] ++ reverse l) with (v :: reverse l). cbn [push ram set_ram]. rewrite Hsp1. apply words_cons. split.
    + apply load32_store; exact Hv.
    + apply (words_keep (ram s1)); [|replace (_ + 4) with (gp s ESP - 4 * Z.of_nat (length l)) by lia; done].
      intros x Hx. apply store_out. change (length (le_bytes 4 v)) with 4%nat. lia.
  - intros a Ha. rewrite length_app in Ha. change (length [v]) with 1%nat in Ha. cbn [push ram set_ram]. rewrite Hsp1, store_out by (change (length (le_bytes 4 v)) with 4%nat; lia). apply M. lia.
Qed.

Lemma pushed_trans s1 s2 s3 sp1 sp2 l1 l2 : pushed_to s1 s2 sp1 l1 → pushed_to s2 s3 sp2 l2 → sp2 = sp1 - 4 * Z.of_nat (length l2) →
  pushed_to s1 s3 sp2 (l1 ++ l2).
Proof.
  intros [E1 G1 S1 R1 W1 M1] [E2 G2 S2 R2 W2 M2] ->. split.
  - done.
  - intros r Hr. by rewrite G2, G1.
  - by rewrite S2.
  - intuition congruence.
  - rewrite reverse_app. intros k v Hk. destruct (decide (k < length l2)%nat) as [Hlt|Hge].
    + rewrite lookup_app_l in Hk by (by rewrite length_reverse). by apply W2.
    + rewrite lookup_app_r in Hk by (rewrite length_reverse; lia). rewrite length_reverse in Hk.
      rewrite <- (W1 _ v Hk). replace (sp1 + 4 * Z.of_nat (k - length l2)) with (sp1 - 4 * Z.of_nat (length l2) + 4 * Z.of_nat k) by lia.
      unfold load32. f_equal. apply load_same. intros x Hx. apply M2. lia.
  - intros a Ha. rewrite length_app in Ha. rewrite M2, M1; [done|lia|lia].
Qed.

(** The words from [sp] on, as a list of the ones that are popped. *)
Lemma words_at m a l k : words m a l → (k < length l)%nat → load32 (a + 4 * Z.of_nat k) m = l !!! k.
Proof. intros W Hk. destruct (lookup_lt_is_Some_2 l k Hk) as [v Hv]. rewrite (W k v Hv). symmetry. by apply list_lookup_total_correct. Qed.

Lemma u32_add a b : u32 (u32 a + b) = u32 (a + b).
Proof. unfold u32. by rewrite Zplus_mod_idemp_l. Qed.

(** The low half of a register. *)
Lemma u16_zero v : u16 (Z.land v 0xffff0000) = 0.
Proof.
  unfold u16. change 65536 with (2 ^ 16). rewrite <- Z.land_ones, <- Z.land_assoc by lia.
  change (Z.land 0xffff0000 (Z.ones 16)) with 0. apply Z.land_0_r.
Qed.
Lemma u16_low v k : 0 ≤ k < 65536 → u16 (Z.lor (Z.land v 0xffff0000) k) = k.
Proof.
  intros Hk. unfold u16. change 65536 with (2 ^ 16). rewrite <- Z.land_ones, Z.land_lor_distr_l, <- Z.land_assoc by lia.
  change (Z.land 0xffff0000 (Z.ones 16)) with 0. rewrite Z.land_0_r, Z.lor_0_l, Z.land_ones by lia. by apply Z.mod_small.
Qed.
Lemma u8_low v k : 0 ≤ k < 256 → u8 (Z.lor (Z.land v 0xffffff00) k) = k.
Proof.
  intros Hk. unfold u8. change 256 with (2 ^ 8). rewrite <- Z.land_ones, Z.land_lor_distr_l, <- Z.land_assoc by lia.
  change (Z.land 0xffffff00 (Z.ones 8)) with 0. rewrite Z.land_0_r, Z.lor_0_l, Z.land_ones by lia. by apply Z.mod_small.
Qed.
