(* ===== verification/Asm.v ===== *)
(** * The assembly of the kernel: trapasm.S, vectors.pl, swtch.S, usys.S, initcode.S

    The code of each file is a list of instructions of X86.v; labels are parameters.
    The C functions that it calls are parameters too, which keep the stack.

    [trap_frame_ok]: what [trap] finds on the kernel's stack is struct trapframe of
    x86.h with the state of the interrupted program.  [trapret_ok]: [trapret] gives the
    program the registers in the frame; so an interrupt is not seen by the
    program ([trap_roundtrip]).  [swtch_ok]: what is left on a stack is
    struct context, and the registers of the other one are loaded; so a call of [swtch]
    returns when its context is switched to ([swtch_returns]).
    [process_starts]: the stack that [allocproc] prepares leads to user mode.
    [stub_returns]: a system call of usys.S.  [initcode_exec]: the first one. *)

From S2P Require Import Prelude Params Phys Sleeplock Spinlock BlockDev Tx Fs Kalloc Vm File Proc Syscall Exec Sysfile Trapc Start X86.

(** ** trapasm.S and vectors.pl *)

(** The vectors for which the processor pushes an error code. *)
Definition has_err (n : Z) : bool := (n =? 8) || ((10 <=? n) && (n <=? 14)) || (n =? 17).
Definition vector (n : Z) : list instr := (if has_err n then [] else [PUSHI 0]) ++ [PUSHI n].

Definition alltraps : list instr :=
  [PUSHS DS; PUSHS ES; PUSHS FS; PUSHS GS; PUSHAL;
   MOVW (Z.shiftl SEG_KDATA 3) EAX; MOVS EAX DS; MOVS EAX ES; PUSH ESP].
(** After the call of [trap]. *)
Definition alltraps_end : list instr := [ADDI 4 ESP].
Definition trapret : list instr := [POPAL; POPS GS; POPS FS; POPS ES; POPS DS; ADDI 8 ESP; IRET].

(** What the processor does with an interrupt through the gate [g], from a program that
    runs with less privilege: the stack is the one in the task state. *)
Definition gated (g : gatedesc) (s : x86) : x86 :=
  set_eip (gd_off g) (set_sg CS (gd_cs g) (if gd_trap g then s else set_eflags (Z.land (eflags s) (Z.lnot FL_IF)) s)).
Definition deliver (g : gatedesc) (err : option Z) (ss0 esp0 : Z) (s : x86) : x86 :=
  let s1 := if Z.land (sg s CS) 3 =? 0 then s else pushes [sg s SS; gp s ESP] (set_sg SS ss0 (set_gp ESP esp0 s)) in
  gated g (pushes ([eflags s; sg s CS; eip s] ++ match err with Some e => [e] | None => [] end) s1).

(** The state in which [trap] is called. *)
Definition trap_entry (g : gatedesc) (n : Z) (err : option Z) (ss0 esp0 : Z) (s : x86) : x86 :=
  run alltraps (run (vector n) (deliver g err ss0 esp0 s)).

(** struct trapframe in memory. *)
Definition tf_words (f : trapframe) : list Z :=
  [tf_edi f; tf_esi f; tf_ebp f; tf_oesp f; tf_ebx f; tf_edx f; tf_ecx f; tf_eax f; tf_gs f; tf_fs f; tf_es f; tf_ds f;
   tf_trapno f; tf_err f; tf_eip f; tf_cs f; tf_eflags f; tf_esp f; tf_ss f].

(** The frame of a program in the state [s]; the eleventh word below the top is
    what [pushal] has for the stack pointer. *)
Definition frame_of (n e esp0 : Z) (s : x86) : trapframe :=
  mktf (gp s EDI) (gp s ESI) (gp s EBP) (esp0 - 44) (gp s EBX) (gp s EDX) (gp s ECX) (gp s EAX)
    (sg s GS) (sg s FS) (sg s ES) (sg s DS) n e (eip s) (sg s CS) (eflags s) (gp s ESP) (sg s SS).

(** A state of a program in user mode. *)
Record user (s : x86) : Prop := {
  us_cpl : Z.land (sg s CS) 3 = 3;
  us_gp : ∀ r, word (gp s r);
  us_sg : ∀ r, 0 ≤ sg s r < 65536;
  us_eip : word (eip s);
  us_eflags : word (eflags s) }.

(** ** Entering the kernel *)

Lemma push_gated v g s : push v (gated g s) = gated g (push v s).
Proof. unfold gated. by destruct (gd_trap g). Qed.

Lemma pushes_gated l g : ∀ s, pushes l (gated g s) = gated g (pushes l s).
Proof. induction l as [|v l IH]; intros s; [done|]. unfold pushes in *. cbn [foldl flip]. by rewrite push_gated, IH. Qed.

Lemma gated_gp g s : gp (gated g s) = gp s.
Proof. unfold gated. by destruct (gd_trap g). Qed.
Lemma gated_ram g s : ram (gated g s) = ram s.
Proof. unfold gated. by destruct (gd_trap g). Qed.
Lemma gated_sg g s r : r ≠ CS → sg (gated g s) r = sg s r.
Proof. intros H. unfold gated. destruct (gd_trap g), r; done || by destruct H. Qed.

Lemma pushes_sg l : ∀ s, sg (pushes l s) = sg s.
Proof. induction l as [|v l IH]; intros s; [done|]. unfold pushes in *. cbn [foldl flip]. by rewrite IH. Qed.
Lemma pushes_gp l : ∀ s r, r ≠ ESP → gp (pushes l s) r = gp s r.
Proof.
  induction l as [|v l IH]; intros s r Hr; [done|]. unfold pushes in *. cbn [foldl flip]. rewrite IH by done. destruct r; done || by destruct Hr.
Qed.
Lemma pushes_app l1 l2 s : pushes (l1 ++ l2) s = pushes l2 (pushes l1 s).
Proof. apply foldl_app. Qed.

(** The pushes of [alltraps] behind a gate. *)
Lemma alltraps_eq g s :
  let s1 := pushes [sg s DS; sg s ES; sg s FS; sg s GS] s in
  let s2 := pushes [gp s EAX; gp s ECX; gp s EDX; gp s EBX; gp s1 ESP; gp s EBP; gp s ESI; gp s EDI] s1 in
  run alltraps (gated g s) = run [MOVW (Z.shiftl SEG_KDATA 3) EAX; MOVS EAX DS; MOVS EAX ES; PUSH ESP] (gated g s2).
Proof.
  intros s1 s2. change alltraps with ([PUSHS DS; PUSHS ES; PUSHS FS; PUSHS GS] ++ [PUSHAL] ++ [MOVW (Z.shiftl SEG_KDATA 3) EAX; MOVS EAX DS; MOVS EAX ES; PUSH ESP]).
  unfold run. rewrite !foldl_app. f_equal. cbn [foldl flip].
  assert (E1 : exec (PUSHS GS) (exec (PUSHS FS) (exec (PUSHS ES) (exec (PUSHS DS) (gated g s)))) = gated g s1).
  { cbn [exec]. rewrite !push_gated, !gated_sg by done. reflexivity. }
  rewrite E1. cbn [exec]. rewrite pushes_gated, gated_gp. unfold s2.
  assert (G : ∀ r, r ≠ ESP → gp s1 r = gp s r) by (intros r; apply pushes_gp).
  by rewrite (G EAX), (G ECX), (G EDX), (G EBX), (G EBP), (G ESI), (G EDI) by done.
Qed.

Lemma trap_entry_eq g n err ss0 esp0 s : Z.land (sg s CS) 3 = 3 → is_Some err ↔ has_err n = true →
  let s0 := set_sg SS ss0 (set_gp ESP esp0 s) in
  let s1 := pushes [sg s SS; gp s ESP; eflags s; sg s CS; eip s; default 0 err; n; sg s DS; sg s ES; sg s FS; sg s GS] s0 in
  let s2 := pushes [gp s EAX; gp s ECX; gp s EDX; gp s EBX; gp s1 ESP; gp s EBP; gp s ESI; gp s EDI] s1 in
  trap_entry g n err ss0 esp0 s = run [MOVW (Z.shiftl SEG_KDATA 3) EAX; MOVS EAX DS; MOVS EAX ES; PUSH ESP] (gated g s2).
Proof.
  intros Hc He s0 s1 s2. unfold trap_entry, deliver. rewrite Hc. change (3 =? 0) with false. cbv iota. fold s0.
  set (t := pushes [sg s SS; gp s ESP; eflags s; sg s CS; eip s; default 0 err; n] s0).
  assert (E : run (vector n) (gated g (pushes ([eflags s; sg s CS; eip s] ++ match err with Some e => [e] | None => [] end) (pushes [sg s SS; gp s ESP] s0))) = gated g t).
  { rewrite <- pushes_app. destruct err as [e|]; unfold vector.
    - rewrite (proj1 He) by eauto. change (run ([] ++ [PUSHI n]) ?x) with (push n x). rewrite push_gated. reflexivity.
    - destruct (has_err n); [by destruct (proj2 He eq_refl)|]. change (run ([PUSHI 0] ++ [PUSHI n]) ?x) with (push n (push 0 x)). rewrite !push_gated. reflexivity. }
  rewrite E, alltraps_eq. cbv zeta. unfold t. rewrite <- !pushes_app, !pushes_sg.
  assert (G : ∀ l r, r ≠ ESP → gp (pushes l s0) r = gp s r) by (intros l r Hr; rewrite pushes_gp by done; destruct r; done || by destruct Hr).
  rewrite !(G _ EAX), !(G _ ECX), !(G _ EDX), !(G _ EBX), !(G _ EBP), !(G _ ESI), !(G _ EDI) by done.
  unfold s2, s1. rewrite <- !pushes_app. reflexivity.
Qed.

(** What [trap] finds: its argument is the frame of the program, the data segments are
    the kernel's, and interrupts are off unless the gate is a trap gate. *)
Record in_trap (g : gatedesc) (s s' : x86) (tf : Z) (f : trapframe) : Prop := {
  it_frame : words (ram s') tf (tf_words f);
  it_arg : gp s' ESP = tf - 4 ∧ load32 (tf - 4) (ram s') = tf;
  it_segs : sg s' CS = gd_cs g ∧ sg s' DS = Z.shiftl SEG_KDATA 3 ∧ sg s' ES = Z.shiftl SEG_KDATA 3;
  it_flags : eflags s' = if gd_trap g then eflags s else Z.land (eflags s) (Z.lnot FL_IF);
  it_ram : ∀ a, a < tf - 4 ∨ tf + 76 ≤ a → ram s' a = ram s a }.

Lemma kdata_ax v : u16 (Z.lor (Z.land v 0xffff0000) (Z.shiftl SEG_KDATA 3)) = Z.shiftl SEG_KDATA 3.
Proof. apply u16_low. by vm_compute. Qed.

(** The end of [alltraps], with the frame on the stack. *)
Lemma trap_arg g s s2 tf f : gp s2 ESP = tf → 4 ≤ tf < 4294967296 → words (ram s2) tf (tf_words f) → eflags s2 = eflags s →
  (∀ a, a < tf ∨ tf + 76 ≤ a → ram s2 a = ram s a) →
  in_trap g s (run [MOVW (Z.shiftl SEG_KDATA 3) EAX; MOVS EAX DS; MOVS EAX ES; PUSH ESP] (gated g s2)) tf f.
Proof.
  intros E Hsp W Ef M. assert (E4 : u32 (tf - 4) = tf - 4) by (rewrite u32_small; lia).
  assert (R : ram (gated g s2) = ram s2) by apply gated_ram. assert (G : gp (gated g s2) ESP = tf) by (by rewrite gated_gp).
  assert (Ef' : eflags (gated g s2) = if gd_trap g then eflags s else Z.land (eflags s) (Z.lnot FL_IF)) by (unfold gated; destruct (gd_trap g); cbn; by rewrite Ef).
  assert (Ec : sg (gated g s2) CS = gd_cs g) by (unfold gated; by destruct (gd_trap g)).
  set (s3 := gated g s2) in *. clearbody s3. unfold run. cbn [foldl flip exec].
  split; cbn [push ram set_ram gp set_gp sg reg_eqb set_sg]; rewrite ?G, ?R, ?E4.
  - apply (words_keep (ram s2)); [|exact W]. intros a Ha. apply store_out. change (length (le_bytes 4 tf)) with 4%nat. lia.
  - split; [done|]. apply load32_store. lia.
  - split_and!; cbn; [done|by rewrite kdata_ax|by rewrite kdata_ax].
  - exact Ef'.
  - intros a Ha. rewrite store_out by (change (length (le_bytes 4 tf)) with 4%nat; lia). apply M. lia.
Qed.

Lemma trap_frame_ok g n err ss0 esp0 s : user s → (is_Some err ↔ has_err n = true) → Forall word (option_list err) → word n → 80 ≤ esp0 < 4294967296 →
  in_trap g s (trap_entry g n err ss0 esp0 s) (esp0 - 76) (frame_of n (default 0 err) esp0 s).
Proof.
  intros [Hc Hg Hs Hi Hf] He Hew Hn Hsp. rewrite trap_entry_eq by done. cbv zeta.
  set (s0 := set_sg SS ss0 (set_gp ESP esp0 s)). set (L1 := [sg s SS; gp s ESP; eflags s; sg s CS; eip s; default 0 err; n; sg s DS; sg s ES; sg s FS; sg s GS]).
  assert (Hw : ∀ r, word (sg s r)) by (intros r; destruct (Hs r); split; lia).
  assert (Hd : word (default 0 err)) by (destruct err; [by apply Forall_cons in Hew as [? _]|done]).
  assert (P1 : pushed_to s0 (pushes L1 s0) (esp0 - 44) L1).
  { apply (pushes_ok L1 s0); [|change (gp s0 ESP) with esp0; simpl; lia]. unfold L1. repeat (apply Forall_cons; split; [by auto|]). constructor. }
  rewrite (pt_esp _ _ _ _ P1).
  set (L2 := [gp s EAX; gp s ECX; gp s EDX; gp s EBX; esp0 - 44; gp s EBP; gp s ESI; gp s EDI]).
  assert (P2 : pushed_to (pushes L1 s0) (pushes L2 (pushes L1 s0)) (esp0 - 76) L2).
  { replace (esp0 - 76) with (gp (pushes L1 s0) ESP - 4 * Z.of_nat (length L2)) by (rewrite (pt_esp _ _ _ _ P1); simpl; lia).
    apply (pushes_ok L2 (pushes L1 s0)); [|rewrite (pt_esp _ _ _ _ P1); simpl; lia]. unfold L2. repeat (apply Forall_cons; split; [by auto || (split; lia)|]). constructor. }
  pose proof (pushed_trans _ _ _ _ _ _ _ P1 P2 ltac:(simpl; lia)) as [E _ S (_ & Ef & _) W M].
  apply trap_arg; [exact E|lia|exact W|exact Ef|]. intros a Ha. apply M. change (length (L1 ++ L2)) with 19%nat. lia.
Qed.

(** ** Leaving the kernel *)

(** A frame that can be returned to in user mode. *)
Record user_frame (f : trapframe) : Prop := {
  uf_cpl : Z.land (tf_cs f) 3 = 3;
  uf_segs : Forall (λ v, 0 ≤ v < 65536) [tf_gs f; tf_fs f; tf_es f; tf_ds f; tf_cs f; tf_ss f] }.

(** The program goes on with the registers of the frame. *)
Record resumed (s s' : x86) (f : trapframe) : Prop := {
  re_gp : gp s' EDI = tf_edi f ∧ gp s' ESI = tf_esi f ∧ gp s' EBP = tf_ebp f ∧ gp s' EBX = tf_ebx f ∧
    gp s' EDX = tf_edx f ∧ gp s' ECX = tf_ecx f ∧ gp s' EAX = tf_eax f ∧ gp s' ESP = tf_esp f;
  re_sg : sg s' GS = tf_gs f ∧ sg s' FS = tf_fs f ∧ sg s' ES = tf_es f ∧ sg s' DS = tf_ds f ∧ sg s' CS = tf_cs f ∧ sg s' SS = tf_ss f;
  re_pc : eip s' = tf_eip f ∧ eflags s' = tf_eflags f;
  re_ram : ram s' = ram s }.

Lemma exec_popal s sp l : gp s ESP = sp → 0 ≤ sp → sp + 32 < 4294967296 → words (ram s) sp l → (8 ≤ length l)%nat →
  exec POPAL s = set_gp EDI (l !!! 0%nat) (set_gp ESI (l !!! 1%nat) (set_gp EBP (l !!! 2%nat) (set_gp EBX (l !!! 4%nat) (set_gp EDX (l !!! 5%nat)
    (set_gp ECX (l !!! 6%nat) (set_gp EAX (l !!! 7%nat) (set_gp ESP (sp + 32) s))))))).
Proof.
  intros Hsp H0 H1 W Hl. cbn [exec]. rewrite Hsp.
  assert (F : ∀ k, 0 ≤ k < 8 → load32 (u32 (sp + 4 * k)) (ram s) = l !!! Z.to_nat k).
  { intros k Hk. rewrite u32_small by lia. rewrite <- (words_at (ram s) sp l) by (done || lia). do 2 f_equal. lia. }
  rewrite (F 0), (F 1), (F 2), (F 4), (F 5), (F 6), (F 7), u32_small by lia. done.
Qed.

Lemma exec_pops r s sp v : gp s ESP = sp → 0 ≤ sp → sp + 4 < 4294967296 → load32 sp (ram s) = v → 0 ≤ v < 65536 →
  exec (POPS r) s = set_sg r v (set_gp ESP (sp + 4) s).
Proof.
  intros Hsp H0 H1 W Hv. cbn [exec]. unfold top, drop4. rewrite Hsp, W, u32_small by lia. f_equal. by apply Z.mod_small.
Qed.

Lemma exec_iret_user s sp l : gp s ESP = sp → 0 ≤ sp → sp + 20 ≤ 4294967296 → words (ram s) sp l → (5 ≤ length l)%nat →
  Z.land (sg s CS) 3 = 0 → Z.land (l !!! 1%nat) 3 = 3 → 0 ≤ l !!! 1%nat < 65536 → 0 ≤ l !!! 4%nat < 65536 →
  exec IRET s = set_sg SS (l !!! 4%nat) (set_gp ESP (l !!! 3%nat) (set_eip (l !!! 0%nat) (set_sg CS (l !!! 1%nat) (set_eflags (l !!! 2%nat) s)))).
Proof.
  intros Hsp H0 H1 W Hl Hc Hu R1 R4. cbn [exec]. rewrite Hsp.
  assert (F : ∀ k, 0 ≤ k < 5 → load32 (u32 (sp + 4 * k)) (ram s) = l !!! Z.to_nat k).
  { intros k Hk. rewrite u32_small by lia. rewrite <- (words_at (ram s) sp l) by (done || lia). do 2 f_equal. lia. }
  rewrite (F 0), (F 1), (F 2), (F 3), (F 4) by lia. change (Z.to_nat 1) with 1%nat. rewrite Hu, Hc. change (3 =? 0) with false. cbv iota.
  change (Z.to_nat 4) with 4%nat.
  assert (U : ∀ v, 0 ≤ v < 65536 → u16 v = v) by (intros v Hv; by apply Z.mod_small). by rewrite !U by done.
Qed.

Lemma words_drop m a l k : words m a l → words m (a + 4 * Z.of_nat k) (drop k l).
Proof. intros W i v Hi. rewrite lookup_drop in Hi. rewrite <- (W _ v Hi). f_equal. lia. Qed.

Lemma trapret_ok s sp f : gp s ESP = sp → 0 ≤ sp → sp + 76 ≤ 4294967296 → words (ram s) sp (tf_words f) → Z.land (sg s CS) 3 = 0 → user_frame f →
  resumed s (run trapret s) f.
Proof.
  intros Hsp H0 H1 W Hc [Hu Hs]. rewrite !Forall_cons in Hs. destruct Hs as (S1 & S2 & S3 & S4 & S5 & S6 & _).
  assert (F : ∀ k, (k < 19)%nat → load32 (sp + 4 * Z.of_nat k) (ram s) = tf_words f !!! k) by (intros k Hk; by apply words_at).
  unfold run, trapret. cbn [foldl flip]. rewrite (exec_popal s sp (tf_words f)) by (done || lia || (simpl; lia)). set (s1 := set_gp EDI _ _).
  rewrite (exec_pops GS s1 (sp + 32) (tf_gs f)); [|done|lia|lia|exact (F 8%nat ltac:(lia))|done]. set (s2 := set_sg GS _ _).
  rewrite (exec_pops FS s2 (sp + 32 + 4) (tf_fs f)); [|done|lia|lia| |done]; [|rewrite <- Z.add_assoc; exact (F 9%nat ltac:(lia))]. set (s3 := set_sg FS _ _).
  rewrite (exec_pops ES s3 (sp + 32 + 4 + 4) (tf_es f)); [|done|lia|lia| |done]; [|rewrite <- !Z.add_assoc; exact (F 10%nat ltac:(lia))]. set (s4 := set_sg ES _ _).
  rewrite (exec_pops DS s4 (sp + 32 + 4 + 4 + 4) (tf_ds f)); [|done|lia|lia| |done]; [|rewrite <- !Z.add_assoc; exact (F 11%nat ltac:(lia))]. set (s5 := set_sg DS _ _).
  assert (E6 : exec (ADDI 8 ESP) s5 = set_gp ESP (sp + 56) s5).
  { cbn [exec]. f_equal. change (gp s5 ESP) with (sp + 32 + 4 + 4 + 4 + 4). rewrite u32_small; lia. }
  rewrite E6. set (s6 := set_gp ESP (sp + 56) s5).
  rewrite (exec_iret_user s6 (sp + 56) (drop 14 (tf_words f))); [|done|lia|lia|exact (words_drop (ram s) sp (tf_words f) 14 W)|simpl; lia|exact Hc|done..].
  split; done.
Qed.

(** ** A trap, from the program and back *)

Lemma tvinit_gate vectors n g : 0 ≤ n < 256 → tvinit vectors !! Z.to_nat n = Some g →
  gd_cs g = Z.shiftl SEG_KCODE 3 ∧ gd_off g = u32 (vectors n) ∧ (gd_trap g = true ↔ n = T_SYSCALL) ∧ (gd_dpl g = DPL_USER ↔ n = T_SYSCALL).
Proof.
  intros Hn. unfold tvinit. cbv zeta. destruct (decide (n = T_SYSCALL)) as [->|Hne].
  - rewrite list_lookup_insert_eq by (rewrite length_fmap, length_seq; unfold T_SYSCALL; lia). intros [= <-]. done.
  - rewrite list_lookup_insert_ne by (unfold T_SYSCALL in *; lia). rewrite list_lookup_fmap, lookup_seq_lt by lia. intros [= <-].
    cbn. rewrite Z2Nat.id by lia. split_and!; done.
Qed.

(** The program [s] goes on as [s'], with [v] in eax. *)
Record goes_on (s s' : x86) (v : Z) : Prop := {
  go_gp : ∀ r, gp s' r = if reg_eqb r EAX then v else gp s r;
  go_sg : ∀ r, sg s' r = sg s r;
  go_pc : eip s' = eip s ∧ eflags s' = eflags s }.

(** What C code keeps: the stack pointer and the code segment. *)
Definition c_code (trap : x86 → x86) : Prop := ∀ s, gp (trap s) ESP = gp s ESP ∧ sg (trap s) CS = sg s CS.

Definition trap_exit (s : x86) : x86 := run (alltraps_end ++ trapret) s.

Lemma trap_exit_ok s tf f : gp s ESP = tf - 4 → 4 ≤ tf → tf + 76 ≤ 4294967296 → words (ram s) tf (tf_words f) → Z.land (sg s CS) 3 = 0 → user_frame f →
  resumed s (trap_exit s) f.
Proof.
  intros He H4 Ht W Hc Hu. unfold trap_exit. rewrite run_app.
  assert (E : run alltraps_end s = set_gp ESP tf s) by (cbn; rewrite He; f_equal; rewrite u32_small; lia).
  rewrite E. destruct (trapret_ok (set_gp ESP tf s) tf f) as [A B C D]; [done|lia|lia|done|done|done|].
  split; [exact A|exact B|exact C|exact D].
Qed.

Lemma user_frame_of s n e esp0 v : user s → user_frame (set_eax v (frame_of n e esp0 s)).
Proof. intros [Hc _ Hs _ _]. split; [done|]. repeat (apply Forall_cons; split; [apply Hs|]). constructor. Qed.

Lemma resumed_goes s s1 s2 n e esp0 v : resumed s1 s2 (set_eax v (frame_of n e esp0 s)) → goes_on s s2 v.
Proof.
  intros [(A1 & A2 & A3 & A4 & A5 & A6 & A7 & A8) (B1 & B2 & B3 & B4 & B5 & B6) C _].
  split; [intros []; done|intros []; done|done].
Qed.

(** C4: an interrupt or a system call, through the gates of [tvinit]: the frame that
    [trap] is given is struct trapframe with every register of the program, the vector and the
    error code; when [trap] returns with the frame as it was but for eax, the
    program goes on where it was, with the registers it had and that eax. *)
Theorem trap_roundtrip vectors g n err ss0 esp0 s (trap : x86 → x86) v :
  0 ≤ n < 256 → tvinit vectors !! Z.to_nat n = Some g → user s → (is_Some err ↔ has_err n = true) → Forall word (option_list err) →
  80 ≤ esp0 < 4294967296 → c_code trap →
  let s1 := trap_entry g n err ss0 esp0 s in
  let f := frame_of n (default 0 err) esp0 s in
  words (ram (trap s1)) (esp0 - 76) (tf_words (set_eax v f)) →
  words (ram s1) (esp0 - 76) (tf_words f) ∧ load32 (gp s1 ESP) (ram s1) = esp0 - 76 ∧
  goes_on s (trap_exit (trap s1)) v ∧ ram (trap_exit (trap s1)) = ram (trap s1).
Proof.
  intros Hn Hg Hu He Hew Hsp Ht s1 f W. destruct (tvinit_gate vectors n g Hn Hg) as (Gc & _).
  destruct (trap_frame_ok g n err ss0 esp0 s Hu He Hew ltac:(split; lia) Hsp) as [F [A1 A2] [B1 _] _ _].
  unfold s1, f in W |- *. set (t := trap_entry g n err ss0 esp0 s) in *. clearbody t. destruct (Ht t) as [T1 T2].
  pose proof (trap_exit_ok (trap t) (esp0 - 76) _ ltac:(by rewrite T1) ltac:(lia) ltac:(lia) W ltac:(by rewrite T2, B1, Gc) (user_frame_of s n _ esp0 v Hu)) as R.
  split; [exact F|]. split; [by rewrite A1|]. split; [by eapply resumed_goes|apply (re_ram _ _ _ R)].
Qed.

(** The call of getpid by a program, whose result is 42. *)
Definition x_user : x86 := mkx (λ r, match r with ESP => 0x2fd0 | EAX => 11 | _ => 7 end) (λ r, match r with CS => 0x1b | SS => 0x23 | _ => 0x23 end) 0x345 0x202 0x80010011 0x9000 0x10 0 (λ _, 0).
Definition trap42 (s : x86) : x86 := set_ram (store (load32 (gp s ESP) (ram s) + 28) (le_bytes 4 42) (ram s)) s.
Definition gate64 : gatedesc := mkgate 0x80105a64 (Z.shiftl SEG_KCODE 3) true DPL_USER.

Lemma trap_roundtrip_witness : goes_on x_user (trap_exit (trap42 (trap_entry gate64 64 None 0x10 0x8dfff000 x_user))) 42.
Proof.
  destruct (trap_roundtrip (λ _, 0x80105a64) gate64 64 None 0x10 0x8dfff000 x_user trap42 42) as (_ & _ & H & _); [lia| | | |constructor|lia|done| |exact H].
  - by vm_compute.
  - split; [done|intros []; unfold word; cbn; lia|intros []; cbn; lia|unfold word; cbn; lia|unfold word; cbn; lia].
  - split; [by intros [? ?]|done].
  - apply words_check. by vm_compute.
Defined.

(** ** swtch.S *)

Definition swtch : list instr :=
  [LOAD 4 ESP EAX; LOAD 8 ESP EDX;
   PUSH EBP; PUSH EBX; PUSH ESI; PUSH EDI;
   STORE ESP EAX; MOV EDX ESP;
   POP EDI; POP ESI; POP EBX; POP EBP; RET].

(** struct context in memory. *)
Definition cx_words (c : context) : list Z := [cx_edi c; cx_esi c; cx_ebx c; cx_ebp c; cx_eip c].

(** The context of a caller of [swtch] that is to return to [ret]. *)
Definition context_of (s : x86) (ret : Z) : context := mkctx (gp s EDI) (gp s ESI) (gp s EBX) (gp s EBP) ret.

Lemma exec_pop r s sp v : r ≠ ESP → gp s ESP = sp → 0 ≤ sp → sp + 4 < 4294967296 → load32 sp (ram s) = v →
  exec (POP r) s = set_gp r v (set_gp ESP (sp + 4) s).
Proof. intros Hr Hsp H0 H1 W. cbn [exec]. unfold top, drop4. by rewrite Hsp, W, u32_small by lia. Qed.

(** The registers of the context at [cx] are loaded. *)
Lemma swtch_load s cx c : gp s ESP = cx → 0 ≤ cx → cx + 20 < 4294967296 → words (ram s) cx (cx_words c) →
  run [POP EDI; POP ESI; POP EBX; POP EBP; RET] s =
    set_eip (cx_eip c) (set_gp ESP (cx + 20) (set_gp EBP (cx_ebp c) (set_gp ESP (cx + 16) (set_gp EBX (cx_ebx c) (set_gp ESP (cx + 12)
      (set_gp ESI (cx_esi c) (set_gp ESP (cx + 8) (set_gp EDI (cx_edi c) (set_gp ESP (cx + 4) s))))))))).
Proof.
  intros Hs H0 H1 W. assert (F : ∀ k, (k < 5)%nat → load32 (cx + 4 * Z.of_nat k) (ram s) = cx_words c !!! k) by (intros k Hk; by apply words_at).
  unfold run. cbn [foldl flip].
  rewrite (exec_pop EDI s cx (cx_edi c)); [|done|done|lia|lia|rewrite <- (Z.add_0_r cx); exact (F 0%nat ltac:(lia))]. set (s1 := set_gp EDI _ _).
  rewrite (exec_pop ESI s1 (cx + 4) (cx_esi c)); [|done|done|lia|lia|exact (F 1%nat ltac:(lia))]. rewrite <- (Z.add_assoc cx 4 4). set (s2 := set_gp ESI _ _).
  rewrite (exec_pop EBX s2 (cx + 8) (cx_ebx c)); [|done|done|lia|lia|exact (F 2%nat ltac:(lia))]. rewrite <- (Z.add_assoc cx 8 4). set (s3 := set_gp EBX _ _).
  rewrite (exec_pop EBP s3 (cx + 12) (cx_ebp c)); [|done|done|lia|lia|exact (F 3%nat ltac:(lia))]. rewrite <- (Z.add_assoc cx 12 4). set (s4 := set_gp EBP _ _).
  cbn [exec]. unfold top, drop4. change (gp s4 ESP) with (cx + 16). rewrite u32_small, <- Z.add_assoc by lia. f_equal. exact (F 4%nat ltac:(lia)).
Qed.

Definition swtch_out : list instr :=
  [LOAD 4 ESP EAX; LOAD 8 ESP EDX] ++ (PUSH <$> [EBP; EBX; ESI; EDI]) ++ [STORE ESP EAX; MOV EDX ESP].
Definition swtch_in : list instr := [POP EDI; POP ESI; POP EBX; POP EBP; RET].
Lemma swtch_parts : swtch = swtch_out ++ swtch_in.
Proof. reflexivity. Qed.

(** The state when the stack is switched. *)
Lemma swtch_out_eq s sp old new : gp s ESP = sp → 0 ≤ sp → sp + 12 < 4294967296 → load32 (sp + 4) (ram s) = old → load32 (sp + 8) (ram s) = new →
  let s2 := pushes [gp s EBP; gp s EBX; gp s ESI; gp s EDI] (set_gp EDX new (set_gp EAX old s)) in
  run swtch_out s = set_gp ESP new (set_ram (store old (le_bytes 4 (gp s2 ESP)) (ram s2)) s2).
Proof.
  intros Hs H0 H1 W1 W2 s2. unfold swtch_out. rewrite !run_app.
  assert (E1 : run [LOAD 4 ESP EAX; LOAD 8 ESP EDX] s = set_gp EDX new (set_gp EAX old s)).
  { unfold run. cbn [foldl flip exec]. cbn [gp set_gp reg_eqb ram]. by rewrite Hs, (u32_small (sp + 4)), W1, (u32_small (sp + 8)), W2 by lia. }
  rewrite E1, run_push by (repeat (apply Forall_cons; split; [done|]); constructor).
  change (gp (set_gp EDX new (set_gp EAX old s)) <$> [EBP; EBX; ESI; EDI]) with [gp s EBP; gp s EBX; gp s ESI; gp s EDI]. fold s2.
  assert (A : gp s2 EAX = old) by (unfold s2; by rewrite pushes_gp). assert (D : gp s2 EDX = new) by (unfold s2; by rewrite pushes_gp).
  clearbody s2. unfold run. cbn [foldl flip exec gp set_ram]. by rewrite A, D.
Qed.

(** The four registers above the return address. *)
Lemma swtch_pushed s sp old new : gp s ESP = sp → 16 ≤ sp → sp + 12 < 4294967296 → load32 (sp + 4) (ram s) = old → load32 (sp + 8) (ram s) = new →
  (∀ r, word (gp s r)) →
  ∃ s2, run swtch_out s = set_gp ESP new (set_ram (store old (le_bytes 4 (sp - 16)) (ram s2)) s2) ∧ sg s2 = sg s ∧
    words (ram s2) (sp - 16) [gp s EDI; gp s ESI; gp s EBX; gp s EBP] ∧ ∀ a, a < sp - 16 ∨ sp ≤ a → ram s2 a = ram s a.
Proof.
  intros Hs H0 H1 W1 W2 Hw. pose proof (swtch_out_eq s sp old new Hs ltac:(lia) H1 W1 W2) as E. cbv zeta in E.
  set (s0 := set_gp EDX new (set_gp EAX old s)) in *. set (L := [gp s EBP; gp s EBX; gp s ESI; gp s EDI]) in *.
  assert (P : pushed_to s0 (pushes L s0) (gp s0 ESP - 4 * Z.of_nat (length L)) L).
  { apply pushes_ok; [repeat (apply Forall_cons; split; [apply Hw|]); constructor|]. change (gp s0 ESP) with (gp s ESP). rewrite Hs. simpl. lia. }
  replace (gp s0 ESP - 4 * Z.of_nat (length L)) with (sp - 16) in P by (change (gp s0 ESP) with (gp s ESP); rewrite Hs; simpl; lia).
  destruct P as [P1 _ P3 _ P5 P6]. rewrite P1 in E. exists (pushes L s0). split; [exact E|]. split; [exact P3|]. split; [exact P5|].
  intros a Ha. apply P6. change (length L) with 4%nat. lia.
Qed.

(** What is on the old stack is a context, and its address is in [*old]. *)
Record saved (s s1 : x86) (sp old ret : Z) : Prop := {
  sa_context : words (ram s1) (sp - 16) (cx_words (context_of s ret));
  sa_old : load32 old (ram s1) = sp - 16;
  sa_ram : ∀ a, (a < sp - 16 ∨ sp ≤ a) → (a < old ∨ old + 4 ≤ a) → ram s1 a = ram s a;
  sa_sg : sg s1 = sg s }.

Lemma swtch_out_ok s sp old new ret : gp s ESP = sp → 16 ≤ sp → sp + 12 < 4294967296 → words (ram s) sp [ret; old; new] →
  (∀ r, word (gp s r)) → (old + 4 ≤ sp - 16 ∨ sp + 4 ≤ old) → gp (run swtch_out s) ESP = new ∧ saved s (run swtch_out s) sp old ret.
Proof.
  intros Hs H0 H1 W Hw Ho. apply words_cons in W as [W0 W]. apply words_cons in W as [W1 W]. apply words_cons in W as [W2 _]. rewrite <- Z.add_assoc in W2.
  destruct (swtch_pushed s sp old new Hs H0 H1 W1 W2 Hw) as (s2 & E & P3 & P5 & P6). rewrite E. split; [done|].
  split; cbn [ram set_gp set_ram]; [|apply load32_store; lia| |exact P3].
  - intros k v Hk. rewrite load32_out by (apply lookup_lt_Some in Hk; simpl in Hk; lia). destruct (decide (k = 4%nat)) as [->|Hne].
    + injection Hk as <-. rewrite <- W0. unfold load32. f_equal. replace (sp - 16 + 4 * Z.of_nat 4) with sp by lia. apply load_same. intros x Hx. apply P6. lia.
    + apply P5. rewrite <- Hk. destruct k as [|[|[|[|[|k]]]]]; done.
  - intros a Ha Ha'. rewrite store_out by (change (length (le_bytes 4 (sp - 16))) with 4%nat; lia). apply P6. lia.
Qed.

(** The code of the context [c] at [cx] goes on. *)
Record switched_to (s s' : x86) (cx : Z) (c : context) : Prop := {
  st_regs : gp s' EDI = cx_edi c ∧ gp s' ESI = cx_esi c ∧ gp s' EBX = cx_ebx c ∧ gp s' EBP = cx_ebp c;
  st_pc : eip s' = cx_eip c ∧ gp s' ESP = cx + 20;
  st_sg : sg s' = sg s }.

Lemma swtch_in_ok s cx c : gp s ESP = cx → 0 ≤ cx → cx + 20 < 4294967296 → words (ram s) cx (cx_words c) →
  switched_to s (run swtch_in s) cx c ∧ ram (run swtch_in s) = ram s.
Proof. intros H1 H2 H3 H4. unfold swtch_in. rewrite (swtch_load s cx c) by done. by split. Qed.

(** A call of [swtch(old, new)] that is to return to [ret]; the context [c] at [new] is
    not on the part of the stack that is written. *)
Record calls_swtch (s : x86) (sp old new ret : Z) (c : context) : Prop := {
  cs_esp : gp s ESP = sp ∧ 16 ≤ sp ∧ sp + 12 < 4294967296;
  cs_args : words (ram s) sp [ret; old; new];
  cs_regs : ∀ r, word (gp s r);
  cs_old : old + 4 ≤ sp - 16 ∨ sp + 4 ≤ old;
  cs_new : words (ram s) new (cx_words c) ∧ 0 ≤ new ∧ new + 20 < 4294967296;
  cs_apart : (new + 20 ≤ sp - 16 ∨ sp ≤ new) ∧ (new + 20 ≤ old ∨ old + 4 ≤ new) }.

Lemma switch_after s s1 s2 sp old new ret c : saved s s1 sp old ret → switched_to s1 s2 new c ∧ ram s2 = ram s1 →
  saved s s2 sp old ret ∧ switched_to s s2 new c.
Proof. intros [S1 S2 S3 S4] [[T1 T2 T4] T3]. split; [split; rewrite ?T3, ?T4; done|]. split; [done|done|by rewrite T4]. Qed.

Lemma swtch_run s : run swtch s = run swtch_in (run swtch_out s).
Proof. rewrite swtch_parts. apply run_app. Qed.

Lemma swtch_ok s sp old new ret c : calls_swtch s sp old new ret c →
  saved s (run swtch s) sp old ret ∧ switched_to s (run swtch s) new c.
Proof.
  intros [(H1 & H2 & H3) A R O (N1 & N2 & N3) [P1 P2]]. destruct (swtch_out_ok s sp old new ret H1 H2 H3 A R O) as [E S].
  rewrite swtch_run. apply (switch_after s (run swtch_out s)); [exact S|]. apply swtch_in_ok; [exact E|exact N2|exact N3|].
  apply (words_keep (ram s)); [|exact N1]. intros a Ha. change (length (cx_words c)) with 5%nat in Ha. apply (sa_ram _ _ _ _ _ S); lia.
Qed.

(** The two switches, for the states after them. *)
Lemma switch_back s s1 sp old new ret c s' s2 : saved s s1 sp old ret → switched_to s s1 new c →
  switched_to s' s2 (load32 old (ram s1)) (context_of s ret) →
  words (ram s1) (sp - 16) (cx_words (context_of s ret)) ∧ eip s1 = cx_eip c ∧ gp s1 ESP = new + 20 ∧
  eip s2 = ret ∧ gp s2 ESP = sp + 4 ∧ ∀ r, r ∈ [EBX; ESI; EDI; EBP] → gp s2 r = gp s r.
Proof.
  intros [S1 S2 _ _] [_ [T2 T3] _] [(U1 & U2 & U3 & U4) [V1 V2] _]. rewrite S2 in V2. cbn in *.
  split_and!; [done|done|done|done|rewrite V2; lia|]. intros r Hr. rewrite !elem_of_cons in Hr.
  destruct Hr as [->|[->|[->|[->|Hr]]]]; try done. by apply elem_of_nil in Hr.
Qed.

(** C5: the context switch: [swtch] leaves struct context with the callee-saved registers
    and the return address on the stack it leaves, its address in [*old], and goes on in
    the other context.  When later another call switches back to it,
    the first call of [swtch] returns to its caller with the registers and
    the stack it had. *)
Theorem swtch_returns s sp old new ret c s' sp' old' ret' :
  calls_swtch s sp old new ret c →
  calls_swtch s' sp' old' (load32 old (ram (run swtch s))) ret' (context_of s ret) →
  words (ram (run swtch s)) (sp - 16) (cx_words (context_of s ret)) ∧ eip (run swtch s) = cx_eip c ∧ gp (run swtch s) ESP = new + 20 ∧
  eip (run swtch s') = ret ∧ gp (run swtch s') ESP = sp + 4 ∧ ∀ r, r ∈ [EBX; ESI; EDI; EBP] → gp (run swtch s') r = gp s r.
Proof.
  intros C C'. destruct (swtch_ok s sp old new ret c C) as [S T]. destruct (swtch_ok s' sp' old' _ ret' (context_of s ret) C') as [_ T'].
  exact (switch_back s (run swtch s) sp old new ret c s' (run swtch s') S T T').
Qed.

(** A process whose stack is at 0x1000 and the scheduler, with the stack at 0x5000. *)
Definition cx_sched : context := mkctx 1 2 3 4 0x80103a00.
Definition x_proc : x86 := mkx (λ r, match r with ESP => 0x1800 | EBX => 21 | ESI => 22 | EDI => 23 | EBP => 24 | _ => 0 end) (λ _, 8) 0 0 0 0 0 0
  (store 0x1800 (concat (le_bytes 4 <$> [0x80103b00; 0x300; 0x5500])) (store 0x5500 (concat (le_bytes 4 <$> cx_words cx_sched)) (λ _, 0))).
Definition x_sched : x86 :=
  let s := run swtch x_proc in
  mkx (λ r, match r with ESP => 0x5600 | _ => 9 end) (λ _, 8) 0 0 0 0 0 0 (store 0x5600 (concat (le_bytes 4 <$> [0x80103a44; 0x308; 0x17f0])) (ram s)).

Lemma swtch_returns_witness : eip (run swtch x_proc) = 0x80103a00 ∧ eip (run swtch x_sched) = 0x80103b00 ∧ gp (run swtch x_sched) ESP = 0x1804.
Proof.
  destruct (swtch_returns x_proc 0x1800 0x300 0x5500 0x80103b00 cx_sched x_sched 0x5600 0x308 0x80103a44) as (_ & H1 & _ & H2 & H3 & _).
  - split; [by vm_compute|apply words_check; by vm_compute|intros []; unfold word; cbn; lia|lia| |lia].
    split; [apply words_check; by vm_compute|lia].
  - replace (load32 0x300 (ram (run swtch x_proc))) with 0x17f0 by by vm_compute.
    split; [by vm_compute|apply words_check; by vm_compute|intros []; unfold word; cbn; lia|lia| |lia].
    split; [apply words_check; by vm_compute|lia].
  - exact (conj H1 (conj H2 H3)).
Defined.

(** ** The first run of a process *)

(** The stack [k] in memory: the context, the address [tr] above it and the frame [f] at its top. *)
Record new_stack (m : mem) (k fk tr : Z) (f : trapframe) : Prop := {
  ns_context : words m (k + KSTACKSIZE - TRAPFRAMESZ - 4 - CONTEXTSZ) (cx_words (mkctx 0 0 0 0 fk));
  ns_return : load32 (k + KSTACKSIZE - TRAPFRAMESZ - 4) m = tr;
  ns_frame : words m (k + KSTACKSIZE - TRAPFRAMESZ) (tf_words f) }.

(** From the return of [forkret] on: [top] is the frame. *)
Lemma forkret_returns s m top tr f : gp s ESP = top - 4 → 4 ≤ top → top + 76 ≤ 4294967296 → load32 (top - 4) m = tr → words m top (tf_words f) →
  (∀ a, top - 4 ≤ a < top + 76 → ram s a = m a) → Z.land (sg s CS) 3 = 0 → user_frame f →
  eip (run [RET] s) = tr ∧ resumed s (run trapret (run [RET] s)) f.
Proof.
  intros He H4 Ht Hr Hf M Hc Hu. assert (Et : load32 (top - 4) (ram s) = tr) by (rewrite <- Hr; unfold load32; f_equal; apply load_same; intros a H; apply M; lia).
  assert (E2 : run [RET] s = set_eip tr (set_gp ESP top s)).
  { unfold run. cbn [foldl flip exec]. unfold X86.top, drop4. rewrite He, Et, u32_small by lia. by replace (top - 4 + 4) with top by lia. }
  rewrite E2. split; [done|]. destruct (trapret_ok (set_eip tr (set_gp ESP top s)) top f) as [A B D E]; [done|lia|lia| |done|done|].
  - apply (words_keep m); [|exact Hf]. intros a H. apply M. change (length (tf_words f)) with 19%nat in H. lia.
  - split; [exact A|exact B|exact D|exact E].
Qed.

Lemma new_process s sp old ret k fk tr f (forkret : x86 → x86) :
  calls_swtch s sp old (k + KSTACKSIZE - TRAPFRAMESZ - 4 - CONTEXTSZ) ret (mkctx 0 0 0 0 fk) → new_stack (ram s) k fk tr f →
  0 ≤ k → k + KSTACKSIZE < 4294967296 →
  (k + KSTACKSIZE ≤ sp - 16 ∨ sp ≤ k) → (k + KSTACKSIZE ≤ old ∨ old + 4 ≤ k) → Z.land (sg s CS) 3 = 0 → user_frame f →
  c_code forkret → (∀ s1 a, k ≤ a < k + KSTACKSIZE → gp s1 ESP ≤ a → ram (forkret s1) a = ram s1 a) →
  let s1 := forkret (run swtch s) in
  eip (run swtch s) = fk ∧ eip (run [RET] s1) = tr ∧ resumed s1 (run trapret (run [RET] s1)) f.
Proof.
  intros C [N1 N2 N3] Hk0 Hk1 Ha Ho Hc Hu Fc Fm. destruct (swtch_ok s sp old _ ret _ C) as [[_ _ S3 S4] [_ [T1 T2] _]].
  destruct (Fc (run swtch s)) as [F1 F2]. split; [exact T1|].
  unfold TRAPFRAMESZ, CONTEXTSZ, KSTACKSIZE in *. apply (forkret_returns _ (ram s) (k + 4096 - 76)); [rewrite F1, T2; lia|lia|lia|exact N2|exact N3| |rewrite F2, S4; exact Hc|exact Hu].
  intros a H. rewrite Fm; [apply S3; lia|lia|]. rewrite T2. lia.
Qed.

(** The first [n] bytes of the page [k], which holds [d], as the processor sees them. *)
Definition page_seen (m : mem) (k n : Z) (d : list Z) : Prop := ∀ i, 0 ≤ i < n → d !! Z.to_nat i = Some (m (k + i)).

Lemma page_load m k n d i : page_seen m k n d → 0 ≤ i → 4 * i + 4 ≤ n → load32 (k + 4 * i) m = get32 d (Z.to_nat (4 * i)).
Proof.
  intros P Hi Hn. unfold load32, get32, load, slice. f_equal. apply list_eq. intros j. rewrite list_lookup_fmap.
  destruct (decide (j < 4)%nat) as [Hj|Hj].
  - rewrite lookup_seq_lt, lookup_take_lt, lookup_drop by lia. simpl.
    replace (Z.to_nat (4 * i) + j)%nat with (Z.to_nat (4 * i + Z.of_nat j)) by lia. rewrite (P (4 * i + Z.of_nat j)) by lia. do 2 f_equal. lia.
  - rewrite lookup_seq_ge by lia. simpl. symmetry. apply lookup_take_ge. lia.
Qed.

(** The words that [allocproc] writes are the context and the return address of [new_stack]. *)
Lemma top_words m (pgs : gmap Z (list Z)) k d tr fk : pgs !! k = Some d → stack_top pgs k tr fk → word fk → word tr →
  page_seen m k (KSTACKSIZE - TRAPFRAMESZ) d →
  words m (k + KSTACKSIZE - TRAPFRAMESZ - 4 - CONTEXTSZ) (cx_words (mkctx 0 0 0 0 fk)) ∧ load32 (k + KSTACKSIZE - TRAPFRAMESZ - 4) m = tr.
Proof.
  intros Hd [Hz He Hr] Hfk Htr P. unfold KSTACKSIZE, TRAPFRAMESZ, CONTEXTSZ, word in *.
  assert (W : ∀ i, 0 ≤ i ≤ 1004 → load32 (k + 4 * i) m = pde pgs k i).
  { intros i Hi. rewrite (page_load m k _ d i P) by lia. unfold pde. by rewrite Hd. }
  rewrite u32_small in He, Hr by lia. split.
  - intros j v Hj. replace (k + 4096 - 76 - 4 - 20 + 4 * Z.of_nat j) with (k + 4 * (999 + Z.of_nat j)) by lia.
    pose proof (lookup_lt_Some _ _ _ Hj) as Hl. change (length (cx_words (mkctx 0 0 0 0 fk))) with 5%nat in Hl. rewrite W by lia.
    destruct (decide (j = 4)%nat) as [->|]; [by injection Hj as <-|]. rewrite Hz by lia.
    destruct j as [|[|[|[|j]]]]; [by injection Hj as <-..|lia].
  - replace (k + 4096 - 76 - 4) with (k + 4 * 1004) by lia. by rewrite W by lia.
Qed.

(** The scheduler calls [swtch] for the first time with the context of a new process, whose stack is the
    page [k] with the contents [d] and has the trap frame [f] at its top. *)
Record first_switch (s : x86) (sp old ret k : Z) (d : list Z) (f : trapframe) : Prop := {
  fs_esp : gp s ESP = sp ∧ 16 ≤ sp ∧ sp + 12 < 4294967296;
  fs_args : words (ram s) sp [ret; old; k + KSTACKSIZE - TRAPFRAMESZ - 4 - CONTEXTSZ];
  fs_regs : ∀ r, word (gp s r);
  fs_old : old + 4 ≤ sp - 16 ∨ sp + 4 ≤ old;
  fs_page : page_seen (ram s) k (KSTACKSIZE - TRAPFRAMESZ) d;
  fs_frame : words (ram s) (k + KSTACKSIZE - TRAPFRAMESZ) (tf_words f);
  fs_apart : (k + KSTACKSIZE ≤ sp - 16 ∨ sp ≤ k) ∧ (k + KSTACKSIZE ≤ old ∨ old + 4 ≤ k);
  fs_ring : Z.land (sg s CS) 3 = 0 ∧ user_frame f }.

(** [forkret] is compiled C code: it keeps what is on the stack above its return address. *)
Definition keeps_stack (k : Z) (code : x86 → x86) : Prop :=
  c_code code ∧ ∀ s a, k ≤ a < k + KSTACKSIZE → gp s ESP ≤ a → ram (code s) a = ram s a.

(** C20: the first run of a process.  [allocproc], with a free slot and a free page,
    makes that page the kernel stack of the new process.  When the scheduler then calls
    [swtch] with the context on that stack, whose bytes below the trap frame are those that
    [allocproc] left there, the process starts at the address of [forkret]; when that
    returns, the next instruction is the first of [trapret], which enters the program
    in user mode with the registers of the trap frame. *)
Theorem process_starts {T : Type} cpu_id (st0 : pstate (T := T)) c r (fl : list Z) p fk tr :
  ready cpu_id st0 c → length (ps_proc st0) = Z.to_nat NPROC → find_unused (ps_proc st0) 0 = Some p →
  kinv (fd_mem (ps_fd st0)) (r :: fl) → r mod 4096 = 0 → r + KSTACKSIZE < 4294967296 → word fk → word tr →
  ∃ st1 x d, allocproc cpu_id fk tr st0 = Ok (Some p) st1 ∧ ps_proc st1 !! p = Some x ∧ p_kstack x = r ∧
    pages (fd_mem (ps_fd st1)) !! r = Some d ∧ length d = Z.to_nat KSTACKSIZE ∧
    ∀ s sp old ret f forkret, first_switch s sp old ret (p_kstack x) d f → keeps_stack (p_kstack x) forkret →
      let s1 := forkret (run swtch s) in
      eip (run swtch s) = fk ∧ eip (run [RET] s1) = tr ∧ resumed s1 (run trapret (run [RET] s1)) f.
Proof.
  intros R Hlen Hf HI Hal Hr Hfk Htr. destruct (find_unused_Some _ _ _ Hf) as (_ & x0 & Hx0 & _). rewrite Nat.sub_0_r in Hx0.
  destruct (allocproc_runs cpu_id fk tr st0 c r fl p x0 R Hlen Hf Hx0 HI Hal) as (m & E & O & W).
  destruct (po_page _ _ _ _ O) as (_ & d & Hd & Hld). assert (Hpos : 0 ≤ r) by (destruct HI as [_ (_ & ? & _) _]; lia).
  eexists _, (embryo fk (ps_nextpid st0) r x0), d. split; [exact E|]. split; [apply list_lookup_insert_eq; by eapply lookup_lt_Some|].
  split; [done|]. split; [done|]. split; [exact Hld|]. intros s sp old ret f forkret [F1 F2 F3 F4 F5 F6 [F7 F8] [F9 F10]] [Fc Fm].
  change (p_kstack _) with r in *. destruct (top_words (ram s) (pages m) r d tr fk Hd W Hfk Htr F5) as [N1 N2].
  apply (new_process s sp old ret r fk tr f forkret); try done.
  split; [done|done|done|done| |]; unfold KSTACKSIZE, TRAPFRAMESZ, CONTEXTSZ in *; [split; [done|lia]|lia].
Qed.

(** A process that enters its program at 0, as the first one does; its stack is the page of [d]. *)
Definition tf_new : trapframe := mktf 0 0 0 0 0 0 0 0 0 0 0x23 0x23 0 0 0 0x1b 0x202 0x1000 0x23.
Definition x_new (d : list Z) : x86 := mkx (λ r, match r with ESP => 0x5600 | _ => 9 end) (λ _, 8) 0 0 0 0 0 0
  (store 0x5600 (concat (le_bytes 4 <$> [0x80103a44; 0x308; page1 + 0xf9c]))
    (store (page1 + 0xfb4) (concat (le_bytes 4 <$> tf_words tf_new)) (λ a, default 0 (d !! Z.to_nat (a - page1))))).

Lemma x_new_switch d : length d = Z.to_nat KSTACKSIZE → first_switch (x_new d) 0x5600 0x308 0x80103a44 page1 d tf_new.
Proof.
  intros Hl. unfold KSTACKSIZE in Hl. split.
  - by vm_compute.
  - apply words_check. by vm_compute.
  - intros []; unfold word; cbn; lia.
  - lia.
  - intros i Hi. unfold KSTACKSIZE, TRAPFRAMESZ in Hi. unfold x_new. cbn [ram].
    rewrite !store_out by (unfold page1; cbn; lia). replace (page1 + i - page1) with i by lia.
    destruct (lookup_lt_is_Some_2 d (Z.to_nat i)) as [v Hv]; [lia|]. by rewrite Hv.
  - apply words_check. by vm_compute.
  - unfold KSTACKSIZE, page1. cbn. lia.
  - split; [done|]. split; [done|]. repeat (apply Forall_cons; split; [cbn; lia|]). constructor.
Qed.

Lemma process_starts_witness : ∃ st1 x d, allocproc 0 0x80103b80 0x80105a70 (sys64 None) = Ok (Some 2%nat) st1 ∧
  ps_proc st1 !! 2%nat = Some x ∧ p_kstack x = page1 ∧
  eip (run swtch (x_new d)) = 0x80103b80 ∧ eip (run [RET] (run swtch (x_new d))) = 0x80105a70 ∧
  eip (run trapret (run [RET] (run swtch (x_new d)))) = 0.
Proof.
  destruct (process_starts 0 (sys64 None) cpu_on page1 [] 2 0x80103b80 0x80105a70 (sys64_ready None))
    as (st1 & x & d & E & Hx & Hk & _ & Hd & H).
  - reflexivity.
  - reflexivity.
  - apply (pw_inv _ _ _ _ vm3_wf).
  - reflexivity.
  - by vm_compute.
  - by vm_compute.
  - by vm_compute.
  - exists st1, x, d. split; [exact E|]. split; [exact Hx|]. split; [exact Hk|].
    destruct (H (x_new d) 0x5600 0x308 0x80103a44 tf_new (λ s, s)) as (H1 & H2 & [_ _ [H3 _] _]).
    + rewrite Hk. apply x_new_switch. exact Hd.
    + split; [intros ?; split; reflexivity|reflexivity].
    + split; [exact H1|]. split; [exact H2|exact H3].
Defined.

(** ** usys.S *)

Definition SYS_exit : Z := 2.
Definition SYS_exec : Z := 7.

(** The stub of system call [n], up to its [int] and after it. *)
Definition stub (n : Z) : list instr := [MOVI n EAX].
Definition stub_end : list instr := [RET].

Lemma stub_user n nxt s : user s → word n → word nxt → user (set_eip nxt (run (stub n) s)).
Proof.
  intros [U1 U2 U3 U4 U5] Hn Hx. split; [done| |done|done|done]. intros r. cbn. destruct (reg_eqb r EAX); auto.
Qed.

Lemma stub_end_ok s s0 s3 v ret : goes_on s0 s3 v → (∀ r, r ≠ EAX → gp s0 r = gp s r) → eflags s0 = eflags s → 0 ≤ gp s ESP → gp s ESP + 4 < 4294967296 →
  load32 (gp s ESP) (ram s3) = ret →
  eip (run stub_end s3) = ret ∧ gp (run stub_end s3) EAX = v ∧ gp (run stub_end s3) ESP = gp s ESP + 4 ∧
  (∀ r, r ≠ EAX → r ≠ ESP → gp (run stub_end s3) r = gp s r) ∧ (∀ r, sg (run stub_end s3) r = sg s0 r) ∧ eflags (run stub_end s3) = eflags s.
Proof.
  intros [G1 G2 [G3 G4]] H0 He Hs0 Hs Hr. assert (Es : gp s3 ESP = gp s ESP) by (rewrite G1; by apply H0).
  assert (E : run stub_end s3 = set_eip ret (set_gp ESP (gp s ESP + 4) s3)).
  { unfold run, stub_end. cbn [foldl flip exec]. unfold top, drop4. by rewrite Es, Hr, u32_small by lia. }
  rewrite E. split_and!; [done|exact (G1 EAX)|done| |exact G2|by rewrite <- He, <- G4].
  intros r H1 H2. rewrite <- (H0 r) by done. destruct r; try (by destruct H1); try (by destruct H2); exact (G1 _).
Qed.

(** A system call as the program sees it: the kernel finds the number in eax and the
    arguments above the return address, and the stub of usys.S returns the result of the
    kernel to its caller with every other register as it was. *)
Lemma stub_returns vectors g n nxt ss0 esp0 s s0 t (trap : x86 → x86) v ret :
  tvinit vectors !! Z.to_nat T_SYSCALL = Some g → user s → word n → word nxt → 80 ≤ esp0 < 4294967296 → gp s ESP + 4 < 4294967296 → c_code trap →
  s0 = set_eip nxt (run (stub n) s) → t = trap_entry g T_SYSCALL None ss0 esp0 s0 →
  words (ram (trap t)) (esp0 - 76) (tf_words (set_eax v (frame_of T_SYSCALL 0 esp0 s0))) → load32 (gp s ESP) (ram (trap t)) = ret →
  words (ram t) (esp0 - 76) (tf_words (frame_of T_SYSCALL 0 esp0 s0)) ∧ tf_eax (frame_of T_SYSCALL 0 esp0 s0) = n ∧ tf_esp (frame_of T_SYSCALL 0 esp0 s0) = gp s ESP ∧
  let s2 := run stub_end (trap_exit (trap t)) in
  eip s2 = ret ∧ gp s2 EAX = v ∧ gp s2 ESP = gp s ESP + 4 ∧ (∀ r, r ≠ EAX → r ≠ ESP → gp s2 r = gp s r) ∧ (∀ r, sg s2 r = sg s r) ∧ eflags s2 = eflags s.
Proof.
  intros Hg Us Hn Hx Hsp Hs Hc E0 Et W Hr. pose proof (stub_user n nxt s Us Hn Hx) as Hu. rewrite <- E0 in Hu.
  assert (He : is_Some (@None Z) ↔ has_err T_SYSCALL = true) by (split; [by intros [? ?]|done]).
  destruct (tvinit_gate vectors T_SYSCALL g ltac:(unfold T_SYSCALL; lia) Hg) as (Gc & _).
  destruct (trap_frame_ok g T_SYSCALL None ss0 esp0 s0 Hu He ltac:(constructor) ltac:(unfold word, T_SYSCALL; lia) Hsp) as [F [A1 _] [B1 _] _ _].
  rewrite <- Et in F, A1, B1. destruct (Hc t) as [T1 T2].
  pose proof (trap_exit_ok (trap t) (esp0 - 76) _ ltac:(by rewrite T1) ltac:(lia) ltac:(lia) W ltac:(by rewrite T2, B1, Gc) (user_frame_of s0 _ _ esp0 v Hu)) as R.
  split; [exact F|]. split; [by rewrite E0|]. split; [by rewrite E0|]. cbv zeta.
  replace (sg s) with (sg s0) by (by rewrite E0).
  apply (stub_end_ok s s0); [by eapply resumed_goes| |by rewrite E0|apply Us|done|by rewrite (re_ram _ _ _ R)].
  intros r Hne. rewrite E0. destruct r; done || by destruct Hne.
Qed.

(** ** initcode.S *)

Definition initcode_start (argv init : Z) : list instr := [PUSHI argv; PUSHI init; PUSHI 0; MOVI SYS_exec EAX].
Definition initcode_exit : list instr := [MOVI SYS_exit EAX].

(** The first program calls exec(init, argv): what [argint] fetches is the two addresses. *)
Lemma initcode_exec argv init s sp : gp s ESP = sp → 12 ≤ sp < 4294967296 → word argv → word init →
  let s' := run (initcode_start argv init) s in
  gp s' EAX = SYS_exec ∧ gp s' ESP = sp - 12 ∧ load32 (gp s' ESP + 4) (ram s') = init ∧ load32 (gp s' ESP + 8) (ram s') = argv ∧
  ∀ a, a < sp - 12 ∨ sp ≤ a → ram s' a = ram s a.
Proof.
  intros Hs H0 Ha Hi. cbv zeta. assert (E : run (initcode_start argv init) s = set_gp EAX SYS_exec (pushes [argv; init; 0] s)) by reflexivity.
  rewrite E. destruct (pushes_ok [argv; init; 0] s) as [P1 _ _ _ P5 P6]; [repeat (apply Forall_cons; split; [done|]); constructor|rewrite Hs; simpl; lia|].
  rewrite Hs in *. change (4 * Z.of_nat (length [argv; init; 0])) with 12 in *. set (s1 := pushes _ s) in *. clearbody s1.
  assert (E1 : gp (set_gp EAX SYS_exec s1) ESP = sp - 12) by exact P1. rewrite E1. cbn [ram set_gp].
  split_and!; [done|done|exact (P5 1%nat init eq_refl)|exact (P5 2%nat argv eq_refl)|]. intros a H. apply P6. lia.
Qed.
