(* ===== verification/AsmBoot.v ===== *)
(** * The assembly that starts a processor: bootasm.S, entry.S, entryother.S

    The code up to the call of [bootmain], [main] and [mpenter], as lists of instructions
    of X86.v.  The addresses of the labels are parameters, and so is the
    return address of a call.  The keyboard controller, through which bootasm.S opens the
    address line A20, is busy for some reads of its status after a command.

    [bootasm_correct]: the boot sector reaches [bootmain] in protected mode, with the
    address line open, no interrupts, and segments that are the whole of memory.
    [entry_correct]: the kernel reaches [main] with paging, on its stack.
    [entryother_correct]: another processor reaches [mpenter] with what [startothers] left. *)

From S2P Require Import Prelude Params Phys Sleeplock Spinlock BlockDev Tx Fs Kalloc Vm File Proc Seg Start X86.

Definition CR0_PE : Z := 0x1.
Definition CR0_WP : Z := 0x10000.
Definition CR0_PG : Z := 0x80000000.
Definition CR4_PSE : Z := 0x10.

(** ** asm.h and the table of segments *)

Definition SEG_NULLASM : list Z := le_bytes 2 0 ++ le_bytes 2 0 ++ [0; 0; 0; 0].
Definition SEG_ASM (type base lim : Z) : list Z :=
  le_bytes 2 (Z.land (Z.shiftr lim 12) 0xffff) ++ le_bytes 2 (Z.land base 0xffff) ++
  [Z.land (Z.shiftr base 16) 0xff; Z.lor 0x90 type; Z.lor 0xC0 (Z.land (Z.shiftr lim 28) 0xf); Z.land (Z.shiftr base 24) 0xff].

Definition boot_gdt : list Z := SEG_NULLASM ++ SEG_ASM (Z.lor STA_X STA_R) 0 0xffffffff ++ SEG_ASM STA_W 0 0xffffffff.
Definition gdtdesc (gdt : Z) : list Z := le_bytes 2 (Z.of_nat (length boot_gdt) - 1) ++ le_bytes 4 gdt.

(** ** The keyboard controller *)

Record kbc : Type := mkkbc {
  k_busy : nat;           (* how many more reads of the status see it busy *)
  k_cmd : option Z;       (* the command that waits for its byte *)
  k_port : Z }.           (* the output port; bit 1 is the line A20 *)
Record bsp : Type := mkbsp { p_cpu : x86; p_kbc : kbc }.
Definition p_x (f : x86 → x86) (s : bsp) : bsp := mkbsp (f (p_cpu s)) (p_kbc s).
Definition p_k (k : kbc) (s : bsp) : bsp := mkbsp (p_cpu s) k.
Definition a20 (s : bsp) : bool := Z.testbit (k_port (p_kbc s)) 1.

Section boot.
Context (slow fuel : nat).
Notation M := (Prelude.M bsp).

(** A byte that is sent while the controller is busy is lost. *)
Definition kbc_out (port v : Z) (k : kbc) : kbc :=
  if negb (k_busy k =? 0)%nat then k else
  if port =? 0x64 then mkkbc slow (Some v) (k_port k)
  else mkkbc slow None (if decide (k_cmd k = Some 0xd1) then v else k_port k).

Definition set_al (v : Z) (s : x86) : x86 := set_gp EAX (Z.lor (Z.land (gp s EAX) 0xffffff00) v) s.
Definition al (s : x86) : Z := u8 (gp s EAX).

Definition inb_64 : M unit := modify (λ s,
  match k_busy (p_kbc s) with
  | O => p_x (set_al 0) s
  | S n => p_x (set_al 2) (p_k (mkkbc n (k_cmd (p_kbc s)) (k_port (p_kbc s))) s)
  end).
Definition outb_al (port : Z) : M unit := modify (λ s, p_k (kbc_out port (al (p_cpu s)) (p_kbc s)) s).

(** seta20.1 and seta20.2: the loop of inb, testb and jnz. *)
Fixpoint kbc_wait (n : nat) : M unit :=
  match n with
  | O => no_fuel
  | S n' =>
      inb_64;;
      s ← get;
      if Z.land (al (p_cpu s)) 0x2 =? 0 then mret tt else kbc_wait n'
  end.

Definition seta20 : M unit :=
  kbc_wait fuel;;
  modify (p_x (set_al 0xd1));;
  outb_al 0x64;;
  kbc_wait fuel;;
  modify (p_x (set_al 0xdf));;
  outb_al 0x60.

(** ** bootasm.S *)

Context (start start32 gdtdesc_addr bootmain nxt : Z).

Definition real_mode : list instr := [CLI; XORWSELF EAX; MOVS EAX DS; MOVS EAX ES; MOVS EAX SS].
Definition to_protected (code : Z) : list instr := [LGDT gdtdesc_addr; RDCR 0 EAX; ORI CR0_PE EAX; WRCR EAX 0; LJMP (Z.shiftl SEG_KCODE 3) code].
Definition data_segments : list instr := [MOVW (Z.shiftl SEG_KDATA 3) EAX; MOVS EAX DS; MOVS EAX ES; MOVS EAX SS].
Definition start32_code : list instr := data_segments ++ [XORSELF EAX; MOVS EAX FS; MOVS EAX GS; MOVI start ESP; CALL bootmain nxt].

Definition bootasm : M unit :=
  modify (p_x (run real_mode));;
  seta20;;
  modify (p_x (run (to_protected start32)));;
  modify (p_x (run start32_code)).
End boot.

(** ** entry.S *)

Definition entry_code (entrypgdir_addr stack main : Z) : list instr :=
  [RDCR 4 EAX; ORI CR4_PSE EAX; WRCR EAX 4;
   MOVI (V2P entrypgdir_addr) EAX; WRCR EAX 3;
   RDCR 0 EAX; ORI (Z.lor CR0_PG CR0_WP) EAX; WRCR EAX 0;
   MOVI (u32 (stack + KSTACKSIZE)) ESP;
   MOVI main EAX; JMPR EAX].

(** ** entryother.S *)

Definition entryother_start (gdtdesc_addr start32 : Z) : list instr := real_mode ++ to_protected gdtdesc_addr start32.
Definition entryother_code (start nxt : Z) : list instr :=
  data_segments ++ [MOVW 0 EAX; MOVS EAX FS; MOVS EAX GS;
   RDCR 4 EAX; ORI CR4_PSE EAX; WRCR EAX 4;
   LOADA (start - 12) EAX; WRCR EAX 3;
   RDCR 0 EAX; ORI (Z.lor (Z.lor CR0_PE CR0_PG) CR0_WP) EAX; WRCR EAX 0;
   LOADA (start - 4) ESP; CALLM (start - 8) nxt].

(** ** The segments *)

(** What the processor reads of a selector, from the operand of [lgdt]. *)
Definition seg_linear (m : mem) (gdtr sel off : Z) : option Z :=
  if load16 gdtr m <? sel + 7 then None else
  let x := le_val (load (load32 (gdtr + 2) m + sel) 8 m) in
  if seg_present x && (off <=? seg_limit x) then Some (u32 (seg_base x + off)) else None.

Lemma lor_nibble h t : h ∈ [0x90; 0xC0] → 0 ≤ t < 16 → Z.lor h t = h + t.
Proof.
  intros Hh Ht. assert (H : forallb (λ h, forallb (λ t, Z.lor h t =? h + t) (seqZ 0 16)) [0x90; 0xC0] = true) by by vm_compute.
  rewrite forallb_forall in H. specialize (H h ltac:(by apply list_elem_of_In)). rewrite forallb_forall in H.
  apply Z.eqb_eq, H, list_elem_of_In, elem_of_seqZ. lia.
Qed.

(** The macro of the assembler makes the same descriptor as the one of mmu.h. *)
Lemma SEG_ASM_SEG type base lim : 0 ≤ type < 16 → 0 ≤ base < 4294967296 → 0 ≤ lim < 4294967296 →
  le_val (SEG_ASM type base lim) = seg64 (SEG type base lim 0).
Proof.
  intros Ht Hb Hl. unfold SEG_ASM. change 0xffff with (Z.ones 16). change 0xff with (Z.ones 8). change 0xf with (Z.ones 4).
  rewrite !Z.land_ones, !Z.shiftr_div_pow2 by lia. rewrite lor_nibble by (done || set_solver).
  change (2 ^ 12) with 4096. change (2 ^ 16) with 65536. change (2 ^ 28) with 268435456. change (2 ^ 24) with 16777216. change (2 ^ 4) with 16. change (2 ^ 8) with 256.
  rewrite (lor_nibble 0xC0) by (set_solver || lia). unfold seg64, seg_fields, SEG.
  cbn [lim_15_0 base_15_0 base_23_16 sd_type sd_s sd_dpl sd_p lim_19_16 sd_avl sd_rsv1 sd_db sd_g base_31_24 pack le_val le_bytes app].
  change 0xffff with (Z.ones 16). change 0xff with (Z.ones 8). rewrite !Z.land_ones, !Z.shiftr_div_pow2 by lia.
  change (2 ^ 12) with 4096. change (2 ^ 16) with 65536. change (2 ^ 28) with 268435456. change (2 ^ 24) with 16777216. change (2 ^ 4) with 16. change (2 ^ 8) with 256. change (2 ^ 1) with 2. change (2 ^ 2) with 4.
  lia.
Qed.

(** The table of the boot sector is in memory, at [gdt], and its description at [d]. *)
Record gdt_at (m : mem) (d gdt : Z) : Prop := {
  ga_desc : load d 6 m = gdtdesc gdt;
  ga_table : load gdt 24 m = boot_gdt }.

Lemma flat_segment type off : 0 ≤ type < 16 → 0 ≤ off < 4294967296 →
  let x := le_val (SEG_ASM type 0 0xffffffff) in seg_present x && (off <=? seg_limit x) = true ∧ u32 (seg_base x + off) = off.
Proof.
  intros Ht Ho. cbv zeta. rewrite SEG_ASM_SEG by lia. destruct (SEG_decode type 0 0xffffffff 0) as [D1 D2 _ _ _ D6]; [lia..|].
  rewrite D1, D2, D6. split; [apply Z.leb_le; lia|]. rewrite u32_small; lia.
Qed.

(** An address is the same in the code and in the data segment. *)
Lemma boot_flat m d gdt sel off : gdt_at m d gdt → 0 ≤ gdt < 4294967296 → sel ∈ [SEG_KCODE; SEG_KDATA] → 0 ≤ off < 4294967296 →
  seg_linear m d (Z.shiftl sel 3) off = Some off.
Proof.
  intros [D T] Hg Hs Ho. rewrite (load_app d 2 4) in D. apply app_inj_1 in D as [D1 D2]; [|by unfold load; rewrite length_fmap, length_seq].
  change (load gdt 24 m) with (load gdt (8 + (8 + 8)) m) in T. rewrite !load_app in T.
  apply app_inj_1 in T as [_ T]; [|done]. apply app_inj_1 in T as [T1 T2]; [|done].
  unfold seg_linear, load16, load32. rewrite D1. change (d + Z.of_nat 2) with (d + 2) in D2. rewrite D2, (le_val_bytes 4 gdt). change (256 ^ Z.of_nat 4) with 4294967296. rewrite Z.mod_small by done.
  apply elem_of_cons in Hs as [->|Hs%list_elem_of_singleton]; [|subst sel].
  - change (Z.shiftl SEG_KCODE 3) with 8. change (le_val _ <? 8 + 7) with false. cbv iota. change (gdt + Z.of_nat 8) with (gdt + 8) in T1. rewrite T1.
    destruct (flat_segment (Z.lor STA_X STA_R) off) as [F1 F2]; [by vm_compute|done|]. by rewrite F1, F2.
  - change (Z.shiftl SEG_KDATA 3) with 16. change (le_val _ <? 16 + 7) with false. cbv iota. replace (gdt + Z.of_nat 8 + Z.of_nat 8) with (gdt + 16) in T2 by lia. rewrite T2.
    destruct (flat_segment STA_W off) as [F1 F2]; [by vm_compute|done|]. by rewrite F1, F2.
Qed.

(** ** The address line A20 *)

(** Only eax has changed. *)
Record but_eax (s s' : x86) : Prop := {
  be_gp : ∀ r, r ≠ EAX → gp s' r = gp s r;
  be_sg : sg s' = sg s;
  be_flags : eflags s' = eflags s;
  be_crs : cr0 s' = cr0 s ∧ cr3 s' = cr3 s ∧ cr4 s' = cr4 s;
  be_ram : ram s' = ram s }.

Lemma but_eax_trans s1 s2 s3 : but_eax s1 s2 → but_eax s2 s3 → but_eax s1 s3.
Proof. intros [] []. split; try intuition congruence. intros r Hr. rewrite be_gp1, be_gp0; done. Qed.
Lemma set_al_eax v s : but_eax s (set_al v s).
Proof. split; try done. intros r Hr. destruct r; done || by destruct Hr. Qed.
Lemma al_set v s : 0 ≤ v < 256 → al (set_al v s) = v.
Proof. intros Hv. unfold al, set_al. cbn [gp set_gp reg_eqb]. by apply u8_low. Qed.

(** The loop ends when the controller is no longer busy. *)
Lemma kbc_wait_ok n : ∀ s, (k_busy (p_kbc s) < n)%nat →
  ∃ s', kbc_wait n s = Ok tt s' ∧ but_eax (p_cpu s) (p_cpu s') ∧ p_kbc s' = mkkbc 0 (k_cmd (p_kbc s)) (k_port (p_kbc s)).
Proof.
  induction n as [|n IH]; intros s Hb; [lia|]. cbn [kbc_wait]. unfold inb_64. rewrite bind_modify, (bind_ok _ _ _ _ _ (eq_refl : get _ = Ok _ _)).
  destruct s as [c [[|b] cmd po]]; cbn [p_kbc k_busy k_cmd k_port p_x p_k p_cpu] in *; rewrite al_set by lia.
  - eexists. split; [reflexivity|]. split; [apply set_al_eax|done].
  - change (Z.land 2 0x2 =? 0) with false. cbv iota. destruct (IH (mkbsp (set_al 2 c) (mkkbc b cmd po))) as (s' & E & K & P); [cbn; lia|].
    exists s'. split; [exact E|]. split; [|exact P]. eapply but_eax_trans; [apply set_al_eax|exact K].
Qed.

Lemma seta20_ok slow fuel s : (slow < fuel)%nat → (k_busy (p_kbc s) < fuel)%nat →
  ∃ s', seta20 slow fuel s = Ok tt s' ∧ but_eax (p_cpu s) (p_cpu s') ∧ a20 s' = true.
Proof.
  intros Hs Hb. unfold seta20, outb_al. destruct (kbc_wait_ok fuel s Hb) as (s1 & E1 & K1 & P1). mstep E1. rewrite !bind_modify.
  set (s2 := p_k _ _). assert (B2 : (k_busy (p_kbc s2) < fuel)%nat) by (unfold s2; cbn [p_kbc p_k p_x]; by rewrite P1).
  destruct (kbc_wait_ok fuel s2 B2) as (s3 & E3 & K3 & P3). mstep E3. rewrite bind_modify.
  eexists. split; [reflexivity|]. split.
  - cbn [p_cpu p_k p_x]. eapply but_eax_trans; [|apply set_al_eax]. eapply but_eax_trans; [exact K1|]. eapply but_eax_trans; [|exact K3]. apply set_al_eax.
  - unfold a20. cbn [p_kbc p_cpu p_k p_x]. rewrite P3, al_set by lia. unfold s2. cbn [p_kbc p_cpu p_k p_x]. rewrite P1, al_set by lia. reflexivity.
Qed.

(** ** bootasm.S *)

(** Protected mode: the kernel's segments, no interrupts. *)
Record in_protected (s : x86) (d : Z) : Prop := {
  ip_segs : sg s CS = Z.shiftl SEG_KCODE 3 ∧ (∀ r, r ∈ [DS; ES; SS] → sg s r = Z.shiftl SEG_KDATA 3) ∧ (∀ r, r ∈ [FS; GS] → sg s r = 0);
  ip_mode : Z.testbit (cr0 s) 0 = true;
  ip_intr : Z.testbit (eflags s) 9 = false;
  ip_gdtr : gdtr s = d }.

Lemma eflags_cli v : Z.testbit (Z.land v (Z.lnot 0x200)) 9 = false.
Proof. rewrite Z.land_spec. apply andb_false_r. Qed.
Lemma lor_bit v k b : 0 ≤ b → Z.testbit k b = true → Z.testbit (Z.lor v k) b = true.
Proof. intros Hb Hk. rewrite Z.lor_spec, Hk. apply orb_true_r. Qed.

(** C21: the boot sector: from real mode, with the keyboard controller busy for any bounded
    time, bootasm.S opens the address line A20 and calls [bootmain] in protected mode, without
    interrupts, on a stack that grows down from the code, in segments where each
    address is itself. *)
Theorem bootasm_correct slow fuel start start32 d bootmain nxt gdt s :
  (slow < fuel)%nat → (k_busy (p_kbc s) < fuel)%nat → 4 ≤ start < 4294967296 → 0 ≤ gdt < 4294967296 →
  start ≤ d → start ≤ gdt → gdt_at (ram (p_cpu s)) d gdt →
  ∃ s', bootasm slow fuel start start32 d bootmain nxt s = Ok tt s' ∧ a20 s' = true ∧ in_protected (p_cpu s') d ∧
    eip (p_cpu s') = bootmain ∧ gp (p_cpu s') ESP = start - 4 ∧
    (∀ a, a < start - 4 ∨ start ≤ a → ram (p_cpu s') a = ram (p_cpu s) a) ∧
    ∀ sel off, sel ∈ [SEG_KCODE; SEG_KDATA] → 0 ≤ off < 4294967296 → seg_linear (ram (p_cpu s')) (gdtr (p_cpu s')) (Z.shiftl sel 3) off = Some off.
Proof.
  intros Hs Hb Hst Hg Hd1 Hd2 [G1 G2]. unfold bootasm. rewrite bind_modify.
  destruct (seta20_ok slow fuel (p_x (run real_mode) s) Hs Hb) as (s1 & E1 & [_ B2 B3 _ B5] & A). mstep E1. rewrite bind_modify.
  eexists. split; [reflexivity|]. split; [exact A|]. cbn [p_cpu p_x] in *. set (c := p_cpu s1) in *. clearbody c.
  set (c' := run (start32_code _ _ _) _).
  assert (M : ram c' = store (u32 (start - 4)) (le_bytes 4 nxt) (ram c)) by reflexivity. rewrite u32_small in M by lia.
  assert (M' : ∀ a, a < start - 4 ∨ start ≤ a → ram c' a = ram (p_cpu s) a).
  { intros a Ha. rewrite M, store_out by (rewrite length_le_bytes; lia). by rewrite B5. }
  assert (G : gdtr c' = d) by reflexivity. split_and!.
  - split; [|by apply lor_bit| |done].
    + split_and!; [done| |].
      * intros r Hr. repeat (apply elem_of_cons in Hr as [->|Hr]; [by apply u16_low|]). by apply elem_of_nil in Hr.
      * intros r Hr. repeat (apply elem_of_cons in Hr as [->|Hr]; [done|]). by apply elem_of_nil in Hr.
    + change (eflags c') with (eflags c). rewrite B3. apply eflags_cli.
  - done.
  - change (gp c' ESP) with (u32 (start - 4)). apply u32_small. lia.
  - exact M'.
  - intros sel off Hsel Ho. rewrite G. apply (boot_flat _ _ gdt); [|done..].
    split; [rewrite <- G1|rewrite <- G2]; apply load_same; intros x Hx; apply M'; lia.
Qed.

Definition x_off (m : mem) : x86 := mkx (λ _, 0x1234) (λ _, 0x5) 0x7c00 0x202 0 0 0 0 m.
Definition boot_ram : mem := store 0x7cb8 (gdtdesc 0x7ca0) (store 0x7ca0 boot_gdt (λ _, 0)).

Lemma bootasm_correct_witness : ∃ s', bootasm 3 9 0x7c00 0x7c31 0x7cb8 0x7d2d 0x7c55 (mkbsp (x_off boot_ram) (mkkbc 5 None 0xdd)) = Ok tt s' ∧
  a20 s' = true ∧ in_protected (p_cpu s') 0x7cb8 ∧ eip (p_cpu s') = 0x7d2d ∧ gp (p_cpu s') ESP = 0x7c00 - 4.
Proof.
  destruct (bootasm_correct 3 9 0x7c00 0x7c31 0x7cb8 0x7d2d 0x7c55 0x7ca0 (mkbsp (x_off boot_ram) (mkkbc 5 None 0xdd))) as (s' & H1 & H2 & H3 & H4 & H5 & _);
    [lia|cbn; lia|lia|lia|lia|lia|split; by vm_compute|]. by exists s'.
Defined.

(** ** entry.S *)

(** With paging on: pages of 4 megabytes, and read-only pages also for the kernel. *)
Record paging (s : x86) (dir : Z) : Prop := {
  pg_dir : cr3 s = dir;
  pg_on : Z.testbit (cr0 s) 31 = true;
  pg_wp : Z.testbit (cr0 s) 16 = true;
  pg_pse : Z.testbit (cr4 s) 4 = true }.

(** entry.S: the kernel goes from the physical address of [entry] to [main], with paging
    on by [entrypgdir] and the stack of the kernel; the addresses of the code before and after the
    switch, and the stack, are mapped. *)
Theorem entry_correct dir stack main here s :
  KERNBASE ≤ stack → stack + KSTACKSIZE < KERNBASE + 4194304 → KERNBASE ≤ main < KERNBASE + 4194304 → 0 ≤ here < 4194304 →
  let s' := run (entry_code dir stack main) s in
  paging s' (V2P dir) ∧ eip s' = main ∧ gp s' ESP = stack + KSTACKSIZE ∧ ram s' = ram s ∧ sg s' = sg s ∧ eflags s' = eflags s ∧
  translate4m entrypgdir here = Some here ∧ translate4m entrypgdir main = Some (V2P main) ∧
  ∀ a, stack ≤ a < gp s' ESP → translate4m entrypgdir a = Some (V2P a).
Proof.
  intros Hk1 Hk2 Hm Hh s'. assert (E : gp s' ESP = stack + KSTACKSIZE).
  { change (gp s' ESP) with (u32 (stack + KSTACKSIZE)). apply u32_small. unfold KERNBASE, KSTACKSIZE in *. lia. }
  assert (H : ∀ a, KERNBASE ≤ a < KERNBASE + 4194304 → translate4m entrypgdir a = Some (V2P a)).
  { intros a Ha. rewrite entrypgdir_maps by (unfold KERNBASE in *; lia). rewrite (proj2 (Z.ltb_ge a 4194304)) by (unfold KERNBASE in *; lia).
    by rewrite (proj2 (Z.leb_le _ _)), (proj2 (Z.ltb_lt _ _)) by lia. }
  rewrite E. split_and!; try done.
  - split; [done|by apply lor_bit..].
  - rewrite entrypgdir_maps by lia. by rewrite (proj2 (Z.ltb_lt here _)) by lia.
  - by apply H.
  - intros a Ha. apply H. lia.
Qed.

Lemma entry_correct_witness : eip (run (entry_code 0x80109000 0x8010b5c0 0x80102fa0) (x_off (λ _, 0))) = 0x80102fa0 ∧
  translate4m entrypgdir 0x80102fa0 = Some 0x102fa0.
Proof.
  destruct (entry_correct 0x80109000 0x8010b5c0 0x80102fa0 0x10000c (x_off (λ _, 0))) as (_ & H1 & _ & _ & _ & _ & _ & H2 & _);
    [unfold KERNBASE; lia|unfold KERNBASE, KSTACKSIZE; lia|unfold KERNBASE; lia|lia|]. by rewrite H2.
Defined.

(** ** entryother.S *)

Lemma other_start d start32 s : let s1 := run (entryother_start d start32) s in
  sg s1 CS = Z.shiftl SEG_KCODE 3 ∧ Z.testbit (eflags s1) 9 = false ∧ gdtr s1 = d ∧ ram s1 = ram s.
Proof. split_and!; [done|apply eflags_cli|done|done]. Qed.

Lemma other_segs s : let s1 := run (data_segments ++ [MOVW 0 EAX; MOVS EAX FS; MOVS EAX GS]) s in
  (sg s1 CS = sg s CS ∧ (∀ r, r ∈ [DS; ES; SS] → sg s1 r = Z.shiftl SEG_KDATA 3) ∧ (∀ r, r ∈ [FS; GS] → sg s1 r = 0)) ∧
  eflags s1 = eflags s ∧ gdtr s1 = gdtr s ∧ ram s1 = ram s.
Proof.
  split_and!; [done| | |done..]; intros r Hr; repeat (apply elem_of_cons in Hr as [->|Hr]; [by apply u16_low|]); by apply elem_of_nil in Hr.
Qed.

Lemma other_paging start nxt s :
  run [RDCR 4 EAX; ORI CR4_PSE EAX; WRCR EAX 4; LOADA (start - 12) EAX; WRCR EAX 3; RDCR 0 EAX; ORI (Z.lor (Z.lor CR0_PE CR0_PG) CR0_WP) EAX; WRCR EAX 0;
    LOADA (start - 4) ESP; CALLM (start - 8) nxt] s =
  let sp := u32 (load32 (start - 4) (ram s) - 4) in
  mkx (gp (set_gp ESP sp (set_gp ESP (load32 (start - 4) (ram s)) (set_gp EAX (Z.lor (cr0 s) (Z.lor (Z.lor CR0_PE CR0_PG) CR0_WP)) (set_gp EAX (cr0 s)
      (set_gp EAX (load32 (start - 12) (ram s)) (set_gp EAX (Z.lor (cr4 s) CR4_PSE) (set_gp EAX (cr4 s) s)))))))) (sg s)
    (load32 (start - 8) (ram s)) (eflags s) (Z.lor (cr0 s) (Z.lor (Z.lor CR0_PE CR0_PG) CR0_WP)) (load32 (start - 12) (ram s)) (Z.lor (cr4 s) CR4_PSE) (gdtr s)
    (store sp (le_bytes 4 nxt) (ram s)).
Proof. reflexivity. Qed.

(** entryother.S: a processor that starts at 0x7000, with what [startothers] left there,
    calls [mpenter] in protected mode with paging by [entrypgdir], on the stack that was allocated
    for it. *)
Theorem entryother_correct mpenter_addr dir code sp d start32 nxt s :
  at_code mpenter_addr dir code (ram s) sp → 4 ≤ sp < 4294967296 →
  let s' := run (entryother_start d start32 ++ entryother_code CODE nxt) s in
  in_protected s' d ∧ paging s' (V2P dir) ∧ eip s' = mpenter_addr ∧ gp s' ESP = sp - 4 ∧
  ∀ a, a < sp - 4 ∨ sp ≤ a → ram s' a = ram s a.
Proof.
  intros [_ C2 C3 C4] Hsp. cbv zeta. unfold entryother_code. rewrite (app_assoc data_segments [_; _; _] _ : data_segments ++ MOVW 0 EAX :: _ = _), !run_app, other_paging.
  destruct (other_start d start32 s) as (A1 & A2 & A3 & A4). set (s1 := run (entryother_start d start32) s) in *. clearbody s1.
  destruct (other_segs s1) as ((B1 & B2 & B3) & B4 & B5 & B6). rewrite run_app in *. set (s2 := run [_; _; _] _) in *. clearbody s2.
  cbv zeta. rewrite B6, A4, C2, C3, C4, u32_small by lia. split_and!.
  - split; cbn [sg cr0 eflags gdtr]; [|by apply lor_bit|congruence|congruence]. rewrite B1. done.
  - split; cbn [cr0 cr3 cr4]; [done|by apply lor_bit..].
  - done.
  - done.
  - intros a Ha. cbn [ram]. rewrite store_out by (rewrite length_le_bytes; lia). done.
Qed.

Definition other_ram : mem := store (CODE - 12) (le_bytes 4 (V2P 0x80109000)) (store (CODE - 8) (le_bytes 4 0x80102f40) (store (CODE - 4) (le_bytes 4 0x803ff000) (λ _, 0))).
Lemma entryother_correct_witness : eip (run (entryother_start 0x7080 0x7030 ++ entryother_code CODE 0x7060) (x_off other_ram)) = 0x80102f40.
Proof.
  destruct (entryother_correct 0x80102f40 0x80109000 [] 0x803ff000 0x7080 0x7030 0x7060 (x_off other_ram)) as (_ & _ & H & _); [split; by vm_compute|lia|exact H].
Defined.
