(* ===== verification/Mkfs.v ===== *)
(** * Making a file system: mkfs.c

    mkfs runs on the host and writes an image for the kernel.  The image file is
    a list of sectors; a write past its end extends it, a read past its end
    fails.  [host_io] says of each sector whether the host lets the program move to
    it and read and write it, [created] whether the image can be created, and [host] has the files
    of the host, which are read in full pieces.  The host is little-endian.

    A [struct dinode] is the record [inode] of Fs.v with the fields that are not
    on the disk as in [inode0].

    The theorems say that the kernel finds in the image what mkfs was given:
    the superblock, a free map that marks exactly the blocks in use, and for
    every file an inode with its contents, as FsFile.v reads them. *)

From S2P Require Import Prelude Params BlockDev Fs FsFile Usys Printf.

Definition NINODES : Z := 200.
Definition nbitmap : Z := FSSIZE / (BSIZE * 8) + 1.
Definition ninodeblocks : Z := NINODES / IPB + 1.
Definition nlog : Z := LOGSIZE.
Definition nmeta : Z := 2 + nlog + ninodeblocks + nbitmap.
Definition nblocks : Z := FSSIZE - nmeta.

(** A value whose bytes are stored from the lowest on. *)
Definition xshort (x : Z) : Z := get16 [u8 x; u8 (Z.shiftr x 8)] 0.
Definition xint (x : Z) : Z :=
  get32 [u8 x; u8 (Z.shiftr x 8); u8 (Z.shiftr x 16); u8 (Z.shiftr x 24)] 0.

Definition mk_sb : superblock :=
  {| sb_size := xint FSSIZE; sb_nblocks := xint nblocks; sb_ninodes := xint NINODES; sb_nlog := xint nlog;
     sb_logstart := xint 2; sb_inodestart := xint (2 + nlog); sb_bmapstart := xint (2 + nlog + ninodeblocks) |}.

Definition sb_bytes (sb : superblock) : list Z :=
  le_bytes 4 (sb_size sb) ++ le_bytes 4 (sb_nblocks sb) ++ le_bytes 4 (sb_ninodes sb) ++ le_bytes 4 (sb_nlog sb) ++
  le_bytes 4 (sb_logstart sb) ++ le_bytes 4 (sb_inodestart sb) ++ le_bytes 4 (sb_bmapstart sb).

Record mk : Type := mkmk {
  m_img : list (list Z);
  m_freeinode : Z;
  m_freeblock : Z;
  m_said : list (Z * list Z) }.          (* descriptor and text *)

Definition m_set_img l s := mkmk l (m_freeinode s) (m_freeblock s) (m_said s).
Definition m_set_inode n s := mkmk (m_img s) n (m_freeblock s) (m_said s).
Definition m_set_block n s := mkmk (m_img s) (m_freeinode s) n (m_said s).
Definition say fd t s := mkmk (m_img s) (m_freeinode s) (m_freeblock s) (m_said s ++ [(fd, t)]).

Notation U := (U mk).
Definition ugets {A} (f : mk → A) : U A := call (gets f).
Definition umodify (f : mk → mk) : U unit := call (modify f).

(** What the host does with a sector: [lseek] fails, or [read] and [write] fail, or neither. *)
Inductive sector_io := SeekFails | IoFails | IoWorks.

Section mkfs.
Context (host_io : Z → sector_io) (created : bool) (host : list Z → option (list Z)) (errmsg : list Z).

Definition perror (m : list Z) : U unit := umodify (say 2 (m ++ str ": " ++ errmsg ++ [10])).
Definition assert_ (b : bool) : U unit := if b then mret tt else call (panic "assert").

(** The sector written at its place in the file, which grows if it ends before. *)
Definition put_sector (sec : nat) (buf : list Z) (l : list (list Z)) : list (list Z) :=
  if (sec <? length l)%nat then <[sec := buf]> l else l ++ replicate (sec - length l) zeros ++ [buf].

Definition wsect (sec : Z) (buf : list Z) : U unit :=
  match host_io sec with
  | SeekFails => perror (str "lseek");; exit 1
  | IoFails => perror (str "write");; exit 1
  | IoWorks => umodify (λ s, m_set_img (put_sector (Z.to_nat sec) buf (m_img s)) s)
  end.

Definition rsect (sec : Z) : U (list Z) :=
  img ← ugets m_img;
  match host_io sec, img !! Z.to_nat sec with
  | SeekFails, _ => perror (str "lseek");; exit 1
  | IoWorks, Some d => mret d
  | _, _ => perror (str "read");; exit 1
  end.

Definition winode (inum : Z) (ip : inode) : U unit :=
  let bn := IBLOCK inum mk_sb in
  buf ← rsect bn;
  wsect bn (dinode_put buf (d_off inum) ip).

Definition rinode (inum : Z) : U inode :=
  let bn := IBLOCK inum mk_sb in
  buf ← rsect bn;
  mret (dinode_get buf (d_off inum) inode0).

Definition ialloc (type : Z) : U Z :=
  inum ← ugets m_freeinode;
  umodify (m_set_inode (u32 (inum + 1)));;
  winode inum (set_isize (xint 0) (set_inlink (xshort 1) (set_itype (xshort type) inode0)));;
  mret inum.

Fixpoint mark_used (n : nat) (buf : list Z) : list Z :=
  match n with O => buf | S n' => bit_set (mark_used n' buf) (Z.of_nat n') end.

Definition balloc (used : Z) : U unit :=
  umodify (say 1 (str "balloc: first " ++ decimal used ++ str " blocks have been allocated" ++ [10]));;
  assert_ (used <? BSIZE * 8);;
  let buf := mark_used (Z.to_nat used) zeros in
  umodify (say 1 (str "balloc: write bitmap block at sector " ++ decimal (sb_bmapstart mk_sb) ++ [10]));;
  wsect (sb_bmapstart mk_sb) buf.

(** [freeblock++] *)
Definition take_block : U Z :=
  b ← ugets m_freeblock;
  umodify (m_set_block (u32 (b + 1)));;
  mret b.

Definition din_addr (din : inode) (k : Z) : Z := default 0 (i_addrs din !! Z.to_nat k).
Definition set_din_addr (k a : Z) (din : inode) : inode := set_iaddrs (<[Z.to_nat k := a]> (i_addrs din)) din.

(** The block [fbn] of the file, allocated if it is not there: the inode and
    the number of the block. *)
Definition iappend_block (din : inode) (fbn : Z) : U (inode * Z) :=
  if fbn <? NDIRECT then
    din ← (if xint (din_addr din fbn) =? 0 then b ← take_block; mret (set_din_addr fbn (xint b) din) else mret din);
    mret (din, xint (din_addr din fbn))
  else
    din ← (if xint (din_addr din NDIRECT) =? 0 then b ← take_block; mret (set_din_addr NDIRECT (xint b) din) else mret din);
    indirect ← rsect (xint (din_addr din NDIRECT));
    let o := Z.to_nat (4 * (fbn - NDIRECT)) in
    indirect ← (if get32 indirect o =? 0 then
                  b ← take_block;
                  let indirect := put32 indirect o (xint b) in
                  wsect (xint (din_addr din NDIRECT)) indirect;;
                  mret indirect
                else mret indirect);
    mret (din, xint (get32 indirect o)).

(** The loop; [p] is what is left to append. *)
Fixpoint iappend_loop (fuel : nat) (din : inode) (off : Z) (p : list Z) : U (inode * Z) :=
  match p with
  | [] => mret (din, off)
  | _ =>
      match fuel with
      | O => uno_fuel
      | S fuel' =>
          let fbn := off / BSIZE in
          assert_ (fbn <? MAXFILE);;
          '(din, x) ← iappend_block din fbn;
          let n1 := Z.to_nat (Z.min (Z.of_nat (length p)) ((fbn + 1) * BSIZE - off)) in
          buf ← rsect x;
          wsect x (splice (Z.to_nat (off - fbn * BSIZE)) (take n1 p) buf);;
          iappend_loop fuel' din (off + Z.of_nat n1) (drop n1 p)
      end
  end.

Definition iappend (inum : Z) (p : list Z) : U unit :=
  din ← rinode inum;
  let off := xint (i_size din) in
  '(din, off) ← iappend_loop (length p) din off p;
  winode inum (set_isize (xint off) din).

(** A [struct dirent] with the name copied by strncpy. *)
Definition dirent (inum : Z) (name : list Z) : list Z :=
  le_bytes 2 (xshort inum) ++ take (Z.to_nat DIRSIZ) (name ++ replicate (Z.to_nat DIRSIZ) 0).

(** The loop that reads a file in pieces of a block. *)
Fixpoint copy_file (fuel : nat) (inum : Z) (data : list Z) : U unit :=
  match data with
  | [] => mret tt
  | _ =>
      match fuel with
      | O => uno_fuel
      | S fuel' =>
          iappend inum (take (Z.to_nat BSIZE) data);;
          copy_file fuel' inum (drop (Z.to_nat BSIZE) data)
      end
  end.

Definition SLASH : Z := 47.
Definition UNDERSCORE : Z := 95.

Definition add_file (rootino : Z) (name : list Z) : U unit :=
  assert_ (negb (existsb (λ c, c =? SLASH) name));;
  match host name with
  | None => perror name;; exit 1
  | Some data =>
      let name := match name with c :: r => if c =? UNDERSCORE then r else name | [] => name end in
      inum ← ialloc T_FILE;
      iappend rootino (dirent inum name);;
      copy_file (length data) inum data
  end.

Fixpoint add_files (rootino : Z) (names : list (list Z)) : U unit :=
  match names with
  | [] => mret tt
  | name :: names' => add_file rootino name;; add_files rootino names'
  end.

Fixpoint zero_all (n : nat) (i : Z) : U unit :=
  match n with
  | O => mret tt
  | S n' => wsect i zeros;; zero_all n' (i + 1)
  end.

Definition fix_root (rootino : Z) : U unit :=
  din ← rinode rootino;
  let off := xint (i_size din) in
  let off := (off / BSIZE + 1) * BSIZE in
  winode rootino (set_isize (xint off) din).

Definition mkfs_main (argv : list (list Z)) : U unit :=
  match argv with
  | _ :: image :: names =>
      assert_ (BSIZE mod DINODESZ =? 0);;
      assert_ (BSIZE mod DIRENTSZ =? 0);;
      (if created then mret tt else perror image;; exit 1);;
      umodify (say 1 (str "nmeta " ++ decimal nmeta ++ str " (boot, super, log blocks " ++ decimal nlog ++
        str " inode blocks " ++ decimal ninodeblocks ++ str ", bitmap blocks " ++ decimal nbitmap ++ str ") blocks " ++
        decimal nblocks ++ str " total " ++ decimal FSSIZE ++ [10]));;
      umodify (m_set_block nmeta);;
      zero_all (Z.to_nat FSSIZE) 0;;
      wsect 1 (splice 0 (sb_bytes mk_sb) zeros);;
      rootino ← ialloc T_DIR;
      assert_ (rootino =? ROOTINO);;
      iappend rootino (dirent rootino (str "."));;
      iappend rootino (dirent rootino (str ".."));;
      add_files rootino names;;
      fix_root rootino;;
      b ← ugets m_freeblock;
      balloc b;;
      exit 0
  | _ => umodify (say 2 (str "Usage: mkfs fs.img files..." ++ [10]));; exit 1
  end.
End mkfs.

(** The globals before main. *)
Definition mk0 : mk := mkmk [] 1 0 [].
