(* ===== verification/Image.v ===== *)
(** * What mkfs puts in the image

    The invariant of mkfs: a map [own] says to which file, and to which place in
    it, a block belongs; every file has its bytes in the blocks it owns, blocks
    that are not taken yet are zero.  [iappend] appends to one file and leaves
    the others alone; from this follow the contents of the image. *)

From S2P Require Import Prelude Params BlockDev Sleeplock Fs FsFile Dinode Usys Printf Mkfs.

(** The values of a [struct dinode]; the other fields are not used by mkfs. *)
Record din_ok (i : inode) : Prop := {
  di_mem : i_dev i = 0 ∧ i_inum i = 0 ∧ i_ref i = 0 ∧ i_lock i = mksl false 0 0 [] ∧ i_valid i = 0;
  di_range :> din_range i }.

Lemma dinode_get_put0 d o i : din_ok i → (o + 64 ≤ length d)%nat → dinode_get (dinode_put d o i) o inode0 = i.
Proof.
  intros [Hm Hr] Hl. rewrite (dinode_get_put _ _ _ _ Hr Hl).
  clear -Hm. destruct i, Hm as (? & ? & ? & ? & ?). unfold stored. simpl in *. by subst.
Qed.

(** ** The numbers of the layout *)

Lemma xint_u32 x : xint x = u32 x.
Proof.
  unfold xint, get32, u32, u8. cbn [slice drop take le_val]. rewrite !Z.shiftr_div_pow2 by lia.
  change (2 ^ 8) with 256. change (2 ^ 16) with 65536. change (2 ^ 24) with 16777216. lia.
Qed.

Lemma xshort_u16 x : xshort x = u16 x.
Proof.
  unfold xshort, get16, u16, u8. cbn [slice drop take le_val]. rewrite !Z.shiftr_div_pow2 by lia.
  change (2 ^ 8) with 256. lia.
Qed.

Lemma xint_small x : 0 ≤ x < 4294967296 → xint x = x.
Proof. intros H. rewrite xint_u32. by apply u32_small. Qed.

Lemma nmeta_59 : nmeta = 59.
Proof. reflexivity. Qed.

Lemma mk_sb_eq : mk_sb = {| sb_size := 1000; sb_nblocks := 941; sb_ninodes := 200; sb_nlog := 30;
  sb_logstart := 2; sb_inodestart := 32; sb_bmapstart := 58 |}.
Proof. reflexivity. Qed.

(** The image as the kernel sees it. *)
Definition view_of (img : list (list Z)) : bview := mkv img img ∅ ∅ [].
Notation blkof img b := (blk (view_of img) b).

Lemma blk_put img b b' d : 0 ≤ b → 0 ≤ b' → (Z.to_nat b < length img)%nat →
  blkof (<[Z.to_nat b := d]> img) b' = if decide (b' = b) then d else blkof img b'.
Proof.
  intros H0 H1 Hl. unfold blk, view_of. simpl. destruct (decide (b' = b)) as [->|Hne].
  - by rewrite list_lookup_insert_eq.
  - by rewrite list_lookup_insert_ne by lia.
Qed.

(** ** The blocks of a file *)

(** The owner of a block: the number of the inode, and the number of the block
    in the file, or -1 for the indirect block. *)
Notation owner := (Z → option (Z * Z)).

Definition give (b : Z) (p : Z * Z) (own : owner) : owner := λ b', if decide (b' = b) then Some p else own b'.

(** Blocks that are taken lie between the metadata and [fb]. *)
Definition own_ok (own : owner) (fb : Z) : Prop := ∀ b p, own b = Some p → 59 ≤ b < fb.

Record img_ok (img : list (list Z)) (fb : Z) : Prop := {
  im_len : length img = 1000%nat;
  im_blocks : Forall (λ d, length d = 512%nat) img;
  im_fb : 59 ≤ fb ≤ 1000;
  im_free : ∀ b, fb ≤ b < 1000 → blkof img b = zeros }.

(** The inode [i], with number [inum], has [m] blocks mapped, and [bs] in them,
    followed by zeros; [ind] says that it has an indirect block. *)
Record fileok (img : list (list Z)) (own : owner) (inum : Z) (i : inode) (bs : list Z) (m : Z) (ind : bool) : Prop := {
  fo_m : 0 ≤ m ≤ 140;
  fo_len : Z.of_nat (length bs) ≤ m * 512;
  fo_addrs : length (i_addrs i) = 13%nat;
  fo_map : ∀ k, 0 ≤ k < m → own (faddr (view_of img) i k) = Some (inum, k);
  fo_end : ∀ k, m ≤ k < 140 → faddr (view_of img) i k = 0;
  fo_ind : ind = true → own (iaddr i 12) = Some (inum, -1);
  fo_noind : ind = false → iaddr i 12 = 0 ∧ m ≤ 12;
  fo_byte : ∀ j, 0 ≤ j < m * 512 → fbyte (view_of img) i j = default 0 (bs !! Z.to_nat j) }.

(** What an operation on file [inum] may do to the image. *)
Record keeps (inum : Z) (img : list (list Z)) (own : owner) (img' : list (list Z)) (own' : owner) : Prop := {
  ke_own : ∀ b p, own b = Some p → own' b = Some p;
  ke_blk : ∀ b, 0 ≤ b → b < 59 ∨ (∃ p, own b = Some p ∧ p.1 ≠ inum) → blkof img' b = blkof img b }.

Lemma keeps_refl inum img own : keeps inum img own img own.
Proof. by split. Qed.

Lemma keeps_trans inum img own img1 own1 img2 own2 :
  keeps inum img own img1 own1 → keeps inum img1 own1 img2 own2 → keeps inum img own img2 own2.
Proof.
  intros [A1 A2] [B1 B2]. split; [auto|]. intros b Hb H. rewrite B2; [auto|done|].
  destruct H as [H|(p & Hp & Hne)]; [by left|right; eauto].
Qed.

Lemma faddr_ind v i k : 12 ≤ k → faddr v i k = if iaddr i 12 =? 0 then 0 else get32 (blk v (iaddr i 12)) (Z.to_nat (4 * (k - 12))).
Proof. intros H. unfold faddr, NDIRECT. by rewrite (proj2 (Z.ltb_ge k 12)) by lia. Qed.

Lemma faddr_dir v i k : k < 12 → faddr v i k = iaddr i k.
Proof. intros H. unfold faddr, NDIRECT. by rewrite (proj2 (Z.ltb_lt k 12)) by lia. Qed.

(** A file does not change when its blocks do not. *)
Lemma fileok_same img own img' own' inum i bs m ind :
  (∀ b k, own b = Some (inum, k) → own' b = Some (inum, k) ∧ blkof img' b = blkof img b) →
  fileok img own inum i bs m ind → fileok img' own' inum i bs m ind.
Proof.
  intros Hk [F1 F2 F3 F4 F5 F6 F7 F8].
  assert (Hf : ∀ k, faddr (view_of img') i k = faddr (view_of img) i k).
  { intros k. destruct (decide (k < 12)); [by rewrite !faddr_dir|]. rewrite !faddr_ind by lia.
    destruct ind; [|by rewrite (proj1 (F7 eq_refl))]. by rewrite (proj2 (Hk _ _ (F6 eq_refl))). }
  split; try done.
  - intros k Hk'. rewrite Hf. by apply Hk, F4.
  - intros k Hk'. rewrite Hf. auto.
  - intros E. by apply Hk, F6.
  - intros j Hj. rewrite <- F8 by done. unfold fbyte. rewrite Hf. f_equal.
    apply (Hk _ (j / BSIZE)), F4. unfold BSIZE. lia.
Qed.

Lemma fileok_frame inum inum' img own img' own' i bs m ind fb :
  own_ok own fb → keeps inum img own img' own' → inum' ≠ inum →
  fileok img own inum' i bs m ind → fileok img' own' inum' i bs m ind.
Proof.
  intros Ho [K1 K2] Hne. apply fileok_same. intros b k Hb. split; [auto|].
  apply K2; [apply Ho in Hb; lia|]. right. eauto.
Qed.

Lemma block_length img fb b : img_ok img fb → 0 ≤ b < 1000 → length (blkof img b) = 512%nat.
Proof.
  intros I Hb. unfold blk. simpl. destruct (lookup_lt_is_Some_2 img (Z.to_nat b)) as [d Hd].
  { rewrite (im_len _ _ I). lia. }
  rewrite Hd. exact (Forall_lookup_1 _ _ _ _ (im_blocks _ _ I) Hd).
Qed.

Lemma img_ok_put img fb b d : img_ok img fb → 0 ≤ b < fb → length d = 512%nat → img_ok (<[Z.to_nat b := d]> img) fb.
Proof.
  intros I Hb Hd. destruct I as [I1 I2 I3 I4]. split.
  - by rewrite length_insert.
  - by apply Forall_insert.
  - done.
  - intros b' Hb'. rewrite blk_put by lia. rewrite decide_False by lia. auto.
Qed.

(** A byte of a block with [q] written at [o]. *)
Lemma byte_at_splice d q o j : (o + length q ≤ length d)%nat → 0 ≤ j →
  byte_at (splice o q d) j =
  if decide (Z.of_nat o ≤ j < Z.of_nat (o + length q)) then default 0 (q !! (Z.to_nat j - o)%nat) else byte_at d j.
Proof.
  intros Hl Hj. unfold byte_at. destruct (decide _).
  - rewrite lookup_splice_in by lia. done.
  - destruct (decide (Z.to_nat j < o)%nat); [by rewrite lookup_splice_lt by lia|by rewrite lookup_splice_ge by lia].
Qed.

(** Writing [q] after the end of the file, inside its block [fbn]. *)
Lemma fileok_write img own inum i bs m ind fb fbn q :
  img_ok img fb → own_ok own fb → fileok img own inum i bs m ind → 0 ≤ fbn < m →
  fbn * 512 ≤ Z.of_nat (length bs) → Z.of_nat (length (bs ++ q)) ≤ (fbn + 1) * 512 →
  let x := faddr (view_of img) i fbn in
  let img' := <[Z.to_nat x := splice (Z.to_nat (Z.of_nat (length bs) - fbn * 512)) q (blkof img x)]> img in
  fileok img' own inum i (bs ++ q) m ind ∧ img_ok img' fb ∧ keeps inum img own img' own.
Proof.
  intros I Ho F Hk H1 H2 x img'. rewrite length_app in H2. set (o := Z.to_nat (Z.of_nat (length bs) - fbn * 512)) in img'.
  pose proof (fo_map _ _ _ _ _ _ _ F fbn Hk) as Hx. fold x in Hx. pose proof (Ho _ _ Hx) as Hxb.
  pose proof (im_fb _ _ I) as Hfb. pose proof (im_len _ _ I) as Hlen.
  assert (Hbl : length (blkof img x) = 512%nat) by (apply (block_length _ _ _ I); lia).
  assert (Hol : (o + length q ≤ length (blkof img x))%nat) by (unfold o; lia).
  assert (Hd : length (splice o q (blkof img x)) = 512%nat) by (by rewrite length_splice).
  assert (Hb : ∀ b, 0 ≤ b → b ≠ x → blkof img' b = blkof img b).
  { intros b Hb0 Hne. unfold img'. rewrite blk_put by lia. by rewrite decide_False. }
  assert (Hi : ind = true → blkof img' (iaddr i 12) = blkof img (iaddr i 12)).
  { intros E. pose proof (fo_ind _ _ _ _ _ _ _ F E) as Hi. apply Hb; [apply Ho in Hi; lia|].
    intros E'. rewrite E', Hx in Hi. injection Hi as Hi. lia. }
  assert (Hf : ∀ k, faddr (view_of img') i k = faddr (view_of img) i k).
  { intros k. destruct (decide (k < 12)); [by rewrite !faddr_dir|]. rewrite !faddr_ind by lia.
    destruct ind; [by rewrite Hi|by rewrite (proj1 (fo_noind _ _ _ _ _ _ _ F eq_refl))]. }
  split_and!; [|by apply img_ok_put; [|lia|]|].
  - destruct F as [F1 F2 F3 F4 F5 F6 F7 F8]. split; try done.
    + rewrite length_app. lia.
    + intros k Hk'. rewrite Hf. auto.
    + intros k Hk'. rewrite Hf. auto.
    + intros j Hj. unfold fbyte, BSIZE. rewrite Hf. specialize (F8 j Hj). unfold fbyte, BSIZE in F8.
      destruct (decide (j / 512 = fbn)) as [E|E].
      * rewrite E. fold x. unfold img'. rewrite blk_put, decide_True by lia. rewrite E in F8. fold x in F8.
        rewrite byte_at_splice by (done || lia).
        destruct (decide _) as [Hin|Hout].
        -- rewrite lookup_app_r by (unfold o in Hin; lia). f_equal. f_equal. unfold o. lia.
        -- rewrite F8. f_equal. unfold o in Hout.
           destruct (decide (Z.to_nat j < length bs)%nat); [by rewrite lookup_app_l|].
           rewrite !lookup_ge_None_2; [done| |lia]. rewrite length_app. lia.
      * assert (Hkj : 0 ≤ j / 512 < m) by lia. pose proof (F4 _ Hkj) as Hj'.
        rewrite Hb, F8; [|apply Ho in Hj'; lia|intros E'; rewrite E', Hx in Hj'; injection Hj' as Hj'; lia].
        f_equal. destruct (decide (Z.to_nat j < length bs)%nat); [by rewrite lookup_app_l|].
        rewrite !lookup_ge_None_2; [done| |lia]. rewrite length_app. lia.
  - split; [done|]. intros b Hb0 H. apply Hb; [done|]. intros ->.
    destruct H as [H|(p & Hp & Hne)]; [lia|]. rewrite Hx in Hp. injection Hp as <-. done.
Qed.

(** Taking the next free block. *)
Lemma give_fresh own fb b p q : own_ok own fb → own b = Some p → give fb q own b = Some p.
Proof. intros Ho Hb. unfold give. rewrite decide_False; [done|]. apply Ho in Hb. lia. Qed.

Lemma give_eq own b p : give b p own b = Some p.
Proof. unfold give. by rewrite decide_True. Qed.

Lemma own_ok_give own fb p : own_ok own fb → 59 ≤ fb → own_ok (give fb p own) (fb + 1).
Proof.
  intros Ho Hfb b q. unfold give. destruct (decide (b = fb)) as [->|]; [lia|]. intros H. apply Ho in H. lia.
Qed.

Lemma img_ok_take img fb : img_ok img fb → fb < 1000 → img_ok img (fb + 1).
Proof. intros [I1 I2 I3 I4] H. split; [done|done|lia|]. intros b Hb. apply I4. lia. Qed.

Lemma keeps_give inum img own fb p : own_ok own fb → keeps inum img own img (give fb p own).
Proof. intros Ho. split; [|done]. intros b q Hb. by eapply give_fresh. Qed.

Lemma iaddr_set i k a k' : length (i_addrs i) = 13%nat → 0 ≤ k < 13 → 0 ≤ k' →
  iaddr (set_din_addr k a i) k' = if decide (k' = k) then a else iaddr i k'.
Proof.
  intros Hl Hk Hk'. unfold iaddr, set_din_addr. simpl. destruct (decide (k' = k)) as [->|Hne].
  - rewrite list_lookup_insert_eq by lia. done.
  - rewrite list_lookup_insert_ne by lia. done.
Qed.

Lemma byte_at_zeros j : byte_at zeros j = 0.
Proof.
  unfold byte_at, zeros. destruct (decide (Z.to_nat j < 512)%nat).
  - by rewrite lookup_replicate_2.
  - rewrite lookup_ge_None_2; [done|]. rewrite length_replicate. unfold BSIZE. lia.
Qed.

(** The bytes after the file grew by a block of zeros. *)
Lemma fbyte_grow img i bs m j x : 0 ≤ m * 512 ≤ j → j < (m + 1) * 512 → Z.of_nat (length bs) ≤ m * 512 →
  faddr (view_of img) i m = x → blkof img x = zeros → fbyte (view_of img) i j = default 0 (bs !! Z.to_nat j).
Proof.
  intros H1 H2 H3 Hx Hz. unfold fbyte, BSIZE. replace (j / 512) with m by lia.
  rewrite Hx, Hz, byte_at_zeros, lookup_ge_None_2 by lia. done.
Qed.

(** The next block of the file is a direct one. *)
Lemma fileok_direct img own inum i bs m ind fb :
  img_ok img fb → own_ok own fb → fileok img own inum i bs m ind → m < 12 → fb < 1000 →
  fileok img (give fb (inum, m) own) inum (set_din_addr m fb i) bs (m + 1) ind ∧
  faddr (view_of img) (set_din_addr m fb i) m = fb.
Proof.
  intros I Ho [F1 F2 F3 F4 F5 F6 F7 F8] Hm Hfb. pose proof (im_free _ _ I fb ltac:(lia)) as Hz.
  assert (Hi : ∀ k, 0 ≤ k → iaddr (set_din_addr m fb i) k = if decide (k = m) then fb else iaddr i k)
    by (intros; apply iaddr_set; lia).
  assert (Hx : faddr (view_of img) (set_din_addr m fb i) m = fb)
    by (rewrite faddr_dir, Hi by lia; by rewrite decide_True).
  assert (Hf : ∀ k, 0 ≤ k → k ≠ m → faddr (view_of img) (set_din_addr m fb i) k = faddr (view_of img) i k).
  { intros k Hk Hne. destruct (decide (k < 12)).
    - rewrite !faddr_dir, Hi by lia. by rewrite decide_False.
    - rewrite !faddr_ind, Hi by lia. by rewrite decide_False by lia. }
  split; [|done]. split; [lia|lia|by simpl; rewrite length_insert| | | | |].
  - intros k Hk. destruct (decide (k = m)) as [->|Hne]; [by rewrite Hx, give_eq|].
    rewrite Hf by lia. apply (give_fresh _ fb); [done|]. apply F4. lia.
  - intros k Hk. rewrite Hf by lia. apply F5. lia.
  - intros E. rewrite Hi, decide_False by lia. apply (give_fresh _ fb); auto.
  - intros E. rewrite Hi, decide_False by lia. destruct (F7 E). split; [done|lia].
  - intros j Hj. destruct (decide (m * 512 ≤ j)); [by apply (fbyte_grow _ _ _ m _ fb); try lia|].
    rewrite <- F8 by lia. unfold fbyte, BSIZE. rewrite Hf by lia. done.
Qed.

(** The indirect block. *)
Lemma fileok_indirect img own inum i bs fb :
  img_ok img fb → own_ok own fb → fileok img own inum i bs 12 false → fb < 1000 →
  fileok img (give fb (inum, -1) own) inum (set_din_addr 12 fb i) bs 12 true.
Proof.
  intros I Ho [F1 F2 F3 F4 F5 F6 F7 F8] Hfb. pose proof (im_free _ _ I fb ltac:(lia)) as Hz.
  assert (Hi : ∀ k, 0 ≤ k → iaddr (set_din_addr 12 fb i) k = if decide (k = 12) then fb else iaddr i k)
    by (intros; apply iaddr_set; lia).
  assert (Hf : ∀ k, 0 ≤ k → faddr (view_of img) (set_din_addr 12 fb i) k = faddr (view_of img) i k).
  { intros k Hk. destruct (decide (k < 12)).
    - rewrite !faddr_dir, Hi by lia. by rewrite decide_False by lia.
    - rewrite !faddr_ind, Hi, decide_True by lia. rewrite (proj1 (F7 eq_refl)), Hz, get32_zeros. simpl.
      by destruct (fb =? 0). }
  split; [lia|lia|by simpl; rewrite length_insert| | | |done|].
  - intros k Hk. rewrite Hf by lia. apply (give_fresh _ fb); [done|]. auto.
  - intros k Hk. rewrite Hf by lia. auto.
  - intros _. by rewrite Hi, decide_True, give_eq.
  - intros j Hj. rewrite <- F8 by lia. unfold fbyte, BSIZE. rewrite Hf by lia. done.
Qed.

(** An entry of the indirect block. *)
Lemma fileok_entry img own inum i bs m fb :
  img_ok img fb → own_ok own fb → fileok img own inum i bs m true → 12 ≤ m < 140 → fb < 1000 →
  let a := iaddr i 12 in
  let img' := <[Z.to_nat a := put32 (blkof img a) (Z.to_nat (4 * (m - 12))) fb]> img in
  fileok img' (give fb (inum, m) own) inum i bs (m + 1) true ∧ img_ok img' (fb + 1) ∧
  keeps inum img own img' (give fb (inum, m) own) ∧ faddr (view_of img') i m = fb.
Proof.
  intros I Ho F Hm Hfb a img'. pose proof (fo_ind _ _ _ _ _ _ _ F eq_refl) as Ha. fold a in Ha.
  pose proof (Ho _ _ Ha) as Hab. pose proof (im_fb _ _ I). pose proof (im_len _ _ I) as Hlen.
  assert (Hal : length (blkof img a) = 512%nat) by (apply (block_length _ _ _ I); lia).
  assert (Hb : ∀ b, 0 ≤ b → b ≠ a → blkof img' b = blkof img b).
  { intros b Hb0 Hne. unfold img'. rewrite blk_put by lia. by rewrite decide_False. }
  assert (Ha' : blkof img' a = put32 (blkof img a) (Z.to_nat (4 * (m - 12))) fb).
  { unfold img'. rewrite blk_put by lia. by rewrite decide_True. }
  assert (Hnz : (a =? 0) = false) by (apply Z.eqb_neq; lia).
  assert (Hx : faddr (view_of img') i m = fb).
  { rewrite faddr_ind by lia. fold a. rewrite Hnz, Ha', get32_put32_eq by lia. apply u32_small. lia. }
  assert (Hf : ∀ k, 0 ≤ k < 140 → k ≠ m → faddr (view_of img') i k = faddr (view_of img) i k).
  { intros k Hk Hne. destruct (decide (k < 12)); [by rewrite !faddr_dir|].
    rewrite !faddr_ind by lia. fold a. rewrite Hnz, Ha'. apply get32_put32_ne; lia. }
  assert (I1 : img_ok img' fb) by (apply img_ok_put; [done|lia|rewrite length_put32; lia]).
  assert (Hz : blkof img' fb = zeros) by (rewrite Hb by lia; apply (im_free _ _ I); lia).
  destruct F as [F1 F2 F3 F4 F5 F6 F7 F8]. split_and!; [|by apply img_ok_take| |done].
  - split; [lia|lia|done| | | |done|].
    + intros k Hk. destruct (decide (k = m)) as [->|Hne]; [by rewrite Hx, give_eq|].
      rewrite Hf by lia. apply (give_fresh _ fb); [done|]. apply F4. lia.
    + intros k Hk. rewrite Hf by lia. apply F5. lia.
    + intros _. apply (give_fresh _ fb); done.
    + intros j Hj. destruct (decide (m * 512 ≤ j)); [by apply (fbyte_grow _ _ _ m _ fb); try lia|].
      assert (Hk : 0 ≤ j / 512 < m) by lia. rewrite <- F8 by lia. unfold fbyte, BSIZE. rewrite Hf by lia. f_equal.
      pose proof (F4 _ Hk) as Hj'. apply Hb; [apply Ho in Hj'; lia|]. intros E. rewrite E, Ha in Hj'. injection Hj' as Hj'. lia.
  - split; [intros b p Hp; by apply (give_fresh _ fb)|]. intros b Hb0 H'. apply Hb; [done|]. intros ->.
    destruct H' as [H'|(p & Hp & Hne)]; [lia|]. rewrite Ha in Hp. injection Hp as <-. done.
Qed.

(** ** The functions on sectors *)

(** All sectors can be read and written. *)
Notation ok := (λ _ : Z, IoWorks).

Section sectors.
Context (errmsg : list Z).
Implicit Types s : mk.
Notation rsect := (rsect ok errmsg).
Notation wsect := (wsect ok errmsg).

Lemma rsect_ok s b fb : img_ok (m_img s) fb → 0 ≤ b < 1000 → rsect b s = Ok (Ret (blkof (m_img s) b)) s.
Proof.
  intros I Hb. unfold Mkfs.rsect, ugets. ucall (eq_refl : gets m_img s = Ok (m_img s) s).
  destruct (lookup_lt_is_Some_2 (m_img s) (Z.to_nat b)) as [d Hd]; [rewrite (im_len _ _ I); lia|].
  unfold blk. simpl. by rewrite Hd.
Qed.

Lemma wsect_ok s b d fb : img_ok (m_img s) fb → 0 ≤ b < 1000 →
  wsect b d s = Ok (Ret tt) (m_set_img (<[Z.to_nat b := d]> (m_img s)) s).
Proof.
  intros I Hb. unfold Mkfs.wsect, umodify, put_sector, call, modify. simpl.
  by rewrite (proj2 (Nat.ltb_lt (Z.to_nat b) (length (m_img s)))) by (rewrite (im_len _ _ I); lia).
Qed.

Lemma take_block_ok s : 0 ≤ m_freeblock s < 1000 →
  take_block s = Ok (Ret (m_freeblock s)) (m_set_block (m_freeblock s + 1) s).
Proof.
  intros H. unfold take_block, ugets, umodify. ucall (eq_refl : gets m_freeblock s = Ok (m_freeblock s) s).
  rewrite u32_small by lia. done.
Qed.
End sectors.

(** ** iappend *)

(** The blocks of a file with [m] data blocks, and how many those are. *)
Definition tb (m : Z) : Z := m + (if 12 <? m then 1 else 0).
Definition nb (n : Z) : Z := (n + 511) / 512.

Definition mk_ok (s : mk) (own : owner) : Prop := img_ok (m_img s) (m_freeblock s) ∧ own_ok own (m_freeblock s).

(** [iappend] changes the image and takes blocks. *)
Definition same_vars (s s' : mk) : Prop := m_freeinode s' = m_freeinode s ∧ m_said s' = m_said s.

(** The inode with other addresses. *)
Definition same_meta (i i' : inode) : Prop := ∃ l, i' = set_iaddrs l i.

Lemma same_meta_trans i1 i2 i3 : same_meta i1 i2 → same_meta i2 i3 → same_meta i1 i3.
Proof. intros [l ->] [l' ->]. by exists l'. Qed.

Section append.
Context (errmsg : list Z).
Notation iappend_block := (iappend_block ok errmsg).
Notation iappend_loop := (iappend_loop ok errmsg).

(** What [iappend_block] ends with: [m'] blocks are mapped. *)
Definition block_done (s : mk) (own : owner) (inum : Z) (i : inode) (bs : list Z) (m fbn : Z) : Prop :=
  let m' := Z.max m (fbn + 1) in
  ∃ i' s' own', iappend_block i fbn s = Ok (Ret (i', faddr (view_of (m_img s')) i' fbn)) s' ∧ mk_ok s' own' ∧
    fileok (m_img s') own' inum i' bs m' (12 <? m') ∧ keeps inum (m_img s) own (m_img s') own' ∧
    m_freeblock s' = m_freeblock s + tb m' - tb m ∧ same_vars s s' ∧ same_meta i i'.

Lemma owned_xint s own b p : mk_ok s own → own b = Some p → 59 ≤ b < 1000 ∧ xint b = b ∧ (xint b =? 0) = false.
Proof.
  intros [I Ho] Hb. apply Ho in Hb. pose proof (im_fb _ _ I). assert (E : xint b = b) by (apply xint_small; lia).
  rewrite E. split_and!; [lia..|done|]. apply Z.eqb_neq. lia.
Qed.

Lemma same_meta_refl i : same_meta i i.
Proof. exists (i_addrs i). by destruct i. Qed.

Lemma iappend_block_have s own inum i bs m fbn :
  mk_ok s own → fileok (m_img s) own inum i bs m (12 <? m) → 0 ≤ fbn < m → block_done s own inum i bs m fbn.
Proof.
  intros K F Hk. pose proof (fo_map _ _ _ _ _ _ _ F fbn Hk) as Hx. destruct (owned_xint _ _ _ _ K Hx) as (Hr & E1 & E2).
  unfold block_done. rewrite Z.max_l by lia. exists i, s, own.
  split; [|split_and!; [done|done|apply keeps_refl|lia|done|apply same_meta_refl]].
  unfold Mkfs.iappend_block. destruct (Z.ltb_spec fbn NDIRECT) as [H|H]; unfold NDIRECT in H.
  - rewrite faddr_dir in * by lia. change (din_addr i fbn) with (iaddr i fbn). rewrite E2.
    ustep (eq_refl : (mret i : U inode) s = Ok (Ret i) s). change (din_addr i fbn) with (iaddr i fbn). by rewrite E1.
  - assert (Hi : 12 <? m = true) by (apply Z.ltb_lt; lia).
    destruct (owned_xint _ _ _ _ K (fo_ind _ _ _ _ _ _ _ F Hi)) as (Hr' & E3 & E4).
    change (din_addr i NDIRECT) with (iaddr i 12). rewrite E4.
    ustep (eq_refl : (mret i : U inode) s = Ok (Ret i) s). change (din_addr i NDIRECT) with (iaddr i 12). rewrite E3.
    ustep (rsect_ok errmsg s (iaddr i 12) _ (proj1 K) ltac:(lia)).
    rewrite faddr_ind in E1, E2 |- * by lia. rewrite <- E3, E4, E3 in E1, E2 |- *.
    unfold NDIRECT. rewrite xint_u32 in E2.
    destruct (Z.eqb_spec (get32 (blkof (m_img s) (iaddr i 12)) (Z.to_nat (4 * (fbn - 12)))) 0) as [E|E].
    + rewrite E in E2. done.
    + ustep (eq_refl : (mret (blkof (m_img s) (iaddr i 12)) : U _) s = Ok (Ret (blkof (m_img s) (iaddr i 12))) s).
      by rewrite E1.
Qed.

Lemma mk_ok_take s own p : mk_ok s own → m_freeblock s < 1000 →
  mk_ok (m_set_block (m_freeblock s + 1) s) (give (m_freeblock s) p own).
Proof.
  intros [I Ho] H. pose proof (im_fb _ _ I). split; [by apply img_ok_take|]. by apply own_ok_give; [|lia].
Qed.

Lemma iappend_block_direct s own inum i bs m :
  mk_ok s own → fileok (m_img s) own inum i bs m (12 <? m) → m < 12 → m_freeblock s < 1000 →
  block_done s own inum i bs m m.
Proof.
  intros K F Hm Hfb. destruct K as [I Ho]. pose proof (im_fb _ _ I). pose proof (fo_m _ _ _ _ _ _ _ F).
  destruct (fileok_direct _ _ _ _ _ _ _ _ I Ho F Hm Hfb) as [F' Hx].
  unfold block_done. rewrite Z.max_r by lia.
  exists (set_din_addr m (m_freeblock s) i), (m_set_block (m_freeblock s + 1) s), (give (m_freeblock s) (inum, m) own).
  split; [|split_and!].
  - unfold Mkfs.iappend_block. rewrite (proj2 (Z.ltb_lt m NDIRECT)) by (unfold NDIRECT; lia).
    pose proof (fo_end _ _ _ _ _ _ _ F m ltac:(lia)) as E. rewrite faddr_dir in E by lia.
    change (din_addr i m) with (iaddr i m). rewrite E. change (xint 0 =? 0) with true. cbv iota.
    rewrite (ubind_ret _ _ _ (set_din_addr m (m_freeblock s) i) (m_set_block (m_freeblock s + 1) s))
      by (ustep (take_block_ok s ltac:(lia)); by rewrite xint_small by lia).
    cbn beta. change (m_img (m_set_block _ s)) with (m_img s). rewrite Hx.
    change (din_addr ?x m) with (iaddr x m). rewrite <- (faddr_dir (view_of (m_img s))), Hx by lia.
    by rewrite xint_small by lia.
  - by apply mk_ok_take.
  - change (m_img (m_set_block _ s)) with (m_img s).
    rewrite (proj2 (Z.ltb_ge 12 m)) in F' by lia. by rewrite (proj2 (Z.ltb_ge 12 (m + 1))) by lia.
  - by apply keeps_give.
  - unfold tb. rewrite (proj2 (Z.ltb_ge 12 (m + 1))), (proj2 (Z.ltb_ge 12 m)) by lia. simpl. lia.
  - done.
  - by eexists.
Qed.

(** The part of [iappend_block] that sees to the indirect block. *)
Lemma iappend_indirect s own inum i bs m :
  mk_ok s own → fileok (m_img s) own inum i bs m (12 <? m) → 12 ≤ m → m_freeblock s + (if m =? 12 then 1 else 0) ≤ 1000 →
  let fb := m_freeblock s + (if m =? 12 then 1 else 0) in
  ∃ i' own', (if xint (din_addr i NDIRECT) =? 0 then b ← take_block; mret (set_din_addr NDIRECT (xint b) i) else mret i) s
      = Ok (Ret i') (m_set_block fb s) ∧
    mk_ok (m_set_block fb s) own' ∧ fileok (m_img s) own' inum i' bs m true ∧ keeps inum (m_img s) own (m_img s) own' ∧
    same_meta i i'.
Proof.
  intros K F Hm Hfb. destruct (Z.eqb_spec m 12) as [->|Hne]; intros fb; subst fb.
  - change (12 <? 12) with false in F. change (din_addr i NDIRECT) with (iaddr i 12).
    rewrite (proj1 (fo_noind _ _ _ _ _ _ _ F eq_refl)). change (xint 0 =? 0) with true. cbv iota.
    destruct K as [I Ho]. pose proof (im_fb _ _ I).
    exists (set_din_addr 12 (m_freeblock s) i), (give (m_freeblock s) (inum, -1) own).
    split; [ustep (take_block_ok s ltac:(lia)); by rewrite xint_small by lia|].
    split_and!; [by apply mk_ok_take; [|lia]|by apply fileok_indirect; try lia|by apply keeps_give|by eexists].
  - rewrite (proj2 (Z.ltb_lt 12 m)) in F by lia. exists i, own.
    destruct (owned_xint _ _ _ _ K (fo_ind _ _ _ _ _ _ _ F eq_refl)) as (_ & _ & E4).
    change (din_addr i NDIRECT) with (iaddr i 12). rewrite E4, Z.add_0_r. destruct s.
    split_and!; [done|done|done|apply keeps_refl|apply same_meta_refl].
Qed.

Lemma iappend_block_entry s own inum i bs m :
  mk_ok s own → fileok (m_img s) own inum i bs m (12 <? m) → 12 ≤ m < 140 → m_freeblock s + tb (m + 1) - tb m ≤ 1000 →
  block_done s own inum i bs m m.
Proof.
  intros K F Hm Hfb. assert (Ht : tb (m + 1) - tb m = (if m =? 12 then 1 else 0) + 1).
  { unfold tb. destruct (Z.ltb_spec 12 (m + 1)), (Z.ltb_spec 12 m), (Z.eqb_spec m 12); lia. }
  destruct (iappend_indirect s own inum i bs m K F) as (i1 & own1 & E1 & K1 & F1 & P1 & M1); [lia|lia|].
  set (fb := m_freeblock s + (if m =? 12 then 1 else 0)) in *. set (s1 := m_set_block fb s) in *.
  destruct K1 as [I1 O1]. pose proof (im_fb _ _ I1) as Hfb1. change (m_freeblock s1) with fb in Hfb1.
  destruct (owned_xint s1 own1 _ _ (conj I1 O1) (fo_ind _ _ _ _ _ _ _ F1 eq_refl)) as (Hr & X1 & X2).
  destruct (fileok_entry _ _ _ _ _ _ _ I1 O1 F1 Hm ltac:(simpl; lia)) as (F2 & I2 & P2 & Hx).
  pose proof (fo_end _ _ _ _ _ _ _ F1 m ltac:(lia)) as Hz. rewrite faddr_ind in Hz by lia.
  change (m_freeblock s1) with fb in *. change (m_img s1) with (m_img s) in *.
  set (a := iaddr i1 12) in *. replace (a =? 0) with false in Hz by (symmetry; apply Z.eqb_neq; lia).
  set (ib := put32 (blkof (m_img s) a) (Z.to_nat (4 * (m - 12))) fb) in *. set (img' := <[Z.to_nat a := ib]> (m_img s)) in *.
  unfold block_done. rewrite Z.max_r by lia.
  exists i1, (m_set_img img' (m_set_block (fb + 1) s)), (give fb (inum, m) own1).
  assert (Hal : length (blkof (m_img s) a) = 512%nat) by (apply (block_length _ _ _ I1); lia).
  split; [|split_and!].
  - unfold Mkfs.iappend_block. rewrite (proj2 (Z.ltb_ge m NDIRECT)) by (unfold NDIRECT; lia).
    ustep E1. change (din_addr i1 NDIRECT) with a. rewrite X1. ustep (rsect_ok errmsg s1 a fb I1 ltac:(lia)).
    unfold NDIRECT. change (m_img s1) with (m_img s). rewrite Hz. change (0 =? 0) with true. cbv iota.
    rewrite (ubind_ret _ _ _ ib (m_set_img img' (m_set_block (fb + 1) s))).
    + cbn beta. change (m_img (m_set_img img' _)) with img'. rewrite Hx. unfold ib.
      rewrite get32_put32_eq, u32_small, xint_small by lia. done.
    + ustep (take_block_ok s1 ltac:(simpl; lia)). change (m_freeblock s1) with fb. rewrite (xint_small fb) by lia. fold ib.
      ustep (wsect_ok errmsg (m_set_block (fb + 1) s1) a ib fb I1 ltac:(lia)). done.
  - split; [done|]. simpl. apply own_ok_give; [done|lia].
  - by rewrite (proj2 (Z.ltb_lt 12 (m + 1))) by lia.
  - by eapply keeps_trans.
  - simpl. lia.
  - done.
  - done.
Qed.

Lemma iappend_block_ok s own inum i bs m fbn :
  mk_ok s own → fileok (m_img s) own inum i bs m (12 <? m) → 0 ≤ fbn ≤ m → fbn < 140 →
  m_freeblock s + tb (Z.max m (fbn + 1)) - tb m ≤ 1000 → block_done s own inum i bs m fbn.
Proof.
  intros K F H H' Hfb. destruct (decide (fbn < m)); [apply iappend_block_have; [done|done|lia]|].
  assert (fbn = m) as -> by lia. rewrite Z.max_r in Hfb by lia. destruct (decide (m < 12)).
  - apply iappend_block_direct; try done. unfold tb in Hfb.
    rewrite (proj2 (Z.ltb_ge 12 (m + 1))), (proj2 (Z.ltb_ge 12 m)) in Hfb by lia. lia.
  - by apply iappend_block_entry; [..|lia|].
Qed.

Lemma tb_mono m m' : m ≤ m' → tb m ≤ tb m'.
Proof. intros H. unfold tb. destruct (Z.ltb_spec 12 m), (Z.ltb_spec 12 m'); lia. Qed.

Notation len l := (Z.of_nat (length l)).

(** What appending [p] to file [inum] ends with. *)
Definition appended (s : mk) (own : owner) (inum : Z) (i : inode) (bs p : list Z) (i' : inode) (s' : mk) (own' : owner) : Prop :=
  let m' := nb (len bs + len p) in
  mk_ok s' own' ∧ fileok (m_img s') own' inum i' (bs ++ p) m' (12 <? m') ∧ keeps inum (m_img s) own (m_img s') own' ∧
  m_freeblock s' = m_freeblock s + tb m' - tb (nb (len bs)) ∧ same_vars s s' ∧ same_meta i i'.

(** One round of the loop. *)
Lemma iappend_round s own inum i bs p :
  p ≠ [] → mk_ok s own → fileok (m_img s) own inum i bs (nb (len bs)) (12 <? nb (len bs)) →
  len bs + len p ≤ 140 * 512 → m_freeblock s + tb (nb (len bs + len p)) - tb (nb (len bs)) ≤ 1000 →
  let fbn := len bs / 512 in
  let n1 := Z.to_nat (Z.min (len p) ((fbn + 1) * 512 - len bs)) in
  ∃ i' s1 s' own', iappend_block i fbn s = Ok (Ret (i', faddr (view_of (m_img s1)) i' fbn)) s1 ∧
    mk_ok s1 own' ∧ 59 ≤ faddr (view_of (m_img s1)) i' fbn < 1000 ∧
    s' = m_set_img (<[Z.to_nat (faddr (view_of (m_img s1)) i' fbn) :=
      splice (Z.to_nat (len bs - fbn * 512)) (take n1 p) (blkof (m_img s1) (faddr (view_of (m_img s1)) i' fbn))]> (m_img s1)) s1 ∧
    appended s own inum i bs (take n1 p) i' s' own'.
Proof.
  intros Hp K F Hl Hfb fbn n1. assert (Hlp : 0 < len p) by (destruct p; [done|simpl; lia]).
  assert (Hn : nb (len bs) = (len bs + 511) / 512) by done.
  assert (Hn1 : len (take n1 p) = Z.of_nat n1) by (rewrite length_take; unfold n1; lia).
  assert (Hm : Z.max (nb (len bs)) (fbn + 1) = nb (len bs + len (take n1 p))) by (unfold nb, fbn, n1 in *; lia).
  assert (Hle : nb (len bs + len (take n1 p)) ≤ nb (len bs + len p)) by (unfold nb, n1 in *; lia).
  apply tb_mono in Hle.
  destruct (iappend_block_ok s own inum i bs (nb (len bs)) fbn K F) as (i' & s1 & own' & E & K1 & F1 & P1 & B1 & V1 & M1);
    [unfold fbn; lia|unfold fbn; lia|rewrite Hm; lia|].
  rewrite Hm in *. set (x := faddr (view_of (m_img s1)) i' fbn) in *.
  assert (Hfm : 0 ≤ fbn < nb (len bs + len (take n1 p))) by (rewrite <- Hm; unfold fbn; lia).
  destruct (fileok_write (m_img s1) own' inum i' bs _ _ _ fbn (take n1 p) (proj1 K1) (proj2 K1) F1 Hfm) as (F2 & I2 & P2);
    [unfold fbn; lia|rewrite length_app; unfold n1 in *; lia|]. fold x in F2, I2, P2.
  destruct (owned_xint _ _ _ _ K1 (fo_map _ _ _ _ _ _ _ F1 fbn Hfm)) as (Hr & _).
  eexists i', s1, _, own'. split_and!; [done|done|fold x; lia..|reflexivity|].
  split_and!; [by split; [|apply K1]|done|by eapply keeps_trans|exact B1|exact V1|exact M1].
Qed.

Lemma appended_nil s own inum i bs :
  mk_ok s own → fileok (m_img s) own inum i bs (nb (len bs)) (12 <? nb (len bs)) → appended s own inum i bs [] i s own.
Proof.
  intros K F. unfold appended. simpl. rewrite Z.add_0_r, app_nil_r.
  split_and!; [done|done|apply keeps_refl|lia|done|apply same_meta_refl].
Qed.

Lemma iappend_loop_S fuel din off p : p ≠ [] →
  iappend_loop (S fuel) din off p =
  (let fbn := off / BSIZE in
   assert_ (fbn <? MAXFILE);;
   '(din, x) ← iappend_block din fbn;
   let n1 := Z.to_nat (Z.min (len p) ((fbn + 1) * BSIZE - off)) in
   buf ← rsect ok errmsg x;
   wsect ok errmsg x (splice (Z.to_nat (off - fbn * BSIZE)) (take n1 p) buf);;
   iappend_loop fuel din (off + Z.of_nat n1) (drop n1 p)).
Proof. by destruct p. Qed.

Lemma iappend_loop_ok fuel : ∀ p s own inum i bs, (length p ≤ fuel)%nat →
  mk_ok s own → fileok (m_img s) own inum i bs (nb (len bs)) (12 <? nb (len bs)) →
  len bs + len p ≤ 140 * 512 → m_freeblock s + tb (nb (len bs + len p)) - tb (nb (len bs)) ≤ 1000 →
  ∃ i' s' own', iappend_loop fuel i (len bs) p s = Ok (Ret (i', len bs + len p)) s' ∧ appended s own inum i bs p i' s' own'.
Proof.
  induction fuel as [|fuel IH]; intros p s own inum i bs Hf K F Hl Hb.
  all: destruct (decide (p = [])) as [->|Hp]; [exists i, s, own; split; [simpl; by rewrite Z.add_0_r|by apply appended_nil]|].
  { destruct p; [done|simpl in Hf; lia]. }
  destruct (iappend_round s own inum i bs p Hp K F Hl Hb) as (i1 & s1 & s2 & own1 & E1 & K1 & Hr & Es2 & K2 & F2 & P2 & B2 & V2 & M2).
  set (fbn := len bs / 512) in *. set (n1 := Z.to_nat (Z.min (len p) ((fbn + 1) * 512 - len bs))) in *. set (x := faddr _ i1 fbn) in *.
  assert (Hlp : 0 < len p) by (destruct p; [done|simpl; lia]).
  assert (Hn1 : Z.of_nat n1 ≤ len p ∧ 0 < Z.of_nat n1) by (unfold n1, fbn; lia).
  assert (Ht : length (take n1 p) = n1) by (rewrite length_take; lia).
  assert (Hd : length (drop n1 p) = (length p - n1)%nat) by apply length_drop.
  destruct (IH (drop n1 p) s2 own1 inum i1 (bs ++ take n1 p)) as (i3 & s3 & own3 & E3 & K3 & F3 & P3 & B3 & V3 & M3);
    rewrite ?length_app, ?Ht, ?Hd, ?Nat2Z.inj_add in *; [lia|done|exact F2|lia|..].
  { rewrite B2. replace (len bs + Z.of_nat n1 + Z.of_nat (length p - n1)) with (len bs + len p) by lia. lia. }
  replace (len bs + Z.of_nat n1 + Z.of_nat (length p - n1)) with (len bs + len p) in * by lia.
  rewrite <- app_assoc, take_drop in F3.
  exists i3, s3, own3. split.
  - rewrite iappend_loop_S by done. unfold BSIZE, assert_. fold fbn. cbv zeta.
    rewrite (proj2 (Z.ltb_lt fbn MAXFILE)) by (unfold fbn; change MAXFILE with 140; lia).
    ustep (eq_refl : (mret tt : U unit) s = Ok (Ret tt) s). ustep E1. fold x. fold n1.
    ustep (rsect_ok errmsg s1 x _ (proj1 K1) ltac:(lia)). ustep (wsect_ok errmsg s1 x (splice (Z.to_nat (len bs - fbn * 512)) (take n1 p) (blkof (m_img s1) x)) _ (proj1 K1) ltac:(lia)).
    rewrite <- Es2. exact E3.
  - split_and!; [done|done|by eapply keeps_trans|rewrite B3, B2; lia|by destruct V2, V3; split; congruence|by eapply same_meta_trans].
Qed.
End append.
