(* ===== verification/MkfsImage.v ===== *)
(** * The image that mkfs writes

    [mkinv] is the invariant of the whole image: the superblock, an empty log,
    the inodes of the files made so far with their contents, and free inodes
    behind them.  Every function of mkfs keeps it; MkfsKernel.v looks
    at the image with the eyes of the kernel. *)

From S2P Require Import Prelude Params BlockDev Sleeplock Fs FsFile Dinode Usys Printf Mkfs Image.

Notation blkof img b := (blk (view_of img) b).
Notation ok := (λ _ : Z, IoWorks).
Notation owner := (Z → option (Z * Z)).
Notation len l := (Z.of_nat (length l)).

(** The inode with number [inum], as it is on the disk. *)
Definition disk_inode (img : list (list Z)) (inum : Z) : inode :=
  dinode_get (blkof img (IBLOCK inum mk_sb)) (d_off inum) inode0.

Lemma IBLOCK_mk inum : 0 ≤ inum < 208 → IBLOCK inum mk_sb = inum / 8 + 32 ∧ 32 ≤ IBLOCK inum mk_sb < 58.
Proof. intros H. unfold IBLOCK. change IPB with 8. change (sb_inodestart mk_sb) with 32. lia. Qed.

Lemma d_off_mk inum : d_off inum = Z.to_nat (inum mod 8 * 64).
Proof. reflexivity. Qed.

Section inodes.
Context (errmsg : list Z).

(** Writing an inode changes this inode and nothing else. *)
Lemma winode_ok s own inum i : mk_ok s own → 0 ≤ inum < 208 → din_ok i →
  ∃ img', winode ok errmsg inum i s = Ok (Ret tt) (m_set_img img' s) ∧ mk_ok (m_set_img img' s) own ∧
    disk_inode img' inum = i ∧
    (∀ inum', 0 ≤ inum' < 208 → inum' ≠ inum → disk_inode img' inum' = disk_inode (m_img s) inum') ∧
    (∀ b, 0 ≤ b → b < 32 ∨ 58 ≤ b → blkof img' b = blkof (m_img s) b).
Proof.
  intros K Hi Hd. destruct (IBLOCK_mk inum Hi) as [E1 E2]. set (bn := IBLOCK inum mk_sb) in *.
  pose proof (im_fb _ _ (proj1 K)) as Hfb. pose proof (im_len _ _ (proj1 K)) as Hlen.
  assert (Hbl : length (blkof (m_img s) bn) = 512%nat) by (apply (block_length _ _ _ (proj1 K)); lia).
  assert (Ho : (d_off inum + 64 ≤ 512)%nat) by (rewrite d_off_mk; lia).
  set (d := dinode_put (blkof (m_img s) bn) (d_off inum) i).
  assert (Hdl : length d = 512%nat).
  { unfold d. rewrite length_dinode_put; [done|exact (dr_len _ Hd)|]. change (Z.to_nat DINODESZ) with 64%nat. lia. }
  exists (<[Z.to_nat bn := d]> (m_img s)).
  assert (Hb : ∀ b, 0 ≤ b → blkof (<[Z.to_nat bn := d]> (m_img s)) b = if decide (b = bn) then d else blkof (m_img s) b)
    by (intros b H0; apply blk_put; lia).
  split_and!.
  - unfold winode. fold bn. ustep (rsect_ok errmsg s bn _ (proj1 K) ltac:(lia)).
    apply (wsect_ok errmsg s bn d _ (proj1 K)). lia.
  - split; [|apply K]. apply img_ok_put; [apply K|simpl; lia|done].
  - unfold disk_inode. fold bn. rewrite Hb, decide_True by lia. apply dinode_get_put0; [done|lia].
  - intros inum' Hi' Hne. destruct (IBLOCK_mk inum' Hi') as [E1' E2']. unfold disk_inode. rewrite Hb by lia.
    destruct (decide _) as [E|]; [|done]. rewrite E. apply dinode_get_other; [exact (dr_len _ Hd)|lia|].
    rewrite !d_off_mk. rewrite E1', E1 in E. lia.
  - intros b H0 H. rewrite Hb, decide_False by lia. done.
Qed.

Lemma rinode_ok s own inum : mk_ok s own → 0 ≤ inum < 208 →
  rinode ok errmsg inum s = Ok (Ret (disk_inode (m_img s) inum)) s.
Proof.
  intros K Hi. destruct (IBLOCK_mk inum Hi) as [_ E]. unfold rinode.
  by ustep (rsect_ok errmsg s (IBLOCK inum mk_sb) _ (proj1 K) ltac:(lia)).
Qed.
End inodes.

(** ** The invariant *)

(** A file: its type and its bytes. *)
Notation fent := (Z * list Z)%type.

Record inode_ok (img : list (list Z)) (own : owner) (inum : Z) (f : fent) (i : inode) : Prop := {
  io_din : din_ok i;
  io_type : i_type i = f.1;
  io_nlink : i_nlink i = 1;
  io_size : i_size i = len f.2;
  io_max : len f.2 ≤ 140 * 512;
  io_file : fileok img own inum i f.2 (nb (len f.2)) (12 <? nb (len f.2)) }.

Record mkinv (s : mk) (own : owner) (fs : list fent) : Prop := {
  mi_ok : mk_ok s own;
  mi_next : m_freeinode s = len fs + 1;
  mi_max : len fs < 200;
  mi_file : ∀ k f, fs !! k = Some f → inode_ok (m_img s) own (Z.of_nat k + 1) f (disk_inode (m_img s) (Z.of_nat k + 1));
  mi_free : ∀ inum, 0 ≤ inum < 208 → inum = 0 ∨ len fs < inum → i_type (disk_inode (m_img s) inum) = 0;
  mi_sb : blkof (m_img s) 1 = splice 0 (sb_bytes mk_sb) zeros;
  mi_log : ∀ b, 2 ≤ b < 32 → blkof (m_img s) b = zeros }.

(** The addresses of an inode fit in a word. *)
Lemma fileok_range img own inum i bs m ind fb : img_ok img fb → own_ok own fb → fileok img own inum i bs m ind →
  Forall (λ a, 0 ≤ a < 4294967296) (i_addrs i).
Proof.
  intros I Ho F. pose proof (im_fb _ _ I). apply Forall_lookup. intros k a Hk.
  assert (Ha : iaddr i (Z.of_nat k) = a) by (unfold iaddr; by rewrite Nat2Z.id, Hk).
  apply lookup_lt_Some in Hk. rewrite (fo_addrs _ _ _ _ _ _ _ F) in Hk. destruct (decide (k = 12)%nat) as [->|].
  - change (Z.of_nat 12) with 12 in Ha. destruct ind.
    + pose proof (Ho _ _ (fo_ind _ _ _ _ _ _ _ F eq_refl)). lia.
    + destruct (fo_noind _ _ _ _ _ _ _ F eq_refl). lia.
  - rewrite <- (faddr_dir (view_of img)) in Ha by lia. destruct (decide (Z.of_nat k < m)).
    + pose proof (Ho _ _ (fo_map _ _ _ _ _ _ _ F (Z.of_nat k) ltac:(lia))). lia.
    + pose proof (fo_end _ _ _ _ _ _ _ F (Z.of_nat k) ltac:(lia)). lia.
Qed.

(** Blocks below the data are those of the old image. *)
Lemma keeps_inodes inum img own img' own' k : keeps inum img own img' own' → 0 ≤ k < 208 → disk_inode img' k = disk_inode img k.
Proof.
  intros [_ K] Hk. destruct (IBLOCK_mk k Hk) as [_ E]. unfold disk_inode. by rewrite K by lia.
Qed.

Lemma fileok_winode img own inum i bs m ind img' fb : own_ok own fb →
  (∀ b, 0 ≤ b → b < 32 ∨ 58 ≤ b → blkof img' b = blkof img b) →
  fileok img own inum i bs m ind → fileok img' own inum i bs m ind.
Proof. intros Ho H. apply fileok_same. intros b k Hb. split; [done|]. apply Ho in Hb. apply H; lia. Qed.

Lemma fileok_size img own inum i bs m ind n : fileok img own inum i bs m ind → fileok img own inum (set_isize n i) bs m ind.
Proof. by intros []; split. Qed.

Section files.
Context (errmsg : list Z).

(** An inode after bytes were appended to its file, as it is written back. *)
Lemma appended_inode s own inum f i p i' s' own' :
  inode_ok (m_img s) own inum f i → appended s own inum i f.2 p i' s' own' → len f.2 + len p ≤ 140 * 512 →
  inode_ok (m_img s') own' inum (f.1, f.2 ++ p) (set_isize (xint (len f.2 + len p)) i').
Proof.
  intros [D1 D2 D3 D4 D5 D6] (K & F & _ & _ & _ & l & ->) Hl. rewrite xint_small by lia.
  assert (Hlen : len (f.2 ++ p) = len f.2 + len p) by (rewrite length_app; lia).
  split; simpl; rewrite ?Hlen; try done.
  - destruct D1 as [M1 [M2 M3 M4 M5]]. split; [done|]. split; simpl; [done|lia|exact (fo_addrs _ _ _ _ _ _ _ F)|].
    exact (fileok_range _ _ _ _ _ _ _ _ (proj1 K) (proj2 K) F).
  - by apply fileok_size.
Qed.

(** Writing the inode of file [k] back after its blocks have changed. *)
Lemma mkinv_winode s own fs k f' s1 own1 i' : mkinv s own fs → (k < length fs)%nat → mk_ok s1 own1 →
  keeps (Z.of_nat k + 1) (m_img s) own (m_img s1) own1 → same_vars s s1 → inode_ok (m_img s1) own1 (Z.of_nat k + 1) f' i' →
  ∃ s2, winode ok errmsg (Z.of_nat k + 1) i' s1 = Ok (Ret tt) s2 ∧ mkinv s2 own1 (<[k := f']> fs) ∧
    m_freeblock s2 = m_freeblock s1 ∧ m_said s2 = m_said s.
Proof.
  intros [K N Mx MF Mfree Msb Mlog] Hk K1 P1 [V1 V2] Hf1. set (inum := Z.of_nat k + 1) in *.
  destruct (winode_ok errmsg s1 own1 inum _ K1 ltac:(unfold inum; lia) (io_din _ _ _ _ _ Hf1)) as (img' & E2 & K2 & W1 & W2 & W3).
  exists (m_set_img img' s1). split_and!; [done|split|done|done].
  - done.
  - simpl. by rewrite V1, length_insert.
  - by rewrite length_insert.
  - intros k' f0 Hk'. change (m_img (m_set_img img' s1)) with img'. destruct (decide (k' = k)) as [->|Hne].
    + rewrite list_lookup_insert_eq in Hk' by done. injection Hk' as <-. fold inum. rewrite W1.
      destruct Hf1 as [D1 D2 D3 D4 D5 D6]. split; try done. by eapply fileok_winode; [apply K1|..].
    + rewrite list_lookup_insert_ne in Hk' by done. pose proof (lookup_lt_Some _ _ _ Hk').
      rewrite W2 by (unfold inum; lia). rewrite (keeps_inodes _ _ _ _ _ _ P1) by lia.
      destruct (MF k' f0 Hk') as [D1 D2 D3 D4 D5 D6]. split; try done.
      eapply fileok_winode; [apply K1|done|]. eapply fileok_frame; [apply K|done| |done]. unfold inum. lia.
  - intros inum' Hi' H. rewrite length_insert in H.
    change (m_img (m_set_img img' s1)) with img'. rewrite W2 by (unfold inum; lia).
    rewrite (keeps_inodes _ _ _ _ _ _ P1) by done. by apply Mfree.
  - simpl. rewrite W3 by lia. by rewrite (ke_blk _ _ _ _ _ P1) by lia.
  - intros b H. simpl. rewrite W3 by lia. rewrite (ke_blk _ _ _ _ _ P1) by lia. by apply Mlog.
Qed.

(** [iappend] appends to one file and leaves the others alone. *)
Lemma iappend_ok s own fs k f p : mkinv s own fs → fs !! k = Some f → len f.2 + len p ≤ 140 * 512 →
  m_freeblock s + tb (nb (len f.2 + len p)) - tb (nb (len f.2)) ≤ 1000 →
  ∃ s' own', iappend ok errmsg (Z.of_nat k + 1) p s = Ok (Ret tt) s' ∧ mkinv s' own' (<[k := (f.1, f.2 ++ p)]> fs) ∧
    m_freeblock s' = m_freeblock s + tb (nb (len f.2 + len p)) - tb (nb (len f.2)) ∧ m_said s' = m_said s.
Proof.
  intros M Hk Hl Hb. pose proof (lookup_lt_Some _ _ _ Hk) as Hkl. pose proof (mi_ok _ _ _ M) as K.
  pose proof (mi_file _ _ _ M k f Hk) as Hf. set (inum := Z.of_nat k + 1) in *. set (i := disk_inode (m_img s) inum) in *.
  destruct (iappend_loop_ok errmsg (length p) p s own inum i f.2 ltac:(lia) K (io_file _ _ _ _ _ Hf) Hl Hb)
    as (i' & s1 & own1 & E1 & A1).
  pose proof (appended_inode s own inum f i p i' s1 own1 Hf A1 Hl) as Hf1.
  destruct A1 as (K1 & F1 & P1 & B1 & V1 & _).
  destruct (mkinv_winode s own fs k _ s1 own1 _ M Hkl K1 P1 V1 Hf1) as (s2 & E2 & M2 & B2 & V2). fold inum in E2.
  exists s2, own1. split_and!; [|done|congruence|done].
  unfold iappend. ustep (rinode_ok errmsg s own inum K ltac:(pose proof (mi_max _ _ _ M); unfold inum; lia)). fold i.
  rewrite (io_size _ _ _ _ _ Hf), (xint_small (len f.2)) by lia. ustep E1. exact E2.
Qed.

Lemma fileok_empty img own inum i : length (i_addrs i) = 13%nat → i_addrs i = replicate 13 0 → fileok img own inum i [] 0 false.
Proof.
  intros Hl E. assert (Hi : ∀ k, 0 ≤ k → iaddr i k = 0).
  { intros k Hk. unfold iaddr. rewrite E. destruct (decide (Z.to_nat k < 13)%nat).
    - by rewrite lookup_replicate_2.
    - by rewrite lookup_ge_None_2 by (rewrite length_replicate; lia). }
  split; simpl; try done; try lia.
  - intros k Hk. destruct (decide (k < 12)); [rewrite faddr_dir by lia; apply Hi; lia|].
    rewrite faddr_ind, Hi by lia. done.
  - intros _. split; [apply Hi|]; lia.
Qed.

(** [ialloc] makes an empty file of the type. *)
Lemma ialloc_ok s own fs type : mkinv s own fs → len fs < 199 → 0 ≤ type < 32768 →
  ∃ s', ialloc ok errmsg type s = Ok (Ret (len fs + 1)) s' ∧ mkinv s' own (fs ++ [(type, [])]) ∧
    m_freeblock s' = m_freeblock s ∧ m_said s' = m_said s.
Proof.
  intros [K N Mx MF Mfree Msb Mlog] Hn Ht. set (inum := len fs + 1) in *.
  set (i := set_isize (xint 0) (set_inlink (xshort 1) (set_itype (xshort type) inode0))).
  assert (Hty : i_type i = type) by (unfold i; simpl; rewrite xshort_u16; unfold u16; lia).
  assert (Hd : din_ok i).
  { split; [done|]. split; [ |done|done|].
    - rewrite Hty. intros x Hx. rewrite !elem_of_cons, elem_of_nil in Hx. destruct Hx as [->|[->|[->|[->|[]]]]]; simpl; lia || done.
    - by apply Forall_replicate. }
  set (s1 := m_set_inode (u32 (inum + 1)) s). assert (K1 : mk_ok s1 own) by exact K.
  destruct (winode_ok errmsg s1 own inum i K1 ltac:(unfold inum; lia) Hd) as (img' & E2 & K2 & W1 & W2 & W3).
  exists (m_set_img img' s1). split_and!; [|split|done|done].
  - unfold ialloc, ugets, umodify. ucall (eq_refl : gets m_freeinode s = Ok (m_freeinode s) s). rewrite N. fold inum.
    rewrite (ubind_ret _ _ s tt s1) by done. cbn beta. fold i. by ustep E2.
  - done.
  - simpl. rewrite length_app, u32_small by (unfold inum; lia). simpl. unfold inum. lia.
  - rewrite length_app. simpl. lia.
  - intros k f Hk. simpl. destruct (decide (k < length fs)%nat).
    + rewrite lookup_app_l in Hk by done. rewrite W2 by (unfold inum; lia).
      destruct (MF k f Hk) as [D1 D2 D3 D4 D5 D6]. split; try done. by eapply fileok_winode; [apply K|..].
    + rewrite lookup_app_r in Hk by lia. destruct (k - length fs)%nat eqn:E; [|done]. injection Hk as <-.
      replace (Z.of_nat k + 1) with inum by (unfold inum; lia). rewrite W1. split; try done.
      by apply fileok_empty.
  - intros inum' Hi' H. rewrite length_app in H. simpl in H.
    change (m_img (m_set_img img' s1)) with img'. rewrite W2 by (unfold inum; lia). apply Mfree; [done|lia].
  - simpl. rewrite W3 by lia. done.
  - intros b H. simpl. rewrite W3 by lia. by apply Mlog.
Qed.
End files.

(** ** Counting blocks *)

Definition blocks (f : fent) : Z := tb (nb (len f.2)).
Definition sumb (fs : list fent) : Z := foldr (λ f a, blocks f + a) 0 fs.

Lemma blocks_nonneg f : 0 ≤ blocks f.
Proof. unfold blocks, tb, nb. destruct (12 <? _); lia. Qed.

Lemma blocks_mono ty bs p : blocks (ty, bs) ≤ blocks (ty, bs ++ p).
Proof. unfold blocks. simpl. apply tb_mono. unfold nb. rewrite length_app. lia. Qed.

Lemma sumb_app fs1 fs2 : sumb (fs1 ++ fs2) = sumb fs1 + sumb fs2.
Proof. induction fs1 as [|f fs1 IH]; simpl; [done|]. unfold sumb in *. lia. Qed.

Lemma sumb_insert fs k f f' : fs !! k = Some f → sumb (<[k := f']> fs) = sumb fs - blocks f + blocks f'.
Proof.
  revert k. induction fs as [|g fs IH]; intros [|k] Hk; try done.
  - injection Hk as ->. simpl. lia.
  - simpl. specialize (IH k Hk). unfold sumb in *. lia.
Qed.

(** The state of the image, with the number of blocks taken. *)
Definition inv (s : mk) (fs : list fent) : Prop := ∃ own, mkinv s own fs ∧ m_freeblock s = 59 + sumb fs.

Definition append_to (k : nat) (p : list Z) (fs : list fent) : list fent :=
  match fs !! k with Some f => <[k := (f.1, f.2 ++ p)]> fs | None => fs end.

Lemma append_to_eq k p fs f : fs !! k = Some f → append_to k p fs = <[k := (f.1, f.2 ++ p)]> fs.
Proof. intros H. unfold append_to. by rewrite H. Qed.

Lemma sumb_append k p fs : sumb fs ≤ sumb (append_to k p fs).
Proof.
  unfold append_to. destruct (fs !! k) as [[ty bs]|] eqn:E; [|done]. rewrite (sumb_insert _ _ _ _ E). simpl.
  pose proof (blocks_mono ty bs p). lia.
Qed.

Lemma append_to_app k p q fs : append_to k q (append_to k p fs) = append_to k (p ++ q) fs.
Proof.
  unfold append_to at 2 3. destruct (fs !! k) as [f|] eqn:E; [|unfold append_to; by rewrite E].
  rewrite (append_to_eq k q _ (f.1, f.2 ++ p)) by (apply list_lookup_insert_eq; by eapply lookup_lt_Some).
  rewrite list_insert_insert_eq. simpl. by rewrite app_assoc.
Qed.

Lemma length_append_to k p fs : length (append_to k p fs) = length fs.
Proof. unfold append_to. destruct (fs !! k); [apply length_insert|done]. Qed.

Lemma lookup_append_to k p fs f : fs !! k = Some f → append_to k p fs !! k = Some (f.1, f.2 ++ p).
Proof. intros H. rewrite (append_to_eq _ _ _ _ H). apply list_lookup_insert_eq. by eapply lookup_lt_Some. Qed.

Lemma lookup_append_ne k k' p fs : k' ≠ k → append_to k p fs !! k' = fs !! k'.
Proof. intros H. unfold append_to. destruct (fs !! k); [by apply list_lookup_insert_ne|done]. Qed.

Section main.
Context (errmsg : list Z).

Lemma append_ok s fs k f p : inv s fs → fs !! k = Some f → len f.2 + len p ≤ 140 * 512 →
  59 + sumb (append_to k p fs) ≤ 1000 →
  ∃ s', iappend ok errmsg (Z.of_nat k + 1) p s = Ok (Ret tt) s' ∧ inv s' (append_to k p fs) ∧ m_said s' = m_said s.
Proof.
  intros (own & H & B) Hk Hl Hb. rewrite (append_to_eq _ _ _ _ Hk) in *. rewrite (sumb_insert _ _ _ _ Hk) in Hb.
  assert (E : blocks (f.1, f.2 ++ p) = tb (nb (len f.2 + len p))).
  { unfold blocks. simpl. by rewrite length_app, Nat2Z.inj_add. }
  assert (E0 : blocks f = tb (nb (len f.2))) by done.
  destruct (iappend_ok errmsg s own fs k f p H Hk Hl ltac:(lia)) as (s' & own' & E1 & H1 & B1 & S1).
  exists s'. split_and!; [done| |done]. exists own'. split; [done|]. rewrite (sumb_insert _ _ _ _ Hk). lia.
Qed.

Lemma copy_file_ok fuel : ∀ data s fs k f, inv s fs → fs !! k = Some f → (length data ≤ fuel)%nat →
  len f.2 + len data ≤ 140 * 512 → 59 + sumb (append_to k data fs) ≤ 1000 →
  ∃ s', copy_file ok errmsg fuel (Z.of_nat k + 1) data s = Ok (Ret tt) s' ∧ inv s' (append_to k data fs) ∧ m_said s' = m_said s.
Proof.
  induction fuel as [|fuel IH]; intros data s fs k f H Hk Hf Hl Hb;
    (destruct data as [|b data]; [exists s; rewrite (append_to_eq _ _ _ _ Hk), app_nil_r, list_insert_id by (by destruct f); done|]).
  { simpl in Hf. lia. }
  set (d := b :: data) in *. cbn [copy_file]. change (Z.to_nat BSIZE) with 512%nat.
  assert (Ed : take 512 d ++ drop 512 d = d) by apply take_drop.
  assert (Hd : (0 < length d)%nat) by (simpl; lia).
  assert (Ht : (length (take 512 d) + length (drop 512 d) = length d)%nat) by (rewrite <- length_app, Ed; done).
  assert (Ht1 : (0 < length (take 512 d))%nat) by (rewrite length_take; lia).
  rewrite <- Ed, <- append_to_app in Hb.
  destruct (append_ok s fs k f (take 512 d) H Hk) as (s1 & E1 & H1 & S1); [lia| |].
  { pose proof (sumb_append k (drop 512 d) (append_to k (take 512 d) fs)). lia. }
  destruct (IH (drop 512 d) s1 _ k _ H1 (lookup_append_to _ _ _ _ Hk)) as (s2 & E2 & H2 & S2); [lia| |done|].
  { cbn [snd]. rewrite length_app. lia. }
  exists s2. split_and!; [|by rewrite <- Ed, <- append_to_app|congruence]. unfold d at 1. ustep E1. exact E2.
Qed.

(** ** The files *)

(** The name in the directory. *)
Definition strip (name : list Z) : list Z :=
  match name with c :: r => if c =? UNDERSCORE then r else name | [] => name end.

(** A file of the host, added: an entry in the root directory and an inode. *)
Definition added (fs : list fent) (nd : list Z * list Z) : list fent :=
  append_to 0 (dirent (len fs + 1) (strip nd.1)) fs ++ [(T_FILE, nd.2)].

Definition root0 : list fent := [(T_DIR, dirent 1 (str ".") ++ dirent 1 (str ".."))].
Definition made (nds : list (list Z * list Z)) : list fent := foldl added root0 nds.

Lemma length_dirent inum name : length (dirent inum name) = 16%nat.
Proof. unfold dirent. rewrite length_app, length_le_bytes, length_take, length_app, length_replicate. change (Z.to_nat DIRSIZ) with 14%nat. lia. Qed.

(** The first file is the root directory, with an entry for each file and two more. *)
Definition rooted (fs : list fent) : Prop := ∃ r, fs !! 0%nat = Some (T_DIR, r) ∧ length r = (16 * (length fs + 1))%nat.

Lemma rooted_added fs nd : rooted fs → rooted (added fs nd) ∧ length (added fs nd) = S (length fs).
Proof.
  intros (r & Hr & Hl). unfold added, rooted. rewrite length_app, length_append_to. simpl. split; [|lia].
  rewrite lookup_app_l by (rewrite length_append_to; by eapply lookup_lt_Some).
  eexists. split; [by rewrite (lookup_append_to _ _ _ _ Hr)|]. cbn [fst snd]. rewrite length_app, length_dirent. lia.
Qed.

Lemma sumb_added fs nd : sumb fs ≤ sumb (added fs nd).
Proof.
  unfold added. rewrite sumb_app. simpl. pose proof (sumb_append 0 (dirent (len fs + 1) (strip nd.1)) fs).
  pose proof (blocks_nonneg (T_FILE, nd.2)). lia.
Qed.

Lemma sumb_made fs nds : sumb fs ≤ sumb (foldl added fs nds).
Proof.
  revert fs. induction nds as [|nd nds IH]; intros fs; simpl; [done|].
  pose proof (sumb_added fs nd). specialize (IH (added fs nd)). lia.
Qed.

(** A file that can be added: it exists, its name has no slash and it is not
    longer than a file can be. *)
Definition addable (host : list Z → option (list Z)) (nd : list Z * list Z) : Prop :=
  host nd.1 = Some nd.2 ∧ existsb (λ c, c =? SLASH) nd.1 = false ∧ len nd.2 ≤ 140 * 512.

Lemma ialloc_inv s fs type : inv s fs → len fs < 199 → 0 ≤ type < 32768 →
  ∃ s', ialloc ok errmsg type s = Ok (Ret (len fs + 1)) s' ∧ inv s' (fs ++ [(type, [])]) ∧ m_said s' = m_said s.
Proof.
  intros (own & H & B) Hn Ht. destruct (ialloc_ok errmsg s own fs type H Hn Ht) as (s' & E & H' & B' & S').
  exists s'. split_and!; [done| |done]. exists own. split; [done|]. rewrite sumb_app. simpl. rewrite B', B.
  change (blocks (type, [])) with 0. lia.
Qed.

Lemma add_file_ok host s fs nd : inv s fs → rooted fs → addable host nd → len fs < 199 → 59 + sumb (added fs nd) ≤ 1000 →
  ∃ s', add_file ok host errmsg 1 nd.1 s = Ok (Ret tt) s' ∧ inv s' (added fs nd) ∧ m_said s' = m_said s.
Proof.
  intros H (r & Hr & Hlr) (Hh & Hs & Hl) Hn Hb. pose proof (lookup_lt_Some _ _ _ Hr) as H0.
  destruct (ialloc_inv s fs T_FILE H Hn ltac:(done)) as (s1 & E1 & H1 & S1). set (de := dirent (len fs + 1) (strip nd.1)).
  assert (Hr1 : (fs ++ [(T_FILE, [])]) !! 0%nat = Some (T_DIR, r)) by (by rewrite lookup_app_l).
  assert (Hadd : added fs nd = append_to (length fs) nd.2 (append_to 0 de (fs ++ [(T_FILE, [])]))).
  { unfold added. fold de. rewrite !(append_to_eq 0 _ _ _ Hr1), !(append_to_eq 0 _ _ _ Hr). rewrite insert_app_l by done.
    rewrite (append_to_eq _ _ _ (T_FILE, [])) by (rewrite lookup_app_r, length_insert, Nat.sub_diag by (rewrite length_insert; lia); done).
    rewrite insert_app_r_alt by (rewrite length_insert; lia). by rewrite length_insert, Nat.sub_diag. }
  rewrite Hadd in Hb |- *. pose proof (sumb_append (length fs) nd.2 (append_to 0 de (fs ++ [(T_FILE, [])]))) as Hm.
  destruct (append_ok s1 _ 0 _ de H1 Hr1) as (s2 & E2 & H2 & S2); [cbn [snd]; unfold de; rewrite length_dirent; lia|lia|].
  assert (Hf2 : append_to 0 de (fs ++ [(T_FILE, [])]) !! length fs = Some (T_FILE, [])).
  { rewrite lookup_append_ne by lia. by rewrite lookup_app_r, Nat.sub_diag. }
  destruct (copy_file_ok (length nd.2) nd.2 s2 _ (length fs) _ H2 Hf2) as (s3 & E3 & H3 & S3); [done|simpl; lia|lia|].
  exists s3. split_and!; [|done|congruence].
  unfold add_file. rewrite Hs. unfold assert_. cbn [negb]. ustep (eq_refl : (mret tt : U unit) s = Ok (Ret tt) s).
  rewrite Hh. fold (strip nd.1). ustep E1. fold de. change 1 with (Z.of_nat 0 + 1) at 2. ustep E2. exact E3.
Qed.

Lemma add_files_ok host nds : ∀ s fs, inv s fs → rooted fs → Forall (addable host) nds → len fs + len nds ≤ 199 →
  59 + sumb (foldl added fs nds) ≤ 1000 →
  ∃ s', add_files ok host errmsg 1 (nds.*1) s = Ok (Ret tt) s' ∧ inv s' (foldl added fs nds) ∧ rooted (foldl added fs nds) ∧
    m_said s' = m_said s.
Proof.
  induction nds as [|nd nds IH]; intros s fs H Hr Ha Hn Hb; [by exists s|].
  apply Forall_cons in Ha as [Ha Has]. cbn [foldl length] in Hn, Hb |- *. pose proof (sumb_made (added fs nd) nds).
  destruct (add_file_ok host s fs nd H Hr Ha) as (s1 & E1 & H1 & S1); [lia|lia|].
  destruct (rooted_added fs nd Hr) as [Hr1 Hl1].
  destruct (IH s1 _ H1 Hr1 Has) as (s2 & E2 & H2 & R2 & S2); [lia|done|].
  exists s2. split_and!; [|done|done|congruence]. change ((nd :: nds).*1) with (nd.1 :: nds.*1). cbn [add_files].
  ustep E1. exact E2.
Qed.

(** ** The start *)

Lemma zero_all_ok n : ∀ k s, m_img s = replicate k zeros →
  zero_all ok errmsg n (Z.of_nat k) s = Ok (Ret tt) (m_set_img (replicate (k + n) zeros) s).
Proof.
  induction n as [|n IH]; intros k s Hi; cbn [zero_all].
  - rewrite Nat.add_0_r, <- Hi. by destruct s.
  - assert (E : wsect ok errmsg (Z.of_nat k) zeros s = Ok (Ret tt) (m_set_img (replicate (S k) zeros) s)).
    { unfold wsect, umodify, call, modify, put_sector. rewrite Hi, length_replicate, Nat2Z.id, Nat.ltb_irrefl, Nat.sub_diag.
      simpl. by rewrite <- replicate_cons_app. }
    ustep E. replace (Z.of_nat k + 1) with (Z.of_nat (S k)) by lia. rewrite (IH (S k)) by done.
    by replace (S k + n)%nat with (k + S n)%nat by lia.
Qed.

Lemma get16_zeros off : get16 zeros off = 0.
Proof.
  unfold get16, slice, zeros. rewrite drop_replicate, take_replicate.
  generalize (2 `min` (Z.to_nat BSIZE - off))%nat. induction n as [|n IH]; simpl; [done|]. lia.
Qed.

Lemma blk_zeros n b : (Z.to_nat b < n)%nat → blkof (replicate n zeros) b = zeros.
Proof. intros H. unfold blk, view_of. simpl. by rewrite lookup_replicate_2. Qed.

(** The empty image with its superblock. *)
Lemma start_inv said : 
  inv (mkmk (<[1%nat := splice 0 (sb_bytes mk_sb) zeros]> (replicate 1000 zeros)) 1 59 said) [].
Proof.
  set (img := <[1%nat := _]> _).
  assert (Hlen : length img = 1000%nat) by (unfold img; rewrite length_insert; apply length_replicate).
  assert (Hall : Forall (λ d, length d = 512%nat) img).
  { apply Forall_insert; [|by vm_compute]. apply Forall_replicate. apply length_replicate. }
  assert (Hb : ∀ b, 0 ≤ b < 1000 → b ≠ 1 → blkof img b = zeros).
  { intros b Hb Hne. unfold img. change 1%nat with (Z.to_nat 1).
    rewrite blk_put by (rewrite ?length_replicate; lia). rewrite decide_False by done. apply blk_zeros. lia. }
  assert (Hsb : blkof img 1 = splice 0 (sb_bytes mk_sb) zeros).
  { unfold blk, view_of, img. cbn [v_cont]. change (Z.to_nat 1) with 1%nat.
    by rewrite list_lookup_insert_eq by (rewrite length_replicate; lia). }
  clearbody img. exists (λ _, None). split; [|done].
  split; cbn [m_img m_freeinode m_freeblock]; [|done|simpl; lia|done| |done|].
  - split; [|done]. split; cbn [m_img m_freeblock]; [done|done|lia|intros b H; apply Hb; lia].
  - intros inum Hi _. destruct (IBLOCK_mk inum Hi) as [_ E]. unfold disk_inode. rewrite Hb by lia.
    unfold dinode_get, d_type. cbn [i_type]. by rewrite get16_zeros.
  - intros b H. apply Hb; lia.
Qed.

(** ** The end *)

Lemma fileok_pad img own inum i bs m ind n : fileok img own inum i bs m ind → len bs + Z.of_nat n ≤ m * 512 →
  fileok img own inum i (bs ++ replicate n 0) m ind.
Proof.
  intros [F1 F2 F3 F4 F5 F6 F7 F8] H. split; try done; [rewrite length_app, length_replicate; lia|].
  intros j Hj. rewrite F8 by done. destruct (decide (Z.to_nat j < length bs)%nat); [by rewrite lookup_app_l|].
  rewrite lookup_app_r by lia. rewrite (lookup_ge_None_2 bs) by lia.
  destruct (decide (Z.to_nat j - length bs < n)%nat); [by rewrite lookup_replicate_2|].
  by rewrite lookup_ge_None_2 by (rewrite length_replicate; lia).
Qed.

(** A file filled with zeros to the end of its last block. *)
Definition pad (f : fent) : fent := (f.1, f.2 ++ replicate (Z.to_nat (nb (len f.2) * 512 - len f.2)) 0).

Lemma len_pad f : len (pad f).2 = nb (len f.2) * 512.
Proof. unfold pad, nb. cbn [snd]. rewrite length_app, length_replicate. lia. Qed.

Lemma blocks_pad f : blocks (pad f) = blocks f.
Proof. unfold blocks. rewrite len_pad. f_equal. unfold nb. lia. Qed.

(** An inode with a new size, written back. *)
Lemma fix_root_ok s fs f : inv s fs → fs !! 0%nat = Some f → len f.2 mod 512 ≠ 0 → len f.2 < 139 * 512 →
  ∃ s', fix_root ok errmsg 1 s = Ok (Ret tt) s' ∧ inv s' (<[0%nat := pad f]> fs) ∧ m_said s' = m_said s.
Proof.
  intros (own & M & B) Hk Hmod Hlt. pose proof (lookup_lt_Some _ _ _ Hk) as Hkl. pose proof (mi_ok _ _ _ M) as K.
  pose proof (mi_file _ _ _ M _ _ Hk) as Hf. change (Z.of_nat 0 + 1) with 1 in Hf. set (i := disk_inode (m_img s) 1) in *.
  assert (Hsz : (xint (i_size i) / BSIZE + 1) * BSIZE = len (pad f).2).
  { rewrite len_pad, (io_size _ _ _ _ _ Hf), xint_small by lia. unfold BSIZE, nb. lia. }
  pose proof (len_pad f) as Hlp. assert (Hlp2 : 0 ≤ len (pad f).2 ≤ 140 * 512) by (unfold nb in Hlp; lia).
  assert (Hi : inode_ok (m_img s) own 1 (pad f) (set_isize (xint (len (pad f).2)) i)).
  { rewrite xint_small by lia. destruct Hf as [D1 D2 D3 D4 D5 D6]. split; cbn [i_type i_nlink i_size set_isize]; try done; [|lia|].
    - destruct D1 as [M1 [M2 M3 M4 M5]]. split; [done|]. split; cbn [i_size set_isize]; try done. lia.
    - replace (nb (len (pad f).2)) with (nb (len f.2)) by (rewrite Hlp; unfold nb; lia).
      apply fileok_size, fileok_pad; [done|]. unfold nb. lia. }
  destruct (mkinv_winode errmsg s own fs 0 _ s own _ M Hkl K (keeps_refl _ _ _) (conj eq_refl eq_refl) Hi) as (s2 & E2 & M2 & B2 & V2).
  exists s2. split_and!; [|exists own; split; [done|]|done].
  - unfold fix_root. ustep (rinode_ok errmsg s own 1 K ltac:(lia)). fold i. rewrite Hsz. exact E2.
  - rewrite B2, B, (sumb_insert _ _ _ _ Hk), blocks_pad. lia.
Qed.

(** ** The free map *)

Lemma length_mark_used n buf : length (mark_used n buf) = length buf.
Proof. induction n as [|n IH]; simpl; [done|]. by rewrite length_bit_set. Qed.

(** Exactly the bits below [n] are set. *)
Lemma mark_used_test n b : (n ≤ 4096)%nat → 0 ≤ b → bit_test (mark_used n zeros) b = (b <? Z.of_nat n).
Proof.
  induction n as [|n IH]; intros Hn Hb; cbn [mark_used].
  - unfold bit_test. rewrite byte_at_zeros. rewrite (proj2 (Z.ltb_ge b (Z.of_nat 0))) by lia. done.
  - rewrite bit_test_set, IH; [|lia|lia|lia|lia|].
    + destruct (bool_decide_reflect (b = Z.of_nat n)), (Z.ltb_spec b (Z.of_nat n)), (Z.ltb_spec b (Z.of_nat (S n))); lia || done.
    + rewrite length_mark_used. change (length zeros) with 512%nat. lia.
Qed.

Lemma inv_say s fs fd t : inv s fs → inv (say fd t s) fs.
Proof. by intros (own & [] & B); exists own; split; [split|]. Qed.

Lemma inv_map s fs d : inv s fs → length d = 512%nat → inv (m_set_img (<[58%nat := d]> (m_img s)) s) fs.
Proof.
  intros (own & [K N Mx MF Mfree Msb Mlog] & B) Hd. pose proof (im_fb _ _ (proj1 K)) as Hfb. pose proof (im_len _ _ (proj1 K)) as Hlen.
  assert (Hb : ∀ b, 0 ≤ b → b ≠ 58 → blkof (<[58%nat := d]> (m_img s)) b = blkof (m_img s) b).
  { intros b H0 Hne. change 58%nat with (Z.to_nat 58). rewrite blk_put by lia. by rewrite decide_False. }
  assert (Hi : ∀ inum, 0 ≤ inum < 208 → disk_inode (<[58%nat := d]> (m_img s)) inum = disk_inode (m_img s) inum).
  { intros inum Hi. destruct (IBLOCK_mk inum Hi). unfold disk_inode. by rewrite Hb by lia. }
  exists own. split; [|done]. split; cbn [m_img m_set_img]; [|done|done| | |by rewrite Hb by lia|].
  - split; [|apply K]. change 58%nat with (Z.to_nat 58). apply img_ok_put; [apply K|simpl; lia|done].
  - intros k f Hk. pose proof (lookup_lt_Some _ _ _ Hk). rewrite Hi by lia.
    destruct (MF k f Hk) as [D1 D2 D3 D4 D5 D6]. split; try done. eapply fileok_same; [|done].
    intros b k' Hb'. split; [done|]. apply (proj2 K) in Hb'. apply Hb; lia.
  - intros inum Hi' H'. rewrite Hi by done. auto.
  - intros b H'. rewrite Hb by lia. auto.
Qed.

Lemma balloc_inv s fs : inv s fs →
  ∃ s', balloc ok errmsg (m_freeblock s) s = Ok (Ret tt) s' ∧ inv s' fs ∧
    blkof (m_img s') 58 = mark_used (Z.to_nat (m_freeblock s)) zeros.
Proof.
  intros H. pose proof H as (own & M & B). pose proof (im_fb _ _ (proj1 (mi_ok _ _ _ M))) as Hfb.
  pose proof (im_len _ _ (proj1 (mi_ok _ _ _ M))) as Hlen. set (fb := m_freeblock s) in *.
  unfold balloc, assert_. rewrite (proj2 (Z.ltb_lt fb (BSIZE * 8))) by (unfold BSIZE; lia).
  set (t1 := str "balloc: first " ++ _). set (t2 := str "balloc: write bitmap block at sector " ++ _).
  set (d := mark_used (Z.to_nat fb) zeros).
  exists (m_set_img (<[58%nat := d]> (m_img s)) (say 1 t2 (say 1 t1 s))). split_and!.
  - rewrite (ubind_ret _ _ s tt (say 1 t1 s)) by done. cbn beta.
    ustep (eq_refl : (mret tt : U unit) (say 1 t1 s) = Ok (Ret tt) (say 1 t1 s)).
    rewrite (ubind_ret _ _ (say 1 t1 s) tt (say 1 t2 (say 1 t1 s))) by done. cbn beta.
    change (sb_bmapstart mk_sb) with 58. fold d.
    apply (wsect_ok errmsg (say 1 t2 (say 1 t1 s)) 58 d fb); [exact (proj1 (mi_ok _ _ _ M))|lia].
  - apply (inv_map (say 1 t2 (say 1 t1 s))); [by apply inv_say, inv_say|]. unfold d. by rewrite length_mark_used.
  - unfold blk. cbn [m_img m_set_img v_cont view_of]. change (Z.to_nat 58) with 58%nat. rewrite list_lookup_insert_eq by lia. done.
Qed.
End main.
