(* ===== verification/MkfsKernel.v ===== *)
(** * The kernel on an image made by mkfs

    [mkfs_main] is run from its start; the image it leaves is looked at through
    the definitions of the kernel's file system: the superblock as [readsb]
    reads it, the free map, and for every file the inode as [ilock] loads it,
    whose contents are the bytes of the host's file. *)

From S2P Require Import Prelude Params BlockDev Sleeplock Bio Tx Log LogStack Fs FsFile Dinode Icache FsTrunc Usys Printf Mkfs Image MkfsImage.

(** ** What was made *)

(** The entries of the root directory after the first two. *)
Definition entries (nds : list (list Z * list Z)) : list Z :=
  concat (imap (λ k nd, dirent (Z.of_nat k + 2) (strip nd.1)) nds).
Definition root_bytes (nds : list (list Z * list Z)) : list Z :=
  dirent 1 (str ".") ++ dirent 1 (str "..") ++ entries nds.

Lemma made_snoc nds nd : made (nds ++ [nd]) = added (made nds) nd.
Proof. unfold made. by rewrite foldl_app. Qed.

Lemma rooted_made nds : rooted (made nds) ∧ length (made nds) = S (length nds).
Proof.
  induction nds as [|nd nds [IH1 IH2]] using rev_ind.
  - split; [|done]. eexists. split; [done|]. by rewrite length_app, !length_dirent.
  - rewrite made_snoc. destruct (rooted_added (made nds) nd IH1) as [H1 H2]. split; [done|]. rewrite H2, IH2, length_app. simpl. lia.
Qed.

Lemma entries_snoc nds nd : entries (nds ++ [nd]) = entries nds ++ dirent (len nds + 2) (strip nd.1).
Proof. unfold entries. rewrite imap_app, concat_app. simpl. by rewrite Nat.add_0_r, app_nil_r. Qed.

Lemma made_root nds : made nds !! 0%nat = Some (T_DIR, root_bytes nds).
Proof.
  induction nds as [|nd nds IH] using rev_ind.
  - done.
  - rewrite made_snoc. unfold added. destruct (rooted_made nds) as [_ Hl].
    rewrite lookup_app_l by (rewrite length_append_to; lia). rewrite (lookup_append_to _ _ _ _ IH). cbn [fst snd].
    unfold root_bytes. rewrite entries_snoc, Hl, <- !app_assoc. do 6 f_equal. lia.
Qed.

Lemma made_file nds k nd : nds !! k = Some nd → made nds !! S k = Some (T_FILE, nd.2).
Proof.
  revert k. induction nds as [|nd' nds IH] using rev_ind; intros k Hk; [done|]. rewrite made_snoc. unfold added.
  destruct (rooted_made nds) as [_ Hl]. destruct (decide (k < length nds)%nat).
  - rewrite lookup_app_l in Hk by done. rewrite lookup_app_l by (rewrite length_append_to; lia).
    rewrite lookup_append_ne by done. auto.
  - rewrite lookup_app_r in Hk by lia. destruct (k - length nds)%nat eqn:E; [|done]. injection Hk as ->.
    rewrite lookup_app_r by (rewrite length_append_to; lia). rewrite length_append_to.
    by replace (S k - length (made nds))%nat with 0%nat by lia.
Qed.

(** ** Running mkfs *)

(** What mkfs can be given: files that exist, have no slash in their names and
    are not too long; fewer than there are inodes; not more than fit on the
    disk; and a root directory that does not end with a block. *)
Record fits (host : list Z → option (list Z)) (nds : list (list Z * list Z)) : Prop := {
  ft_files : Forall (addable host) nds;
  ft_inodes : len nds ≤ 198;
  ft_blocks : nmeta + sumb (made nds) ≤ FSSIZE;
  ft_root : (len nds + 2) mod 32 ≠ 0 }.

(** The files in the image: the root directory is filled up with zeros. *)
Definition final (nds : list (list Z * list Z)) : list fent := <[0%nat := pad (T_DIR, root_bytes nds)]> (made nds).

Lemma length_root nds : len (root_bytes nds) = 16 * (len nds + 2).
Proof.
  destruct (rooted_made nds) as [(r & Hr & Hl) Hm]. rewrite made_root in Hr. injection Hr as <-. rewrite Hl, Hm. lia.
Qed.

Section run.
Context (host : list Z → option (list Z)) (errmsg : list Z).

(** The part of main before the files. *)
Lemma mkfs_start prog image names :
  ∃ s, inv s root0 ∧
    mkfs_main ok true host errmsg (prog :: image :: names) mk0 =
    (add_files ok host errmsg 1 names;; fix_root ok errmsg 1;; b ← ugets m_freeblock; balloc ok errmsg b;; exit 0) s.
Proof.
  unfold mkfs_main, assert_. change (BSIZE mod DINODESZ =? 0) with true. change (BSIZE mod DIRENTSZ =? 0) with true. cbv iota.
  set (t := str "nmeta " ++ _). 
  do 3 ustep (eq_refl : (mret tt : U unit) mk0 = Ok (Ret tt) mk0).
  rewrite (ubind_ret _ _ mk0 tt (say 1 t mk0)) by done. cbn beta.
  rewrite (ubind_ret _ _ (say 1 t mk0) tt (m_set_block nmeta (say 1 t mk0))) by done. cbn beta.
  set (s0 := m_set_block nmeta (say 1 t mk0)).
  ustep (zero_all_ok errmsg (Z.to_nat FSSIZE) 0 s0 eq_refl). change (0 + Z.to_nat FSSIZE)%nat with 1000%nat.
  set (s1 := mkmk (<[1%nat := splice 0 (sb_bytes mk_sb) zeros]> (replicate 1000 zeros)) 1 59 [(1, t)]).
  assert (E1 : wsect ok errmsg 1 (splice 0 (sb_bytes mk_sb) zeros) (m_set_img (replicate 1000 zeros) s0) = Ok (Ret tt) s1).
  { unfold wsect, umodify, call, modify, put_sector. cbn [m_img m_set_img]. rewrite length_replicate. done. }
  ustep E1. pose proof (start_inv [(1, t)]) as H1. fold s1 in H1. clearbody s1. clear E1.
  destruct (ialloc_inv errmsg s1 [] T_DIR H1 ltac:(simpl; lia) ltac:(done)) as (s2 & E2 & H2 & _). ustep E2.
  change (len [] + 1 =? ROOTINO) with true. cbv iota. ustep (eq_refl : (mret tt : U unit) s2 = Ok (Ret tt) s2).
  change (len [] + 1) with (Z.of_nat 0 + 1).
  destruct (append_ok errmsg s2 _ 0 (T_DIR, []) (dirent 1 (str ".")) H2) as (s3 & E3 & H3 & _); [done|by vm_compute|by vm_compute|].
  ustep E3.
  destruct (append_ok errmsg s3 _ 0 (T_DIR, dirent 1 (str ".")) (dirent 1 (str "..")) H3) as (s4 & E4 & H4 & _); [done|by vm_compute|by vm_compute|].
  ustep E4. exists s4. split; [exact H4|done].
Qed.

Lemma mkfs_runs prog image nds : fits host nds →
  ∃ s, mkfs_main ok true host errmsg (prog :: image :: nds.*1) mk0 = Ok (Exit 0) s ∧ inv s (final nds) ∧
    blkof (m_img s) 58 = mark_used (Z.to_nat (nmeta + sumb (made nds))) zeros.
Proof.
  intros [F1 F2 F3 F4]. rewrite nmeta_59 in *. unfold FSSIZE in F3. pose proof (length_root nds) as Hlr.
  destruct (mkfs_start prog image (nds.*1)) as (s0 & H0 & ->).
  destruct (add_files_ok errmsg host nds s0 root0 H0) as (s1 & E1 & H1 & _ & _); [apply (rooted_made [])|done|simpl; lia|exact F3|].
  ustep E1. destruct (fix_root_ok errmsg s1 _ _ H1 (made_root nds)) as (s2 & E2 & H2 & _); [cbn [snd]; lia|cbn [snd]; lia|].
  ustep E2. fold (final nds) in H2. unfold ugets. ucall (eq_refl : gets m_freeblock s2 = Ok (m_freeblock s2) s2).
  destruct (balloc_inv errmsg s2 _ H2) as (s3 & E3 & H3 & Hm). ustep E3. exists s3. split_and!; [done|done|].
  rewrite Hm. destruct H2 as (own & _ & B). rewrite B. unfold final. rewrite (sumb_insert _ _ _ _ (made_root nds)), blocks_pad.
  do 2 f_equal. lia.
Qed.
End run.

(** ** As the kernel sees it *)

(** The inode that [ilock] loads into the entry [j] of the inode cache. *)
Definition loaded (img : list (list Z)) (inum : Z) (j : inode) : inode :=
  dinode_get (blkof img (IBLOCK inum mk_sb)) (d_off inum) j.

Lemma loaded_faddr img inum j bn : faddr (view_of img) (loaded img inum j) bn = faddr (view_of img) (disk_inode img inum) bn.
Proof. reflexivity. Qed.

(** The bytes of a file are its contents. *)
Lemma inode_contents img own inum f j : inode_ok img own inum f (disk_inode img inum) →
  i_type (loaded img inum j) = f.1 ∧ i_nlink (loaded img inum j) = 1 ∧ contents (view_of img) (loaded img inum j) = f.2.
Proof.
  intros [D1 D2 D3 D4 D5 D6]. split_and!; [exact D2|exact D3|].
  assert (Hs : i_size (loaded img inum j) = len f.2) by exact D4.
  apply list_eq. intros k. unfold contents, fbytes. rewrite Hs, list_lookup_fmap.
  destruct (decide (k < length f.2)%nat) as [Hk|Hk].
  - rewrite lookup_seqZ_lt by lia. cbn [fmap option_fmap option_map]. rewrite Z.add_0_l.
    etrans; [|symmetry; apply (list_lookup_lookup_total_lt f.2 k Hk)]. f_equal.
    etrans; [exact (fo_byte _ _ _ _ _ _ _ D6 (Z.of_nat k) ltac:(unfold nb; lia))|].
    rewrite Nat2Z.id. destruct (lookup_lt_is_Some_2 f.2 k Hk) as [x Hx]. rewrite Hx. by rewrite (list_lookup_total_correct _ _ _ Hx).
  - rewrite lookup_seqZ_ge, lookup_ge_None_2 by lia. done.
Qed.

Lemma final_file nds k nd : nds !! k = Some nd → final nds !! S k = Some (T_FILE, nd.2).
Proof. intros H. unfold final. rewrite list_lookup_insert_ne by done. by apply made_file. Qed.

Lemma final_root nds : final nds !! 0%nat = Some (pad (T_DIR, root_bytes nds)).
Proof. unfold final. apply list_lookup_insert_eq. destruct (rooted_made nds). lia. Qed.

(** ** The image is well formed *)

Lemma used_mk img b n : blkof img 58 = mark_used n zeros → (n ≤ 4096)%nat → 0 ≤ b < 1000 →
  used mk_sb (view_of img) b = (b <? Z.of_nat n).
Proof.
  intros Hm Hn Hb. unfold used, BBLOCK. change (sb_bmapstart mk_sb) with 58. change BPB with 4096.
  replace (b / 4096 + 58) with 58 by lia. rewrite Hm, Z.mod_small by lia. apply mark_used_test; lia.
Qed.

(** The owners of the blocks, in terms of the kernel's inode. *)
Lemma owned_good img (own : owner) fb a p : own_ok own fb → fb ≤ 1000 →
  (∀ b, 0 ≤ b < 1000 → used mk_sb (view_of img) b = (b <? fb)) → own a = Some p → good mk_sb (view_of img) a.
Proof.
  intros Ho Hfb Hu Ha. apply Ho in Ha. split; [change (datastart mk_sb) with 59; change (sb_size mk_sb) with 1000; lia|].
  rewrite Hu by lia. apply Z.ltb_lt. lia.
Qed.

Lemma inode_ifile img own inum f j fb : inode_ok img own inum f (disk_inode img inum) → own_ok own fb → fb ≤ 1000 →
  (∀ b, 0 ≤ b < 1000 → used mk_sb (view_of img) b = (b <? fb)) → i_dev j = ROOTDEV →
  ifile mk_sb (view_of img) (loaded img inum j) ∧ no_holes (view_of img) (loaded img inum j).
Proof.
  intros [D1 D2 D3 D4 D5 D6] Ho Hfb Hu Hj. set (m := nb (len f.2)) in *. set (i := disk_inode img inum) in *.
  assert (Hown : ∀ bn, in_file bn → faddr (view_of img) i bn ≠ 0 → own (faddr (view_of img) i bn) = Some (inum, bn)).
  { intros bn Hbn Hne. unfold in_file in Hbn. change MAXFILE with 140 in Hbn. destruct (decide (bn < m)).
    - apply (fo_map _ _ _ _ _ _ _ D6). lia.
    - destruct Hne. apply (fo_end _ _ _ _ _ _ _ D6). lia. }
  assert (Hind : iaddr i 12 ≠ 0 → own (iaddr i 12) = Some (inum, -1)).
  { intros Hne. destruct (12 <? m); [exact (fo_ind _ _ _ _ _ _ _ D6 eq_refl)|].
    destruct Hne. exact (proj1 (fo_noind _ _ _ _ _ _ _ D6 eq_refl)). }
  split; [split|].
  - exact Hj.
  - exact (fo_addrs _ _ _ _ _ _ _ D6).
  - change (iaddr (loaded img inum j) NDIRECT) with (iaddr i 12). destruct (decide (iaddr i 12 = 0)); [by left|right].
    by eapply owned_good; eauto.
  - intros bn Hbn. rewrite loaded_faddr. fold i. destruct (decide (faddr (view_of img) i bn = 0)); [by left|right].
    by eapply owned_good; eauto.
  - intros bn bn' Hbn Hbn' Hne H0. rewrite !loaded_faddr in *. fold i in H0 |- *. intros E.
    pose proof (Hown bn Hbn H0) as Ha. rewrite E in H0. pose proof (Hown bn' Hbn' H0) as Hb. rewrite <- E, Ha in Hb. congruence.
  - intros bn Hbn H0. rewrite loaded_faddr in *. fold i in H0 |- *. change (iaddr (loaded img inum j) NDIRECT) with (iaddr i 12).
    intros E. pose proof (Hown bn Hbn H0) as Ha. rewrite E in Ha, H0. rewrite (Hind H0) in Ha. injection Ha as Ha.
    unfold in_file in Hbn. lia.
  - intros bn H0 Hlt. rewrite loaded_faddr. fold i. change (i_size (loaded img inum j)) with (i_size i) in Hlt.
    rewrite D4 in Hlt. unfold BSIZE in Hlt. assert (Hm : 0 ≤ bn < m) by (unfold m, nb; lia).
    pose proof (Ho _ _ (fo_map _ _ _ _ _ _ _ D6 bn Hm)). lia.
Qed.

(** A disk image with files in the inodes 1 to [n], and [nused] blocks in use. *)
Record wellformed (img : list (list Z)) (n nused : Z) : Prop := {
  wf_blocks : length img = Z.to_nat FSSIZE ∧ Forall (λ x, length x = Z.to_nat BSIZE) img;
  wf_sb : sb_of_bytes (blkof img 1) = mk_sb;
  wf_boots : ∀ me, restarts_to me (sb_logstart mk_sb) (sb_nlog mk_sb) img img;
  wf_meta : meta_used mk_sb (view_of img);
  wf_used : ∀ b, 0 ≤ b < FSSIZE → used mk_sb (view_of img) b = (b <? nused);
  wf_file : ∀ inum j, 1 ≤ inum ≤ n → i_dev j = ROOTDEV →
    ifile mk_sb (view_of img) (loaded img inum j) ∧ no_holes (view_of img) (loaded img inum j);
  wf_sep : ∀ inum inum' j b, 1 ≤ inum ≤ n → 1 ≤ inum' ≤ n → inum ≠ inum' →
    owns (view_of img) (loaded img inum j) b → ¬ owns (view_of img) (loaded img inum' j) b;
  wf_free : ∀ inum j, 0 ≤ inum < sb_ninodes mk_sb → inum = 0 ∨ n < inum → i_type (loaded img inum j) = 0 }.

Lemma owns_owner img own inum f j b : inode_ok img own inum f (disk_inode img inum) →
  owns (view_of img) (loaded img inum j) b → ∃ k, own b = Some (inum, k).
Proof.
  intros [D1 D2 D3 D4 D5 D6] [H0 [Hb|(bn & Hbn & Hb)]]; subst b.
  - change (iaddr (loaded img inum j) NDIRECT) with (iaddr (disk_inode img inum) 12) in *. exists (-1).
    destruct (12 <? nb (len f.2)); [exact (fo_ind _ _ _ _ _ _ _ D6 eq_refl)|]. destruct H0. exact (proj1 (fo_noind _ _ _ _ _ _ _ D6 eq_refl)).
  - rewrite loaded_faddr in *. exists bn. unfold in_file in Hbn. change MAXFILE with 140 in Hbn.
    destruct (decide (bn < nb (len f.2))); [apply (fo_map _ _ _ _ _ _ _ D6); lia|].
    destruct H0. apply (fo_end _ _ _ _ _ _ _ D6). lia.
Qed.

Lemma blkof_lookup img b : (Z.to_nat b < length img)%nat → img !! Z.to_nat b = Some (blkof img b).
Proof. intros H. destruct (lookup_lt_is_Some_2 _ _ H) as [x Hx]. unfold blk. simpl. by rewrite Hx. Qed.

Lemma image_boots me img : length img = 1000%nat → Forall (λ x, length x = Z.to_nat BSIZE) img →
  sb_of_bytes (blkof img 1) = mk_sb → blkof img 2 = zeros → restarts_to me 2 30 img img.
Proof.
  intros Hl HF Hsb Hlog. apply (boot_ok me 2 30 img [] []); try done.
  - exists (blkof img 1). rewrite Hsb. split; [|done]. apply (blkof_lookup img 1). lia.
  - unfold LOGSIZE, MAXOPBLOCKS. lia.
  - intros b Hb. by apply not_elem_of_nil in Hb.
  - exists zeros, [], []. split_and!; try done; [|by left]. rewrite <- Hlog. apply (blkof_lookup img 2). lia.
Qed.

Lemma final_len nds : len (final nds) = len nds + 1.
Proof. unfold final. rewrite length_insert. destruct (rooted_made nds) as [_ ->]. lia. Qed.

Lemma final_some nds inum : 1 ≤ inum ≤ len nds + 1 → ∃ k f, final nds !! k = Some f ∧ inum = Z.of_nat k + 1.
Proof.
  intros H. destruct (lookup_lt_is_Some_2 (final nds) (Z.to_nat (inum - 1))) as [f Hf].
  - pose proof (final_len nds). lia.
  - exists (Z.to_nat (inum - 1)), f. split; [done|lia].
Qed.

(** Everything the kernel finds in the image. *)
Record holds (img : list (list Z)) (nds : list (list Z * list Z)) : Prop := {
  ho_form : wellformed img (len nds + 1) (nmeta + sumb (made nds));
  ho_log : blkof img 2 = zeros;
  ho_file : ∀ k name data j, nds !! k = Some (name, data) →
    let i := loaded img (Z.of_nat k + 2) j in
    i_type i = T_FILE ∧ i_nlink i = 1 ∧ contents (view_of img) i = data ∧ i_size i = len data ∧ i_size i ≤ MAXFILE * BSIZE;
  ho_root : ∀ j, let i := loaded img ROOTINO j in
    i_type i = T_DIR ∧ i_nlink i = 1 ∧ i_size i mod BSIZE = 0 ∧ 0 ≤ i_size i ≤ MAXFILE * BSIZE ∧
    ∃ n, contents (view_of img) i = root_bytes nds ++ replicate n 0 ∧ (n < Z.to_nat BSIZE)%nat }.

Lemma image_form nds s : nmeta + sumb (made nds) ≤ FSSIZE → inv s (final nds) →
  blkof (m_img s) 58 = mark_used (Z.to_nat (nmeta + sumb (made nds))) zeros →
  wellformed (m_img s) (len nds + 1) (nmeta + sumb (made nds)).
Proof.
  intros Hfs (own & M & B) Hm. rewrite nmeta_59 in *. unfold FSSIZE in Hfs. destruct (mi_ok _ _ _ M) as [[I1 I2 I3 I4] Ho].
  assert (Hb : sumb (final nds) = sumb (made nds)).
  { unfold final. rewrite (sumb_insert _ _ _ _ (made_root nds)), blocks_pad. lia. }
  rewrite B, Hb in Ho. rewrite B, Hb in I3.
  assert (Hu : ∀ b, 0 ≤ b < 1000 → used mk_sb (view_of (m_img s)) b = (b <? 59 + sumb (made nds))).
  { intros b Hlt. rewrite (used_mk _ _ _ Hm) by lia. by rewrite Z2Nat.id by lia. }
  assert (Hsb : sb_of_bytes (blkof (m_img s) 1) = mk_sb) by (rewrite (mi_sb _ _ _ M); by vm_compute).
  pose proof (final_some nds) as Hsome. split.
  - exact (conj I1 I2).
  - exact Hsb.
  - intros me. exact (image_boots me _ I1 I2 Hsb (mi_log _ _ _ M 2 ltac:(lia))).
  - intros b Hlt. change (datastart mk_sb) with 59 in Hlt. rewrite Hu by lia. apply Z.ltb_lt. lia.
  - exact Hu.
  - intros inum j Hi Hj. destruct (Hsome inum Hi) as (k & f & Hk & ->).
    exact (inode_ifile _ _ _ _ j _ (mi_file _ _ _ M _ _ Hk) Ho (proj2 I3) Hu Hj).
  - intros inum inum' j b Hi Hi' Hne Hb1 Hb2. destruct (Hsome inum Hi) as (k & f & Hk & ->), (Hsome inum' Hi') as (k' & f' & Hk' & ->).
    destruct (owns_owner _ _ _ _ _ _ (mi_file _ _ _ M _ _ Hk) Hb1) as [n1 H1].
    destruct (owns_owner _ _ _ _ _ _ (mi_file _ _ _ M _ _ Hk') Hb2) as [n2 H2]. rewrite H1 in H2. congruence.
  - intros inum j Hi Hor. apply (mi_free _ _ _ M); [change (sb_ninodes mk_sb) with 200 in Hi; lia|]. rewrite final_len. done.
Qed.

Lemma image_holds nds s : nmeta + sumb (made nds) ≤ FSSIZE → inv s (final nds) →
  blkof (m_img s) 58 = mark_used (Z.to_nat (nmeta + sumb (made nds))) zeros → holds (m_img s) nds.
Proof.
  intros Hfs Hi Hm. split; [by apply image_form|..]; destruct Hi as (own & M & _).
  - apply (mi_log _ _ _ M). lia.
  - intros k name data j Hk. pose proof (mi_file _ _ _ M _ _ (final_file nds k _ Hk)) as Hf.
    replace (Z.of_nat (S k) + 1) with (Z.of_nat k + 2) in Hf by lia. destruct (inode_contents _ _ _ _ j Hf) as (H1 & H2 & H3).
    assert (Hs : i_size (loaded (m_img s) (Z.of_nat k + 2) j) = len data) by exact (io_size _ _ _ _ _ Hf).
    split_and!; [exact H1|exact H2|exact H3|exact Hs|]. rewrite Hs. exact (io_max _ _ _ _ _ Hf).
  - intros j. pose proof (mi_file _ _ _ M _ _ (final_root nds)) as Hf.
    destruct (inode_contents _ _ _ _ j Hf) as (H1 & H2 & H3).
    assert (Hs : i_size (loaded (m_img s) ROOTINO j) = nb (len (root_bytes nds)) * 512).
    { etrans; [exact (io_size _ _ _ _ _ Hf)|]. apply len_pad. }
    split_and!; [exact H1|exact H2| | | |].
    + rewrite Hs. unfold BSIZE. lia.
    + rewrite Hs. unfold nb. lia.
    + rewrite Hs. pose proof (io_max _ _ _ _ _ Hf) as Hx. rewrite len_pad in Hx. exact Hx.
    + eexists. split; [exact H3|]. unfold nb, BSIZE. cbn [snd]. lia.
Qed.

Lemma mkfs_makes host errmsg prog image nds : fits host nds →
  ∃ s, mkfs_main ok true host errmsg (prog :: image :: nds.*1) mk0 = Ok (Exit 0) s ∧ holds (m_img s) nds.
Proof.
  intros F. destruct (mkfs_runs host errmsg prog image nds F) as (s & E & Hi & Hm).
  exists s. split; [exact E|]. exact (image_holds nds s (ft_blocks _ _ F) Hi Hm).
Qed.

(** mkfs puts the files it is given into the image: it exits with status 0,
    and in the image the kernel finds, as inode 2, 3 and so on, every file of the
    host with its bytes, and as inode 1 a directory with the entries for . and
    .., the name and inode number of every file in their order, and zeros to
    the end of the block. *)
Theorem mkfs_contents host errmsg prog image nds : fits host nds →
  ∃ s, mkfs_main ok true host errmsg (prog :: image :: nds.*1) mk0 = Ok (Exit 0) s ∧
    let v := view_of (m_img s) in
    (∀ k name data j, nds !! k = Some (name, data) →
       let i := loaded (m_img s) (Z.of_nat k + 2) j in
       i_type i = T_FILE ∧ i_nlink i = 1 ∧ contents v i = data) ∧
    (∀ j, let i := loaded (m_img s) ROOTINO j in
       i_type i = T_DIR ∧ i_size i mod BSIZE = 0 ∧
       ∃ n, contents v i = root_bytes nds ++ replicate n 0 ∧ (n < Z.to_nat BSIZE)%nat).
Proof.
  intros F. destruct (mkfs_makes host errmsg prog image nds F) as (s & E & [_ _ H2 H3]). exists s. split; [exact E|]. split.
  - intros k name data j Hk. destruct (H2 k name data j Hk) as (Ht & Hn & Hc & _). exact (conj Ht (conj Hn Hc)).
  - intros j. destruct (H3 j) as (Ht & _ & Hs & _ & Hc). exact (conj Ht (conj Hs Hc)).
Qed.

(** C29: mkfs makes a well formed file system: the superblock is the one the
    kernel computes with; the kernel boots from the image, with nothing to
    recover; the free map has exactly the blocks before the first free one; every
    file is one that the kernel's operations accept, without holes and with all
    of its blocks in use, and no two files share a block; the inodes that are
    not files are free. *)
Theorem mkfs_wellformed host errmsg prog image nds : fits host nds →
  ∃ s, mkfs_main ok true host errmsg (prog :: image :: nds.*1) mk0 = Ok (Exit 0) s ∧
    wellformed (m_img s) (len nds + 1) (nmeta + sumb (made nds)).
Proof.
  intros F. destruct (mkfs_makes host errmsg prog image nds F) as (s & E & [H1 _ _ _]). exists s. exact (conj E H1).
Qed.

(** Two files of the host, one of them with an indirect block. *)
Definition files2 : list (list Z * list Z) := [(str "_echo", [104; 105]); (str "README", replicate 7000 65)].
Definition host2 (name : list Z) : option (list Z) := list_to_map (M := gmap (list Z) (list Z)) files2 !! name.

Lemma fits2 : fits host2 files2.
Proof.
  split.
  - repeat constructor; by vm_compute.
  - by vm_compute.
  - by vm_compute.
  - by vm_compute.
Qed.

Lemma mkfs_contents_witness :
  ∃ s, mkfs_main ok true host2 [] (str "mkfs" :: str "fs.img" :: [str "_echo"; str "README"]) mk0 = Ok (Exit 0) s ∧
    contents (view_of (m_img s)) (loaded (m_img s) 3 inode0) = replicate 7000 65.
Proof.
  destruct (mkfs_contents host2 [] (str "mkfs") (str "fs.img") files2 fits2) as (s & E & H & _).
  exists s. split; [exact E|]. exact (proj2 (proj2 (H 1%nat _ _ inode0 eq_refl))).
Defined.

Lemma mkfs_wellformed_witness :
  ∃ s, mkfs_main ok true host2 [] (str "mkfs" :: str "fs.img" :: [str "_echo"; str "README"]) mk0 = Ok (Exit 0) s ∧
    wellformed (m_img s) 3 76.
Proof. exact (mkfs_wellformed host2 [] (str "mkfs") (str "fs.img") files2 fits2). Defined.

(** ** Limits *)

(** With thirty files the root directory ends with its first block; its size is
    still rounded up to the next one, which it does not have. *)
Definition files30 : list (list Z * list Z) := (λ k, ([97 + k], [])) <$> seqZ 0 30.

Lemma root_hole :
  match mkfs_main ok true (λ _, Some []) [] (str "mkfs" :: str "fs.img" :: files30.*1) mk0 with
  | Ok (Exit 0) s =>
      let i := disk_inode (m_img s) ROOTINO in
      i_size i = 2 * BSIZE ∧ iaddr i 0 = 59 ∧ iaddr i 1 = 0
  | _ => False
  end.
Proof. by vm_compute. Qed.

(** Nothing stops [ialloc] at NINODES: inode 208 is on the block of the free
    map, and [balloc] writes the map over it. *)
Lemma inode_on_map :
  match (ialloc ok [] T_FILE;; balloc ok [] 59) (mkmk (replicate 1000 zeros) 208 59 []) with
  | Ok (Ret _) s => IBLOCK 208 mk_sb = sb_bmapstart mk_sb ∧ i_type (disk_inode (m_img s) 208) = -1
  | _ => False
  end.
Proof. by vm_compute. Qed.
