(* ===== verification/KernelBoot.v ===== *)
(** * The kernel on a file system made by mkfs

    [fs_start] is what the kernel does with the disk before the first system
    call: [binit] in main, then [iinit] and [initlog] in the first process.  The
    image of [mkfs_main] is booted, and the files that were given to mkfs are
    found by their paths and read back through namei, ilock and readi. *)

From S2P Require Import Prelude Params Strings BlockDev Sleeplock Bio Tx Log LogStack Fs FsFile Dir Icache DirSpec Usys Printf Mkfs Image MkfsImage MkfsKernel.

(** ** Starting *)

Definition sb_zero : superblock := Build_superblock 0 0 0 0 0 0 0.

Section start.
Context (me : Z).
#[local] Instance kernel_blocks : BlockOps bstate := bio_ops me.
#[local] Instance kernel_disk : @BlockSpec bstate kernel_blocks := bio_spec me.
Notation T := (lstate (D := bstate)).
#[local] Instance kernel_ops : TxOps T := @log_ops bstate kernel_blocks.
#[local] Instance kernel_spec : @TxSpec T kernel_ops := @log_txspec bstate kernel_blocks kernel_disk 2 30.
Implicit Types (v : bview) (s : fsstate (T := T)).

(** The globals of fs.c and log.c before. *)
Definition fs_zero (b : bstate) : fsstate := mkfs sb_zero false (replicate (Z.to_nat NINODE) inode0) (mkls log0 b []).

(** [forkret], in the first process. *)
Definition forkret_fs : M (fsstate (T := T)) unit := iinit ROOTDEV;; on_tx (initlog ROOTDEV).

(** [binit] in main, then [forkret]. *)
Definition fs_start (dk : list (list Z)) : result (fsstate (T := T)) unit :=
  match binit (bstart dk) with
  | Ok _ b => forkret_fs (fs_zero b)
  | Panic msg => Panic msg
  | Blocked c b => Blocked c (fs_zero b)
  | Undef => Undef
  | NoFuel => NoFuel
  end.

(** The locks of the inodes are already free. *)
Lemma iinit_locks b :
  for_each (Z.to_nat NINODE) 0 (λ i, iset (Z.to_nat i) (set_ilock initsleeplock)) (fs_zero b) = Ok tt (fs_zero b).
Proof.
  destruct (for_each_inv (λ _ s, s = fs_zero b) (λ i, iset (Z.to_nat i) (set_ilock initsleeplock)) (Z.to_nat NINODE) 0 (fs_zero b) eq_refl)
    as (s' & E & ->); [|done].
  intros i s1 Hi ->. exists (fs_zero b). split; [|done].
  assert (Hl : ic_inode (fs_zero b) !! Z.to_nat i = Some inode0) by (apply lookup_replicate_2; lia).
  rewrite (iset_ok _ _ _ _ Hl). f_equal. by apply upd_ino_id.
Qed.

Lemma iinit_ok b v b1 : brepr b v → v_held v = ∅ → v_pins v = ∅ → v_cont v !! 1%nat = Some b1 →
  ∃ b', iinit ROOTDEV (fs_zero b) = Ok tt (set_sb (sb_of_bytes b1) (fs_zero b')) ∧ brepr b' v.
Proof.
  intros R He Hp Hb. destruct (readsb_ok b v b1 R He Hp Hb) as (b' & E & R').
  exists b'. split; [|done]. unfold iinit. rewrite bind_modify. mstep (iinit_locks b : _ (set_ic_lock false (fs_zero b)) = _).
  unfold readsb_fs. assert (Et : readsb tx_bread tx_data tx_brelse ROOTDEV (fs_tx (fs_zero b)) = Ok (sb_of_bytes b1) (mkls log0 b' [])).
  { unfold readsb in *. apply bind_inv_ok in E as (h & x1 & E1 & E). mstep (on_disk_ok _ (mkls log0 b []) _ x1 E1).
    apply bind_inv_ok in E as (d & x2 & E2 & E). mstep (on_disk_ok _ (mkls log0 x1 []) _ x2 E2).
    apply bind_inv_ok in E as ([] & x3 & E3 & E). mstep (on_disk_ok _ (mkls log0 x2 []) _ x3 E3).
    exact (f_equal (λ r, match r with Ok a x => Ok a (mkls log0 x []) | _ => Undef end) E). }
  by mstep (on_tx_ok _ _ _ _ Et).
Qed.

Lemma geom_mk : geom mk_sb 1000.
Proof.
  split; change (sb_size mk_sb) with 1000; change (sb_inodestart mk_sb) with 32; change (sb_bmapstart mk_sb) with 58;
    change (sb_ninodes mk_sb) with 200; try lia.
  - split; [lia|]. intros i Hi. unfold IBLOCK. change (sb_inodestart mk_sb) with 32. change IPB with 8. lia.
  - by vm_compute.
  - unfold tx_home, kernel_spec, log_txspec, in_log. lia.
  - intros n Hn. unfold tx_home, kernel_spec, log_txspec, in_log. lia.
Qed.

(** The cache after the start. *)
Lemma icok_zero t v : trepr t v 0 → length (v_disk v) = 1000%nat → v_held v = ∅ →
  icok (mkfs mk_sb false (replicate (Z.to_nat NINODE) inode0) t) v 0.
Proof.
  intros R Hl He. split; cbn [fs_tx fs_sb ic_lock ic_inode]; try done.
  - rewrite Hl. apply geom_mk.
  - intros ip i Hi. apply lookup_replicate in Hi as [-> _]. split; simpl; (done || lia || auto).
  - intros ip ip' i i' Hi _ Hr. apply lookup_replicate in Hi as [-> _]. simpl in Hr. lia.
Qed.

Lemma fs_start_from img b : brepr b (mkv img img ∅ ∅ []) → length img = 1000%nat →
  sb_of_bytes (blkof img 1) = mk_sb → blkof img 2 = zeros →
  ∃ s v, forkret_fs (fs_zero b) = Ok tt s ∧ icok s v 0 ∧ fs_sb s = mk_sb ∧
    ic_inode s = replicate (Z.to_nat NINODE) inode0 ∧ (∀ b, 32 ≤ b → blk v b = blkof img b).
Proof.
  intros Rb Hl Hsb Hlog. assert (H1 : img !! 1%nat = Some (blkof img 1)) by (apply (blkof_lookup img 1); lia).
  assert (Hs : sb_log img 2 30) by (exists (blkof img 1); rewrite Hsb; done).
  assert (Hz : 1 ≤ 30 ≤ LOGSIZE) by (unfold LOGSIZE, MAXOPBLOCKS; lia).
  assert (Hr : recoverable 2 [] [] img img).
  { exists zeros, [], []. split_and!; try done; [|by left]. rewrite <- Hlog. apply (blkof_lookup img 2). lia. }
  assert (Hb : ∀ x, x ∈ [] → in_disk (mkv img img ∅ ∅ []) x ∧ ¬ in_log 2 30 x) by (intros x Hx; by apply not_elem_of_nil in Hx).
  destruct (iinit_ok b _ _ Rb eq_refl eq_refl H1) as (b' & Ei & Rb'). rewrite Hsb in Ei.
  destruct (initlog_ok (mkls log0 b' []) _ 2 30 [] [] img Rb' eq_refl eq_refl eq_refl eq_refl eq_refl eq_refl Hs ltac:(lia) Hz
    ltac:(cbn [v_disk]; lia) ltac:(simpl; lia) eq_refl Hb Hr) as (t & v & E & L & Hcm & Hh & Hp & Hlen & Hg).
  exists (mkfs mk_sb false (replicate (Z.to_nat NINODE) inode0) t), v. cbn [v_disk] in Hlen.
  assert (Ht : trepr t v 0) by exact (conj L Hcm). split_and!; [| |reflexivity|reflexivity|].
  - unfold forkret_fs. mstep Ei. exact (on_tx_ok _ _ _ _ (E : _ (fs_tx (set_sb mk_sb (fs_zero b'))) = _)).
  - apply icok_zero; [exact Ht|by rewrite Hlen|exact Hh].
  - intros c Hc. assert (Ed : v_cont v !! Z.to_nat c = img !! Z.to_nat c).
    { rewrite <- (Hg c ltac:(lia) ltac:(unfold in_log; lia)). apply (wf_clean _ (trepr_wf _ _ _ Ht)); [by rewrite Hp| |lia].
      intros h. by rewrite Hh, lookup_empty. }
    unfold blk. by rewrite Ed.
Qed.

Lemma fs_start_ok img : length img = 1000%nat → Forall (λ x, length x = Z.to_nat BSIZE) img →
  sb_of_bytes (blkof img 1) = mk_sb → blkof img 2 = zeros →
  ∃ s v, fs_start img = Ok tt s ∧ icok s v 0 ∧ fs_sb s = mk_sb ∧ ic_inode s = replicate (Z.to_nat NINODE) inode0 ∧
    (∀ b, 32 ≤ b → blk v b = blkof img b).
Proof.
  intros Hl HF Hsb Hlog. destruct (binit_ok me img HF) as (b & Eb & Rb). unfold fs_start. rewrite Eb. clear Eb.
  exact (fs_start_from img b Rb Hl Hsb Hlog).
Qed.
End start.

(** ** From the image to the kernel's view *)

Section view.
Context (img : list (list Z)) (v : bview) (Hv : ∀ b, 32 ≤ b → blk v b = blkof img b).
Notation vi := (view_of img).

Lemma read_in_img n j : 0 ≤ n → read_in mk_sb v n j = loaded img n j.
Proof.
  intros Hn. unfold read_in, loaded. rewrite Hv; [done|]. unfold IBLOCK. change (sb_inodestart mk_sb) with 32. change IPB with 8. lia.
Qed.

Lemma good_img a : good mk_sb vi a → good mk_sb v a ∧ blk v a = blkof img a.
Proof.
  intros [Ha Hu]. change (datastart mk_sb) with 59 in Ha. split; [split; [done|]|apply Hv; lia].
  rewrite <- Hu. unfold used, BBLOCK. change (sb_bmapstart mk_sb) with 58. change BPB with 4096. rewrite Hv; [done|lia].
Qed.

Lemma faddr_img i bn : ifile mk_sb vi i → faddr v i bn = faddr vi i bn.
Proof.
  intros F. unfold faddr. destruct (bn <? NDIRECT); [done|]. destruct (Z.eqb_spec (iaddr i NDIRECT) 0); [done|].
  destruct (if_ind _ _ _ F) as [|Hg]; [done|]. by rewrite (proj2 (good_img _ Hg)).
Qed.

Lemma ifile_img i : ifile mk_sb vi i → ifile mk_sb v i.
Proof.
  intros F. pose proof F as [F1 F2 F3 F4 F5 F6]. split; try done.
  - destruct F3 as [|Hg]; [by left|right]. by apply good_img.
  - intros bn Hbn. rewrite (faddr_img _ _ F). destruct (F4 bn Hbn) as [|Hg]; [by left|right]. by apply good_img.
  - intros bn bn' Hbn Hbn'. rewrite !(faddr_img _ _ F). by apply F5.
  - intros bn Hbn. rewrite (faddr_img _ _ F). by apply F6.
Qed.

Lemma no_holes_img i : ifile mk_sb vi i → no_holes vi i → no_holes v i.
Proof. intros F Hh bn. rewrite (faddr_img _ _ F). apply Hh. Qed.

Lemma contents_img i : ifile mk_sb vi i → no_holes vi i → i_size i ≤ MAXFILE * BSIZE → contents v i = contents vi i.
Proof.
  intros F Hh Hs. unfold contents, fbytes. apply list_fmap_ext. intros k x Hx. apply lookup_seqZ in Hx as [-> Hk].
  unfold fbyte. rewrite (faddr_img _ _ F). f_equal.
  assert (Hb : in_file ((0 + Z.of_nat k) / BSIZE)) by (apply in_file_byte; lia).
  destruct (if_map _ _ _ F _ Hb) as [Hz|Hg]; [|by apply good_img].
  destruct (Hh ((0 + Z.of_nat k) / BSIZE)); [unfold BSIZE; lia|unfold BSIZE in *; lia|done].
Qed.
End view.

(** ** The root directory *)

Lemma dirent_inum n name : 0 ≤ n < 65536 → de_inum (dirent n name) = n.
Proof.
  intros Hn. unfold de_inum, get16, dirent, slice. rewrite drop_0, take_app_length' by (by rewrite length_le_bytes).
  rewrite xshort_u16, le_val_bytes. change (256 ^ Z.of_nat 2) with 65536. unfold u16. lia.
Qed.

Lemma dirent_name n name : no_nul name → dname (dirent n name) = take (Z.to_nat DIRSIZ) name.
Proof.
  intros Hn. unfold dname, de_name, dirent, slice. rewrite drop_app_length' by (by rewrite length_le_bytes).
  rewrite take_take, Nat.min_id. unfold DIRSIZ. destruct (decide (14 ≤ length name)%nat).
  - rewrite take_app_le by lia. rewrite cname_full; [by rewrite take_take|by apply Forall_take|rewrite length_take; lia].
  - rewrite take_app_ge, (take_ge name) by lia. rewrite take_replicate, Nat.min_l by lia.
    destruct (Z.to_nat 14 - length name)%nat eqn:E; [lia|]. apply cname_app_nul; [done|lia].
Qed.

Lemma ents_cons d rest : length d = 16%nat → ents (d ++ rest) = d :: ents rest.
Proof.
  intros Hd. unfold ents. rewrite length_app, Hd. replace ((16 + length rest) / 16)%nat with (S (length rest / 16)).
  - cbn [seq fmap list_fmap]. f_equal.
    + unfold slice. rewrite drop_0. by apply take_app_length'.
    + rewrite <- fmap_S_seq, <- list_fmap_compose. apply list_fmap_ext. intros k x _. simpl. unfold slice.
      rewrite drop_app_ge by lia. do 2 f_equal. lia.
  - rewrite Nat.add_comm. change (length rest + 16)%nat with (length rest + 1 * 16)%nat. rewrite Nat.div_add by done. lia.
Qed.

Lemma ents_concat ds rest : Forall (λ d, length d = 16%nat) ds → ents (concat ds ++ rest) = ds ++ ents rest.
Proof.
  induction ds as [|d ds IH]; intros H; [done|]. apply Forall_cons in H as [Hd H]. simpl. rewrite <- app_assoc, ents_cons by done.
  by rewrite IH.
Qed.

Lemma dfind_at name l k e z : l !! k = Some e → de_inum e ≠ 0 → dname e = name →
  (∀ k' e', (k' < k)%nat → l !! k' = Some e' → dname e' ≠ name) → dfind name l z = Some (z + Z.of_nat k, de_inum e).
Proof.
  revert k z. induction l as [|x l IH]; intros [|k] z Hk Hn He Hno; try done; simpl.
  - injection Hk as ->. rewrite (proj2 (Z.eqb_neq _ _) Hn), bool_decide_true by done. simpl. do 2 f_equal. lia.
  - rewrite (bool_decide_false (dname x = name)) by (by apply (Hno 0%nat); [lia|]). rewrite andb_false_r.
    rewrite (IH k (z + 1)); try done; [do 2 f_equal; lia|]. intros k' e' Hlt. apply (Hno (S k')). lia.
Qed.

(** The entries that mkfs makes. *)
Definition root_list (nds : list (list Z * list Z)) : list (list Z) :=
  dirent 1 (str ".") :: dirent 1 (str "..") :: imap (λ k nd, dirent (Z.of_nat k + 2) (strip nd.1)) nds.

Lemma zero_ents n : Forall (λ e, de_inum e = 0) (ents (replicate n 0)).
Proof.
  apply Forall_forall. intros e (k & -> & Hk)%list_elem_of_fmap. apply elem_of_seq in Hk.
  unfold slice. rewrite drop_replicate, take_replicate. unfold de_inum, get16, slice. rewrite drop_0, take_replicate.
  by destruct (2 `min` _)%nat as [|[|[|]]] eqn:E; [..|lia].
Qed.

Lemma root_ents nds n : ents (root_bytes nds ++ replicate n 0) = root_list nds ++ ents (replicate n 0).
Proof.
  rewrite <- ents_concat; [f_equal; unfold root_bytes, entries, root_list; simpl; by rewrite <- !app_assoc|].
  unfold root_list. do 2 (constructor; [apply length_dirent|]). apply Forall_lookup. intros k e He.
  rewrite list_lookup_imap in He. destruct (nds !! k); [|done]. injection He as <-. apply length_dirent.
Qed.

(** The names of the files can be looked up: none is empty or the same as
    another, also after it has been cut to the length that an entry has. *)
Definition short (nd : list Z * list Z) : list Z := take (Z.to_nat DIRSIZ) (strip nd.1).
Record named (nds : list (list Z * list Z)) : Prop := {
  nm_name : Forall (λ nd, strip nd.1 ≠ [] ∧ no_nul (strip nd.1)) nds;
  nm_uniq : NoDup (str "." :: str ".." :: (short <$> nds)) }.

Lemma root_names nds : named nds → dname <$> root_list nds = str "." :: str ".." :: (short <$> nds).
Proof.
  intros [N _]. unfold root_list. cbn [fmap list_fmap]. do 2 f_equal. apply list_eq. intros k.
  rewrite !list_lookup_fmap, list_lookup_imap. destruct (nds !! k) as [nd|] eqn:E; [|done]. simpl. f_equal.
  apply dirent_name. by apply (Forall_lookup_1 _ _ _ _ N E).
Qed.

Lemma root_find nds k nd n : named nds → nds !! k = Some nd → len nds ≤ 198 →
  dfind (short nd) (ents (root_bytes nds ++ replicate n 0)) 0 = Some (Z.of_nat k + 2, Z.of_nat k + 2).
Proof.
  intros N Hk Hlen. rewrite root_ents. pose proof (lookup_lt_Some _ _ _ Hk) as Hlt. set (e := dirent (Z.of_nat k + 2) (strip nd.1)).
  assert (Hn : de_inum e = Z.of_nat k + 2) by (apply dirent_inum; lia).
  assert (He : root_list nds !! S (S k) = Some e) by (unfold root_list; simpl; by rewrite list_lookup_imap, Hk).
  assert (Hd : (dname <$> root_list nds) !! S (S k) = Some (short nd)).
  { rewrite (root_names nds N). simpl. by rewrite list_lookup_fmap, Hk. }
  rewrite (dfind_at _ _ (S (S k)) e).
  - rewrite Hn. do 2 f_equal. lia.
  - by apply lookup_app_l_Some.
  - lia.
  - rewrite list_lookup_fmap, He in Hd. by injection Hd.
  - intros k' e' Hk' He' Heq. assert (Hl : (k' < length (root_list nds))%nat) by (apply lookup_lt_Some in He; lia).
    rewrite lookup_app_l in He' by done. assert (k' = S (S k)); [|lia]. pose proof (nm_uniq _ N) as U. rewrite <- (root_names nds N) in U.
    apply (NoDup_lookup _ _ _ (short nd) U); [|done]. by rewrite list_lookup_fmap, He', <- Heq.
Qed.

(** ** The tree *)

Section tree.
Context (img : list (list Z)) (v : bview) (Hv : ∀ b, 32 ≤ b → blk v b = blkof img b).
Context (nds : list (list Z * list Z)) (Hlen : len nds ≤ 198) (Ho : holds img nds).

(** The inodes that mkfs has used. *)
Definition inodes_of (n : Z) : Prop := 1 ≤ n ≤ len nds + 1.

Lemma file_of n j : inodes_of n → i_dev j = ROOTDEV → i_size (loaded img n j) ≤ MAXFILE * BSIZE →
  ifile mk_sb v (read_in mk_sb v n j) ∧ no_holes v (read_in mk_sb v n j) ∧
  contents v (read_in mk_sb v n j) = contents (view_of img) (loaded img n j).
Proof.
  intros Hn Hj Hs. unfold inodes_of in Hn. destruct (wf_file _ _ _ (ho_form _ _ Ho) n j Hn Hj) as [F Hh].
  rewrite (read_in_img img v Hv) by lia. split_and!; [by apply (ifile_img img v Hv)|by apply (no_holes_img img v Hv)|].
  by apply contents_img.
Qed.

Lemma dino_file k name data : nds !! k = Some (name, data) → i_type (dino mk_sb v (Z.of_nat k + 2)) = T_FILE ∧ i_nlink (dino mk_sb v (Z.of_nat k + 2)) = 1.
Proof.
  intros Hk. unfold dino. rewrite (read_in_img img v Hv) by lia. destruct (ho_file _ _ Ho k name data (recycled (Z.of_nat k + 2) inode0) Hk) as (? & ? & _). done.
Qed.

Lemma root_dents : ∃ n, dents mk_sb v ROOTINO = root_list nds ++ ents (replicate n 0) ∧
  dents mk_sb v ROOTINO = ents (root_bytes nds ++ replicate n 0).
Proof.
  destruct (ho_root _ _ Ho (recycled ROOTINO inode0)) as (_ & _ & _ & Hs & n & Hc & _). exists n. rewrite <- root_ents. unfold dents, dino.
  destruct (file_of ROOTINO (recycled ROOTINO inode0)) as (_ & _ & Ec); [unfold inodes_of, ROOTINO; lia|done|lia|].
  rewrite Ec, Hc. done.
Qed.

Lemma root_dir : dir_file mk_sb v (dino mk_sb v ROOTINO).
Proof.
  destruct (ho_root _ _ Ho (recycled ROOTINO inode0)) as (Ht & _ & Hm & Hs & _).
  destruct (file_of ROOTINO (recycled ROOTINO inode0)) as (F & Hh & _); [unfold inodes_of, ROOTINO; lia|done|lia|].
  unfold dino in *. split; [|done|done|..]; rewrite (read_in_img img v Hv) by (unfold ROOTINO; lia).
  - done.
  - done.
  - unfold BSIZE, DIRENTSZ in *. lia.
Qed.

Lemma tree_closed : closed mk_sb v inodes_of.
Proof.
  intros n Hn. unfold inodes_of in Hn. destruct (decide (n = ROOTINO)) as [->|Hne].
  - destruct (ho_root _ _ Ho (recycled ROOTINO inode0)) as (Ht & Hl & _).
    split; [by vm_compute|..].
    + unfold dino. rewrite (read_in_img img v Hv) by done. by rewrite Ht.
    + unfold dino. rewrite (read_in_img img v Hv) by done. by rewrite Hl.
    + intros _. split; [apply root_dir|]. destruct root_dents as (m & -> & _). intros e [He|He]%elem_of_app Hz.
      * unfold root_list in He. apply elem_of_cons in He as [->|He]; [unfold inodes_of; rewrite dirent_inum; lia|].
        apply elem_of_cons in He as [->|He]; [unfold inodes_of; rewrite dirent_inum; lia|].
        apply list_elem_of_lookup in He as [k Hk]. rewrite list_lookup_imap in Hk. destruct (nds !! k) as [nd|] eqn:E; [|done].
        injection Hk as <-. apply lookup_lt_Some in E. unfold inodes_of. rewrite dirent_inum; lia.
      * destruct Hz. pose proof (zero_ents m) as Z0. rewrite Forall_forall in Z0. by apply Z0.
  - unfold ROOTINO in Hne. destruct (lookup_lt_is_Some_2 nds (Z.to_nat (n - 2))) as [[name data] Hk]; [lia|].
    destruct (dino_file _ _ _ Hk) as [Ht Hl]. rewrite Z2Nat.id in Ht, Hl by lia. replace (n - 2 + 2) with n in Ht, Hl by lia.
    split; [change (sb_ninodes mk_sb) with 200; lia|by rewrite Ht|by rewrite Hl|].
    unfold is_dir. by rewrite Ht.
Qed.
End tree.

(** ** Reading a file of the host *)

Lemma elems_one name : name ≠ [] → existsb (λ c, c =? Dir.SLASH) name = false → elems (Dir.SLASH :: name) = [name].
Proof.
  intros Hne Hs. unfold elems. cbn [elems_from]. change (Dir.SLASH =? Dir.SLASH) with true. cbv iota.
  assert (H : ∀ cur, cur ++ name ≠ [] → elems_from cur name = [cur ++ name]).
  { clear Hne. induction name as [|c name IH]; intros cur Hc; cbn [elems_from].
    - rewrite app_nil_r in *. by destruct cur.
    - cbn [existsb] in Hs. apply orb_false_iff in Hs as [-> Hs]. rewrite (IH Hs); [by rewrite <- app_assoc|]. by destruct cur. }
  by rewrite (H []).
Qed.

Lemma strip_slash name : existsb (λ c, c =? Dir.SLASH) name = false → existsb (λ c, c =? Dir.SLASH) (strip name) = false.
Proof. destruct name as [|c name]; [done|]. simpl. intros Hs. destruct (c =? UNDERSCORE); [|done]. by apply orb_false_iff in Hs as [_ Hs]. Qed.

Section read.
Context (me : Z).
Notation T := (lstate (D := bstate)).
#[local] Instance k_ops : TxOps T := kernel_ops me.
#[local] Instance k_spec : @TxSpec T k_ops := kernel_spec me.
Context (devsw : Z → option (device (T := T))).
Context (img : list (list Z)) (nds : list (list Z * list Z)) (Hlen : len nds ≤ 198) (Ho : holds img nds).
Context (s : fsstate (T := T)) (v : bview) (Hv : ∀ b, 32 ≤ b → blk v b = blkof img b).
Context (I : icok s v 0) (Esb : fs_sb s = mk_sb) (Ei : ic_inode s = replicate (Z.to_nat NINODE) inode0).

(** The path of a file leads to its inode. *)
Lemma namei_file k nd cwd buf : named nds → nds !! k = Some nd → existsb (λ c, c =? Dir.SLASH) nd.1 = false → length buf = Z.to_nat DIRSIZ →
  ∃ ip s1 i, namei me devsw cwd (Dir.SLASH :: strip nd.1) buf s = Ok (Some ip) s1 ∧ icok s1 v 0 ∧ quiet s1 None ∧ fs_sb s1 = mk_sb ∧
    ic_inode s1 !! ip = Some i ∧ 0 < i_ref i ∧ i_inum i = Z.of_nat k + 2.
Proof.
  intros N Hk Hs Hb. pose proof (tree_closed img v Hv nds Hlen Ho) as HC.
  destruct (Forall_lookup_1 _ _ _ _ (nm_name _ N) Hk) as [Hne Hnn].
  assert (Hq : quiet s None) by (intros q j Hj _; rewrite Ei in Hj; by apply lookup_replicate in Hj as [-> _]).
  assert (Hf : (2 ≤ nfreei (ic_inode s))%nat) by (rewrite Ei; vm_compute; lia).
  destruct (namex_ok me devsw mk_sb v 0 (inodes_of nds) HC s cwd 0 (Dir.SLASH :: strip nd.1) false buf I Esb Hq Hf) as (r & nm & s1 & E & Re & _).
  - unfold inodes_of, ROOTINO. lia.
  - by left.
  - constructor; [done|exact Hnn].
  - done.
  - rewrite elems_one in Re by (done || by apply strip_slash). change (start_of 0 _) with ROOTINO in Re. cbn [reached target walk] in Re.
    assert (Hdir : is_dir mk_sb v ROOTINO = true).
    { unfold is_dir. by rewrite (df_type _ _ _ (root_dir img v Hv nds Ho)). }
    rewrite Hdir in Re. destruct (root_dents img v Hv nds Ho) as (z & _ & Hd). rewrite Hd in Re.
    fold (short nd) in Re. rewrite (root_find nds k nd z N Hk Hlen) in Re.
    destruct Re as (_ & ip & -> & [A1 A2 A3 _ (i & Hi & Hr & Hn)]). exists ip, s1, i. split; [|done]. unfold namei. by mstep E.
Qed.

(** Its inode is locked and the file is read. *)
Lemma read_file s1 ip i k name data : icok s1 v 0 → quiet s1 None → fs_sb s1 = mk_sb → ic_inode s1 !! ip = Some i → 0 < i_ref i →
  i_inum i = Z.of_nat k + 2 → nds !! k = Some (name, data) →
  ∃ s2 t j, ilock me (Some ip) s1 = Ok tt s2 ∧ ic_inode s2 !! ip = Some j ∧ i_type j = T_FILE ∧ i_size j = len data ∧
    readi devsw ip 0 (len data) s2 = Ok (len data, data) (set_tx t s2).
Proof.
  intros I1 Q1 Es1 Hi Hr Hn Hk. set (n := Z.of_nat k + 2) in *. pose proof (lookup_lt_Some _ _ _ Hk) as Hlt.
  destruct (ho_file _ _ Ho k name data i Hk) as (Ht & _ & Hc & Hs & Hm). fold n in Ht, Hc, Hs, Hm.
  pose proof (read_in_img img v Hv n i ltac:(lia)) as Er. destruct (eo_dev _ _ _ (ic_ent _ _ _ I1 _ _ Hi) Hr) as [Hdev _].
  destruct (file_of img v Hv nds Ho n i ltac:(unfold inodes_of; lia) Hdev Hm) as (F & Hh & Hcv).
  destruct (ilock_ok me s1 v 0 ip i I1 Hi Hr) as (t1 & E1 & I2).
  { by apply (Q1 _ _ Hi). }
  { rewrite Es1, Hn, Er, Ht. done. }
  set (j := locked me (fs_sb s1) v i) in *. set (s2 := set_tx t1 (upd_ino ip j s1)) in *.
  assert (Ej : j = set_ivalid 1 (set_ilock (mksl false 1 me []) (read_in mk_sb v n i))) by (unfold j, locked; by rewrite Es1, Hn).
  destruct (file_ext mk_sb v (read_in mk_sb v n i) j) as (Hc' & Hf' & Hh'); [by rewrite Ej..|].
  assert (Hj : i_type j = T_FILE ∧ i_size j = len data) by (rewrite Ej, Er; exact (conj Ht Hs)). destruct Hj as [Hjt Hjs].
  assert (Hj2 : ic_inode s2 !! ip = Some j) by (by eapply upd_ino_lookup). change (MAXFILE * BSIZE) with 71680 in Hm.
  destruct (readi_ok devsw s2 v 0 ip j 0 (len data)) as (t2 & E2 & _).
  - apply I2.
  - apply I2.
  - exact Hj2.
  - change (fs_sb s2) with (fs_sb s1). rewrite Es1. by apply Hf'.
  - by apply Hh'.
  - apply I2.
  - eapply free_room; apply I2.
  - by rewrite Hjt.
  - lia.
  - lia.
  - lia.
  - change (MAXFILE * BSIZE) with 71680. lia.
  - exists s2, t2, j. split_and!; try done. rewrite E2, Hjs, Z.sub_0_r, Z.min_id. do 2 f_equal.
    etrans; [|exact Hc]. rewrite <- Hcv, <- Hc'. unfold contents. by rewrite Hjs.
Qed.
End read.

(** C6: the kernel finds the files that mkfs was given: booted from the image that
    mkfs has made, it finds each of them by its name in the root directory,
    through namei on the inode cache, the buffer cache and the disk, and readi
    returns the bytes of the host's file. *)
Theorem mkfs_boot_read me devsw host errmsg prog image nds k name data cwd buf :
  fits host nds → named nds → nds !! k = Some (name, data) → length buf = Z.to_nat DIRSIZ →
  ∃ m s, mkfs_main ok true host errmsg (prog :: image :: nds.*1) mk0 = Ok (Exit 0) m ∧
    fs_start me (m_img m) = Ok tt s ∧
    ∃ ip s1 s2 t i, @namei _ (kernel_ops me) me devsw cwd (Dir.SLASH :: strip name) buf s = Ok (Some ip) s1 ∧
      @ilock _ (kernel_ops me) me (Some ip) s1 = Ok tt s2 ∧
      ic_inode s2 !! ip = Some i ∧ i_type i = T_FILE ∧ i_size i = len data ∧
      @readi _ (kernel_ops me) devsw ip 0 (len data) s2 = Ok (len data, data) (set_tx t s2).
Proof.
  intros F N Hk Hb. destruct (mkfs_makes host errmsg prog image nds F) as (m & E & Ho).
  exists m. pose proof (ho_form _ _ Ho) as [[W1 W2] W3 _ _ _ _ _ _].
  assert (Hlog : blkof (m_img m) 2 = zeros) by exact (ho_log _ _ Ho).
  destruct (fs_start_ok me (m_img m) W1 W2 W3 Hlog) as (s & v & Es & I & Esb & Ei & Hv). exists s. split; [exact E|]. split; [exact Es|].
  destruct (Forall_lookup_1 _ _ _ _ (ft_files _ _ F) Hk) as (_ & Hs & _).
  destruct (namei_file me devsw (m_img m) nds (ft_inodes _ _ F) Ho s v Hv I Esb Ei k (name, data) cwd buf N Hk Hs Hb)
    as (ip & s1 & i & E1 & I1 & Q1 & Es1 & Hi & Hr & Hn).
  destruct (read_file me devsw (m_img m) nds Ho v Hv s1 ip i k name data I1 Q1 Es1 Hi Hr Hn Hk) as (s2 & t & j & E2 & H2 & H3 & H4 & E3).
  exists ip, s1, s2, t, j. exact (conj E1 (conj E2 (conj H2 (conj H3 (conj H4 E3))))).
Qed.

Lemma named2 : named files2.
Proof.
  split.
  - repeat constructor; by vm_compute.
  - apply (bool_decide_unpack _). by vm_compute.
Qed.

Definition nodevs : Z → option (device (T := lstate (D := bstate))) := λ _, None.

Lemma mkfs_boot_read_witness :
  ∃ m s, mkfs_main ok true host2 [] (str "mkfs" :: str "fs.img" :: [str "_echo"; str "README"]) mk0 = Ok (Exit 0) m ∧
    fs_start 1 (m_img m) = Ok tt s ∧
    ∃ ip s1 s2 t i, @namei _ (kernel_ops 1) 1 nodevs 0 (str "/echo") (replicate 14 0) s = Ok (Some ip) s1 ∧
      @ilock _ (kernel_ops 1) 1 (Some ip) s1 = Ok tt s2 ∧
      ic_inode s2 !! ip = Some i ∧ i_type i = T_FILE ∧ i_size i = 2 ∧
      @readi _ (kernel_ops 1) nodevs ip 0 2 s2 = Ok (2, [104; 105]) (set_tx t s2).
Proof.
  exact (mkfs_boot_read 1 nodevs host2 [] (str "mkfs") (str "fs.img") files2 0 (str "_echo") [104; 105] 0 (replicate 14 0)
    fits2 named2 eq_refl eq_refl).
Defined.

(** The booted kernel, and the inodes that mkfs has used. *)
Lemma booted2 : ∃ (s : fsstate (T := lstate (D := bstate))) v, @icok _ _ (kernel_spec 1) s v 0 ∧ quiet s None ∧
  closed (fs_sb s) v (inodes_of files2) ∧ (2 ≤ nfreei (ic_inode s))%nat.
Proof.
  destruct (mkfs_makes host2 [] (str "mkfs") (str "fs.img") files2 fits2) as (m & _ & Ho).
  pose proof (ho_form _ _ Ho) as [[W1 W2] W3 _ _ _ _ _ _].
  destruct (fs_start_ok 1 (m_img m) W1 W2 W3 (ho_log _ _ Ho)) as (s & v & _ & I & Esb & Ei & Hv). exists s, v. split; [exact I|].
  rewrite Esb. split_and!.
  - intros q j Hj _. rewrite Ei in Hj. by apply lookup_replicate in Hj as [-> _].
  - exact (tree_closed _ v Hv files2 (ft_inodes _ _ fits2) Ho).
  - rewrite Ei. vm_compute. lia.
Qed.

Lemma namex_correct_witness :
  ∃ (s : fsstate (T := lstate (D := bstate))) v r name' s',
    @namex _ (kernel_ops 1) 1 nodevs 0 (str "/README/x") false (replicate 14 0) s = Ok (r, name') s' ∧ @icok _ _ (kernel_spec 1) s' v 0.
Proof.
  destruct booted2 as (s & v & I & Q & HC & Hf). exists s, v.
  destruct (@namex_correct _ _ (kernel_spec 1) 1 nodevs s v 0 (inodes_of files2) 0 0 (str "/README/x") false (replicate 14 0))
    as (r & nm & s' & E & I' & _).
  - exact I.
  - exact Q.
  - exact HC.
  - unfold inodes_of, ROOTINO. simpl. lia.
  - exact Hf.
  - by left.
  - apply (bool_decide_unpack _). by vm_compute.
  - done.
  - exists r, nm, s'. split; [exact E|exact I'].
Defined.
